(* ===== verification/_CoqProject ===== *)
-Q . S2P
Prelude.v
Paths.v
TaskStatus.v
Schema.v
FailureClass.v
ToolNames.v
JsonRepair.v
PlanDAG.v
Regex.v
Sanitizer.v
Staging.v
BatchEdit.v
Patch.v
Wal.v
Config.v
Output.v
Sieve.v
DecisionGate.v
CycleBreaker.v
Surgery.v
DecisionAnswer.v
OutputHandlers.v
Verify.v
CostSentinel.v
Registry.v
Planning.v
Admission.v
Cron.v
ReadCache.v
SliceSort.v
Forest.v
Search.v
Archive.v
Governance.v
Compress.v
Router.v
Schedules.v
Fence.v
PathLock.v
Effects.v
ToolCalls.v
RateLimit.v
Providers.v
Turns.v
Scheduler.v
StepExec.v
AgentLoop.v
BudgetGate.v
Experience.v
SkillChoice.v
Reflection.v
Submit.v
Network.v
Mounts.v
Fulfil.v
