(* ===== verification/Prelude.v ===== *)
(** * Vortex (github.com/daybeam/vortex): a verification library for its core

    Vortex runs a task as a directed acyclic graph of steps.  Each step is
    handed to a spawned agent; the engine classifies what comes back, retries,
    repairs or rewrites the graph, and asks a person (or an unattended decider)
    when it cannot go on.  This library models that engine: the task graph, the
    scheduler loop, the execution of a step, the handling of its output, the
    decisions and their answers, and the rewriting of the graph.

    ** Parts

    - [Prelude]: records with field update, errors, 64-bit integers, Go's string
      and map operations, lemmas the components share.
    - [Paths] (path/filepath): cleaning and containment of paths.
    - [TaskStatus] (schemas/task_status.go): statuses and the keyword classifiers.
    - [Schema] (schemas/task.go, task_charter.go, mcp_mount_approval.go): the
      task graph as a record, its methods ([ReadySteps], [FallbackFor],
      [IsTerminal], approvals, ledgers, summary), well-formedness, ranks.
    - [FailureClass] (schemas/output.go, core/failure_classify.go and the
      diagnosis of core/scheduler_decision_preflight.go).
    - [ToolNames] (core/tool_identity.go, core/sieve, core/plan_coverage.go):
      reads, writes and actions by a tool's name; does a plan cover a request.
    - [JsonRepair] (pkg/jsonrepair/jsonrepair.go): closing truncated JSON and
      cutting arrays back; the grammar of RFC 8259; the class [Scans], what every
      loop that skips string literals does, with its instances.
    - [PlanDAG] (schemas/plan_dag.go): from a planner's answer to step inputs:
      recovering the JSON, envelopes, validation, the cycle search.
    - [Regex] (regexp of Go's library): backtracking matching, sound and complete
      for the language of an expression; folding of case under [(?i)]; replacing and
      splitting by it.
    - [Sanitizer] (pkg/gateway/sanitizer.go, sanitizing_provider.go): secrets are
      replaced by tokens on the way to a provider and put back on the way home,
      in whole responses and in streams.
    - [Staging] (core/staged_workspace.go): snapshots of a task's directory
      around a step, the journal, and the rollback of a failed step.
    - [BatchEdit] (core/replace_batch.go): replacing text in several files, all
      or none.
    - [Patch] (config/patch.go): RFC 6902 patches of a Go value by reflection, with
      its panics; what a patch does, said of the tree.
    - [Wal] (config/wal.go, compactor.go, rollback.go): the log of the
      configuration; a registry in memory, a snapshot and the patches since; every
      interleaving of the two halves of commits with saves, compactions, crashes and
      torn writes, and which of them are orderly.  The
      classes [Patchable] and [Snapshots] are what it asks of a registry.
    - [Config] (config/loader.go, config_split.go, config_occ.go): defaults,
      overrides, loading, falling back and saving the registry.
    - [Output] (schemas/output.go): what an agent answered, read from JSON,
      fenced blocks, the span of its braces or kept as text.
    - [Sieve] (core/sieve, core/spawner_sieve_turn.go): refusing tool calls that go
      in circles, pruning and comparing texts, and the guardian's turn.
    - [ReadCache] (core/tool_read_cache.go): replaying the results of reads.
    - [SliceSort] (sort.Slice of Go's library): the class [Sorter], what a client
      of an unstable sort may rely on.
    - [Search] (pkg/search/search.go), [Forest] (core/forest_optimizer.go):
      words, BM25 and the fusion of rankings; disjoint sets and Kruskal's
      algorithm over similar items.
    - [Archive] (core/context_archive.go, core/redact): the memories of tasks, in
      memory and in their file; searching them with [Search] and [Forest].
    - [Governance] (core/prompt_governance.go): the budget of a system prompt.
    - [Compress] (core/context_manager.go): whether a request fits the window,
      and its compression: logs, JSON, code, repeated lines, paragraphs.
    - [Router] (core/tool_router.go, spawner_sticky_union.go, spawner_mcp.go,
      mcp_toggle.go, core_tool_policy.go): the tools a step sees, by [Search] and
      [Forest], and the server a call goes to.
    - [ToolCalls] (core/spawner_tool_exec.go, mcp_error_parse.go,
      state_potential.go): the calls of a turn, one after the other, over [Router],
      [Sieve], [ReadCache] and [Effects].
    - [Turns] (core/heartbeat.go, spawner_turn_completion.go,
      spawner_completion_gates.go, context_bucket.go, healer.go, parts of
      spawner_utils.go): what a turn does with a response, the history and how it
      is shortened, the candidates of a step.
    - [AgentLoop] (core/spawner_dospawn.go): the loop of an agent, over [Turns],
      [ToolCalls], [Sieve], [Compress] and [Providers].
    - [DecisionGate] (core/scheduler_decision_gate.go): parking a decision, the
      options offered, unattended resolution, blocking a failed step.
    - [CycleBreaker] (core/cycle_breaker.go): supplement rounds and the fuse.
    - [Surgery] (core/scheduler_surgery.go): replacing a dead-end step.
    - [DecisionAnswer] (core/scheduler_decision_answer.go, parts of
      scheduler_status.go, scheduler_status_helpers.go, role_generator.go):
      submitting an answer to a parked decision.
    - [OutputHandlers] (core/scheduler_decision.go, scheduler_decision_success.go,
      scheduler_decision_failure.go, auto_deposition.go, budget_guard.go).
    - [Verify] (core/scheduler_decision_audit.go, artifact_validator.go,
      core/verify/deterministic_verifier.go): exit criteria, artifact
      contracts, deterministic checks, the auditor and the debate.
    - [CostSentinel] (core/cost_sentinel.go): the two cost observers.
    - [Registry] (config, core/capability/discovery.go): roles, servers and
      workspace policies as the engine reads them.
    - [Planning] (core/scheduler_planner.go): asking the planner for a plan, and
      what the plan takes over from the caller.
    - [Admission] (core/input_guard.go, scheduler_submit_gate.go, session.go,
      skill_interpreter.go): the checks before a task exists, and the expansion
      of directory skills.
    - [Cron], [Schedules] (core/cron, core/schedule_manager.go): the text of a
      schedule, its next run, and several processes that fire its windows.
    - [Fence] (core/scheduler_fence.go, [persistGraph]): engines that share a
      task directory, as programs over it and as a lease.
    - [PathLock] (core/path_lock.go): one lock per path, several goroutines.
    - [Effects] (core/effect_tracker.go, idempotency.go): records of external
      effects, their probing and compensation.
    - [RateLimit] (pkg/ratelimit): the leaky bucket.
    - [Providers] (providers: retry.go, fallback.go, types.go, router.go,
      pareto_routing.go, factory.go, instances.go; pkg/pareto): the wrappers of a
      model backend, the router's slots, building and choosing providers.
    - [Scheduler] (core/scheduler_dag.go, dag_walker.go, scheduler_taskctl.go,
      scheduler_decision_finalize.go): the run loop, finalisation, claims,
      suspension; the class [StepExecutor] is what the loop asks of the
      component that executes a step.
    - [StepExec] (core/scheduler_dag_exec.go): one step from the budget check to
      exhaustion; the instance [exec_step_executor] discharges [StepExecutor].
    - [BudgetGate] (core/budget_gate.go): counting tokens and suspending a task.
    - [Experience] (store/experience_*.go, jit_candidate_ops.go): what finished
      tasks teach: patterns, profiles, affinities, skills, routes, potentials.
    - [SkillChoice] (store/experience_bandit.go, the queries of
      store/experience_skills.go): choosing and finding skills by experience,
      with [Search].
    - [Reflection] (core/reflection.go, reflection_jit_source.go): the pass over a
      finished task that feeds [Experience], over [SkillChoice] and [Registry]: the
      loop over the records, the goroutine that merges skills and the goroutines that
      make skills of traces, under every schedule of their moves.
    - [Submit] (core/scheduler_submit.go, draft_store.go, fastpath_engine.go):
      from the caller's inputs to a registered task; the job of a lone step.
      It composes [Admission], [Planning], [Scheduler] and [StepExec].
    - [Network] (config/mount_policy.go): addresses of the host and its network,
      with [net.ParseIP].
    - [Mounts] (core/validator.go, core/mount_gate.go, core/hub.go,
      core/spawner_prepare.go, config/registry_impl.go): which skills and servers
      a step gets: lookups, policies, approvals, merging, over [Network],
      [Registry], [Search] and [Router].
    - [Fulfil] (core/scheduler_status.go, scheduler_delegation_wait.go,
      delegation_answer_timeout.go, stale_decision_report.go): the host answers
      a delegated step or request, with the task store between its critical sections;
      waiting for a task; overdue answers.

    ** State and effects

    A pointer to a step is the step's key in [TaskGraph.Steps]; writes through
    it are updates of the map ([upd_step]), and every graph the engine builds
    stores a step under its own id ([wf_graph]).  A handler that runs on one
    graph works on [GateState]: the graph, the rate-limit clock of unattended
    mode and the outputs emitted so far (persisted graphs, broadcasts, events,
    audit entries).  Task control and answers work on [Engine]: all graphs and
    the channels that wait for them.  A critical section is one function; an
    interleaving is a list of steps or an order argument.  Iterating a Go map
    takes the order as an argument, and theorems hold for every [range_order].
    [int] is [Z] with [wrap64] where the code adds; [float64] is the Standard
    Library's [spec_float].  Code that returns an error after mutating returns
    the graph it leaves along with the error.

    What the engine calls outside these files (the spawned agents, the archive,
    storage, JSON, patterns a user writes, child processes) is an argument: the
    environment records [OutEnv], [AnswerEnv], [VerifyEnv], [ExecEnv],
    [PlanEnv], [PlannerEnv], [SubmitEnv], [JobEnv], [DecodeEnv], [FulfilEnv],
    [SearchEnv], [ToolEnv], [LoopEnv], [REnv], [HubEnv] and [SkillFiles], and the classes [ItemCodec] and [Sorter].

    ** What is shown

    - Execution of a step ([StepExec]): it ends within the retries and
      refinements left and does not leave the step running; OK means that the very
      output it ended with was verified;
      over steps that succeed the loop completes the task, end to end.
    - The loop ([Scheduler]): a healthy task completes; on a live graph the loop
      never idles; finalising is idempotent; claims exclude each other;
      suspending and resuming restores the task.
    - Providers ([Providers]): what a retrying call does, exactly; the state of
      cache and router is an invariant; routing picks an undominated healthy
      slot; building a provider ends; instances are there to fail over to.
    - Tool calls ([Router], [ToolCalls], [Sieve], [ReadCache]): a call goes only
      where its step was authorized, unless routing emptied an allow-list or the
      decision model named the tool; every
      call is answered; the same call is dispatched a bounded number of times, one
      that always reads the same as often as the cap says, and
      a model that goes in circles is stopped within a number of turns; the
      sieve's state is bounded; a replayed result is recent and not overtaken by a
      write the engine saw.
    - The loop of an agent ([AgentLoop], [Turns]): it ends whatever the providers
      answer, within a number of requests, the guardian's included; its guards hold at
      every turn; an OK needs a call, a directive, or an admission that something was
      not parsed.
    - Memory ([Archive], [Search], [Forest], [Governance], [Compress]): a search
      returns only what a task may see, redacted; a restart reads back what was
      remembered; fusion of rankings is what counting says; the forest is
      spanning and of maximal weight; a prompt keeps its protected blocks and
      exceeds its budget by little; a compressed request keeps its protected
      texts and its errors.
    - Experience ([Experience], [SkillChoice], [Reflection]): under any operations
      counts add up and the index by skill is exact, and the index of sequences is
      until patterns are pruned or an operation reuses a key or an id; pruning by an
      index is pruning by its reference; the chosen skill is the one UCB1 says;
      reflection is a run of the store's operations, verifies only what earned it or
      was merged of what had, and never touches what is known of the skills of steps
      that failed.
    - Mounts ([Mounts], [Network]): what a submitter who is no admin is given was
      open, approved, or harmless; asking for approval once is enough; a
      combination of skills is accepted exactly when it fits; the match for a
      description does not depend on the order of a map unless two are exact; a
      dotted address is internal exactly when it should be.
    - Outputs ([OutputHandlers]): an accepted output completes exactly its
      step; a rejected one never leaves it running; spending is checked exactly.
    - Decisions ([DecisionGate], [DecisionAnswer]): what is offered and to whom,
      guarded unattended answers, a decision is consumed by one answer, a
      refused answer changes nothing.
    - The graph ([Surgery], [CycleBreaker]): surgery releases every dependent,
      keeps ids and acyclicity and justifies each status change; supplement
      rounds are bounded.
    - Verification ([Verify], [CostSentinel]): the artifact validator is exact,
      only screened commands run, alerts are raised once.
    - JSON ([JsonRepair]): a truncated text is repaired into a text of exactly
      what was read; an unfinished last element is dropped and nothing else;
      closing any text leaves nothing open.
    - Plans ([PlanDAG]): a plan inside prose is found whole; an accepted plan is
      executable and acyclic; the cycle search ends and reports exactly the
      cycles there are.
    - Submission ([Admission], [Planning], [Submit]): the gates are exact; a
      refused submission changes nothing and an accepted one adds exactly its
      task; a plan that is used was accepted against the current roles and tools;
      a request planned into several steps is executed to the end; the job of a
      lone step always ends with an outcome.
    - Delegation ([Fulfil], [Output]): a delivered result completes exactly its
      step; of several answers one is taken; a request the host plans is
      executed to the end; a delegation is reported as unanswered exactly when
      it has waited too long; an answer in a fenced block is read from it.
    - Several processes ([Fence], [Schedules], [PathLock]): a claim has one
      holder under any interleaving, and the engines refine a preemptive lease and
      cancel the executors of those that lost it;
      a window fires once; two steps never hold a path one of them writes.
    - Time and rates ([Cron], [RateLimit], [BudgetGate]): fields parse to what
      they denote, the next run is the first matching minute, requests in a
      window are bounded, a task is suspended exactly above its threshold.
    - Effects ([Effects]): compensating a step restores the external state.
    - Files ([Staging], [BatchEdit]): a failed step's workspace is put back, if it is
      one that can be; a
      batch of edits changes every file it names as asked, or none.
    - Configuration ([Patch], [Wal], [Config]): a patch changes exactly what is at
      the end of its path, and keeps types; a restart after any orderly run of commits,
      saves, compactions and crashes has every acknowledged commit once; what is saved
      is read back, except for four settings and what chains of roles add; delegation
      mode never generates roles.
    - Secrets ([Sanitizer]): what a provider is sent matches no secret pattern;
      what was masked is restored, however a response is cut into chunks.
    - Where the code does not do what it means to, the theorem states what it
      does: the auditor's verdict is never a pass ([auditor_never_passes],
      [audited_step_never_ok]); a missing role reopens a cancelled task
      ([role_missing_reopens]); a spent step is requeued without a retry
      ([requeue_without_retry]); "resume" has no handler
      ([budget_resume_unanswerable]); the fuse leaves steps suspended
      ([fuse_then_refine_stuck]); an unknown dependency stalls a task
      ([unknown_dependency_stalls]); a dependency with white space around it
      is accepted and names no step ([untrimmed_dependency_unknown]); some
      answers mutate before they are checked ([rewrite_applied_before_lookup]); failed surgery is not undone
      ([surgery_error_not_atomic]); a planned request forgets who asked
      ([planned_task_forgets_caller]); no draft can be patched
      ([saved_draft_unpatchable]); a leap day is missed ([leap_day_missed]); an
      executor restarted after it lost its fence runs and never writes
      ([restart_after_loss_runs_muted]); the budget gate trips once per task
      ([gate_blind_after_resume]); unreadable text fulfils a delegated step and
      an honest failure does not ([prose_fulfils_failure_refused]); decisions that
      reflection reports are dropped ([skips_forgotten]), and a failure is blamed on
      skills only when a role is missing ([blame_exact]); a skill for admins is
      granted by its description ([text_grants_admin_skill]); a binding is widened
      by naming it ([binding_widened]); a delivery that loses overwrites the stored
      result ([loser_overwrites_store]); a call of a tool that does not exist is work
      enough ([unknown_call_counts]); failed calls may be repeated for ever
      ([failures_uncapped]); the decision model may name a tool off the allow-list
      ([model_widens]); a merged skill is verified unused ([merged_unused]); a chain
      of roles grows at a restart ([chain_changes]).

    ** Fuel and bounds

    [run_loop] takes one pass per pending step and one to finalise, which
    [run_loop_completes] proves enough.  [attempt_loop] takes [attempt_fuel],
    one more than the retries and refinements left, which [executeStep_settles]
    proves enough; it assumes non-negative counters and a retry limit below the
    largest [int] ([exec_bounds]), since at that limit the counter wraps.
    [containsWord_loop] takes one iteration per byte and one more.  The cycle
    search [visit_all] goes at most as deep as there are ids ([plan_nodes]),
    which [plan_cycle_exact] proves enough; [findPlanStepsIn] opens the four
    levels of envelopes the code allows.  [plan_attempts] makes the two
    attempts of [plannerParseAttempts].  [smart_loop] takes [job_fuel], one more
    than the refinements left, which [smart_task_settles] proves enough.  [turns_from] takes the limit of
    turns, as the code's loop does; [bisect] one step per rune and one more.  A cron
    step loop takes [step_fuel] = 64 iterations, which [step_fuel_enough] proves
    enough for every field; the search for the next run takes the code's own
    366 * 24 * 60 minutes ([maxIter]).

    ** Not modelled

    Prompt assembly, the backends of model providers, storage, sandboxes, MCP
    servers, the chat front end and the HTTP gateway are I/O around the engine;
    context folding is constructed by nothing outside tests.  Of [executeStep] the path lock,
    read-dependency detection, the context tree and waiting times are left out
    (the staging around a step is the component [Staging], which takes the step
    as an argument); log lines and metrics are left out everywhere.  Of a submission the copying
    of input directories and the embedding of the root are left out; of the
    status queries the full views and the listing of persisted tasks.  Of the
    experience store the graph of precedents, anti-patterns, briefs and the tables
    of the database are left out, and one reading of the clock stands for those of
    a whole pass; in a pass of reflection one record, one merge and one trace is one
    move, and other tasks do not move in between.  Strings are bytes; [to_lower] maps the case of ASCII letters only. *)

From stdpp Require Export prelude gmap strings list fin_maps sorting pretty.
From Stdlib Require Export ZArith Lia.
From Stdlib Require Import Ascii SpecFloat.

(* The Standard Library exports its own [>>] and string notations; the
   development uses stdpp's throughout. *)
Declare Scope vortex_scope.
Delimit Scope vortex_scope with vx.
#[global] Open Scope vortex_scope.

(** ** Record update

    Go mutates struct fields in place.  A record type with an [Eta] instance
    (its eta expansion) gets field updates [r <| field := v |>] and
    [r <| field ::= f |>]; the setter is found by abstracting the projection
    out of the eta expansion. *)

Class Eta (R : Type) := eta_expand : R → R.
Class HasField {R T : Type} (field : R → T) := update : (T → T) → R → R.

Ltac build_setter field :=
  lazymatch goal with
  | |- @HasField ?R ?T _ =>
      let inst := constr:(_ : Eta R) in
      let body := eval hnf in inst in
      lazymatch eval pattern field in body with
      | ?rebuild _ =>
          exact (fun (g : T → T) (r : R) => rebuild (fun r' => g (field r')) r)
      end
  end.
#[export] Hint Extern 0 (HasField ?field) => build_setter field : typeclass_instances.

Notation "r <| field := v |>" := (update (field := field) (fun _ => v) r)
  (at level 1, left associativity, field at level 5,
   format "r  <| field  :=  v |>") : vortex_scope.
Notation "r <| field ::= f |>" := (update (field := field) f r)
  (at level 1, left associativity, field at level 5,
   format "r  <| field  ::=  f |>") : vortex_scope.

(** ** Results: a Go function returning [(T, error)] *)

Inductive result (E A : Type) :=
| Ok (a : A)
| Err (e : E).
Arguments Ok {E A} a.
Arguments Err {E A} e.

Definition rbind {E A B} (r : result E A) (k : A → result E B) : result E B :=
  match r with Ok a => k a | Err e => Err e end.

Notation "'let?' x ':=' r 'in' k" := (rbind r (fun x => k))
  (at level 10, x binder, r at level 100, k at level 200,
   format "'let?'  x  ':='  r  'in' '//' k") : vortex_scope.

Definition guard {E} (b : bool) (e : E) : result E unit := if b then Ok tt else Err e.

Lemma rbind_ok {E A B} (r : result E A) (k : A → result E B) b :
  rbind r k = Ok b ↔ ∃ a, r = Ok a ∧ k a = Ok b.
Proof. destruct r; simpl; naive_solver. Qed.

Lemma rbind_err {E A B} (r : result E A) (k : A → result E B) e :
  rbind r k = Err e ↔ r = Err e ∨ ∃ a, r = Ok a ∧ k a = Err e.
Proof. destruct r; simpl; naive_solver. Qed.

Lemma guard_ok {E} b (e : E) : guard b e = Ok tt ↔ b = true.
Proof. destruct b; simpl; naive_solver. Qed.

(** [mapM] over results: a Go loop that returns at the first error. *)
Fixpoint rmap {E A B} (f : A → result E B) (l : list A) : result E (list B) :=
  match l with
  | [] => Ok []
  | x :: l' => let? y := f x in let? ys := rmap f l' in Ok (y :: ys)
  end.

Lemma rmap_ok {E A B} (f : A → result E B) l ys :
  rmap f l = Ok ys ↔ Forall2 (λ x y, f x = Ok y) l ys.
Proof.
  revert ys. induction l as [|x l IH]; intros ys; simpl.
  - split; [intros [= <-]; constructor | by inversion 1].
  - rewrite rbind_ok. setoid_rewrite rbind_ok. split.
    + intros (y & Hy & zs & Hzs & [= <-]). constructor; [done|]. by apply IH.
    + inversion 1 as [|? y ? zs Hy Hzs]; subst.
      exists y; split; [done|]. exists zs. split; [by apply IH|done].
Qed.

Lemma rmap_ok_l {E A B} (f : A → result E B) l ys x :
  rmap f l = Ok ys → x ∈ l → ∃ y, y ∈ ys ∧ f x = Ok y.
Proof.
  intros H%rmap_ok (i & Hi)%list_elem_of_lookup. destruct (Forall2_lookup_l _ _ _ _ _ H Hi) as (y & Hy & Hf).
  exists y. split; [by eapply list_elem_of_lookup_2|done].
Qed.
Lemma rmap_ok_r {E A B} (f : A → result E B) l ys y :
  rmap f l = Ok ys → y ∈ ys → ∃ x, x ∈ l ∧ f x = Ok y.
Proof.
  intros H%rmap_ok (i & Hi)%list_elem_of_lookup. destruct (Forall2_lookup_r _ _ _ _ _ H Hi) as (x & Hx & Hf).
  exists x. split; [by eapply list_elem_of_lookup_2|done].
Qed.
Lemma rmap_err {E A B} (f : A → result E B) l e : rmap f l = Err e → ∃ x, x ∈ l ∧ f x = Err e.
Proof.
  induction l as [|x l IH]; [done|]. cbn. intros [H|(y & _ & [H|(ys & _ & [=])]%rbind_err)]%rbind_err.
  - exists x. split; [constructor|done].
  - destruct (IH H) as (x' & ? & ?). exists x'. split; [by constructor|done].
Qed.

(** ** Machine integers

    Go's [int] and [int64] are 64-bit two's complement on the supported
    platforms; [wrap64] is the value an arithmetic operation leaves. *)

Local Open Scope Z_scope.
Definition int64_min : Z := - 2 ^ 63.
Definition int64_max : Z := 2 ^ 63 - 1.
Definition wrap64 (z : Z) : Z := (z + 2 ^ 63) mod 2 ^ 64 - 2 ^ 63.
Definition in_int64 (z : Z) : Prop := int64_min ≤ z ≤ int64_max.

Lemma wrap64_id z : in_int64 z → wrap64 z = z.
Proof. unfold in_int64, wrap64, int64_min, int64_max. intros. rewrite Z.mod_small; lia. Qed.

Lemma wrap64_range z : in_int64 (wrap64 z).
Proof.
  unfold in_int64, wrap64, int64_min, int64_max.
  pose proof (Z.mod_pos_bound (z + 2 ^ 63) (2 ^ 64)). lia.
Qed.
Local Close Scope Z_scope.

(** ** Floating point: Go's [float64] as IEEE binary64 data *)

Abbreviation float64 := spec_float.
Definition fltb (x y : float64) : bool := SFltb x y.
Definition fleb (x y : float64) : bool := SFleb x y.
Definition feqb (x y : float64) : bool := SFeqb x y.
Definition fis_nan (x : float64) : bool := match x with S754_nan => true | _ => false end.
(** [float64(z)], [int(f)], and the arithmetic operators, rounding to nearest. *)
Definition float_of_int (z : Z) : float64 := binary_normalize 53 1024 z 0 false.
Definition trunc_float (f : float64) : Z :=
  match f with
  | S754_finite s m e =>
      let n := if (0 <=? e)%Z then (Z.pos m * 2 ^ e)%Z else (Z.pos m / 2 ^ (- e))%Z in if s then (- n)%Z else n
  | _ => 0%Z
  end.
Definition fadd : float64 → float64 → float64 := SFadd 53 1024.
Definition fmul : float64 → float64 → float64 := SFmul 53 1024.
Definition fdiv : float64 → float64 → float64 := SFdiv 53 1024.

(** [<] on floats is transitive: magnitudes compare by exponent, then mantissa. *)
Lemma fltb_trans x y z : fltb x y = true → fltb y z = true → fltb x z = true.
Proof.
  unfold fltb, SFltb.
  destruct x as [[]|[]| |[] mx ex], y as [[]|[]| |[] my ey], z as [[]|[]| |[] mz ez]; cbn; try done;
    change (Pos.compare_cont Eq) with Pos.compare;
    destruct (Z.compare_spec ex ey), (Z.compare_spec ey ez), (Z.compare_spec ex ez); subst; try lia; try done;
    destruct (Pos.compare_spec mx my), (Pos.compare_spec my mz), (Pos.compare_spec mx mz); subst; cbn; done || lia.
Qed.

Lemma fltb_irrefl x : fltb x x = false.
Proof. unfold fltb, SFltb. destruct x as [[]|[]| |[] m e]; cbn; try done; rewrite Z.compare_refl; change (Pos.compare_cont Eq) with Pos.compare; by rewrite Pos.compare_refl. Qed.
Lemma fltb_cotrans x y z : fis_nan y = false → fltb x z = true → fltb x y = true ∨ fltb y z = true.
Proof.
  unfold fltb, SFltb.
  destruct x as [[]|[]| |[] mx ex], y as [[]|[]| |[] my ey], z as [[]|[]| |[] mz ez]; cbn; try done; try (intros; by auto);
    change (Pos.compare_cont Eq) with Pos.compare;
    destruct (Z.compare_spec ex ey), (Z.compare_spec ey ez), (Z.compare_spec ex ez); subst; try lia; try (by auto);
    destruct (Pos.compare_spec mx my), (Pos.compare_spec my mz), (Pos.compare_spec mx mz); subst; cbn; auto; lia.
Qed.
Lemma feqb_fltb x y : fis_nan x = false → fis_nan y = false → feqb x y = negb (fltb x y || fltb y x).
Proof.
  unfold feqb, SFeqb, fltb, SFltb.
  destruct x as [[]|[]| |[] mx ex], y as [[]|[]| |[] my ey]; cbn; try done;
    change (Pos.compare_cont Eq) with Pos.compare;
    rewrite (Z.compare_antisym ex ey), (Pos.compare_antisym mx my); destruct (Z.compare_spec ex ey); cbn; try done;
    destruct (Pos.compare_spec mx my); done.
Qed.

Lemma fltb_asym x y : fltb x y = true → fltb y x = false.
Proof. intros H. destruct (fltb y x) eqn:E; [|done]. pose proof (fltb_trans _ _ _ H E) as Hb. by rewrite fltb_irrefl in Hb. Qed.
Lemma fleb_trans x y z : fis_nan y = false → fltb y x = false → fltb z y = false → fltb z x = false.
Proof. intros Hn H1 H2. destruct (fltb z x) eqn:H; [|done]. destruct (fltb_cotrans z y x Hn H); congruence. Qed.

(** ** Runes: what ranging over a string yields *)

Local Open Scope Z_scope.
Definition in_range (lo hi x : Z) : bool := (lo <=? x) && (x <=? hi).
Definition cont (x : Z) : bool := in_range 128 191 x.
(** The rune at the head of a byte sequence and its width; a byte that starts
    no well-formed sequence is U+FFFD, of width 1. *)
Definition decode_rune (l : list Z) : Z * nat :=
  match l with
  | [] => (65533, 1%nat)
  | b0 :: l =>
      if b0 <? 128 then (b0, 1%nat)
      else
        match l with
        | b1 :: l =>
            if in_range 194 223 b0 then
              if cont b1 then ((b0 - 192) * 64 + (b1 - 128), 2%nat) else (65533, 1%nat)
            else
              match l with
              | b2 :: l =>
                  if in_range 224 239 b0 then
                    if in_range (if b0 =? 224 then 160 else 128) (if b0 =? 237 then 159 else 191) b1 && cont b2
                    then ((b0 - 224) * 4096 + (b1 - 128) * 64 + (b2 - 128), 3%nat) else (65533, 1%nat)
                  else
                    match l with
                    | b3 :: _ =>
                        if in_range 240 244 b0 && in_range (if b0 =? 240 then 144 else 128) (if b0 =? 244 then 143 else 191) b1
                           && cont b2 && cont b3
                        then ((b0 - 240) * 262144 + (b1 - 128) * 4096 + (b2 - 128) * 64 + (b3 - 128), 4%nat) else (65533, 1%nat)
                    | [] => (65533, 1%nat)
                    end
              | [] => (65533, 1%nat)
              end
        | [] => (65533, 1%nat)
        end
  end.
Fixpoint runes_from (skip : nat) (l : list Z) : list Z :=
  match l with
  | [] => []
  | _ :: l' =>
      match skip with
      | S k => runes_from k l'
      | O => let '(r, w) := decode_rune l in r :: runes_from (pred w) l'
      end
  end.
Local Close Scope Z_scope.

(** ** Strings: Go's [strings] package on byte strings *)

Definition byteZ (a : ascii) : Z := Z.of_nat (nat_of_ascii a).
Definition is_space (a : ascii) : bool :=
  let n := nat_of_ascii a in (n =? 32) || ((9 <=? n) && (n <=? 13)).
Definition lower_byte (a : ascii) : ascii :=
  let n := nat_of_ascii a in
  if (65 <=? n) && (n <=? 90) then ascii_of_nat (n + 32) else a.

Fixpoint to_lower (s : string) : string :=
  match s with
  | EmptyString => EmptyString
  | String a s' => String (lower_byte a) (to_lower s')
  end.

Definition has_prefix (p s : string) : bool := String.prefix p s.

Fixpoint trim_prefix (p s : string) : string :=
  match p, s with
  | EmptyString, _ => s
  | String a p', String b s' => if decide (a = b) then trim_prefix p' s' else s
  | _, _ => s
  end.

(** [strings.TrimPrefix] leaves the string alone unless the whole prefix matches. *)
Definition TrimPrefix (s p : string) : string :=
  if has_prefix p s then trim_prefix p s else s.

Fixpoint contains (sub s : string) : bool :=
  has_prefix sub s ||
  match s with EmptyString => false | String _ s' => contains sub s' end.

(** [strings.Count] for a non-empty separator: non-overlapping occurrences;
    [skip] bytes belong to the occurrence just counted. *)
Fixpoint count_from (sub s : string) (skip : nat) : nat :=
  match s with
  | EmptyString => 0
  | String _ s' =>
      match skip with
      | S k => count_from sub s' k
      | 0 => if has_prefix sub s then S (count_from sub s' (String.length sub - 1))
             else count_from sub s' 0
      end
  end.
Definition count (s sub : string) : nat := count_from sub s 0.

(** Go strings index bytes; [bytes s] is the byte slice of [s]. *)
Definition bytes (s : string) : list ascii := String.list_ascii_of_string s.

Definition of_bytes (l : list ascii) : string := String.string_of_list_ascii l.
Lemma bytes_of_bytes l : bytes (of_bytes l) = l.
Proof. apply String.list_ascii_of_string_of_list_ascii. Qed.
Lemma length_bytes s : length (bytes s) = String.length s.
Proof. induction s as [|a s IH]; [done|]. exact (f_equal S IH). Qed.
Definition runes (s : string) : list Z := runes_from 0 (map (λ a, Z.of_nat (nat_of_ascii a)) (bytes s)).


(** [strings.Index] on byte slices: the first occurrence. *)
Fixpoint index_of (sub s : list ascii) : option nat :=
  if decide (sub `prefix_of` s) then Some 0
  else match s with [] => None | _ :: s' => S <$> index_of sub s' end.

Lemma index_of_Some sub s i :
  index_of sub s = Some i →
  sub `prefix_of` drop i s ∧ ∀ j, j < i → ¬ sub `prefix_of` drop j s.
Proof.
  revert i. induction s as [|a s IH]; intros i; cbn [index_of]; case_decide as H.
  - intros [= <-]. split; [done|lia].
  - done.
  - intros [= <-]. split; [done|lia].
  - intros (j & Hj & ->)%fmap_Some. destruct (IH j Hj) as [H1 H2]. split; [done|].
    intros [|k] Hk; cbn [drop]; [done|]. apply H2. lia.
Qed.

Lemma index_of_None sub s : index_of sub s = None → ∀ j, ¬ sub `prefix_of` drop j s.
Proof.
  induction s as [|a s IH]; cbn [index_of]; case_decide as H; try done.
  - intros _ j. by rewrite drop_nil.
  - intros Hn%fmap_None [|j]; cbn [drop]; [done|by apply IH].
Qed.

Lemma index_of_le sub s i : index_of sub s = Some i → i ≤ length s.
Proof.
  revert i. induction s as [|a s IH]; intros i; cbn [index_of]; case_decide; simpl.
  - intros [= <-]. lia.
  - done.
  - intros [= <-]. lia.
  - intros (j & Hj & ->)%fmap_Some. specialize (IH j Hj). lia.
Qed.

(** White space beyond ASCII, in UTF-8: U+0085 and U+00A0; U+1680, U+2000 to
    U+200A, U+2028, U+2029, U+202F, U+205F and U+3000. *)
Definition space2 (a b : ascii) : bool :=
  (nat_of_ascii a =? 194) && ((nat_of_ascii b =? 133) || (nat_of_ascii b =? 160)).
Definition space3 (a b c : ascii) : bool :=
  let a := nat_of_ascii a in let b := nat_of_ascii b in let c := nat_of_ascii c in
  ((a =? 225) && (b =? 154) && (c =? 128)) ||
  ((a =? 226) && (b =? 128) && (((128 <=? c) && (c <=? 138)) || (c =? 168) || (c =? 169) || (c =? 175))) ||
  ((a =? 226) && (b =? 129) && (c =? 159)) ||
  ((a =? 227) && (b =? 128) && (c =? 128)).
(** Drop leading white space, its runes of two and three bytes given by tests. *)
Fixpoint drop_space (sp2 : ascii → ascii → bool) (sp3 : ascii → ascii → ascii → bool) (s : string) : string :=
  match s with
  | EmptyString => EmptyString
  | String a s1 =>
      if is_space a then drop_space sp2 sp3 s1
      else match s1 with
           | EmptyString => s
           | String b s2 =>
               if sp2 a b then drop_space sp2 sp3 s2
               else match s2 with
                    | EmptyString => s
                    | String c s3 => if sp3 a b c then drop_space sp2 sp3 s3 else s
                    end
           end
  end.

Fixpoint srev_app (s acc : string) : string :=
  match s with EmptyString => acc | String a s' => srev_app s' (String a acc) end.
Definition srev (s : string) : string := srev_app s EmptyString.

(** [strings.TrimSpace]. *)
Definition TrimSpace (s : string) : string :=
  srev (drop_space (λ b a, space2 a b) (λ c b a, space3 a b c) (srev (drop_space space2 space3 s))).

Lemma bytes_srev_app s acc : bytes (srev_app s acc) = reverse (bytes s) ++ bytes acc.
Proof.
  revert acc. induction s as [|a s IH]; intros acc; cbn [srev_app]; [done|].
  rewrite IH. change (bytes (String a s)) with (a :: bytes s). change (bytes (String a acc)) with (a :: bytes acc).
  by rewrite reverse_cons, <- app_assoc.
Qed.
Lemma bytes_srev s : bytes (srev s) = reverse (bytes s).
Proof. unfold srev. by rewrite bytes_srev_app, app_nil_r. Qed.


Lemma bytes_app s t : bytes (s +:+ t) = bytes s ++ bytes t.
Proof. induction s as [|a s IH]; [done|]. exact (f_equal (cons a) IH). Qed.
Lemma bytes_inj s t : bytes s = bytes t → s = t.
Proof.
  intros H. rewrite <- (String.string_of_list_ascii_of_string s), <- (String.string_of_list_ascii_of_string t).
  unfold bytes in H. by rewrite H.
Qed.
(** ASCII text without white space is trimmed already. *)
Definition ascii_graph (a : ascii) : bool := (nat_of_ascii a <? 128) && negb (is_space a).
Lemma ascii_graph_space a :
  ascii_graph a = true → is_space a = false ∧ (∀ b, space2 a b = false ∧ space2 b a = false) ∧
    (∀ b c, space3 a b c = false ∧ space3 c b a = false).
Proof.
  unfold ascii_graph. intros [Ha%Nat.ltb_lt Hs%negb_true_iff]%andb_prop. split; [done|].
  assert (∀ n, 128 ≤ n → (nat_of_ascii a =? n) = false) as Hn by (intros n Hn; apply Nat.eqb_neq; lia).
  assert (∀ n k, 128 ≤ n → ((n <=? nat_of_ascii a) && k) = false) as Hl.
  { intros n k Hk. apply andb_false_iff. left. apply Nat.leb_gt. lia. }
  split; intros; unfold space2, space3; cbv zeta; rewrite !Hn, ?Hl by lia; cbn [andb orb]; rewrite ?andb_false_r; done.
Qed.
Lemma TrimSpace_id s : Forall (λ a, ascii_graph a = true) (bytes s) → TrimSpace s = s.
Proof.
  assert (∀ sp2 sp3 t, (∀ a b, ascii_graph a = true → sp2 a b = false) → (∀ a b c, ascii_graph a = true → sp3 a b c = false) →
    Forall (λ a, ascii_graph a = true) (bytes t) → drop_space sp2 sp3 t = t) as Hd.
  { intros sp2 sp3 [|a [|b [|c t]]] H2 H3; try done; intros [Ha _]%Forall_cons;
      (destruct (ascii_graph_space a Ha) as [E _]); cbn [drop_space]; rewrite E, ?H2, ?H3 by done; done. }
  intros H. unfold TrimSpace. rewrite (Hd space2 space3 s), Hd; try exact H;
    try (intros a b Ha; apply (ascii_graph_space a Ha)); try (intros a b c Ha; apply (ascii_graph_space a Ha));
    [|rewrite bytes_srev; by apply Forall_reverse].
  apply bytes_inj. by rewrite !bytes_srev, reverse_involutive.
Qed.

(** [strings.Split(s, sep)] for a one-byte separator. *)
Fixpoint split_on (sep : ascii) (s : string) : list string :=
  match s with
  | EmptyString => [EmptyString]
  | String a s' =>
      if ascii_dec a sep then EmptyString :: split_on sep s'
      else match split_on sep s' with
           | [] => [String a EmptyString]
           | w :: ws => String a w :: ws
           end
  end.

(** [strings.Fields], the word being read reversed in [cur]. *)
Definition flush_word (cur : string) : list string := if String.eqb cur "" then [] else [srev cur].
Fixpoint fields_from (s cur : string) : list string :=
  match s with
  | EmptyString => flush_word cur
  | String a s1 =>
      if is_space a then flush_word cur ++ fields_from s1 ""
      else match s1 with
           | EmptyString => fields_from s1 (String a cur)
           | String b s2 =>
               if space2 a b then flush_word cur ++ fields_from s2 ""
               else match s2 with
                    | EmptyString => fields_from s1 (String a cur)
                    | String c s3 =>
                        if space3 a b c then flush_word cur ++ fields_from s3 "" else fields_from s1 (String a cur)
                    end
           end
  end.
Definition fields (s : string) : list string := fields_from s "".

(** The byte of a double quote, and [%q] for text without control bytes. *)
Definition dquote : ascii := ascii_of_nat 34.
Definition backslash : ascii := ascii_of_nat 92.
Definition quote_str : string := String dquote EmptyString.
Fixpoint escape_quotes (s : string) : string :=
  match s with
  | EmptyString => EmptyString
  | String a s' =>
      if decide (a = dquote ∨ a = backslash) then String backslash (String a (escape_quotes s'))
      else String a (escape_quotes s')
  end.
Definition go_quote (s : string) : string := (quote_str +:+ escape_quotes s +:+ quote_str)%string.

Fixpoint join (sep : string) (l : list string) : string :=
  match l with
  | [] => EmptyString
  | [x] => x
  | x :: l' => (x +:+ sep +:+ join sep l')%string
  end.

(** A joined list of texts without the separator splits back. *)
Lemma split_on_none sep s : sep ∉ bytes s → split_on sep s = [s].
Proof.
  induction s as [|a s IH]; [done|]. change (bytes (String a s)) with (a :: bytes s).
  intros [Ha Hs]%not_elem_of_cons. cbn [split_on]. destruct (ascii_dec a sep) as [->|_]; [done|]. by rewrite IH.
Qed.
Lemma split_on_app sep s t : sep ∉ bytes s → split_on sep (s +:+ String sep t) = s :: split_on sep t.
Proof.
  induction s as [|a s IH].
  - intros _. change (EmptyString +:+ String sep t)%string with (String sep t). cbn [split_on].
    destruct (ascii_dec sep sep) as [_|[]]; done.
  - change (bytes (String a s)) with (a :: bytes s). intros [Ha Hs]%not_elem_of_cons.
    change (String a s +:+ String sep t)%string with (String a (s +:+ String sep t)). cbn [split_on].
    destruct (ascii_dec a sep) as [->|_]; [done|]. by rewrite IH.
Qed.
Lemma split_on_join sep l : l ≠ [] → Forall (λ s, sep ∉ bytes s) l → split_on sep (join (String sep "") l) = l.
Proof.
  intros Hne Hl. induction Hl as [|s l Hs Hl IH]; [done|]. destruct l as [|t l]; [by apply split_on_none|].
  change (join (String sep "") (s :: t :: l)) with (s +:+ String sep (join (String sep "") (t :: l)))%string.
  rewrite split_on_app, IH by done. done.
Qed.

(** [sort.Strings]: byte-wise lexicographic order. *)
Definition str_le (a b : string) : Prop := String.leb a b = true.
#[export] Instance str_le_dec : RelDecision str_le.
Proof. intros a b. unfold str_le. apply _. Defined.
Definition sort_strings (l : list string) : list string := merge_sort str_le l.

Lemma ascii_compare_trans a b c :
  Ascii.compare a b = Lt → Ascii.compare b c = Lt → Ascii.compare a c = Lt.
Proof. unfold Ascii.compare. rewrite !N.compare_lt_iff. lia. Qed.

#[export] Instance str_le_total : Total str_le.
Proof. intros a b. apply String.leb_total. Qed.
#[export] Instance str_le_antisymm : AntiSymm eq str_le.
Proof. intros a b. apply String.leb_antisym. Qed.
#[export] Instance str_le_trans : Transitive str_le.
Proof.
  unfold str_le, String.leb. intros a. induction a as [|x a IH]; intros [|y b] [|z c]; simpl; try done.
  destruct (Ascii.compare x y) eqn:E1, (Ascii.compare y z) eqn:E2; try done; intros H1 H2.
  - apply Ascii.compare_eq_iff in E1 as ->. rewrite E2. eauto.
  - apply Ascii.compare_eq_iff in E1 as ->. by rewrite E2.
  - apply Ascii.compare_eq_iff in E2 as <-. by rewrite E1.
  - by rewrite (ascii_compare_trans _ _ _ E1 E2).
Qed.

(** Sorting forgets the order of its input. *)
Lemma sort_strings_unique l l' : l ≡ₚ l' → sort_strings l = sort_strings l'.
Proof.
  intros H. apply (StronglySorted_unique str_le).
  - apply (StronglySorted_merge_sort _ l).
  - apply (StronglySorted_merge_sort _ l').
  - unfold sort_strings. by rewrite !merge_sort_Permutation.
Qed.

Lemma sort_strings_perm l : sort_strings l ≡ₚ l.
Proof. apply merge_sort_Permutation. Qed.

(** ** Dynamic values: Go's [any]

    The dynamic types the engine stores in [map[string]any]; [AOther n] stands
    for a value of any other Go type, which modelled code only moves around. *)

Inductive any :=
| ANil
| ABool (b : bool)
| AInt (z : Z)
| AInt64 (z : Z)
| AFloat (f : float64)
| AString (s : string)
| AStrings (l : list string)
| AList (l : list any)
| AMap (m : list (string * any))
| AOther (n : nat).

(** [v, ok := x.(string)] *)
Definition as_string (o : option any) : option string :=
  match o with Some (AString s) => Some s | _ => None end.

(** Lookup in a dynamic map: Go map keys are unique, the first wins here. *)
Definition amap_get (m : list (string * any)) (k : string) : option any :=
  snd <$> List.find (λ kv, String.eqb k kv.1) m.

(** ** Iteration over a Go map

    A [range] over a Go map visits the keys in an unspecified order.  Code
    whose effect may depend on it takes the order as an argument [ord]; the
    theorems hold for every [ord] that enumerates the keys once. *)

Definition range_order {V} (m : gmap string V) (ord : list string) : Prop :=
  ord ≡ₚ elements (dom m).

Definition range {V} (m : gmap string V) (ord : list string) : list (string * V) :=
  omap (λ k, (k,.) <$> m !! k) ord.

Lemma elem_of_range {V} (m : gmap string V) ord k v :
  (k, v) ∈ range m ord ↔ k ∈ ord ∧ m !! k = Some v.
Proof.
  unfold range. rewrite list_elem_of_omap. split.
  - intros (k' & Hk' & Hv). destruct (m !! k') eqn:E; naive_solver.
  - intros [Hk Hv]. exists k. by rewrite Hv.
Qed.

Lemma range_order_elem {V} (m : gmap string V) ord k :
  range_order m ord → k ∈ ord ↔ is_Some (m !! k).
Proof. intros H. unfold range_order in H. by rewrite H, elem_of_elements, elem_of_dom. Qed.

Lemma range_order_lookup {V} (m : gmap string V) ord k v :
  range_order m ord → (k, v) ∈ range m ord ↔ m !! k = Some v.
Proof.
  intros H. rewrite elem_of_range, (range_order_elem m ord k H).
  split; [by intros []|]. intros E. by rewrite E.
Qed.

Lemma range_order_NoDup {V} (m : gmap string V) ord : range_order m ord → NoDup ord.
Proof. intros H. unfold range_order in H. rewrite H. apply NoDup_elements. Qed.

Lemma range_order_dom {V W} (m : gmap string V) (m' : gmap string W) ord :
  dom m = dom m' → range_order m ord → range_order m' ord.
Proof. unfold range_order. by intros <-. Qed.

Lemma range_order_exists {V} (m : gmap string V) : range_order m (elements (dom m)).
Proof. unfold range_order. reflexivity. Qed.

(** ** Lists and maps *)

Lemma elem_of_filter_list {A} (f : A → bool) (l : list A) x : x ∈ List.filter f l ↔ f x = true ∧ x ∈ l.
Proof. rewrite !list_elem_of_In, filter_In. tauto. Qed.
Lemma filter_length_le {A} (f g : A → bool) l :
  (∀ x, x ∈ l → f x = true → g x = true) → (length (List.filter f l) <= length (List.filter g l))%nat.
Proof.
  induction l as [|x l IH]; intros H; cbn; [done|].
  assert (length (List.filter f l) <= length (List.filter g l))%nat by (apply IH; set_solver).
  destruct (f x) eqn:Hx; [rewrite (H x) by set_solver|destruct (g x)]; cbn; lia.
Qed.
Lemma filter_length_lt {A} (f g : A → bool) l e :
  e ∈ l → g e = true → f e = false → (∀ x, x ∈ l → f x = true → g x = true) →
  (length (List.filter f l) < length (List.filter g l))%nat.
Proof.
  intros Hin Hg Hf. induction l as [|x l IH]; intros H; [by apply not_elem_of_nil in Hin|]. cbn.
  apply elem_of_cons in Hin as [<-|Hin].
  - rewrite Hg, Hf. cbn. apply Nat.lt_succ_r, filter_length_le. set_solver.
  - assert (length (List.filter f l) < length (List.filter g l))%nat by (apply IH; set_solver).
    destruct (f x) eqn:Hx; [rewrite (H x) by set_solver|destruct (g x)]; cbn; lia.
Qed.
Lemma alter_Some {V} (f : V → V) (m : gmap string V) k v : m !! k = Some v → alter f k m = <[k := f v]> m.
Proof.
  intros H. apply map_eq. intros j. destruct (decide (k = j)) as [<-|].
  - by rewrite (lookup_alter_eq (M := gmap string)), lookup_insert_eq, H.
  - by rewrite (lookup_alter_ne (M := gmap string)), lookup_insert_ne by done.
Qed.

(** ** Ranks

    An acyclic relation on a finite set has a rank: a number that falls along
    every edge.  [height n] is the length of the longest path, up to [n]. *)

Section ranks.
Context {A : Type} (succ : A → list A) (nodes : list A).
Definition edge_to (x y : A) : Prop := y ∈ succ x.
Context (Hacyclic : ∀ x, ¬ tc edge_to x x) (Hnodes : ∀ x y, edge_to x y → y ∈ nodes).

Fixpoint height (n : nat) (x : A) : nat :=
  match n with
  | O => 0
  | S n' => foldr (λ y m, max (S (height n' y)) m) 0 (succ x)
  end.

Lemma height_le n x k : height (S n) x <= k ↔ ∀ y, edge_to x y → S (height n y) <= k.
Proof.
  cbn [height]. unfold edge_to. induction (succ x) as [|y l IH]; cbn [foldr].
  - split; [intros _ y Hy; by apply elem_of_nil in Hy|lia].
  - rewrite Nat.max_lub_iff, IH. setoid_rewrite elem_of_cons. naive_solver.
Qed.
(** Finitely many stable heights are stable from one point on. *)
Definition stable (x : A) : Prop := ∃ n, ∀ m, n <= m → height m x = height n x.
Lemma stable_all (l : list A) : (∀ y, y ∈ l → stable y) → ∃ n, ∀ y, y ∈ l → ∀ m, n <= m → height m y = height n y.
Proof.
  induction l as [|y l IH]; intros H; [exists 0; by intros y Hy%elem_of_nil|].
  destruct IH as [n1 H1]; [intros z Hz; apply H; by right|]. destruct (H y) as [n2 H2]; [left|].
  exists (max n1 n2). intros z [->|Hz]%elem_of_cons m Hm.
  - rewrite (H2 m), (H2 (max n1 n2)) by lia. done.
  - rewrite (H1 z Hz m), (H1 z Hz (max n1 n2)) by lia. done.
Qed.
Lemma height_stable x : sn edge_to x → stable x.
Proof.
  intros Hs. induction Hs as [x _ IH]. destruct (stable_all (succ x)) as [n Hn]; [exact IH|].
  exists (S n). unfold stable. intros [|m] Hm; [lia|].
  assert (∀ k, height (S m) x <= k ↔ height (S n) x <= k) as H.
  { intros k. rewrite !height_le. apply forall_proper. intros y.
    split; intros Hk Hy; specialize (Hk Hy); rewrite (Hn y Hy m) in * by lia; done. }
  apply Nat.le_antisymm; [by apply (H (height (S n) x))|by apply (H (height (S m) x))].
Qed.
Lemma acyclic_sn x : sn edge_to x.
Proof.
  refine (tc_finite_sn x Hacyclic _). exists nodes. intros y Hy. induction Hy; eauto.
Qed.
Lemma acyclic_ranked : ∃ rank : A → nat, ∀ x y, edge_to x y → rank y < rank x.
Proof.
  destruct (stable_all nodes) as [n Hn]; [intros y _; apply height_stable, acyclic_sn|].
  exists (height (S n)). intros x y Hxy.
  rewrite (Hn y (Hnodes x y Hxy) (S n)) by lia. by apply (height_le n x (height (S n) x)).
Qed.
End ranks.

(** ** Decimal numbers *)

Definition is_digit (a : ascii) : bool := ((48 <=? byteZ a) && (byteZ a <=? 57))%Z.
Definition digit_text (s : string) : Prop := Forall (λ a, is_digit a = true) (bytes s).

Lemma digit_cases (P : N → Prop) k :
  P 0%N → P 1%N → P 2%N → P 3%N → P 4%N → P 5%N → P 6%N → P 7%N → P 8%N → P 9%N → (k < 10)%N → P k.
Proof.
  intros. assert (k = 0 ∨ k = 1 ∨ k = 2 ∨ k = 3 ∨ k = 4 ∨ k = 5 ∨ k = 6 ∨ k = 7 ∨ k = 8 ∨ k = 9)%N as H' by lia.
  destruct_or! H'; by subst k.
Qed.
Lemma digit_char k : (k < 10)%N → is_digit (pretty_N_char k) = true.
Proof. by apply (digit_cases (λ k, is_digit (pretty_N_char k) = true)). Qed.
Lemma pretty_N_go_digits x : ∀ s, digit_text s → digit_text (pretty_N_go x s).
Proof.
  induction x as [x IH] using (well_founded_induction N.lt_wf_0). intros s Hs.
  destruct (decide (x = 0%N)) as [->|Hx]; [by rewrite pretty_N_go_0|].
  rewrite pretty_N_go_step by lia. apply IH; [apply N.div_lt; lia|].
  unfold digit_text. change (bytes (String ?a s)) with (a :: bytes s). apply Forall_cons. split; [|exact Hs].
  apply digit_char. by apply N.mod_lt.
Qed.
Lemma pretty_digits z : (0 <= z)%Z → digit_text (pretty z).
Proof.
  intros Hz. destruct z as [|p|p]; [by repeat constructor| |lia].
  change (pretty (Z.pos p)) with (pretty_N_go (N.pos p) ""). by apply pretty_N_go_digits; constructor.
Qed.
Lemma digit_text_not c s : is_digit c = false → digit_text s → c ∉ bytes s.
Proof. intros Hc Hs Hin. unfold digit_text in Hs. rewrite Forall_forall in Hs. rewrite Hs in Hc; done. Qed.
(** A number below [10^k] has at most [k] digits. *)
Lemma pretty_N_go_length k : ∀ x s, (x < 10 ^ N.of_nat k)%N → String.length (pretty_N_go x s) <= k + String.length s.
Proof.
  induction k as [|k IH]; intros x s Hx.
  - assert (x = 0)%N as -> by (cbn in Hx; lia). by rewrite pretty_N_go_0.
  - destruct (decide (x = 0%N)) as [->|H]; [rewrite pretty_N_go_0; lia|]. rewrite pretty_N_go_step by lia.
    etrans; [apply IH|cbn; lia]. apply N.Div0.div_lt_upper_bound. rewrite Nat2N.inj_succ, N.pow_succ_r' in Hx. lia.
Qed.
Lemma pretty_length k z : (0 < z < 10 ^ Z.of_nat k)%Z → String.length (pretty z) <= k.
Proof.
  intros H. destruct z as [|p|p]; [lia| |lia]. change (pretty (Z.pos p)) with (pretty_N_go (N.pos p) "").
  etrans; [apply (pretty_N_go_length k)|cbn; lia]. apply N2Z.inj_lt. rewrite N2Z.inj_pow, nat_N_Z. cbn. lia.
Qed.

(** ** Reading integers *)

#[local] Open Scope Z_scope.
Fixpoint digits (acc : Z) (s : string) : option Z :=
  match s with
  | EmptyString => Some acc
  | String a s' => if is_digit a then digits (10 * acc + (byteZ a - 48)) s' else None
  end.

Definition fits_int64 (z : Z) : option Z :=
  if (int64_min <=? z) && (z <=? int64_max) then Some z else None.

(** [strconv.Atoi]: an optional sign, at least one digit, within [int]. *)
Definition Atoi (s : string) : option Z :=
  match s with
  | EmptyString => None
  | String a s' =>
      if ascii_dec a "-" then
        match s' with EmptyString => None | _ => z ← digits 0 s'; fits_int64 (- z) end
      else if ascii_dec a "+" then
        match s' with EmptyString => None | _ => z ← digits 0 s'; fits_int64 z end
      else z ← digits 0 s; fits_int64 z
  end.
#[local] Close Scope Z_scope.

(** ** Tactics and hints *)

Create HintDb vortex.
#[export] Hint Resolve wrap64_range range_order_exists : vortex.
#[export] Hint Rewrite @rbind_ok @guard_ok @rmap_ok : vortex.

(** Split every [match]/[if] in the goal, keeping the equations. *)
Ltac split_matches := repeat (case_match || case_decide); simplify_eq/=.
Ltac vx := try done; eauto with vortex; try lia; try congruence; naive_solver.
