(* ===== verification/Paths.v ===== *)
(** * File paths (path/filepath on Unix)

    [Clean] as the Standard Library computes it, component by component, and
    the containment rule the engine uses for workspace roots
    (config/config.go, core/scheduler_submit.go). *)

From S2P Require Import Prelude.
From Stdlib Require Import Ascii.

Definition slash : ascii := ascii_of_nat 47.
Definition rooted (p : string) : bool := has_prefix "/" p.

(** One component against the components kept so far, the last one first. *)
Definition push_comp (root : bool) (kept : list string) (c : string) : list string :=
  if decide (c = "") then kept
  else if decide (c = ".") then kept
  else if decide (c = "..") then
    match kept with
    | k :: kept' => if decide (k = "..") then ".." :: kept else kept'
    | [] => if root then [] else [".."]
    end
  else c :: kept.
Definition comps (p : string) : list string :=
  reverse (foldl (push_comp (rooted p)) [] (split_on slash p)).
Definition render (root : bool) (l : list string) : string :=
  if root then ("/" +:+ join "/" l)%string
  else match l with [] => "." | _ => join "/" l end.
(** [filepath.Clean]. *)
Definition Clean (p : string) : string := render (rooted p) (comps p).

(** [withinAnyRoot] (config.go) for one root; the loop of [validateWorkspaceScope]
    (scheduler_submit.go) has the same test. *)
Definition within (root p : string) : bool :=
  bool_decide (Clean p = Clean root) || has_prefix (Clean root +:+ "/") (Clean p).
Definition withinAnyRoot (allowed : list string) (root : string) : bool :=
  existsb (λ a, within a root) allowed.

(** ** Properties *)

Lemma has_prefix_spec p s : has_prefix p s = true ↔ ∃ t, s = (p +:+ t)%string.
Proof.
  unfold has_prefix. revert s. induction p as [|a p IH]; intros [|b s]; cbn.
  - split; [|done]. intros _. by exists "".
  - split; [|done]. intros _. by exists (String b s).
  - split; [done|by intros [t ?]].
  - destruct (ascii_dec a b) as [->|Hne].
    + rewrite IH. split; [intros [t ->]; by exists t|intros [t [= ->]]; by exists t].
    + split; [done|]. by intros [t [= ? _]].
Qed.
Lemma string_app_assoc (a b c : string) : (a +:+ (b +:+ c) = (a +:+ b) +:+ c)%string.
Proof. induction a as [|x a IH]; [done|]. exact (f_equal (String x) IH). Qed.

(** Containment of cleaned paths composes. *)
Lemma within_trans a b c : within a b = true → within b c = true → within a c = true.
Proof.
  unfold within. rewrite !orb_true_iff, !bool_decide_eq_true, !has_prefix_spec.
  intros [Hab|[t Hab]] [Hbc|[u Hbc]].
  - left. congruence.
  - right. exists u. by rewrite Hbc, Hab.
  - right. exists t. by rewrite Hbc, Hab.
  - right. exists (t +:+ "/" +:+ u)%string. rewrite Hbc, Hab. by rewrite <- !string_app_assoc.
Qed.
Lemma within_refl a : within a a = true.
Proof. unfold within. by rewrite bool_decide_eq_true_2. Qed.

(** A proper name: not empty, not a dot entry and without a separator. *)
Definition name_ok (c : string) : Prop := c ≠ "" ∧ c ≠ "." ∧ c ≠ ".." ∧ slash ∉ bytes c.

Lemma split_on_no_sep sep s w : w ∈ split_on sep s → sep ∉ bytes w.
Proof.
  revert w. induction s as [|a s IH]; intros w; cbn [split_on].
  - intros ->%list_elem_of_singleton. apply not_elem_of_nil.
  - destruct (ascii_dec a sep) as [->|Hne].
    + intros [->|Hw]%elem_of_cons; [apply not_elem_of_nil|by apply IH].
    + destruct (split_on sep s) as [|v vs]; intros Hw.
      * apply list_elem_of_singleton in Hw as ->. change (bytes (String a "")) with [a]. set_solver.
      * apply elem_of_cons in Hw as [->|Hw]; [|apply IH; by right].
        change (bytes (String a v)) with (a :: bytes v). apply not_elem_of_cons. split; [congruence|]. apply IH. left.
Qed.

(** The components of a rooted path are proper names: no [..] can leave it. *)
Lemma push_comp_names kept l :
  Forall name_ok kept → Forall (λ c, slash ∉ bytes c) l → Forall name_ok (foldl (push_comp true) kept l).
Proof.
  intros Hk Hl. revert kept Hk. induction Hl as [|c l Hc _ IH]; intros kept Hk; [done|]. cbn [foldl]. apply IH.
  unfold push_comp. repeat case_decide; try done.
  - destruct kept as [|k kept]; [done|]. apply Forall_cons in Hk as [(_ & _ & Hdd & _) Hk]. by rewrite decide_False.
  - by constructor.
Qed.
Lemma comps_rooted p : rooted p = true → Forall name_ok (comps p).
Proof.
  intros Hr. unfold comps. rewrite Hr. apply Forall_reverse, push_comp_names; [constructor|].
  apply Forall_forall. intros c Hc. by eapply split_on_no_sep.
Qed.
