(* ===== verification/TaskStatus.v ===== *)
(** * Statuses, decision types and risk tiers (schemas/task_status.go)

    The string-typed enumerations of the task schema as inductive types, and
    the keyword classifiers [DetermineRiskTier] and [DetermineComplexity]. *)

From S2P Require Import Prelude.
From Stdlib Require Import SpecFloat.

(** [StepStatus]: the lifecycle state of one step. *)
Inductive StepStatus :=
| StepPending | StepRunning | StepOK | StepPartial | StepFailed | StepBlocked
| StepSkipped | StepDeprecated | StepSuspended.
#[export] Instance StepStatus_eq_dec : EqDecision StepStatus.
Proof. solve_decision. Defined.

(** [GraphStatus]: the lifecycle state of a task graph. *)
Inductive GraphStatus :=
| GraphRunning | GraphPendingReview | GraphBlocked | GraphCompleted
| GraphCompletedWithSkips | GraphFailed | GraphCancelled | GraphSuspended
| GraphOrphaned.
#[export] Instance GraphStatus_eq_dec : EqDecision GraphStatus.
Proof. solve_decision. Defined.

(** [DecisionType]: why a step was blocked. *)
Inductive DecisionType :=
| DecisionStepFailed | DecisionCapabilityRequired | DecisionLowConfidence
| DecisionEnvironmentMissing | DecisionDelegationRequired
| DecisionUpstreamInsufficient | DecisionBudgetExhausted
| DecisionMaxTurnsExhausted | DecisionRewriteDAG | DecisionHumanApprovalRequired
| DecisionAutonomousAbortRequested | DecisionGoalChangeRequested.
#[export] Instance DecisionType_eq_dec : EqDecision DecisionType.
Proof. solve_decision. Defined.

Inductive RiskTier := RiskTierLight | RiskTierModerate | RiskTierCritical.
#[export] Instance RiskTier_eq_dec : EqDecision RiskTier.
Proof. solve_decision. Defined.

(** [riskTierKeywords]: the mutable keyword lists, with their defaults.  A Go
    slice argument may be nil; both setters only look at its length. *)
Record RiskKeywords := mkRiskKeywords { critical : list string; moderate : list string }.
#[export] Instance RiskKeywords_eta : Eta RiskKeywords :=
  λ k, mkRiskKeywords (critical k) (moderate k).

Definition riskTierKeywords : RiskKeywords :=
  mkRiskKeywords
    ["browser"; "image"; "generate"; "scrape"; "screenshot"; "pollinations"; "deploy"; "payment"]
    ["patch"; "refactor"; "build"; "test"].

Definition SetRiskTierKeywords (c m : list string) (k : RiskKeywords) : RiskKeywords :=
  let k := if decide (0 < length c) then k <| critical := c |> else k in
  if decide (0 < length m) then k <| moderate := m |> else k.

Definition clear_tier (k : RiskKeywords) (t : string) : RiskKeywords :=
  if decide (t = "critical") then k <| critical := [] |>
  else if decide (t = "moderate") then k <| moderate := [] |>
  else k.
Definition ClearRiskTierKeywords (tiers : list string) (k : RiskKeywords) : RiskKeywords :=
  foldl clear_tier k tiers.

(** The float64 constants the classifier returns. *)
Definition f_0_95 : float64 := S754_finite false 8556839292003942 (-53).
Definition f_0_9 : float64 := S754_finite false 8106479329266893 (-53).
Definition f_0_5 : float64 := S754_finite false 4503599627370496 (-53).
Definition f_0_1 : float64 := S754_finite false 7205759403792794 (-56).

Definition contains_any (lower : string) (kws : list string) : bool :=
  existsb (λ kw, contains kw lower) kws.

Definition DetermineRiskTier (k : RiskKeywords) (task : string) (mcpList : list string)
    : RiskTier * float64 :=
  let lower := to_lower task in
  if existsb (String.eqb "ghost-driver") mcpList then (RiskTierCritical, f_0_95)
  else if contains_any lower (critical k) then (RiskTierCritical, f_0_9)
  else if contains_any lower (moderate k) then (RiskTierModerate, f_0_5)
  else (RiskTierLight, f_0_1).

Definition DetermineComplexity (task : string) (stepCount : Z) : bool :=
  let lower := to_lower task in
  if contains "multiple files" lower || contains "multi-file" lower
     || contains "across files" lower || contains "cross-file" lower then true
  else if (1 <? count lower "then") || (1 <? count lower "接着") then true
  else if 500 <? String.length task then true
  else contains "refactor" lower || contains "migrate" lower
       || contains "rewrite" lower || contains "restructure" lower.

(** ** Properties *)

Lemma contains_any_true lower kws :
  contains_any lower kws = true ↔ ∃ kw, kw ∈ kws ∧ contains kw lower = true.
Proof.
  unfold contains_any. rewrite existsb_exists.
  split; intros (kw & Hin & H); exists kw; by rewrite ?list_elem_of_In in *.
Qed.

Lemma clear_tier_critical k t :
  critical (clear_tier k t) = if decide (t = "critical") then [] else critical k.
Proof. unfold clear_tier. repeat case_decide; done. Qed.

Lemma foldl_clear_critical tiers k :
  critical k = [] → critical (foldl clear_tier k tiers) = [].
Proof.
  revert k. induction tiers as [|t ts IH]; intros k H; simpl; [done|].
  apply IH. rewrite clear_tier_critical. by case_decide.
Qed.

Lemma ClearRiskTierKeywords_critical tiers k :
  "critical" ∈ tiers → critical (ClearRiskTierKeywords tiers k) = [].
Proof.
  unfold ClearRiskTierKeywords. revert k.
  induction tiers as [|t ts IH]; intros k H; [by apply not_elem_of_nil in H|].
  apply elem_of_cons in H as [<-|H]; simpl; [|by apply IH].
  apply foldl_clear_critical. by rewrite clear_tier_critical, decide_True.
Qed.
