(* ===== verification/Schema.v ===== *)
(** * The task schema (schemas/task.go, task_charter.go, mcp_mount_approval.go)

    The records a task graph is made of and the methods of [TaskGraph]:
    readiness, fallbacks, terminality, session entries, decision history,
    substitution ledger, mount approvals and the summary status view.

    A Go pointer to a step is modelled by the step's key in [TaskGraph.Steps]:
    every step the engine handles is stored under its own id ([wf_graph]), so
    a write through the pointer is an update of the map at that key.  A Go nil
    map reads like an empty one and every writer allocates it first, so both
    are [∅].  Times are [Z] (nanoseconds, passed in where the code calls
    [time.Now]).  Fields no modelled operation reads or writes are left out. *)

From S2P Require Import Prelude TaskStatus.
From Stdlib Require Import SpecFloat.

(** [Metadata] (task.go): a step's free-form annotation. *)
Module Metadata.
Record t := mk {
  Namespace : string;
  Version : string;
  Data : gmap string any;
  DeltaBacktrack : bool
}.
#[global] Instance eta : Eta t := λ r,
  mk
     (Namespace r) (Version r) (Data r) (DeltaBacktrack r).
End Metadata.

(** The zero value [&Metadata{}]. *)
Definition zeroMetadata : Metadata.t := Metadata.mk "" "" ∅ false.

(** [DeterministicCheck] (task_status.go): a zero-token verification step. *)
Record DeterministicCheck := mkCheck { check_Type : string; check_Params : list (string * any) }.

(** [FailurePolicy] (task.go): per-step override of recognised failures. *)
Module FailurePolicy.
Record t := mk {
  OnFailure : string
}.
#[global] Instance eta : Eta t := λ r,
  mk
     (OnFailure r).
End FailurePolicy.

(** [ArtifactContract] (task.go): an artifact a step owes. *)
Module Artifact.
Record t := mk {
  Path : string;
  SourceRefs : list string;
  SHA256 : string;
  Status : string;
  Format : string;
  SizeBytes : Z;
  GeneratedAt : Z;
  OwnerStep : string;
  DeliveryStatus : string;
  RequiredFields : list string;
  TypeSchema : gmap string string
}.
#[global] Instance eta : Eta t := λ r,
  mk
     (Path r) (SourceRefs r) (SHA256 r) (Status r) (Format r) (SizeBytes r)
     (GeneratedAt r) (OwnerStep r) (DeliveryStatus r) (RequiredFields r) (TypeSchema
     r).
End Artifact.

(** The zero value [ArtifactContract{}]. *)
Definition zeroContract : Artifact.t := Artifact.mk "" [] "" "" "" 0 0 "" "" [] ∅.

(** [StepInput] (task.go): what a caller or the planner submits for one step. *)
Module StepInput.
Record t := mk {
  ID : string;
  RoleID : string;
  Task : string;
  DependsOn : list string;
  AdditionalSkills : list string;
  AdditionalMCPs : list string;
  AdditionalToolAllowlists : gmap string (list string);
  ContextRefs : gmap string string;
  FallbackFor : string;
  MaxRetries : Z;
  ProviderOverride : string;
  ExitCriteria : string;
  VerifierModel : string;
  MaxAutoRefine : Z;
  DeterministicChecks : list DeterministicCheck;
  EnableDebate : bool;
  MaxDebateRounds : Z;
  SpawnDepth : Z;
  MaxSpawnDepth : Z;
  MaxLoopRounds : Z;
  MergeStrategy : string;
  TargetKey : string;
  SOPRef : string;
  SubmitterIsAdmin : bool;
  OwnerID : string;
  ProjectID : string;
  RoutingMode : string;
  RiskRating : float64;
  EnableStepPlan : bool;
  DynamicRubrics : list string;
  OutputContract : Artifact.t;
  Deliver : string;
  GroupID : string;
  FailurePolicy : option FailurePolicy.t;
  CompressionHint : string;
  InputDir : string;
  InputMapping : gmap string string;
  Isolation : bool
}.
#[global] Instance eta : Eta t := λ r,
  mk
     (ID r) (RoleID r) (Task r) (DependsOn r) (AdditionalSkills r) (AdditionalMCPs
     r) (AdditionalToolAllowlists r) (ContextRefs r) (FallbackFor r) (MaxRetries r)
     (ProviderOverride r) (ExitCriteria r) (VerifierModel r) (MaxAutoRefine r)
     (DeterministicChecks r) (EnableDebate r) (MaxDebateRounds r) (SpawnDepth r)
     (MaxSpawnDepth r) (MaxLoopRounds r) (MergeStrategy r) (TargetKey r)
     (SOPRef r) (SubmitterIsAdmin r) (OwnerID r) (ProjectID r) (RoutingMode r) (RiskRating r) (EnableStepPlan r) (DynamicRubrics r) (OutputContract r) (Deliver r) (GroupID r) (FailurePolicy r) (CompressionHint r) (InputDir r) (InputMapping r) (Isolation r).
End StepInput.
(** The zero value [StepInput{}]. *)
Definition zeroInput : StepInput.t :=
  StepInput.mk "" "" "" [] [] [] ∅ ∅ "" 0 "" "" "" 0 [] false 0 0 0 0 "" "" "" false "" "" "" (S754_zero false) false []
    zeroContract "" "" None "" "" ∅ false.

(** [Step] (task.go): one node of the task graph; the second half is mutated by the scheduler. *)
Module Step.
Record t := mk {
  ID : string;
  RoleID : string;
  Task : string;
  DependsOn : list string;
  AdditionalSkills : list string;
  AdditionalMCPs : list string;
  AdditionalToolAllowlists : gmap string (list string);
  ContextRefs : gmap string string;
  FallbackFor : string;
  ProviderOverride : string;
  ExitCriteria : string;
  VerifierModel : string;
  MaxAutoRefine : Z;
  DeterministicChecks : list DeterministicCheck;
  EnableDebate : bool;
  MaxDebateRounds : Z;
  Deliver : string;
  TargetFile : string;
  Status : StepStatus;
  RetryCount : Z;
  MaxRetries : Z;
  TurnsBudgetBonus : Z;
  LastError : string;
  TriggerError : string;
  ResultRef : string;
  Confidence : option float64;
  MissingCtx : list string;
  Metadata : option Metadata.t;
  LastWorkedOn : Z;
  FailurePolicy : option FailurePolicy.t;
  AdditionalPromptContext : string;
  PreviousOutputSummary : string;
  SpawnDepth : Z;
  MaxSpawnDepth : Z;
  MaxLoopRounds : Z;
  StatesVisited : list string;
  MergeStrategy : string;
  TargetKey : string;
  AutoRefineCount : Z;
  PartialOutput : string;
  DynamicRubrics : list string;
  OutputContract : Artifact.t;
  RoutingMode : string;
  EnableStepPlan : bool;
  GroupID : string;
  CompressionHint : string;
  InputDir : string;
  InputMapping : gmap string string;
  Isolation : bool
}.
#[global] Instance eta : Eta t := λ r,
  mk
     (ID r) (RoleID r) (Task r) (DependsOn r) (AdditionalSkills r) (AdditionalMCPs
     r) (AdditionalToolAllowlists r) (ContextRefs r) (FallbackFor r)
     (ProviderOverride r) (ExitCriteria r) (VerifierModel r) (MaxAutoRefine r)
     (DeterministicChecks r) (EnableDebate r) (MaxDebateRounds r) (Deliver r)
     (TargetFile r) (Status r) (RetryCount r) (MaxRetries r) (TurnsBudgetBonus r)
     (LastError r) (TriggerError r) (ResultRef r) (Confidence r) (MissingCtx r)
     (Metadata r) (LastWorkedOn r) (FailurePolicy r) (AdditionalPromptContext r)
     (PreviousOutputSummary r) (SpawnDepth r) (MaxSpawnDepth r) (MaxLoopRounds r)
     (StatesVisited r) (MergeStrategy r) (TargetKey r)
     (AutoRefineCount r) (PartialOutput r) (DynamicRubrics r) (OutputContract r)
     (RoutingMode r) (EnableStepPlan r) (GroupID r) (CompressionHint r) (InputDir r) (InputMapping r) (Isolation r).
End Step.

(** [Decision] (task.go): a parked question about a step. *)
Module Decision.
Record t := mk {
  ID : string;
  StepID : string;
  Type_ : DecisionType;
  Context : gmap string any;
  Options : list string;
  Created : Z
}.
#[global] Instance eta : Eta t := λ r,
  mk
     (ID r) (StepID r) (Type_ r) (Context r) (Options r) (Created r).
End Decision.

(** [DecisionNode] (task.go): one autonomous decision in the audit history. *)
Module DecisionNode.
Record t := mk {
  ID : string;
  StepID : string;
  Turn : Z;
  Type_ : string;
  Reasoning : string;
  Action : string;
  Outcome : string;
  Causes : list string;
  Timestamp : Z
}.
#[global] Instance eta : Eta t := λ r,
  mk
     (ID r) (StepID r) (Turn r) (Type_ r) (Reasoning r) (Action r) (Outcome r)
     (Causes r) (Timestamp r).
End DecisionNode.

(** [OutputFile] (task.go): a file a step produced. *)
Module OutputFile.
Record t := mk {
  StepID : string;
  Path : string;
  Format : string;
  Summary : string;
  SizeBytes : Z;
  IsPrimary : bool;
  Deliver : string;
  CreatedAt : Z
}.
#[global] Instance eta : Eta t := λ r,
  mk
     (StepID r) (Path r) (Format r) (Summary r) (SizeBytes r) (IsPrimary r) (Deliver
     r) (CreatedAt r).
End OutputFile.

(** [NodeStatus] (task.go). *)
Inductive NodeStatus := NodeActive | NodeResolved | NodeAbandoned.

(** [ContextNode] (task.go): a node of the execution context tree. *)
Module ContextNode.
Record t := mk {
  ID : string;
  ParentID : string;
  Intent : string;
  Goal : string;
  Status : NodeStatus;
  Summary : string;
  Checksum : string;
  StepIDs : list string
}.
#[global] Instance eta : Eta t := λ r,
  mk
     (ID r) (ParentID r) (Intent r) (Goal r) (Status r) (Summary r) (Checksum r)
     (StepIDs r).
End ContextNode.

(** [CoordinationEdge] (task.go). *)
Module CoordinationEdge.
Record t := mk {
  SourceID : string;
  TargetID : string;
  Type_ : string;
  Payload : Z;
  Timestamp : Z
}.
#[global] Instance eta : Eta t := λ r,
  mk
     (SourceID r) (TargetID r) (Type_ r) (Payload r) (Timestamp r).
End CoordinationEdge.

(** [Substitution] (task_charter.go): one divergence from the request. *)
Module Substitution.
Record t := mk {
  Kind : string;
  Requested : string;
  Actual : string;
  Reason : string;
  StepID : string;
  At : Z
}.
#[global] Instance eta : Eta t := λ r,
  mk
     (Kind r) (Requested r) (Actual r) (Reason r) (StepID r) (At r).
End Substitution.

(** [TaskCharter] (task_charter.go): intent, non-goals and constraints of a task. *)
Module TaskCharter.
Record t := mk {
  Intent : string;
  NonGoals : list string;
  Constraints : list string;
  Version : Z
}.
#[global] Instance eta : Eta t := λ r,
  mk
     (Intent r) (NonGoals r) (Constraints r) (Version r).
End TaskCharter.

(** [ApprovalRecord] (mcp_mount_approval.go): one human approval. *)
Module ApprovalRecord.
Record t := mk {
  Approved : bool;
  Time : Z;
  ApproverID : string;
  Channel : string;
  Scope : string
}.
#[global] Instance eta : Eta t := λ r,
  mk
     (Approved r) (Time r) (ApproverID r) (Channel r) (Scope r).
End ApprovalRecord.

(** [TaskGraph] (task.go): a task, its steps and its lifecycle state. *)
Module TaskGraph.
Record t := mk {
  TaskID : string;
  ProjectID : string;
  Steps : gmap string Step.t;
  Status : GraphStatus;
  SubmitterIsAdmin : bool;
  ApprovedMCPMounts : gmap string ApprovalRecord.t;
  ApprovedSkillMounts : gmap string ApprovalRecord.t;
  PendingDecisions : list Decision.t;
  OutputFiles : list OutputFile.t;
  Artifacts : list Artifact.t;
  OverallConfidence : option float64;
  CreatedAt : Z;
  CompletedAt : option Z;
  ContextTree : gmap string ContextNode.t;
  CurrentNodeID : string;
  SessionRoles : gmap string any;
  SessionSkills : gmap string any;
  SessionProviders : gmap string any;
  GlobalWorkspace : gmap string any;
  CoordinationEdges : list CoordinationEdge.t;
  TokenBudget : Z;
  TokensUsed : Z;
  BudgetPaused : bool;
  ConsecutiveSkips : Z;
  DecisionHistory : gmap string DecisionNode.t;
  OwnerID : string;
  IsSmartRouted : bool;
  CycleCounters : gmap string Z;
  Substitutions : list Substitution.t;
  Charter : option TaskCharter.t;
  TraceID : string;
  MainProviderID : string;
  TimeoutSecs : Z;
  SessionID : string;
  WorkspaceRoot : string;
  LocalMCPs : gmap string string
}.
#[global] Instance eta : Eta t := λ r,
  mk
     (TaskID r) (ProjectID r) (Steps r) (Status r) (SubmitterIsAdmin r)
     (ApprovedMCPMounts r) (ApprovedSkillMounts r) (PendingDecisions r) (OutputFiles
     r) (Artifacts r) (OverallConfidence r) (CreatedAt r) (CompletedAt r)
     (ContextTree r) (CurrentNodeID r) (SessionRoles r) (SessionSkills r)
     (SessionProviders r) (GlobalWorkspace r) (CoordinationEdges r) (TokenBudget r)
     (TokensUsed r) (BudgetPaused r) (ConsecutiveSkips r) (DecisionHistory r)
     (OwnerID r) (IsSmartRouted r) (CycleCounters r) (Substitutions r) (Charter r)
     (TraceID r) (MainProviderID r) (TimeoutSecs r) (SessionID r) (WorkspaceRoot r) (LocalMCPs r).
End TaskGraph.

(** ** Methods *)

(** [Step.IsTerminal]. *)
Definition step_IsTerminal (s : Step.t) : bool :=
  match Step.Status s with
  | StepOK | StepPartial | StepFailed | StepSkipped | StepBlocked | StepDeprecated => true
  | _ => false
  end.

(** The statuses that satisfy a dependency. *)
Definition dep_done (st : StepStatus) : bool :=
  match st with StepOK | StepPartial | StepSkipped => true | _ => false end.

(** The inner loop of [ReadySteps]: a dependency that does not resolve is
    skipped, any other must be done. *)
Definition deps_done (m : gmap string Step.t) (s : Step.t) : bool :=
  forallb (λ d, match m !! d with
                | None => true
                | Some dep => dep_done (Step.Status dep)
                end) (Step.DependsOn s).

Definition step_ready (m : gmap string Step.t) (s : Step.t) : bool :=
  bool_decide (Step.Status s = StepPending) && deps_done m s.

Definition ReadySteps (g : TaskGraph.t) (ord : list string) : list Step.t :=
  filter (λ s, step_ready (TaskGraph.Steps g) s = true) (snd <$> range (TaskGraph.Steps g) ord).

Definition FallbackFor (g : TaskGraph.t) (ord : list string) (stepID : string) : option Step.t :=
  snd <$> List.find (λ kv, bool_decide (Step.FallbackFor kv.2 = stepID))
            (range (TaskGraph.Steps g) ord).

(** [TaskGraph.IsTerminal]. *)
Definition IsTerminal (g : TaskGraph.t) : bool :=
  forallb (λ kv, step_IsTerminal kv.2) (map_to_list (TaskGraph.Steps g)).

(** [ComputeConfidence]: geometric mean over the completed steps that report a
    confidence; [Pow] is [math.Pow].  The product is taken in range order. *)
Definition confidence_scores (g : TaskGraph.t) (ord : list string) : list float64 :=
  omap (λ kv : string * Step.t,
          match Step.Status kv.2 with
          | StepOK | StepPartial => Step.Confidence kv.2
          | _ => None
          end) (range (TaskGraph.Steps g) ord).
Definition float_of_nat (n : nat) : float64 :=
  binary_normalize 53 1024 (Z.of_nat n) 0 false.
Definition float_one : float64 := float_of_nat 1.
Definition ComputeConfidence (Pow : float64 → float64 → float64)
    (g : TaskGraph.t) (ord : list string) : float64 :=
  match confidence_scores g ord with
  | [] => S754_zero false
  | scores =>
      let product := foldl (SFmul 53 1024) float_one scores in
      Pow product (SFdiv 53 1024 float_one (float_of_nat (length scores)))
  end.

(** The substitution ledger.  [now] is [time.Now()]. *)
Definition RecordSubstitution (kind requested actual reason stepID : string) (now : Z)
    (g : TaskGraph.t) : TaskGraph.t :=
  g <| TaskGraph.Substitutions ::=
       λ l, l ++ [Substitution.mk kind requested actual reason stepID now] |>.
Definition GetSubstitutions (g : TaskGraph.t) : list Substitution.t := TaskGraph.Substitutions g.
Definition SubstitutionCount (g : TaskGraph.t) : nat := length (TaskGraph.Substitutions g).

(** Session-scoped roles, skills and providers. *)
Definition GetSessionRole (id : string) (g : TaskGraph.t) : option any :=
  TaskGraph.SessionRoles g !! id.
Definition SetSessionRole (id : string) (v : any) (g : TaskGraph.t) : TaskGraph.t :=
  g <| TaskGraph.SessionRoles ::= insert id v |>.
Definition GetSessionSkill (id : string) (g : TaskGraph.t) : option any :=
  TaskGraph.SessionSkills g !! id.
Definition SetSessionSkill (id : string) (v : any) (g : TaskGraph.t) : TaskGraph.t :=
  g <| TaskGraph.SessionSkills ::= insert id v |>.
Definition GetSessionProvider (id : string) (g : TaskGraph.t) : option any :=
  TaskGraph.SessionProviders g !! id.
Definition SetSessionProvider (id : string) (v : any) (g : TaskGraph.t) : TaskGraph.t :=
  g <| TaskGraph.SessionProviders ::= insert id v |>.
Definition ListSessionProviderIDs (g : TaskGraph.t) (ord : list string) : list string :=
  fst <$> range (TaskGraph.SessionProviders g) ord.

(** The autonomous-decision history. *)
Definition RecordDecision (id : string) (node : DecisionNode.t) (g : TaskGraph.t) : TaskGraph.t :=
  g <| TaskGraph.DecisionHistory ::= insert id node |>.
Definition UpdateDecisionOutcome (id outcome : string) (g : TaskGraph.t) : TaskGraph.t * bool :=
  match TaskGraph.DecisionHistory g !! id with
  | Some node =>
      (g <| TaskGraph.DecisionHistory ::= insert id (node <| DecisionNode.Outcome := outcome |>) |>,
       true)
  | None => (g, false)
  end.

(** Mount approvals (mcp_mount_approval.go). *)
Definition approve_mounts (scope : string) (ids : list string) (approverID channel : string) (now : Z)
    (m : gmap string ApprovalRecord.t) : gmap string ApprovalRecord.t :=
  foldl (λ m id, if decide (id = "") then m
                 else <[id := ApprovalRecord.mk true now approverID channel scope]> m) m ids.
Definition ApproveMCPMounts (ids : list string) (approverID channel : string) (now : Z)
    (g : TaskGraph.t) : TaskGraph.t :=
  g <| TaskGraph.ApprovedMCPMounts ::= approve_mounts "mount" ids approverID channel now |>.
Definition IsMCPMountApproved (g : TaskGraph.t) (mcpID : string) : bool :=
  if decide (mcpID = "") then false
  else match TaskGraph.ApprovedMCPMounts g !! mcpID with
       | Some r => ApprovalRecord.Approved r
       | None => false
       end.
Definition ApproveSkillMounts (ids : list string) (approverID channel : string) (now : Z)
    (g : TaskGraph.t) : TaskGraph.t :=
  g <| TaskGraph.ApprovedSkillMounts ::= approve_mounts "skill" ids approverID channel now |>.
Definition IsSkillMountApproved (g : TaskGraph.t) (skillID : string) : bool :=
  if decide (skillID = "") then false
  else match TaskGraph.ApprovedSkillMounts g !! skillID with
       | Some r => ApprovalRecord.Approved r
       | None => false
       end.

(** The summary view of [ToStatusDictView]: the active step and the last error
    are those of the last matching step in range order. *)
Record StatusSummary := mkStatusSummary {
  sum_task_id : string;
  sum_status : GraphStatus;
  sum_completed : nat;
  sum_steps : nat;
  sum_active_step_id : string;
  sum_last_error : string;
  sum_pending_decision_count : nat;
  sum_substitution_count : nat;
  sum_has_charter : bool
}.
Definition summary_step (acc : nat * string * string) (kv : string * Step.t) : nat * string * string :=
  let '(completed, active, err) := acc in
  let s := kv.2 in
  ((if dep_done (Step.Status s) then S completed else completed),
   (if bool_decide (Step.Status s = StepRunning ∨ Step.Status s = StepBlocked)
    then Step.ID s else active),
   (if decide (Step.LastError s = "") then err else Step.LastError s)).
Definition ToStatusSummary (g : TaskGraph.t) (ord : list string) : StatusSummary :=
  let '(completed, active, err) := foldl summary_step (0, "", "") (range (TaskGraph.Steps g) ord) in
  mkStatusSummary (TaskGraph.TaskID g) (TaskGraph.Status g) completed (size (TaskGraph.Steps g))
    active err (length (TaskGraph.PendingDecisions g)) (SubstitutionCount g)
    (bool_decide (is_Some (TaskGraph.Charter g))).

(** Updating the step a pointer denotes. *)
Definition upd_step (id : string) (f : Step.t → Step.t) (g : TaskGraph.t) : TaskGraph.t :=
  g <| TaskGraph.Steps ::= alter f id |>.
Definition get_step (g : TaskGraph.t) (id : string) : option Step.t := TaskGraph.Steps g !! id.

(** ** Invariants and helper lemmas *)

(** Every step is stored under its own id. *)
Definition wf_graph (g : TaskGraph.t) : Prop :=
  ∀ id s, TaskGraph.Steps g !! id = Some s → Step.ID s = id.

Lemma deps_done_true m s :
  deps_done m s = true ↔
  ∀ d dep, d ∈ Step.DependsOn s → m !! d = Some dep → dep_done (Step.Status dep) = true.
Proof.
  unfold deps_done. rewrite forallb_forall. split.
  - intros H d dep Hd Hm. specialize (H d). rewrite Hm in H. by apply H, list_elem_of_In.
  - intros H d Hd. destruct (m !! d) eqn:E; [|done]. eapply H; [by apply list_elem_of_In|done].
Qed.

(** [deps_done] only looks at which steps exist and whether they are done. *)
Definition done_view (m : gmap string Step.t) (id : string) : option bool :=
  (λ s, dep_done (Step.Status s)) <$> m !! id.

Lemma deps_done_ext m m' s :
  (∀ d, d ∈ Step.DependsOn s → done_view m d = done_view m' d) →
  deps_done m s = deps_done m' s.
Proof.
  intros H. apply eq_true_iff_eq. rewrite !deps_done_true. unfold done_view in H.
  split; intros Hd d dep Hin Hdep; specialize (H d Hin); rewrite Hdep in H; simpl in H.
  - destruct (m !! d) eqn:E; simplify_eq/=. rewrite <- H. by eapply Hd.
  - destruct (m' !! d) eqn:E; simplify_eq/=. rewrite H. by eapply Hd.
Qed.

Lemma step_ready_true m s :
  step_ready m s = true ↔ Step.Status s = StepPending ∧ deps_done m s = true.
Proof. unfold step_ready. by rewrite andb_true_iff, bool_decide_eq_true. Qed.

Lemma elem_of_ReadySteps g ord s :
  range_order (TaskGraph.Steps g) ord →
  s ∈ ReadySteps g ord ↔
  (∃ id, TaskGraph.Steps g !! id = Some s) ∧ step_ready (TaskGraph.Steps g) s = true.
Proof.
  intros Ho. unfold ReadySteps. rewrite list_elem_of_filter, list_elem_of_fmap.
  split.
  - intros (Hr & [id s'] & -> & Hin). split; [|done]. exists id.
    by apply range_order_lookup in Hin.
  - intros [[id Hid] Hr]. split; [done|]. exists (id, s). split; [done|].
    by apply range_order_lookup.
Qed.

Lemma IsTerminal_true g :
  IsTerminal g = true ↔
  ∀ id s, TaskGraph.Steps g !! id = Some s → step_IsTerminal s = true.
Proof.
  unfold IsTerminal. rewrite forallb_forall. split.
  - intros H id s Hs. apply (H (id, s)), list_elem_of_In, elem_of_map_to_list, Hs.
  - intros H [id s] Hin. apply list_elem_of_In, elem_of_map_to_list in Hin. by eapply H.
Qed.

Lemma dep_done_terminal s : dep_done (Step.Status s) = true → step_IsTerminal s = true.
Proof. unfold step_IsTerminal. by destruct (Step.Status s). Qed.

Lemma upd_step_lookup id f g j :
  TaskGraph.Steps (upd_step id f g) !! j =
  if decide (id = j) then f <$> TaskGraph.Steps g !! j else TaskGraph.Steps g !! j.
Proof. unfold upd_step. simpl. rewrite lookup_alter. by case_decide; subst. Qed.

Lemma upd_step_dom id f g : dom (TaskGraph.Steps (upd_step id f g)) = dom (TaskGraph.Steps g).
Proof. unfold upd_step. simpl. apply dom_alter_L. Qed.

Lemma wf_upd_step id f g :
  (∀ s, Step.ID (f s) = Step.ID s) → wf_graph g → wf_graph (upd_step id f g).
Proof.
  intros Hf Hg j s. rewrite upd_step_lookup. case_decide as E.
  - subst. intros (s0 & Hs & ->)%fmap_Some. rewrite Hf. by apply Hg.
  - apply Hg.
Qed.

Lemma approve_mounts_lookup scope ids a c now m id :
  approve_mounts scope ids a c now m !! id =
  if decide (id ∈ ids ∧ id ≠ "") then Some (ApprovalRecord.mk true now a c scope) else m !! id.
Proof.
  unfold approve_mounts. revert m. induction ids as [|x ids IH]; intros m; cbn [foldl].
  - rewrite decide_False; [done|]. by intros [?%elem_of_nil _].
  - rewrite IH. pose proof (elem_of_cons ids id x) as Hc.
    destruct (decide (x = "")) as [->|Hx]; [|destruct (decide (x = id)) as [->|Hne]];
      rewrite ?lookup_insert_eq, ?lookup_insert_ne by done; repeat case_decide; naive_solver.
Qed.

#[export] Hint Rewrite upd_step_lookup step_ready_true deps_done_true : vortex.
#[export] Hint Resolve wf_upd_step dep_done_terminal : vortex.

(** ** Acyclic graphs

    A rank that every resolvable dependency decreases. *)

Definition ranked (m : gmap string Step.t) (rank : string → nat) : Prop :=
  ∀ id s d, m !! id = Some s → d ∈ Step.DependsOn s → is_Some (m !! d) → rank d < rank id.

(** Among the pending steps of a non-empty pending set, one of minimal rank. *)
Lemma min_rank_pending (m : gmap string Step.t) (rank : string → nat) id0 s0 :
  m !! id0 = Some s0 → Step.Status s0 = StepPending →
  ∃ id s, m !! id = Some s ∧ Step.Status s = StepPending ∧
    ∀ id' s', m !! id' = Some s' → Step.Status s' = StepPending → rank id ≤ rank id'.
Proof.
  remember (rank id0) as n eqn:Hn. revert id0 s0 Hn.
  induction n as [n IH] using lt_wf_ind; intros id0 s0 -> H0 Hp.
  destruct (decide (map_Exists (λ id s, Step.Status s = StepPending ∧ rank id < rank id0) m))
    as [(id & s & Hs & Hsp & Hlt)|Hno].
  - by eapply IH.
  - exists id0, s0. do 2 (split; [done|]). intros id' s' Hs' Hp'.
    destruct (decide (rank id' < rank id0)); [|lia].
    exfalso. apply Hno. exists id', s'. done.
Qed.

(** In an acyclic graph where every step is pending or done, or abandoned by
    all others, some pending step is ready. *)
Lemma ranked_progress (m : gmap string Step.t) rank :
  ranked m rank →
  (∀ id s, m !! id = Some s → Step.Status s = StepPending ∨ dep_done (Step.Status s) = true ∨
     ∀ j t, m !! j = Some t → id ∉ Step.DependsOn t) →
  (∃ id s, m !! id = Some s ∧ Step.Status s = StepPending) →
  ∃ id s, m !! id = Some s ∧ step_ready m s = true.
Proof.
  intros Hr Hall (id0 & s0 & H0 & Hp0).
  destruct (min_rank_pending m rank id0 s0 H0 Hp0) as (id & s & Hs & Hp & Hmin).
  exists id, s. split; [done|]. apply step_ready_true. split; [done|].
  apply deps_done_true. intros d dep Hd Hdep.
  destruct (Hall d dep Hdep) as [Hpd|[Hdone|Hab]]; [|done|by destruct (Hab id s Hs)].
  specialize (Hr id s d Hs Hd ltac:(by eexists)). specialize (Hmin d dep Hdep Hpd). lia.
Qed.

(** ** Concrete graphs

    Blank values to build the witnesses' graphs from, and the invariants as
    boolean tests on a concrete graph. *)

Definition blankStep (id : string) (st : StepStatus) (deps : list string) : Step.t :=
  Step.mk id "role" "task" deps [] [] ∅ ∅ "" "" "" "" 0 [] false 0 "" "" st 0 0 0 "" "" "" None []
    None 0 None "" "" 0 0 0 [] "" "" 0 "" [] zeroContract "" false "" "" "" ∅ false.
Definition blankInput (id : string) (deps : list string) : StepInput.t :=
  zeroInput <| StepInput.ID := id |> <| StepInput.RoleID := "role" |> <| StepInput.Task := "task" |>
    <| StepInput.DependsOn := deps |>.
Definition blankGraph (taskID : string) (steps : list Step.t) : TaskGraph.t :=
  TaskGraph.mk taskID "" (list_to_map ((λ s, (Step.ID s, s)) <$> steps)) GraphRunning false ∅ ∅ []
    [] [] None 0 None ∅ "" ∅ ∅ ∅ ∅ [] 0 0 false 0 ∅ "" false ∅ [] None "" "" 0 "" "" ∅.
Definition blankDecision (id stepID : string) (ty : DecisionType) (opts : list string) : Decision.t :=
  Decision.mk id stepID ty ∅ opts 0.

Definition wf_graphb (g : TaskGraph.t) : bool :=
  bool_decide (map_Forall (λ id s, Step.ID s = id) (TaskGraph.Steps g)).
Lemma wf_graphb_true g : wf_graphb g = true → wf_graph g.
Proof. unfold wf_graphb. intros H%bool_decide_eq_true id s Hs. by apply (H id s). Qed.

Definition rankedb (m : gmap string Step.t) (rank : string → nat) : bool :=
  forallb (λ kv, forallb (λ d, match m !! d with
                               | None => true
                               | Some _ => rank d <? rank kv.1
                               end) (Step.DependsOn kv.2)) (map_to_list m).
Lemma rankedb_true m rank : rankedb m rank = true → ranked m rank.
Proof.
  unfold rankedb. rewrite forallb_forall. intros H id s d Hs Hd [sd Hsd].
  specialize (H (id, s)). rewrite forallb_forall in H.
  assert (In (id, s) (map_to_list m)) as Hin by by apply list_elem_of_In, elem_of_map_to_list.
  specialize (H Hin d). rewrite Hsd in H. apply Nat.ltb_lt, H. by apply list_elem_of_In.
Qed.

Definition keys {V} (m : gmap string V) : list string := elements (dom m).
Lemma keys_range_order {V} (m : gmap string V) : range_order m (keys m).
Proof. apply range_order_exists. Qed.

(** A property of every step, tested on a concrete graph. *)
Definition all_steps (P : string → Step.t → bool) (g : TaskGraph.t) : bool :=
  forallb (λ kv, P kv.1 kv.2) (map_to_list (TaskGraph.Steps g)).
Lemma all_steps_true P g id s : all_steps P g = true → get_step g id = Some s → P id s = true.
Proof.
  unfold all_steps. rewrite forallb_forall. intros H Hs.
  apply (H (id, s)). by apply list_elem_of_In, elem_of_map_to_list.
Qed.
