(* ===== verification/FailureClass.v ===== *)
(** * Failure classification

    schemas/output.go ([SubagentOutput]), core/failure_classify.go
    ([classifyError]), core/scheduler_decision_preflight.go ([diagnoseFault])
    and [reclassifyToolRefusal] of core/scheduler_decision_failure.go. *)

From S2P Require Import Prelude TaskStatus Schema.
From Stdlib Require Import SpecFloat.

Inductive SubagentStatus :=
| StatusOK | StatusPartial | StatusFailed | StatusCapabilityRequired
| StatusDelegationRequired | StatusApprovalRequired
| StatusOther (s : string).
#[export] Instance SubagentStatus_eq_dec : EqDecision SubagentStatus.
Proof. solve_decision. Defined.

Record Usage := mkUsage { PromptTokens : Z; CompletionTokens : Z; TotalTokens : Z }.

Module Attachment.
Record t := mk { MimeType : string; Path : string; Label : string }.
End Attachment.

(** [SubagentOutput] (schemas/output.go): the envelope a subagent returns.  The
    result distinguishes a nil map ([None]), which is not deposited. *)
Module SubagentOutput.
Record t := mk {
  Status : SubagentStatus;
  Confidence : float64;
  Result : option (gmap string any);
  MissingContext : list string;
  RequiredCapabilities : list string;
  ApprovalRequiredMounts : list string;
  ApprovalRequiredSkills : list string;
  Capability : string;
  Usage_ : option Usage;
  Assumptions : list string;
  Attachments : list Attachment.t;
  Warnings : list string;
  SkillIDs : list string;
  TokenUsed : Z
}.
#[global] Instance eta : Eta t := λ r,
  mk (Status r) (Confidence r) (Result r) (MissingContext r) (RequiredCapabilities r) (ApprovalRequiredMounts r)
    (ApprovalRequiredSkills r) (Capability r) (Usage_ r) (Assumptions r) (Attachments r) (Warnings r) (SkillIDs r) (TokenUsed r).
End SubagentOutput.

(** Reading a Go map that may be nil. *)
Definition result_map (o : SubagentOutput.t) : gmap string any := default ∅ (SubagentOutput.Result o).

(** [FailureClass]: the failure taxonomy. *)
Inductive FailureClass :=
| FailureClassRateLimit | FailureClassBadRequest | FailureClassAuthPermission
| FailureClassMissingDependency | FailureClassRoleMissing | FailureClassTransient
| FailureClassContextDeficit | FailureClassCapabilityRequired
| FailureClassApprovalRequired | FailureClassGenerativeUncertainty
| FailureClassContractViolation | FailureClassCostOverrun
| FailureClassDeterministicToolRefusal | FailureClassResourceNotFound.
#[export] Instance FailureClass_eq_dec : EqDecision FailureClass.
Proof. solve_decision. Defined.

(** [string(cause)]. *)
Definition failure_string (c : FailureClass) : string :=
  match c with
  | FailureClassRateLimit => "rate_limit"
  | FailureClassBadRequest => "bad_request"
  | FailureClassAuthPermission => "auth_permission"
  | FailureClassMissingDependency => "missing_dependency"
  | FailureClassRoleMissing => "role_missing"
  | FailureClassTransient => "transient"
  | FailureClassContextDeficit => "context_deficit"
  | FailureClassCapabilityRequired => "capability_required"
  | FailureClassApprovalRequired => "approval_required"
  | FailureClassGenerativeUncertainty => "generative_uncertainty"
  | FailureClassContractViolation => "contract_violation"
  | FailureClassCostOverrun => "cost_overrun"
  | FailureClassDeterministicToolRefusal => "deterministic_tool_refusal"
  | FailureClassResourceNotFound => "resource_not_found"
  end.

(** A Go error: the types in its [errors.As] chain and its flattened text. *)
Inductive ErrNode := RateLimitError | BadRequestError | OtherError.
#[export] Instance ErrNode_eq_dec : EqDecision ErrNode.
Proof. solve_decision. Defined.
Record GoError := mkGoError { err_chain : list ErrNode; err_msg : string }.
Definition errors_As (k : ErrNode) (e : GoError) : bool := bool_decide (k ∈ err_chain e).

Definition classifyError (err : option GoError) : FailureClass :=
  match err with
  | None => FailureClassTransient
  | Some e =>
      let msg := err_msg e in
      if errors_As RateLimitError e then FailureClassRateLimit
      else if errors_As BadRequestError e then FailureClassBadRequest
      else if contains "HTTP 429" msg || contains "RESOURCE_EXHAUSTED" msg
              || contains "rate limit" (to_lower msg) || contains "rate_limited" (to_lower msg)
      then FailureClassRateLimit
      else if contains "HTTP 403" msg || contains "PERMISSION_DENIED" msg || contains "HTTP 401" msg
      then FailureClassAuthPermission
      else if contains "missing dependency:" msg then FailureClassMissingDependency
      else if contains ("role " +:+ quote_str) msg
              && (contains (quote_str +:+ " not found") msg || contains "generation failed" msg
                  || contains "generation is disabled" msg)
      then FailureClassRoleMissing
      else FailureClassTransient
  end.

Definition f_0_6 : float64 := S754_finite false 5404319552844595 (-53).

(** [diagnoseFault]: root cause, suggested action and missing details. *)
Definition diagnoseFault (output : option SubagentOutput.t) (step : Step.t)
    : FailureClass * string * list string :=
  match output with
  | None => (FailureClassTransient, "Execution failed with unknown error.", [])
  | Some o =>
      if decide (SubagentOutput.Status o = StatusApprovalRequired) then
        (FailureClassApprovalRequired,
         "Awaiting human approval to mount the requested MCP capability.",
         SubagentOutput.ApprovalRequiredMounts o)
      else if decide (0 < length (SubagentOutput.MissingContext o)) then
        (FailureClassContextDeficit,
         "Prompt the Manager to supply required data or upstream variables.",
         SubagentOutput.MissingContext o)
      else if decide (SubagentOutput.Status o = StatusCapabilityRequired) then
        (FailureClassCapabilityRequired,
         "Instruct Manager to mount the required capability via additional_mcps.",
         SubagentOutput.RequiredCapabilities o)
      else
        let conf := match Step.Confidence step with
                    | Some c => c
                    | None => SubagentOutput.Confidence o
                    end in
        if fltb conf f_0_6 then
          (FailureClassGenerativeUncertainty,
           "Trigger Auto-Refine with stricter constraints or human review.", [])
        else (FailureClassTransient, "Escalate model tier or abort/skip.", [])
  end.

(** [RepeatedToolFailure] (core/spawner_utils.go): the tool that failed most in
    this task, the first one in range order on a tie. *)
Definition RepeatedToolFailure (counts : gmap string Z) (ord : list string) : string * Z :=
  foldl (λ best kv, if decide (best.2 < kv.2)%Z then kv else best) ("", 0%Z) (range counts ord).

Definition toolFailCircuitBreakerThreshold : Z := 3.

(** [reclassifyToolRefusal]; [counts] is [None] when the engine has no spawner. *)
Definition reclassifyToolRefusal (counts : option (gmap string Z)) (ord : list string)
    (cause : FailureClass) (suggestion : string) (details : list string)
    : FailureClass * string * list string :=
  match counts with
  | None => (cause, suggestion, details)
  | Some m =>
      if decide (cause ≠ FailureClassGenerativeUncertainty) then (cause, suggestion, details)
      else
        let '(tool, n) := RepeatedToolFailure m ord in
        if decide (n < toolFailCircuitBreakerThreshold)%Z then (cause, suggestion, details)
        else (FailureClassDeterministicToolRefusal,
              ("Tool " +:+ go_quote tool +:+ " failed " +:+ pretty n
               +:+ " times this task; deterministic or environmental refusal. Do not repeat the same call.")%string,
              details ++ [tool])
  end.

(** ** Properties *)

Lemma RepeatedToolFailure_max m ord :
  range_order m ord →
  ∀ t n, m !! t = Some n → (n ≤ (RepeatedToolFailure m ord).2)%Z.
Proof.
  intros Ho t n Ht. unfold RepeatedToolFailure.
  assert (Hmono : ∀ (l : list (string * Z)) b,
    (b.2 ≤ (foldl (λ best kv, if decide (best.2 < kv.2)%Z then kv else best) b l).2)%Z ∧
    ∀ kv, kv ∈ l →
      (kv.2 ≤ (foldl (λ best kv, if decide (best.2 < kv.2)%Z then kv else best) b l).2)%Z).
  { induction l as [|x l IH]; intros b; simpl; [split; [lia|]; by intros ? ?%elem_of_nil|].
    destruct (IH (if decide (b.2 < x.2)%Z then x else b)) as [H1 H2]. split.
    - case_decide; lia.
    - intros kv [->|Hin]%elem_of_cons; [case_decide; lia|by apply H2]. }
  refine (proj2 (Hmono _ _) (t, n) _). by apply range_order_lookup.
Qed.
