(* ===== verification/ToolNames.v ===== *)
(** * What a tool's name says (core/tool_identity.go, core/sieve, core/plan_coverage.go)

    The engine classifies tool calls by name: read or write, with or without
    an external effect, an action or not; and it identifies a call by its name
    and arguments.  The JSON encoding of arguments is an argument of
    [toolCallKey]. *)

From S2P Require Import Prelude TaskStatus Schema.
From Stdlib Require Import Ascii.

(** ** Substrings from the right *)

(** [strings.LastIndex] on byte slices. *)
Fixpoint last_index_of (sub s : list ascii) : option nat :=
  match s with
  | [] => if decide (sub = []) then Some 0 else None
  | _ :: s' =>
      match last_index_of sub s' with
      | Some i => Some (S i)
      | None => if decide (sub `prefix_of` s) then Some 0 else None
      end
  end.
(** The byte after the last [sep], if there is one. *)
Definition after_last (sep : string) (name : string) : option nat :=
  (λ i, i + String.length sep) <$> last_index_of (bytes sep) (bytes name).

(** ** Names *)

Definition CoreToolNames : list string :=
  ["write_file"; "read_file"; "execute_code"; "decompress"; "search_archive"; "batch_replace"].
Definition is_core (name : string) : bool := bool_decide (name ∈ CoreToolNames).

(** [stripNamespace]: what follows the last of [__], [.] and [/]. *)
Definition stripNamespace (name : string) : string :=
  let best := foldl (λ best sep, match after_last sep name with Some a => Nat.max best a | None => best end) 0 ["__"; "."; "/"] in
  if (0 <? best) && (best <? String.length name) then of_bytes (drop best (bytes name)) else name.

Definition readOnlyToolPrefixes : list string :=
  ["show_"; "search_"; "get_"; "list_"; "read_"; "view_"; "find_"; "lookup_"; "query_"; "count_"; "check_";
   "describe_"; "fetch_"].
Definition writeToolPrefixes : list string :=
  ["cancel_"; "update_"; "create_"; "delete_"; "set_"; "write_"; "send_"; "transfer_"; "book_"; "submit_"; "close_";
   "modify_"; "edit_"; "insert_"; "remove_"; "drop_"; "put_"; "post_"; "replace_"; "approve_"; "reject_"; "assign_";
   "revoke_"; "activate_"; "deactivate_"; "add_"; "pay_"; "like_"; "follow_"; "mark_"; "upload_"; "execute_"; "run_";
   "publish_"].
Definition has_any_prefix (ps : list string) (s : string) : bool := existsb (λ p, has_prefix p s) ps.
Definition IsReadOnlyToolName (name : string) : bool :=
  negb (String.eqb name "") && has_any_prefix readOnlyToolPrefixes (stripNamespace name).
Definition IsWriteMCPTool (name : string) : bool :=
  negb (is_core name) && has_any_prefix writeToolPrefixes (stripNamespace name).

(** [sieve.IsReadTool]: the verb needs no separator after it. *)
Definition readToolPrefixes : list string :=
  ["get"; "list"; "check"; "query"; "search"; "read"; "fetch"; "is"; "has"; "show"; "view"; "describe"; "inspect";
   "retrieve"; "find"; "lookup"; "count"].
Definition strip_server (name : string) : string :=
  match after_last "__" name with Some i => of_bytes (drop i (bytes name)) | None => name end.
Definition IsReadTool (name : string) : bool := has_any_prefix readToolPrefixes (strip_server (to_lower name)).

(** [classifySideEffect] (effect_tracker.go). *)
Inductive SideEffectClass := SideEffectNone | SideEffectFile | SideEffectAPI | SideEffectDatabase | SideEffectNetwork.
#[export] Instance SideEffectClass_eq_dec : EqDecision SideEffectClass.
Proof. solve_decision. Defined.
Definition classifySideEffect (toolName : string) (isCore : bool) : SideEffectClass :=
  if isCore then
    if bool_decide (toolName ∈ ["read_file"; "list_files"; "decompress"]) then SideEffectNone else SideEffectFile
  else
    let lower := to_lower toolName in
    if has_any_prefix ["get_"; "list_"; "search_"; "query_"; "read_"; "fetch_"; "check_"; "is_"; "has_"] lower then SideEffectNone
    else if has_any_prefix ["cancel_"; "update_"; "create_"; "delete_"; "set_"; "send_"; "post_"; "put_"] lower then SideEffectAPI
    else SideEffectNetwork.

(** ** The key of a call *)

(** [CanonicalToolArgs] (core/sieve/canonical.go). *)
Definition CanonicalToolArgs (args : gmap string any) : gmap string any :=
  filter (λ kv, has_prefix "_" kv.1 = false) args.
(** FNV-1a on 64-bit words. *)
Definition fnv_step (h : Z) (c : ascii) : Z := (Z.lxor h (byteZ c) * 1099511628211) mod 2 ^ 64.
Definition fnv (b : list ascii) : Z := foldl fnv_step 14695981039346656037%Z b.
(** [marshal] is json.Marshal of a map. *)
Definition toolCallKey (marshal : gmap string any → option (list ascii)) (toolName : string) (args : gmap string any) : string :=
  let args := CanonicalToolArgs args in
  if decide (args = ∅) then (toolName +:+ ":")%string
  else match marshal args with
       | None => (toolName +:+ ":unmarshalable")%string
       | Some b => (toolName +:+ ":" +:+ pretty (fnv b))%string
       end.

(** ** Requests and plans (plan_coverage.go) *)

Definition actionVerbs : list string :=
  ["send"; "remind"; "create"; "add"; "cancel"; "update"; "delete"; "remove"; "mark"; "pay"; "transfer"; "book";
   "schedule"; "invite"; "post"; "archive"; "move"; "complete"; "submit"; "upload"; "comment"; "like"; "follow"].
Definition authToolKeywords : list string :=
  ["login"; "logout"; "signin"; "sign_in"; "authenticate"; "auth"; "token"].
Definition isActionTool (name : string) : bool :=
  negb (IsReadTool name) && negb (existsb (λ kw, contains kw (strip_server (to_lower name))) authToolKeywords).

Definition alnum (b : ascii) : bool :=
  let n := nat_of_ascii b in
  ((97 <=? n) && (n <=? 122)) || ((65 <=? n) && (n <=? 90)) || ((48 <=? n) && (n <=? 57)) || (n =? 95).
Definition isWordBoundary (s : list ascii) (start end_ : nat) : bool :=
  negb ((0 <? start) && default false (alnum <$> s !! (start - 1))) &&
  negb (default false (alnum <$> s !! end_)).
(** The inner loop of [requestNeedsAction] from [idx]; at most one iteration per byte. *)
Fixpoint verb_from (fuel : nat) (s v : list ascii) (idx : nat) : bool :=
  match fuel with
  | 0 => false
  | S fuel' =>
      match index_of v (drop idx s) with
      | None => false
      | Some i =>
          let start := idx + i in
          if isWordBoundary s start (start + length v) then true else verb_from fuel' s v (start + 1)
      end
  end.
Definition requestNeedsAction (task : string) : option string :=
  let s := bytes (to_lower task) in
  List.find (λ v, verb_from (S (length s)) s (bytes v) 0) actionVerbs.

Definition declared_tools (steps : list StepInput.t) : list string :=
  mjoin ((λ st, mjoin (snd <$> map_to_list (StepInput.AdditionalToolAllowlists st))) <$> steps).
Definition planCoverageGap (userTask : string) (steps : list StepInput.t) : string :=
  match requestNeedsAction userTask with
  | None => ""
  | Some verb =>
      let tools := declared_tools steps in
      if existsb isActionTool tools then ""
      else if decide (tools = []) then ""
      else ("plan has no action step: the request asks to " +:+ go_quote verb +:+ " but every one of the "
              +:+ pretty (length tools) +:+ " declared tools is read-only or a login. "
              +:+ "Add the step that performs the effect (and the tool that performs it), or the run will gather data and stop.")%string
  end.

(** ** Properties *)

Lemma existsb_prefix ps s : has_any_prefix ps s = true ↔ ∃ p, p ∈ ps ∧ has_prefix p s = true.
Proof. unfold has_any_prefix. rewrite existsb_exists. by setoid_rewrite <- list_elem_of_In. Qed.

(** Of two prefixes of one name, one extends the other. *)
Lemma prefix_comparable p q s : has_prefix p s = true → has_prefix q s = true → has_prefix p q = true ∨ has_prefix q p = true.
Proof.
  unfold has_prefix. revert q s. induction p as [|a p IH]; intros q s Hp Hq; [left; by destruct q|].
  destruct q as [|b q]; [by right|]. destruct s as [|c s]; [done|]. cbn in *.
  destruct (ascii_dec a c) as [->|]; [|done]. destruct (ascii_dec b c) as [->|]; [|done].
  destruct (ascii_dec c c); [|done]. by eapply IH.
Qed.

(** No tool is both read-only and a write, whatever its name. *)
Theorem read_only_never_write name : IsReadOnlyToolName name = true → IsWriteMCPTool name = false.
Proof.
  unfold IsReadOnlyToolName, IsWriteMCPTool. intros [_ (p & Hp & Hps)%existsb_prefix]%andb_prop.
  destruct (negb (is_core name)); [|done]. cbn [andb]. apply not_true_iff_false.
  intros (q & Hq & Hqs)%existsb_prefix.
  assert (forallb (λ p, forallb (λ q, negb (has_prefix p q || has_prefix q p)) writeToolPrefixes) readOnlyToolPrefixes = true)
    as Hdis by (vm_compute; reflexivity).
  rewrite forallb_forall in Hdis. specialize (Hdis p ltac:(by apply list_elem_of_In)). rewrite forallb_forall in Hdis.
  specialize (Hdis q ltac:(by apply list_elem_of_In)). apply negb_true_iff, orb_false_iff in Hdis as [H1 H2].
  destruct (prefix_comparable p q _ Hps Hqs); congruence.
Qed.

(** The occurrence of a verb as a word, at or after [idx]. *)
Definition word_at (s v : list ascii) (i : nat) : Prop := v `prefix_of` drop i s ∧ isWordBoundary s i (i + length v) = true.
Lemma verb_from_spec s v idx fuel :
  v ≠ [] → length s - idx < fuel → verb_from fuel s v idx = true ↔ ∃ i, idx ≤ i ∧ word_at s v i.
Proof.
  intros Hv. revert idx. induction fuel as [|fuel IH]; intros idx Hf; [lia|]. cbn [verb_from].
  destruct (index_of v (drop idx s)) as [i|] eqn:Ei.
  - destruct (index_of_Some _ _ _ Ei) as [Hpre Hmin]. rewrite drop_drop in Hpre.
    destruct (isWordBoundary s (idx + i) (idx + i + length v)) eqn:Hb.
    { split; [|done]. intros _. exists (idx + i). split; [lia|by split]. }
    assert (idx + i < length s) as Hlt.
    { destruct (decide (length s ≤ idx + i)) as [Hle|]; [|lia]. rewrite drop_ge in Hpre by done.
      by apply prefix_nil_inv in Hpre. }
    rewrite IH by lia. split; intros (k & Hk & Hw); exists k; (split; [|done]); [lia|].
    destruct (decide (k = idx + i)) as [->|Hne]; [destruct Hw; congruence|].
    destruct (decide (k < idx + i)); [|lia]. exfalso. apply (Hmin (k - idx)); [lia|]. rewrite drop_drop.
    replace (idx + (k - idx)) with k by lia. apply Hw.
  - split; [done|]. intros (k & Hk & Hw & _). exfalso. apply (index_of_None _ _ Ei (k - idx)). rewrite drop_drop.
    by replace (idx + (k - idx)) with k by lia.
Qed.

(** A verb counts exactly when it occurs as a word of the request. *)
Lemma requestNeedsAction_spec task :
  (requestNeedsAction task = None ↔ ∀ v, v ∈ actionVerbs → ∀ i, ¬ word_at (bytes (to_lower task)) (bytes v) i) ∧
  (∀ v, requestNeedsAction task = Some v → v ∈ actionVerbs ∧ ∃ i, word_at (bytes (to_lower task)) (bytes v) i).
Proof.
  unfold requestNeedsAction. set (s := bytes (to_lower task)).
  assert (∀ v, v ∈ actionVerbs → verb_from (S (length s)) s (bytes v) 0 = true ↔ ∃ i, 0 ≤ i ∧ word_at s (bytes v) i) as Hs.
  { intros v Hv. apply verb_from_spec; [|lia].
    assert (Forall (λ v, bytes v ≠ []) actionVerbs) as Hall by (repeat constructor; done). rewrite Forall_forall in Hall. by apply Hall. }
  split; [split|].
  - intros Hn v Hv i Hw. pose proof (find_none _ _ Hn v (proj1 (list_elem_of_In _ _) Hv)) as Hf.
    apply not_true_iff_false in Hf. apply Hf, Hs; [done|]. exists i. split; [lia|done].
  - intros Hno. destruct (List.find _ actionVerbs) as [v|] eqn:E; [|done]. apply find_some in E as [Hv%list_elem_of_In Hf].
    apply Hs in Hf as (i & _ & Hw); [|done]. by apply Hno in Hw.
  - intros v E. apply find_some in E as [Hv%list_elem_of_In Hf]. split; [done|]. apply Hs in Hf as (i & _ & Hw); [|done]. by exists i.
Qed.

(** A plan is faulted exactly when the request names an action, the plan
    declares tools and none of them can perform one. *)
Lemma planCoverageGap_spec task steps :
  planCoverageGap task steps = "" ↔
  requestNeedsAction task = None ∨ declared_tools steps = [] ∨ ∃ t, t ∈ declared_tools steps ∧ isActionTool t = true.
Proof.
  unfold planCoverageGap. destruct (requestNeedsAction task) as [v|]; [|by split; [left|]].
  destruct (existsb isActionTool _) eqn:E.
  - split; [|done]. intros _. right; right. apply existsb_exists in E as (t & Ht%list_elem_of_In & Hx). by exists t.
  - case_decide as Hn; [by split; [right; left|]|]. split; [done|]. intros [?|[?|(t & Ht & Hx)]]; [done|done|].
    apply not_true_iff_false in E. exfalso. apply E, existsb_exists. exists t. by rewrite <- list_elem_of_In.
Qed.

(** Control arguments do not change the key of a call. *)
Lemma toolCallKey_control marshal name args args' :
  CanonicalToolArgs args = CanonicalToolArgs args' → toolCallKey marshal name args = toolCallKey marshal name args'.
Proof. unfold toolCallKey. by intros ->. Qed.
(** All calls whose arguments do not encode share one key. *)
Lemma toolCallKey_unmarshalable marshal name args args' :
  marshal (CanonicalToolArgs args) = None → marshal (CanonicalToolArgs args') = None →
  CanonicalToolArgs args ≠ ∅ → CanonicalToolArgs args' ≠ ∅ → toolCallKey marshal name args = toolCallKey marshal name args'.
Proof. intros E E' H H'. unfold toolCallKey. by rewrite !decide_False, E, E' by done. Qed.

Example reminder_is_no_verb : requestNeedsAction "send_all: a reminder" = None.
Proof. vm_compute. reflexivity. Qed.
Example issue_is_read : IsReadTool "shop__issue_refund" = true ∧ isActionTool "shop__issue_refund" = false.
Proof. by vm_compute. Qed.
Example namespaced_read_is_network : classifySideEffect "app__get_user" false = SideEffectNetwork.
Proof. vm_compute. reflexivity. Qed.
Example strips_last_namespace : stripNamespace "mcp1.app__create_file" = "create_file".
Proof. vm_compute. reflexivity. Qed.

Lemma read_only_never_write_witness : IsWriteMCPTool "fs__read_file" = false.
Proof. apply read_only_never_write. vm_compute. reflexivity. Defined.
