(* ===== verification/JsonRepair.v ===== *)
(** * Repair of truncated JSON (pkg/jsonrepair/jsonrepair.go)

    Closing strings and brackets a truncated text leaves open, and cutting an
    array back to its complete objects.  Whether a text decodes
    ([isValid], json.Unmarshal into any) is an argument.  The grammar of RFC
    8259 states what the repairs produce; every scanner of the code that
    skips string literals is an instance of [Scans]. *)

From S2P Require Import Prelude.
From Stdlib Require Import Ascii.

Definition lbrace : ascii := ascii_of_nat 123.
Definition rbrace : ascii := ascii_of_nat 125.
Definition lbrack : ascii := ascii_of_nat 91.
Definition rbrack : ascii := ascii_of_nat 93.
Definition comma : ascii := ascii_of_nat 44.
Definition colon : ascii := ascii_of_nat 58.
Definition is_ws (c : ascii) : bool :=
  let n := nat_of_ascii c in (n =? 32) || (n =? 9) || (n =? 10) || (n =? 13).
Definition is_open (c : ascii) : bool := Ascii.eqb c lbrace || Ascii.eqb c lbrack.
Definition is_close (c : ascii) : bool := Ascii.eqb c rbrace || Ascii.eqb c rbrack.

(** ** The scan for open strings and brackets *)

Record ScanState := mkScan { inString : bool; escaped : bool; stack : list ascii }.
Definition scan_step (st : ScanState) (c : ascii) : ScanState :=
  if escaped st then mkScan (inString st) false (stack st)
  else if inString st then
    if Ascii.eqb c backslash then mkScan true true (stack st)
    else if Ascii.eqb c dquote then mkScan false false (stack st)
    else st
  else if Ascii.eqb c dquote then mkScan true false (stack st)
  else if is_open c then mkScan false false (c :: stack st)
  else if is_close c then mkScan false false (tl (stack st))
  else st.
(** The top of the stack comes first. *)
Definition scan (s : list ascii) : ScanState := foldl scan_step (mkScan false false []) s.
Definition unclosedStack (s : list ascii) : list ascii := stack (scan s).

Definition closer_of (c : ascii) : list ascii :=
  if Ascii.eqb c lbrace then [rbrace] else if Ascii.eqb c lbrack then [rbrack] else [].
Definition closers (stack : list ascii) : list ascii := mjoin (closer_of <$> stack).

Fixpoint drop_while (p : ascii → bool) (l : list ascii) : list ascii :=
  match l with
  | [] => []
  | c :: l' => if p c then drop_while p l' else l
  end.
Definition TrimRight (l : list ascii) : list ascii := reverse (drop_while is_ws (reverse l)).
Definition TrimSuffixComma (l : list ascii) : list ascii :=
  match reverse l with
  | c :: l' => if Ascii.eqb c comma then reverse l' else l
  | [] => l
  end.
Definition strip (l : list ascii) : list ascii := TrimSuffixComma (TrimRight l).

Definition string_end (st : ScanState) : list ascii :=
  if inString st then (if escaped st then [backslash] else []) ++ [dquote] else [].
Definition closeAtEnd (s : list ascii) : list ascii :=
  let st := scan s in strip (s ++ string_end st) ++ closers (stack st).

(** ** The last complete value *)

(** The offset of the first byte that is not white space, where it is one of [cs]. *)
Fixpoint look_ahead (cs : list ascii) (s : list ascii) (j : nat) : option nat :=
  match s with
  | [] => None
  | c :: s' => if is_ws c then look_ahead cs s' (S j) else if existsb (Ascii.eqb c) cs then Some j else None
  end.
Fixpoint last_complete (s : list ascii) (inStr esc : bool) (i : nat) (last : option nat) : option nat :=
  match s with
  | [] => last
  | c :: s' =>
      if esc then last_complete s' inStr false (S i) last
      else if inStr then
        if Ascii.eqb c backslash then last_complete s' true true (S i) last
        else if Ascii.eqb c dquote then
          last_complete s' false false (S i)
            (match look_ahead [comma; rbrace; rbrack] s' (S i) with Some j => Some j | None => last end)
        else last_complete s' true false (S i) last
      else if Ascii.eqb c dquote then last_complete s' true false (S i) last
      else last_complete s' false false (S i) last
  end.
Definition close_brackets (s : list ascii) : list ascii := s ++ closers (unclosedStack s).
Definition closeAtLastComplete (s : list ascii) : list ascii :=
  match last_complete s false false 0 None with
  | None => closeAtEnd s
  | Some j => close_brackets (strip (take (j + 1) s))
  end.

Definition Repair (isValid : string → bool) (s : string) : string * bool :=
  if isValid s then (s, true)
  else
    let repaired := of_bytes (closeAtEnd (bytes s)) in
    if isValid repaired then (repaired, true)
    else
      let repaired := of_bytes (closeAtLastComplete (bytes s)) in
      if isValid repaired then (repaired, true) else (s, false).

(** ** Cutting an array back *)

Definition raw_depth (s : list ascii) : Z :=
  foldl (λ d c, if is_open c then d + 1 else if is_close c then d - 1 else d)%Z 0%Z s.
(** The loop over the bytes from [i], at a nesting [depth] of brackets. *)
Fixpoint last_safe (arrayLevel : Z) (s : list ascii) (inStr esc : bool) (depth : Z) (i : nat) (last : option nat) : option nat :=
  match s with
  | [] => last
  | c :: s' =>
      if esc then last_safe arrayLevel s' inStr false depth (S i) last
      else if inStr then
        if Ascii.eqb c backslash then last_safe arrayLevel s' true true depth (S i) last
        else if Ascii.eqb c dquote then last_safe arrayLevel s' false false depth (S i) last
        else last_safe arrayLevel s' true false depth (S i) last
      else if Ascii.eqb c dquote then last_safe arrayLevel s' true false depth (S i) last
      else if is_open c then last_safe arrayLevel s' false false (depth + 1) (S i) last
      else if is_close c then
        last_safe arrayLevel s' false false (depth - 1) (S i)
          (if bool_decide (depth - 1 = arrayLevel)%Z && Ascii.eqb c rbrace then
             match look_ahead [comma; rbrack] s' (S i) with Some j => Some j | None => last end
           else last)
      else last_safe arrayLevel s' false false depth (S i) last
  end.
Definition TrimIncomplete (isValid : string → bool) (s : string) : string * bool :=
  if isValid s then (s, true)
  else
    let s := bytes (TrimSpace s) in
    match index_of [lbrack] s with
    | None => Repair isValid (of_bytes s)
    | Some arrStart =>
        let arrStartDepth := raw_depth (take arrStart s) in
        match last_safe (arrStartDepth + 1) (drop arrStart s) false false arrStartDepth arrStart None with
        | None => Repair isValid (of_bytes s)
        | Some j =>
            let truncated := of_bytes (close_brackets (strip (take (j + 1) s))) in
            if isValid truncated then (truncated, true) else Repair isValid (of_bytes s)
        end
    end.

(** ** Grammar: RFC 8259 *)

(** A piece of a string literal. *)
Inductive Item :=
| IPlain (c : ascii)
| IEsc (c : ascii)
| IHex (a b c d : ascii).
Inductive json :=
| JLit (tok : list ascii)
| JStr (s : list Item)
| JArr (l : list json)
| JObj (l : list (list Item * json)).

Definition digit (c : ascii) : bool := let n := nat_of_ascii c in (48 <=? n) && (n <=? 57).
Definition hex (c : ascii) : bool :=
  let n := nat_of_ascii c in digit c || ((65 <=? n) && (n <=? 70)) || ((97 <=? n) && (n <=? 102)).
Definition str_char (c : ascii) : bool :=
  (32 <=? nat_of_ascii c) && negb (Ascii.eqb c dquote) && negb (Ascii.eqb c backslash).
Definition item_ok (i : Item) : Prop :=
  match i with
  | IPlain c => str_char c = true
  | IEsc c => c ∈ dquote :: backslash :: bytes "/bfnrt"
  | IHex a b c d => forallb hex [a; b; c; d] = true
  end.
Definition item_text (i : Item) : list ascii :=
  match i with
  | IPlain c => [c]
  | IEsc c => [backslash; c]
  | IHex a b c d => backslash :: bytes "u" ++ [a; b; c; d]
  end.
Definition str_text (s : list Item) : list ascii := mjoin (item_text <$> s).

Definition digits (l : list ascii) : Prop := l ≠ [] ∧ Forall (λ c, digit c = true) l.
Definition number (t : list ascii) : Prop :=
  ∃ sign i f e, t = sign ++ i ++ f ++ e ∧
    (sign = [] ∨ sign = bytes "-") ∧
    (i = bytes "0" ∨ ∃ d ds, i = d :: ds ∧ d ≠ "0"%char ∧ digits (d :: ds)) ∧
    (f = [] ∨ ∃ ds, f = bytes "." ++ ds ∧ digits ds) ∧
    (e = [] ∨ ∃ x sg ds, e = x ++ sg ++ ds ∧ (x = bytes "e" ∨ x = bytes "E") ∧
                         (sg = [] ∨ sg = bytes "+" ∨ sg = bytes "-") ∧ digits ds).
Definition literal (t : list ascii) : Prop :=
  t = bytes "null" ∨ t = bytes "true" ∨ t = bytes "false" ∨ number t.
Definition ws (w : list ascii) : Prop := Forall (λ c, is_ws c = true) w.

(** [text v t]: [t] is a JSON text of [v], with any white space inside; the
    members of an object and the elements of an array grow at the end. *)
Inductive text : json → list ascii → Prop :=
| text_lit tok : literal tok → text (JLit tok) tok
| text_str s : Forall item_ok s → text (JStr s) (dquote :: str_text s ++ [dquote])
| text_arr l b : elems l b → text (JArr l) (lbrack :: b ++ [rbrack])
| text_obj l b : members l b → text (JObj l) (lbrace :: b ++ [rbrace])
with elems : list json → list ascii → Prop :=
| elems_nil w : ws w → elems [] w
| elems_snoc l p v t w : lead_elems l p → text v t → ws w → elems (l ++ [v]) (p ++ t ++ w)
with lead_elems : list json → list ascii → Prop :=
| lead_elems_nil w : ws w → lead_elems [] w
| lead_elems_snoc l p v t w w' :
    lead_elems l p → text v t → ws w → ws w' → lead_elems (l ++ [v]) (p ++ t ++ w ++ comma :: w')
with members : list (list Item * json) → list ascii → Prop :=
| members_nil w : ws w → members [] w
| members_snoc l p v t w : lead_members l p v.1 → text v.2 t → ws w → members (l ++ [v]) (p ++ t ++ w)
(** What comes before the value of the member that follows [l]. *)
with lead_members : list (list Item * json) → list ascii → list Item → Prop :=
| lead_members_nil w k w' w'' :
    ws w → Forall item_ok k → ws w' → ws w'' →
    lead_members [] (w ++ (dquote :: str_text k ++ [dquote]) ++ w' ++ colon :: w'') k
| lead_members_snoc l p v t w0 w k w' w'' :
    lead_members l p v.1 → text v.2 t → ws w0 →
    ws w → Forall item_ok k → ws w' → ws w'' →
    lead_members (l ++ [v]) (p ++ t ++ w0 ++ comma :: w ++ (dquote :: str_text k ++ [dquote]) ++ w' ++ colon :: w'') k.

Scheme text_mut := Minimality for text Sort Prop
  with elems_mut := Minimality for elems Sort Prop
  with lead_elems_mut := Minimality for lead_elems Sort Prop
  with members_mut := Minimality for members Sort Prop
  with lead_members_mut := Minimality for lead_members Sort Prop.
Combined Scheme text_all from text_mut, elems_mut, lead_elems_mut, members_mut, lead_members_mut.

(** ** Truncated texts *)

(** Where a truncation ends: outside any string, or in a string, after a
    backslash or not. *)
Inductive CutEnd := EndOut | EndIn (esc : bool).

(** [cut t v σ e]: [t] is a truncated text, [v] the value made of what was read
    whole and the string it ends in, [σ] the brackets open at its end, the
    innermost first. *)
Inductive cut : list ascii → json → list ascii → CutEnd → Prop :=
| cut_str s : Forall item_ok s → cut (dquote :: str_text s) (JStr s) [] (EndIn false)
| cut_str_esc s : Forall item_ok s → cut (dquote :: str_text s ++ [backslash]) (JStr (s ++ [IEsc backslash])) [] (EndIn true)
| cut_whole v t : text v t → cut t v [] EndOut
| cut_arr l b : elems l b → cut (lbrack :: b) (JArr l) [lbrack] EndOut
| cut_arr_comma l b w : elems l b → l ≠ [] → ws w → cut (lbrack :: b ++ comma :: w) (JArr l) [lbrack] EndOut
| cut_arr_in l p t v σ e :
    lead_elems l p → cut t v σ e → cut (lbrack :: p ++ t) (JArr (l ++ [v])) (σ ++ [lbrack]) e
| cut_obj l b : members l b → cut (lbrace :: b) (JObj l) [lbrace] EndOut
| cut_obj_comma l b w : members l b → l ≠ [] → ws w → cut (lbrace :: b ++ comma :: w) (JObj l) [lbrace] EndOut
| cut_obj_in l p k t v σ e :
    lead_members l p k → cut t v σ e → cut (lbrace :: p ++ t) (JObj (l ++ [(k, v)])) (σ ++ [lbrace]) e.

(** ** Scanners of JSON text *)

(** What every loop of the code that skips string literals does: [out x i s]
    says that the loop, before the text [s] at index [i], outside strings and
    at nesting [x], gives the result wanted; [ins] the same inside a string. *)
Class Scans {X : Type} (out : X → nat → list ascii → Prop) (ins : bool → X → nat → list ascii → Prop)
    (push : ascii → X → X) := {
  sc_quote x i s : ins false x (S i) s → out x i (dquote :: s);
  sc_open x i s c : is_open c = true → out (push c x) (S i) s → out x i (c :: s);
  sc_close x i s o c : closer_of o = [c] → out x (S i) s → out (push o x) i (c :: s);
  sc_other x i s c :
    Ascii.eqb c dquote = false → is_open c = false → is_close c = false → out x (S i) s → out x i (c :: s);
  sc_end x i s : out x (S i) s → ins false x i (dquote :: s);
  sc_back x i s : ins true x (S i) s → ins false x i (backslash :: s);
  sc_esc x i s c : ins false x (S i) s → ins true x i (c :: s);
  sc_char x i s c :
    Ascii.eqb c dquote = false → Ascii.eqb c backslash = false → ins false x (S i) s → ins false x i (c :: s)
}.

Ltac by_bytes := intros [[] [] [] [] [] [] [] []]; vm_compute; done.

Section Scanner.
Context {X : Type} (out : X → nat → list ascii → Prop) (ins : bool → X → nat → list ascii → Prop)
  (push : ascii → X → X) `{!Scans out ins push}.

(** A text the scanner passes over, at any nesting. *)
Definition skips (t : list ascii) : Prop := ∀ x i s, out x (i + length t) s → out x i (t ++ s).
Definition skips_in (t : list ascii) : Prop := ∀ x i s, ins false x (i + length t) s → ins false x i (t ++ s).
Definition neutral (c : ascii) : Prop := Ascii.eqb c dquote = false ∧ is_open c = false ∧ is_close c = false.

Lemma skips_nil : skips [].
Proof. intros x i s. by rewrite Nat.add_0_r. Qed.
Lemma skips_app a b : skips a → skips b → skips (a ++ b).
Proof. intros Ha Hb x i s H. rewrite <- app_assoc. apply Ha, Hb. by rewrite <- Nat.add_assoc, <- length_app. Qed.
Lemma skips_neutral l : Forall neutral l → skips l.
Proof.
  induction 1 as [|c l (H1 & H2 & H3) _ IH]; [apply skips_nil|]. intros x i s H.
  apply sc_other; try done. apply IH. by rewrite Nat.add_succ_l, <- Nat.add_succ_r.
Qed.
Lemma skips_bracket o c b : is_open o = true → closer_of o = [c] → skips b → skips (o :: b ++ [c]).
Proof.
  intros Ho Hc Hb x i s H. cbn. rewrite <- app_assoc. apply sc_open; [done|]. apply Hb. cbn.
  apply sc_close; [done|]. revert H. cbn [length]. rewrite length_app. cbn [length].
  by replace (i + S (length b + 1)) with (S (S i + length b)) by lia.
Qed.

Lemma skips_in_app a b : skips_in a → skips_in b → skips_in (a ++ b).
Proof. intros Ha Hb x i s H. rewrite <- app_assoc. apply Ha, Hb. by rewrite <- Nat.add_assoc, <- length_app. Qed.
Lemma skips_in_char c : str_char c = true → skips_in [c].
Proof.
  unfold str_char. intros [[_ H1]%andb_prop H2]%andb_prop x i s H. apply sc_char; try by apply negb_true_iff.
  by replace (S i) with (i + 1) by lia.
Qed.
Lemma hex_str_char c : hex c = true → str_char c = true.
Proof. revert c. by_bytes. Qed.
Lemma skips_in_esc c : skips_in [backslash; c].
Proof. intros x i s H. apply sc_back, sc_esc. by replace (S (S i)) with (i + 2) by lia. Qed.
Lemma skips_in_item it : item_ok it → skips_in (item_text it).
Proof.
  destruct it as [c|c|a b c d]; cbn [item_ok item_text].
  - apply skips_in_char.
  - intros _. apply skips_in_esc.
  - cbn [forallb]. rewrite !andb_true_iff. intros (Ha & Hb & Hc & Hd & _).
    change (backslash :: bytes "u" ++ [a; b; c; d]) with ([backslash; "u"%char] ++ [a] ++ [b] ++ [c] ++ [d]).
    repeat apply skips_in_app; try apply skips_in_esc; by apply skips_in_char, hex_str_char.
Qed.
Lemma skips_in_items s : Forall item_ok s → skips_in (str_text s).
Proof.
  induction 1 as [|it s Hit _ IH]; [intros x i s; by rewrite Nat.add_0_r|].
  change (str_text (it :: s)) with (item_text it ++ str_text s). apply skips_in_app; [by apply skips_in_item|done].
Qed.
Lemma skips_string s : Forall item_ok s → skips (dquote :: str_text s ++ [dquote]).
Proof.
  intros Hs x i r H. cbn. rewrite <- app_assoc. apply sc_quote, (skips_in_items s Hs). cbn. apply sc_end.
  revert H. cbn [length]. rewrite length_app. cbn [length].
  by replace (i + S (length (str_text s) + 1)) with (S (S i + length (str_text s))) by lia.
Qed.

Definition lit_char (c : ascii) : bool :=
  let n := nat_of_ascii c in
  digit c || ((97 <=? n) && (n <=? 122)) || (n =? 69) || (n =? 43) || (n =? 45) || (n =? 46).
Lemma lit_char_neutral c : lit_char c = true → neutral c.
Proof. unfold neutral. revert c. by_bytes. Qed.
Lemma ws_neutral c : is_ws c = true → neutral c.
Proof. unfold neutral. revert c. by_bytes. Qed.
Lemma digit_lit c : digit c = true → lit_char c = true.
Proof. revert c. by_bytes. Qed.

Lemma digits_lit l : digits l → Forall (λ c, lit_char c = true) l.
Proof. intros [_ H]. eapply Forall_impl; [exact H|]. apply digit_lit. Qed.
Lemma literal_chars t : literal t → t ≠ [] ∧ Forall (λ c, lit_char c = true) t.
Proof.
  intros [->|[->|[->|(sg & i & f & e & -> & Hs & Hi & Hf & He)]]]; try (split; [done|by repeat constructor]).
  assert (i ≠ [] ∧ Forall (λ c, lit_char c = true) i) as [Hne Hil].
  { destruct Hi as [->|(d & ds & -> & _ & Hd)]; [by split; repeat constructor|]. split; [done|by apply digits_lit]. }
  split; [by destruct sg, i|]. rewrite !Forall_app. split_and!; [|done| |].
  - destruct Hs as [->| ->]; by repeat constructor.
  - destruct Hf as [->|(ds & -> & Hd)]; [constructor|]. apply Forall_app. split; [by repeat constructor|by apply digits_lit].
  - destruct He as [->|(x & s & ds & -> & Hx & Hsg & Hd)]; [constructor|]. rewrite !Forall_app.
    split_and!; [destruct Hx as [->| ->]|destruct Hsg as [->|[->| ->]]|by apply digits_lit]; by repeat constructor.
Qed.
Lemma skips_literal t : literal t → skips t.
Proof. intros [_ H]%literal_chars. apply skips_neutral. eapply Forall_impl; [exact H|]. apply lit_char_neutral. Qed.
Lemma skips_ws w : ws w → skips w.
Proof. intros H. apply skips_neutral. eapply Forall_impl; [exact H|]. apply ws_neutral. Qed.
Lemma skips_comma w : ws w → skips (comma :: w).
Proof. intros H. apply (skips_app [comma]); [|by apply skips_ws]. apply skips_neutral. by repeat constructor. Qed.
Lemma skips_colon w : ws w → skips (colon :: w).
Proof. intros H. apply (skips_app [colon]); [|by apply skips_ws]. apply skips_neutral. by repeat constructor. Qed.

Lemma skips_all :
  (∀ v t, text v t → skips t) ∧ (∀ l b, elems l b → skips b) ∧ (∀ l p, lead_elems l p → skips p) ∧
  (∀ l b, members l b → skips b) ∧ (∀ l p k, lead_members l p k → skips p).
Proof.
  apply text_all; intros;
    repeat first [apply skips_literal; done | apply skips_string; done | apply skips_bracket; [done|done|]
      | done | apply skips_ws; done | apply skips_comma; done | apply skips_colon; done | apply skips_app
      | match goal with |- skips (comma :: ?w ++ ?r) => change (skips ((comma :: w) ++ r)) end].
Qed.

Definition at_end (e : CutEnd) : X → nat → list ascii → Prop := match e with EndOut => out | EndIn b => ins b end.
(** Over a truncated text the scanner ends where [cut] says. *)
Lemma scan_cut t v σ e :
  cut t v σ e → ∀ x i s, at_end e (foldr push x σ) (i + length t) s → out x i (t ++ s).
Proof.
  destruct skips_all as (Ht & He & Hle & Hm & Hlm).
  induction 1 as [s Hs|s Hs|v t H|l b H|l b w H _ Hw|l p t v σ e H _ IH|l b H|l b w H _ Hw|l p k t v σ e H _ IH];
    intros x i r Hr; try (cbn [app]; apply sc_open; [done|]; cbn [foldr] in Hr).
  - apply sc_quote, skips_in_items; [done|]. revert Hr. cbn. by rewrite Nat.add_succ_r.
  - cbn. rewrite <- app_assoc. apply sc_quote, skips_in_items; [done|]. apply sc_back. revert Hr.
    cbn. rewrite length_app. cbn. by replace (i + S (length (str_text s) + 1)) with (S (S i + length (str_text s))) by lia.
  - by apply (Ht v).
  - apply (He l); [done|]. revert Hr. cbn. by rewrite Nat.add_succ_r.
  - apply (skips_app b); [by apply (He l)|by apply skips_comma|]. revert Hr. cbn [length]. by rewrite Nat.add_succ_r.
  - rewrite <- app_assoc. apply (Hle l); [done|]. apply IH. revert Hr. rewrite foldr_app. cbn. rewrite length_app.
    by replace (i + S (length p + length t)) with (S i + length p + length t) by lia.
  - apply (Hm l); [done|]. revert Hr. cbn. by rewrite Nat.add_succ_r.
  - apply (skips_app b); [by apply (Hm l)|by apply skips_comma|]. revert Hr. cbn [length]. by rewrite Nat.add_succ_r.
  - rewrite <- app_assoc. apply (Hlm l p k); [done|]. apply IH. revert Hr. rewrite foldr_app. cbn. rewrite length_app.
    by replace (i + S (length p + length t)) with (S i + length p + length t) by lia.
Qed.

(** The same behind the bracket an unfinished element opens with. *)
Lemma scan_cut_open t v σ e :
  cut t v σ e → σ ≠ [] →
  ∃ c t1, t = c :: t1 ∧ is_open c = true ∧
    ∀ x i s, at_end e (foldr push x (take (length σ - 1) σ)) (i + length t1) s → out x i (t1 ++ s).
Proof.
  destruct skips_all as (Ht & He & Hle & Hm & Hlm).
  destruct 1 as [s Hs|s Hs|v t H|l b H|l b w H _ Hw|l p t v σ e H Hc|l b H|l b w H _ Hw|l p k t v σ e H Hc]; intros Hσ;
    try done; (eexists _, _; split; [reflexivity|]; split; [done|]); intros x i r Hr;
    rewrite ?length_app, ?Nat.add_sub, ?take_app_length in Hr.
  - by apply (He l).
  - apply (skips_app b); [by apply (He l)|by apply skips_comma|by rewrite length_app].
  - rewrite <- app_assoc. apply (Hle l); [done|]. eapply scan_cut; [exact Hc|]. by rewrite <- Nat.add_assoc.
  - by apply (Hm l).
  - apply (skips_app b); [by apply (Hm l)|by apply skips_comma|by rewrite length_app].
  - rewrite <- app_assoc. apply (Hlm l p k); [done|]. eapply scan_cut; [exact Hc|]. by rewrite <- Nat.add_assoc.
Qed.
End Scanner.

(** The scan for open brackets. *)
#[export] Instance stack_scans (target : ScanState) : Scans
  (λ x _ s, foldl scan_step (mkScan false false x) s = target)
  (λ b x _ s, foldl scan_step (mkScan true b x) s = target) cons.
Proof.
  split; intros x i s; cbn [foldl]; try done.
  - intros c H. unfold scan_step at 2. cbn. rewrite H. by destruct (Ascii.eqb_spec c dquote) as [->|_].
  - intros o c. unfold scan_step at 2, closer_of. cbn.
    destruct (Ascii.eqb_spec o lbrace); [|destruct (Ascii.eqb o lbrack); [|done]]; by intros [= <-].
  - intros c H1 H2 H3. unfold scan_step at 2. cbn. by rewrite H1, H2, H3.
  - intros c H1 H2. unfold scan_step at 2. cbn. by rewrite H1, H2.
Qed.

(** ** Stripping the end of a text *)

Definition solid (c : ascii) : bool := negb (is_ws c) && negb (Ascii.eqb c comma).
Definition ends_solid (t : list ascii) : Prop := ∃ l c, t = l ++ [c] ∧ solid c = true.

Lemma TrimRight_snoc l c : TrimRight (l ++ [c]) = if is_ws c then TrimRight l else l ++ [c].
Proof.
  unfold TrimRight. rewrite reverse_snoc. cbn [drop_while]. destruct (is_ws c); [done|].
  by rewrite reverse_cons, reverse_involutive.
Qed.
Lemma TrimRight_ws l w : ws w → TrimRight (l ++ w) = TrimRight l.
Proof.
  induction w as [|c w IH] using rev_ind; [by rewrite app_nil_r|]. intros [Hw Hc]%Forall_app.
  rewrite Forall_singleton in Hc. rewrite app_assoc, TrimRight_snoc, Hc. by apply IH.
Qed.
Lemma TrimSuffixComma_snoc l c : TrimSuffixComma (l ++ [c]) = if Ascii.eqb c comma then l else l ++ [c].
Proof. unfold TrimSuffixComma. rewrite reverse_snoc. by rewrite reverse_involutive. Qed.
Lemma strip_ws l w : ws w → strip (l ++ w) = strip l.
Proof. intros Hw. unfold strip. by rewrite TrimRight_ws. Qed.
Lemma strip_solid pre t : ends_solid t → strip (pre ++ t) = pre ++ t.
Proof.
  intros (l & c & -> & [Hw Hc]%andb_prop). apply negb_true_iff in Hw, Hc. unfold strip.
  rewrite app_assoc, TrimRight_snoc, Hw. cbv iota. by rewrite TrimSuffixComma_snoc, Hc.
Qed.
Lemma strip_comma l : strip (l ++ [comma]) = l.
Proof. unfold strip. rewrite TrimRight_snoc. change (is_ws comma) with false. cbv iota. by rewrite TrimSuffixComma_snoc. Qed.
Lemma ends_solid_app a t : ends_solid t → ends_solid (a ++ t).
Proof. intros (l & c & -> & Hc). exists (a ++ l), c. by rewrite app_assoc. Qed.
Lemma ends_solid_cons a t : ends_solid t → ends_solid (a :: t).
Proof. apply (ends_solid_app [a]). Qed.
Lemma ends_solid_one c : solid c = true → ends_solid [c].
Proof. by exists [], c. Qed.

Lemma lit_char_solid c : lit_char c = true → solid c = true.
Proof. revert c. by_bytes. Qed.
Lemma text_ends_solid v t : text v t → ends_solid t.
Proof.
  destruct 1 as [tok [Hne H]%literal_chars|s _|l b _|l b _].
  - destruct tok as [|c tok _] using rev_ind; [done|]. apply Forall_app in H as [_ H]. rewrite Forall_singleton in H.
    exists tok, c. split; [done|by apply lit_char_solid].
  - by apply ends_solid_cons, ends_solid_app, ends_solid_one.
  - by apply ends_solid_cons, ends_solid_app, ends_solid_one.
  - by apply ends_solid_cons, ends_solid_app, ends_solid_one.
Qed.

(** A body without its trailing white space. *)
Lemma elems_trim l b : elems l b → ∃ b0 w, b = b0 ++ w ∧ ws w ∧ elems l b0 ∧ (b0 = [] ∨ ends_solid b0).
Proof.
  destruct 1 as [w Hw|l p v t w Hl Ht Hw].
  - exists [], w. split_and!; [done|done|apply elems_nil, Forall_nil_2|by left].
  - exists (p ++ t), w. rewrite <- app_assoc. split_and!; try done.
    + rewrite <- (app_nil_r t). apply elems_snoc; [done|done|apply Forall_nil_2].
    + right. by eapply ends_solid_app, text_ends_solid.
Qed.
Lemma members_trim l b : members l b → ∃ b0 w, b = b0 ++ w ∧ ws w ∧ members l b0 ∧ (b0 = [] ∨ ends_solid b0).
Proof.
  destruct 1 as [w Hw|l p v t w Hl Ht Hw].
  - exists [], w. split_and!; [done|done|apply members_nil, Forall_nil_2|by left].
  - exists (p ++ t), w. rewrite <- app_assoc. split_and!; try done.
    + rewrite <- (app_nil_r t). apply members_snoc; [done|done|apply Forall_nil_2].
    + right. by eapply ends_solid_app, text_ends_solid.
Qed.
Lemma strip_body o b0 w pre :
  solid o = true → ws w → b0 = [] ∨ ends_solid b0 → strip (pre ++ (o :: b0 ++ w)) = pre ++ o :: b0.
Proof.
  intros Ho Hw Hb. change (o :: b0 ++ w) with ((o :: b0) ++ w). rewrite app_assoc, strip_ws by done.
  apply strip_solid. destruct Hb as [->|Hb]; [by apply ends_solid_one|by apply ends_solid_cons].
Qed.
Lemma strip_body_comma o b w pre : ws w → strip (pre ++ (o :: b ++ comma :: w)) = pre ++ o :: b.
Proof.
  intros Hw. replace (pre ++ o :: b ++ comma :: w) with (((pre ++ o :: b) ++ [comma]) ++ w) by (by rewrite <- !app_assoc).
  by rewrite strip_ws, strip_comma.
Qed.

(** ** Closing a truncated text *)

Definition end_state (e : CutEnd) (σ : list ascii) : ScanState :=
  match e with EndOut => mkScan false false σ | EndIn b => mkScan true b σ end.
Lemma cut_scan t v σ e : cut t v σ e → scan t = end_state e σ.
Proof.
  intros H. pose proof (scan_cut _ _ cons (Scans0 := stack_scans (end_state e σ)) t v σ e H [] 0 []) as Hs.
  rewrite app_nil_r in Hs. apply Hs.
  assert (foldr cons [] σ = σ) as -> by (clear; induction σ as [|c σ IH]; [done|cbn; by f_equal]). by destruct e.
Qed.
Lemma closers_snoc σ o : closers (σ ++ [o]) = closers σ ++ closer_of o.
Proof. unfold closers. rewrite fmap_app, join_app. cbn. by rewrite app_nil_r. Qed.

Lemma cut_closed t v σ e :
  cut t v σ e → ∃ t0, (∀ pre, strip (pre ++ t ++ string_end (end_state e σ)) = pre ++ t0) ∧ text v (t0 ++ closers σ).
Proof.
  induction 1 as [s Hs|s Hs|v t H|l b H|l b w H _ Hw|l p t v σ e H _ (t0 & IH & Ht)
    |l b H|l b w H _ Hw|l p k t v σ e H _ (t0 & IH & Ht)]; cbn [string_end end_state inString escaped app].
  - eexists. split; [intros pre; apply strip_solid; by apply ends_solid_cons, ends_solid_app, ends_solid_one|].
    rewrite app_nil_r. by constructor.
  - eexists. split; [intros pre; apply strip_solid; by apply ends_solid_cons, ends_solid_app, (ends_solid_cons backslash), ends_solid_one|].
    rewrite app_nil_r, <- app_assoc.
    assert (str_text (s ++ [IEsc backslash]) = str_text s ++ [backslash; backslash]) as E.
    { unfold str_text. by rewrite fmap_app, join_app. }
    replace (dquote :: str_text s ++ [backslash] ++ [backslash; dquote])
      with (dquote :: str_text (s ++ [IEsc backslash]) ++ [dquote]) by (rewrite E; by rewrite <- app_assoc).
    constructor. apply Forall_app. split; [done|]. apply Forall_singleton. cbn. set_solver.
  - exists t. rewrite !app_nil_r. split; [|done]. intros pre. by eapply strip_solid, text_ends_solid.
  - apply elems_trim in H as (b0 & w & -> & Hw & Hb & Hs). exists (lbrack :: b0). rewrite app_nil_r.
    split; [intros pre; by apply strip_body|by constructor].
  - exists (lbrack :: b). rewrite app_nil_r. split; [intros pre; by apply strip_body_comma|by constructor].
  - exists (lbrack :: p ++ t0). split.
    + intros pre. specialize (IH (pre ++ lbrack :: p)). rewrite <- !app_assoc in *. cbn in *. by destruct e.
    + rewrite closers_snoc. change (closer_of lbrack) with [rbrack].
      replace ((lbrack :: p ++ t0) ++ closers σ ++ [rbrack]) with (lbrack :: (p ++ (t0 ++ closers σ) ++ []) ++ [rbrack])
        by (cbn; by rewrite app_nil_r, <- !app_assoc).
      apply text_arr, elems_snoc; [done|done|apply Forall_nil_2].
  - apply members_trim in H as (b0 & w & -> & Hw & Hb & Hs). exists (lbrace :: b0). rewrite app_nil_r.
    split; [intros pre; by apply strip_body|by constructor].
  - exists (lbrace :: b). rewrite app_nil_r. split; [intros pre; by apply strip_body_comma|by constructor].
  - exists (lbrace :: p ++ t0). split.
    + intros pre. specialize (IH (pre ++ lbrace :: p)). rewrite <- !app_assoc in *. cbn in *. by destruct e.
    + rewrite closers_snoc. change (closer_of lbrace) with [rbrace].
      replace ((lbrace :: p ++ t0) ++ closers σ ++ [rbrace]) with (lbrace :: (p ++ (t0 ++ closers σ) ++ []) ++ [rbrace])
        by (cbn; by rewrite app_nil_r, <- !app_assoc).
      apply text_obj, members_snoc; [done|done|apply Forall_nil_2].
Qed.

Lemma closeAtEnd_cut t v σ e : cut t v σ e → text v (closeAtEnd t).
Proof.
  intros H. destruct (cut_closed _ _ _ _ H) as (t0 & Hs & Ht). unfold closeAtEnd.
  rewrite (cut_scan _ _ _ _ H). specialize (Hs []). cbn [app] in Hs. rewrite Hs. by destruct e.
Qed.

(** ** Every closed text is balanced *)

Definition quiet (c : ascii) : bool := is_ws c || Ascii.eqb c comma.
Lemma quiet_neutral c : quiet c = true → neutral c ∧ Ascii.eqb c backslash = false.
Proof. unfold neutral. revert c. by_bytes. Qed.
(** The scanner is escaped only inside strings, and stacks only brackets. *)
Definition scan_wf (st : ScanState) : Prop :=
  (inString st = false → escaped st = false) ∧ Forall (λ c, is_open c = true) (stack st).
Lemma scan_step_wf st c : scan_wf st → scan_wf (scan_step st c).
Proof.
  destruct st as [b e σ]. unfold scan_step. cbn. intros [He Hs]. cbn in *.
  destruct e; [split; [done|exact Hs]|]. destruct b.
  { repeat case_match; by split. }
  destruct (Ascii.eqb c dquote); [by split|]. destruct (is_open c) eqn:E; [by split; [|constructor]|].
  destruct (is_close c); split; try done. cbn. destruct Hs; [constructor|done].
Qed.
Lemma scan_foldl_wf s st : scan_wf st → scan_wf (foldl scan_step st s).
Proof. revert st. induction s as [|c s IH]; [done|]. intros st H. apply IH. by apply scan_step_wf. Qed.
Lemma scan_quiet_last s c σ : quiet c = true → scan (s ++ [c]) = mkScan false false σ → scan s = mkScan false false σ.
Proof.
  intros [(H1 & H2 & H3) H4]%quiet_neutral. unfold scan. rewrite foldl_snoc.
  assert (scan_wf (foldl scan_step (mkScan false false []) s)) as [Hw _] by (apply scan_foldl_wf; split; [done|constructor]).
  destruct (foldl scan_step _ s) as [b e τ]. unfold scan_step. cbn in *. destruct e.
  { destruct b; [done|]. by specialize (Hw eq_refl). }
  destruct b; [by rewrite H4, H1|]. by rewrite H1, H2, H3.
Qed.
Lemma strip_spec l : ∃ w, l = strip l ++ w ∧ Forall (λ c, quiet c = true) w.
Proof.
  assert (∃ w, l = TrimRight l ++ w ∧ ws w) as (w & Hl & Hw).
  { induction l as [|c l (w & Hl & Hw)] using rev_ind; [exists []; by split; [|constructor]|].
    rewrite TrimRight_snoc. destruct (is_ws c) eqn:E; [|exists []; by rewrite app_nil_r; split; [|constructor]].
    exists (w ++ [c]). rewrite app_assoc, <- Hl. split; [done|]. apply Forall_app. split; [done|]. by apply Forall_singleton. }
  assert (Forall (λ c, quiet c = true) w) as Hq.
  { eapply Forall_impl; [exact Hw|]. unfold quiet. by intros c ->. }
  unfold strip. destruct (TrimRight l) as [|c l' _] eqn:E using rev_ind; [by exists w|].
  rewrite TrimSuffixComma_snoc. destruct (Ascii.eqb_spec c comma) as [->|_]; [|by exists w].
  exists (comma :: w). rewrite Hl at 1. split; [by rewrite <- app_assoc|by constructor].
Qed.
Lemma scan_strip l σ : scan l = mkScan false false σ → scan (strip l) = mkScan false false σ.
Proof.
  destruct (strip_spec l) as (w & Hl & Hw). rewrite Hl at 1. generalize (strip l). clear Hl.
  induction w as [|c w IH] using rev_ind; intros k; [by rewrite app_nil_r|].
  apply Forall_app in Hw as [Hw Hc]. rewrite Forall_singleton in Hc. rewrite app_assoc.
  intros H%scan_quiet_last; [by apply IH|done].
Qed.
Lemma scan_closers σ :
  Forall (λ c, is_open c = true) σ → foldl scan_step (mkScan false false σ) (closers σ) = mkScan false false [].
Proof.
  induction 1 as [|c σ Hc _ IH]; [done|]. unfold is_open in Hc.
  destruct (Ascii.eqb_spec c lbrace) as [->|_]; [exact IH|]. destruct (Ascii.eqb_spec c lbrack) as [->|_]; [exact IH|done].
Qed.
Lemma scan_app a b : scan (a ++ b) = foldl scan_step (scan a) b.
Proof. unfold scan. by rewrite foldl_app. Qed.
Lemma scan_wf_scan s : scan_wf (scan s).
Proof. apply scan_foldl_wf. by split; [|constructor]. Qed.
Lemma scan_string_end s : scan (s ++ string_end (scan s)) = mkScan false false (stack (scan s)).
Proof.
  rewrite scan_app. destruct (scan_wf_scan s) as [Hw _]. destruct (scan s) as [b e σ]. cbn in *.
  unfold string_end. cbn. destruct b; [by destruct e|]. by rewrite Hw.
Qed.

(** Whatever was read, closing it leaves no string and no bracket open. *)
Theorem closed_text_balanced s : scan (closeAtEnd s) = mkScan false false [].
Proof.
  unfold closeAtEnd. rewrite scan_app, (scan_strip _ _ (scan_string_end s)). by apply scan_closers, scan_wf_scan.
Qed.

(** ** Repairing a truncated text *)

(** [isValid] decodes every text of the value. *)
Definition decodes (isValid : string → bool) (v : json) : Prop := ∀ t, text v t → isValid (of_bytes t) = true.

(** A text cut after an opening bracket, a comma or a complete value, or in a
    string value, is repaired into a text of what was read. *)
Theorem truncated_text_repaired isValid t v σ e :
  cut t v σ e → decodes isValid v → isValid (of_bytes t) = false →
  ∃ t', Repair isValid (of_bytes t) = (of_bytes t', true) ∧ text v t'.
Proof.
  intros Hc%closeAtEnd_cut Hd Hn. exists (closeAtEnd t). split; [|done].
  unfold Repair. by rewrite Hn, bytes_of_bytes, Hd.
Qed.

(** *** The loop that looks for the last complete object *)

Lemma look_ahead_ws cs w c s j :
  ws w → is_ws c = false → existsb (Ascii.eqb c) cs = true → look_ahead cs (w ++ c :: s) j = Some (j + length w).
Proof.
  intros Hw Hc Hin. revert j. induction Hw as [|a w Ha _ IH]; intros j; cbn [look_ahead app length].
  - by rewrite Hc, Hin, Nat.add_0_r.
  - rewrite Ha, IH. f_equal. lia.
Qed.

(** At the level of the array or deeper, whatever safe point is known. *)
#[export] Instance safe_scans (r : option nat) : Scans
  (λ (x : nat) i s, ∀ last, last_safe 1 s false false (1 + Z.of_nat x) i last = r)
  (λ b (x : nat) i s, ∀ last, last_safe 1 s true b (1 + Z.of_nat x) i last = r) (λ _, S).
Proof.
  split; intros x i s; cbn [last_safe]; try done.
  - intros c H. intros IH last. rewrite H. destruct (Ascii.eqb_spec c dquote) as [->|_]; [done|].
    replace (1 + Z.of_nat x + 1)%Z with (1 + Z.of_nat (S x))%Z by lia. apply IH.
  - intros o c Ho IH last. replace (1 + Z.of_nat (S x) - 1)%Z with (1 + Z.of_nat x)%Z by lia.
    revert Ho. unfold closer_of.
    destruct (Ascii.eqb_spec o lbrace); [|destruct (Ascii.eqb o lbrack); [|done]]; intros [= <-]; apply IH.
  - intros c H1 H2 H3 IH last. rewrite H1, H2, H3. apply IH.
  - intros c H1 H2 IH last. rewrite H2, H1. apply IH.
Qed.
(** Deeper than the array no safe point is found. *)
#[export] Instance deep_scans (r last : option nat) : Scans
  (λ (x : nat) i s, last_safe 1 s false false (2 + Z.of_nat x) i last = r)
  (λ b (x : nat) i s, last_safe 1 s true b (2 + Z.of_nat x) i last = r) (λ _, S).
Proof.
  split; intros x i s; cbn [last_safe]; try done.
  - intros c H IH. rewrite H. destruct (Ascii.eqb_spec c dquote) as [->|_]; [done|].
    replace (2 + Z.of_nat x + 1)%Z with (2 + Z.of_nat (S x))%Z by lia. apply IH.
  - intros o c Ho IH. replace (2 + Z.of_nat (S x) - 1)%Z with (2 + Z.of_nat x)%Z by lia.
    rewrite (bool_decide_eq_false_2 (2 + Z.of_nat x = 1)%Z) by lia.
    revert Ho. unfold closer_of.
    destruct (Ascii.eqb_spec o lbrace); [|destruct (Ascii.eqb o lbrack); [|done]]; intros [= <-]; apply IH.
  - intros c H1 H2 H3 IH. rewrite H1, H2, H3. apply IH.
  - intros c H1 H2 IH. rewrite H2, H1. apply IH.
Qed.

Lemma last_safe_neutral lvl u s d i last :
  Forall neutral u → last_safe lvl (u ++ s) false false d i last = last_safe lvl s false false d (i + length u) last.
Proof.
  intros Hu. revert i. induction Hu as [|c u (H1 & H2 & H3) _ IH]; intros i; cbn [app length last_safe].
  - by rewrite Nat.add_0_r.
  - rewrite H1, H2, H3, IH. f_equal. lia.
Qed.
Lemma ws_neutrals w : ws w → Forall neutral w.
Proof. intros H. eapply Forall_impl; [exact H|]. apply ws_neutral. Qed.
(** An unfinished element adds no safe point. *)
Lemma last_safe_cut t v σ e i last :
  cut t v σ e → σ ≠ [] → last_safe 1 t false false 1 i last = last.
Proof.
  intros Hc Hσ. pose proof (deep_scans last last) as Hs.
  destruct (scan_cut_open _ _ _ (Scans0 := Hs) t v σ e Hc Hσ) as (c & t1 & -> & Ho & Ht). cbn [last_safe].
  destruct (Ascii.eqb_spec c dquote) as [->|_]; [done|]. rewrite Ho.
  change (1 + 1)%Z with (2 + Z.of_nat 0)%Z. rewrite <- (app_nil_r t1). apply Ht. by destruct e.
Qed.

Lemma last_safe_found l p ms o w w' t v σ e :
  lead_elems l p → text (JObj ms) o → ws w → ws w' → cut t v σ e → σ ≠ [] →
  last_safe 1 (lbrack :: p ++ o ++ w ++ comma :: w' ++ t) false false 0 0 None = Some (1 + length (p ++ o ++ w)).
Proof.
  intros Hp Ho Hw Hw' Hc Hσ. set (r := Some _).
  pose proof (safe_scans r) as Hs. pose proof (skips_all _ _ _ (Scans0 := Hs)) as (_ & _ & Hle & Hm & _).
  change (last_safe 1 (lbrack :: p ++ o ++ w ++ comma :: w' ++ t) false false 0 0 None)
    with (last_safe 1 (p ++ o ++ w ++ comma :: w' ++ t) false false (1 + Z.of_nat 0) 1 None).
  apply (Hle l p Hp 0). inversion Ho as [| | |? b Hb]; subst. intros last.
  cbn [app]. apply (sc_open (Scans := Hs)); [done|]. rewrite <- app_assoc. apply (Hm ms b Hb). clear last. intros last.
  cbn [app last_safe]. change (is_open rbrace) with false. change (Ascii.eqb rbrace dquote) with false.
  change (is_close rbrace) with true. cbv iota.
  replace (1 + Z.of_nat 1 - 1)%Z with (1 + Z.of_nat 0)%Z by lia.
  rewrite bool_decide_eq_true_2 by done. change (Ascii.eqb rbrace rbrace) with true. cbn [andb].
  rewrite look_ahead_ws by done. set (j := Some (_ + length w)).
  assert (j = r) as ->.
  { unfold j, r. f_equal. cbn [length]. rewrite !length_app. cbn [length]. rewrite length_app. cbn. lia. }
  rewrite last_safe_neutral by by apply ws_neutrals.
  change (comma :: w' ++ t) with ((comma :: w') ++ t). rewrite last_safe_neutral.
  2: { constructor; [by unfold neutral|by apply ws_neutrals]. }
  by apply (last_safe_cut t v σ e).
Qed.

Lemma cut_unclosed t v σ e : cut t v σ e → unclosedStack t = σ.
Proof. intros H. unfold unclosedStack. rewrite (cut_scan _ _ _ _ H). by destruct e. Qed.

(** Of an array whose last element is unfinished, and the one before it a whole
    object, exactly the unfinished element goes. *)
Theorem trim_drops_unfinished isValid l p ms o w w' t v σ e :
  let s := lbrack :: p ++ o ++ w ++ comma :: w' ++ t in
  lead_elems l p → text (JObj ms) o → ws w → ws w' → cut t v σ e → σ ≠ [] →
  TrimSpace (of_bytes s) = of_bytes s → isValid (of_bytes s) = false → decodes isValid (JArr (l ++ [JObj ms])) →
  TrimIncomplete isValid (of_bytes s) = (of_bytes (lbrack :: p ++ o ++ w ++ [rbrack]), true) ∧
  text (JArr (l ++ [JObj ms])) (lbrack :: p ++ o ++ w ++ [rbrack]).
Proof.
  intros s Hp Ho Hw Hw' Hc Hσ Htrim Hinv Hd.
  assert (elems (l ++ [JObj ms]) (p ++ o ++ w)) as He by by constructor.
  assert (text (JArr (l ++ [JObj ms])) (lbrack :: p ++ o ++ w ++ [rbrack])) as Ht.
  { rewrite (app_assoc o), (app_assoc p). by constructor. }
  split; [|done]. unfold TrimIncomplete. rewrite Hinv, Htrim, bytes_of_bytes.
  assert (index_of [lbrack] s = Some 0) as ->.
  { unfold s. cbn [index_of]. rewrite decide_True; [done|]. by eexists. }
  change (take 0 s) with (@nil ascii). change (drop 0 s) with s. change (raw_depth []) with 0%Z. change (0 + 1)%Z with 1%Z.
  assert (last_safe 1 s false false 0 0 None = Some (1 + length (p ++ o ++ w))) as -> by by apply (last_safe_found l p ms o w w' t v σ e).
  assert (take (1 + length (p ++ o ++ w) + 1) s = (lbrack :: p ++ o ++ w) ++ [comma]) as ->.
  { unfold s. replace (lbrack :: p ++ o ++ w ++ comma :: w' ++ t) with (((lbrack :: p ++ o ++ w) ++ [comma]) ++ w' ++ t)
      by (cbn; by rewrite <- !app_assoc).
    rewrite take_app_length'; [done|]. cbn [length app]. rewrite !length_app. cbn [length]. lia. }
  rewrite strip_comma. unfold close_brackets. rewrite (cut_unclosed _ _ _ _ (cut_arr _ _ He)).
  change (closers [lbrack]) with [rbrack].
  replace ((lbrack :: p ++ o ++ w) ++ [rbrack]) with (lbrack :: p ++ o ++ w ++ [rbrack]) by (cbn; by rewrite <- !app_assoc).
  by rewrite Hd.
Qed.

(** ** Concrete texts *)

(** A decoder that accepts whatever is balanced accepts every JSON text. *)
Definition accepts_balanced (s : string) : bool :=
  match scan (bytes s) with mkScan false false [] => true | _ => false end.
Lemma accepts_balanced_decodes v : decodes accepts_balanced v.
Proof. intros t Ht. unfold accepts_balanced. by rewrite bytes_of_bytes, (cut_scan t v [] EndOut) by by constructor. Qed.

Definition repaired_text (s : string) : string := of_bytes (closeAtEnd (bytes s)).
Definition quoted (s : string) : string := (quote_str +:+ s +:+ quote_str)%string.
Example closes_nested : repaired_text "[1,[2,3, " = "[1,[2,3]]".
Proof. vm_compute. reflexivity. Qed.
Example closes_string : repaired_text ("{" +:+ quoted "k" +:+ ":[" +:+ quote_str +:+ "ab" +:+ of_bytes [backslash]) = ("{" +:+ quoted "k" +:+ ":[" +:+ quoted ("ab" +:+ of_bytes [backslash; backslash]) +:+ "]}")%string.
Proof. vm_compute. reflexivity. Qed.
Example drops_last_pair :
  of_bytes (closeAtLastComplete (bytes ("{" +:+ quoted "k" +:+ ":" +:+ quoted "v" +:+ "," +:+ quote_str +:+ "x")%string)) =
  ("{" +:+ quoted "k" +:+ ":" +:+ quoted "v" +:+ "}")%string.
Proof. vm_compute. reflexivity. Qed.

(** Only a string counts as a complete value: after a number the text cannot be
    cut back to the comma. *)
Example only_strings_complete :
  last_complete (bytes ("{" +:+ quoted "a" +:+ ":1," +:+ quoted "b" +:+ ":tru")%string) false false 0 None = None.
Proof. vm_compute. reflexivity. Qed.

Lemma lead_one v t : text v t → lead_elems [v] (t ++ [comma]).
Proof. intros H. apply (lead_elems_snoc [] [] v t [] []); [by constructor; constructor|done|constructor|constructor]. Qed.

Lemma truncated_text_repaired_witness :
  ∃ t' v, Repair accepts_balanced ("[1," +:+ quote_str +:+ "a") = (of_bytes t', true) ∧ text v t'.
Proof.
  set (s := [IPlain "a"%char]).
  assert (cut (lbrack :: (bytes "1" ++ [comma]) ++ dquote :: str_text s) (JArr ([JLit (bytes "1")] ++ [JStr s])) ([] ++ [lbrack]) (EndIn false)) as Hc.
  { apply cut_arr_in.
    - apply lead_one. constructor. right; right; right. exists [], (bytes "1"), [], []. split; [reflexivity|].
      split; [by left|]. split; [|by split; left]. right. exists "1"%char, []. split; [reflexivity|]. split; [discriminate|].
      split; [discriminate|]. constructor; [reflexivity|constructor].
    - apply cut_str. constructor; [reflexivity|constructor]. }
  destruct (truncated_text_repaired accepts_balanced _ _ _ _ Hc (accepts_balanced_decodes _) ltac:(vm_compute; reflexivity)) as (t' & H1 & H2).
  exists t'. eexists. split; [exact H1|exact H2].
Defined.

Lemma trim_drops_unfinished_witness : TrimIncomplete accepts_balanced "[{},{" = ("[{}]", true).
Proof.
  assert (text (JObj []) (lbrace :: [] ++ [rbrace])) as Ho by (constructor; constructor; constructor).
  assert (cut (lbrace :: []) (JObj []) [lbrace] EndOut) as Hc by (constructor; constructor; constructor).
  exact (proj1 (trim_drops_unfinished accepts_balanced [] [] [] _ [] [] _ _ _ _ ltac:(constructor; constructor) Ho
    ltac:(constructor) ltac:(constructor) Hc ltac:(discriminate) ltac:(vm_compute; reflexivity) ltac:(vm_compute; reflexivity)
    (accepts_balanced_decodes _))).
Defined.
