(* ===== verification/PlanDAG.v ===== *)
(** * Parsing a plan (schemas/plan_dag.go)

    Recovering a plan from a planner's answer, validating it and turning it
    into step inputs, with the cycle search.  JSON decoding is in [PlanEnv]; a JSON value nested in an object is the
    text it was read from. *)

From S2P Require Import Prelude TaskStatus Schema JsonRepair.
From Stdlib Require Import Ascii.

(** [PlanStep]. *)
Module PlanStep.
Record t := mk {
  ID : string;
  RoleID : string;
  Task : string;
  DependsOn : list string;
  AllowedTools : list string;
  ExitCriteria : string;
  DeterministicChecks : list DeterministicCheck;
  MCPID : string
}.
#[global] Instance eta : Eta t := λ r,
  mk (ID r) (RoleID r) (Task r) (DependsOn r) (AllowedTools r) (ExitCriteria r) (DeterministicChecks r) (MCPID r).
End PlanStep.

Record PlanParseOptions := mkOptions {
  AllowedRoles : gmap string bool;
  ToolCatalog : gmap string (gmap string bool);
  SingleMCP : string;
  MaxSteps : Z;
  MaxTaskChars : Z
}.
Record PlanParseError := mkPlanError { pe_Reason : string; pe_Detail : string }.
Definition plan_error_string (e : PlanParseError) : string :=
  if decide (pe_Detail e = "") then ("planner output rejected: " +:+ pe_Reason e)%string
  else ("planner output rejected: " +:+ pe_Reason e +:+ " (" +:+ pe_Detail e +:+ ")")%string.

Record PlanEnv := mkPlanEnv {
  decode_plan : string → result string (list PlanStep.t);
  raw_object : string → option (gmap string string);
  raw_string : string → option string;
  raw_steps : string → option (list PlanStep.t);
  valid_json : string → bool;
  unmarshals : string → bool
}.

(** ** Recovering the JSON *)

Definition fence : list ascii := repeat (ascii_of_nat 96) 3.
Definition starts_with (c : string) (s : string) : bool := has_prefix c s.

(** Strip a markdown fence: the first line after it goes, whatever it holds. *)
Definition strip_fence (s : string) : string :=
  match index_of fence (bytes s) with
  | None => s
  | Some idx =>
      let rest := drop (idx + 3) (bytes s) in
      let rest := match index_of [ascii_of_nat 10] rest with
                  | Some nl => drop (nl + 1) rest
                  | None => rest
                  end in
      let rest := match index_of fence rest with Some e => take e rest | None => rest end in
      TrimSpace (of_bytes rest)
  end.

(** [scanBalancedObject] from the state before byte [i]: the length of the span. *)
Fixpoint scan_from (s : list ascii) (depth : Z) (inStr escaped : bool) (i : nat) : option nat :=
  match s with
  | [] => None
  | c :: s' =>
      if inStr then
        if escaped then scan_from s' depth true false (S i)
        else if ascii_dec c backslash then scan_from s' depth true true (S i)
        else if ascii_dec c dquote then scan_from s' depth false false (S i)
        else scan_from s' depth true false (S i)
      else if ascii_dec c dquote then scan_from s' depth true escaped (S i)
      else if nat_of_ascii c =? 123 then scan_from s' (depth + 1) false escaped (S i)
      else if nat_of_ascii c =? 125 then
        if decide (depth - 1 = 0)%Z then Some (S i) else scan_from s' (depth - 1) false escaped (S i)
      else scan_from s' depth false escaped (S i)
  end.
Definition scanBalancedObject (s : list ascii) : option (list ascii) := (λ n, take n s) <$> scan_from s 0 false false 0.
Fixpoint find_balanced (env : PlanEnv) (s : list ascii) : option string :=
  match s with
  | [] => None
  | c :: s' =>
      if nat_of_ascii c =? 123 then
        match scanBalancedObject s with
        | Some cand => if valid_json env (of_bytes cand) then Some (of_bytes cand) else find_balanced env s'
        | None => find_balanced env s'
        end
      else find_balanced env s'
  end.
Definition findBalancedObject (env : PlanEnv) (s : string) : option string := find_balanced env (bytes s).

(** A repair that succeeded with something. *)
Definition nonempty (r : string * bool) : option string :=
  if r.2 && negb (String.eqb r.1 "") then Some r.1 else None.
Definition repaired (env : PlanEnv) (s : string) : string :=
  match nonempty (Repair (unmarshals env) s) with
  | Some fixed => fixed
  | None =>
      match nonempty (TrimIncomplete (unmarshals env) s) with
      | Some trimmed => match nonempty (Repair (unmarshals env) trimmed) with
                        | Some fixed => fixed
                        | None => trimmed
                        end
      | None => s
      end
  end.
Definition extractJSONObject (env : PlanEnv) (raw : string) : result PlanParseError string :=
  let s := TrimSpace raw in
  if decide (s = "") then Err (mkPlanError "empty planner output" "")
  else
    let s := strip_fence s in
    let s := if starts_with "[" s
             then ("{" +:+ quote_str +:+ "steps" +:+ quote_str +:+ ":" +:+ s +:+ "}")%string else s in
    let s := repaired env s in
    let s := if valid_json env s then s
             else match findBalancedObject env raw with
                  | Some c => c
                  | None => default s (findBalancedObject env s)
                  end in
    if negb (valid_json env s) then Err (mkPlanError "could not recover valid JSON from planner output" "")
    else if negb (starts_with "{" s) then Err (mkPlanError "planner output is not a JSON object" "")
    else Ok s.

(** ** Envelopes *)

Definition planEnvelopeKeys : list string :=
  ["result"; "plan"; "dag"; "data"; "output"; "content"; "answer"; "response"; "payload"].
Definition maxPlanEnvelopeDepth : nat := 3.
Definition stepsFromRaw (env : PlanEnv) (raw : option string) : list PlanStep.t :=
  match raw with
  | Some r => if decide (r = "") then [] else default [] (raw_steps env r)
  | None => []
  end.
(** [levels] envelopes may still be opened. *)

Fixpoint findPlanStepsIn (env : PlanEnv) (levels : nat) (obj : gmap string string) : list PlanStep.t :=
  match levels with
  | 0 => []
  | S levels' =>
      match stepsFromRaw env (obj !! "steps") with
      | (_ :: _) as steps => steps
      | [] =>
          (fix keys (ks : list string) : list PlanStep.t :=
             match ks with
             | [] => []
             | k :: ks' =>
                 let found :=
                   match obj !! k with
                   | None => []
                   | Some child =>
                       match raw_object env child with
                       | Some inner =>
                           match stepsFromRaw env (inner !! "steps") with
                           | (_ :: _) as steps => steps
                           | [] => findPlanStepsIn env levels' inner
                           end
                       | None =>
                           match raw_string env child with
                           | Some s =>
                               if contains (quote_str +:+ "steps" +:+ quote_str)%string s then
                                 match extractJSONObject env s with
                                 | Ok nested => match raw_object env nested with
                                                | Some o => findPlanStepsIn env levels' o
                                                | None => []
                                                end
                                 | Err _ => []
                                 end
                               else []
                           | None => []
                           end
                       end
                   end in
                 match found with
                 | _ :: _ => found
                 | [] => keys ks'
                 end
             end) planEnvelopeKeys
      end
  end.
Definition unwrapPlanEnvelope (env : PlanEnv) (body : string) : list PlanStep.t :=
  match raw_object env body with
  | Some obj => findPlanStepsIn env (S maxPlanEnvelopeDepth) obj
  | None => []
  end.
Definition planShape (env : PlanEnv) (body : string) : string :=
  match raw_object env body with
  | None => "unparseable object"
  | Some obj => ("top-level keys: " +:+ join ", " (sort_strings (elements (dom obj))))%string
  end.

(** ** The cycle search *)

Inductive Color := Grey | Black.
#[export] Instance Color_eq_dec : EqDecision Color.
Proof. solve_decision. Defined.

Definition plan_deps (steps : list PlanStep.t) : gmap string (list string) :=
  foldl (λ m s, <[PlanStep.ID s := PlanStep.DependsOn s]> m) ∅ steps.
Definition deps_of (deps : gmap string (list string)) (id : string) : list string := default [] (deps !! id).

(** A visit finds a cycle, or ends with the colours it leaves (the stack is
    then what it was), or is out of fuel. *)
Inductive Visit :=
| VFound (path : list string)
| VDone (color : gmap string Color)
| VFuel.

(** The stack from the first occurrence of [dep]. *)
Fixpoint stack_from (dep : string) (stack : list string) : list string :=
  match stack with
  | [] => []
  | v :: vs => if decide (v = dep) then v :: vs else stack_from dep vs
  end.
Fixpoint visit_deps (visit : gmap string Color → string → Visit) (stack : list string) (id : string)
    (ds : list string) (color : gmap string Color) : Visit :=
  match ds with
  | [] => VDone (<[id := Black]> color)
  | d :: ds' =>
      match color !! d with
      | Some Grey => VFound (stack_from d stack ++ [d])
      | Some Black => visit_deps visit stack id ds' color
      | None => match visit color d with
                | VDone color => visit_deps visit stack id ds' color
                | r => r
                end
      end
  end.
Fixpoint visit (fuel : nat) (deps : gmap string (list string)) (stack : list string)
    (color : gmap string Color) (id : string) : Visit :=
  match fuel with
  | 0 => VFuel
  | S fuel' =>
      let stack := stack ++ [id] in
      visit_deps (visit fuel' deps stack) stack id (deps_of deps id) (<[id := Grey]> color)
  end.
Fixpoint visit_all (fuel : nat) (deps : gmap string (list string)) (ids : list string)
    (color : gmap string Color) : Visit :=
  match ids with
  | [] => VDone color
  | id :: ids' =>
      match color !! id with
      | None => match visit fuel deps [] color id with
                | VDone color => visit_all fuel deps ids' color
                | r => r
                end
      | Some _ => visit_all fuel deps ids' color
      end
  end.
(** Every id the search can meet. *)
Definition plan_nodes (steps : list PlanStep.t) : gset string :=
  list_to_set ((PlanStep.ID <$> steps) ++ mjoin (PlanStep.DependsOn <$> steps)).
Definition search_cycle (steps : list PlanStep.t) : Visit :=
  visit_all (size (plan_nodes steps)) (plan_deps steps) (sort_strings (PlanStep.ID <$> steps)) ∅.
Definition findPlanCycle (steps : list PlanStep.t) : string :=
  match search_cycle steps with
  | VFound path => join " -> " path
  | _ => ""
  end.

(** ** Validation *)

Definition id_char (a : ascii) : bool :=
  let n := nat_of_ascii a in
  ((65 <=? n) && (n <=? 90)) || ((97 <=? n) && (n <=? 122)) || ((48 <=? n) && (n <=? 57)) || (n =? 95) || (n =? 45).
Definition planStepIDPattern (s : string) : bool :=
  (1 <=? String.length s) && (String.length s <=? 64) && forallb id_char (bytes s).

Definition reject {A} (reason detail : string) : result PlanParseError A := Err (mkPlanError reason detail).
Definition limit (v dflt : Z) : Z := if decide (v ≤ 0)%Z then dflt else v.
Definition sole_role (opt : PlanParseOptions) : string :=
  match map_to_list (AllowedRoles opt) with [(r, _)] => r | _ => "" end.

Definition trim_step (ps : PlanStep.t) : PlanStep.t :=
  ps <| PlanStep.ID ::= TrimSpace |> <| PlanStep.RoleID ::= TrimSpace |> <| PlanStep.Task ::= TrimSpace |>
     <| PlanStep.MCPID ::= TrimSpace |>.
Definition check_role (opt : PlanParseOptions) (ps : PlanStep.t) : result PlanParseError PlanStep.t :=
  let? ps := if decide (PlanStep.RoleID ps = "") then
               if decide (sole_role opt = "") then reject "step missing role_id" (PlanStep.ID ps)
               else Ok (ps <| PlanStep.RoleID := sole_role opt |>)
             else Ok ps in
  if bool_decide (0 < size (AllowedRoles opt)) && negb (default false (AllowedRoles opt !! PlanStep.RoleID ps))
  then reject "unknown role_id" (PlanStep.RoleID ps) else Ok ps.
Definition check_task (maxTask : Z) (ps : PlanStep.t) : result PlanParseError PlanStep.t :=
  let n := Z.of_nat (String.length (PlanStep.Task ps)) in
  if decide (PlanStep.Task ps = "") then reject "step missing task" (PlanStep.ID ps)
  else if decide (maxTask < n)%Z
  then reject "step task too long" (PlanStep.ID ps +:+ ": " +:+ pretty n +:+ " > " +:+ pretty maxTask +:+ " chars")%string
  else Ok ps.
(** The first loop, from index [i] with the ids seen so far. *)
Fixpoint check_steps (opt : PlanParseOptions) (maxTask : Z) (i : Z) (seen : gset string) (steps : list PlanStep.t)
    : result PlanParseError (list PlanStep.t) :=
  match steps with
  | [] => Ok []
  | ps :: rest =>
      let ps := trim_step ps in
      if decide (PlanStep.ID ps = "") then reject "step missing id" ("index " +:+ pretty i)%string
      else if negb (planStepIDPattern (PlanStep.ID ps)) then reject "step id has illegal characters" (PlanStep.ID ps)
      else if decide (PlanStep.ID ps ∈ seen) then reject "duplicate step id" (PlanStep.ID ps)
      else
        let? ps := check_role opt ps in
        let? ps := check_task maxTask ps in
        let? rest := check_steps opt maxTask (i + 1) ({[PlanStep.ID ps]} ∪ seen) rest in
        Ok (ps :: rest)
  end.

Definition check_dep (ids : list string) (ps : PlanStep.t) (dep : string) : result PlanParseError unit :=
  let dep := TrimSpace dep in
  if decide (dep = "") then reject "empty dependency reference" (PlanStep.ID ps)
  else if negb (bool_decide (dep ∈ ids))
  then reject "dependency references unknown step" (PlanStep.ID ps +:+ " -> " +:+ dep)%string
  else if decide (dep = PlanStep.ID ps) then reject "step depends on itself" (PlanStep.ID ps)
  else Ok tt.
Definition check_deps (steps : list PlanStep.t) : result PlanParseError unit :=
  let? _ := rmap (λ ps, rmap (check_dep (PlanStep.ID <$> steps) ps) (PlanStep.DependsOn ps)) steps in Ok tt.

(** The tools of a step, cleaned and checked against the catalog. *)
Definition clean_tools (opt : PlanParseOptions) (mcpID : string) (ps : PlanStep.t) : result PlanParseError (list string) :=
  let catalog := default ∅ (ToolCatalog opt !! mcpID) in
  let available := bool_decide (0 < size catalog) in
  let tools := filter (λ t, t ≠ "") (TrimSpace <$> PlanStep.AllowedTools ps) in
  let unknown := filter (λ t, available && negb (default false (catalog !! t)) = true) tools in
  if negb (bool_decide (unknown = []))
  then reject "unknown tool name(s)" (PlanStep.ID ps +:+ ": " +:+ join ", " (sort_strings unknown))%string
  else if decide (tools = []) then reject "allowed_tools empty after cleaning" (PlanStep.ID ps)
  else Ok tools.
Definition to_input (opt : PlanParseOptions) (ps : PlanStep.t) : result PlanParseError StepInput.t :=
  let mcpID := if decide (PlanStep.MCPID ps = "") then SingleMCP opt else PlanStep.MCPID ps in
  if bool_decide (mcpID = "") && bool_decide (PlanStep.AllowedTools ps ≠ [])
  then reject "allowed_tools given without mcp_id" (PlanStep.ID ps)
  else
    let? allow := match PlanStep.AllowedTools ps with
                  | [] => Ok ∅
                  | _ => let? tools := clean_tools opt mcpID ps in Ok ({[mcpID := tools]} : gmap string (list string))
                  end in
    Ok (zeroInput <| StepInput.ID := PlanStep.ID ps |> <| StepInput.RoleID := PlanStep.RoleID ps |>
          <| StepInput.Task := PlanStep.Task ps |> <| StepInput.DependsOn := PlanStep.DependsOn ps |>
          <| StepInput.DeterministicChecks := PlanStep.DeterministicChecks ps |>
          <| StepInput.AdditionalMCPs := if decide (mcpID = "") then [] else [mcpID] |>
          <| StepInput.AdditionalToolAllowlists := allow |>
          <| StepInput.ExitCriteria := TrimSpace (PlanStep.ExitCriteria ps) |>).

Definition validate_plan (env : PlanEnv) (opt : PlanParseOptions) (body : string) (steps : list PlanStep.t)
    : result PlanParseError (list StepInput.t) :=
  let maxSteps := limit (MaxSteps opt) 12 in
  let n := Z.of_nat (length steps) in
  if decide (steps = []) then reject "plan contains no steps" (planShape env body)
  else if decide (maxSteps < n)%Z then reject "plan exceeds step budget" (pretty n +:+ " > " +:+ pretty maxSteps)%string
  else
    let? steps := check_steps opt (limit (MaxTaskChars opt) 4000) 0 ∅ steps in
    let? _ := check_deps steps in
    let cycle := findPlanCycle steps in
    if negb (String.eqb cycle "") then reject "cyclic dependency" cycle
    else rmap (to_input opt) steps.
Definition ParsePlanDAG (env : PlanEnv) (opt : PlanParseOptions) (raw : string) : result PlanParseError (list StepInput.t) :=
  let? body := extractJSONObject env raw in
  match decode_plan env body with
  | Err e => reject "invalid JSON" e
  | Ok steps =>
      let steps := match steps with [] => unwrapPlanEnvelope env body | _ => steps end in
      validate_plan env opt body steps
  end.

(** ** A plan in prose *)

#[export] Instance brace_scans (r : option nat) : Scans
  (λ (x : nat) i s, scan_from s (1 + Z.of_nat x) false false i = r)
  (λ b (x : nat) i s, scan_from s (1 + Z.of_nat x) true b i = r) (λ c x, if Ascii.eqb c lbrace then S x else x).
Proof.
  assert (∀ c, (nat_of_ascii c =? 123) = Ascii.eqb c lbrace ∧ (nat_of_ascii c =? 125) = Ascii.eqb c rbrace) as Hb by by_bytes.
  split; intros x i s; cbn [scan_from]; try done.
  - intros c Ho IH. destruct (ascii_dec c dquote) as [->|_]; [done|]. destruct (Hb c) as [-> ->].
    unfold is_open in Ho. destruct (Ascii.eqb c lbrace).
    + by replace (1 + Z.of_nat x + 1)%Z with (1 + Z.of_nat (S x))%Z by lia.
    + cbn [orb] in Ho. apply Ascii.eqb_eq in Ho as ->. done.
  - intros o c. unfold closer_of. destruct (Ascii.eqb o lbrace); [|destruct (Ascii.eqb o lbrack); [|done]]; intros [= <-] IH;
      [|done]. change (if ascii_dec rbrace dquote then _ else ?e) with e. 
    change (nat_of_ascii rbrace =? 123) with false. change (nat_of_ascii rbrace =? 125) with true. cbv iota.
    rewrite decide_False by lia. by replace (1 + Z.of_nat (S x) - 1)%Z with (1 + Z.of_nat x)%Z by lia.
  - intros c H1 H2 H3 IH. destruct (ascii_dec c dquote) as [->|_]; [done|]. destruct (Hb c) as [-> ->].
    unfold is_open, is_close in *. apply orb_false_iff in H2 as [-> _], H3 as [-> _]. done.
  - intros c H1 H2 IH. destruct (ascii_dec c backslash) as [->|_]; [done|]. by destruct (ascii_dec c dquote) as [->|_].
Qed.

Lemma scan_object ms o rest : text (JObj ms) o → scanBalancedObject (o ++ rest) = Some o.
Proof.
  intros Ho. unfold scanBalancedObject.
  assert (scan_from (o ++ rest) 0 false false 0 = Some (length o)) as ->; [|cbn; by rewrite take_app_length].
  inversion Ho as [| | |? b Hb]; subst.
  pose proof (brace_scans (Some (length (lbrace :: b ++ [rbrace])))) as Hs.
  pose proof (skips_all _ _ _ (Scans0 := Hs)) as (_ & _ & _ & Hm & _).
  change (scan_from ((lbrace :: b ++ [rbrace]) ++ rest) 0 false false 0)
    with (scan_from ((b ++ [rbrace]) ++ rest) (1 + Z.of_nat 0) false false 1).
  rewrite <- app_assoc. apply (Hm ms b Hb 0). cbn [app length]. rewrite length_app. cbn. f_equal. lia.
Qed.

(** A plan written into prose is found whole: the first brace opens it, and
    braces and quotes inside its strings do not end it. *)
Theorem object_in_prose_found env pre ms o rest :
  Forall (λ c, c ≠ lbrace) pre → text (JObj ms) o → valid_json env (of_bytes o) = true →
  findBalancedObject env (of_bytes (pre ++ o ++ rest)) = Some (of_bytes o).
Proof.
  intros Hpre Ho Hv. unfold findBalancedObject. rewrite bytes_of_bytes.
  assert (∀ c, (nat_of_ascii c =? 123) = Ascii.eqb c lbrace) as Hb by by_bytes.
  induction Hpre as [|c pre Hc _ IH]; cbn [app find_balanced].
  - pose proof (scan_object ms o rest Ho) as E. inversion Ho; subst. cbn [app find_balanced] in *.
    change (nat_of_ascii lbrace =? 123) with true. cbv iota. by rewrite E, Hv.
  - rewrite Hb. destruct (Ascii.eqb_spec c lbrace); done.
Qed.

(** A list of steps at the top is taken whole. *)
Lemma steps_at_top env n obj :
  stepsFromRaw env (obj !! "steps") ≠ [] → findPlanStepsIn env (S n) obj = stepsFromRaw env (obj !! "steps").
Proof. intros H. cbn [findPlanStepsIn]. by destruct (stepsFromRaw env (obj !! "steps")). Qed.

(** ** The cycle search is exact *)

(** A walk along a relation. *)
Fixpoint walk (R : string → string → Prop) (l : list string) : Prop :=
  match l with
  | x :: ((y :: _) as l') => R x y ∧ walk R l'
  | _ => True
  end.
Lemma walk_cons2 R x y l : walk R (x :: y :: l) ↔ R x y ∧ walk R (y :: l).
Proof. done. Qed.
Lemma walk_snoc R l x y : walk R (l ++ [x]) → R x y → walk R ((l ++ [x]) ++ [y]).
Proof.
  induction l as [|a [|b l] IH]; intros Hw Hxy; [done|by split; [apply Hw|]|].
  destruct Hw as [Hab Hw]. split; [exact Hab|]. by apply IH.
Qed.
Lemma walk_app_r R l k : walk R (l ++ k) → walk R k.
Proof. induction l as [|a l IH]; [done|]. intros Hw. apply IH. cbn [app] in Hw. by destruct (l ++ k); [|destruct Hw]. Qed.
Lemma walk_tc R x l y : walk R (x :: l ++ [y]) → tc R x y.
Proof.
  revert x. induction l as [|a l IH]; intros x [Hx Hw]; [by apply tc_once|]. eapply tc_l; [exact Hx|]. by apply IH.
Qed.
Lemma walk_mono (R R' : string → string → Prop) l : (∀ x y, R x y → R' x y) → walk R l → walk R' l.
Proof.
  intros HR. induction l as [|x [|y l] IH]; [done|done|]. rewrite !walk_cons2. intros [? ?]. split; [by apply HR|by apply IH].
Qed.
Definition closed_walk (R : string → string → Prop) (path : list string) : Prop :=
  walk R path ∧ ∃ d l, path = d :: l ++ [d].

Section Search.
Context (deps : gmap string (list string)) (nodes : gset string).
Definition edge (x y : string) : Prop := y ∈ deps_of deps x.
Context (Hnodes : ∀ x y, edge x y → y ∈ nodes).

(** Finished nodes are closed under dependencies and on no cycle. *)
Definition finished (color : gmap string Color) : Prop :=
  (∀ x y, color !! x = Some Black → edge x y → color !! y = Some Black) ∧
  (∀ x, color !! x = Some Black → ¬ tc edge x x).
Definition grey_stack (color : gmap string Color) (stack : list string) : Prop :=
  ∀ x, color !! x = Some Grey ↔ x ∈ stack.
Definition white (color : gmap string Color) : gset string := nodes ∖ dom color.
(** [color'] has everything finished that [color] has. *)
Definition blacker (color color' : gmap string Color) : Prop :=
  ∀ x, color !! x = Some Black → color' !! x = Some Black.
Definition visit_post (color : gmap string Color) (stack : list string) (id : string) (v : Visit) : Prop :=
  match v with
  | VFound path => closed_walk edge path
  | VDone color' => finished color' ∧ grey_stack color' stack ∧ color' !! id = Some Black ∧ blacker color color'
  | VFuel => False
  end.

Lemma finished_tc color x y :
  finished color → color !! x = Some Black → tc edge x y → color !! y = Some Black.
Proof. intros [Hcl _] Hx Ht. induction Ht; eauto. Qed.

Lemma white_sub color color' stack :
  grey_stack color stack → grey_stack color' stack → blacker color color' → white color' ⊆ white color.
Proof.
  intros Hg Hg' Hb x. unfold white. rewrite !elem_of_difference, !not_elem_of_dom.
  intros [Hn Hx]. split; [done|]. destruct (color !! x) as [[]|] eqn:E; [| |done].
  - assert (color' !! x = Some Grey) as Hgr by (apply Hg', Hg; done). congruence.
  - apply Hb in E. congruence.
Qed.

Lemma stack_from_spec d stack : d ∈ stack → ∃ pre l, stack = pre ++ d :: l ∧ stack_from d stack = d :: l.
Proof.
  induction stack as [|v vs IH]; intros Hin; [by apply elem_of_nil in Hin|]. cbn [stack_from].
  case_decide as Hv; [subst; by exists [], vs|]. apply elem_of_cons in Hin as [->|Hin]; [done|].
  destruct (IH Hin) as (pre & l & -> & ->). by exists (v :: pre), l.
Qed.
Lemma back_edge d stack : d ∈ stack → walk edge (stack ++ [d]) → closed_walk edge (stack_from d stack ++ [d]).
Proof.
  intros (pre & l & -> & ->)%stack_from_spec Hw. rewrite <- app_assoc in Hw.
  split; [by eapply walk_app_r|by exists d, l].
Qed.

(** Finishing the node on top of the stack. *)
Lemma finish_node color stack id :
  finished color → grey_stack color (stack ++ [id]) → id ∉ stack → (∀ y, edge id y → color !! y = Some Black) →
  finished (<[id := Black]> color) ∧ grey_stack (<[id := Black]> color) stack.
Proof.
  intros Hf Hg Hns Hd. assert (color !! id = Some Grey) as Hid by (apply Hg; set_solver).
  split; [split|].
  - intros x y Hx Hxy. assert (color !! y = Some Black) as Hy.
    { destruct (decide (x = id)) as [->|Hne]; [by apply Hd|]. rewrite lookup_insert_ne in Hx by done.
      by eapply (proj1 Hf). }
    rewrite lookup_insert_ne; [done|]. intros <-. congruence.
  - intros x Hx. destruct (decide (x = id)) as [->|Hne].
    + intros Ht. assert (∃ y, edge id y ∧ (y = id ∨ tc edge y id)) as (y & Hy & Hr).
      { inversion Ht; subst; eexists; split; eauto. }
      apply Hd in Hy. destruct Hr as [->|Hr]; [congruence|].
      pose proof (finished_tc _ _ _ Hf Hy Hr). congruence.
    + rewrite lookup_insert_ne in Hx by done. by apply Hf.
  - intros x. destruct (decide (x = id)) as [->|Hne].
    + rewrite lookup_insert_eq. split; [done|]. by intros ?%Hns.
    + rewrite lookup_insert_ne by done. rewrite (Hg x), elem_of_app, list_elem_of_singleton. tauto.
Qed.

Lemma visit_deps_post vis stack id ds color :
  (∀ c d, c !! d = None → d ∈ nodes → finished c → grey_stack c (stack ++ [id]) → white c ⊆ white color →
     walk edge ((stack ++ [id]) ++ [d]) → visit_post c (stack ++ [id]) d (vis c d)) →
  id ∉ stack → finished color → grey_stack color (stack ++ [id]) → walk edge (stack ++ [id]) →
  (∀ y, edge id y → color !! y = Some Black ∨ y ∈ ds) → (∀ y, y ∈ ds → edge id y) →
  visit_post color stack id (visit_deps vis (stack ++ [id]) id ds color).
Proof.
  intros Hvis Hns. revert color Hvis. induction ds as [|d ds IH]; intros color Hvis Hf Hg Hr Hd Hds; cbn [visit_deps].
  - destruct (finish_node color stack id Hf Hg Hns) as [Hf' Hg'].
    { intros y Hy. destruct (Hd y Hy) as [?|?%elem_of_nil]; done. }
    split; [done|]. split; [done|]. split; [apply lookup_insert_eq|].
    intros x Hx. destruct (decide (x = id)) as [->|Hne]; [apply lookup_insert_eq|by rewrite lookup_insert_ne].
  - assert (edge id d) as Hid by (apply Hds; left).
    destruct (color !! d) as [[]|] eqn:Ed.
    + apply Hg in Ed. apply back_edge; [done|]. by apply walk_snoc.
    + apply IH; try done; [|intros y Hy; apply Hds; by right].
      intros y Hy. destruct (Hd y Hy) as [?|[->|?]%elem_of_cons]; [by left|by left|by right].
    + assert (visit_post color (stack ++ [id]) d (vis color d)) as Hp.
      { apply Hvis; try done; [by eapply Hnodes|]. by apply walk_snoc. }
      destruct (vis color d) as [path|color'|]; [exact Hp| |exact Hp].
      destruct Hp as (Hf' & Hg' & Hdb & Hb).
      pose proof (white_sub _ _ _ Hg Hg' Hb) as Hw.
      assert (visit_post color' stack id (visit_deps vis (stack ++ [id]) id ds color')) as Hp.
      { apply IH; try done.
        - intros c d' H1 H2 H3 H4 H5. apply Hvis; try done. by etrans.
        - intros y Hy. destruct (Hd y Hy) as [?|[->|?]%elem_of_cons]; [left; by apply Hb|by left|by right].
        - intros y Hy. apply Hds. by right. }
      destruct (visit_deps vis (stack ++ [id]) id ds color'); try done.
      destruct Hp as (H1 & H2 & H3 & H4). split_and!; try done. intros x Hx. by apply H4, Hb.
Qed.

Lemma visit_spec fuel stack color id :
  color !! id = None → id ∈ nodes → finished color → grey_stack color stack → size (white color) ≤ fuel →
  walk edge (stack ++ [id]) → visit_post color stack id (visit fuel deps stack color id).
Proof.
  revert stack color id. induction fuel as [|fuel IH]; intros stack color id Hid Hin Hf Hg Hsz Hr.
  { assert (id ∈ white color) as Hw by (unfold white; by rewrite elem_of_difference, not_elem_of_dom).
    assert (size (white color) ≠ 0); [|lia]. intros Hz%size_empty_inv. set_solver. }
  cbn [visit]. set (color1 := <[id := Grey]> color).
  assert (id ∉ stack) as Hns by (intros Hx%Hg; congruence).
  assert (size (white color1) < S fuel) as Hsz1.
  { assert (white color1 ⊂ white color) as Hsub; [|apply subset_size in Hsub; lia].
    unfold white, color1. rewrite dom_insert_L. split; [set_solver|]. intros Hx.
    assert (id ∈ nodes ∖ dom color) as Hy by (rewrite elem_of_difference, not_elem_of_dom; done).
    apply Hx in Hy. set_solver. }
  assert (visit_post color1 stack id (visit_deps (visit fuel deps (stack ++ [id])) (stack ++ [id]) id (deps_of deps id) color1)) as Hp.
  { apply visit_deps_post; try done.
    - intros c d H1 H2 H3 H4 H5 H6. apply IH; try done. apply subseteq_size in H5. lia.
    - split.
      + intros x y. unfold color1. destruct (decide (x = id)) as [->|Hne]; [by rewrite lookup_insert_eq|].
        rewrite lookup_insert_ne by done. intros Hx Hxy. pose proof (proj1 Hf x y Hx Hxy) as Hy.
        rewrite lookup_insert_ne; [done|]. intros <-. congruence.
      + intros x. unfold color1. destruct (decide (x = id)) as [->|Hne]; [by rewrite lookup_insert_eq|].
        rewrite lookup_insert_ne by done. apply Hf.
    - intros x. unfold color1. rewrite elem_of_app, list_elem_of_singleton. destruct (decide (x = id)) as [->|Hne].
      + rewrite lookup_insert_eq. tauto.
      + rewrite lookup_insert_ne by done. rewrite (Hg x). tauto.
    - intros y Hy. by right. }
  destruct (visit_deps _ _ _ _ _); try done. destruct Hp as (H1 & H2 & H3 & H4). split_and!; try done.
  intros x Hx. apply H4. unfold color1. rewrite lookup_insert_ne; [done|]. intros <-. congruence.
Qed.

Lemma visit_all_spec fuel ids color :
  (∀ id, id ∈ ids → id ∈ nodes) → finished color → grey_stack color [] → size (white color) ≤ fuel →
  match visit_all fuel deps ids color with
  | VFound path => closed_walk edge path
  | VDone color' => finished color' ∧ blacker color color' ∧ ∀ id, id ∈ ids → color' !! id = Some Black
  | VFuel => False
  end.
Proof.
  revert color. induction ids as [|id ids IH]; intros color Hin Hf Hg Hsz; cbn [visit_all].
  { split; [done|]. split; [by intros ?|]. by intros id ?%elem_of_nil. }
  assert (∀ c, finished c → grey_stack c [] → blacker color c → c !! id = Some Black →
    match visit_all fuel deps ids c with
    | VFound path => closed_walk edge path
    | VDone color' => finished color' ∧ blacker color color' ∧ ∀ i, i ∈ id :: ids → color' !! i = Some Black
    | VFuel => False
    end) as Hrest.
  { intros c Hfc Hgc Hb Hid. pose proof (white_sub _ _ _ Hg Hgc Hb) as Hw%subseteq_size.
    specialize (IH c). destruct (visit_all fuel deps ids c); [apply IH| |apply IH]; try done; try lia;
      try (intros i Hi; apply Hin; by right).
    destruct IH as (H1 & H2 & H3); try done; [intros i Hi; apply Hin; by right|lia|].
    split; [done|]. split; [intros x Hx; by apply H2, Hb|].
    intros i [->|Hi]%elem_of_cons; [by apply H2|by apply H3]. }
  destruct (color !! id) as [c|] eqn:E.
  - apply Hrest; [done|done|by intros x|]. destruct c; [|exact E]. apply Hg in E. by apply elem_of_nil in E.
  - pose proof (visit_spec fuel [] color id E (Hin id ltac:(left)) Hf Hg Hsz) as Hp.
    destruct (visit fuel deps [] color id) as [path|c|]; [apply Hp| |apply Hp]; try done.
    destruct Hp as (H1 & H2 & H3 & H4); [done|]. by apply Hrest.
Qed.

Lemma finished_empty : finished ∅.
Proof. split; [intros ? ?|intros ?]; by rewrite lookup_empty. Qed.
End Search.
Lemma grey_empty : grey_stack ∅ [].
Proof. intros y. rewrite lookup_empty. split; [done|]. by intros ?%elem_of_nil. Qed.

(** ** Properties *)

(** The dependencies a plan declares. *)
Definition plan_edge (steps : list PlanStep.t) (x y : string) : Prop :=
  ∃ s, s ∈ steps ∧ PlanStep.ID s = x ∧ y ∈ PlanStep.DependsOn s.

Lemma edge_plan_edge steps x y :
  NoDup (PlanStep.ID <$> steps) → edge (plan_deps steps) x y ↔ plan_edge steps x y.
Proof.
  unfold edge, deps_of, plan_edge. induction steps as [|s steps IH] using rev_ind; intros Hnd.
  - cbn. rewrite lookup_empty. cbn. rewrite elem_of_nil. split; [done|]. by intros (s & ?%elem_of_nil & _).
  - rewrite fmap_app, NoDup_app in Hnd. destruct Hnd as (Hnd & Hdis & _). specialize (IH Hnd).
    unfold plan_deps in *. rewrite foldl_app. cbn [foldl]. setoid_rewrite elem_of_app.
    setoid_rewrite list_elem_of_singleton. destruct (decide (x = PlanStep.ID s)) as [->|Hne].
    + rewrite lookup_insert_eq. cbn [default from_option id]. split; [intros Hy; exists s; tauto|].
      intros (s' & [Hs'| ->] & Hid & Hy); [exfalso|done].
      apply (Hdis (PlanStep.ID s)); [rewrite <- Hid; by apply list_elem_of_fmap_2|by apply list_elem_of_singleton].
    + rewrite lookup_insert_ne by done. rewrite IH. split; [intros (s' & ? & ? & ?); exists s'; tauto|].
      intros (s' & [Hs'| ->] & Hid & Hy); [by exists s'|by symmetry in Hid].
Qed.

Lemma search_spec steps :
  NoDup (PlanStep.ID <$> steps) →
  match search_cycle steps with
  | VFound path => closed_walk (plan_edge steps) path
  | VDone _ => ∀ x, ¬ tc (plan_edge steps) x x
  | VFuel => False
  end.
Proof.
  intros Hnd.
  assert (∀ x y, edge (plan_deps steps) x y ↔ plan_edge steps x y) as He by (intros; by apply edge_plan_edge).
  assert (∀ x y, edge (plan_deps steps) x y → y ∈ plan_nodes steps) as Hnodes.
  { intros x y (s & Hs & _ & Hy)%He. unfold plan_nodes. rewrite elem_of_list_to_set, elem_of_app. right.
    apply list_elem_of_join. eexists. split; [exact Hy|]. by apply list_elem_of_fmap_2. }
  assert (∀ i, i ∈ sort_strings (PlanStep.ID <$> steps) → i ∈ plan_nodes steps) as Hids.
  { intros i. rewrite sort_strings_perm. intros Hi. unfold plan_nodes. rewrite elem_of_list_to_set, elem_of_app. by left. }
  assert (size (white (plan_nodes steps) ∅) ≤ size (plan_nodes steps)) as Hsz.
  { unfold white. rewrite dom_empty_L, difference_empty_L. done. }
  pose proof (visit_all_spec _ _ Hnodes _ _ ∅ Hids (finished_empty _) grey_empty Hsz) as Hv.
  fold (search_cycle steps) in Hv. destruct (search_cycle steps) as [path|color|]; [| |done].
  - destruct Hv as [Hw Hp]. split; [|done]. eapply walk_mono; [|exact Hw]. intros x y. apply He.
  - destruct Hv as (Hf & _ & Hb). intros x Hx. assert (x ∈ PlanStep.ID <$> steps) as Hin.
    { inversion Hx as [? ? (s & Hs & Hid & _)|? ? ? (s & Hs & Hid & _)]; subst; by apply list_elem_of_fmap_2. }
    apply (proj2 Hf x); [apply Hb; by rewrite sort_strings_perm|].
    eapply (tc_congruence id); [|exact Hx]. intros a b. apply He.
Qed.
Lemma join_closed d l : join " -> " (d :: l ++ [d]) ≠ "".
Proof. intros H. destruct l; cbn [join app] in H; by destruct d. Qed.

(** The message of a rejected plan is a dependency cycle of the plan, and no
    message means there is none. *)
Lemma findPlanCycle_spec steps :
  NoDup (PlanStep.ID <$> steps) →
  (findPlanCycle steps = "" ∧ ∀ x, ¬ tc (plan_edge steps) x x) ∨
  (findPlanCycle steps ≠ "" ∧ ∃ d l, findPlanCycle steps = join " -> " (d :: l ++ [d]) ∧ walk (plan_edge steps) (d :: l ++ [d])).
Proof.
  intros Hs%search_spec. unfold findPlanCycle. destruct (search_cycle steps) as [path| |]; [|by left|done].
  destruct Hs as (Hw & d & l & ->). right. split; [apply join_closed|]. by exists d, l.
Qed.

(** *** What a checked step satisfies *)

Record step_ok (opt : PlanParseOptions) (s : PlanStep.t) : Prop := {
  so_id : planStepIDPattern (PlanStep.ID s) = true;
  so_role : PlanStep.RoleID s ≠ "";
  so_allowed : AllowedRoles opt ≠ ∅ → AllowedRoles opt !! PlanStep.RoleID s = Some true;
  so_task : PlanStep.Task s ≠ "";
  so_short : (Z.of_nat (String.length (PlanStep.Task s)) ≤ limit (MaxTaskChars opt) 4000)%Z
}.

Lemma check_role_ok opt ps q :
  check_role opt ps = Ok q →
  PlanStep.ID q = PlanStep.ID ps ∧ PlanStep.Task q = PlanStep.Task ps ∧ PlanStep.RoleID q ≠ "" ∧
  (AllowedRoles opt ≠ ∅ → AllowedRoles opt !! PlanStep.RoleID q = Some true).
Proof.
  unfold check_role. intros (r & Hr & H)%rbind_ok.
  assert (PlanStep.ID r = PlanStep.ID ps ∧ PlanStep.Task r = PlanStep.Task ps ∧ PlanStep.RoleID r ≠ "") as (H1 & H2 & H3).
  { repeat case_decide; simplify_eq; done. }
  case_match eqn:E; simplify_eq. split_and!; try done. intros Hne.
  apply andb_false_iff in E as [E|E].
  - apply bool_decide_eq_false in E. exfalso. apply Hne, map_size_empty_inv. lia.
  - by destruct (AllowedRoles opt !! PlanStep.RoleID q) as [[]|].
Qed.

Lemma check_task_ok m ps q :
  check_task m ps = Ok q → q = ps ∧ PlanStep.Task ps ≠ "" ∧ (Z.of_nat (String.length (PlanStep.Task ps)) ≤ m)%Z.
Proof. unfold check_task. repeat case_decide; intros; simplify_eq. split_and!; [done|done|lia]. Qed.

Lemma check_steps_ok opt i seen steps out :
  check_steps opt (limit (MaxTaskChars opt) 4000) i seen steps = Ok out →
  length out = length steps ∧ Forall (step_ok opt) out ∧ NoDup (PlanStep.ID <$> out) ∧
  (∀ x, x ∈ PlanStep.ID <$> out → x ∉ seen).
Proof.
  revert i seen out. induction steps as [|ps steps IH]; intros i seen out; cbn [check_steps].
  { intros [= <-]. split_and!; [done|done|constructor|]. by intros x ?%elem_of_nil. }
  set (p := trim_step ps). case_decide as Hid; [done|]. case_match eqn:Hpat; [done|]. case_decide as Hseen; [done|].
  intros (r & (H1 & H2 & H3 & H4)%check_role_ok & (t & (-> & H5 & H6)%check_task_ok & (l & Hl & [= <-])%rbind_ok)%rbind_ok)%rbind_ok.
  apply IH in Hl as (Hlen & Hall & Hnd & Hnew). cbn [fmap list_fmap length]. split_and!.
  - by rewrite Hlen.
  - constructor; [|done]. split; try done. rewrite H1. by apply negb_false_iff.
  - constructor; [|done]. intros Hin%Hnew. set_solver.
  - rewrite H1 in *. intros x [->|Hx]%elem_of_cons; [done|]. apply Hnew in Hx. set_solver.
Qed.

Lemma check_deps_ok steps :
  check_deps steps = Ok () →
  ∀ s d, s ∈ steps → d ∈ PlanStep.DependsOn s → TrimSpace d ∈ PlanStep.ID <$> steps ∧ TrimSpace d ≠ PlanStep.ID s.
Proof.
  unfold check_deps. intros (us & Hus & _)%rbind_ok s d Hs Hd.
  destruct (rmap_ok_l _ _ _ _ Hus Hs) as (ds & _ & Hds). destruct (rmap_ok_l _ _ _ _ Hds Hd) as (u & _ & Hu).
  revert Hu. unfold check_dep. case_decide; [done|]. case_bool_decide; [|done]. case_decide; done.
Qed.

Definition tools_ok (opt : PlanParseOptions) (i : StepInput.t) : Prop :=
  StepInput.AdditionalToolAllowlists i = ∅ ∨
  ∃ mcp tools, mcp ≠ "" ∧ StepInput.AdditionalToolAllowlists i = {[mcp := tools]} ∧
    StepInput.AdditionalMCPs i = [mcp] ∧ tools ≠ [] ∧
    ∀ t c, t ∈ tools → ToolCatalog opt !! mcp = Some c → c ≠ ∅ → c !! t = Some true.

Lemma clean_tools_ok opt mcp ps tools :
  clean_tools opt mcp ps = Ok tools →
  tools ≠ [] ∧ ∀ t c, t ∈ tools → ToolCatalog opt !! mcp = Some c → c ≠ ∅ → c !! t = Some true.
Proof.
  unfold clean_tools, reject. set (cleaned := filter _ (TrimSpace <$> _)). destruct (bool_decide (filter _ cleaned = [])) eqn:Hu;
    cbn [negb]; [|done]. apply bool_decide_eq_true in Hu.
    destruct (decide (cleaned = [])) as [|Hne]; [done|]. intros [= <-]. split; [done|]. intros t c Ht Hc Hcne.
  rewrite Hc in Hu. cbn [default from_option id] in Hu.
  assert (t ∉ ([] : list string)) as Hn by apply not_elem_of_nil. rewrite <- Hu, list_elem_of_filter in Hn.
  destruct (c !! t) as [[]|] eqn:E; [done| |]; exfalso; apply Hn; (split; [|done]);
    (rewrite bool_decide_eq_true_2; [done|]);
    (destruct (size c) eqn:Es; [by apply map_size_empty_inv in Es|lia]).
Qed.

Lemma to_input_ok opt s i :
  to_input opt s = Ok i →
  StepInput.ID i = PlanStep.ID s ∧ StepInput.RoleID i = PlanStep.RoleID s ∧ StepInput.Task i = PlanStep.Task s ∧
  StepInput.DependsOn i = PlanStep.DependsOn s ∧ tools_ok opt i.
Proof.
  unfold to_input. set (mcp := if decide (PlanStep.MCPID s = "") then _ else _).
  destruct (bool_decide (mcp = "") && _) eqn:Hg; [done|].
  intros (allow & Ha & [= <-])%rbind_ok. split_and!; try done. unfold tools_ok. cbn.
  destruct (PlanStep.AllowedTools s) as [|t l] eqn:Et; [left; by simplify_eq|]. right.
  apply rbind_ok in Ha as (tools & (Hne & Hall)%clean_tools_ok & [= <-]).
  assert (mcp ≠ "") as Hm.
  { intros Hm. rewrite Hm in Hg. by rewrite !bool_decide_eq_true_2 in Hg. }
  exists mcp, tools. split_and!; try done. by destruct (decide (mcp = "")).
Qed.

(** The dependencies of accepted steps. *)
Definition input_edge (inputs : list StepInput.t) (x y : string) : Prop :=
  ∃ i, i ∈ inputs ∧ StepInput.ID i = x ∧ y ∈ StepInput.DependsOn i.

Record input_ok (opt : PlanParseOptions) (ids : list string) (i : StepInput.t) : Prop := {
  io_id : planStepIDPattern (StepInput.ID i) = true;
  io_role : StepInput.RoleID i ≠ "";
  io_allowed : AllowedRoles opt ≠ ∅ → AllowedRoles opt !! StepInput.RoleID i = Some true;
  io_task : StepInput.Task i ≠ "";
  io_short : (Z.of_nat (String.length (StepInput.Task i)) ≤ limit (MaxTaskChars opt) 4000)%Z;
  io_deps : ∀ d, d ∈ StepInput.DependsOn i → TrimSpace d ∈ ids ∧ TrimSpace d ≠ StepInput.ID i;
  io_tools : tools_ok opt i
}.

Lemma to_inputs_ids opt steps inputs :
  rmap (to_input opt) steps = Ok inputs → StepInput.ID <$> inputs = PlanStep.ID <$> steps.
Proof. intros H%rmap_ok. induction H as [|s i l k Hi _ IH]; [done|]. cbn. rewrite IH. by destruct (to_input_ok _ _ _ Hi) as [-> _]. Qed.

Lemma validated env opt body steps inputs :
  validate_plan env opt body steps = Ok inputs →
  (1 ≤ Z.of_nat (length inputs) ≤ limit (MaxSteps opt) 12)%Z ∧ NoDup (StepInput.ID <$> inputs) ∧
  Forall (input_ok opt (StepInput.ID <$> inputs)) inputs ∧ (∀ x, ¬ tc (input_edge inputs) x x).
Proof.
  unfold validate_plan. case_decide as Hne; [done|]. case_decide as Hlim; [done|].
  intros (out & (Hlen & Hok & Hnd & _)%check_steps_ok & (u & Hd & H)%rbind_ok)%rbind_ok. destruct u.
  pose proof (check_deps_ok _ Hd) as Hdeps.
  destruct (findPlanCycle_spec out Hnd) as [[Hc Hac]|[Hc _]].
  2: { apply String.eqb_neq in Hc. by rewrite Hc in H. }
  rewrite Hc in H. cbn [negb String.eqb] in H. pose proof (to_inputs_ids _ _ _ H) as Hids.
  assert (length inputs = length steps) as Hl by (rewrite <- Hlen; symmetry; by eapply Forall2_length, rmap_ok).
  rewrite Hids. split_and!; [destruct steps; [done|]; cbn [length] in *; lia|lia|done| |].
  - apply Forall_forall. intros i Hi. destruct (rmap_ok_r _ _ _ _ H Hi) as (s & Hs & Hsi).
    destruct (to_input_ok _ _ _ Hsi) as (E1 & E2 & E3 & E4 & Ht).
    rewrite Forall_forall in Hok. destruct (Hok s Hs). split; rewrite ?E1, ?E2, ?E3, ?E4; try done.
    intros d Hdd. by apply Hdeps.
  - intros x Hx. apply (Hac x). eapply (tc_congruence id); [|exact Hx].
    intros a b (i & Hi & <- & Hb). destruct (rmap_ok_r _ _ _ _ H Hi) as (s & Hs & Hsi).
    destruct (to_input_ok _ _ _ Hsi) as (E1 & _ & _ & E4 & _). exists s. unfold id. rewrite E1, <- E4. done.
Qed.

Lemma parsed_validated env opt raw inputs :
  ParsePlanDAG env opt raw = Ok inputs → ∃ body steps, validate_plan env opt body steps = Ok inputs.
Proof.
  unfold ParsePlanDAG. intros (body & _ & H)%rbind_ok. destruct (decode_plan env body) as [steps|]; [|done].
  by eexists body, _.
Qed.

(** C16: What the parser accepts can be executed: between one step and the limit,
    ids distinct and well formed, every role allowed, every task non-empty and
    bounded, every dependency (once trimmed) another step of the plan, every
    tool in the catalog where there is one, and the dependencies acyclic. *)
Theorem accepted_plan_valid env opt raw inputs :
  ParsePlanDAG env opt raw = Ok inputs →
  (1 ≤ Z.of_nat (length inputs) ≤ limit (MaxSteps opt) 12)%Z ∧ NoDup (StepInput.ID <$> inputs) ∧
  Forall (input_ok opt (StepInput.ID <$> inputs)) inputs ∧ (∀ x, ¬ tc (input_edge inputs) x x).
Proof. intros (body & steps & H)%parsed_validated. by eapply validated. Qed.

(** The cycle search ends; with no message the declared dependencies are
    acyclic, and otherwise the message is a cycle of them. *)
Theorem plan_cycle_exact steps :
  NoDup (PlanStep.ID <$> steps) →
  search_cycle steps ≠ VFuel ∧
  ((findPlanCycle steps = "" ∧ ∀ x, ¬ tc (plan_edge steps) x x) ∨
   (findPlanCycle steps ≠ "" ∧ ∃ d l, findPlanCycle steps = join " -> " (d :: l ++ [d]) ∧ walk (plan_edge steps) (d :: l ++ [d]))).
Proof. intros Hnd. split; [|by apply findPlanCycle_spec]. intros E. pose proof (search_spec _ Hnd) as H. by rewrite E in H. Qed.

Lemma id_char_graph a : id_char a = true → ascii_graph a = true.
Proof. destruct a as [[] [] [] [] [] [] [] []]; vm_compute; done. Qed.
Lemma pattern_trimmed s : planStepIDPattern s = true → TrimSpace s = s.
Proof.
  unfold planStepIDPattern. intros [_ H]%andb_prop. apply TrimSpace_id, Forall_forall. intros a Ha.
  rewrite forallb_forall in H. by apply id_char_graph, H, list_elem_of_In.
Qed.

(** A dependency written with white space around it passes the check, and is
    kept as written, so it names no step of the accepted plan. *)
Theorem untrimmed_dependency_unknown env opt raw inputs i d :
  ParsePlanDAG env opt raw = Ok inputs → i ∈ inputs → d ∈ StepInput.DependsOn i → TrimSpace d ≠ d →
  TrimSpace d ∈ StepInput.ID <$> inputs ∧ d ∉ StepInput.ID <$> inputs.
Proof.
  intros (body & steps & (_ & _ & Hok & _)%validated)%parsed_validated Hi Hd Ht. rewrite Forall_forall in Hok.
  split; [by apply (Hok i Hi)|]. intros (j & -> & Hj)%list_elem_of_fmap. by apply Ht, pattern_trimmed, (Hok j Hj).
Qed.

(** ** Concrete plans *)

Definition step_of (id task : string) (deps tools : list string) : PlanStep.t := PlanStep.mk id "" task deps tools "" [] "".
(** A planner whose answer is the object given, and holds these steps. *)
Definition env_of (steps : list PlanStep.t) : PlanEnv :=
  mkPlanEnv (λ _, Ok steps) (λ _, None) (λ _, None) (λ _, None) (λ s, bool_decide (s = "{}")) (λ s, bool_decide (s = "{}")).
Definition opt_of : PlanParseOptions :=
  mkOptions {["agent" := true]} {["app" := {["login" := true]}]} "app" 0 0.
Definition run_plan (steps : list PlanStep.t) (raw : string) : result PlanParseError (list StepInput.t) :=
  ParsePlanDAG (env_of steps) opt_of raw.
Definition good_plan : list PlanStep.t := [step_of "a" "log in" [] [" login "]; step_of "b" "report" ["a"] []].
Definition spaced_plan : list PlanStep.t := [step_of "a" "one" [" b"] []; step_of "b" "two" [" a"] []].
Definition ring : list PlanStep.t := [step_of "a" "1" ["b"] []; step_of "b" "2" ["c"] []; step_of "c" "3" ["b"] []].
Definition accepted (r : result PlanParseError (list StepInput.t)) : list StepInput.t :=
  match r with Ok l => l | Err _ => [] end.

Example good_plan_accepted : StepInput.AdditionalToolAllowlists <$> accepted (run_plan good_plan "{}") = [{["app" := ["login"]]}; ∅].
Proof. vm_compute. reflexivity. Qed.
Example ring_rejected : run_plan ring "{}" = reject "cyclic dependency" "b -> c -> b".
Proof. vm_compute. reflexivity. Qed.
Example unknown_tool_rejected :
  run_plan [step_of "a" "x" [] ["rm"; "login"; "cat"]] "{}" = reject "unknown tool name(s)" "a: cat, rm".
Proof. vm_compute. reflexivity. Qed.
(** Each of two steps waits for the other, once white space is ignored. *)
Example spaced_plan_accepted : StepInput.ID <$> accepted (run_plan spaced_plan "{}") = ["a"; "b"].
Proof. vm_compute. reflexivity. Qed.
(** The line of the opening fence goes even when the JSON starts on it. *)
Example fence_line_dropped : strip_fence (of_bytes (fence ++ bytes "[1," ++ [ascii_of_nat 10] ++ bytes "2]" ++ fence)) = "2]".
Proof. vm_compute. reflexivity. Qed.
(** The object is found inside prose. *)
Example object_in_prose : extractJSONObject (env_of []) "Here it is: {} and done" = Ok "{}".
Proof. vm_compute. reflexivity. Qed.

Lemma object_in_prose_found_witness :
  findBalancedObject (env_of []) "The plan: {} as asked" = Some "{}".
Proof.
  assert (text (JObj []) (lbrace :: [] ++ [rbrace])) as Ho by (constructor; constructor; constructor).
  refine (object_in_prose_found (env_of []) (bytes "The plan: ") [] _ (bytes " as asked") _ Ho _).
  - repeat constructor; discriminate.
  - vm_compute. reflexivity.
Defined.

Lemma accepted_plan_valid_witness :
  (1 ≤ Z.of_nat (length (accepted (run_plan good_plan "{}"))) ≤ 12)%Z.
Proof.
  destruct (accepted_plan_valid (env_of good_plan) opt_of "{}" (accepted (run_plan good_plan "{}"))) as [H _].
  - vm_compute. reflexivity.
  - exact H.
Defined.

Lemma plan_cycle_exact_witness : search_cycle ring ≠ VFuel.
Proof. destruct (plan_cycle_exact ring) as [H _]; [|exact H]. apply (bool_decide_unpack _). vm_compute. exact I. Defined.

Lemma untrimmed_dependency_unknown_witness :
  ∃ i, i ∈ accepted (run_plan spaced_plan "{}") ∧ " b" ∈ StepInput.DependsOn i ∧
    " b" ∉ StepInput.ID <$> accepted (run_plan spaced_plan "{}").
Proof.
  set (l := accepted (run_plan spaced_plan "{}")). pose (i := zeroInput <| StepInput.ID := "a" |> <| StepInput.RoleID := "agent" |> <| StepInput.Task := "one" |>
    <| StepInput.DependsOn := [" b"] |> <| StepInput.AdditionalMCPs := ["app"] |>).
  assert (i ∈ l) as Hi by (apply list_elem_of_lookup; exists 0; vm_compute; reflexivity).
  assert (" b" ∈ StepInput.DependsOn i) as Hd by apply list_elem_of_here.
  exists i. split; [exact Hi|]. split; [exact Hd|].
  refine (proj2 (untrimmed_dependency_unknown (env_of spaced_plan) opt_of "{}" l i " b" _ Hi Hd _)); [vm_compute; reflexivity|].
  vm_compute. discriminate.
Defined.
