(* ===== verification/Regex.v ===== *)
(** * Regular expressions and replacement (packages regexp and strings)

    Go's [regexp] prefers, among the matches that start leftmost, the one that
    backtracking would find first: [run] tries the alternatives in that order.
    It is sound and complete for the language of the expression ([lang]), so
    properties of what is matched follow from properties of the language; three
    of these are computed: the characters a match may contain, a kind of
    character it must contain, and its least length.  [pieces] cuts a text into
    matches and the characters between them, which is what [FindAllString] and
    [ReplaceAllStringFunc] go by; the expressions used match no empty text.
    Under [(?i)] a character stands for its other case and for what folds to it
    beyond ASCII, in UTF-8 ([ChrI]). *)
From S2P Require Import Prelude.
From Stdlib Require Import Ascii.

Inductive re :=
| Eps
| Chr (p : ascii → bool)
| Seq (a b : re)
| Alt (a b : re)
| Star (greedy : bool) (a : re).

Inductive lang : re → list ascii → Prop :=
| lang_eps : lang Eps []
| lang_chr p a : p a = true → lang (Chr p) [a]
| lang_seq a b u v : lang a u → lang b v → lang (Seq a b) (u ++ v)
| lang_alt_l a b u : lang a u → lang (Alt a b) u
| lang_alt_r a b u : lang b u → lang (Alt a b) u
| lang_star_nil g a : lang (Star g a) []
| lang_star_cons g a u v : lang a u → lang (Star g a) v → lang (Star g a) (u ++ v).

(** ** Notation of patterns *)

Definition one_of (cs : string) (a : ascii) : bool := bool_decide (a ∈ bytes cs).
Definition between (lo hi : ascii) (a : ascii) : bool :=
  (Ascii.nat_of_ascii lo <=? Ascii.nat_of_ascii a) && (Ascii.nat_of_ascii a <=? Ascii.nat_of_ascii hi).
Definition either (p q : ascii → bool) (a : ascii) : bool := p a || q a.
Definition lower_az := between "a" "z".
Definition upper_az := between "A" "Z".
Definition letter := either lower_az upper_az.
Definition digit09 := between "0" "9".
Definition alnum := either letter digit09.
Definition re_space (a : ascii) : bool := bool_decide (Ascii.nat_of_ascii a ∈ [9; 10; 12; 13; 32]).

Definition chars (l : list (ascii → bool)) : re := foldr (λ p r, Seq (Chr p) r) Eps l.
Definition Lit (s : string) : re := chars (Ascii.eqb <$> bytes s).
(** A character under [(?i)], of either case.  Two letters beyond ASCII fold to one of
    ASCII: the long s to s (U+017F), the sign of the kelvin to k (U+212A). *)
Definition upper_byte (a : ascii) : ascii := if lower_az a then Ascii.ascii_of_nat (Ascii.nat_of_ascii a - 32) else a.
Definition folds (p : ascii → bool) (a : ascii) : bool := p a || p (lower_byte a) || p (upper_byte a).
Definition code (l : list nat) : re := foldr (λ n r, Seq (Chr (Ascii.eqb (Ascii.ascii_of_nat n))) r) Eps l.
Definition ChrI (p : ascii → bool) : re :=
  let r := Chr (folds p) in
  let r := if folds p "s" then Alt r (code [197; 191]) else r in
  if folds p "k" then Alt r (code [226; 132; 170]) else r.
(** A literal under [(?i)]. *)
Definition LitI (s : string) : re := foldr (λ c r, Seq (ChrI (Ascii.eqb c)) r) Eps (bytes s).
Definition Opt (r : re) : re := Alt r Eps.
Definition Many (p : ascii → bool) : re := Star true (Chr p).
Fixpoint Times (n : nat) (r : re) : re := match n with O => Eps | S n' => Seq r (Times n' r) end.
Definition AtLeast (n : nat) (p : ascii → bool) : re := Seq (Times n (Chr p)) (Many p).
Definition AtLeastI (n : nat) (p : ascii → bool) : re := Seq (Times n (ChrI p)) (Star true (ChrI p)).
Fixpoint seqs (l : list re) : re := match l with [] => Eps | [r] => r | r :: l' => Seq r (seqs l') end.
Fixpoint alts (r : re) (l : list re) : re := match l with [] => r | r' :: l' => Alt r (alts r' l') end.

(** ** Matching *)

(** The iterations of a star, given one iteration; each must consume something. *)
Fixpoint star_loop (step : list ascii → (list ascii → option (list ascii)) → option (list ascii)) (greedy : bool)
    (k : list ascii → option (list ascii)) (n : nat) (s : list ascii) : option (list ascii) :=
  match n with
  | O => k s
  | S n' =>
      let more := step s (λ s', if (length s' <? length s)%nat then star_loop step greedy k n' s' else None) in
      if greedy then match more with Some x => Some x | None => k s end
      else match k s with Some x => Some x | None => more end
  end.
(** [k] is what follows; the result is the text after the whole match. *)
Fixpoint run (r : re) (s : list ascii) (k : list ascii → option (list ascii)) {struct r} : option (list ascii) :=
  match r with
  | Eps => k s
  | Chr p => match s with a :: s' => if p a then k s' else None | [] => None end
  | Seq a b => run a s (λ s', run b s' k)
  | Alt a b => match run a s k with Some x => Some x | None => run b s k end
  | Star g a => star_loop (run a) g k (length s) s
  end.
(** The match at the start of [s] and what follows it. *)
Definition match_at (r : re) (s : list ascii) : option (list ascii * list ascii) :=
  rest ← run r s Some; Some (take (length s - length rest) s, rest).

Inductive piece := PChar (a : ascii) | PMatch (m : list ascii).
Fixpoint pieces_from (fuel : nat) (r : re) (s : list ascii) : list piece :=
  match fuel, s with
  | S fuel', a :: s' =>
      match match_at r s with
      | Some (b :: m, rest) => PMatch (b :: m) :: pieces_from fuel' r rest
      | _ => PChar a :: pieces_from fuel' r s'
      end
  | _, _ => []
  end.
Definition pieces (r : re) (s : list ascii) : list piece := pieces_from (length s) r s.
Definition piece_text (p : piece) : list ascii := match p with PChar a => [a] | PMatch m => m end.

(** [ReplaceAllStringFunc] with a replacement that keeps a state. *)
Fixpoint replace_pieces {S} (f : S → list ascii → S * list ascii) (st : S) (l : list piece) : S * list ascii :=
  match l with
  | [] => (st, [])
  | PChar a :: l' => let '(st, out) := replace_pieces f st l' in (st, a :: out)
  | PMatch m :: l' =>
      let '(st, t) := f st m in let '(st, out) := replace_pieces f st l' in (st, t ++ out)
  end.
Definition ReplaceAllStringFunc {S} (r : re) (f : S → list ascii → S * list ascii) (st : S) (s : list ascii) : S * list ascii :=
  replace_pieces f st (pieces r s).
Definition FindAllString (r : re) (s : list ascii) : list (list ascii) :=
  omap (λ p, match p with PMatch m => Some m | PChar _ => None end) (pieces r s).

(** [strings.ReplaceAll] for a non-empty [old]; [skip] bytes belong to the
    occurrence just replaced. *)
Fixpoint replace_from (old new : list ascii) (s : list ascii) (skip : nat) : list ascii :=
  match s with
  | [] => []
  | a :: s' =>
      match skip with
      | S k => replace_from old new s' k
      | O => if decide (old `prefix_of` s) then new ++ replace_from old new s' (length old - 1)
             else a :: replace_from old new s' 0
      end
  end.
Definition ReplaceAll (s old new : list ascii) : list ascii := replace_from old new s 0.

(** ** Soundness and completeness *)

Lemma lang_star_app g a u v : lang (Star g a) u → lang (Star g a) v → lang (Star g a) (u ++ v).
Proof.
  intros H. remember (Star g a) as r eqn:E. induction H; simplify_eq; [done|].
  intros Hv. rewrite <- app_assoc. constructor; [done|]. auto.
Qed.

Lemma run_sound r : ∀ s k x, run r s k = Some x → ∃ w s', s = w ++ s' ∧ lang r w ∧ k s' = Some x.
Proof.
  induction r as [|p|a IHa b IHb|a IHa b IHb|g a IHa]; intros s k x; cbn [run].
  - intros H. exists [], s. split_and!; [done|constructor|done].
  - destruct s as [|c s]; [done|]. destruct (p c) eqn:E; [|done]. intros H. exists [c], s. split_and!; [done|by constructor|done].
  - intros (u & s1 & -> & Hu & (v & s2 & -> & Hv & Hk)%IHb)%IHa.
    exists (u ++ v), s2. split_and!; [by rewrite app_assoc|by constructor|done].
  - destruct (run a s k) eqn:E.
    + intros [= <-]. apply IHa in E as (w & s' & -> & Hw & Hk). exists w, s'. split_and!; [done|by constructor|done].
    + intros (w & s' & -> & Hw & Hk)%IHb. exists w, s'. split_and!; [done|by apply lang_alt_r|done].
  - generalize (length s) as n. intros n. revert s x. induction n as [|n IHn]; intros s x; cbn [star_loop].
    + intros H. exists [], s. split_and!; [done|constructor|done].
    + set (more := run a s _). assert (more = Some x → ∃ w s', s = w ++ s' ∧ lang (Star g a) w ∧ k s' = Some x) as Hmore.
      { intros (u & s1 & -> & Hu & H)%IHa. destruct (length s1 <? _)%nat; [|done].
        apply IHn in H as (v & s2 & -> & Hv & Hk). exists (u ++ v), s2. split_and!; [by rewrite app_assoc|by constructor|done]. }
      assert (k s = Some x → ∃ w s', s = w ++ s' ∧ lang (Star g a) w ∧ k s' = Some x) as Hstop.
      { intros H. exists [], s. split_and!; [done|constructor|done]. }
      cbv zeta. destruct g; [destruct more|destruct (k s)]; naive_solver.
Qed.

(** A word of a star is a word of non-empty words. *)
Lemma lang_star_parts g a w :
  lang (Star g a) w → w = [] ∨ ∃ u v, u ≠ [] ∧ w = u ++ v ∧ lang a u ∧ lang (Star g a) v.
Proof.
  intros H. remember (Star g a) as r eqn:E. induction H as [| | | | | |g' a' u v Hu _ Hv IH]; simplify_eq; [by left|].
  destruct u as [|c u]; [by apply IH|]. right. exists (c :: u), v. done.
Qed.

Lemma run_complete r : ∀ w s k, lang r w → k s ≠ None → run r (w ++ s) k ≠ None.
Proof.
  induction r as [|p|a IHa b IHb|a IHa b IHb|g a IHa]; intros w s k Hw Hk; cbn [run].
  - by inversion Hw; subst.
  - inversion Hw as [|? c Hc| | | | |]; subst. cbn. by rewrite Hc.
  - inversion Hw as [| |? ? u v Hu Hv| | | |]; subst. rewrite <- app_assoc. apply IHa; [done|]. by apply IHb.
  - inversion Hw as [| | |? ? ? Hu|? ? ? Hu| |]; subst.
    + pose proof (IHa w s k Hu Hk). by destruct (run a (w ++ s) k).
    + destruct (run a (w ++ s) k); [done|]. by apply IHb.
  - assert (∀ n w, length w <= n → lang (Star g a) w → star_loop (run a) g k n (w ++ s) ≠ None) as H.
    { clear w Hw. induction n as [|n IHn]; intros w Hn Hw; cbn [star_loop]; [by destruct w; [|cbn in Hn; lia]|].
      apply lang_star_parts in Hw as [->|(u & v & Hu0 & -> & Hu & Hv)]; cbv zeta.
      - cbn [app]. destruct g; [by case_match|]. by destruct (k s).
      - rewrite length_app in Hn. assert (0 < length u) by (destruct u; [done|cbn; lia]).
        set (more := run a _ _). assert (more ≠ None) as Hmore; [|clearbody more; destruct g; [by destruct more|destruct (k ((u ++ v) ++ s)); [done|exact Hmore]]].
        unfold more. rewrite <- app_assoc. apply IHa; [done|].
        assert ((length (v ++ s) <? length (u ++ v ++ s)) = true) as -> by (apply Nat.ltb_lt; rewrite !length_app; lia).
        apply IHn; [lia|done]. }
    apply H; [|done]. rewrite length_app. lia.
Qed.

Lemma match_at_sound r s m rest : match_at r s = Some (m, rest) → s = m ++ rest ∧ lang r m.
Proof.
  unfold match_at. intros (x & (w & s' & -> & Hw & [= ->])%run_sound & [= <- <-])%bind_Some.
  rewrite length_app. replace (length w + length x - length x) with (length w) by lia. by rewrite take_app_length.
Qed.
Lemma match_at_complete r w s : lang r w → is_Some (match_at r (w ++ s)).
Proof.
  intros Hw. pose proof (run_complete r w s Some Hw ltac:(done)) as H. unfold match_at.
  destruct (run r (w ++ s) Some) as [rest|]; [|done]. by eexists.
Qed.

(** ** What the words of an expression look like *)

Fixpoint alphabet (r : re) (a : ascii) : bool :=
  match r with
  | Eps => false
  | Chr p => p a
  | Seq r1 r2 | Alt r1 r2 => alphabet r1 a || alphabet r2 a
  | Star _ r' => alphabet r' a
  end.
Definition all_chars : list ascii := Ascii.ascii_of_nat <$> seq 0 256.
(** Every word has a character that satisfies [q]. *)
Fixpoint needs (q : ascii → bool) (r : re) : bool :=
  match r with
  | Eps | Star _ _ => false
  | Chr p => forallb (λ a, negb (p a) || q a) all_chars
  | Seq r1 r2 => needs q r1 || needs q r2
  | Alt r1 r2 => needs q r1 && needs q r2
  end.
Fixpoint min_len (r : re) : nat :=
  match r with
  | Eps | Star _ _ => 0
  | Chr _ => 1
  | Seq r1 r2 => min_len r1 + min_len r2
  | Alt r1 r2 => min (min_len r1) (min_len r2)
  end.

Lemma all_chars_all a : a ∈ all_chars.
Proof.
  apply list_elem_of_fmap. exists (Ascii.nat_of_ascii a). split; [by rewrite Ascii.ascii_nat_embedding|].
  apply elem_of_seq. pose proof (Ascii.nat_ascii_bounded a). lia.
Qed.
Lemma lang_alphabet r w : lang r w → Forall (λ a, alphabet r a = true) w.
Proof.
  induction 1 as [|p a Hp|a b u v _ IH1 _ IH2|a b u _ IH|a b u _ IH|g a|g a u v _ IH1 _ IH2]; cbn [alphabet] in *.
  - done.
  - by constructor.
  - apply Forall_app. split; (eapply Forall_impl; [eassumption|]); intros c ->; [done|apply orb_true_r].
  - eapply Forall_impl; [exact IH|]. by intros c ->.
  - eapply Forall_impl; [exact IH|]. intros c ->. apply orb_true_r.
  - done.
  - by apply Forall_app.
Qed.
Lemma lang_needs q r w : lang r w → needs q r = true → ∃ a, a ∈ w ∧ q a = true.
Proof.
  induction 1 as [|p a Hp|a b u v _ IH1 _ IH2|a b u _ IH|a b u _ IH|g a|g a u v _ IH1 _ IH2]; cbn [needs].
  - done.
  - intros H. rewrite forallb_forall in H. specialize (H a ltac:(apply list_elem_of_In, all_chars_all)).
    rewrite Hp in H. exists a. split; [by left|done].
  - intros [H|H]%orb_true_iff; [destruct (IH1 H) as (c & ? & ?)|destruct (IH2 H) as (c & ? & ?)]; exists c;
      (split; [apply elem_of_app|]); auto.
  - intros [H _]%andb_true_iff. auto.
  - intros [_ H]%andb_true_iff. auto.
  - done.
  - done.
Qed.
Lemma lang_min_len r w : lang r w → min_len r <= length w.
Proof.
  induction 1 as [|p a Hp|a b u v _ IH1 _ IH2|a b u _ IH|a b u _ IH|g a|g a u v _ IH1 _ IH2]; cbn [min_len];
    rewrite ?length_app; cbn [length]; lia.
Qed.
Lemma lang_not r w a : lang r w → alphabet r a = false → a ∉ w.
Proof. intros H%lang_alphabet E Hin. rewrite Forall_forall in H. rewrite H in E; done. Qed.

Lemma lang_seq_inv a b w : lang (Seq a b) w → ∃ u v, w = u ++ v ∧ lang a u ∧ lang b v.
Proof. inversion 1; subst. by eexists _, _. Qed.
Lemma lang_lit s w : lang (Lit s) w ↔ w = bytes s.
Proof.
  unfold Lit, chars. revert w. induction (bytes s) as [|c l IH]; intros w; cbn [fmap list_fmap foldr].
  - split; [by inversion 1|intros ->; constructor].
  - split.
    + intros (u & v & -> & Hu & ->%IH)%lang_seq_inv. inversion Hu as [|? d Hd| | | | |]; subst. by apply Ascii.eqb_eq in Hd as ->.
    + intros ->. apply (lang_seq _ _ [c]); [constructor; apply Ascii.eqb_refl|by apply IH].
Qed.
Lemma lang_many g p w : lang (Star g (Chr p)) w ↔ Forall (λ a, p a = true) w.
Proof.
  split; [by intros H%lang_alphabet|].
  induction 1 as [|a w Ha _ IH]; [constructor|]. apply (lang_star_cons g _ [a]); [by constructor|done].
Qed.

(** ** The pieces of a text *)

Section pieces.
Context (r : re) (Hr : min_len r ≠ 0).

Lemma match_at_nonempty s m rest : match_at r s = Some (m, rest) → m ≠ [].
Proof. intros [_ H%lang_min_len]%match_at_sound ->. cbn in H. lia. Qed.

(** With enough fuel the pieces follow this equation. *)
Lemma pieces_from_enough n s : length s <= n → pieces_from n r s = pieces r s.
Proof.
  revert s. induction n as [n IH] using (well_founded_induction Nat.lt_wf_0). intros s Hs.
  destruct s as [|a s]; [by destruct n|]. destruct n as [|n]; [cbn in Hs; lia|].
  unfold pieces. cbn [length pieces_from].
  destruct (match_at r (a :: s)) as [[[|b m] rest]|] eqn:E.
  - by apply match_at_nonempty in E.
  - apply match_at_sound in E as [Es _].
    assert (length (a :: s) = S (length m) + length rest) as Hl by by rewrite Es, length_app.
    cbn [length] in Hs, Hl. rewrite (IH n) by lia.
    destruct (decide (length s < S n)); [|lia]. by rewrite (IH (length s)) by lia.
  - cbn [length] in Hs. rewrite (IH n) by lia. by rewrite (IH (length s)) by lia.
Qed.
Lemma pieces_cons a s :
  pieces r (a :: s) = match match_at r (a :: s) with
                      | Some (m, rest) => PMatch m :: pieces r rest
                      | None => PChar a :: pieces r s
                      end.
Proof.
  unfold pieces at 1. cbn [length pieces_from]. destruct (match_at r (a :: s)) as [[[|b m] rest]|] eqn:E.
  - by apply match_at_nonempty in E.
  - apply match_at_sound in E as [Es _]. rewrite pieces_from_enough; [done|].
    assert (length (a :: s) = S (length m) + length rest) as Hl by by rewrite Es, length_app. cbn [length] in Hl. lia.
  - done.
Qed.
Lemma pieces_match s m rest : match_at r s = Some (m, rest) → pieces r s = PMatch m :: pieces r rest.
Proof.
  intros E. destruct s as [|a s].
  - apply match_at_nonempty in E as Hm. apply match_at_sound in E as [E _]. by destruct m.
  - by rewrite pieces_cons, E.
Qed.
Lemma pieces_text s : mjoin (piece_text <$> pieces r s) = s.
Proof.
  remember (length s) as n eqn:En. revert s En. induction n as [n IH] using (well_founded_induction Nat.lt_wf_0).
  intros s ->. destruct s as [|a s]; [done|]. rewrite pieces_cons.
  destruct (match_at r (a :: s)) as [[m rest]|] eqn:E; cbn [fmap list_fmap mjoin list_join piece_text].
  - apply match_at_nonempty in E as Hm. apply match_at_sound in E as [Es _]. rewrite Es.
    f_equal. eapply IH; [|done]. rewrite Es, length_app. destruct m; [done|cbn; lia].
  - cbn [app]. f_equal. eapply IH; [|done]. cbn. lia.
Qed.
End pieces.

(** ** [strings.ReplaceAll] *)

Lemma replace_from_skip old new s k : replace_from old new s k = replace_from old new (drop k s) 0.
Proof. revert k. induction s as [|a s IH]; intros [|k]; cbn [replace_from drop]; [done..|apply IH]. Qed.
Lemma ReplaceAll_cons old new a s : ¬ old `prefix_of` a :: s → ReplaceAll (a :: s) old new = a :: ReplaceAll s old new.
Proof. intros H. unfold ReplaceAll. cbn [replace_from]. by rewrite decide_False. Qed.
Lemma ReplaceAll_match old new s : old ≠ [] → ReplaceAll (old ++ s) old new = new ++ ReplaceAll s old new.
Proof.
  intros H. destruct old as [|a old]; [done|]. unfold ReplaceAll. cbn [app replace_from].
  rewrite decide_True by by eexists. rewrite replace_from_skip. cbn [length].
  replace (S (length old) - 1) with (length old) by lia. by rewrite drop_app_length.
Qed.
(** Characters at which no occurrence starts are copied. *)
Lemma ReplaceAll_copy old new l s :
  (∀ i, i < length l → ¬ old `prefix_of` drop i l ++ s) → ReplaceAll (l ++ s) old new = l ++ ReplaceAll s old new.
Proof.
  induction l as [|a l IH]; intros H; [done|]. cbn [app]. rewrite ReplaceAll_cons; [|by apply (H 0); cbn; lia].
  f_equal. apply IH. intros i Hi. apply (H (S i)). cbn. lia.
Qed.
