(* ===== verification/Staging.v ===== *)
(** * Staged workspaces (core/staged_workspace.go)

    Around a step the engine takes a snapshot of the task's directory: the files
    by path, their contents in a store by hash.  Afterwards it appends to a
    journal what the step created, modified and deleted, and when the step
    failed it puts the files back.

    A directory is a map from paths, relative to the task's directory and in the
    form a walk finds them, to contents, with the set of its subdirectories; the
    bookkeeping below [.staging] is apart.  The hash and the errors of writing a
    snapshot are arguments; the walk itself succeeds, files that cannot be read
    are skipped.  The order in which the code visits a Go map is an argument. *)
From S2P Require Import Prelude Paths.
From Stdlib Require Import Ascii.
Local Open Scope Z_scope.

Module StagingFileMeta.
Record t := mk { Path : string; SHA256 : string; Size : Z }.
End StagingFileMeta.
Module StagingJournalEntry.
Record t := mk {
  StepID : string; TaskID : string; SnapshotBefore : string; SnapshotAfter : string; Status : string;
  Created : list StagingFileMeta.t; Modified : list StagingFileMeta.t; Deleted : list StagingFileMeta.t;
  DiffSummary : string; Verified : bool; RolledBack : bool; Timestamp : Z
}.
#[global] Instance t_eta : Eta t := λ e, mk (StepID e) (TaskID e) (SnapshotBefore e) (SnapshotAfter e) (Status e)
  (Created e) (Modified e) (Deleted e) (DiffSummary e) (Verified e) (RolledBack e) (Timestamp e).
End StagingJournalEntry.
Module SnapshotIndex.
Record t := mk { ID : string; Files : gmap string StagingFileMeta.t; Created : Z }.
End SnapshotIndex.

(** The journal file: absent, in the old format of one JSON array, an array
    with lines behind it, or lines, some of which may not decode. *)
Inductive jline := JEntry (e : StagingJournalEntry.t) | JJunk (s : string).
Inductive Journal :=
| JMissing
| JArray (es : list StagingJournalEntry.t)
| JBroken (es : list StagingJournalEntry.t) (ls : list jline)
| JLines (ls : list jline).

Record Disk := mkDisk {
  files : gmap string string; dirs : gset string; unreadable : gset string;
  snaps : gmap string string; journal : Journal
}.
#[export] Instance Disk_eta : Eta Disk := λ d, mkDisk (files d) (dirs d) (unreadable d) (snaps d) (journal d).

(** ** Paths *)

Definition stagingExcludeNames : list string := ["manifest.json"; "artifacts.json"].
Definition tracked (rel : string) : bool :=
  negb (bool_decide (".staging" ∈ split_on slash rel)) && negb (bool_decide (rel ∈ stagingExcludeNames)).
(** The directories above a path. *)
Fixpoint above (prefix : string) (cs : list string) : list string :=
  match cs with
  | [] | [_] => []
  | c :: cs' => let p := if String.eqb prefix "" then c else (prefix +:+ "/" +:+ c)%string in p :: above p cs'
  end.
Definition parents (rel : string) : list string := above "" (split_on slash rel).

(** [safeJoin] below an absolute directory: the path relative to it. *)
Definition safeJoin (base rel : string) : result string string :=
  let cleaned := Clean rel in
  if has_prefix ".." cleaned || rooted cleaned || contains ":" rel then Err ("path traversal detected: " +:+ rel)%string
  else if has_prefix (Clean base) (Clean (base +:+ "/" +:+ cleaned)) then Ok cleaned
  else Err ("path escapes task directory: " +:+ rel)%string.

(** [os.MkdirAll] of the directory of a path, and [os.WriteFile]. *)
Definition mkdir_parents (rel : string) (d : Disk) : result string Disk :=
  if forallb (λ p, bool_decide (files d !! p = None)) (parents rel) then Ok (d <| dirs ::= λ s, list_to_set (parents rel) ∪ s |>)
  else Err "not a directory".
Definition write_file (rel data : string) (d : Disk) : result string Disk :=
  if bool_decide (rel ∈ dirs d) then Err "is a directory" else Ok (d <| files ::= <[rel := data]> |>).

Section staging.
Context (hash : string → string) (snap_error : string → option string) (base : string).

(** ** Snapshots *)

Definition meta_of (rel data : string) : StagingFileMeta.t := StagingFileMeta.mk rel (hash data) (Z.of_nat (String.length data)).
Definition dataMap (d : Disk) : gmap string string := filter (λ kv, tracked kv.1 = true ∧ kv.1 ∉ unreadable d) (files d).
Definition scanWorkspace (d : Disk) : gmap string StagingFileMeta.t := map_imap (λ rel data, Some (meta_of rel data)) (dataMap d).

Definition snapshotContent (h data : string) (d : Disk) : result string Disk :=
  match snaps d !! h with
  | Some _ => Ok d
  | None => match snap_error h with Some err => Err err | None => Ok (d <| snaps ::= <[h := data]> |>) end
  end.
Definition readSnapshot (h : string) (d : Disk) : option string := snaps d !! h.
(** Contents stored before an error stay. *)
Fixpoint snapshot_files (l : list (string * string)) (d : Disk) : Disk * option string :=
  match l with
  | [] => (d, None)
  | (rel, data) :: l' =>
      if String.eqb data "" then snapshot_files l' d
      else match snapshotContent (hash data) data d with
           | Ok d => snapshot_files l' d
           | Err err => (d, Some ("staged_workspace: snapshot " +:+ rel +:+ ": " +:+ err)%string)
           end
  end.
Definition snapshotAll (ord : list string) (id : string) (now : Z) (d : Disk) : Disk * result string SnapshotIndex.t :=
  match snapshot_files (range (dataMap d) ord) d with
  | (d', None) => (d', Ok (SnapshotIndex.mk id (scanWorkspace d) now))
  | (d', Some err) => (d', Err err)
  end.
Definition snapshot_id (phase stepID : string) (now : Z) : string := (phase +:+ "_" +:+ stepID +:+ "_" +:+ pretty now)%string.
Definition TakePreStepSnapshot (ord : list string) (stepID : string) (now : Z) (d : Disk) : Disk * result string SnapshotIndex.t :=
  snapshotAll ord (snapshot_id "pre" stepID now) now d.

(** ** The journal *)

Definition loadJournalLocked (j : Journal) : result string (list StagingJournalEntry.t) :=
  match j with
  | JMissing => Ok []
  | JArray es => Ok es
  | JBroken _ _ => Err "invalid character after top-level value"
  | JLines ls => Ok (omap (λ l, match l with JEntry e => Some e | JJunk _ => None end) ls)
  end.
Definition AppendJournalEntry (e : StagingJournalEntry.t) (d : Disk) : Disk :=
  d <| journal ::= λ j, match j with
                        | JMissing => JLines [JEntry e]
                        | JArray es => JBroken es [JEntry e]
                        | JBroken es ls => JBroken es (ls ++ [JEntry e])
                        | JLines ls => JLines (ls ++ [JEntry e])
                        end |>.
(** The last entry of a step, from the end. *)
Fixpoint mark_first (stepID : string) (es : list StagingJournalEntry.t) : list StagingJournalEntry.t :=
  match es with
  | [] => []
  | e :: es' => if String.eqb (StagingJournalEntry.StepID e) stepID then e <| StagingJournalEntry.RolledBack := true |> :: es'
                else e :: mark_first stepID es'
  end.
Definition MarkRolledBack (stepID : string) (d : Disk) : result string Disk :=
  let? es := loadJournalLocked (journal d) in
  Ok (d <| journal := JLines (JEntry <$> reverse (mark_first stepID (reverse es))) |>).

Definition diff_summary (c m r : list StagingFileMeta.t) : string :=
  ("+" +:+ pretty (length c) +:+ " created, ~" +:+ pretty (length m) +:+ " modified, -" +:+ pretty (length r) +:+ " deleted")%string.
(** What changed between two scans; [opost] and [opre] order them. *)
Definition created_in (pre post : gmap string StagingFileMeta.t) (opost : list string) : list StagingFileMeta.t :=
  omap (λ kv, match pre !! kv.1 with None => Some kv.2 | Some _ => None end) (range post opost).
Definition modified_in (pre post : gmap string StagingFileMeta.t) (opost : list string) : list StagingFileMeta.t :=
  omap (λ kv, match pre !! kv.1 with
              | Some m => if String.eqb (StagingFileMeta.SHA256 m) (StagingFileMeta.SHA256 kv.2) then None else Some kv.2
              | None => None
              end) (range post opost).
Definition deleted_in (pre post : gmap string StagingFileMeta.t) (opre : list string) : list StagingFileMeta.t :=
  omap (λ kv, match post !! kv.1 with None => Some kv.2 | Some _ => None end) (range pre opre).
Definition RecordPostStepSnapshot (ord opost opre : list string) (taskID stepID status : string) (pre : option SnapshotIndex.t)
    (now : Z) (d : Disk) : Disk * result string (StagingJournalEntry.t * SnapshotIndex.t) :=
  match snapshotAll ord (snapshot_id "post" stepID now) now d with
  | (d, Err err) => (d, Err err)
  | (d, Ok post) =>
      let preFiles := from_option SnapshotIndex.Files ∅ pre in
      let c := created_in preFiles (SnapshotIndex.Files post) opost in
      let m := modified_in preFiles (SnapshotIndex.Files post) opost in
      let r := deleted_in preFiles (SnapshotIndex.Files post) opre in
      let e := StagingJournalEntry.mk stepID taskID (from_option SnapshotIndex.ID "" pre) (SnapshotIndex.ID post) status
                 c m r (diff_summary c m r) false false now in
      (AppendJournalEntry e d, Ok (e, post))
  end.

(** ** Rolling back *)

Definition restore_one (current : gmap string StagingFileMeta.t) (rel : string) (meta : StagingFileMeta.t) (d : Disk) : result string Disk :=
  match safeJoin base rel with
  | Err jerr => Err ("staged_workspace: rollback " +:+ rel +:+ ": " +:+ jerr)%string
  | Ok full =>
      if bool_decide (StagingFileMeta.SHA256 <$> current !! rel = Some (StagingFileMeta.SHA256 meta)) then Ok d
      else match readSnapshot (StagingFileMeta.SHA256 meta) d with
           | None => Err ("staged_workspace: rollback missing snapshot content for " +:+ rel)%string
           | Some data => let? d := mkdir_parents full d in write_file full data d
           end
  end.
(** The files restored before an error stay restored. *)
Fixpoint restore_all (current : gmap string StagingFileMeta.t) (l : list (string * StagingFileMeta.t)) (d : Disk) : Disk * option string :=
  match l with
  | [] => (d, None)
  | (rel, meta) :: l' => match restore_one current rel meta d with Ok d => restore_all current l' d | Err err => (d, Some err) end
  end.
Definition remove_new (pre : gmap string StagingFileMeta.t) (l : list string) (d : Disk) : Disk :=
  foldl (λ d rel, match pre !! rel, safeJoin base rel with
                  | None, Ok full => d <| files ::= delete full |>
                  | _, _ => d
                  end) d l.
Definition Rollback (opre ocur : list string) (pre : option SnapshotIndex.t) (d : Disk) : Disk * option string :=
  match pre with
  | None => (d, Some "staged_workspace: cannot roll back without a pre-step snapshot"%string)
  | Some pre =>
      let current := scanWorkspace d in
      match restore_all current (range (SnapshotIndex.Files pre) opre) d with
      | (d, Some err) => (d, Some err)
      | (d, None) => (remove_new (SnapshotIndex.Files pre) (range current ocur).*1 d, None)
      end
  end.
Definition CleanupStaging (young keepJournal : bool) (d : Disk) : Disk :=
  if young then d else if keepJournal then d <| snaps := ∅ |> else d <| snaps := ∅ |> <| journal := JMissing |>.
End staging.

(** ** A step around which the workspace is staged (core/scheduler_dag_exec.go)

    [work] is what the step does to the directory; [ord n] the order of the
    [n]-th iteration over a map with the given keys. *)
Section staged_step.
Context (hash : string → string) (snap_error : string → option string) (base : string).
Context (ord : nat → gset string → list string) (now : nat → Z).

Definition post_snapshot (taskID stepID status : string) (pre : option SnapshotIndex.t) (d : Disk)
    : Disk * result string (StagingJournalEntry.t * SnapshotIndex.t) :=
  RecordPostStepSnapshot hash snap_error (ord 1 (dom (dataMap d))) (ord 2 (dom (dataMap d)))
    (ord 3 (dom (from_option SnapshotIndex.Files ∅ pre))) taskID stepID status pre (now 1) d.
Definition roll_back_step (stepID : string) (pre : SnapshotIndex.t) (d : Disk) : Disk :=
  match Rollback hash base (ord 4 (dom (SnapshotIndex.Files pre))) (ord 5 (dom (dataMap d))) (Some pre) d with
  | (d, Some _) => d
  | (d, None) => match MarkRolledBack stepID d with Ok d => d | Err _ => d end
  end.
Definition staged_step (taskID stepID : string) (work : Disk → Disk) (succeeds : bool) (d : Disk) : Disk :=
  let '(d, r) := TakePreStepSnapshot hash snap_error (ord 0 (dom (dataMap d))) stepID (now 0) d in
  let pre := match r with Ok p => Some p | Err _ => None end in
  let d := work d in
  if succeeds then (post_snapshot taskID stepID "completed" pre d).1
  else let d := (post_snapshot taskID stepID "failed" pre d).1 in
       match pre with Some p => roll_back_step stepID p d | None => d end.
End staged_step.

(** ** Snapshots keep contents *)

Section properties.
Context (hash : string → string) (Hhash : Inj (=) (=) hash).

(** The store holds contents under their own hash. *)
Definition cas_ok (d : Disk) : Prop := ∀ h c, snaps d !! h = Some c → h = hash c.
(** Every non-empty content of [l] is in the store. *)
Definition stored (l : list (string * string)) (d : Disk) : Prop :=
  ∀ rel data, (rel, data) ∈ l → data ≠ "" → snaps d !! hash data = Some data.

Lemma snapshot_files_spec (snap_error : string → option string) l d :
  (∀ h, snap_error h = None) → cas_ok d →
  ∃ m, snapshot_files hash snap_error l d = (d <| snaps := m |>, None) ∧ snaps d ⊆ m ∧
    cas_ok (d <| snaps := m |>) ∧ stored l (d <| snaps := m |>).
Proof.
  intros He. revert d. induction l as [|[rel data] l IH]; intros d Hd; cbn [snapshot_files].
  - exists (snaps d). destruct d. split_and!; [done|done|done|by intros ? ? H%elem_of_nil].
  - destruct (String.eqb_spec data "") as [->|Hne].
    + destruct (IH d Hd) as (m & E & Hs & Hc & Hst). exists m. split_and!; [done..|].
      intros r' c [[= -> ->]|Hin]%elem_of_cons Hc0; [done|]. by apply (Hst r').
    + unfold snapshotContent. rewrite He. destruct (snaps d !! hash data) as [c|] eqn:E.
      * destruct (IH d Hd) as (m & E' & Hs & Hc & Hst). exists m. split_and!; [done..|].
        intros r' c' [[= -> ->]|Hin]%elem_of_cons Hc0; [|by apply (Hst r')].
        apply Hd in E as E2. apply Hhash in E2 as ->. change (m !! hash c = Some c). by eapply lookup_weaken.
      * destruct (IH (d <| snaps ::= <[hash data := data]> |>)) as (m & E' & Hs & Hc & Hst).
        { intros h c H. change (<[hash data := data]> (snaps d) !! h = Some c) in H.
          apply lookup_insert_Some in H as [[<- <-]|[_ H]]; [done|by apply Hd]. }
        change (<[hash data := data]> (snaps d) ⊆ m) in Hs.
        exists m. rewrite E'. split_and!; [done| |done|].
        -- etrans; [by apply insert_subseteq|done].
        -- intros r' c' [[= -> ->]|Hin]%elem_of_cons Hc0; [|by apply (Hst r')].
           change (m !! hash data = Some data). eapply lookup_weaken; [|exact Hs]. apply lookup_insert_eq.
Qed.

Lemma dataMap_lookup d k c : dataMap d !! k = Some c ↔ files d !! k = Some c ∧ tracked k = true ∧ k ∉ unreadable d.
Proof. unfold dataMap. rewrite map_lookup_filter_Some. done. Qed.
Lemma scan_lookup d k : scanWorkspace hash d !! k = meta_of hash k <$> dataMap d !! k.
Proof. unfold scanWorkspace. rewrite map_lookup_imap. by destruct (dataMap d !! k). Qed.
Lemma scan_dom d : dom (scanWorkspace hash d) = dom (dataMap d).
Proof. apply set_eq. intros k. rewrite !elem_of_dom, scan_lookup. by rewrite fmap_is_Some. Qed.

(** ** Rolling back restores *)

Context (base : string).

(** [F] can be put back into [d]: its contents are stored, its names pass the
    check of paths, nothing is in the way. *)
Record restorable (F : gmap string string) (d : Disk) : Prop := mk_restorable {
  re_names k : is_Some (F !! k) → safeJoin base k = Ok k;
  re_tree k k' : is_Some (F !! k) → is_Some (F !! k') → k ∉ parents k';
  re_dirs k : is_Some (F !! k) → k ∉ dirs d;
  re_parents k p : is_Some (F !! k) → p ∈ parents k → files d !! p = None;
  re_stored k c : F !! k = Some c → snaps d !! hash c = Some c
}.
(** The disk while files are put back: those in [done] are. *)
Record restoring (F : gmap string string) (d0 : Disk) (done : gset string) (d : Disk) : Prop := mk_restoring {
  rg_done k : k ∈ done → files d !! k = F !! k;
  rg_rest k : k ∉ done → files d !! k = files d0 !! k;
  rg_same : snaps d = snaps d0 ∧ journal d = journal d0 ∧ unreadable d = unreadable d0;
  rg_ok : restorable F d
}.
Lemma restore_one_spec F d0 done d k c :
  restoring F d0 done d → F !! k = Some c → k ∉ done →
  ∃ d', restore_one base (scanWorkspace hash d0) k (meta_of hash k c) d = Ok d' ∧ restoring F d0 ({[k]} ∪ done) d'.
Proof.
  intros [Hdone Hrest Hsame Hok] HF Hk. assert (is_Some (F !! k)) as Hs by by eexists.
  unfold restore_one. rewrite (re_names _ _ Hok k Hs). case_bool_decide as Hcur.
  - exists d. split; [done|]. split; [|intros k' H; apply Hrest; set_solver|done|done].
    intros k' [->%elem_of_singleton|H]%elem_of_union; [|by apply Hdone]. rewrite (Hrest k Hk), HF.
    rewrite scan_lookup in Hcur. destruct (dataMap d0 !! k) as [c'|] eqn:E; [|done]. injection Hcur as Hcur. apply Hhash in Hcur as ->.
    by apply dataMap_lookup in E as [E _].
  - unfold readSnapshot. cbn [StagingFileMeta.SHA256 meta_of]. rewrite (re_stored _ _ Hok k c HF).
    unfold mkdir_parents. rewrite (proj2 (forallb_forall _ _)).
    2: { intros p Hp%list_elem_of_In. apply bool_decide_eq_true. by apply (re_parents _ _ Hok k). }
    cbn [rbind]. unfold write_file. rewrite bool_decide_eq_false_2.
    2: { change (k ∉ list_to_set (parents k) ∪ dirs d). rewrite elem_of_union, elem_of_list_to_set.
         intros [H|H]; [by apply (re_tree _ _ Hok k k Hs Hs)|by apply (re_dirs _ _ Hok k Hs)]. }
    eexists. split; [reflexivity|]. split.
    + intros k' Hk'. change (<[k := c]> (files d) !! k' = F !! k'). destruct (decide (k = k')) as [->|Hne].
      * by rewrite lookup_insert_eq.
      * rewrite lookup_insert_ne by done. apply Hdone. set_solver.
    + intros k' Hk'. change (<[k := c]> (files d) !! k' = files d0 !! k'). rewrite lookup_insert_ne by set_solver. apply Hrest. set_solver.
    + exact Hsame.
    + split.
      * apply (re_names _ _ Hok).
      * apply (re_tree _ _ Hok).
      * intros k' Hk'. change (k' ∉ list_to_set (parents k) ∪ dirs d). rewrite elem_of_union, elem_of_list_to_set.
        intros [H|H]; [by apply (re_tree _ _ Hok k' k)|by apply (re_dirs _ _ Hok k')].
      * intros k' p Hk' Hp. change (<[k := c]> (files d) !! p = None). rewrite lookup_insert_ne; [by apply (re_parents _ _ Hok k')|].
        intros ->. by apply (re_tree _ _ Hok p k').
      * apply (re_stored _ _ Hok).
Qed.
Lemma restore_all_spec F d0 l : ∀ done d,
  restoring F d0 done d → NoDup l.*1 → (∀ k m, (k, m) ∈ l → k ∉ done ∧ ∃ c, F !! k = Some c ∧ m = meta_of hash k c) →
  ∃ d', restore_all base (scanWorkspace hash d0) l d = (d', None) ∧ restoring F d0 (list_to_set l.*1 ∪ done) d'.
Proof.
  induction l as [|[k m] l IH]; intros done d Hd Hnd Hl; cbn [restore_all fmap list_fmap list_to_set foldr].
  - exists d. split; [done|]. by rewrite (left_id_L ∅ (∪)).
  - destruct (Hl k m ltac:(left)) as (Hk & c & HF & ->). apply NoDup_cons in Hnd as [Hkl Hnd].
    destruct (restore_one_spec F d0 done d k c Hd HF Hk) as (d1 & -> & Hd1).
    destruct (IH ({[k]} ∪ done) d1 Hd1 Hnd) as (d' & -> & Hd').
    + intros k' m' H. destruct (Hl k' m' ltac:(by right)) as (H1 & H2). split; [|done].
      intros [->%elem_of_singleton|?]%elem_of_union; [|done]. apply Hkl, list_elem_of_fmap. by exists (k, m').
    + exists d'. split; [done|]. cbn [fst] in *. by replace ({[k]} ∪ list_to_set l.*1 ∪ done) with (list_to_set l.*1 ∪ ({[k]} ∪ done)) by set_solver.
Qed.

Lemma remove_new_spec pre l d :
  (∀ k, k ∈ l → pre !! k = None → safeJoin base k = Ok k) →
  ∃ m, remove_new base pre l d = d <| files := m |> ∧
    ∀ k, m !! k = if bool_decide (k ∈ l ∧ pre !! k = None) then None else files d !! k.
Proof.
  revert d. induction l as [|rel l IH]; intros d Hl; cbn [remove_new foldl].
  - exists (files d). split; [by destruct d|]. intros k. rewrite bool_decide_eq_false_2; [done|]. by intros [H%elem_of_nil _].
  - assert (∀ k, k ∈ l → pre !! k = None → safeJoin base k = Ok k) as Hl' by (intros k Hk; apply Hl; by right).
    destruct (pre !! rel) as [m0|] eqn:E.
    + destruct (IH d Hl') as (m & Em & Hm). exists m. split; [exact Em|]. intros k. rewrite Hm.
      apply (f_equal (λ b : bool, if b then None else files d !! k)), bool_decide_ext. rewrite elem_of_cons.
      split; [intros [? ?]; by split; [right|]|]. intros [[->|?] Hn]; [by rewrite E in Hn|done].
    + rewrite (Hl rel ltac:(left) E). destruct (IH (d <| files ::= delete rel |>) Hl') as (m & Em & Hm). exists m. split; [exact Em|].
      intros k. rewrite Hm. change (files (d <| files ::= delete rel |>) !! k) with (delete rel (files d) !! k).
      destruct (decide (k = rel)) as [->|Hne].
      * rewrite lookup_delete_eq, (bool_decide_eq_true_2 (rel ∈ rel :: l ∧ _)) by by split; [left|]. by case_bool_decide.
      * rewrite lookup_delete_ne by done. apply (f_equal (λ b : bool, if b then None else files d !! k)), bool_decide_ext.
        rewrite elem_of_cons. naive_solver.
Qed.

Definition readable (d : Disk) : Prop := ∀ k, tracked k = true → k ∉ unreadable d.
Definition named (d : Disk) : Prop := ∀ k, tracked k = true → is_Some (files d !! k) → safeJoin base k = Ok k.
Lemma dataMap_readable d k : readable d → dataMap d !! k = if tracked k then files d !! k else None.
Proof.
  intros Hr. apply option_eq. intros c. rewrite dataMap_lookup. destruct (tracked k) eqn:E; [|by split; [intros (_ & [=] & _)|]].
  split; [by intros [? _]|]. intros H. split_and!; [done..|by apply Hr].
Qed.
Lemma Rollback_spec opre ocur F id t d :
  (∀ k, is_Some (F !! k) → tracked k = true) → restorable F d → readable d → named d →
  range_order F opre → range_order (dataMap d) ocur →
  ∃ m ds, Rollback hash base opre ocur (Some (SnapshotIndex.mk id (map_imap (λ k c, Some (meta_of hash k c)) F) t)) d =
      (d <| files := m |> <| dirs := ds |>, None) ∧
    ∀ k, m !! k = if tracked k then F !! k else files d !! k.
Proof.
  intros HFt Hok Hr Hn Ho1 Ho2. set (P := map_imap (λ k c, Some (meta_of hash k c)) F).
  assert (∀ k, P !! k = meta_of hash k <$> F !! k) as HP by (intros k; unfold P; rewrite map_lookup_imap; by destruct (F !! k)).
  assert (range_order P opre) as HoP.
  { apply (range_order_dom F); [|done]. apply set_eq. intros k. by rewrite !elem_of_dom, HP, fmap_is_Some. }
  assert (range_order (scanWorkspace hash d) ocur) as HoC by (unfold range_order in *; by rewrite scan_dom).
  assert (∀ {V} (m : gmap string V) ord, range_order m ord → (range m ord).*1 = ord) as Hkeys.
  { intros V m ord Ho. unfold range. pose proof (range_order_elem m ord) as He. clear - Ho He.
    assert (∀ k, k ∈ ord → is_Some (m !! k)) as H by (intros k Hk; by apply (He k Ho)). clear - H.
    induction ord as [|k ord IH]; [done|]. destruct (H k ltac:(left)) as [v Hv]. cbn [omap list_omap]. rewrite Hv. cbn. f_equal. apply IH.
    intros k' Hk'. apply H. by right. }
  unfold Rollback. cbn [SnapshotIndex.Files]. fold P.
  destruct (restore_all_spec F d (range P opre) ∅ d) as (d1 & -> & [Hdone Hrest Hsame _]).
  - split; [set_solver|done|done|done].
  - rewrite Hkeys by done. by apply (range_order_NoDup P).
  - intros k m Hkm%(range_order_lookup _ _ _ _ HoP). split; [set_solver|]. rewrite HP in Hkm. apply fmap_Some in Hkm as (c & Hc & ->). by exists c.
  - rewrite !Hkeys in * by done.
    destruct (remove_new_spec P ocur d1) as (m & Em & Hm).
    { intros k Hk _. apply (range_order_elem _ _ _ HoC) in Hk. rewrite scan_lookup, fmap_is_Some in Hk. destruct Hk as [c Hc].
      apply dataMap_lookup in Hc as (Hc & Ht & _). apply Hn; [done|by eexists]. }
    exists m, (dirs d1). split.
    { rewrite Em. destruct Hsame as (H1 & H2 & H3). destruct d1, d. cbn in *. by subst. }
    intros k. rewrite Hm. assert (k ∈ (list_to_set opre ∪ ∅ : gset string) ↔ is_Some (F !! k)) as Hin.
    { rewrite (right_id_L ∅ (∪)), elem_of_list_to_set. apply (range_order_elem F opre k Ho1). }
    destruct (F !! k) as [c|] eqn:EF.
    + assert (is_Some (F !! k)) as Hs by (rewrite EF; by eexists). rewrite (HFt k Hs).
      rewrite bool_decide_eq_false_2; [|rewrite HP, EF; by intros [_ [=]]]. rewrite Hdone, EF; [done|]. apply Hin. by eexists.
    + assert (k ∉ (list_to_set opre ∪ ∅ : gset string)) as Hno by (rewrite Hin; by intros [? ?]). rewrite (Hrest k Hno).
      assert (k ∈ ocur ↔ is_Some (dataMap d !! k)) as Hcur by (rewrite (range_order_elem _ _ _ HoC), scan_lookup; apply fmap_is_Some).
      rewrite (dataMap_readable d k Hr) in Hcur. destruct (tracked k) eqn:Ek.
      * destruct (files d !! k) as [c|] eqn:Ed; [|by case_bool_decide].
        rewrite bool_decide_eq_true_2; [done|]. rewrite HP, EF. split; [|done]. apply Hcur. by eexists.
      * rewrite bool_decide_eq_false_2; [done|]. intros [H _]. apply Hcur in H. by destruct H.
Qed.
End properties.

(** ** A failed step leaves the workspace as it was *)

Section staged.
Context (hash : string → string) (Hhash : Inj (=) (=) hash) (base : string).
Context (ord : nat → gset string → list string) (Hord : ∀ n X, ord n X ≡ₚ elements X) (now : nat → Z).
Definition no_error (h : string) : option string := None.

Lemma snapshotAll_spec o id t d : cas_ok hash d →
  ∃ m, snapshotAll hash no_error o id t d = (d <| snaps := m |>, Ok (SnapshotIndex.mk id (scanWorkspace hash d) t)) ∧
    snaps d ⊆ m ∧ cas_ok hash (d <| snaps := m |>) ∧
    (range_order (dataMap d) o → ∀ k c, dataMap d !! k = Some c → c ≠ "" → m !! hash c = Some c).
Proof.
  intros Hc. unfold snapshotAll. destruct (snapshot_files_spec hash Hhash no_error (range (dataMap d) o) d) as (m & -> & Hs & Hc' & Hst); [done|done|].
  exists m. split_and!; [done..|]. intros Ho k c Hk Hne. apply (Hst k c); [|done]. by apply (range_order_lookup _ _ _ _ Ho).
Qed.
(** The record of a step: only the store grows and one entry is appended. *)
Lemma post_snapshot_spec taskID stepID status pre d : cas_ok hash d →
  ∃ m e post, post_snapshot hash no_error ord now taskID stepID status pre d = (AppendJournalEntry e (d <| snaps := m |>), Ok (e, post)) ∧
    snaps d ⊆ m ∧ StagingJournalEntry.StepID e = stepID.
Proof.
  intros Hc. unfold post_snapshot, RecordPostStepSnapshot.
  destruct (snapshotAll_spec (ord 1 (dom (dataMap d))) (snapshot_id "post" stepID (now 1%nat)) (now 1%nat) d Hc) as (m & -> & Hs & _).
  eexists m, _, _. split_and!; [reflexivity|done|done].
Qed.

(** A journal that can be appended to: absent or in lines. *)
Definition in_lines (j : Journal) : Prop := match j with JMissing | JLines _ => True | _ => False end.
Lemma mark_appended stepID e d : in_lines (journal d) → StagingJournalEntry.StepID e = stepID →
  ∀ d', journal d' = journal (AppendJournalEntry e d) →
  ∃ es, MarkRolledBack stepID d' = Ok (d' <| journal := JLines (es ++ [JEntry (e <| StagingJournalEntry.RolledBack := true |>)]) |>).
Proof.
  intros Hj He d' Hj'. unfold MarkRolledBack. rewrite Hj'.
  assert (∃ es, loadJournalLocked (journal (AppendJournalEntry e d)) = Ok (es ++ [e])) as [es ->].
  { destruct d as [? ? ? ? [|es|es ls|ls]]; try done; [by exists []|].
    eexists. cbn. by rewrite omap_app. }
  cbn [rbind]. rewrite reverse_snoc. cbn [mark_first]. rewrite He, String.eqb_refl.
  exists (JEntry <$> es). by rewrite reverse_cons, reverse_involutive, fmap_app.
Qed.

(** What the step must leave for its work to be undone: the store and the
    journal untouched, nothing but files where the old files were. *)
Record undoable (d0 d : Disk) : Prop := mk_undoable {
  un_store : snaps d = snaps d0;
  un_journal : journal d = journal d0;
  un_readable : readable d;
  un_named : named base d;
  un_free k p : is_Some (dataMap d0 !! k) → k ∉ dirs d ∧ (p ∈ parents k → files d !! p = None)
}.
(** A workspace that can be put back: readable, its names pass the check of
    paths -- none has a colon or begins with two dots --, no file below a file, none empty. *)
Record restorable_dir (d : Disk) : Prop := mk_restorable_dir {
  rd_store : cas_ok hash d;
  rd_journal : in_lines (journal d);
  rd_readable : readable d;
  rd_named : named base d;
  rd_tree k k' : is_Some (dataMap d !! k) → is_Some (dataMap d !! k') → k ∉ parents k';
  rd_content k : dataMap d !! k ≠ Some ""
}.

(** C39: When a step fails in a workspace that can be put back, every tracked file is
    then as it was before the step and every other file as the step left it, and the
    last entry of the journal says that the step was rolled back.  A workspace can be
    put back ([restorable_dir], [undoable]) if no tracked file of it is empty, none
    has a name with a colon or one that begins with two dots, all can be read, the
    store and the journal are whole and
    nothing fails to be written, and if the step leaves the store and the journal
    alone, makes no unreadable file and none with such a name, and leaves no
    directory in the place of a file and no file in that of a directory.  Each is
    needed: an empty file is lost ([empty_file_lost]), a new file with a colon in its
    name stays although the journal says rolled back ([colon_file_survives]), and a
    directory in the way stops the rollback ([directory_in_the_way]). *)
Theorem failed_step_restores taskID stepID work d :
  restorable_dir d →
  (∀ m, snaps d ⊆ m → undoable (d <| snaps := m |>) (work (d <| snaps := m |>))) →
  (∀ m m', files (work (d <| snaps := m |>)) = files (work (d <| snaps := m' |>))) →
  let d' := staged_step hash no_error base ord now taskID stepID work false d in
  (∀ k, files d' !! k = if tracked k then files d !! k else files (work d) !! k) ∧
  ∃ es e, journal d' = JLines (es ++ [JEntry e]) ∧ StagingJournalEntry.StepID e = stepID ∧ StagingJournalEntry.RolledBack e = true.
Proof.
  intros [Hcas Hj Hr Hn Ht Hc] Hun Hfiles d'.
  assert (d' = staged_step hash no_error base ord now taskID stepID work false d) as Hd' by done. clearbody d'.
  unfold staged_step, TakePreStepSnapshot in Hd'.
  destruct (snapshotAll_spec (ord 0 (dom (dataMap d))) (snapshot_id "pre" stepID (now 0%nat)) (now 0%nat) d Hcas) as (m & E0 & Hs0 & Hcas1 & Hst).
  rewrite E0 in Hd'. cbv zeta in Hd'. specialize (Hun m Hs0). set (d1 := d <| snaps := m |>) in *. set (d2 := work d1) in *.
  destruct Hun as [Hus Huj Hur Hunm Huf].
  assert (cas_ok hash d2) as Hcas2 by (intros h c; rewrite Hus; apply Hcas1).
  destruct (post_snapshot_spec taskID stepID "failed" (Some (SnapshotIndex.mk (snapshot_id "pre" stepID (now 0%nat)) (scanWorkspace hash d) (now 0%nat))) d2 Hcas2)
    as (m2 & e & post & E1 & Hs2 & He).
  rewrite E1 in Hd'. cbn [fst] in Hd'. set (d3 := AppendJournalEntry e (d2 <| snaps := m2 |>)) in *.
  destruct (Rollback_spec hash Hhash base (ord 4 (dom (scanWorkspace hash d))) (ord 5 (dom (dataMap d3))) (dataMap d)
    (snapshot_id "pre" stepID (now 0%nat)) (now 0%nat) d3) as (mf & ds & E2 & Hmf).
  - intros k [c Hk]. by apply dataMap_lookup in Hk as (_ & ? & _).
  - split.
    + intros k [c Hk]. apply dataMap_lookup in Hk as (Hk & Htk & _). apply Hn; [done|by eexists].
    + exact Ht.
    + intros k Hk. by apply (Huf k "").
    + intros k p Hk Hp. by apply (Huf k p).
    + intros k c Hk. change (m2 !! hash c = Some c). eapply lookup_weaken; [|exact Hs2]. rewrite Hus.
      apply (Hst (Hord _ _) k c Hk). intros ->. by apply (Hc k).
  - exact Hur.
  - exact Hunm.
  - unfold range_order. rewrite <- (scan_dom hash d). apply Hord.
  - apply Hord.
  - unfold roll_back_step in Hd'. cbn [SnapshotIndex.Files] in Hd'. change (scanWorkspace hash d) with (map_imap (λ k c, Some (meta_of hash k c)) (dataMap d)) in Hd'.
    change (scanWorkspace hash d) with (map_imap (λ k c, Some (meta_of hash k c)) (dataMap d)) in E2.
    rewrite E2 in Hd'. destruct (mark_appended stepID e (d2 <| snaps := m2 |>)) with (d' := d3 <| files := mf |> <| dirs := ds |>) as [es E3].
    + change (in_lines (journal d2)). rewrite Huj. exact Hj.
    + exact He.
    + done.
    + rewrite E3 in Hd'. subst d'. split.
      * intros k. change (mf !! k = if tracked k then files d !! k else files (work d) !! k). rewrite Hmf.
        rewrite (dataMap_readable d k Hr). destruct (tracked k); [done|]. change (files d2 !! k = files (work d) !! k).
        unfold d2, d1. rewrite (Hfiles m (snaps d)). by replace (d <| snaps := snaps d |>) with d by by destruct d.
      * exists es, (e <| StagingJournalEntry.RolledBack := true |>). split_and!; [done|exact He|done].
Qed.
End staged.

(** ** Concrete workspaces *)

Definition ex_ord (n : nat) (X : gset string) : list string := elements X.
Definition ex_now (n : nat) : Z := Z.of_nat n.
Definition ex_dir (fs : gmap string string) (ds : gset string) : Disk := mkDisk fs ds ∅ ∅ JMissing.
Definition ex_before : Disk := ex_dir {["out/a.txt" := "one"; "notes.md" := "n"; "manifest.json" := "{}"]} {["out"]}.
(** The step rewrites one file, deletes one, creates one and touches the manifest. *)
Definition ex_work (d : Disk) : Disk :=
  mkDisk {["out/a.txt" := "two"; "tmp/x" := "new"; "manifest.json" := "{1}"]} {["out"; "tmp"]} ∅ (snaps d) (journal d).

Ltac each_key H := repeat (apply lookup_insert_Some in H as [[<- <-]|[_ H]]); try apply lookup_singleton_Some in H as [<- <-].
Lemma ex_restorable : restorable_dir id "/t" ex_before.
Proof.
  split.
  - intros h c H. by destruct (lookup_empty_Some (M := gmap string) h c H).
  - exact I.
  - intros k _. apply not_elem_of_empty.
  - intros k _ [c H]. unfold ex_before, ex_dir in H. cbn [files] in H. each_key H; vm_compute; reflexivity.
  - intros k k' [c H] [c' H']. apply dataMap_lookup in H as [H _], H' as [H' _]. unfold ex_before, ex_dir in H, H'. cbn [files] in H, H'.
    each_key H; each_key H'; apply (bool_decide_unpack _); vm_compute; exact I.
  - intros k [H _]%dataMap_lookup. unfold ex_before, ex_dir in H. cbn [files] in H. apply lookup_insert_Some in H as [[_ [=]]|[_ H]].
    apply lookup_insert_Some in H as [[_ [=]]|[_ H]]. by apply lookup_singleton_Some in H as [_ [=]].
Qed.
Lemma ex_undoable m : undoable "/t" (ex_before <| snaps := m |>) (ex_work (ex_before <| snaps := m |>)).
Proof.
  split.
  - done.
  - done.
  - intros k _. apply not_elem_of_empty.
  - intros k _ [c H]. unfold ex_work in H. cbn [files] in H. each_key H; vm_compute; reflexivity.
  - intros k p [c [H _]%dataMap_lookup]. change (files ex_before !! k = Some c) in H. unfold ex_before, ex_dir in H. cbn [files] in H.
    split.
    + change (k ∉ ({["out"; "tmp"]} : gset string)). each_key H; set_solver.
    + change (p ∈ parents k → ({["out/a.txt" := "two"; "tmp/x" := "new"; "manifest.json" := "{1}"]} : gmap string string) !! p = None).
      each_key H; [change (p ∈ ["out"] → ({["out/a.txt" := "two"; "tmp/x" := "new"; "manifest.json" := "{1}"]} : gmap string string) !! p = None)|..];
        intros Hp; [apply list_elem_of_singleton in Hp as ->; reflexivity|by apply elem_of_nil in Hp..].
Qed.
Lemma failed_step_restores_witness :
  let d' := staged_step id no_error "/t" ex_ord ex_now "t1" "s1" ex_work false ex_before in
  files d' = {["out/a.txt" := "one"; "notes.md" := "n"; "manifest.json" := "{1}"]} ∧
  files d' !! "out/a.txt" = Some "one" ∧ files d' !! "tmp/x" = None.
Proof.
  split; [vm_compute; reflexivity|].
  destruct (failed_step_restores id (λ x y H, H) "/t" ex_ord (λ n X, reflexivity _) ex_now "t1" "s1" ex_work ex_before
    ex_restorable (λ m _, ex_undoable m) (λ m m', eq_refl)) as [H _].
  split; [exact (H "out/a.txt")|exact (H "tmp/x")].
Defined.

Definition ex_failed (fs : gmap string string) (ds : gset string) (fs' : gmap string string) (ds' : gset string) : Disk :=
  staged_step id no_error "/t" ex_ord ex_now "t1" "s1" (λ d, mkDisk fs' ds' ∅ (snaps d) (journal d)) false (ex_dir fs ds).
(** The content of an empty file is not stored, so deleting one cannot be undone,
    and what comes after it is not undone either. *)
Example empty_file_lost :
  files (ex_failed {["a.txt" := ""; "b.txt" := "one"]} ∅ {["b.txt" := "two"]} ∅) = {["b.txt" := "two"]}.
Proof. vm_compute. reflexivity. Qed.
(** A new file with a colon in its name survives a rollback that reports success. *)
Example colon_file_survives :
  let d := ex_failed {["a.txt" := "one"]} ∅ {["a.txt" := "two"; "x:y" := "new"]} ∅ in
  files d = {["a.txt" := "one"; "x:y" := "new"]} ∧
  match journal d with JLines [JEntry e] => StagingJournalEntry.RolledBack e = true | _ => False end.
Proof. vm_compute. split; reflexivity. Qed.
(** A directory in the place of a file stops the rollback. *)
Example directory_in_the_way :
  files (ex_failed {["a" := "one"]} ∅ {["a/b" := "new"]} {["a"]}) = {["a/b" := "new"]}.
Proof. vm_compute. reflexivity. Qed.
(** The snapshot is of the whole task: a step that fails takes back what a step
    beside it has finished in the meantime. *)
Definition neighbour (d : Disk) : Disk :=
  staged_step id no_error "/t" ex_ord ex_now "t1" "s2" (λ d, d <| files ::= <["report.md" := "done"]> |>) true d.
Example neighbour_undone :
  files (neighbour (ex_dir {["a.txt" := "one"]} ∅)) = {["a.txt" := "one"; "report.md" := "done"]} ∧
  files (staged_step id no_error "/t" ex_ord ex_now "t1" "s1" neighbour false (ex_dir {["a.txt" := "one"]} ∅)) = {["a.txt" := "one"]}.
Proof. vm_compute. split; reflexivity. Qed.
(** Appending to a journal in the old format makes it unreadable. *)
Example old_journal_broken e e' d :
  journal d = JArray [e] → loadJournalLocked (journal (AppendJournalEntry e' d)) = Err "invalid character after top-level value".
Proof. intros H. unfold AppendJournalEntry. cbn. by rewrite H. Qed.
