(* ===== verification/BatchEdit.v ===== *)
(** * Replacing text in several files at once (core/replace_batch.go)

    All replacements are checked against the original files and the new contents
    written to temporary files beside them; only then are the temporary files
    renamed, one by one, and when a rename fails the files renamed before are
    written back.

    The file system is a map from paths to contents.  Which writes and renames
    fail, and the random part of the temporary names, are arguments; a write
    that fails leaves nothing behind. *)
From S2P Require Import Prelude Paths Regex.
From Stdlib Require Import Ascii.

Module ReplacementItem.
Record t := mk { FilePath : string; OldStr : string; NewStr : string }.
End ReplacementItem.
Module BatchReplaceResult.
Record t := mk { Success : bool; ModifiedFiles : list string; Summary : string }.
End BatchReplaceResult.

Inductive BatchError :=
| NoReplacements | NotAbsolute (path : string) | CannotRead (path : string) | EmptyOld (path : string)
| OldNotFound (path old : string) | OldNotUnique (path : string) (n : nat) | Overlapping (path : string) (offset : nat)
| NoSuffix (path : string) | CannotStage (path : string) | CannotCommit (path : string) (rollback_failed : bool).

(** [suffix path] is the random part of a temporary name, unless reading random
    bytes fails; the others say which operations on a path fail. *)
Record BatchEnv := mkBatchEnv {
  suffix : string → option string; stage_fails : string → bool; rename_fails : string → bool; undo_fails : string → bool
}.
Abbreviation FS := (gmap string string).

(** ** One file *)

Record editSpan := mkSpan { sp_start : nat; sp_end : nat; sp_item : ReplacementItem.t }.
Definition find_span (path content : string) (it : ReplacementItem.t) : result BatchError editSpan :=
  let old := ReplacementItem.OldStr it in
  if String.eqb old "" then Err (EmptyOld path)
  else match count content old with
       | O => Err (OldNotFound path old)
       | S (S n) => Err (OldNotUnique path (S (S n)))
       | S O => match index_of (bytes old) (bytes content) with
                | Some idx => Ok (mkSpan idx (idx + String.length old) it)
                | None => Err (OldNotFound path old)
                end
       end.
Definition span_le (a b : editSpan) : Prop := sp_start a <= sp_start b.
#[export] Instance span_le_dec a b : Decision (span_le a b).
Proof. unfold span_le. apply _. Defined.
#[export] Instance span_le_total : Total span_le.
Proof. intros a b. unfold span_le. lia. Qed.
#[export] Instance span_le_trans : Transitive span_le.
Proof. intros a b c. unfold span_le. lia. Qed.
(** The first span that starts before the one before it has ended. *)
Fixpoint find_overlap (spans : list editSpan) : option nat :=
  match spans with
  | a :: ((b :: _) as rest) => if sp_start b <? sp_end a then Some (sp_start b) else find_overlap rest
  | _ => None
  end.
(** From the last span to the first, so that offsets stay valid. *)
Definition apply_spans (spans : list editSpan) (content : list ascii) : list ascii :=
  foldr (λ s c, take (sp_start s) c ++ bytes (ReplacementItem.NewStr (sp_item s)) ++ drop (sp_end s) c) content spans.
Definition edit_file (path content : string) (items : list ReplacementItem.t) : result BatchError string :=
  let? spans := rmap (find_span path content) items in
  let spans := merge_sort span_le spans in
  match find_overlap spans with
  | Some offset => Err (Overlapping path offset)
  | None => Ok (of_bytes (apply_spans spans (bytes content)))
  end.

(** ** All files *)

Section batch.
Context (env : BatchEnv).

(** The files in the order they are first named, with their edits. *)
Fixpoint first_seen (l seen : list string) : list string :=
  match l with
  | [] => []
  | p :: l' => if decide (p ∈ seen) then first_seen l' seen else p :: first_seen l' (p :: seen)
  end.
Definition file_order (reps : list ReplacementItem.t) : list string := first_seen (ReplacementItem.FilePath <$> reps) [].
Definition edits_of (reps : list ReplacementItem.t) (path : string) : list ReplacementItem.t :=
  filter (λ it, ReplacementItem.FilePath it = path) reps.

Definition cleanupTempFiles (temps : list (string * string)) (fs : FS) : FS := foldl (λ fs pt, delete pt.2 fs) fs temps.
(** Phase 1 for the files left; [temps] are those staged so far. *)
Definition tmp_path (path hex : string) : string := (path +:+ "." +:+ hex +:+ ".tmp")%string.
Fixpoint stage (reps : list ReplacementItem.t) (paths : list string) (temps : list (string * string)) (originals : list (string * string)) (fs : FS)
    : FS * result BatchError (list (string * string) * list (string * string)) :=
  match paths with
  | [] => (fs, Ok (temps, originals))
  | path :: paths' =>
      match fs !! path with
      | None => (cleanupTempFiles temps fs, Err (CannotRead path))
      | Some content =>
          match edit_file path content (edits_of reps path) with
          | Err e => (cleanupTempFiles temps fs, Err e)
          | Ok new =>
              match suffix env path with
              | None => (cleanupTempFiles temps fs, Err (NoSuffix path))
              | Some hex =>
                  if stage_fails env path then (cleanupTempFiles temps fs, Err (CannotStage path))
                  else stage reps paths' (temps ++ [(path, tmp_path path hex)]) (originals ++ [(path, content)]) (<[tmp_path path hex := new]> fs)
              end
          end
      end
  end.
(** Writing the originals of the committed files back; was there an error? *)
Definition undo (committed : list (string * string)) (fs : FS) : FS * bool :=
  foldl (λ '(fs, bad) po, if undo_fails env po.1 then (fs, true) else (<[po.1 := po.2]> fs, bad)) (fs, false) committed.
(** Phase 2: [todo] the files left with their temporary files, [committed] the
    files renamed with their originals. *)
Fixpoint commit (todo : list (string * string)) (originals : gmap string string) (committed : list (string * string)) (fs : FS)
    : FS * result BatchError (list string) :=
  match todo with
  | [] => (fs, Ok committed.*1)
  | (path, tmp) :: todo' =>
      if rename_fails env path then
        let '(fs, bad) := undo committed fs in (cleanupTempFiles todo' fs, Err (CannotCommit path bad))
      else
        let fs := match fs !! tmp with Some data => <[path := data]> (delete tmp fs) | None => fs end in
        commit todo' originals (match originals !! path with Some o => committed ++ [(path, o)] | None => committed end) fs
  end.
Definition ExecuteBatchReplace (reps : list ReplacementItem.t) (fs : FS) : FS * result BatchError BatchReplaceResult.t :=
  match reps with
  | [] => (fs, Err NoReplacements)
  | _ =>
      match find (λ it, negb (rooted (ReplacementItem.FilePath it))) reps with
      | Some it => (fs, Err (NotAbsolute (ReplacementItem.FilePath it)))
      | None =>
          let order := file_order reps in
          match stage reps order [] [] fs with
          | (fs, Err e) => (fs, Err e)
          | (fs, Ok (temps, originals)) =>
              match commit temps (list_to_map originals) [] fs with
              | (fs, Err e) => (fs, Err e)
              | (fs, Ok modified) =>
                  (fs, Ok (BatchReplaceResult.mk true modified
                    ("Successfully applied " +:+ pretty (length reps) +:+ " replacements across " +:+ pretty (length order) +:+ " files.")))
              end
          end
      end
  end.

(** ** The tool (core_tools.go)

    [resolve] maps a path of the call to one in the workspace. *)
Inductive ToolError := NoArray | NotObject (i : nat) | MissingField (i : nat) | NotResolved (i : nat) (e : string) | BatchFailed (e : BatchError).
Definition str_arg (m : list (string * any)) (k : string) : string := default "" (as_string (amap_get m k)).
Fixpoint read_items (resolve : string → result string string) (i : nat) (raw : list any) : result ToolError (list ReplacementItem.t) :=
  match raw with
  | [] => Ok []
  | AMap m :: raw' =>
      if String.eqb (str_arg m "file_path") "" || String.eqb (str_arg m "old_str") "" then Err (MissingField i)
      else match resolve (str_arg m "file_path") with
           | Err e => Err (NotResolved i e)
           | Ok full => let? l := read_items resolve (S i) raw' in Ok (ReplacementItem.mk full (str_arg m "old_str") (str_arg m "new_str") :: l)
           end
  | _ :: _ => Err (NotObject i)
  end.
Definition handleBatchReplace (args : list (string * any)) (resolve : string → result string string) (fs : FS) : FS * result ToolError string :=
  match amap_get args "replacements" with
  | Some (AList (r :: raw)) =>
      match read_items resolve 0 (r :: raw) with
      | Err e => (fs, Err e)
      | Ok items =>
          let '(fs, res) := ExecuteBatchReplace items fs in
          (fs, match res with Ok r => Ok (BatchReplaceResult.Summary r) | Err e => Err (BatchFailed e) end)
      end
  | _ => (fs, Err NoArray)
  end.
End batch.

(** ** What one file's edits do *)

(** Text as stretches that stay, with one edit between two of them: [side]
    chooses what is written for an edit. *)
Definition weave (side : ReplacementItem.t → string) (g : list ascii) (parts : list (ReplacementItem.t * list ascii)) : list ascii :=
  g ++ mjoin ((λ part, bytes (side part.1) ++ part.2) <$> parts).

Lemma weave_cons side g it g' parts : weave side g ((it, g') :: parts) = g ++ bytes (side it) ++ weave side g' parts.
Proof.
  unfold weave. cbn [fmap list_fmap]. change (mjoin (?x :: ?l)) with (x ++ mjoin l). cbn [fst snd]. by rewrite <- (assoc_L (++) (bytes _)).
Qed.

(** A span holds its item's old text, which is not empty. *)
Definition span_ok (c : list ascii) (s : editSpan) : Prop :=
  sp_start s < sp_end s ∧ sp_end s = sp_start s + length (bytes (ReplacementItem.OldStr (sp_item s))) ∧
  bytes (ReplacementItem.OldStr (sp_item s)) `prefix_of` drop (sp_start s) c.
Lemma find_span_ok path content it s :
  find_span path content it = Ok s → sp_item s = it ∧ count content (ReplacementItem.OldStr it) = 1 ∧ span_ok (bytes content) s.
Proof.
  unfold find_span. destruct (String.eqb_spec (ReplacementItem.OldStr it) "") as [|Hne]; [done|].
  destruct (count _ _) as [|[|n]]; try done. destruct (index_of _ _) as [i|] eqn:Hi; [|done].
  intros [= <-]. split_and!; [done..|]. apply index_of_Some in Hi as [Hp _].
  unfold span_ok. cbn. rewrite !length_bytes. split_and!; [|done|done].
  destruct (ReplacementItem.OldStr it); [done|cbn; lia].
Qed.

Lemma find_overlap_None spans : find_overlap spans = None →
  ∀ i a b, spans !! i = Some a → spans !! S i = Some b → sp_end a <= sp_start b.
Proof.
  induction spans as [|a [|b rest] IH]; [done..|]. cbn [find_overlap]. case_match eqn:Hlt; [done|].
  intros H i x y Hx Hy. apply Nat.ltb_ge in Hlt. destruct i; simplify_eq/=; [done|by eapply IH].
Qed.

(** Spans that follow one another, cut out of what follows offset [k]. *)
Lemma spans_weave c spans : ∀ k,
  Forall (span_ok c) spans → find_overlap spans = None → (∀ a, head spans = Some a → k <= sp_start a) →
  ∃ g parts, parts.*1 = sp_item <$> spans ∧ drop k c = weave ReplacementItem.OldStr g parts ∧
    apply_spans spans c = take k c ++ weave ReplacementItem.NewStr g parts.
Proof.
  induction spans as [|s spans IH]; intros k Hok Hover Hk.
  { exists (drop k c), []. unfold weave, apply_spans. cbn. by rewrite !app_nil_r, take_drop. }
  apply Forall_cons in Hok as [(Hlt & Hend & [rest Hrest]) Hok]. specialize (Hk s eq_refl).
  destruct (IH (sp_end s) Hok) as (g & parts & Hitems & Hold & Hnew).
  { destruct spans; [done|]. revert Hover. cbn [find_overlap]. by case_match. }
  { destruct spans as [|b spans]; [done|]. intros ? [= <-]. by eapply (find_overlap_None (s :: b :: spans) Hover 0). }
  assert (drop k c = drop k (take (sp_start s) c) ++ drop (sp_start s) c) as Hcut.
  { rewrite <- (take_drop (sp_start s) c) at 1. rewrite drop_app.
    destruct (decide (sp_start s <= length c)) as [Hle|].
    - rewrite length_take, Nat.min_l by done. by replace (k - sp_start s) with 0 by lia.
    - by rewrite !(drop_ge c), !drop_nil by lia. }
  assert (drop (sp_end s) c = rest) as Hrest'.
  { rewrite Hend, <- drop_drop, Hrest. apply drop_app_length. }
  assert (sp_end s <= length c) as Hin.
  { rewrite Hend. assert (length (drop (sp_start s) c) = length (bytes (ReplacementItem.OldStr (sp_item s))) + length rest) as Hl
      by (by rewrite Hrest, length_app). rewrite length_drop in Hl. lia. }
  exists (drop k (take (sp_start s) c)), ((sp_item s, g) :: parts). split_and!.
  - cbn. by rewrite Hitems.
  - rewrite weave_cons, Hcut, Hrest. by rewrite <- Hrest', Hold.
  - cbn [apply_spans foldr]. change (foldr _ c spans) with (apply_spans spans c). rewrite Hnew.
    rewrite take_app_le by (rewrite length_take; lia). rewrite take_take, Nat.min_l by lia.
    replace (drop (sp_end s) (take (sp_end s) c ++ weave ReplacementItem.NewStr g parts)) with (weave ReplacementItem.NewStr g parts)
      by (by rewrite drop_app_length' by (rewrite length_take; lia)).
    rewrite weave_cons, (assoc_L (++) (take k c)). f_equal.
    rewrite <- (take_drop k (take (sp_start s) c)) at 1. by rewrite take_take, Nat.min_l by lia.
Qed.

(** Every old text occurs once and is replaced where it stands; all else stays. *)
Definition edited (items : list ReplacementItem.t) (content new : string) : Prop :=
  Forall (λ it, ReplacementItem.OldStr it ≠ "" ∧ count content (ReplacementItem.OldStr it) = 1) items ∧
  ∃ g parts, parts.*1 ≡ₚ items ∧ bytes content = weave ReplacementItem.OldStr g parts ∧ bytes new = weave ReplacementItem.NewStr g parts.

Lemma edit_file_edited path content items new : edit_file path content items = Ok new → edited items content new.
Proof.
  unfold edit_file. intros (spans & Hs & H)%rbind_ok. destruct (find_overlap _) eqn:Hover; [done|]. injection H as <-.
  apply rmap_ok in Hs.
  assert (Forall (span_ok (bytes content)) (merge_sort span_le spans)) as Hok.
  { rewrite merge_sort_Permutation. clear Hover. induction Hs as [|it s ? ? Hf]; constructor; [|done].
    by apply find_span_ok in Hf as (_ & _ & ?). }
  assert (sp_item <$> spans = items ∧ Forall (λ it, ReplacementItem.OldStr it ≠ "" ∧ count content (ReplacementItem.OldStr it) = 1) items) as [Hi Hone].
  { clear Hover Hok. induction Hs as [|it s ? ? Hf ? [IH1 IH2]]; [done|].
    pose proof (find_span_ok _ _ _ _ Hf) as (Hit & Hcnt & _). split; [by cbn; rewrite Hit, IH1|constructor; [|done]].
    split; [|done]. unfold find_span in Hf. by destruct (String.eqb_spec (ReplacementItem.OldStr it) ""). }
  split; [done|]. destruct (spans_weave _ _ 0 Hok Hover) as (g & parts & Hparts & Hold & Hnew); [intros; lia|].
  exists g, parts. split_and!; [|done|by rewrite bytes_of_bytes].
  rewrite Hparts, merge_sort_Permutation. by rewrite Hi.
Qed.

(** ** All files or none *)

Lemma length_string_app (s t : string) : String.length (s +:+ t) = String.length s + String.length t.
Proof. by rewrite <- !length_bytes, bytes_app, length_app. Qed.
(** Temporary names carry eight hexadecimal digits, so they tell their files apart. *)
Lemma tmp_path_inj p q h k : String.length h = 8 → String.length k = 8 → tmp_path p h = tmp_path q k → p = q.
Proof.
  unfold tmp_path. intros Hh Hk H%(f_equal bytes). rewrite !bytes_app in H.
  apply app_inj_2 in H as [H%bytes_inj _]; [done|]. by rewrite !length_app, !length_bytes, Hh, Hk.
Qed.

Section atomic.
Context (env : BatchEnv) (reps : list ReplacementItem.t) (fs0 : FS).
Let named := ReplacementItem.FilePath <$> reps.
(** The suffix is four random bytes in hexadecimal; no file has a temporary
    name yet, nor is one among the files to edit. *)
Definition fresh_temps : Prop :=
  ∀ p h, p ∈ named → suffix env p = Some h → String.length h = 8 ∧ fs0 !! tmp_path p h = None ∧ tmp_path p h ∉ named.
Context (Hfresh : fresh_temps).

(** A file that is staged: its path, its temporary file, its content and its new content. *)
Record row := mkRow { r_path : string; r_tmp : string; r_old : string; r_new : string }.
Definition row_ok (r : row) : Prop :=
  r_path r ∈ named ∧ (∃ h, suffix env (r_path r) = Some h ∧ r_tmp r = tmp_path (r_path r) h) ∧ fs0 !! r_path r = Some (r_old r) ∧
  edit_file (r_path r) (r_old r) (edits_of reps (r_path r)) = Ok (r_new r).
Definition with_tmp (r : row) := (r_path r, r_tmp r).
Definition with_old (r : row) := (r_path r, r_old r).
(** The files of [done] have their new contents, those of [todo] temporary files. *)
Record between (don todo : list row) (fs : FS) : Prop := {
  b_done : ∀ r, r ∈ don → fs !! r_path r = Some (r_new r);
  b_todo : ∀ r, r ∈ todo → fs !! r_tmp r = Some (r_new r);
  b_rest : ∀ i, i ∉ r_path <$> don → i ∉ r_tmp <$> todo → fs !! i = fs0 !! i
}.

Lemma row_tmp r : row_ok r → fs0 !! r_tmp r = None ∧ r_tmp r ∉ named.
Proof. intros (Hin & (h & Hh & ->) & _). by destruct (Hfresh _ _ Hin Hh) as (_ & ? & ?). Qed.
Lemma row_tmp_inj r r' : row_ok r → row_ok r' → r_tmp r = r_tmp r' → r_path r = r_path r'.
Proof.
  intros (Hin & (h & Hh & ->) & _) (Hin' & (h' & Hh' & ->) & _).
  apply tmp_path_inj; [by destruct (Hfresh _ _ Hin Hh)|by destruct (Hfresh _ _ Hin' Hh')].
Qed.

Lemma lookup_cleanup temps (fs : FS) i :
  cleanupTempFiles temps fs !! i = if decide (i ∈ temps.*2) then None else fs !! i.
Proof.
  unfold cleanupTempFiles. revert fs. induction temps as [|[p t] temps IH]; intros fs; [done|].
  change (foldl _ fs ((p, t) :: temps)) with (foldl (λ (fs : FS) pt, delete pt.2 fs) (delete t fs) temps).
  rewrite IH. cbn [fmap list_fmap snd]. destruct (decide (i = t)) as [->|Hne].
  - rewrite (decide_True (P := t ∈ t :: _)) by by constructor. case_decide; [done|apply lookup_delete_eq].
  - rewrite (lookup_delete_ne fs t i) by done. do 2 case_decide; set_solver.
Qed.

(** Before any file is renamed, removing the temporary files undoes all. *)
Lemma between_cleanup rows (fs : FS) : Forall row_ok rows → between [] rows fs → cleanupTempFiles (with_tmp <$> rows) fs = fs0.
Proof.
  intros Hrows [_ Htodo Hrest]. apply map_eq. intros i. rewrite lookup_cleanup, <- list_fmap_compose.
  change ((snd ∘ with_tmp) <$> rows) with (r_tmp <$> rows). case_decide as Hi; [|apply Hrest; [set_solver|done]].
  apply list_elem_of_fmap in Hi as (r & -> & Hr). rewrite Forall_forall in Hrows. by destruct (row_tmp r (Hrows r Hr)).
Qed.
Lemma between_stage rows r (fs : FS) : Forall row_ok rows → row_ok r → r_path r ∉ r_path <$> rows →
  between [] rows fs → between [] (rows ++ [r]) (<[r_tmp r := r_new r]> fs).
Proof.
  intros Hrows Hr Hnew [_ Htodo Hrest]. rewrite Forall_forall in Hrows. split; [set_solver| |].
  - intros r' [Hin| ->%list_elem_of_singleton]%elem_of_app; [|apply lookup_insert_eq].
    rewrite (lookup_insert_ne fs) by (intros He; apply Hnew, list_elem_of_fmap; exists r'; split; [by apply row_tmp_inj; auto|done]). auto.
  - intros i _ Hi. rewrite fmap_app, elem_of_app in Hi. rewrite (lookup_insert_ne fs) by set_solver. apply Hrest; set_solver.
Qed.

Lemma stage_spec paths : ∀ rows (fs : FS), Forall row_ok rows → between [] rows fs → (∀ p, p ∈ paths → p ∈ named) →
  NoDup ((r_path <$> rows) ++ paths) →
  match stage env reps paths (with_tmp <$> rows) (with_old <$> rows) fs with
  | (fs', Ok (temps, originals)) => ∃ rows', r_path <$> rows' = (r_path <$> rows) ++ paths ∧ Forall row_ok rows' ∧
      between [] rows' fs' ∧ temps = with_tmp <$> rows' ∧ originals = with_old <$> rows'
  | (fs', Err e) => fs' = fs0 ∧ ∀ p bad, e ≠ CannotCommit p bad
  end.
Proof.
  induction paths as [|p paths IH]; intros rows fs Hrows Hb Hnamed Hnd; cbn [stage].
  { exists rows. by rewrite app_nil_r. }
  assert (p ∈ named) as Hp by (apply Hnamed; constructor).
  assert (p ∉ r_path <$> rows) as Hnew by (apply NoDup_app in Hnd as (_ & Hd & _); set_solver).
  assert (fs !! p = fs0 !! p) as ->.
  { apply (b_rest _ _ _ Hb); [set_solver|]. intros (r & -> & Hr)%list_elem_of_fmap.
    rewrite Forall_forall in Hrows. by destruct (row_tmp r (Hrows r Hr)). }
  pose proof (between_cleanup rows fs Hrows Hb) as Hclean.
  destruct (fs0 !! p) as [content|] eqn:Hc; [|by rewrite Hclean].
  destruct (edit_file p content _) as [new|e] eqn:He.
  2:{ rewrite Hclean. split; [done|]. intros q bad ->. unfold edit_file in He. apply rbind_err in He as [He|(spans & _ & He)].
      - apply rmap_err in He as (it & _ & He). revert He. unfold find_span. by repeat case_match.
      - by destruct (find_overlap _). }
  destruct (suffix env p) as [h|] eqn:Hh; [|by rewrite Hclean]. destruct (stage_fails env p); [by rewrite Hclean|].
  set (r := mkRow p (tmp_path p h) content new). assert (row_ok r) as Hr by (split_and!; eauto).
  specialize (IH (rows ++ [r]) (<[r_tmp r := r_new r]> fs)). rewrite !fmap_app in IH. cbn [fmap list_fmap] in IH.
  rewrite <- (assoc_L (++)) in IH. apply IH; [by apply Forall_app_2; [|constructor]|by apply between_stage| |done].
  intros q Hq. apply Hnamed. by constructor.
Qed.

(** A rename that fails leaves its own temporary file behind, and nothing else. *)
Lemma rename_undone don r todo (fs fs1 : FS) : Forall row_ok (don ++ r :: todo) → NoDup (r_path <$> don ++ r :: todo) →
  between don (r :: todo) fs → (∀ i, fs1 !! i = (list_to_map (M := FS) (reverse (with_old <$> don)) ∪ fs) !! i) →
  cleanupTempFiles (with_tmp <$> todo) fs1 = <[r_tmp r := r_new r]> fs0.
Proof.
  intros Hrows Hnd [Hdone Htodo Hrest] Hfs1. rewrite Forall_forall in Hrows.
  assert (NoDup (r_path <$> don)) as Hnd1 by (rewrite fmap_app in Hnd; by apply NoDup_app in Hnd as (? & _)).
  assert (∀ i, i ∈ r_tmp <$> r :: todo → i ∉ r_path <$> don) as Hapart.
  { intros i (r1 & -> & Hr1)%list_elem_of_fmap (r2 & He & Hr2)%list_elem_of_fmap.
    destruct (row_tmp r1) as [_ Hn]; [apply Hrows; set_solver|]. apply Hn. rewrite He. apply Hrows. set_solver. }
  assert (∀ i, fs1 !! i = if decide (i ∈ r_path <$> don) then fs0 !! i else fs !! i) as Hfs1'.
  { intros i. rewrite Hfs1. case_decide as Hi.
    - apply list_elem_of_fmap in Hi as (r1 & -> & Hr1).
      destruct (Hrows r1) as (_ & _ & Hold & _); [set_solver|]. rewrite Hold. apply lookup_union_Some_l.
      apply elem_of_list_to_map; [rewrite fmap_reverse, <- list_fmap_compose; by rewrite reverse_Permutation|].
      apply elem_of_reverse, list_elem_of_fmap. by exists r1.
    - rewrite lookup_union_r; [done|]. apply not_elem_of_list_to_map. by rewrite fmap_reverse, <- list_fmap_compose, elem_of_reverse. }
  apply map_eq. intros i. rewrite lookup_cleanup, <- list_fmap_compose. change ((snd ∘ with_tmp) <$> todo) with (r_tmp <$> todo).
  destruct (decide (i = r_tmp r)) as [->|Hne].
  - rewrite lookup_insert_eq, decide_False, Hfs1', decide_False; [by apply Htodo; constructor|apply Hapart; constructor|].
    intros (r1 & He & Hr1)%list_elem_of_fmap. apply row_tmp_inj in He; [|apply Hrows; set_solver..].
    rewrite fmap_app in Hnd. apply NoDup_app in Hnd as (_ & _ & [Hr _]%NoDup_cons). apply Hr. rewrite He. by apply list_elem_of_fmap_2.
  - rewrite lookup_insert_ne by done. case_decide as Hi.
    + apply list_elem_of_fmap in Hi as (r1 & -> & Hr1). by destruct (row_tmp r1) as [-> _]; [apply Hrows; set_solver|].
    + rewrite Hfs1'. case_decide; [done|]. apply Hrest; set_solver.
Qed.

(** Writing the originals back restores the files renamed so far. *)
Lemma lookup_undo committed : ∀ (fs : FS), (∀ p, undo_fails env p = false) →
  (undo env committed fs).2 = false ∧ ∀ i, (undo env committed fs).1 !! i = (list_to_map (M := FS) (reverse committed) ∪ fs) !! i.
Proof.
  unfold undo. induction committed as [|[p o] committed IH] using rev_ind; intros fs Hok.
  { split; [done|]. intros i. change (fs !! i = ((∅ : FS) ∪ fs) !! i). by rewrite (left_id_L (∅ : FS) (∪)). }
  rewrite foldl_snoc. destruct (IH fs Hok) as [Hbad Hi]. destruct (foldl _ (fs, false) committed) as [fs1 bad].
  cbn [fst snd] in *. rewrite Hok. split; [done|]. intros i. cbn [fst]. rewrite reverse_snoc.
  change (list_to_map (M := FS) ((p, o) :: reverse committed)) with (<[p := o]> (list_to_map (M := FS) (reverse committed))).
  rewrite <- (insert_union_l (M := gmap string)). destruct (decide (i = p)) as [->|Hne]; [by rewrite (lookup_insert_eq fs1), lookup_insert_eq|].
  rewrite !(lookup_insert_ne (M := gmap string)) by done. apply Hi.
Qed.

Lemma between_rename don r todo (fs : FS) : Forall row_ok (don ++ r :: todo) → NoDup (r_path <$> don ++ r :: todo) →
  between don (r :: todo) fs → between (don ++ [r]) todo (<[r_path r := r_new r]> (delete (r_tmp r) fs)).
Proof.
  intros Hrows Hnd [Hdone Htodo Hrest]. rewrite Forall_forall in Hrows.
  assert (∀ r', r' ∈ don ++ r :: todo → r_path r' ∈ named ∧ r_tmp r' ∉ named) as Hapart.
  { intros r' Hr'. split; [apply (Hrows _ Hr')|by destruct (row_tmp _ (Hrows _ Hr'))]. }
  destruct (Hapart r) as [Hp Ht]; [set_solver|].
  rewrite fmap_app in Hnd. apply NoDup_app in Hnd as (_ & Hd & [Hr Hnd]%NoDup_cons). split.
  - intros r' [Hin| ->%list_elem_of_singleton]%elem_of_app; [|apply lookup_insert_eq].
    rewrite lookup_insert_ne, lookup_delete_ne; [by auto|..].
    + intros He. destruct (Hapart r') as [Hp' _]; [set_solver|]. congruence.
    + intros He. apply (Hd (r_path r')); [by apply list_elem_of_fmap_2|]. rewrite <- He. constructor.
  - intros r' Hin. destruct (Hapart r') as [_ Ht']; [set_solver|].
    rewrite lookup_insert_ne by congruence. rewrite lookup_delete_ne; [apply Htodo; by constructor|].
    intros He. apply Hr. apply row_tmp_inj in He as ->; [by apply list_elem_of_fmap_2|apply Hrows..]; set_solver.
  - intros i Hi1 Hi2. rewrite fmap_app in Hi1. rewrite lookup_insert_ne by set_solver.
    destruct (decide (i = r_tmp r)) as [->|Hne]; [by rewrite lookup_delete_eq; destruct (row_tmp r) as [? _]; [apply Hrows; set_solver|]|].
    rewrite lookup_delete_ne by done. apply Hrest; set_solver.
Qed.

Lemma commit_spec originals todo : ∀ don (fs : FS), Forall row_ok (don ++ todo) → NoDup (r_path <$> don ++ todo) →
  (∀ p, undo_fails env p = false) → (∀ r, r ∈ todo → originals !! r_path r = Some (r_old r)) → between don todo fs →
  match commit env (with_tmp <$> todo) originals (with_old <$> don) fs with
  | (fs', Ok modified) => modified = r_path <$> don ++ todo ∧ between (don ++ todo) [] fs'
  | (fs', Err e) => ∃ r, r ∈ todo ∧ rename_fails env (r_path r) = true ∧ e = CannotCommit (r_path r) false ∧ fs' = <[r_tmp r := r_new r]> fs0
  end.
Proof.
  induction todo as [|r todo IH]; intros don fs Hrows Hnd Hundo Horig Hb; cbn [commit fmap list_fmap].
  { rewrite (app_nil_r don). split; [|done]. by rewrite <- list_fmap_compose. }
  change (with_tmp r) with (r_path r, r_tmp r). cbv iota beta. change (list_fmap _ _ with_tmp todo) with (with_tmp <$> todo).
  destruct (rename_fails env (r_path r)) eqn:Hf.
  - destruct (lookup_undo (with_old <$> don) fs Hundo) as [Hbad Hi]. destruct (undo env _ fs) as [fs1 bad]. cbn [fst snd] in *. subst bad.
    exists r. split_and!; [constructor|done..|]. by eapply rename_undone.
  - rewrite (b_todo _ _ _ Hb r) by constructor. rewrite (Horig r) by constructor.
    specialize (IH (don ++ [r]) (<[r_path r := r_new r]> (delete (r_tmp r) fs))). rewrite <- (assoc_L (++)) in IH. cbn [app] in IH.
    rewrite (fmap_app with_old) in IH. change (with_old <$> [r]) with [(r_path r, r_old r)] in IH.
    assert (∀ r', r' ∈ todo → originals !! r_path r' = Some (r_old r')) as Horig' by (intros; apply Horig; by constructor).
    specialize (IH Hrows Hnd Hundo Horig' (between_rename _ _ _ _ Hrows Hnd Hb)).
    destruct (commit env _ originals _ _) as [fs' [modified|e]]; [done|].
    destruct IH as (r' & ? & ?). exists r'. split; [by constructor|done].
Qed.
End atomic.

Lemma first_seen_spec l : ∀ seen, NoDup (first_seen l seen) ∧ ∀ p, p ∈ first_seen l seen ↔ p ∈ l ∧ p ∉ seen.
Proof.
  induction l as [|q l IH]; intros seen; cbn [first_seen].
  { split; [constructor|]. set_solver. }
  case_decide as Hq.
  - destruct (IH seen) as [? Hin]. split; [done|]. intros p. rewrite Hin. set_solver.
  - destruct (IH (q :: seen)) as [? Hin]. split; [constructor; [|done]; rewrite Hin; set_solver|].
    intros p. rewrite !elem_of_cons, Hin. destruct (decide (p = q)); set_solver.
Qed.
Lemma file_order_spec reps : NoDup (file_order reps) ∧ ∀ p, p ∈ file_order reps ↔ p ∈ ReplacementItem.FilePath <$> reps.
Proof. destruct (first_seen_spec (ReplacementItem.FilePath <$> reps) []) as [? Hin]. split; [done|]. intros p. rewrite Hin. set_solver. Qed.

(** C40: a batch of replacements changes every file it names or none: when it
    succeeds, in every named file each old text, which occurs there once, is
    replaced where it stood and the rest of the file is kept, and no other file
    is touched; when it fails the files are as they were, except that a rename
    that fails leaves that file's temporary copy behind.  Assumed: temporary
    names are not in use, and files already renamed can be written back. *)
Theorem batch_atomic (env : BatchEnv) (reps : list ReplacementItem.t) (fs fs' : FS) r :
  fresh_temps env reps fs → (∀ p, undo_fails env p = false) → ExecuteBatchReplace env reps fs = (fs', r) →
  match r with
  | Ok res => BatchReplaceResult.Success res = true ∧ BatchReplaceResult.ModifiedFiles res = file_order reps ∧
      (∀ p, p ∈ ReplacementItem.FilePath <$> reps →
         ∃ old new, fs !! p = Some old ∧ fs' !! p = Some new ∧ edited (edits_of reps p) old new) ∧
      (∀ p, p ∉ ReplacementItem.FilePath <$> reps → fs' !! p = fs !! p)
  | Err e => fs' = fs ∨ ∃ p h new, e = CannotCommit p false ∧ rename_fails env p = true ∧ suffix env p = Some h ∧
      fs' = <[tmp_path p h := new]> fs
  end.
Proof.
  intros Hfresh Hundo. unfold ExecuteBatchReplace. destruct reps as [|it reps'] eqn:Hreps; [by intros [= <- <-]; left|].
  rewrite <- Hreps in *. clear it reps' Hreps. destruct (find _ _); [by intros [= <- <-]; left|].
  destruct (file_order_spec reps) as [Hnd Hin].
  assert (between fs [] [] fs) as Hstart by (split; [set_solver..|done]).
  pose proof (stage_spec env reps fs Hfresh (file_order reps) [] fs (List.Forall_nil _) Hstart (λ p, proj1 (Hin p)) Hnd) as Hstage.
  cbn [fmap list_fmap app] in Hstage.
  destruct (stage env reps (file_order reps) [] [] fs) as [fs1 [[temps originals]|e]]; [|destruct Hstage as [-> _]; intros [= <- <-]; by left].
  destruct Hstage as (rows & Hpaths & Hok & Hb & -> & ->).
  pose proof (commit_spec env reps fs Hfresh (list_to_map (with_old <$> rows)) rows [] fs1) as Hcommit.
  cbn [app fmap list_fmap] in Hcommit. rewrite Hpaths in Hcommit. specialize (Hcommit Hok Hnd Hundo).
  assert (∀ r, r ∈ rows → list_to_map (M := FS) (with_old <$> rows) !! r_path r = Some (r_old r)) as Horig.
  { intros x Hx. apply elem_of_list_to_map; [rewrite <- list_fmap_compose; change ((fst ∘ with_old) <$> rows) with (r_path <$> rows); by rewrite Hpaths|]. apply list_elem_of_fmap. by exists x. }
  specialize (Hcommit Horig Hb). destruct (commit env _ _ [] fs1) as [fs2 [modified|e]].
  - destruct Hcommit as [-> [Hdone _ Hrest]]. intros [= <- <-]. cbn. rewrite Forall_forall in Hok. split_and!; [done..| |].
    + intros p Hp. apply Hin in Hp. rewrite <- Hpaths in Hp. apply list_elem_of_fmap in Hp as (x & -> & Hx).
      destruct (Hok x Hx) as (_ & _ & ? & He). exists (r_old x), (r_new x). split_and!; [done|by apply Hdone|by eapply edit_file_edited].
    + intros p Hp. apply Hrest; [rewrite Hpaths, Hin; done|]. apply not_elem_of_nil.
  - destruct Hcommit as (x & Hx & Hf & -> & ->). intros [= <- <-]. right. rewrite Forall_forall in Hok.
    destruct (Hok x Hx) as (_ & (h & Hh & ->) & _). by exists (r_path x), h, (r_new x).
Qed.

(** ** Witnesses and examples *)

Definition ex_reps : list ReplacementItem.t :=
  [ReplacementItem.mk "/a" "two" "2"; ReplacementItem.mk "/b" "x" "yy"; ReplacementItem.mk "/a" "one" "1"].
Definition ex_files : FS := <["/a" := "one, two, three"]> {["/b" := "x"]}.
Definition ex_env (renames : string → bool) : BatchEnv := mkBatchEnv (λ _, Some "00c0ffee") (λ _, false) renames (λ _, false).
Definition batch_reply (renames undos : string → bool) (reps : list ReplacementItem.t) (files : FS) :=
  let '(fs, r) := ExecuteBatchReplace (mkBatchEnv (λ _, Some "00c0ffee") (λ _, false) renames undos) reps files in (map_to_list fs, r).

Lemma ex_fresh renames : fresh_temps (ex_env renames) ex_reps ex_files.
Proof.
  intros p h Hp [= <-]. split; [done|].
  repeat apply elem_of_cons in Hp as [->|Hp]; [..|by apply elem_of_nil in Hp];
    (split; [by vm_compute|by apply (bool_decide_unpack _); vm_compute]).
Qed.
Lemma batch_atomic_witness : ∃ fs res, ExecuteBatchReplace (ex_env (λ _, false)) ex_reps ex_files = (fs, Ok res) ∧
  fs !! "/a" = Some "1, 2, three" ∧ BatchReplaceResult.ModifiedFiles res = ["/a"; "/b"] ∧
  ∃ old new, ex_files !! "/a" = Some old ∧ fs !! "/a" = Some new ∧ edited (edits_of ex_reps "/a") old new.
Proof.
  destruct (ExecuteBatchReplace (ex_env (λ _, false)) ex_reps ex_files) as [fs [res|e]] eqn:H.
  - exists fs, res. pose proof (batch_atomic _ _ _ _ _ (ex_fresh _) (λ _, eq_refl) H) as (_ & _ & Hin & _).
    split_and!; [done|by vm_compute in H; simplify_eq|by vm_compute in H; simplify_eq|apply Hin; left].
  - by vm_compute in H.
Defined.

(** A rename that fails puts every file back but leaves its own temporary
    file: the clean-up skips exactly the path that failed. *)
Example leftover_temp :
  batch_reply (λ p, String.eqb p "/b") (λ _, false) ex_reps ex_files =
  ([("/a", "one, two, three"); ("/b.00c0ffee.tmp", "yy"); ("/b", "x")], Err (CannotCommit "/b" false)).
Proof. by vm_compute. Qed.
(** When the write-back fails as well, the file keeps its new content. *)
Example undo_can_fail :
  batch_reply (λ p, String.eqb p "/b") (λ _, true) ex_reps ex_files =
  ([("/a", "1, 2, three"); ("/b.00c0ffee.tmp", "yy"); ("/b", "x")], Err (CannotCommit "/b" true)).
Proof. by vm_compute. Qed.
(** Occurrences are counted without overlaps: a text that occurs twice, the
    second time inside the first, counts as unique. *)
Example overlapping_occurrences :
  batch_reply (λ _, false) (λ _, false) [ReplacementItem.mk "/a" "aa" "b"] {["/a" := "aaa"]} =
  ([("/a", "ba")], Ok (BatchReplaceResult.mk true ["/a"] "Successfully applied 1 replacements across 1 files.")).
Proof. by vm_compute. Qed.
(** Edits are checked against the original: one that an earlier edit would make
    possible is refused, and so are two that overlap. *)
Example edits_do_not_chain :
  batch_reply (λ _, false) (λ _, false) [ReplacementItem.mk "/a" "x" "y"; ReplacementItem.mk "/a" "y" "z"] {["/a" := "x"]} =
  ([("/a", "x")], Err (OldNotFound "/a" "y")).
Proof. by vm_compute. Qed.
Example overlapping_edits :
  batch_reply (λ _, false) (λ _, false) [ReplacementItem.mk "/a" "bc" "1"; ReplacementItem.mk "/a" "ab" "2"] {["/a" := "abc"]} =
  ([("/a", "abc")], Err (Overlapping "/a" 1)).
Proof. by vm_compute. Qed.
