(* ===== verification/Patch.v ===== *)
(** * Patches of the configuration (config/patch.go)

    RFC 6902 operations on a Go value, by reflection.  A Go value is a tree:
    pointers hold what they point to, since the values a registry is made of
    share nothing.  The one operation that makes two places share is [copy] of
    a value that holds pointers, maps or slices; its outcome is [Shares], which
    nothing here continues from.  [Panics] is a panic of the reflect package.

    What an operation does is also said of the tree, by relations ([at_path],
    [placed], [removed]), and shown of the code ([patch_exact]).  Names are compared
    up to the case of ASCII letters.

    Decoding JSON into a type, encoding a value and zero values are arguments;
    maps have string keys, and a field is found by its own name (none is
    promoted from an embedded struct). *)
From S2P Require Import Prelude Paths.
From Stdlib Require Import Ascii.
Local Open Scope Z_scope.

Module PatchOp.
Record t := mk { Op : string; Path : string; From : string; Value : string }.
End PatchOp.
Definition OpAdd : string := "add".
Definition OpRemove : string := "remove".
Definition OpReplace : string := "replace".
Definition OpMove : string := "move".
Definition OpCopy : string := "copy".
Definition OpTest : string := "test".

(** ** Go values *)

Module Field.
Record t := mk { Name : string; Tag : string; Exported : bool; Type_ : string }.
End Field.
Inductive gval :=
| VScalar (ty : string) (text : string)
| VIface (ty : string) (v : option gval)
| VPtr (ty : string) (v : option gval)
| VMap (ty elem : string) (m : option (list (string * gval)))
| VSlice (ty elem : string) (l : list gval)
| VStruct (ty : string) (fields : list (Field.t * gval)).
Definition type_of (v : gval) : string :=
  match v with VScalar ty _ | VIface ty _ | VPtr ty _ | VMap ty _ _ | VSlice ty _ _ | VStruct ty _ => ty end.
Fixpoint flat (v : gval) : bool :=
  match v with
  | VScalar _ _ | VIface _ None | VPtr _ None | VMap _ _ None | VSlice _ _ [] => true
  | VStruct _ fs => (fix go fs := match fs with [] => true | (_, x) :: fs' => flat x && go fs' end) fs
  | _ => false
  end.

Inductive OpError :=
| BadTarget | Unsupported (op : string) | RootOp | NilPointer (part : string) | MapKeyMissing (key : string) | IndexNotInt (part : string)
| IndexOut (i : Z) | FieldMissing (key : string) | BadKind | NoTargetType (path : string) | Undecodable (path : string) | EncodeFailed
| TestPathMissing (path : string) | TestMismatch (path : string) | FromMissing (path : string).
Inductive outcome (E A : Type) :=
| Done (v : A) | Failed (v : A) (err : E) | Panics | Shares.
Arguments Done {E A}. Arguments Failed {E A}. Arguments Panics {E A}. Arguments Shares {E A}.
(** Steps that do not change the target. *)
Inductive got (A : Type) := Got (a : A) | GotErr (err : OpError) | GotPanic.
Arguments Got {A}. Arguments GotErr {A}. Arguments GotPanic {A}.

(** ** Finding the place *)

Definition json_tag (f : Field.t) : string := hd "" (split_on (Ascii.ascii_of_nat 44) (Field.Tag f)).
Definition remove_char (c : ascii) (s : string) : string := of_bytes (filter (λ a, a ≠ c) (bytes s)).
Definition normalize (s : string) : string := remove_char "_" (to_lower s).
Definition EqualFold (s t : string) : bool := String.eqb (to_lower s) (to_lower t).
Definition loose_field (key : string) (f : Field.t) : bool :=
  String.eqb (json_tag f) key || EqualFold (Field.Name f) key || String.eqb (normalize (Field.Name f)) (normalize key).
Fixpoint index_by {A} (p : A → bool) (l : list A) : option nat :=
  match l with [] => None | x :: l' => if p x then Some 0%nat else S <$> index_by p l' end.
(** The field of that name, else the first that passes the second test. *)
Definition find_field (second : Field.t → bool) (key : string) (fs : list (Field.t * gval)) : option nat :=
  match index_by (λ fv, String.eqb (Field.Name fv.1) key) fs with
  | Some i => Some i
  | None => index_by (λ fv, second fv.1) fs
  end.
Definition tag_field (key : string) (f : Field.t) : bool := String.eqb (json_tag f) key.

(** A value reached from the target: may it be assigned ([addr]), did the way
    to it cross an unexported field ([ro]), and the target with another value in
    its place. *)
Record Place := mkPlace { p_val : gval; p_addr : bool; p_ro : bool; p_put : gval → gval }.
Definition root (v : gval) : Place := mkPlace v true false id.
Definition deref (part : string) (p : Place) : got Place :=
  match p_val p with
  | VPtr ty (Some v) => Got (mkPlace v true (p_ro p) (λ x, p_put p (VPtr ty (Some x))))
  | VPtr _ None => GotErr (NilPointer part)
  | _ => Got p
  end.
Definition set_key (key : string) (x : gval) (m : list (string * gval)) : list (string * gval) :=
  match index_by (λ kv, String.eqb kv.1 key) m with
  | Some i => <[i := (key, x)]> m
  | None => m ++ [(key, x)]
  end.
Definition get_key (key : string) (m : list (string * gval)) : option gval := snd <$> List.find (λ kv, String.eqb kv.1 key) m.
Definition set_field (i : nat) (x : gval) (fs : list (Field.t * gval)) : list (Field.t * gval) := alter (λ fv, (fv.1, x)) i fs.
(** The index a part stands for. *)
Definition slice_index (part : string) (n : nat) : got nat :=
  match Atoi part with
  | None => GotErr (IndexNotInt part)
  | Some idx => if (idx <? 0) || (Z.of_nat n <=? idx) then GotErr (IndexOut idx) else Got (Z.to_nat idx)
  end.
Definition child (part : string) (p : Place) : got Place :=
  match p_val p with
  | VMap ty elem m =>
      match get_key part (default [] m) with
      | None => GotErr (MapKeyMissing part)
      | Some v => Got (mkPlace v false (p_ro p) (λ x, p_put p (VMap ty elem (Some (set_key part x (default [] m))))))
      end
  | VSlice ty elem l =>
      match slice_index part (length l) with
      | Got i => match l !! i with
                 | Some v => Got (mkPlace v true (p_ro p) (λ x, p_put p (VSlice ty elem (<[i := x]> l))))
                 | None => GotErr BadKind
                 end
      | GotErr e => GotErr e
      | GotPanic => GotPanic
      end
  | VStruct ty fs =>
      match find_field (loose_field part) part fs with
      | Some i => match fs !! i with
                  | Some (f, v) => Got (mkPlace v (p_addr p) (p_ro p || negb (Field.Exported f)) (λ x, p_put p (VStruct ty (set_field i x fs))))
                  | None => GotErr BadKind
                  end
      | None => GotErr (FieldMissing part)
      end
  | _ => GotErr BadKind
  end.
(** The container of the last part, and that part. *)
Fixpoint navigate (p : Place) (parts : list string) : got (Place * string) :=
  match parts with
  | [] => Got (p, "")
  | part :: rest =>
      match deref part p with
      | GotErr e => GotErr e
      | GotPanic => GotPanic
      | Got p =>
          match rest with
          | [] => Got (p, part)
          | _ => match child part p with Got c => navigate c rest | GotErr e => GotErr e | GotPanic => GotPanic end
          end
      end
  end.
(** One more pointer is followed at the container. *)
Definition under_ptr (p : Place) : Place :=
  match p_val p with VPtr ty (Some v) => mkPlace v true (p_ro p) (λ x, p_put p (VPtr ty (Some x))) | _ => p end.
Definition navigateValue (p : Place) (parts : list string) : got Place :=
  match parts with
  | [] => Got p
  | _ => match navigate p parts with
         | Got (parent, key) => child key (under_ptr parent)
         | GotErr e => GotErr e
         | GotPanic => GotPanic
         end
  end.

(** ** Changing the place *)

Definition iface : string := "interface {}".
Definition assignable (x : gval) (ty : string) : bool := String.eqb (type_of x) ty || String.eqb ty iface.
Definition boxed (x : gval) (ty : string) : gval :=
  if String.eqb (type_of x) ty then x else VIface ty (Some x).
Definition setLeaf (v0 : gval) (parent : Place) (key : string) (x : gval) : outcome OpError gval :=
  let p := under_ptr parent in
  match p_val p with
  | VMap ty elem m =>
      match m with
      | None => Panics
      | Some m => if p_ro p || negb (assignable x elem) then Panics else Done (p_put p (VMap ty elem (Some (set_key key (boxed x elem) m))))
      end
  | VSlice ty elem l =>
      match Atoi key with
      | None =>
          if String.eqb key "-" then
            if p_ro p || negb (p_addr p) || negb (assignable x elem) then Panics else Done (p_put p (VSlice ty elem (l ++ [boxed x elem])))
          else Failed v0 (IndexNotInt key)
      | Some idx =>
          if (idx <? 0) || (Z.of_nat (length l) <? idx) then Failed v0 (IndexOut idx)
          else if p_ro p || negb (p_addr p) || negb (assignable x elem) then Panics
          else Done (p_put p (VSlice ty elem (take (Z.to_nat idx) l ++ boxed x elem :: drop (Z.to_nat idx) l)))
      end
  | VStruct ty fs =>
      match find_field (loose_field key) key fs with
      | None => Failed v0 (FieldMissing key)
      | Some i =>
          match fs !! i with
          | Some (f, _) =>
              if p_addr p && negb (p_ro p || negb (Field.Exported f))
              then if assignable x (Field.Type_ f) then Done (p_put p (VStruct ty (set_field i (boxed x (Field.Type_ f)) fs))) else Panics
              else Failed v0 (FieldMissing key)
          | None => Failed v0 BadKind
          end
      end
  | _ => Failed v0 BadKind
  end.

Section patch.
Context {J : Type} `{EqDecision J} (decode : string → string → option gval) (zero : string → gval).
Context (to_json : gval → option J) (parse : string → option J).

Definition parts_of (path : string) : list string := split_on slash (TrimPrefix path "/").
Definition target_type (parent : Place) (key : string) : option string :=
  match p_val parent with
  | VMap _ elem _ | VSlice _ elem _ => Some elem
  | VStruct _ fs => i ← find_field (loose_field key) key fs; (λ fv, Field.Type_ fv.1) <$> fs !! i
  | _ => None
  end.
Definition applyAddReplace (op : PatchOp.t) (v : gval) (parts : list string) : outcome OpError gval :=
  match parts with
  | [] => Failed v RootOp
  | _ =>
      match navigate (root v) parts with
      | GotErr e => Failed v e
      | GotPanic => Panics
      | Got (parent, key) =>
          match target_type parent key with
          | None => Failed v (NoTargetType (PatchOp.Path op))
          | Some ty => match decode ty (PatchOp.Value op) with
                       | None => Failed v (Undecodable (PatchOp.Path op))
                       | Some x => setLeaf v parent key x
                       end
          end
      end
  end.
Definition applyRemove (v : gval) (parts : list string) : outcome OpError gval :=
  match parts with
  | [] => Failed v RootOp
  | _ =>
      match navigate (root v) parts with
      | GotErr e => Failed v e
      | GotPanic => Panics
      | Got (p, key) =>
          match p_val p with
          | VMap ty elem m =>
              if p_ro p then Panics
              else Done (p_put p (VMap ty elem ((λ m, filter (λ kv, kv.1 ≠ key) m) <$> m)))
          | VSlice ty elem l =>
              match slice_index key (length l) with
              | GotErr e => Failed v e
              | GotPanic => Panics
              | Got i => if p_ro p || negb (p_addr p) then Panics else Done (p_put p (VSlice ty elem (delete i l)))
              end
          | VStruct ty fs =>
              match find_field (tag_field key) key fs with
              | None => Failed v (FieldMissing key)
              | Some i =>
                  match fs !! i with
                  | Some (f, _) =>
                      if p_addr p && negb (p_ro p || negb (Field.Exported f)) then Done (p_put p (VStruct ty (set_field i (zero (Field.Type_ f)) fs)))
                      else Failed v (FieldMissing key)
                  | None => Failed v BadKind
                  end
              end
          | _ => Failed v BadKind
          end
      end
  end.
Definition applyTest (op : PatchOp.t) (v : gval) (parts : list string) : outcome OpError gval :=
  match navigateValue (root v) parts with
  | GotErr _ => Failed v (TestPathMissing (PatchOp.Path op))
  | GotPanic => Panics
  | Got p =>
      if p_ro p then Panics
      else match to_json (p_val p), parse (PatchOp.Value op) with
           | Some v1, Some v2 => if decide (v1 = v2) then Done v else Failed v (TestMismatch (PatchOp.Path op))
           | _, _ => Failed v EncodeFailed
           end
  end.
(** The removal stays when the target cannot be reached. *)
Definition applyMove (op : PatchOp.t) (v : gval) (parts : list string) : outcome OpError gval :=
  let fromParts := parts_of (PatchOp.From op) in
  match navigateValue (root v) fromParts with
  | GotErr _ => Failed v (FromMissing (PatchOp.From op))
  | GotPanic => Panics
  | Got from =>
      if p_ro from then Panics
      else match applyRemove v fromParts with
           | Done v1 =>
               match navigate (root v1) parts with
               | GotErr e => Failed v1 e
               | GotPanic => Panics
               | Got (parent, key) => setLeaf v1 parent key (p_val from)
               end
           | out => out
           end
  end.
Definition applyCopy (op : PatchOp.t) (v : gval) (parts : list string) : outcome OpError gval :=
  match navigateValue (root v) (parts_of (PatchOp.From op)) with
  | GotErr _ => Failed v (FromMissing (PatchOp.From op))
  | GotPanic => Panics
  | Got from =>
      match navigate (root v) parts with
      | GotErr e => Failed v e
      | GotPanic => Panics
      | Got (parent, key) =>
          if p_ro from then match setLeaf v parent key (p_val from) with Failed v e => Failed v e | _ => Panics end
          else if flat (p_val from) then setLeaf v parent key (p_val from)
          else match setLeaf v parent key (p_val from) with Done _ => Shares | out => out end
      end
  end.

Definition Apply (op : PatchOp.t) (v : gval) : outcome OpError gval :=
  let parts := match parts_of (PatchOp.Path op) with [""%string] => [] | parts => parts end in
  let o := PatchOp.Op op in
  if decide (o ∈ [OpAdd; OpReplace]) then applyAddReplace op v parts
  else if decide (o = OpRemove) then applyRemove v parts
  else if decide (o = OpTest) then applyTest op v parts
  else if decide (o = OpMove) then applyMove op v parts
  else if decide (o = OpCopy) then applyCopy op v parts
  else Failed v (Unsupported o).
End patch.

(** ** Finding and replacing *)

Lemma index_by_lookup {A} (p : A → bool) l i : index_by p l = Some i → ∃ x, l !! i = Some x ∧ p x = true.
Proof.
  revert i. induction l as [|y l IH]; intros i; cbn; [done|]. destruct (p y) eqn:Hp; [intros [= <-]; by exists y|].
  intros (j & Hj & ->)%fmap_Some. by apply IH.
Qed.
Lemma index_by_insert {A} (p : A → bool) l i x : index_by p l = Some i → p x = true → index_by p (<[i := x]> l) = Some i.
Proof.
  revert i. induction l as [|y l IH]; intros i; cbn; [done|]. destruct (p y) eqn:Hp; [intros [= <-] Hx; cbn; by rewrite Hx|].
  intros (j & Hj & ->)%fmap_Some Hx. change (<[S j := x]> (y :: l)) with (y :: <[j := x]> l). cbn [index_by]. by rewrite Hp, (IH j).
Qed.
Lemma index_by_find {A} (p : A → bool) l : List.find p l = index_by p l ≫= (l !!.).
Proof. induction l as [|y l IH]; cbn; [done|]. destruct (p y); [done|]. rewrite IH. by destruct (index_by p l). Qed.
Lemma index_by_app {A} (p : A → bool) l x : index_by p l = None → p x = true → index_by p (l ++ [x]) = Some (length l).
Proof. induction l as [|y l IH]; cbn; [by intros _ ->|]. destruct (p y); [done|]. intros Hn Hx. apply fmap_None in Hn. by rewrite IH. Qed.
(** Searches that look at the first component only. *)
Lemma index_by_fst {A B} (p : A → bool) (l l' : list (A * B)) : l.*1 = l'.*1 → index_by (λ fv, p fv.1) l = index_by (λ fv, p fv.1) l'.
Proof.
  revert l'. induction l as [|[f x] l IH]; intros [|[f' x'] l']; cbn; try done. intros [= -> Hl].
  destruct (p f'); [done|]. f_equal. by apply IH.
Qed.

Lemma get_set_key key x m : get_key key (set_key key x m) = Some x.
Proof.
  unfold get_key, set_key. destruct (index_by _ m) as [i|] eqn:E.
  - rewrite index_by_find, (index_by_insert _ _ _ _ E) by apply String.eqb_refl. cbn.
    destruct (index_by_lookup _ _ _ E) as (kv & Hkv & _). rewrite list_lookup_insert_eq; [done|by eapply lookup_lt_Some].
  - rewrite index_by_find, index_by_app by (done || apply String.eqb_refl). cbn. by rewrite list_lookup_middle.
Qed.
Lemma set_field_fst i x fs : (set_field i x fs).*1 = fs.*1.
Proof. unfold set_field. revert i. induction fs as [|[f y] fs IH]; intros [|i]; cbn; [done..|]. f_equal. apply IH. Qed.
Lemma find_field_set second key i x fs : find_field second key (set_field i x fs) = find_field second key fs.
Proof.
  unfold find_field. rewrite !(index_by_fst (λ f, String.eqb (Field.Name f) key) (set_field i x fs) fs) by apply set_field_fst.
  by rewrite (index_by_fst second (set_field i x fs) fs) by apply set_field_fst.
Qed.
Lemma set_field_lookup i f x y fs : fs !! i = Some (f, y) → set_field i x fs !! i = Some (f, x).
Proof. intros H. unfold set_field. by rewrite list_lookup_alter_eq, H. Qed.
Lemma find_field_lookup second key fs i : find_field second key fs = Some i → is_Some (fs !! i).
Proof.
  unfold find_field. destruct (index_by _ fs) as [j|] eqn:E.
  - intros [= <-]. by destruct (index_by_lookup _ _ _ E) as (? & ? & _).
  - intros H. by destruct (index_by_lookup _ _ _ H) as (? & ? & _).
Qed.
Lemma slice_index_lt part n i : slice_index part n = Got i → (i < n)%nat ∧ Atoi part = Some (Z.of_nat i).
Proof.
  unfold slice_index. destruct (Atoi part) as [z|]; [|done]. destruct (_ || _) eqn:E; [done|]. intros [= <-].
  apply orb_false_iff in E as [?%Z.ltb_ge ?%Z.leb_gt]. split; [lia|]. by rewrite Z2Nat.id by lia.
Qed.

(** ** What was put in place is found there *)

Definition is_ptr (v : gval) : bool := match v with VPtr _ _ => true | _ => false end.
(** [q] was reached from [p] by the same steps that reach it once its value is
    replaced. *)
Definition leads (p q : Place) (go : Place → got Place) : Prop :=
  ∃ f, (∀ x, p_put q x = p_put p (f x)) ∧
    ∀ x p', p_val p' = f x → p_addr p' = p_addr p → p_ro p' = p_ro p →
      ∃ q', go p' = Got q' ∧ p_val q' = x ∧ p_addr q' = p_addr q ∧ p_ro q' = p_ro q.

Lemma deref_leads part p q : deref part p = Got q → is_ptr (p_val q) = false → 
  ∃ f, (∀ x, p_put q x = p_put p (f x)) ∧
    ∀ x p', is_ptr x = false → p_val p' = f x → p_addr p' = p_addr p → p_ro p' = p_ro p →
      ∃ q', deref part p' = Got q' ∧ p_val q' = x ∧ p_addr q' = p_addr q ∧ p_ro q' = p_ro q.
Proof.
  unfold deref. destruct (p_val p) as [| |ty [v|]| | |] eqn:Hv; try done.
  all: try (intros [= <-] _; exists id; split; [done|]; intros x p' Hx Hp' Ha Hr; exists p'; cbn in Hp'; rewrite Hp'; split; [by destruct x|done]).
  intros [= <-] _. exists (λ x, VPtr ty (Some x)). split; [done|]. intros x p' _ -> Ha Hr. by eexists.
Qed.
Lemma child_leads part p q : child part p = Got q → leads p q (child part).
Proof.
  unfold child. destruct (p_val p) as [| | |ty elem m|ty elem l|ty fs] eqn:Hv; try done.
  - destruct (get_key part _) as [v|] eqn:Hg; [|done]. intros [= <-].
    exists (λ x, VMap ty elem (Some (set_key part x (default [] m)))). split; [done|]. intros x p' -> Ha Hr.
    change (default [] (Some ?m)) with m. rewrite get_set_key. by eexists.
  - destruct (slice_index part (length l)) as [i| |] eqn:Hi; try done. destruct (l !! i) as [v|] eqn:Hl; [|done]. intros [= <-].
    exists (λ x, VSlice ty elem (<[i := x]> l)). split; [done|]. intros x p' -> Ha Hr. rewrite length_insert, Hi.
    rewrite list_lookup_insert_eq by by eapply lookup_lt_Some. by eexists.
  - destruct (find_field _ part fs) as [i|] eqn:Hf; [|done]. destruct (fs !! i) as [[f v]|] eqn:Hl; [|done]. intros [= <-].
    exists (λ x, VStruct ty (set_field i x fs)). split; [done|]. intros x p' -> Ha Hr. rewrite find_field_set, Hf.
    rewrite (set_field_lookup _ _ _ _ _ Hl). eexists. by rewrite Ha, Hr.
Qed.

(** The container that [navigate] finds, with its parts left to right. *)
Lemma navigate_leads parts : ∀ p q key, parts ≠ [] → navigate p parts = Got (q, key) → is_ptr (p_val q) = false →
  ∃ f, (∀ x, p_put q x = p_put p (f x)) ∧
    ∀ x p', is_ptr x = false → p_val p' = f x → p_addr p' = p_addr p → p_ro p' = p_ro p →
      ∃ q', navigate p' parts = Got (q', key) ∧ p_val q' = x ∧ p_addr q' = p_addr q ∧ p_ro q' = p_ro q.
Proof.
  induction parts as [|part rest IH]; [done|]. intros p q key _. cbn [navigate].
  destruct (deref part p) as [d| |] eqn:Hd; try done. destruct rest as [|part' rest].
  - intros [= <- <-] Hptr. destruct (deref_leads _ _ _ Hd Hptr) as (f & Hf & Hgo). exists f. split; [done|].
    intros x p' Hx Hp' Ha Hr. destruct (Hgo x p' Hx Hp' Ha Hr) as (q' & -> & ?). by exists q'.
  - destruct (child part d) as [c| |] eqn:Hc; try done. intros Hn Hptr.
    destruct (IH c q key) as (g & Hg & Hgo); [done..|]. destruct (child_leads _ _ _ Hc) as (h & Hh & Hgoc).
    assert (is_ptr (p_val d) = false) as Hdp by (unfold child in Hc; by destruct (p_val d)).
    destruct (deref_leads _ _ _ Hd Hdp) as (f & Hf & Hgod). exists (λ x, f (h (g x))). split; [intros x; by rewrite Hg, Hh, Hf|].
    intros x p' Hx Hp' Ha Hr.
    assert (is_ptr (h (g x)) = false) as Hhp.
    { destruct (Hgoc (g x) (mkPlace (h (g x)) (p_addr d) (p_ro d) id)) as (c' & Hc' & _); [done..|]. unfold child in Hc'. cbn [p_val] in Hc'. by destruct (h (g x)). }
    destruct (Hgod _ p' Hhp Hp' Ha Hr) as (d' & -> & Hd1 & Hd2 & Hd3). destruct (Hgoc _ d' Hd1 Hd2 Hd3) as (c' & -> & Hc1 & Hc2 & Hc3).
    by apply Hgo.
Qed.

Lemma navigate_key parts : ∀ p q key, navigate p parts = Got (q, key) → parts ≠ [] → last parts = Some key.
Proof.
  induction parts as [|part rest IH]; [done|]. intros p q key. cbn [navigate]. destruct (deref part p) as [d| |]; try done.
  destruct rest as [|part' rest]; [by intros [= _ <-]|]. destruct (child part d) as [c| |]; try done. intros Hn _. by rewrite last_cons, (IH _ _ _ Hn).
Qed.
Lemma boxed_same x ty : type_of x = ty → boxed x ty = x.
Proof. intros <-. unfold boxed. by rewrite String.eqb_refl. Qed.
(** The container with the new value, in which the value is found. *)
Lemma setLeaf_found v0 p key x ty v' : is_ptr (p_val p) = false → target_type p key = Some ty → type_of x = ty → key ≠ "-" →
  setLeaf v0 p key x = Done v' →
  ∃ c, v' = p_put p c ∧ is_ptr c = false ∧
    ∀ p', p_val p' = c → p_addr p' = p_addr p → p_ro p' = p_ro p → ∃ q, child key (under_ptr p') = Got q ∧ p_val q = x ∧ p_ro q = false.
Proof.
  intros Hptr Hty Hx Hkey. unfold setLeaf. assert (under_ptr p = p) as -> by (unfold under_ptr; by destruct (p_val p)).
  unfold target_type in Hty. destruct (p_val p) as [| | |ty' elem m|ty' elem l|ty' fs] eqn:Hv; try done.
  - destruct m as [m|]; [|done]. destruct (_ || _) eqn:Hro; [done|]. apply orb_false_iff in Hro as [Hro _]. intros [= <-].
    injection Hty as ->. rewrite boxed_same by done. eexists. split_and!; [done..|]. intros p' Hp' Ha Hr.
    unfold under_ptr. rewrite Hp'. unfold child. rewrite Hp'. change (default [] (Some ?m)) with m. rewrite get_set_key.
    eexists. split_and!; [done|done|]. cbn. by rewrite Hr.
  - injection Hty as ->. rewrite boxed_same by done. destruct (Atoi key) as [idx|] eqn:Hat; [|by destruct (String.eqb_spec key "-")].
    destruct (_ || _) eqn:Hidx in |- *; [done|]. apply orb_false_iff in Hidx as [?%Z.ltb_ge ?%Z.ltb_ge].
    destruct (_ || _ || _) eqn:Hro; [done|]. apply orb_false_iff in Hro as [[Hro _]%orb_false_iff _]. intros [= <-].
    eexists. split_and!; [done..|]. intros p' Hp' Ha Hr. unfold under_ptr. rewrite Hp'. unfold child. rewrite Hp'.
    unfold slice_index. rewrite Hat, length_app, length_take. cbn [length]. rewrite length_drop.
    destruct (_ || _) eqn:Hb in |- *; [apply orb_true_iff in Hb as [?%Z.ltb_lt|?%Z.leb_le]; lia|].
    rewrite lookup_app_r, length_take, Nat.min_l, Nat.sub_diag by (rewrite ?length_take; lia). cbn [lookup list_lookup].
    eexists. split_and!; [done|done|]. cbn. by rewrite Hr.
  - destruct (find_field _ key fs) as [i|] eqn:Hf; [|done]. destruct (fs !! i) as [[f y]|] eqn:Hl; [|done]. cbn in Hty. rewrite Hl in Hty.
    injection Hty as Hty. destruct (_ && _) eqn:Hset; [|done]. destruct (assignable _ _); [|done]. intros [= <-].
    cbn in Hty. rewrite boxed_same by congruence. eexists. split_and!; [done..|]. intros p' Hp' Ha Hr. unfold under_ptr. rewrite Hp'.
    unfold child. rewrite Hp', find_field_set, Hf, (set_field_lookup _ _ _ _ _ Hl). eexists. split_and!; [done|done|]. cbn. rewrite Hr.
    apply andb_true_iff in Hset as [_ Hset]. by apply negb_true_iff in Hset.
Qed.

(** ** What a patch does, said of the tree *)

(** [w] is [v] but at the end of a path, where the container [c] of the last part
    became [c'] with [R key c c']: pointers are looked through, a map has its key, a
    slice its index, a struct its field; everything off the path stays. *)
Inductive at_path (R : string → gval → gval → Prop) : list string → gval → gval → Prop :=
| at_here key c c' : R key c c' → at_path R [key] c c'
| at_ptr ty parts x x' : at_path R parts x x' → at_path R parts (VPtr ty (Some x)) (VPtr ty (Some x'))
| at_map ty elem m part rest x x' : get_key part m = Some x → at_path R rest x x' →
    at_path R (part :: rest) (VMap ty elem (Some m)) (VMap ty elem (Some (set_key part x' m)))
| at_slice ty elem l part rest i x x' : Atoi part = Some (Z.of_nat i) → l !! i = Some x → at_path R rest x x' →
    at_path R (part :: rest) (VSlice ty elem l) (VSlice ty elem (<[i := x']> l))
| at_struct ty fs part rest i f x x' : find_field (loose_field part) part fs = Some i → fs !! i = Some (f, x) → at_path R rest x x' →
    at_path R (part :: rest) (VStruct ty fs) (VStruct ty (set_field i x' fs)).
(** The value [x], boxed where an interface is asked for, comes to stand at [key]:
    in a map under the key, the other keys as they were; in a slice at the index, the
    rest moved up, or at the end; in a struct in its exported field. *)
Inductive placed (x : gval) (key : string) : gval → gval → Prop :=
| placed_map ty elem m m' : assignable x elem = true → get_key key m' = Some (boxed x elem) → (∀ k, k ≠ key → get_key k m' = get_key k m) →
    placed x key (VMap ty elem (Some m)) (VMap ty elem (Some m'))
| placed_slice ty elem l1 l2 : assignable x elem = true → (Atoi key = Some (Z.of_nat (length l1)) ∨ key = "-" ∧ l2 = []) →
    placed x key (VSlice ty elem (l1 ++ l2)) (VSlice ty elem (l1 ++ boxed x elem :: l2))
| placed_field ty fs i f y : find_field (loose_field key) key fs = Some i → fs !! i = Some (f, y) → Field.Exported f = true →
    assignable x (Field.Type_ f) = true → placed x key (VStruct ty fs) (VStruct ty (set_field i (boxed x (Field.Type_ f)) fs)).
(** What stood at [key] is gone: its key, its element, or the value of its field. *)
Inductive removed (zero : string → gval) (key : string) : gval → gval → Prop :=
| removed_nil ty elem : removed zero key (VMap ty elem None) (VMap ty elem None)
| removed_key ty elem m m' : get_key key m' = None → (∀ k, k ≠ key → get_key k m' = get_key k m) →
    removed zero key (VMap ty elem (Some m)) (VMap ty elem (Some m'))
| removed_index ty elem l1 x l2 : Atoi key = Some (Z.of_nat (length l1)) → removed zero key (VSlice ty elem (l1 ++ x :: l2)) (VSlice ty elem (l1 ++ l2))
| removed_field ty fs i f y : find_field (tag_field key) key fs = Some i → fs !! i = Some (f, y) → Field.Exported f = true →
    removed zero key (VStruct ty fs) (VStruct ty (set_field i (zero (Field.Type_ f)) fs)).

Lemma get_set_other key x m k : k ≠ key → get_key k (set_key key x m) = get_key k m.
Proof.
  intros Hne. unfold get_key, set_key. f_equal. destruct (index_by _ m) as [i|] eqn:E.
  - revert i E. induction m as [|[k' y] m IH]; intros i; cbn; [done|]. destruct (String.eqb_spec k' key) as [->|Hk].
    + intros [= <-]. cbn. by rewrite (proj2 (String.eqb_neq key k)) by congruence.
    + intros (j & Hj & ->)%fmap_Some. change (<[S j := (key, x)]> ((k', y) :: m)) with ((k', y) :: <[j := (key, x)]> m). cbn. destruct (String.eqb k' k); [done|by apply IH].
  - clear E. induction m as [|[k' y] m IH]; cbn; [by rewrite (proj2 (String.eqb_neq key k)) by congruence|]. by destruct (String.eqb k' k).
Qed.
Lemma get_key_removed key k (m : list (string * gval)) : get_key k (filter (λ kv, kv.1 ≠ key) m) = if decide (k = key) then None else get_key k m.
Proof.
  unfold get_key. induction m as [|[k' y] m IH]; [by destruct (decide _)|]. rewrite filter_cons. cbn [fst]. destruct (decide (k' ≠ key)) as [Hk|Hk].
  - cbn. destruct (String.eqb_spec k' k) as [->|Hn]; [by rewrite decide_False|exact IH].
  - apply dec_stable in Hk as ->. rewrite IH. cbn. destruct (String.eqb_spec key k) as [->|Hn]; [by rewrite !decide_True|done].
Qed.
Lemma at_path_nest R parts v w : at_path (λ key, at_path R [key]) parts v w → at_path R parts v w.
Proof. induction 1; [done|by constructor|by apply at_map with x|by apply at_slice with x|by apply at_struct with f x]. Qed.
Lemma at_path_parts R parts v w : at_path R parts v w → parts ≠ [].
Proof. by induction 1. Qed.
Lemma at_path_key R key c c' : is_ptr c = false → at_path R [key] c c' → R key c c'.
Proof. intros Hc H. inversion H; subst; [done..| | |]; match goal with H : at_path _ [] _ _ |- _ => by apply at_path_parts in H end. Qed.
(** A path with its end changed is the root with a path changed. *)
Lemma navigate_at R parts : ∀ p q key c', parts ≠ [] → navigate p parts = Got (q, key) → R key (p_val q) c' →
  ∃ w, p_put q c' = p_put p w ∧ at_path R parts (p_val p) w.
Proof.
  induction parts as [|part rest IH]; intros p q key c' Hne; [done|]. cbn [navigate].
  assert (∀ d, deref part p = Got d → (match rest with [] => Got (d, part) | _ => match child part d with Got c => navigate c rest | GotErr e => GotErr e | GotPanic => GotPanic end end) = Got (q, key) →
    R key (p_val q) c' → ∃ w, p_put q c' = p_put d w ∧ at_path R (part :: rest) (p_val d) w) as Hd.
  { intros d _ Hn HR. destruct rest as [|part' rest]; [injection Hn as <- <-; exists c'; by split; [|constructor]|].
    unfold child in Hn. destruct (p_val d) as [| | |ty elem m|ty elem l|ty fs] eqn:Hv; try discriminate Hn.
    - destruct (get_key part _) as [v|] eqn:Hg; [|discriminate Hn]. destruct (IH _ q key c' ltac:(done) Hn HR) as (w & Hw1 & Hw2).
      destruct m as [m|]; [|discriminate Hg]. exists (VMap ty elem (Some (set_key part w m))). split; [exact Hw1|by apply at_map with v].
    - destruct (slice_index part (length l)) as [i| |] eqn:Hi; try discriminate Hn. destruct (l !! i) as [v|] eqn:Hl; [|discriminate Hn].
      destruct (IH _ q key c' ltac:(done) Hn HR) as (w & Hw1 & Hw2). exists (VSlice ty elem (<[i := w]> l)). split; [exact Hw1|].
      apply at_slice with v; [by apply slice_index_lt in Hi as [_ ?]|done..].
    - destruct (find_field _ part fs) as [i|] eqn:Hf; [|discriminate Hn]. destruct (fs !! i) as [[f v]|] eqn:Hl; [|discriminate Hn].
      destruct (IH _ q key c' ltac:(done) Hn HR) as (w & Hw1 & Hw2). exists (VStruct ty (set_field i w fs)). split; [exact Hw1|by apply at_struct with f v]. }
  destruct (deref part p) as [d| |] eqn:Ed; [|done..]. intros Hn HR. destruct (Hd d eq_refl Hn HR) as (w & Hw1 & Hw2). clear Hd. unfold deref in Ed.
  destruct (p_val p) as [| |ty [v|]| | |] eqn:Hv; try (injection Ed as <-; exists w; split; [exact Hw1|by rewrite <- Hv]); [|done].
  injection Ed as <-. exists (VPtr ty (Some w)). split; [exact Hw1|by apply at_ptr].
Qed.
Lemma setLeaf_at v0 p key x v' : setLeaf v0 p key x = Done v' → ∃ c', v' = p_put p c' ∧ at_path (placed x) [key] (p_val p) c'.
Proof.
  assert (∀ u, (∀ c', placed x key (p_val u) c' → ∃ w, p_put u c' = p_put p w ∧ at_path (placed x) [key] (p_val p) w) →
    ∀ c', placed x key (p_val u) c' → v' = p_put u c' → ∃ w, v' = p_put p w ∧ at_path (placed x) [key] (p_val p) w) as Hu
    by (intros u Hu c' Hc ->; by apply Hu).
  unfold setLeaf. specialize (Hu (under_ptr p)). unfold under_ptr in *.
  assert (∀ c', placed x key (p_val (match p_val p with VPtr ty (Some v) => mkPlace v true (p_ro p) (λ x, p_put p (VPtr ty (Some x))) | _ => p end)) c' → ∃ w,
    p_put (match p_val p with VPtr ty (Some v) => mkPlace v true (p_ro p) (λ x, p_put p (VPtr ty (Some x))) | _ => p end) c' = p_put p w ∧ at_path (placed x) [key] (p_val p) w) as H0.
  { intros c'. destruct (p_val p) as [| |ty [v|]| | |] eqn:Hv; try (rewrite Hv; intros Hc; exists c'; by split; [|constructor]).
    intros Hc. exists (VPtr ty (Some c')). split; [done|]. apply at_ptr. by constructor. }
  specialize (Hu H0). clear H0. set (u := match p_val p with VPtr _ (Some _) => _ | _ => p end) in *. clearbody u.
  destruct (p_val u) as [| | |ty elem m|ty elem l|ty fs] eqn:Hv; try done.
  - destruct m as [m|]; [|done]. destruct (_ || _) eqn:E; [done|]. apply orb_false_iff in E as [_ E%negb_false_iff]. intros [= <-].
    eapply Hu; [|reflexivity]. apply placed_map; [exact E|apply get_set_key|by intros k; apply get_set_other].
  - destruct (Atoi key) as [idx|] eqn:Ha.
    + destruct (_ || _) eqn:Eb in |- *; [done|]. apply orb_false_iff in Eb as [?%Z.ltb_ge ?%Z.ltb_ge].
      destruct (_ || _ || _) eqn:E; [done|]. apply orb_false_iff in E as [_ E%negb_false_iff]. intros [= <-]. eapply Hu; [|reflexivity].
      rewrite <- (take_drop (Z.to_nat idx) l) at 1. apply placed_slice; [exact E|left]. rewrite length_take. rewrite Ha. f_equal. lia.
    + destruct (String.eqb_spec key "-") as [->|]; [|done]. destruct (_ || _ || _) eqn:E; [done|]. apply orb_false_iff in E as [_ E%negb_false_iff]. intros [= <-].
      eapply Hu; [|reflexivity]. rewrite <- (app_nil_r l) at 1. apply placed_slice; [exact E|by right].
  - destruct (find_field _ key fs) as [i|] eqn:Hf; [|done]. destruct (fs !! i) as [[f y]|] eqn:Hl; [|done]. destruct (_ && _) eqn:Es; [|done].
    destruct (assignable _ _) eqn:E; [|done]. intros [= <-]. eapply Hu; [|reflexivity]. apply placed_field with y; [done..| |done].
    apply andb_true_iff in Es as [_ Es%negb_true_iff]. by apply orb_false_iff in Es as [_ Es%negb_false_iff].
Qed.

(** ** Types *)

(** What a type name stands for. *)
Inductive gtype := TScalar | TIface | TPtr (elem : string) | TMap (elem : string) | TSlice (elem : string) | TStruct (fields : list Field.t).
Inductive typed (types : string → gtype) : gval → Prop :=
| typed_scalar ty s : types ty = TScalar → typed types (VScalar ty s)
| typed_iface ty v : types ty = TIface → (∀ x, v = Some x → typed types x) → typed types (VIface ty v)
| typed_ptr ty elem v : types ty = TPtr elem → (∀ x, v = Some x → type_of x = elem ∧ typed types x) → typed types (VPtr ty v)
| typed_map ty elem m : types ty = TMap elem → (∀ kv, kv ∈ default [] m → type_of kv.2 = elem ∧ typed types kv.2) → typed types (VMap ty elem m)
| typed_slice ty elem l : types ty = TSlice elem → (∀ x, x ∈ l → type_of x = elem ∧ typed types x) → typed types (VSlice ty elem l)
| typed_struct ty fs : types ty = TStruct fs.*1 → (∀ fv, fv ∈ fs → type_of fv.2 = Field.Type_ fv.1 ∧ typed types fv.2) → typed types (VStruct ty fs).

Section typing.
Context (types : string → gtype) (Hiface : types iface = TIface).
Notation has_type ty x := (type_of x = ty ∧ typed types x).
(** A place of the target of type [T]. *)
Definition place_ok (T : string) (p : Place) : Prop :=
  typed types (p_val p) ∧ ∀ x, has_type (type_of (p_val p)) x → has_type T (p_put p x).

Lemma root_ok v : typed types v → place_ok (type_of v) (root v).
Proof. by split. Qed.
Lemma under_ptr_ok T p : place_ok T p → place_ok T (under_ptr p).
Proof.
  intros [Hv Hput]. unfold under_ptr. destruct (p_val p) as [| |ty [v|]| | |] eqn:E; try (split; rewrite ?E; done).
  inversion Hv as [| |? elem ? Hty Hx| | |]; subst. destruct (Hx v eq_refl) as [<- Hxv]. split; [done|]. cbn. intros x [Hx1 Hx2].
  apply Hput. split; [done|]. eapply typed_ptr; [done|]. intros ? [= <-]. done.
Qed.
Lemma deref_ok T part p q : place_ok T p → deref part p = Got q → place_ok T q.
Proof.
  intros Hp. pose proof (under_ptr_ok T p Hp) as Hu. unfold deref, under_ptr in *. destruct (p_val p) as [| |ty [v|]| | |]; by intros [= <-].
Qed.
Lemma set_key_elem key x m kv : kv ∈ set_key key x m → kv ∈ m ∨ kv.2 = x.
Proof.
  unfold set_key. destruct (index_by _ m) as [i|].
  - intros (j & Hj)%list_elem_of_lookup. destruct (decide (i = j)) as [->|Hne].
    + apply list_lookup_insert_Some in Hj as [(_ & <- & _)|[]]; [by right|done].
    + rewrite list_lookup_insert_ne in Hj by done. left. by eapply list_elem_of_lookup_2.
  - intros [?| ->%list_elem_of_singleton]%elem_of_app; [by left|by right].
Qed.
Lemma set_field_elem i x fs fv : fv ∈ set_field i x fs → fv ∈ fs ∨ ∃ y, fs !! i = Some (fv.1, y) ∧ fv.2 = x.
Proof.
  unfold set_field. intros (j & Hj)%list_elem_of_lookup. destruct (decide (i = j)) as [->|Hne].
  - rewrite list_lookup_alter_eq in Hj. apply fmap_Some in Hj as ([f y] & Hy & ->). right. by exists y.
  - rewrite list_lookup_alter_ne in Hj by done. left. by eapply list_elem_of_lookup_2.
Qed.
Lemma set_field_typed ty i f x fs : typed types (VStruct ty fs) → (∃ y, fs !! i = Some (f, y)) → has_type (Field.Type_ f) x →
  typed types (VStruct ty (set_field i x fs)).
Proof.
  intros Hv [y Hy] Hx. inversion Hv as [| | | | |? ? Hty Hfs]; subst. constructor; [by rewrite set_field_fst|].
  intros fv [Hin|(z & Hz & ->)]%set_field_elem; [by apply Hfs|]. rewrite Hy in Hz. by injection Hz as <- _.
Qed.
Lemma child_ok T part p q : place_ok T p → child part p = Got q → place_ok T q.
Proof.
  intros [Hv Hput]. unfold child. destruct (p_val p) as [| | |ty elem m|ty elem l|ty fs] eqn:E; try done.
  - destruct (get_key part _) as [v|] eqn:Hg; [|done]. intros [= <-]. inversion Hv as [| | |? ? ? Hty Hm| |]; subst.
    apply fmap_Some in Hg as ([k w] & Hk & ->). apply List.find_some in Hk as [Hk _]. apply list_elem_of_In in Hk.
    destruct (Hm _ Hk) as [Hw1 Hw2]. split; [done|]. cbn in *. intros x [Hx1 Hx2]. apply Hput. split; [done|].
    apply typed_map; [done|]. intros kv [Hin| ->]%set_key_elem; [by apply Hm|]. by rewrite Hx1.
  - destruct (slice_index part _) as [i| |]; try done. destruct (l !! i) as [v|] eqn:Hl; [|done]. intros [= <-].
    inversion Hv as [| | | |? ? ? Hty Hm|]; subst. destruct (Hm v) as [Hw1 Hw2]; [by eapply list_elem_of_lookup_2|]. split; [done|]. cbn in *.
    intros x [Hx1 Hx2]. apply Hput. split; [done|]. apply typed_slice; [done|]. intros y (j & Hj)%list_elem_of_lookup.
    apply list_lookup_insert_Some in Hj as [(_ & <- & _)|[_ Hj]]; [by rewrite Hx1|]. apply Hm. by eapply list_elem_of_lookup_2.
  - destruct (find_field _ part fs) as [i|]; [|done]. destruct (fs !! i) as [[f v]|] eqn:Hl; [|done]. intros [= <-].
    inversion Hv as [| | | | |? ? Hty Hfs]; subst. destruct (Hfs (f, v)) as [Hw1 Hw2]; [by eapply list_elem_of_lookup_2|]. split; [done|]. cbn in *.
    intros x [Hx1 Hx2]. apply Hput. split; [done|]. eapply set_field_typed; [done|by eexists|]. by rewrite Hx1.
Qed.
Lemma navigate_ok T parts : ∀ p q key, place_ok T p → navigate p parts = Got (q, key) → place_ok T q.
Proof.
  induction parts as [|part rest IH]; intros p q key Hp; cbn [navigate]; [by intros [= <- _]|].
  destruct (deref part p) as [d| |] eqn:Hd; try done. apply (deref_ok T) in Hd; [|done].
  destruct rest as [|part' rest]; [by intros [= <- _]|]. destruct (child part d) as [c| |] eqn:Hc; try done.
  apply IH. by eapply child_ok.
Qed.
Lemma navigateValue_ok T parts p q : place_ok T p → navigateValue p parts = Got q → place_ok T q.
Proof.
  intros Hp. unfold navigateValue. destruct parts as [|part rest]; [by intros [= <-]|].
  destruct (navigate p _) as [[c key]| |] eqn:Hn; try done. intros Hc. eapply child_ok; [|done]. by eapply under_ptr_ok, navigate_ok.
Qed.
(** The target an outcome leaves, if there is one, has the type it had. *)
Definition outcome_ok (T : string) (o : outcome OpError gval) : Prop :=
  match o with Done v | Failed v _ => has_type T v | Panics | Shares => True end.
Lemma boxed_typed x ty : typed types x → assignable x ty = true → has_type ty (boxed x ty).
Proof.
  unfold boxed, assignable. destruct (String.eqb_spec (type_of x) ty); [done|]. cbn. intros Hx ->%String.eqb_eq. split; [done|].
  apply typed_iface; [done|]. by intros ? [= <-].
Qed.
Lemma setLeaf_ok v0 p key x : place_ok (type_of v0) p → typed types v0 → typed types x → outcome_ok (type_of v0) (setLeaf v0 p key x).
Proof.
  intros Hp%under_ptr_ok Hv0 Hx. unfold setLeaf. set (u := under_ptr p) in *. clearbody u. destruct Hp as [Hv Hput].
  destruct (p_val u) as [| | |ty elem m|ty elem l|ty fs] eqn:E; try done.
  - destruct m as [m|]; [|done]. destruct (_ || _) eqn:Hro; [done|]. apply orb_false_iff in Hro as [_ Has%negb_false_iff].
    apply Hput. split; [done|]. inversion Hv as [| | |? ? ? Hty Hm| |]; subst. apply typed_map; [done|].
    intros kv [Hin| ->]%set_key_elem; [by apply Hm|]. by apply boxed_typed.
  - inversion Hv as [| | | |? ? ? Hty Hm|]; subst. destruct (Atoi key) as [idx|].
    + destruct (_ || _) in |- *; [done|]. destruct (_ || _ || _) eqn:Hro; [done|]. apply orb_false_iff in Hro as [_ Has%negb_false_iff].
      apply Hput. split; [done|]. apply typed_slice; [done|]. intros y [Hy|[->|Hy]%elem_of_cons]%elem_of_app; [|by apply boxed_typed|];
        apply Hm; [apply (subseteq_take (Z.to_nat idx) l _ Hy)|apply (subseteq_drop (Z.to_nat idx) l _ Hy)].
    + destruct (String.eqb key "-"); [|done]. destruct (_ || _ || _) eqn:Hro; [done|]. apply orb_false_iff in Hro as [_ Has%negb_false_iff].
      apply Hput. split; [done|]. apply typed_slice; [done|]. intros y [Hy| ->%list_elem_of_singleton]%elem_of_app; [by apply Hm|by apply boxed_typed].
  - destruct (find_field _ key fs) as [i|]; [|done]. destruct (fs !! i) as [[f y]|] eqn:Hl; [|done]. destruct (_ && _); [|done].
    destruct (assignable _ _) eqn:Has; [|done]. apply Hput. split; [done|]. eapply set_field_typed; [done|by eexists|by apply boxed_typed].
Qed.
End typing.

Section properties.
Context {J : Type} `{EqDecision J} (decode : string → string → option gval) (zero : string → gval).
Context (to_json : gval → option J) (parse : string → option J).
Notation Apply := (Apply decode zero to_json parse).

Definition as_test (op : PatchOp.t) : PatchOp.t := PatchOp.mk OpTest (PatchOp.Path op) (PatchOp.From op) (PatchOp.Value op).

(** After an operation that adds or replaces a value has been applied, a
    test of the same value at the same path passes and changes nothing, unless
    the path ends in a dash, which appends to a slice.  Assumed: the value's
    text decodes to a value of the asked type that encodes to the same JSON. *)
Theorem add_then_test op v v' :
  PatchOp.Op op ∈ [OpAdd; OpReplace] → last (parts_of (PatchOp.Path op)) ≠ Some "-" →
  (∀ ty x, decode ty (PatchOp.Value op) = Some x → type_of x = ty ∧ is_Some (to_json x) ∧ to_json x = parse (PatchOp.Value op)) →
  Apply op v = Done v' → Apply (as_test op) v' = Done v'.
Proof.
  intros Hop Hdash Hdec. unfold Patch.Apply. rewrite decide_True by done. cbv zeta.
  rewrite decide_False by (cbn; set_solver). rewrite decide_False by done. rewrite decide_True by done. cbn [as_test PatchOp.Path].
  assert (∀ key, last (match parts_of (PatchOp.Path op) with [""%string] => [] | parts => parts end) = Some key → key ≠ "-"%string) as Hlast.
  { intros key Hk ->. apply Hdash. revert Hk. destruct (parts_of _) as [|[] []]; done. }
  revert Hlast. generalize (match parts_of (PatchOp.Path op) with [""%string] => [] | parts => parts end) as parts. intros parts Hlast.
  destruct parts as [|part rest] eqn:Hparts; [done|]. rewrite <- Hparts in *. unfold applyAddReplace. rewrite Hparts, <- Hparts.
  destruct (navigate (root v) parts) as [[p key]| |] eqn:Hnav; try done. destruct (target_type p key) as [ty|] eqn:Hty; [|done].
  destruct (decode ty _) as [x|] eqn:Hx; [|done]. intros Hset. destruct (Hdec _ _ Hx) as (Htx & [j Hj] & Hjp).
  assert (is_ptr (p_val p) = false) as Hptr by (unfold target_type in Hty; by destruct (p_val p)).
  assert (key ≠ "-"%string) as Hkey by (apply Hlast; eapply navigate_key; [done|by rewrite Hparts]).
  destruct (setLeaf_found _ _ _ _ _ _ Hptr Hty Htx Hkey Hset) as (c & -> & Hcp & Hfound).
  destruct (navigate_leads parts (root v) p key) as (f & Hf & Hgo); [by rewrite Hparts|done..|].
  destruct (Hgo c (root (p_put p c)) Hcp) as (q & Hq & Hq1 & Hq2 & Hq3); [by rewrite Hf|done..|].
  destruct (Hfound q Hq1 Hq2 Hq3) as (q' & Hq' & Hval & Hro).
  unfold applyTest, navigateValue. rewrite Hparts, <- Hparts, Hq, Hq', Hro, Hval, Hj. cbn [as_test PatchOp.Value]. rewrite <- Hjp, Hj. by rewrite decide_True.
Qed.

(** What an operation that is applied does to the target. *)
Inductive patched (op : PatchOp.t) (v v' : gval) : Prop :=
| patched_write : PatchOp.Op op ∈ [OpAdd; OpReplace] →
    at_path (λ key c c', ∃ ty x, target_type (root c) key = Some ty ∧ decode ty (PatchOp.Value op) = Some x ∧ placed x key c c') (parts_of (PatchOp.Path op)) v v' →
    patched op v v'
| patched_remove : PatchOp.Op op = OpRemove → at_path (removed zero) (parts_of (PatchOp.Path op)) v v' → patched op v v'
| patched_test p j : PatchOp.Op op = OpTest → v' = v →
    navigateValue (root v) (match parts_of (PatchOp.Path op) with [""%string] => [] | parts => parts end) = Got p →
    to_json (p_val p) = Some j → parse (PatchOp.Value op) = Some j → patched op v v'
| patched_move from v1 : PatchOp.Op op = OpMove → navigateValue (root v) (parts_of (PatchOp.From op)) = Got from →
    at_path (removed zero) (parts_of (PatchOp.From op)) v v1 → at_path (placed (p_val from)) (parts_of (PatchOp.Path op)) v1 v' → patched op v v'
| patched_copy from : PatchOp.Op op = OpCopy → navigateValue (root v) (parts_of (PatchOp.From op)) = Got from → flat (p_val from) = true →
    at_path (placed (p_val from)) (parts_of (PatchOp.Path op)) v v' → patched op v v'.

Lemma parts_nonempty sep s : split_on sep s ≠ [].
Proof. destruct s as [|a s]; cbn; [done|]. destruct (ascii_dec a sep); [done|]. by destruct (split_on sep s). Qed.
(** The place an operation ends at; the root is its own place, under no name. *)
Lemma set_at op v q key x v0 v' :
  navigate (root v) (match parts_of (PatchOp.Path op) with [""%string] => [] | parts => parts end) = Got (q, key) →
  setLeaf v0 q key x = Done v' → at_path (placed x) (parts_of (PatchOp.Path op)) v v'.
Proof.
  intros Hn (c' & -> & Hc)%setLeaf_at. destruct (match parts_of _ with [""%string] => [] | parts => parts end) as [|part rest] eqn:E.
  - injection Hn as <- <-. assert (parts_of (PatchOp.Path op) = [""%string]) as ->; [|exact Hc].
    destruct (parts_of (PatchOp.Path op)) as [|[|a a'] [|b l]] eqn:Ep; try discriminate E; [|done]. exfalso. by apply (parts_nonempty slash (TrimPrefix (PatchOp.Path op) "/")).
  - assert (parts_of (PatchOp.Path op) = part :: rest) as -> by (destruct (parts_of (PatchOp.Path op)) as [|[|a a'] [|b l]]; done).
    destruct (navigate_at (λ key, at_path (placed x) [key]) (part :: rest) _ _ _ c' ltac:(done) Hn Hc) as (w & Hw1 & Hw2). apply at_path_nest in Hw2. cbn in Hw1, Hw2. by rewrite Hw1.
Qed.
Lemma remove_at v parts v' : applyRemove zero v parts = Done v' → at_path (removed zero) parts v v'.
Proof.
  unfold applyRemove. destruct parts as [|part rest]; [done|]. destruct (navigate (root v) _) as [[p key]| |] eqn:Hn; try done.
  assert (∀ c', removed zero key (p_val p) c' → at_path (removed zero) (part :: rest) v (p_put p c')) as Hat.
  { intros c' Hc. destruct (navigate_at (removed zero) (part :: rest) _ _ _ c' ltac:(done) Hn Hc) as (w & Hw1 & Hw2). cbn in Hw1, Hw2. by rewrite Hw1. }
  destruct (p_val p) as [| | |ty elem m|ty elem l|ty fs]; try done.
  - destruct (p_ro p); [done|]. intros [= <-]. apply Hat. destruct m as [m|]; [|apply removed_nil]. apply removed_key; [|intros k Hk]; rewrite get_key_removed; [by rewrite decide_True|by rewrite decide_False].
  - destruct (slice_index key _) as [i| |] eqn:Hi; try done. destruct (_ || _); [done|]. intros [= <-]. apply Hat. apply slice_index_lt in Hi as [Hlt Ha].
    destruct (lookup_lt_is_Some_2 l i Hlt) as [x Hx]. rewrite <- (take_drop_middle l i x Hx) at 1. rewrite delete_take_drop. apply removed_index.
    rewrite length_take, Nat.min_l by lia. exact Ha.
  - destruct (find_field _ key fs) as [i|] eqn:Hf; [|done]. destruct (fs !! i) as [[f y]|] eqn:Hl; [|done]. destruct (_ && _) eqn:Es; [|done]. intros [= <-].
    apply Hat. apply removed_field with y; [done..|]. apply andb_true_iff in Es as [_ Es%negb_true_iff]. by apply orb_false_iff in Es as [_ Es%negb_false_iff].
Qed.
Lemma setLeaf_fails v0 p key x v' e : setLeaf v0 p key x = Failed v' e → v' = v0.
Proof. unfold setLeaf. destruct (p_val _); repeat (done || case_match); congruence. Qed.
Lemma remove_fails v parts v' e : applyRemove zero v parts = Failed v' e → v' = v.
Proof. unfold applyRemove. repeat (done || case_match); congruence. Qed.

(** C35: An operation that is applied does what it says and nothing else.  Adding and
    replacing put the value, decoded to the type asked for, at the end of the path --
    in a slice both insert it --; removing takes away the key or the element there,
    or leaves a field's zero value; testing changes nothing and finds the value there
    equal; moving removes and then puts, copying puts -- and everything off the path
    stays as it was.  An operation that fails changes nothing, but for a move, which
    may have removed its source.  A panic of the reflect package and a copy that makes
    two places share are neither. *)
Theorem patch_exact op v v' :
  (Apply op v = Done v' → patched op v v') ∧
  (∀ e, Apply op v = Failed v' e → v' = v ∨ PatchOp.Op op = OpMove ∧ at_path (removed zero) (parts_of (PatchOp.From op)) v v').
Proof.
  unfold Patch.Apply. cbv zeta. set (parts := match parts_of (PatchOp.Path op) with [""%string] => [] | parts => parts end).
  assert (parts ≠ [] → parts = parts_of (PatchOp.Path op)) as Hparts by (unfold parts; destruct (parts_of (PatchOp.Path op)) as [|[|a a'] [|b l]]; done).
  repeat case_decide.
  - split; [intros K|intros e K; left].
    + unfold applyAddReplace in K. destruct parts as [|part rest] eqn:Ep; [discriminate K|]. rewrite (Hparts ltac:(done)) in *.
      destruct (navigate (root v) _) as [[p key]| |] eqn:Hn; try discriminate K. destruct (target_type p key) as [ty|] eqn:Ht; [|discriminate K].
      destruct (decode ty _) as [x|] eqn:Hx; [|discriminate K]. apply patched_write; [done|]. apply setLeaf_at in K as (c' & -> & Hc).
      assert (is_ptr (p_val p) = false) as Hp by (unfold target_type in Ht; by destruct (p_val p)).
      set (R := λ key c c', ∃ ty x, target_type (root c) key = Some ty ∧ decode ty (PatchOp.Value op) = Some x ∧ placed x key c c').
      assert (R key (p_val p) c') as HR by (exists ty, x; split_and!; [exact Ht|exact Hx|by apply at_path_key]).
      destruct (navigate_at R (parts_of (PatchOp.Path op)) _ _ _ c' ltac:(by rewrite <- Hparts) Hn HR) as (w & Hw1 & Hw2). cbn in Hw1, Hw2. by rewrite Hw1.
    + unfold applyAddReplace in K. repeat (done || case_match); try congruence. by eapply setLeaf_fails.
  - split; [intros K|intros e K; left; by eapply remove_fails].
    destruct parts as [|part rest]; [discriminate K|]. rewrite (Hparts ltac:(done)) in K. apply patched_remove; [done|by apply remove_at].
  - unfold applyTest. split; [intros K|intros e K; left; repeat (done || case_match); congruence].
    destruct (navigateValue (root v) parts) as [p| |] eqn:Hn; try discriminate K. destruct (p_ro p); [discriminate K|].
    destruct (to_json (p_val p)) as [w1|] eqn:E1; [|discriminate K]. destruct (parse _) as [w2|] eqn:E2; [|discriminate K]. case_decide; [|discriminate K]. subst w2.
    injection K as <-. by apply (patched_test op v v p w1).
  - unfold applyMove. cbv zeta. destruct (navigateValue (root v) _) as [from| |] eqn:Hf; [|by split; [|left; congruence]|done].
    destruct (p_ro from); [done|]. destruct (applyRemove zero v _) as [v1|v1 e1| |] eqn:Hr; [|split; [done|intros e [= <- <-]; left; by eapply remove_fails]|done..].
    pose proof (remove_at _ _ _ Hr) as Hr1. destruct (navigate (root v1) parts) as [[p key]| |] eqn:Hn; [|split; [done|intros e [= <- <-]; by right]|done].
    split; [intros K|intros e K%setLeaf_fails; right; by subst v']. apply patched_move with from v1; [done..|]. by eapply set_at.
  - unfold applyCopy. destruct (navigateValue (root v) _) as [from| |] eqn:Hf; [|by split; [|left; congruence]|done].
    destruct (navigate (root v) parts) as [[p key]| |] eqn:Hn; [|by split; [|left; congruence]|done].
    destruct (setLeaf v p key (p_val from)) as [v2|v2 e2| |] eqn:Hs.
    + destruct (p_ro from); [done|]. destruct (flat _) eqn:Efl; [|done]. split; [intros [= <-]|done]. apply patched_copy with from; [done..|]. by eapply set_at.
    + apply setLeaf_fails in Hs as ->. split; [by destruct (p_ro from), (flat (p_val from))|]. intros e He. left. destruct (p_ro from), (flat (p_val from)); congruence.
    + by destruct (p_ro from), (flat (p_val from)).
    + by destruct (p_ro from), (flat (p_val from)).
  - split; [done|left; congruence].
Qed.

Section type_soundness.
Context (types : string → gtype) (Hiface : types iface = TIface).
Context (Hdecode : ∀ ty raw x, decode ty raw = Some x → type_of x = ty ∧ typed types x).
Context (Hzero : ∀ ty, type_of (zero ty) = ty ∧ typed types (zero ty)).

Lemma applyRemove_ok v parts : typed types v → outcome_ok types (type_of v) (applyRemove zero v parts).
Proof.
  intros Hv. unfold applyRemove. destruct parts as [|part rest]; [done|].
  destruct (navigate (root v) _) as [[p key]| |] eqn:Hnav; try done.
  apply (navigate_ok types (type_of v)) in Hnav as [Hp Hput]; [|by apply root_ok].
  destruct (p_val p) as [| | |ty elem m|ty elem l|ty fs] eqn:E; try done.
  - destruct (p_ro p); [done|]. apply Hput. split; [done|]. inversion Hp as [| | |? ? ? Hty Hm| |]; subst. apply typed_map; [done|].
    intros kv Hkv. apply Hm. destruct m as [m|]; [|done]. by apply list_elem_of_filter in Hkv as [_ ?].
  - destruct (slice_index key _) as [i| |]; try done. destruct (_ || _); [done|]. apply Hput. split; [done|].
    inversion Hp as [| | | |? ? ? Hty Hm|]; subst. apply typed_slice; [done|]. intros x Hx. apply Hm. by eapply sublist_subseteq; [apply sublist_delete|].
  - destruct (find_field _ key fs) as [i|]; [|done]. destruct (fs !! i) as [[f y]|] eqn:Hl; [|done]. destruct (_ && _); [|done].
    apply Hput. split; [done|]. eapply set_field_typed; [done|by eexists|]. apply Hzero.
Qed.

(** A patch keeps a configuration well typed, also when it fails: every
    field, element and pointer of the target keeps the type it is declared
    with.  Assumed: decoding and zero values give values of the type asked for. *)
Theorem patch_typed op v v' : typed types v → (Apply op v = Done v' ∨ ∃ e, Apply op v = Failed v' e) →
  type_of v' = type_of v ∧ typed types v'.
Proof.
  intros Hv Hout. assert (outcome_ok types (type_of v) (Apply op v)) as Hok; [|by destruct Hout as [H|[e H]]; rewrite H in Hok].
  clear v' Hout. unfold Patch.Apply. cbv zeta. generalize (match parts_of (PatchOp.Path op) with [""%string] => [] | parts => parts end) as parts.
  intros parts. assert (∀ q key, navigate (root v) parts = Got (q, key) → place_ok types (type_of v) q) as Hnav
    by (intros q key; apply navigate_ok; by apply root_ok).
  assert (∀ from, navigateValue (root v) (parts_of (PatchOp.From op)) = Got from → typed types (p_val from)) as Hfrom
    by (intros from Hf; eapply navigateValue_ok in Hf as [? _]; [done|by apply root_ok]).
  repeat case_decide.
  - unfold applyAddReplace. destruct parts as [|part rest]; [done|]. destruct (navigate (root v) _) as [[p key]| |]; try done.
    destruct (target_type p key) as [ty|]; [|done]. destruct (decode ty _) as [x|] eqn:Hx; [|done].
    apply (setLeaf_ok types Hiface); [by eapply Hnav|done|by eapply Hdecode].
  - by apply applyRemove_ok.
  - unfold applyTest. destruct (navigateValue (root v) parts) as [p| |]; try done. destruct (p_ro p); [done|].
    destruct (to_json _); [|done]. destruct (parse _); [|done]. by case_decide.
  - unfold applyMove. destruct (navigateValue (root v) (parts_of (PatchOp.From op))) as [from| |]; try done. destruct (p_ro from); [done|].
    pose proof (applyRemove_ok v (parts_of (PatchOp.From op)) Hv) as Hrem.
    destruct (applyRemove zero v _) as [v1|v1 e| |]; try done. destruct Hrem as [Ht1 Hv1].
    destruct (navigate (root v1) parts) as [[p key]| |] eqn:Hn; try done. rewrite <- Ht1.
    apply (setLeaf_ok types Hiface); [|done|by apply Hfrom]. eapply navigate_ok; [|done]. by apply root_ok.
  - unfold applyCopy. destruct (navigateValue (root v) (parts_of (PatchOp.From op))) as [from| |]; try done. destruct (navigate (root v) parts) as [[p key]| |]; try done.
    pose proof (setLeaf_ok types Hiface v p key (p_val from) (Hnav _ _ eq_refl) Hv (Hfrom _ eq_refl)) as Hset.
    destruct (p_ro from); [by destruct (setLeaf _ _ _ _)|]. destruct (flat _); [done|by destruct (setLeaf _ _ _ _)].
  - done.
Qed.
End type_soundness.
End properties.

(** ** A small registry *)

Definition ex_types (ty : string) : gtype :=
  if String.eqb ty "Registry" then
    TStruct [Field.mk "Roles" "" true "map[string]*Role"; Field.mk "RoleOrder" "" true "[]string"; Field.mk "configPath" "" false "string"]
  else if String.eqb ty "Role" then TStruct [Field.mk "ID" "id" true "string"; Field.mk "Name" "name,omitempty" true "string"]
  else if String.eqb ty "map[string]*Role" then TMap "*Role"
  else if String.eqb ty "*Role" then TPtr "Role"
  else if String.eqb ty "[]string" then TSlice "string"
  else if String.eqb ty iface then TIface else TScalar.
Abbreviation ex_str := (VScalar "string").
Definition ex_struct (ty : string) (vs : list gval) : gval :=
  match ex_types ty with TStruct fs => VStruct ty (zip fs vs) | _ => ex_str "" end.
Definition ex_role (id name : string) : gval := VPtr "*Role" (Some (ex_struct "Role" [ex_str id; ex_str name])).
Definition ex_registry (roles : list (string * gval)) (order : list string) : gval :=
  ex_struct "Registry" [VMap "map[string]*Role" "*Role" (Some roles); VSlice "[]string" "string" (ex_str <$> order); ex_str "/c"].
(** A role is written as its id; any other text decodes to a string. *)
Definition ex_decode (ty raw : string) : option gval :=
  if String.eqb ty "*Role" then Some (ex_role raw "") else if String.eqb ty "string" then Some (ex_str raw) else None.
Definition ex_zero (ty : string) : gval :=
  match ex_types ty with
  | TScalar => VScalar ty "" | TIface => VIface ty None | TPtr _ => VPtr ty None | TMap e => VMap ty e None | TSlice e => VSlice ty e []
  | TStruct fs => if String.eqb ty "Role" then ex_struct ty [ex_str ""; ex_str ""]
                  else VStruct ty (zip fs [VMap "map[string]*Role" "*Role" None; VSlice "[]string" "string" []; ex_str ""])
  end.
Fixpoint ex_json (v : gval) : option string :=
  match v with VScalar _ s => Some s | VPtr _ (Some v) => ex_json v | VStruct _ ((_, v) :: _) => ex_json v | _ => None end.
Definition ex_apply (o path from value : string) (v : gval) : outcome OpError gval :=
  Apply ex_decode ex_zero ex_json Some (PatchOp.mk o path from value) v.

(** On a slice, replacing inserts. *)
Example replace_inserts :
  ex_apply OpReplace "/role_order/0" "" "lead" (ex_registry [] ["dev"; "qa"]) = Done (ex_registry [] ["lead"; "dev"; "qa"]).
Proof. by vm_compute. Qed.
(** A path is split at every slash, and the escapes of JSON Pointer are not
    read: removing the role [dev/name] blanks the name of the role [dev]. *)
Example slash_in_id :
  ex_apply OpRemove "/roles/dev/name" "" "" (ex_registry [("dev", ex_role "dev" "Developer")] []) =
  Done (ex_registry [("dev", ex_role "dev" "")] []).
Proof. by vm_compute. Qed.
(** A move whose target cannot be reached has removed the source. *)
Example move_loses :
  ex_apply OpMove "/groups/x" "/roles/dev" "" (ex_registry [("dev", ex_role "dev" "")] []) = Failed (ex_registry [] []) (FieldMissing "groups").
Proof. by vm_compute. Qed.
(** Reading an unexported field panics, writing one is refused. *)
Example unexported_test : ex_apply OpTest "/configPath" "" "/c" (ex_registry [] []) = Panics.
Proof. by vm_compute. Qed.
Example unexported_write : ex_apply OpReplace "/configPath" "" "/d" (ex_registry [] []) = Failed (ex_registry [] []) (FieldMissing "configPath").
Proof. by vm_compute. Qed.

(** Types of concrete values, field by field. *)
Ltac type_value :=
  repeat match goal with
  | |- _ ∧ _ => split
  | |- type_of _ = _ => reflexivity
  | |- typed _ (VStruct _ _) => apply typed_struct; [reflexivity|intros ? ?]
  | |- typed _ (VMap _ _ _) => eapply typed_map; [reflexivity|intros ? ?]
  | |- typed _ (VSlice _ _ _) => eapply typed_slice; [reflexivity|intros ? ?]
  | |- typed _ (VPtr _ _) => eapply typed_ptr; [reflexivity|intros ? [= <-]]
  | |- typed _ (VScalar _ _) => apply typed_scalar; reflexivity
  | H : _ ∈ [] |- _ => by apply elem_of_nil in H
  | H : _ ∈ _ :: _ |- _ => apply elem_of_cons in H as [->|H]
  | |- _ => progress cbn in *
  end; try done.
Lemma ex_role_typed id name : typed ex_types (ex_role id name).
Proof. unfold ex_role, ex_struct. cbn. type_value. Qed.
Lemma ex_zero_typed ty : type_of (ex_zero ty) = ty ∧ typed ex_types (ex_zero ty).
Proof.
  unfold ex_zero. destruct (ex_types ty) as [| | | | |fs] eqn:E.
  1-5: split; [done|]; econstructor; [done|..]; cbn; try done; intros ? Hin; by apply elem_of_nil in Hin.
  unfold ex_types in E. destruct (String.eqb_spec ty "Registry") as [->|]; [injection E as <-; type_value|].
  destruct (String.eqb_spec ty "Role") as [->|]; [injection E as <-; cbn; type_value|].
  by repeat destruct (String.eqb _ _) in E.
Qed.

Lemma add_then_test_witness :
  let v := ex_registry [("qa", ex_role "qa" "")] [] in let v' := ex_registry [("qa", ex_role "qa" ""); ("dev", ex_role "dev" "")] [] in
  ex_apply OpAdd "/roles/dev" "" "dev" v = Done v' ∧ ex_apply OpTest "/roles/dev" "" "dev" v' = Done v'.
Proof.
  cbv zeta. split; [by vm_compute|].
  apply (add_then_test ex_decode ex_zero ex_json Some (PatchOp.mk OpAdd "/roles/dev" "" "dev") (ex_registry [("qa", ex_role "qa" "")] [])).
  - apply (bool_decide_unpack _); vm_compute; exact I.
  - apply (bool_decide_unpack _); vm_compute; exact I.
  - intros ty x. unfold ex_decode. cbn [PatchOp.Value]. destruct (String.eqb_spec ty "*Role") as [->|]; [intros [= <-]; split_and!; [done|by eexists|done]|].
    destruct (String.eqb_spec ty "string") as [->|]; [intros [= <-]; split_and!; [done|by eexists|done]|done].
  - by vm_compute.
Defined.
Lemma patch_typed_witness :
  ex_apply OpMove "/groups/x" "/roles/dev" "" (ex_registry [("dev", ex_role "dev" "")] []) = Failed (ex_registry [] []) (FieldMissing "groups") ∧
  typed ex_types (ex_registry [] []).
Proof.
  split; [by vm_compute|].
  refine (proj2 (patch_typed ex_decode ex_zero ex_json Some ex_types eq_refl _ _ (PatchOp.mk OpMove "/groups/x" "/roles/dev" "" )
    (ex_registry [("dev", ex_role "dev" "")] []) (ex_registry [] []) _ _)).
  - intros ty raw x. unfold ex_decode. destruct (String.eqb_spec ty "*Role") as [->|]; [intros [= <-]; split; [done|apply ex_role_typed]|].
    destruct (String.eqb_spec ty "string") as [->|]; [intros [= <-]|done]. by split; [|apply typed_scalar].
  - apply ex_zero_typed.
  - cbn. type_value. apply ex_role_typed.
  - right. eexists. by vm_compute.
Defined.
(** A role moved to another id, a role removed, an index removed. *)
Lemma patch_exact_witness :
  patched ex_decode ex_zero ex_json Some (PatchOp.mk OpMove "/roles/lead" "/roles/dev" "")
    (ex_registry [("dev", ex_role "dev" ""); ("qa", ex_role "qa" "")] []) (ex_registry [("qa", ex_role "qa" ""); ("lead", ex_role "dev" "")] []) ∧
  patched ex_decode ex_zero ex_json Some (PatchOp.mk OpRemove "/role_order/1" "" "")
    (ex_registry [] ["dev"; "qa"; "lead"]) (ex_registry [] ["dev"; "lead"]).
Proof.
  split; apply (proj1 (patch_exact ex_decode ex_zero ex_json Some _ _ _)); vm_compute; reflexivity.
Defined.
