(* ===== verification/Wal.v ===== *)
(** * The write-ahead log of the configuration (config/wal.go, rollback.go, compactor.go)

    A registry in memory, a snapshot of it on disk and a log of the patches
    committed since.  A start loads the snapshot and replays what follows the
    commit the snapshot names as its checkpoint.

    A log is the lines of its file, with one unterminated line at the end after
    a write that was cut off.  What a patch does to a registry, and how a
    registry is saved and loaded, are the classes [Patchable] and [Snapshots];
    the rest is proved against them.  Commit ids and times are arguments; the
    files can be opened, read and written. *)
From S2P Require Import Prelude Patch.
Local Open Scope Z_scope.

Module Commit.
Record t := mk { ID : string; TS : Z; Actor : string; TaskID : string; Ops : list PatchOp.t }.
End Commit.

(** ** What the log asks of the registry *)

(** One operation: what becomes of the registry. *)
Class Patchable (R : Type) := apply_op : PatchOp.t → R → outcome OpError R.
(** [reload] reads a snapshot into a registry, resetting what is saved; a start
    reads it into a [fresh] one. *)
Class Snapshots (R S : Type) := { save : R → S; reload : S → R → R; fresh : R }.
Definition load {R S : Type} `{Snapshots R S} (s : S) : R := reload s fresh.
(** Registries that differ only in what is not saved are equivalent. *)
Class SnapshotLaws (R S : Type) `{Patchable R, Snapshots R S, Equiv R} := {
  #[export] registry_equiv :: Equivalence (≡@{R});
  load_save (r : R) : load (save r) ≡ r;
  apply_proper op (r r' r1 : R) : r ≡ r' → apply_op op r = Done r1 → ∃ r1', apply_op op r' = Done r1' ∧ r1 ≡ r1'
}.

Fixpoint ApplyPatch `{Patchable R} (ops : list PatchOp.t) (r : R) : outcome OpError R :=
  match ops with
  | [] => Done r
  | op :: ops' => match apply_op op r with Done r' => ApplyPatch ops' r' | out => out end
  end.

(** ** The log *)

(** A line that decodes, one that does not, and one beyond the scanner's limit. *)
Inductive line := LCommit (c : Commit.t) | LJunk | LTooLong.
Record WAL := mkWAL { w_lines : list line; w_tail : option line }.
Definition empty_wal : WAL := mkWAL [] None.
Definition scanned (w : WAL) : list line := w_lines w ++ option_list (w_tail w).

(** What is appended behind an unterminated line becomes part of it. *)
Definition add_line (l : line) (w : WAL) : WAL :=
  mkWAL (w_lines w ++ [match w_tail w with Some _ => LJunk | None => l end]) None.
Definition Append (id : string) (now : Z) (actor taskID : string) (ops : list PatchOp.t) (w : WAL) : WAL :=
  add_line (LCommit (Commit.mk id now actor taskID ops)) w.
Definition Clear (w : WAL) : WAL := empty_wal.

Definition too_long : string := "bufio.Scanner: token too long".
(** The last id up to a line that is too long; a line that does not decode is
    passed over. *)
Fixpoint last_id (ls : list line) (lastID : string) : string * option string :=
  match ls with
  | [] => (lastID, None)
  | LTooLong :: _ => (lastID, Some too_long)
  | LJunk :: ls' => last_id ls' lastID
  | LCommit c :: ls' => last_id ls' (Commit.ID c)
  end.
Definition LastCommitID (w : WAL) : string * option string := last_id (scanned w) "".
Fixpoint contains_id (id : string) (ls : list line) : result string bool :=
  match ls with
  | [] => Ok false
  | LTooLong :: _ => Err too_long
  | LJunk :: ls' => contains_id id ls'
  | LCommit c :: ls' => if String.eqb (Commit.ID c) id then Ok true else contains_id id ls'
  end.
Definition containsCommitLocked (w : WAL) (commitID : string) : result string bool := contains_id commitID (scanned w).
(** Lines and bytes; counting stops at a line that is too long. *)
Fixpoint count_lines (ls : list line) : Z :=
  match ls with [] | LTooLong :: _ => 0 | _ :: ls' => 1 + count_lines ls' end.
Definition Stats (size : WAL → Z) (w : WAL) : Z * Z := (count_lines (scanned w), size w).

Section replay.
Context `{Patchable R}.

(** Why a replay stopped. *)
Inductive ReplayError := BadLine | LineTooLong | ApplyFailed (id : string) (err : OpError).
(** Replay of lines: [since] skips up to and with a commit; [until] stops after
    one. *)
Fixpoint replay_lines (since : option string) (until : string) (ls : list line) (r : R) : outcome ReplayError R :=
  match ls with
  | [] => Done r
  | LTooLong :: _ => Failed r LineTooLong
  | LJunk :: _ => Failed r BadLine
  | LCommit c :: ls' =>
      match since with
      | Some id => replay_lines (if String.eqb (Commit.ID c) id then None else Some id) until ls' r
      | None =>
          match ApplyPatch (Commit.Ops c) r with
          | Done r' => if negb (String.eqb until "") && String.eqb (Commit.ID c) until then Done r' else replay_lines None until ls' r'
          | Failed r' err => Failed r' (ApplyFailed (Commit.ID c) err)
          | Panics => Panics
          | Shares => Shares
          end
      end
  end.
Definition ReplayUntil (commitID : string) (w : WAL) (r : R) : outcome ReplayError R := replay_lines None commitID (scanned w) r.
Definition Replay (w : WAL) (r : R) : outcome ReplayError R := ReplayUntil "" w r.
Definition ReplaySince (sinceCommitID : string) (w : WAL) (r : R) : outcome ReplayError R :=
  if String.eqb sinceCommitID "" then replay_lines None "" (scanned w) r
  else match containsCommitLocked w sinceCommitID with
       | Err _ => Failed r LineTooLong
       | Ok found => replay_lines (if found then Some sinceCommitID else None) "" (scanned w) r
       end.
End replay.

(** ** The store: memory, snapshot, log *)

Section store.
Context {R S : Type} `{Patchable R, Snapshots R S}.

(** What is on disk: the snapshot with the checkpoint it names, and the log. *)
Record Store := mkStore { s_mem : R; s_snap : S; s_ckpt : string; s_wal : WAL }.
#[export] Instance Store_eta : Eta Store := λ s, mkStore (s_mem s) (s_snap s) (s_ckpt s) (s_wal s).

(** [NewRegistry] with the log enabled, and whether there is a compactor; a log
    that does not replay is moved away. *)
Definition NewRegistry (s : Store) : outcome ReplayError (Store * bool) :=
  match ReplaySince (s_ckpt s) (s_wal s) (load (s_snap s)) with
  | Done r => Done (s <| s_mem := r |>, true)
  | Failed r _ => Done (s <| s_mem := r |> <| s_wal := empty_wal |>, false)
  | Panics => Panics
  | Shares => Shares
  end.
(** The two halves of [CommitOps]: under the registry's lock, then without it.  A
    panic leaves the lock held. *)
Definition commit_apply (ops : list PatchOp.t) (s : Store) : outcome OpError Store :=
  match ApplyPatch ops (s_mem s) with
  | Done r => Done (s <| s_mem := r |>)
  | Failed r err => Failed (s <| s_mem := r |>) err
  | Panics => Panics
  | Shares => Shares
  end.
Definition commit_append (id : string) (now : Z) (actor taskID : string) (ops : list PatchOp.t) (s : Store) : Store :=
  s <| s_wal ::= Append id now actor taskID ops |>.
Definition CommitOps (id : string) (now : Z) (actor taskID : string) (ops : list PatchOp.t) (s : Store) : outcome OpError Store :=
  match commit_apply ops s with
  | Done s => Done (commit_append id now actor taskID ops s)
  | out => out
  end.
(** A failure to read the last commit's id leaves the checkpoint empty. *)
Definition checkpoint (w : WAL) : string := match LastCommitID w with (id, None) => id | (_, Some _) => "" end.
Definition persistLocked (s : Store) : Store := s <| s_snap := save (s_mem s) |> <| s_ckpt := checkpoint (s_wal s) |>.
Definition clear_wal (s : Store) : Store := s <| s_wal ::= Clear |>.
Definition PersistForceSnapshot (s : Store) : Store := clear_wal (persistLocked s).
Definition Compact (s : Store) : Store := clear_wal (PersistForceSnapshot s).
Definition checkAndCompact (thresholdCount thresholdSize : Z) (size : WAL → Z) (s : Store) : Store :=
  let '(n, b) := Stats size (s_wal s) in
  if (thresholdCount <=? n) || (thresholdSize <=? b) then Compact s else s.
(** The snapshot is read into the registry in memory. *)
Definition RollbackTo (commitID : string) (s : Store) : outcome ReplayError Store :=
  match ReplayUntil commitID (s_wal s) (reload (s_snap s) (s_mem s)) with
  | Done r => Done (PersistForceSnapshot (s <| s_mem := r |>))
  | Failed r err => Failed (s <| s_mem := r |>) err
  | Panics => Panics
  | Shares => Shares
  end.
End store.
Arguments Store : clear implicits.

(** ** Interleavings *)

(** What happens to the store: the halves of a commit, the second of which runs
    without the registry's lock; a patch that fails in the middle; a save; a
    compaction, which holds the registry's lock while it saves and clears the log;
    a start, at any moment; a write to the log that is cut off by a crash. *)
Inductive Action := AApply | AFail | AAppend | ASave | ASnapshot | AClear | ARestart | ATear.

Section interleavings.
Context {R S : Type} `{SnapshotLaws R S}.
Existing Instance Store_eta.

(** The store with the patches applied but not logged, whether a compaction is under
    way, the patches acknowledged so far and the ids in use. *)
Record Sys := mkSys {
  y_store : Store R S; y_pending : list (list PatchOp.t); y_clearing : bool; y_acked : list (list PatchOp.t); y_used : list string
}.
Definition torn (w : WAL) : WAL := mkWAL (w_lines w) (Some LJunk).
Inductive step : Action → Sys → Sys → Prop :=
| step_apply s ops s' pending acked used : commit_apply ops s = Done s' →
    step AApply (mkSys s pending false acked used) (mkSys s' (pending ++ [ops]) false acked used)
| step_fail s ops s' err pending acked used : commit_apply ops s = Failed s' err →
    step AFail (mkSys s pending false acked used) (mkSys s' pending false acked used)
| step_append s before ops after clearing id now actor taskID acked used : id ∉ used →
    step AAppend (mkSys s (before ++ ops :: after) clearing acked used)
      (mkSys (commit_append id now actor taskID ops s) (before ++ after) clearing (acked ++ [ops]) (id :: used))
| step_save s pending acked used :
    step ASave (mkSys s pending false acked used) (mkSys (persistLocked s) pending false acked used)
| step_snapshot s pending acked used :
    step ASnapshot (mkSys s pending false acked used) (mkSys (persistLocked s) pending true acked used)
(* [Compact] clears twice *)
| step_clear s pending again acked used :
    step AClear (mkSys s pending true acked used) (mkSys (clear_wal s) pending again acked used)
| step_restart s s' b pending clearing acked used : NewRegistry s = Done (s', b) →
    step ARestart (mkSys s pending clearing acked used) (mkSys s' [] false acked used)
| step_tear s s' b pending ops clearing acked used : ops ∈ pending → NewRegistry (s <| s_wal ::= torn |>) = Done (s', b) →
    step ATear (mkSys s pending clearing acked used) (mkSys s' [] false acked used).
(** An orderly action: a patch does not fail and no write to the log is cut off;
    while a commit is applied but not logged no other is applied and nothing is
    saved or compacted, and none is logged during a compaction. *)
Definition orderly (a : Action) (y : Sys) : Prop :=
  match a with
  | AFail | ATear => False
  | AApply | ASave | ASnapshot => y_pending y = []
  | AAppend => y_clearing y = false
  | AClear | ARestart => True
  end.
Definition orderly_step (y y' : Sys) : Prop := ∃ a, step a y y' ∧ orderly a y.
(** A start from a snapshot without a log. *)
Definition start (snap : S) (ckpt : string) : Sys := mkSys (mkStore (load snap) snap ckpt empty_wal) [] false [] [""%string; ckpt].

(** The effect of patches committed one after another, if all succeed. *)
Fixpoint apply_batches (bs : list (list PatchOp.t)) (r : R) : option R :=
  match bs with
  | [] => Some r
  | ops :: bs' => match ApplyPatch ops r with Done r' => apply_batches bs' r' | _ => None end
  end.

Lemma ApplyPatch_proper ops (r r' r1 : R) : r ≡ r' → ApplyPatch ops r = Done r1 → ∃ r1', ApplyPatch ops r' = Done r1' ∧ r1 ≡ r1'.
Proof.
  revert r r'. induction ops as [|op ops IH]; intros r r' Hr; cbn; [intros [= ->]; by exists r'|].
  destruct (apply_op op r) as [x| | |] eqn:E; try done. destruct (apply_proper op r r' x Hr E) as (x' & -> & Hx). by apply IH.
Qed.
Lemma apply_batches_sound bs (r r' r1 : R) : r ≡ r' → apply_batches bs r = Some r1 → ∃ r1', apply_batches bs r' = Some r1' ∧ r1 ≡ r1'.
Proof.
  revert r r'. induction bs as [|ops bs IH]; intros r r' Hr; cbn; [intros [= ->]; by exists r'|].
  destruct (ApplyPatch ops r) as [x| | |] eqn:E; try done. destruct (ApplyPatch_proper ops r r' x Hr E) as (x' & -> & Hx). by apply IH.
Qed.
#[local] Instance apply_batches_proper bs : Proper ((≡) ==> (≡)) (apply_batches bs).
Proof.
  intros r r' Hr. destruct (apply_batches bs r) as [x|] eqn:E.
  - destruct (apply_batches_sound bs r r' x Hr E) as (x' & -> & ?). by constructor.
  - destruct (apply_batches bs r') as [x'|] eqn:E'; [|constructor].
    destruct (apply_batches_sound bs r' r x' (symmetry Hr) E') as (x & Hx & _). congruence.
Qed.
Lemma apply_batches_app bs bs' r : apply_batches (bs ++ bs') r = apply_batches bs r ≫= apply_batches bs'.
Proof. revert r. induction bs as [|ops bs IH]; intros r; [done|]. cbn. destruct (ApplyPatch ops r); [apply IH|done..]. Qed.

Lemma replay_commits cs r r' : apply_batches (Commit.Ops <$> cs) r = Some r' → replay_lines None "" (LCommit <$> cs) r = Done r'.
Proof.
  revert r. induction cs as [|c cs IH]; intros r; cbn; [by intros [= ->]|].
  destruct (ApplyPatch (Commit.Ops c) r) as [r1| | |]; [|done..]. apply IH.
Qed.
Lemma replay_skips cs c cs' r : Commit.ID c ∉ Commit.ID <$> cs →
  replay_lines (Some (Commit.ID c)) "" (LCommit <$> cs ++ c :: cs') r = replay_lines None "" (LCommit <$> cs') r.
Proof.
  induction cs as [|c0 cs IH]; cbn; intros Hc; [by rewrite String.eqb_refl|].
  destruct (String.eqb_spec (Commit.ID c0) (Commit.ID c)) as [He|]; [set_solver|]. apply IH. set_solver.
Qed.
Lemma contains_commits id cs : contains_id id (LCommit <$> cs) = Ok (bool_decide (id ∈ Commit.ID <$> cs)).
Proof.
  induction cs as [|c cs IH]; [done|]. cbn. destruct (String.eqb_spec (Commit.ID c) id) as [->|Hne].
  - by rewrite bool_decide_eq_true_2 by (by left).
  - rewrite IH. f_equal. apply bool_decide_ext. set_solver.
Qed.
Lemma last_commit cs id : last_id (LCommit <$> cs) id = (default id (last (Commit.ID <$> cs)), None).
Proof.
  revert id. induction cs as [|c cs IH]; intros id; [done|]. cbn [fmap list_fmap last_id]. rewrite IH, last_cons. by destruct (last _).
Qed.

(** The log holds the commits since the snapshot, behind those the snapshot
    reflects already, of which the last is the checkpoint. *)
Record recoverable (r0 : R) (y : Sys) (pre post : list Commit.t) (old : list (list PatchOp.t)) : Prop := {
  rec_wal : s_wal (y_store y) = mkWAL (LCommit <$> pre ++ post) None;
  rec_nodup : NoDup (Commit.ID <$> pre ++ post);
  rec_used id : id ∈ Commit.ID <$> pre ++ post → id ∈ y_used y ∧ id ≠ ""%string;
  rec_empty : ""%string ∈ y_used y;
  rec_ckpt : s_ckpt (y_store y) ∈ y_used y;
  rec_pre : match last (Commit.ID <$> pre) with
            | Some id => s_ckpt (y_store y) = id
            | None => s_ckpt (y_store y) ∉ Commit.ID <$> post
            end;
  rec_acked : y_acked y = old ++ (Commit.Ops <$> post);
  rec_old : apply_batches old r0 ≡ Some (load (s_snap (y_store y)));
  rec_mem : apply_batches (y_acked y ++ y_pending y) r0 ≡ Some (s_mem (y_store y));
  rec_one : (length (y_pending y) <= 1)%nat;
  rec_clearing : y_clearing y = true → post = [] ∧ y_pending y = []
}.

Lemma replay_since r0 y pre post old : recoverable r0 y pre post old →
  ∃ r, ReplaySince (s_ckpt (y_store y)) (s_wal (y_store y)) (load (s_snap (y_store y))) = Done r ∧ apply_batches (y_acked y) r0 ≡ Some r.
Proof.
  intros [Hw Hnd Hused He Hck Hpre Hacked Hold Hmem _ _].
  assert (∃ r, apply_batches (Commit.Ops <$> post) (load (s_snap (y_store y))) = Some r ∧ apply_batches (y_acked y) r0 ≡ Some r) as (r & Hr & Hall).
  { rewrite apply_batches_app in Hmem. rewrite Hacked in *. rewrite apply_batches_app in *.
    destruct (apply_batches old r0) as [r1|] eqn:E1; [|by inversion Hold]. apply (inj Some) in Hold. cbn in Hmem |- *.
    pose proof (apply_batches_proper (Commit.Ops <$> post) _ _ Hold) as Hp.
    destruct (apply_batches (Commit.Ops <$> post) r1) as [r2|]; [|by inversion Hmem].
    destruct (apply_batches (Commit.Ops <$> post) (load _)) as [r3|]; [|by inversion Hp]. by exists r3. }
  exists r. split; [|done]. unfold ReplaySince, containsCommitLocked, scanned. rewrite Hw. cbn [w_lines w_tail option_list].
  rewrite app_nil_r, contains_commits. apply replay_commits in Hr.
  destruct (last (Commit.ID <$> pre)) as [id|] eqn:El.
  - rewrite Hpre. destruct (String.eqb_spec id "") as [->|Hid].
    { exfalso. destruct (Hused ""%string) as [_ Hn]; [|by apply Hn]. rewrite fmap_app. apply elem_of_app. left. by eapply last_Some_elem_of. }
    apply last_Some in El as (l & El). apply fmap_app_inv in El as (pre1 & pre2 & Hp1 & Hp2 & Hpr).
    destruct pre2 as [|c [|]]; [done| |done]. injection Hp2 as ->. subst pre.
    rewrite bool_decide_eq_true_2 by (rewrite !fmap_app; set_solver).
    rewrite <- (assoc_L (++)). cbn [app]. rewrite replay_skips; [done|].
    rewrite <- (assoc_L (++)), fmap_app in Hnd. apply NoDup_app in Hnd as (_ & Hd & _). intros Hin. apply (Hd _ Hin). by left.
  - apply last_None, fmap_nil_inv in El as ->.
    cbn [app]. rewrite bool_decide_eq_false_2 by done. by destruct (String.eqb _ _).
Qed.

Lemma checkpoint_commits cs : checkpoint (mkWAL (LCommit <$> cs) None) = default ""%string (last (Commit.ID <$> cs)).
Proof. unfold checkpoint, LastCommitID, scanned. cbn [w_lines w_tail option_list]. by rewrite app_nil_r, last_commit. Qed.
(** Saving moves the checkpoint to the end of the log. *)
Lemma recoverable_persist r0 y pre post old clearing : recoverable r0 y pre post old → y_pending y = [] →
  recoverable r0 (mkSys (persistLocked (y_store y)) [] clearing (y_acked y) (y_used y)) (pre ++ post) [] (y_acked y).
Proof.
  intros [Hw Hnd Hused He Hck Hpre Hacked Hold Hmem _ _] Hidle. rewrite Hidle, app_nil_r in Hmem.
  split; cbn [y_store y_pending y_clearing y_acked y_used]; try rewrite (app_nil_r (pre ++ post)); try done.
  - change (checkpoint (s_wal (y_store y)) ∈ y_used y). rewrite Hw, checkpoint_commits.
    destruct (last (Commit.ID <$> pre ++ post)) as [id|] eqn:El; [|exact He]. apply Hused. by apply last_Some_elem_of.
  - change (s_ckpt (persistLocked (y_store y))) with (checkpoint (s_wal (y_store y))). rewrite Hw, checkpoint_commits.
    destruct (last (Commit.ID <$> pre ++ post)) as [id|] eqn:El; [done|]. cbn. set_solver.
  - by rewrite app_nil_r.
  - change (apply_batches (y_acked y) r0 ≡ Some (load (save (s_mem (y_store y))))). by rewrite load_save.
  - by rewrite app_nil_r.
  - cbn. lia.
Qed.
Lemma recoverable_apply r0 y pre post old ops s' : recoverable r0 y pre post old → y_pending y = [] → y_clearing y = false →
  commit_apply ops (y_store y) = Done s' → recoverable r0 (mkSys s' [ops] false (y_acked y) (y_used y)) pre post old.
Proof.
  intros [Hw Hnd Hused He Hck Hpre Hacked Hold Hmem _ _] Hidle _ Happ. rewrite Hidle, app_nil_r in Hmem.
  unfold commit_apply in Happ. destruct (ApplyPatch ops (s_mem (y_store y))) as [m'| | |] eqn:Em; [|done..]. injection Happ as <-.
  split; cbn; try done. rewrite apply_batches_app.
  destruct (apply_batches (y_acked y) r0) as [m|]; [|by inversion Hmem]. apply (inj Some) in Hmem. cbn.
  destruct (ApplyPatch_proper ops (s_mem (y_store y)) m m') as (m1 & -> & ?); [by symmetry|done|]. by constructor.
Qed.
Lemma recoverable_append r0 s ops clearing acked used pre post old id now actor taskID :
  recoverable r0 (mkSys s [ops] clearing acked used) pre post old → id ∉ used → clearing = false →
  recoverable r0 (mkSys (commit_append id now actor taskID ops s) [] clearing (acked ++ [ops]) (id :: used)) pre
    (post ++ [Commit.mk id now actor taskID ops]) old.
Proof.
  intros [Hw Hnd Hused He Hck Hpre Hacked Hold Hmem _ _] Hid ->. set (c := Commit.mk id now actor taskID ops).
  cbn [y_store y_pending y_clearing y_acked y_used] in *.
  assert (id ∉ Commit.ID <$> pre ++ post) as Hfresh by (intros Hin; by apply Hused in Hin as [? _]).
  rewrite fmap_app in Hfresh. apply not_elem_of_app in Hfresh as [Hfr1 Hfr2].
  split; cbn [y_store y_pending y_clearing y_acked y_used]; try done.
  - change (Append id now actor taskID ops (s_wal s) = mkWAL (LCommit <$> pre ++ post ++ [c]) None). rewrite Hw.
    unfold Append, add_line. cbn [w_lines w_tail]. by rewrite (assoc_L (++)), (fmap_app LCommit (pre ++ post)).
  - rewrite (assoc_L (++)), (fmap_app Commit.ID (pre ++ post)). apply NoDup_app. split_and!; [done| |by apply NoDup_singleton].
    rewrite fmap_app. cbn. set_solver.
  - intros i. rewrite (assoc_L (++)), (fmap_app Commit.ID (pre ++ post)), elem_of_app. cbn. rewrite list_elem_of_singleton.
    intros [Hi| ->]; [split; [right|]; by apply Hused|]. split; [by left|]. intros ->. done.
  - by right.
  - by right.
  - change (s_ckpt (commit_append id now actor taskID ops s)) with (s_ckpt s). destruct (last (Commit.ID <$> pre)); [done|].
    rewrite fmap_app. cbn. rewrite elem_of_app, list_elem_of_singleton. intros [?| Heq]; [done|]. by rewrite Heq in Hck.
  - rewrite Hacked, (fmap_app Commit.Ops post). cbn. by rewrite (assoc_L (++)).
  - by rewrite app_nil_r.
  - cbn. lia.
Qed.

Lemma recoverable_step r0 y y' : (∃ pre post old, recoverable r0 y pre post old) → orderly_step y y' → ∃ pre post old, recoverable r0 y' pre post old.
Proof.
  intros (pre & post & old & Hrec) (a & Hstep & Hord). pose proof (replay_since _ _ _ _ _ Hrec) as Hreplay.
  destruct Hstep as [s ops s' pending acked used Happ|s ops s' err pending acked used _|s before ops after clearing id now actor taskID acked used Hid
    |s pending acked used|s pending acked used|s pending again acked used|s s' b pending clearing acked used Hnew|s s' b pending ops clearing acked used _ _];
    cbn [orderly y_pending y_clearing] in Hord; try done.
  - subst pending. exists pre, post, old. exact (recoverable_apply _ _ _ _ _ ops s' Hrec eq_refl eq_refl Happ).
  - pose proof (rec_one _ _ _ _ _ Hrec) as Hone. cbn [y_pending] in Hone. rewrite length_app in Hone. cbn [length] in Hone.
    destruct before; [|cbn in Hone; lia]. destruct after; [|cbn in Hone; lia]. cbn [app] in *.
    eexists pre, _, old. by apply recoverable_append.
  - subst pending. eexists _, _, _. exact (recoverable_persist _ _ _ _ _ false Hrec eq_refl).
  - subst pending. eexists _, _, _. exact (recoverable_persist _ _ _ _ _ true Hrec eq_refl).
  - destruct Hrec as [Hw Hnd Hused He Hck Hpre Hacked Hold Hmem Hone Hcl]. destruct (Hcl eq_refl) as [-> Hp].
    exists [], [], old. split; try done; cbn; [constructor|set_solver|set_solver].
  - exists pre, post, old. destruct Hreplay as (r & Hr & Hall). cbn [y_store y_acked] in Hr, Hall.
    destruct Hrec as [Hw Hnd Hused He Hck Hpre Hacked Hold Hmem Hone Hcl]. cbn [y_store y_pending y_clearing y_acked y_used] in *.
    unfold NewRegistry in Hnew. rewrite Hr in Hnew. injection Hnew as <- <-. split; try done; cbn [y_acked y_pending length]; [by rewrite app_nil_r|lia].
Qed.

End interleavings.

(** ** A registry of values *)

(** Values under [Patch.Apply] are an implementation. *)
Definition value_patches {J} `{EqDecision J} (decode : string → string → option gval) (zero : string → gval)
    (to_json : gval → option J) (parse : string → option J) : Patchable gval := Apply decode zero to_json parse.
#[local] Instance ex_patches : Patchable gval := value_patches ex_decode ex_zero ex_json Some.
#[local] Instance ex_snapshots : Snapshots gval gval := { save := id; reload s _ := s; fresh := ex_registry [] [] }.
#[local] Instance ex_equiv : Equiv gval := (=).
#[local] Instance ex_laws : SnapshotLaws gval gval.
Proof. split; [apply _|done|]. intros op r r' r1 <- H. by exists r1. Qed.

Definition ex_insert (s : string) : list PatchOp.t := [PatchOp.mk OpAdd "/role_order/0" "" s].
Definition ex_start : Store gval gval := mkStore (ex_registry [] []) (ex_registry [] []) "" empty_wal.
Definition ex_run (l : list (Store gval gval → Store gval gval)) (s : Store gval gval) : Store gval gval := foldl (λ s f, f s) s l.
Definition ex_apply_half (x : string) (s : Store gval gval) : Store gval gval := match commit_apply (ex_insert x) s with Done s => s | _ => s end.
Definition ex_append_half (id x : string) : Store gval gval → Store gval gval := commit_append id 0 "admin" "" (ex_insert x).
Definition ex_commit (id x : string) (s : Store gval gval) : Store gval gval := ex_append_half id x (ex_apply_half x s).
Definition ex_restart (s : Store gval gval) : Store gval gval := match NewRegistry s with Done (s, _) => s | _ => s end.
Definition ex_tear (s : Store gval gval) : Store gval gval := mkStore (s_mem s) (s_snap s) (s_ckpt s) (mkWAL (w_lines (s_wal s)) (Some LJunk)).
Definition order_of (s : Store gval gval) : gval := s_mem s.
Definition roles_in (l : list string) : gval := ex_registry [] l.


(** Two commits that apply in one order and are logged in the other. *)
Example commits_reordered :
  let s := ex_run [ex_apply_half "a"; ex_apply_half "b"; ex_append_half "c2" "b"; ex_append_half "c1" "a"] ex_start in
  order_of s = roles_in ["b"; "a"] ∧ order_of (ex_restart s) = roles_in ["a"; "b"].
Proof. vm_compute. split; reflexivity. Qed.
(** A compaction between the halves of a commit: the commit is applied twice. *)
Example commit_applied_twice :
  let s := ex_run [ex_apply_half "a"; Compact; ex_append_half "c1" "a"] ex_start in
  order_of s = roles_in ["a"] ∧ order_of (ex_restart s) = roles_in ["a"; "a"].
Proof. vm_compute. split; reflexivity. Qed.
(** The same run as steps: a run that is not orderly breaks the claim. *)
Lemma orderly_needed : ∃ y s, rtc (λ y y', ∃ a, step a y y') (start (R := gval) (ex_registry [] []) "") y ∧
  NewRegistry (y_store y) = Done (s, true) ∧ apply_batches (y_acked y) (ex_registry [] []) ≠ Some (s_mem s).
Proof.
  eexists _, _. split; [|split].
  - eapply rtc_l; [exists AApply; apply (step_apply _ (ex_insert "a")); by vm_compute|].
    eapply rtc_l; [exists ASnapshot; apply step_snapshot|].
    eapply rtc_l; [exists AClear; apply (step_clear _ _ false)|].
    eapply rtc_l; [exists AAppend; apply (step_append _ [] (ex_insert "a") [] false "c1" 0 "admin" ""); apply (bool_decide_unpack _); vm_compute; exact I|]. apply rtc_refl.
  - vm_compute. reflexivity.
  - vm_compute. discriminate.
Qed.
(** A write that is cut off: the restart replays the commits before it into
    memory and moves the log away, so the next restart has lost them. *)
Example torn_line_loses_all :
  let s := ex_restart (ex_tear (ex_run [ex_commit "c1" "a"; ex_commit "c2" "b"] ex_start)) in
  order_of s = roles_in ["b"; "a"] ∧ order_of (ex_restart s) = roles_in [].
Proof. vm_compute. split; reflexivity. Qed.
(** A patch whose second operation fails has changed the memory but not the log. *)
Example failed_patch_stays :
  let s := match commit_apply (ex_insert "a" ++ [PatchOp.mk OpRemove "/nowhere" "" ""]) ex_start with Failed s _ => s | _ => ex_start end in
  order_of s = roles_in ["a"] ∧ order_of (ex_restart s) = roles_in [].
Proof. vm_compute. split; reflexivity. Qed.
(** Rolling back replays the log on top of the snapshot, whatever the snapshot
    reflects already: after a save, going back to the first of two commits
    applies it again instead. *)
Example rollback_repeats :
  match RollbackTo "c1" (ex_run [ex_commit "c1" "a"; ex_commit "c2" "b"; persistLocked] ex_start) with
  | Done s => order_of s = roles_in ["a"; "b"; "a"]
  | _ => False
  end.
Proof. by vm_compute. Qed.
(** Rolling back to a commit that does not exist replays the whole log, reports
    success and clears the log. *)
Example rollback_to_nowhere :
  match RollbackTo "c9" (ex_run [ex_commit "c1" "a"; ex_commit "c2" "b"] ex_start) with
  | Done s => order_of s = roles_in ["b"; "a"] ∧ s_wal s = empty_wal
  | _ => False
  end.
Proof. vm_compute. split; reflexivity. Qed.
