(* ===== verification/Config.v ===== *)
(** * Loading and saving the configuration (config/loader.go, config_split.go)

    The registry in memory, the snapshot that [Persist] writes and how a start
    or a reload reads it back: defaults, overrides from the environment, the
    merging of roles, split files.

    Of providers, skills, servers, groups and procedures only the ids matter
    here; the rest of each is [body].  JSON is read back as the value that was
    written.  The environment, the folders of roles and skills, and the order in
    which a map is visited are arguments. *)
From S2P Require Import Prelude Paths TaskStatus.
From Stdlib Require Import SpecFloat.
Local Open Scope Z_scope.

Module Item.
Record t := mk { ID : string; body : string }.
End Item.
Module Provider.
Record t := mk { PoolID : string; body : string }.
#[global] Instance t_eta : Eta t := λ p, mk (PoolID p) (body p).
End Provider.
Module MCPBinding.
Record t := mk { MCPID : string; AllowedTools : list string }.
End MCPBinding.
Module RoleDef.
Record t := mk { ID : string; Extends : string; BoundSkills : list string; BoundMCPBindings : list MCPBinding.t; body : string }.
#[global] Instance t_eta : Eta t := λ r, mk (ID r) (Extends r) (BoundSkills r) (BoundMCPBindings r) (body r).
End RoleDef.
Module FeatureFlags.
Record t := mk {
  Debug : bool; CoreToolsOrderLast : bool; DisableForceTool : bool; DisableEgressRedaction : bool; DisableCgroupSandbox : bool;
  DisablePatternKill : bool; DisableThinking : bool; EvalObs : bool; FSOnlyStreakLimit : Z; ZeroEffectNudge : bool;
  MidAbandonNudge : bool; StagnationGraceTurns : Z
}.
#[global] Instance t_eta : Eta t := λ f, mk (Debug f) (CoreToolsOrderLast f) (DisableForceTool f) (DisableEgressRedaction f)
  (DisableCgroupSandbox f) (DisablePatternKill f) (DisableThinking f) (EvalObs f) (FSOnlyStreakLimit f) (ZeroEffectNudge f)
  (MidAbandonNudge f) (StagnationGraceTurns f).
End FeatureFlags.
Module SystemSettings.
Record t := mk {
  ConfidenceThreshold : float64; MaxDecisionOutcomes : Z; MaxContextKeep : Z; DefaultJITTTL : Z; SandboxedMemoryMB : Z;
  SandboxedCPUSecs : Z; MaxLogSizeMB : Z; SwarmFallbackDelay : Z; Bookmarks : option (list string);
  ExternalInterceptors : option (list string); SyncIntervalMins : Z; DelegationMode : bool; MemoryBankEnabled : option bool;
  Flags : FeatureFlags.t; DefaultTaskTokenBudget : Z; CriticalRiskKeywords : option (list string);
  ModerateRiskKeywords : option (list string); body : string
}.
#[global] Instance t_eta : Eta t := λ s, mk (ConfidenceThreshold s) (MaxDecisionOutcomes s) (MaxContextKeep s) (DefaultJITTTL s)
  (SandboxedMemoryMB s) (SandboxedCPUSecs s) (MaxLogSizeMB s) (SwarmFallbackDelay s) (Bookmarks s) (ExternalInterceptors s)
  (SyncIntervalMins s) (DelegationMode s) (MemoryBankEnabled s) (Flags s) (DefaultTaskTokenBudget s) (CriticalRiskKeywords s)
  (ModerateRiskKeywords s) (body s).
End SystemSettings.
Module SplitLayout.
Record t := mk { Version : Z; MCPs : string; Roles : string; RoleGroups : string; Skills : string; SOPs : string }.
End SplitLayout.
(** The configuration file; [StepPlan] and [ExternalRuntimes] are opaque. *)
Module Config.
Record t := mk {
  DefaultProvider : string; DefaultEmbeddingProvider : string; GlobalFallback : list Provider.t; Providers : gmap string Provider.t;
  Skills : list Item.t; MCPs : list Item.t; Roles : list RoleDef.t; RoleGroups : list Item.t; SOPs : list Item.t;
  ExternalRuntimes : string; System : SystemSettings.t; EnableDynamicRoleGen : bool; EnableEphemeralRoleGen : bool;
  RequirePlanReview : bool; SwarmModeEnabled : bool; RoleCookbookSource : string; RoleCookbookSources : gmap string string;
  SkillsDir : string; RolesDir : string; Layout : option SplitLayout.t; WALCheckpoint : string; StepPlan : string
}.
#[global] Instance t_eta : Eta t := λ c, mk (DefaultProvider c) (DefaultEmbeddingProvider c) (GlobalFallback c) (Providers c)
  (Skills c) (MCPs c) (Roles c) (RoleGroups c) (SOPs c) (ExternalRuntimes c) (System c) (EnableDynamicRoleGen c)
  (EnableEphemeralRoleGen c) (RequirePlanReview c) (SwarmModeEnabled c) (RoleCookbookSource c) (RoleCookbookSources c)
  (SkillsDir c) (RolesDir c) (Layout c) (WALCheckpoint c) (StepPlan c).
End Config.
Module Reg.
Record t := mk {
  DefaultProvider : string; DefaultEmbeddingProvider : string; GlobalFallback : list Provider.t; Providers : gmap string Provider.t;
  Skills : gmap string Item.t; MCPs : gmap string Item.t; Roles : gmap string RoleDef.t; SOPs : gmap string Item.t; RoleGroups : gmap string Item.t;
  System : SystemSettings.t; ExternalRuntimes : string; EnableDynamicRoleGen : bool; EnableEphemeralRoleGen : bool;
  RequirePlanReview : bool; SwarmModeEnabled : bool; StepPlan : string; RoleCookbookSource : string;
  RoleCookbookSources : gmap string string; SkillsDir : string; RolesDir : string; splitLayout : option SplitLayout.t; walCheckpoint : string
}.
#[global] Instance t_eta : Eta t := λ r, mk (DefaultProvider r) (DefaultEmbeddingProvider r) (GlobalFallback r) (Providers r)
  (Skills r) (MCPs r) (Roles r) (SOPs r) (RoleGroups r) (System r) (ExternalRuntimes r) (EnableDynamicRoleGen r)
  (EnableEphemeralRoleGen r) (RequirePlanReview r) (SwarmModeEnabled r) (StepPlan r) (RoleCookbookSource r)
  (RoleCookbookSources r) (SkillsDir r) (RolesDir r) (splitLayout r) (walCheckpoint r).
End Reg.

(** ** Defaults and overrides *)

Definition or_default (d z : Z) : Z := if z =? 0 then d else z.
Definition float_zero (x : float64) : bool := match x with S754_zero _ => true | _ => false end.
Definition seven_tenths : float64 := S754_finite false 6305039478318694 (-53).
Definition truthy (v : string) : bool := bool_decide (v = "true" ∨ v = "1").
Definition EqualFold (s t : string) : bool := String.eqb (to_lower s) (to_lower t).
Definition truthy_fold (v : string) : bool := String.eqb v "1" || EqualFold v "true" || EqualFold v "yes".

Section config.
Context (Getenv : string → string).

(** An override: unset leaves the value. *)
Definition override {A} (key : string) (f : string → A → A) (a : A) : A :=
  let v := Getenv key in if String.eqb v "" then a else f v a.
Definition suppressRoleGenInDelegationMode (r : Reg.t) : Reg.t :=
  if SystemSettings.DelegationMode (Reg.System r)
  then r <| Reg.EnableEphemeralRoleGen := false |> <| Reg.EnableDynamicRoleGen := false |> else r.
Definition fill_zeros (s : SystemSettings.t) : SystemSettings.t :=
  s <| SystemSettings.ConfidenceThreshold ::= λ x, if float_zero x then seven_tenths else x |>
    <| SystemSettings.MaxDecisionOutcomes ::= or_default 2000 |> <| SystemSettings.MaxContextKeep ::= or_default 100 |>
    <| SystemSettings.DefaultJITTTL ::= or_default 3600 |> <| SystemSettings.SandboxedMemoryMB ::= or_default 256 |>
    <| SystemSettings.SandboxedCPUSecs ::= or_default 30 |> <| SystemSettings.MaxLogSizeMB ::= or_default 100 |>.
(** An integer that the text gives, if it passes. *)
Definition number (ok : Z → bool) (v : string) (z : Z) : Z := match Atoi v with Some n => if ok n then n else z | None => z end.
Definition env_flags (f : FeatureFlags.t) : FeatureFlags.t :=
  FeatureFlags.mk
    (override "VORTEX_DEBUG" (λ _ _, true) (FeatureFlags.Debug f))
    (override "VORTEX_CORE_TOOLS_ORDER" (λ v _, String.eqb v "last") (FeatureFlags.CoreToolsOrderLast f))
    (override "VORTEX_DISABLE_FORCE_TOOL" (λ v _, String.eqb v "1") (FeatureFlags.DisableForceTool f))
    (override "VORTEX_DISABLE_EGRESS_REDACTION" (λ v _, String.eqb v "1") (FeatureFlags.DisableEgressRedaction f))
    (override "VORTEX_DISABLE_CGROUP_SANDBOX" (λ v _, String.eqb v "1") (FeatureFlags.DisableCgroupSandbox f))
    (override "VORTEX_DISABLE_PATTERN_KILL" (λ v _, String.eqb v "1") (FeatureFlags.DisablePatternKill f))
    (override "VORTEX_DISABLE_THINKING" (λ v _, truthy_fold (TrimSpace v)) (FeatureFlags.DisableThinking f))
    (override "VORTEX_EVAL_OBS" (λ _ _, true) (FeatureFlags.EvalObs f))
    (override "VORTEX_FS_ONLY_STREAK_LIMIT" (number (λ n, 0 <? n)) (FeatureFlags.FSOnlyStreakLimit f))
    (override "VORTEX_ZERO_EFFECT_NUDGE" (λ v _, truthy_fold v) (FeatureFlags.ZeroEffectNudge f))
    (override "VORTEX_MID_ABANDON_NUDGE" (λ v _, truthy_fold v) (FeatureFlags.MidAbandonNudge f))
    (let v := TrimSpace (Getenv "VORTEX_STAGNATION_GRACE_TURNS") in
     if String.eqb v "" then FeatureFlags.StagnationGraceTurns f else number (λ n, 0 <=? n) v (FeatureFlags.StagnationGraceTurns f)).
Definition system_defaults (s : SystemSettings.t) : SystemSettings.t :=
  let s := (fill_zeros s) <| SystemSettings.SwarmFallbackDelay ::= or_default 10 |>
             <| SystemSettings.Bookmarks ::= λ b, Some (default [] b) |> <| SystemSettings.ExternalInterceptors ::= λ b, Some (default [] b) |>
             <| SystemSettings.SyncIntervalMins ::= or_default 60 |> in
  let s := override "VORTEX_DELEGATION_MODE" (λ v s, s <| SystemSettings.DelegationMode := truthy v |>) s in
  let s := override "VORTEX_MEMORY_BANK_ENABLED" (λ v s, s <| SystemSettings.MemoryBankEnabled := Some (truthy v) |>) s in
  s <| SystemSettings.Flags ::= env_flags |>.
Definition applySystemDefaults (r : Reg.t) : Reg.t := suppressRoleGenInDelegationMode (r <| Reg.System ::= system_defaults |>).

Definition default_sources : gmap string string :=
  {["claude" := "github:anthropics/anthropic-cookbook"; "gemini" := "github:google-gemini/cookbook"; "default" := "github:anthropics/anthropic-cookbook"]}.
Definition standardSkills : list Item.t := [Item.mk "read_file" "Read content of a file from disk."; Item.mk "code_search" "Search for symbols or text across the project."].
Definition registerStandardSkillsLocked (r : Reg.t) : Reg.t := r <| Reg.Skills ::= λ m, foldl (λ m s, <[Item.ID s := s]> m) m standardSkills |>.
Definition bootstrapDefaultsLocked (r : Reg.t) : Reg.t :=
  registerStandardSkillsLocked
    (r <| Reg.DefaultProvider := "default" |> <| Reg.Providers ::= <["default" := Provider.mk "default" "anthropic"]> |>
       <| Reg.System ::= λ s, (fill_zeros s) <| SystemSettings.DefaultTaskTokenBudget ::= or_default 200000 |>
                                <| SystemSettings.MemoryBankEnabled ::= λ b, Some (default true b) |> |>
       <| Reg.EnableDynamicRoleGen := true |> <| Reg.EnableEphemeralRoleGen := true |> <| Reg.RoleCookbookSources := default_sources |>).

(** ** Roles that extend others *)

Fixpoint merge_by {A} (key : A → string) (seen : list string) (extra : list A) : list A :=
  match extra with
  | [] => []
  | x :: extra' => if decide (key x ∈ seen) then merge_by key seen extra' else x :: merge_by key (key x :: seen) extra'
  end.
Definition mergeUnique (base extra : list string) : list string := base ++ merge_by id base extra.
Definition mergeMCPBindings (base extra : list MCPBinding.t) : list MCPBinding.t :=
  base ++ merge_by MCPBinding.MCPID (MCPBinding.MCPID <$> base) extra.
(** One role takes over what its parent binds at that moment. *)
Definition extend_role (parsed : gmap string RoleDef.t) (role : RoleDef.t) : RoleDef.t :=
  if String.eqb (RoleDef.Extends role) "" then role
  else match parsed !! RoleDef.Extends role with
       | Some parent =>
           role <| RoleDef.BoundSkills := mergeUnique (RoleDef.BoundSkills parent) (RoleDef.BoundSkills role) |>
                <| RoleDef.BoundMCPBindings := mergeMCPBindings (RoleDef.BoundMCPBindings parent) (RoleDef.BoundMCPBindings role) |>
       | None => role
       end.
(** The roles are visited in some order, and a role that was visited is what
    the roles that extend it see. *)
Definition extend_roles (order : list string) (parsed : gmap string RoleDef.t) : gmap string RoleDef.t :=
  foldl (λ parsed id, match parsed !! id with Some role => <[id := extend_role parsed role]> parsed | None => parsed end) parsed order.
Definition orchestrator_default : RoleDef.t := RoleDef.mk "orchestrator_default" "" [] [] "Orchestrator Default".

(** ** Split files

    A section is a file with a list, or a directory with a file per item. *)
Inductive SplitSection (A : Type) := SFile (items : list A) | SDir (items : gmap string A).
#[local] Arguments SFile {A}. #[local] Arguments SDir {A}.
Record Sections := mkSections {
  s_items : gmap string (SplitSection Item.t); s_roles : gmap string (SplitSection RoleDef.t)
}.
#[export] Instance Sections_eta : Eta Sections := λ s, mkSections (s_items s) (s_roles s).
(** The items of a directory are read in the order of their file names. *)
Definition loadSection {A} (m : gmap string (SplitSection A)) (path : string) : list A :=
  match m !! Clean path with
  | Some (SFile l) => l
  | Some (SDir d) => omap (λ id, d !! id) (sort_strings (elements (dom d)))
  | None => []
  end.
(** Roles are read twice; skills are not read. *)
Definition loadSplitFiles (s : Sections) (cfg : Config.t) : Config.t :=
  match Config.Layout cfg with
  | None => cfg
  | Some sl =>
      cfg <| Config.MCPs ::= λ l, l ++ loadSection (s_items s) (SplitLayout.MCPs sl) |>
          <| Config.Roles ::= λ l, l ++ loadSection (s_roles s) (SplitLayout.Roles sl) ++ loadSection (s_roles s) (SplitLayout.Roles sl) |>
          <| Config.RoleGroups ::= λ l, l ++ loadSection (s_items s) (SplitLayout.RoleGroups sl) |>
          <| Config.SOPs ::= λ l, l ++ loadSection (s_items s) (SplitLayout.SOPs sl) |>
  end.

Definition is_dir_path (path : string) (n : nat) : bool := bool_decide (last (bytes path) = Some slash) || (20 <? Z.of_nat n).
Definition by_id {A} (id : A → string) (items : list A) : gmap string A :=
  list_to_map (reverse ((λ x, (id x, x)) <$> filter (λ x, id x ≠ "") items)).
(** A directory where a list was, or the other way round, is an error. *)
Definition writeSection {A} (id : A → string) (path : string) (items : list A) (m : gmap string (SplitSection A)) : result string (gmap string (SplitSection A)) :=
  if String.eqb path "" then Ok m
  else if is_dir_path path (length items) then
    match m !! Clean path with
    | Some (SFile _) => Err ("creating directory " +:+ path)%string
    | _ => Ok (<[Clean path := SDir (by_id id items)]> m)
    end
  else match m !! Clean path with
       | Some (SDir _) => Err ("writing section to " +:+ path)%string
       | _ => Ok (<[Clean path := SFile items]> m)
       end.

(** What is on disk: the main file, which may be missing or not decode, its
    backup, and the sections. *)
Record Disk := mkDisk { d_main : option (option Config.t); d_bak : option (option Config.t); d_sections : Sections }.
#[export] Instance Disk_eta : Eta Disk := λ d, mkDisk (d_main d) (d_bak d) (d_sections d).
(** The sections are written one after another, then the main file. *)
Definition writeSplit (cfg : Config.t) (sl : SplitLayout.t) (d : Disk) : Disk * option string :=
  let put_item path l (d : Disk) := match writeSection Item.ID path l (s_items (d_sections d)) with
                                    | Ok m => (d <| d_sections ::= λ s, s <| s_items := m |> |>, None) | Err e => (d, Some e) end in
  let put_role path l (d : Disk) := match writeSection RoleDef.ID path l (s_roles (d_sections d)) with
                                    | Ok m => (d <| d_sections ::= λ s, s <| s_roles := m |> |>, None) | Err e => (d, Some e) end in
  match put_item (SplitLayout.MCPs sl) (Config.MCPs cfg) d with
  | (d, Some e) => (d, Some e)
  | (d, None) =>
  match put_role (SplitLayout.Roles sl) (Config.Roles cfg) d with
  | (d, Some e) => (d, Some e)
  | (d, None) =>
  match put_item (SplitLayout.RoleGroups sl) (Config.RoleGroups cfg) d with
  | (d, Some e) => (d, Some e)
  | (d, None) =>
  match put_item (SplitLayout.Skills sl) (Config.Skills cfg) d with
  | (d, Some e) => (d, Some e)
  | (d, None) =>
  match put_item (SplitLayout.SOPs sl) (Config.SOPs cfg) d with
  | (d, Some e) => (d, Some e)
  | (d, None) =>
      let main := cfg <| Config.Layout := Some sl |> <| Config.MCPs := [] |> <| Config.Roles := [] |> <| Config.RoleGroups := [] |>
                      <| Config.Skills := [] |> <| Config.SOPs := [] |> in
      (d <| d_main := Some (Some main) |>, None)
  end end end end end.
Definition default_layout : SplitLayout.t :=
  SplitLayout.mk 2 "workspace/mcps/" "workspace/roles/" "workspace/role_groups/" "workspace/skills/" "workspace/sops/".
(** [too_big] says whether the whole is above the threshold of splitting; the
    layout in use afterwards. *)
Definition persistSplitOrWhole (too_big : Config.t → bool) (existing : option SplitLayout.t) (cfg : Config.t) (d : Disk)
    : Disk * option SplitLayout.t * option string :=
  let split sl := match writeSplit cfg sl d with (d, None) => (d, Some sl, None) | (d, Some e) => (d, existing, Some e) end in
  match existing with
  | Some sl => split sl
  | None => if negb (too_big cfg) then (d <| d_main := Some (Some cfg) |>, None, None) else split default_layout
  end.

(** ** Loading *)

Definition currentSplitLayoutVersion : Z := 2.
Definition checkSplitLayoutVersion (sl : option SplitLayout.t) : option string :=
  match sl with
  | Some sl => if currentSplitLayoutVersion <? SplitLayout.Version sl then Some "config split layout version is newer than this binary supports"%string else None
  | None => None
  end.
(** What is in the environment of a load: may assets outside the binary be
    used, do they verify, and what do their folders hold. *)
Record Assets := mkAssets { a_allowed : bool; a_error : option string; a_skills : list Item.t; a_roles : gmap string RoleDef.t }.
Definition put_all {A} (id : A → string) (l : list A) (m : gmap string A) : gmap string A := foldl (λ m x, <[id x := x]> m) m l.
Definition nonempty_ids {A} (id : A → string) (l : list A) : list A := filter (λ x, id x ≠ "") l.
Definition load_providers (m : gmap string Provider.t) : gmap string Provider.t :=
  map_imap (λ name p, if String.eqb name "" then None else Some (p <| Provider.PoolID ::= λ id, if String.eqb id "" then name else id |>)) m.
Definition load_roles (order : list string) (assets : Assets) (previous : option RoleDef.t) (l : list RoleDef.t) : gmap string RoleDef.t :=
  let parsed := put_all RoleDef.ID (nonempty_ids RoleDef.ID l) ∅ in
  let parsed := if a_allowed assets then a_roles assets ∪ parsed else parsed in
  let roles := put_all RoleDef.ID (omap (λ id, extend_roles order parsed !! id) order) ∅ in
  match roles !! "orchestrator_default"%string with
  | Some _ => roles
  | None => <["orchestrator_default" := default orchestrator_default previous]> roles
  end.
Definition load_skills (assets : Assets) (l : list Item.t) : gmap string Item.t :=
  put_all Item.ID l (put_all Item.ID (if a_allowed assets then a_skills assets else []) ∅).
(** The keys of the roles that are visited, in some order. *)
Context (order : gset string → list string).
Definition role_ids (assets : Assets) (l : list RoleDef.t) : gset string :=
  list_to_set (RoleDef.ID <$> nonempty_ids RoleDef.ID l) ∪ (if a_allowed assets then dom (a_roles assets) else ∅).

Definition load_config (assets : Assets) (cfg : Config.t) (r : Reg.t) : Reg.t :=
  let r := r <| Reg.DefaultProvider := if String.eqb (Config.DefaultProvider cfg) "" then "default"%string else Config.DefaultProvider cfg |>
             <| Reg.DefaultEmbeddingProvider := Config.DefaultEmbeddingProvider cfg |> <| Reg.GlobalFallback := Config.GlobalFallback cfg |>
             <| Reg.ExternalRuntimes := Config.ExternalRuntimes cfg |> <| Reg.System := Config.System cfg |> in
  let r := applySystemDefaults r in
  let r := suppressRoleGenInDelegationMode
             (r <| Reg.EnableDynamicRoleGen := Config.EnableDynamicRoleGen cfg |> <| Reg.EnableEphemeralRoleGen := Config.EnableEphemeralRoleGen cfg |>) in
  let r := r <| Reg.RequirePlanReview := Config.RequirePlanReview cfg |> <| Reg.SwarmModeEnabled := Config.SwarmModeEnabled cfg |>
             <| Reg.StepPlan := Config.StepPlan cfg |> <| Reg.RoleCookbookSource := Config.RoleCookbookSource cfg |>
             <| Reg.RoleCookbookSources := Config.RoleCookbookSources cfg |> <| Reg.SkillsDir := Config.SkillsDir cfg |>
             <| Reg.RolesDir := Config.RolesDir cfg |> <| Reg.walCheckpoint := Config.WALCheckpoint cfg |>
             <| Reg.Providers := load_providers (Config.Providers cfg) |> in
  let r := if bool_decide (Reg.Providers r = ∅) then applySystemDefaults (bootstrapDefaultsLocked r) else r in
  r <| Reg.Skills := load_skills assets (Config.Skills cfg) |>
    <| Reg.SOPs := put_all Item.ID (nonempty_ids Item.ID (Config.SOPs cfg)) ∅ |>
    <| Reg.MCPs := put_all Item.ID (nonempty_ids Item.ID (Config.MCPs cfg)) ∅ |>
    <| Reg.Roles ::= λ m, load_roles (order (role_ids assets (Config.Roles cfg))) assets (m !! "orchestrator_default"%string) (Config.Roles cfg) |>
    <| Reg.RoleGroups := put_all Item.ID (nonempty_ids Item.ID (Config.RoleGroups cfg)) ∅ |>.
(** The keyword lists of the process: absent keeps them, empty clears them. *)
Definition risk_keywords (s : SystemSettings.t) (k : RiskKeywords) : RiskKeywords :=
  let k := match SystemSettings.CriticalRiskKeywords s with
           | None => k | Some [] => ClearRiskTierKeywords ["critical"%string] k | Some l => SetRiskTierKeywords l [] k end in
  match SystemSettings.ModerateRiskKeywords s with
  | None => k | Some [] => ClearRiskTierKeywords ["moderate"%string] k | Some l => SetRiskTierKeywords [] l k end.
Definition parse_error : string := "parsing config".
Definition is_corrupt (e : string) : bool := contains parse_error e || contains "invalid character" e || contains "syntax error" e.
Definition loadLocked (assets : Assets) (d : Disk) (r : Reg.t) : Reg.t * option string :=
  match d_main d with
  | None => (applySystemDefaults (bootstrapDefaultsLocked r), None)
  | Some None => (r, Some parse_error)
  | Some (Some cfg) =>
      match checkSplitLayoutVersion (Config.Layout cfg) with
      | Some e => (r, Some e)
      | None =>
          let cfg := loadSplitFiles (d_sections d) cfg in
          let r := r <| Reg.splitLayout := Config.Layout cfg |> in
          match (if a_allowed assets then a_error assets else None) with
          | Some e => (r, Some ("fatal: asset integrity verification failed: " +:+ e)%string)
          | None => (load_config assets cfg r, None)
          end
      end
  end.
(** A backup is made once; a main file that does not decode is moved away and
    the backup takes its place.  (A file that does not decode is not empty.) *)
Definition loadWithFallbackLocked (assets : Assets) (d : Disk) (r : Reg.t) : Disk * Reg.t * option string :=
  let d := match d_bak d with None => d <| d_bak := d_main d |> | Some _ => d end in
  match loadLocked assets d r with
  | (r, None) => (d, r, None)
  | (r, Some e) =>
      if negb (is_corrupt e) then (d, r, Some e)
      else
        let d := d <| d_main := d_bak d |> <| d_bak := None |> in
        match (match d_main d with Some _ => loadLocked assets d r | None => (r, Some parse_error) end) with
        | (r, None) => (d, r, None)
        | (r, Some _) => (d, bootstrapDefaultsLocked r, None)
        end
  end.

(** ** Saving *)

Definition buildConfigSnapshotLocked (checkpoint : string) (r : Reg.t) : Config.t :=
  let values {A} (id : A → string) (m : gmap string A) : list A :=
    omap (λ k, x ← m !! k; if String.eqb k "" || String.eqb (id x) "" then None else Some x) (order (dom m)) in
  Config.mk (Reg.DefaultProvider r) "" (Reg.GlobalFallback r) (Reg.Providers r)
    (values Item.ID (Reg.Skills r)) (values Item.ID (Reg.MCPs r)) (values RoleDef.ID (Reg.Roles r)) (values Item.ID (Reg.RoleGroups r))
    (values Item.ID (Reg.SOPs r)) (Reg.ExternalRuntimes r) (Reg.System r) (Reg.EnableDynamicRoleGen r) (Reg.EnableEphemeralRoleGen r)
    false (Reg.SwarmModeEnabled r) (Reg.RoleCookbookSource r) (Reg.RoleCookbookSources r) (Reg.SkillsDir r) (Reg.RolesDir r) None checkpoint "".
(** [stale]: the file on disk is not the one that was read last. *)
Definition Persist (too_big : Config.t → bool) (stale : bool) (checkpoint : string) (r : Reg.t) (d : Disk) : Disk * Reg.t * option string :=
  if stale then (d, r, Some "config file changed on disk since last load"%string)
  else let '(d, sl, err) := persistSplitOrWhole too_big (Reg.splitLayout r) (buildConfigSnapshotLocked checkpoint r) d in
       (d, r <| Reg.splitLayout := sl |>, err).
End config.

Arguments SFile {A}.
Arguments SDir {A}.

(** ** What loading guarantees *)

Section properties.
Context (Getenv : string → string) (order : gset string → list string) (Horder : ∀ X, order X ≡ₚ elements X).

Lemma override_idem {A} key (f : string → A → A) a : (∀ v x, f v (f v x) = f v x) → override Getenv key f (override Getenv key f a) = override Getenv key f a.
Proof. intros Hf. unfold override. by destruct (String.eqb _ _). Qed.
Lemma number_idem ok v z : number ok v (number ok v z) = number ok v z.
Proof. unfold number. destruct (Atoi v) as [n|]; [|done]. by destruct (ok n). Qed.
Lemma env_flags_idem f : env_flags Getenv (env_flags Getenv f) = env_flags Getenv f.
Proof.
  unfold env_flags. cbn [FeatureFlags.Debug FeatureFlags.CoreToolsOrderLast FeatureFlags.DisableForceTool FeatureFlags.DisableEgressRedaction
    FeatureFlags.DisableCgroupSandbox FeatureFlags.DisablePatternKill FeatureFlags.DisableThinking FeatureFlags.EvalObs FeatureFlags.FSOnlyStreakLimit
    FeatureFlags.ZeroEffectNudge FeatureFlags.MidAbandonNudge FeatureFlags.StagnationGraceTurns].
  rewrite !override_idem by (done || apply number_idem). f_equal. destruct (String.eqb _ _); [done|apply number_idem].
Qed.
Lemma or_default_idem d z : or_default d (or_default d z) = or_default d z.
Proof. unfold or_default. destruct (z =? 0) eqn:E; [by destruct (d =? 0)|by rewrite E]. Qed.
Lemma confidence_idem x : (λ x : float64, if float_zero x then seven_tenths else x) ((λ x : float64, if float_zero x then seven_tenths else x) x) =
  (λ x : float64, if float_zero x then seven_tenths else x) x.
Proof. by destruct x. Qed.
Lemma system_defaults_idem s : system_defaults Getenv (system_defaults Getenv s) = system_defaults Getenv s.
Proof.
  destruct s. unfold system_defaults, fill_zeros, override.
  destruct (String.eqb (Getenv "VORTEX_DELEGATION_MODE") ""), (String.eqb (Getenv "VORTEX_MEMORY_BANK_ENABLED") "");
    cbv beta iota zeta delta -[env_flags or_default truthy float_zero seven_tenths]; rewrite !or_default_idem, env_flags_idem; repeat f_equal; repeat case_match; congruence.
Qed.

(** In delegation mode no role is generated. *)
Definition delegation_quiet (r : Reg.t) : Prop :=
  SystemSettings.DelegationMode (Reg.System r) = true → Reg.EnableDynamicRoleGen r = false ∧ Reg.EnableEphemeralRoleGen r = false.
Lemma suppress_quiet r : delegation_quiet (suppressRoleGenInDelegationMode r).
Proof. unfold delegation_quiet, suppressRoleGenInDelegationMode. destruct (SystemSettings.DelegationMode (Reg.System r)) eqn:E; [by destruct r|by rewrite E]. Qed.
Lemma load_config_quiet assets cfg r : delegation_quiet (load_config Getenv order assets cfg r).
Proof.
  unfold load_config. set (r1 := suppressRoleGenInDelegationMode (_ <| Reg.EnableEphemeralRoleGen := _ |>)).
  pose proof (suppress_quiet (applySystemDefaults Getenv r <| Reg.EnableDynamicRoleGen := Config.EnableDynamicRoleGen cfg |>)) as _.
  assert (delegation_quiet r1) as H1 by apply suppress_quiet. clearbody r1. cbv zeta.
  destruct (bool_decide _).
  - pose proof (suppress_quiet) as Hs. unfold applySystemDefaults.
    match goal with |- context [suppressRoleGenInDelegationMode ?x] => pose proof (Hs x) as Hq; revert Hq; generalize (suppressRoleGenInDelegationMode x) end.
    intros r2 Hq. exact Hq.
  - exact H1.
Qed.

(** When a load succeeds in delegation mode, whether the file or the
    environment asks for it, the generation of roles is off, also on a first
    start and when no provider is configured. *)
Theorem delegation_suppresses assets d r r' : loadLocked Getenv order assets d r = (r', None) → delegation_quiet r'.
Proof.
  unfold loadLocked. destruct (d_main d) as [[cfg|]|]; [|done|intros [= <-]; apply suppress_quiet].
  destruct (checkSplitLayoutVersion _); [done|]. destruct (if a_allowed assets then a_error assets else None); [done|].
  intros [= <-]. apply load_config_quiet.
Qed.

(** ** Saving and loading again *)

Definition keyed {A} (id : A → string) (m : gmap string A) : Prop := ∀ k x, m !! k = Some x → id x = k ∧ k ≠ ""%string.
(** A registry with nothing left for a load to do: keys are ids, defaults are
    filled, and every role has all that the role it extends has.  A load of a file
    with at least one provider and without external assets leaves such a registry if
    no role extends one that itself extends another ([load_normal]); with a chain of
    roles or with assets it may not ([chain_changes]). *)
Record normal (r : Reg.t) : Prop := {
  n_default : Reg.DefaultProvider r ≠ ""%string;
  n_some_provider : Reg.Providers r ≠ ∅;
  n_providers k p : Reg.Providers r !! k = Some p → k ≠ ""%string ∧ Provider.PoolID p ≠ ""%string;
  n_skills : keyed Item.ID (Reg.Skills r);
  n_mcps : keyed Item.ID (Reg.MCPs r);
  n_sops : keyed Item.ID (Reg.SOPs r);
  n_groups : keyed Item.ID (Reg.RoleGroups r);
  n_roles : keyed RoleDef.ID (Reg.Roles r);
  n_orchestrator : is_Some (Reg.Roles r !! "orchestrator_default"%string);
  n_extended k role : Reg.Roles r !! k = Some role → extend_role (Reg.Roles r) role = role;
  n_system : system_defaults Getenv (Reg.System r) = Reg.System r;
  n_delegation : delegation_quiet r
}.

Definition values_of {A} (id : A → string) (m : gmap string A) : list A :=
  omap (λ k, x ← m !! k; if String.eqb k "" || String.eqb (id x) "" then None else Some x) (order (dom m)).
Lemma order_dom {A} (m : gmap string A) k : k ∈ order (dom m) ↔ is_Some (m !! k).
Proof. by rewrite Horder, elem_of_elements, elem_of_dom. Qed.
Lemma values_of_elem {A} (id : A → string) m x : keyed id m → x ∈ values_of id m ↔ m !! id x = Some x.
Proof.
  intros Hm. unfold values_of. rewrite list_elem_of_omap. split.
  - intros (k & Hk & Hx). apply bind_Some in Hx as (y & Hy & Hx). destruct (_ || _); [done|]. injection Hx as <-.
    by destruct (Hm k y Hy) as [-> _].
  - intros Hx. destruct (Hm _ _ Hx) as [_ Hne]. exists (id x). split; [apply order_dom; by eexists|]. rewrite Hx. cbn.
    by destruct (String.eqb_spec (id x) "").
Qed.
Lemma put_all_lookup {A} (id : A → string) l : ∀ (m : gmap string A) k,
  (∀ x y, x ∈ l → y ∈ l → id x = id y → x = y) →
  (∀ x, x ∈ l → id x = k → put_all id l m !! k = Some x) ∧ ((∀ x, x ∈ l → id x ≠ k) → put_all id l m !! k = m !! k).
Proof.
  unfold put_all. induction l as [|y l IH]; intros m k Hl; [split; [intros x Hx; by apply elem_of_nil in Hx|done]|].
  assert (∀ x z, x ∈ l → z ∈ l → id x = id z → x = z) as Hl' by (intros x z Hx Hz; apply Hl; by right).
  destruct (IH (<[id y := y]> m) k Hl') as [IH1 IH2]. split.
  - intros x Hx Hk. destruct (decide (Exists (λ z, id z = k) l)) as [Hex|Hnex].
    + apply Exists_exists in Hex as (z & Hz & Hzk). cbn. rewrite (IH1 z Hz Hzk). f_equal. apply Hl; [by right|done|congruence].
    + cbn. rewrite IH2; [|intros z Hz Hzk; apply Hnex, Exists_exists; by exists z].
      apply elem_of_cons in Hx as [->|Hx]; [by subst k; rewrite (lookup_insert_eq m)|]. exfalso. apply Hnex, Exists_exists. by exists x.
  - intros Hno. cbn. rewrite IH2 by (intros x Hx; apply Hno; by right). apply (lookup_insert_ne m). apply Hno. by left.
Qed.
Lemma put_values {A} (id : A → string) (m : gmap string A) l : keyed id m → (∀ x, x ∈ l ↔ x ∈ values_of id m) → put_all id l ∅ = m.
Proof.
  intros Hm Hl. apply map_eq. intros k.
  assert (∀ x, x ∈ l ↔ m !! id x = Some x) as Hin by (intros x; rewrite Hl; by apply values_of_elem).
  destruct (put_all_lookup id l ∅ k) as [H1 H2]; [intros x y Hx%Hin Hy%Hin Heq; congruence|].
  destruct (m !! k) as [x|] eqn:Hk.
  - destruct (Hm k x Hk) as [Hid _]. apply H1; [apply Hin; by rewrite Hid|done].
  - rewrite H2; [apply (lookup_empty (M := gmap string))|]. intros x Hx%Hin Hid. congruence.
Qed.
Lemma values_nonempty {A} (id : A → string) (m : gmap string A) x : keyed id m → x ∈ nonempty_ids id (values_of id m) ↔ x ∈ values_of id m.
Proof.
  intros Hm. unfold nonempty_ids. rewrite list_elem_of_filter. split; [by intros [_ ?]|]. intros Hx. split; [|done].
  apply values_of_elem in Hx; [|done]. by destruct (Hm _ _ Hx) as [_ ?].
Qed.

Lemma load_saved_providers r : normal r → load_providers (Reg.Providers r) = Reg.Providers r.
Proof.
  intros Hn. apply map_eq. intros k. unfold load_providers. rewrite map_lookup_imap. destruct (Reg.Providers r !! k) as [p|] eqn:Hk; [|done].
  destruct (n_providers r Hn k p Hk) as [Hne Hid]. cbn. destruct (String.eqb_spec k ""); [done|]. f_equal. destruct p as [id b].
  unfold update. cbn in *. by destruct (String.eqb_spec id "").
Qed.
Lemma extend_roles_fixed parsed ks : (∀ k role, parsed !! k = Some role → extend_role parsed role = role) → extend_roles ks parsed = parsed.
Proof.
  intros Hfix. unfold extend_roles. induction ks as [|k ks IH]; [done|]. cbn [foldl]. destruct (parsed !! k) as [role|] eqn:Hk; [|done].
  rewrite (Hfix k role Hk), insert_id by done. apply IH.
Qed.
Lemma load_saved_roles r assets previous : normal r → a_allowed assets = false →
  load_roles (order (role_ids assets (values_of RoleDef.ID (Reg.Roles r)))) assets previous (values_of RoleDef.ID (Reg.Roles r)) = Reg.Roles r.
Proof.
  intros Hn Hoff. unfold load_roles, role_ids. rewrite Hoff.
  assert (put_all RoleDef.ID (nonempty_ids RoleDef.ID (values_of RoleDef.ID (Reg.Roles r))) ∅ = Reg.Roles r) as ->
    by (apply put_values; [apply Hn|intros x; apply values_nonempty, Hn]).
  rewrite extend_roles_fixed by apply Hn.
  rewrite (put_values RoleDef.ID (Reg.Roles r)); [|apply Hn|].
  - destruct (n_orchestrator r Hn) as [x ->]. done.
  - intros x. rewrite list_elem_of_omap, values_of_elem by apply Hn. split.
    + intros (k & _ & Hx). by destruct (n_roles r Hn k x Hx) as [-> _].
    + intros Hx. exists (RoleDef.ID x). split; [|done]. rewrite Horder, elem_of_elements, elem_of_union, elem_of_list_to_set. left.
      apply list_elem_of_fmap. exists x. split; [done|]. apply values_nonempty; [apply Hn|]. apply values_of_elem; [apply Hn|done].
Qed.
Lemma suppress_eq r : suppressRoleGenInDelegationMode r =
  r <| Reg.EnableEphemeralRoleGen ::= λ b, if SystemSettings.DelegationMode (Reg.System r) then false else b |>
    <| Reg.EnableDynamicRoleGen ::= λ b, if SystemSettings.DelegationMode (Reg.System r) then false else b |>.
Proof. unfold suppressRoleGenInDelegationMode. destruct r. by destruct (SystemSettings.DelegationMode _). Qed.
Lemma reg_ext r r' :
  Reg.DefaultProvider r = Reg.DefaultProvider r' → Reg.DefaultEmbeddingProvider r = Reg.DefaultEmbeddingProvider r' →
  Reg.GlobalFallback r = Reg.GlobalFallback r' → Reg.Providers r = Reg.Providers r' → Reg.Skills r = Reg.Skills r' →
  Reg.MCPs r = Reg.MCPs r' → Reg.Roles r = Reg.Roles r' → Reg.SOPs r = Reg.SOPs r' → Reg.RoleGroups r = Reg.RoleGroups r' →
  Reg.System r = Reg.System r' → Reg.ExternalRuntimes r = Reg.ExternalRuntimes r' → Reg.EnableDynamicRoleGen r = Reg.EnableDynamicRoleGen r' →
  Reg.EnableEphemeralRoleGen r = Reg.EnableEphemeralRoleGen r' → Reg.RequirePlanReview r = Reg.RequirePlanReview r' →
  Reg.SwarmModeEnabled r = Reg.SwarmModeEnabled r' → Reg.StepPlan r = Reg.StepPlan r' → Reg.RoleCookbookSource r = Reg.RoleCookbookSource r' →
  Reg.RoleCookbookSources r = Reg.RoleCookbookSources r' → Reg.SkillsDir r = Reg.SkillsDir r' → Reg.RolesDir r = Reg.RolesDir r' →
  Reg.splitLayout r = Reg.splitLayout r' → Reg.walCheckpoint r = Reg.walCheckpoint r' → r = r'.
Proof. destruct r, r'. cbn. intros. by subst. Qed.

(** The settings that are read but never written. *)
Definition forget_unsaved (checkpoint : string) (r : Reg.t) : Reg.t :=
  r <| Reg.DefaultEmbeddingProvider := "" |> <| Reg.RequirePlanReview := false |> <| Reg.StepPlan := "" |> <| Reg.walCheckpoint := checkpoint |>.
Lemma load_saved assets checkpoint r r0 : normal r → a_allowed assets = false → Reg.splitLayout r0 = Reg.splitLayout r →
  load_config Getenv order assets (buildConfigSnapshotLocked order checkpoint r) r0 = forget_unsaved checkpoint r.
Proof.
  intros Hn Hoff Hl. pose proof (n_system r Hn) as Hsys. pose proof (n_delegation r Hn) as Hdel.
  unfold load_config, applySystemDefaults. rewrite !suppress_eq. cbv zeta.
  rewrite bool_decide_eq_false_2.
  2:{ change (load_providers (Reg.Providers r) ≠ ∅). rewrite load_saved_providers by done. apply Hn. }
  apply reg_ext; try reflexivity.
  - change ((if String.eqb (Reg.DefaultProvider r) "" then "default" else Reg.DefaultProvider r) = Reg.DefaultProvider r).
    destruct (String.eqb_spec (Reg.DefaultProvider r) ""); [|done]. by destruct (n_default r Hn).
  - by apply (load_saved_providers r).
  - change (load_skills assets (values_of Item.ID (Reg.Skills r)) = Reg.Skills r). unfold load_skills. rewrite Hoff.
    apply put_values; [apply Hn|done].
  - apply (put_values Item.ID (Reg.MCPs r)); [apply Hn|]. intros x. apply values_nonempty, Hn.
  - by apply (load_saved_roles r assets).
  - apply (put_values Item.ID (Reg.SOPs r)); [apply Hn|]. intros x. apply values_nonempty, Hn.
  - apply (put_values Item.ID (Reg.RoleGroups r)); [apply Hn|]. intros x. apply values_nonempty, Hn.
  - exact Hsys.
  - change ((if SystemSettings.DelegationMode (system_defaults Getenv (Reg.System r)) then false else Reg.EnableDynamicRoleGen r) = Reg.EnableDynamicRoleGen r).
    rewrite Hsys. destruct (SystemSettings.DelegationMode _) eqn:E; [|done]. by destruct (Hdel E) as [-> _].
  - change ((if SystemSettings.DelegationMode (system_defaults Getenv (Reg.System r)) then false else Reg.EnableEphemeralRoleGen r) = Reg.EnableEphemeralRoleGen r).
    rewrite Hsys. destruct (SystemSettings.DelegationMode _) eqn:E; [|done]. by destruct (Hdel E) as [_ ->].
  - exact Hl.
Qed.

Lemma load_unsplit s cfg : Config.Layout cfg = None → loadSplitFiles s cfg = cfg.
Proof. unfold loadSplitFiles. by intros ->. Qed.

(** C36: Take a registry whose keys are its ids, whose defaults are filled, which has a
    provider, and in which every role already has the skills and bindings of the role
    it extends -- what a load leaves when no role of the file extends one that itself
    extends another ([load_normal]); with a chain of roles the skills of a role may
    grow at the next start ([chain_changes]).  Let external assets be off, and the
    configuration be one file and not too big.  Saved whole, the registry is read
    back, by whatever process starts next under the same environment, as the registry
    it was, with exactly four settings reset: the embedding provider, the plan review,
    the step plan and the checkpoint. *)
Theorem restart_after_save assets too_big checkpoint r d r0 :
  normal r → a_allowed assets = false → Reg.splitLayout r = None → too_big (buildConfigSnapshotLocked order checkpoint r) = false →
  ∃ d', Persist order too_big false checkpoint r d = (d', r, None) ∧
    loadLocked Getenv order assets d' r0 = (forget_unsaved checkpoint r, None).
Proof.
  intros Hn Hoff Hl Hsmall. unfold Persist, persistSplitOrWhole. rewrite Hl, Hsmall. eexists. split.
  - cbn [negb]. f_equal. f_equal. apply reg_ext; try reflexivity. exact (eq_sym Hl).
  - unfold loadLocked. change (match d_main _ with None => ?a | Some None => ?b | Some (Some cfg) => @?c cfg end)
      with (c (buildConfigSnapshotLocked order checkpoint r)). cbv beta.
    rewrite Hoff, load_unsplit, load_saved by (done || by rewrite Hl). done.
Qed.

(** ** What loading makes normal *)

Lemma merge_by_seen {A} (key : A → string) seen l extra : (∀ x, x ∈ l → key x ∈ seen) → merge_by key seen (l ++ extra) = merge_by key seen extra.
Proof.
  induction l as [|x l IH]; [done|]. intros Hl. cbn. rewrite decide_True by (apply Hl; by left). apply IH. intros y Hy. apply Hl. by right.
Qed.
Lemma merge_by_idem {A} (key : A → string) extra : ∀ seen, merge_by key seen (merge_by key seen extra) = merge_by key seen extra.
Proof.
  induction extra as [|x extra IH]; intros seen; [done|]. cbn. case_decide as Hx; [apply IH|]. cbn. by rewrite decide_False, IH by done.
Qed.
Lemma mergeUnique_idem base extra : mergeUnique base (mergeUnique base extra) = mergeUnique base extra.
Proof. unfold mergeUnique. by rewrite merge_by_seen, merge_by_idem. Qed.
Lemma mergeMCPBindings_idem base extra : mergeMCPBindings base (mergeMCPBindings base extra) = mergeMCPBindings base extra.
Proof.
  unfold mergeMCPBindings. rewrite merge_by_seen, merge_by_idem; [done|]. intros x Hx. by apply list_elem_of_fmap_2.
Qed.

(** No role extends one that extends another. *)
Definition no_chains (parsed : gmap string RoleDef.t) : Prop :=
  ∀ k role parent, parsed !! k = Some role → RoleDef.Extends role ≠ ""%string → parsed !! RoleDef.Extends role = Some parent → RoleDef.Extends parent = ""%string.
Lemma extend_role_fields parsed role : RoleDef.ID (extend_role parsed role) = RoleDef.ID role ∧ RoleDef.Extends (extend_role parsed role) = RoleDef.Extends role.
Proof. unfold extend_role. destruct (String.eqb _ _); [done|]. by destruct (parsed !! _). Qed.
Lemma extend_role_parent parsed parsed' role :
  (RoleDef.Extends role ≠ ""%string → parsed !! RoleDef.Extends role = parsed' !! RoleDef.Extends role) → extend_role parsed role = extend_role parsed' role.
Proof. unfold extend_role. destruct (String.eqb_spec (RoleDef.Extends role) ""); [done|]. intros H. by rewrite H. Qed.
Lemma extend_role_idem parsed role : extend_role parsed (extend_role parsed role) = extend_role parsed role.
Proof.
  unfold extend_role at 1. destruct (extend_role_fields parsed role) as [_ ->].
  destruct (String.eqb_spec (RoleDef.Extends role) "") as [He|He]; [done|]. destruct (parsed !! RoleDef.Extends role) as [p|] eqn:Hp; [|done].
  unfold extend_role. rewrite Hp. destruct (String.eqb_spec (RoleDef.Extends role) ""); [done|]. destruct role as [i e sk b bd].
  unfold update. cbn. by rewrite mergeUnique_idem, mergeMCPBindings_idem.
Qed.
Lemma extend_roles_flat parsed ks : no_chains parsed → NoDup ks →
  ∀ k, extend_roles ks parsed !! k = if decide (k ∈ ks) then extend_role parsed <$> parsed !! k else parsed !! k.
Proof.
  intros Hflat. unfold extend_roles. induction ks as [|k0 ks IH] using rev_ind; intros Hnd k; [by rewrite decide_False by apply not_elem_of_nil|].
  apply NoDup_app in Hnd as (Hnd & Hdisj & _). specialize (IH Hnd). rewrite foldl_app. set (E := foldl _ parsed ks) in *. clearbody E. cbn [foldl].
  assert (k0 ∉ ks) as Hk0 by (intros Hin; apply (Hdisj k0 Hin); by left).
  assert (E !! k0 = parsed !! k0) as H0 by (by rewrite IH, decide_False). rewrite H0.
  destruct (parsed !! k0) as [role|] eqn:Hr.
  - assert (extend_role E role = extend_role parsed role) as Hext.
    { apply extend_role_parent. intros He. rewrite IH. case_decide; [|done]. destruct (parsed !! RoleDef.Extends role) as [p|] eqn:Hp; [|done].
      cbn. f_equal. unfold extend_role. by rewrite (Hflat k0 role p Hr He Hp), String.eqb_refl. }
    rewrite Hext. destruct (decide (k = k0)) as [->|Hne].
    + rewrite (lookup_insert_eq E), decide_True by (apply elem_of_app; right; by left). by rewrite Hr.
    + rewrite (lookup_insert_ne E) by done. rewrite IH. apply decide_ext. rewrite elem_of_app, list_elem_of_singleton. naive_solver.
  - rewrite IH. destruct (decide (k = k0)) as [->|Hne].
    + rewrite !Hr. by repeat case_decide.
    + apply decide_ext. rewrite elem_of_app, list_elem_of_singleton. naive_solver.
Qed.

Lemma put_all_elem {A} (id : A → string) l k x : put_all id l ∅ !! k = Some x → x ∈ l ∧ id x = k.
Proof.
  unfold put_all. induction l as [|y l IH] using rev_ind; [intros H; destruct (lookup_empty_Some (M := gmap string) k x H)|]. rewrite foldl_app. cbn.
  destruct (decide (id y = k)) as [<-|Hne].
  - rewrite (lookup_insert_eq (M := gmap string)). intros [= <-]. split; [|done]. apply elem_of_app. right. by left.
  - rewrite (lookup_insert_ne (M := gmap string)) by done. intros H. destruct (IH H). split; [|done]. apply elem_of_app. by left.
Qed.
Lemma put_all_keyed {A} (id : A → string) l : (∀ x, x ∈ l → id x ≠ ""%string) → keyed id (put_all id l ∅).
Proof. intros Hl k x [Hx <-]%put_all_elem. auto. Qed.
Lemma nonempty_ids_ne {A} (id : A → string) (l : list A) x : x ∈ nonempty_ids id l → id x ≠ ""%string.
Proof. unfold nonempty_ids. by intros [? _]%list_elem_of_filter. Qed.
Lemma put_all_dom {A} (id : A → string) l k : is_Some (put_all id l ∅ !! k) ↔ k ∈ id <$> l.
Proof.
  unfold put_all. induction l as [|y l IH] using rev_ind; [split; [intros [x H]; destruct (lookup_empty_Some (M := gmap string) k x H)|intros H; by apply elem_of_nil in H]|].
  rewrite foldl_app, fmap_app, elem_of_app. cbn. rewrite list_elem_of_singleton.
  destruct (decide (id y = k)) as [<-|Hne]; [rewrite (lookup_insert_eq (M := gmap string)); split; [by right|by eexists]|].
  rewrite (lookup_insert_ne (M := gmap string)), IH by done. naive_solver.
Qed.

(** The roles of a file: keyed by their ids, the last of several wins. *)
Definition parsed_roles (cfg : Config.t) : gmap string RoleDef.t := put_all RoleDef.ID (nonempty_ids RoleDef.ID (Config.Roles cfg)) ∅.
Definition known_default (parsed : gmap string RoleDef.t) : Prop :=
  is_Some (parsed !! "orchestrator_default"%string) ∨ ∀ k role, parsed !! k = Some role → RoleDef.Extends role ≠ "orchestrator_default"%string.
Lemma load_roles_flat assets cfg : a_allowed assets = false → no_chains (parsed_roles cfg) →
  load_roles (order (role_ids assets (Config.Roles cfg))) assets None (Config.Roles cfg) =
  let roles := extend_role (parsed_roles cfg) <$> parsed_roles cfg in
  match roles !! "orchestrator_default"%string with Some _ => roles | None => <["orchestrator_default"%string := orchestrator_default]> roles end.
Proof.
  intros Hoff Hflat. unfold load_roles, role_ids. rewrite Hoff. change (put_all RoleDef.ID (nonempty_ids RoleDef.ID (Config.Roles cfg)) ∅) with (parsed_roles cfg).
  set (ks := order _). assert (∀ k, k ∈ ks ↔ is_Some (parsed_roles cfg !! k)) as Hks.
  { intros k. unfold ks. rewrite Horder, elem_of_elements. unfold parsed_roles. rewrite put_all_dom. set_solver. }
  assert (NoDup ks) as Hnd by (unfold ks; rewrite Horder; apply NoDup_elements).
  assert (put_all RoleDef.ID (omap (λ id, extend_roles ks (parsed_roles cfg) !! id) ks) ∅ = extend_role (parsed_roles cfg) <$> parsed_roles cfg) as ->; [|done].
  assert (keyed RoleDef.ID (extend_role (parsed_roles cfg) <$> parsed_roles cfg)) as Hkeyed.
  { intros k x Hx. rewrite lookup_fmap in Hx. apply fmap_Some in Hx as (y & Hy & ->). destruct (extend_role_fields (parsed_roles cfg) y) as [-> _].
    revert Hy. apply put_all_keyed. intros ? ?%nonempty_ids_ne. done. }
  apply put_values; [done|]. intros x. rewrite values_of_elem, list_elem_of_omap by done. split.
  - intros (k & Hk & Hx). rewrite extend_roles_flat, decide_True in Hx by done. rewrite <- lookup_fmap in Hx. by destruct (Hkeyed k x Hx) as [-> _].
  - intros Hx. exists (RoleDef.ID x). rewrite lookup_fmap in Hx. split; [apply Hks; by destruct (parsed_roles cfg !! RoleDef.ID x); [|]; eexists|].
    rewrite extend_roles_flat, decide_True; [done|apply Hks|done|done]. by destruct (parsed_roles cfg !! RoleDef.ID x); [|]; eexists.
Qed.
Lemma loaded_roles_normal cfg : no_chains (parsed_roles cfg) → known_default (parsed_roles cfg) →
  let roles := extend_role (parsed_roles cfg) <$> parsed_roles cfg in
  let R := match roles !! "orchestrator_default"%string with Some _ => roles | None => <["orchestrator_default"%string := orchestrator_default]> roles end in
  keyed RoleDef.ID R ∧ is_Some (R !! "orchestrator_default"%string) ∧ ∀ k role, R !! k = Some role → extend_role R role = role.
Proof.
  intros Hflat Hknown. set (P := parsed_roles cfg) in *. cbv zeta.
  assert (keyed RoleDef.ID P) as HP by (apply put_all_keyed; by intros ? ?%nonempty_ids_ne).
  set (R := match _ with Some _ => _ | None => _ end).
  assert (∀ k, R !! k = if decide (k = "orchestrator_default" ∧ P !! k = None) then Some orchestrator_default else extend_role P <$> P !! k) as HR.
  { intros k. unfold R. rewrite lookup_fmap. destruct (P !! "orchestrator_default"%string) as [o|] eqn:Ho; cbn.
    - rewrite lookup_fmap. rewrite decide_False; [done|]. intros [-> ?]. congruence.
    - destruct (decide (k = "orchestrator_default"%string)) as [->|Hne].
      + rewrite (lookup_insert_eq (M := gmap string)), decide_True by done. done.
      + rewrite (lookup_insert_ne (M := gmap string)), lookup_fmap, decide_False by (done || by intros [? _]). done. }
  split_and!.
  - intros k x. rewrite HR. case_decide as Hk; [intros [= <-]; by destruct Hk as [-> _]|]. intros (y & Hy & ->)%fmap_Some.
    destruct (extend_role_fields P y) as [-> _]. by apply HP.
  - rewrite HR. case_decide as Hk; [by eexists|]. destruct (P !! "orchestrator_default"%string) eqn:E; [by eexists|]. exfalso. by apply Hk.
  - intros k role. rewrite HR. case_decide as Hk; [intros [= <-]; done|]. intros (y & Hy & ->)%fmap_Some.
    rewrite (extend_role_parent R P); [apply extend_role_idem|]. destruct (extend_role_fields P y) as [_ ->]. intros He. rewrite HR.
    case_decide as Hd.
    + destruct Hd as [Hd1 Hd2]. destruct Hknown as [[o Ho]|Hno]; [congruence|]. by destruct (Hno k y Hy).
    + destruct (P !! RoleDef.Extends y) as [p|] eqn:Hp; [|done]. cbn. f_equal. unfold extend_role.
      by rewrite (Hflat k y p Hy He Hp), String.eqb_refl.
Qed.

(** A start reads a file without chains of roles into a normal registry. *)
Lemma load_normal assets cfg r0 : Reg.Roles r0 = ∅ → a_allowed assets = false → no_chains (parsed_roles cfg) → known_default (parsed_roles cfg) →
  (∀ s, s ∈ Config.Skills cfg → Item.ID s ≠ ""%string) → normal (load_config Getenv order assets cfg r0).
Proof.
  intros Hr0 Hoff Hflat Hknown Hsk. pose proof (load_config_quiet assets cfg r0) as Hquiet.
  pose proof (load_roles_flat assets cfg Hoff Hflat) as HL. pose proof (loaded_roles_normal cfg Hflat Hknown) as HN.
  cbv zeta in HL, HN. rewrite <- HL in HN. destruct HN as (Hk & Ho & He).
  assert (∀ l, keyed Item.ID (put_all Item.ID (nonempty_ids Item.ID l) ∅)) as Hitems by (intros l; apply put_all_keyed; by intros ? ?%nonempty_ids_ne).
  assert (Reg.Roles (load_config Getenv order assets cfg r0) =
    load_roles (order (role_ids assets (Config.Roles cfg))) assets None (Config.Roles cfg)) as Hroles.
  { unfold load_config, applySystemDefaults. rewrite !suppress_eq. cbv zeta. case_bool_decide;
      change (load_roles (order (role_ids assets (Config.Roles cfg))) assets (Reg.Roles r0 !! "orchestrator_default"%string) (Config.Roles cfg) =
        load_roles (order (role_ids assets (Config.Roles cfg))) assets None (Config.Roles cfg)); by rewrite Hr0. }
  assert (∃ s, Reg.System (load_config Getenv order assets cfg r0) = system_defaults Getenv s) as [s Hsys].
  { unfold load_config, applySystemDefaults. rewrite !suppress_eq. cbv zeta. case_bool_decide; by eexists. }
  assert (Reg.Providers (load_config Getenv order assets cfg r0) =
    if bool_decide (load_providers (Config.Providers cfg) = ∅) then {["default"%string := Provider.mk "default" "anthropic"]} else load_providers (Config.Providers cfg)) as Hprov.
  { unfold load_config, applySystemDefaults. rewrite !suppress_eq. cbv zeta.
    match goal with |- context [bool_decide (Reg.Providers ?x = ∅)] => change (Reg.Providers x) with (load_providers (Config.Providers cfg)) end.
    case_bool_decide as Hp; [|done].
    change (<["default"%string := Provider.mk "default" "anthropic"]> (load_providers (Config.Providers cfg)) = {["default"%string := Provider.mk "default" "anthropic"]}).
    by rewrite Hp. }
  assert (Reg.DefaultProvider (load_config Getenv order assets cfg r0) ≠ ""%string) as Hdef.
  { unfold load_config, applySystemDefaults. rewrite !suppress_eq. cbv zeta. 
    match goal with |- context [bool_decide (Reg.Providers ?x = ∅)] => destruct (bool_decide (Reg.Providers x = ∅)) end; [done|].
    change ((if String.eqb (Config.DefaultProvider cfg) "" then "default" else Config.DefaultProvider cfg)%string ≠ ""%string).
    by destruct (String.eqb_spec (Config.DefaultProvider cfg) ""). }
  split; try done.
  - rewrite Hprov. case_bool_decide; [|done]. apply (map_non_empty_singleton (M := gmap string)).
  - intros k p. rewrite Hprov. case_bool_decide; [by intros [<- <-]%lookup_singleton_Some|].
    unfold load_providers. rewrite map_lookup_imap. intros (q & _ & Hq)%bind_Some. destruct (String.eqb_spec k ""); [done|]. injection Hq as <-.
    split; [done|]. destruct q as [id b]. unfold update. cbn. by destruct (String.eqb_spec id "").
  - change (keyed Item.ID (load_skills assets (Config.Skills cfg))). unfold load_skills. rewrite Hoff. by apply put_all_keyed.
  - apply Hitems.
  - apply Hitems.
  - apply Hitems.
  - by rewrite Hroles.
  - by rewrite Hroles.
  - by rewrite Hroles.
  - rewrite Hsys. apply system_defaults_idem.
Qed.
End properties.

(** ** A concrete configuration *)

Definition no_env (key : string) : string := "".
Definition delegating (key : string) : string := if String.eqb key "VORTEX_DELEGATION_MODE" then "true" else "".
Definition no_assets : Assets := mkAssets false None [] ∅.
Definition zero_flags : FeatureFlags.t := FeatureFlags.mk false false false false false false false false 0 false false 0.
Definition zero_system : SystemSettings.t :=
  SystemSettings.mk (S754_zero false) 0 0 0 0 0 0 0 None None 0 false None zero_flags 0 None None "".
Definition empty_config : Config.t :=
  Config.mk "" "" [] ∅ [] [] [] [] [] "" zero_system false false false false "" ∅ "" "" None "" "".
Definition empty_reg : Reg.t :=
  Reg.mk "" "" [] ∅ ∅ ∅ ∅ ∅ ∅ zero_system "" false false false false "" "" ∅ "" "" None "".
Definition ex_config : Config.t :=
  empty_config <| Config.Providers := {["main" := Provider.mk "" "openai"]} |> <| Config.Skills := [Item.mk "tidy" ""] |>
               <| Config.Roles := [RoleDef.mk "lead" "dev" ["plan"] [] ""; RoleDef.mk "dev" "" ["code"] [] ""] |> <| Config.RequirePlanReview := true |>.
Definition start_of (env : string → string) (cfg : Config.t) : Reg.t := load_config env elements no_assets cfg empty_reg.
Definition on_disk (cfg : option (option Config.t)) : Disk := mkDisk cfg None (mkSections ∅ ∅).

Lemma ex_normal : normal no_env (start_of no_env ex_config).
Proof.
  apply load_normal; try done.
  - intros k role parent Hk He Hp. assert (∀ x, x ∈ nonempty_ids RoleDef.ID (Config.Roles ex_config) → RoleDef.ID x = "lead" ∧ RoleDef.Extends x = "dev" ∨ RoleDef.Extends x = "") as Hx.
    { intros x. change (nonempty_ids _ _) with (Config.Roles ex_config). intros [->|[->|Hx]%elem_of_cons]%elem_of_cons; [by left|by right|by apply elem_of_nil in Hx]. }
    apply put_all_elem in Hk as [Hk _]. apply put_all_elem in Hp as [Hp Hid]. destruct (Hx _ Hk) as [[_ Hd]|?]; [|done].
    destruct (Hx _ Hp) as [[Hl _]|?]; [congruence|done].
  - right. intros k role [Hk _]%put_all_elem. revert Hk. change (nonempty_ids _ _) with (Config.Roles ex_config).
    by intros [->|[->|Hx]%elem_of_cons]%elem_of_cons; [..|apply elem_of_nil in Hx].
  - by intros s [->|Hs]%elem_of_cons; [|apply elem_of_nil in Hs].
Qed.
Lemma restart_after_save_witness :
  ∃ d', Persist elements (λ _, false) false "c7" (start_of no_env ex_config) (on_disk None) = (d', start_of no_env ex_config, None) ∧
    loadLocked no_env elements no_assets d' empty_reg = (forget_unsaved "c7" (start_of no_env ex_config), None) ∧
    RoleDef.BoundSkills <$> Reg.Roles (forget_unsaved "c7" (start_of no_env ex_config)) !! "lead" = Some ["code"; "plan"].
Proof.
  destruct (restart_after_save no_env elements (λ _, reflexivity _) no_assets (λ _, false) "c7" (start_of no_env ex_config) (on_disk None) empty_reg)
    as (d' & H1 & H2); [apply ex_normal|done|done|done|]. exists d'. split_and!; [done|done|by vm_compute].
Defined.
Lemma delegation_suppresses_witness :
  let r := (loadLocked delegating elements no_assets (on_disk (Some (Some (empty_config <| Config.EnableDynamicRoleGen := true |>)))) empty_reg).1 in
  SystemSettings.DelegationMode (Reg.System r) = true ∧ Reg.EnableDynamicRoleGen r = false.
Proof.
  cbv zeta. split; [by vm_compute|].
  refine (proj1 (delegation_suppresses delegating elements no_assets (on_disk (Some (Some (empty_config <| Config.EnableDynamicRoleGen := true |>)))) empty_reg _ eq_refl _)).
  by vm_compute.
Defined.

(** The review of plans is switched off by the first save. *)
Example plan_review_lost :
  let r := start_of no_env ex_config in
  Reg.RequirePlanReview r = true ∧
  Reg.RequirePlanReview (loadLocked no_env elements no_assets (Persist elements (λ _, false) false "" r (on_disk None)).1.1 empty_reg).1 = false.
Proof. vm_compute. split; reflexivity. Qed.
(** What the environment overrode is saved: the override outlives the variable. *)
Example override_sticks :
  let r := start_of delegating (ex_config <| Config.EnableDynamicRoleGen := true |>) in
  let r' := (loadLocked no_env elements no_assets (Persist elements (λ _, false) false "" r (on_disk None)).1.1 empty_reg).1 in
  SystemSettings.DelegationMode (Reg.System r') = true ∧ Reg.EnableDynamicRoleGen r' = false.
Proof. vm_compute. split; reflexivity. Qed.
(** A file that does not decode, and no backup that does: delegation mode is off
    and roles are generated, whatever the environment asks for. *)
Example fallback_forgets_delegation :
  let r := (loadWithFallbackLocked delegating elements no_assets (on_disk (Some None)) empty_reg).1.2 in
  SystemSettings.DelegationMode (Reg.System r) = false ∧ Reg.EnableDynamicRoleGen r = true.
Proof. vm_compute. split; reflexivity. Qed.
(** The backup is the file of the first start. *)
Example backup_is_stale :
  let d := mkDisk (Some (Some (ex_config <| Config.SwarmModeEnabled := true |>))) (Some (Some ex_config)) (mkSections ∅ ∅) in
  let d' := (loadWithFallbackLocked no_env elements no_assets d empty_reg).1.1 in
  Reg.SwarmModeEnabled (loadWithFallbackLocked no_env elements no_assets (d' <| d_main := Some None |>) empty_reg).1.2 = false.
Proof. by vm_compute. Qed.
(** Skills that were split off are not read back unless folders of assets are,
    and the next save removes them. *)
Example split_skills_lost :
  let big (c : Config.t) := true in
  let r := start_of no_env ex_config in
  let '(d, _, _) := Persist elements big false "" r (on_disk None) in
  let r' := (loadLocked no_env elements no_assets d empty_reg).1 in
  let d' := (Persist elements big false "" r' d).1.1 in
  (match s_items (d_sections d) !! "workspace/skills" with Some (SDir m) => elements (dom m) | _ => [] end) = ["tidy"] ∧
  Reg.Skills r' = ∅ ∧
  (match s_items (d_sections d') !! "workspace/skills" with Some (SDir m) => elements (dom m) | _ => [] end) = [].
Proof. vm_compute. split_and!; reflexivity. Qed.
(** A chain of roles takes over different skills in different orders. *)
Example chain_depends_on_order :
  let m : gmap string RoleDef.t := {["a" := RoleDef.mk "a" "b" ["x"] [] ""; "b" := RoleDef.mk "b" "c" ["y"] [] ""; "c" := RoleDef.mk "c" "" ["z"] [] ""]} in
  RoleDef.BoundSkills <$> extend_roles ["a"; "b"; "c"] m !! "a" = Some ["y"; "x"] ∧
  RoleDef.BoundSkills <$> extend_roles ["b"; "a"; "c"] m !! "a" = Some ["z"; "y"; "x"].
Proof. vm_compute. split; reflexivity. Qed.
(** A chain of three: loaded, saved and loaded again, a role has more skills. *)
Example chain_changes :
  let cfg := empty_config <| Config.Providers := {["main" := Provider.mk "" "openai"]} |> <| Config.Roles :=
    [RoleDef.mk "a" "b" ["x"] [] ""; RoleDef.mk "b" "c" ["y"] [] ""; RoleDef.mk "c" "" ["z"] [] ""] |> in
  let r := start_of no_env cfg in
  let r' := (loadLocked no_env elements no_assets (Persist elements (λ _, false) false "" r (on_disk None)).1.1 empty_reg).1 in
  RoleDef.BoundSkills <$> Reg.Roles r !! "a" = Some ["y"; "x"] ∧ RoleDef.BoundSkills <$> Reg.Roles r' !! "a" = Some ["z"; "y"; "x"].
Proof. vm_compute. split; reflexivity. Qed.
(** A section given as a file is promoted to a directory of the same name when
    it grows, and from then on cannot be written. *)
Example promotion_blocks :
  writeSection Item.ID "roles.json" (replicate 21 (Item.mk "a" "")) {["roles.json" := SFile []]} = Err "creating directory roles.json".
Proof. by vm_compute. Qed.
