(* ===== verification/Output.v ===== *)
(** * What an agent answered (schemas/output.go)

    [ParseOutput] turns the text of an agent into an output and never fails: it
    tries the text, the fenced blocks in it, the span of its braces and a lenient
    reading of the result, and otherwise keeps the text as a partial result.
    Decoding JSON is an argument; decoding into a struct writes to it even when
    it fails, so the destination is threaded through the attempts. *)
From S2P Require Import Prelude FailureClass ToolNames PlanDAG Regex.
From Stdlib Require Import Ascii SpecFloat.

Definition zeroOutput : SubagentOutput.t :=
  SubagentOutput.mk (StatusOther "") (S754_zero false) None [] [] [] [] "" None [] [] [] [] 0.
(** The float nearest to 0.3. *)
Definition float_0_3 : float64 := S754_finite false 5404319552844595 (-54).
Definition float_0_6 : float64 := S754_finite false 5404319552844595 (-53).

(** The struct of the lenient reading; its result is raw text. *)
Record Flex := mkFlex {
  fx_Status : SubagentStatus; fx_Confidence : float64; fx_Result : option string; fx_Attachments : list Attachment.t;
  fx_MissingContext : list string; fx_Assumptions : list string; fx_Warnings : list string;
  fx_RequiredCapabilities : list string; fx_SkillIDs : list string
}.
(** [unmarshal] gives the destination afterwards and whether there was no
    error; [decode_map] gives [Some None] for null. *)
Record DecodeEnv := mkDecode {
  unmarshal : string → SubagentOutput.t → SubagentOutput.t * bool;
  decode_flex : string → option Flex;
  decode_object : string → option (option (gmap string any));
  decode_any : string → option any
}.

(** ** Fenced blocks *)

Fixpoint skip_space (s : list ascii) : list ascii :=
  match s with a :: s' => if re_space a then skip_space s' else s | [] => [] end.
Definition skip_space_end (s : list ascii) : list ascii := reverse (skip_space (reverse s)).
Definition skip_json (s : list ascii) : list ascii :=
  if bool_decide (take 4 s = bytes "json") then drop 4 s else s.
(** The matches of the fence pattern, their group 1; each takes six bytes. *)
Fixpoint fence_matches (fuel : nat) (s : list ascii) : list (list ascii) :=
  match fuel with
  | O => []
  | S fuel' =>
      match index_of fence s with
      | None => []
      | Some i =>
          let rest := skip_space (skip_json (drop (i + 3) s)) in
          match index_of fence rest with
          | None => []
          | Some j => skip_space_end (take j rest) :: fence_matches fuel' (drop (j + 3) rest)
          end
      end
  end.
Definition fenced (s : string) : list string := of_bytes <$> fence_matches (S (String.length s)) (bytes s).

(** ** Parsing *)

Definition isHollow (o : SubagentOutput.t) : bool :=
  (SFeqb (SubagentOutput.Confidence o) (S754_zero false) && bool_decide (SubagentOutput.Status o = StatusOther ""))
  || (bool_decide (result_map o = ∅) && bool_decide (SubagentOutput.Attachments o = [])).
Definition IsLowConfidence (o : SubagentOutput.t) : bool := fltb (SubagentOutput.Confidence o) float_0_6.

Section parse.
Context (env : DecodeEnv).

Definition flexible_result (raw : option string) : option (gmap string any) :=
  match raw with
  | None => None
  | Some text =>
      match decode_object env text with
      | Some m => m
      | None => v ← decode_any env text; Some {[ "raw" := v ]}
      end
  end.
Definition parseWithFlexibleResult (data capability : string) : option SubagentOutput.t :=
  f ← decode_flex env data;
  let out := SubagentOutput.mk (fx_Status f) (fx_Confidence f) (flexible_result (fx_Result f)) (fx_MissingContext f)
    (fx_RequiredCapabilities f) [] [] capability None (fx_Assumptions f) (fx_Attachments f) (fx_Warnings f) (fx_SkillIDs f) 0 in
  if isHollow out then None else Some out.

(** One attempt: the destination, and whether it is accepted. *)
Definition attempt (text : string) (out : SubagentOutput.t) : SubagentOutput.t * bool :=
  let '(out, ok) := unmarshal env text out in (out, ok && negb (isHollow out)).
Fixpoint attempt_all (texts : list string) (out : SubagentOutput.t) : SubagentOutput.t * bool :=
  match texts with
  | [] => (out, false)
  | t :: texts' => match attempt t out with (out, true) => (out, true) | (out, false) => attempt_all texts' out end
  end.
(** The span from the first opening brace to the last closing one. *)
Definition brace_span (s : string) : option string :=
  match index_of (bytes "{") (bytes s), last_index_of (bytes "}") (bytes s) with
  | Some i, Some j => if (i <? j)%nat then Some (of_bytes (drop i (take (S j) (bytes s)))) else None
  | _, _ => None
  end.
Definition has_braces (s : string) : bool :=
  match index_of (bytes "{") (bytes s), last_index_of (bytes "}") (bytes s) with Some _, Some _ => true | _, _ => false end.
(** The texts decoded, in order. *)
Definition candidates (s : string) : list string := s :: fenced s ++ match brace_span s with Some t => [t] | None => [] end.
Definition fallback_output (s capability : string) : SubagentOutput.t :=
  SubagentOutput.mk StatusPartial float_0_3 (Some {[ "raw" := AString (String.substring 0 2000 s) ]}) [] [] [] [] capability None
    [if has_braces s then "output parseable but semantically hollow: missing confidence/result"
     else "output not parseable: could not extract valid JSON"] [] ["subagent did not follow output schema"] [] 0.
Definition ParseOutput (raw capability : string) : SubagentOutput.t :=
  let s := TrimSpace raw in
  match attempt_all (candidates s) zeroOutput with
  | (out, true) => out
  | _ => match parseWithFlexibleResult s capability with Some out => out | None => fallback_output s capability end
  end.
End parse.

(** ** Properties *)

Lemma fallback_not_hollow s capability : isHollow (fallback_output s capability) = false.
Proof. unfold isHollow. cbn [SubagentOutput.Status fallback_output]. rewrite bool_decide_eq_false_2 by done. rewrite andb_false_r. cbn [orb].
  rewrite bool_decide_eq_false_2; [done|]. unfold result_map. cbn [fallback_output SubagentOutput.Result default from_option id].
  apply map_non_empty_singleton.
Qed.

Section parse_properties.
Context (env : DecodeEnv).

Lemma attempt_not_hollow text out o : attempt env text out = (o, true) → isHollow o = false.
Proof. unfold attempt. destruct (unmarshal env text out) as [o' ok]. intros [= -> H]. by apply andb_true_iff in H as [_ ->%negb_true_iff]. Qed.
Lemma attempt_all_not_hollow texts out o : attempt_all env texts out = (o, true) → isHollow o = false.
Proof.
  revert out. induction texts as [|t texts IH]; intros out; cbn [attempt_all]; [done|].
  destruct (attempt env t out) as [o' []] eqn:E; [|apply IH]. intros [= <-]. by eapply attempt_not_hollow.
Qed.
Lemma flexible_not_hollow data capability o : parseWithFlexibleResult env data capability = Some o → isHollow o = false.
Proof.
  unfold parseWithFlexibleResult. intros (f & _ & H)%bind_Some. cbv zeta in H.
  destruct (isHollow _) eqn:E; [done|]. by injection H as <-.
Qed.

(** The text of each candidate is decoded until one is accepted: when none
    before [t] is, the accepted reading of [t] is the result. *)
Lemma attempt_all_found before t after out o :
  (∀ u d, u ∈ before → (attempt env u d).2 = false) →
  (∀ d, attempt env t d = (o, true)) →
  attempt_all env (before ++ t :: after) out = (o, true).
Proof.
  revert out. induction before as [|u before IH]; intros out Hb Ht; cbn [app attempt_all]; [by rewrite Ht|].
  pose proof (Hb u out ltac:(left)) as Hu. destruct (attempt env u out) as [d []]; [done|].
  apply IH; [|done]. intros. apply Hb. by right.
Qed.
Lemma attempt_all_none texts out :
  (∀ u d, u ∈ texts → (attempt env u d).2 = false) → (attempt_all env texts out).2 = false.
Proof.
  revert out. induction texts as [|u texts IH]; intros out H; cbn [attempt_all]; [done|].
  pose proof (H u out ltac:(left)) as Hu. destruct (attempt env u out) as [d []]; [done|]. apply IH. intros. apply H. by right.
Qed.

(** No text can be read: neither whole, nor a block of it, nor leniently. *)
Definition unreadable (raw : string) : Prop :=
  (∀ u d, u ∈ candidates (TrimSpace raw) → (attempt env u d).2 = false) ∧
  (∀ capability, parseWithFlexibleResult env (TrimSpace raw) capability = None).
Lemma unreadable_fallback raw capability :
  unreadable raw → ParseOutput env raw capability = fallback_output (TrimSpace raw) capability.
Proof.
  intros [H1 H2]. unfold ParseOutput. cbv zeta. pose proof (attempt_all_none _ zeroOutput H1) as H.
  destruct (attempt_all env _ _) as [o []]; [done|]. by rewrite H2.
Qed.
End parse_properties.

(** ** An answer in a fenced block *)

Lemma index_of_sep sub (l : list ascii) a post :
  index_of sub l = None → a ∉ sub → sub ≠ [] → index_of sub (l ++ a :: sub ++ post) = Some (S (length l)).
Proof.
  intros Hl Ha Hne. assert (∀ k, k ≤ length l → ¬ sub `prefix_of` drop k (l ++ a :: sub ++ post)) as Hno.
  { intros k Hk [r Hr]. destruct (decide (length sub <= length l - k)%nat) as [Hle|Hgt].
    - apply (index_of_None sub l Hl k). exists (drop (length sub) (drop k l)).
      rewrite drop_app_le in Hr by done. pose proof (f_equal (take (length sub)) Hr) as H.
      rewrite take_app_le, take_app_length in H by (rewrite length_drop; lia). rewrite <- H at 1. symmetry. apply take_drop.
    - apply Ha. rewrite drop_app_le in Hr by done.
      assert ((drop k l ++ a :: sub ++ post) !! (length l - k)%nat = Some a) as H.
      { rewrite lookup_app_r by (rewrite length_drop; lia). rewrite length_drop, Nat.sub_diag. done. }
      rewrite Hr, lookup_app_l in H by lia. by eapply list_elem_of_lookup_2. }
  destruct (index_of sub (l ++ a :: sub ++ post)) as [i|] eqn:E.
  - apply index_of_Some in E as [Hp Hmin]. f_equal. assert (¬ i ≤ length l) as H1 by (intros H; by apply (Hno i)).
    assert (¬ S (length l) < i) as H2; [|lia]. intros H. apply (Hmin (S (length l)) H).
    replace (drop (S (length l)) (l ++ a :: sub ++ post)) with (sub ++ post); [by eexists|].
    rewrite drop_app_ge by lia. by replace (S (length l) - length l) with 1 by lia.
  - exfalso. apply (index_of_None _ _ E (S (length l))). exists post. rewrite drop_app_ge by lia.
    by replace (S (length l) - length l) with 1 by lia.
Qed.

Definition nl : ascii := ascii_of_nat 10.
(** A block of JSON in prose, the fences on lines of their own. *)
Definition block (p body q : list ascii) : list ascii := p ++ nl :: fence ++ bytes "json" ++ nl :: body ++ nl :: fence ++ q.
Definition trimmed_block (body : list ascii) : Prop := body ≠ [] ∧ skip_space body = body ∧ skip_space_end body = body.

Lemma skip_space_head a l : skip_space (a :: l) = a :: l → re_space a = false.
Proof.
  cbn [skip_space]. destruct (re_space a) eqn:E; [|done]. intros H. exfalso.
  assert (∀ l, length (skip_space l) ≤ length l) as Hle.
  { intros l'. induction l' as [|b l' IH]; cbn [skip_space length]; [lia|]. destruct (re_space b); cbn [length]; lia. }
  specialize (Hle l). rewrite H in Hle. cbn [length] in Hle. lia.
Qed.
Lemma skip_space_stop body rest : body ≠ [] → skip_space body = body → skip_space (body ++ rest) = body ++ rest.
Proof. destruct body as [|a l]; [done|]. intros _ H%skip_space_head. cbn [app skip_space]. by rewrite H. Qed.
Lemma skip_space_end_nl body : skip_space_end body = body → skip_space_end (body ++ [nl]) = body.
Proof. intros H. unfold skip_space_end. by rewrite reverse_app. Qed.

Lemma fence_matches_block fuel p body q :
  index_of fence p = None → index_of fence body = None → trimmed_block body →
  fence_matches (S fuel) (block p body q) = body :: fence_matches fuel q.
Proof.
  intros Hp Hb (Hne & Hs & He). unfold block.
  assert (∀ l post, index_of fence l = None → index_of fence (l ++ nl :: fence ++ post) = Some (S (length l))) as Hi.
  { intros l post Hl. apply index_of_sep; [done| |done]. apply (bool_decide_unpack (nl ∉ fence)). vm_compute. exact I. }
  cbn [fence_matches]. rewrite Hi by done.
  replace (drop (S (length p) + 3) _) with (bytes "json" ++ nl :: body ++ nl :: fence ++ q).
  2: { rewrite drop_app_ge by lia. by replace (S (length p) + 3 - length p) with 4 by lia. }
  assert (∀ l, skip_space (skip_json (bytes "json" ++ nl :: l)) = skip_space l) as -> by (intros l; reflexivity).
  rewrite skip_space_stop, Hi by done.
  f_equal.
  - replace (take (S (length body)) _) with (body ++ [nl]); [by apply skip_space_end_nl|].
    rewrite take_app_ge by lia. by replace (S (length body) - length body) with 1 by lia.
  - f_equal. rewrite drop_app_ge by lia. by replace (S (length body) + 3 - length body) with 4 by lia.
Qed.

(** An answer in a fenced block of JSON is read from the block: when the whole
    text does not decode to an output, and the block does, the block's output is
    the result, whatever the prose around it. *)
Theorem fenced_answer_read env raw capability p body q d o :
  TrimSpace raw = of_bytes (block p body q) →
  index_of fence p = None → index_of fence body = None → trimmed_block body →
  attempt env (TrimSpace raw) zeroOutput = (d, false) → attempt env (of_bytes body) d = (o, true) →
  ParseOutput env raw capability = o.
Proof.
  intros Hraw Hp Hb Ht Hd Ho. unfold ParseOutput, candidates, fenced. cbv zeta. cbn [app attempt_all]. rewrite Hd.
  rewrite Hraw at 1 2. rewrite bytes_of_bytes, fence_matches_block by done. cbn [fmap list_fmap app attempt_all]. by rewrite Ho.
Qed.

(** What an agent answers is never read as an empty output. *)
Theorem parsed_output_not_hollow env raw capability : isHollow (ParseOutput env raw capability) = false.
Proof.
  unfold ParseOutput. cbv zeta. destruct (attempt_all env _ _) as [o []] eqn:E; [by eapply attempt_all_not_hollow|].
  destruct (parseWithFlexibleResult _ _ _) as [o'|] eqn:Ef; [by eapply flexible_not_hollow|apply fallback_not_hollow].
Qed.

(** ** Concrete answers *)

Definition ex_answer : SubagentOutput.t :=
  zeroOutput <| SubagentOutput.Status := StatusOK |> <| SubagentOutput.Result := Some {[ "n" := AInt 1 ]} |>.
Definition ex_decode : DecodeEnv :=
  mkDecode (λ t d, if String.eqb t "{1}" then (ex_answer, true) else (d, false)) (λ _, None) (λ _, None) (λ _, None).
Definition ex_raw : string := of_bytes (block (bytes "Here it is:") (bytes "{1}") []).
Lemma fenced_answer_read_witness : ParseOutput ex_decode ex_raw "x" = ex_answer.
Proof.
  apply (fenced_answer_read ex_decode ex_raw "x" (bytes "Here it is:") (bytes "{1}") [] zeroOutput ex_answer).
  - vm_compute. reflexivity.
  - vm_compute. reflexivity.
  - vm_compute. reflexivity.
  - split; [discriminate|]. split; vm_compute; reflexivity.
  - vm_compute. reflexivity.
  - vm_compute. reflexivity.
Defined.
Example prose_is_partial :
  SubagentOutput.Status (ParseOutput ex_decode "I could not" "x") = StatusPartial ∧
  SubagentOutput.Result (ParseOutput ex_decode "I could not" "x") = Some {[ "raw" := AString "I could not" ]}.
Proof. vm_compute. split; reflexivity. Qed.
(** A failed attempt leaves what it wrote for the next one. *)
Definition ex_leaky : DecodeEnv :=
  mkDecode (λ t d, if String.eqb t "{1}" then (d, true)
                   else (d <| SubagentOutput.Status := StatusOK |> <| SubagentOutput.Result := Some {[ "stale" := AInt 1 ]} |>, false))
    (λ _, None) (λ _, None) (λ _, None).
Example destination_leaks : SubagentOutput.Result (ParseOutput ex_leaky ex_raw "x") = Some {[ "stale" := AInt 1 ]}.
Proof. vm_compute. reflexivity. Qed.
