(* ===== verification/Sieve.v ===== *)
(** * The sieve (core/sieve, and its uses in core/spawner_dispatch.go,
    core/spawner_sieve_turn.go and core/spawner_tool_exec.go)

    The sieve watches what a model does: it refuses tool calls that go round in
    circles, keeps the results of reads for replay, compresses contexts, prunes
    outputs, and looks for repetition in a text.  Its methods run under one
    mutex, so concurrent callers are a sequence of operations on [Sieve.t].
    JSON encoding of arguments, the hash of a result, the Go compressor and the
    replies of the decision model are arguments. *)
From S2P Require Import Prelude FailureClass ToolNames PlanDAG Output.
From Stdlib Require Import Ascii SpecFloat.
Local Open Scope Z_scope.

(** ** Kinds of calls *)

Definition pollerSignals : list string := ["poll"; "progress"; "health"; "wait"].
Definition IsPollerTool (name : string) : bool := let n := to_lower name in existsb (λ s, contains s n) pollerSignals.

(** A [json.Number] is an [AOther] here: [number] reads it as a float. *)
Definition positiveSecondsArg (number : nat → option float64) (args : gmap string any) (key : string) : float64 :=
  match args !! key with
  | Some (AFloat v) => v
  | Some (AInt v) | Some (AInt64 v) => float_of_int v
  | Some (AOther n) => default (S754_zero false) (number n)
  | _ => S754_zero false
  end.
Definition has_suffix (suf s : string) : bool := has_prefix (srev suf) (srev s).
Definition IsPollingCall (number : nat → option float64) (name : string) (args : gmap string any) : bool :=
  if IsPollerTool name then true
  else if fltb (S754_zero false) (positiveSecondsArg number args "wait_seconds") then true
  else let n := strip_server (to_lower name) in String.eqb n "task_status" || has_suffix "_task_status" n.

(** ** State *)

Module interceptStat.
Record t := mk { interceptedHashes : gset string; distinctIntercepts : Z; totalIntercepts : Z }.
End interceptStat.
Module Sieve.
Record t := mk {
  RepetitionThreshold : float64; ToolRepetitionThreshold : Z; WindowSize : Z; MaxKeep : Z;
  toolHistory : gmap string (list string); toolResultCache : gmap string (gmap string string);
  resultContentHistory : gmap string (list string); ProtectedPrefixes : list string; plans : gmap string string;
  interceptStats : gmap string interceptStat.t; consecutiveCleanTasks : Z; resultSeen : gmap string Z
}.
#[global] Instance t_eta : Eta t := λ s, mk (RepetitionThreshold s) (ToolRepetitionThreshold s) (WindowSize s) (MaxKeep s)
  (toolHistory s) (toolResultCache s) (resultContentHistory s) (ProtectedPrefixes s) (plans s) (interceptStats s)
  (consecutiveCleanTasks s) (resultSeen s).
End Sieve.

Definition adaptiveThresholdMin : Z := 2.
Definition adaptiveThresholdMax : Z := 6.
Definition adaptiveRelaxConsecutive : Z := 10.
Definition maxToolHistoryPerTask : nat := 100.
Definition maxToolHistoryTasks : nat := 1000.
Definition maxCachePerTask : nat := 50.
Definition maxResultSeenEntries : nat := 4096.

Definition f_0_85 : float64 := S754_finite false 7656119366529843 (-53).
Definition NewSieve (maxKeep : Z) : Sieve.t :=
  Sieve.mk f_0_85 3 5 (if maxKeep <=? 0 then 100 else maxKeep) ∅ ∅ ∅
    ["$artifact"; "$contract"; "$goal"; "$rule"; "$sop"; "$schema"; "$invariant"; "protected_"] ∅ ∅ 0 ∅.
Definition NewSieveFromConfig (MaxContextKeep ToolRepetitionThreshold : Z) : Sieve.t :=
  let s := NewSieve MaxContextKeep in
  if 0 <? ToolRepetitionThreshold then s <| Sieve.ToolRepetitionThreshold := ToolRepetitionThreshold |> else s.

(** ** Loops of tool calls *)

Fixpoint run_length (h : string) (l : list string) : nat :=
  match l with x :: l' => if String.eqb x h then S (run_length h l') else O | [] => O end.
Definition occurrences (h : string) (l : list string) : nat := length (List.filter (String.eqb h) l).
Definition last_n {A} (n : nat) (l : list A) : list A := drop (length l - n) l.

(** [detectCycle]: the last [4 * minRepeats] entries repeat the last four; with
    [minRepeats] at most one nothing is compared. *)
Definition detectCycle (history : list string) (minRepeats : Z) : bool :=
  let n := Z.of_nat (length history) in
  if n <? 4 * minRepeats then false
  else
    let pattern := last_n 4 history in
    forallb (λ r, bool_decide (take 4 (drop (length history - 4 * (r + 1)) history) = pattern)) (seq 1 (Z.to_nat minRepeats - 1)).

Section tool_calls.
Context (marshal : gmap string any → string) (number : nat → option float64).

Definition toolCallHash (toolName : string) (args : gmap string any) : string :=
  toolName +:+ ":" +:+ marshal (CanonicalToolArgs args).

Definition recordIntercept (taskID hash : string) (s : Sieve.t) : Sieve.t :=
  let stats := default (interceptStat.mk ∅ 0 0) (Sieve.interceptStats s !! taskID) in
  let fresh := negb (bool_decide (hash ∈ interceptStat.interceptedHashes stats)) in
  let stats' := interceptStat.mk ({[hash]} ∪ interceptStat.interceptedHashes stats)
                  (interceptStat.distinctIntercepts stats + (if fresh then 1 else 0)) (interceptStat.totalIntercepts stats + 1) in
  s <| Sieve.interceptStats ::= <[taskID := stats']> |>.

(** The three checks of a call against the history before it. *)
Definition repeats (threshold : Z) (history : list string) (hash : string) : bool :=
  let consecutiveCount := Z.of_nat (run_length hash (reverse history)) in
  let windowSize := Z.min (threshold * 2) (Z.of_nat (length history)) in
  let totalInWindow := Z.of_nat (occurrences hash (last_n (Z.to_nat windowSize) history)) in
  (threshold <=? consecutiveCount)
  || (threshold <=? totalInWindow) && (0 <? windowSize) && fleb (S754_finite false 4503599627370496 (-53)) (fdiv (float_of_int totalInWindow) (float_of_int windowSize))
  || (threshold * 2 <=? Z.of_nat (occurrences hash history)).

(** One call of [InspectToolCalls]: the history under [histKey] grows by it
    unless it is refused before. *)
Definition inspect_call (taskID histKey : string) (s : Sieve.t) (call : string * gmap string any) : Sieve.t * bool :=
  let hash := toolCallHash call.1 call.2 in
  let polling := IsPollingCall number call.1 call.2 in
  let history := default [] (Sieve.toolHistory s !! histKey) in
  if negb polling && repeats (Sieve.ToolRepetitionThreshold s) history hash then (recordIntercept taskID hash s, false)
  else
    let history := last_n maxToolHistoryPerTask (history ++ [hash]) in
    let s := s <| Sieve.toolHistory ::= <[histKey := history]> |> in
    if negb polling && detectCycle history (Sieve.ToolRepetitionThreshold s) then (recordIntercept taskID hash s, false)
    else (s, true).
Fixpoint inspect_calls (taskID histKey : string) (s : Sieve.t) (calls : list (string * gmap string any)) : Sieve.t * bool :=
  match calls with
  | [] => (s, true)
  | call :: calls =>
      let '(s, ok) := inspect_call taskID histKey s call in
      if ok then inspect_calls taskID histKey s calls else (s, false)
  end.
Definition histKey_of (taskID stepID : string) : string :=
  if negb (String.eqb stepID "") then taskID +:+ ":" +:+ stepID else taskID.
(** Every fourth key in the order the map is visited. *)
Fixpoint every_fourth (i : nat) (keys : list string) : list string :=
  match keys with
  | [] => []
  | k :: keys => if ((i + 1) mod 4 =? 0)%nat then k :: every_fourth (S i) keys else every_fourth (S i) keys
  end.
Definition evict (ord : list string) (histKey : string) (h : gmap string (list string)) : gmap string (list string) :=
  if (maxToolHistoryTasks <? size h)%nat
  then <[histKey := default [] (h !! histKey)]> (foldr delete h (every_fourth 0 ord))
  else h.
(** [ord] is the order of the map of histories after the calls. *)
Definition InspectToolCalls (ord : gmap string (list string) → list string) (taskID stepID : string) (calls : list (string * gmap string any)) (s : Sieve.t) :
    Sieve.t * (bool * string) :=
  if (length calls =? 0)%nat then (s, (true, ""))
  else
    let histKey := histKey_of taskID stepID in
    let '(s, ok) := inspect_calls taskID histKey s calls in
    if ok then (s <| Sieve.toolHistory ::= λ h, evict (ord h) histKey h |>, (true, "")) else (s, (false, "InfiniteLoopDetected")).

(** The threshold after a task: what [ClearHistory] does with its statistics. *)
Definition adapt (stats : option interceptStat.t) (s : Sieve.t) : Sieve.t :=
  if match stats with None => true | Some st => interceptStat.totalIntercepts st =? 0 end then
    let n := Sieve.consecutiveCleanTasks s + 1 in
    if (adaptiveRelaxConsecutive <=? n) && (adaptiveThresholdMin <? Sieve.ToolRepetitionThreshold s)
    then s <| Sieve.ToolRepetitionThreshold ::= λ t, t - 1 |> <| Sieve.consecutiveCleanTasks := 0 |>
    else s <| Sieve.consecutiveCleanTasks := n |>
  else
    let s := s <| Sieve.consecutiveCleanTasks := 0 |> in
    if (2 <=? default 0 (interceptStat.distinctIntercepts <$> stats)) && (Sieve.ToolRepetitionThreshold s <? adaptiveThresholdMax)
    then s <| Sieve.ToolRepetitionThreshold ::= Z.add 1 |> else s.
Definition without_prefix {V} (p : string) (m : gmap string V) : gmap string V := filter (λ kv, has_prefix p kv.1 = false) m.
Definition ClearHistory (taskID : string) (s : Sieve.t) : Sieve.t :=
  adapt (Sieve.interceptStats s !! taskID)
    (s <| Sieve.toolHistory ::= λ h, without_prefix (taskID +:+ ":") (delete taskID h) |>
       <| Sieve.toolResultCache ::= delete taskID |> <| Sieve.resultContentHistory ::= delete taskID |>
       <| Sieve.resultSeen ::= without_prefix (taskID +:+ "|") |> <| Sieve.plans ::= delete taskID |>
       <| Sieve.interceptStats ::= delete taskID |>).

(** ** Results *)

Definition GetCachedResult (taskID toolName : string) (args : gmap string any) (s : Sieve.t) : option string :=
  c ← Sieve.toolResultCache s !! taskID; c !! toolCallHash toolName args.
Definition CacheToolResult (taskID toolName : string) (args : gmap string any) (r : string) (s : Sieve.t) : Sieve.t :=
  let c := default ∅ (Sieve.toolResultCache s !! taskID) in
  let c := if (maxCachePerTask <=? size c)%nat then ∅ else c in
  s <| Sieve.toolResultCache ::= <[taskID := <[toolCallHash toolName args := r]> c]> |>.
Definition ClearResultCache (taskID : string) (s : Sieve.t) : Sieve.t := s <| Sieve.toolResultCache ::= delete taskID |>.
End tool_calls.

(** [sum] is the SHA-256 of a text in hexadecimal. *)
Definition CheckResultRepetition (sum : string → string) (taskID r : string) (s : Sieve.t) : Sieve.t * bool :=
  let history := default [] (Sieve.resultContentHistory s !! taskID) in
  (s <| Sieve.resultContentHistory ::= <[taskID := last_n maxToolHistoryPerTask (history ++ [sum r])]> |>,
   Sieve.ToolRepetitionThreshold s <=? Z.of_nat (occurrences (sum r) history)).
Definition ObserveResult (sum : string → string) (taskID stepID tool content : string) (s : Sieve.t) : Sieve.t * Z :=
  if String.eqb content "" then (s, 0)
  else
    let key := taskID +:+ "|" +:+ stepID +:+ "|" +:+ tool +:+ "|" +:+ String.substring 0 32 (sum content) in
    let seen := Sieve.resultSeen s in
    let seen := if negb (bool_decide (is_Some (seen !! key))) && (maxResultSeenEntries <=? size seen)%nat then ∅ else seen in
    let n := default 0 (seen !! key) + 1 in
    (s <| Sieve.resultSeen := <[key := n]> seen |>, n).

(** ** Contexts *)

Section compress.
(** [CompressGo] of the compressor, and the protected prefixes of the sieve. *)
Context (compressGo : string → string → option string) (prefixes : list string).
Definition isProtectedKey (key : string) : bool := existsb (λ p, has_prefix p key) prefixes.
Fixpoint compress_value (k : string) (v : any) : any :=
  match v with
  | AString val =>
      if has_suffix ".go" k || contains "package " val && contains "func " val
      then AString (default val (compressGo k val)) else v
  | AMap m => AMap (map (λ kv, (kv.1, if isProtectedKey kv.1 then kv.2 else compress_value kv.1 kv.2)) m)
  | AList l => AList (map (λ item, match item with AMap _ => compress_value "" item | _ => item end) l)
  | _ => v
  end.
Definition CompressContext (data : gmap string any) : gmap string any :=
  map_imap (λ k v, Some (if isProtectedKey k then v else compress_value k v)) data.
End compress.

Fixpoint lost_signal (signals : list string) (original compressed : string) : bool * string :=
  match signals with
  | [] => (true, "")
  | sig :: signals => if contains sig original && negb (contains sig compressed) then (false, sig) else lost_signal signals original compressed
  end.
Definition VerifyFidelity : string → string → bool * string :=
  lost_signal ["S2T"; "DecisionID"; "Goal:"; "Final Result:"; "$artifact"; "$contract"].

(** ** Texts *)

Definition isStructuralLine (line : string) : bool :=
  forallb (λ a, bool_decide (a ∈ bytes "{}[]()<>|-*#.:;/\`~_'=" ++ [dquote])) (bytes line).
Definition calculateSimilarity (a b : string) : float64 :=
  if String.eqb a b then float_of_int 1
  else
    let tokensA := fields (to_lower a) in
    let tokensB := fields (to_lower b) in
    if (length tokensA =? 0)%nat || (length tokensB =? 0)%nat then S754_zero false
    else
      let intersection := Z.of_nat (length (List.filter (λ t, bool_decide (t ∈ tokensA)) tokensB)) in
      let union := Z.of_nat (length tokensA) + Z.of_nat (length tokensB) - intersection in
      fdiv (float_of_int intersection) (float_of_int union).
Definition newline : ascii := ascii_of_nat 10.
(** The pairs of similar lines within the window; two of them are a loop. *)
Definition prose (line : string) : option string :=
  let l := TrimSpace line in if String.eqb l "" || isStructuralLine l then None else Some l.
Definition similar_pairs (s : Sieve.t) (lines : list string) : nat :=
  let lines := map prose lines in
  sum_list (imap (λ i current,
    match current with
    | None => O
    | Some current =>
        length (List.filter (λ prev, match prev with Some prev => fltb (Sieve.RepetitionThreshold s) (calculateSimilarity current prev) | None => false end)
                  (last_n (Z.to_nat (Sieve.WindowSize s)) (take i lines)))
    end) lines).
Definition detectRepetition (s : Sieve.t) (text : string) : bool :=
  let lines := split_on newline text in
  if (length lines <? 2)%nat then false else (2 <=? similar_pairs s lines)%nat.
Definition validateSchema (text schema : string) : bool := true.
Definition Inspect (s : Sieve.t) (text requiredSchema : string) : bool * string :=
  if String.eqb text "" then (false, "empty output")
  else if detectRepetition s text then (false, "repetition detected: output entered a logic loop")
  else if negb (String.eqb requiredSchema "") && negb (validateSchema text requiredSchema)
  then (false, "schema violation: output does not match required format [" +:+ requiredSchema +:+ "]")
  else (true, "").

Fixpoint prune_lines (keywords : list string) (maxKeep keepCount : Z) (lines : list string) : list string :=
  match lines with
  | [] => []
  | line :: lines =>
      let matches := existsb (λ kw, contains kw (to_lower line)) keywords in
      let keepCount := if matches then keepCount + 1 else keepCount in
      (if matches then [line] else []) ++
      (if maxKeep <=? keepCount then ["... [Output truncated by Sieve Pruner]"] else prune_lines keywords maxKeep keepCount lines)
  end.
Definition PruneOutput (s : Sieve.t) (text goal : string) : string :=
  let lines := split_on newline text in
  if (length lines <? 20)%nat then text
  else
    let keywords := ["error"; "fail"; "success"; "done"; "warning"; "critical"; "exception"; "exit"] ++
                    List.filter (λ t, (3 <? String.length t)%nat) (fields (to_lower goal)) in
    match prune_lines keywords (Sieve.MaxKeep s) 0 lines with
    | [] => "[Sieve Pruner: No relevant lines found in large output. Showing first 10 lines only:]" +:+ String newline (join (String newline "") (take 10 lines))
    | pruned => join (String newline "") pruned
    end.

(** The metadata of a tool's result. *)
Module ToolMetadata.
Record t := mk { Truncated : bool; Returned : Z; Total : Z; Hint : string }.
End ToolMetadata.
Definition forbiddenTerms : list string := ["全部"; "所有"; "完整"; "全体"; "all"; "entire"; "complete"].
Definition InspectTruncationArtifact (lastMeta : option ToolMetadata.t) (modelOutput : string) : bool * string :=
  match lastMeta with
  | Some m =>
      if ToolMetadata.Truncated m then
        match List.find (λ term, contains term (to_lower modelOutput)) forbiddenTerms with
        | Some term =>
            let hint := if String.eqb (ToolMetadata.Hint m) "" then "Previous tool output was truncated. Do not claim comprehensive coverage." else ToolMetadata.Hint m in
            (false, "TruncationViolation: Output contains '" +:+ term +:+ "' but tool result was truncated (returned " +:+
                    pretty (ToolMetadata.Returned m) +:+ " of " +:+ pretty (ToolMetadata.Total m) +:+ "). Hint: " +:+ hint)
        | None => (true, "")
        end
      else (true, "")
  | None => (true, "")
  end.

(** ** Plans *)

Definition SetPlan (taskID plan : string) (s : Sieve.t) : Sieve.t := s <| Sieve.plans ::= <[taskID := plan]> |>.
Definition ClearPlan (taskID : string) (s : Sieve.t) : Sieve.t := s <| Sieve.plans ::= delete taskID |>.
Definition LoadPlan (taskID : string) (s : Sieve.t) : string := default "" (Sieve.plans s !! taskID).
Definition mentions (plan : string) (v : any) : bool :=
  match v with AString str => negb (String.eqb str "") && contains (to_lower str) (to_lower plan) | _ => false end.
Definition DetectPlanDrift (taskID toolName : string) (args : gmap string any) (s : Sieve.t) : string :=
  let plan := LoadPlan taskID s in
  let lower := to_lower toolName in
  if String.eqb plan "" || (IsReadTool lower || IsPollerTool lower) || contains lower (to_lower plan)
     || existsb (λ kv, mentions plan kv.2) (map_to_list args) then ""
  else "[PLAN DRIFT] Tool " +:+ go_quote toolName +:+ " was called but is not mentioned in the step plan. Review the plan and ensure this action is necessary. If it is, continue; if not, return to the planned steps.".

(** ** The decision model (sieve_systemone.go) *)

(** [complete] is the model's reply to the safety question: the tool calls it
    makes, or nothing after an error; [fixed2] is the format %.2f. *)
Fixpoint noul_verdict (fixed2 : float64 → string) (minConf : float64) (calls : list (string * gmap string any)) : bool * string :=
  match calls with
  | [] => (true, "")
  | (name, args) :: calls =>
      if negb (String.eqb name "safety") then noul_verdict fixed2 minConf calls
      else
        let number key := match args !! key with Some (AFloat f) => f | _ => S754_zero false end in
        if fltb (number "confidence") minConf then (true, "")
        else if fltb (number "noul") (S754_finite false 4503599627370496 (-53))
        then (false, "systemone sieve: output rejected (noul=" +:+ fixed2 (number "noul") +:+ ", conf=" +:+ fixed2 (number "confidence") +:+ ")")
        else noul_verdict fixed2 minConf calls
  end.
Definition InspectWithSystemOne (complete : option (string → option (list (string * gmap string any)))) (EnableSieve : bool)
    (MinConfidence : float64) (fixed2 : float64 → string) (s : Sieve.t) (text requiredSchema : string) : bool * string :=
  match Inspect s text requiredSchema with
  | (false, reason) => (false, reason)
  | (true, _) =>
      match complete with
      | Some complete =>
          if EnableSieve then
            match complete text with
            | None => (true, "")
            | Some calls =>
                noul_verdict fixed2 (match MinConfidence with S754_zero _ => S754_finite false 4503599627370496 (-53) | c => c end) calls
            end
          else (true, "")
      | None => (true, "")
      end
  end.

(** ** In a step *)

(** [steerRepeatedResult] *)
Definition steerRepeatedResult (sum : string → string) (taskID stepID tool md : string) (s : Sieve.t) : Sieve.t * string :=
  if String.eqb md "" || negb (IsReadTool tool) || IsPollerTool tool then (s, md)
  else
    let '(s, n) := ObserveResult sum taskID stepID tool md s in
    let chars := pretty (Z.of_nat (String.length md)) in
    (s,
     if 4 <=? n then
       "[" +:+ tool +:+ "] Identical result withheld: call #" +:+ pretty n +:+ " of this step returned the same " +:+ chars +:+
       " characters as before, so nothing changed and re-reading cannot help. You already have this data in context. Do not call " +:+
       tool +:+ " again in this step — take the next action the task requires with the tools you have."
     else if 2 <=? n then
       "[RESULT REPETITION] " +:+ tool +:+ " returned the same " +:+ chars +:+ " characters as an earlier call in this step (occurrence #" +:+
       pretty n +:+ "). Different arguments produced no different data — the source is not changing, so re-querying it cannot help. Work with what you already have and move on to the next action the task requires." +:+
       String newline (String newline md)
     else md).

Definition f_0_1 : float64 := S754_finite false 7205759403792794 (-56).
Definition failedOutput (capability reason : string) : SubagentOutput.t :=
  SubagentOutput.mk StatusFailed f_0_1 (Some {["error" := AString reason]}) [] [] [] [] capability None
    ["infrastructure_failure: " +:+ reason] [] [reason] [] 0.
Definition SpawnerLoopDetected (reason : string) : string :=
  "[SYSTEM]: Loop detected (" +:+ reason +:+ "). You are repeating the same tool calls. Change your approach — try different parameters, a different tool, or provide a final answer with current information.".
Definition SpawnerLoopPersistMsg : string :=
  "[SYSTEM]: You are still repeating tool calls. Stop calling tools and provide your best answer with the information you already have.".

(** What becomes of the last question: no provider, an error, an answer. *)
Inductive asked := NoProvider | AskFailed | Answered (text : string).
Module sieveTurnState.
Record t := mk { sieveGuardianHits : Z; userBlocks : list string }.
End sieveTurnState.
(** [turnOutcome]: the turn goes on, is skipped, or ends the step with an output
    after a number of turns. *)
Inductive turnOutcome := TurnGoesOn | TurnSkipped | TurnDone (output : SubagentOutput.t) (turnsUsed : Z).
Definition sieveGuardianTurn (marshal : gmap string any → string) (number : nat → option float64) (ord : gmap string (list string) → list string)
    (ask : list string → asked) (env : DecodeEnv) (taskID stepID capability : string) (turn : Z) (calls : list (string * gmap string any))
    (st : sieveTurnState.t) (s : Sieve.t) : Sieve.t * sieveTurnState.t * turnOutcome :=
  let '(s, (valid, reason)) := InspectToolCalls marshal number ord taskID stepID calls s in
  if valid then (s, st, TurnGoesOn)
  else
    let hits := sieveTurnState.sieveGuardianHits st + 1 in
    if hits =? 1 then (s, sieveTurnState.mk hits (sieveTurnState.userBlocks st ++ [SpawnerLoopDetected reason]), TurnSkipped)
    else
      let st := sieveTurnState.mk hits (sieveTurnState.userBlocks st) in
      match ask (sieveTurnState.userBlocks st ++ [SpawnerLoopPersistMsg]) with
      | Answered text =>
          if negb (String.eqb text "") then
            let out := ParseOutput env text capability in
            let out := out <| SubagentOutput.Status := StatusPartial |>
                           <| SubagentOutput.Confidence ::= λ c, if fltb float_0_3 c then float_0_3 else c |>
                           <| SubagentOutput.Warnings ::= λ l, l ++ ["degraded: " +:+ reason] |> in
            (s, st, TurnDone out (turn + 2))
          else (s, st, TurnDone (failedOutput capability reason) 0)
      | _ => (s, st, TurnDone (failedOutput capability reason) 0)
      end.

(** ** The policy of the chat harness (pkg/chat/chat_tool_result_policy.go) *)

Inductive toolResultPolicy := cacheReadResult | alwaysFreshResult | actionResult.
Definition toolResultPolicyFor (number : nat → option float64) (name : string) (args : gmap string any) : toolResultPolicy :=
  if IsPollingCall number name args then alwaysFreshResult else if negb (IsReadTool name) then actionResult else cacheReadResult.

(** * Properties *)

(** ** Lists *)

Lemma occurrences_app h l l' : occurrences h (l ++ l') = (occurrences h l + occurrences h l')%nat.
Proof. unfold occurrences. by rewrite List.filter_app, length_app. Qed.
Lemma occurrences_drop h n l : (occurrences h (drop n l) <= occurrences h l)%nat.
Proof. rewrite <-(take_drop n l) at 2. rewrite occurrences_app. lia. Qed.
Lemma last_n_length {A} n (l : list A) : (length (last_n n l) <= n)%nat.
Proof. unfold last_n. rewrite length_drop. lia. Qed.
Lemma last_n_all {A} n (l : list A) : (length l <= n)%nat → last_n n l = l.
Proof. intros H. unfold last_n. by replace (length l - n)%nat with 0%nat by lia. Qed.
(** At most [b] of each of the [ks]: at most [b] times their number. *)
Lemma pigeons b ks : ∀ l, (∀ h, h ∈ l → h ∈ ks) → (∀ h, (occurrences h l <= b)%nat) → (length l <= b * length ks)%nat.
Proof.
  induction ks as [|k ks IH]; intros l Hin Hocc; cbn [length].
  - destruct l as [|x l]; [cbn; lia|]. specialize (Hin x ltac:(by left)). by apply not_elem_of_nil in Hin.
  - assert (Hsplit : length l = (occurrences k l + length (List.filter (λ x, negb (String.eqb k x)) l))%nat).
    { unfold occurrences. clear. induction l as [|x l IHl]; [done|]. cbn. destruct (String.eqb k x); cbn; lia. }
    assert (length (List.filter (λ x, negb (String.eqb k x)) l) <= b * length ks)%nat.
    { apply IH.
      - intros h [Hk Hh]%elem_of_filter_list. apply negb_true_iff, String.eqb_neq in Hk.
        specialize (Hin h Hh). by apply elem_of_cons in Hin as [->|?].
      - intros h. etransitivity; [|apply (Hocc h)]. unfold occurrences.
        clear. induction l as [|x l IHl]; cbn; [done|]. destruct (String.eqb k x); cbn; destruct (String.eqb h x); cbn; lia. }
    specialize (Hocc k). lia.
Qed.

(** ** Loops *)

Section loops.
Context (marshal : gmap string any → string) (number : nat → option float64).
Abbreviation hash_of call := (toolCallHash marshal call.1 call.2).
Definition history (s : Sieve.t) (histKey : string) : list string := default [] (Sieve.toolHistory s !! histKey).

(** A call is recorded unless the checks against the history refuse it. *)
Lemma inspect_call_spec taskID histKey s call :
  let '(s', ok) := inspect_call marshal number taskID histKey s call in
  Sieve.ToolRepetitionThreshold s' = Sieve.ToolRepetitionThreshold s ∧
  (∀ k, k ≠ histKey → Sieve.toolHistory s' !! k = Sieve.toolHistory s !! k) ∧
  Sieve.toolResultCache s' = Sieve.toolResultCache s ∧ Sieve.resultContentHistory s' = Sieve.resultContentHistory s ∧
  Sieve.resultSeen s' = Sieve.resultSeen s ∧
  ((ok = false ∧ Sieve.toolHistory s' = Sieve.toolHistory s) ∨
   Sieve.toolHistory s' !! histKey = Some (last_n 100 (history s histKey ++ [hash_of call])) ∧
   (IsPollingCall number call.1 call.2 = false →
    Z.of_nat (occurrences (hash_of call) (history s histKey)) < 2 * Sieve.ToolRepetitionThreshold s)).
Proof.
  unfold inspect_call. fold (history s histKey). set (hash := hash_of call).
  destruct (negb (IsPollingCall number call.1 call.2) && repeats (Sieve.ToolRepetitionThreshold s) (history s histKey) hash) eqn:Hrep.
  { split_and!; try done. by left. }
  assert (Hocc : IsPollingCall number call.1 call.2 = false → Z.of_nat (occurrences hash (history s histKey)) < 2 * Sieve.ToolRepetitionThreshold s).
  { intros Hp. rewrite Hp in Hrep. cbn in Hrep. unfold repeats in Hrep. apply orb_false_iff in Hrep as [_ Hrep]. apply Z.leb_gt in Hrep. lia. }
  destruct (negb _ && detectCycle _ _); unfold recordIntercept; cbn.
  all: split; [done|]; split; [intros k Hk; cbn; by rewrite (lookup_insert_ne (M := gmap string))|]; do 3 (split; [done|]); right.
  all: split; [by rewrite (lookup_insert_eq (M := gmap string))|exact Hocc].
Qed.

(** [small b ks h]: at most [b] of each call, all of them from [ks]. *)
Definition small (b : nat) (ks h : list string) : Prop := (∀ x, x ∈ h → x ∈ ks) ∧ ∀ x, (occurrences x h <= b)%nat.
Lemma inspect_calls_small taskID histKey ks calls : ∀ s,
  let b := Z.to_nat (2 * Sieve.ToolRepetitionThreshold s) in
  (b * length ks < 100)%nat → (∀ call, call ∈ calls → IsPollingCall number call.1 call.2 = false ∧ hash_of call ∈ ks) →
  small b ks (history s histKey) →
  let '(s', ok) := inspect_calls marshal number taskID histKey s calls in
  Sieve.ToolRepetitionThreshold s' = Sieve.ToolRepetitionThreshold s ∧ small b ks (history s' histKey) ∧
  (length (history s histKey) + (if ok then length calls else 0) <= length (history s' histKey))%nat.
Proof.
  induction calls as [|call calls IH]; intros s b Hb Hcalls Hsmall; cbn [inspect_calls].
  { split_and!; try done. cbn. lia. }
  pose proof (inspect_call_spec taskID histKey s call) as Hs.
  destruct (inspect_call marshal number taskID histKey s call) as [s1 ok]. destruct Hs as (ET & _ & _ & _ & _ & Hs).
  destruct (Hcalls call) as [Hp Hk]; [by left|].
  assert (Hh : small b ks (history s1 histKey) ∧ (length (history s histKey) + (if ok then 1 else 0) <= length (history s1 histKey))%nat).
  { destruct Hs as [[-> Hs]|[Hs Hocc]]; [unfold history in *; rewrite Hs; split; [done|lia]|].
    specialize (Hocc Hp). destruct Hsmall as [Hin Hcnt]. pose proof (pigeons b ks _ Hin Hcnt) as Hlen.
    assert (E : history s1 histKey = history s histKey ++ [hash_of call]).
    { unfold history at 1. rewrite Hs. cbn [default]. apply last_n_all. rewrite length_app. cbn. lia. }
    rewrite E. split; [split|rewrite length_app; destruct ok; cbn; lia].
    - intros x [Hx| ->%list_elem_of_singleton]%elem_of_app; auto.
    - intros x. rewrite occurrences_app. unfold occurrences at 2. cbn [List.filter]. destruct (String.eqb_spec x (hash_of call)) as [->|].
      + unfold b. cbn [length]. lia.
      + cbn [length]. specialize (Hcnt x). lia. }
  destruct Hh as [Hsm Hlen]. destruct ok; [|split_and!; try done; lia].
  specialize (IH s1). rewrite ET in IH. specialize (IH Hb ltac:(intros c Hc; apply Hcalls; by right) Hsm).
  destruct (inspect_calls marshal number taskID histKey s1 calls) as [s2 ok2]. destruct IH as (E2 & Hsm2 & Hlen2).
  split_and!; try done. destruct ok2; cbn [length]; lia.
Qed.
Lemma evict_own ord histKey h : default [] (evict ord histKey h !! histKey) = default [] (h !! histKey).
Proof. unfold evict. destruct (_ <? _)%nat; [|done]. by rewrite (lookup_insert_eq (M := gmap string)). Qed.
End loops.

(** ** A step under the guardian *)

Section guardian.
Context (marshal : gmap string any → string) (number : nat → option float64) (ord : gmap string (list string) → list string).
Context (ask : list string → asked) (env : DecodeEnv) (taskID stepID capability : string).
Abbreviation key := (histKey_of taskID stepID).

(** The turns of a step, each with the calls the model makes; [None] when a turn
    ends the step. *)
Fixpoint guardian_run (turn : Z) (st : sieveTurnState.t) (s : Sieve.t) (turns : list (list (string * gmap string any))) :
    option (sieveTurnState.t * Sieve.t) :=
  match turns with
  | [] => Some (st, s)
  | calls :: turns =>
      match sieveGuardianTurn marshal number ord ask env taskID stepID capability turn calls st s with
      | (s, st, TurnDone _ _) => None
      | (s, st, _) => guardian_run (turn + 1) st s turns
      end
  end.
Lemma guardian_run_bounded ks turns : ∀ turn st s st' s',
  let b := Z.to_nat (2 * Sieve.ToolRepetitionThreshold s) in
  (b * length ks < 100)%nat → small b ks (history s key) →
  Forall (λ calls, calls ≠ [] ∧ ∀ call, call ∈ calls → IsPollingCall number call.1 call.2 = false ∧ toolCallHash marshal call.1 call.2 ∈ ks) turns →
  0 <= sieveTurnState.sieveGuardianHits st <= 1 →
  guardian_run turn st s turns = Some (st', s') →
  Z.of_nat (length turns + length (history s key)) + sieveTurnState.sieveGuardianHits st <= Z.of_nat (b * length ks) + 1.
Proof.
  induction turns as [|calls turns IH]; intros turn st s st' s' b Hb Hsm Hturns Hhits; cbn [guardian_run].
  { intros _. pose proof (pigeons b ks _ (proj1 Hsm) (proj2 Hsm)). cbn [length]. lia. }
  apply Forall_cons in Hturns as [[Hne Hcalls] Hturns].
  unfold sieveGuardianTurn, InspectToolCalls. destruct calls as [|call calls]; [done|]. cbn [length Nat.eqb].
  pose proof (inspect_calls_small marshal number taskID key ks (call :: calls) s Hb Hcalls Hsm) as Hs.
  destruct (inspect_calls marshal number taskID key s (call :: calls)) as [s1 ok]. destruct Hs as (ET & Hsm1 & Hlen).
  destruct ok.
  - set (s2 := s1 <| Sieve.toolHistory ::= _ |>). assert (Eh : history s2 key = history s1 key) by apply evict_own.
    intros Hrun. cbn [length] in Hlen.
    assert (Hb2 : (Z.to_nat (2 * Sieve.ToolRepetitionThreshold s2) * length ks < 100)%nat) by (change (Sieve.ToolRepetitionThreshold s2) with (Sieve.ToolRepetitionThreshold s1); by rewrite ET).
    assert (Hsm2 : small (Z.to_nat (2 * Sieve.ToolRepetitionThreshold s2)) ks (history s2 key)) by (change (Sieve.ToolRepetitionThreshold s2) with (Sieve.ToolRepetitionThreshold s1); by rewrite ET, Eh).
    pose proof (IH _ _ _ _ _ Hb2 Hsm2 Hturns Hhits Hrun) as H. cbv zeta in H.
    change (Sieve.ToolRepetitionThreshold s2) with (Sieve.ToolRepetitionThreshold s1) in H. rewrite ET, Eh in H. fold b in H. cbn [length]. lia.
  - cbv iota beta zeta. destruct (Z.eqb_spec (sieveTurnState.sieveGuardianHits st + 1) 1) as [Hh|Hh]; cbn [fst snd].
    + intros Hrun.
      assert (Hb2 : (Z.to_nat (2 * Sieve.ToolRepetitionThreshold s1) * length ks < 100)%nat) by (by rewrite ET).
      assert (Hsm2 : small (Z.to_nat (2 * Sieve.ToolRepetitionThreshold s1)) ks (history s1 key)) by (by rewrite ET).
      match type of Hrun with guardian_run _ ?st1 _ _ = _ =>
        assert (Hh1 : 0 <= sieveTurnState.sieveGuardianHits st1 <= 1) by (cbn; lia);
        pose proof (IH _ _ _ _ _ Hb2 Hsm2 Hturns Hh1 Hrun) as H end.
      cbv zeta in H. cbn [sieveTurnState.sieveGuardianHits] in H. rewrite ET in H. fold b in H. cbn [length]. lia.
    + destruct (ask _) as [| |text]; [done..|]. by destruct (negb (String.eqb text "")).
Qed.
End guardian.

(** C29: a model that keeps to [n] different calls (none of them polls) is
    stopped: with threshold [T] and [2 T n < 100], of any [2 T n + 2] turns in
    which it makes a call one ends the step. *)
Theorem loops_end marshal number ord ask env taskID stepID capability ks turns s
    (Hb : 2 * Sieve.ToolRepetitionThreshold s * Z.of_nat (length ks) < 100)
    (Hfresh : Sieve.toolHistory s !! histKey_of taskID stepID = None)
    (Hturns : Forall (λ calls, calls ≠ [] ∧ ∀ call, call ∈ calls → IsPollingCall number call.1 call.2 = false ∧ toolCallHash marshal call.1 call.2 ∈ ks) turns)
    (Hlen : 2 * Z.max 0 (Sieve.ToolRepetitionThreshold s) * Z.of_nat (length ks) + 2 <= Z.of_nat (length turns)) :
  guardian_run marshal number ord ask env taskID stepID capability 0 (sieveTurnState.mk 0 []) s turns = None.
Proof.
  destruct (guardian_run _ _ _ _ _ _ _ _ _ _ _ _) as [[st' s']|] eqn:Hrun; [exfalso|done].
  assert (E : history s (histKey_of taskID stepID) = []) by (unfold history; by rewrite Hfresh).
  pose proof (guardian_run_bounded marshal number ord ask env taskID stepID capability ks turns 0 (sieveTurnState.mk 0 []) s st' s') as H.
  cbv zeta in H. rewrite E in H. cbn [length sieveTurnState.sieveGuardianHits] in H.
  assert (Z.of_nat (Z.to_nat (2 * Sieve.ToolRepetitionThreshold s) * length ks) = 2 * Z.max 0 (Sieve.ToolRepetitionThreshold s) * Z.of_nat (length ks)) as Eb.
  { rewrite Nat2Z.inj_mul. f_equal. lia. }
  assert (Hlt : (Z.to_nat (2 * Sieve.ToolRepetitionThreshold s) * length ks < 100)%nat).
  { apply Nat2Z.inj_lt. rewrite Eb. destruct (Z.max_spec 0 (Sieve.ToolRepetitionThreshold s)) as [[_ ->]|[_ ->]]; lia. }
  rewrite Eb in H. specialize (H Hlt).
  assert (Hsm : small (Z.to_nat (2 * Sieve.ToolRepetitionThreshold s)) ks []) by (split; [by intros x ?%not_elem_of_nil|cbn; lia]).
  specialize (H Hsm Hturns ltac:(lia) Hrun). lia.
Qed.

Lemma size_insert_le {V} k (v : V) (m : gmap string V) : (size (<[k := v]> m) <= S (size m))%nat.
Proof. rewrite map_size_insert. destruct (m !! k); cbn; lia. Qed.
Lemma capped_insert {V} n k (v : V) (m : gmap string V) : (0 < n)%nat → (size (<[k := v]> (if (n <=? size m)%nat then ∅ else m)) <= n)%nat.
Proof.
  intros Hn. etransitivity; [apply size_insert_le|]. destruct (Nat.leb_spec n (size m)); [|lia].
  rewrite (map_size_empty (M := gmap string)). lia.
Qed.

(** ** The state *)

Section state.
Context (marshal : gmap string any → string) (number : nat → option float64) (sum : string → string).
Context (hash_polling : ∀ n a n' a', toolCallHash marshal n a = toolCallHash marshal n' a' → IsPollingCall number n a = IsPollingCall number n' a').

Inductive sieve_op (s : Sieve.t) : Sieve.t → Prop :=
| op_inspect ord taskID stepID calls : sieve_op s (InspectToolCalls marshal number ord taskID stepID calls s).1
| op_clear taskID : sieve_op s (ClearHistory taskID s)
| op_cache taskID tool args r : sieve_op s (CacheToolResult marshal taskID tool args r s)
| op_clear_cache taskID : sieve_op s (ClearResultCache taskID s)
| op_check taskID r : sieve_op s (CheckResultRepetition sum taskID r s).1
| op_observe taskID stepID tool r : sieve_op s (ObserveResult sum taskID stepID tool r s).1
| op_set_plan taskID plan : sieve_op s (SetPlan taskID plan s)
| op_clear_plan taskID : sieve_op s (ClearPlan taskID s).

(** [lo] and [hi] bound the threshold. *)
Definition history_ok (hi : Z) (h : list string) : Prop :=
  (length h <= 100)%nat ∧
  ∀ n a, IsPollingCall number n a = false → Z.of_nat (occurrences (toolCallHash marshal n a) h) <= 2 * hi.
Definition bounded (lo hi : Z) (s : Sieve.t) : Prop :=
  lo <= Sieve.ToolRepetitionThreshold s <= hi ∧
  map_Forall (λ _, history_ok hi) (Sieve.toolHistory s) ∧
  map_Forall (λ _ c, size c <= 50)%nat (Sieve.toolResultCache s) ∧
  map_Forall (λ _ h, length h <= 100)%nat (Sieve.resultContentHistory s) ∧
  (size (Sieve.resultSeen s) <= 4096)%nat.

Lemma history_ok_drop hi n h : history_ok hi h → history_ok hi (drop n h).
Proof using Type.
  intros [Hl Ho]. split; [rewrite length_drop; lia|]. intros m a Hp. specialize (Ho m a Hp).
  pose proof (occurrences_drop (toolCallHash marshal m a) n h). lia.
Qed.
Lemma history_ok_nil hi : 0 <= hi → history_ok hi [].
Proof using Type. intros H. split; [cbn; lia|]. intros. cbn. lia. Qed.
Lemma inspect_call_bounded lo hi taskID histKey s call :
  0 <= hi → bounded lo hi s → bounded lo hi (inspect_call marshal number taskID histKey s call).1.
Proof using hash_polling.
  intros Hhi (HT & Hh & Hc & Hr & Hseen). pose proof (inspect_call_spec marshal number taskID histKey s call) as Hs.
  destruct (inspect_call marshal number taskID histKey s call) as [s1 ok]. destruct Hs as (ET & Hother & Ec & Er & Es & Hs). cbn [fst].
  unfold bounded. rewrite ET, Ec, Er, Es. split; [done|]. split; [|done]. intros k h Hk.
  destruct Hs as [[_ Heq]|[Hkey Hocc]]; [rewrite Heq in Hk; by apply (Hh k)|].
  destruct (decide (k = histKey)) as [->|Hne]; [|rewrite Hother in Hk by done; by apply (Hh k)].
  rewrite Hkey in Hk. injection Hk as <-. split; [apply last_n_length|]. intros n a Hp.
  assert (Hold : history_ok hi (history s histKey)).
  { unfold history. destruct (Sieve.toolHistory s !! histKey) as [h|] eqn:E; [by apply (Hh histKey)|by apply history_ok_nil]. }
  pose proof (proj2 Hold n a Hp) as Ho. unfold last_n.
  etransitivity; [apply Nat2Z.inj_le, occurrences_drop|]. rewrite occurrences_app. unfold occurrences at 2. cbn [List.filter].
  destruct (String.eqb_spec (toolCallHash marshal n a) (toolCallHash marshal call.1 call.2)) as [E|]; cbn [length]; [|lia].
  pose proof (hash_polling _ _ _ _ E) as Hpc. rewrite Hp in Hpc. specialize (Hocc (eq_sym Hpc)). rewrite <-E in Hocc. lia.
Qed.
Lemma evict_ok hi ord histKey h : 0 <= hi → map_Forall (λ _, history_ok hi) h → map_Forall (λ _, history_ok hi) (evict ord histKey h).
Proof using Type.
  intros Hhi Hh. unfold evict. destruct (_ <? _)%nat; [|done].
  apply map_Forall_insert_2; [destruct (h !! histKey) as [x|] eqn:E; [by apply (Hh histKey)|by apply history_ok_nil]|].
  induction (every_fourth 0 ord) as [|k ks IH]; [done|]. cbn. by apply map_Forall_delete.
Qed.
Lemma inspect_bounded lo hi ord taskID stepID calls s :
  0 <= hi → bounded lo hi s → bounded lo hi (InspectToolCalls marshal number ord taskID stepID calls s).1.
Proof using hash_polling.
  intros Hhi Hs. unfold InspectToolCalls. destruct (length calls =? 0)%nat; [done|].
  assert (H : bounded lo hi (inspect_calls marshal number taskID (histKey_of taskID stepID) s calls).1).
  { revert s Hs. induction calls as [|call calls IH]; intros s Hs; [done|]. cbn [inspect_calls].
    pose proof (inspect_call_bounded lo hi taskID (histKey_of taskID stepID) s call Hhi Hs) as H1.
    destruct (inspect_call _ _ _ _ _ _) as [s1 [|]]; [by apply IH|done]. }
  destruct (inspect_calls _ _ _ _ _ _) as [s1 [|]]; [|done]. destruct H as (HT & Hh & Hrest).
  split; [done|]. split; [by apply evict_ok|done].
Qed.
Lemma adapt_fields stats s :
  Sieve.toolHistory (adapt stats s) = Sieve.toolHistory s ∧ Sieve.toolResultCache (adapt stats s) = Sieve.toolResultCache s ∧
  Sieve.resultContentHistory (adapt stats s) = Sieve.resultContentHistory s ∧ Sieve.resultSeen (adapt stats s) = Sieve.resultSeen s ∧
  Z.min 2 (Sieve.ToolRepetitionThreshold s) <= Sieve.ToolRepetitionThreshold (adapt stats s) <= Z.max 6 (Sieve.ToolRepetitionThreshold s).
Proof using Type.
  unfold adapt. destruct (match stats with None => true | Some _ => _ end).
  - destruct (_ <=? _); cbn [andb]; [|by split_and!; cbn; try lia].
    destruct (Z.ltb_spec adaptiveThresholdMin (Sieve.ToolRepetitionThreshold s)); unfold adaptiveThresholdMin in *; by split_and!; cbn; try lia.
  - destruct (_ <=? _); cbn [andb]; [|by split_and!; cbn; try lia].
    match goal with |- context [?a <? adaptiveThresholdMax] => destruct (Z.ltb_spec a adaptiveThresholdMax) as [H|H] end;
      unfold adaptiveThresholdMax in *; cbn in H; by split_and!; cbn; try lia.
Qed.
Lemma ClearHistory_bounded lo hi taskID s : lo <= 2 → 6 <= hi → bounded lo hi s → bounded lo hi (ClearHistory taskID s).
Proof using Type.
  intros Hlo Hhi (HT & Hh & Hc & Hr & Hs). unfold ClearHistory.
  match goal with |- bounded _ _ (adapt ?stats ?s0) => destruct (adapt_fields stats s0) as (Eh & Ec & Er & Es & ET); set (s1 := s0) in * end.
  change (Sieve.ToolRepetitionThreshold s1) with (Sieve.ToolRepetitionThreshold s) in ET.
  unfold bounded. rewrite Eh, Ec, Er, Es. split; [lia|]. split; [|split; [|split]].
  - intros k h Hk. apply (Hh k). unfold s1, without_prefix in Hk. cbn in Hk.
    apply map_lookup_filter_Some in Hk as [Hk _]. by apply lookup_delete_Some in Hk as [_ Hk].
  - by apply map_Forall_delete.
  - by apply map_Forall_delete.
  - etransitivity; [|exact Hs]. unfold s1, without_prefix. cbn. apply map_subseteq_size, map_filter_subseteq.
Qed.
Lemma sieve_op_bounded lo hi s s' : lo <= 2 → 6 <= hi → sieve_op s s' → bounded lo hi s → bounded lo hi s'.
Proof using hash_polling.
  intros Hlo Hhi Hop Hs. destruct Hop as [ord taskID stepID calls|taskID|taskID tool args r|taskID|taskID r|taskID stepID tool r|taskID plan|taskID].
  - apply inspect_bounded; [lia|done].
  - by apply ClearHistory_bounded.
  - destruct Hs as (? & ? & Hc & ? & ?). split; [done|]. split; [done|]. split; [|done].
    apply map_Forall_insert_2; [|done]. apply capped_insert. unfold maxCachePerTask. lia.
  - destruct Hs as (? & ? & Hc & ? & ?). split; [done|]. split; [done|]. split; [|done]. by apply map_Forall_delete.
  - destruct Hs as (? & ? & ? & Hr & ?). do 3 (split; [done|]). split; [|done].
    apply map_Forall_insert_2; [apply last_n_length|done].
  - unfold ObserveResult. destruct (String.eqb r ""); [done|]. destruct Hs as (? & ? & ? & ? & Hn). do 4 (split; [done|]).
    cbn -[maxResultSeenEntries].
    set (k := taskID +:+ _). case_bool_decide as Hk; cbn [negb andb].
    + rewrite map_size_insert. destruct Hk as [x ->]. done.
    + apply (capped_insert maxResultSeenEntries). unfold maxResultSeenEntries. lia.
  - done.
  - done.
Qed.
End state.

(** C31: whatever the sieve is asked to do, in whatever order: a history holds at
    most 100 calls and no call that is not a poll more than twice the highest
    threshold, a task's cache at most 50 results, the counts of seen results stay
    below 4097, and the threshold stays within its limits. *)
Theorem sieve_bounded marshal number sum keep threshold s
    (Hpoll : ∀ n a n' a', toolCallHash marshal n a = toolCallHash marshal n' a' → IsPollingCall number n a = IsPollingCall number n' a') :
  let s0 := NewSieveFromConfig keep threshold in
  rtc (sieve_op marshal number sum) s0 s →
  bounded marshal number (Z.min 2 (Sieve.ToolRepetitionThreshold s0)) (Z.max 6 (Sieve.ToolRepetitionThreshold s0)) s.
Proof.
  intros s0 Hrun.
  assert (Hinit : bounded marshal number (Z.min 2 (Sieve.ToolRepetitionThreshold s0)) (Z.max 6 (Sieve.ToolRepetitionThreshold s0)) s0).
  { split; [lia|]. unfold s0, NewSieveFromConfig, NewSieve. destruct (0 <? threshold).
    all: do 3 (split; [apply map_Forall_empty|]).
    all: change (size (∅ : gmap string Z) <= 4096)%nat; rewrite (map_size_empty (M := gmap string)); lia. }
  revert Hinit. generalize (Z.min 2 (Sieve.ToolRepetitionThreshold s0)) (Z.le_min_l 2 (Sieve.ToolRepetitionThreshold s0)).
  generalize (Z.max 6 (Sieve.ToolRepetitionThreshold s0)) (Z.le_max_l 6 (Sieve.ToolRepetitionThreshold s0)). intros hi Hhi lo Hlo.
  induction Hrun as [|x y z Hxy _ IH]; [done|]. intros Hx. apply IH. by eapply sieve_op_bounded.
Qed.

(** ** Outputs and contexts *)

Definition truncated_marker : string := "... [Output truncated by Sieve Pruner]".
Lemma prune_lines_spec keywords maxKeep lines : ∀ n, n < maxKeep →
  ∃ kept rest, prune_lines keywords maxKeep n lines = kept ++ rest ∧ (rest = [] ∨ rest = [truncated_marker]) ∧
    kept `sublist_of` lines ∧ n + Z.of_nat (length kept) <= maxKeep ∧
    (rest = [] → kept = List.filter (λ line, existsb (λ kw, contains kw (to_lower line)) keywords) lines).
Proof.
  induction lines as [|line lines IH]; intros n Hn; cbn [prune_lines List.filter].
  { exists [], []. split_and!; auto; cbn [length app]; lia. }
  destruct (existsb _ keywords); cbn [app].
  - destruct (Z.leb_spec maxKeep (n + 1)).
    + exists [line], [truncated_marker]. split_and!; auto; [by apply sublist_skip, sublist_nil_l|cbn [length app]; lia|done].
    + destruct (IH (n + 1)) as (kept & rest & -> & Hr & Hs & Hlen & Hall); [lia|].
      exists (line :: kept), rest. split_and!; auto; [by apply sublist_skip|cbn [length app]; lia|intros Hnil; f_equal; auto].
  - destruct (Z.leb_spec maxKeep n); [lia|].
    destruct (IH n Hn) as (kept & rest & -> & Hr & Hs & Hlen & Hall). exists kept, rest. split_and!; auto. by apply sublist_cons.
Qed.
(** A large output keeps lines of the original in order, those with a keyword,
    and no more than [MaxKeep]; an output without such a line keeps its head. *)
Theorem prune_bounded s text goal :
  0 < Sieve.MaxKeep s → (20 <= length (split_on newline text))%nat →
  ∃ kept head tail, PruneOutput s text goal = join (String newline "") (head ++ kept ++ tail) ∧
    kept `sublist_of` split_on newline text ∧ Z.of_nat (length kept) <= Z.max 10 (Sieve.MaxKeep s) ∧ (length (head ++ tail) <= 1)%nat.
Proof.
  intros Hk Hl. unfold PruneOutput. destruct (Nat.ltb_spec (length (split_on newline text)) 20); [lia|].
  set (kws := _ ++ List.filter _ _).
  destruct (prune_lines_spec kws (Sieve.MaxKeep s) (split_on newline text) 0 Hk) as (kept & rest & E & Hr & Hs & Hlen & _).
  rewrite E. destruct (kept ++ rest) as [|x l] eqn:Ekr.
  - exists (take 10 (split_on newline text)), ["[Sieve Pruner: No relevant lines found in large output. Showing first 10 lines only:]"], [].
    rewrite app_nil_r. split_and!; [|apply sublist_take|rewrite length_take; lia|cbn [length app]; lia].
    cbn [app join]. destruct (take 10 _) eqn:Et; [|done]. exfalso.
    apply (f_equal length) in Et. rewrite length_take in Et. cbn [length] in Et. lia.
  - exists kept, [], rest. rewrite <-Ekr. split_and!; [done..|lia|]. destruct Hr as [-> | ->]; cbn [length app]; lia.
Qed.
Lemma protected_verbatim compressGo prefixes data k :
  isProtectedKey prefixes k = true → CompressContext compressGo prefixes data !! k = data !! k.
Proof. intros H. unfold CompressContext. rewrite map_lookup_imap. destruct (data !! k) as [v|]; cbn; [by rewrite H|done]. Qed.

(** ** Concrete runs *)

Definition ex_number (_ : nat) : option float64 := None.
(** An encoder that shows whether the call waits. *)
Definition ex_marshal (args : gmap string any) : string :=
  if fltb (S754_zero false) (positiveSecondsArg ex_number args "wait_seconds") then "W" else "N".
Lemma ex_hash_polling n a n' a' :
  toolCallHash ex_marshal n a = toolCallHash ex_marshal n' a' → IsPollingCall ex_number n a = IsPollingCall ex_number n' a'.
Proof.
  assert (Hc : ∀ args, positiveSecondsArg ex_number (CanonicalToolArgs args) "wait_seconds" = positiveSecondsArg ex_number args "wait_seconds").
  { intros args. unfold positiveSecondsArg, CanonicalToolArgs. rewrite map_lookup_filter.
    destruct (args !! "wait_seconds"); cbn; [|done]. unfold guard. by case_decide. }
  unfold toolCallHash, ex_marshal, IsPollingCall. rewrite !Hc. intros H. apply (f_equal bytes) in H. rewrite !bytes_app in H.
  destruct (fltb _ (positiveSecondsArg ex_number a _)), (fltb _ (positiveSecondsArg ex_number a' _)); apply app_inj_2 in H as [Hn Ht]; try done;
    apply bytes_inj in Hn as ->; done.
Qed.
Definition ex_order : gmap string (list string) → list string := λ m, elements (dom m).
Definition ex_ask (_ : list string) : asked := NoProvider.

Lemma loops_end_witness :
  guardian_run ex_marshal ex_number ex_order ex_ask ex_decode "t" "s" "cap" 0 (sieveTurnState.mk 0 []) (NewSieve 100)
    (replicate 8 [("get_weather", ∅ : gmap string any)]) = None.
Proof.
  apply (loops_end ex_marshal ex_number ex_order ex_ask ex_decode "t" "s" "cap" ["get_weather:N"]).
  - vm_compute. reflexivity.
  - reflexivity.
  - apply Forall_forall. intros calls [-> _]%elem_of_replicate. split; [discriminate|].
    intros call Hc. apply (proj1 (list_elem_of_singleton _ _)) in Hc. subst call. split; [reflexivity|by left].
  - vm_compute. discriminate.
Defined.
Lemma sieve_bounded_witness :
  let s := (InspectToolCalls ex_marshal ex_number ex_order "t" "s" [("get_weather", ∅)] (NewSieveFromConfig 100 3)).1 in
  bounded ex_marshal ex_number 2 6 s.
Proof.
  apply (sieve_bounded ex_marshal ex_number (λ r, r) 100 3 _ ex_hash_polling).
  eapply rtc_l; [apply (op_inspect ex_marshal ex_number (λ r, r))|apply rtc_refl].
Defined.

(** The threshold moves the wrong way: a task that went round in two different
    loops leaves it higher, so the next loop is caught later; ten tasks without
    a loop leave it lower. *)
Definition ex_two_loops : Sieve.t := recordIntercept "t" "a" (recordIntercept "t" "b" (NewSieve 100)).
Example adaptation_inverted :
  Sieve.ToolRepetitionThreshold (ClearHistory "t" ex_two_loops) = 4 ∧
  Sieve.ToolRepetitionThreshold (Nat.iter 10 (ClearHistory "t") (NewSieve 100)) = 2 ∧
  repeats 3 ["a"; "a"; "a"] "a" = true ∧ repeats 4 ["a"; "a"; "a"] "a" = false.
Proof. vm_compute. split_and!; reflexivity. Qed.
(** With a configured threshold of one the search for cycles compares nothing:
    the fourth of four different calls is a loop. *)
Example threshold_one_refuses :
  let call name := (name, ∅ : gmap string any) in
  (InspectToolCalls ex_marshal ex_number ex_order "t" "s" [call "a"; call "b"; call "c"; call "d"] (NewSieveFromConfig 100 1)).2 =
  (false, "InfiniteLoopDetected").
Proof. vm_compute. reflexivity. Qed.
(** Verbs of reading are prefixes without a separator: buying and refunding
    count as reads, whose results are cached and replayed. *)
Example checkout_is_read :
  toolResultPolicyFor ex_number "shop__checkout" ∅ = cacheReadResult ∧ toolResultPolicyFor ex_number "shop__issue_refund" ∅ = cacheReadResult.
Proof. vm_compute. split; reflexivity. Qed.
(** The similarity of two lines may exceed one. *)
Example similarity_three : calculateSimilarity "ok" "ok ok ok" = float_of_int 3.
Proof. vm_compute. reflexivity. Qed.
(** The words that claim completeness are found inside other words. *)
Example small_claims_all :
  (InspectTruncationArtifact (Some (ToolMetadata.mk true 5 90 "")) "a small sample").1 = false.
Proof. vm_compute. reflexivity. Qed.
(** A literal repetition: refused at the fourth call, and the step ends at the
    second refusal. *)
Example fourth_call_refused :
  let calls := [("get_weather", ∅ : gmap string any)] in
  let run n := guardian_run ex_marshal ex_number ex_order ex_ask ex_decode "t" "s" "cap" 0 (sieveTurnState.mk 0 []) (NewSieve 100) (replicate n calls) in
  match run 4%nat with Some (st, _) => sieveTurnState.sieveGuardianHits st = 1 | None => False end ∧ run 5%nat = None.
Proof. vm_compute. split; reflexivity. Qed.
