(* ===== verification/DecisionGate.v ===== *)
(** * The decision gate (core/scheduler_decision_gate.go)

    How a blocked step becomes a parked decision: option filtering, the
    conservative default of unattended mode, the decider's text matching,
    [addDecision], [maybeBlock] and the two failure handlers.

    A handler works on [GateState]: the graph (updated in place in Go), the
    engine's per-step rate-limit clock and the outputs it emits, in order. *)

From S2P Require Import Prelude TaskStatus Schema FailureClass.
From Stdlib Require Import Ascii.

(** The registry's system settings the scheduler reads. *)
Record SystemConfig := mkSystemConfig {
  MaxConsecutiveSkips : Z;
  NonInteractive : bool;
  AllowCriticalAutoResolve : bool;
  AllowHumanApprovalAutoResolve : bool;
  DecisionDeciderRole : string;
  MaxToolTurns : Z;
  SysMaxSpawnDepth : Z;
  ConfidenceThreshold : float64;
  HealthyModels : any;
  RiskWords : RiskKeywords
}.

(** The string constants of [DecisionType] (schemas/task_status.go). *)
Definition decision_string (t : DecisionType) : string :=
  match t with
  | DecisionStepFailed => "step_failed"
  | DecisionCapabilityRequired => "capability_required"
  | DecisionLowConfidence => "low_confidence"
  | DecisionEnvironmentMissing => "environment_missing"
  | DecisionDelegationRequired => "delegation"
  | DecisionUpstreamInsufficient => "upstream_insufficient"
  | DecisionBudgetExhausted => "budget_exhausted"
  | DecisionMaxTurnsExhausted => "max_turns_exhausted"
  | DecisionRewriteDAG => "rewrite_dag"
  | DecisionHumanApprovalRequired => "human_approval_required"
  | DecisionAutonomousAbortRequested => "autonomous_abort_requested"
  | DecisionGoalChangeRequested => "goal_change_requested"
  end.

(** What a handler makes visible outside the graph. *)
Inductive Output :=
| OPersist (g : TaskGraph.t)
| OBroadcast
| OBroadcastDone (taskID : string)
| OCancel (taskID : string)
| OStartExecutor (taskID : string)
| OEvent (event taskID stepID : string)
| OManifest (g : TaskGraph.t)
| OReflect (taskID : string)
| ODeliver (taskID : string)
| ONotify (event taskID : string)
| OArchive (taskID stepID summary : string)
| OCompensate (taskID stepID : string)
| OMarkStale (taskID : string) (steps : list string)
| OAudit (action taskID stepID decisionID dtype choice : string) (options : list string)
| OAutoResolve (role taskID decisionID stepID : string) (dtype : DecisionType)
    (ctx : gmap string any) (options : list string) (submitterIsAdmin : bool) (ownerID : string).

Record GateState := mkGate {
  gs_graph : TaskGraph.t;
  recentDecisions : gmap string Z;
  gs_out : list Output
}.
#[export] Instance GateState_eta : Eta GateState :=
  λ s, mkGate (gs_graph s) (recentDecisions s) (gs_out s).
Definition emit (o : Output) (s : GateState) : GateState := s <| gs_out ::= λ l, l ++ [o] |>.

(** ** Option filtering *)

Definition publicTierOptions : list string :=
  ["skip"; "abort"; "retry"; "refine_and_retry"; "fulfill"; "resume_more_turns"; "replan"; "create_role"].
Definition PublicTierAllowsChoice (choice : string) : bool := bool_decide (choice ∈ publicTierOptions).

Definition filterPublicOptions (options : list string) : list string :=
  match filter (λ o, PublicTierAllowsChoice o = true) options with
  | [] => options
  | out => out
  end.

Definition filterSkipOptions (consecutiveSkips maxSkips : Z) (ctx : gmap string any)
    (options : list string) : list string :=
  let removeSkip := bool_decide (maxSkips ≤ consecutiveSkips)%Z in
  let removeSkip :=
    match as_string (ctx !! "root_cause") with
    | Some rootCause =>
        removeSkip || bool_decide (rootCause = "capability_required")
                   || bool_decide (rootCause = "context_deficit")
    | None => removeSkip
    end in
  if negb removeSkip then options
  else
    let filtered := filter (λ o, o ≠ "skip") options in
    if decide ("abort" ∉ filtered ∧ 0 < length filtered) then filtered ++ ["abort"] else filtered.

Definition filterOptionsForTier (consecutiveSkips maxSkips : Z) (ctx : gmap string any)
    (options : list string) (submitterIsAdmin : bool) : list string :=
  let options := filterSkipOptions consecutiveSkips maxSkips ctx options in
  if submitterIsAdmin then options else filterPublicOptions options.

Definition default_preferences (dtype : DecisionType) : option (list string) :=
  match dtype with
  | DecisionStepFailed | DecisionCapabilityRequired | DecisionLowConfidence
  | DecisionEnvironmentMissing | DecisionDelegationRequired | DecisionUpstreamInsufficient
  | DecisionBudgetExhausted => Some ["skip"; "retry"; "refine_and_retry"; "abort"]
  | DecisionMaxTurnsExhausted => Some ["resume_more_turns"]
  | DecisionAutonomousAbortRequested => Some ["continue"]
  | DecisionHumanApprovalRequired => Some ["abort"; "skip"]
  | _ => None
  end.
Definition defaultNonInteractiveChoice (dtype : DecisionType) (options : list string) : option string :=
  prefs ← default_preferences dtype;
  List.find (λ want, existsb (String.eqb want) options) prefs.

(** ** Matching the decider's answer *)

Definition isWordChar (b : ascii) : bool :=
  let n := nat_of_ascii b in
  ((97 <=? n) && (n <=? 122)) || ((48 <=? n) && (n <=? 57)) || (n =? 95).

Definition boundary_left (s : list ascii) (start : nat) : bool :=
  match start with
  | 0 => true
  | S p => match s !! p with Some b => negb (isWordChar b) | None => true end
  end.
Definition boundary_right (s : list ascii) (end_ : nat) : bool :=
  match s !! end_ with Some b => negb (isWordChar b) | None => true end.

(** The loop of [containsWord]; [fuel] bounds the iterations. *)
Fixpoint containsWord_loop (fuel : nat) (s word : list ascii) (idx : nat) : bool :=
  match fuel with
  | 0 => false
  | S fuel' =>
      if idx + length word <=? length s then
        match index_of word (drop idx s) with
        | None => false
        | Some i =>
            let start := idx + i in
            let end_ := start + length word in
            if boundary_left s start && boundary_right s end_ then true
            else containsWord_loop fuel' s word end_
        end
      else false
  end.
Definition containsWord (s word : string) : bool :=
  match bytes word with
  | [] => false
  | w => containsWord_loop (S (length (bytes s))) (bytes s) w 0
  end.

(** [spawnDecider] after the decider role was spawned: [reply] is the printed
    result of the spawn, [None] when it failed. *)
Definition spawnDecider (reply : option string) (options : list string) : option string :=
  match reply with
  | None => None
  | Some r =>
      let text := TrimSpace (to_lower r) in
      match List.find (λ opt, String.eqb (to_lower opt) text) options with
      | Some opt => Some opt
      | None =>
          let best := foldl (λ best opt,
            let lo := to_lower opt in
            if containsWord text lo && (String.length best <? String.length lo) then opt else best)
            "" options in
          if decide (best = "") then None else Some best
      end
  end.

(** [resolveNonInteractiveDecision]: the choice and the audit entries written.
    [decider] is the reply of the spawned role, [None] also without a spawner. *)
Definition resolveNonInteractiveDecision (cfg : SystemConfig) (deciderRole : string)
    (decider : option string) (taskID decID stepID : string)
    (dtype : DecisionType) (options : list string) : option string * list Output :=
  if bool_decide (dtype = DecisionHumanApprovalRequired)
     && negb (AllowHumanApprovalAutoResolve cfg) then (None, [])
  else
    match (if decide (deciderRole = "") then None else spawnDecider decider options) with
    | Some choice => (Some choice, [])
    | None =>
        match defaultNonInteractiveChoice dtype options with
        | None => (None, [])
        | Some choice =>
            (Some choice, [OAudit "autoResolve" taskID stepID decID (decision_string dtype) choice options])
        end
    end.

(** ** Raising a decision *)

Definition isTerminalStatus (st : GraphStatus) : bool :=
  match st with
  | GraphCompleted | GraphCompletedWithSkips | GraphFailed | GraphCancelled => true
  | _ => false
  end.

Definition thirty_seconds : Z := 30000000000%Z.

(** [maybeAutoResolveNonInteractive]: the goroutine it starts is the output
    [OAutoResolve]. *)
Definition maybeAutoResolveNonInteractive (cfg : option SystemConfig) (now : Z)
    (step : Step.t) (dec : Decision.t) (s : GateState) : GateState :=
  match cfg with
  | None => s
  | Some c =>
      if negb (NonInteractive c) then s
      else
        let g := gs_graph s in
        let tier := (DetermineRiskTier (RiskWords c) (Step.Task step) (Step.AdditionalMCPs step)).1 in
        if bool_decide (tier = RiskTierCritical) && negb (AllowCriticalAutoResolve c) then s
        else
          let rlKey := (TaskGraph.TaskID g +:+ ":" +:+ Step.ID step)%string in
          let limited := match recentDecisions s !! rlKey with
                         | Some last => bool_decide (now - last < thirty_seconds)%Z
                         | None => false
                         end in
          if limited then s
          else
            let s := s <| recentDecisions ::= insert rlKey now |> in
            emit (OAutoResolve (DecisionDeciderRole c) (TaskGraph.TaskID g) (Decision.ID dec)
                    (Step.ID step) (Decision.Type_ dec) (Decision.Context dec) (Decision.Options dec)
                    (TaskGraph.SubmitterIsAdmin g) (TaskGraph.OwnerID g)) s
  end.

(** The rewrite_dag option [addDecision] injects. *)
Definition inject_rewrite (dtype : DecisionType) (ctx : gmap string any) (options : list string)
    : list string :=
  match dtype with
  | DecisionUpstreamInsufficient => options ++ ["rewrite_dag"]
  | DecisionStepFailed =>
      let rootCause := default "" (as_string (ctx !! "root_cause")) in
      if decide (rootCause = "context_deficit" ∨ rootCause = "capability_required")
      then options ++ ["rewrite_dag"] else options
  | _ => options
  end.

Definition insert_if (b : bool) (k : string) (v : any) (m : gmap string any) : gmap string any :=
  if b then <[k := v]> m else m.

(** The products listed in a decision's context, as dynamic values. *)
Definition any_of_OutputFile (f : OutputFile.t) : any :=
  AMap [("step_id", AString (OutputFile.StepID f)); ("path", AString (OutputFile.Path f));
        ("format", AString (OutputFile.Format f)); ("summary", AString (OutputFile.Summary f));
        ("size_bytes", AInt64 (OutputFile.SizeBytes f)); ("is_primary", ABool (OutputFile.IsPrimary f));
        ("deliver", AString (OutputFile.Deliver f))].
Definition any_of_Artifact (a : Artifact.t) : any :=
  AMap [("path", AString (Artifact.Path a)); ("source_refs", AStrings (Artifact.SourceRefs a));
        ("sha256", AString (Artifact.SHA256 a)); ("status", AString (Artifact.Status a));
        ("format", AString (Artifact.Format a)); ("size_bytes", AInt64 (Artifact.SizeBytes a));
        ("owner_step", AString (Artifact.OwnerStep a));
        ("delivery_status", AString (Artifact.DeliveryStatus a))].

(** The context a decision carries: the products already in the task's space. *)
Definition decision_context (cfg : option SystemConfig) (g : TaskGraph.t) (step : Step.t)
    (ctx : gmap string any) : gmap string any :=
  let ctx := insert_if (bool_decide (Step.ResultRef step ≠ "")) "result_ref"
               (AString (Step.ResultRef step)) ctx in
  let ctx := insert_if (bool_decide (0 < length (TaskGraph.OutputFiles g))) "output_files"
               (AList (any_of_OutputFile <$> TaskGraph.OutputFiles g)) ctx in
  let ctx := insert_if (bool_decide (0 < length (TaskGraph.Artifacts g))) "artifacts"
               (AList (any_of_Artifact <$> TaskGraph.Artifacts g)) ctx in
  let keys := sort_strings (elements (dom (TaskGraph.GlobalWorkspace g))) in
  insert_if (bool_decide (0 < length keys)) "workspace_keys" (AStrings keys) ctx.

Definition addDecision (cfg : option SystemConfig) (decID : string) (now : Z) (stepID : string)
    (dtype : DecisionType) (ctx : gmap string any) (options : list string) (s : GateState) : GateState :=
  let g := gs_graph s in
  match get_step g stepID with
  | None => s
  | Some step =>
      let ctx := match cfg with
                 | Some c => <["available_models" := HealthyModels c]> ctx
                 | None => ctx
                 end in
      let options := inject_rewrite dtype ctx options in
      let maxSkips := match cfg with
                      | Some c => if decide (0 < MaxConsecutiveSkips c)%Z then MaxConsecutiveSkips c else 3%Z
                      | None => 3%Z
                      end in
      let options := filterOptionsForTier (TaskGraph.ConsecutiveSkips g) maxSkips ctx options
                       (TaskGraph.SubmitterIsAdmin g) in
      let ctx := decision_context cfg g step ctx in
      let dec := Decision.mk decID (Step.ID step) dtype ctx options now in
      let s := emit (OAudit "addDecision" (TaskGraph.TaskID g) (Step.ID step) decID (decision_string dtype) "" options) s in
      if isTerminalStatus (TaskGraph.Status g) then s
      else
        let g := g <| TaskGraph.PendingDecisions ::= λ l, l ++ [dec] |> in
        let s := s <| gs_graph := g |> in
        let s := emit (OPersist g) s in
        let s := emit (OBroadcastDone (TaskGraph.TaskID g)) s in
        let s := emit (OEvent "decision_required" (TaskGraph.TaskID g) (Step.ID step)) s in
        maybeAutoResolveNonInteractive cfg now step dec s
  end.

Definition set_step_status (stepID : string) (st : StepStatus) (s : GateState) : GateState :=
  s <| gs_graph ::= upd_step stepID (λ x, x <| Step.Status := st |>) |>.

(** [maybeBlock]: activate the fallback, else block the pending dependents and ask. *)
Definition block_dependent (stepID : string) (other : Step.t) : Step.t :=
  if bool_decide (stepID ∈ Step.DependsOn other) && bool_decide (Step.Status other = StepPending)
  then other <| Step.Status := StepBlocked |> else other.
Definition maybeBlock (cfg : option SystemConfig) (ord : list string) (decID : string) (now : Z)
    (stepID : string) (s : GateState) : GateState :=
  match get_step (gs_graph s) stepID with
  | None => s
  | Some step =>
      match FallbackFor (gs_graph s) ord stepID with
      | Some fallback => set_step_status (Step.ID fallback) StepPending s
      | None =>
          let s := s <| gs_graph ::= λ g, g <| TaskGraph.Steps ::= fmap (block_dependent stepID) |> |> in
          addDecision cfg decID now stepID DecisionStepFailed
            (<["last_error" := AString (Step.LastError step)]>
              (<["retry_count" := AInt (Step.RetryCount step)]> ∅))
            ["skip"; "abort"] s
      end
  end.

Definition handleDefaultFailure (cfg : option SystemConfig) (ord : list string) (decID : string)
    (now : Z) (stepID : string) (s : GateState) : GateState :=
  maybeBlock cfg ord decID now stepID (set_step_status stepID StepFailed s).

Definition handleDelegationRequired (cfg : option SystemConfig) (decID : string) (now : Z)
    (stepID : string) (output : SubagentOutput.t) (s : GateState) : GateState :=
  let s := set_step_status stepID StepBlocked s in
  let roleID := match get_step (gs_graph s) stepID with Some st => Step.RoleID st | None => "" end in
  addDecision cfg decID now stepID DecisionDelegationRequired
    (<["kind" := AString "external_subagent"]>
      (<["prompt" := AMap (map_to_list (result_map output))]>
        (<["role_id" := AString roleID]> ∅)))
    ["fulfill"; "skip"; "abort"] s.

(** ** Option filtering: lemmas *)

(** The two conditions that withdraw "skip". *)
Definition skip_withdrawn (consecutiveSkips maxSkips : Z) (ctx : gmap string any) : Prop :=
  (maxSkips ≤ consecutiveSkips)%Z ∨
  as_string (ctx !! "root_cause") = Some "capability_required" ∨
  as_string (ctx !! "root_cause") = Some "context_deficit".

Lemma filterSkipOptions_kept c m ctx options :
  ¬ skip_withdrawn c m ctx → filterSkipOptions c m ctx options = options.
Proof.
  intros Hn. assert (¬ (m ≤ c)%Z) by (intros ?; apply Hn; by left).
  unfold skip_withdrawn in Hn. unfold filterSkipOptions.
  rewrite (bool_decide_false (m ≤ c)%Z) by done.
  destruct (as_string _) as [rc|]; [|done].
  rewrite !bool_decide_false by (intros ->; apply Hn; tauto). done.
Qed.

Lemma filterSkipOptions_withdrawn c m ctx options :
  skip_withdrawn c m ctx →
  filterSkipOptions c m ctx options =
  (let filtered := filter (λ o, o ≠ "skip") options in
   if decide ("abort" ∉ filtered ∧ 0 < length filtered) then filtered ++ ["abort"] else filtered).
Proof.
  unfold skip_withdrawn, filterSkipOptions. intros [H|H].
  - rewrite (bool_decide_true (m ≤ c)%Z) by done. destruct (as_string _); done.
  - destruct (as_string _) as [rc|]; [|naive_solver].
    assert (rc = "capability_required" ∨ rc = "context_deficit") as [-> | ->] by naive_solver;
      rewrite ?(bool_decide_true (_ = _)) by done; rewrite ?orb_true_r; done.
Qed.

Lemma elem_of_filterSkipOptions c m ctx options o :
  o ∈ filterSkipOptions c m ctx options → o ∈ options ∨ (o = "abort" ∧ skip_withdrawn c m ctx).
Proof.
  destruct (decide (skip_withdrawn c m ctx)) as [Hw|Hw].
  2: { rewrite filterSkipOptions_kept by done. by left. }
  rewrite filterSkipOptions_withdrawn by done. cbv zeta. case_decide.
  - rewrite elem_of_app, list_elem_of_filter, list_elem_of_singleton. tauto.
  - rewrite list_elem_of_filter. tauto.
Qed.

Lemma filterSkipOptions_nonempty c m ctx options o :
  o ∈ options → o ≠ "skip" → o ∈ filterSkipOptions c m ctx options.
Proof.
  intros Ho Hne. destruct (decide (skip_withdrawn c m ctx)) as [Hw|Hw].
  2: { by rewrite filterSkipOptions_kept. }
  rewrite filterSkipOptions_withdrawn by done. cbv zeta.
  assert (o ∈ filter (λ o, o ≠ "skip") options) by by apply list_elem_of_filter.
  case_decide; [apply elem_of_app; by left|done].
Qed.

Lemma elem_of_filterPublicOptions options o :
  o ∈ filterPublicOptions options → o ∈ options.
Proof.
  unfold filterPublicOptions. destruct (filter _ options) as [|x l] eqn:E; [done|].
  rewrite <- E. by intros [_ ?]%list_elem_of_filter.
Qed.

Lemma filterPublicOptions_public options :
  (∃ o, o ∈ options ∧ PublicTierAllowsChoice o = true) →
  ∀ o, o ∈ filterPublicOptions options ↔ o ∈ options ∧ PublicTierAllowsChoice o = true.
Proof.
  intros (p & Hp & Hpub) o. unfold filterPublicOptions.
  destruct (filter _ options) as [|x l] eqn:E.
  - assert (p ∈ filter (λ o, PublicTierAllowsChoice o = true) options) as H
      by by apply list_elem_of_filter.
    rewrite E in H. by apply elem_of_nil in H.
  - rewrite <- E, list_elem_of_filter. tauto.
Qed.

#[export] Instance skip_withdrawn_dec c m ctx : Decision (skip_withdrawn c m ctx).
Proof. unfold skip_withdrawn. apply _. Defined.

(** Without the public filter. *)
Lemma filterOptionsForTier_admin c m ctx options :
  filterOptionsForTier c m ctx options true = filterSkipOptions c m ctx options.
Proof. done. Qed.

Lemma filterOptionsForTier_sub c m ctx options b o :
  o ∈ filterOptionsForTier c m ctx options b → o ∈ filterSkipOptions c m ctx options.
Proof. unfold filterOptionsForTier. destruct b; [done|apply elem_of_filterPublicOptions]. Qed.

Lemma filterPublicOptions_nil options : filterPublicOptions options = [] → options = [].
Proof. unfold filterPublicOptions. by destruct (filter _ options). Qed.

(** ** The default choice and the decider *)

Lemma find_existsb_elem (prefs options : list string) x :
  List.find (λ want, existsb (String.eqb want) options) prefs = Some x →
  x ∈ prefs ∧ x ∈ options.
Proof.
  intros [Hin Hex]%find_some. split; [by apply list_elem_of_In|].
  apply existsb_exists in Hex as (y & Hy & ->%String.eqb_eq). by apply list_elem_of_In.
Qed.

Lemma defaultNonInteractiveChoice_elem dtype options x :
  defaultNonInteractiveChoice dtype options = Some x → x ∈ options.
Proof.
  unfold defaultNonInteractiveChoice. destruct (default_preferences dtype); [|done].
  cbn. by intros [_ ?]%find_existsb_elem.
Qed.

Lemma longest_word_elem text (options : list string) (best : string) :
  let f := λ best opt, let lo := to_lower opt in
    if containsWord text lo && (String.length best <? String.length lo) then opt else best in
  foldl f best options = best ∨
  (foldl f best options ∈ options ∧ containsWord text (to_lower (foldl f best options)) = true).
Proof.
  intros f. revert best. induction options as [|o l IH]; intros best; [by left|].
  cbn [foldl]. destruct (IH (f best o)) as [->|[H1 H2]].
  - unfold f. cbv zeta. destruct (containsWord text (to_lower o)) eqn:E; [|by left]. cbn [andb].
    destruct (_ <? _); [right|by left]. split; [left|done].
  - right. split; [by right|done].
Qed.

Lemma spawnDecider_elem reply options x : spawnDecider reply options = Some x → x ∈ options.
Proof.
  unfold spawnDecider. destruct reply as [r|]; [|done]. cbv zeta.
  destruct (List.find _ options) as [y|] eqn:E.
  - intros [= <-]. apply find_some in E as [? _]. by apply list_elem_of_In.
  - case_decide as Hb; [done|]. intros [= <-].
    destruct (longest_word_elem (TrimSpace (to_lower r)) options "") as [H|[H _]]; [|done].
    exfalso. by apply Hb.
Qed.

(** ** [containsWord] *)

(** [word] occurs at [k] in [s], bounded on both sides. *)
Definition word_at (s word : list ascii) (k : nat) : Prop :=
  word `prefix_of` drop k s ∧ boundary_left s k = true ∧ boundary_right s (k + length word) = true.

Definition word_chars (w : list ascii) : Prop := Forall (λ b, isWordChar b = true) w.

Lemma containsWord_loop_sound fuel s word idx :
  containsWord_loop fuel s word idx = true → ∃ k, word_at s word k.
Proof.
  revert idx. induction fuel as [|fuel IH]; intros idx; cbn [containsWord_loop]; [done|].
  destruct (_ <=? _); [|done]. destruct (index_of word (drop idx s)) as [i|] eqn:E; [|done].
  destruct (_ && _) eqn:Eb; [|apply IH]. intros _. apply andb_true_iff in Eb.
  exists (idx + i). split; [|done]. apply index_of_Some in E as [E _]. by rewrite drop_drop in E.
Qed.

(** Two occurrences of a word of word characters cannot overlap when the later
    one starts at a boundary. *)
Lemma word_at_no_overlap s word k k' :
  word_chars word → word `prefix_of` drop k s → boundary_left s k' = true → k < k' →
  k + length word ≤ k'.
Proof.
  intros Hw [suf Hs] Hb Hlt. destruct (decide (k + length word ≤ k')) as [|Hn]; [done|exfalso].
  destruct k' as [|p]; [lia|]. cbn in Hb.
  assert (s !! p = word !! (p - k)) as Hp.
  { replace p with (k + (p - k)) at 1 by lia. rewrite <- lookup_drop, Hs, lookup_app_l; [done|lia]. }
  destruct (lookup_lt_is_Some_2 word (p - k)) as [b Hbp]; [lia|].
  rewrite Hp, Hbp in Hb. apply negb_true_iff in Hb.
  eapply Forall_lookup_1 in Hbp; [|exact Hw]. cbn in Hbp. congruence.
Qed.

Lemma containsWord_loop_complete fuel s word idx k :
  word ≠ [] → word_chars word → word_at s word k → idx ≤ k → length s < fuel + idx →
  containsWord_loop fuel s word idx = true.
Proof.
  intros Hne Hw Hk. revert idx. induction fuel as [|fuel IH]; intros idx Hle Hf.
  - destruct Hk as ([suf Hk] & _). apply (f_equal length) in Hk.
    rewrite length_drop, length_app in Hk. destruct word; [done|simpl in Hk; lia].
  - assert (k + length word ≤ length s) as Hlen.
    { destruct Hk as ([suf Hk] & _). apply (f_equal length) in Hk.
      rewrite length_drop, length_app in Hk. destruct word; [done|simpl in *; lia]. }
    cbn [containsWord_loop]. rewrite (proj2 (Nat.leb_le _ _)) by lia.
    destruct (index_of word (drop idx s)) as [i|] eqn:E.
    2: { exfalso. apply (index_of_None _ _ E (k - idx)). rewrite drop_drop.
         replace (idx + (k - idx)) with k by lia. apply Hk. }
    apply index_of_Some in E as [Hi Hmin]. rewrite drop_drop in Hi.
    destruct (decide (idx + i = k)) as [->|Hne'].
    { destruct Hk as (_ & -> & ->). done. }
    assert (idx + i < k) as Hlt.
    { destruct (decide (k < idx + i)); [|lia]. exfalso. apply (Hmin (k - idx)); [lia|].
      rewrite drop_drop. replace (idx + (k - idx)) with k by lia. apply Hk. }
    destruct (_ && _); [done|]. apply IH.
    + eapply word_at_no_overlap; [done|exact Hi|apply Hk|done].
    + assert (0 < length word) by (destruct word; [done|simpl; lia]). lia.
Qed.

Lemma containsWord_unfold s word :
  bytes word ≠ [] →
  containsWord s word = containsWord_loop (S (length (bytes s))) (bytes s) (bytes word) 0.
Proof. unfold containsWord. by destruct (bytes word). Qed.

(** [containsWord] accepts exactly the texts in which a word made of word
    characters occurs bounded by non-word characters or the text's ends; the
    search always finishes within the length of the text. *)
Theorem containsWord_spec (s word : string) :
  word_chars (bytes word) →
  containsWord s word = true ↔ bytes word ≠ [] ∧ ∃ k, word_at (bytes s) (bytes word) k.
Proof.
  intros Hw. split.
  - intros H. destruct (decide (bytes word = [])) as [E|Hne].
    { unfold containsWord in H. by rewrite E in H. }
    split; [done|]. rewrite containsWord_unfold in H by done. by eapply containsWord_loop_sound.
  - intros [Hne [k Hk]]. rewrite containsWord_unfold by done.
    eapply containsWord_loop_complete; [done|done|exact Hk|lia|lia].
Qed.

Definition word_charsb (w : string) : bool := forallb isWordChar (bytes w).
Lemma word_charsb_true w : word_charsb w = true → word_chars (bytes w).
Proof.
  unfold word_charsb, word_chars. rewrite forallb_forall, Forall_forall.
  intros H x Hx. by apply H, list_elem_of_In.
Qed.

Lemma containsWord_spec_witness :
  containsWord "i recommend abort because skipping would lose progress" "skip" = false ∧
  ∃ k, word_at (bytes "no, skip it") (bytes "skip") k.
Proof.
  split; [vm_compute; reflexivity|].
  apply (containsWord_spec "no, skip it" "skip").
  - apply word_charsb_true. vm_compute. reflexivity.
  - vm_compute. reflexivity.
Defined.

(** The hypothesis on the word is needed: after a rejected occurrence the scan
    resumes behind it, so a bounded occurrence overlapping it is missed. *)
Example containsWord_overlap :
  containsWord "xa-a-a" "a-a" = false ∧ word_at (bytes "xa-a-a") (bytes "a-a") 3.
Proof. split; [vm_compute; reflexivity|]. repeat split. by exists []. Qed.

(** ** What a decision offers *)

(** The options a decision offers.  Every option comes from the caller or
    is the last-resort "abort"; as soon as the caller offers anything but
    "skip" the decision can be answered; "skip" is never offered once it was
    withdrawn; and a non-admin submitter is offered only choices the public
    tier may submit, unless no option at all is open to that tier. *)
Theorem filterOptionsForTier_spec c m ctx options admin o :
  o ∈ options → o ≠ "skip" →
  let offered := filterOptionsForTier c m ctx options admin in
  offered ≠ [] ∧
  (∀ x, x ∈ offered → x ∈ options ∨ (x = "abort" ∧ skip_withdrawn c m ctx)) ∧
  (skip_withdrawn c m ctx → "skip" ∉ offered) ∧
  (admin = false →
     Forall (λ x, PublicTierAllowsChoice x = true) offered ∨
     (offered = options ∧ Forall (λ x, PublicTierAllowsChoice x = false) options)).
Proof.
  intros Ho Hne offered.
  pose proof (filterSkipOptions_nonempty c m ctx options o Ho Hne) as Hin.
  assert (Hsub : ∀ x, x ∈ offered → x ∈ filterSkipOptions c m ctx options)
    by (intros x; apply filterOptionsForTier_sub).
  split; [|split; [|split]].
  - unfold offered, filterOptionsForTier. destruct admin.
    + intros E. rewrite E in Hin. by apply elem_of_nil in Hin.
    + intros E%filterPublicOptions_nil. rewrite E in Hin. by apply elem_of_nil in Hin.
  - intros x Hx%Hsub. by apply elem_of_filterSkipOptions in Hx.
  - intros Hw Hs%Hsub. rewrite filterSkipOptions_withdrawn in Hs by done. cbv zeta in Hs.
    case_decide.
    + apply elem_of_app in Hs as [[? _]%list_elem_of_filter|?%list_elem_of_singleton]; done.
    + by apply list_elem_of_filter in Hs as [? _].
  - intros ->. unfold offered, filterOptionsForTier.
    destruct (filter (λ o, PublicTierAllowsChoice o = true) (filterSkipOptions c m ctx options))
      as [|p l] eqn:E.
    + right. assert (Hall : ∀ x, x ∈ filterSkipOptions c m ctx options → PublicTierAllowsChoice x = false).
      { intros x Hx. destruct (PublicTierAllowsChoice x) eqn:Ex; [|done].
        assert (x ∈ filter (λ o, PublicTierAllowsChoice o = true) (filterSkipOptions c m ctx options))
          as Hf by by apply list_elem_of_filter.
        rewrite E in Hf. by apply elem_of_nil in Hf. }
      assert (filterSkipOptions c m ctx options = options) as Heq.
      { destruct (decide (skip_withdrawn c m ctx)) as [Hw|Hw]; [exfalso|by apply filterSkipOptions_kept].
        assert ("abort" ∈ filterSkipOptions c m ctx options) as Ha.
        { rewrite filterSkipOptions_withdrawn by done. cbv zeta. case_decide as Hd.
          - apply elem_of_app. right. by left.
          - assert (o ∈ filter (λ o, o ≠ "skip") options) as Hf by by apply list_elem_of_filter.
            destruct (decide ("abort" ∈ filter (λ o, o ≠ "skip") options)); [done|].
            exfalso. apply Hd. split; [done|]. destruct (filter (λ o, o ≠ "skip") options); [|simpl; lia].
            by apply elem_of_nil in Hf. }
        specialize (Hall _ Ha). vm_compute in Hall. done. }
      rewrite Heq in *. split; [|by apply Forall_forall].
      unfold filterPublicOptions. by rewrite E.
    + left. apply Forall_forall. intros x Hx. apply filterPublicOptions_public in Hx; [by destruct Hx|].
      exists p. assert (p ∈ filter (λ o, PublicTierAllowsChoice o = true) (filterSkipOptions c m ctx options))
        as [? ?]%list_elem_of_filter by (rewrite E; by left). done.
Qed.

Lemma filterOptionsForTier_spec_witness :
  filterOptionsForTier 3 3 ∅ ["retry_with_skill:x"; "skip"; "retry"] false = ["retry"; "abort"] ∧
  "skip" ∉ filterOptionsForTier 3 3 ∅ ["retry_with_skill:x"; "skip"; "retry"] false.
Proof.
  split; [vm_compute; reflexivity|].
  destruct (filterOptionsForTier_spec 3 3 ∅ ["retry_with_skill:x"; "skip"; "retry"] false "retry")
    as (_ & _ & H & _).
  - right; right; left.
  - discriminate.
  - apply H. left. lia.
Defined.

(** When "skip" is the only option and is withdrawn, nothing is left: no
    "abort" is added, so the decision offers no choice to anybody. *)
Theorem filterSkipOptions_dead_end c m ctx options admin :
  skip_withdrawn c m ctx → Forall (λ o, o = "skip") options →
  filterOptionsForTier c m ctx options admin = [].
Proof.
  intros Hw Hall. unfold filterOptionsForTier. rewrite filterSkipOptions_withdrawn by done. cbv zeta.
  assert (filter (λ o, o ≠ "skip") options = []) as ->.
  { clear -Hall. induction Hall as [|o l -> _ IH]; [done|]. rewrite filter_cons_False; [done|]. intros H. by apply H. }
  rewrite decide_False by (simpl; lia). by destruct admin.
Qed.
Lemma filterSkipOptions_dead_end_witness : filterOptionsForTier 3 3 ∅ ["skip"] false = [].
Proof. apply filterSkipOptions_dead_end; [left; lia|by repeat constructor]. Defined.

(** ** Raising a decision *)

Definition offered_options (cfg : option SystemConfig) (g : TaskGraph.t) (dtype : DecisionType)
    (ctx : gmap string any) (options : list string) : list string :=
  let ctx := match cfg with Some c => <["available_models" := HealthyModels c]> ctx | None => ctx end in
  let maxSkips := match cfg with
                  | Some c => if decide (0 < MaxConsecutiveSkips c)%Z then MaxConsecutiveSkips c else 3%Z
                  | None => 3%Z
                  end in
  filterOptionsForTier (TaskGraph.ConsecutiveSkips g) maxSkips ctx
    (inject_rewrite dtype ctx options) (TaskGraph.SubmitterIsAdmin g).

(** The two outcomes of [maybeAutoResolveNonInteractive]. *)
Definition auto_resolve_key (g : TaskGraph.t) (step : Step.t) : string :=
  (TaskGraph.TaskID g +:+ ":" +:+ Step.ID step)%string.
Definition auto_resolve_allowed (c : SystemConfig) (now : Z) (step : Step.t) (s : GateState) : Prop :=
  NonInteractive c = true ∧
  ((DetermineRiskTier (RiskWords c) (Step.Task step) (Step.AdditionalMCPs step)).1 ≠ RiskTierCritical ∨
   AllowCriticalAutoResolve c = true) ∧
  (∀ last, recentDecisions s !! auto_resolve_key (gs_graph s) step = Some last →
     (thirty_seconds ≤ now - last)%Z).
Definition auto_resolve_output (c : SystemConfig) (g : TaskGraph.t) (step : Step.t) (dec : Decision.t) : Output :=
  OAutoResolve (DecisionDeciderRole c) (TaskGraph.TaskID g) (Decision.ID dec)
    (Step.ID step) (Decision.Type_ dec) (Decision.Context dec) (Decision.Options dec)
    (TaskGraph.SubmitterIsAdmin g) (TaskGraph.OwnerID g).

Lemma maybeAutoResolve_cases cfg now step dec s :
  let s' := maybeAutoResolveNonInteractive cfg now step dec s in
  s' = s ∨
  ∃ c, cfg = Some c ∧ auto_resolve_allowed c now step s ∧
    s' = emit (auto_resolve_output c (gs_graph s) step dec)
           (s <| recentDecisions ::= insert (auto_resolve_key (gs_graph s) step) now |>).
Proof.
  cbv zeta. unfold maybeAutoResolveNonInteractive, auto_resolve_allowed, auto_resolve_key.
  destruct cfg as [c|]; [|by left]. cbv zeta.
  destruct (NonInteractive c) eqn:En; cbn [negb]; [|by left].
  destruct (bool_decide _ && _) eqn:Et; [by left|].
  apply andb_false_iff in Et. rewrite bool_decide_eq_false, negb_false_iff in Et.
  destruct (recentDecisions s !! _) as [last|] eqn:El.
  - case_bool_decide; [by left|]. right. exists c. split; [done|]. split; [|done].
    do 2 (split; [done|]). intros ? [= <-]. lia.
  - right. exists c. split; [done|]. split; [|done]. do 2 (split; [done|]). done.
Qed.

Lemma maybeAutoResolve_graph cfg now step dec s :
  gs_graph (maybeAutoResolveNonInteractive cfg now step dec s) = gs_graph s.
Proof. destruct (maybeAutoResolve_cases cfg now step dec s) as [->|(c & _ & _ & ->)]; done. Qed.

Lemma maybeAutoResolve_out cfg now step dec s :
  ∃ l, gs_out (maybeAutoResolveNonInteractive cfg now step dec s) = gs_out s ++ l.
Proof.
  destruct (maybeAutoResolve_cases cfg now step dec s) as [->|(c & _ & _ & ->)].
  - exists []. by rewrite app_nil_r.
  - by eexists [_].
Qed.

(** The two outcomes of raising a decision. *)
Lemma addDecision_cases cfg decID now stepID step dtype ctx options s :
  get_step (gs_graph s) stepID = Some step →
  let g := gs_graph s in
  let s' := addDecision cfg decID now stepID dtype ctx options s in
  let offered := offered_options cfg g dtype ctx options in
  let audit := OAudit "addDecision" (TaskGraph.TaskID g) (Step.ID step) decID (decision_string dtype) "" offered in
  (isTerminalStatus (TaskGraph.Status g) = true ∧ gs_graph s' = g ∧
   gs_out s' = gs_out s ++ [audit]) ∨
  (isTerminalStatus (TaskGraph.Status g) = false ∧
   ∃ dec, Decision.ID dec = decID ∧ Decision.StepID dec = Step.ID step ∧
     Decision.Type_ dec = dtype ∧ Decision.Options dec = offered ∧
     gs_graph s' = g <| TaskGraph.PendingDecisions := TaskGraph.PendingDecisions g ++ [dec] |> ∧
     ∃ l, gs_out s' = gs_out s ++
       [audit; OPersist (gs_graph s'); OBroadcastDone (TaskGraph.TaskID g);
        OEvent "decision_required" (TaskGraph.TaskID g) (Step.ID step)] ++ l).
Proof.
  intros Hs g s' offered audit. unfold s', addDecision. fold g. unfold g. rewrite Hs. fold g.
  cbv zeta. fold offered. change (offered_options cfg g dtype ctx options) with offered.
  destruct (isTerminalStatus (TaskGraph.Status g)) eqn:Et; [left|right]; (split; [done|]).
  - split; done.
  - eexists (Decision.mk decID (Step.ID step) dtype _ offered now).
    do 4 (split; [done|]). rewrite maybeAutoResolve_graph. split; [done|].
    match goal with |- context [maybeAutoResolveNonInteractive ?a ?b ?c ?d ?e] =>
      destruct (maybeAutoResolve_out a b c d e) as [l Hl] end.
    exists l. rewrite Hl. cbn. by rewrite <- !app_assoc.
Qed.

(** Raising a decision on a step.  On a terminal graph nothing changes
    and only the audit entry is written.  Otherwise exactly one decision is
    appended, about this step, of this type, with the filtered options; no
    step, no status and no other field of the graph changes, and the graph is
    persisted before the waiters are woken and the event is published. *)
Theorem addDecision_spec cfg decID now stepID step dtype ctx options s :
  get_step (gs_graph s) stepID = Some step →
  let g := gs_graph s in
  let s' := addDecision cfg decID now stepID dtype ctx options s in
  let offered := offered_options cfg g dtype ctx options in
  let audit := OAudit "addDecision" (TaskGraph.TaskID g) (Step.ID step) decID (decision_string dtype) "" offered in
  (isTerminalStatus (TaskGraph.Status g) = true ∧ gs_graph s' = g ∧
   gs_out s' = gs_out s ++ [audit]) ∨
  (isTerminalStatus (TaskGraph.Status g) = false ∧
   ∃ dec, Decision.ID dec = decID ∧ Decision.StepID dec = Step.ID step ∧
     Decision.Type_ dec = dtype ∧ Decision.Options dec = offered ∧
     gs_graph s' = g <| TaskGraph.PendingDecisions := TaskGraph.PendingDecisions g ++ [dec] |> ∧
     ∃ l, gs_out s' = gs_out s ++
       [audit; OPersist (gs_graph s'); OBroadcastDone (TaskGraph.TaskID g);
        OEvent "decision_required" (TaskGraph.TaskID g) (Step.ID step)] ++ l).
Proof. exact (addDecision_cases cfg decID now stepID step dtype ctx options s). Qed.
Lemma addDecision_spec_witness :
  let s := mkGate (blankGraph "t" [blankStep "a" StepFailed []]) ∅ [] in
  isTerminalStatus (TaskGraph.Status (gs_graph s)) = false ∧
  length (TaskGraph.PendingDecisions
    (gs_graph (addDecision None "d" 5 "a" DecisionStepFailed ∅ ["skip"; "abort"] s))) = 1.
Proof.
  cbv zeta. split; [reflexivity|].
  destruct (addDecision_spec None "d" 5 "a" (blankStep "a" StepFailed []) DecisionStepFailed ∅ ["skip"; "abort"]
    (mkGate (blankGraph "t" [blankStep "a" StepFailed []]) ∅ []) eq_refl) as [(H & _)|(_ & dec & _ & _ & _ & _ & -> & _)].
  - discriminate H.
  - reflexivity.
Defined.

(** Unattended mode.  A decision is handed to the automatic resolver only
    when the mode is on, the step's risk tier is not critical (or the override
    is set) and the step's last hand-over is at least 30 seconds old; the
    hand-over restarts that clock, so a second one for the same step within 30
    seconds is refused.  The graph is never touched. *)
Theorem auto_resolve_guarded cfg now now' step dec dec' s :
  (now' - now < thirty_seconds)%Z →
  let s' := maybeAutoResolveNonInteractive cfg now step dec s in
  gs_graph s' = gs_graph s ∧
  (s' = s ∨
   ∃ c, cfg = Some c ∧ auto_resolve_allowed c now step s ∧
     gs_out s' = gs_out s ++ [auto_resolve_output c (gs_graph s) step dec] ∧
     maybeAutoResolveNonInteractive cfg now' step dec' s' = s').
Proof.
  intros Hnow s'. split; [apply maybeAutoResolve_graph|]. unfold s'.
  destruct (maybeAutoResolve_cases cfg now step dec s) as [->|(c & Hc & Hal & ->)]; [by left|right].
  exists c. do 3 (split; [done|]).
  destruct (maybeAutoResolve_cases cfg now' step dec' (emit (auto_resolve_output c (gs_graph s) step dec)
    (s <| recentDecisions ::= insert (auto_resolve_key (gs_graph s) step) now |>)))
    as [->|(c' & _ & (_ & _ & Hlast) & _)]; [done|].
  exfalso. specialize (Hlast now). cbn in Hlast. rewrite lookup_insert_eq in Hlast.
  specialize (Hlast eq_refl). unfold thirty_seconds in *. lia.
Qed.

(** What the automatic resolver submits.  It submits only an option the
    decision offers, never answers a human-approval gate without the override,
    and a choice made without a decider's reply is in the conservative table. *)
Theorem resolve_choice_valid c role decider taskID decID stepID dtype options choice out :
  resolveNonInteractiveDecision c role decider taskID decID stepID dtype options = (Some choice, out) →
  choice ∈ options ∧
  (dtype = DecisionHumanApprovalRequired → AllowHumanApprovalAutoResolve c = true) ∧
  ((role = "" ∨ decider = None) →
     ∃ prefs, default_preferences dtype = Some prefs ∧ choice ∈ prefs ∧
       out = [OAudit "autoResolve" taskID stepID decID (decision_string dtype) choice options]).
Proof.
  unfold resolveNonInteractiveDecision.
  destruct (bool_decide _ && _) eqn:E; [done|].
  apply andb_false_iff in E. rewrite bool_decide_eq_false, negb_false_iff in E.
  assert (Hdef : ∀ x, defaultNonInteractiveChoice dtype options = Some x →
    ∃ prefs, default_preferences dtype = Some prefs ∧ x ∈ prefs).
  { intros x. unfold defaultNonInteractiveChoice. destruct (default_preferences dtype) as [prefs|]; [|done].
    cbn. intros [? _]%find_existsb_elem. by exists prefs. }
  intros H. destruct (if decide (role = "") then _ else _) as [x|] eqn:Es.
  - injection H as -> <-. split; [|split].
    + case_decide; [done|]. by eapply spawnDecider_elem.
    + intros ->. naive_solver.
    + intros [-> | ->]; [done|]. by case_decide.
  - destruct (defaultNonInteractiveChoice dtype options) as [x|] eqn:Ed; [|done].
    injection H as -> <-. split; [|split].
    + by eapply defaultNonInteractiveChoice_elem.
    + intros ->. naive_solver.
    + intros _. destruct (Hdef _ eq_refl) as (prefs & ? & ?). by exists prefs.
Qed.

Definition ex_cfg : SystemConfig :=
  mkSystemConfig 3 true false false "decider" 20 2 float_one ANil riskTierKeywords.
Lemma auto_resolve_guarded_witness :
  let g := blankGraph "t" [blankStep "a" StepFailed []] in
  let dec := blankDecision "d" "a" DecisionStepFailed ["skip"; "abort"] in
  gs_graph (maybeAutoResolveNonInteractive (Some ex_cfg) 7 (blankStep "a" StepFailed []) dec (mkGate g ∅ [])) = g.
Proof.
  cbv zeta.
  apply (auto_resolve_guarded (Some ex_cfg) 7 8 (blankStep "a" StepFailed [])
    (blankDecision "d" "a" DecisionStepFailed ["skip"; "abort"]) (blankDecision "e" "a" DecisionStepFailed ["skip"])
    (mkGate (blankGraph "t" [blankStep "a" StepFailed []]) ∅ [])).
  reflexivity.
Defined.
Lemma resolve_choice_valid_witness : "abort" ∈ ["retry"; "abort"].
Proof.
  apply (resolve_choice_valid ex_cfg "decider" (Some "I would abort.") "t" "d" "a" DecisionStepFailed
           ["retry"; "abort"] "abort" []).
  vm_compute. reflexivity.
Defined.

(** ** Blocking on a failure *)

Lemma block_dependent_other stepID o :
  Step.Status (block_dependent stepID o) = Step.Status o ∨
  (Step.Status o = StepPending ∧ Step.Status (block_dependent stepID o) = StepBlocked ∧
   stepID ∈ Step.DependsOn o).
Proof.
  unfold block_dependent. destruct (bool_decide _ && bool_decide _) eqn:E; [right|by left].
  rewrite andb_true_iff, !bool_decide_eq_true in E. tauto.
Qed.

Lemma block_dependent_ID stepID o : Step.ID (block_dependent stepID o) = Step.ID o.
Proof. unfold block_dependent. by destruct (_ && _). Qed.

Lemma block_dependent_done stepID o :
  stepID ∈ Step.DependsOn o → Step.Status (block_dependent stepID o) ≠ StepPending.
Proof.
  intros H. unfold block_dependent. rewrite (bool_decide_true (stepID ∈ _)) by done. cbn [andb].
  case_bool_decide; done.
Qed.

(** [addDecision] leaves the steps alone. *)
Lemma addDecision_Steps cfg decID now stepID dtype ctx options s :
  TaskGraph.Steps (gs_graph (addDecision cfg decID now stepID dtype ctx options s)) =
  TaskGraph.Steps (gs_graph s).
Proof.
  unfold addDecision. destruct (get_step _ _); [|done]. cbv zeta.
  destruct (isTerminalStatus _); [done|]. by rewrite maybeAutoResolve_graph.
Qed.

(** A failed step with a registered fallback wakes that fallback and
    asks nothing: no other step changes and no decision is raised.  Without a
    fallback every step that waits for the failed one is taken out of the
    pending state (so none of them can be scheduled), no other status changes
    and, on a live graph, one decision offering "skip" or "abort" is parked. *)
Theorem maybeBlock_spec ord decID now stepID step s :
  range_order (TaskGraph.Steps (gs_graph s)) ord → wf_graph (gs_graph s) →
  get_step (gs_graph s) stepID = Some step →
  TaskGraph.ConsecutiveSkips (gs_graph s) = 0%Z →
  let g := gs_graph s in
  let s' := maybeBlock None ord decID now stepID s in
  let g' := gs_graph s' in
  (∃ f, get_step g (Step.ID f) = Some f ∧ Step.FallbackFor f = stepID ∧
     TaskGraph.PendingDecisions g' = TaskGraph.PendingDecisions g ∧ gs_out s' = gs_out s ∧
     ∀ id, get_step g' id = if decide (id = Step.ID f) then Some (f <| Step.Status := StepPending |>)
                            else get_step g id) ∨
  ((∀ id f, get_step g id = Some f → Step.FallbackFor f ≠ stepID) ∧
   (∀ id, get_step g' id = block_dependent stepID <$> get_step g id) ∧
   (isTerminalStatus (TaskGraph.Status g) = false →
      ∃ dec, TaskGraph.PendingDecisions g' = TaskGraph.PendingDecisions g ++ [dec] ∧
        Decision.StepID dec = stepID ∧ Decision.Options dec = ["skip"; "abort"])).
Proof.
  intros Ho Hwf Hs Hsk g s' g'. unfold g', s', maybeBlock. rewrite Hs. fold g.
  unfold FallbackFor.
  destruct (List.find _ _) as [[fid f]|] eqn:Ef; cbn [fmap option_fmap option_map snd].
  - left. exists f. apply find_some in Ef as [Hin Hfb]. apply list_elem_of_In in Hin.
    apply range_order_lookup in Hin; [|done]. apply bool_decide_eq_true in Hfb. cbn in Hfb.
    assert (Step.ID f = fid) as Hid by by apply Hwf. subst fid.
    do 4 (split; [done|]). intros id. unfold get_step. cbn [set_step_status gs_graph].
    change (TaskGraph.Steps (upd_step (Step.ID f) (λ x, x <| Step.Status := StepPending |>) g) !! id = 
      if decide (id = Step.ID f) then Some (f <| Step.Status := StepPending |>) else get_step g id).
    rewrite upd_step_lookup. fold g in Hin. repeat case_decide; try congruence; [|done]. subst id. by rewrite Hin.
  - right. split; [|split].
    + intros id f Hf Hfb. pose proof (find_none _ _ Ef (id, f)) as Hn.
      rewrite bool_decide_eq_false in Hn. apply Hn; [|done].
      by apply list_elem_of_In, range_order_lookup.
    + intros id. unfold get_step. rewrite addDecision_Steps. cbn. apply lookup_fmap.
    + intros Ht.
      destruct (addDecision_cases None decID now stepID (block_dependent stepID step) DecisionStepFailed
        (<["last_error" := AString (Step.LastError step)]>
           (<["retry_count" := AInt (Step.RetryCount step)]> ∅)) ["skip"; "abort"]
        (s <| gs_graph ::= λ g, g <| TaskGraph.Steps ::= fmap (block_dependent stepID) |> |>))
        as [(Hterm & _)|(_ & dec & _ & Hid & _ & Hopt & Hg & _)].
      * unfold get_step. cbn. rewrite lookup_fmap. unfold get_step in Hs. by rewrite Hs.
      * cbn in Hterm. fold g in Hterm. congruence.
      * exists dec. rewrite Hg. split; [done|]. split.
        -- rewrite Hid, block_dependent_ID. by apply Hwf.
        -- rewrite Hopt. unfold offered_options. cbn [gs_graph]. cbn. rewrite Hsk. 
           unfold filterOptionsForTier. rewrite filterSkipOptions_kept.
           ++ by destruct (TaskGraph.SubmitterIsAdmin _).
           ++ unfold skip_withdrawn. intros [?|[?|?]]; [lia| |];
              rewrite !lookup_insert_ne, lookup_empty in * by done; done.
Qed.
Definition ex_blocked : GateState :=
  mkGate (blankGraph "t" [blankStep "a" StepFailed []; blankStep "b" StepPending ["a"]]) ∅ [].
Lemma maybeBlock_spec_witness :
  let g' := gs_graph (maybeBlock None ["a"; "b"] "d" 5 "a" ex_blocked) in
  get_step g' "b" = Some (blankStep "b" StepBlocked ["a"]) ∧
  ∀ id, get_step g' id = block_dependent "a" <$> get_step (gs_graph ex_blocked) id.
Proof.
  cbv zeta. split; [vm_compute; reflexivity|].
  destruct (maybeBlock_spec ["a"; "b"] "d" 5 "a" (blankStep "a" StepFailed []) ex_blocked)
    as [(f & Hf & Hfb & _)|(_ & H & _)].
  - unfold range_order. apply (bool_decide_unpack _). vm_compute. exact I.
  - apply wf_graphb_true. vm_compute. reflexivity.
  - vm_compute. reflexivity.
  - reflexivity.
  - exfalso. eapply (all_steps_true (λ _ s, bool_decide (Step.FallbackFor s ≠ "a"))) in Hf;
      [|vm_compute; reflexivity]. by apply bool_decide_eq_true in Hf.
  - exact H.
Defined.
