(* ===== verification/CycleBreaker.v ===== *)
(** * The cycle breaker (core/cycle_breaker.go)

    A step that reports missing context sends its upstream steps back to work
    with a summary of what they produced, at most [MaxLoopRounds] times per
    local loop; then the fuse suspends the loop and asks for a decision.

    The archive the summaries come from is an argument ([Archive]); calls made
    with the lock held are the same function composition here. *)

From S2P Require Import Prelude TaskStatus Schema FailureClass DecisionGate.
From Stdlib Require Import Ascii.

(** The two archive queries: a result is (summary, step ids). *)
Record Archive := mkArchive {
  SearchAllStepSummaries : string → string → string → Z → list (string * list string);
  SearchRecentStepSummaries : string → string → Z → list (string * list string)
}.

Definition makeCycleID (triggerStepID : string) (dependsOn : list string) : string :=
  join ":" (sort_strings (triggerStepID :: dependsOn)).

Definition projectOfGraph (g : TaskGraph.t) : string :=
  if decide (TaskGraph.ProjectID g = "") then "default" else TaskGraph.ProjectID g.

Definition summary_by_ref (archive : option Archive) (dep : Step.t) (taskID projectID : string)
    : option string :=
  match archive with
  | Some a =>
      if decide (Step.ResultRef dep = "") then None
      else match SearchAllStepSummaries a taskID projectID (Step.ResultRef dep) 1 with
           | (summary, _) :: _ => if decide (summary = "") then None else Some summary
           | [] => None
           end
  | None => None
  end.

(** The first recent summary that names the step and is not empty. *)
Definition summary_by_step (archive : option Archive) (dep : Step.t) (taskID projectID : string)
    : option string :=
  match archive with
  | Some a =>
      fst <$> List.find (λ sm : string * list string,
          bool_decide (Step.ID dep ∈ sm.2) && bool_decide (sm.1 ≠ ""))
        (SearchRecentStepSummaries a taskID projectID 5)
  | None => None
  end.

Definition no_previous : string := "(no previous output available — first execution)".
Definition buildPreviousSummary (archive : option Archive) (dep : Step.t) (taskID projectID : string)
    : string :=
  match summary_by_ref archive dep taskID projectID with
  | Some s => s
  | None =>
      match summary_by_step archive dep taskID projectID with
      | Some s => s
      | None =>
          if decide (Step.TargetFile dep = "") then no_previous
          else ("(artifact exists at " +:+ Step.TargetFile dep +:+ " — read it for previous output)")%string
      end
  end.

Definition nl : string := String (ascii_of_nat 10) EmptyString.
Definition MarkerSystemFeedback : string := "[SYSTEM FEEDBACK]".
Definition MarkerSystemDegrade : string := "[SYSTEM DEGRADE]".

Definition backtrack_feedback (depID summary stepID : string) (missing : list string)
    (round maxRounds : Z) : string :=
  (MarkerSystemFeedback +:+ nl +:+
   "Previous-round output summary of upstream step " +:+ depID +:+ ":" +:+ nl +:+ summary +:+ nl +:+ nl +:+
   "Downstream step " +:+ stepID +:+ " reports the following missing information:" +:+ nl +:+
   join nl missing +:+ nl +:+ nl +:+
   "Please supplement only the missing parts while preserving all completed content from the previous round." +:+ nl +:+
   "Do NOT re-execute already-completed steps. Do NOT re-call already-completed external APIs or re-perform already-completed write operations." +:+ nl +:+
   "This is supplement round " +:+ pretty round +:+ "/" +:+ pretty maxRounds +:+
   "; if still unsatisfied, the system will force a degradation.")%string.

Definition degrade_notice (maxRounds : Z) : string :=
  (MarkerSystemDegrade +:+ " has reached the maximum supplement rounds (" +:+ pretty maxRounds +:+
   "). Please generate the best possible final output from the available information.")%string.

Definition fuse_feedback (stepID : string) (maxRounds : Z) (missing : list string) : string :=
  ("Cycle fuse: step " +:+ stepID +:+ " reached max supplement rounds (" +:+ pretty maxRounds +:+
   ") without satisfying missing context: " +:+ join "; " missing +:+
   ". Try a different approach to gather the missing information.")%string.

(** One upstream step sent back to work. *)
Definition backtrack_dep (feedback summary : string) (dep : Step.t) : Step.t :=
  dep <| Step.Status := StepPending |>
      <| Step.AdditionalPromptContext := feedback |>
      <| Step.PreviousOutputSummary := summary |>
      <| Step.LastError := "" |>
      <| Step.Metadata := Some ((default zeroMetadata (Step.Metadata dep))
                                  <| Metadata.DeltaBacktrack := true |>) |>.

Definition backtrack_one (archive : option Archive) (stepID : string) (missing : list string)
    (round maxRounds : Z) (g : TaskGraph.t) (depID : string) : TaskGraph.t :=
  match get_step g depID with
  | None => g
  | Some dep =>
      let summary := buildPreviousSummary archive dep (TaskGraph.TaskID g) (projectOfGraph g) in
      upd_step depID (backtrack_dep (backtrack_feedback depID summary stepID missing round maxRounds)
                        summary) g
  end.

Definition backtrack_self (step : Step.t) : Step.t :=
  step <| Step.Status := StepPending |> <| Step.MissingCtx := [] |> <| Step.LastError := "" |>.

Definition suspend_step (step : Step.t) : Step.t := step <| Step.Status := StepSuspended |>.

(** [delete] and the counter increment of [graph.CycleCounters]. *)
Definition bump_counter (cycleID : string) (g : TaskGraph.t) : TaskGraph.t :=
  g <| TaskGraph.CycleCounters ::= λ m, <[cycleID := wrap64 (default 0%Z (m !! cycleID) + 1)]> m |>.

Definition backtrack_round (archive : option Archive) (step : Step.t) (missing : list string)
    (round : Z) (g : TaskGraph.t) : TaskGraph.t :=
  upd_step (Step.ID step) backtrack_self
    (foldl (backtrack_one archive (Step.ID step) missing round (Step.MaxLoopRounds step)) g
       (Step.DependsOn step)).

Definition fuse_graph (cycleID : string) (step : Step.t) (g : TaskGraph.t) : TaskGraph.t :=
  let g := foldl (λ g depID, upd_step depID suspend_step g) g (Step.DependsOn step) in
  let g := upd_step (Step.ID step)
             (λ st, suspend_step st
                <| Step.AdditionalPromptContext := degrade_notice (Step.MaxLoopRounds step) |>) g in
  g <| TaskGraph.CycleCounters ::= delete cycleID |>.

Definition tryBacktrack (cfg : option SystemConfig) (archive : option Archive) (decID : string)
    (now : Z) (stepID : string) (missing : list string) (s : GateState) : GateState * bool :=
  match get_step (gs_graph s) stepID with
  | None => (s, false)
  | Some step =>
      if bool_decide (missing = []) || bool_decide (Step.DependsOn step = [])
         || bool_decide (Step.MaxLoopRounds step = 0%Z) then (s, false)
      else
        let cycleID := makeCycleID (Step.ID step) (Step.DependsOn step) in
        let s := s <| gs_graph ::= bump_counter cycleID |> in
        let currentRound := default 0%Z (TaskGraph.CycleCounters (gs_graph s) !! cycleID) in
        if bool_decide (currentRound ≤ Step.MaxLoopRounds step)%Z then
          (s <| gs_graph ::= backtrack_round archive step missing currentRound |>, true)
        else
          let s := s <| gs_graph ::= fuse_graph cycleID step |> in
          let s := match archive with
                   | Some _ => emit (OMarkStale (TaskGraph.TaskID (gs_graph s))
                                       (Step.ID step :: Step.DependsOn step)) s
                   | None => s
                   end in
          let s := emit (OEvent "step_failed" (TaskGraph.TaskID (gs_graph s)) (Step.ID step)) s in
          (addDecision cfg decID now stepID DecisionStepFailed
             (<["root_cause" := AString "cycle_fuse"]>
               (<["cycle_id" := AString cycleID]>
                 (<["max_rounds" := AInt (Step.MaxLoopRounds step)]>
                   (<["missing_context" := AStrings missing]>
                     (<["feedback" := AString (fuse_feedback (Step.ID step) (Step.MaxLoopRounds step) missing)]> ∅)))))
             ["abort"; "refine_and_retry"] s, true)
  end.

(** ** Lemmas *)

Lemma buildPreviousSummary_backtrack archive f s dep t p :
  buildPreviousSummary archive (backtrack_dep f s dep) t p = buildPreviousSummary archive dep t p.
Proof. destruct dep. reflexivity. Qed.

#[local] Opaque backtrack_feedback degrade_notice fuse_feedback buildPreviousSummary.

(** What a round leaves of an upstream step. *)
Definition backtracked (archive : option Archive) (g : TaskGraph.t) (stepID : string)
    (missing : list string) (round maxRounds : Z) (depID : string) (dep : Step.t) : Step.t :=
  let summary := buildPreviousSummary archive dep (TaskGraph.TaskID g) (projectOfGraph g) in
  backtrack_dep (backtrack_feedback depID summary stepID missing round maxRounds) summary dep.

Lemma backtrack_dep_idem f s dep : backtrack_dep f s (backtrack_dep f s dep) = backtrack_dep f s dep.
Proof. destruct dep. vm_compute. reflexivity. Qed.

Lemma backtracked_idem archive g sid missing r m d dep :
  backtracked archive g sid missing r m d (backtracked archive g sid missing r m d dep) =
  backtracked archive g sid missing r m d dep.
Proof. unfold backtracked. cbv zeta. by rewrite buildPreviousSummary_backtrack, backtrack_dep_idem. Qed.

Lemma backtrack_one_lookup archive sid missing r m g d id :
  get_step (backtrack_one archive sid missing r m g d) id =
  if decide (id = d) then backtracked archive g sid missing r m d <$> get_step g d else get_step g id.
Proof.
  unfold backtrack_one. destruct (get_step g d) as [dep|] eqn:E.
  - cbv zeta. unfold get_step at 1. rewrite upd_step_lookup. fold (get_step g id).
    destruct (decide (id = d)) as [->|]; [|by rewrite decide_False by done].
    rewrite decide_True by done. rewrite E. reflexivity.
  - case_decide; [by subst|done].
Qed.

Lemma backtrack_one_ids archive sid missing r m g d :
  let g' := backtrack_one archive sid missing r m g d in
  TaskGraph.TaskID g' = TaskGraph.TaskID g ∧ TaskGraph.ProjectID g' = TaskGraph.ProjectID g ∧
  TaskGraph.CycleCounters g' = TaskGraph.CycleCounters g ∧
  TaskGraph.PendingDecisions g' = TaskGraph.PendingDecisions g ∧
  TaskGraph.Status g' = TaskGraph.Status g.
Proof. unfold backtrack_one. destruct (get_step g d); done. Qed.

Lemma backtracked_ext archive g g' sid missing r m d dep :
  TaskGraph.TaskID g' = TaskGraph.TaskID g → TaskGraph.ProjectID g' = TaskGraph.ProjectID g →
  backtracked archive g' sid missing r m d dep = backtracked archive g sid missing r m d dep.
Proof. intros H1 H2. unfold backtracked, projectOfGraph. by rewrite H1, H2. Qed.

Lemma backtrack_all_lookup archive sid missing r m deps g id :
  get_step (foldl (backtrack_one archive sid missing r m) g deps) id =
  if decide (id ∈ deps) then backtracked archive g sid missing r m id <$> get_step g id
  else get_step g id.
Proof.
  revert g. induction deps as [|d deps IH]; intros g; cbn [foldl].
  - by rewrite (decide_False (P := id ∈ [])) by apply not_elem_of_nil.
  - destruct (backtrack_one_ids archive sid missing r m g d) as (Ht & Hp & _).
    rewrite IH, backtrack_one_lookup.
    destruct (decide (id = d)) as [->|Hne].
    + rewrite (decide_True (P := d ∈ d :: deps)) by (by left).
      destruct (get_step g d) as [s|]; [|by case_decide]. case_decide; [|done].
      cbn [fmap option_fmap option_map]. by rewrite (backtracked_ext _ _ _ _ _ _ _ _ _ Ht Hp), backtracked_idem.
    + destruct (decide (id ∈ deps)) as [Hin|Hin].
      * rewrite decide_True by (by right). destruct (get_step g id); [|done].
        cbn [fmap option_fmap option_map]. by rewrite (backtracked_ext _ _ _ _ _ _ _ _ _ Ht Hp).
      * rewrite decide_False; [done|]. by intros [?|?]%elem_of_cons.
Qed.

Lemma backtrack_all_ids archive sid missing r m deps g :
  let g' := foldl (backtrack_one archive sid missing r m) g deps in
  TaskGraph.CycleCounters g' = TaskGraph.CycleCounters g ∧
  TaskGraph.PendingDecisions g' = TaskGraph.PendingDecisions g ∧
  TaskGraph.Status g' = TaskGraph.Status g.
Proof.
  revert g. induction deps as [|d deps IH]; intros g; cbn [foldl]; [done|].
  destruct (backtrack_one_ids archive sid missing r m g d) as (_ & _ & H1 & H2 & H3).
  destruct (IH (backtrack_one archive sid missing r m g d)) as (-> & -> & ->). done.
Qed.

Lemma suspend_all_lookup deps g id :
  get_step (foldl (λ g depID, upd_step depID suspend_step g) g deps) id =
  if decide (id ∈ deps) then suspend_step <$> get_step g id else get_step g id.
Proof.
  revert g. induction deps as [|d deps IH]; intros g; cbn [foldl].
  - by rewrite (decide_False (P := id ∈ [])) by apply not_elem_of_nil.
  - rewrite IH. unfold get_step. rewrite upd_step_lookup.
    destruct (decide (d = id)) as [->|Hne].
    + rewrite (decide_True (P := id ∈ id :: deps)) by (by left).
      destruct (TaskGraph.Steps g !! id) as [s|]; [|by case_decide]. by case_decide.
    + destruct (decide (id ∈ deps)) as [Hin|Hin].
      * by rewrite decide_True by (by right).
      * rewrite decide_False; [done|]. intros [?|?]%elem_of_cons; congruence.
Qed.

Lemma fuse_graph_lookup cid step g id :
  get_step (fuse_graph cid step g) id =
  if decide (id = Step.ID step)
  then (λ s, suspend_step s <| Step.AdditionalPromptContext := degrade_notice (Step.MaxLoopRounds step) |>)
         <$> get_step g id
  else if decide (id ∈ Step.DependsOn step) then suspend_step <$> get_step g id else get_step g id.
Proof.
  unfold fuse_graph. cbv zeta.
  match goal with |- get_step (?f <| TaskGraph.CycleCounters ::= _ |>) id = _ => change (get_step f id = 
    if decide (id = Step.ID step)
    then (λ s, suspend_step s <| Step.AdditionalPromptContext := degrade_notice (Step.MaxLoopRounds step) |>)
           <$> get_step g id
    else if decide (id ∈ Step.DependsOn step) then suspend_step <$> get_step g id else get_step g id) end.
  unfold get_step at 1. rewrite upd_step_lookup. fold (get_step (foldl (λ g depID, upd_step depID suspend_step g) g (Step.DependsOn step)) id).
  rewrite suspend_all_lookup.
  destruct (get_step g id); repeat case_decide; subst; try congruence; done.
Qed.

Lemma get_step_bump cid g id : get_step (bump_counter cid g) id = get_step g id.
Proof. done. Qed.

(** The loop's signature does not depend on the order in which the step
    lists its dependencies. *)
Theorem makeCycleID_order_independent stepID deps deps' :
  deps ≡ₚ deps' → makeCycleID stepID deps = makeCycleID stepID deps'.
Proof. intros H. unfold makeCycleID. by rewrite (sort_strings_unique _ (stepID :: deps')) by by constructor. Qed.

Lemma makeCycleID_order_independent_witness :
  makeCycleID "s3" ["s2"; "s1"] = "s1:s2:s3" ∧ makeCycleID "s3" ["s1"; "s2"] = makeCycleID "s3" ["s2"; "s1"].
Proof.
  split; [vm_compute; reflexivity|]. apply makeCycleID_order_independent. constructor.
Defined.

(** The fields the loop is identified by survive a round and the fuse. *)
Definition same_loop (a b : Step.t) : Prop :=
  Step.ID a = Step.ID b ∧ Step.DependsOn a = Step.DependsOn b ∧
  Step.MaxLoopRounds a = Step.MaxLoopRounds b.

Lemma backtracked_same archive g sid missing r m d dep :
  same_loop (backtracked archive g sid missing r m d dep) dep ∧
  Step.Status (backtracked archive g sid missing r m d dep) = StepPending ∧
  Metadata.DeltaBacktrack <$> Step.Metadata (backtracked archive g sid missing r m d dep) = Some true ∧
  Step.PreviousOutputSummary (backtracked archive g sid missing r m d dep) =
    buildPreviousSummary archive dep (TaskGraph.TaskID g) (projectOfGraph g).
Proof. repeat split. Qed.

Lemma backtrack_self_same s :
  same_loop (backtrack_self s) s ∧ Step.Status (backtrack_self s) = StepPending.
Proof. repeat split. Qed.

Lemma suspend_step_same s : same_loop (suspend_step s) s ∧ Step.Status (suspend_step s) = StepSuspended.
Proof. repeat split. Qed.

Lemma same_loop_trans a b c : same_loop a b → same_loop b c → same_loop a c.
Proof. unfold same_loop. intros (->&->&->) (->&->&->). done. Qed.

(** The state a round works from: the counter already bumped. *)
Definition bumped (step : Step.t) (s : GateState) : TaskGraph.t :=
  bump_counter (makeCycleID (Step.ID step) (Step.DependsOn step)) (gs_graph s).
Definition round_of (step : Step.t) (s : GateState) : Z :=
  wrap64 (default 0%Z (TaskGraph.CycleCounters (gs_graph s) !!
                         makeCycleID (Step.ID step) (Step.DependsOn step)) + 1).
Definition backtrack_applies (step : Step.t) (missing : list string) : Prop :=
  missing ≠ [] ∧ Step.DependsOn step ≠ [] ∧ Step.MaxLoopRounds step ≠ 0%Z.

Lemma bumped_counter step s :
  TaskGraph.CycleCounters (bumped step s) !! makeCycleID (Step.ID step) (Step.DependsOn step)
  = Some (round_of step s).
Proof. unfold bumped, bump_counter. cbn. apply lookup_insert_eq. Qed.

Lemma tryBacktrack_round cfg archive decID now stepID missing s step :
  get_step (gs_graph s) stepID = Some step → backtrack_applies step missing →
  (round_of step s ≤ Step.MaxLoopRounds step)%Z →
  tryBacktrack cfg archive decID now stepID missing s =
  (s <| gs_graph := backtrack_round archive step missing (round_of step s) (bumped step s) |>, true).
Proof.
  intros Hs (H1 & H2 & H3) Hr. unfold tryBacktrack. rewrite Hs, !bool_decide_false by done.
  cbn [orb]. cbv zeta. change (gs_graph (s <| gs_graph ::= ?f |>)) with (f (gs_graph s)).
  fold (bumped step s). rewrite bumped_counter. cbn [default from_option].
  by rewrite bool_decide_true.
Qed.

Lemma tryBacktrack_fuse cfg archive decID now stepID missing s step :
  get_step (gs_graph s) stepID = Some step → backtrack_applies step missing →
  (Step.MaxLoopRounds step < round_of step s)%Z →
  let cid := makeCycleID (Step.ID step) (Step.DependsOn step) in
  ∃ s1 ctx, gs_graph s1 = fuse_graph cid step (bumped step s) ∧
    ctx !! "root_cause" = Some (AString "cycle_fuse") ∧
    tryBacktrack cfg archive decID now stepID missing s =
    (addDecision cfg decID now stepID DecisionStepFailed ctx ["abort"; "refine_and_retry"] s1, true).
Proof.
  intros Hs (H1 & H2 & H3) Hr cid. unfold tryBacktrack. rewrite Hs, !bool_decide_false by done.
  cbn [orb]. cbv zeta. change (gs_graph (s <| gs_graph ::= ?f |>)) with (f (gs_graph s)).
  fold (bumped step s). rewrite bumped_counter. cbn [default from_option].
  rewrite (bool_decide_false (round_of step s ≤ Step.MaxLoopRounds step)%Z) by lia.
  eexists _, _. split; [|split; [|reflexivity]].
  - destruct archive; reflexivity.
  - apply lookup_insert_eq.
Qed.

Lemma backtrack_round_lookup archive step missing r g id :
  get_step (backtrack_round archive step missing r g) id =
  (if decide (id = Step.ID step) then fmap backtrack_self else λ o, o)
    ((if decide (id ∈ Step.DependsOn step)
      then fmap (backtracked archive g (Step.ID step) missing r (Step.MaxLoopRounds step) id)
      else λ o, o) (get_step g id)).
Proof.
  unfold backtrack_round, get_step at 1. rewrite upd_step_lookup.
  fold (get_step (foldl (backtrack_one archive (Step.ID step) missing r (Step.MaxLoopRounds step)) g (Step.DependsOn step)) id).
  rewrite backtrack_all_lookup.
  destruct (decide (Step.ID step = id)) as [<-|]; [rewrite (decide_True (P := Step.ID step = _)) by done|rewrite (decide_False (P := id = _)) by done];
  by case_decide.
Qed.

(** ** What one call does *)

Lemma suspend_all_ids deps g :
  let g' := foldl (λ g depID, upd_step depID suspend_step g) g deps in
  TaskGraph.Status g' = TaskGraph.Status g ∧ TaskGraph.PendingDecisions g' = TaskGraph.PendingDecisions g.
Proof.
  revert g. induction deps as [|d deps IH]; intros g; cbn [foldl]; [done|].
  destruct (IH (upd_step d suspend_step g)) as [-> ->]. done.
Qed.

Lemma fuse_graph_ids cid step g :
  TaskGraph.Status (fuse_graph cid step g) = TaskGraph.Status g ∧
  TaskGraph.PendingDecisions (fuse_graph cid step g) = TaskGraph.PendingDecisions g.
Proof. apply (suspend_all_ids (Step.DependsOn step) g). Qed.

Lemma get_step_bumped step s id : get_step (bumped step s) id = get_step (gs_graph s) id.
Proof. done. Qed.

(** The three outcomes of [tryBacktrack]. *)
Lemma tryBacktrack_cases cfg archive decID now stepID missing s step :
  wf_graph (gs_graph s) → get_step (gs_graph s) stepID = Some step →
  let g := gs_graph s in
  let cid := makeCycleID (Step.ID step) (Step.DependsOn step) in
  let s' := (tryBacktrack cfg archive decID now stepID missing s).1 in
  let handled := (tryBacktrack cfg archive decID now stepID missing s).2 in
  let g' := gs_graph s' in
  (¬ backtrack_applies step missing ∧ handled = false ∧ s' = s) ∨
  (backtrack_applies step missing ∧ handled = true ∧ gs_out s' = gs_out s ∧
   (round_of step s ≤ Step.MaxLoopRounds step)%Z ∧
   TaskGraph.CycleCounters g' !! cid = Some (round_of step s) ∧
   TaskGraph.PendingDecisions g' = TaskGraph.PendingDecisions g ∧
   (∀ id, id ≠ stepID → id ∉ Step.DependsOn step → get_step g' id = get_step g id) ∧
   (∃ st, get_step g' stepID = Some st ∧ Step.Status st = StepPending ∧ same_loop st step) ∧
   (∀ id dep, id ∈ Step.DependsOn step → get_step g id = Some dep →
      ∃ dep', get_step g' id = Some dep' ∧ Step.Status dep' = StepPending ∧ same_loop dep' dep ∧
        Metadata.DeltaBacktrack <$> Step.Metadata dep' = Some true ∧
        Step.PreviousOutputSummary dep' =
          buildPreviousSummary archive dep (TaskGraph.TaskID g) (projectOfGraph g))) ∨
  (backtrack_applies step missing ∧ handled = true ∧
   (Step.MaxLoopRounds step < round_of step s)%Z ∧
   TaskGraph.CycleCounters g' !! cid = None ∧
   (∀ id, id = stepID ∨ id ∈ Step.DependsOn step →
      Step.Status <$> get_step g' id = const StepSuspended <$> get_step g id) ∧
   (∀ id, id ≠ stepID → id ∉ Step.DependsOn step → get_step g' id = get_step g id) ∧
   (isTerminalStatus (TaskGraph.Status g) = false →
      ∃ dec, TaskGraph.PendingDecisions g' = TaskGraph.PendingDecisions g ++ [dec] ∧
        Decision.ID dec = decID ∧ Decision.StepID dec = stepID ∧ Decision.Type_ dec = DecisionStepFailed)).
Proof.
  intros Hwf Hs g cid s' handled g'. assert (Step.ID step = stepID) as Hid by by apply Hwf.
  destruct (decide (missing = [] ∨ Step.DependsOn step = [] ∨ Step.MaxLoopRounds step = 0%Z)) as [Hg|Hg].
  { left. assert (tryBacktrack cfg archive decID now stepID missing s = (s, false)) as E.
    { unfold tryBacktrack. rewrite Hs.
      replace (_ || _ || _) with true; [done|]. symmetry. rewrite !orb_true_iff, !bool_decide_eq_true. tauto. }
    unfold handled, s'. rewrite E. split; [|done]. unfold backtrack_applies. tauto. }
  assert (backtrack_applies step missing) as Hap by (unfold backtrack_applies; tauto).
  right. destruct (decide (round_of step s ≤ Step.MaxLoopRounds step)%Z) as [Hr|Hr]; [left|right].
  - unfold g', handled, s'. rewrite (tryBacktrack_round _ _ _ _ _ _ _ _ Hs Hap Hr).
    cbn [fst snd]. do 4 (split; [done|]).
    change (gs_graph (s <| gs_graph := ?x |>)) with x.
    destruct (backtrack_all_ids archive (Step.ID step) missing (round_of step s) (Step.MaxLoopRounds step)
      (Step.DependsOn step) (bumped step s)) as (Hc & Hp & _).
    split; [unfold cid; rewrite <- (bumped_counter step s), <- Hc; reflexivity|].
    split; [transitivity (TaskGraph.PendingDecisions (bumped step s)); [rewrite <- Hp|]; reflexivity|].
    split; [|split].
    + intros id Hne Hni. rewrite backtrack_round_lookup, Hid, !decide_False by done. done.
    + destruct (decide (stepID ∈ Step.DependsOn step)) as [Hin|Hin].
      * eexists. rewrite backtrack_round_lookup, Hid, !decide_True by done.
        rewrite (get_step_bumped step s), Hs. split; [reflexivity|]. split; [done|].
        eapply same_loop_trans; [apply backtrack_self_same|apply backtracked_same].
      * eexists. rewrite backtrack_round_lookup, Hid, decide_True, decide_False by done.
        rewrite (get_step_bumped step s), Hs. split; [reflexivity|]. apply and_comm, backtrack_self_same.
    + intros id dep Hin Hdep. unfold g in Hdep. destruct (decide (id = stepID)) as [->|Hne].
      * eexists. rewrite backtrack_round_lookup, Hid, !decide_True by done.
        rewrite (get_step_bumped step s), Hdep. split; [reflexivity|]. split; [done|].
        split; [eapply same_loop_trans; [apply backtrack_self_same|apply backtracked_same]|]. done.
      * eexists. rewrite backtrack_round_lookup, Hid, decide_False, decide_True by done.
        rewrite (get_step_bumped step s), Hdep. split; [reflexivity|]. split; [done|].
        split; [apply backtracked_same|done].
  - assert (Step.MaxLoopRounds step < round_of step s)%Z as Hr' by lia.
    destruct (tryBacktrack_fuse cfg archive decID now stepID missing s step Hs Hap Hr')
      as (s1 & ctx & Hs1 & _ & E).
    unfold g', handled, s'. rewrite E. cbn [fst snd]. do 3 (split; [done|]).
    assert (∀ id, get_step (fuse_graph cid step (bumped step s)) id =
      get_step (gs_graph (addDecision cfg decID now stepID DecisionStepFailed ctx ["abort"; "refine_and_retry"] s1)) id) as Hst.
    { intros id. unfold get_step. by rewrite addDecision_Steps, Hs1. }
    assert (is_Some (get_step (gs_graph s1) stepID)) as [st Hst1].
    { rewrite Hs1, fuse_graph_lookup, Hid, decide_True by done.
      rewrite (get_step_bumped step s), Hs. by eexists. }
    assert (Step.ID st = stepID) as Hstid.
    { rewrite Hs1, fuse_graph_lookup, Hid, decide_True in Hst1 by done.
      rewrite (get_step_bumped step s), Hs in Hst1. injection Hst1 as <-. done. }
    destruct (addDecision_cases cfg decID now stepID st DecisionStepFailed ctx ["abort"; "refine_and_retry"] s1 Hst1)
      as [(Ht & Hg1 & _)|(Ht & dec & H1 & H2 & H3 & _ & Hg1 & _)];
      (split; [rewrite Hg1, Hs1; apply lookup_delete_eq|split; [|split]]).
    1, 4: intros id Hin; rewrite <- Hst, fuse_graph_lookup, Hid; rewrite (get_step_bumped step s);
      unfold g; destruct (get_step (gs_graph s) id); repeat case_decide; try done; tauto.
    1, 3: intros id Hne Hni; by rewrite <- Hst, fuse_graph_lookup, Hid, !decide_False by done.
    + rewrite Hs1, (proj1 (fuse_graph_ids _ _ _)) in Ht. intros Hf. exfalso. 
      change (isTerminalStatus (TaskGraph.Status g) = true) in Ht. congruence.
    + intros _. exists dec. split; [|split; [done|split; [congruence|done]]].
      rewrite Hg1. change (TaskGraph.PendingDecisions (gs_graph s1) ++ [dec] = TaskGraph.PendingDecisions g ++ [dec]).
      by rewrite Hs1, (proj2 (fuse_graph_ids _ _ _)).
Qed.

(** The three behaviours of [tryBacktrack].  Without missing context,
    dependencies or a loop budget it does nothing and reports false.  Within
    the budget the counter is advanced, the step and each existing dependency
    become pending, a dependency is marked for delta backtracking with its
    previous output, and no other step, decision or output changes.  Beyond
    the budget the step and its dependencies are suspended, the loop's counter
    is dropped, and, unless the graph is terminal, a decision on the step is
    parked. *)
Theorem tryBacktrack_spec cfg archive decID now stepID missing s step :
  wf_graph (gs_graph s) → get_step (gs_graph s) stepID = Some step →
  let g := gs_graph s in
  let cid := makeCycleID (Step.ID step) (Step.DependsOn step) in
  let s' := (tryBacktrack cfg archive decID now stepID missing s).1 in
  let handled := (tryBacktrack cfg archive decID now stepID missing s).2 in
  let g' := gs_graph s' in
  (¬ backtrack_applies step missing ∧ handled = false ∧ s' = s) ∨
  (backtrack_applies step missing ∧ handled = true ∧ gs_out s' = gs_out s ∧
   (round_of step s ≤ Step.MaxLoopRounds step)%Z ∧
   TaskGraph.CycleCounters g' !! cid = Some (round_of step s) ∧
   TaskGraph.PendingDecisions g' = TaskGraph.PendingDecisions g ∧
   (∀ id, id ≠ stepID → id ∉ Step.DependsOn step → get_step g' id = get_step g id) ∧
   (∃ st, get_step g' stepID = Some st ∧ Step.Status st = StepPending ∧ same_loop st step) ∧
   (∀ id dep, id ∈ Step.DependsOn step → get_step g id = Some dep →
      ∃ dep', get_step g' id = Some dep' ∧ Step.Status dep' = StepPending ∧ same_loop dep' dep ∧
        Metadata.DeltaBacktrack <$> Step.Metadata dep' = Some true ∧
        Step.PreviousOutputSummary dep' =
          buildPreviousSummary archive dep (TaskGraph.TaskID g) (projectOfGraph g))) ∨
  (backtrack_applies step missing ∧ handled = true ∧
   (Step.MaxLoopRounds step < round_of step s)%Z ∧
   TaskGraph.CycleCounters g' !! cid = None ∧
   (∀ id, id = stepID ∨ id ∈ Step.DependsOn step →
      Step.Status <$> get_step g' id = const StepSuspended <$> get_step g id) ∧
   (∀ id, id ≠ stepID → id ∉ Step.DependsOn step → get_step g' id = get_step g id) ∧
   (isTerminalStatus (TaskGraph.Status g) = false →
      ∃ dec, TaskGraph.PendingDecisions g' = TaskGraph.PendingDecisions g ++ [dec] ∧
        Decision.ID dec = decID ∧ Decision.StepID dec = stepID ∧ Decision.Type_ dec = DecisionStepFailed)).
Proof. exact (tryBacktrack_cases cfg archive decID now stepID missing s step). Qed.

(** ** The number of rounds *)

Section Rounds.
Context (cfg : option SystemConfig) (archive : option Archive).
Context (stepID : string) (deps : list string) (maxRounds : Z).

(** The loop's step is in the graph, with these dependencies and this budget. *)
Definition loop_here (s : GateState) (step : Step.t) : Prop :=
  wf_graph (gs_graph s) ∧ get_step (gs_graph s) stepID = Some step ∧
  Step.DependsOn step = deps ∧ Step.MaxLoopRounds step = maxRounds.

Definition loop_counter (s : GateState) : option Z :=
  TaskGraph.CycleCounters (gs_graph s) !! makeCycleID stepID deps.

(** [loop_trace n s]: [s] is reached from a state without a counter by [n]
    calls that granted a round (left the step pending), while the rest of the
    engine did anything that keeps the step's dependencies and budget and the
    loop's counter. *)
Inductive loop_trace : nat → GateState → Prop :=
| lt_start s step : loop_here s step → loop_counter s = None → loop_trace 0 s
| lt_env n s s' step :
    loop_trace n s → loop_here s' step → loop_counter s' = loop_counter s → loop_trace n s'
| lt_round n s s' step step' decID now missing :
    loop_trace n s → loop_here s step →
    tryBacktrack cfg archive decID now stepID missing s = (s', true) →
    loop_here s' step' → Step.Status step' = StepPending → loop_trace (S n) s'.

Definition counter_for (n : nat) : option Z :=
  if decide (n = 0) then None else Some (Z.of_nat n).

Lemma loop_trace_counter n s :
  (0 < maxRounds < int64_max)%Z → loop_trace n s →
  (Z.of_nat n ≤ maxRounds)%Z ∧ loop_counter s = counter_for n.
Proof.
  intros HM. induction 1 as [s step Hl Hc|n s s' step Ht IH Hl Hc|n s s' step step' decID now missing Ht IH Hl E Hl' Hst].
  - split; [lia|]. done.
  - destruct IH as [H1 H2]. split; [done|congruence].
  - destruct IH as [H1 H2]. destruct Hl as (Hwf & Hs & Hd & Hm).
    assert (Step.ID step = stepID) as Hid by by apply Hwf.
    assert (round_of step s = Z.of_nat (S n)) as Hround.
    { unfold round_of. rewrite Hid, Hd. unfold loop_counter in H2. rewrite H2. unfold counter_for.
      rewrite wrap64_id; [case_decide; simpl; lia|]. unfold in_int64, int64_min, int64_max in *.
      case_decide; simpl; lia. }
    destruct (tryBacktrack_cases cfg archive decID now stepID missing s step Hwf Hs)
      as [(_ & Hf & _)|[(_ & _ & _ & Hr & Hc & _)|(_ & _ & Hr & _ & Hsus & _)]]; rewrite E in *; cbn [fst snd] in *.
    + done.
    + rewrite Hround, Hm in Hr. split; [lia|]. unfold loop_counter. rewrite <- Hid, <- Hd, Hc, Hround.
      unfold counter_for. by case_decide.
    + exfalso. specialize (Hsus stepID (or_introl eq_refl)). destruct Hl' as (_ & Hs' & _).
      rewrite Hs, Hs' in Hsus. cbn in Hsus. injection Hsus as Hsus. congruence.
Qed.
End Rounds.

(** C13: a loop is granted at most [MaxLoopRounds] supplement rounds, whatever
    the rest of the engine does in between; the next attempt after the last
    round suspends the step and every existing dependency. *)
Theorem backtrack_rounds_bounded cfg archive stepID deps maxRounds n s :
  (0 < maxRounds < int64_max)%Z →
  loop_trace cfg archive stepID deps maxRounds n s →
  (Z.of_nat n ≤ maxRounds)%Z ∧
  (Z.of_nat n = maxRounds → ∀ step decID now missing,
     loop_here stepID deps maxRounds s step → missing ≠ [] → deps ≠ [] →
     let r := tryBacktrack cfg archive decID now stepID missing s in
     r.2 = true ∧
     ∀ id, id = stepID ∨ id ∈ deps →
       Step.Status <$> get_step (gs_graph r.1) id = const StepSuspended <$> get_step (gs_graph s) id).
Proof.
  intros HM Ht. destruct (loop_trace_counter _ _ _ _ _ _ _ HM Ht) as [H1 H2]. split; [done|].
  intros Hn step decID now missing (Hwf & Hs & Hd & Hm) Hmis Hdne r.
  assert (Step.ID step = stepID) as Hid by by apply Hwf.
  assert (round_of step s = Z.of_nat (S n)) as Hround.
  { unfold round_of. rewrite Hid, Hd. unfold loop_counter in H2. rewrite H2. unfold counter_for.
    rewrite wrap64_id; [case_decide; simpl; lia|]. unfold in_int64, int64_min, int64_max in *.
    case_decide; simpl; lia. }
  destruct (tryBacktrack_cases cfg archive decID now stepID missing s step Hwf Hs)
    as [(Hna & _)|[(_ & _ & _ & Hr & _)|(_ & Hh & _ & _ & Hsus & _)]].
  - exfalso. apply Hna. split; [done|]. rewrite Hd, Hm. split; [done|lia].
  - exfalso. rewrite Hround, Hm in Hr. lia.
  - rewrite Hd in Hsus. split; [exact Hh|exact Hsus].
Qed.

(** ** Witnesses *)

Definition loop_graph : TaskGraph.t :=
  blankGraph "t" [(blankStep "a" StepOK []) <| Step.TargetFile := "a.md" |>;
                  (blankStep "b" StepRunning ["a"]) <| Step.MaxLoopRounds := 1%Z |>].
Definition loop_state : GateState := mkGate loop_graph ∅ [].
Definition loop_try (s : GateState) : GateState := (tryBacktrack None None "d" 9 "b" ["price"] s).1.

Lemma tryBacktrack_spec_witness :
  Step.Status <$> get_step (gs_graph (loop_try loop_state)) "a" = Some StepPending ∧
  TaskGraph.CycleCounters (gs_graph (loop_try loop_state)) !! "a:b" = Some 1%Z.
Proof.
  destruct (tryBacktrack_spec None None "d" 9 "b" ["price"] loop_state
    ((blankStep "b" StepRunning ["a"]) <| Step.MaxLoopRounds := 1%Z |>)) as [(H & _)|[H|(_ & _ & H & _)]].
  - apply wf_graphb_true. vm_compute. reflexivity.
  - vm_compute. reflexivity.
  - exfalso. apply H. repeat split; discriminate.
  - destruct H as (_ & _ & _ & _ & Hc & _ & _ & _ & Hd).
    split; [|exact Hc].
    destruct (Hd "a" ((blankStep "a" StepOK []) <| Step.TargetFile := "a.md" |>)) as (dep' & Hg & Hst & _).
    + left.
    + vm_compute. reflexivity.
    + unfold loop_try. rewrite Hg. cbn [fmap option_fmap option_map]. f_equal. exact Hst.
  - exfalso. revert H. vm_compute. discriminate.
Defined.

Lemma backtrack_rounds_bounded_witness :
  Step.Status <$> get_step (gs_graph (loop_try (loop_try loop_state))) "b" = Some StepSuspended.
Proof.
  destruct (backtrack_rounds_bounded None None "b" ["a"] 1 1 (loop_try loop_state)) as [_ H].
  - vm_compute. split; reflexivity.
  - eapply (lt_round None None "b" ["a"] 1 0 loop_state (loop_try loop_state) _ _ "d" 9 ["price"]).
    + eapply lt_start; [|vm_compute; reflexivity]. split; [apply wf_graphb_true; vm_compute; reflexivity|].
      split; [vm_compute; reflexivity|]. split; reflexivity.
    + split; [apply wf_graphb_true; vm_compute; reflexivity|].
      split; [vm_compute; reflexivity|]. split; reflexivity.
    + vm_compute. reflexivity.
    + split; [apply wf_graphb_true; vm_compute; reflexivity|].
      split; [vm_compute; reflexivity|]. split; reflexivity.
    + reflexivity.
  - destruct (H eq_refl (default (blankStep "b" StepPending ["a"]) (get_step (gs_graph (loop_try loop_state)) "b"))
      "d" 9%Z ["price"]) as [_ H'].
    + split; [apply wf_graphb_true; vm_compute; reflexivity|].
      split; [vm_compute; reflexivity|]. split; vm_compute; reflexivity.
    + discriminate.
    + discriminate.
    + etransitivity; [exact (H' "b" (or_introl eq_refl))|]. vm_compute. reflexivity.
Defined.
