(* ===== verification/Surgery.v ===== *)
(** * Dynamic DAG surgery (core/scheduler_surgery.go)

    [mutateGraphTopologyLocked] marks a dead-end step deprecated, skips the
    audit steps behind it, releases every other step from it and injects
    replacement steps.  The function returns the graph it leaves behind
    together with its error, because the code mutates in place before it can
    fail. *)

From S2P Require Import Prelude TaskStatus Schema.

Record SurgeryData := mkSurgery {
  DeprecatedStepID : string;
  ReplacementSteps : list StepInput.t
}.

(** [hasPendingDecisionFor] and [depsSatisfiedFor]. *)
Definition hasPendingDecisionFor (g : TaskGraph.t) (stepID : string) : bool :=
  existsb (λ d, bool_decide (Decision.StepID d = stepID)) (TaskGraph.PendingDecisions g).
Definition depsSatisfiedFor (g : TaskGraph.t) (step : Step.t) : bool :=
  deps_done (TaskGraph.Steps g) step.

(** The body of the loop of [releaseDeprecatedDeps] for one step. *)
Definition release_one (g : TaskGraph.t) (dep : string) (step : Step.t) : Step.t :=
  let filtered := filter (λ d, d ≠ dep) (Step.DependsOn step) in
  let removed := length (Step.DependsOn step) - length filtered in
  let step := step <| Step.DependsOn := filtered |> in
  match Step.Status step with
  | StepBlocked =>
      if (0 <? removed) && negb (hasPendingDecisionFor g (Step.ID step)) && depsSatisfiedFor g step
      then step <| Step.Status := StepPending |> <| Step.LastError := "" |>
      else step
  | _ => step
  end.
Definition release_step (dep : string) (g : TaskGraph.t) (id : string) : TaskGraph.t :=
  match get_step g id with
  | Some step => if decide (Step.ID step = dep) then g
                 else upd_step id (λ _, release_one g dep step) g
  | None => g
  end.
Definition releaseDeprecatedDeps (g : TaskGraph.t) (ord : list string) (dep : string) : TaskGraph.t :=
  foldl (release_step dep) g ord.

(** Step 1b: an audit step waiting for the deprecated step is skipped. *)
Definition skip_auditor (dep : string) (step : Step.t) : Step.t :=
  if decide (Step.ID step = dep) then step
  else if bool_decide (Step.RoleID step = "auditor") && bool_decide (Step.Status step = StepPending)
          && bool_decide (dep ∈ Step.DependsOn step)
  then step <| Step.Status := StepSkipped |>
  else step.

(** Step 3: a replacement step as it is stored; [now] is [time.Now()]. *)
Definition inheritance_note (dep lastError : string) : string :=
  ("

[DEPRECATED PATH FAILURE REFERENCE]
Step " +:+ go_quote dep +:+ " failed at this dead-end.
Last Error: " +:+ lastError +:+ "
Decision History includes previous attempts. Avoid repeating the same mistakes.")%string.

Definition replacement_step (dep inheritance : string) (now : Z) (inp : StepInput.t) : Step.t :=
  Step.mk
    (StepInput.ID inp) (StepInput.RoleID inp) (StepInput.Task inp +:+ inheritance)
    (filter (λ d, d ≠ dep) (StepInput.DependsOn inp))
    (StepInput.AdditionalSkills inp) (StepInput.AdditionalMCPs inp)
    (StepInput.AdditionalToolAllowlists inp) (StepInput.ContextRefs inp)
    "" "" (StepInput.ExitCriteria inp) (StepInput.VerifierModel inp) (StepInput.MaxAutoRefine inp)
    (StepInput.DeterministicChecks inp) (StepInput.EnableDebate inp) (StepInput.MaxDebateRounds inp)
    "" "" StepPending 0 0 0 "" "" "" None [] None now None "" ""
    (StepInput.SpawnDepth inp) (StepInput.MaxSpawnDepth inp) 0 [] "" "" 0 "" [] zeroContract "" false "" "" "" ∅ false.

Fixpoint inject_steps (dep inheritance : string) (now : Z) (inps : list StepInput.t)
    (g : TaskGraph.t) : TaskGraph.t * option string :=
  match inps with
  | [] => (g, None)
  | inp :: inps' =>
      let id := StepInput.ID inp in
      match get_step g id with
      | Some _ => (g, Some ("replacement step " +:+ go_quote id +:+ " already exists in graph")%string)
      | None =>
          let g := g <| TaskGraph.Steps ::= insert id (replacement_step dep inheritance now inp) |> in
          let g := g <| TaskGraph.ContextTree ::=
                       alter (λ n, n <| ContextNode.StepIDs ::= λ l, l ++ [id] |>)
                             (TaskGraph.CurrentNodeID g) |> in
          inject_steps dep inheritance now inps' g
      end
  end.

(** [mutateGraphTopologyLocked]. *)
Definition mutateGraphTopologyLocked (g : TaskGraph.t) (ord : list string) (now : Z)
    (data : SurgeryData) : TaskGraph.t * option string :=
  let dep := DeprecatedStepID data in
  match get_step g dep with
  | None => (g, Some ("deprecated step " +:+ go_quote dep +:+ " not found")%string)
  | Some depStep =>
      let g := upd_step dep (λ s, s <| Step.Status := StepDeprecated |>) g in
      let g := g <| TaskGraph.Steps ::= fmap (skip_auditor dep) |> in
      let g := releaseDeprecatedDeps g ord dep in
      let inh := inheritance_note dep (Step.LastError depStep) in
      match inject_steps dep inh now (ReplacementSteps data) g with
      | (g, Some e) => (g, Some e)
      | (g, None) =>
          (g <| TaskGraph.ContextTree ::=
               alter (λ n, n <| ContextNode.Summary ::=
                 λ s, (s +:+ "
- Path via step " +:+ dep +:+ " abandoned (deprecated). Replacement path injected.")%string |>)
                     (TaskGraph.CurrentNodeID g) |>, None)
      end
  end.

Lemma filter_ne_id (x : string) (l : list string) : x ∉ l → filter (λ d, d ≠ x) l = l.
Proof.
  induction l as [|y l IH]; intros Hx; [done|].
  rewrite filter_cons_True by set_solver. rewrite IH; [done|set_solver].
Qed.

(** ** [releaseDeprecatedDeps] as a simultaneous update *)

Definition release_map (g : TaskGraph.t) (dep : string) (s : Step.t) : Step.t :=
  if decide (Step.ID s = dep) then s else release_one g dep s.

Lemma release_one_status g dep s :
  Step.Status (release_one g dep s) = Step.Status s ∨
  (Step.Status s = StepBlocked ∧ Step.Status (release_one g dep s) = StepPending ∧
   dep ∈ Step.DependsOn s ∧ hasPendingDecisionFor g (Step.ID s) = false ∧
   depsSatisfiedFor g (s <| Step.DependsOn := filter (λ d, d ≠ dep) (Step.DependsOn s) |>) = true).
Proof.
  unfold release_one. simpl. destruct (Step.Status s) eqn:E; simpl; try by left.
  case_match eqn:Hc; simpl; [|by left]. right.
  rewrite !andb_true_iff, negb_true_iff in Hc. destruct Hc as [[Hlen Hp] Hd].
  do 2 (split; [done|]). split; [|done].
  destruct (decide (dep ∈ Step.DependsOn s)) as [|Hn]; [done|].
  exfalso. apply Nat.ltb_lt in Hlen. rewrite filter_ne_id in Hlen by done. lia.
Qed.

Lemma release_one_fields g dep s :
  Step.ID (release_one g dep s) = Step.ID s ∧
  Step.DependsOn (release_one g dep s) = filter (λ d, d ≠ dep) (Step.DependsOn s).
Proof. unfold release_one. repeat (case_match || split); done. Qed.

Lemma release_map_done g dep s :
  dep_done (Step.Status (release_map g dep s)) = dep_done (Step.Status s).
Proof.
  unfold release_map. case_decide; [done|].
  destruct (release_one_status g dep s) as [->|(-> & -> & _)]; done.
Qed.

(** The graph after the loop has visited the ids of [l]. *)
Definition released (g : TaskGraph.t) (dep : string) (l : list string) : gmap string Step.t :=
  map_imap (λ id s, Some (if decide (id ∈ l) then release_map g dep s else s)) (TaskGraph.Steps g).

Lemma released_lookup g dep l id :
  released g dep l !! id =
  (λ s, if decide (id ∈ l) then release_map g dep s else s) <$> TaskGraph.Steps g !! id.
Proof. unfold released. rewrite map_lookup_imap. by destruct (TaskGraph.Steps g !! id). Qed.

Lemma release_map_ext g dep l s :
  release_map (g <| TaskGraph.Steps := released g dep l |>) dep s = release_map g dep s.
Proof.
  unfold release_map, release_one, depsSatisfiedFor, hasPendingDecisionFor. simpl.
  case_decide; [done|].
  rewrite (deps_done_ext (released g dep l) (TaskGraph.Steps g)); [done|].
  intros d _. unfold done_view. rewrite released_lookup.
  destruct (TaskGraph.Steps g !! d); simpl; [|done]. f_equal.
  case_decide; [apply release_map_done|done].
Qed.

Lemma graph_eta g : g <| TaskGraph.Steps := TaskGraph.Steps g |> = g.
Proof. by destruct g. Qed.
Lemma graph_steps_eq g m m' :
  m = m' → g <| TaskGraph.Steps := m |> = g <| TaskGraph.Steps := m' |>.
Proof. by intros ->. Qed.

Lemma released_add_ne g dep (l : list string) (id x : string) (s : option Step.t) :
  id ≠ x →
  (λ s, if decide (id ∈ l ++ [x]) then release_map g dep s else s) <$> s =
  (λ s, if decide (id ∈ l) then release_map g dep s else s) <$> s.
Proof.
  intros Hne. destruct s; [|done]. cbn. f_equal.
  repeat case_decide; try done; set_solver.
Qed.

Lemma release_fold g dep l :
  NoDup l → foldl (release_step dep) g l = g <| TaskGraph.Steps := released g dep l |>.
Proof.
  induction l as [|x l IH] using rev_ind; intros Hnd; cbn [foldl].
  - rewrite <- (graph_eta g) at 1. apply graph_steps_eq, map_eq. intros id.
    rewrite released_lookup. by destruct (TaskGraph.Steps g !! id).
  - apply NoDup_app in Hnd as (Hl & Hx & _).
    rewrite foldl_app. cbn [foldl]. rewrite IH by done.
    assert (x ∉ l) as Hxl by set_solver.
    unfold release_step, get_step. cbn. rewrite released_lookup.
    destruct (TaskGraph.Steps g !! x) as [s|] eqn:E; cbn [fmap option_fmap option_map].
    + rewrite (decide_False (P := x ∈ l)) by done.
      assert (Hm : (if decide (Step.ID s = dep) then released g dep l
                    else alter (λ _, release_one (g <| TaskGraph.Steps := released g dep l |>) dep s)
                               x (released g dep l)) = released g dep (l ++ [x])).
      { apply map_eq. intros id. pose proof (release_map_ext g dep l s) as Hext.
        unfold release_map in Hext.
        case_decide as Hid; rewrite ?lookup_alter, ?released_lookup.
        - destruct (decide (id = x)) as [->|Hne]; [|by rewrite released_add_ne].
          rewrite E. cbn. rewrite decide_False by done.
          rewrite decide_True by set_solver. unfold release_map. by rewrite decide_True.
        - case_decide as Hix; [subst id|by rewrite released_add_ne].
          rewrite E. cbn. rewrite (decide_True (P := x ∈ l ++ [x])) by set_solver.
          unfold release_map. rewrite decide_False by done. by rewrite Hext. }
      rewrite <- Hm. by case_decide.
    + apply graph_steps_eq, map_eq. intros id. rewrite !released_lookup.
      destruct (decide (id = x)) as [->|]; [by rewrite E|by rewrite released_add_ne].
Qed.

(** The loop does not depend on the order in which Go visits the steps. *)
Lemma releaseDeprecatedDeps_eq g ord dep :
  range_order (TaskGraph.Steps g) ord →
  releaseDeprecatedDeps g ord dep = g <| TaskGraph.Steps ::= fmap (release_map g dep) |>.
Proof.
  intros Ho. unfold releaseDeprecatedDeps.
  rewrite release_fold by (by eapply range_order_NoDup).
  apply graph_steps_eq, map_eq. intros id. rewrite released_lookup, lookup_fmap.
  destruct (TaskGraph.Steps g !! id) eqn:E; [|done]. cbn. rewrite decide_True; [done|].
  by apply (range_order_elem _ _ _ Ho).
Qed.

(** ** Injection of replacement steps *)

Lemma inject_old dep inh now inps g g' r id s :
  inject_steps dep inh now inps g = (g', r) →
  get_step g id = Some s → get_step g' id = Some s.
Proof.
  revert g. induction inps as [|inp inps IH]; intros g; cbn [inject_steps]; [by intros [= <- _]|].
  destruct (get_step g (StepInput.ID inp)) eqn:E; [by intros [= <- _]|].
  intros H Hs. eapply IH; [exact H|]. unfold get_step in *. cbn.
  rewrite lookup_insert_ne; [done|congruence].
Qed.

Lemma inject_new dep inh now inps g g' r id s :
  inject_steps dep inh now inps g = (g', r) → get_step g' id = Some s →
  get_step g id = Some s ∨
  ∃ inp, inp ∈ inps ∧ StepInput.ID inp = id ∧ s = replacement_step dep inh now inp.
Proof.
  revert g. induction inps as [|inp inps IH]; intros g; cbn [inject_steps];
    [intros [= <- _]; by left|].
  destruct (get_step g (StepInput.ID inp)) eqn:E; [intros [= <- _]; by left|].
  intros H Hs. destruct (IH _ H Hs) as [Hg|(i & Hi & <- & ->)].
  - unfold get_step in Hg. cbn in Hg. apply lookup_insert_Some in Hg as [[<- <-]|[_ Hg]].
    + right. exists inp. split; [apply elem_of_cons; by left|done].
    + by left.
  - right. exists i. split; [apply elem_of_cons; by right|done].
Qed.

Lemma inject_all dep inh now inps g g' inp :
  inject_steps dep inh now inps g = (g', None) → inp ∈ inps →
  get_step g (StepInput.ID inp) = None ∧
  get_step g' (StepInput.ID inp) = Some (replacement_step dep inh now inp).
Proof.
  revert g. induction inps as [|i inps IH]; intros g; cbn [inject_steps];
    [by intros _ ?%elem_of_nil|].
  destruct (get_step g (StepInput.ID i)) eqn:E; [done|].
  intros H [->|Hin]%elem_of_cons.
  - split; [done|]. eapply inject_old; [exact H|]. unfold get_step. cbn. by rewrite lookup_insert_eq.
  - destruct (IH _ H Hin) as [H1 H2]. split; [|done].
    unfold get_step in *. cbn in H1. by apply lookup_insert_None in H1 as [? _].
Qed.

Lemma inject_NoDup dep inh now inps g g' :
  inject_steps dep inh now inps g = (g', None) → NoDup (StepInput.ID <$> inps).
Proof.
  revert g. induction inps as [|i inps IH]; intros g; cbn [inject_steps]; [constructor|].
  destruct (get_step g (StepInput.ID i)) eqn:E; [done|]. intros H. cbn. constructor; [|by eapply IH].
  intros (j & Hj & Hin)%list_elem_of_fmap.
  destruct (inject_all _ _ _ _ _ _ _ H Hin) as [Hn _]. rewrite <- Hj in Hn.
  unfold get_step in Hn. cbn in Hn. by rewrite lookup_insert_eq in Hn.
Qed.

Lemma replacement_no_dep dep inh now inp : dep ∉ Step.DependsOn (replacement_step dep inh now inp).
Proof. cbn. by intros [? _]%list_elem_of_filter. Qed.

(** ** The graph before injection *)

Definition surgery_base (g : TaskGraph.t) (dep : string) : TaskGraph.t :=
  let g1 := upd_step dep (λ s, s <| Step.Status := StepDeprecated |>) g in
  let g2 := g1 <| TaskGraph.Steps ::= fmap (skip_auditor dep) |> in
  g2 <| TaskGraph.Steps ::= fmap (release_map g2 dep) |>.

Lemma mutate_eq g ord now data depStep :
  range_order (TaskGraph.Steps g) ord →
  get_step g (DeprecatedStepID data) = Some depStep →
  ∃ inh, ∀ g' r, mutateGraphTopologyLocked g ord now data = (g', r) →
  ∃ g1, inject_steps (DeprecatedStepID data) inh now (ReplacementSteps data)
          (surgery_base g (DeprecatedStepID data)) = (g1, r) ∧
        TaskGraph.Steps g' = TaskGraph.Steps g1.
Proof.
  intros Ho Hd. exists (inheritance_note (DeprecatedStepID data) (Step.LastError depStep)).
  intros g' r. unfold mutateGraphTopologyLocked. rewrite Hd.
  rewrite releaseDeprecatedDeps_eq.
  2: { eapply range_order_dom; [|exact Ho]. cbn. by rewrite dom_fmap_L, dom_alter_L. }
  fold (surgery_base g (DeprecatedStepID data)).
  destruct (inject_steps _ _ _ _ _) as [g1 [e|]] eqn:Hi; intros [= <- <-]; by exists g1.
Qed.

Lemma skip_auditor_fields dep s :
  Step.ID (skip_auditor dep s) = Step.ID s ∧
  Step.DependsOn (skip_auditor dep s) = Step.DependsOn s.
Proof. unfold skip_auditor. repeat case_decide; repeat case_match; done. Qed.

Lemma skip_auditor_status dep s :
  Step.Status (skip_auditor dep s) = Step.Status s ∨
  (Step.Status (skip_auditor dep s) = StepSkipped ∧ Step.Status s = StepPending ∧
   Step.RoleID s = "auditor" ∧ dep ∈ Step.DependsOn s).
Proof.
  unfold skip_auditor. case_decide; [by left|]. case_match eqn:E; [right|by left].
  rewrite !andb_true_iff, !bool_decide_eq_true in E. naive_solver.
Qed.
Lemma skip_auditor_self dep s : Step.ID s = dep → skip_auditor dep s = s.
Proof. intros H. unfold skip_auditor. by rewrite decide_True. Qed.
Lemma release_map_self g dep s : Step.ID s = dep → release_map g dep s = s.
Proof. intros H. unfold release_map. by rewrite decide_True. Qed.

Lemma surgery_base_dep g dep s :
  wf_graph g → get_step g dep = Some s →
  get_step (surgery_base g dep) dep = Some (s <| Step.Status := StepDeprecated |>).
Proof.
  intros Hwf Hs. unfold surgery_base, get_step in *. cbn.
  rewrite !lookup_fmap, lookup_alter_eq, Hs. cbn. f_equal.
  pose proof (Hwf dep s Hs) as Hid. by rewrite skip_auditor_self, release_map_self.
Qed.

(** Surgery rewrites steps and the context tree only. *)
Record untouched (g g' : TaskGraph.t) : Prop := mk_untouched {
  un_pending : TaskGraph.PendingDecisions g' = TaskGraph.PendingDecisions g;
  un_skips : TaskGraph.ConsecutiveSkips g' = TaskGraph.ConsecutiveSkips g;
  un_smart : TaskGraph.IsSmartRouted g' = TaskGraph.IsSmartRouted g;
  un_task : TaskGraph.TaskID g' = TaskGraph.TaskID g;
  un_status : TaskGraph.Status g' = TaskGraph.Status g
}.
#[export] Instance untouched_preorder : PreOrder untouched.
Proof. split; [done|]. intros a b c [] []. split; congruence. Qed.

Lemma untouched_fold {A} (f : TaskGraph.t → A → TaskGraph.t) l g :
  (∀ g x, untouched g (f g x)) → untouched g (foldl f g l).
Proof. intros Hf. revert g. induction l as [|x l IH]; intros g; [done|]. cbn. etrans; [apply Hf|apply IH]. Qed.

Lemma untouched_inject dep inh now inps g : untouched g (inject_steps dep inh now inps g).1.
Proof.
  revert g. induction inps as [|i inps IH]; intros g; [done|]. cbn [inject_steps].
  destruct (get_step g (StepInput.ID i)); [done|]. etrans; [|apply IH]. done.
Qed.

Lemma untouched_release g ord dep : untouched g (releaseDeprecatedDeps g ord dep).
Proof.
  apply untouched_fold. intros h x. unfold release_step. destruct (get_step h x); [|done]. by case_decide.
Qed.

Lemma mutate_untouched g ord now data : untouched g (mutateGraphTopologyLocked g ord now data).1.
Proof.
  unfold mutateGraphTopologyLocked. destruct (get_step g _) as [ds|]; [|done].
  match goal with |- context [inject_steps ?a ?b ?c ?d ?h] =>
    assert (untouched g h) as H1 by (etrans; [|apply untouched_release]; done);
    pose proof (untouched_inject a b c d h) as H2; destruct (inject_steps a b c d h) as [h' [err|]] end;
    cbn [fst] in *; etrans; [exact H1|exact H2|exact H1|etrans; [exact H2|]]; done.
Qed.

(** Surgery on a step that exists deprecates it, whether it then fails or not. *)
Lemma mutate_deprecates g ord now data g' r s :
  range_order (TaskGraph.Steps g) ord → wf_graph g →
  get_step g (DeprecatedStepID data) = Some s →
  mutateGraphTopologyLocked g ord now data = (g', r) →
  get_step g' (DeprecatedStepID data) = Some (s <| Step.Status := StepDeprecated |>).
Proof.
  intros Ho Hwf Hs Hm. destruct (mutate_eq g ord now data s Ho Hs) as [inh H].
  destruct (H _ _ Hm) as (g1 & Hi & E). unfold get_step. rewrite E.
  eapply inject_old; [exact Hi|]. by apply surgery_base_dep.
Qed.

Lemma surgery_base_other g dep id s :
  wf_graph g → id ≠ dep → get_step g id = Some s →
  ∃ g2, TaskGraph.PendingDecisions g2 = TaskGraph.PendingDecisions g ∧
    TaskGraph.Steps g2 = fmap (skip_auditor dep)
       (alter (λ s, s <| Step.Status := StepDeprecated |>) dep (TaskGraph.Steps g)) ∧
    get_step (surgery_base g dep) id = Some (release_one g2 dep (skip_auditor dep s)).
Proof.
  intros Hwf Hne Hs.
  exists ((upd_step dep (λ s, s <| Step.Status := StepDeprecated |>) g)
            <| TaskGraph.Steps ::= fmap (skip_auditor dep) |>).
  do 2 (split; [done|]).
  unfold surgery_base, get_step in *. cbn. rewrite !lookup_fmap, lookup_alter_ne, Hs by done.
  cbn. unfold release_map. rewrite (proj1 (skip_auditor_fields dep s)), (Hwf id s Hs).
  by rewrite decide_False.
Qed.

Lemma surgery_base_None g dep id : get_step (surgery_base g dep) id = None ↔ get_step g id = None.
Proof.
  unfold surgery_base, get_step. cbn. rewrite !lookup_fmap, !fmap_None, lookup_alter.
  case_decide; [by subst; rewrite fmap_None|done].
Qed.

Lemma surgery_lookup g ord now data g' r depStep id s :
  range_order (TaskGraph.Steps g) ord → wf_graph g →
  get_step g (DeprecatedStepID data) = Some depStep →
  mutateGraphTopologyLocked g ord now data = (g', r) →
  get_step g' id = Some s →
  get_step (surgery_base g (DeprecatedStepID data)) id = Some s ∨
  (∃ inp inh, inp ∈ ReplacementSteps data ∧ StepInput.ID inp = id ∧
     s = replacement_step (DeprecatedStepID data) inh now inp).
Proof.
  intros Ho Hwf Hd Hm Hs. destruct (mutate_eq g ord now data depStep Ho Hd) as [inh H].
  destruct (H _ _ Hm) as (g1 & Hi & E). unfold get_step in Hs. rewrite E in Hs.
  destruct (inject_new _ _ _ _ _ _ _ id s Hi Hs) as [?|(inp & ? & ? & ?)]; [by left|].
  right. by exists inp, inh.
Qed.

Lemma surgery_base_wf g dep : wf_graph g → wf_graph (surgery_base g dep).
Proof.
  intros Hwf id s Hs. fold (get_step (surgery_base g dep) id) in Hs.
  destruct (get_step g id) as [s0|] eqn:E.
  2: { apply (surgery_base_None g dep) in E. congruence. }
  destruct (decide (id = dep)) as [->|Hne].
  - rewrite (surgery_base_dep g dep s0 Hwf E) in Hs. injection Hs as <-. exact (Hwf dep s0 E).
  - destruct (surgery_base_other g dep id s0 Hwf Hne E) as (g2 & _ & _ & Hb).
    rewrite Hb in Hs. injection Hs as <-.
    rewrite (proj1 (release_one_fields _ _ _)), (proj1 (skip_auditor_fields _ _)). exact (Hwf id s0 E).
Qed.

(** What successful surgery leaves. *)
Lemma mutate_releases g ord now data g' :
  range_order (TaskGraph.Steps g) ord → wf_graph g →
  mutateGraphTopologyLocked g ord now data = (g', None) →
  (∃ s, get_step g' (DeprecatedStepID data) = Some s ∧ Step.Status s = StepDeprecated) ∧
  (∀ id s, id ≠ DeprecatedStepID data → get_step g' id = Some s →
     DeprecatedStepID data ∉ Step.DependsOn s) ∧
  (∀ inp, inp ∈ ReplacementSteps data →
     get_step g (StepInput.ID inp) = None ∧
     ∃ s, get_step g' (StepInput.ID inp) = Some s ∧ Step.Status s = StepPending ∧
          Step.ID s = StepInput.ID inp) ∧
  NoDup (StepInput.ID <$> ReplacementSteps data).
Proof.
  intros Ho Hwf Hm. destruct data as [dep inps]; cbn [DeprecatedStepID ReplacementSteps] in *.
  destruct (get_step g dep) as [depStep|] eqn:Hd.
  2: { unfold mutateGraphTopologyLocked in Hm. cbn [DeprecatedStepID ReplacementSteps] in Hm. by rewrite Hd in Hm. }
  destruct (mutate_eq g ord now (mkSurgery dep inps) depStep Ho Hd) as [inh H].
  destruct (H _ _ Hm) as (g1 & Hi & E). cbn [DeprecatedStepID ReplacementSteps] in *. unfold get_step at 1 2 4. rewrite E.
  split; [|split; [|split; [|by eapply inject_NoDup]]].
  - exists (depStep <| Step.Status := StepDeprecated |>). split; [|done].
    eapply inject_old; [exact Hi|]. by apply surgery_base_dep.
  - intros id s Hne Hs.
    destruct (inject_new _ _ _ _ _ _ _ id s Hi Hs) as [Hb|(inp & _ & _ & ->)];
      [|apply replacement_no_dep].
    destruct (get_step g id) as [s0|] eqn:E0; [|by apply (surgery_base_None g dep) in E0; congruence].
    destruct (surgery_base_other g dep id s0 Hwf Hne E0) as (g2 & _ & _ & Hg2).
    rewrite Hb in Hg2. injection Hg2 as ->.
    rewrite (proj2 (release_one_fields _ _ _)). by intros [? _]%list_elem_of_filter.
  - intros inp Hin. destruct (inject_all _ _ _ _ _ _ _ Hi Hin) as [Hn Hs].
    split; [by apply surgery_base_None in Hn|]. by eexists.
Qed.

(** C7: surgery that succeeds marks the dead-end step deprecated, leaves no
    other step of the graph depending on it (old and injected alike), and
    stores every replacement step as a pending step under its own fresh id. *)
Theorem surgery_releases g ord now data g' :
  range_order (TaskGraph.Steps g) ord → wf_graph g →
  mutateGraphTopologyLocked g ord now data = (g', None) →
  (∃ s, get_step g' (DeprecatedStepID data) = Some s ∧ Step.Status s = StepDeprecated) ∧
  (∀ id s, id ≠ DeprecatedStepID data → get_step g' id = Some s →
     DeprecatedStepID data ∉ Step.DependsOn s) ∧
  (∀ inp, inp ∈ ReplacementSteps data →
     get_step g (StepInput.ID inp) = None ∧
     ∃ s, get_step g' (StepInput.ID inp) = Some s ∧ Step.Status s = StepPending ∧
          Step.ID s = StepInput.ID inp) ∧
  NoDup (StepInput.ID <$> ReplacementSteps data).
Proof. exact (mutate_releases g ord now data g'). Qed.

(** Surgery changes the status of an old step only in three ways: the
    dead-end itself is deprecated; a pending auditor step that waited for it is
    skipped; and a blocked step is revived when it depended on the dead-end, no
    decision is parked on it and all its remaining dependencies are satisfied. *)
Theorem surgery_status_changes g ord now data g' r id s s' :
  range_order (TaskGraph.Steps g) ord → wf_graph g →
  mutateGraphTopologyLocked g ord now data = (g', r) →
  id ≠ DeprecatedStepID data → get_step g id = Some s → get_step g' id = Some s' →
  Step.Status s' = Step.Status s ∨
  (Step.Status s = StepPending ∧ Step.Status s' = StepSkipped ∧
   Step.RoleID s = "auditor" ∧ DeprecatedStepID data ∈ Step.DependsOn s) ∨
  (Step.Status s = StepBlocked ∧ Step.Status s' = StepPending ∧
   DeprecatedStepID data ∈ Step.DependsOn s ∧ hasPendingDecisionFor g id = false ∧
   ∀ d sd, d ∈ Step.DependsOn s → d ≠ DeprecatedStepID data → get_step g d = Some sd →
     dep_done (Step.Status sd) = true ∨
     (Step.Status sd = StepPending ∧ Step.RoleID sd = "auditor")).
Proof.
  intros Ho Hwf Hm Hne Hs Hs'. destruct data as [dep inps]; cbn [DeprecatedStepID ReplacementSteps] in *.
  destruct (get_step g dep) as [depStep|] eqn:Hd.
  2: { unfold mutateGraphTopologyLocked in Hm. cbn [DeprecatedStepID ReplacementSteps] in Hm. rewrite Hd in Hm.
       injection Hm as <- _. rewrite Hs in Hs'. injection Hs' as <-. by left. }
  destruct (surgery_base_other g dep id s Hwf Hne Hs) as (g2 & Hpd & Hst & Hb).
  destruct (mutate_eq g ord now (mkSurgery dep inps) depStep Ho Hd) as [inh H].
  destruct (H _ _ Hm) as (g1 & Hi & E). cbn [DeprecatedStepID ReplacementSteps] in *.
  unfold get_step in Hs'. rewrite E in Hs'. fold (get_step g1 id) in Hs'. rewrite (inject_old _ _ _ _ _ _ _ _ _ Hi Hb) in Hs'.
  injection Hs' as <-.
  destruct (skip_auditor_fields dep s) as [Hf1 Hf2].
  destruct (release_one_status g2 dep (skip_auditor dep s)) as [->|(Hbl & -> & Hin & Hp & Hds)].
  - destruct (skip_auditor_status dep s) as [->|(-> & ? & ? & ?)]; [by left|]. right; left. done.
  - right; right. rewrite Hf2 in Hin. rewrite Hf1, (Hwf id s Hs) in Hp.
    assert (Step.Status s = StepBlocked) as Hsb.
    { destruct (skip_auditor_status dep s) as [?|(? & _)]; congruence. }
    do 3 (split; [done|]). split; [by rewrite <- Hp; unfold hasPendingDecisionFor; rewrite Hpd|].
    intros d sd Hdin Hdne Hsd. unfold depsSatisfiedFor in Hds.
    rewrite deps_done_true in Hds. cbn [Step.DependsOn] in Hds.
    specialize (Hds d (skip_auditor dep sd)). rewrite Hst, lookup_fmap, lookup_alter_ne in Hds by done.
    unfold get_step in Hsd. rewrite Hsd in Hds.
    destruct (skip_auditor_status dep sd) as [Heq|(_ & ? & ? & _)]; [left|by right].
    rewrite <- Heq. apply Hds; [|done]. apply list_elem_of_filter. rewrite Hf2. done.
Qed.

(** Dependencies of an old step only shrink. *)
Lemma surgery_base_DependsOn g dep id s :
  wf_graph g → get_step (surgery_base g dep) id = Some s →
  ∃ s0, get_step g id = Some s0 ∧ ∀ d, d ∈ Step.DependsOn s → d ∈ Step.DependsOn s0.
Proof.
  intros Hwf Hs. destruct (get_step g id) as [s0|] eqn:E.
  2: { apply (surgery_base_None g dep) in E. congruence. }
  exists s0. split; [done|]. destruct (decide (id = dep)) as [->|Hne].
  - rewrite (surgery_base_dep g dep s0 Hwf E) in Hs. by injection Hs as <-.
  - destruct (surgery_base_other g dep id s0 Hwf Hne E) as (g2 & _ & _ & Hb).
    rewrite Hb in Hs. injection Hs as <-. intros d.
    rewrite (proj2 (release_one_fields _ _ _)), (proj2 (skip_auditor_fields _ _)).
    by intros [_ ?]%list_elem_of_filter.
Qed.

(** Surgery keeps every step under its own id, also when it fails. *)
Lemma mutate_wf g ord now data g' r :
  range_order (TaskGraph.Steps g) ord → wf_graph g →
  mutateGraphTopologyLocked g ord now data = (g', r) → wf_graph g'.
Proof.
  intros Ho Hwf Hm. destruct (get_step g (DeprecatedStepID data)) as [depStep|] eqn:Hd.
  - intros id s Hs.
    destruct (surgery_lookup g ord now data g' r depStep id s Ho Hwf Hd Hm Hs)
      as [Hb|(inp & inh & _ & <- & ->)]; [|done]. by eapply surgery_base_wf.
  - unfold mutateGraphTopologyLocked in Hm. rewrite Hd in Hm. by injection Hm as <- _.
Qed.

(** Every step of the graph stays stored under its own id, on the success
    and on the error path of surgery. *)
Theorem surgery_wf g ord now data g' r :
  range_order (TaskGraph.Steps g) ord → wf_graph g →
  mutateGraphTopologyLocked g ord now data = (g', r) → wf_graph g'.
Proof. exact (mutate_wf g ord now data g' r). Qed.

(** Surgery on a step that exists succeeds when the replacement ids are fresh. *)
Lemma inject_ok dep inh now inps g :
  NoDup (StepInput.ID <$> inps) → (∀ inp, inp ∈ inps → get_step g (StepInput.ID inp) = None) →
  ∃ g', inject_steps dep inh now inps g = (g', None).
Proof.
  revert g. induction inps as [|i inps IH]; intros g; cbn [inject_steps fmap list_fmap]; [by eexists|].
  intros [Hi Hnd]%NoDup_cons Hf. rewrite Hf by left. apply IH; [done|]. intros inp Hin.
  unfold get_step. cbn. rewrite lookup_insert_ne; [by apply Hf; right|].
  intros E. apply Hi. rewrite E. by apply list_elem_of_fmap_2.
Qed.
Lemma mutate_ok g ord now data s :
  range_order (TaskGraph.Steps g) ord → get_step g (DeprecatedStepID data) = Some s →
  NoDup (StepInput.ID <$> ReplacementSteps data) →
  (∀ inp, inp ∈ ReplacementSteps data → get_step g (StepInput.ID inp) = None) →
  ∃ g', mutateGraphTopologyLocked g ord now data = (g', None).
Proof.
  intros Ho Hd Hnd Hf. destruct (mutate_eq g ord now data s Ho Hd) as [inh H].
  destruct (mutateGraphTopologyLocked g ord now data) as [g' r] eqn:Hm. destruct (H _ _ eq_refl) as (g1 & Hi & _).
  destruct (inject_ok (DeprecatedStepID data) inh now (ReplacementSteps data) (surgery_base g (DeprecatedStepID data)) Hnd) as [g2 H2].
  { intros inp Hin. by apply surgery_base_None, Hf. }
  rewrite H2 in Hi. injection Hi as <- <-. by exists g'.
Qed.

(** Ranks after surgery: the replacement steps go above the old ones. *)
Lemma mutate_ranked g ord now data g' rank rk :
  range_order (TaskGraph.Steps g) ord → wf_graph g →
  mutateGraphTopologyLocked g ord now data = (g', None) →
  ranked (TaskGraph.Steps g) rank →
  (∀ id s d, get_step g id = Some s → d ∈ Step.DependsOn s →
     d ∉ (StepInput.ID <$> ReplacementSteps data)) →
  (∀ inp d, inp ∈ ReplacementSteps data → d ∈ StepInput.DependsOn inp →
     d ∈ (StepInput.ID <$> ReplacementSteps data) → rk d < rk (StepInput.ID inp)) →
  ∃ rank', ranked (TaskGraph.Steps g') rank'.
Proof.
  intros Ho Hwf Hm Hr Hold Hrk.
  destruct (mutate_releases g ord now data g' Ho Hwf Hm) as (_ & _ & Hfresh & _).
  destruct (get_step g (DeprecatedStepID data)) as [depStep|] eqn:Hd.
  2: { unfold mutateGraphTopologyLocked in Hm. by rewrite Hd in Hm. }
  set (new := StepInput.ID <$> ReplacementSteps data) in *.
  assert (Hnew : ∀ id, id ∈ new → get_step g id = None).
  { intros id (inp & -> & Hin)%list_elem_of_fmap. by apply Hfresh. }
  pose (M := max_list (rank <$> elements (dom (TaskGraph.Steps g)))).
  assert (HM : ∀ id, is_Some (get_step g id) → rank id ≤ M).
  { intros id Hid. apply max_list_elem_of_le, list_elem_of_fmap. exists id.
    split; [done|]. by apply elem_of_elements, elem_of_dom. }
  exists (λ id, if decide (id ∈ new) then S (M + rk id) else rank id).
  intros id s d Hs Hdin Hds.
  destruct (surgery_lookup g ord now data g' None depStep id s Ho Hwf Hd Hm Hs)
    as [Hb|(inp & inh & Hin & <- & ->)].
  - destruct (surgery_base_DependsOn _ _ _ _ Hwf Hb) as (s0 & Hs0 & Hsub).
    specialize (Hold id s0 d Hs0 (Hsub d Hdin)). rewrite (decide_False (P := d ∈ new)) by done.
    assert (id ∉ new) as Hidn by (intros Hi; specialize (Hnew id Hi); congruence).
    rewrite decide_False by done. eapply Hr; [exact Hs0|by apply Hsub|].
    destruct Hds as [sd Hsd].
    destruct (surgery_lookup g ord now data g' None depStep d sd Ho Hwf Hd Hm Hsd)
      as [Hbd|(inp' & _ & Hin' & <- & _)].
    + destruct (surgery_base_DependsOn _ _ _ _ Hwf Hbd) as (sd0 & ? & _). by exists sd0.
    + exfalso. apply Hold, list_elem_of_fmap. by exists inp'.
  - cbn in Hdin. apply list_elem_of_filter in Hdin as [_ Hdin].
    rewrite (decide_True (P := StepInput.ID inp ∈ new))
      by (apply list_elem_of_fmap; by exists inp).
    case_decide as Hdn; [specialize (Hrk inp d Hin Hdin Hdn); lia|].
    destruct Hds as [sd Hsd].
    destruct (surgery_lookup g ord now data g' None depStep d sd Ho Hwf Hd Hm Hsd)
      as [Hbd|(inp' & _ & Hin' & <- & _)].
    + destruct (surgery_base_DependsOn _ _ _ _ Hwf Hbd) as (sd0 & Hsd0 & _).
      specialize (HM d ltac:(by exists sd0)). lia.
    + exfalso. apply Hdn, list_elem_of_fmap. by exists inp'.
Qed.

(** Surgery keeps an acyclic graph acyclic when the replacement steps are
    acyclic among themselves and no old step already names a replacement id. *)
Theorem surgery_keeps_acyclic g ord now data g' rank rk :
  range_order (TaskGraph.Steps g) ord → wf_graph g →
  mutateGraphTopologyLocked g ord now data = (g', None) →
  ranked (TaskGraph.Steps g) rank →
  (∀ id s d, get_step g id = Some s → d ∈ Step.DependsOn s →
     d ∉ (StepInput.ID <$> ReplacementSteps data)) →
  (∀ inp d, inp ∈ ReplacementSteps data → d ∈ StepInput.DependsOn inp →
     d ∈ (StepInput.ID <$> ReplacementSteps data) → rk d < rk (StepInput.ID inp)) →
  ∃ rank', ranked (TaskGraph.Steps g') rank'.
Proof. exact (mutate_ranked g ord now data g' rank rk). Qed.

(** Surgery is not atomic: when it fails after the dead-end step was found
    (a replacement id is taken), the step has already been deprecated. *)
Theorem surgery_error_not_atomic g ord now data g' e s :
  range_order (TaskGraph.Steps g) ord → wf_graph g →
  get_step g (DeprecatedStepID data) = Some s →
  mutateGraphTopologyLocked g ord now data = (g', Some e) →
  get_step g' (DeprecatedStepID data) = Some (s <| Step.Status := StepDeprecated |>).
Proof.
  intros Ho Hwf Hs Hm. by eapply mutate_deprecates.
Qed.

(** Releasing the dependants gives the same graph whatever the order in
    which Go's range visits the steps. *)
Theorem release_order_independent g dep ord1 ord2 :
  range_order (TaskGraph.Steps g) ord1 → range_order (TaskGraph.Steps g) ord2 →
  releaseDeprecatedDeps g ord1 dep = releaseDeprecatedDeps g ord2 dep.
Proof. intros H1 H2. by rewrite !releaseDeprecatedDeps_eq. Qed.

(** ** Witnesses *)

(** [a] failed, [b] is blocked behind it, [audit] waits for it; [c] replaces [a]. *)
Definition ex_graph : TaskGraph.t :=
  blankGraph "t" [blankStep "a" StepFailed []; blankStep "b" StepBlocked ["a"];
                  (blankStep "audit" StepPending ["a"]) <| Step.RoleID := "auditor" |>].
Definition ex_data : SurgeryData := mkSurgery "a" [blankInput "c" ["a"]].
Definition ex_out : TaskGraph.t := (mutateGraphTopologyLocked ex_graph (keys (TaskGraph.Steps ex_graph)) 7 ex_data).1.

Lemma surgery_releases_witness :
  NoDup (StepInput.ID <$> ReplacementSteps ex_data) ∧
  ∃ s, get_step ex_out "a" = Some s ∧ Step.Status s = StepDeprecated.
Proof.
  destruct (surgery_releases ex_graph (keys (TaskGraph.Steps ex_graph)) 7 ex_data ex_out)
    as (H1 & _ & _ & H2).
  - apply keys_range_order.
  - apply wf_graphb_true. vm_compute. reflexivity.
  - vm_compute. reflexivity.
  - split; assumption.
Defined.

Lemma surgery_status_changes_witness :
  (Step.Status <$> get_step ex_graph "b", Step.Status <$> get_step ex_out "b")
    = (Some StepBlocked, Some StepPending) ∧
  hasPendingDecisionFor ex_graph "b" = false.
Proof.
  split; [vm_compute; reflexivity|].
  destruct (surgery_status_changes ex_graph (keys (TaskGraph.Steps ex_graph)) 7 ex_data ex_out None "b"
              (blankStep "b" StepBlocked ["a"]) (blankStep "b" StepPending [])) as [H|[H|H]].
  - apply keys_range_order.
  - apply wf_graphb_true. vm_compute. reflexivity.
  - vm_compute. reflexivity.
  - discriminate.
  - vm_compute. reflexivity.
  - vm_compute. reflexivity.
  - discriminate H.
  - destruct H as (H & _). discriminate H.
  - apply H.
Defined.

Lemma surgery_wf_witness : wf_graph ex_out.
Proof.
  apply (surgery_wf ex_graph (keys (TaskGraph.Steps ex_graph)) 7 ex_data ex_out None).
  - apply keys_range_order.
  - apply wf_graphb_true. vm_compute. reflexivity.
  - vm_compute. reflexivity.
Defined.

Lemma surgery_keeps_acyclic_witness : ∃ rank', ranked (TaskGraph.Steps ex_out) rank'.
Proof.
  apply (surgery_keeps_acyclic ex_graph (keys (TaskGraph.Steps ex_graph)) 7 ex_data ex_out
           (λ id, if decide (id = "a") then 0 else 1) (λ _, 0)).
  - apply keys_range_order.
  - apply wf_graphb_true. vm_compute. reflexivity.
  - vm_compute. reflexivity.
  - apply rankedb_true. vm_compute. reflexivity.
  - intros id s d Hs Hd.
    eapply (all_steps_true (λ _ s, forallb (λ d, bool_decide (d ∉ ["c"])) (Step.DependsOn s))) in Hs;
      [|vm_compute; reflexivity].
    rewrite forallb_forall in Hs. eapply bool_decide_unpack. apply Is_true_true, Hs.
    by apply list_elem_of_In.
  - intros inp d Hin Hd Hc. apply list_elem_of_singleton in Hin as ->.
    apply list_elem_of_singleton in Hd as ->. by apply list_elem_of_singleton in Hc.
Defined.

Definition ex_clash : SurgeryData := mkSurgery "a" [blankInput "b" []].
Lemma surgery_error_not_atomic_witness :
  get_step (mutateGraphTopologyLocked ex_graph (keys (TaskGraph.Steps ex_graph)) 7 ex_clash).1 "a"
  = Some (blankStep "a" StepDeprecated []).
Proof.
  apply (surgery_error_not_atomic ex_graph (keys (TaskGraph.Steps ex_graph)) 7 ex_clash _
           ("replacement step " +:+ go_quote "b" +:+ " already exists in graph")
           (blankStep "a" StepFailed [])).
  - apply keys_range_order.
  - apply wf_graphb_true. vm_compute. reflexivity.
  - vm_compute. reflexivity.
  - vm_compute. reflexivity.
Defined.

Lemma release_order_independent_witness :
  releaseDeprecatedDeps ex_graph ["a"; "b"; "audit"] "a" =
  releaseDeprecatedDeps ex_graph ["audit"; "b"; "a"] "a".
Proof.
  assert (H : range_order (TaskGraph.Steps ex_graph) ["a"; "b"; "audit"]).
  { unfold range_order. apply (bool_decide_unpack _). vm_compute. exact I. }
  assert (H' : range_order (TaskGraph.Steps ex_graph) ["audit"; "b"; "a"]).
  { unfold range_order. apply (bool_decide_unpack _). vm_compute. exact I. }
  exact (release_order_independent ex_graph "a" _ _ H H').
Defined.

(** Surgery does not look for cycles: two replacement steps that wait for each
    other are injected, and no step of the resulting graph is ever ready. *)
Definition ex_cycle : SurgeryData := mkSurgery "a" [blankInput "x" ["y"]; blankInput "y" ["x"]].
Example surgery_accepts_cycle :
  let r := mutateGraphTopologyLocked (blankGraph "t" [blankStep "a" StepFailed []]) ["a"] 7 ex_cycle in
  (r.2, ReadySteps r.1 (keys (TaskGraph.Steps r.1)), IsTerminal r.1) = (None, [], false).
Proof. vm_compute. reflexivity. Qed.
