(* ===== verification/DecisionAnswer.v ===== *)
(** * Answering a decision

    core/scheduler_decision_answer.go, core/scheduler_status_helpers.go, and
    from core/scheduler_status.go the approval choice and the lookups
    ([findPendingDecisionLocked], [getOrReloadGraphLocked]);
    core/scheduler_decision_type.go; [AppendSessionRole] of
    core/role_generator.go.

    JSON decoding, the model-written role and the provider registry are
    arguments ([AnswerEnv]).  A Go error becomes a constructor of
    [AnswerError]; the engine state at the moment of the error is returned with
    it, since some answers change the graph before they fail. *)

From S2P Require Import Prelude TaskStatus Schema FailureClass Surgery DecisionGate.
From Stdlib Require Import Ascii.

(** ** Data *)

(** The fields of [config.Role] the activation path reads or clears; [role_rest]
    is the rest of the draft. *)
Record DraftRole := mkDraftRole {
  role_ID : string;
  AllowDynamicMCPs : bool;
  AllowDynamicSkills : bool;
  Generatable : bool;
  MutableByAgent : bool;
  BoundMCPBindings : list string;
  role_rest : any
}.
#[export] Instance DraftRole_eta : Eta DraftRole := λ r,
  mkDraftRole (role_ID r) (AllowDynamicMCPs r) (AllowDynamicSkills r) (Generatable r)
    (MutableByAgent r) (BoundMCPBindings r) (role_rest r).
Definition any_of_role (r : DraftRole) : any :=
  AMap [("id", AString (role_ID r)); ("allow_dynamic_mcps", ABool (AllowDynamicMCPs r));
        ("allow_dynamic_skills", ABool (AllowDynamicSkills r)); ("generatable", ABool (Generatable r));
        ("mutable_by_agent", ABool (MutableByAgent r));
        ("bound_mcp_bindings", AStrings (BoundMCPBindings r)); ("rest", role_rest r)].

Inductive AnswerError :=
| ErrTaskNotFound (taskID : string)
| ErrInvalidSurgery (cause : string)
| ErrSurgery (cause : string)
| ErrInvalidCharter (cause : string)
| ErrDecisionNotFound (decisionID : string)
| ErrStepNotFound (stepID : string)
| ErrNoRoleID (stepID : string)
| ErrInvalidRole (cause : string)
| ErrRoleGeneration (cause : string)
| ErrAppendRole (cause : string)
| ErrReplanEmpty
| ErrReplanInvalid (cause : string)
| ErrReplanNoSteps
| ErrReplanSurgery (cause : string)
| ErrModelUnavailable (model : string)
| ErrUnknownChoice (choice : string).

(** What the handlers call outside the modelled code. *)
Record AnswerEnv := mkEnv {
  decode_surgery : string → result string SurgeryData;
  decode_charter : string → result string TaskCharter.t;
  decode_map : string → option (list (string * any));
  decode_role : string → result string DraftRole;
  generate_role : string → string → string → string → result string (DraftRole * option (string * any));
  model_available : string → bool;
  load_manifest : string → option TaskGraph.t
}.

(** The engine maps an answer touches; a done channel is its closed flag. *)
Record Engine := mkEngine {
  graphs : gmap string TaskGraph.t;
  doneChans : gmap string bool;
  cancelFuncs : gset string;
  eng_out : list Output
}.
#[export] Instance Engine_eta : Eta Engine := λ e,
  mkEngine (graphs e) (doneChans e) (cancelFuncs e) (eng_out e).
Definition emits (l : list Output) (e : Engine) : Engine := e <| eng_out ::= λ o, o ++ l |>.
Definition store_graph (taskID : string) (g : TaskGraph.t) (e : Engine) : Engine :=
  e <| graphs ::= insert taskID g |>.

(** ** Lookups *)

Definition getOrReloadGraphLocked (env : AnswerEnv) (taskID : string) (e : Engine)
    : Engine * option TaskGraph.t :=
  match graphs e !! taskID with
  | Some g => (e, Some g)
  | None =>
      match load_manifest env taskID with
      | Some g => (store_graph taskID g e, Some g)
      | None => (e, None)
      end
  end.

Fixpoint find_decision (i : nat) (l : list Decision.t) (decisionID : string) : option (Decision.t * nat) :=
  match l with
  | [] => None
  | d :: l' => if decide (Decision.ID d = decisionID) then Some (d, i) else find_decision (S i) l' decisionID
  end.
Definition findPendingDecisionLocked (g : TaskGraph.t) (decisionID : string) : option (Decision.t * nat) :=
  find_decision 0 (TaskGraph.PendingDecisions g) decisionID.

Definition PendingDecisionType (env : AnswerEnv) (taskID decisionID : string) (e : Engine)
    : Engine * option DecisionType :=
  let '(e, og) := getOrReloadGraphLocked env taskID e in
  (e, g ← og; Decision.Type_ ∘ fst <$> findPendingDecisionLocked g decisionID).

(** ** Approval *)

Definition as_strings (l : list any) : list string :=
  omap (λ v, match v with AString s => Some s | _ => None end) l.
Definition decisionApprovalIDs (dec : Decision.t) (key : string) : list string :=
  match Decision.Context dec !! key with
  | Some (AStrings l) => l
  | Some (AList l) => as_strings l
  | _ => []
  end.
Definition decisionApprovalMounts (dec : Decision.t) : list string :=
  decisionApprovalIDs dec "approval_required_mounts".

Definition context_string (dec : Decision.t) (key : string) : string :=
  default "" (as_string (Decision.Context dec !! key)).

(** The requeue most answers share. *)
Definition requeue (st : Step.t) : Step.t :=
  st <| Step.Status := StepPending |> <| Step.RetryCount := 0%Z |> <| Step.LastError := "" |>.

Definition applyApproveChoice (now : Z) (stepID : string) (dec : Decision.t) (g : TaskGraph.t) : TaskGraph.t :=
  let mounts := decisionApprovalMounts dec in
  let skills := decisionApprovalIDs dec "approval_required_skills" in
  if bool_decide (mounts ≠ []) || bool_decide (skills ≠ []) then
    let approverID := context_string dec "_resolver_owner_id" in
    let channel := context_string dec "_resolver_channel" in
    let g := ApproveMCPMounts mounts approverID channel now g in
    let g := ApproveSkillMounts skills approverID channel now g in
    upd_step stepID requeue g
  else upd_step stepID (λ st, st <| Step.Status := StepOK |>) g.

(** ** create_role *)

Definition truncate40 (s : string) : string :=
  if 40 <? String.length s then String.substring 0 40 s else s.
Definition AppendSessionRole (g : TaskGraph.t) (taskID : string) (role : DraftRole)
    : result string (string * TaskGraph.t) :=
  if decide (role_ID role = "") then Err "AppendSessionRole: role and role.id are required"
  else
    let role := role <| AllowDynamicMCPs := false |> <| AllowDynamicSkills := false |>
                     <| Generatable := false |> <| MutableByAgent := false |> <| BoundMCPBindings := [] |> in
    let scoped := ("ephemeral_" +:+ taskID +:+ "_" +:+ truncate40 (role_ID role))%string in
    let role := role <| role_ID := scoped |> in
    Ok (scoped, SetSessionRole scoped (any_of_role role) g).

Definition record_synthesis (scopedID roleID : string) (st : Step.t) : Step.t :=
  let md := default (zeroMetadata <| Metadata.Namespace := "role_gen" |> <| Metadata.Version := "1" |>)
              (Step.Metadata st) in
  st <| Step.Metadata := Some (md <| Metadata.Data ::= λ m,
       <["requested_role_id" := AString roleID]> (<["synthesized_role_id" := AString scopedID]> m) |>) |>.

(** The draft: the caller's payload wins over the generator. *)
Definition role_draft (env : AnswerEnv) (taskID stepID roleID task payload : string) (g : TaskGraph.t)
    : result AnswerError (DraftRole * TaskGraph.t) :=
  if decide (TrimSpace payload = "") then
    match generate_role env taskID stepID roleID task with
    | Err e => Err (ErrRoleGeneration e)
    | Ok (role, Some (skillID, skill)) => Ok (role, SetSessionSkill skillID skill g)
    | Ok (role, None) => Ok (role, g)
    end
  else match decode_role env payload with
       | Err e => Err (ErrInvalidRole e)
       | Ok role => Ok (role, g)
       end.

Definition applyCreateRoleChoiceLocked (env : AnswerEnv) (taskID decisionID payload : string)
    (step : Step.t) (dec : Decision.t) (g : TaskGraph.t)
    : TaskGraph.t * list Output * option AnswerError :=
  let fromContext := context_string dec "role_id" in
  let roleID := if decide (fromContext = "") then Step.RoleID step else fromContext in
  if decide (roleID = "") then (g, [], Some (ErrNoRoleID (Decision.StepID dec)))
  else
    match role_draft env taskID (Decision.StepID dec) roleID (Step.Task step) payload g with
    | Err e => (g, [], Some e)
    | Ok (draft, g1) =>
        let draft := if decide (role_ID draft = "") then draft <| role_ID := roleID |> else draft in
        match AppendSessionRole g1 taskID draft with
        | Err e => (g1, [], Some (ErrAppendRole e))
        | Ok (scopedID, g2) =>
            (upd_step (Decision.StepID dec) (λ st,
               record_synthesis scopedID roleID
                 (requeue (if decide (Step.RoleID st = roleID) then st <| Step.RoleID := scopedID |> else st))) g2,
             [OAudit "createRoleSessionDraft" taskID (Decision.StepID dec) decisionID
                scopedID roleID []],
             None)
        end
    end.

(** ** The charter *)

Definition applyGoalChangeLocked (env : AnswerEnv) (payload : string) (g : TaskGraph.t)
    : TaskGraph.t * option AnswerError :=
  match decode_charter env payload with
  | Err e => (g, Some (ErrInvalidCharter e))
  | Ok newCharter =>
      let version := match TaskGraph.Charter g with
                     | Some c => wrap64 (TaskCharter.Version c + 1)
                     | None => 1%Z
                     end in
      (g <| TaskGraph.Charter := Some (newCharter <| TaskCharter.Version := version |>) |>, None)
  end.

(** ** The choice *)

Definition clear_delta (st : Step.t) : Step.t :=
  st <| Step.Metadata ::= fmap (λ md, md <| Metadata.DeltaBacktrack := false |>) |>.
Definition clear_backtrack (st : Step.t) : Step.t :=
  clear_delta (st <| Step.PreviousOutputSummary := "" |> <| Step.AdditionalPromptContext := "" |>).

Definition retry_choice (stepID : string) (g : TaskGraph.t) : TaskGraph.t :=
  let g := upd_step stepID (λ st, clear_backtrack (requeue st)) g in
  match get_step g stepID with
  | Some st => foldl (λ g depID, upd_step depID clear_backtrack g) g (Step.DependsOn st)
  | None => g
  end.

(** The tool-turn bonus: another chunk, at most four of them. *)
Definition turns_chunk (cfg : option SystemConfig) : Z :=
  match cfg with
  | Some c => if decide (0 < MaxToolTurns c)%Z then MaxToolTurns c else 50%Z
  | None => 50%Z
  end.
Definition grant_turns (chunk bonus : Z) : Z :=
  let bonus := wrap64 (bonus + chunk) in
  let cap := wrap64 (chunk * 4) in
  if decide (cap < bonus)%Z then cap else bonus.

Definition refine_choice (dec : Decision.t) (st : Step.t) : Step.t :=
  let st := clear_delta (st <| Step.Status := StepPending |> <| Step.RetryCount := 0%Z |>
                            <| Step.PreviousOutputSummary := "" |>) in
  match as_string (Decision.Context dec !! "feedback") with
  | Some feedback => st <| Step.AdditionalPromptContext := feedback |>
  | None => st
  end.

Definition modify_choice (env : AnswerEnv) (payload : string) (st : Step.t) : Step.t :=
  let st := st <| Step.Status := StepPending |> in
  if decide (payload = "") then st
  else match decode_map env payload with
       | Some m => match as_string (amap_get m "task") with
                   | Some task => st <| Step.Task := task |>
                   | None => st
                   end
       | None => st
       end.

(** The answers of the form [prefix:argument]. *)
Definition prefixed_choice (cfg : option SystemConfig) (env : AnswerEnv) (stepID choice : string)
    (g : TaskGraph.t) : TaskGraph.t * list Output * option AnswerError :=
  if has_prefix "retry_with_skill:" choice then
    let skill := TrimPrefix choice "retry_with_skill:" in
    (upd_step stepID (λ st, requeue (st <| Step.AdditionalSkills ::= λ l, l ++ [skill] |>)) g, [], None)
  else if has_prefix "retry_with_context:" choice then
    let ctxData := TrimPrefix choice "retry_with_context:" in
    (upd_step stepID (λ st, st <| Step.AdditionalPromptContext := ctxData |>
                               <| Step.Status := StepPending |> <| Step.RetryCount := 0%Z |>) g, [], None)
  else if has_prefix "escalate_model:" choice then
    let model := TrimPrefix choice "escalate_model:" in
    if bool_decide (is_Some cfg) && negb (model_available env model)
    then (g, [], Some (ErrModelUnavailable model))
    else (upd_step stepID (λ st, st <| Step.ProviderOverride := model |>
                               <| Step.Status := StepPending |> <| Step.RetryCount := 0%Z |>) g, [], None)
  else (g, [], Some (ErrUnknownChoice choice)).

(** [replan]: the caller's surgery, else the planner's, injected by surgery. *)
Definition replan_choice (env : AnswerEnv) (ord : list string) (now : Z) (dec : Decision.t)
    (payload : string) (g : TaskGraph.t) : TaskGraph.t * list Output * option AnswerError :=
  let surgeryJSON :=
    if decide (TrimSpace payload = "") then
      match as_string (Decision.Context dec !! "planner_replan") with Some v => v | None => payload end
    else payload in
  if decide (TrimSpace surgeryJSON = "") then (g, [], Some ErrReplanEmpty)
  else match decode_surgery env surgeryJSON with
       | Err e => (g, [], Some (ErrReplanInvalid e))
       | Ok data =>
           let data := mkSurgery (if decide (DeprecatedStepID data = "") then Decision.StepID dec
                                  else DeprecatedStepID data) (ReplacementSteps data) in
           if decide (ReplacementSteps data = []) then (g, [], Some ErrReplanNoSteps)
           else match mutateGraphTopologyLocked g ord now data with
                | (g', None) => (g', [], None)
                | (g', Some e) => (g', [], Some (ErrReplanSurgery e))
                end
       end.

(** [applyDecisionChoiceLocked]: [dec] is the parked decision, [stepID] its
    step; [hasCancel] says whether a cancel function is registered. *)
Definition applyDecisionChoiceLocked (cfg : option SystemConfig) (env : AnswerEnv) (ord : list string)
    (now : Z) (hasCancel : bool) (taskID stepID choice payload : string) (dec : Decision.t)
    (g : TaskGraph.t) : TaskGraph.t * list Output * option AnswerError :=
  let on_step f := (upd_step stepID f g, [], None) in
  if decide (choice = "rewrite_dag") then (g, [], None)
  else if decide (choice = "skip") then on_step (λ st, st <| Step.Status := StepSkipped |>)
  else if decide (choice = "abort") then (g <| TaskGraph.Status := GraphFailed |>, [], None)
  else if decide (choice = "retry") then (retry_choice stepID g, [], None)
  else if decide (choice = "resume_more_turns") then
    on_step (λ st, requeue (st <| Step.TurnsBudgetBonus ::= grant_turns (turns_chunk cfg) |>))
  else if decide (choice = "refine_and_retry") then on_step (refine_choice dec)
  else if decide (choice = "approve") then (applyApproveChoice now stepID dec g, [], None)
  else if decide (choice = "reject") then
    on_step (λ st, st <| Step.Status := StepFailed |> <| Step.LastError := "human_rejected" |>)
  else if decide (choice = "confirm_abort") then
    (g <| TaskGraph.Status := GraphFailed |> <| TaskGraph.BudgetPaused := true |>,
     if hasCancel then [OCancel taskID] else [], None)
  else if decide (choice = "continue") then on_step (λ st, st <| Step.Status := StepPending |>)
  else if decide (choice = "modify_and_resume") then on_step (modify_choice env payload)
  else if decide (choice = "create_skill") then on_step requeue
  else if decide (choice = "create_role") then (g, [], None)
  else if decide (choice = "goal_change_requested") then (g, [], None)
  else if decide (choice = "replan") then replan_choice env ord now dec payload g
  else prefixed_choice cfg env stepID choice g.

(** ** Submitting *)

(** The terminal status of a graph without a run loop, from its step states. *)
Definition step_states (g : TaskGraph.t) : list StepStatus :=
  (λ kv, Step.Status kv.2) <$> map_to_list (TaskGraph.Steps g).
Definition smart_routed_status (g : TaskGraph.t) : GraphStatus :=
  let anyFailed := existsb (λ st, match st with StepFailed | StepBlocked => true | _ => false end) (step_states g) in
  let allSkipped := forallb (λ st, match st with StepFailed | StepBlocked | StepSkipped => true | _ => false end)
                      (step_states g) in
  if anyFailed then GraphFailed else if allSkipped then GraphCompletedWithSkips else GraphCompleted.

(** [finalizeSmartRoutedAfterDecision]: [None] when it does not apply. *)
Definition finalizeSmartRoutedAfterDecision (taskID stepID : string) (g : TaskGraph.t) (e : Engine)
    : option Engine :=
  if negb (TaskGraph.IsSmartRouted g) || bool_decide (TaskGraph.PendingDecisions g ≠ []) then None
  else
    let g := g <| TaskGraph.Status := smart_routed_status g |> in
    let e := store_graph taskID g e in
    let e := e <| doneChans ::= alter (λ _, true) taskID |> in
    Some (emits [OPersist g;
                 OEvent (if decide (TaskGraph.Status g = GraphFailed) then "task_failed" else "task_completed")
                   taskID stepID] e).

Definition remove_decision (decisionID : string) (g : TaskGraph.t) : TaskGraph.t :=
  g <| TaskGraph.PendingDecisions ::= filter (λ d, Decision.ID d ≠ decisionID) |>.

Definition count_skip (choice : string) (g : TaskGraph.t) : TaskGraph.t :=
  if decide (choice = "skip") then g <| TaskGraph.ConsecutiveSkips ::= λ n, wrap64 (n + 1) |>
  else g <| TaskGraph.ConsecutiveSkips := 0%Z |>.

(** The two answers applied before the decision is looked up. *)
Definition pre_lookup (env : AnswerEnv) (ord : list string) (now : Z) (choice payload : string)
    (g : TaskGraph.t) : TaskGraph.t * option AnswerError :=
  if decide (choice = "rewrite_dag") then
    match decode_surgery env payload with
    | Err e => (g, Some (ErrInvalidSurgery e))
    | Ok data => match mutateGraphTopologyLocked g ord now data with
                 | (g', None) => (g', None)
                 | (g', Some e) => (g', Some (ErrSurgery e))
                 end
    end
  else if decide (choice = "goal_change_requested") then applyGoalChangeLocked env payload g
  else (g, None).

(** After the answer was applied: remove the decision, then finalize or persist. *)
Definition settle (taskID stepID decisionID choice : string) (g : TaskGraph.t) (e : Engine) : Engine :=
  let g := remove_decision decisionID (count_skip choice g) in
  let persist e := emits [OPersist g; OBroadcast] (store_graph taskID g e) in
  match TaskGraph.PendingDecisions g with
  | [] =>
      match finalizeSmartRoutedAfterDecision taskID stepID g e with
      | Some e' => e'
      | None => persist (e <| doneChans ::= insert taskID false |>)
      end
  | _ => persist e
  end.

Definition create_role_first (env : AnswerEnv) (taskID decisionID choice payload : string) (step : Step.t)
    (dec : Decision.t) (g : TaskGraph.t) : TaskGraph.t * list Output * option AnswerError :=
  if decide (choice = "create_role") then applyCreateRoleChoiceLocked env taskID decisionID payload step dec g
  else (g, [], None).

Definition SubmitDecisionWithPayload (cfg : option SystemConfig) (env : AnswerEnv) (ord : list string)
    (now : Z) (taskID decisionID choice payload : string) (e : Engine) : Engine * option AnswerError :=
  match getOrReloadGraphLocked env taskID e with
  | (e, None) => (e, Some (ErrTaskNotFound taskID))
  | (e, Some g) =>
      match pre_lookup env ord now choice payload g with
      | (g, Some err) => (store_graph taskID g e, Some err)
      | (g, None) =>
          let e := store_graph taskID g e in
          match findPendingDecisionLocked g decisionID with
          | None => (e, Some (ErrDecisionNotFound decisionID))
          | Some (dec, _) =>
              let stepID := Decision.StepID dec in
              match get_step g stepID with
              | None => (e, Some (ErrStepNotFound stepID))
              | Some step =>
                  match create_role_first env taskID decisionID choice payload step dec g with
                  | (g, out, Some err) => (store_graph taskID g (emits out e), Some err)
                  | (g, out, None) =>
                      let e := emits (out ++ [OAudit "submitDecision" taskID stepID decisionID
                                                (decision_string (Decision.Type_ dec)) choice
                                                (Decision.Options dec)]) e in
                      match applyDecisionChoiceLocked cfg env ord now (bool_decide (taskID ∈ cancelFuncs e))
                              taskID stepID choice payload dec g with
                      | (g, out, Some err) => (store_graph taskID g (emits out e), Some err)
                      | (g, out, None) =>
                          (settle taskID stepID decisionID choice g (emits out e), None)
                      end
                  end
              end
          end
      end
  end.

Definition SubmitDecision (cfg : option SystemConfig) (env : AnswerEnv) (ord : list string) (now : Z)
    (taskID decisionID choice : string) (e : Engine) : Engine * option AnswerError :=
  SubmitDecisionWithPayload cfg env ord now taskID decisionID choice "" e.

(** ** What the handlers leave alone

    No answer touches the parked decisions, the skip counter, the task's id or
    its routing: [SubmitDecisionWithPayload] alone settles those. *)

Record frame (g g' : TaskGraph.t) : Prop := mk_frame {
  frame_pending : TaskGraph.PendingDecisions g' = TaskGraph.PendingDecisions g;
  frame_skips : TaskGraph.ConsecutiveSkips g' = TaskGraph.ConsecutiveSkips g;
  frame_smart : TaskGraph.IsSmartRouted g' = TaskGraph.IsSmartRouted g;
  frame_task : TaskGraph.TaskID g' = TaskGraph.TaskID g
}.
#[export] Instance frame_preorder : PreOrder frame.
Proof.
  split; [done|]. intros a b c [] []. split; congruence.
Qed.

Lemma frame_upd id f g : frame g (upd_step id f g).
Proof. done. Qed.
Lemma frame_fold {A} (f : TaskGraph.t → A → TaskGraph.t) l g :
  (∀ g x, frame g (f g x)) → frame g (foldl f g l).
Proof. intros Hf. revert g. induction l as [|x l IH]; intros g; [done|]. cbn. etrans; [apply Hf|apply IH]. Qed.

Lemma frame_mutate g ord now data : frame g (mutateGraphTopologyLocked g ord now data).1.
Proof. destruct (mutate_untouched g ord now data) as [? ? ? ? _]. by constructor. Qed.

#[local] Hint Resolve frame_upd frame_mutate : core.
#[local] Hint Extern 0 (frame ?g ?g) => reflexivity : core.

Lemma frame_pre_lookup env ord now choice payload g : frame g (pre_lookup env ord now choice payload g).1.
Proof.
  unfold pre_lookup, applyGoalChangeLocked.
  destruct (decide (choice = "rewrite_dag")); [|destruct (decide (choice = "goal_change_requested")); [|done]].
  - destruct (decode_surgery env payload) as [data|]; [|done].
    pose proof (frame_mutate g ord now data) as Hm.
    destruct (mutateGraphTopologyLocked g ord now data) as [g' [er|]]; exact Hm.
  - destruct (decode_charter env payload); done.
Qed.

Lemma frame_create_role env taskID decisionID payload step dec g :
  frame g (applyCreateRoleChoiceLocked env taskID decisionID payload step dec g).1.1.
Proof.
  unfold applyCreateRoleChoiceLocked. cbv zeta. generalize (if decide (context_string dec "role_id" = "") then Step.RoleID step else context_string dec "role_id").
  intros roleID. case_decide; [done|].
  destruct (role_draft _ _ _ _ _ _ _) as [[draft g1]|] eqn:E; [|done].
  assert (frame g g1) as H1.
  { unfold role_draft in E. case_decide; [destruct (generate_role _ _ _ _ _) as [[r [[? ?]|]]|]|
      destruct (decode_role _ _)]; simplify_eq/=; done. }
  destruct (AppendSessionRole _ _ _) as [[sid g2]|] eqn:E2; [|done].
  assert (frame g1 g2) as H2.
  { unfold AppendSessionRole in E2. case_decide; [done|]. by simplify_eq/=. }
  cbn [fst]. etrans; [exact H1|]. etrans; [exact H2|]. done.
Qed.

Lemma frame_approve now stepID dec g : frame g (applyApproveChoice now stepID dec g).
Proof. unfold applyApproveChoice. cbv zeta. by destruct (_ || _). Qed.

Lemma frame_retry stepID g : frame g (retry_choice stepID g).
Proof.
  unfold retry_choice. cbv zeta. destruct (get_step _ _); [|done].
  etrans; [apply frame_upd|]. apply frame_fold. done.
Qed.

Lemma frame_replan env ord now dec payload g : frame g (replan_choice env ord now dec payload g).1.1.
Proof.
  unfold replan_choice. cbv zeta.
  generalize (if decide (TrimSpace payload = "")
    then match as_string (Decision.Context dec !! "planner_replan") with Some v => v | None => payload end
    else payload). intros js.
  case_decide; [done|]. destruct (decode_surgery env js) as [data|]; [|done].
  case_decide; [done|].
  match goal with |- context [mutateGraphTopologyLocked ?a ?b ?c ?d] =>
    pose proof (frame_mutate a b c d) as Hm; destruct (mutateGraphTopologyLocked a b c d) as [g' [er|]] end; exact Hm.
Qed.

Lemma frame_prefixed cfg env stepID choice g : frame g (prefixed_choice cfg env stepID choice g).1.1.
Proof. unfold prefixed_choice. cbv zeta. repeat (case_match; try done). Qed.

Lemma frame_apply cfg env ord now hc taskID stepID choice payload dec g :
  frame g (applyDecisionChoiceLocked cfg env ord now hc taskID stepID choice payload dec g).1.1.
Proof.
  unfold applyDecisionChoiceLocked. cbv zeta.
  repeat (case_decide; [first [apply frame_retry|apply frame_approve|apply frame_replan|done]|]).
  apply frame_prefixed.
Qed.

(** ** The graph a submission leaves *)

Definition settled (decisionID choice : string) (g : TaskGraph.t) : TaskGraph.t :=
  let g := remove_decision decisionID (count_skip choice g) in
  if decide (TaskGraph.IsSmartRouted g = true ∧ TaskGraph.PendingDecisions g = [])
  then g <| TaskGraph.Status := smart_routed_status g |> else g.

Lemma settle_graphs taskID stepID decisionID choice g e :
  graphs (settle taskID stepID decisionID choice g e) =
  <[taskID := settled decisionID choice g]> (graphs e).
Proof.
  unfold settle, settled. cbv zeta.
  generalize (remove_decision decisionID (count_skip choice g)). intros h.
  destruct (TaskGraph.PendingDecisions h) as [|d l] eqn:E.
  - unfold finalizeSmartRoutedAfterDecision. rewrite E. cbn [bool_decide].
    rewrite (bool_decide_false ([] ≠ [])) by (intros H; by apply H). rewrite orb_false_r.
    destruct (TaskGraph.IsSmartRouted h) eqn:Es; cbn [negb]; case_decide; naive_solver.
  - rewrite decide_False; [done|]. intros [_ ?]. done.
Qed.

Lemma count_skip_frame choice g :
  TaskGraph.PendingDecisions (count_skip choice g) = TaskGraph.PendingDecisions g ∧
  TaskGraph.IsSmartRouted (count_skip choice g) = TaskGraph.IsSmartRouted g ∧
  TaskGraph.Steps (count_skip choice g) = TaskGraph.Steps g ∧
  TaskGraph.Status (count_skip choice g) = TaskGraph.Status g ∧
  TaskGraph.ConsecutiveSkips (count_skip choice g) =
    (if decide (choice = "skip") then wrap64 (TaskGraph.ConsecutiveSkips g + 1) else 0%Z).
Proof. unfold count_skip. by case_decide. Qed.

Lemma settled_fields decisionID choice g :
  TaskGraph.PendingDecisions (settled decisionID choice g) =
    filter (λ d, Decision.ID d ≠ decisionID) (TaskGraph.PendingDecisions g) ∧
  TaskGraph.Steps (settled decisionID choice g) = TaskGraph.Steps g ∧
  TaskGraph.ConsecutiveSkips (settled decisionID choice g) =
    (if decide (choice = "skip") then wrap64 (TaskGraph.ConsecutiveSkips g + 1) else 0%Z) ∧
  TaskGraph.Status (settled decisionID choice g) =
    (if decide (TaskGraph.IsSmartRouted g = true ∧
                filter (λ d, Decision.ID d ≠ decisionID) (TaskGraph.PendingDecisions g) = [])
     then smart_routed_status g else TaskGraph.Status g).
Proof.
  destruct (count_skip_frame choice g) as (H1 & H2 & H3 & H4 & H5).
  assert (smart_routed_status (remove_decision decisionID (count_skip choice g)) = smart_routed_status g) as H6.
  { unfold smart_routed_status, step_states. cbn. by rewrite H3. }
  assert (TaskGraph.PendingDecisions (remove_decision decisionID (count_skip choice g)) =
    filter (λ d, Decision.ID d ≠ decisionID) (TaskGraph.PendingDecisions g)) as H7 by by cbn; rewrite H1.
  unfold settled. cbv zeta. rewrite H7.
  change (TaskGraph.IsSmartRouted (remove_decision decisionID (count_skip choice g)))
    with (TaskGraph.IsSmartRouted (count_skip choice g)). rewrite H2.
  destruct (decide (TaskGraph.IsSmartRouted g = true ∧ _)); split_and!; first [exact H7|exact H3|exact H5|exact H6|exact H4].
Qed.

Lemma find_decision_spec i l id dec j :
  find_decision i l id = Some (dec, j) → dec ∈ l ∧ Decision.ID dec = id.
Proof.
  revert i. induction l as [|d l IH]; intros i; cbn; [done|]. case_decide.
  - intros [= <- <-]. split; [left|done].
  - intros H'%IH. destruct H'. split; [by right|done].
Qed.
Lemma find_decision_None i l id :
  find_decision i l id = None ↔ ∀ d, d ∈ l → Decision.ID d ≠ id.
Proof.
  revert i. induction l as [|d l IH]; intros i; cbn.
  - split; [|done]. intros _ d Hd. by apply elem_of_nil in Hd.
  - case_decide as Hd.
    + split; [done|]. intros H'. exfalso. apply (H' d); [left|done].
    + rewrite IH. setoid_rewrite elem_of_cons. naive_solver.
Qed.

(** A successful submission, stage by stage. *)
Lemma submit_ok_inv cfg env ord now taskID decisionID choice payload e e' :
  SubmitDecisionWithPayload cfg env ord now taskID decisionID choice payload e = (e', None) →
  ∃ e0 g0 g1 dec i step g2 o2 g3 o3 e3,
    getOrReloadGraphLocked env taskID e = (e0, Some g0) ∧
    pre_lookup env ord now choice payload g0 = (g1, None) ∧
    findPendingDecisionLocked g1 decisionID = Some (dec, i) ∧
    get_step g1 (Decision.StepID dec) = Some step ∧
    create_role_first env taskID decisionID choice payload step dec g1 = (g2, o2, None) ∧
    applyDecisionChoiceLocked cfg env ord now (bool_decide (taskID ∈ cancelFuncs e0)) taskID
      (Decision.StepID dec) choice payload dec g2 = (g3, o3, None) ∧
    graphs e3 = <[taskID := g1]> (graphs e0) ∧
    e' = settle taskID (Decision.StepID dec) decisionID choice g3 e3.
Proof.
  unfold SubmitDecisionWithPayload.
  destruct (getOrReloadGraphLocked env taskID e) as [e0 [g0|]]; [|done].
  destruct (pre_lookup env ord now choice payload g0) as [g1 [er|]] eqn:E1; [done|].
  cbv zeta. destruct (findPendingDecisionLocked g1 decisionID) as [[dec i]|] eqn:E2; [|done].
  destruct (get_step g1 (Decision.StepID dec)) as [step|] eqn:E3; [|done].
  destruct (create_role_first env taskID decisionID choice payload step dec g1) as [[g2 o2] [er|]] eqn:E4; [done|].
  match goal with |- context [applyDecisionChoiceLocked ?a ?b ?c ?d ?h ?f ?k ?l ?m ?n ?o] =>
    destruct (applyDecisionChoiceLocked a b c d h f k l m n o) as [[g3 o3] [er|]] eqn:E5 end; [done|].
  intros [= <-]. exists e0, g0, g1, dec, i, step, g2, o2, g3, o3. eexists.
  do 6 (split; [done|]). split; [|reflexivity]. reflexivity.
Qed.

Lemma frame_create_role_first env taskID decisionID choice payload step dec g :
  frame g (create_role_first env taskID decisionID choice payload step dec g).1.1.
Proof. unfold create_role_first. case_decide; [apply frame_create_role|done]. Qed.

(** The graph the engine holds for the task, in memory or on disk. *)
Definition held_graph (env : AnswerEnv) (taskID : string) (e : Engine) : option TaskGraph.t :=
  (getOrReloadGraphLocked env taskID e).2.

Lemma getOrReload_held env taskID e e0 g :
  getOrReloadGraphLocked env taskID e = (e0, Some g) →
  graphs e0 !! taskID = Some g ∧ (∀ t, t ≠ taskID → graphs e0 !! t = graphs e !! t) ∧
  <[taskID := g]> (graphs e0) = graphs e0.
Proof.
  unfold getOrReloadGraphLocked. destruct (graphs e !! taskID) as [h|] eqn:E.
  - intros [= <- <-]. split; [done|]. split; [done|]. by apply insert_id.
  - destruct (load_manifest env taskID) as [h|]; [|done]. intros [= <- <-]. cbn.
    split; [apply lookup_insert_eq|]. split; [|by rewrite insert_insert_eq].
    intros t Hne. by rewrite lookup_insert_ne by done.
Qed.

(** A successful answer consumes exactly its decision.  The decision was
    parked, no decision with its id is left, the other parked decisions keep
    their order, the skip counter is advanced by "skip" and reset by any other
    answer, and no other task's graph changes. *)
Theorem submit_consumes_decision cfg env ord now taskID decisionID choice payload e e' :
  SubmitDecisionWithPayload cfg env ord now taskID decisionID choice payload e = (e', None) →
  ∃ g g', held_graph env taskID e = Some g ∧ graphs e' !! taskID = Some g' ∧
    (∃ dec, dec ∈ TaskGraph.PendingDecisions g ∧ Decision.ID dec = decisionID) ∧
    TaskGraph.PendingDecisions g' =
      filter (λ d, Decision.ID d ≠ decisionID) (TaskGraph.PendingDecisions g) ∧
    TaskGraph.ConsecutiveSkips g' =
      (if decide (choice = "skip") then wrap64 (TaskGraph.ConsecutiveSkips g + 1) else 0%Z) ∧
    (∀ t, t ≠ taskID → graphs e' !! t = graphs e !! t).
Proof.
  intros (e0 & g0 & g1 & dec & i & step & g2 & o2 & g3 & o3 & e3 & H0 & H1 & H2 & H3 & H4 & H5 & H6 & ->)%submit_ok_inv.
  pose proof (frame_pre_lookup env ord now choice payload g0) as F1. rewrite H1 in F1.
  pose proof (frame_create_role_first env taskID decisionID choice payload step dec g1) as F2. rewrite H4 in F2.
  pose proof (frame_apply cfg env ord now (bool_decide (taskID ∈ cancelFuncs e0)) taskID (Decision.StepID dec)
    choice payload dec g2) as F3. rewrite H5 in F3. cbn [fst] in *.
  assert (frame g0 g3) as F by (etrans; [exact F1|]; etrans; [exact F2|exact F3]).
  destruct (settled_fields decisionID choice g3) as (S1 & _ & S2 & _).
  exists g0, (settled decisionID choice g3). unfold held_graph. rewrite H0.
  split; [done|]. rewrite settle_graphs, H6. split; [apply lookup_insert_eq|].
  split; [|split; [|split]].
  - apply find_decision_spec in H2. rewrite (frame_pending _ _ F1) in H2. by exists dec.
  - by rewrite S1, (frame_pending _ _ F).
  - by rewrite S2, (frame_skips _ _ F).
  - intros t Ht. apply getOrReload_held in H0 as (_ & Ho & _). rewrite !lookup_insert_ne by done. by apply Ho.
Qed.

Lemma store_graph_id taskID g e : graphs e !! taskID = Some g → store_graph taskID g e = e.
Proof.
  intros H. destruct e as [gs dc cf out].
  change (mkEngine (<[taskID := g]> gs) dc cf out = mkEngine gs dc cf out). by rewrite insert_id.
Qed.

(** The answers applied before the decision is looked up. *)
Definition applied_early (choice : string) : Prop :=
  choice = "rewrite_dag" ∨ choice = "goal_change_requested".
Lemma pre_lookup_other env ord now choice payload g :
  ¬ applied_early choice → pre_lookup env ord now choice payload g = (g, None).
Proof. unfold applied_early, pre_lookup. intros H. by rewrite !decide_False by tauto. Qed.

(** A decision that is not parked on a task in memory. *)
Definition gone (taskID decisionID : string) (e : Engine) : Prop :=
  ∃ g, graphs e !! taskID = Some g ∧ findPendingDecisionLocked g decisionID = None.
Lemma submit_gone cfg env ord now taskID decisionID choice payload e e' :
  SubmitDecisionWithPayload cfg env ord now taskID decisionID choice payload e = (e', None) → gone taskID decisionID e'.
Proof.
  intros (e0 & g0 & g1 & dec & i & step & g2 & o2 & g3 & o3 & e3 & H0 & H1 & H2 & H3 & H4 & H5 & H6 & ->)%submit_ok_inv.
  destruct (settled_fields decisionID choice g3) as (S1 & _). exists (settled decisionID choice g3).
  split; [by rewrite settle_graphs, lookup_insert_eq|]. apply (proj2 (find_decision_None 0 _ decisionID)).
  rewrite S1. by intros d [? _]%list_elem_of_filter.
Qed.
Lemma gone_submit cfg env ord now taskID decisionID choice payload e :
  gone taskID decisionID e → ¬ applied_early choice →
  SubmitDecisionWithPayload cfg env ord now taskID decisionID choice payload e = (e, Some (ErrDecisionNotFound decisionID)).
Proof.
  intros (g & Hg & Hf) Hc. unfold SubmitDecisionWithPayload, getOrReloadGraphLocked. rewrite Hg.
  rewrite pre_lookup_other by done. rewrite store_graph_id by done. by rewrite Hf.
Qed.

(** A decision is answered at most once.  After a successful answer,
    submitting the same decision again (with any answer that is not applied
    before the lookup) reports that it does not exist and changes nothing. *)
Theorem decision_answered_once cfg env ord now taskID decisionID choice payload e e'
    cfg' ord' now' choice' payload' :
  SubmitDecisionWithPayload cfg env ord now taskID decisionID choice payload e = (e', None) →
  ¬ applied_early choice' →
  SubmitDecisionWithPayload cfg' env ord' now' taskID decisionID choice' payload' e' =
    (e', Some (ErrDecisionNotFound decisionID)).
Proof. intros H Hc. apply gone_submit; [by eapply submit_gone|done]. Qed.

(** The answers that change the graph in more than the final step update. *)
Definition multi_phase (choice : string) : Prop :=
  applied_early choice ∨ choice = "replan" ∨ choice = "create_role".

Lemma apply_error_atomic cfg env ord now hc taskID stepID choice payload dec g g' out err :
  ¬ multi_phase choice →
  applyDecisionChoiceLocked cfg env ord now hc taskID stepID choice payload dec g = (g', out, Some err) →
  g' = g.
Proof.
  unfold multi_phase, applied_early, applyDecisionChoiceLocked. cbv zeta. intros Hm.
  repeat (case_decide; [first [discriminate|naive_solver]|]).
  unfold prefixed_choice. cbv zeta. repeat (case_match; try discriminate); by intros [= <- _ _].
Qed.

(** C6: A refused answer leaves every graph as it was (a graph that was only
    on disk is now in memory), unless the answer is one of the four that work
    in phases (rewrite_dag, goal_change_requested, replan, create_role). *)
Theorem submit_error_atomic cfg env ord now taskID decisionID choice payload e e' err :
  ¬ multi_phase choice →
  SubmitDecisionWithPayload cfg env ord now taskID decisionID choice payload e = (e', Some err) →
  graphs e' = graphs (getOrReloadGraphLocked env taskID e).1.
Proof.
  intros Hm. unfold SubmitDecisionWithPayload.
  destruct (getOrReloadGraphLocked env taskID e) as [e0 [g0|]] eqn:E0; [|by intros [= <- _]].
  apply getOrReload_held in E0 as (_ & _ & Hid).
  rewrite pre_lookup_other by (unfold multi_phase in Hm; tauto). cbv zeta.
  destruct (findPendingDecisionLocked g0 decisionID) as [[dec i]|]; [|by intros [= <- _]; apply Hid].
  destruct (get_step g0 (Decision.StepID dec)) as [step|]; [|by intros [= <- _]; apply Hid].
  unfold create_role_first. rewrite (decide_False (P := choice = "create_role")) by (unfold multi_phase in Hm; tauto).
  match goal with |- context [applyDecisionChoiceLocked ?a ?b ?c ?d ?h ?f ?k ?l ?m ?n ?o] =>
    destruct (applyDecisionChoiceLocked a b c d h f k l m n o) as [[g3 o3] [er|]] eqn:E5 end; [|done].
  apply apply_error_atomic in E5 as ->; [|done]. intros [= <- _].
  change (<[taskID := g0]> (<[taskID := g0]> (graphs e0)) = graphs e0). by rewrite !Hid.
Qed.

(** "rewrite_dag" is applied before its decision is looked up: with valid
    surgery and a decision id that does not exist the call fails, yet the
    graph has been rewritten and the step deprecated. *)
Theorem rewrite_applied_before_lookup cfg env ord now taskID decisionID payload e g data g' :
  held_graph env taskID e = Some g →
  range_order (TaskGraph.Steps g) ord → wf_graph g →
  decode_surgery env payload = Ok data →
  mutateGraphTopologyLocked g ord now data = (g', None) →
  (∀ d, d ∈ TaskGraph.PendingDecisions g → Decision.ID d ≠ decisionID) →
  let r := SubmitDecisionWithPayload cfg env ord now taskID decisionID "rewrite_dag" payload e in
  r.2 = Some (ErrDecisionNotFound decisionID) ∧ graphs r.1 !! taskID = Some g' ∧
  Step.Status <$> get_step g' (DeprecatedStepID data) = Some StepDeprecated.
Proof.
  intros Hh Ho Hwf Hd Hm Hp r. unfold r, SubmitDecisionWithPayload. unfold held_graph in Hh.
  destruct (getOrReloadGraphLocked env taskID e) as [e0 og]. cbn in Hh. subst og.
  unfold pre_lookup. rewrite decide_True by done. rewrite Hd, Hm. cbv zeta.
  pose proof (frame_mutate g ord now data) as F. rewrite Hm in F. cbn [fst] in F.
  unfold findPendingDecisionLocked.
  rewrite (proj2 (find_decision_None 0 _ decisionID)) by by rewrite (frame_pending _ _ F).
  split; [done|]. split; [apply lookup_insert_eq|].
  destruct (get_step g (DeprecatedStepID data)) as [s|] eqn:Es.
  - by rewrite (mutate_deprecates _ _ _ _ _ _ _ Ho Hwf Es Hm).
  - unfold mutateGraphTopologyLocked in Hm. by rewrite Es in Hm.
Qed.

(** ** The step after each answer *)

Lemma get_step_upd_self stepID f g : get_step (upd_step stepID f g) stepID = f <$> get_step g stepID.
Proof. unfold get_step. by rewrite upd_step_lookup, decide_True. Qed.

Lemma clear_backtrack_status st :
  Step.Status (clear_backtrack st) = Step.Status st ∧ Step.RetryCount (clear_backtrack st) = Step.RetryCount st ∧
  Step.LastError (clear_backtrack st) = Step.LastError st ∧ Step.PreviousOutputSummary (clear_backtrack st) = "" ∧
  Step.AdditionalPromptContext (clear_backtrack st) = "" ∧
  (∀ md, Step.Metadata (clear_backtrack st) = Some md → Metadata.DeltaBacktrack md = false) ∧
  Step.DependsOn (clear_backtrack st) = Step.DependsOn st.
Proof.
  unfold clear_backtrack, clear_delta. split_and!; try done. cbn. intros md.
  destruct (Step.Metadata st) as [m|]; [|done]. cbn. by intros [= <-].
Qed.

Lemma fold_clear_lookup deps g id :
  get_step (foldl (λ g depID, upd_step depID clear_backtrack g) g deps) id = get_step g id ∨
  ∃ st st', get_step g id = Some st ∧ id ∈ deps ∧
    get_step (foldl (λ g depID, upd_step depID clear_backtrack g) g deps) id = Some st' ∧
    Step.Status st' = Step.Status st ∧ Step.RetryCount st' = Step.RetryCount st ∧
    Step.LastError st' = Step.LastError st ∧ Step.DependsOn st' = Step.DependsOn st ∧
    Step.PreviousOutputSummary st' = "" ∧ Step.AdditionalPromptContext st' = "" ∧
    (∀ md, Step.Metadata st' = Some md → Metadata.DeltaBacktrack md = false).
Proof.
  induction deps as [|d deps IH] using rev_ind; [by left|]. rewrite foldl_app. cbn [foldl].
  unfold get_step at 1 4. rewrite !upd_step_lookup.
  destruct (decide (d = id)) as [->|Hne].
  - destruct (get_step g id) as [st|] eqn:E.
    + right. destruct IH as [IH|(st1 & st' & [= <-] & Hin & IH & H1 & H2 & H3 & H4 & _)].
      * unfold get_step in IH. rewrite IH. exists st, (clear_backtrack st).
        destruct (clear_backtrack_status st) as (?&?&?&?&?&?&?).
        split_and!; try done. apply elem_of_app. right. by left.
      * unfold get_step in IH. rewrite IH. exists st, (clear_backtrack st').
        destruct (clear_backtrack_status st') as (?&?&?&?&?&?&?).
        split_and!; try done; try congruence. apply elem_of_app. right. by left.
    + left. destruct IH as [IH|(? & ? & ? & _)]; [|done]. unfold get_step in *. by rewrite IH.
  - destruct IH as [IH|(st1 & st' & H0 & Hin & IH)]; [by left|right].
    exists st1, st'. split; [done|]. split; [apply elem_of_app; by left|done].
Qed.

(** What each kind of answer leaves of the step it is about. *)
Definition choice_effect (cfg : option SystemConfig) (choice : string) (st st' : Step.t) : Prop :=
  (choice = "skip" → Step.Status st' = StepSkipped) ∧
  (choice = "reject" → Step.Status st' = StepFailed ∧ Step.LastError st' = "human_rejected") ∧
  (choice = "retry" → Step.Status st' = StepPending ∧ Step.RetryCount st' = 0%Z ∧ Step.LastError st' = "" ∧
     Step.PreviousOutputSummary st' = "" ∧ Step.AdditionalPromptContext st' = "" ∧
     ∀ md, Step.Metadata st' = Some md → Metadata.DeltaBacktrack md = false) ∧
  (choice = "resume_more_turns" → Step.Status st' = StepPending ∧
     Step.TurnsBudgetBonus st' = grant_turns (turns_chunk cfg) (Step.TurnsBudgetBonus st)) ∧
  (choice = "continue" → st' = st <| Step.Status := StepPending |>).

(** The effect of the fixed answers on the step the decision is about. *)
Theorem apply_choice_effect cfg env ord now hc taskID stepID choice payload dec g g' out st :
  applyDecisionChoiceLocked cfg env ord now hc taskID stepID choice payload dec g = (g', out, None) →
  choice ∈ ["skip"; "reject"; "retry"; "resume_more_turns"; "continue"] →
  get_step g stepID = Some st →
  ∃ st', get_step g' stepID = Some st' ∧ choice_effect cfg choice st st'.
Proof.
  intros H Hin Hs. unfold choice_effect.
  repeat (apply elem_of_cons in Hin as [-> | Hin]); [..|by apply elem_of_nil in Hin];
    cbn in H; injection H as <- _.
  - eexists. rewrite get_step_upd_self, Hs. split; [reflexivity|]. split_and!; done.
  - eexists. rewrite get_step_upd_self, Hs. split; [reflexivity|]. split_and!; done.
  - unfold retry_choice. cbv zeta. rewrite get_step_upd_self, Hs. cbn [fmap option_fmap option_map].
    destruct (clear_backtrack_status (requeue st)) as (?&?&?&?&?&?&_).
    destruct (fold_clear_lookup (Step.DependsOn (clear_backtrack (requeue st)))
      (upd_step stepID (λ st, clear_backtrack (requeue st)) g) stepID)
      as [E|(st1 & st' & E1 & _ & E & ? & ? & ? & _ & ? & ? & ?)].
    + exists (clear_backtrack (requeue st)). rewrite E, get_step_upd_self, Hs. split; [done|].
      split_and!; try done.
    + rewrite get_step_upd_self, Hs in E1. injection E1 as <-. exists st'. split; [done|].
      split_and!; try done; intros _; split_and!; congruence || done.
  - eexists. rewrite get_step_upd_self, Hs. split; [reflexivity|]. split_and!; done.
  - eexists. rewrite get_step_upd_self, Hs. split; [reflexivity|]. split_and!; done.
Qed.

(** The tool-turn bonus is bounded.  Starting within the bound, any number
    of resumptions leaves it within four chunks, and below the cap each one
    still grants a full chunk. *)
Theorem turns_bonus_bounded (chunk bonus : Z) n :
  (0 < chunk < 2 ^ 60)%Z → (0 ≤ bonus ≤ chunk * 4)%Z →
  (0 ≤ Nat.iter n (grant_turns chunk) bonus ≤ chunk * 4)%Z ∧
  ((bonus + chunk * Z.of_nat n ≤ chunk * 4)%Z → Nat.iter n (grant_turns chunk) bonus = (bonus + chunk * Z.of_nat n)%Z).
Proof.
  intros Hc Hb. assert (∀ b, (0 ≤ b ≤ chunk * 4)%Z → grant_turns chunk b = Z.min (b + chunk) (chunk * 4)) as Hg.
  { intros b Hb'. unfold grant_turns. cbv zeta.
    rewrite !wrap64_id by (unfold in_int64, int64_min, int64_max; lia). case_decide; lia. }
  induction n as [|n [IH1 IH2]]; [simpl; lia|].
  rewrite Nat.iter_succ, Hg by done. split; [lia|]. intros H. rewrite IH2 by lia. lia.
Qed.

(** Approving a mount.  When the decision names mounts or skills, every
    named id is approved on the graph under the resolver's identity and the
    step is queued again; no other id's approval changes.  Otherwise the step
    is accepted as done. *)
Theorem approve_choice_spec now stepID dec g st :
  get_step g stepID = Some st →
  let mounts := decisionApprovalMounts dec in
  let skills := decisionApprovalIDs dec "approval_required_skills" in
  let g' := applyApproveChoice now stepID dec g in
  ∃ st', get_step g' stepID = Some st' ∧
  ((mounts = [] ∧ skills = [] ∧ Step.Status st' = StepOK) ∨
   ((mounts ≠ [] ∨ skills ≠ []) ∧ Step.Status st' = StepPending ∧
    (∀ id, id ≠ "" → id ∈ mounts → IsMCPMountApproved g' id = true) ∧
    (∀ id, id ≠ "" → id ∈ skills → IsSkillMountApproved g' id = true) ∧
    (∀ id, id ∉ mounts → IsMCPMountApproved g' id = IsMCPMountApproved g id) ∧
    (∀ id, id ∉ skills → IsSkillMountApproved g' id = IsSkillMountApproved g id))).
Proof.
  intros Hs mounts skills g'. unfold g', applyApproveChoice. cbv zeta. fold mounts skills.
  destruct (bool_decide (mounts ≠ []) || bool_decide (skills ≠ [])) eqn:E.
  - rewrite orb_true_iff, !bool_decide_eq_true in E. eexists. rewrite get_step_upd_self.
    change (get_step (ApproveSkillMounts _ _ _ _ _) stepID) with (get_step g stepID). rewrite Hs.
    split; [reflexivity|]. right. split; [done|]. split; [done|].
    unfold IsMCPMountApproved, IsSkillMountApproved. cbn [upd_step ApproveSkillMounts ApproveMCPMounts].
    change (TaskGraph.ApprovedMCPMounts (upd_step _ _ _)) with
      (approve_mounts "mount" mounts (context_string dec "_resolver_owner_id")
         (context_string dec "_resolver_channel") now (TaskGraph.ApprovedMCPMounts g)).
    change (TaskGraph.ApprovedSkillMounts (upd_step _ _ _)) with
      (approve_mounts "skill" skills (context_string dec "_resolver_owner_id")
         (context_string dec "_resolver_channel") now (TaskGraph.ApprovedSkillMounts g)).
    split_and!; intros id; [intros Hne Hin|intros Hne Hin|intros Hni|intros Hni];
      case_decide; try done; rewrite approve_mounts_lookup; case_decide; try done; tauto.
  - rewrite orb_false_iff, !bool_decide_eq_false in E. destruct E as [E1 E2].
    apply dec_stable in E1, E2. eexists. rewrite get_step_upd_self, Hs.
    split; [reflexivity|]. left. done.
Qed.

(** A graph without a run loop and with a single step and decision. *)
Definition smart_single (stepID : string) (st : Step.t) (dec : Decision.t) (g : TaskGraph.t) : Prop :=
  TaskGraph.IsSmartRouted g = true ∧ TaskGraph.Steps g = {[stepID := st]} ∧
  TaskGraph.PendingDecisions g = [dec] ∧ Decision.StepID dec = stepID.

Lemma upd_step_single stepID f g st :
  TaskGraph.Steps g = {[stepID := st]} → TaskGraph.Steps (upd_step stepID f g) = {[stepID := f st]}.
Proof. intros H. unfold upd_step. cbn. rewrite H. apply alter_singleton_eq. Qed.

Lemma smart_routed_status_single g stepID st :
  TaskGraph.Steps g = {[stepID := st]} →
  smart_routed_status g =
  match Step.Status st with
  | StepFailed | StepBlocked => GraphFailed
  | StepSkipped => GraphCompletedWithSkips
  | _ => GraphCompleted
  end.
Proof.
  intros H. unfold smart_routed_status, step_states. rewrite H, map_to_list_singleton. cbn.
  by destruct (Step.Status st).
Qed.

(** Retrying the only step of a task requeues it. *)
Lemma clear_fold_single stepID deps h st :
  TaskGraph.Steps h = {[stepID := st]} → Step.Status st = StepPending →
  ∃ st', TaskGraph.Steps (foldl (λ g d, upd_step d clear_backtrack g) h deps) = {[stepID := st']} ∧
    Step.Status st' = StepPending.
Proof.
  revert h st. induction deps as [|d deps IH]; intros h st Hh Hp; cbn [foldl]; [by exists st|].
  destruct (decide (d = stepID)) as [->|Hne].
  - apply (IH _ (clear_backtrack st)); [by apply upd_step_single|exact Hp].
  - apply (IH _ st); [|done]. unfold upd_step. cbn. by rewrite Hh, alter_singleton_ne.
Qed.
Lemma retry_single stepID g st :
  TaskGraph.Steps g = {[stepID := st]} →
  ∃ st', TaskGraph.Steps (retry_choice stepID g) = {[stepID := st']} ∧ Step.Status st' = StepPending.
Proof.
  intros Hst. unfold retry_choice. cbv zeta. rewrite get_step_upd_self.
  unfold get_step. rewrite Hst, lookup_singleton_eq. cbn [fmap option_fmap option_map].
  eapply clear_fold_single; [by apply (upd_step_single stepID (λ st, clear_backtrack (requeue st)))|done].
Qed.

(** On a smart-routed graph the answer to the last decision decides the
    task's outcome by the step states alone.  "retry" queues the step and marks
    the task completed although the step has not run (the graph has no run
    loop); "abort" on a step that is neither failed, blocked nor skipped marks
    the task completed instead of failed. *)
Theorem smart_routed_answer_outcome cfg env ord now taskID choice payload e e' g st dec :
  held_graph env taskID e = Some g →
  smart_single (Decision.StepID dec) st dec g →
  SubmitDecisionWithPayload cfg env ord now taskID (Decision.ID dec) choice payload e = (e', None) →
  (choice = "retry" → ∃ g' st', graphs e' !! taskID = Some g' ∧
     TaskGraph.Status g' = GraphCompleted ∧ get_step g' (Decision.StepID dec) = Some st' ∧
     Step.Status st' = StepPending) ∧
  (choice = "abort" → Step.Status st ∉ [StepFailed; StepBlocked; StepSkipped] →
     ∃ g', graphs e' !! taskID = Some g' ∧ TaskGraph.Status g' = GraphCompleted).
Proof.
  intros Hh (Hsm & Hst & Hpd & Hsid) 
    (e0 & g0 & g1 & dec1 & i & step & g2 & o2 & g3 & o3 & e3 & H0 & H1 & H2 & H3 & H4 & H5 & H6 & ->)%submit_ok_inv.
  unfold held_graph in Hh. rewrite H0 in Hh. cbn in Hh. injection Hh as ->.
  destruct (settled_fields (Decision.ID dec) choice g3) as (_ & S1 & _ & S2).
  assert (Hfin : choice = "retry" ∨ choice = "abort" →
    graphs (settle taskID (Decision.StepID dec1) (Decision.ID dec) choice g3 e3) !! taskID =
      Some (settled (Decision.ID dec) choice g3) ∧ dec1 = dec ∧ g2 = g ∧
    TaskGraph.Status (settled (Decision.ID dec) choice g3) = smart_routed_status g3).
  { intros Hc. rewrite settle_graphs. split; [apply lookup_insert_eq|].
    rewrite pre_lookup_other in H1 by (unfold applied_early; naive_solver). injection H1 as <-.
    unfold findPendingDecisionLocked in H2. rewrite Hpd in H2. cbn in H2.
    rewrite decide_True in H2 by done. injection H2 as <- <-.
    unfold create_role_first in H4. rewrite decide_False in H4 by naive_solver. injection H4 as <- <-.
    do 2 (split; [done|]). rewrite S2.
    pose proof (frame_apply cfg env ord now (bool_decide (taskID ∈ cancelFuncs e0)) taskID (Decision.StepID dec)
      choice payload dec g) as F. rewrite H5 in F. cbn [fst] in F.
    rewrite (frame_smart _ _ F), (frame_pending _ _ F), Hpd, decide_True; [done|].
    split; [done|]. rewrite filter_cons_False; [done|]. intros Hx. by apply Hx. }
  split.
  - intros Hc. destruct (Hfin (or_introl Hc)) as (Hg & -> & -> & Hstat). subst choice.
    cbn in H5. injection H5 as <- _.
    destruct (retry_single (Decision.StepID dec) g st Hst) as (st' & Hst' & Hp).
    eexists _, st'. split; [exact Hg|]. rewrite Hstat, (smart_routed_status_single _ _ _ Hst'), Hp.
    split; [done|]. split; [|done]. unfold get_step. by rewrite S1, Hst', lookup_singleton_eq.
  - intros Hc Hni. destruct (Hfin (or_intror Hc)) as (Hg & -> & -> & Hstat). subst choice.
    cbn in H5. injection H5 as <- _. eexists. split; [exact Hg|]. rewrite Hstat.
    rewrite (smart_routed_status_single _ (Decision.StepID dec) st); [|exact Hst].
    destruct (Step.Status st); try done; exfalso; apply Hni; set_solver.
Qed.

(** ** Witnesses *)

Definition ex_env : AnswerEnv :=
  mkEnv (λ s, if decide (s = "S") then Ok (mkSurgery "a" [blankInput "c" []]) else Err "bad json")
    (λ _, Err "bad json") (λ _, None) (λ _, Err "bad json") (λ _ _ _ _, Err "no model")
    (λ m, bool_decide (m = "gpt")) (λ _, None).
Definition ans_dec : Decision.t := blankDecision "d1" "a" DecisionStepFailed ["skip"; "abort"; "retry"].
Definition ans_graph : TaskGraph.t :=
  (blankGraph "t" [blankStep "a" StepFailed []; blankStep "b" StepBlocked ["a"]])
    <| TaskGraph.PendingDecisions := [ans_dec; blankDecision "d2" "b" DecisionStepFailed ["skip"]] |>
    <| TaskGraph.ConsecutiveSkips := 1%Z |>.
Definition ans_engine : Engine := mkEngine {["t" := ans_graph]} ∅ ∅ [].
Definition ans_submit (choice payload : string) : Engine * option AnswerError :=
  SubmitDecisionWithPayload None ex_env (keys (TaskGraph.Steps ans_graph)) 5 "t" "d1" choice payload ans_engine.

Lemma submit_consumes_decision_witness :
  ∃ g g', held_graph ex_env "t" ans_engine = Some g ∧ graphs (ans_submit "skip" "").1 !! "t" = Some g' ∧
    TaskGraph.ConsecutiveSkips g' = wrap64 (TaskGraph.ConsecutiveSkips g + 1).
Proof.
  destruct (submit_consumes_decision None ex_env (keys (TaskGraph.Steps ans_graph)) 5 "t" "d1" "skip" "" ans_engine
    (ans_submit "skip" "").1) as (g & g' & H1 & H2 & _ & _ & H3 & _).
  - vm_compute. reflexivity.
  - exists g, g'. split; [exact H1|]. split; [exact H2|exact H3].
Defined.

Lemma decision_answered_once_witness :
  (SubmitDecisionWithPayload None ex_env [] 9 "t" "d1" "abort" "" (ans_submit "skip" "").1).2
  = Some (ErrDecisionNotFound "d1").
Proof.
  rewrite (decision_answered_once None ex_env (keys (TaskGraph.Steps ans_graph)) 5 "t" "d1" "skip" "" ans_engine
    (ans_submit "skip" "").1 None [] 9 "abort" "").
  - reflexivity.
  - vm_compute. reflexivity.
  - intros [H|H]; discriminate H.
Defined.

Lemma submit_error_atomic_witness :
  graphs (ans_submit "nonsense" "").1 = graphs ans_engine.
Proof.
  apply (submit_error_atomic None ex_env (keys (TaskGraph.Steps ans_graph)) 5 "t" "d1" "nonsense" "" ans_engine
    (ans_submit "nonsense" "").1 (ErrUnknownChoice "nonsense")).
  - unfold multi_phase, applied_early. intros [[H|H]|[H|H]]; discriminate H.
  - vm_compute. reflexivity.
Defined.

Lemma rewrite_applied_before_lookup_witness :
  (SubmitDecisionWithPayload None ex_env (keys (TaskGraph.Steps ans_graph)) 5 "t" "nope" "rewrite_dag" "S" ans_engine).2
  = Some (ErrDecisionNotFound "nope").
Proof.
  apply (rewrite_applied_before_lookup None ex_env (keys (TaskGraph.Steps ans_graph)) 5 "t" "nope" "S" ans_engine
    ans_graph (mkSurgery "a" [blankInput "c" []])
    (mutateGraphTopologyLocked ans_graph (keys (TaskGraph.Steps ans_graph)) 5 (mkSurgery "a" [blankInput "c" []])).1).
  - vm_compute. reflexivity.
  - apply keys_range_order.
  - apply wf_graphb_true. vm_compute. reflexivity.
  - vm_compute. reflexivity.
  - vm_compute. reflexivity.
  - intros d [->|[->|H%elem_of_nil]%elem_of_cons]%elem_of_cons; [discriminate|discriminate|destruct H].
Defined.

Lemma apply_choice_effect_witness :
  ∃ st', get_step (applyDecisionChoiceLocked None ex_env [] 5 false "t" "a" "retry" "" ans_dec ans_graph).1.1 "a"
           = Some st' ∧ Step.Status st' = StepPending.
Proof.
  destruct (apply_choice_effect None ex_env [] 5 false "t" "a" "retry" "" ans_dec ans_graph
    (applyDecisionChoiceLocked None ex_env [] 5 false "t" "a" "retry" "" ans_dec ans_graph).1.1 []
    (blankStep "a" StepFailed [])) as (st' & H & _ & _ & H' & _).
  - vm_compute. reflexivity.
  - right; right; left.
  - vm_compute. reflexivity.
  - exists st'. split; [exact H|]. apply H'. reflexivity.
Defined.

Lemma turns_bonus_bounded_witness : (0 ≤ Nat.iter 9 (grant_turns 50) 0 ≤ 200)%Z.
Proof. apply (turns_bonus_bounded 50 0 9); lia. Defined.

Definition mount_dec : Decision.t :=
  (blankDecision "d" "a" DecisionHumanApprovalRequired ["approve"; "reject"])
    <| Decision.Context := {["approval_required_mounts" := AList [AString "github"; ANil]]} |>.
Lemma approve_choice_spec_witness :
  IsMCPMountApproved (applyApproveChoice 5 "a" mount_dec ans_graph) "github" = true.
Proof.
  destruct (approve_choice_spec 5 "a" mount_dec ans_graph (blankStep "a" StepFailed []))
    as (st' & _ & [(H & _)|(_ & _ & H & _)]).
  - vm_compute. reflexivity.
  - exfalso. revert H. vm_compute. discriminate.
  - apply H; [discriminate|]. left.
Defined.

Definition smart_dec : Decision.t := blankDecision "d" "a" DecisionLowConfidence ["retry"; "abort"].
Definition smart_graph : TaskGraph.t :=
  (blankGraph "t" [blankStep "a" StepRunning []]) <| TaskGraph.IsSmartRouted := true |>
    <| TaskGraph.PendingDecisions := [smart_dec] |>.
Definition smart_submit (choice : string) : Engine :=
  (SubmitDecisionWithPayload None ex_env [] 5 "t" "d" choice "" (mkEngine {["t" := smart_graph]} ∅ ∅ [])).1.
Lemma smart_routed_answer_outcome_witness :
  (∃ g' st', graphs (smart_submit "retry") !! "t" = Some g' ∧ TaskGraph.Status g' = GraphCompleted ∧
     get_step g' "a" = Some st' ∧ Step.Status st' = StepPending) ∧
  (∃ g', graphs (smart_submit "abort") !! "t" = Some g' ∧ TaskGraph.Status g' = GraphCompleted).
Proof.
  split.
  - apply (smart_routed_answer_outcome None ex_env [] 5 "t" "retry" "" (mkEngine {["t" := smart_graph]} ∅ ∅ [])
      (smart_submit "retry") smart_graph (blankStep "a" StepRunning []) smart_dec).
    + vm_compute. reflexivity.
    + repeat split; vm_compute; reflexivity.
    + vm_compute. reflexivity.
    + reflexivity.
  - apply (smart_routed_answer_outcome None ex_env [] 5 "t" "abort" "" (mkEngine {["t" := smart_graph]} ∅ ∅ [])
      (smart_submit "abort") smart_graph (blankStep "a" StepRunning []) smart_dec).
    + vm_compute. reflexivity.
    + repeat split; vm_compute; reflexivity.
    + vm_compute. reflexivity.
    + reflexivity.
    + apply (bool_decide_unpack _). vm_compute. exact I.
Defined.
