(* ===== verification/OutputHandlers.v ===== *)
(** * Handling a step's output

    core/scheduler_decision.go ([handleOutput]), core/scheduler_decision_success.go,
    core/scheduler_decision_failure.go, core/auto_deposition.go,
    core/budget_guard.go, [archiveStep] of core/scheduler_decision_helpers.go and
    [applyStepFailurePolicy] of core/scheduler_decision_preflight.go.

    A handler works on [GateState].  What it calls outside the scheduler (the
    archive, the recommendation store, the asset store, formatting of floats and
    dynamic values) is in [OutEnv].  Log lines, signal-field deposits, cost
    records and background embedding updates have no effect on the graph and
    are left out. *)

From S2P Require Import Prelude TaskStatus Schema FailureClass DecisionGate CycleBreaker Surgery.
From Stdlib Require Import SpecFloat.

Record OutEnv := mkOutEnv {
  env_cfg : SystemConfig;
  env_archive : option Archive;
  tool_failures : option (gmap string Z);
  recommend_skill : option (string → option string);
  asset_handle : string → string → gmap string any → option OutputFile.t;
  format_conf : float64 → string;
  show_any : any → string;
  int_of_float : float64 → Z;
  budget_margin : option Z;
  fresh_suffix : string;
  env_now : Z
}.

(** [SpawnResult]: the envelope the spawner returns. *)
Module SpawnResult.
Record t := mk {
  Output : SubagentOutput.t;
  Ref : string;
  ModelID : string;
  StatesVisited : list string
}.
End SpawnResult.

Inductive DecisionVerdict := VerdictContinue | VerdictReturn.

Definition status_string (s : SubagentStatus) : string :=
  match s with
  | StatusOK => "ok"
  | StatusPartial => "partial"
  | StatusFailed => "failed"
  | StatusCapabilityRequired => "capability_required"
  | StatusDelegationRequired => "delegation_required"
  | StatusApprovalRequired => "approval_required"
  | StatusOther s => s
  end.

(** ** Budget *)

Definition NewBudgetGuard (safeMargin : Z) : Z := if decide (safeMargin ≤ 0)%Z then 2000%Z else safeMargin.
Definition CheckBudget (safeMargin : Z) (g : TaskGraph.t) : option string :=
  if bool_decide (0 < TaskGraph.TokenBudget g)%Z
     && bool_decide (wrap64 (TaskGraph.TokenBudget g - safeMargin) ≤ TaskGraph.TokensUsed g)%Z
  then Some ("token budget exceeded: used " +:+ pretty (TaskGraph.TokensUsed g) +:+ "/"
             +:+ pretty (TaskGraph.TokenBudget g))%string
  else None.
Definition DeductBudget (safeMargin tokens : Z) (g : TaskGraph.t) : TaskGraph.t * bool :=
  let g := g <| TaskGraph.TokensUsed ::= λ u, wrap64 (u + tokens) |> in
  if bool_decide (0 < TaskGraph.TokenBudget g)%Z
     && bool_decide (wrap64 (TaskGraph.TokenBudget g - safeMargin) ≤ TaskGraph.TokensUsed g)%Z
  then (g <| TaskGraph.BudgetPaused := true |>, true)
  else (g, false).

(** ** Deposits *)

Definition any_of_map (m : gmap string any) : any := AMap (map_to_list m).

Definition deposit_key (key : string) (v : any) (ws : gmap string any) : gmap string any :=
  match ws !! key with Some _ => ws | None => <[key := v]> ws end.
Definition AutoDepositResult (stepID : string) (result : option (gmap string any)) (g : TaskGraph.t) : TaskGraph.t :=
  match result with
  | Some m =>
      if decide (stepID = "") then g
      else g <| TaskGraph.GlobalWorkspace ::= λ ws,
             deposit_key "result" (any_of_map m) (deposit_key stepID (any_of_map m) ws) |>
  | None => g
  end.

Definition archive_summary (result : gmap string any) : string :=
  let summary := default "" (as_string (result !! "summary")) in
  if decide (summary = "") then
    match as_string (result !! "output") with
    | Some raw => if 200 <? String.length raw then (String.substring 0 200 raw +:+ "...")%string else raw
    | None => ""
    end
  else summary.
Definition archiveStep (env : OutEnv) (stepID : string) (result : gmap string any) (s : GateState) : GateState :=
  match env_archive env with
  | Some _ => emit (OArchive (TaskGraph.TaskID (gs_graph s)) stepID (archive_summary result)) s
  | None => s
  end.

(** ** Failure *)

Definition on_graph (f : TaskGraph.t → TaskGraph.t) (s : GateState) : GateState := s <| gs_graph ::= f |>.
Definition on_step (stepID : string) (f : Step.t → Step.t) : GateState → GateState :=
  on_graph (upd_step stepID f).

Definition applyStepFailurePolicy (stepID : string) (g : TaskGraph.t) : TaskGraph.t * bool :=
  match get_step g stepID with
  | Some step =>
      match Step.FailurePolicy step with
      | None => (g, false)
      | Some p =>
          if decide (FailurePolicy.OnFailure p = "skip")
          then (upd_step stepID (λ st, st <| Step.Status := StepSkipped |>) g, true)
          else if decide (FailurePolicy.OnFailure p = "abort")
          then (g <| TaskGraph.Status := GraphFailed |>, true)
          else (g, false)
      end
  | None => (g, false)
  end.

Definition emitMountApprovalDecision (env : OutEnv) (decID stepID : string) (mounts skills : list string)
    (s : GateState) : GateState :=
  let roleID := match get_step (gs_graph s) stepID with Some st => Step.RoleID st | None => "" end in
  let ctx := <["message" := AString "MCP mount requires human approval before this step can run."]>
              (<["role_id" := AString roleID]>
                (<["root_cause" := AString (failure_string FailureClassApprovalRequired)]> ∅)) in
  let ctx := insert_if (bool_decide (mounts ≠ [])) "approval_required_mounts" (AStrings mounts) ctx in
  let ctx := if decide (skills = []) then ctx
             else <["message" := AString "MCP/skill mount requires human approval before this step can run."]>
                    (<["approval_required_skills" := AStrings skills]> ctx) in
  addDecision (Some (env_cfg env)) decID (env_now env) stepID DecisionHumanApprovalRequired ctx
    ["approve"; "reject"] s.

(** [%v] of a slice of strings. *)
Definition show_strings (l : list string) : string := ("[" +:+ join " " l +:+ "]")%string.

Definition follow_up_surgery (env : OutEnv) (maxSpawn : Z) (missing : list string) (step : Step.t) : SurgeryData :=
  let input := zeroInput
    <| StepInput.ID := (Step.ID step +:+ "_spawn_" +:+ fresh_suffix env)%string |>
    <| StepInput.RoleID := Step.RoleID step |>
    <| StepInput.Task := ("Autonomous Follow-up Task: Address missing context/uncertainty: " +:+ show_strings missing
         +:+ ". Original task: " +:+ Step.Task step)%string |>
    <| StepInput.SpawnDepth := wrap64 (Step.SpawnDepth step + 1) |>
    <| StepInput.MaxSpawnDepth := maxSpawn |> in
  mkSurgery (Step.ID step) [input].

(** The options a blocked step offers. *)
Definition skill_options (env : OutEnv) (cap : string) : list string :=
  match recommend_skill env with
  | Some r => match r cap with
              | Some best => [("retry_with_skill:" +:+ best)%string]
              | None => []
              end
  | None => []
  end ++ [("retry_with_skill:" +:+ cap)%string].
Definition failure_options (env : OutEnv) (cause : FailureClass) (details : list string) : list string :=
  ["skip"; "abort"; "retry"; "refine_and_retry"] ++
  (if decide (cause = FailureClassCapabilityRequired) then mjoin (skill_options env <$> details) else []) ++
  (if decide (cause = FailureClassContextDeficit) then ["retry_with_context"] else []).

(** Autonomous follow-up: the failed step is replaced by a fresh one. *)
Definition spawn_follow_up (env : OutEnv) (ord : list string) (cause : FailureClass) (missing : list string)
    (step : Step.t) (s : GateState) : GateState * bool :=
  let maxSpawn := if decide (0 < Step.MaxSpawnDepth step)%Z then Step.MaxSpawnDepth step
                  else SysMaxSpawnDepth (env_cfg env) in
  if bool_decide (Step.SpawnDepth step < maxSpawn)%Z
     && (bool_decide (cause = FailureClassContextDeficit)
         || bool_decide (cause = FailureClassGenerativeUncertainty)) then
    match mutateGraphTopologyLocked (gs_graph s) ord (env_now env)
            (follow_up_surgery env maxSpawn missing step) with
    | (g, None) => (s <| gs_graph := g |>, true)
    | (g, Some _) => (s <| gs_graph := g |>, false)
    end
  else (s, false).

(** A pending fallback takes over: the step fails, the swap is recorded. *)
Definition activate_fallback (env : OutEnv) (ord : list string) (stepID : string) (cause : FailureClass)
    (output : SubagentOutput.t) (s : GateState) : GateState * bool :=
  match FallbackFor (gs_graph s) ord stepID with
  | Some fb =>
      if decide (Step.Status fb = StepPending) then
        let conf := format_conf env (SubagentOutput.Confidence output) in
        let reason := ("confidence " +:+ conf +:+ ", root cause: " +:+ failure_string cause)%string in
        let s := on_step stepID (λ st, st <| Step.Status := StepFailed |>
                   <| Step.LastError := (status_string (SubagentOutput.Status output) +:+ ": " +:+ reason)%string |>) s in
        let s := on_step (Step.ID fb) (λ st, st <| Step.Status := StepPending |>) s in
        (on_graph (RecordSubstitution "fallback_step" stepID (Step.ID fb) reason stepID (env_now env)) s, true)
      else (s, false)
  | None => (s, false)
  end.

(** Nothing took over: compensate the step's effects, block it and ask. *)
Definition block_and_ask (env : OutEnv) (decID stepID : string) (cause : FailureClass) (suggestion : string)
    (details : list string) (output : SubagentOutput.t) (s : GateState) : GateState :=
  let taskID := TaskGraph.TaskID (gs_graph s) in
  let s := match tool_failures env with Some _ => emit (OCompensate taskID stepID) s | None => s end in
  let s := set_step_status stepID StepBlocked s in
  let s := emit (OEvent "step_failed" taskID stepID) s in
  addDecision (Some (env_cfg env)) decID (env_now env) stepID DecisionStepFailed
    (<["root_cause" := AString (failure_string cause)]>
      (<["suggested_action" := AString suggestion]>
        (<["missing_details" := AStrings details]>
          (<["confidence" := AFloat (SubagentOutput.Confidence output)]>
            (<["missing_context" := AStrings (SubagentOutput.MissingContext output)]> ∅)))))
    (failure_options env cause details) s.

Definition handleStepFailure (env : OutEnv) (ord tools : list string) (decID stepID : string)
    (result : SpawnResult.t) (s : GateState) : GateState * DecisionVerdict :=
  let output := SpawnResult.Output result in
  let s := on_graph (AutoDepositResult stepID (SubagentOutput.Result output)) s in
  let s := archiveStep env stepID (result_map output) s in
  match get_step (gs_graph s) stepID with
  | None => (s, VerdictContinue)
  | Some step =>
      let '(cause, suggestion, details) := diagnoseFault (Some output) step in
      let '(cause, suggestion, details) := reclassifyToolRefusal (tool_failures env) tools cause suggestion details in
      if decide (cause = FailureClassApprovalRequired) then
        (emitMountApprovalDecision env decID stepID (SubagentOutput.ApprovalRequiredMounts output)
           (SubagentOutput.ApprovalRequiredSkills output) s, VerdictContinue)
      else
        match tryBacktrack (Some (env_cfg env)) (env_archive env) decID (env_now env) stepID
                (SubagentOutput.MissingContext output) s with
        | (s, true) => (s, VerdictReturn)
        | (s, false) =>
            match spawn_follow_up env ord cause (SubagentOutput.MissingContext output) step s with
            | (s, true) => (s, VerdictReturn)
            | (s, false) =>
                match activate_fallback env ord stepID cause output s with
                | (s, true) => (s, VerdictReturn)
                | (s, false) =>
                    (block_and_ask env decID stepID cause suggestion details output s, VerdictContinue)
                end
            end
        end
  end.

(** ** Success *)

Definition as_list (o : option any) : list any := match o with Some (AList l) => l | _ => [] end.

(** The programmatic merge into the workspace. *)
Definition merge_value (targetKey : string) (result : gmap string any) : any :=
  match result !! targetKey with
  | Some specific => AMap [(targetKey, specific)]
  | None => any_of_map result
  end.
Definition merge_workspace (show : any → string) (strategy targetKey : string) (val : any)
    (ws : gmap string any) : gmap string any :=
  let existing := as_list (ws !! targetKey) in
  if decide (strategy = "append") then <[targetKey := AList (existing ++ [val])]> ws
  else if decide (strategy = "unique") then
    if existsb (λ v, String.eqb (show v) (show val)) existing then ws
    else <[targetKey := AList (existing ++ [val])]> ws
  else if decide (strategy = "overlay") then <[targetKey := val]> ws
  else ws.

Definition merge_result (env : OutEnv) (step : Step.t) (result : gmap string any) (g : TaskGraph.t) : TaskGraph.t :=
  if bool_decide (Step.MergeStrategy step = "") || bool_decide (Step.TargetKey step = "") then g
  else
    let val := merge_value (Step.TargetKey step) result in
    let g := g <| TaskGraph.GlobalWorkspace ::=
                 merge_workspace (show_any env) (Step.MergeStrategy step) (Step.TargetKey step) val |> in
    g <| TaskGraph.CoordinationEdges ::= λ l, l ++
           [CoordinationEdge.mk (Step.ID step) "global_workspace" "shared_vfs"
              (Z.of_nat (String.length (show_any env val))) (env_now env)] |>.

(** A result that names a file becomes an output file of the task. *)
Definition output_file (env : OutEnv) (step : Step.t) (result : gmap string any) : option OutputFile.t :=
  match as_string (result !! "output_ref") with
  | Some ref =>
      if decide (ref = "") then None
      else Some (OutputFile.mk (Step.ID step) ref
                   (default "" (as_string (result !! "format")))
                   (default "" (as_string (result !! "summary")))
                   (match result !! "size_bytes" with Some (AFloat f) => int_of_float env f | _ => 0%Z end)
                   true (Step.Deliver step) (env_now env))
  | None => None
  end.
Definition add_output_file (of_ : option OutputFile.t) (g : TaskGraph.t) : TaskGraph.t :=
  match of_ with Some f => g <| TaskGraph.OutputFiles ::= λ l, l ++ [f] |> | None => g end.

Definition side_load (env : OutEnv) (stepID : string) (result : gmap string any) (g : TaskGraph.t) : TaskGraph.t :=
  match asset_handle env (TaskGraph.TaskID g) stepID result with
  | Some f =>
      let f := f <| OutputFile.Summary := "Side-loaded large JSON result" |> in
      upd_step stepID (λ st, st <| Step.ResultRef := OutputFile.Path f |>)
        (g <| TaskGraph.OutputFiles ::= λ l, l ++ [f] |>)
  | None => g
  end.

Definition handleStepSuccess (env : OutEnv) (stepID : string) (result : SpawnResult.t) (s : GateState) : GateState :=
  let output := SpawnResult.Output result in
  let res := result_map output in
  let s := on_step stepID (λ st, st <| Step.Status := StepOK |> <| Step.LastError := "" |>
                                    <| Step.ResultRef := SpawnResult.Ref result |>) s in
  match get_step (gs_graph s) stepID with
  | None => s
  | Some step =>
      let s := emit (OEvent "step_completed" (TaskGraph.TaskID (gs_graph s)) stepID) s in
      let s := on_graph (merge_result env step res) s in
      let s := on_graph (AutoDepositResult stepID (SubagentOutput.Result output)) s in
      let s := archiveStep env stepID res s in
      let s := on_graph (add_output_file (output_file env step res)) s in
      on_graph (side_load env stepID res) s
  end.

(** ** Dispatch *)

Definition deduct_usage (env : OutEnv) (output : SubagentOutput.t) (g : TaskGraph.t) : TaskGraph.t :=
  match SubagentOutput.Usage_ output, budget_margin env with
  | Some u, Some margin =>
      if decide (0 < TotalTokens u)%Z then (DeductBudget margin (TotalTokens u) g).1 else g
  | _, _ => g
  end.

Definition handleOutput (env : OutEnv) (ord tools : list string) (decID stepID : string)
    (result : option SpawnResult.t) (s : GateState) : GateState :=
  match result with
  | None => s
  | Some result =>
      let output := SpawnResult.Output result in
      let conf := SubagentOutput.Confidence output in
      let s := on_graph (deduct_usage env output) s in
      let s := on_step stepID (λ st, st <| Step.Confidence := Some conf |>
                 <| Step.MissingCtx := SubagentOutput.MissingContext output |>
                 <| Step.StatesVisited := SpawnResult.StatesVisited result |>) s in
      let threshold := ConfidenceThreshold (env_cfg env) in
      let st := SubagentOutput.Status output in
      if bool_decide (st = StatusOK) && fleb threshold conf then handleStepSuccess env stepID result s
      else if decide (st = StatusDelegationRequired) then
        handleDelegationRequired (Some (env_cfg env)) decID (env_now env) stepID output s
      else if bool_decide (st ∈ [StatusCapabilityRequired; StatusApprovalRequired; StatusPartial; StatusFailed])
              || fltb conf threshold
      then (handleStepFailure env ord tools decID stepID result s).1
      else handleDefaultFailure (Some (env_cfg env)) ord decID (env_now env) stepID s
  end.

(** ** Deposits: lemmas and properties *)

Lemma deposit_key_lookup key v ws k :
  deposit_key key v ws !! k = if decide (k = key) then Some (default v (ws !! key)) else ws !! k.
Proof.
  unfold deposit_key. case_decide as Hk; [subst k|].
  - destruct (ws !! key) as [w|] eqn:E; [done|]. by rewrite lookup_insert_eq.
  - destruct (ws !! key); [done|]. by rewrite lookup_insert_ne.
Qed.

Lemma AutoDepositResult_lookup stepID m g k :
  stepID ≠ "" →
  TaskGraph.GlobalWorkspace (AutoDepositResult stepID (Some m) g) !! k =
  if decide (k = stepID ∨ k = "result") then Some (default (any_of_map m) (TaskGraph.GlobalWorkspace g !! k))
  else TaskGraph.GlobalWorkspace g !! k.
Proof.
  intros Hne. unfold AutoDepositResult. rewrite (decide_False (P := stepID = "")) by done.
  change (deposit_key "result" (any_of_map m) (deposit_key stepID (any_of_map m) (TaskGraph.GlobalWorkspace g)) !! k = 
   (if decide (k = stepID ∨ k = "result") then Some (default (any_of_map m) (TaskGraph.GlobalWorkspace g !! k))
    else TaskGraph.GlobalWorkspace g !! k)).
  rewrite !deposit_key_lookup.
  destruct (decide (k = "result")) as [->|Hr]; [rewrite (decide_True (P := _ ∨ _)) by tauto|].
  - case_decide; [subst|done]. done.
  - destruct (decide (k = stepID)) as [->|]; [by rewrite decide_True by tauto|by rewrite decide_False by tauto].
Qed.

(** The first deposit wins.  Whatever a step's earlier attempt deposited
    (a failed attempt deposits too) is still there after any number of later
    deposits of the same step, and so is the first value under "result". *)
Theorem deposit_first_wins stepID m (later : list (gmap string any)) g :
  stepID ≠ "" → TaskGraph.GlobalWorkspace g !! stepID = None → TaskGraph.GlobalWorkspace g !! "result" = None →
  let g' := foldl (λ g m', AutoDepositResult stepID (Some m') g) (AutoDepositResult stepID (Some m) g) later in
  TaskGraph.GlobalWorkspace g' !! stepID = Some (any_of_map m) ∧
  TaskGraph.GlobalWorkspace g' !! "result" = Some (any_of_map m).
Proof.
  intros Hne H1 H2 g'. unfold g'.
  assert (∀ h, TaskGraph.GlobalWorkspace h !! stepID = Some (any_of_map m) →
    TaskGraph.GlobalWorkspace h !! "result" = Some (any_of_map m) →
    let h' := foldl (λ g m', AutoDepositResult stepID (Some m') g) h later in
    TaskGraph.GlobalWorkspace h' !! stepID = Some (any_of_map m) ∧
    TaskGraph.GlobalWorkspace h' !! "result" = Some (any_of_map m)) as Hind.
  { induction later as [|m' later IH]; intros h Ha Hb; cbn [foldl]; [done|].
    apply IH; rewrite AutoDepositResult_lookup by done; rewrite decide_True by tauto; by rewrite ?Ha, ?Hb. }
  apply Hind; rewrite AutoDepositResult_lookup by done; rewrite decide_True by tauto; by rewrite ?H1, ?H2.
Qed.
Lemma deposit_first_wins_witness :
  let g := blankGraph "t" [blankStep "a" StepRunning []] in
  TaskGraph.GlobalWorkspace (AutoDepositResult "a" (Some {["x" := AInt 2]}) (AutoDepositResult "a" (Some {["x" := AInt 1]}) g)) !! "a"
  = Some (any_of_map {["x" := AInt 1]}).
Proof.
  cbv zeta.
  refine (proj1 (deposit_first_wins "a" {["x" := AInt 1]} [{["x" := AInt 2]}]
    (blankGraph "t" [blankStep "a" StepRunning []]) _ _ _)).
  - discriminate.
  - reflexivity.
  - reflexivity.
Defined.

(** The programmatic merge.  No strategy touches another key; "append"
    adds one entry to the list under the key, "unique" adds it unless an entry
    prints the same (so merging twice is merging once), "overlay" replaces. *)
Theorem merge_workspace_spec show strategy key val ws k :
  let ws' := merge_workspace show strategy key val ws in
  (k ≠ key → ws' !! k = ws !! k) ∧
  (strategy = "append" → as_list (ws' !! key) = as_list (ws !! key) ++ [val]) ∧
  (strategy = "unique" → merge_workspace show strategy key val ws' = ws' ∧
     (as_list (ws' !! key) = as_list (ws !! key) ∨ as_list (ws' !! key) = as_list (ws !! key) ++ [val])) ∧
  (strategy = "overlay" → ws' !! key = Some val).
Proof.
  intros ws'. unfold ws', merge_workspace. cbv zeta. split; [|split; [|split]].
  - intros Hne. repeat case_match; rewrite ?lookup_insert_ne by done; done.
  - intros ->. rewrite (decide_True (P := "append" = "append")) by done. by rewrite lookup_insert_eq.
  - intros ->. rewrite !(decide_False (P := "unique" = "append")) by done.
    rewrite !(decide_True (P := "unique" = "unique")) by done.
    destruct (existsb (λ v, String.eqb (show v) (show val)) (as_list (ws !! key))) eqn:E.
    + cbv iota. rewrite E. split; [done|by left].
    + cbv iota. rewrite lookup_insert_eq. cbn [as_list]. rewrite existsb_app. cbn [existsb].
      rewrite String.eqb_refl, orb_true_r. split; [done|by right].
  - intros ->. rewrite (decide_False (P := "overlay" = "append")), (decide_False (P := "overlay" = "unique")) by done.
    rewrite (decide_True (P := "overlay" = "overlay")) by done. by rewrite lookup_insert_eq.
Qed.
(** Appending to a key that holds something else than a list forgets it. *)
Example append_drops_overlay :
  merge_workspace (λ _, "") "append" "k" (AInt 2) {["k" := AString "kept?"]} !! "k" = Some (AList [AInt 2]).
Proof. reflexivity. Qed.

(** ** Budget *)

(** A positive budget within the safety margin admits no step at all: the
    check fails before any token is spent. *)
Theorem small_budget_never_admits margin g :
  (0 < TaskGraph.TokenBudget g ≤ NewBudgetGuard margin)%Z → (0 ≤ TaskGraph.TokensUsed g)%Z →
  in_int64 (NewBudgetGuard margin) →
  is_Some (CheckBudget (NewBudgetGuard margin) g).
Proof.
  intros [H1 H2] Hu Hm. unfold CheckBudget. rewrite wrap64_id.
  - rewrite !bool_decide_true by lia. by eexists.
  - unfold in_int64, int64_min, int64_max in *. lia.
Qed.
Lemma small_budget_never_admits_witness :
  is_Some (CheckBudget (NewBudgetGuard 0) ((blankGraph "t" []) <| TaskGraph.TokenBudget := 1500%Z |>)).
Proof.
  apply small_budget_never_admits.
  - vm_compute. split; [reflexivity|discriminate].
  - vm_compute. discriminate.
  - vm_compute. split; discriminate.
Defined.

(** Spending is checked exactly.  As long as the counters stay in range the
    guard reports the budget as exceeded, and pauses the task, exactly when the
    tokens used reach the budget less the margin; a task without a budget is
    never stopped. *)
Theorem DeductBudget_exact margin tokens g :
  (0 ≤ margin)%Z → (0 ≤ TaskGraph.TokenBudget g ≤ int64_max)%Z → (margin ≤ int64_max)%Z →
  (0 ≤ tokens)%Z → (0 ≤ TaskGraph.TokensUsed g)%Z → (TaskGraph.TokensUsed g + tokens ≤ int64_max)%Z →
  let r := DeductBudget margin tokens g in
  TaskGraph.TokensUsed r.1 = (TaskGraph.TokensUsed g + tokens)%Z ∧
  (r.2 = true ↔ 0 < TaskGraph.TokenBudget g ∧ TaskGraph.TokenBudget g - margin ≤ TaskGraph.TokensUsed g + tokens)%Z ∧
  (r.2 = true ↔ is_Some (CheckBudget margin r.1)) ∧
  TaskGraph.BudgetPaused r.1 = (r.2 || TaskGraph.BudgetPaused g).
Proof.
  intros Hm Hb Hm2 Ht Hu Hsum r. unfold r, DeductBudget. cbv zeta.
  change (TaskGraph.TokensUsed (g <| TaskGraph.TokensUsed ::= λ u, wrap64 (u + tokens) |>))
    with (wrap64 (TaskGraph.TokensUsed g + tokens)).
  change (TaskGraph.TokenBudget (g <| TaskGraph.TokensUsed ::= λ u, wrap64 (u + tokens) |>))
    with (TaskGraph.TokenBudget g).
  assert (wrap64 (TaskGraph.TokensUsed g + tokens) = (TaskGraph.TokensUsed g + tokens)%Z) as E1
    by (apply wrap64_id; unfold in_int64, int64_min, int64_max in *; lia).
  assert (wrap64 (TaskGraph.TokenBudget g - margin) = (TaskGraph.TokenBudget g - margin)%Z) as E2
    by (apply wrap64_id; unfold in_int64, int64_min, int64_max in *; lia).
  assert (∀ h, TaskGraph.TokenBudget h = TaskGraph.TokenBudget g →
    TaskGraph.TokensUsed h = (TaskGraph.TokensUsed g + tokens)%Z →
    (is_Some (CheckBudget margin h) ↔
     0 < TaskGraph.TokenBudget g ∧ TaskGraph.TokenBudget g - margin ≤ TaskGraph.TokensUsed g + tokens)%Z) as Hc.
  { intros h Ha Hb2. unfold CheckBudget. rewrite Ha, Hb2, E2.
    destruct (bool_decide _ && bool_decide _) eqn:E.
    - rewrite andb_true_iff, !bool_decide_eq_true in E. split; [tauto|by eexists].
    - rewrite andb_false_iff, !bool_decide_eq_false in E. split; [by intros []|]. lia. }
  rewrite E1, E2.
  destruct (bool_decide (0 < TaskGraph.TokenBudget g)%Z &&
    bool_decide (TaskGraph.TokenBudget g - margin ≤ TaskGraph.TokensUsed g + tokens)%Z) eqn:E; cbn [fst snd].
  - rewrite andb_true_iff, !bool_decide_eq_true in E. split; [exact E1|]. split; [tauto|].
    split; [|done]. rewrite Hc; [tauto|done|exact E1].
  - rewrite andb_false_iff, !bool_decide_eq_false in E. split; [exact E1|]. split; [split; [done|lia]|].
    split; [|done]. rewrite Hc; [|done|exact E1]. split; [done|lia].
Qed.
Lemma DeductBudget_exact_witness :
  (DeductBudget 2000 500 ((blankGraph "t" []) <| TaskGraph.TokenBudget := 2400%Z |>)).2 = true.
Proof.
  refine (proj2 (proj1 (proj2 (DeductBudget_exact 2000 500
    ((blankGraph "t" []) <| TaskGraph.TokenBudget := 2400%Z |>) _ _ _ _ _ _))) _);
    vm_compute; try split; first [reflexivity|discriminate].
Defined.

(** ** Which parts of the graph a handler touches *)

(** [keeps_steps g g']: same steps, decisions and status; the workspace, files
    and edges may differ. *)
Record keeps_steps (g g' : TaskGraph.t) : Prop := mk_keeps {
  keeps_Steps : TaskGraph.Steps g' = TaskGraph.Steps g;
  keeps_Pending : TaskGraph.PendingDecisions g' = TaskGraph.PendingDecisions g;
  keeps_Status : TaskGraph.Status g' = TaskGraph.Status g
}.
#[export] Instance keeps_steps_preorder : PreOrder keeps_steps.
Proof. split; [done|]. intros a b c [] []. split; congruence. Qed.

Lemma keeps_deposit stepID r g : keeps_steps g (AutoDepositResult stepID r g).
Proof. unfold AutoDepositResult. destruct r; [|done]. by case_decide. Qed.
Lemma keeps_merge env step r g : keeps_steps g (merge_result env step r g).
Proof. unfold merge_result. by destruct (_ || _). Qed.
Lemma keeps_output_file f g : keeps_steps g (add_output_file f g).
Proof. by destruct f. Qed.
Lemma keeps_deduct env o g : keeps_steps g (deduct_usage env o g).
Proof.
  unfold deduct_usage. destruct (SubagentOutput.Usage_ o), (budget_margin env); try done.
  case_decide; [|done]. unfold DeductBudget. cbv zeta. by destruct (_ && _).
Qed.
Lemma archiveStep_graph env stepID r s : gs_graph (archiveStep env stepID r s) = gs_graph s.
Proof. unfold archiveStep. by destruct (env_archive env). Qed.

Lemma side_load_step env stepID r g id :
  ∃ f, get_step (side_load env stepID r g) id = f <$> get_step g id ∧
    (∀ st, Step.Status (f st) = Step.Status st ∧ Step.LastError (f st) = Step.LastError st ∧
       Step.ID (f st) = Step.ID st ∧ Step.DependsOn (f st) = Step.DependsOn st) ∧
    (id ≠ stepID → ∀ st, f st = st) ∧
    TaskGraph.PendingDecisions (side_load env stepID r g) = TaskGraph.PendingDecisions g ∧
    TaskGraph.Status (side_load env stepID r g) = TaskGraph.Status g.
Proof.
  unfold side_load. destruct (asset_handle env _ _ _) as [f|].
  - cbv zeta. unfold get_step. rewrite upd_step_lookup. 
    change (TaskGraph.Steps (g <| TaskGraph.OutputFiles ::= _ |>)) with (TaskGraph.Steps g).
    case_decide as Hd.
    + eexists. split; [reflexivity|]. split_and!; try done.
    + exists (λ x, x). split_and!; try done. by destruct (TaskGraph.Steps g !! id).
  - exists (λ x, x). split_and!; try done. by destruct (get_step g id).
Qed.

(** What a successful output leaves of the task. *)
Definition completes (stepID : string) (g g' : TaskGraph.t) : Prop :=
  (∃ st st', get_step g stepID = Some st ∧ get_step g' stepID = Some st' ∧
     Step.Status st' = StepOK ∧ Step.LastError st' = "" ∧
     Step.ID st' = Step.ID st ∧ Step.DependsOn st' = Step.DependsOn st) ∧
  (∀ id, id ≠ stepID → get_step g' id = get_step g id) ∧
  TaskGraph.PendingDecisions g' = TaskGraph.PendingDecisions g ∧
  TaskGraph.Status g' = TaskGraph.Status g.

Lemma keeps_get_step g g' id : keeps_steps g g' → get_step g' id = get_step g id.
Proof. intros [H _ _]. unfold get_step. by rewrite H. Qed.

Definition mark_ok (ref : string) (st : Step.t) : Step.t :=
  st <| Step.Status := StepOK |> <| Step.LastError := "" |> <| Step.ResultRef := ref |>.

(** The graph part of [handleStepSuccess]. *)
Lemma handleStepSuccess_graph env stepID result s st :
  get_step (gs_graph s) stepID = Some st →
  let res := result_map (SpawnResult.Output result) in
  let step := mark_ok (SpawnResult.Ref result) st in
  gs_graph (handleStepSuccess env stepID result s) =
  side_load env stepID res (add_output_file (output_file env step res)
    (AutoDepositResult stepID (SubagentOutput.Result (SpawnResult.Output result))
      (merge_result env step res (upd_step stepID (mark_ok (SpawnResult.Ref result)) (gs_graph s))))).
Proof.
  intros Hs res step. unfold handleStepSuccess. cbv zeta.
  change (gs_graph (on_step stepID _ s)) with (upd_step stepID (mark_ok (SpawnResult.Ref result)) (gs_graph s)).
  assert (get_step (upd_step stepID (mark_ok (SpawnResult.Ref result)) (gs_graph s)) stepID = Some step) as ->.
  { unfold get_step. rewrite upd_step_lookup, decide_True by done. unfold get_step in Hs. by rewrite Hs. }
  fold res. unfold archiveStep. destruct (env_archive env); reflexivity.
Qed.

Lemma handleStepSuccess_completes env stepID result s st :
  get_step (gs_graph s) stepID = Some st →
  completes stepID (gs_graph s) (gs_graph (handleStepSuccess env stepID result s)).
Proof.
  intros Hs. rewrite (handleStepSuccess_graph env stepID result s st Hs). cbv zeta.
  set (g1 := upd_step stepID (mark_ok (SpawnResult.Ref result)) (gs_graph s)).
  assert (get_step g1 stepID = Some (mark_ok (SpawnResult.Ref result) st)) as H1.
  { unfold g1, get_step. rewrite upd_step_lookup, decide_True by done. unfold get_step in Hs. by rewrite Hs. }
  match goal with |- completes _ _ (side_load env stepID ?r ?g4) =>
    pose proof (λ id, side_load_step env stepID r g4 id) as Hside;
    assert (keeps_steps g1 g4) as Hk; [|generalize dependent g4] end.
  { etrans; [|apply keeps_output_file]. etrans; [|apply keeps_deposit]. apply keeps_merge. }
  intros g4 Hside Hk. split; [|split; [|split]].
  - destruct (Hside stepID) as (f & Hf & Hfs & _). exists st, (f (mark_ok (SpawnResult.Ref result) st)).
    rewrite Hf, (keeps_get_step _ _ _ Hk), H1. split; [done|]. split; [done|].
    destruct (Hfs (mark_ok (SpawnResult.Ref result) st)) as (-> & -> & -> & ->). done.
  - intros id Hne. destruct (Hside id) as (f & Hf & _ & Hfid & _).
    rewrite Hf, (keeps_get_step _ _ _ Hk). unfold g1, get_step. rewrite upd_step_lookup, decide_False by done.
    destruct (TaskGraph.Steps (gs_graph s) !! id); [|done]. cbn. by rewrite Hfid.
  - destruct (Hside stepID) as (f & _ & _ & _ & -> & _). by rewrite (keeps_Pending _ _ Hk).
  - destruct (Hside stepID) as (f & _ & _ & _ & _ & ->). by rewrite (keeps_Status _ _ Hk).
Qed.

(** An accepted output completes its step. *)
Lemma handleOutput_ok env ord tools decID stepID r s st :
  get_step (gs_graph s) stepID = Some st →
  SubagentOutput.Status (SpawnResult.Output r) = StatusOK →
  fleb (ConfidenceThreshold (env_cfg env)) (SubagentOutput.Confidence (SpawnResult.Output r)) = true →
  completes stepID (gs_graph s) (gs_graph (handleOutput env ord tools decID stepID (Some r) s)).
Proof.
  intros Hs Hst Hc. unfold handleOutput. cbv zeta. rewrite Hst, Hc, bool_decide_true by done. cbn [andb].
  match goal with |- completes _ _ (gs_graph (handleStepSuccess _ _ _ ?s1)) =>
    assert (∃ st1, get_step (gs_graph s1) stepID = Some st1 ∧ Step.ID st1 = Step.ID st ∧
              Step.DependsOn st1 = Step.DependsOn st) as (st1 & H1 & Hi1 & Hd1);
    [|pose proof (handleStepSuccess_completes env stepID r s1 st1 H1) as (Ha & Hb & Hp & Hg);
      set (s2 := s1) in *] end.
  { unfold get_step. cbn. rewrite lookup_alter_eq.
    rewrite (keeps_Steps _ _ (keeps_deduct env (SpawnResult.Output r) (gs_graph s))).
    unfold get_step in Hs. rewrite Hs. by eexists. }
  pose proof (keeps_deduct env (SpawnResult.Output r) (gs_graph s)) as Hk.
  split; [|split; [|split]].
  - destruct Ha as (st2 & st' & H2 & H3 & H4 & H5 & H6 & H7). rewrite H1 in H2. injection H2 as <-.
    exists st, st'. split_and!; congruence.
  - intros id Hne. rewrite Hb by done. unfold s2, on_step, get_step.
    change (gs_graph (on_graph ?f ?x)) with (f (gs_graph x)). rewrite upd_step_lookup, decide_False by done.
    apply (keeps_get_step _ _ id Hk).
  - rewrite Hp. apply (keeps_Pending _ _ Hk).
  - rewrite Hg. apply (keeps_Status _ _ Hk).
Qed.

(** An accepted output (status ok, confidence at least the threshold)
    completes exactly its step: the step is OK without an error, every other
    step, the parked decisions and the task's status are as before. *)
Theorem ok_output_completes env ord tools decID stepID r s st :
  get_step (gs_graph s) stepID = Some st →
  SubagentOutput.Status (SpawnResult.Output r) = StatusOK →
  fleb (ConfidenceThreshold (env_cfg env)) (SubagentOutput.Confidence (SpawnResult.Output r)) = true →
  completes stepID (gs_graph s) (gs_graph (handleOutput env ord tools decID stepID (Some r) s)).
Proof. exact (handleOutput_ok env ord tools decID stepID r s st). Qed.

(** ** Failed outputs *)

Lemma diagnoseFault_approval o step c sug det :
  SubagentOutput.Status o ≠ StatusApprovalRequired →
  diagnoseFault (Some o) step = (c, sug, det) → c ≠ FailureClassApprovalRequired.
Proof.
  intros Hne. unfold diagnoseFault. rewrite decide_False by done.
  repeat case_match; intros [= <- _ _]; done.
Qed.

Lemma reclassify_approval tools ord c sug det c' sug' det' :
  c ≠ FailureClassApprovalRequired →
  reclassifyToolRefusal tools ord c sug det = (c', sug', det') → c' ≠ FailureClassApprovalRequired.
Proof. unfold reclassifyToolRefusal. intros Hne. repeat case_match; intros [= <- _ _]; done. Qed.

Lemma get_step_on_step stepID f s id :
  get_step (gs_graph (on_step stepID f s)) id =
  if decide (stepID = id) then f <$> get_step (gs_graph s) id else get_step (gs_graph s) id.
Proof. apply upd_step_lookup. Qed.

(** Follow-up: on success the step is deprecated; otherwise it still exists and
    nothing was parked. *)
Lemma spawn_follow_up_cases env ord cause missing step s stepID :
  range_order (TaskGraph.Steps (gs_graph s)) ord → wf_graph (gs_graph s) →
  get_step (gs_graph s) stepID = Some step →
  let r := spawn_follow_up env ord cause missing step s in
  (r.2 = true ∧ Step.Status <$> get_step (gs_graph r.1) stepID = Some StepDeprecated) ∨
  (r.2 = false ∧ untouched (gs_graph s) (gs_graph r.1) ∧ wf_graph (gs_graph r.1) ∧
   ∃ st, get_step (gs_graph r.1) stepID = Some st).
Proof.
  intros Ho Hwf Hs r. unfold r, spawn_follow_up. cbv zeta. destruct (_ && _).
  2: { right. split_and!; [done|done|done|by eexists]. }
  generalize (if decide (0 < Step.MaxSpawnDepth step)%Z then Step.MaxSpawnDepth step
              else SysMaxSpawnDepth (env_cfg env)). intros ms.
  set (data := follow_up_surgery env ms missing step).
  assert (DeprecatedStepID data = stepID) as Hd by (unfold data; by apply Hwf).
  pose proof (mutate_untouched (gs_graph s) ord (env_now env) data) as Hu.
  destruct (mutateGraphTopologyLocked (gs_graph s) ord (env_now env) data) as [g [e|]] eqn:Em.
  - right. split; [done|]. split; [exact Hu|].
    assert (get_step g stepID = Some (step <| Step.Status := StepDeprecated |>)) as Hg.
    { rewrite <- Hd. eapply mutate_deprecates; [done|done|by rewrite Hd|exact Em]. }
    split; [|by eexists]. by eapply mutate_wf.
  - left. split; [done|].
    assert (get_step g stepID = Some (step <| Step.Status := StepDeprecated |>)) as Hg.
    { rewrite <- Hd. eapply mutate_deprecates; [done|done|by rewrite Hd|exact Em]. }
    change (Step.Status <$> get_step g stepID = Some StepDeprecated). by rewrite Hg.
Qed.

Lemma activate_fallback_cases env ord stepID cause output s st :
  get_step (gs_graph s) stepID = Some st →
  let r := activate_fallback env ord stepID cause output s in
  (r.2 = true ∧ ∃ st', get_step (gs_graph r.1) stepID = Some st' ∧
     Step.Status st' ∈ [StepFailed; StepPending]) ∨ r = (s, false).
Proof.
  intros Hs r. unfold r, activate_fallback.
  destruct (FallbackFor (gs_graph s) ord stepID) as [fb|]; [|by right].
  case_decide; [|by right]. left. split; [done|].
  match goal with |- ∃ st', get_step (gs_graph (on_graph ?f ?x, true).1) stepID = Some st' ∧ _ =>
    change (∃ st', get_step (gs_graph x) stepID = Some st' ∧ Step.Status st' ∈ [StepFailed; StepPending]) end.
  cbv zeta. rewrite !get_step_on_step, (decide_True (P := stepID = stepID)) by done. rewrite Hs.
  case_decide; eexists; (split; [reflexivity|]); cbn; [right; left|left].
Qed.

Lemma block_and_ask_spec env decID stepID cause sug det o s st :
  get_step (gs_graph s) stepID = Some st →
  let s' := block_and_ask env decID stepID cause sug det o s in
  Step.Status <$> get_step (gs_graph s') stepID = Some StepBlocked ∧
  (isTerminalStatus (TaskGraph.Status (gs_graph s)) = false →
   ∃ dec, TaskGraph.PendingDecisions (gs_graph s') = TaskGraph.PendingDecisions (gs_graph s) ++ [dec] ∧
     Decision.ID dec = decID ∧ Decision.StepID dec = Step.ID st ∧ Decision.Type_ dec = DecisionStepFailed).
Proof.
  intros Hs s'. unfold s', block_and_ask. cbv zeta.
  match goal with |- context [addDecision ?a ?b ?c ?d ?e ?f ?g ?h] => set (s1 := h); set (ctx := f) end.
  assert (gs_graph s1 = upd_step stepID (λ x, x <| Step.Status := StepBlocked |>) (gs_graph s)) as Hg1.
  { unfold s1. by destruct (tool_failures env). }
  assert (get_step (gs_graph s1) stepID = Some (st <| Step.Status := StepBlocked |>)) as H1.
  { rewrite Hg1. unfold get_step. rewrite upd_step_lookup, decide_True by done. unfold get_step in Hs. by rewrite Hs. }
  split.
  - unfold get_step. rewrite addDecision_Steps. fold (get_step (gs_graph s1) stepID). by rewrite H1.
  - intros Ht. destruct (addDecision_cases (Some (env_cfg env)) decID (env_now env) stepID _ DecisionStepFailed ctx
      (failure_options env cause det) s1 H1) as [(Hf & _)|(_ & dec & Ha & Hb & Hc & _ & Hg & _)].
    + rewrite Hg1 in Hf. change (isTerminalStatus (TaskGraph.Status (gs_graph s)) = true) in Hf. congruence.
    + exists dec. rewrite Hg, Hg1. split_and!; try done.
Qed.

(** The outcomes of the failure handler. *)
Lemma handleStepFailure_settles env ord tools decID stepID r s st :
  range_order (TaskGraph.Steps (gs_graph s)) ord → wf_graph (gs_graph s) →
  get_step (gs_graph s) stepID = Some st →
  SubagentOutput.Status (SpawnResult.Output r) ≠ StatusApprovalRequired →
  let h := handleStepFailure env ord tools decID stepID r s in
  (h.2 = VerdictReturn ∧ ∃ st', get_step (gs_graph h.1) stepID = Some st' ∧
     Step.Status st' ∈ [StepPending; StepSuspended; StepDeprecated; StepFailed]) ∨
  (h.2 = VerdictContinue ∧ Step.Status <$> get_step (gs_graph h.1) stepID = Some StepBlocked ∧
   (isTerminalStatus (TaskGraph.Status (gs_graph s)) = false →
    ∃ dec, TaskGraph.PendingDecisions (gs_graph h.1) = TaskGraph.PendingDecisions (gs_graph s) ++ [dec] ∧
      Decision.ID dec = decID ∧ Decision.StepID dec = stepID ∧ Decision.Type_ dec = DecisionStepFailed)).
Proof.
  intros Ho Hwf Hs Hna h. unfold h, handleStepFailure. cbv zeta.
  set (o := SpawnResult.Output r) in *.
  set (s1 := archiveStep env stepID (result_map o) (on_graph (AutoDepositResult stepID (SubagentOutput.Result o)) s)).
  assert (keeps_steps (gs_graph s) (gs_graph s1)) as Hk.
  { unfold s1. rewrite archiveStep_graph. apply keeps_deposit. }
  assert (get_step (gs_graph s1) stepID = Some st) as Hs1 by by rewrite (keeps_get_step _ _ _ Hk).
  assert (wf_graph (gs_graph s1)) as Hwf1 by by (unfold wf_graph; rewrite (keeps_Steps _ _ Hk)).
  assert (range_order (TaskGraph.Steps (gs_graph s1)) ord) as Ho1 by by rewrite (keeps_Steps _ _ Hk).
  rewrite Hs1. destruct (diagnoseFault (Some o) st) as [[c sug] det] eqn:Ed.
  destruct (reclassifyToolRefusal (tool_failures env) tools c sug det) as [[c' sug'] det'] eqn:Er.
  rewrite decide_False by (by eapply reclassify_approval; [eapply diagnoseFault_approval|]).
  pose proof (tryBacktrack_cases (Some (env_cfg env)) (env_archive env) decID (env_now env) stepID
    (SubagentOutput.MissingContext o) s1 st Hwf1 Hs1) as Hb.
  destruct (tryBacktrack _ _ _ _ _ _ s1) as [s2 handled] eqn:Eb. cbn [fst snd] in Hb.
  destruct Hb as [(_ & -> & ->)|[(_ & -> & _ & _ & _ & _ & _ & (st' & Hst' & Hp & _) & _)|(_ & -> & _ & _ & Hsus & _)]].
  - destruct (spawn_follow_up_cases env ord c' (SubagentOutput.MissingContext o) st s1 stepID Ho1 Hwf1 Hs1)
      as [(Hf & Hst)|(Hf & Hu & Hwf2 & st2 & Hs2)];
      destruct (spawn_follow_up env ord c' (SubagentOutput.MissingContext o) st s1) as [s2 b] eqn:E2;
      cbn [fst snd] in *; subst b.
    + left. split; [done|]. apply fmap_Some in Hst as (st' & Hst' & Hd). exists st'. split; [done|].
      rewrite <- Hd. right; right; left.
    + destruct (activate_fallback_cases env ord stepID c' o s2 st2 Hs2) as [(Hf3 & st3 & Hs3 & Hin)|E3].
      * destruct (activate_fallback env ord stepID c' o s2) as [s3 b3]. cbn [fst snd] in *. subst b3.
        left. split; [done|]. exists st3. split; [done|]. set_solver.
      * rewrite E3. right. split; [done|]. cbn [fst].
        destruct (block_and_ask_spec env decID stepID c' sug' det' o s2 st2 Hs2) as [Ha Hb].
        split; [exact Ha|]. intros Ht.
        destruct Hb as (dec & Hb1 & Hb2 & Hb3 & Hb4).
        { by rewrite (un_status _ _ Hu), (keeps_Status _ _ Hk). }
        exists dec. rewrite Hb1, (un_pending _ _ Hu), (keeps_Pending _ _ Hk). split_and!; try done.
        rewrite Hb3. by apply Hwf2.
  - left. split; [done|]. exists st'. split; [done|]. rewrite Hp. left.
  - left. split; [done|]. specialize (Hsus stepID (or_introl eq_refl)). rewrite Hs1 in Hsus.
    apply fmap_Some in Hsus as (st' & Hst' & Hd). exists st'. split; [done|].
    cbn in Hd. rewrite <- Hd. right; left.
Qed.

(** An output that is not accepted never leaves its step running.  Unless
    the output asks for an approval, the failure handler ends in one of two
    ways: it handled the failure itself, and the step is pending again (a
    supplement round), suspended (the fuse), deprecated in favour of a
    follow-up step, or failed in favour of its fallback; or the step is
    blocked and, on a live task, a decision about it is parked. *)
Theorem failed_output_settles env ord tools decID stepID r s st :
  range_order (TaskGraph.Steps (gs_graph s)) ord → wf_graph (gs_graph s) →
  get_step (gs_graph s) stepID = Some st →
  SubagentOutput.Status (SpawnResult.Output r) ≠ StatusApprovalRequired →
  let h := handleStepFailure env ord tools decID stepID r s in
  (h.2 = VerdictReturn ∧ ∃ st', get_step (gs_graph h.1) stepID = Some st' ∧
     Step.Status st' ∈ [StepPending; StepSuspended; StepDeprecated; StepFailed]) ∨
  (h.2 = VerdictContinue ∧ Step.Status <$> get_step (gs_graph h.1) stepID = Some StepBlocked ∧
   (isTerminalStatus (TaskGraph.Status (gs_graph s)) = false →
    ∃ dec, TaskGraph.PendingDecisions (gs_graph h.1) = TaskGraph.PendingDecisions (gs_graph s) ++ [dec] ∧
      Decision.ID dec = decID ∧ Decision.StepID dec = stepID ∧ Decision.Type_ dec = DecisionStepFailed)).
Proof. exact (handleStepFailure_settles env ord tools decID stepID r s st). Qed.

(** ** Witnesses *)

Definition ex_out_env : OutEnv :=
  mkOutEnv ex_cfg None (Some ∅) None (λ _ _ _, None) (λ _, "0.90") (λ _, "v") (λ _, 0%Z) (Some 2000%Z) "ab12" 11.
Definition ex_output (st : SubagentStatus) (missing : list string) : SpawnResult.t :=
  SpawnResult.mk (SubagentOutput.mk st float_one (Some {["summary" := AString "done"]}) missing [] [] [] "" None [] [] [] [] 0)
    "t:a" "model" [].
Definition ex_run_state : GateState :=
  mkGate (blankGraph "t" [blankStep "a" StepRunning []; blankStep "b" StepPending ["a"]]) ∅ [].

Lemma ok_output_completes_witness :
  completes "a" (gs_graph ex_run_state)
    (gs_graph (handleOutput ex_out_env ["a"; "b"] [] "d" "a" (Some (ex_output StatusOK [])) ex_run_state)).
Proof.
  apply (ok_output_completes ex_out_env ["a"; "b"] [] "d" "a" (ex_output StatusOK []) ex_run_state
    (blankStep "a" StepRunning [])); vm_compute; reflexivity.
Defined.

Lemma failed_output_settles_witness :
  ∃ dec, TaskGraph.PendingDecisions
      (gs_graph (handleStepFailure ex_out_env ["a"; "b"] [] "d" "a" (ex_output StatusFailed []) ex_run_state).1) = [dec] ∧
    Decision.StepID dec = "a".
Proof.
  destruct (failed_output_settles ex_out_env ["a"; "b"] [] "d" "a" (ex_output StatusFailed []) ex_run_state
    (blankStep "a" StepRunning [])) as [[H _]|(_ & _ & H)].
  - unfold range_order. apply (bool_decide_unpack _). vm_compute. exact I.
  - apply wf_graphb_true. vm_compute. reflexivity.
  - vm_compute. reflexivity.
  - discriminate.
  - exfalso. revert H. vm_compute. discriminate.
  - destruct (H eq_refl) as (dec & H1 & _ & H2 & _). exists dec. split; [exact H1|exact H2].
Defined.
