(* ===== verification/Verify.v ===== *)
(** * Verifying a step's output

    core/scheduler_decision_audit.go ([verifyExitCriteria] and what it calls),
    core/artifact_validator.go and core/verify/deterministic_verifier.go.

    Files, compiled regular expressions, JSON parsing, child processes and the
    spawned auditor are in [VerifyEnv].  An answer of the spawner is indexed by
    the number of the call within one verification, so that two rounds of a
    debate may be answered differently.  The write of "debate_content" into the
    result map, log lines and the regexp cache (a memo table) are left out. *)

From S2P Require Import Prelude TaskStatus Schema FailureClass JsonRepair.
From Stdlib Require Import Ascii.

(** [VerificationFailureType] (schemas/task_status.go). *)
Inductive FailType :=
| FailureNone | FailureTimeout | FailurePermission | FailureConflict
| FailureLogicError | FailureSchemaViolation.
#[export] Instance FailType_eq_dec : EqDecision FailType.
Proof. solve_decision. Defined.
Definition fail_string (f : FailType) : string :=
  match f with
  | FailureNone => ""
  | FailureTimeout => "timeout"
  | FailurePermission => "permission"
  | FailureConflict => "conflict"
  | FailureLogicError => "logic_error"
  | FailureSchemaViolation => "schema_violation"
  end.

(** Passed, the reason, the failure type. *)
Definition Verdict : Type := bool * string * FailType.
Definition passes (v : Verdict) : bool := v.1.1.
Definition pass : Verdict := (true, "", FailureNone).

Record VerifyEnv := mkVerifyEnv {
  read_file : string → result string string;
  stat_size : string → option Z;
  resolve_path : string → string → string;
  json_object : string → result string (gmap string any);
  json_valid : string → bool;
  compile_regex : string → option (string → bool);
  run_command : list string → option string;
  go_files : string → list string;
  command_allowlist : string;
  workdir : string;
  other_type : nat → string;
  show_value : any → string;
  spawn_role : nat → string → string → string → result string (option (gmap string any))
}.

(** ** Strings *)

Definition upper_byte (a : ascii) : ascii :=
  let n := nat_of_ascii a in if (97 <=? n) && (n <=? 122) then ascii_of_nat (n - 32) else a.
Fixpoint to_upper (s : string) : string :=
  match s with
  | EmptyString => EmptyString
  | String a s' => String (upper_byte a) (to_upper s')
  end.

Definition newline : string := String (ascii_of_nat 10) EmptyString.

(** [fmt.Sprintf] with %v of a map: the entries in key order between [map\[] and [\]]. *)
Definition fmt_result (show : any → string) (m : option (gmap string any)) : string :=
  let m := default ∅ m in
  ("map[" +:+ join " " ((λ k, k +:+ ":" +:+ from_option show "" (m !! k)) <$> sort_strings (elements (dom m)))
     +:+ "]")%string.

(** ** Artifact contracts *)

Inductive ProblemReason :=
| ProblemUnreadable | ProblemNotJSON | ProblemMissing | ProblemTypeSchemaAbsent | ProblemWrongType.
#[export] Instance ProblemReason_eq_dec : EqDecision ProblemReason.
Proof. solve_decision. Defined.

Record ArtifactProblem := mkProblem {
  pr_Field : string;
  pr_Reason : ProblemReason;
  pr_Detail : string
}.

Definition jsonGoType (other : nat → string) (v : any) : string :=
  match v with
  | ANil => "null"
  | AString _ => "string"
  | AFloat _ | AInt _ | AInt64 _ => "number"
  | ABool _ => "boolean"
  | AList _ => "array"
  | AMap _ => "object"
  | AStrings _ => "[]string"
  | AOther n => other n
  end.

(** The two loops over the contract's fields. *)
Definition missing_fields (doc : gmap string any) (required : list string) : list ArtifactProblem :=
  flat_map (λ f, match doc !! f with
                 | None => [mkProblem f ProblemMissing ""]
                 | Some _ => []
                 end) required.
Definition typed_field (other : nat → string) (doc : gmap string any) (required : list string)
    (schema : gmap string string) (f : string) : list ArtifactProblem :=
  match doc !! f with
  | None => if bool_decide (f ∈ required) then [] else [mkProblem f ProblemTypeSchemaAbsent ""]
  | Some v =>
      let actual := jsonGoType other v in
      if String.eqb actual (default "" (schema !! f)) then [] else [mkProblem f ProblemWrongType actual]
  end.
Definition InspectArtifact (env : VerifyEnv) (ac : Artifact.t) : list ArtifactProblem :=
  let required := Artifact.RequiredFields ac in
  let schema := Artifact.TypeSchema ac in
  if bool_decide (required = []) && bool_decide (schema = ∅) then []
  else
    match read_file env (Artifact.Path ac) with
    | Err e => [mkProblem "" ProblemUnreadable e]
    | Ok raw =>
        match json_object env raw with
        | Err e => [mkProblem "" ProblemNotJSON e]
        | Ok doc =>
            missing_fields doc required ++
            flat_map (typed_field (other_type env) doc required schema) (sort_strings (elements (dom schema)))
        end
    end.

Definition ValidateArtifact (env : VerifyEnv) (ac : Artifact.t) : option string :=
  match InspectArtifact env ac with
  | [] => None
  | p :: _ =>
      let path := Artifact.Path ac in
      let field := pr_Field p in
      Some (match pr_Reason p with
            | ProblemUnreadable => "artifact " +:+ path +:+ ": cannot read file for validation: " +:+ pr_Detail p
            | ProblemNotJSON => "artifact " +:+ path +:+ ": schema_violation: content is not valid JSON: " +:+ pr_Detail p
            | ProblemWrongType =>
                "artifact " +:+ path +:+ ": schema_violation: field " +:+ go_quote field +:+ " expected type "
                  +:+ go_quote (default "" (Artifact.TypeSchema ac !! field)) +:+ ", got " +:+ go_quote (pr_Detail p)
            | ProblemTypeSchemaAbsent =>
                "artifact " +:+ path +:+ ": schema_violation: field " +:+ go_quote field
                  +:+ " declared in type_schema but absent"
            | ProblemMissing =>
                "artifact " +:+ path +:+ ": schema_violation: missing required field " +:+ go_quote field
            end)%string
  end.

(** The primary files of the step are checked against its output contract. *)
Fixpoint validate_files (env : VerifyEnv) (step : Step.t) (files : list OutputFile.t) : Verdict :=
  match files with
  | [] => pass
  | f :: files' =>
      if negb (String.eqb (OutputFile.StepID f) (Step.ID step)) || negb (OutputFile.IsPrimary f)
      then validate_files env step files'
      else
        let c := Step.OutputContract step in
        match ValidateArtifact env (zeroContract <| Artifact.Path := OutputFile.Path f |>
                <| Artifact.RequiredFields := Artifact.RequiredFields c |>
                <| Artifact.TypeSchema := Artifact.TypeSchema c |>) with
        | Some e => (false, ("artifact contract violated: " +:+ e)%string, FailureSchemaViolation)
        | None => validate_files env step files'
        end
  end.
Definition validateArtifactContract (env : VerifyEnv) (g : TaskGraph.t) (step : Step.t) : Verdict :=
  let c := Step.OutputContract step in
  if bool_decide (Artifact.RequiredFields c ≠ []) || bool_decide (Artifact.TypeSchema c ≠ ∅)
  then validate_files env step (TaskGraph.OutputFiles g) else pass.

(** ** Deterministic checks *)

Definition param_string (params : list (string * any)) (k : string) : string :=
  default "" (as_string (amap_get params k)).
Definition abs_path (env : VerifyEnv) (path : string) : string := resolve_path env (workdir env) path.

Definition verify_file_exists (env : VerifyEnv) (params : list (string * any)) : bool * string :=
  let path := param_string params "path" in
  if decide (path = "") then (false, "missing 'path' parameter")
  else
    match stat_size env (abs_path env path) with
    | None => (false, ("file not found: " +:+ path)%string)
    | Some size => if decide (size = 0)%Z then (false, ("file is empty: " +:+ path)%string) else (true, "")
    end.

(** The characters a command must not hold. *)
Definition shell_meta (a : ascii) : bool :=
  let n := nat_of_ascii a in
  existsb (Nat.eqb n) [59; 124; 38; 36; 96; 62; 60; 10; 13; 37; 34].
(** [%q] of a rune. *)
Definition quote_rune (a : ascii) : string :=
  let n := nat_of_ascii a in
  let body := if n =? 10 then String backslash "n"
              else if n =? 13 then String backslash "r" else String a EmptyString in
  ("'" +:+ body +:+ "'")%string.
Definition default_allowlist : list string :=
  ["test"; "echo"; "cat"; "ls"; "grep"; "git"; "go"; "python3"; "python"; "node"; "npm"; "make"; "diff";
   "wc"; "head"; "tail"; "sort"; "uniq"; "find"; "true"].
Definition allowlist (custom : string) : list string :=
  if decide (custom = "") then default_allowlist else TrimSpace <$> split_on "," custom.
Definition has_separator (s : string) : bool :=
  existsb (λ a, (nat_of_ascii a =? 47) || (nat_of_ascii a =? 92)) (bytes s).
(** The screening before anything runs: the argument vector or the reason. *)
Definition screen_command (custom cmd : string) : result string (list string) :=
  if decide (cmd = "") then Err "missing 'command' parameter"
  else
    match List.find shell_meta (bytes cmd) with
    | Some ch => Err ("command rejected: contains shell metacharacter " +:+ quote_rune ch +:+ " (audit S-C1)")%string
    | None =>
        match fields cmd with
        | [] => Err "empty command after parsing"
        | exe :: args =>
            if has_separator exe
            then Err "command rejected: path separators not allowed in executable (audit NEW-1); use a bare command name"
            else if existsb (String.eqb exe) (allowlist custom) then Ok (exe :: args)
            else Err ("command rejected: executable " +:+ go_quote exe +:+ " not in allowlist (audit S-C1)")%string
        end
    end.
(** [run_command] gives the error and output of the child, or nothing. *)
Definition verify_command_pass (env : VerifyEnv) (params : list (string * any)) : bool * string :=
  match screen_command (command_allowlist env) (param_string params "command") with
  | Err e => (false, e)
  | Ok argv =>
      match run_command env argv with
      | Some e => (false, ("command failed: " +:+ e)%string)
      | None => (true, "")
      end
  end.

Definition verify_plan_checkboxes (env : VerifyEnv) (params : list (string * any)) : bool * string :=
  let path := param_string params "path" in
  if decide (path = "") then (false, "missing 'path' parameter")
  else
    match read_file env (abs_path env path) with
    | Err _ => (false, ("plan file not found: " +:+ path)%string)
    | Ok content =>
        let unchecked := count content "- [ ]" in
        let total := unchecked + count content "- [x]" + count content "- [X]" in
        if total =? 0 then (true, "no checkboxes in plan (numbered list format)")
        else if 0 <? unchecked
        then (false, (pretty (Z.of_nat unchecked) +:+ "/" +:+ pretty (Z.of_nat total)
                       +:+ " plan checkboxes still unchecked")%string)
        else (true, ("all " +:+ pretty (Z.of_nat total) +:+ " plan checkboxes completed")%string)
    end.

Definition entity_patterns (name : string) : list string :=
  ["func " +:+ name +:+ " "; "func " +:+ name +:+ "("; "type " +:+ name +:+ " "; "type " +:+ name +:+ "[";
   "var " +:+ name +:+ " "; "var " +:+ name +:+ newline; "const " +:+ name +:+ " "; "const " +:+ name +:+ newline;
   ") " +:+ name +:+ "("; ") " +:+ name +:+ " "]%string.
Definition entityFound (contents : list string) (name : string) : bool :=
  existsb (λ content, existsb (λ p, contains p content) (entity_patterns name)) contents.
Definition verify_code_entities (env : VerifyEnv) (params : list (string * any)) : bool * string :=
  match amap_get params "entities" with
  | Some (AList (e :: es)) =>
      let dir := param_string params "search_dir" in
      let dir := if decide (dir = "") then workdir env else dir in
      if decide (dir = "") then (false, "no search directory (neither search_dir nor workdir set)")
      else
        let names := filter (λ n, n ≠ "") ((λ e, default "" (as_string (Some e))) <$> e :: es) in
        let missing := filter (λ n, entityFound (go_files env dir) n = false) names in
        if decide (missing = [])
        then (true, ("all " +:+ pretty (Z.of_nat (length names)) +:+ " code entities verified")%string)
        else (false, ("code entities not found: " +:+ join ", " missing)%string)
  | _ => (false, "missing or empty 'entities' parameter")
  end.

(** The registry of verifiers. *)
Definition deterministicVerifiers (env : VerifyEnv) (ty : string)
    : option (list (string * any) → bool * string) :=
  if decide (ty = "file_exists") then Some (verify_file_exists env)
  else if decide (ty = "command_pass") then Some (verify_command_pass env)
  else if decide (ty = "plan_checkboxes") then Some (verify_plan_checkboxes env)
  else if decide (ty = "code_entities") then Some (verify_code_entities env)
  else None.
Fixpoint RunDeterministicChecks (env : VerifyEnv) (checks : list DeterministicCheck) : bool * string * string :=
  match checks with
  | [] => (true, "", "")
  | c :: cs =>
      match deterministicVerifiers env (check_Type c) with
      | None => RunDeterministicChecks env cs
      | Some verify =>
          let '(ok, msg) := verify (check_Params c) in
          if ok then RunDeterministicChecks env cs
          else (false, ("deterministic check [" +:+ check_Type c +:+ "] failed: " +:+ msg)%string,
                if decide (check_Type c = "file_exists") then "schema_violation" else "logic_error")
      end
  end.

(** ** The auditor *)

(** Reading an auditor's reply. *)
Definition audit_fail_type (upper : string) : FailType :=
  if contains "TIMEOUT" upper then FailureTimeout
  else if contains "PERMISSION" upper || contains "ACCESS DENIED" upper then FailurePermission
  else if contains "CONFLICT" upper then FailureConflict
  else if contains "SCHEMA" upper || contains "JSON" upper then FailureSchemaViolation
  else FailureLogicError.
Definition audit_verdict (text : string) : Verdict :=
  let upper := to_upper text in
  if has_prefix "PASS" upper then pass else (false, text, audit_fail_type upper).

Definition q (s : string) : string := (quote_str +:+ s +:+ quote_str)%string.
Definition critic_prompt (step : Step.t) (content : string) : string :=
  ("You are a strict security and correctness auditor.
Evaluate if the following agent output successfully satisfies the criteria for task: " +:+ q (Step.Task step) +:+ ".

CRITERIA / EXIT CRITERIA:
" +:+ Step.ExitCriteria step +:+ "

AGENT OUTPUT:
" +:+ content +:+ "

Respond ONLY with 'PASS' or 'FAIL: <category>: <reason>'.
Categories: TIMEOUT, PERMISSION, CONFLICT, LOGIC, SCHEMA")%string.
Definition runCriticAudit (env : VerifyEnv) (call : nat) (step : Step.t) (content : string) : Verdict :=
  match spawn_role env call (Step.ID step +:+ "_critic")%string "auditor" (critic_prompt step content) with
  | Err e => (false, ("critic error: " +:+ e)%string, FailureLogicError)
  | Ok res => audit_verdict (fmt_result (show_value env) res)
  end.

Definition synth_prompt (step : Step.t) (content critique : string) : string :=
  ("You previously produced the following output for task: " +:+ q (Step.Task step) +:+ ".

YOUR PREVIOUS OUTPUT:
" +:+ content +:+ "

A cross-family critic model has reviewed your output and found these issues:
" +:+ critique +:+ "

Please produce a REVISED output that addresses all the critic's concerns.
Output ONLY the revised result, no explanations.")%string.
Definition runProposerSynthesize (env : VerifyEnv) (call : nat) (step : Step.t) (content critique : string)
    : result string string :=
  match spawn_role env call (Step.ID step +:+ "_synthesize")%string (Step.RoleID step)
          (synth_prompt step content critique) with
  | Err e => Err e
  | Ok res => Ok (fmt_result (show_value env) res)
  end.

(** The debate: [rounds] rounds left, [call] spawns made. *)
Fixpoint debate_rounds (env : VerifyEnv) (rounds call : nat) (step : Step.t) (content : string) (last : Verdict)
    : Verdict :=
  match rounds with
  | 0 => last
  | S rounds' =>
      let v := runCriticAudit env call step content in
      if passes v then pass
      else if rounds' =? 0 then v
      else
        match runProposerSynthesize env (S call) step content v.1.2 with
        | Err _ => v
        | Ok revised => debate_rounds env rounds' (S (S call)) step revised v
        end
  end.
Definition debate_cap (maxRounds : Z) : nat :=
  let rounds := if decide (maxRounds ≤ 0)%Z then 1%Z else maxRounds in
  Z.to_nat (if decide (2 < rounds)%Z then 2%Z else rounds).
Definition executeDebateAndAudit (env : VerifyEnv) (step : Step.t) (res : option (gmap string any)) : Verdict :=
  debate_rounds env (debate_cap (Step.MaxDebateRounds step)) 0 step
    (fmt_result (show_value env) (Some (default ∅ res))) (false, "", FailureNone).

(** Rubrics: one per non-empty line of the reply. *)
Definition generateDynamicRubrics (env : VerifyEnv) (call : nat) (step : Step.t) : result string (list string) :=
  let prompt := ("Analyze the following task and generate 3 specific, micro-level audit constraints (Rubrics) to verify its success. Output ONLY the list items, one per line:

Task: " +:+ Step.Task step)%string in
  match spawn_role env call ("rubric_" +:+ Step.ID step)%string "auditor" prompt with
  | Err e => Err e
  | Ok res =>
      let m := default ∅ res in
      let content := match as_string (m !! "content") with
                     | Some c => c
                     | None => match as_string (m !! "raw") with
                               | Some r => r
                               | None => fmt_result (show_value env) res
                               end
                     end in
      Ok (filter (λ l, l ≠ "") (TrimSpace <$> split_on (ascii_of_nat 10) content))
  end.

(** ** Exit criteria *)

Definition verifyJSONCriterion (env : VerifyEnv) (res : option (gmap string any)) : Verdict :=
  let m := default ∅ res in
  match as_string (m !! "raw") with
  | None => if decide (m = ∅) then (false, "output is not valid JSON", FailureSchemaViolation) else pass
  | Some raw =>
      if json_valid env raw then pass
      else
        let (repaired, ok) := Repair (json_valid env) raw in
        if ok && json_valid env repaired then pass
        else (false, "output is not valid JSON", FailureSchemaViolation)
  end.

(** The regex: and file: criteria: nothing when the criterion is of another kind. *)
Definition pattern_check (env : VerifyEnv) (criteria content : string) : option (result Verdict (bool * string)) :=
  if has_prefix "regex:" criteria then
    let pattern := TrimPrefix criteria "regex:" in
    match compile_regex env pattern with
    | None => Some (Err (false, "invalid regex criteria", FailureLogicError))
    | Some re => Some (Ok (re content, ("output did not match regex pattern: " +:+ pattern)%string))
    end
  else if has_prefix "file:" criteria then
    let path := TrimPrefix criteria "file:" in
    Some (Ok (match stat_size env path with Some n => bool_decide (1024 < n)%Z | None => false end,
              ("file not found or too small: " +:+ path)%string))
  else None.

Definition baseline_rules (task : string) : string :=
  let t := to_lower task in
  let extra := if contains "code" t || contains "go" t || contains "patch" t
               then (newline +:+ "3. If code changes introduce syntax errors, incomplete implementations, or violate compilation.")%string
               else "" in
  ("1. If the output claims success without showing actual tool execution results or valid evidence.
2. If any required field is missing, truncated, or placeholder/dummy data is used." +:+ extra)%string.
Definition audit_prompt (step : Step.t) (content rules : string) : string :=
  ("You are a strict security and correctness auditor. 
Evaluate if the following agent output successfully satisfies the criteria for task: " +:+ q (Step.Task step) +:+ ".

CRITERIA / EXIT CRITERIA:
" +:+ Step.ExitCriteria step +:+ "

AGENT OUTPUT:
" +:+ content +:+ "

STRICT RULES TO FAIL (Respond 'FAIL: LOGIC: <reason>'):
" +:+ rules +:+ "

Respond ONLY with 'PASS' or 'FAIL: <category>: <reason>'.
Categories: TIMEOUT, PERMISSION, CONFLICT, LOGIC, SCHEMA")%string.

(** The rubrics an audit uses, and the step with those it generated. *)
Definition audit_rules (env : VerifyEnv) (step : Step.t) : string * Step.t :=
  match Step.DynamicRubrics step with
  | _ :: _ => (join newline (Step.DynamicRubrics step), step)
  | [] =>
      match generateDynamicRubrics env 0 step with
      | Ok (r :: rs) => (join newline (r :: rs), step <| Step.DynamicRubrics := r :: rs |>)
      | _ => (baseline_rules (Step.Task step), step)
      end
  end.

(** The criteria left when no auditor gave a verdict. *)
Definition final_check (env : VerifyEnv) (step : Step.t) (res : option (gmap string any)) (content : string) : Verdict :=
  let criteria := Step.ExitCriteria step in
  if decide (criteria = "json") then verifyJSONCriterion env res
  else if negb (String.eqb criteria "") && negb (contains (to_lower criteria) (to_lower content))
  then (false, ("output missing required keyword: " +:+ criteria)%string, FailureLogicError)
  else pass.
Definition check_fail_type (ty : string) : FailType :=
  if decide (ty = "schema_violation") then FailureSchemaViolation else FailureLogicError.

(** The cases after the regex: and file: criteria. *)
Definition audited_check (env : VerifyEnv) (step : Step.t) (res : option (gmap string any)) (content : string)
    : Verdict * Step.t :=
  match RunDeterministicChecks env (Step.DeterministicChecks step) with
  | (false, msg, ty) => ((false, msg, check_fail_type ty), step)
  | (true, _, _) =>
      if decide (Step.VerifierModel step = "") then (final_check env step res content, step)
      else if Step.EnableDebate step then (executeDebateAndAudit env step res, step)
      else
        let '(rules, step) := audit_rules env step in
        match spawn_role env 1 (Step.ID step +:+ "_audit")%string "auditor" (audit_prompt step content rules) with
        | Ok reply => (audit_verdict (fmt_result (show_value env) reply), step)
        | Err _ => (final_check env step res content, step)
        end
  end.
Definition verifyExitCriteria (env : VerifyEnv) (g : TaskGraph.t) (step : Step.t) (res : option (gmap string any))
    : Verdict * Step.t :=
  let content := fmt_result (show_value env) res in
  let contract := validateArtifactContract env g step in
  if negb (passes contract) then (contract, step)
  else
    match pattern_check env (Step.ExitCriteria step) content with
    | Some (Err v) => (v, step)
    | Some (Ok (ok, msg)) =>
        if decide (Step.VerifierModel step = "")
        then (if ok then pass else (false, msg, FailureLogicError), step)
        else audited_check env step res content
    | None => audited_check env step res content
    end.

(** ** Artifact contracts: properties *)

(** What a contract asks of the file on disk. *)
Definition contract_met (env : VerifyEnv) (ac : Artifact.t) : Prop :=
  ∃ raw doc, read_file env (Artifact.Path ac) = Ok raw ∧ json_object env raw = Ok doc ∧
    (∀ f, f ∈ Artifact.RequiredFields ac → is_Some (doc !! f)) ∧
    (∀ f ty, Artifact.TypeSchema ac !! f = Some ty →
       ∃ v, doc !! f = Some v ∧ jsonGoType (other_type env) v = ty).

Lemma flat_map_nil {A B} (f : A → list B) (l : list A) : flat_map f l = [] ↔ ∀ x, x ∈ l → f x = [].
Proof.
  induction l as [|a l IH]; cbn [flat_map].
  - split; [by intros _ x ?%elem_of_nil|done].
  - rewrite app_nil, IH. setoid_rewrite elem_of_cons. split; [|auto].
    intros [Ha Hl] x [->|?]; auto.
Qed.

Lemma missing_fields_nil doc required :
  missing_fields doc required = [] ↔ ∀ f, f ∈ required → is_Some (doc !! f).
Proof.
  unfold missing_fields. rewrite flat_map_nil. split; intros H f Hf; specialize (H f Hf);
    destruct (doc !! f); try done; by destruct H.
Qed.

Lemma typed_fields_nil other doc required schema :
  (∀ f, f ∈ required → is_Some (doc !! f)) →
  flat_map (typed_field other doc required schema) (sort_strings (elements (dom schema))) = [] ↔
  ∀ f ty, schema !! f = Some ty → ∃ v, doc !! f = Some v ∧ jsonGoType other v = ty.
Proof.
  intros Hr. rewrite flat_map_nil. split.
  - intros H f ty Hf. specialize (H f). unfold typed_field in H.
    assert (f ∈ sort_strings (elements (dom schema))) as Hin.
    { rewrite sort_strings_perm, elem_of_elements. apply elem_of_dom. by eexists. }
    specialize (H Hin). destruct (doc !! f) as [v|] eqn:Ev.
    + exists v. split; [done|]. rewrite Hf in H. cbn [default from_option] in H.
      destruct (String.eqb _ _) eqn:E; [|done]. by apply String.eqb_eq.
    + case_bool_decide as Hq; [|done]. apply Hr in Hq. rewrite Ev in Hq. by destruct Hq.
  - intros H f Hin. rewrite sort_strings_perm, elem_of_elements in Hin.
    apply elem_of_dom in Hin as [ty Hf]. destruct (H f ty Hf) as (v & Hv & Hty).
    unfold typed_field. rewrite Hv, Hf. cbn [default from_option]. by rewrite Hty, String.eqb_refl.
Qed.

(** The validator is exact.  No problem is reported, and [ValidateArtifact]
    accepts, exactly when the contract constrains nothing or the file can be
    read, is a JSON object, holds every required field and every typed field
    with its type. *)
Theorem artifact_contract_exact env ac :
  (InspectArtifact env ac = [] ↔
     (Artifact.RequiredFields ac = [] ∧ Artifact.TypeSchema ac = ∅) ∨ contract_met env ac) ∧
  (ValidateArtifact env ac = None ↔ InspectArtifact env ac = []).
Proof.
  split; [|unfold ValidateArtifact; by destruct (InspectArtifact env ac)].
  unfold InspectArtifact. cbv zeta. destruct (bool_decide _ && bool_decide _) eqn:E.
  { rewrite andb_true_iff, !bool_decide_eq_true in E. tauto. }
  assert (¬ (Artifact.RequiredFields ac = [] ∧ Artifact.TypeSchema ac = ∅)) as Hn.
  { rewrite andb_false_iff, !bool_decide_eq_false in E. tauto. }
  unfold contract_met. destruct (read_file env (Artifact.Path ac)) as [raw|e].
  2: { split; [done|]. intros [?|(? & ? & ? & _)]; [done|congruence]. }
  destruct (json_object env raw) as [doc|e] eqn:Ej.
  2: { split; [done|]. intros [?|(? & ? & [= <-] & ? & _)]; [done|congruence]. }
  rewrite app_nil. split.
  - intros [H1 H2]. rewrite missing_fields_nil in H1. right. exists raw, doc.
    split_and!; try done. intros f ty. by apply (typed_fields_nil _ _ _ _ H1).
  - intros [?|(raw' & doc' & [= <-] & Hj & H1 & H2)]; [done|].
    assert (doc' = doc) as -> by congruence.
    split; [by apply missing_fields_nil|by apply typed_fields_nil].
Qed.

(** ** Commands: properties *)

Definition clean_char (a : ascii) : Prop := shell_meta a = false ∧ is_space a = false.

Lemma fields_from_clean s cur w :
  Forall (λ a, shell_meta a = false) (bytes s) → Forall clean_char (bytes cur) →
  w ∈ fields_from s cur → w ≠ "" ∧ Forall clean_char (bytes w).
Proof.
  assert (∀ c, Forall clean_char (bytes c) → w ∈ flush_word c → w ≠ "" ∧ Forall clean_char (bytes w)) as Hc.
  { intros c Hf Hw. unfold flush_word in Hw. destruct (String.eqb_spec c "") as [|Hne]; [by apply elem_of_nil in Hw|].
    apply list_elem_of_singleton in Hw as ->. rewrite bytes_srev. split; [|by apply Forall_reverse].
    intros Hs. apply (f_equal bytes) in Hs. rewrite bytes_srev in Hs.
    apply (f_equal length) in Hs. rewrite length_reverse in Hs. by destruct c. }
  assert (∀ n s cur, String.length s ≤ n → Forall (λ a, shell_meta a = false) (bytes s) → Forall clean_char (bytes cur) →
    w ∈ fields_from s cur → w ≠ "" ∧ Forall clean_char (bytes w)) as Hn; [|by intros; eapply (Hn (String.length s) s cur)].
  clear s cur. induction n as [|n IH]; intros s cur Hlen Hs Hcur Hin.
  { destruct s; [by eapply Hc|cbn in Hlen; lia]. }
  assert (∀ s' c, String.length s' ≤ n → Forall (λ a, shell_meta a = false) (bytes s') → Forall clean_char (bytes c) →
    w ∈ flush_word c ++ fields_from s' "" → w ≠ "" ∧ Forall clean_char (bytes w)) as Hbreak.
  { intros s' c Hl Hs' Hcl [Hw|Hw]%elem_of_app; [by eapply Hc|]. by apply (IH s' "" Hl Hs' (Forall_nil_2 _)). }
  destruct s as [|a s]; [by eapply Hc|]. cbn [fields_from] in Hin. cbn in Hlen.
  change (bytes (String a s)) with (a :: bytes s) in Hs. apply Forall_cons in Hs as [Ha Hs].
  destruct (is_space a) eqn:Esp; [by eapply (Hbreak s); [lia|..]|].
  assert (w ∈ fields_from s (String a cur) → w ≠ "" ∧ Forall clean_char (bytes w)) as Hnext.
  { apply IH; [lia|done|]. apply Forall_cons. by split. }
  destruct s as [|b s]; [by apply Hnext|]. cbn in Hlen. change (bytes (String b s)) with (b :: bytes s) in Hs.
  pose proof (Forall_inv_tail Hs) as Hs2. destruct (space2 a b); [by eapply (Hbreak s); [lia|..]|].
  destruct s as [|c s]; [by apply Hnext|]. cbn in Hlen. change (bytes (String c s)) with (c :: bytes s) in Hs2.
  destruct (space3 a b c); [|by apply Hnext]. eapply (Hbreak s); [lia|by apply Forall_inv_tail in Hs2|done|done].
Qed.

Lemma find_none_Forall {A} (p : A → bool) l : List.find p l = None ↔ Forall (λ a, p a = false) l.
Proof.
  induction l as [|a l IH]; cbn; [split; [constructor|done]|].
  rewrite Forall_cons, <- IH. destruct (p a); naive_solver.
Qed.

(** A child process is started only for a screened command.  The check runs
    an argument vector exactly when the command holds no shell metacharacter,
    its first word is on the allowlist and holds no path separator; the vector
    is then the command's words, and no word is empty or holds a metacharacter
    or white space. *)
Theorem command_screen_exact custom cmd argv :
  (screen_command custom cmd = Ok argv ↔
   Forall (λ a, shell_meta a = false) (bytes cmd) ∧ fields cmd = argv ∧
   ∃ exe args, argv = exe :: args ∧ has_separator exe = false ∧ exe ∈ allowlist custom) ∧
  (screen_command custom cmd = Ok argv → Forall (λ w, w ≠ "" ∧ Forall clean_char (bytes w)) argv).
Proof.
  assert (screen_command custom cmd = Ok argv ↔
   Forall (λ a, shell_meta a = false) (bytes cmd) ∧ fields cmd = argv ∧
   ∃ exe args, argv = exe :: args ∧ has_separator exe = false ∧ exe ∈ allowlist custom) as Hiff.
  { unfold screen_command. case_decide as Hc.
    { subst cmd. split; [done|]. intros (_ & <- & exe & args & [=] & _). }
    rewrite <- find_none_Forall. destruct (List.find shell_meta (bytes cmd)); [by split; [|intros []]|].
    destruct (fields cmd) as [|exe args]; [split; [done|]; by intros (_ & <- & ? & ? & [=] & _)|].
    destruct (has_separator exe) eqn:Es.
    { split; [done|]. intros (_ & <- & exe' & args' & [= <- <-] & ? & _). congruence. }
    destruct (existsb _ _) eqn:Ea.
    - split.
      + intros [= <-]. split_and!; try done. exists exe, args. split_and!; try done.
        apply existsb_exists in Ea as (y & Hy & ->%String.eqb_eq). by apply list_elem_of_In.
      + by intros (_ & <- & _).
    - split; [done|]. intros (_ & <- & exe' & args' & [= <- <-] & _ & Hin).
      apply not_true_iff_false in Ea. destruct Ea. apply existsb_exists. exists exe.
      split; [by apply list_elem_of_In|apply String.eqb_refl]. }
  split; [exact Hiff|]. intros (Hm & <- & _)%Hiff. apply Forall_forall. intros w Hw.
  apply (fields_from_clean cmd ""); [exact Hm|constructor|exact Hw].
Qed.
Lemma command_screen_exact_witness :
  Forall (λ w, w ≠ "" ∧ Forall clean_char (bytes w)) ["go"; "vet"; "./..."].
Proof. refine (proj2 (command_screen_exact "" "go vet  ./... " ["go"; "vet"; "./..."]) _). reflexivity. Defined.
Example command_screen_rejects :
  screen_command "" "/tmp/evil/git status" =
  Err "command rejected: path separators not allowed in executable (audit NEW-1); use a bare command name".
Proof. reflexivity. Qed.

(** ** Exit criteria: properties *)

Lemma audit_reply_fails show m : passes (audit_verdict (fmt_result show m)) = false.
Proof. reflexivity. Qed.

Lemma critic_fails env call step content : passes (runCriticAudit env call step content) = false.
Proof. unfold runCriticAudit. destruct (spawn_role _ _ _ _ _); [apply audit_reply_fails|done]. Qed.

Lemma debate_fails env rounds call step content last :
  passes last = false → passes (debate_rounds env rounds call step content last) = false.
Proof.
  revert call content last. induction rounds as [|n IH]; intros call content last Hl; cbn [debate_rounds]; [done|].
  pose proof (critic_fails env call step content) as Hc. rewrite Hc.
  destruct (n =? 0); [done|]. destruct (runProposerSynthesize _ _ _ _ _); [by apply IH|done].
Qed.

(** The auditor is reached in every debate and whenever its spawn succeeds. *)
Definition auditor_answers (env : VerifyEnv) (step : Step.t) : Prop :=
  Step.EnableDebate step = true ∨
  ∀ prompt, ∃ reply, spawn_role env 1 (Step.ID step +:+ "_audit")%string "auditor" prompt = Ok reply.

Lemma audited_check_fails env step res content :
  Step.VerifierModel step ≠ "" → auditor_answers env step →
  passes (audited_check env step res content).1 = false.
Proof.
  intros Hm Ha. unfold audited_check. destruct (RunDeterministicChecks _ _) as [[[] msg] ty]; [|done].
  rewrite decide_False by done. destruct (Step.EnableDebate step) eqn:Ed; [by apply debate_fails|].
  destruct Ha as [Ha|Ha]; [congruence|]. unfold audit_rules.
  assert (∀ rules step', Step.ID step' = Step.ID step →
    passes (match spawn_role env 1 (Step.ID step' +:+ "_audit")%string "auditor" (audit_prompt step' content rules) with
     | Ok reply => (audit_verdict (fmt_result (show_value env) reply), step')
     | Err _ => (final_check env step' res content, step')
     end).1 = false) as Hgo.
  { intros rules step' Hid. rewrite Hid. destruct (Ha (audit_prompt step' content rules)) as [reply ->].
    apply audit_reply_fails. }
  destruct (Step.DynamicRubrics step); [|by apply Hgo].
  destruct (generateDynamicRubrics env 0 step) as [[|r rs]|]; by apply Hgo.
Qed.

Lemma verified_step_fails env g step res :
  Step.VerifierModel step ≠ "" → auditor_answers env step →
  passes (verifyExitCriteria env g step res).1 = false.
Proof.
  intros Hm Ha. unfold verifyExitCriteria. cbv zeta.
  destruct (passes (validateArtifactContract env g step)) eqn:Ec; cbn [negb]; [|done].
  destruct (pattern_check _ _ _) as [[[ok msg]|v]|] eqn:Ep.
  - rewrite decide_False by done. by apply audited_check_fails.
  - unfold pattern_check in Ep. repeat case_match; try done; by injection Ep as <-.
  - by apply audited_check_fails.
Qed.

(** No auditor's verdict is ever a pass.  The reply is printed with %v of a
    map before it is compared with "PASS", so the text always starts with
    "map\[": a step with a verifier model fails its verification whatever the
    auditor answers, in a debate even when the auditor cannot be reached. *)
Theorem auditor_never_passes env g step res :
  Step.VerifierModel step ≠ "" → auditor_answers env step →
  passes (verifyExitCriteria env g step res).1 = false.
Proof. exact (verified_step_fails env g step res). Qed.

Definition ex_verify_env (reply : result string (option (gmap string any))) : VerifyEnv :=
  mkVerifyEnv (λ _, Err "no file") (λ _, None) (λ _ p, p) (λ _, Err "") (λ _, false)
    (λ p, Some (λ c, contains p c)) (λ _, None) (λ _, []) "" "" (λ _, "")
    (λ v, match v with AString s => s | _ => "" end) (λ _ _ _ _, reply).
Lemma auditor_never_passes_witness :
  let step := (blankStep "a" StepOK []) <| Step.ExitCriteria := "done" |> <| Step.VerifierModel := "m" |> in
  passes (verifyExitCriteria (ex_verify_env (Ok (Some {["raw" := AString "PASS"]})))
    (blankGraph "t" [step]) step (Some {["raw" := AString "done"]})).1 = false.
Proof.
  cbv zeta. apply auditor_never_passes.
  - discriminate.
  - right. intros prompt. eexists. reflexivity.
Defined.

Lemma validate_files_checks env step checks files :
  validate_files env (step <| Step.DeterministicChecks := checks |>) files = validate_files env step files.
Proof.
  induction files as [|f files IH]; [done|]. cbn [validate_files]. rewrite IH. reflexivity.
Qed.
Lemma validateArtifactContract_checks env g step checks :
  validateArtifactContract env g (step <| Step.DeterministicChecks := checks |>) = validateArtifactContract env g step.
Proof. unfold validateArtifactContract. by rewrite validate_files_checks. Qed.

(** A regex: or file: criterion without a verifier model decides alone: the
    step's deterministic checks are not run, so a step passes whatever they
    would say. *)
Theorem pattern_skips_checks env g step res ok msg :
  Step.VerifierModel step = "" →
  passes (validateArtifactContract env g step) = true →
  pattern_check env (Step.ExitCriteria step) (fmt_result (show_value env) res) = Some (Ok (ok, msg)) →
  ∀ checks, passes (verifyExitCriteria env g (step <| Step.DeterministicChecks := checks |>) res).1 = ok.
Proof.
  intros Hm Hc Hp checks. unfold verifyExitCriteria.
  rewrite validateArtifactContract_checks.
  change (Step.ExitCriteria (step <| Step.DeterministicChecks := checks |>)) with (Step.ExitCriteria step).
  change (Step.VerifierModel (step <| Step.DeterministicChecks := checks |>)) with (Step.VerifierModel step).
  cbv zeta. rewrite Hc, Hp, Hm. by destruct ok.
Qed.
Lemma pattern_skips_checks_witness :
  let step := (blankStep "a" StepOK []) <| Step.ExitCriteria := "regex:done" |> in
  let checks := [mkCheck "file_exists" [("path", AString "report.md")]] in
  passes (verifyExitCriteria (ex_verify_env (Err "down")) (blankGraph "t" [step])
    (step <| Step.DeterministicChecks := checks |>) (Some {["raw" := AString "done"]})).1 = true.
Proof.
  cbv zeta. eapply pattern_skips_checks; reflexivity.
Defined.
