(* ===== verification/CostSentinel.v ===== *)
(** * Cost alerts (core/cost_sentinel.go)

    The two observers: prompt-cache inefficiency per step and budget
    consumption per task.  Their mutexes guard the maps modelled here; an
    observation is one atomic step on the state. *)

From S2P Require Import Prelude.

(** ** Cold prompt caches *)

Definition cache_threshold : Z := 3.
Definition minPromptTokens : Z := 5000.

Module CacheSentinel.
(** [consecutiveZero]: task and step to the running count. *)
Definition key (taskID stepID : string) : string := (taskID +:+ ":" +:+ stepID)%string.
Definition cold (promptTokens cacheRead : Z) : bool :=
  bool_decide (minPromptTokens < promptTokens)%Z && bool_decide (cacheRead = 0)%Z.
Definition Observe (taskID stepID : string) (promptTokens cacheRead : Z) (c : gmap string Z) : gmap string Z * (bool * Z) :=
  let k := key taskID stepID in
  let n := if cold promptTokens cacheRead then wrap64 (default 0%Z (c !! k) + 1) else 0%Z in
  (<[k := n]> c, (bool_decide (cache_threshold ≤ n)%Z, n)).
Definition Reset (taskID stepID : string) (c : gmap string Z) : gmap string Z := delete (key taskID stepID) c.
End CacheSentinel.

(** ** Budget tiers *)

Definition budget_tiers : list Z := [60; 80; 90]%Z.

Module BudgetSentinel.
(** [fired]: task to the tiers alerted. *)
(** One pass over the tiers: the highest tier newly reached and the fired set. *)
Definition fire (v : Z) (acc : Z * gset Z) (tier : Z) : Z * gset Z :=
  let '(highest, fired) := acc in
  if bool_decide (tier ≤ v)%Z && bool_decide (tier ∉ fired)
  then (if bool_decide (highest < tier)%Z then tier else highest, {[tier]} ∪ fired)
  else (highest, fired).
Definition Observe (taskID : string) (pct predictedPct : Z) (b : gmap string (gset Z)) : gmap string (gset Z) * Z :=
  let fired := default ∅ (b !! taskID) in
  let '(highest, fired) := foldl (fire pct) (0%Z, fired) budget_tiers in
  let '(highest, fired) :=
    if bool_decide (highest = 0)%Z && bool_decide (80 ≤ predictedPct)%Z
    then foldl (fire predictedPct) (highest, fired) budget_tiers else (highest, fired) in
  (<[taskID := fired]> b, highest).
Definition Reset (taskID : string) (b : gmap string (gset Z)) : gmap string (gset Z) := delete taskID b.
End BudgetSentinel.

(** ** Properties *)

(** A sequence of rounds of one step: tokens prompted and read from cache. *)
Definition observe_rounds (taskID stepID : string) (rounds : list (Z * Z)) (c : gmap string Z) : gmap string Z :=
  foldl (λ c r, (CacheSentinel.Observe taskID stepID r.1 r.2 c).1) c rounds.
(** The number of cold rounds a list starts with. *)
Fixpoint cold_prefix (rounds : list (Z * Z)) : nat :=
  match rounds with
  | r :: rs => if CacheSentinel.cold r.1 r.2 then S (cold_prefix rs) else 0
  | [] => 0
  end.

Lemma cold_prefix_length rounds : cold_prefix rounds ≤ length rounds.
Proof. induction rounds as [|r rs IH]; cbn; [lia|]. destruct (CacheSentinel.cold _ _); lia. Qed.

Lemma observe_rounds_count taskID stepID rounds :
  (Z.of_nat (length rounds) ≤ int64_max)%Z →
  default 0%Z (observe_rounds taskID stepID rounds ∅ !! CacheSentinel.key taskID stepID) =
  Z.of_nat (cold_prefix (reverse rounds)).
Proof.
  induction rounds as [|r rounds IH] using rev_ind; intros Hl; [done|].
  rewrite length_app in Hl. cbn [length] in Hl.
  unfold observe_rounds in *. rewrite foldl_app, reverse_snoc. cbn [foldl cold_prefix].
  unfold CacheSentinel.Observe at 1. cbn [fst snd]. rewrite lookup_insert_eq. cbn [default from_option id].
  destruct (CacheSentinel.cold r.1 r.2); [|done]. rewrite IH by lia.
  pose proof (cold_prefix_length (reverse rounds)) as Hc. rewrite length_reverse in Hc.
  rewrite wrap64_id; [lia|]. unfold in_int64, int64_min, int64_max in *. lia.
Qed.

(** The cache sentinel alerts on sustained misses only.  After any sequence of
    rounds of a step the next round alerts exactly when it and the two rounds
    before it were all cold (a large prompt with nothing read from the cache);
    any other round starts the count again. *)
Theorem cache_alert_exact taskID stepID rounds p c :
  (Z.of_nat (length rounds) < int64_max)%Z →
  (CacheSentinel.Observe taskID stepID p c (observe_rounds taskID stepID rounds ∅)).2.1 = true ↔
  3 ≤ cold_prefix ((p, c) :: reverse rounds).
Proof.
  intros Hl. cbn [cold_prefix fst snd]. unfold CacheSentinel.Observe. cbn [fst snd].
  rewrite observe_rounds_count by lia. rewrite bool_decide_eq_true.
  destruct (CacheSentinel.cold p c); [|unfold cache_threshold; lia].
  pose proof (cold_prefix_length (reverse rounds)) as Hc. rewrite length_reverse in Hc.
  rewrite wrap64_id; [unfold cache_threshold; lia|]. unfold in_int64, int64_min, int64_max in *. lia.
Qed.
Lemma cache_alert_exact_witness :
  (CacheSentinel.Observe "t" "a" 6000 0 (observe_rounds "t" "a" [(6000, 0); (10, 0); (6000, 0); (7000, 0)]%Z ∅)).2.1 = true.
Proof. apply cache_alert_exact; vm_compute; [reflexivity|lia]. Defined.

(** A sequence of budget observations of any tasks: the alerts raised, each with
    its task. *)
Fixpoint observe_budget (obs : list (string * Z * Z)) (b : gmap string (gset Z)) : list (string * Z) :=
  match obs with
  | [] => []
  | (taskID, pct, predicted) :: rest =>
      let '(b, tier) := BudgetSentinel.Observe taskID pct predicted b in
      (if decide (tier = 0)%Z then [] else [(taskID, tier)]) ++ observe_budget rest b
  end.

(** One pass: nothing fired is forgotten, every tier reached is fired, and an
    alert is a tier that was not fired before and is now. *)
Definition fired_pass (before : gset Z) (highest0 highest : Z) (after : gset Z) : Prop :=
  before ⊆ after ∧ (highest = highest0 ∨ (highest ∉ before ∧ highest ∈ after ∧ highest ∈ budget_tiers)).

Lemma fire_fold v tiers h fired :
  (∀ t, t ∈ tiers → t ∈ budget_tiers) →
  let r := foldl (BudgetSentinel.fire v) (h, fired) tiers in
  fired_pass fired h r.1 r.2 ∧ (∀ t, t ∈ tiers → (t ≤ v)%Z → t ∈ r.2).
Proof.
  revert h fired. induction tiers as [|t tiers IH]; intros h fired Ht r.
  { unfold r. split; [|by intros t ?%elem_of_nil]. split; [done|by left]. }
  unfold r. cbn [foldl].
  change (BudgetSentinel.fire v (h, fired) t) with
    (if bool_decide (t ≤ v)%Z && bool_decide (t ∉ fired)
     then (if bool_decide (h < t)%Z then t else h, {[t]} ∪ fired) else (h, fired)).
  assert (∀ t', t' ∈ tiers → t' ∈ budget_tiers) as Ht' by (intros; apply Ht; by right).
  destruct (bool_decide (t ≤ v)%Z && bool_decide (t ∉ fired)) eqn:E.
  - rewrite andb_true_iff, !bool_decide_eq_true in E.
    set (h' := if bool_decide (h < t)%Z then t else h).
    destruct (IH h' ({[t]} ∪ fired) Ht') as [[Hsub Hh] Hall]. cbn [fst snd] in *. clear IH.
    assert (fired ⊆ {[t]} ∪ fired) as Hf by apply union_subseteq_r.
    assert (t ∈ (foldl (BudgetSentinel.fire v) (h', {[t]} ∪ fired) tiers).2) as Hin.
    { apply Hsub, elem_of_union_l. by apply elem_of_singleton. }
    split; [split; [intros x Hx; apply Hsub, Hf, Hx|]|].
    + destruct Hh as [->|(H1 & H2 & H3)]; [|right; split; [by intros ?%Hf|done]].
      unfold h'. case_bool_decide; [right|by left]. split; [tauto|]. split; [exact Hin|]. apply Ht. by left.
    + intros t' [->|Ht'']%elem_of_cons Hle; [exact Hin|by apply Hall].
  - destruct (IH h fired Ht') as [[Hsub Hh] Hall]. cbn [fst snd] in *.
    rewrite andb_false_iff, !bool_decide_eq_false in E.
    split; [by split|]. intros t' [->|Hin]%elem_of_cons Hle; [|by apply Hall].
    apply Hsub. destruct E as [E|E]; [lia|]. by apply dec_stable.
Qed.

Lemma Observe_fired taskID pct predicted b :
  let r := BudgetSentinel.Observe taskID pct predicted b in
  let before := default ∅ (b !! taskID) in
  ∃ after, r.1 = <[taskID := after]> b ∧ fired_pass before 0 r.2 after ∧
    ∀ t, t ∈ budget_tiers → (t ≤ pct)%Z → t ∈ after.
Proof.
  intros r before. unfold r, BudgetSentinel.Observe. fold before.
  destruct (fire_fold pct budget_tiers 0 before (λ t H, H)) as [[Hs Hh] Ha].
  destruct (foldl (BudgetSentinel.fire pct) (0%Z, before) budget_tiers) as [h fired]. cbn [fst snd] in *.
  destruct (bool_decide (h = 0)%Z && bool_decide (80 ≤ predicted)%Z) eqn:E.
  2: { exists fired. split; [done|]. split; [by split|done]. }
  rewrite andb_true_iff, !bool_decide_eq_true in E. destruct E as [-> _].
  destruct (fire_fold predicted budget_tiers 0 fired (λ t H, H)) as [[Hs2 Hh2] _].
  destruct (foldl (BudgetSentinel.fire predicted) (0%Z, fired) budget_tiers) as [h2 fired2]. cbn [fst snd] in *.
  exists fired2. split; [done|]. split; [|by intros; apply Hs2, Ha].
  split; [by intros x Hx; apply Hs2, Hs|]. destruct Hh2 as [->|(H1 & H2 & H3)]; [by left|right].
  split; [by intros ?%Hs|done].
Qed.

Lemma observe_budget_fresh obs b taskID tier :
  (taskID, tier) ∈ observe_budget obs b → tier ∉ default (∅ : gset Z) (b !! taskID).
Proof.
  revert b. induction obs as [|[[tid pct] pr] obs IH]; intros b; cbn [observe_budget]; [by intros ?%elem_of_nil|].
  destruct (Observe_fired tid pct pr b) as (after & Hb & [Hs Hh] & _).
  destruct (BudgetSentinel.Observe tid pct pr b) as [b' t]. cbn [fst snd] in *. subst b'.
  rewrite elem_of_app. intros [Hin|Hin].
  - case_decide as Ht; [by apply elem_of_nil in Hin|]. apply list_elem_of_singleton in Hin as [= -> ->].
    destruct Hh as [->|[? _]]; done.
  - apply IH in Hin. destruct (decide (taskID = tid)) as [->|Hne].
    + rewrite lookup_insert_eq in Hin. cbn [default from_option id] in Hin. by intros ?%Hs.
    + by rewrite lookup_insert_ne in Hin by done.
Qed.

(** A budget tier is alerted at most once.  Over any interleaving of
    observations of any tasks, without a reset, no task gets the same tier
    twice, and every alert is one of the tiers 60, 80 and 90. *)
Theorem budget_tiers_alert_once obs b :
  NoDup (observe_budget obs b) ∧ Forall (λ a, a.2 ∈ budget_tiers) (observe_budget obs b).
Proof.
  revert b. induction obs as [|[[tid pct] pr] obs IH]; intros b; cbn [observe_budget]; [by split; constructor|].
  destruct (Observe_fired tid pct pr b) as (after & Hb & [Hs Hh] & _).
  destruct (BudgetSentinel.Observe tid pct pr b) as [b' t]. cbn [fst snd] in *. subst b'.
  destruct (IH (<[tid:=after]> b)) as [Hnd Hall].
  case_decide as Ht; [done|]. destruct Hh as [->|(H1 & H2 & H3)]; [done|].
  split; [|by constructor]. cbn [app]. constructor; [|done].
  intros Hin%observe_budget_fresh. rewrite lookup_insert_eq in Hin. by apply Hin.
Qed.
Example budget_alerts :
  observe_budget [("t", 65, 0); ("t", 70, 85); ("u", 95, 0); ("t", 91, 100)]%Z ∅ =
  [("t", 60); ("t", 80); ("u", 90); ("t", 90)]%Z.
Proof. vm_compute. reflexivity. Qed.
