(* ===== verification/Registry.v ===== *)
(** * The registry (config/types.go, config/config.go, config/role_callable.go,
    config/prompt_budget.go, config/mount_policy.go,
    core/capability/discovery.go)

    Roles, skills, MCP definitions and providers by id, as the engine reads
    them when a task is submitted: who may name a role, which MCPs a caller sees,
    which workspace roots an owner gets, and the prompt budget of a model.  The
    records hold the fields this library uses; a nil entry of a map is an
    absent one. *)
From S2P Require Import Prelude Paths.
From Stdlib Require Import Ascii.
Local Open Scope Z_scope.

Module Binding.
Record t := mk { MCPID : string; AllowedTools : list string }.
End Binding.
Module Role.
Record t := mk {
  ID : string; Name : string; Provider : string; BaseCapability : string; Instruction : string; Rules : string;
  BoundSkills : list string; BoundMCPBindings : list Binding.t; CallableTiers : list string; Version : string }.
End Role.
Module Skill.
Record t := mk { ID : string; ExecutionMode : string; PromptsDir : string; SkillDir : string; MountPolicy : string }.
End Skill.
Module MCPDef.
Record t := mk {
  MountPolicy : string; AvailableTools : list string; ToolDescriptions : list (string * string);
  APIKeyEnv : string; URLAuthPlaceholder : string; CredentialScope : string }.
End MCPDef.
Module ProviderConfig.
Record t := mk { PoolID : string; Provider : string; Model : string; ReserveTokens : Z }.
End ProviderConfig.
Module PerOwnerPolicy.
Record t := mk { AllowedRoots : list string; AllowAdminBypass : bool }.
End PerOwnerPolicy.
Module WorkspacePolicy.
Record t := mk { Enabled : bool; SessionSandboxBase : string; AllowedRoots : list string; PerOwner : gmap string PerOwnerPolicy.t }.
#[global] Instance eta : Eta t := λ r, mk (Enabled r) (SessionSandboxBase r) (AllowedRoots r) (PerOwner r).
End WorkspacePolicy.
Module System.
Record t := mk {
  MaxTaskChars : Z; WorkspacePolicy : WorkspacePolicy.t; DelegationMode : bool; EnablePlannerFirst : bool;
  PlannerTimeoutSecs : Z; PlannerMaxSteps : Z; PlannerMaxOutputTokens : Z; DefaultTaskTokenBudget : Z;
  RejectSimpleTasks : bool }.
End System.
Module Registry.
Record t := mk {
  Roles : gmap string Role.t; Skills : gmap string Skill.t; MCPs : gmap string MCPDef.t; DynamicMCPs : gmap string MCPDef.t;
  Providers : gmap string ProviderConfig.t; SOPs : gmap string (string * string); DefaultProvider : string;
  RequirePlanReview : bool; System_ : System.t }.
End Registry.

(** ** Roles *)

(** [CallableByAdmin]: no tiers, or one of the caller's. *)
Fixpoint tier_admits (isAdmin : bool) (tiers : list string) : bool :=
  match tiers with
  | [] => false
  | t :: ts =>
      if String.eqb t "*" then true
      else if String.eqb t "admin" && isAdmin then true
      else if String.eqb t "public" && negb isAdmin then true
      else tier_admits isAdmin ts
  end.
Definition CallableByAdmin (r : option Role.t) (isAdmin : bool) : bool :=
  match r with
  | None => true
  | Some r => match Role.CallableTiers r with [] => true | ts => tier_admits isAdmin ts end
  end.

(** ** Mount policies and credentials *)

Definition effectiveMountPolicy (policy fallback : string) : string :=
  if bool_decide (policy ∈ ["open"; "approval"; "admin_only"]) then policy else fallback.
Definition EffectiveMountPolicy (m : option MCPDef.t) : string :=
  match m with None => "admin_only" | Some m => effectiveMountPolicy (MCPDef.MountPolicy m) "admin_only" end.
Definition Skill_EffectiveMountPolicy (s : option Skill.t) : string :=
  match s with None => "open" | Some s => effectiveMountPolicy (Skill.MountPolicy s) "open" end.
Definition EffectiveCredentialScope (m : option MCPDef.t) : string :=
  match m with
  | None => "operator"
  | Some m => if bool_decide (MCPDef.CredentialScope m ∈ ["operator"; "per_tenant"]) then MCPDef.CredentialScope m else "operator"
  end.
Definition CarriesOperatorCredential (m : option MCPDef.t) : bool :=
  match m with
  | None => false
  | Some d => (negb (String.eqb (TrimSpace (MCPDef.APIKeyEnv d)) "") || negb (String.eqb (TrimSpace (MCPDef.URLAuthPlaceholder d)) ""))
              && String.eqb (EffectiveCredentialScope m) "operator"
  end.

(** ** Workspace roots *)

(** [GetWorkspacePolicy]. *)
Definition GetWorkspacePolicy (r : Registry.t) (ownerID : string) : option WorkspacePolicy.t :=
  let policy := System.WorkspacePolicy (Registry.System_ r) in
  if negb (WorkspacePolicy.Enabled policy) then None
  else if String.eqb ownerID "" then Some policy
  else match WorkspacePolicy.PerOwner policy !! ownerID with
       | None => Some policy
       | Some per =>
           match PerOwnerPolicy.AllowedRoots per with
           | [] => Some policy
           | roots =>
               let keep root := match WorkspacePolicy.AllowedRoots policy with [] => true | global => withinAnyRoot global root end in
               let narrowed := filter (λ root, keep root = true) roots in
               let policy := match narrowed with [] => policy | _ => policy <| WorkspacePolicy.AllowedRoots := narrowed |> end in
               Some (policy <| WorkspacePolicy.PerOwner := ∅ |>)
           end
       end.

(** ** Model tiers and budgets *)

Inductive ModelTier := ModelTierLight | ModelTierStandard | ModelTierFlagship | ModelTierUnknown.
#[export] Instance ModelTier_eq_dec : EqDecision ModelTier.
Proof. solve_decision. Defined.
Definition lightMarkers : list string :=
  ["llama-3-8b"; "llama-3.1-8b"; "llama-3.2-1b"; "llama-3.2-3b"; "llama3-8b"; "llama3.1-8b"; "llama3.2-1b"; "llama3.2-3b";
   "qwen-7b"; "qwen2.5-7b"; "qwen2.5-3b"; "qwen2.5-1.5b"; "qwen2.5-0.5b"; "qwen3-8b"; "qwen-1.8b"; "qwen-0.5b";
   "gemma-2b"; "gemma-7b"; "gemma2-2b"; "gemma2-9b"; "mistral-7b"; "phi-3"; "phi-2"; "tinyllama"; "yi-6b"].
Definition standardMarkers : list string :=
  ["gpt-4o-mini"; "gpt-4-mini"; "gpt-3.5"; "claude-3.5-haiku"; "claude-3-haiku"; "claude-haiku"; "claude-3-5-haiku";
   "gemini-1.5-flash"; "gemini-flash"; "gemini-2-flash"; "gemini-2.0-flash"; "deepseek-v2"; "command-r"].
Definition flagshipMarkers : list string :=
  ["claude-3-opus"; "claude-3.5-sonnet"; "claude-3-5-sonnet"; "claude-3-sonnet"; "claude-sonnet"; "claude-opus"; "claude-4";
   "gpt-4o"; "gpt-4-turbo"; "gpt-4-0"; "gpt-4.1"; "o1-"; "o3-"; "deepseek-v3"; "deepseek-chat"; "deepseek-r1";
   "gemini-1.5-pro"; "gemini-2.0-pro"; "gemini-2.5-pro"; "gemini-pro"; "llama-3.1-405b"; "llama-3.1-70b"; "llama-3.3-70b";
   "qwen-2.5-72b"; "qwen3-72b"; "qwen-72b"].
Fixpoint colons_to_hyphens (s : string) : string :=
  match s with
  | EmptyString => EmptyString
  | String a s' => String (if ascii_dec a ":" then "-"%char else a) (colons_to_hyphens s')
  end.
Definition any_marker (l : list string) (m : string) : bool := existsb (λ k, contains k m) l.
Definition GetModelTier (p : option ProviderConfig.t) : ModelTier :=
  match p with
  | None => ModelTierUnknown
  | Some p =>
      if String.eqb (ProviderConfig.Model p) "" then ModelTierUnknown
      else
        let m := colons_to_hyphens (TrimPrefix (TrimPrefix (to_lower (ProviderConfig.Model p)) "models/") "google/") in
        if any_marker lightMarkers m then ModelTierLight
        else if any_marker standardMarkers m then ModelTierStandard
        else if any_marker flagshipMarkers m then ModelTierFlagship
        else ModelTierStandard
  end.
Definition GetMaxSystemPromptTokens (p : option ProviderConfig.t) : Z :=
  match GetModelTier p with ModelTierLight => 4000 | ModelTierStandard => 8000 | ModelTierFlagship => 12000 | ModelTierUnknown => 8000 end.
Definition GetMaxSystemPromptChars (p : option ProviderConfig.t) : Z := GetMaxSystemPromptTokens p * 4.
Definition GetReserveTokens (p : option ProviderConfig.t) : Z :=
  let configured := match p with Some p => ProviderConfig.ReserveTokens p | None => 0 end in
  if 0 <? configured then configured
  else match GetModelTier p with ModelTierLight => 2048 | _ => 4096 end.

Module RoleInstructionWarning.
Record t := mk { RoleID : string; Length : Z; Cap : Z }.
End RoleInstructionWarning.
Definition ValidateRoleInstruction (r : Role.t) : option RoleInstructionWarning.t :=
  let n := Z.of_nat (String.length (Role.Instruction r)) in
  if n <=? 2000 then None else Some (RoleInstructionWarning.mk (Role.ID r) n 2000).
Definition ValidateAllRoleInstructions (roles : list Role.t) : list RoleInstructionWarning.t :=
  flat_map (λ r,
    let n := Z.of_nat (String.length (Role.Rules r)) in
    option_list (ValidateRoleInstruction r) ++
    (if 10000 <? n then [RoleInstructionWarning.mk (Role.ID r) n 10000] else [])) roles.

(** ** Scoped discovery *)

Module DiscoveryScope.
Record t := mk { Mode : string; RoleID : string; AllowPool : bool }.
End DiscoveryScope.
Inductive ScopeError := ScopeNeedsRole (mode : string) | RoleNotFound (id : string) | PoolNeedsAdmin | InvalidMode (mode : string) | InvalidType (t : string).

Definition bound_mcps (r : Role.t) : list string :=
  filter (λ id, id ≠ "") (Binding.MCPID <$> Role.BoundMCPBindings r).
(** [EnforceScope]; [ordM] and [ordD] are the iteration orders of the maps. *)
Definition EnforceScope (ordM ordD : list string) (reg : Registry.t) (sc : DiscoveryScope.t) : result ScopeError (list string) :=
  let mode := DiscoveryScope.Mode sc in
  if bool_decide (mode ∈ ["self"; "role"]) then
    if String.eqb (DiscoveryScope.RoleID sc) "" then Err (ScopeNeedsRole mode)
    else match Registry.Roles reg !! DiscoveryScope.RoleID sc with
         | None => Err (RoleNotFound (DiscoveryScope.RoleID sc))
         | Some r => Ok (bound_mcps r)
         end
  else if String.eqb mode "pool" then
    if DiscoveryScope.AllowPool sc then Ok (ordM ++ ordD) else Err PoolNeedsAdmin
  else Err (InvalidMode mode).

Definition role_matches (query : string) (r : Role.t) : bool :=
  String.eqb query "" || contains query (to_lower (Role.ID r)) || contains query (to_lower (Role.Name r))
  || contains query (to_lower (Role.BaseCapability r)).
Definition role_le (a b : Role.t) : Prop := str_le (Role.ID a) (Role.ID b).
#[export] Instance role_le_dec : RelDecision role_le.
Proof. intros a b. unfold role_le. apply _. Defined.

(** [matched[start:end]] of a page. *)
Definition page_of {A} (l : list A) (page pageSize : Z) : list A :=
  take (Z.to_nat pageSize) (drop (Z.to_nat ((page - 1) * pageSize)) l).
(** [discoverRoles]: the page of roles and their number; [ord] is the order of
    the map.  The summaries are the roles themselves. *)
Definition discoverRoles (ord : list string) (reg : Registry.t) (sc : DiscoveryScope.t) (query : string) (page pageSize : Z)
    : result ScopeError (list Role.t * nat) :=
  let mode := DiscoveryScope.Mode sc in
  let? matched :=
    if bool_decide (mode ∈ ["self"; "role"]) then
      Ok (option_list (Registry.Roles reg !! DiscoveryScope.RoleID sc))
    else if String.eqb mode "pool" then
      if DiscoveryScope.AllowPool sc
      then Ok (filter (λ r, role_matches query r = true) (snd <$> range (Registry.Roles reg) ord))
      else Err PoolNeedsAdmin
    else Ok [] in
  let sorted := merge_sort role_le matched in
  Ok (page_of sorted page pageSize, length sorted).
(** [DiscoverImpl] for roles: the page size is clamped. *)
Definition clamp_page_size (n : Z) : Z := if n <=? 0 then 20 else if 100 <? n then 100 else n.
Definition DiscoverRoles (ord : list string) (reg : Registry.t) (sc : DiscoveryScope.t) (query : string) (page pageSize : Z)
    : result ScopeError (list Role.t * nat) :=
  discoverRoles ord reg sc (to_lower query) (if page <=? 0 then 1 else page) (clamp_page_size pageSize).

(** ** Properties *)

(** What a tier list admits. *)
Lemma CallableByAdmin_spec r isAdmin :
  CallableByAdmin (Some r) isAdmin = true ↔
  Role.CallableTiers r = [] ∨ ∃ t, t ∈ Role.CallableTiers r ∧ (t = "*" ∨ t = if isAdmin then "admin" else "public").
Proof.
  assert (∀ l, tier_admits isAdmin l = true ↔ ∃ t, t ∈ l ∧ (t = "*" ∨ t = if isAdmin then "admin" else "public")) as Ht.
  { induction l as [|t l IH]; cbn [tier_admits]; [split; [done|by intros (? & ?%elem_of_nil & _)]|].
    assert ((if String.eqb t "*" then true else if String.eqb t "admin" && isAdmin then true
             else if String.eqb t "public" && negb isAdmin then true else tier_admits isAdmin l) = true ↔
            (t = "*" ∨ t = if isAdmin then "admin" else "public") ∨ tier_admits isAdmin l = true) as ->.
    { destruct (String.eqb_spec t "*"), (String.eqb_spec t "admin"), (String.eqb_spec t "public"), isAdmin; naive_solver. }
    rewrite IH. setoid_rewrite elem_of_cons. naive_solver. }
  unfold CallableByAdmin. destruct (Role.CallableTiers r) as [|t ts]; [split; [by left|done]|]. rewrite Ht.
  split; [by right|]. by intros [?|?].
Qed.

(** An owner's roots only narrow: what they admit the global list admits, and
    a list that restricts is never replaced by an empty one, which would admit
    everything. *)
Lemma withinAnyRoot_spec l p : withinAnyRoot l p = true ↔ ∃ a, a ∈ l ∧ within a p = true.
Proof. unfold withinAnyRoot. rewrite existsb_exists. by setoid_rewrite list_elem_of_In. Qed.

Lemma policy_narrows r owner wp path :
  let global := WorkspacePolicy.AllowedRoots (System.WorkspacePolicy (Registry.System_ r)) in
  GetWorkspacePolicy r owner = Some wp → global ≠ [] →
  WorkspacePolicy.Enabled wp = true ∧ WorkspacePolicy.AllowedRoots wp ≠ [] ∧
  (withinAnyRoot (WorkspacePolicy.AllowedRoots wp) path = true → withinAnyRoot global path = true).
Proof.
  intros global H Hg. unfold GetWorkspacePolicy in H. fold global in H.
  destruct (WorkspacePolicy.Enabled _) eqn:He; [|done]. cbn [negb] in H.
  destruct (String.eqb owner ""); [by injection H as <-|].
  destruct (WorkspacePolicy.PerOwner _ !! owner) as [per|]; [|by injection H as <-].
  destruct (PerOwnerPolicy.AllowedRoots per) as [|root roots]; [by injection H as <-|]. cbv zeta in H.
  set (narrowed := filter _ _) in H. destruct narrowed as [|n ns] eqn:En; injection H as <-; [by split_and!|].
  cbn [WorkspacePolicy.AllowedRoots update]. split; [exact He|]. split; [done|].
  intros (a & Ha & Hw)%withinAnyRoot_spec. change (a ∈ n :: ns) in Ha. rewrite <- En in Ha. unfold narrowed in Ha.
  apply list_elem_of_filter in Ha as [Hk _]. destruct global as [|g gs] eqn:Eg; [done|].
  apply withinAnyRoot_spec in Hk as (b & Hb & Hba). apply withinAnyRoot_spec. exists b. split; [done|]. by eapply within_trans.
Qed.

(** A page never holds more than a hundred roles, whatever was asked for. *)
Lemma page_bounded ord reg sc query page pageSize l n :
  DiscoverRoles ord reg sc query page pageSize = Ok (l, n) → (length l <= 100)%nat.
Proof.
  unfold DiscoverRoles, discoverRoles. rewrite rbind_ok. intros (m & _ & [= <- _]). unfold page_of.
  rewrite length_take. unfold clamp_page_size. destruct (pageSize <=? 0), (Z.ltb_spec 100 pageSize); lia.
Qed.
(** What is discovered is registered. *)
Lemma discovered_role ord reg sc query page pageSize l n r :
  DiscoverRoles ord reg sc query page pageSize = Ok (l, n) → r ∈ l → ∃ id, Registry.Roles reg !! id = Some r.
Proof.
  unfold DiscoverRoles, discoverRoles. rewrite rbind_ok. intros (m & Hm & [= <- _]) Hr.
  assert (r ∈ m) as Hin.
  { unfold page_of in Hr. apply (subseteq_take _ _ r), (subseteq_drop _ _ r) in Hr. by rewrite (merge_sort_Permutation _ m) in Hr. }
  destruct (bool_decide (DiscoveryScope.Mode sc ∈ ["self"; "role"])).
  { injection Hm as <-. destruct (Registry.Roles reg !! DiscoveryScope.RoleID sc) as [r'|] eqn:E; [|by apply elem_of_nil in Hin].
    apply list_elem_of_singleton in Hin as ->. eauto. }
  destruct (String.eqb (DiscoveryScope.Mode sc) "pool"); [|injection Hm as <-; by apply elem_of_nil in Hin].
  destruct (DiscoveryScope.AllowPool sc); [|done]. injection Hm as <-. apply list_elem_of_filter in Hin as [_ Hin].
  apply list_elem_of_fmap in Hin as ([id r'] & -> & [_ H]%elem_of_range). eauto.
Qed.
(** Without admin permission the pool stays hidden. *)
Lemma pool_needs_admin ordM ordD ord reg id query page pageSize :
  EnforceScope ordM ordD reg (DiscoveryScope.mk "pool" id false) = Err PoolNeedsAdmin ∧
  DiscoverRoles ord reg (DiscoveryScope.mk "pool" id false) query page pageSize = Err PoolNeedsAdmin.
Proof. done. Qed.
(** Every budget is finite and positive, and the reserve below it. *)
Lemma reserve_within_budget p :
  ProviderConfig.ReserveTokens p = 0 → 0 < GetReserveTokens (Some p) < GetMaxSystemPromptTokens (Some p).
Proof.
  intros E. unfold GetReserveTokens, GetMaxSystemPromptTokens. cbv zeta. rewrite E. change (0 <? 0) with false.
  destruct (GetModelTier (Some p)); lia.
Qed.

(** A mini model is not taken for the flagship whose name it contains. *)
Example tier_of_mini : GetModelTier (Some (ProviderConfig.mk "" "openai" "GPT-4o-mini" 0)) = ModelTierStandard.
Proof. vm_compute. reflexivity. Qed.
Example tier_of_ollama : GetModelTier (Some (ProviderConfig.mk "" "ollama" "qwen2.5:7b" 0)) = ModelTierLight.
Proof. vm_compute. reflexivity. Qed.
