(* ===== verification/Planning.v ===== *)
(** * Planning a submission (core/scheduler_planner.go, [plannerResultText] of
    core/scheduler_decision_gate.go)

    Before a lone step runs, the engine may ask the planner role for a plan: it
    renders the roles and tools a plan may name, spawns the planner at most
    twice, and hands on only a plan the parser accepts and that covers the
    request.  The spawned agent, the discovery of tools and JSON are arguments;
    of the prompt only its parts that depend on the registry and the retry text
    are modelled. *)
From S2P Require Import Prelude TaskStatus Schema FailureClass ToolNames PlanDAG DecisionGate OutputHandlers Verify Registry.
From Stdlib Require Import Ascii.
Local Open Scope Z_scope.

Definition plannerParseAttempts : nat := 2.
Definition byte_prefix (n : nat) (s : string) : string := String.substring 0 n s.
Definition newline : string := String (ascii_of_nat 10) EmptyString.
Definition nl2 : string := (newline +:+ newline)%string.
Definition plannerRetryNudge (prev : string) : string :=
  let prev := TrimSpace prev in
  let prev := if String.eqb prev "" then "<empty>" else prev in
  let prev := if (400 <? String.length prev)%nat then (byte_prefix 400 prev +:+ "…")%string else prev in
  ("## Retry — your previous answer was rejected" +:+ nl2 +:+
   "It could not be parsed as a JSON object. It began with:" +:+ nl2 +:+ prev +:+ nl2 +:+
   "Discard that answer completely. Reply again with ONLY the JSON object " +:+
   "defined by the Output Contract above: no <thought> block, no " +:+
   "explanation, no numbered outline, no markdown fence. Your first " +:+
   "character must be { and you must stop after the closing }.")%string.

Definition firstLine (s : string) (max : nat) : string :=
  let s := join " " (fields s) in
  if (String.length s <=? max)%nat then s else (byte_prefix max s +:+ "…")%string.
Definition backquoted (s : string) : string := ("`" +:+ s +:+ "`")%string.

(** ** What a plan may name *)

Section catalog.
Context (reg : Registry.t).

(** The description a name has: the last definition of it wins. *)
Definition described (d : MCPDef.t) (n : string) : string :=
  from_option snd "" (List.find (λ kv, String.eqb kv.1 n) (rev (MCPDef.ToolDescriptions d))).
Definition tool_line (d : MCPDef.t) (n : string) : string :=
  let t := TrimSpace (described d n) in
  if String.eqb t "" then ("- " +:+ backquoted n +:+ newline)%string
  else ("- " +:+ backquoted n +:+ " — " +:+ firstLine t 160 +:+ newline)%string.
(** What the catalog lists of one MCP: nothing for an admin-only one when the
    submitter is not an admin, nothing without discovered tools. *)
Definition listed_mcp (submitterIsAdmin : bool) (id : string) : option (MCPDef.t * list string) :=
  d ← (match Registry.MCPs reg !! id with Some d => Some d | None => Registry.DynamicMCPs reg !! id end);
  if negb submitterIsAdmin && String.eqb (EffectiveMountPolicy (Some d)) "admin_only" then None
  else match MCPDef.AvailableTools d with [] => None | names => Some (d, sort_strings names) end.
Definition true_map (names : list string) : gmap string bool := list_to_map ((λ n, (n, true)) <$> names).
Definition add_mcp (submitterIsAdmin : bool) (acc : string * gmap string (gmap string bool)) (id : string)
    : string * gmap string (gmap string bool) :=
  match listed_mcp submitterIsAdmin id with
  | None => acc
  | Some (d, names) =>
      ((acc.1 +:+ newline +:+ "### MCP " +:+ backquoted id +:+ " (" +:+ pretty (Z.of_nat (length names)) +:+ " tools)" +:+ newline
        +:+ join "" (tool_line d <$> names))%string,
       <[id := true_map names]> acc.2)
  end.
Definition plannerToolCatalog (roleID : string) (submitterIsAdmin : bool) : string * gmap string (gmap string bool) :=
  let mcpIDs := match EnforceScope [] [] reg (DiscoveryScope.mk "role" roleID false) with Ok l => l | Err _ => [] end in
  foldl (add_mcp submitterIsAdmin) (""%string, ∅) (sort_strings mcpIDs).

(** Roles no plan may name. *)
Definition reservedRoles : list string := ["task_planner"; "decision_arbiter"; "sop_generator"; "orchestrator_default"].
Definition tool_count (r : Role.t) : Z :=
  foldr (λ b n, Z.of_nat (length (from_option MCPDef.ToolDescriptions [] (Registry.MCPs reg !! Binding.MCPID b)))
              + Z.of_nat (length (from_option MCPDef.ToolDescriptions [] (Registry.DynamicMCPs reg !! Binding.MCPID b))) + n)
    0 (Role.BoundMCPBindings r).
Definition role_line (summaries : gmap string Role.t) (id : string) : string :=
  let summary := summaries !! id in
  let bc := TrimSpace (from_option Role.BaseCapability "" summary) in
  let mcps := from_option (λ r, Binding.MCPID <$> Role.BoundMCPBindings r) [] (Registry.Roles reg !! id) in
  ((if String.eqb bc "" then "- " +:+ backquoted id else "- " +:+ backquoted id +:+ " (" +:+ firstLine bc 120 +:+ ")")
   +:+ (match mcps with
        | [] => ""
        | _ => " [tools: " +:+ pretty (from_option tool_count 0 summary) +:+ ", mcps: " +:+ join "," mcps +:+ "]"
        end) +:+ newline)%string.
(** [plannerAllowedRoles]; [ord] is the order of the role map. *)
Definition plannerAllowedRoles (ord : list string) : string * gmap string bool :=
  match DiscoverRoles ord reg (DiscoveryScope.mk "pool" "" true) "" 1 1000 with
  | Err _ => (""%string, ∅)
  | Ok (found, _) =>
      let assignable := filter (λ r, Role.ID r ∉ reservedRoles) found in
      match sort_strings (Role.ID <$> assignable) with
      | [] => (""%string, ∅)
      | ids =>
          let summaries := list_to_map (rev ((λ r, (Role.ID r, r)) <$> assignable)) in
          ((newline +:+ "### Allowed role ids" +:+ newline +:+ join "" (role_line summaries <$> ids))%string, true_map ids)
      end
  end.

(** ** The settings *)

Definition plannerRoleInstruction : string := from_option Role.Instruction "" (Registry.Roles reg !! "task_planner").
Definition plannerFirstEnabled : bool :=
  if System.DelegationMode (Registry.System_ reg) then false else System.EnablePlannerFirst (Registry.System_ reg).
Definition plannerSingleMCP (roleID : string) : string :=
  match Role.BoundMCPBindings <$> Registry.Roles reg !! roleID with Some [b] => Binding.MCPID b | _ => "" end.
Definition plannerMaxSteps : Z := System.PlannerMaxSteps (Registry.System_ reg).
Definition plannerMaxOutputTokens (numTools : Z) : Z :=
  let configured := System.PlannerMaxOutputTokens (Registry.System_ reg) in
  if 0 <? configured then configured
  else if numTools <=? 100 then 8192
  else Z.min (8192 + (numTools - 100) * 32) 32768.
(** The options a plan for [roleID] is parsed with. *)
Definition plan_options (ord : list string) (roleID : string) (submitterIsAdmin : bool) : PlanParseOptions :=
  mkOptions (plannerAllowedRoles ord).2 (plannerToolCatalog roleID submitterIsAdmin).2 (plannerSingleMCP roleID) plannerMaxSteps 0.
End catalog.

(** ** Reading the planner's answer *)

Record PlannerEnv := mkPlannerEnv {
  pl_plan : PlanEnv;
  pl_decode : string → option (gmap string any);
  pl_marshal : gmap string any → option string;
  pl_show : any → string;
  pl_spawn : nat → string → Z → option (string + SpawnResult.t);
  pl_discover : Registry.t → Registry.t
}.

Definition truncateForLog (s : string) (n : nat) : string :=
  if (String.length s <=? n)%nat then s else (byte_prefix n s +:+ "...(truncated)")%string.
Definition nonblank (o : option any) : option string :=
  s ← as_string o; if String.eqb (TrimSpace s) "" then None else Some s.
Fixpoint first_nonblank (m : gmap string any) (ks : list string) : option string :=
  match ks with
  | [] => None
  | k :: ks' => match nonblank (m !! k) with Some s => Some s | None => first_nonblank m ks' end
  end.
Definition plannerResultText (env : PlannerEnv) (res : SpawnResult.t) : string :=
  let m := result_map (SpawnResult.Output res) in
  match first_nonblank m ["text"; "reply"; "result"; "output"; "content"; "answer"] with
  | Some s => s
  | None =>
      let printed := truncateForLog (fmt_result (pl_show env) (SubagentOutput.Result (SpawnResult.Output res))) 20000 in
      let whole :=
        if decide (m = ∅) then printed
        else match pl_marshal env m with
             | None => printed
             | Some s => if valid_json (pl_plan env) s && negb (bool_decide (TrimSpace s ∈ ["{}"; "null"]))
                         then truncateForLog s 20000 else printed
             end in
      match m !! "steps" with
      | Some v => default whole (pl_marshal env {["steps" := v]})
      | None => whole
      end
  end.

(** [unwrapPlanEnvelope] of the planner: peel at most [depth] wrappers. *)
Fixpoint unwrap_envelope (env : PlannerEnv) (depth : nat) (s : string) : string :=
  match depth with
  | O => s
  | S depth' =>
      match pl_decode env s with
      | None => s
      | Some m =>
          match m !! "steps" with
          | Some _ => s
          | None =>
              match head (omap (m !!.) ["raw"; "result"; "output"; "content"; "answer"; "text"]) with
              | Some (AString v) => if String.eqb (TrimSpace v) "" then s else unwrap_envelope env depth' v
              | Some (AMap v) =>
                  match pl_marshal env (list_to_map v) with Some b => unwrap_envelope env depth' b | None => s end
              | _ => s
              end
          end
      end
  end.
Definition unwrapPlannerEnvelope (env : PlannerEnv) (raw : string) : string := unwrap_envelope env 4 (TrimSpace raw).

(** ** [RequestPlanning] *)

Section planning.
Context (env : PlannerEnv) (ord : list string) (opt : PlanParseOptions) (base task : string) (maxTokens : Z).

(** What one answer comes to: a plan, or the reason it is not one. *)
Definition judge (raw : string) : list StepInput.t * string :=
  if String.eqb (TrimSpace raw) "" then ([], "planner returned empty output")
  else match ParsePlanDAG (pl_plan env) opt raw with
       | Err e => ([], plan_error_string e)
       | Ok [] => ([], "planner produced no steps")
       | Ok steps =>
           let gap := planCoverageGap task steps in
           if String.eqb gap "" then (steps, "") else ([], gap)
       end.
(** The attempts from number [n] on, [left] of them; the prompts sent, the
    plan and the reason there is none. *)
Fixpoint plan_attempts (left n : nat) (raw reason : string) : list string * (list StepInput.t * string) :=
  match left with
  | O => ([], ([], if String.eqb reason "" then "planner produced no usable plan" else reason))
  | S left' =>
      let prompt := if (1 <? n)%nat then (base +:+ nl2 +:+ plannerRetryNudge raw)%string else base in
      match pl_spawn env n prompt maxTokens with
      | None => ([prompt], ([], "planner spawn returned nothing"))
      | Some (inl err) => ([prompt], ([], "planner spawn failed: " +:+ err)%string)
      | Some (inr res) =>
          let raw := unwrapPlannerEnvelope env (plannerResultText env res) in
          match judge raw with
          | ([], reason) => let '(prompts, answer) := plan_attempts left' (S n) raw reason in (prompt :: prompts, answer)
          | (steps, _) => ([prompt], (steps, ""))
          end
      end
  end.
End planning.

(** [base] is the prompt for a request, from the lists of roles and tools. *)
Definition RequestPlanning (env : PlannerEnv) (base : string → string → string → string) (ord : list string) (reg : Registry.t)
    (roleID task : string) (submitterIsAdmin : bool) : list string * (list StepInput.t * string) :=
  if negb (plannerFirstEnabled reg) then ([], ([], "enable_planner_first is off"))
  else if String.eqb (plannerRoleInstruction reg) "" then ([], ([], "task_planner role not present in config"))
  else if String.eqb (TrimSpace task) "" then ([], ([], "empty task"))
  else
    let reg := pl_discover env reg in
    let '(roleList, _) := plannerAllowedRoles reg ord in
    let '(toolCatalog, catalog) := plannerToolCatalog reg roleID submitterIsAdmin in
    let toolCount := foldr (λ kv n, Z.of_nat (size kv.2) + n) 0 (map_to_list catalog) in
    plan_attempts env (plan_options reg ord roleID submitterIsAdmin) (base task roleList toolCatalog) task
      (plannerMaxOutputTokens reg toolCount) plannerParseAttempts 1 "" "".

(** ** Handing the plan on *)

Definition planTerminalStepIDs (steps : list StepInput.t) : gset string :=
  let ids : list string := StepInput.ID <$> steps in
  let has_dependent : gset string := list_to_set (steps ≫= StepInput.DependsOn) in
  let out := filter (λ id, id ∉ has_dependent) (list_to_set ids : gset string) in
  if decide (out = ∅) then list_to_set ids else out.
Definition inherit_settings (original s : StepInput.t) : StepInput.t :=
  s <| StepInput.AdditionalSkills := StepInput.AdditionalSkills original |>
    <| StepInput.Deliver := StepInput.Deliver original |>
    <| StepInput.ContextRefs := StepInput.ContextRefs original |>
    <| StepInput.VerifierModel := StepInput.VerifierModel original |>
    <| StepInput.MaxAutoRefine := StepInput.MaxAutoRefine original |>
    <| StepInput.EnableDebate := StepInput.EnableDebate original |>
    <| StepInput.MaxDebateRounds := StepInput.MaxDebateRounds original |>.
Definition inheritCallerSettings (planned : list StepInput.t) (original : StepInput.t) : list StepInput.t :=
  let terminal := planTerminalStepIDs planned in
  map (λ s, if bool_decide (StepInput.ID s ∈ terminal) then inherit_settings original s else s) planned.

(** ** Properties *)

(** A plan the engine hands on: parsed from some answer, and covering the request. *)
Definition usable_plan (env : PlannerEnv) (opt : PlanParseOptions) (task : string) (steps : list StepInput.t) : Prop :=
  steps ≠ [] ∧ planCoverageGap task steps = "" ∧ ∃ raw, ParsePlanDAG (pl_plan env) opt raw = Ok steps.

Lemma plan_error_nonempty e : plan_error_string e ≠ "".
Proof. unfold plan_error_string. by case_decide. Qed.
Lemma judge_spec env opt task raw :
  let '(steps, why) := judge env opt task raw in
  steps = [] ∧ why ≠ "" ∨ why = "" ∧ usable_plan env opt task steps.
Proof.
  unfold judge, usable_plan. destruct (String.eqb (TrimSpace raw) ""); [by left|].
  destruct (ParsePlanDAG (pl_plan env) opt raw) as [[|i l]|e] eqn:E; [by left| |left; split; [done|apply plan_error_nonempty]].
  destruct (String.eqb_spec (planCoverageGap task (i :: l)) ""); [|by left]. right. eauto.
Qed.
Lemma plan_attempts_spec env opt base task maxTokens left n raw reason :
  let '(prompts, (steps, why)) := plan_attempts env opt base task maxTokens left n raw reason in
  (length prompts <= left)%nat ∧ (steps = [] ∧ why ≠ "" ∨ why = "" ∧ usable_plan env opt task steps).
Proof.
  revert n raw reason. induction left as [|left IH]; intros n raw reason; cbn [plan_attempts].
  { split; [done|]. left. split; [done|]. by destruct (String.eqb_spec reason ""). }
  destruct (pl_spawn env n _ _) as [[err|res]|]; [split; [cbn; lia|by left]| |split; [cbn; lia|by left]].
  cbv zeta. set (raw' := unwrapPlannerEnvelope _ _). pose proof (judge_spec env opt task raw') as Hj.
  destruct (judge env opt task raw') as [[|i l] why].
  - specialize (IH (S n) raw' why). destruct (plan_attempts _ _ _ _ _ left _ _ _) as [prompts [steps why']].
    destruct IH as [Hl IH]. split; [cbn [length]; lia|done].
  - split; [cbn; lia|]. right. destruct Hj as [[? _]|[_ Hj]]; done.
Qed.

(** A role a plan may name exists and is not reserved. *)
Lemma true_map_lookup l k : true_map l !! k = Some true → k ∈ l.
Proof. intros H. apply elem_of_list_to_map_2, list_elem_of_fmap in H as (x & [= -> ] & Hx). done. Qed.
Lemma allowed_role reg ord id :
  (plannerAllowedRoles reg ord).2 !! id = Some true →
  id ∉ reservedRoles ∧ ∃ k r, Registry.Roles reg !! k = Some r ∧ Role.ID r = id.
Proof.
  unfold plannerAllowedRoles. destruct (DiscoverRoles _ _ _ _ _ _) as [[found n]|] eqn:E; [|by cbn [snd]; rewrite lookup_empty].
  cbv zeta. set (ids := sort_strings _). assert (ids = [] ∨ ids ≠ []) as [Hn|Hn] by (destruct ids; auto).
  { by rewrite Hn. }
  assert (id ∈ ids → id ∉ reservedRoles ∧ ∃ k r, Registry.Roles reg !! k = Some r ∧ Role.ID r = id) as H.
  { unfold ids. intros Hi. rewrite (sort_strings_perm _) in Hi. apply list_elem_of_fmap in Hi as (r & -> & [Hr Hf]%list_elem_of_filter).
    split; [done|]. destruct (discovered_role _ _ _ _ _ _ _ _ r E Hf) as [k Hk]. eauto. }
  destruct ids as [|i l] eqn:Ei; [done|]. cbn [snd]. intros Hk. apply H, true_map_lookup. exact Hk.
Qed.

Lemma request_usable env base ord reg roleID task isAdmin :
  let '(prompts, (steps, why)) := RequestPlanning env base ord reg roleID task isAdmin in
  (length prompts <= 2)%nat ∧
  (steps = [] ∧ why ≠ "" ∨ why = "" ∧ usable_plan env (plan_options (pl_discover env reg) ord roleID isAdmin) task steps).
Proof.
  unfold RequestPlanning. destruct (negb _); [split; [cbn; lia|by left]|].
  destruct (String.eqb (plannerRoleInstruction reg) ""); [split; [cbn; lia|by left]|].
  destruct (String.eqb (TrimSpace task) ""); [split; [cbn; lia|by left]|].
  cbv zeta. destruct (plannerAllowedRoles _ ord) as [roleList allowed].
  destruct (plannerToolCatalog _ roleID isAdmin) as [toolCatalog catalog]. apply plan_attempts_spec.
Qed.

(** C12: Asking for a plan ends after at most two prompts, either without a plan and
    with a reason, or with a plan the parser accepted against the registry's
    current roles and tools and that covers the request.  If the registry has a role
    that may be assigned at all ([plannerAllowedRoles] is not empty), every step of
    the plan runs a registered role that is not reserved; if it has none the roles are
    not checked ([planner_assigned_to_itself]). *)
Theorem planning_sound env base ord reg roleID task isAdmin :
  let '(prompts, (steps, why)) := RequestPlanning env base ord reg roleID task isAdmin in
  let reg' := pl_discover env reg in
  (length prompts <= 2)%nat ∧
  (steps = [] ∧ why ≠ "" ∨
   why = "" ∧ usable_plan env (plan_options reg' ord roleID isAdmin) task steps ∧
   ((plannerAllowedRoles reg' ord).2 ≠ ∅ → ∀ i, i ∈ steps →
      StepInput.RoleID i ∉ reservedRoles ∧ ∃ k r, Registry.Roles reg' !! k = Some r ∧ Role.ID r = StepInput.RoleID i)).
Proof.
  pose proof (request_usable env base ord reg roleID task isAdmin) as Hp. cbv zeta.
  destruct (RequestPlanning env base ord reg roleID task isAdmin) as [prompts [steps why]].
  destruct Hp as [Hl [Hp|[-> Hu]]]; (split; [done|]); [by left|]. right. split; [done|]. split; [done|].
  intros Hne i Hi. destruct Hu as (_ & _ & raw & (body & ps & Hv)%parsed_validated).
  destruct (validated _ _ _ _ _ Hv) as (_ & _ & Hok & _). rewrite Forall_forall in Hok. destruct (Hok i Hi) as [_ _ Hall _ _ _ _].
  apply (allowed_role (pl_discover env reg) ord). by apply Hall.
Qed.

(** ** The caller's settings *)

(** No step of the plan names [id] as a dependency. *)
Definition sink (steps : list StepInput.t) (id : string) : Prop := ∀ j, j ∈ steps → id ∉ StepInput.DependsOn j.

Lemma has_dependent_spec (steps : list StepInput.t) id :
  id ∈ (list_to_set (steps ≫= StepInput.DependsOn) : gset string) ↔ ¬ sink steps id.
Proof.
  rewrite elem_of_list_to_set, list_elem_of_bind. unfold sink. split.
  - intros (j & Hd & Hj) H. by apply (H j Hj).
  - intros H. destruct (decide (Exists (λ j, id ∈ StepInput.DependsOn j) steps)) as [He|Hn].
    + apply Exists_exists in He as (j & Hj & Hd). eauto.
    + exfalso. apply H. intros j Hj Hd. apply Hn, Exists_exists. eauto.
Qed.

(** An acyclic list of steps has one that no other depends on. *)
Lemma sink_exists (steps : list StepInput.t) :
  steps ≠ [] → (∀ x, ¬ tc (input_edge steps) x x) → ∃ i, i ∈ steps ∧ sink steps (StepInput.ID i).
Proof.
  intros Hne Hac.
  set (users := λ x, StepInput.ID <$> filter (λ j, x ∈ StepInput.DependsOn j) steps).
  assert (∀ x y, edge_to users x y ↔ input_edge steps y x) as He.
  { intros x y. unfold edge_to, users, input_edge. rewrite list_elem_of_fmap. setoid_rewrite list_elem_of_filter. naive_solver. }
  destruct (acyclic_ranked users (StepInput.ID <$> steps)) as [rank Hr].
  { intros x Hx. apply (Hac x). clear -Hx He.
    assert (∀ a b, tc (edge_to users) a b → tc (input_edge steps) b a) as H; [|by apply H].
    intros a b Hab. induction Hab as [a b Hab|a b c Hab _ IH]; [apply tc_once; by apply He|].
    eapply tc_r; [exact IH|]. by apply He. }
  { intros x y (j & Hj & <- & _)%He. by apply list_elem_of_fmap_2. }
  assert (∀ n i, i ∈ steps → (rank (StepInput.ID i) <= n)%nat → ∃ i, i ∈ steps ∧ sink steps (StepInput.ID i)) as Hn.
  { induction n as [|n IH]; intros i Hi Hle.
    - exists i. split; [done|]. intros j Hj Hd. assert (edge_to users (StepInput.ID i) (StepInput.ID j)) as Hlt%Hr.
      { apply He. by exists j. } lia.
    - destruct (decide (Exists (λ j, StepInput.ID i ∈ StepInput.DependsOn j) steps)) as [(j & Hj & Hd)%Exists_exists|Hno].
      + apply (IH j Hj). assert (edge_to users (StepInput.ID i) (StepInput.ID j)) as Hlt%Hr.
        { apply He. by exists j. } lia.
      + exists i. split; [done|]. intros j Hj Hd. apply Hno, Exists_exists. eauto. }
  destruct steps as [|i l]; [done|]. apply (Hn (rank (StepInput.ID i)) i); [left|lia].
Qed.

(** An accepted plan takes the caller's settings on exactly its last steps,
    those that no step depends on, of which there is at least one; the other
    steps, and of every step the plan's own fields, stay as planned. *)
Theorem settings_on_last_steps env opt raw steps original :
  ParsePlanDAG env opt raw = Ok steps →
  Forall2 (λ s s', sink steps (StepInput.ID s) ∧ s' = inherit_settings original s ∨ ¬ sink steps (StepInput.ID s) ∧ s' = s)
    steps (inheritCallerSettings steps original) ∧
  ∃ s, s ∈ inheritCallerSettings steps original ∧ StepInput.Deliver s = StepInput.Deliver original ∧ sink steps (StepInput.ID s).
Proof.
  intros (body & ps & Hv)%parsed_validated. destruct (validated _ _ _ _ _ Hv) as (Hlen & _ & _ & Hac).
  destruct (sink_exists steps) as (i0 & Hi0 & Hs0); [intros ->; cbn in Hlen; lia|done|].
  assert (∀ s, s ∈ steps → StepInput.ID s ∈ planTerminalStepIDs steps ↔ sink steps (StepInput.ID s)) as Ht.
  { intros s Hs. unfold planTerminalStepIDs. cbv zeta. set (out := filter _ _).
    assert (∀ j, j ∈ steps → StepInput.ID j ∈ out ↔ sink steps (StepInput.ID j)) as Hout.
    { intros j Hj. unfold out. rewrite elem_of_filter, has_dependent_spec, elem_of_list_to_set.
      assert (StepInput.ID j ∈ StepInput.ID <$> steps) by by apply list_elem_of_fmap_2.
      destruct (decide (Exists (λ k, StepInput.ID j ∈ StepInput.DependsOn k) steps)) as [(k & Hk & Hd)%Exists_exists|Hno].
      - split; [intros [Hnd _]; exfalso; apply Hnd; intros Hsk; by apply (Hsk k)|]. intros Hsk. by apply Hsk in Hd.
      - assert (sink steps (StepInput.ID j)). { intros k Hk Hd. apply Hno, Exists_exists. eauto. } tauto. }
    case_decide as Hemp; [|by apply Hout]. apply Hout in Hs0; [|done]. rewrite Hemp in Hs0. by apply elem_of_empty in Hs0. }
  split.
  - unfold inheritCallerSettings. cbv zeta. apply Forall2_fmap_r, Forall_Forall2_diag, Forall_forall. intros s Hin.
    specialize (Ht s Hin). cbv beta.
    destruct (decide (StepInput.ID s ∈ planTerminalStepIDs steps)) as [Hd|Hd].
    + left. rewrite bool_decide_eq_true_2 by done. split; [by apply Ht|done].
    + right. rewrite bool_decide_eq_false_2 by done. split; [by rewrite <- Ht|done].
  - exists (inherit_settings original i0). split; [|done]. unfold inheritCallerSettings. cbv zeta.
    apply list_elem_of_fmap. exists i0. split; [|done]. by rewrite bool_decide_eq_true_2 by by apply Ht.
Qed.

(** ** Concrete runs *)

Lemma settings_on_last_steps_witness :
  ∃ s, s ∈ inheritCallerSettings (accepted (run_plan good_plan "{}")) (zeroInput <| StepInput.Deliver := "mail" |>) ∧
    StepInput.Deliver s = "mail" ∧ sink (accepted (run_plan good_plan "{}")) (StepInput.ID s).
Proof.
  refine (proj2 (settings_on_last_steps (env_of good_plan) opt_of "{}" (accepted (run_plan good_plan "{}"))
    (zeroInput <| StepInput.Deliver := "mail" |>) _)).
  vm_compute. reflexivity.
Defined.

Definition agent_registry : Registry.t :=
  Registry.mk {[ "agent" := Role.mk "agent" "Agent" "" "executes" "" "" [] [Binding.mk "app" ["logout"]] [] "";
                 "task_planner" := Role.mk "task_planner" "Planner" "" "" "plan" "" [] [] [] "" ]}
    ∅ {[ "app" := MCPDef.mk "open" ["login"; "logout"] [("login", "sign in"); ("login", "log in")] "" "" "" ]} ∅ ∅ ∅ "" false
    (System.mk 0 (WorkspacePolicy.mk false "" [] ∅) false true 0 0 0 0 false).
(** A planner that answers badly the first time. *)
Definition second_try : PlannerEnv :=
  mkPlannerEnv (env_of good_plan) (λ _, None) (λ _, None) (λ _, "") (λ n _ _,
    Some (inr (SpawnResult.mk (SubagentOutput.mk StatusOK (SpecFloat.S754_zero false)
      (Some {[ "text" := AString (if (n =? 1)%nat then "no plan" else "{}") ]}) [] [] [] [] "" None [] [] [] [] 0) "" "" []))) (λ r, r).
Definition asked (task : string) : list string * (list StepInput.t * string) :=
  RequestPlanning second_try (λ t r c, (t +:+ r +:+ c)%string) (keys (Registry.Roles agent_registry)) agent_registry "agent" task false.
Example planned_on_retry :
  length (asked "tell me the time").1 = 2%nat ∧ StepInput.ID <$> (asked "tell me the time").2.1 = ["a"; "b"] ∧
  (asked "tell me the time").2.2 = "".
Proof. vm_compute. split_and!; reflexivity. Qed.
Lemma planning_sound_witness :
  (plannerAllowedRoles agent_registry (keys (Registry.Roles agent_registry))).2 ≠ ∅ ∧ (asked "tell me the time").2.1 ≠ [] ∧
  ∀ i, i ∈ (asked "tell me the time").2.1 → StepInput.RoleID i ∉ reservedRoles.
Proof.
  assert ((plannerAllowedRoles agent_registry (keys (Registry.Roles agent_registry))).2 ≠ ∅) as Hne by (vm_compute; discriminate).
  assert ((asked "tell me the time").2.1 ≠ []) as Hp by (vm_compute; discriminate).
  split; [exact Hne|]. split; [exact Hp|].
  pose proof (planning_sound second_try (λ t r c, (t +:+ r +:+ c)%string) (keys (Registry.Roles agent_registry)) agent_registry "agent"
    "tell me the time" false) as H. change (RequestPlanning _ _ _ _ _ _ _) with (asked "tell me the time") in H.
  destruct (asked "tell me the time") as [prompts [steps why]]. cbn [fst snd] in Hp |- *.
  destruct H as [_ [[H _]|(_ & _ & H)]]; [by destruct (Hp H)|]. intros i Hi. exact (proj1 (H Hne i Hi)).
Defined.
(** Logging in does not cover a request to send something. *)
Example plan_without_action : (asked "send the report").2.1 = [].
Proof. vm_compute. reflexivity. Qed.
(** The catalog shows a tool the role's binding does not allow. *)
Example catalog_ignores_binding :
  (plannerToolCatalog agent_registry "agent" false).2 = {[ "app" := {[ "login" := true; "logout" := true ]} ]}.
Proof. vm_compute. reflexivity. Qed.
(** With no assignable role, a plan may even name the planner. *)
Definition lonely_registry : Registry.t :=
  Registry.mk {[ "task_planner" := Role.mk "task_planner" "" "" "" "plan" "" [] [] [] "" ]} ∅ ∅ ∅ ∅ ∅ "" false
    (System.mk 0 (WorkspacePolicy.mk false "" [] ∅) false true 0 0 0 0 false).
Example planner_assigned_to_itself :
  let plan := [PlanStep.mk "a" "task_planner" "plan it" [] [] "" [] ""] in
  match ParsePlanDAG (env_of plan) (plan_options lonely_registry ["task_planner"] "agent" false) "{}" with
  | Ok l => StepInput.RoleID <$> l = ["task_planner"]
  | Err _ => False
  end.
Proof. vm_compute. reflexivity. Qed.
Example nudge_quotes_answer : contains "no plan" (plannerRetryNudge " no plan ") = true.
Proof. vm_compute. reflexivity. Qed.
