(* ===== verification/Admission.v ===== *)
(** * Admission of a submission (core/input_guard.go,
    core/scheduler_submit_gate.go, core/session.go, core/skill_interpreter.go,
    core/scheduler_skill_hook.go and the validations of
    core/scheduler_submit.go)

    Before a task exists, its inputs pass the workspace scope, the session
    binding, the size guard, the complexity check and the role gate; a role bound
    to a directory skill is then expanded into the skill's steps.  Files are an
    argument ([SkillFiles]), and so is the order a map is ranged over. *)
From S2P Require Import Prelude Paths Schema Registry.
From Stdlib Require Import Ascii.
Local Open Scope Z_scope.

(** ** The size guard *)

Module GuardViolation.
Record t := mk {
  CurrentLength : Z; AllowedThreshold : Z; AvailableRoles : list string; AvailableMCPs : list string; CorrectiveAction : string }.
End GuardViolation.

Definition selectBest (keys : list string) (fallback : string) (ids : list string) : string :=
  match List.find (λ r, existsb (λ k, contains k r) keys) ids with
  | Some r => r
  | None => match ids with r :: _ => r | [] => fallback end
  end.
Definition selectBestRole : list string → string := selectBest ["researcher"; "analyst"] "worker".
Definition selectBestMCP : list string → string := selectBest ["leann"; "doc"] "mcp-server".

Definition getMaxSafeTaskChars (r : Registry.t) : Z :=
  let max := System.MaxTaskChars (Registry.System_ r) in
  if 0 <? max then max
  else if String.eqb (Registry.DefaultProvider r) "" then 5000
  else match Registry.Providers r !! Registry.DefaultProvider r with
       | None => 5000
       | Some p => let half := GetMaxSystemPromptChars (Some p) ÷ 2 in if 5000 <? half then half else 5000
       end.

Definition newline : string := String (ascii_of_nat 10) EmptyString.
Definition quoted (s : string) : string := (quote_str +:+ s +:+ quote_str)%string.
Definition correctivePlaybook (role mcp : string) : string :=
  join newline
    ["1. Do not ingest raw long text directly into task instructions.";
     "2. Side-load the document into StagedWorkspace or use an appropriate MCP (e.g., leann-mcp).";
     "3. Delegate the subtask to a specialized worker role using additional_mcps.";
     "Example Payload:"; "{";
     ("  " +:+ quoted "role_id" +:+ ": " +:+ quoted role +:+ ",")%string;
     ("  " +:+ quoted "additional_mcps" +:+ ": [" +:+ quoted mcp +:+ "],")%string;
     ("  " +:+ quoted "task" +:+ ": " +:+ quoted "Analyze document referenced via asset://...")%string;
     "}"].

Definition oversized (max : Z) (i : StepInput.t) : bool :=
  (max <? Z.of_nat (String.length (StepInput.Task i))) && negb (has_prefix "asset://" (StepInput.Task i)).
(** [EvaluateAndGuardInputs]; the orders are those of the role and MCP maps. *)
Definition EvaluateAndGuardInputs (ordR ordM : list string) (inputs : list StepInput.t) (r : Registry.t) : option GuardViolation.t :=
  let max := getMaxSafeTaskChars r in
  match List.find (oversized max) inputs with
  | None => None
  | Some i =>
      Some (GuardViolation.mk (Z.of_nat (String.length (StepInput.Task i))) max ordR ordM
              (correctivePlaybook (selectBestRole ordR) (selectBestMCP ordM)))
  end.

(** ** The gates *)

Inductive AdmissionError :=
| NoSteps
| TooSimple (task : string)
| NotCallable (roleID : string)
| OutsideWorkspace (root owner : string)
| SessionRejected (root : string)
| SessionRequired
| Guarded (g : GuardViolation.t).

Definition validateTaskComplexity (r : Registry.t) (inputs : list StepInput.t) : result AdmissionError unit :=
  match inputs with
  | [] => Err NoSteps
  | [i] =>
      if System.RejectSimpleTasks (Registry.System_ r) then
        let isLocal := match Registry.Roles r !! StepInput.RoleID i with
                       | Some role => String.eqb (Role.Provider role) "local"
                       | None => String.eqb (Registry.DefaultProvider r) "local"
                       end in
        if isLocal && bool_decide (StepInput.AdditionalSkills i = []) && bool_decide (StepInput.AdditionalMCPs i = [])
        then Err (TooSimple (StepInput.Task i)) else Ok tt
      else Ok tt
  | _ => Ok tt
  end.

Definition role_refused (r : Registry.t) (i : StepInput.t) : bool :=
  negb (StepInput.SubmitterIsAdmin i) && negb (String.eqb (StepInput.RoleID i) "")
  && negb (CallableByAdmin (Registry.Roles r !! StepInput.RoleID i) false).
Definition roleCallableBySubmitter (r : Registry.t) (inputs : list StepInput.t) : result AdmissionError unit :=
  match List.find (role_refused r) inputs with
  | Some i => Err (NotCallable (StepInput.RoleID i))
  | None => Ok tt
  end.
Definition validateSubmission (r : Registry.t) (inputs : list StepInput.t) : result AdmissionError unit :=
  let? _ := validateTaskComplexity r inputs in roleCallableBySubmitter r inputs.

Definition validateWorkspaceScope (r : Registry.t) (workspaceRoot ownerID : string) : result AdmissionError unit :=
  if String.eqb workspaceRoot "" || String.eqb ownerID "" then Ok tt
  else match GetWorkspacePolicy r ownerID with
       | None => Ok tt
       | Some wp =>
           if negb (WorkspacePolicy.Enabled wp) then Ok tt
           else match WorkspacePolicy.AllowedRoots wp with
                | [] => Ok tt
                | roots => if existsb (λ a, within a workspaceRoot) roots then Ok tt else Err (OutsideWorkspace workspaceRoot ownerID)
                end
       end.

(** ** Sessions *)

Module SessionContext.
Record t := mk { SessionID : string; Workspace : string; CreatedAt : Z; ExpiresAt : Z }.
End SessionContext.
Module SessionManager.
Record t := mk { sessions : gmap string SessionContext.t; allowed : list string; defaultTTL : Z }.
#[global] Instance eta : Eta t := λ r, mk (sessions r) (allowed r) (defaultTTL r).
End SessionManager.
Definition IsExpired (sc : SessionContext.t) (now : Z) : bool :=
  negb (SessionContext.ExpiresAt sc =? 0) && (SessionContext.ExpiresAt sc <? now).
Definition NewSessionManager (allowed : list string) (ttl : Z) : SessionManager.t := SessionManager.mk ∅ allowed ttl.

Section sessions.
Context (cwd : string).
(** [filepath.Abs]. *)
Definition Abs (p : string) : string :=
  if rooted p then Clean p else if String.eqb p "" then Clean cwd else Clean (cwd +:+ "/" +:+ p)%string.
Definition isAllowed (m : SessionManager.t) (absPath : string) : bool :=
  match SessionManager.allowed m with [] => true | roots => existsb (λ root, has_prefix (Abs root) absPath) roots end.
Definition CreateOrBind (sessionID workspaceRoot : string) (now : Z) (m : SessionManager.t)
    : SessionManager.t * result AdmissionError SessionContext.t :=
  if String.eqb sessionID "" then (m, Err SessionRequired)
  else
    let absRoot := Abs workspaceRoot in
    if negb (isAllowed m absRoot) then (m, Err (SessionRejected absRoot))
    else
      let fresh :=
        let sc := SessionContext.mk sessionID absRoot now
                    (if 0 <? SessionManager.defaultTTL m then now + SessionManager.defaultTTL m else 0) in
        (m <| SessionManager.sessions ::= <[sessionID := sc]> |>, Ok sc) in
      match SessionManager.sessions m !! sessionID with
      | Some sc => if IsExpired sc now then fresh else (m, Ok sc)
      | None => fresh
      end.
Definition Lookup (sessionID : string) (now : Z) (m : SessionManager.t) : option SessionContext.t :=
  match SessionManager.sessions m !! sessionID with
  | Some sc => if IsExpired sc now then None else Some sc
  | None => None
  end.
End sessions.

(** ** Directory skills *)

(** The files of a skill: whether a path is missing, the text of a file, and
    the names in a directory with whether each is a directory itself. *)
Record SkillFiles := mkFiles {
  missing : string → bool;
  read_text : string → option string;
  read_dir : string → option (list (string * bool))
}.

Inductive SkillError :=
| NoPromptsDir (skill : string) | PromptsMissing (dir : string) | OrderUnreadable | NoSkillSteps (dir : string)
| PromptUnreadable (path : string) | InvalidStepID (id path : string).

Definition id_byte (a : ascii) : bool :=
  let n := nat_of_ascii a in
  ((97 <=? n) && (n <=? 122) || (65 <=? n) && (n <=? 90) || (48 <=? n) && (n <=? 57) || (n =? 95) || (n =? 45))%nat.
Definition isValidStepID (id : string) : bool := negb (String.eqb id "") && forallb id_byte (bytes id).

Definition newline_byte : ascii := ascii_of_nat 10.
(** [stripFrontmatter]: the lines after the second one that is just dashes. *)
Fixpoint after_second (seen : nat) (lines : list string) : option (list string) :=
  match lines with
  | [] => None
  | l :: ls =>
      if String.eqb (TrimSpace l) "---" then
        match seen with O => after_second 1 ls | S _ => Some ls end
      else after_second seen ls
  end.
Definition stripFrontmatter (content : string) : string :=
  if negb (has_prefix "---" content) then content
  else match split_on newline_byte content with
       | [_] | [] => content
       | lines => match after_second 0 lines with Some ls => join newline ls | None => content end
       end.

(** [strings.Trim] with a set of ASCII bytes. *)
Fixpoint trim_left (cut : ascii → bool) (s : string) : string :=
  match s with String a s' => if cut a then trim_left cut s' else s | EmptyString => EmptyString end.
Definition Trim (cut : ascii → bool) (s : string) : string := srev (trim_left cut (srev (trim_left cut s))).
Definition in_set (cs : list nat) (a : ascii) : bool := existsb (Nat.eqb (nat_of_ascii a)) cs.

Definition steps_of_line (line : string) : list string :=
  let stepsStr := Trim (in_set [91; 93]%nat) (TrimSpace (TrimPrefix line "steps:")) in
  filter (λ s, s ≠ "") (map (λ p, Trim (in_set [34; 39]%nat) (TrimSpace p)) (split_on "," stepsStr)).
Fixpoint frontmatter_steps (inside : bool) (lines : list string) : option (list string) :=
  match lines with
  | [] => None
  | raw :: ls =>
      let line := TrimSpace raw in
      if String.eqb line "---" then (if inside then None else frontmatter_steps true ls)
      else if inside && has_prefix "steps:" line then Some (steps_of_line line)
      else frontmatter_steps inside ls
  end.
(** [bufio.Scanner] stops at a line of 64 KiB. *)
Fixpoint scanned (lines : list string) : list string :=
  match lines with
  | [] => []
  | l :: ls => if (65536 <=? String.length l)%nat then [] else l :: scanned ls
  end.
Definition parseStepsFromSkillMd (fs : SkillFiles) (path : string) : option (list string) :=
  content ← read_text fs path; frontmatter_steps false (scanned (split_on newline_byte content)).

Definition Join (a b : string) : string := if String.eqb a "" then Clean b else Clean (a +:+ "/" +:+ b)%string.
Definition has_suffix (suf s : string) : bool := has_prefix (srev suf) (srev s).
Definition TrimSuffix (s suf : string) : string := if has_suffix suf s then String.substring 0 (String.length s - String.length suf) s else s.

Definition resolveStepOrder (fs : SkillFiles) (skillDir promptsDir : string) : result SkillError (list string) :=
  let default_order :=
    match read_dir fs promptsDir with
    | None => Err OrderUnreadable
    | Some entries =>
        Ok (sort_strings (map (λ e, TrimSuffix e.1 ".md") (filter (λ e, negb e.2 && has_suffix ".md" e.1 = true) entries)))
    end in
  if String.eqb skillDir "" then default_order
  else match parseStepsFromSkillMd fs (Join skillDir "SKILL.md") with
       | Some (s :: steps) => Ok (s :: steps)
       | _ => default_order
       end.

Fixpoint expand_steps (fs : SkillFiles) (promptsDir prev : string) (names : list string) : result SkillError (list StepInput.t) :=
  match names with
  | [] => Ok []
  | name :: names' =>
      let path := Join promptsDir (name +:+ ".md")%string in
      match read_text fs path with
      | None => Err (PromptUnreadable path)
      | Some content =>
          if negb (isValidStepID name) then Err (InvalidStepID name path)
          else
            let? rest := expand_steps fs promptsDir name names' in
            Ok (zeroInput <| StepInput.ID := name |> <| StepInput.RoleID := "subagent" |>
                          <| StepInput.Task := stripFrontmatter content |>
                          <| StepInput.DependsOn := if String.eqb prev "" then [] else [prev] |> :: rest)
      end
  end.
(** [ExpandDirectorySkill]; the user's task is an argument it does not use. *)
Definition ExpandDirectorySkill (fs : SkillFiles) (sk : Skill.t) (userTask : string) : result SkillError (list StepInput.t) :=
  if negb (String.eqb (Skill.ExecutionMode sk) "directory") then Ok [] else
  let promptsDir := if String.eqb (Skill.PromptsDir sk) "" && negb (String.eqb (Skill.SkillDir sk) "")
                    then Join (Skill.SkillDir sk) "prompts" else Skill.PromptsDir sk in
  if String.eqb promptsDir "" then Err (NoPromptsDir (Skill.ID sk))
  else if missing fs promptsDir then Err (PromptsMissing promptsDir)
  else
    let? names := resolveStepOrder fs (Skill.SkillDir sk) promptsDir in
    match names with
    | [] => Err (NoSkillSteps promptsDir)
    | _ => expand_steps fs promptsDir "" names
    end.

(** [expandSkillsIfNecessary]; [getSkill] is the hub's lookup. *)
Definition session_role (roles : list Role.t) (id : string) : option Role.t := List.find (λ r, String.eqb (Role.ID r) id) roles.
Definition bound_directory_skill (getSkill : string → option Skill.t) (skills : list Skill.t) (r : Role.t) : option Skill.t :=
  head (omap (λ id,
    sk ← (match getSkill id with Some sk => Some sk | None => List.find (λ sk, String.eqb (Skill.ID sk) id) skills end);
    if String.eqb (Skill.ExecutionMode sk) "directory" then Some sk else None) (Role.BoundSkills r)).
Definition after_expansion (lastID : string) (i : StepInput.t) : StepInput.t :=
  match StepInput.DependsOn i with [] => i <| StepInput.DependsOn := [lastID] |> | _ => i end.
Definition expandSkillsIfNecessary (fs : SkillFiles) (reg : Registry.t) (getSkill : string → option Skill.t)
    (inputs : list StepInput.t) (roles : list Role.t) (skills : list Skill.t) : list StepInput.t :=
  match inputs with
  | [] => []
  | first :: rest =>
      let role := match (if String.eqb (StepInput.RoleID first) "" then None else Registry.Roles reg !! StepInput.RoleID first) with
                  | Some r => Some r
                  | None => session_role roles (StepInput.RoleID first)
                  end in
      match role ≫= bound_directory_skill getSkill skills with
      | None => inputs
      | Some sk =>
          match ExpandDirectorySkill fs sk (StepInput.Task first) with
          | Err _ => inputs
          | Ok expanded =>
              match last expanded with
              | None => inputs
              | Some l => expanded ++ map (after_expansion (StepInput.ID l)) rest
              end
          end
      end
  end.

(** ** Properties *)

Definition global_roots (r : Registry.t) : list string :=
  WorkspacePolicy.AllowedRoots (System.WorkspacePolicy (Registry.System_ r)).

Lemma scope_ok r root owner :
  validateWorkspaceScope r root owner = Ok tt → root ≠ "" → owner ≠ "" →
  ∀ wp, GetWorkspacePolicy r owner = Some wp → WorkspacePolicy.Enabled wp = true → WorkspacePolicy.AllowedRoots wp ≠ [] →
  withinAnyRoot (WorkspacePolicy.AllowedRoots wp) root = true.
Proof.
  intros H Hr Ho wp Hw He Ha. unfold validateWorkspaceScope in H.
  rewrite (proj2 (String.eqb_neq _ _) Hr), (proj2 (String.eqb_neq _ _) Ho), Hw, He in H. cbn [orb negb] in H.
  destruct (WorkspacePolicy.AllowedRoots wp) as [|a l]; [done|]. unfold withinAnyRoot.
  by destruct (existsb _ _).
Qed.

(** A workspace admitted for an owner lies within the roots of that owner and
    within the global roots: an owner's own list cannot widen what the operator
    allowed, whatever it contains. *)
Theorem admitted_within_global r root owner wp :
  validateWorkspaceScope r root owner = Ok tt → root ≠ "" → owner ≠ "" →
  GetWorkspacePolicy r owner = Some wp → global_roots r ≠ [] →
  withinAnyRoot (WorkspacePolicy.AllowedRoots wp) root = true ∧ withinAnyRoot (global_roots r) root = true.
Proof.
  intros H Hr Ho Hw Hg. destruct (policy_narrows r owner wp root Hw Hg) as (He & Ha & Hn).
  assert (Hin := scope_ok r root owner H Hr Ho wp Hw He Ha). split; [done|]. by apply Hn.
Qed.

Lemma find_none {A} (f : A → bool) l : List.find f l = None ↔ ∀ x, x ∈ l → f x = false.
Proof.
  split.
  - intros H x Hx. apply (List.find_none _ _ H). by apply list_elem_of_In.
  - intros H. induction l as [|a l IH]; [done|]. cbn [List.find]. rewrite (H a (list_elem_of_here _ _)).
    apply IH. intros x Hx. apply H. by right.
Qed.
Lemma role_refused_false r i :
  role_refused r i = false ↔
  StepInput.SubmitterIsAdmin i = true ∨ StepInput.RoleID i = "" ∨ CallableByAdmin (Registry.Roles r !! StepInput.RoleID i) false = true.
Proof.
  unfold role_refused. destruct (StepInput.SubmitterIsAdmin i); cbn [negb andb]; [naive_solver|].
  destruct (String.eqb_spec (StepInput.RoleID i) ""); cbn [negb andb]; [naive_solver|].
  destruct (CallableByAdmin _ _); naive_solver.
Qed.

(** The gate accepts exactly the non-empty submissions in which a step without
    admin rights names no role or one that the public may call, apart from the
    lone simple task a deployment can refuse. *)
Theorem submission_gate_exact r inputs :
  System.RejectSimpleTasks (Registry.System_ r) = false →
  (validateSubmission r inputs = Ok tt ↔
   inputs ≠ [] ∧ ∀ i, i ∈ inputs →
     StepInput.SubmitterIsAdmin i = true ∨ StepInput.RoleID i = "" ∨
     CallableByAdmin (Registry.Roles r !! StepInput.RoleID i) false = true).
Proof.
  intros Hs. unfold validateSubmission. setoid_rewrite <- role_refused_false. rewrite <- find_none.
  assert (validateTaskComplexity r inputs = match inputs with [] => Err NoSteps | _ => Ok tt end) as ->.
  { unfold validateTaskComplexity. rewrite Hs. by destruct inputs as [|? [|? ?]]. }
  unfold roleCallableBySubmitter. destruct inputs as [|i l]; [naive_solver|]. cbn [rbind].
  destruct (List.find _ _); naive_solver.
Qed.

(** What the size guard reports. *)
Lemma guard_exact ordR ordM inputs r :
  EvaluateAndGuardInputs ordR ordM inputs r = None ↔
  ∀ i, i ∈ inputs → Z.of_nat (String.length (StepInput.Task i)) <= getMaxSafeTaskChars r ∨ has_prefix "asset://" (StepInput.Task i) = true.
Proof.
  unfold EvaluateAndGuardInputs. cbv zeta.
  assert (List.find (oversized (getMaxSafeTaskChars r)) inputs = None ↔
          ∀ i, i ∈ inputs → Z.of_nat (String.length (StepInput.Task i)) <= getMaxSafeTaskChars r ∨ has_prefix "asset://" (StepInput.Task i) = true) as <-.
  { rewrite find_none. unfold oversized. split; intros Hall i Hi; specialize (Hall i Hi); revert Hall;
      destruct (Z.ltb_spec (getMaxSafeTaskChars r) (Z.of_nat (String.length (StepInput.Task i)))), (has_prefix _ _); cbn [andb negb];
      intros Hi2; try done; auto; destruct Hi2; [lia|done]. }
  destruct (List.find _ _); naive_solver.
Qed.

(** A step of an expanded skill: a subagent on the text of its own prompt
    file, after the step before it. *)
Definition skill_step (fs : SkillFiles) (dir prev name : string) (i : StepInput.t) : Prop :=
  isValidStepID name = true ∧
  ∃ content, read_text fs (Join dir (name +:+ ".md")%string) = Some content ∧
    i = zeroInput <| StepInput.ID := name |> <| StepInput.RoleID := "subagent" |>
                  <| StepInput.Task := stripFrontmatter content |>
                  <| StepInput.DependsOn := if String.eqb prev "" then [] else [prev] |>.
Lemma expand_steps_spec fs dir prev names l :
  expand_steps fs dir prev names = Ok l → Forall3 (skill_step fs dir) (prev :: take (length names - 1) names) names l ∨ names = [] ∧ l = [].
Proof.
  revert prev l. induction names as [|n names IH]; intros prev l; cbn [expand_steps]; [intros [= <-]; by right|].
  destruct (read_text fs _) as [content|] eqn:Er; [|done]. destruct (isValidStepID n) eqn:Ev; [|done]. cbn [negb].
  rewrite rbind_ok. intros (rest & Hrest & [= <-]). left. specialize (IH n rest Hrest).
  assert (skill_step fs dir prev n (zeroInput <| StepInput.ID := n |> <| StepInput.RoleID := "subagent" |>
            <| StepInput.Task := stripFrontmatter content |> <| StepInput.DependsOn := if String.eqb prev "" then [] else [prev] |>)) as Hn.
  { split; [done|]. by exists content. }
  destruct IH as [IH|[-> ->]].
  - destruct names as [|m names]; [inversion IH|]. constructor; [exact Hn|].
    replace (take (length (n :: m :: names) - 1) (n :: m :: names)) with (n :: take (length (m :: names) - 1) (m :: names)); [exact IH|].
    cbn [length Nat.sub]. by rewrite Nat.sub_0_r.
  - cbn. repeat constructor; [done|]. by exists content.
Qed.

(** A directory skill that expands becomes a chain: its steps in the order of
    the skill, each one valid, on its own prompt, depending on exactly the step
    before it. *)
Theorem skill_expands_to_chain fs sk task l :
  Skill.ExecutionMode sk = "directory" → ExpandDirectorySkill fs sk task = Ok l →
  ∃ dir names, names ≠ [] ∧ resolveStepOrder fs (Skill.SkillDir sk) dir = Ok names ∧
    Forall3 (skill_step fs dir) ("" :: take (length names - 1) names) names l.
Proof.
  intros Hd. unfold ExpandDirectorySkill. rewrite Hd. change (negb (String.eqb "directory" "directory")) with false. cbv zeta. set (dir := if String.eqb (Skill.PromptsDir sk) "" && _ then _ else _).
  destruct (String.eqb dir ""); [done|]. destruct (missing fs dir); [done|]. rewrite rbind_ok. intros (names & Hn & H).
  destruct names as [|n ns]; [done|]. exists dir, (n :: ns). split_and!; [done|done|].
  by destruct (expand_steps_spec _ _ _ _ _ H) as [?|[? _]].
Qed.

(** A live binding is kept, whatever workspace the new request names. *)
Lemma binding_sticks cwd id ws now m sc :
  id ≠ "" → isAllowed cwd m (Abs cwd ws) = true →
  SessionManager.sessions m !! id = Some sc → IsExpired sc now = false → CreateOrBind cwd id ws now m = (m, Ok sc).
Proof.
  intros Hi Ha Hs He. unfold CreateOrBind. rewrite (proj2 (String.eqb_neq _ _) Hi), Ha, Hs, He. reflexivity.
Qed.
(** A bound session can be looked up until it expires. *)
Lemma bind_lookup cwd id ws now later m m' sc :
  CreateOrBind cwd id ws now m = (m', Ok sc) → IsExpired sc later = false → Lookup id later m' = Some sc.
Proof.
  unfold CreateOrBind, Lookup. destruct (String.eqb id ""); [done|]. destruct (isAllowed _ _ _); [|done]. cbn [negb].
  assert (∀ sc0, SessionManager.sessions (m <| SessionManager.sessions ::= <[id := sc0]> |>) !! id = Some sc0) as Hl.
  { intros sc0. change (<[id := sc0]> (SessionManager.sessions m) !! id = Some sc0). apply lookup_insert_eq. }
  destruct (SessionManager.sessions m !! id) as [old|] eqn:Eo; [destruct (IsExpired old now)|]; intros [= <- <-] He; rewrite ?Hl, ?Eo; by rewrite He.
Qed.

(** The whitelist is a prefix of characters, not of directories: a sibling
    whose name starts alike is admitted. *)
Example sibling_workspace_allowed :
  isAllowed "/" (NewSessionManager ["/work"] 0) "/workevil/x" = true ∧ within "/work" "/workevil/x" = false.
Proof. split; vm_compute; reflexivity. Qed.
(** A whitelisted root directory admits nothing but itself. *)
Example whole_disk_admits_nothing : within "/" "/" = true ∧ within "/" "/work" = false.
Proof. split; vm_compute; reflexivity. Qed.

(** ** Witnesses *)

Definition tenant_policy : WorkspacePolicy.t :=
  WorkspacePolicy.mk true "" ["/srv"] {[ "acme" := PerOwnerPolicy.mk ["/srv/acme"; "/etc"] false ]}.
Definition tenant_registry : Registry.t :=
  Registry.mk {[ "ops" := Role.mk "ops" "Ops" "" "" "" "" [] [] ["admin"] "" ]} ∅ ∅ ∅ ∅ ∅ "" false
    (System.mk 0 tenant_policy false false 0 0 0 0 false).
Lemma admitted_within_global_witness :
  withinAnyRoot ["/srv/acme"] "/srv/acme/../acme/repo" = true ∧ withinAnyRoot ["/srv"] "/srv/acme/../acme/repo" = true.
Proof.
  destruct (GetWorkspacePolicy tenant_registry "acme") as [wp|] eqn:E; [|vm_compute in E; discriminate E].
  assert (WorkspacePolicy.AllowedRoots wp = ["/srv/acme"]) as <-.
  { vm_compute in E. injection E as <-. reflexivity. }
  apply (admitted_within_global tenant_registry "/srv/acme/../acme/repo" "acme" wp); try discriminate; [vm_compute; reflexivity|exact E].
Defined.
Definition named (role : string) : StepInput.t := zeroInput <| StepInput.RoleID := role |>.
Lemma submission_gate_exact_witness :
  validateSubmission tenant_registry [named ""; named "unknown"] = Ok tt ∧
  validateSubmission tenant_registry [named "ops"] = Err (NotCallable "ops").
Proof.
  split; [|vm_compute; reflexivity]. apply (submission_gate_exact tenant_registry [named ""; named "unknown"] eq_refl). split; [discriminate|].
  intros i [->|[->|[]%elem_of_nil]%elem_of_cons]%elem_of_cons; right; [by left|by right].
Defined.

Definition two_prompts : SkillFiles :=
  mkFiles (λ _, false) (λ p, if String.eqb p "/k/prompts/draft.md" then Some "write" else
                            if String.eqb p "/k/prompts/check.md" then Some "read" else
                            if String.eqb p "/k/SKILL.md" then Some (join newline ["---"; "steps: [draft, check]"; "---"]) else None) (λ _, None).
Definition two_step_skill : Skill.t := Skill.mk "k" "directory" "" "/k" "".
Lemma skill_expands_to_chain_witness :
  match ExpandDirectorySkill two_prompts two_step_skill "the user's task" with
  | Ok l => ∃ dir names, names ≠ [] ∧ resolveStepOrder two_prompts "/k" dir = Ok names ∧
              Forall3 (skill_step two_prompts dir) ("" :: take (length names - 1) names) names l
  | Err _ => False
  end.
Proof.
  destruct (ExpandDirectorySkill two_prompts two_step_skill "the user's task") as [l|e] eqn:E.
  - exact (skill_expands_to_chain _ two_step_skill _ _ eq_refl E).
  - vm_compute in E. discriminate E.
Defined.
Example two_steps_in_order :
  match ExpandDirectorySkill two_prompts two_step_skill "the user's task" with
  | Ok l => map (λ i, (StepInput.ID i, StepInput.Task i, StepInput.DependsOn i)) l = [("draft", "write", []); ("check", "read", ["draft"])]
  | Err _ => False
  end.
Proof. vm_compute. reflexivity. Qed.
