(* ===== verification/Cron.v ===== *)
(** * Cron schedules (core/cron/cron_parser.go)

    [parseCronField] turns the text of a field into the set of values it
    admits, [matches] decides a minute and [nextRun] searches the next one.
    Instants are nanoseconds since Go's zero time (1 January of year 1, UTC);
    the location of a [time.Time] is its offset in seconds at each instant,
    [zone].  The calendar of Go's [time] package is written out
    ([civil_of_days]).  The loops that add [step] do so on 64-bit integers. *)
From S2P Require Import Prelude.
From Stdlib Require Import Ascii.
Local Open Scope Z_scope.

(** ** Text *)

(** [strings.Index] and [strings.SplitN(s, sep, 2)] for a one-byte separator. *)
Fixpoint cut (sep : ascii) (s : string) : option (string * string) :=
  match s with
  | EmptyString => None
  | String a s' =>
      if ascii_dec a sep then Some (EmptyString, s')
      else match cut sep s' with Some (l, r) => Some (String a l, r) | None => None end
  end.

(** ** Fields *)

Inductive CronError :=
| InvalidStep (part : string)
| InvalidRangeStart (part : string)
| InvalidRangeEnd (part : string)
| InvalidValue (part : string)
| FieldCount (n : nat)
| InField (i : nat) (e : CronError)
| NoMatch (expr : string).

(** [cronField.values], a [map[int]bool] holding only [true]. *)
Definition cronField := gset Z.

Definition cronFieldRanges (i : nat) : Z * Z :=
  match i with
  | 0%nat => (0, 59) | 1%nat => (0, 23) | 2%nat => (1, 31) | 3%nat => (1, 12) | _ => (0, 6)
  end.

(** [for v := lo; v <= hi; v += step { cf.values[v] = true }] *)
Fixpoint step_values (fuel : nat) (v hi step : Z) (cf : cronField) : cronField :=
  match fuel with
  | O => cf
  | S n => if v <=? hi then step_values n (wrap64 (v + step)) hi step ({[v]} ∪ cf) else cf
  end.
Definition step_fuel : nat := 64.

(** The part before the slash as the bounds [lo, hi] of the loop. *)
Definition part_bounds (part rangePart : string) (min max : Z) : result CronError (Z * Z) :=
  if String.eqb rangePart "*" then Ok (min, max)
  else match cut "-" rangePart with
       | Some (a, b) =>
           match Atoi a with
           | Some lo =>
               if (lo <? min) || (max <? lo) then Err (InvalidRangeStart part)
               else match Atoi b with
                    | Some hi => if (hi <? min) || (max <? hi) || (hi <? lo) then Err (InvalidRangeEnd part) else Ok (lo, hi)
                    | None => Err (InvalidRangeEnd part)
                    end
           | None => Err (InvalidRangeStart part)
           end
       | None =>
           match Atoi rangePart with
           | Some v => if (v <? min) || (max <? v) then Err (InvalidValue rangePart) else Ok (v, v)
           | None => Err (InvalidValue rangePart)
           end
       end.

(** The step after the slash, 1 without one. *)
Definition part_step (part : string) : result CronError (string * Z) :=
  match cut "/" part with
  | Some (l, r) =>
      match Atoi r with
      | Some step => if step <=? 0 then Err (InvalidStep part) else Ok (l, step)
      | None => Err (InvalidStep part)
      end
  | None => Ok (part, 1)
  end.

Definition parseCronPart (part : string) (min max : Z) (cf : cronField) : result CronError cronField :=
  let? rs := part_step part in
  let? b := part_bounds part rs.1 min max in
  Ok (step_values step_fuel b.1 b.2 rs.2 cf).

Fixpoint parse_parts (parts : list string) (min max : Z) (cf : cronField) : result CronError cronField :=
  match parts with
  | [] => Ok cf
  | p :: ps => let? cf' := parseCronPart p min max cf in parse_parts ps min max cf'
  end.

Definition parseCronField (expr : string) (fieldIdx : nat) : result CronError cronField :=
  let r := cronFieldRanges fieldIdx in
  if String.eqb expr "*" then Ok (step_values step_fuel r.1 r.2 1 ∅)
  else parse_parts (split_on "," expr) r.1 r.2 ∅.

(** ** Schedules *)

Module cronSchedule.
Record t := mk {
  minute : cronField; hour : cronField; day : cronField; month : cronField; weekday : cronField;
  dayRestricted : bool; weekdayRestricted : bool }.
End cronSchedule.
Import cronSchedule.

Definition in_field {A} (i : nat) (r : result CronError A) : result CronError A :=
  match r with Ok a => Ok a | Err e => Err (InField i e) end.

Definition parseCronSchedule (expr : string) : result CronError cronSchedule.t :=
  match fields expr with
  | [f0; f1; f2; f3; f4] =>
      let? mi := in_field 0 (parseCronField f0 0) in
      let? ho := in_field 1 (parseCronField f1 1) in
      let? da := in_field 2 (parseCronField f2 2) in
      let? mo := in_field 3 (parseCronField f3 3) in
      let? we := in_field 4 (parseCronField f4 4) in
      Ok (cronSchedule.mk mi ho da mo we (negb (String.eqb f2 "*")) (negb (String.eqb f4 "*")))
  | fs => Err (FieldCount (length fs))
  end.

(** ** The calendar of package [time] *)

Definition ns_per_second : Z := 1000000000.
Definition Second : Z := 1000000000.
Definition Minute : Z := 60 * ns_per_second.

Definition is_leap (y : Z) : bool := (y mod 4 =? 0) && (negb (y mod 100 =? 0) || (y mod 400 =? 0)).
Definition days_in_month (leap : bool) (m : Z) : Z :=
  if m =? 2 then (if leap then 29 else 28)
  else if (m =? 4) || (m =? 6) || (m =? 9) || (m =? 11) then 30 else 31.

Fixpoint month_of (n : nat) (leap : bool) (m d : Z) : Z * Z :=
  match n with
  | O => (m, d + 1)
  | S k => if d <? days_in_month leap m then (m, d + 1) else month_of k leap (m + 1) (d - days_in_month leap m)
  end.

(** Year, month and day of the day [d] after 1 January of year 1, by the cycles
    of 400, 100, 4 and 1 years. *)
Definition civil_of_days (d : Z) : Z * Z * Z :=
  let n400 := d / 146097 in let d := d mod 146097 in
  let n100 := Z.min 3 (d / 36524) in let d := d - n100 * 36524 in
  let n4 := d / 1461 in let d := d mod 1461 in
  let n1 := Z.min 3 (d / 365) in let d := d - n1 * 365 in
  let y := 400 * n400 + 100 * n100 + 4 * n4 + n1 + 1 in
  let md := month_of 11 (is_leap y) 1 d in
  (y, md.1, md.2).

Section time.
(** The offset of the location in seconds east of UTC at an instant. *)
Context (zone : Z → Z).

Definition wall_seconds (t : Z) : Z := t / ns_per_second + zone t.
Definition Minute_ (t : Z) : Z := (wall_seconds t / 60) mod 60.
Definition Hour (t : Z) : Z := (wall_seconds t / 3600) mod 24.
Definition Weekday (t : Z) : Z := (wall_seconds t / 86400 + 1) mod 7.
Definition Date (t : Z) : Z * Z * Z := civil_of_days (wall_seconds t / 86400).

Definition Truncate (t d : Z) : Z := t - t mod d.

Definition mem (v : Z) (cf : cronField) : bool := bool_decide (v ∈ cf).

Definition matches (s : cronSchedule.t) (t : Z) : bool :=
  let '(_, month_, day_) := Date t in
  if negb (mem (Minute_ t) (minute s)) || negb (mem (Hour t) (hour s)) || negb (mem month_ (month s)) then false
  else if dayRestricted s && weekdayRestricted s then mem day_ (day s) || mem (Weekday t) (weekday s)
  else mem day_ (day s) && mem (Weekday t) (weekday s).

(** The loop of [nextRun]; 0 is the zero time. *)
Fixpoint next_from (n : nat) (s : cronSchedule.t) (t : Z) : Z :=
  match n with
  | O => 0
  | S k => if matches s t then t else next_from k s (t + Minute)
  end.

Definition maxIter : nat := Z.to_nat (366 * 24 * 60).
Definition nextRun (s : cronSchedule.t) (from : Z) : Z :=
  next_from maxIter s (Truncate (from + Minute) Minute).

Definition NextRun (expr : string) (from : Z) : result CronError Z :=
  let? s := parseCronSchedule expr in
  let next := nextRun s from in
  if next =? 0 then Err (NoMatch expr) else Ok next.
End time.

(** ** Decimal numbers *)

Lemma digits_char k s acc : (k < 10)%N → digits acc (String (pretty_N_char k) s) = digits (10 * acc + Z.of_N k) s.
Proof. by apply (digit_cases (λ k, digits acc (String (pretty_N_char k) s) = digits (10 * acc + Z.of_N k) s)). Qed.

(** Reading the digits of [x] before [s] gives [10^n * acc + x] for their
    number [n], and then goes on with [s]. *)
Lemma digits_pretty x : ∀ s acc, ∃ n, 0 < n ∧ digits acc (pretty_N_go x s) = digits (n * acc + Z.of_N x) s.
Proof.
  induction x as [x IH] using (well_founded_induction N.lt_wf_0). intros s acc.
  destruct (decide (x = 0%N)) as [->|Hx].
  - rewrite pretty_N_go_0. exists 1. split; [lia|]. f_equal. lia.
  - rewrite pretty_N_go_step by lia.
    destruct (IH (x / 10)%N ltac:(apply N.div_lt; lia) (String (pretty_N_char (x mod 10)) s) acc) as (n & Hn & ->).
    exists (10 * n). split; [lia|].
    rewrite digits_char by by apply N.mod_lt.
    f_equal. assert (Z.of_N x = 10 * Z.of_N (x / 10) + Z.of_N (x mod 10)) as -> by (pose proof (N.div_mod x 10); lia).
    ring.
Qed.

Lemma pretty_nonneg z : 0 <= z → digit_text (pretty z) ∧ pretty z ≠ "" ∧ digits 0 (pretty z) = Some z.
Proof.
  intros Hz. destruct z as [|p|p]; [by split; [repeat constructor|]| |lia].
  change (pretty (Z.pos p)) with (pretty_N_go (N.pos p) "").
  split; [by apply pretty_N_go_digits; constructor|].
  destruct (digits_pretty (N.pos p) "" 0) as (n & _ & E). split.
  - intros Hn. rewrite Hn in E. cbn in E. simplify_eq. lia.
  - rewrite E. cbn. f_equal. lia.
Qed.

Lemma digit_head a s : digit_text (String a s) → a ≠ "-"%char ∧ a ≠ "+"%char ∧ a ≠ "*"%char ∧ is_digit a = true.
Proof.
  unfold digit_text. change (bytes (String a s)) with (a :: bytes s). intros [H _]%Forall_cons.
  repeat split; try exact H; intros ->; discriminate.
Qed.

Lemma Atoi_pretty z : 0 <= z <= int64_max → Atoi (pretty z) = Some z.
Proof.
  intros Hz. destruct (pretty_nonneg z ltac:(lia)) as (Hd & Hne & E). unfold Atoi.
  destruct (pretty z) as [|a s]; [done|]. destruct (digit_head _ _ Hd) as (H1 & H2 & _ & _).
  destruct (ascii_dec a "-"); [done|]. destruct (ascii_dec a "+"); [done|]. rewrite E. cbn [mbind option_bind].
  unfold fits_int64. replace (int64_min <=? z) with true by (symmetry; apply Z.leb_le; unfold int64_min; lia).
  by replace (z <=? int64_max) with true by (symmetry; apply Z.leb_le; lia).
Qed.

Lemma Atoi_range s z : Atoi s = Some z → in_int64 z.
Proof.
  assert (∀ o, (z' ← o; fits_int64 z') = Some z → in_int64 z) as Hf.
  { intros [z'|]; [|done]. cbn. unfold fits_int64. destruct (_ && _) eqn:E; [|done]. intros [= ->].
    unfold in_int64. lia. }
  assert (∀ o, (z' ← o; fits_int64 (- z')) = Some z → in_int64 z) as Hn.
  { intros [z'|]; [|done]. cbn. unfold fits_int64. destruct (_ && _) eqn:E; [|done]. intros [= <-].
    unfold in_int64. lia. }
  unfold Atoi. destruct s as [|a s]; [done|]. destruct (ascii_dec a "-").
  - destruct s; [done|]. apply Hn.
  - destruct (ascii_dec a "+"); [destruct s; [done|]|]; apply Hf.
Qed.

(** ** Splitting *)

Lemma cut_none sep s : sep ∉ bytes s → cut sep s = None.
Proof.
  induction s as [|a s IH]; [done|]. change (bytes (String a s)) with (a :: bytes s).
  intros [Ha Hs]%not_elem_of_cons. cbn [cut]. destruct (ascii_dec a sep) as [->|_]; [done|]. by rewrite IH.
Qed.
Lemma cut_app sep s t : sep ∉ bytes s → cut sep (s +:+ String sep t) = Some (s, t).
Proof.
  induction s as [|a s IH].
  - intros _. change (EmptyString +:+ String sep t)%string with (String sep t). cbn [cut].
    destruct (ascii_dec sep sep) as [_|[]]; done.
  - change (bytes (String a s)) with (a :: bytes s). intros [Ha Hs]%not_elem_of_cons.
    change (String a s +:+ String sep t)%string with (String a (s +:+ String sep t)). cbn [cut].
    destruct (ascii_dec a sep) as [->|_]; [done|]. by rewrite IH.
Qed.

(** ** The loop over a range *)

(** Without overflow the loop admits every [step]-th value of the range. *)
Lemma step_values_spec n : ∀ v hi step cf x,
  0 < step → int64_min <= v → hi + step <= int64_max → hi - v < Z.of_nat n →
  x ∈ step_values n v hi step cf ↔ x ∈ cf ∨ v <= x <= hi ∧ (x - v) mod step = 0.
Proof.
  induction n as [|n IH]; intros v hi step cf x Hs Hv Hhi Hn; cbn [step_values].
  - split; [by left|]. intros [?|[? _]]; [done|lia].
  - destruct (Z.leb_spec v hi) as [Hle|Hgt].
    2: { split; [by left|]. intros [?|[? _]]; [done|lia]. }
    rewrite wrap64_id by (unfold in_int64; lia). rewrite IH by lia.
    rewrite elem_of_union, elem_of_singleton.
    assert ((x - (v + step)) mod step = (x - v) mod step) as Hm.
    { replace (x - (v + step)) with (x - v + (-1) * step) by lia. by rewrite Z.mod_add by lia. }
    rewrite Hm. split.
    + intros [[->|?]|[? ?]]; [right|by left|right; split; [lia|done]].
      rewrite Z.sub_diag, Z.mod_0_l by lia. split; [lia|done].
    + intros [?|[Hx Hmod]]; [by left; right|]. destruct (decide (x = v)) as [->|Hne]; [by left; left|].
      right. split; [|done]. split; [|lia].
      pose proof (Z.mod_small (x - v) step) as Hsm. lia.
Qed.

Lemma step_values_le n : ∀ v hi step cf, cf ⊆ step_values n v hi step cf.
Proof.
  induction n as [|n IH]; intros v hi step cf; cbn [step_values]; [done|].
  destruct (v <=? hi); [|done]. etrans; [|apply IH]. set_solver.
Qed.
Lemma step_values_first n v hi step cf : v <= hi → v ∈ step_values (S n) v hi step cf.
Proof.
  intros H. cbn [step_values]. apply Z.leb_le in H as ->. apply (step_values_le n). set_solver.
Qed.

(** The loop runs out: more fuel changes nothing. *)
Fixpoint stops (n : nat) (v hi step : Z) : bool :=
  match n with
  | O => false
  | S n' => if v <=? hi then stops n' (wrap64 (v + step)) hi step else true
  end.
Lemma stops_more n k : ∀ v hi step cf,
  stops n v hi step = true → step_values (n + k) v hi step cf = step_values n v hi step cf.
Proof.
  induction n as [|n IH]; intros v hi step cf; cbn [stops step_values Nat.add]; [done|].
  destruct (v <=? hi); [apply IH|done].
Qed.
Lemma stops_le n m v hi step : (n <= m)%nat → stops n v hi step = true → stops m v hi step = true.
Proof.
  revert m v. induction n as [|n IH]; intros [|m] v Hle; cbn [stops]; try done; [lia|].
  destruct (v <=? hi); [apply IH; lia|done].
Qed.

(** Steps so large that [v + step] overflows come back two below the value the
    loop had two iterations before, or lower. *)
Lemma stops_overflow n : ∀ v hi step,
  0 <= hi <= 59 → int64_max - 59 < step <= int64_max → -120 <= v <= hi → v < 2 * Z.of_nat n → stops (2 * n + 2) v hi step = true.
Proof.
  assert (∀ v hi step, 0 <= hi <= 59 → int64_max - 59 < step <= int64_max → -120 <= v → v + step <= int64_max →
    hi < wrap64 (v + step)) as Hstop.
  { unfold int64_max. intros v hi step Hhi Hstep Hv Hov.
    rewrite wrap64_id by (unfold in_int64, int64_min, int64_max; lia). lia. }
  unfold int64_max in *.
  induction n as [|n IH]; intros v hi step Hhi Hstep Hv Hn.
  - cbn [Nat.mul Nat.add stops]. replace (v <=? hi) with true by lia. specialize (Hstop v hi step Hhi Hstep).
    replace (wrap64 (v + step) <=? hi) with false by lia. done.
  - replace (2 * S n + 2)%nat with (S (S (2 * n + 2))) by lia. cbn [stops]. replace (v <=? hi) with true by lia.
    destruct (decide (v + step <= 2 ^ 63 - 1)) as [Hov|Hov].
    + specialize (Hstop v hi step Hhi Hstep). by replace (wrap64 (v + step) <=? hi) with false by lia.
    + assert (wrap64 (v + step) = v + step - 2 ^ 64) as ->.
      { unfold wrap64. replace (v + step + 2 ^ 63) with (v + step - 2 ^ 63 + 1 * 2 ^ 64) by lia.
        rewrite Z.mod_add, Z.mod_small by lia. lia. }
      replace (v + step - 2 ^ 64 <=? hi) with true by lia.
      rewrite wrap64_id by (unfold in_int64, int64_min, int64_max; lia). apply IH; lia.
Qed.

Lemma stops_small n : ∀ v hi step,
  0 < step → int64_min <= v → hi + step <= int64_max → hi - v < Z.of_nat n → stops (S n) v hi step = true.
Proof.
  induction n as [|n IH]; intros v hi step Hs Hv Hhi Hn; cbn [stops].
  - by replace (v <=? hi) with false by lia.
  - destruct (Z.leb_spec v hi); [|done]. rewrite wrap64_id by (unfold in_int64; lia).
    apply (IH (v + step)); lia.
Qed.
Lemma step_fuel_enough k v hi step cf :
  0 <= v → v <= hi <= 59 → 0 < step <= int64_max → step_values (step_fuel + k) v hi step cf = step_values step_fuel v hi step cf.
Proof.
  intros Hv Hhi Hs. apply stops_more. destruct (decide (hi + step <= int64_max)).
  - apply (stops_le (S 60)); [unfold step_fuel; lia|]. apply stops_small; unfold int64_min in *; lia.
  - apply (stops_le (2 * 30 + 2)); [unfold step_fuel; lia|]. apply stops_overflow; lia.
Qed.

(** ** The grammar of fields *)

(** The abstract syntax of one entry of a list: every value, one value or a
    range, every [n]-th of them. *)
Inductive base := Star | One (a : Z) | Range (a b : Z).
Definition item : Type := base * option Z.

Definition render_base (b : base) : string :=
  match b with
  | Star => "*"
  | One a => pretty a
  | Range a b => (pretty a +:+ String "-" (pretty b))%string
  end.
Definition render_item (it : item) : string :=
  match it.2 with
  | None => render_base it.1
  | Some n => (render_base it.1 +:+ String "/" (pretty n))%string
  end.
Definition render_field (its : list item) : string := join "," (map render_item its).

Definition base_bounds (min max : Z) (b : base) : Z * Z :=
  match b with Star => (min, max) | One a => (a, a) | Range a b => (a, b) end.
Definition denotes (min max : Z) (v : Z) (it : item) : Prop :=
  (base_bounds min max it.1).1 <= v <= (base_bounds min max it.1).2 ∧
  (v - (base_bounds min max it.1).1) mod default 1 it.2 = 0.

Definition valid_item (min max : Z) (it : item) : Prop :=
  min <= (base_bounds min max it.1).1 ∧ (base_bounds min max it.1).1 <= (base_bounds min max it.1).2 ∧
  (base_bounds min max it.1).2 <= max ∧ 0 < default 1 it.2 <= int64_max - 59.
#[export] Instance valid_item_dec min max it : Decision (valid_item min max it).
Proof. unfold valid_item. apply _. Defined.

(** No rendered base contains a slash, no rendered entry a comma. *)
Lemma render_base_not c b min max it :
  valid_item min max it → it.1 = b → 0 <= min → is_digit c = false → c ≠ "-"%char → c ≠ "*"%char → c ∉ bytes (render_base b).
Proof.
  intros (H1 & H2 & H3 & _) <- Hmin Hc Hd Hs. destruct (it.1) as [|a|a b'] eqn:E; cbn [base_bounds fst snd] in *; cbn [render_base].
  - change (bytes "*") with ["*"%char]. set_solver.
  - apply digit_text_not; [done|]. apply pretty_digits. lia.
  - rewrite bytes_app. change (bytes (String "-" ?s)) with ("-"%char :: bytes s).
    rewrite elem_of_app, elem_of_cons. intros [Hin|[->|Hin]]; [|done|]; revert Hin; apply digit_text_not; try done; apply pretty_digits; lia.
Qed.
Lemma render_item_not it min max : valid_item min max it → 0 <= min → ","%char ∉ bytes (render_item it).
Proof.
  intros Hv Hmin. unfold render_item. pose proof (render_base_not "," it.1 min max it Hv eq_refl Hmin) as Hb.
  destruct (it.2) as [n|] eqn:E; [|by apply Hb]. rewrite bytes_app. change (bytes (String "/" ?s)) with ("/"%char :: bytes s).
  rewrite elem_of_app, elem_of_cons. intros [Hin|[?|Hin]]; [by apply Hb in Hin|done|].
  revert Hin. apply digit_text_not; [done|]. apply pretty_digits. destruct Hv as (_ & _ & _ & Hn). rewrite E in Hn. cbn in Hn. lia.
Qed.

Lemma part_bounds_render part b min max it :
  valid_item min max it → it.1 = b → 0 <= min → max <= 59 → part_bounds part (render_base b) min max = Ok (base_bounds min max b).
Proof.
  intros (H1 & H2 & H3 & _) <- Hmin Hmax. unfold int64_max in *.
  destruct (it.1) as [|a|a b]; cbn [base_bounds fst snd] in *; cbn [render_base]; unfold part_bounds; [done| |].
  - destruct (pretty_nonneg a ltac:(lia)) as (Hd & Hne & _).
    rewrite cut_none by (by apply digit_text_not). rewrite Atoi_pretty by (unfold int64_max; lia).
    replace (String.eqb (pretty a) "*") with false.
    + by replace ((a <? min) || (max <? a)) with false by lia.
    + symmetry. apply String.eqb_neq. intros E. rewrite E in Hd. by apply digit_head in Hd as (_ & _ & ? & _).
  - destruct (pretty_nonneg a ltac:(lia)) as (Hd & Hne & _).
    rewrite cut_app by (by apply digit_text_not). rewrite !Atoi_pretty by (unfold int64_max; lia).
    replace (String.eqb (pretty a +:+ String "-" (pretty b)) "*") with false.
    + replace ((a <? min) || (max <? a)) with false by lia. by replace ((b <? min) || (max <? b) || (b <? a)) with false by lia.
    + symmetry. apply String.eqb_neq. destruct (pretty a) as [|c s] eqn:E; [done|].
      intros E'. apply digit_head in Hd as (_ & _ & Hc & _). change ((String c s +:+ String "-" (pretty b))%string) with (String c (s +:+ String "-" (pretty b))) in E'.
      injection E' as -> _. done.
Qed.

Lemma part_step_render it min max :
  valid_item min max it → 0 <= min → part_step (render_item it) = Ok (render_base it.1, default 1 it.2).
Proof.
  intros Hv Hmin. pose proof (render_base_not "/" it.1 min max it Hv eq_refl Hmin) as Hb.
  unfold part_step, render_item. destruct Hv as (_ & _ & _ & Hn). destruct (it.2) as [n|]; cbn [default from_option id] in *.
  - rewrite cut_app by (by apply Hb). rewrite Atoi_pretty by lia. by replace (n <=? 0) with false by lia.
  - by rewrite cut_none by (by apply Hb).
Qed.

Lemma parse_part_render it min max cf :
  valid_item min max it → 0 <= min → max <= 59 →
  ∃ cf', parseCronPart (render_item it) min max cf = Ok cf' ∧ ∀ v, v ∈ cf' ↔ v ∈ cf ∨ denotes min max v it.
Proof.
  intros Hv Hmin Hmax. unfold parseCronPart. rewrite (part_step_render it min max) by done. cbn [rbind fst snd].
  rewrite (part_bounds_render _ _ min max it) by done. cbn [rbind].
  eexists. split; [done|]. intros v. destruct Hv as (H1 & H2 & H3 & H4). unfold int64_max in *.
  apply step_values_spec; unfold int64_min, int64_max, step_fuel; lia.
Qed.
Lemma parse_parts_render its min max cf :
  Forall (valid_item min max) its → 0 <= min → max <= 59 →
  ∃ cf', parse_parts (map render_item its) min max cf = Ok cf' ∧ ∀ v, v ∈ cf' ↔ v ∈ cf ∨ Exists (denotes min max v) its.
Proof.
  intros Hits Hmin Hmax. revert cf. induction Hits as [|it its Hv Hits IH]; intros cf; cbn [map parse_parts].
  - exists cf. split; [done|]. intros v. rewrite Exists_nil. naive_solver.
  - destruct (parse_part_render it min max cf) as (cf1 & -> & H1); [done..|]. cbn [rbind].
    destruct (IH cf1) as (cf2 & -> & H2). exists cf2. split; [done|]. intros v.
    rewrite H2, H1, Exists_cons. tauto.
Qed.

Lemma ranges_bounds i : 0 <= (cronFieldRanges i).1 ∧ (cronFieldRanges i).1 <= (cronFieldRanges i).2 <= 59.
Proof. destruct i as [|[|[|[|i]]]]; cbn; lia. Qed.

Lemma parse_part_star min max cf : parseCronPart "*" min max cf = Ok (step_values step_fuel min max 1 cf).
Proof. reflexivity. Qed.

(** A list of well-formed entries, written out, is parsed into exactly the
    values the entries denote. *)
Theorem cron_field_denotes its i :
  its ≠ [] → Forall (valid_item (cronFieldRanges i).1 (cronFieldRanges i).2) its →
  ∃ cf, parseCronField (render_field its) i = Ok cf ∧
    ∀ v, v ∈ cf ↔ Exists (denotes (cronFieldRanges i).1 (cronFieldRanges i).2 v) its.
Proof.
  intros Hne Hits. destruct (ranges_bounds i) as (H1 & H2 & H3). unfold parseCronField, render_field.
  set (r := cronFieldRanges i) in *.
  assert (split_on "," (join "," (map render_item its)) = map render_item its) as Hsplit.
  { apply (split_on_join ","). { by destruct its. }
    rewrite Forall_map. eapply Forall_impl; [exact Hits|]. intros it Hit. by eapply render_item_not. }
  destruct (String.eqb_spec (join "," (map render_item its)) "*") as [E|_].
  - rewrite E in Hsplit. destruct its as [|it [|? ?]]; try done. cbn [map] in Hsplit.
    pose proof (f_equal (λ l, hd_error l) Hsplit) as Hr. cbn in Hr. injection Hr as Hr.
    destruct (parse_part_render it r.1 r.2 ∅) as (cf & Hp & Hcf); [by apply Forall_cons in Hits as [? _]|done..|].
    rewrite <- Hr, parse_part_star in Hp. rewrite Hp.
    exists cf. split; [done|]. intros v. rewrite Hcf, Exists_cons, Exists_nil, elem_of_empty. tauto.
  - rewrite Hsplit. destruct (parse_parts_render its r.1 r.2 ∅ Hits H1 H3) as (cf & -> & Hcf).
    exists cf. split; [done|]. intros v. rewrite Hcf, elem_of_empty. tauto.
Qed.

(** ** What an accepted schedule looks like *)

(** Each field admits a value of its range, and none above it: a value below
    comes only from a step so large that the loop wraps around. *)
Definition field_typed (i : nat) (cf : cronField) : Prop :=
  (∃ v, v ∈ cf ∧ (cronFieldRanges i).1 <= v <= (cronFieldRanges i).2) ∧
  (∀ v, v ∈ cf → int64_min <= v <= (cronFieldRanges i).2).
Definition schedule_typed (s : cronSchedule.t) : Prop :=
  field_typed 0 (minute s) ∧ field_typed 1 (hour s) ∧ field_typed 2 (day s) ∧ field_typed 3 (month s) ∧ field_typed 4 (weekday s).

Lemma ok_inj {E A} (a b : A) : @Ok E A a = Ok b → a = b.
Proof. congruence. Qed.

Lemma step_values_bounds n : ∀ v hi step cf x,
  int64_min <= v → x ∈ step_values n v hi step cf → x ∈ cf ∨ int64_min <= x <= hi.
Proof.
  induction n as [|n IH]; intros v hi step cf x Hv; cbn [step_values]; [by left|].
  destruct (Z.leb_spec v hi) as [Hle|]; [|by left]. intros Hx. apply IH in Hx; [|apply wrap64_range].
  rewrite elem_of_union, elem_of_singleton in Hx. destruct Hx as [[->|?]|?]; [by right|by left|by right].
Qed.

Lemma part_bounds_range part rp min max b : min <= max → part_bounds part rp min max = Ok b → min <= b.1 <= b.2 ∧ b.2 <= max.
Proof.
  intros Hmm. unfold part_bounds. destruct (String.eqb rp "*"); [intros [= <-]; cbn; lia|].
  destruct (cut "-" rp) as [[a b']|].
  - destruct (Atoi a) as [lo|]; [|done]. destruct (_ || _) eqn:E1; [done|]. destruct (Atoi b') as [hi|]; [|done].
    destruct (_ || _) eqn:E2 in |- *; [done|]. intros [= <-]; cbn. lia.
  - destruct (Atoi rp) as [v|]; [|done]. destruct (_ || _) eqn:E in |- *; [done|]. intros [= <-]; cbn. lia.
Qed.

Lemma parse_part_typed part min max cf cf' :
  0 <= min <= max → (∀ v, v ∈ cf → int64_min <= v <= max) → parseCronPart part min max cf = Ok cf' →
  cf ⊆ cf' ∧ (∃ v, v ∈ cf' ∧ min <= v <= max) ∧ (∀ v, v ∈ cf' → int64_min <= v <= max).
Proof.
  intros Hmm Hcf. unfold parseCronPart. rewrite rbind_ok. intros ([l st] & _ & H). rewrite rbind_ok in H.
  destruct H as ([lo hi] & Hb & H). cbn [fst snd] in H. apply part_bounds_range in Hb; [|lia]. cbn [fst snd] in Hb.
  apply ok_inj in H as <-. split; [apply step_values_le|]. split.
  - exists lo. split; [|lia]. apply (step_values_first 63). lia.
  - intros v Hv. apply step_values_bounds in Hv; [|unfold int64_min; lia]. destruct Hv as [Hv|Hv]; [by apply Hcf|lia].
Qed.
Lemma parse_parts_typed parts min max : ∀ cf cf',
  0 <= min <= max → (∀ v, v ∈ cf → int64_min <= v <= max) → parse_parts parts min max cf = Ok cf' →
  cf ⊆ cf' ∧ (parts ≠ [] → ∃ v, v ∈ cf' ∧ min <= v <= max) ∧ (∀ v, v ∈ cf' → int64_min <= v <= max).
Proof.
  induction parts as [|p ps IH]; intros cf cf' Hmm Hcf; cbn [parse_parts].
  - intros [= <-]. by split; [|split].
  - rewrite rbind_ok. intros (cf1 & H1 & H2). apply parse_part_typed in H1 as (Hle & (v & Hv & Hr) & Hall); [|done..].
    apply IH in H2 as (Hle2 & _ & Hall2); [|done..]. split; [by etrans|]. split; [|done]. intros _. exists v. by split; [apply Hle2|].
Qed.

Lemma split_on_nonempty sep s : split_on sep s ≠ [].
Proof. destruct s as [|a s]; cbn [split_on]; [done|]. destruct (ascii_dec a sep); [done|]. by destruct (split_on sep s). Qed.

Lemma parse_field_typed expr i cf : parseCronField expr i = Ok cf → field_typed i cf.
Proof.
  pose proof (ranges_bounds i) as Hr. unfold parseCronField, field_typed. destruct (String.eqb expr "*").
  - intros <-%ok_inj. split.
    + exists (cronFieldRanges i).1. split; [|lia]. apply (step_values_first 63). lia.
    + intros v Hv. apply step_values_bounds in Hv; [|unfold int64_min; lia]. by destruct Hv as [?%elem_of_empty|?].
  - intros H. apply parse_parts_typed in H as (_ & H1 & H2); [|lia|by intros v ?%elem_of_empty]. split; [|done].
    apply H1. apply split_on_nonempty.
Qed.

Lemma in_field_ok {A} i (r : result CronError A) a : in_field i r = Ok a → r = Ok a.
Proof. by destruct r. Qed.

Lemma parse_schedule_fields expr s :
  parseCronSchedule expr = Ok s →
  ∃ f0 f1 f2 f3 f4, fields expr = [f0; f1; f2; f3; f4] ∧
    parseCronField f0 0 = Ok (minute s) ∧ parseCronField f1 1 = Ok (hour s) ∧ parseCronField f2 2 = Ok (day s) ∧
    parseCronField f3 3 = Ok (month s) ∧ parseCronField f4 4 = Ok (weekday s) ∧
    dayRestricted s = negb (String.eqb f2 "*") ∧ weekdayRestricted s = negb (String.eqb f4 "*").
Proof.
  unfold parseCronSchedule. destruct (fields expr) as [|f0 [|f1 [|f2 [|f3 [|f4 [|]]]]]]; try done.
  rewrite !rbind_ok. intros (mi & H0%in_field_ok & H). rewrite rbind_ok in H. destruct H as (ho & H1%in_field_ok & H).
  rewrite rbind_ok in H. destruct H as (da & H2%in_field_ok & H). rewrite rbind_ok in H. destruct H as (mo & H3%in_field_ok & H).
  rewrite rbind_ok in H. destruct H as (we & H4%in_field_ok & H). apply ok_inj in H as <-.
  exists f0, f1, f2, f3, f4. cbn. by rewrite H0, H1, H2, H3, H4.
Qed.

(** Every field of a parsed schedule holds at least one value, and only values
    of that field's range. *)
Theorem cron_schedule_typed expr s : parseCronSchedule expr = Ok s → schedule_typed s.
Proof.
  intros (f0 & f1 & f2 & f3 & f4 & _ & H0 & H1 & H2 & H3 & H4 & _)%parse_schedule_fields.
  unfold schedule_typed. split_and!; eapply parse_field_typed; eassumption.
Qed.

(** ** The next run *)

Lemma maxIter_Z : Z.of_nat maxIter = 527040.
Proof. by apply Z2Nat.id. Qed.

Section next.
Context (zone : Z → Z).

(** The first minute after [from] that the schedule admits, if the search
    reaches it. *)
Definition horizon (from : Z) : Z := Truncate (from + Minute) Minute + Z.of_nat maxIter * Minute.
Definition is_next (s : cronSchedule.t) (from t : Z) : Prop :=
  from < t < horizon from ∧ t mod Minute = 0 ∧ matches zone s t = true ∧
  ∀ u, from < u < t → u mod Minute = 0 → matches zone s u = false.

Lemma truncate_aligned t : Truncate t Minute mod Minute = 0.
Proof.
  unfold Truncate. rewrite Zminus_mod, Zmod_mod, Z.sub_diag. done.
Qed.
Lemma truncate_next from : from < Truncate (from + Minute) Minute <= from + Minute.
Proof.
  unfold Truncate. pose proof (Z.mod_pos_bound (from + Minute) Minute ltac:(done)). lia.
Qed.
Lemma next_aligned from u : from < u → u mod Minute = 0 → ∃ k : nat, u = Truncate (from + Minute) Minute + Z.of_nat k * Minute.
Proof.
  intros Hu Hm. set (t := Truncate (from + Minute) Minute). pose proof (truncate_next from) as Ht. fold t in Ht.
  pose proof (truncate_aligned (from + Minute)) as Ha. fold t in Ha.
  apply Z.mod_divide in Hm as [a ->]; [|done]. apply Z.mod_divide in Ha as [b Hb]; [|done].
  assert (0 < Minute) by done. assert (b <= a) by nia. exists (Z.to_nat (a - b)). rewrite Hb, Z2Nat.id by lia. ring.
Qed.

Lemma next_from_spec n s : ∀ t,
  (∃ k : nat, (k < n)%nat ∧ next_from zone n s t = t + Z.of_nat k * Minute ∧ matches zone s (t + Z.of_nat k * Minute) = true ∧
    ∀ j : nat, (j < k)%nat → matches zone s (t + Z.of_nat j * Minute) = false) ∨
  next_from zone n s t = 0 ∧ ∀ j : nat, (j < n)%nat → matches zone s (t + Z.of_nat j * Minute) = false.
Proof.
  induction n as [|n IH]; intros t; cbn [next_from].
  { right. split; [done|]. lia. }
  destruct (matches zone s t) eqn:Em.
  { left. exists 0%nat. replace (t + Z.of_nat 0 * Minute) with t by lia. split; [lia|]. split_and!; [done..|lia]. }
  assert (∀ j : nat, t + Z.of_nat (S j) * Minute = t + Minute + Z.of_nat j * Minute) as HS by lia.
  destruct (IH (t + Minute)) as [(k & Hk & E & Hm & Hj)|[E Hj]].
  - left. exists (S k). rewrite HS. split_and!; [lia|done..|]. intros [|j] Hlt.
    + by replace (t + Z.of_nat 0 * Minute) with t by lia.
    + rewrite HS. apply Hj. lia.
  - right. split; [done|]. intros [|j] Hlt.
    + by replace (t + Z.of_nat 0 * Minute) with t by lia.
    + rewrite HS. apply Hj. lia.
Qed.

Lemma nextRun_spec s from :
  0 <= from →
  is_next s from (nextRun zone s from) ∨
  nextRun zone s from = 0 ∧ ∀ u, from < u < horizon from → u mod Minute = 0 → matches zone s u = false.
Proof.
  intros Hf. unfold nextRun, is_next, horizon. pose proof (truncate_next from) as Ht.
  pose proof (truncate_aligned (from + Minute)) as Ha.
  set (t := Truncate (from + Minute) Minute) in *. assert (0 < Minute) as HM by done.
  destruct (next_from_spec maxIter s t) as [(k & Hk & -> & Hm & Hj)|[-> Hj]].
  - left. split_and!; [nia|nia| |done|].
    + by rewrite Z.mod_add by done.
    + intros u Hu Hmod. destruct (next_aligned from u ltac:(lia) Hmod) as [j ->]. fold t in Hu |- *. apply Hj. nia.
  - right. split; [done|]. intros u Hu Hmod. destruct (next_aligned from u ltac:(lia) Hmod) as [j ->]. fold t in Hu |- *.
    apply Hj. nia.
Qed.

Lemma is_next_unique s from t t' : is_next s from t → is_next s from t' → t = t'.
Proof.
  intros (H1 & A1 & M1 & L1) (H2 & A2 & M2 & L2). destruct (Z.lt_total t t') as [Hlt|[?|Hlt]]; [|done|].
  - rewrite L2 in M1; [done|lia|done].
  - rewrite L1 in M2; [done|lia|done].
Qed.

(** C23: From any instant since 1970, in any zone, [NextRun] answers [t] exactly when the
    expression parses and [t] is the first whole minute strictly after [from] that the
    schedule admits, within the 366 days of minutes it looks through; so it fails
    exactly when the expression does not parse or none of these minutes is admitted
    ([leap_day_missed]). *)
Theorem NextRun_exact expr from t :
  0 <= from → NextRun zone expr from = Ok t ↔ ∃ s, parseCronSchedule expr = Ok s ∧ is_next s from t.
Proof.
  intros Hf. unfold NextRun. rewrite rbind_ok. apply exist_proper. intros s. apply and_iff_compat_l.
  cbv zeta. pose proof (nextRun_spec s from Hf) as Hn. destruct (Z.eqb_spec (nextRun zone s from) 0) as [E|E].
  - split; [done|]. intros (Ht & Ha & Hm & _). destruct Hn as [Hn|[_ Hn]].
    + rewrite E in Hn. destruct Hn as [? _]. lia.
    + by rewrite Hn in Hm by done.
  - destruct Hn as [Hn|[? _]]; [|done]. split; [by intros [= <-]|]. intros Ht. f_equal. by eapply is_next_unique.
Qed.
End next.

(** ** The calendar keeps its ranges *)

Definition month_days_ok (leap : bool) : bool :=
  forallb (λ d, let md := month_of 11 leap 1 (Z.of_nat d) in
    (1 <=? md.1) && (md.1 <=? 12) && (1 <=? md.2) && (md.2 <=? 31)) (seq 0 (if leap then 366%nat else 365%nat)).
Lemma month_days leap : month_days_ok leap = true.
Proof. destruct leap; vm_compute; reflexivity. Qed.

Lemma month_of_range (leap : bool) d :
  0 <= d < (if leap then 366 else 365) →
  1 <= (month_of 11 leap 1 d).1 <= 12 ∧ 1 <= (month_of 11 leap 1 d).2 <= 31.
Proof.
  intros Hd. pose proof (month_days leap) as H. unfold month_days_ok in H. rewrite forallb_forall in H.
  specialize (H (Z.to_nat d)). rewrite Z2Nat.id in H by lia. cbv zeta in *.
  rewrite !andb_true_iff, !Z.leb_le in H. cut (In (Z.to_nat d) (seq 0 (if leap then 366%nat else 365%nat))).
  { intros Hin. specialize (H Hin). lia. }
  apply in_seq. destruct leap; lia.
Qed.

Lemma civil_of_days_range d : let '(_, m, dd) := civil_of_days d in 1 <= m <= 12 ∧ 1 <= dd <= 31.
Proof.
  unfold civil_of_days. cbv zeta.
  pose proof (Z.mod_pos_bound d 146097 ltac:(lia)) as H0. set (d0 := d mod 146097) in *. set (n400 := d / 146097) in *.
  pose proof (Z.div_mod d0 36524 ltac:(lia)) as E100. pose proof (Z.mod_pos_bound d0 36524 ltac:(lia)) as B100.
  set (n100 := Z.min 3 (d0 / 36524)) in *.
  assert (0 <= n100 <= 3 ∧ 0 <= d0 - n100 * 36524 <= 36524 ∧ (n100 < 3 → d0 - n100 * 36524 < 36524)) as (Hn100 & Hd1 & Hd1') by lia.
  set (d1 := d0 - n100 * 36524) in *.
  pose proof (Z.div_mod d1 1461 ltac:(lia)) as E4. pose proof (Z.mod_pos_bound d1 1461 ltac:(lia)) as B4.
  set (n4 := d1 / 1461) in *. set (d2 := d1 mod 1461) in *.
  assert (0 <= n4 <= 24) as Hn4 by lia.
  pose proof (Z.div_mod d2 365 ltac:(lia)) as E1. pose proof (Z.mod_pos_bound d2 365 ltac:(lia)) as B1.
  set (n1 := Z.min 3 (d2 / 365)) in *.
  assert (0 <= n1 <= 3 ∧ 0 <= d2 - n1 * 365 <= 365 ∧ (d2 - n1 * 365 = 365 → n1 = 3 ∧ d2 = 1460)) as (Hn1 & Hd3 & Hd3') by lia.
  set (d3 := d2 - n1 * 365) in *. set (y := 400 * n400 + 100 * n100 + 4 * n4 + n1 + 1).
  assert (d3 = 365 → is_leap y = true) as Hleap.
  { intros E3. destruct (Hd3' E3) as [E5 E6]. unfold is_leap.
    assert (y mod 4 = 0) as -> by (apply Z.mod_divide; [done|]; exists (100 * n400 + 25 * n100 + n4 + 1); lia).
    rewrite Z.eqb_refl. cbn [andb].
    destruct (decide (n4 = 24)) as [E7|E7].
    - assert (n100 = 3) as E8 by lia.
      assert (y mod 400 = 0) as -> by (apply Z.mod_divide; [done|]; exists (n400 + 1); lia). by rewrite orb_true_r.
    - assert (y mod 100 = 4 * n4 + 4) as ->.
      { symmetry. apply (Z.mod_unique _ _ (4 * n400 + n100)); lia. }
      by replace (4 * n4 + 4 =? 0) with false by lia. }
  apply (month_of_range (is_leap y) d3). destruct (is_leap y); [lia|]. split; [lia|].
  destruct (decide (d3 = 365)) as [E|E]; [by apply Hleap in E|lia].
Qed.

(** ** Daily schedules run within a day *)

Definition every (i : nat) : cronField := step_values step_fuel (cronFieldRanges i).1 (cronFieldRanges i).2 1 ∅.
Lemma every_spec i v : v ∈ every i ↔ (cronFieldRanges i).1 <= v <= (cronFieldRanges i).2.
Proof.
  pose proof (ranges_bounds i) as Hr. unfold every. rewrite step_values_spec by (unfold int64_min, int64_max, step_fuel; lia).
  rewrite Z.mod_1_r, elem_of_empty. naive_solver.
Qed.
Lemma parse_star i : parseCronField "*" i = Ok (every i).
Proof. reflexivity. Qed.

(** With no restriction on dates only the hour and the minute count. *)
Lemma matches_daily zone s t :
  day s = every 2 → month s = every 3 → weekday s = every 4 → dayRestricted s = false →
  Minute_ zone t ∈ minute s → Hour zone t ∈ hour s → matches zone s t = true.
Proof.
  intros Ed Em Ew Er Hm Hh. unfold matches. destruct (Date zone t) as [[y m] d] eqn:Edate.
  pose proof (civil_of_days_range (wall_seconds zone t / 86400)) as Hc. unfold Date in Edate. rewrite Edate in Hc.
  unfold mem. rewrite (bool_decide_eq_true_2 _ Hm), (bool_decide_eq_true_2 _ Hh), Er, Em, Ed, Ew.
  assert (∀ i v, (cronFieldRanges i).1 <= v <= (cronFieldRanges i).2 → bool_decide (v ∈ every i) = true) as He.
  { intros i v Hv. apply bool_decide_eq_true_2. by apply every_spec. }
  assert (0 <= Weekday zone t < 7) as Hw by (apply Z.mod_pos_bound; lia).
  rewrite !He by (cbn; lia). done.
Qed.

Lemma wall_minutes off t : t mod Minute = 0 → (t / ns_per_second + off) / 60 = t / Minute + off / 60.
Proof.
  intros (q & ->)%Z.mod_divide; [|done]. rewrite Z.div_mul by done.
  replace (q * Minute) with (q * 60 * ns_per_second) by (unfold Minute; ring). rewrite Z.div_mul by done.
  rewrite Z.add_comm, Z.div_add by done. lia.
Qed.

(** A schedule that restricts nothing but the minute and the hour has a run
    within the next 24 hours, in any zone of fixed offset. *)
Theorem daily_schedule_runs expr f0 f1 off from s :
  fields expr = [f0; f1; "*"; "*"; "*"] → parseCronSchedule expr = Ok s → 0 <= from →
  ∃ t, NextRun (λ _, off) expr from = Ok t ∧ from < t <= from + 24 * 60 * Minute.
Proof.
  intros Hf Hs Hfrom. pose proof (parse_schedule_fields _ _ Hs) as (g0 & g1 & g2 & g3 & g4 & E & H0 & H1 & H2 & H3 & H4 & H5 & _).
  rewrite Hf in E. injection E as <- <- <- <- <-. rewrite parse_star in H2, H3, H4.
  apply ok_inj in H2, H3, H4. cbn in H5.
  destruct (parse_field_typed _ _ _ H0) as [(m & Hm & Hmr) _]. destruct (parse_field_typed _ _ _ H1) as [(h & Hh & Hhr) _].
  cbn in Hmr, Hhr. set (t0 := Truncate (from + Minute) Minute). pose proof (truncate_next from) as Ht. fold t0 in Ht.
  pose proof (truncate_aligned (from + Minute)) as Ha. fold t0 in Ha.
  set (w := t0 / Minute + off / 60). set (k := (60 * h + m - w) mod 1440).
  assert (0 <= k < 1440) as Hk by (apply Z.mod_pos_bound; lia). set (t := t0 + k * Minute).
  assert (t mod Minute = 0) as Hat by (unfold t; by rewrite Z.mod_add).
  assert (0 < Minute) as HM by done.
  assert ((t / ns_per_second + off) / 60 mod 1440 = 60 * h + m) as Hw.
  { rewrite wall_minutes by done. unfold t. rewrite Z.div_add by done.
    replace (t0 / Minute + k + off / 60) with (w + k) by (unfold w; ring). unfold k. rewrite Zplus_mod_idemp_r.
    replace (w + (60 * h + m - w)) with (60 * h + m) by ring. apply Z.mod_small. lia. }
  set (x := (t / ns_per_second + off) / 60) in *. pose proof (Z.div_mod x 1440 ltac:(lia)) as Ex. rewrite Hw in Ex.
  assert (matches (λ _, off) s t = true) as Hmatch.
  { apply matches_daily; [done..| |].
    - unfold Minute_, wall_seconds. fold x. replace (x mod 60) with m; [done|].
      apply (Z.mod_unique _ _ (x / 1440 * 24 + h)); lia.
    - unfold Hour, wall_seconds. change 3600 with (60 * 60). rewrite <- Z.div_div by lia. fold x.
      replace (x / 60 mod 24) with h; [done|]. apply (Z.mod_unique _ _ (x / 1440)); [lia|].
      symmetry. apply (Z.div_unique _ _ _ m); lia. }
  assert (from < t < horizon from) as Hrange.
  { unfold horizon. fold t0. rewrite maxIter_Z. unfold t. nia. }
  destruct (nextRun_spec (λ _, off) s from Hfrom) as [Hn|[_ Hn]].
  2: { rewrite Hn in Hmatch; done. }
  exists (nextRun (λ _, off) s from). unfold NextRun. rewrite Hs. cbn [rbind]. cbv zeta.
  destruct Hn as (Hr & _ & _ & Hleast). destruct (Z.eqb_spec (nextRun (λ _, off) s from) 0) as [E0|_]; [lia|].
  split; [done|]. split; [lia|]. destruct (Z.le_gt_cases (nextRun (λ _, off) s from) t) as [Hle|Hgt].
  - unfold t in Hle. nia.
  - rewrite Hleast in Hmatch; [done|lia|done].
Qed.

(** ** Where the parser and the search differ from cron *)

(** A schedule for 29 February has no next run in the year after it: the search
    ends after 366 days. *)
Definition utc (t : Z) : Z := 0.
Definition days_free (s : cronSchedule.t) (d n : Z) : bool :=
  forallb (λ k, let '(_, m, dd) := civil_of_days (d + Z.of_nat k) in negb (mem m (month s) && mem dd (day s))) (seq 0 (Z.to_nat n)).

Lemma no_day_no_run s d n from :
  days_free s d n = true → dayRestricted s && weekdayRestricted s = false →
  d * 86400 * ns_per_second <= from → horizon from <= (d + n) * 86400 * ns_per_second → 0 <= from → nextRun utc s from = 0.
Proof.
  intros Hfree Hdr Hlo Hhi Hf. destruct (nextRun_spec utc s from Hf) as [(Hr & _ & Hm & _)|[? _]]; [|done]. exfalso.
  set (t := nextRun utc s from) in *. set (q := t / ns_per_second / 86400).
  assert (d <= q < d + n) as Hq.
  { unfold q. rewrite Z.div_div by done. split; [apply Z.div_le_lower_bound|apply Z.div_lt_upper_bound]; unfold ns_per_second in *; lia. }
  unfold days_free in Hfree. rewrite forallb_forall in Hfree. specialize (Hfree (Z.to_nat (q - d))).
  rewrite Z2Nat.id in Hfree by lia. replace (d + (q - d)) with q in Hfree by lia.
  unfold matches, Date, wall_seconds, utc in Hm. rewrite Z.add_0_r in Hm. fold q in Hm.
  destruct (civil_of_days q) as [[y m] dd]. rewrite Hdr in Hm.
  assert (In (Z.to_nat (q - d)) (seq 0 (Z.to_nat n))) as Hin by (apply in_seq; lia). specialize (Hfree Hin).
  destruct (mem m (month s)), (mem dd (day s)); cbn in *; try done; rewrite ?orb_true_r, ?orb_false_r in Hm; try done.
  all: by destruct (mem _ _), (mem _ _) in Hm.
Qed.

(** From 1 March 2024 until 27 February 2027 (day 1093 after it), asking for
    the next 29 February is an error. *)
Definition march_2024 : Z := 738945.
Theorem leap_day_missed from :
  march_2024 * 86400 * ns_per_second <= from <= (march_2024 + 1093) * 86400 * ns_per_second →
  NextRun utc "0 0 29 2 *" from = Err (NoMatch "0 0 29 2 *").
Proof.
  intros Hf. destruct (parseCronSchedule "0 0 29 2 *") as [s|] eqn:Es; [|done].
  unfold NextRun. rewrite Es. cbn [rbind]. cbv zeta.
  rewrite (no_day_no_run s march_2024 1460); [done|..].
  - assert (match parseCronSchedule "0 0 29 2 *" with Ok s => days_free s march_2024 1460 | _ => false end = true) as H
      by (vm_compute; reflexivity). by rewrite Es in H.
  - destruct (parse_schedule_fields _ _ Es) as (f0 & f1 & f2 & f3 & f4 & E & _ & _ & _ & _ & _ & _ & ->).
    vm_compute in E. injection E as <- <- <- <- <-. apply andb_false_r.
  - lia.
  - unfold horizon. pose proof (truncate_next from). rewrite maxIter_Z. unfold Minute, ns_per_second in *. lia.
  - unfold march_2024, ns_per_second in Hf. lia.
Qed.

(** One minute asked for with a step next to the largest [int]: the sum wraps
    around and the loop admits half the hour. *)
Definition admits (r : result CronError cronField) (v : Z) : bool :=
  match r with Ok cf => mem v cf | Err _ => false end.
Example huge_step_wraps :
  filter (λ v, admits (parseCronField "59/9223372036854775807" 0) v = true) (Z.of_nat <$> seq 50 10) = [51; 53; 55; 57; 59].
Proof. vm_compute. reflexivity. Qed.
(** Names of days and months are not read, though a schedule's documentation
    uses them. *)
Example day_names_rejected : admits (in_field 4 (parseCronField "MON-FRI" 4)) 1 = false ∧
  match parseCronSchedule "0 9 * * MON-FRI" with Ok _ => False | Err _ => True end.
Proof. vm_compute. split; [reflexivity|exact I]. Qed.
Example march_2024_date : civil_of_days march_2024 = (2024, 3, 1).
Proof. reflexivity. Qed.

(** ** Witnesses *)

Lemma cron_field_denotes_witness :
  ∃ cf, parseCronField (render_field [(Range 8 18, Some 2); (One 23, None)]) 1 = Ok cf ∧
    ∀ v, v ∈ cf ↔ Exists (denotes 0 23 v) [(Range 8 18, Some 2); (One 23, None)].
Proof.
  apply (cron_field_denotes [(Range 8 18, Some 2); (One 23, None)] 1); [discriminate|].
  apply (bool_decide_unpack _). vm_compute. exact I.
Defined.
Lemma cron_schedule_typed_witness :
  match parseCronSchedule "30 6 1,15 * 1-5" with Ok s => schedule_typed s | Err _ => False end.
Proof.
  destruct (parseCronSchedule "30 6 1,15 * 1-5") as [s|e] eqn:E.
  - exact (cron_schedule_typed _ s E).
  - assert (match parseCronSchedule "30 6 1,15 * 1-5" with Ok _ => true | Err _ => false end = true) as H by (vm_compute; reflexivity).
    rewrite E in H. discriminate H.
Defined.
Lemma NextRun_exact_witness :
  ∃ s, parseCronSchedule "*/5 * * * *" = Ok s ∧ is_next utc s (2 * Minute) (5 * Minute).
Proof. apply (proj1 (NextRun_exact utc "*/5 * * * *" (2 * Minute) (5 * Minute) ltac:(discriminate))). vm_compute. reflexivity. Defined.
Lemma daily_schedule_runs_witness :
  ∃ t, NextRun (λ _, 3600) "30 6 * * *" (7 * Minute) = Ok t ∧ 7 * Minute < t <= 7 * Minute + 24 * 60 * Minute.
Proof.
  destruct (parseCronSchedule "30 6 * * *") as [s|e] eqn:E.
  - exact (daily_schedule_runs "30 6 * * *" "30" "6" 3600 (7 * Minute) s eq_refl E ltac:(discriminate)).
  - assert (match parseCronSchedule "30 6 * * *" with Ok _ => true | Err _ => false end = true) as H by (vm_compute; reflexivity).
    rewrite E in H. discriminate H.
Defined.
Lemma leap_day_missed_witness :
  NextRun utc "0 0 29 2 *" (march_2024 * 86400 * ns_per_second) = Err (NoMatch "0 0 29 2 *").
Proof. apply leap_day_missed. split; discriminate. Defined.
