(* ===== verification/ReadCache.v ===== *)
(** * The cache of reads (core/tool_read_cache.go, and its use in
    core/spawner_tool_exec.go)

    Results of domain tools whose names read are kept per server and replayed to
    identical calls for five minutes; a call whose name writes drops the server's
    results.  The cache has one mutex: its history is a list of operations.  The
    key of a call, its execution, redaction and marking are arguments. *)
From S2P Require Import Prelude Cron ToolNames FailureClass PlanDAG Output Sieve.
Local Open Scope Z_scope.

Module readCacheEntry.
Record t := mk { md : string; ts : Z }.
End readCacheEntry.
Module DomainToolReadCache.
Record t := mk { entries : gmap string (gmap string readCacheEntry.t); total : Z }.
End DomainToolReadCache.
Definition NewDomainToolReadCache : DomainToolReadCache.t := DomainToolReadCache.mk ∅ 0.

Definition readCacheTTL : Z := 5 * Minute.
Definition readCacheMaxEntries : Z := 20000.
Definition readCacheKey (callKey : string → gmap string any → string) (mcpID tool : string) (args : gmap string any) : string :=
  mcpID +:+ "|" +:+ callKey tool args.

Definition cache_Get (now : Z) (mcpID k : string) (c : DomainToolReadCache.t) : DomainToolReadCache.t * option string :=
  match DomainToolReadCache.entries c !! mcpID with
  | None => (c, None)
  | Some bucket =>
      match bucket !! k with
      | None => (c, None)
      | Some e =>
          if readCacheTTL <? now - readCacheEntry.ts e
          then (DomainToolReadCache.mk (<[mcpID := delete k bucket]> (DomainToolReadCache.entries c)) (DomainToolReadCache.total c - 1), None)
          else (c, Some (readCacheEntry.md e))
      end
  end.
Definition cache_Put (now : Z) (mcpID k md : string) (c : DomainToolReadCache.t) : DomainToolReadCache.t :=
  let c := if readCacheMaxEntries <=? DomainToolReadCache.total c then NewDomainToolReadCache else c in
  let bucket := default ∅ (DomainToolReadCache.entries c !! mcpID) in
  let existed := bool_decide (is_Some (bucket !! k)) in
  DomainToolReadCache.mk (<[mcpID := <[k := readCacheEntry.mk md now]> bucket]> (DomainToolReadCache.entries c))
    (DomainToolReadCache.total c + (if existed then 0 else 1)).
Definition Invalidate (mcpID : string) (c : DomainToolReadCache.t) : DomainToolReadCache.t :=
  match DomainToolReadCache.entries c !! mcpID with
  | Some bucket => DomainToolReadCache.mk (delete mcpID (DomainToolReadCache.entries c)) (DomainToolReadCache.total c - Z.of_nat (size bucket))
  | None => c
  end.
Definition Clear (c : DomainToolReadCache.t) : DomainToolReadCache.t := NewDomainToolReadCache.

(** ** A call of a domain tool *)

Section call.
Context (callKey : string → gmap string any → string) (state_changing : string → bool).
(** The result of running the tool, as Markdown; what leaves the engine is
    redacted and, where it looks like an instruction, marked. *)
Context (redactAndMarkUntrusted : string → string).

Definition cacheable (name : string) : bool := IsReadTool name && negb (IsPollerTool name).
(** The call up to its result in the context of the model (a warning about a
    repeated result is [steerRepeatedResult]): [result] is what the
    tool answers if it runs, [None] an error; the second component tells whether
    it ran. *)
Definition tool_call (now done_ : Z) (mcpID name : string) (args : gmap string any) (result : option string) (c : DomainToolReadCache.t) :
    DomainToolReadCache.t * bool * option string :=
  let c := if IsWriteMCPTool name || state_changing name then Invalidate mcpID c else c in
  let k := readCacheKey callKey mcpID name args in
  let run c :=
    match result with
    | None => (c, true, None)
    | Some md => ((if cacheable name then cache_Put done_ mcpID k md c else c), true, Some (redactAndMarkUntrusted md))
    end in
  if cacheable name then
    match cache_Get now mcpID k c with
    | (c, Some cached) => (c, false, Some cached)
    | (c, None) => run c
    end
  else run c.
End call.

(** * Properties *)

Inductive cache_op :=
| OGet (now : Z) (mcpID k : string)
| OPut (now : Z) (mcpID k md : string)
| OInvalidate (mcpID : string)
| OClear.
Definition do_op (c : DomainToolReadCache.t) (o : cache_op) : DomainToolReadCache.t :=
  match o with
  | OGet now mcpID k => (cache_Get now mcpID k c).1
  | OPut now mcpID k md => cache_Put now mcpID k md c
  | OInvalidate mcpID => Invalidate mcpID c
  | OClear => Clear c
  end.
Definition stored (c : DomainToolReadCache.t) (mcpID k : string) : option readCacheEntry.t :=
  b ← DomainToolReadCache.entries c !! mcpID; b !! k.

(** An operation that takes the entry of [(mcpID, k)] away or replaces it. *)
Definition overrides (mcpID k : string) (o : cache_op) : Prop :=
  match o with
  | OGet _ _ _ => False
  | OPut _ m k' _ => m = mcpID ∧ k' = k
  | OInvalidate m => m = mcpID
  | OClear => True
  end.
Lemma do_op_stored c o mcpID k e :
  stored (do_op c o) mcpID k = Some e →
  (∃ now md, o = OPut now mcpID k md ∧ e = readCacheEntry.mk md now) ∨ (stored c mcpID k = Some e ∧ ¬ overrides mcpID k o).
Proof.
  destruct o as [now m k'|now m k' md|m|]; cbn [do_op overrides].
  - intros H. right. split; [|tauto]. revert H. unfold cache_Get, stored.
    destruct (DomainToolReadCache.entries c !! m) as [b|] eqn:Eb; [|done]. destruct (b !! k') as [e'|] eqn:Ek; [|done].
    destruct (_ <? _); [|done]. cbn [fst DomainToolReadCache.entries]. destruct (decide (m = mcpID)) as [->|].
    + rewrite lookup_insert_eq, Eb. cbn. by intros [_ ?]%lookup_delete_Some.
    + by rewrite lookup_insert_ne.
  - unfold cache_Put. set (c0 := if _ <=? _ then _ else c).
    assert (H0 : ∀ e, stored c0 mcpID k = Some e → stored c mcpID k = Some e).
    { unfold c0. destruct (_ <=? _); [|done]. unfold stored. cbn. intros e'. by rewrite lookup_empty. }
    unfold stored at 1. cbn [DomainToolReadCache.entries]. destruct (decide (m = mcpID)) as [->|Hm].
    + rewrite lookup_insert_eq. cbn. destruct (decide (k' = k)) as [->|Hk].
      * rewrite lookup_insert_eq. intros [= <-]. left. eauto.
      * rewrite lookup_insert_ne by done. intros H. right. split; [apply H0|naive_solver]. unfold stored.
        destruct (DomainToolReadCache.entries c0 !! mcpID); [exact H|]. cbn in H. by apply (lookup_empty_Some (M := gmap string)) in H.
    + rewrite lookup_insert_ne by done. intros H. right. split; [by apply H0|naive_solver].
  - unfold Invalidate, stored. destruct (DomainToolReadCache.entries c !! m) as [b|] eqn:Eb; cbn [DomainToolReadCache.entries].
    + destruct (decide (m = mcpID)) as [->|]; [by rewrite lookup_delete_eq|]. rewrite lookup_delete_ne by done. auto.
    + intros H. right. split; [done|]. intros ->. by rewrite Eb in H.
  - unfold stored. cbn. by rewrite lookup_empty.
Qed.

(** What the cache holds was put there, and nothing since took it away. *)
Lemma stored_justified ops : ∀ c mcpID k e, stored (fold_left do_op ops c) mcpID k = Some e →
  (stored c mcpID k = Some e ∧ Forall (λ o, ¬ overrides mcpID k o) ops) ∨
  ∃ pre post now md, ops = pre ++ OPut now mcpID k md :: post ∧ e = readCacheEntry.mk md now ∧ Forall (λ o, ¬ overrides mcpID k o) post.
Proof.
  induction ops as [|o ops IH]; intros c mcpID k e; cbn [fold_left]; [by left|].
  intros [[Hs Hf]|(pre & post & now & md & -> & -> & Hf)]%IH.
  - apply do_op_stored in Hs as [(now & md & -> & ->)|[Hs Hno]]; [right|left; auto].
    by exists [], ops, now, md.
  - right. by exists (o :: pre), post, now, md.
Qed.

(** C30: whatever was done to the cache before: a result it replays was put there
    for this server and key, at most five minutes ago, and since then the server
    was not invalidated, the cache not cleared and the entry not replaced. *)
Theorem replay_justified ops now mcpID k md c :
  cache_Get now mcpID k (fold_left do_op ops NewDomainToolReadCache) = (c, Some md) →
  ∃ pre post t, ops = pre ++ OPut t mcpID k md :: post ∧ now - t <= readCacheTTL ∧ Forall (λ o, ¬ overrides mcpID k o) post.
Proof.
  unfold cache_Get. set (c0 := fold_left _ _ _).
  destruct (DomainToolReadCache.entries c0 !! mcpID) as [b|] eqn:Eb; [|done]. destruct (b !! k) as [e|] eqn:Ek; [|done].
  destruct (Z.ltb_spec readCacheTTL (now - readCacheEntry.ts e)) as [|Ht]; [done|]. intros [= _ <-].
  assert (Hs : stored c0 mcpID k = Some e) by (unfold stored; by rewrite Eb).
  apply stored_justified in Hs as [[Hs _]|(pre & post & t & md & -> & -> & Hf)].
  - unfold stored in Hs. cbn in Hs. by rewrite lookup_empty in Hs.
  - exists pre, post, t. done.
Qed.

(** The counter is the number of results, and stays below the limit. *)
Definition count_all (m : gmap string (gmap string readCacheEntry.t)) : Z := map_fold (λ _ b n, Z.of_nat (size b) + n) 0 m.
Lemma count_insert m k b : m !! k = None → count_all (<[k := b]> m) = Z.of_nat (size b) + count_all m.
Proof. intros H. unfold count_all. rewrite map_fold_insert_L; [done|intros; lia|done]. Qed.
Lemma count_delete m k b : m !! k = Some b → count_all (delete k m) = count_all m - Z.of_nat (size b).
Proof. intros H. rewrite <-(insert_delete_id m k b H) at 2. rewrite count_insert by apply lookup_delete_eq. lia. Qed.
Lemma count_replace m k b b' : m !! k = Some b → count_all (<[k := b']> m) = count_all m - Z.of_nat (size b) + Z.of_nat (size b').
Proof. intros H. rewrite <-insert_delete_eq, count_insert by apply lookup_delete_eq. rewrite (count_delete _ _ _ H). lia. Qed.
Definition counted (c : DomainToolReadCache.t) : Prop :=
  DomainToolReadCache.total c = count_all (DomainToolReadCache.entries c) ∧ DomainToolReadCache.total c <= readCacheMaxEntries.
Lemma new_counted : counted NewDomainToolReadCache.
Proof. split; [done|cbn; unfold readCacheMaxEntries; lia]. Qed.
Lemma do_op_counted c o : counted c → counted (do_op c o).
Proof.
  intros [Ht Hmax]. destruct o as [now m k|now m k md|m|]; cbn [do_op].
  - unfold cache_Get. destruct (DomainToolReadCache.entries c !! m) as [b|] eqn:Eb; [|done]. destruct (b !! k) as [e|] eqn:Ek; [|done].
    destruct (_ <? _); [|done]. split; cbn [fst DomainToolReadCache.entries DomainToolReadCache.total]; [|lia].
    rewrite (count_replace _ _ _ _ Eb), map_size_delete, Ek. assert (size b ≠ 0)%nat; [|lia].
    intros H%map_size_empty_inv. by rewrite H, lookup_empty in Ek.
  - unfold cache_Put. set (c0 := if _ <=? _ then _ else c).
    assert (H0 : DomainToolReadCache.total c0 = count_all (DomainToolReadCache.entries c0) ∧ DomainToolReadCache.total c0 < readCacheMaxEntries).
    { unfold c0. destruct (Z.leb_spec readCacheMaxEntries (DomainToolReadCache.total c)); [split; [done|cbn; unfold readCacheMaxEntries; lia]|by split]. }
    clearbody c0. destruct H0 as [Ht0 Hmax0].
    split; cbn [DomainToolReadCache.entries DomainToolReadCache.total]; [|case_bool_decide; lia].
    destruct (DomainToolReadCache.entries c0 !! m) as [b|] eqn:Eb; cbn [default from_option id].
    + rewrite (count_replace _ _ _ _ Eb), map_size_insert. 
      destruct (b !! k) as [e|] eqn:Ek; [rewrite bool_decide_true by eauto|rewrite bool_decide_false by (intros []; done)]; cbn; lia.
    + rewrite count_insert by done. rewrite map_size_insert, !lookup_empty, map_size_empty. rewrite bool_decide_false by (intros []; done). cbn. lia.
  - unfold Invalidate. destruct (DomainToolReadCache.entries c !! m) as [b|] eqn:Eb; [|done].
    split; cbn [DomainToolReadCache.entries DomainToolReadCache.total]; [rewrite (count_delete _ _ _ Eb)|]; lia.
  - apply new_counted.
Qed.
Theorem cache_counted ops : counted (fold_left do_op ops NewDomainToolReadCache).
Proof.
  assert (H : ∀ c, counted c → counted (fold_left do_op ops c)); [|apply H, new_counted].
  induction ops as [|o ops IH]; intros c Hc; [done|]. by apply IH, do_op_counted.
Qed.

(** ** Concrete runs *)

Lemma replay_justified_witness :
  let ops := [OPut 0 "bank" "k" "old"; OInvalidate "shop"; OPut 5 "bank" "k" "new"] in
  (cache_Get 10 "bank" "k" (fold_left do_op ops NewDomainToolReadCache)).2 = Some "new" ∧
  ∃ pre post t, ops = pre ++ OPut t "bank" "k" "new" :: post ∧ 10 - t <= readCacheTTL ∧ Forall (λ o, ¬ overrides "bank" "k" o) post.
Proof.
  split; [reflexivity|].
  apply (replay_justified [OPut 0 "bank" "k" "old"; OInvalidate "shop"; OPut 5 "bank" "k" "new"] 10 "bank" "k" "new"
           (fold_left do_op [OPut 0 "bank" "k" "old"; OInvalidate "shop"; OPut 5 "bank" "k" "new"] NewDomainToolReadCache)).
  reflexivity.
Defined.

Definition ex_key (tool : string) (_ : gmap string any) : string := tool +:+ ":".
Definition ex_redact (md : string) : string := if contains "sk-" md then "[REDACTED]" else md.
(** What is replayed was stored before redaction and marking: the second read
    hands the model the secret that the first one kept from it. *)
Example replay_unredacted :
  let '(c1, _, first) := tool_call ex_key (λ _, false) ex_redact 0 1 "vault" "get_key" ∅ (Some "sk-secret") NewDomainToolReadCache in
  let '(_, ran, second) := tool_call ex_key (λ _, false) ex_redact 2 3 "vault" "get_key" ∅ None c1 in
  first = Some "[REDACTED]" ∧ ran = false ∧ second = Some "sk-secret".
Proof. vm_compute. split_and!; reflexivity. Qed.
(** A purchase whose name starts like a read is not made a second time. *)
Example second_checkout_not_run :
  let '(c1, ran1, _) := tool_call ex_key (λ _, false) ex_redact 0 1 "shop" "checkout" ∅ (Some "order 1") NewDomainToolReadCache in
  let '(_, ran2, second) := tool_call ex_key (λ _, false) ex_redact 2 3 "shop" "checkout" ∅ (Some "order 2") c1 in
  ran1 = true ∧ ran2 = false ∧ second = Some "order 1".
Proof. vm_compute. split_and!; reflexivity. Qed.
(** The server is invalidated before the write runs: a read that answers while
    it runs is cached, and replayed after it. *)
Example write_in_flight :
  let c := fold_left do_op [OPut 0 "bank" "k" "100"; OInvalidate "bank"; OPut 1 "bank" "k" "100"] NewDomainToolReadCache in
  (cache_Get 200 "bank" "k" c).2 = Some "100".
Proof. vm_compute. reflexivity. Qed.
