(* ===== verification/SliceSort.v ===== *)
(** * sort.Slice of Go's library

    Sorting by a test that says which elements go first.  Go's sort is not
    stable, so equal elements may come out in any order: the class [Sorter] is
    what a client may rely on, and the theorems of the clients hold for each
    instance.  [insertion_sorter] is the insertion sort Go runs on up to twelve
    elements. *)
From S2P Require Import Prelude.

(** A test that orders: no two elements each go before the other, and what goes
    before another goes before or after any third. *)
Definition weak_order {A} (less : A → A → bool) (l : list A) : Prop :=
  (∀ x y, x ∈ l → y ∈ l → less x y = true → less y x = false) ∧
  (∀ x y z, x ∈ l → y ∈ l → z ∈ l → less x z = true → less x y = true ∨ less y z = true).

Class Sorter := {
  sort_by : ∀ {A : Type}, (A → A → bool) → list A → list A;
  sort_by_perm : ∀ {A} (less : A → A → bool) l, sort_by less l ≡ₚ l;
  sort_by_sorted : ∀ {A} (less : A → A → bool) l, weak_order less l →
    StronglySorted (λ x y, less y x = false) (sort_by less l) }.

Lemma weak_order_sub {A} (less : A → A → bool) l l' : (∀ x, x ∈ l' → x ∈ l) → weak_order less l → weak_order less l'.
Proof. intros Hsub [H1 H2]. split; [intros x y Hx Hy; apply H1; auto|intros x y z Hx Hy Hz; apply H2; auto]. Qed.
Lemma weak_order_trans {A} (less : A → A → bool) l x y z :
  weak_order less l → x ∈ l → y ∈ l → z ∈ l → less y x = false → less z y = false → less z x = false.
Proof. intros [_ H] Hx Hy Hz H1 H2. destruct (less z x) eqn:E; [|done]. destruct (H z y x Hz Hy Hx E); congruence. Qed.

(** An order given by a key that floats compare, larger keys first. *)
Lemma weak_order_key {A} (key : A → float64) l :
  (∀ x, x ∈ l → fis_nan (key x) = false) → weak_order (λ x y, fltb (key y) (key x)) l.
Proof.
  intros Hn. split; [intros x y _ _; apply fltb_asym|].
  intros x y z _ Hy _ H. destruct (fltb_cotrans (key z) (key y) (key x) (Hn y Hy) H); auto.
Qed.

(** ** The instance *)

Section insertion.
Context {A : Type} (less : A → A → bool).
(** Go shifts an element left while it goes before its neighbour; [l] is the
    sorted part with its last element first. *)
Fixpoint insert_last (x : A) (l : list A) : list A :=
  match l with
  | y :: l' => if less x y then y :: insert_last x l' else x :: l
  | [] => [x]
  end.
Definition insertion_sort (l : list A) : list A := reverse (fold_left (λ acc x, insert_last x acc) l []).

Lemma insert_last_perm x l : insert_last x l ≡ₚ x :: l.
Proof. induction l as [|y l IH]; cbn; [done|]. destruct (less x y); [|done]. rewrite IH. apply Permutation_swap. Qed.
Lemma insertion_fold_perm l : ∀ acc, fold_left (λ acc x, insert_last x acc) l acc ≡ₚ l ++ acc.
Proof. induction l as [|x l IH]; intros acc; cbn; [done|]. rewrite IH, insert_last_perm. solve_Permutation. Qed.
Lemma insert_last_sorted x l : weak_order less (x :: l) →
  StronglySorted (λ x y, less x y = false) l → StronglySorted (λ x y, less x y = false) (insert_last x l).
Proof.
  intros Hw Hs. induction Hs as [|y l Hs IH Hy]; cbn; [repeat constructor|].
  assert (Hwl : weak_order less (x :: l)) by (apply (weak_order_sub _ _ _) with (2 := Hw); set_solver).
  destruct (less x y) eqn:E.
  - constructor; [by apply IH|]. rewrite insert_last_perm. constructor; [|done].
    destruct Hw as [Ha _]. apply Ha; set_solver.
  - constructor; [by constructor|]. constructor; [done|]. rewrite Forall_forall in Hy |- *. intros z Hz.
    apply (weak_order_trans less (x :: y :: l) z y x); [done|set_solver..| |done]. by apply Hy.
Qed.
Lemma insertion_fold_sorted l : ∀ acc, weak_order less (l ++ acc) → StronglySorted (λ x y, less x y = false) acc →
  StronglySorted (λ x y, less x y = false) (fold_left (λ acc x, insert_last x acc) l acc).
Proof.
  induction l as [|x l IH]; intros acc Hw Hs; cbn; [done|]. apply IH.
  - apply (weak_order_sub _ _ _) with (2 := Hw). intros y. rewrite insert_last_perm. set_solver.
  - apply insert_last_sorted; [|done]. apply (weak_order_sub _ _ _) with (2 := Hw). set_solver.
Qed.
End insertion.

Lemma StronglySorted_snoc {A} (R : A → A → Prop) l x :
  StronglySorted R l → (∀ y, y ∈ l → R y x) → StronglySorted R (l ++ [x]).
Proof.
  intros Hs Hx. induction Hs as [|y l Hs IH Hy]; cbn; [repeat constructor|].
  constructor; [apply IH; intros z Hz; apply Hx; by right|].
  apply Forall_app. split; [done|]. repeat constructor. apply Hx. by left.
Qed.
Lemma StronglySorted_reverse {A} (R : A → A → Prop) l : StronglySorted (λ x y, R y x) l → StronglySorted R (reverse l).
Proof.
  induction 1 as [|x l Hs IH Hx]; [constructor|]. rewrite reverse_cons. apply StronglySorted_snoc; [done|].
  intros y Hy. rewrite Forall_forall in Hx. apply Hx. by apply elem_of_reverse.
Qed.

#[export] Program Instance insertion_sorter : Sorter := {| sort_by A := insertion_sort |}.
Next Obligation. intros A less l. unfold insertion_sort. by rewrite reverse_Permutation, insertion_fold_perm, app_nil_r. Qed.
Next Obligation.
  intros A less l Hw. apply StronglySorted_reverse, (insertion_fold_sorted less); [by rewrite app_nil_r|constructor].
Qed.
