(* ===== verification/Forest.v ===== *)
(** * Choosing memories by a spanning forest (core/forest_optimizer.go, the
    vectors of pkg/search/search.go)

    A disjoint-set forest with path compression and union by rank; edges between
    items that are among each other's nearest neighbours; Kruskal's algorithm
    over them.  Iterating a Go map takes its order as an argument; sorting is the
    class [Sorter]. *)
From stdpp Require Import relations.
From Stdlib Require Import SpecFloat.
From S2P Require Import Prelude SliceSort.

(** ** Disjoint sets *)

Module UnionFind.
Record t := mk { parent : list nat; rank : list nat }.
#[global] Instance eta : Eta t := λ u, mk (parent u) (rank u).
End UnionFind.

Definition NewUnionFind (n : nat) : UnionFind.t := UnionFind.mk (seq 0 n) (replicate n 0).

(** [None] is an index out of range, or no fuel. *)
Fixpoint Find_from (fuel : nat) (x : nat) (uf : UnionFind.t) : option (UnionFind.t * nat) :=
  match fuel with
  | O => None
  | S fuel =>
      p ← UnionFind.parent uf !! x;
      if decide (p = x) then Some (uf, x)
      else
        '(uf, r) ← Find_from fuel p uf;
        Some (uf <| UnionFind.parent ::= <[x := r]> |>, r)
  end.
Definition Find (x : nat) (uf : UnionFind.t) : option (UnionFind.t * nat) :=
  Find_from (S (length (UnionFind.parent uf))) x uf.

Definition Union (x y : nat) (uf : UnionFind.t) : option (UnionFind.t * bool) :=
  '(uf, px) ← Find x uf;
  '(uf, py) ← Find y uf;
  if decide (px = py) then Some (uf, false)
  else
    rx ← UnionFind.rank uf !! px;
    ry ← UnionFind.rank uf !! py;
    let '(px, py) := if decide (rx < ry) then (py, px) else (px, py) in
    Some ((if decide (rx = ry) then (uf <| UnionFind.parent ::= <[py := px]> |>) <| UnionFind.rank ::= <[px := S rx]> |>
           else uf <| UnionFind.parent ::= <[py := px]> |>), true).

(** ** Vectors *)

Definition float_zero : float64 := S754_zero false.
Definition fsqrt : float64 → float64 := SFsqrt 53 1024.
(** [dot], [normA] and [normB], index by index. *)
Definition cosine_sums (a b : list float64) : float64 * float64 * float64 :=
  fold_left (λ '(dot, normA, normB) '(x, y), (fadd dot (fmul x y), fadd normA (fmul x x), fadd normB (fmul y y)))
    (zip a b) (float_zero, float_zero, float_zero).
Definition CosineSimilarity (a b : list float64) : float64 :=
  if negb (length a =? length b) || (length a =? 0) then float_zero
  else
    let '(dot, normA, normB) := cosine_sums a b in
    if feqb normA float_zero || feqb normB float_zero then float_zero
    else fdiv dot (fmul (fsqrt normA) (fsqrt normB)).
Definition CosineRank (queryVec : list float64) (candidates : gmap string (list float64)) : gmap string float64 :=
  omap (λ vec, let sim := CosineSimilarity queryVec vec in if fltb float_zero sim then Some sim else None) candidates.

(** ** Edges between mutual nearest neighbours *)

Module WeightedEdge.
Record t := mk { From : string; To : string; Weight : float64; EdgeType : string }.
End WeightedEdge.

Definition maxSeedCount : nat := 48.

Section semantic.
Context {SL : Sorter}.
(** [range embeddings], and [range topK[id]] for each id. *)
Context (embeddings : gmap string (list float64)) (ord : list string) (neighbor_ord : string → list string).

Definition seed_ids : list string := take maxSeedCount ord.
Definition vec (id : string) : list float64 := default [] (embeddings !! id).
Definition neighbors (id : string) : list (string * float64) :=
  omap (λ other, if decide (other = id) then None
                 else let sim := CosineSimilarity (vec id) (vec other) in
                      if fltb float_zero sim then Some (other, sim) else None) seed_ids.
Definition topK (k : nat) (id : string) : list string :=
  (take k (sort_by (λ a b : string * float64, fltb b.2 a.2) (neighbors id))).*1.

Definition edgeKey (a b : string) : string :=
  let '(a, b) := if String.ltb b a then (b, a) else (a, b) in a +:+ "->" +:+ b.
Definition semantic_step (k : nat) (id : string) (st : gset string * list WeightedEdge.t) (neighbor : string) :
    gset string * list WeightedEdge.t :=
  let '(seen, edges) := st in
  if negb (bool_decide (id ∈ topK k neighbor)) then st
  else if bool_decide (edgeKey id neighbor ∈ seen) then st
  else ({[edgeKey id neighbor]} ∪ seen,
        edges ++ [WeightedEdge.mk id neighbor (CosineSimilarity (vec id) (vec neighbor)) "semantic"]).
Definition BuildSemanticEdges (k : nat) : list WeightedEdge.t :=
  (fold_left (λ st id, fold_left (semantic_step k id) (neighbor_ord id) st) seed_ids (∅, [])).2.
End semantic.

(** ** Kruskal's algorithm *)

Module Kruskal.
Record t := mk { uf : UnionFind.t; selected : gset string; forest : list WeightedEdge.t }.
End Kruskal.

Section kruskal.
Context {SL : Sorter}.

(** Later occurrences of an id overwrite its index. *)
Fixpoint node_index_from (i : nat) (m : gmap string nat) (seeds : list string) : gmap string nat :=
  match seeds with
  | [] => m
  | id :: seeds => node_index_from (S i) (<[id := i]> m) seeds
  end.
Definition node_index (seeds : list string) : gmap string nat := node_index_from 0 ∅ seeds.

Definition kruskal_step (nodeIndex : gmap string nat) (st : Kruskal.t) (e : WeightedEdge.t) : option Kruskal.t :=
  match nodeIndex !! WeightedEdge.From e, nodeIndex !! WeightedEdge.To e with
  | Some fi, Some ti =>
      '(uf, joined) ← Union fi ti (Kruskal.uf st);
      Some (if joined : bool
            then Kruskal.mk uf ({[WeightedEdge.From e; WeightedEdge.To e]} ∪ Kruskal.selected st) (Kruskal.forest st ++ [e])
            else Kruskal.mk uf (Kruskal.selected st) (Kruskal.forest st))
  | _, _ => Some st
  end.

(** The seeds that were selected, up to [k] of them: the loop stops after the
    append that reaches [k]. *)
Fixpoint collect (selected : gset string) (k : Z) (nodes : list string) (seeds : list string) : list string :=
  match seeds with
  | [] => nodes
  | id :: seeds =>
      if decide (id ∈ selected) then
        let nodes := nodes ++ [id] in
        if (k <=? Z.of_nat (length nodes))%Z then nodes else collect selected k nodes seeds
      else collect selected k nodes seeds
  end.

Definition candidate_edges (nodeIndex : gmap string nat) (schemaEdges semanticEdges : list WeightedEdge.t)
    (redundancyThreshold : float64) : list WeightedEdge.t :=
  schemaEdges ++
  List.filter (λ e, negb (fltb redundancyThreshold (WeightedEdge.Weight e)) &&
                    bool_decide (is_Some (nodeIndex !! WeightedEdge.From e)) &&
                    bool_decide (is_Some (nodeIndex !! WeightedEdge.To e))) semanticEdges.

Definition heavier (a b : WeightedEdge.t) : bool := fltb (WeightedEdge.Weight b) (WeightedEdge.Weight a).

Fixpoint kruskal_loop (nodeIndex : gmap string nat) (edges : list WeightedEdge.t) (st : Kruskal.t) : option Kruskal.t :=
  match edges with
  | [] => Some st
  | e :: edges => st ← kruskal_step nodeIndex st e; kruskal_loop nodeIndex edges st
  end.

Definition MaxWeightForest (seedNodes : list string) (schemaEdges semanticEdges : list WeightedEdge.t)
    (redundancyThreshold : float64) (k : Z) : option (list string * list WeightedEdge.t) :=
  let seedNodes := take maxSeedCount seedNodes in
  let nodeIndex := node_index seedNodes in
  let allEdges := sort_by heavier (candidate_edges nodeIndex schemaEdges semanticEdges redundancyThreshold) in
  st ← kruskal_loop nodeIndex allEdges (Kruskal.mk (NewUnionFind (length seedNodes)) ∅ []);
  let nodes := collect (Kruskal.selected st) k [] seedNodes in
  Some (if decide (nodes = []) then take (Z.to_nat k) seedNodes else nodes, Kruskal.forest st).
End kruskal.

(** * Disjoint sets *)

Section union_find.
Implicit Types uf : UnionFind.t.

(** [r] is reached from [x] by following parents, and is its own parent. *)
Inductive root uf : nat → nat → Prop :=
| root_here x : UnionFind.parent uf !! x = Some x → root uf x x
| root_up x p r : UnionFind.parent uf !! x = Some p → p ≠ x → root uf p r → root uf x r.
Definition same_set uf (x y : nat) : Prop := ∃ r, root uf x r ∧ root uf y r.

(** Ranks grow along parents: there are no cycles. *)
Definition ranked uf : Prop :=
  length (UnionFind.rank uf) = length (UnionFind.parent uf) ∧
  ∀ x p, UnionFind.parent uf !! x = Some p →
    ∃ rp, UnionFind.rank uf !! p = Some rp ∧ (p ≠ x → ∃ rx, UnionFind.rank uf !! x = Some rx ∧ rx < rp).

Lemma root_parent uf x r : root uf x r → UnionFind.parent uf !! r = Some r.
Proof. by induction 1. Qed.
Lemma root_det uf x r r' : root uf x r → root uf x r' → r = r'.
Proof. intros H. revert r'. induction H; intros r'; inversion 1; simplify_eq; eauto. Qed.
Lemma root_lt uf x r : root uf x r → x < length (UnionFind.parent uf).
Proof. intros [? H|? ? ? H]; by eapply lookup_lt_Some. Qed.

Lemma same_set_sym uf x y : same_set uf x y → same_set uf y x.
Proof. intros (r & ? & ?). by exists r. Qed.
Lemma same_set_trans uf x y z : same_set uf x y → same_set uf y z → same_set uf x z.
Proof. intros (r & ? & Hy) (r' & Hy' & ?). rewrite (root_det _ _ _ _ Hy Hy') in *. by exists r'. Qed.
Lemma same_set_root uf x y r r' : root uf x r → root uf y r' → same_set uf x y ↔ r = r'.
Proof.
  intros Hx Hy. split; [|intros ->; by exists r'].
  intros (s & Hx' & Hy'). by rewrite (root_det _ _ _ _ Hx Hx'), (root_det _ _ _ _ Hy Hy').
Qed.

(** How many elements have a larger rank than [x]: it falls on the way up. *)
Definition above uf (x : nat) : nat :=
  length (List.filter (λ y, bool_decide (default 0 (UnionFind.rank uf !! x) < default 0 (UnionFind.rank uf !! y)))
            (seq 0 (length (UnionFind.parent uf)))).
Lemma above_lt uf x p : ranked uf → UnionFind.parent uf !! x = Some p → p ≠ x → above uf p < above uf x.
Proof.
  intros [Hl Hr] Hp Hne. destruct (Hr x p Hp) as (rp & Erp & Hx). destruct (Hx Hne) as (rx & Erx & Hlt).
  unfold above. rewrite Erp, Erx. cbn [default from_option id]. apply (filter_length_lt _ _ _ p).
  - rewrite elem_of_seq. apply lookup_lt_Some in Erp. lia.
  - apply bool_decide_eq_true. by rewrite Erp.
  - apply bool_decide_eq_false. rewrite Erp. cbn. lia.
  - intros y _. rewrite !bool_decide_eq_true. lia.
Qed.
Lemma above_le uf x : above uf x <= length (UnionFind.parent uf).
Proof. unfold above. etrans; [apply (filter_length_le _ (λ _, true)); auto|]. rewrite List.filter_true. by rewrite length_seq. Qed.

Lemma root_exists uf x : ranked uf → x < length (UnionFind.parent uf) → ∃ r, root uf x r.
Proof.
  intros Hr. induction x as [x IH] using (induction_ltof1 _ (above uf)). unfold ltof in IH. intros Hx.
  apply lookup_lt_is_Some in Hx as [p Hp]. destruct (decide (p = x)) as [->|Hne]; [exists x; by constructor|].
  destruct (IH p) as [r Hroot].
  - by apply above_lt.
  - destruct Hr as [Hl Hr]. destruct (Hr x p Hp) as (rp & Erp & _). rewrite <- Hl. by eapply lookup_lt_Some.
  - exists r. by eapply root_up.
Qed.
Lemma root_rank uf x r : ranked uf → root uf x r → x ≠ r →
  ∃ rx rr, UnionFind.rank uf !! x = Some rx ∧ UnionFind.rank uf !! r = Some rr ∧ rx < rr.
Proof.
  intros Hr. induction 1 as [|x p r Hp Hne Hroot IH]; [done|]. intros Hxr.
  destruct (proj2 Hr x p Hp) as (rp & Erp & Hx). destruct (Hx Hne) as (rx & Erx & Hlt).
  destruct (decide (p = r)) as [->|Hpr]; [by exists rx, rp|].
  destruct (IH Hpr) as (rp' & rr & E & Err & ?). simplify_eq. exists rx, rr. split_and!; [done..|lia].
Qed.

(** Pointing [x] at its root changes no root. *)
Lemma compress_root uf x r : ranked uf → root uf x r →
  let uf' := uf <| UnionFind.parent ::= <[x := r]> |> in ranked uf' ∧ ∀ y s, root uf' y s ↔ root uf y s.
Proof.
  intros Hr Hx uf'.
  assert (Hlen : length (UnionFind.parent uf') = length (UnionFind.parent uf)) by apply length_insert.
  assert (Hlx : x < length (UnionFind.parent uf)) by by eapply root_lt.
  assert (Hp : ∀ y, UnionFind.parent uf' !! y = if decide (y = x) then Some r else UnionFind.parent uf !! y).
  { intros y. change (UnionFind.parent uf') with (<[x := r]> (UnionFind.parent uf)). case_decide as E.
    - subst y. by rewrite list_lookup_insert_eq.
    - by rewrite list_lookup_insert_ne. }
  assert (Hr' : ranked uf').
  { split; [rewrite Hlen; apply Hr|]. intros y p. rewrite Hp. change (UnionFind.rank uf') with (UnionFind.rank uf).
    case_decide as E; [|apply Hr]. subst y. intros [= <-].
    destruct (proj2 Hr r r (root_parent _ _ _ Hx)) as (rr & Err & _). exists rr. split; [done|]. intros Hne.
    destruct (root_rank uf x r Hr Hx) as (rx & rr' & ? & ? & ?); [done|]. simplify_eq. by exists rx. }
  assert (Hto : ∀ y s, root uf y s → root uf' y s).
  { assert (Hrr : root uf' r r).
    { constructor. rewrite Hp. case_decide; [done|]. by eapply root_parent. }
    intros y s Hy. induction Hy as [y Hy|y p s Hy Hne Hroot IH].
    - destruct (decide (y = x)) as [->|E]; [|constructor; rewrite Hp, decide_False; done].
      assert (x = r) as -> by (eapply root_det; [by constructor|done]). done.
    - destruct (decide (y = x)) as [->|E]; [|apply (root_up _ _ p); [by rewrite Hp, decide_False|done|done]].
      assert (s = r) as -> by (eapply root_det; [by eapply root_up|done]).
      destruct (decide (r = x)) as [->|]; [done|]. apply (root_up _ _ r); [by rewrite Hp, decide_True|done|done]. }
  split; [done|]. intros y s. split; [|apply Hto]. intros Hy.
  destruct (root_exists uf y Hr) as [s' Hs']; [rewrite <- Hlen; by eapply root_lt|].
  by rewrite (root_det _ _ _ _ Hy (Hto _ _ Hs')).
Qed.

Definition uf_equiv uf uf' : Prop :=
  ranked uf' ∧ UnionFind.rank uf' = UnionFind.rank uf ∧ length (UnionFind.parent uf') = length (UnionFind.parent uf) ∧
  ∀ y s, root uf' y s ↔ root uf y s.
Lemma Find_from_spec fuel uf x : ranked uf → x < length (UnionFind.parent uf) → above uf x < fuel →
  ∃ uf' r, Find_from fuel x uf = Some (uf', r) ∧ root uf x r ∧ uf_equiv uf uf'.
Proof.
  intros Hr. revert x. induction fuel as [|fuel IH]; intros x Hx Hf; [lia|]. cbn [Find_from].
  destruct (lookup_lt_is_Some_2 _ _ Hx) as [p Hp]. rewrite Hp. cbn [mbind option_bind].
  destruct (decide (p = x)) as [->|Hne].
  { exists uf, x. split_and!; [done|by constructor|]. unfold uf_equiv. naive_solver. }
  destruct (IH p) as (uf' & r & E & Hroot & Hr' & Erank & Elen & Hsame).
  - destruct (proj2 Hr x p Hp) as (rp & Erp & _). rewrite <- (proj1 Hr). by eapply lookup_lt_Some.
  - pose proof (above_lt uf x p Hr Hp Hne). lia.
  - rewrite E. cbn [mbind option_bind]. eexists _, r. split; [done|].
    assert (Hx' : root uf x r) by by eapply root_up. split; [done|].
    destruct (compress_root uf' x r Hr') as [Hr'' Hs]; [by apply Hsame|].
    split_and!; [done|done|by cbn; rewrite length_insert|]. intros y s. by rewrite Hs.
Qed.
Lemma Find_spec uf x : ranked uf → x < length (UnionFind.parent uf) →
  ∃ uf' r, Find x uf = Some (uf', r) ∧ root uf x r ∧ uf_equiv uf uf'.
Proof. intros Hr Hx. apply Find_from_spec; [done..|]. pose proof (above_le uf x). lia. Qed.

(** Joining two sets given by their roots, either way round. *)
Definition joined {A} (R : A → A → Prop) (x y a b : A) : Prop :=
  R a b ∨ (R a x ∧ R y b) ∨ (R a y ∧ R x b).
Definition linked (a b : nat) (ra : nat) (grow : bool) uf : UnionFind.t :=
  if grow then (uf <| UnionFind.parent ::= <[b := a]> |>) <| UnionFind.rank ::= <[a := S ra]> |>
  else uf <| UnionFind.parent ::= <[b := a]> |>.
Lemma linked_parent uf a b ra grow y : b < length (UnionFind.parent uf) →
  UnionFind.parent (linked a b ra grow uf) !! y = if decide (y = b) then Some a else UnionFind.parent uf !! y.
Proof.
  intros Hb. replace (UnionFind.parent _) with (<[b := a]> (UnionFind.parent uf)) by by destruct grow.
  case_decide as E; [subst y; by rewrite list_lookup_insert_eq|by rewrite list_lookup_insert_ne].
Qed.
Lemma linked_rank uf a b ra grow y : UnionFind.rank uf !! a = Some ra →
  UnionFind.rank (linked a b ra grow uf) !! y = if grow && bool_decide (y = a) then Some (S ra) else UnionFind.rank uf !! y.
Proof.
  intros Ha. destruct grow; cbn [andb linked]; [|done].
  change (<[a := S ra]> (UnionFind.rank uf) !! y = if bool_decide (y = a) then Some (S ra) else UnionFind.rank uf !! y).
  case_bool_decide as E; [subst y; rewrite list_lookup_insert_eq; [done|by eapply lookup_lt_Some]|by rewrite list_lookup_insert_ne].
Qed.
Lemma linked_length uf a b ra grow : length (UnionFind.parent (linked a b ra grow uf)) = length (UnionFind.parent uf).
Proof. destruct grow; apply length_insert. Qed.

Lemma linked_ranked uf a b ra rb grow : ranked uf → root uf a a → root uf b b → a ≠ b →
  UnionFind.rank uf !! a = Some ra → UnionFind.rank uf !! b = Some rb → rb <= ra → (grow = false → rb < ra) →
  ranked (linked a b ra grow uf).
Proof.
  intros Hr Ha Hb Hab Era Erb Hle Hg. assert (b < length (UnionFind.parent uf)) by by eapply root_lt.
  apply root_parent in Ha. split; [rewrite linked_length, <- (proj1 Hr); destruct grow; [apply length_insert|done]|].
  intros y p. rewrite linked_parent by done. rewrite !linked_rank by done. case_decide as E.
  - intros [= <-]. subst y. rewrite Era, Erb. rewrite (bool_decide_eq_true_2 (a = a)), (bool_decide_eq_false_2 (b = a)) by done.
    rewrite andb_true_r, andb_false_r. destruct grow; eexists; (split; [done|]); exists rb; (split; [done|]); [lia|by apply Hg].
  - intros Hyp. destruct (proj2 Hr y p Hyp) as (rp & Erp & Hy).
    destruct grow; cbn [andb]; [|by exists rp].
    destruct (decide (y = a)) as [->|Hya]; [simplify_eq; rewrite bool_decide_eq_true_2 by done; by eexists|].
    rewrite (bool_decide_eq_false_2 (y = a)) by done. case_bool_decide as Epa; [|by exists rp].
    subst p. exists (S ra). split; [done|]. intros Hne. destruct (Hy Hne) as (ry & ? & ?). simplify_eq. exists ry. split; [done|lia].
Qed.
Lemma linked_root uf a b ra grow : ranked uf → root uf a a → root uf b b → a ≠ b → ranked (linked a b ra grow uf) →
  ∀ y s, root uf y s → root (linked a b ra grow uf) y (if decide (s = b) then a else s).
Proof.
  intros Hr Ha Hb Hab Hr'. assert (Hlb : b < length (UnionFind.parent uf)) by by eapply root_lt.
  pose proof (linked_parent uf a b ra grow) as Hp. set (uf' := linked a b ra grow uf) in *.
  apply root_parent in Ha, Hb.
  assert (Hra : root uf' a a) by (constructor; by rewrite Hp, decide_False).
  intros y s Hy. induction Hy as [y Hy|y p s Hy Hne Hroot IH].
  - case_decide as E; [subst y; apply (root_up _ _ a); [by rewrite Hp, decide_True|done|done]|].
    constructor. by rewrite Hp, decide_False.
  - assert (y ≠ b) by (intros ->; simplify_eq). apply (root_up _ _ p); [by rewrite Hp, decide_False|done|done].
Qed.
(** After linking [b] under [a], the sets of [x] and [y] are one. *)
Lemma linked_joins uf uf' a b x y : ranked uf → root uf x a ∧ root uf y b ∨ root uf x b ∧ root uf y a → a ≠ b →
  (∀ k rk, root uf k rk → root uf' k (if decide (rk = b) then a else rk)) →
  ∀ i j, i < length (UnionFind.parent uf) → j < length (UnionFind.parent uf) →
    same_set uf' i j ↔ joined (same_set uf) x y i j.
Proof.
  intros Hr Hxy Hab Hnew i j Hi Hj.
  destruct (root_exists uf i Hr Hi) as [ri Hri]. destruct (root_exists uf j Hr Hj) as [rj Hrj].
  rewrite (same_set_root uf' i j _ _ (Hnew _ _ Hri) (Hnew _ _ Hrj)). unfold joined.
  rewrite (same_set_root uf i j _ _ Hri Hrj).
  destruct Hxy as [[Hx Hy]|[Hx Hy]];
    rewrite (same_set_root uf i x _ _ Hri Hx), (same_set_root uf i y _ _ Hri Hy), (same_set_root uf y j _ _ Hy Hrj), (same_set_root uf x j _ _ Hx Hrj);
    repeat case_decide; naive_solver.
Qed.

Lemma uf_equiv_same uf uf' a b : uf_equiv uf uf' → same_set uf' a b ↔ same_set uf a b.
Proof. intros (_ & _ & _ & H). unfold same_set. by setoid_rewrite H. Qed.
Lemma uf_equiv_trans uf1 uf2 uf3 : uf_equiv uf1 uf2 → uf_equiv uf2 uf3 → uf_equiv uf1 uf3.
Proof.
  intros (? & E1 & L1 & H1) (? & E2 & L2 & H2). split_and!; [done|by rewrite E2|by rewrite L2|].
  intros y s. by rewrite H2, H1.
Qed.

Definition union_spec uf x y (uf' : UnionFind.t) (b : bool) : Prop :=
  ranked uf' ∧ length (UnionFind.parent uf') = length (UnionFind.parent uf) ∧ (b = false ↔ same_set uf x y) ∧
  ∀ i j, i < length (UnionFind.parent uf) → j < length (UnionFind.parent uf) →
    same_set uf' i j ↔ joined (same_set uf) x y i j.
Lemma Union_link uf u x y a b ra rb (grow : bool) : ranked uf → uf_equiv uf u → a ≠ b →
  root uf x a ∧ root uf y b ∨ root uf x b ∧ root uf y a →
  UnionFind.rank u !! a = Some ra → UnionFind.rank u !! b = Some rb → rb <= ra → (grow = false → rb < ra) →
  union_spec uf x y (linked a b ra grow u) true.
Proof.
  intros Hr (Hru & _ & El & Hs) Hab Hxy Era Erb Hle Hg.
  assert (Hself : ∀ k r, root uf k r → root u r r) by (intros k r Hk; constructor; apply Hs in Hk; by eapply root_parent).
  assert (Ha : root u a a) by (destruct Hxy as [[]|[]]; eauto). assert (Hb : root u b b) by (destruct Hxy as [[]|[]]; eauto).
  pose proof (linked_ranked u a b ra rb grow Hru Ha Hb Hab Era Erb Hle Hg) as Hr'.
  split_and!; [done|by rewrite linked_length|split; [done|]|].
  - destruct Hxy as [[Hx Hy]|[Hx Hy]]; rewrite (same_set_root uf x y _ _ Hx Hy); [done|intros E; by destruct Hab].
  - apply (linked_joins _ _ a b); [done..|]. intros k rk Hk. apply linked_root; [done..|]. by apply Hs.
Qed.
Lemma Union_spec uf x y : ranked uf → x < length (UnionFind.parent uf) → y < length (UnionFind.parent uf) →
  ∃ uf' b, Union x y uf = Some (uf', b) ∧ union_spec uf x y uf' b.
Proof.
  intros Hr Hx Hy. unfold Union.
  destruct (Find_spec uf x Hr Hx) as (u1 & px & -> & Hpx & H1). cbn [mbind option_bind].
  destruct (Find_spec u1 y) as (u2 & py & -> & Hpy & H2); [by destruct H1|by destruct H1 as (_ & _ & -> & _)|]. cbn [mbind option_bind].
  pose proof (uf_equiv_trans _ _ _ H1 H2) as Hu. destruct H1 as (_ & _ & _ & Hs1). rewrite Hs1 in Hpy. clear H2 Hs1.
  destruct (decide (px = py)) as [E|E].
  { subst py. exists u2, false. split; [done|]. assert (same_set uf x y) by by exists px.
    destruct Hu as (Hr2 & _ & El & Hs). split_and!; [done..|].
    intros i j _ _. transitivity (same_set uf i j); [unfold same_set; by setoid_rewrite Hs|]. unfold joined.
    split; [by left|]. intros [?|[[? ?]|[? ?]]]; eauto using same_set_trans, same_set_sym. }
  assert (Hrk : ∀ k r, root uf k r → ∃ n, UnionFind.rank u2 !! r = Some n).
  { intros k r Hk. destruct Hu as (Hr2 & _ & _ & Hs). apply Hs, root_parent in Hk.
    destruct (proj2 Hr2 _ _ Hk) as (n & ? & _). by exists n. }
  destruct (Hrk _ _ Hpx) as [rx Erx], (Hrk _ _ Hpy) as [ry Ery]. rewrite Erx, Ery. cbn [mbind option_bind].
  destruct (decide (rx < ry)) as [Hlt|Hge].
  - rewrite (decide_False (P := rx = ry)) by lia. eexists _, true. split; [done|].
    by apply (Union_link uf u2 x y py px ry rx false Hr Hu); [|right|..|lia|].
  - eexists _, true. split; [done|].
    assert (Hl : ∀ g, g = bool_decide (rx = ry) → union_spec uf x y (linked px py rx g u2) true).
    { intros g ->. apply (Union_link uf u2 x y px py rx ry _ Hr Hu); [done|by left|done..|lia|]. rewrite bool_decide_eq_false. lia. }
    case_decide; [apply (Hl true)|apply (Hl false)]; symmetry; [by apply bool_decide_eq_true|by apply bool_decide_eq_false].
Qed.
End union_find.

(** * Forests of edges *)

Definition adjacent (es : list WeightedEdge.t) (a b : string) : Prop :=
  ∃ e, e ∈ es ∧ WeightedEdge.From e = a ∧ WeightedEdge.To e = b.
Definition connected (es : list WeightedEdge.t) : string → string → Prop := rtsc (adjacent es).
(** No edge joins what the others connect already. *)
Definition acyclic (es : list WeightedEdge.t) : Prop :=
  ∀ pre e post, es = pre ++ e :: post → ¬ connected (pre ++ post) (WeightedEdge.From e) (WeightedEdge.To e).

#[export] Instance connected_equiv es : Equivalence (connected es).
Proof. unfold connected. split; apply _. Qed.
Lemma connected_mono es es' a b : (∀ e, e ∈ es → e ∈ es') → connected es a b → connected es' a b.
Proof. intros H. apply rtc_subrel. intros x y [(e & ? & ?)|(e & ? & ?)]; [left|right]; exists e; auto. Qed.
Lemma connected_edge es e : e ∈ es → connected es (WeightedEdge.From e) (WeightedEdge.To e).
Proof. intros H. apply rtc_once. left. by exists e. Qed.
Lemma connected_nil a b : connected [] a b ↔ a = b.
Proof.
  split; [|by intros ->]. induction 1 as [|x y z [(e & H & _)|(e & H & _)]]; [done|by apply not_elem_of_nil in H..].
Qed.

Lemma joined_trans {A} (R : A → A → Prop) `{!Equivalence R} x y a b c :
  joined R x y a b → joined R x y b c → joined R x y a c.
Proof.
  unfold joined. assert (Hs : ∀ u v, R u v → R v u) by (intros; by symmetry).
  assert (Ht : ∀ u v w, R u v → R v w → R u w) by (intros; by etrans).
  intros [H1|[[H1 H1']|[H1 H1']]] [H2|[[H2 H2']|[H2 H2']]]; eauto 8.
Qed.
Lemma connected_snoc es e a b :
  connected (es ++ [e]) a b ↔ joined (connected es) (WeightedEdge.From e) (WeightedEdge.To e) a b.
Proof.
  split.
  - induction 1 as [a|a b c Hab _ IH]; [by left|]. refine (joined_trans _ _ _ _ _ _ _ IH). clear IH.
    destruct Hab as [(f & [Hf|Hf]%elem_of_app & <- & <-)|(f & [Hf|Hf]%elem_of_app & <- & <-)].
    + left. by apply connected_edge.
    + apply list_elem_of_singleton in Hf as ->. right. by left.
    + left. symmetry. by apply connected_edge.
    + apply list_elem_of_singleton in Hf as ->. right. by right.
  - assert (Hm : ∀ a b, connected es a b → connected (es ++ [e]) a b) by (intros ??; apply connected_mono; set_solver).
    assert (He : connected (es ++ [e]) (WeightedEdge.From e) (WeightedEdge.To e)) by (apply connected_edge; set_solver).
    intros [H|[[H1 H2]|[H1 H2]]]; [by apply Hm|..].
    + rewrite (Hm _ _ H1), He. by apply Hm.
    + rewrite (Hm _ _ H1), <- He. by apply Hm.
Qed.
Lemma acyclic_snoc es e :
  acyclic es → ¬ connected es (WeightedEdge.From e) (WeightedEdge.To e) → acyclic (es ++ [e]).
Proof.
  intros Ha He pre f post Heq. destruct post as [|g post] using rev_ind.
  - apply app_inj_tail in Heq as [-> ->]. by rewrite app_nil_r.
  - clear IHpost. rewrite app_comm_cons, app_assoc in Heq. apply app_inj_tail in Heq as [-> ->].
    rewrite app_assoc, connected_snoc. pose proof (Ha pre f post eq_refl) as Hf.
    assert (Hm : ∀ a b, connected (pre ++ post) a b → connected (pre ++ f :: post) a b) by (intros ??; apply connected_mono; set_solver).
    assert (Hff : connected (pre ++ f :: post) (WeightedEdge.From f) (WeightedEdge.To f)) by (apply connected_edge; set_solver).
    intros [H|[[H1 H2]|[H1 H2]]]; [done|..]; apply He.
    + rewrite <- (Hm _ _ H1), Hff. symmetry. by apply Hm.
    + rewrite (Hm _ _ H2), <- Hff. by apply Hm.
Qed.

(** * Kruskal's algorithm *)

Lemma node_index_from_spec seeds : ∀ i (m : gmap string nat),
  (∀ a b n, m !! a = Some n → m !! b = Some n → a = b) → (∀ a n, m !! a = Some n → n < i) →
  let m' := node_index_from i m seeds in
  (∀ a b n, m' !! a = Some n → m' !! b = Some n → a = b) ∧ (∀ a n, m' !! a = Some n → n < i + length seeds) ∧
  (∀ a, is_Some (m' !! a) ↔ is_Some (m !! a) ∨ a ∈ seeds).
Proof.
  induction seeds as [|id seeds IH]; intros i m Hinj Hlt; cbn.
  { split_and!; [done|intros a n Ha; specialize (Hlt a n Ha); lia|set_solver]. }
  destruct (IH (S i) (<[id := i]> m)) as (H1 & H2 & H3).
  - intros a b n [[<- <-]|[_ Ha]]%(lookup_insert_Some (M := gmap string)) [[<- E]|[_ Hb]]%(lookup_insert_Some (M := gmap string)); [done|..]; subst.
    + apply Hlt in Hb. lia.
    + apply Hlt in Ha. lia.
    + by eapply Hinj.
  - intros a n [[<- <-]|[_ Ha]]%(lookup_insert_Some (M := gmap string)); [lia|]. apply Hlt in Ha. lia.
  - split_and!; [done|intros a n Ha; apply H2 in Ha; lia|]. intros a. rewrite H3, (lookup_insert_is_Some' (M := gmap string)), elem_of_cons. naive_solver.
Qed.
Lemma node_index_spec seeds :
  (∀ a b n, node_index seeds !! a = Some n → node_index seeds !! b = Some n → a = b) ∧
  (∀ a n, node_index seeds !! a = Some n → n < length seeds) ∧ (∀ a, is_Some (node_index seeds !! a) ↔ a ∈ seeds).
Proof.
  destruct (node_index_from_spec seeds 0 ∅) as (H1 & H2 & H3);
    [by intros a b n ?%(lookup_empty_Some (M := gmap string))|by intros a n ?%(lookup_empty_Some (M := gmap string))|].
  split_and!; [exact H1|exact H2|]. intros a. unfold node_index. rewrite H3, lookup_empty. split; [intros [[? [=]]|]; done|by right].
Qed.

(** An edge between seeds. *)
Definition indexed (nodeIndex : gmap string nat) (e : WeightedEdge.t) : Prop :=
  is_Some (nodeIndex !! WeightedEdge.From e) ∧ is_Some (nodeIndex !! WeightedEdge.To e).
Definition as_heavy (e : WeightedEdge.t) (es : list WeightedEdge.t) : list WeightedEdge.t :=
  List.filter (λ f, negb (heavier e f)) es.

Section kruskal_correct.
Context (nodeIndex : gmap string nat) (n : nat).
Record kruskal_inv (seen : list WeightedEdge.t) (st : Kruskal.t) : Prop := {
  inv_ranked : ranked (Kruskal.uf st);
  inv_length : length (UnionFind.parent (Kruskal.uf st)) = n;
  inv_sets : ∀ a b i j, nodeIndex !! a = Some i → nodeIndex !! b = Some j →
    same_set (Kruskal.uf st) i j ↔ connected (Kruskal.forest st) a b;
  inv_forest : ∀ e, e ∈ Kruskal.forest st → e ∈ seen ∧ indexed nodeIndex e;
  inv_acyclic : acyclic (Kruskal.forest st);
  inv_spans : ∀ e, e ∈ seen → indexed nodeIndex e →
    connected (as_heavy e (Kruskal.forest st)) (WeightedEdge.From e) (WeightedEdge.To e);
  inv_selected : ∀ id, id ∈ Kruskal.selected st ↔
    ∃ e, e ∈ Kruskal.forest st ∧ (id = WeightedEdge.From e ∨ id = WeightedEdge.To e) }.

Lemma old_spans seen st st' : kruskal_inv seen st →
  (∀ f, f ∈ Kruskal.forest st → f ∈ Kruskal.forest st') → ∀ f, f ∈ seen → indexed nodeIndex f →
  connected (as_heavy f (Kruskal.forest st')) (WeightedEdge.From f) (WeightedEdge.To f).
Proof using Type.
  intros Hi Hsub f Hfs Hidx. eapply connected_mono; [|by apply (inv_spans _ _ Hi)].
  intros g. unfold as_heavy. rewrite !elem_of_filter_list. naive_solver.
Qed.
Lemma accept_inv seen st e fi ti uf' :
  (∀ a i, nodeIndex !! a = Some i → i < n) → kruskal_inv seen st →
  nodeIndex !! WeightedEdge.From e = Some fi → nodeIndex !! WeightedEdge.To e = Some ti →
  union_spec (Kruskal.uf st) fi ti uf' true →
  kruskal_inv (seen ++ [e])
    (Kruskal.mk uf' ({[WeightedEdge.From e; WeightedEdge.To e]} ∪ Kruskal.selected st) (Kruskal.forest st ++ [e])).
Proof using Type.
  intros Hn Hinv Efi Eti (Hr' & Hl' & Hb & Hjoin). pose proof Hinv as [Hr Hl Hsets Hf Ha Hsp Hsel]. rewrite Hl in Hjoin.
  split; cbn [Kruskal.uf Kruskal.forest Kruskal.selected]; [done|by rewrite Hl'|..].
  - intros a b i j Hi Hj. rewrite Hjoin by eauto. rewrite connected_snoc. unfold joined.
    by rewrite (Hsets a b i j), (Hsets a (WeightedEdge.From e) i fi), (Hsets (WeightedEdge.To e) b ti j),
      (Hsets a (WeightedEdge.To e) i ti), (Hsets (WeightedEdge.From e) b fi j).
  - intros f [Hff| ->%list_elem_of_singleton]%elem_of_app; rewrite elem_of_app; [destruct (Hf f Hff); auto|].
    split; [set_solver|]. split; by eexists.
  - apply acyclic_snoc; [done|]. rewrite <- (Hsets _ _ _ _ Efi Eti). by intros H%Hb.
  - intros f [Hfs| ->%list_elem_of_singleton]%elem_of_app Hi.
    + apply (old_spans seen st (Kruskal.mk uf' ∅ (Kruskal.forest st ++ [e]))); [done|cbn; set_solver|done..].
    + apply connected_edge. unfold as_heavy. apply elem_of_filter_list. split; [|set_solver]. unfold heavier. by rewrite fltb_irrefl.
  - intros id. rewrite elem_of_union, Hsel. set_unfold. naive_solver.
Qed.
Lemma reject_inv seen st e fi ti uf' :
  (∀ a i, nodeIndex !! a = Some i → i < n) → kruskal_inv seen st → (∀ f, f ∈ seen → heavier e f = false) →
  nodeIndex !! WeightedEdge.From e = Some fi → nodeIndex !! WeightedEdge.To e = Some ti →
  union_spec (Kruskal.uf st) fi ti uf' false →
  kruskal_inv (seen ++ [e]) (Kruskal.mk uf' (Kruskal.selected st) (Kruskal.forest st)).
Proof using Type.
  intros Hn Hinv Hheavy Efi Eti (Hr' & Hl' & Hb & Hjoin). pose proof Hinv as [Hr Hl Hsets Hf Ha Hsp Hsel]. rewrite Hl in Hjoin.
  assert (Hin : same_set (Kruskal.uf st) fi ti) by by apply Hb.
  split; cbn [Kruskal.uf Kruskal.forest Kruskal.selected]; [done|by rewrite Hl'| | |done| |done].
  - intros a b i j Hi Hj. rewrite Hjoin, <- (Hsets a b i j) by eauto.
    split; [|by left]. intros [?|[[? ?]|[? ?]]]; eauto using same_set_trans, same_set_sym.
  - intros f Hff. rewrite elem_of_app. destruct (Hf f Hff). auto.
  - intros f [Hfs| ->%list_elem_of_singleton]%elem_of_app Hi; [by apply (old_spans seen st st)|].
    eapply connected_mono; [|by apply (Hsets _ _ _ _ Efi Eti)]. intros g Hg. apply elem_of_filter_list.
    split; [|done]. by rewrite Hheavy by apply Hf, Hg.
Qed.
Lemma skip_inv seen st e : kruskal_inv seen st → ¬ indexed nodeIndex e → kruskal_inv (seen ++ [e]) st.
Proof using Type.
  intros [Hr Hl Hsets Hf Ha Hsp Hsel] Hno. split; [done..| |done| |done].
  - intros f Hff. rewrite elem_of_app. destruct (Hf f Hff). auto.
  - intros f [Hfs| ->%list_elem_of_singleton]%elem_of_app Hi; [by apply Hsp|done].
Qed.
Lemma kruskal_step_inv seen st e :
  (∀ a i, nodeIndex !! a = Some i → i < n) → kruskal_inv seen st → (∀ f, f ∈ seen → heavier e f = false) →
  ∃ st', kruskal_step nodeIndex st e = Some st' ∧ kruskal_inv (seen ++ [e]) st'.
Proof using Type.
  intros Hn Hinv Hheavy. unfold kruskal_step.
  destruct (nodeIndex !! WeightedEdge.From e) as [fi|] eqn:Efi, (nodeIndex !! WeightedEdge.To e) as [ti|] eqn:Eti.
  2-4: eexists; (split; [done|]); apply skip_inv; [done|]; intros [[? ?] [? ?]]; congruence.
  destruct (Union_spec (Kruskal.uf st) fi ti (inv_ranked _ _ Hinv)) as (uf' & b & -> & Hu); [rewrite (inv_length _ _ Hinv); eauto..|].
  cbn [mbind option_bind]. eexists. split; [done|]. destruct b; [by eapply accept_inv|by eapply reject_inv].
Qed.
Lemma kruskal_loop_inv edges : ∀ seen st, (∀ a i, nodeIndex !! a = Some i → i < n) → kruskal_inv seen st →
  StronglySorted (λ x y, heavier y x = false) edges → (∀ e f, e ∈ edges → f ∈ seen → heavier e f = false) →
  ∃ st', kruskal_loop nodeIndex edges st = Some st' ∧ kruskal_inv (seen ++ edges) st'.
Proof using Type.
  induction edges as [|e edges IH]; intros seen st Hn Hi Hs Hb; cbn [kruskal_loop].
  { exists st. by rewrite app_nil_r. }
  destruct (kruskal_step_inv seen st e Hn Hi) as (st1 & -> & Hi1); [intros f Hf; apply Hb; [by left|done]|].
  cbn [mbind option_bind]. inversion Hs as [|? ? Hs' Hall]; subst. rewrite Forall_forall in Hall.
  destruct (IH (seen ++ [e]) st1 Hn Hi1 Hs') as (st' & E & Hi').
  - intros f g Hf [Hg| ->%list_elem_of_singleton]%elem_of_app; [apply Hb; [by right|done]|by apply Hall].
  - exists st'. split; [done|]. by rewrite <- app_assoc in Hi'.
Qed.
End kruskal_correct.

Lemma NewUnionFind_ranked n : ranked (NewUnionFind n).
Proof.
  unfold ranked, NewUnionFind; cbn. rewrite length_replicate, length_seq. split; [done|].
  intros x p [-> Hx]%lookup_seq. exists 0. rewrite lookup_replicate. split; [lia|]. intros Hne. lia.
Qed.
Lemma NewUnionFind_same n i j : i < n → j < n → same_set (NewUnionFind n) i j ↔ i = j.
Proof.
  assert (H : ∀ k, k < n → root (NewUnionFind n) k k) by (intros k Hk; constructor; cbn; by apply lookup_seq).
  intros Hi Hj. apply same_set_root; auto.
Qed.
Lemma start_inv seeds : kruskal_inv (node_index seeds) (length seeds) [] (Kruskal.mk (NewUnionFind (length seeds)) ∅ []).
Proof.
  destruct (node_index_spec seeds) as (Hinj & Hlt & _).
  split; cbn; [apply NewUnionFind_ranked|by rewrite length_seq| |set_solver| |set_solver|set_solver].
  - intros a b i j Hi Hj. rewrite NewUnionFind_same, connected_nil by eauto. split; [intros ->; by eapply Hinj|intros ->; congruence].
  - intros [|? ?] ? ? [=].
Qed.

(** ** The nodes that are kept *)

Definition keep_count (k : Z) : nat := Z.to_nat (Z.max 1 k).
Lemma collect_spec selected k seeds : ∀ nodes, length nodes < keep_count k →
  collect selected k nodes seeds = take (keep_count k) (nodes ++ List.filter (λ id, bool_decide (id ∈ selected)) seeds).
Proof.
  unfold keep_count. induction seeds as [|id seeds IH]; intros nodes Hk; cbn [collect List.filter].
  { by rewrite app_nil_r, take_ge by lia. }
  case_decide as Hid; [rewrite bool_decide_eq_true_2 by done|by rewrite bool_decide_eq_false_2, IH].
  rewrite (cons_middle id nodes (List.filter _ seeds)), (app_assoc nodes [id]). assert (Hlen : length (nodes ++ [id]) = S (length nodes)) by (rewrite length_app; cbn; lia).
  destruct (Z.leb_spec k (Z.of_nat (length (nodes ++ [id])))) as [Hle|Hgt].
  - rewrite take_app_le by lia. by rewrite take_ge by lia.
  - apply IH. lia.
Qed.
(** An end of a forest's edge. *)
Definition touched (forest : list WeightedEdge.t) (id : string) : bool :=
  existsb (λ e, String.eqb id (WeightedEdge.From e) || String.eqb id (WeightedEdge.To e)) forest.
Lemma touched_iff forest id :
  touched forest id = true ↔ ∃ e, e ∈ forest ∧ (id = WeightedEdge.From e ∨ id = WeightedEdge.To e).
Proof.
  unfold touched. rewrite existsb_exists. setoid_rewrite orb_true_iff. setoid_rewrite String.eqb_eq. by setoid_rewrite <- list_elem_of_In.
Qed.
Definition kept_nodes (forest : list WeightedEdge.t) (k : Z) (seeds : list string) : list string :=
  match forest with
  | [] => take (Z.to_nat k) seeds
  | _ => take (keep_count k) (List.filter (touched forest) seeds)
  end.
Lemma kept_spec st k seeds : (∀ id, id ∈ Kruskal.selected st ↔ touched (Kruskal.forest st) id = true) →
  (∀ e, e ∈ Kruskal.forest st → WeightedEdge.From e ∈ seeds) →
  let nodes := collect (Kruskal.selected st) k [] seeds in
  (if decide (nodes = []) then take (Z.to_nat k) seeds else nodes) = kept_nodes (Kruskal.forest st) k seeds.
Proof.
  intros Hsel Hin. cbv zeta. rewrite collect_spec by (unfold keep_count; cbn; lia). cbn [app].
  rewrite (List.filter_ext _ (touched (Kruskal.forest st))).
  2:{ intros id. destruct (touched _ id) eqn:E; [apply bool_decide_eq_true|apply bool_decide_eq_false]; rewrite Hsel, E; done. }
  destruct (Kruskal.forest st) as [|e es] eqn:Ef.
  { assert (List.filter (touched []) seeds = []) as -> by (clear; by induction seeds). by rewrite take_nil. }
  unfold kept_nodes. rewrite decide_False; [done|]. intros Hnil.
  assert (Hfrom : WeightedEdge.From e ∈ List.filter (touched (e :: es)) seeds).
  { apply elem_of_filter_list. split; [|apply Hin; left]. apply touched_iff. exists e. split; [left|by left]. }
  destruct (List.filter _ seeds) as [|x l]; [by apply not_elem_of_nil in Hfrom|].
  unfold keep_count in Hnil. destruct (Z.to_nat (Z.max 1 k)) eqn:E; [lia|done].
Qed.

(** ** What the search gets *)

(** Edges Kruskal's algorithm may use: the edges of the tree, and the semantic
    ones that are not too similar. *)
Definition usable (schemaEdges semanticEdges : list WeightedEdge.t) (redundancyThreshold : float64) (e : WeightedEdge.t) : Prop :=
  e ∈ schemaEdges ∨ (e ∈ semanticEdges ∧ fltb redundancyThreshold (WeightedEdge.Weight e) = false).
Lemma candidate_usable nodeIndex schemaEdges semanticEdges thr e :
  e ∈ candidate_edges nodeIndex schemaEdges semanticEdges thr →
  usable schemaEdges semanticEdges thr e.
Proof.
  unfold candidate_edges, usable. rewrite elem_of_app, elem_of_filter_list, !andb_true_iff, negb_true_iff. naive_solver.
Qed.
Lemma usable_candidate nodeIndex schemaEdges semanticEdges thr e :
  usable schemaEdges semanticEdges thr e → indexed nodeIndex e → e ∈ candidate_edges nodeIndex schemaEdges semanticEdges thr.
Proof.
  unfold candidate_edges, usable, indexed. rewrite elem_of_app, elem_of_filter_list, !andb_true_iff, negb_true_iff, !bool_decide_eq_true.
  naive_solver.
Qed.

(** C32: Kruskal's algorithm never fails, and for any order of equal weights it
    selects a spanning forest of maximal weight: its edges are usable edges of
    which none joins what the others connect, and the ends of every usable edge
    between seeds are connected by selected edges that weigh at least as much.
    The nodes kept are the first [k] seeds the forest touches, or the first [k]
    seeds when it has no edge. *)
Theorem max_weight_forest {SL : Sorter} seeds schemaEdges semanticEdges thr k :
  (∀ e, e ∈ schemaEdges ++ semanticEdges → fis_nan (WeightedEdge.Weight e) = false) →
  ∃ forest,
    MaxWeightForest seeds schemaEdges semanticEdges thr k = Some (kept_nodes forest k (take maxSeedCount seeds), forest) ∧
    acyclic forest ∧
    (∀ e, e ∈ forest → usable schemaEdges semanticEdges thr e) ∧
    (∀ e, usable schemaEdges semanticEdges thr e →
       WeightedEdge.From e ∈ take maxSeedCount seeds → WeightedEdge.To e ∈ take maxSeedCount seeds →
       connected (as_heavy e forest) (WeightedEdge.From e) (WeightedEdge.To e)).
Proof.
  intros Hnan. unfold MaxWeightForest. set (seeds' := take maxSeedCount seeds).
  destruct (node_index_spec seeds') as (_ & Hlt & Hidx).
  set (cands := candidate_edges (node_index seeds') schemaEdges semanticEdges thr).
  assert (Hperm : ∀ e, e ∈ sort_by heavier cands ↔ e ∈ cands) by (intros e; by rewrite sort_by_perm).
  destruct (kruskal_loop_inv (node_index seeds') (length seeds') (sort_by heavier cands) [] _ Hlt (start_inv seeds')) as (st & -> & Hinv).
  { apply sort_by_sorted, weak_order_key. intros e He%candidate_usable. apply Hnan, elem_of_app. destruct He as [?|[? _]]; auto. }
  { by intros ? ? _ ?%not_elem_of_nil. }
  cbn [mbind option_bind app] in Hinv |- *. destruct Hinv as [_ _ _ Hf Ha Hsp Hsel]. exists (Kruskal.forest st).
  setoid_rewrite Hperm in Hf. split_and!; [|done| |].
  - rewrite kept_spec; [done|intros id; by rewrite Hsel, touched_iff|]. intros e He. apply Hidx. by apply Hf.
  - intros e [He _]%Hf. by eapply candidate_usable.
  - intros e Hu HF HT. assert (Hi : indexed (node_index seeds') e) by (split; by apply Hidx).
    apply Hsp; [|done]. apply Hperm. by apply usable_candidate.
Qed.

(** ** Mutual nearest neighbours *)

Section semantic_edges.
Context {SL : Sorter} (embeddings : gmap string (list float64)) (ord : list string) (neighbor_ord : string → list string) (k : nat).
Definition mutual (a b : string) : Prop := b ∈ topK embeddings ord k a ∧ a ∈ topK embeddings ord k b.
Definition pair_step (st : gset string * list WeightedEdge.t) (p : string * string) : gset string * list WeightedEdge.t :=
  semantic_step embeddings ord k p.1 st p.2.
Lemma semantic_flat ids st :
  fold_left (λ st id, fold_left (semantic_step embeddings ord k id) (neighbor_ord id) st) ids st =
  fold_left pair_step (ids ≫= λ id, (id,.) <$> neighbor_ord id) st.
Proof.
  revert st. induction ids as [|id ids IH]; intros st; cbn; [done|]. rewrite fold_left_app, IH. f_equal.
  generalize (neighbor_ord id) as l. intros l. revert st. induction l as [|nb l IHl]; intros st; cbn; [done|]. by rewrite IHl.
Qed.

Definition edge_of (a b : string) : WeightedEdge.t :=
  WeightedEdge.mk a b (CosineSimilarity (vec embeddings a) (vec embeddings b)) "semantic".
Definition key_of (e : WeightedEdge.t) : string := edgeKey (WeightedEdge.From e) (WeightedEdge.To e).
Record edges_inv (done : list (string * string)) (st : gset string * list WeightedEdge.t) : Prop := {
  ei_seen : ∀ key, key ∈ st.1 ↔ key ∈ key_of <$> st.2;
  ei_nodup : NoDup (key_of <$> st.2);
  ei_sound : ∀ e, e ∈ st.2 → ∃ a b, (a, b) ∈ done ∧ e = edge_of a b ∧ a ∈ topK embeddings ord k b;
  ei_complete : ∀ a b, (a, b) ∈ done → a ∈ topK embeddings ord k b → edgeKey a b ∈ st.1 }.
Lemma pair_step_inv done st p : edges_inv done st → edges_inv (done ++ [p]) (pair_step st p).
Proof.
  intros [Hs Hn Hsnd Hc]. destruct p as [a b], st as [seen es]. cbn [fst snd] in *. unfold pair_step, semantic_step; cbn [fst snd].
  case_bool_decide as Hm; cbn [negb]; [case_bool_decide as Hk|]; split; cbn [fst snd]; try done.
  1,7: intros e He; destruct (Hsnd e He) as (x & y & ? & ?); exists x, y; set_solver.
  1,6: intros x y [Hd|[= -> ->]%list_elem_of_singleton]%elem_of_app Hxy; by auto.
  - intros key. rewrite fmap_app, elem_of_app, elem_of_union, Hs. cbn. set_solver.
  - rewrite fmap_app. apply NoDup_app. split; [done|]. split; [|apply NoDup_singleton].
    intros key Hkey ->%list_elem_of_singleton. apply Hk. by apply Hs.
  - intros e [He| ->%list_elem_of_singleton]%elem_of_app.
    + destruct (Hsnd e He) as (x & y & ? & ?). exists x, y. set_solver.
    + exists a, b. split; [set_solver|]. done.
  - intros x y [Hd|[= -> ->]%list_elem_of_singleton]%elem_of_app Hxy; [set_solver|set_solver].
Qed.
Lemma pair_fold_inv l : ∀ done st, edges_inv done st → edges_inv (done ++ l) (fold_left pair_step l st).
Proof.
  induction l as [|p l IH]; intros done st H; cbn; [by rewrite app_nil_r|].
  rewrite (cons_middle p done l), app_assoc. by apply IH, pair_step_inv.
Qed.
Lemma topK_neighbor a b : b ∈ topK embeddings ord k a →
  b ∈ seed_ids ord ∧ b ≠ a ∧ fltb float_zero (CosineSimilarity (vec embeddings a) (vec embeddings b)) = true.
Proof.
  unfold topK. intros ([b' w] & -> & Hw)%list_elem_of_fmap. apply (subseteq_take _ _ (b', w)) in Hw.
  rewrite sort_by_perm in Hw. unfold neighbors in Hw. apply list_elem_of_omap in Hw as (o & Ho & E).
  destruct (decide (o = a)); [done|]. destruct (fltb _ _) eqn:Ef; [|done]. injection E as <- <-. done.
Qed.

(** The semantic edges are those of mutual nearest neighbours of positive
    similarity, each pair once, provided no two pairs of ids make one key. *)
Theorem semantic_edges_exact :
  (∀ a, neighbor_ord a ≡ₚ topK embeddings ord k a) →
  (∀ a b, edgeKey a b = edgeKey b a) ∧
  let es := BuildSemanticEdges embeddings ord neighbor_ord k in
  NoDup (key_of <$> es) ∧
  (∀ e, e ∈ es → ∃ a b, e = edge_of a b ∧ a ≠ b ∧ mutual a b ∧ fltb float_zero (WeightedEdge.Weight e) = true) ∧
  (∀ a b, mutual a b → ∃ e, e ∈ es ∧ key_of e = edgeKey a b).
Proof.
  intros Hord. split.
  { intros a b. unfold edgeKey. destruct (String.ltb b a) eqn:E1, (String.ltb a b) eqn:E2; try done.
    - unfold String.ltb in *. rewrite String.compare_antisym in E2. by destruct (b ?= a)%string.
    - unfold String.ltb in *. assert (a = b) as ->; [|done]. apply String.compare_eq_iff.
      rewrite String.compare_antisym in E1. destruct (a ?= b)%string; done. }
  unfold BuildSemanticEdges. rewrite semantic_flat.
  set (l := _ ≫= _). destruct (pair_fold_inv l [] (∅, [])) as [Hs Hn Hsnd Hc].
  { split; [set_solver|apply NoDup_nil_2|set_solver|set_solver]. }
  cbn [app] in *. assert (Hl : ∀ a b, (a, b) ∈ l ↔ a ∈ seed_ids ord ∧ b ∈ topK embeddings ord k a).
  { intros a b. unfold l. rewrite list_elem_of_bind, <- Hord. split.
    - by intros (x & (y & [= -> ->] & Hy)%list_elem_of_fmap & Hx).
    - intros [Ha Hb]. exists a. split; [|done]. apply list_elem_of_fmap. by exists b. }
  split; [done|]. split.
  - intros e (a & b & [_ Hab]%Hl & -> & Hba)%Hsnd. destruct (topK_neighbor a b Hab) as (_ & ? & ?). exists a, b. split_and!; auto. by split.
  - intros a b [Hab Hba]. destruct (topK_neighbor b a Hba) as (Ha & _).
    assert (edgeKey a b ∈ (fold_left pair_step l (∅, [])).1) as (e & E & He)%Hs%list_elem_of_fmap by (apply Hc; [by apply Hl|done]).
    by exists e.
Qed.
End semantic_edges.

(** ** Examples *)

Definition f_one : float64 := float_of_int 1.
Definition tenths (n : Z) : float64 := fdiv (float_of_int n) (float_of_int 10).
Definition ex_edge (a b : string) (w : Z) : WeightedEdge.t := WeightedEdge.mk a b (tenths w) "semantic".

(** A triangle and a pendant item: the lightest edge of the triangle is left out. *)
Definition ex_edges : list WeightedEdge.t :=
  [ex_edge "a" "b" 5; ex_edge "b" "c" 3; ex_edge "a" "c" 2; ex_edge "c" "d" 1].
Lemma max_weight_forest_witness :
  ∃ forest, MaxWeightForest ["a"; "b"; "c"; "d"; "e"] [] ex_edges (tenths 9) 3 = Some (["a"; "b"; "c"], forest) ∧
    connected (as_heavy (ex_edge "a" "c" 2) forest) "a" "c".
Proof.
  destruct (max_weight_forest ["a"; "b"; "c"; "d"; "e"] [] ex_edges (tenths 9) 3) as (forest & H & _ & _ & Hc).
  - apply Forall_forall. repeat (constructor; [vm_compute; reflexivity|]). constructor.
  - assert (E : MaxWeightForest ["a"; "b"; "c"; "d"; "e"] [] ex_edges (tenths 9) 3 =
      Some (["a"; "b"; "c"], [ex_edge "a" "b" 5; ex_edge "b" "c" 3; ex_edge "c" "d" 1])) by (vm_compute; reflexivity).
    pose proof (f_equal (λ o, match o with Some p => p.2 | None => [] end) (eq_trans (eq_sym H) E)) as Hf. cbn beta iota in Hf.
    change (forest = [ex_edge "a" "b" 5; ex_edge "b" "c" 3; ex_edge "c" "d" 1]) in Hf. subst forest.
    eexists. split; [exact E|].
    apply (Hc (ex_edge "a" "c" 2)).
    + right. split; [by apply (list_elem_of_lookup_2 _ 2)|vm_compute; reflexivity].
    + by apply (bool_decide_unpack _); vm_compute.
    + by apply (bool_decide_unpack _); vm_compute.
Defined.

(** The edges returned go beyond the nodes: up to [k] nodes are kept, and every
    edge of the forest. *)
Example forest_beyond_nodes :
  MaxWeightForest ["a"; "b"; "c"] [] [ex_edge "a" "b" 5; ex_edge "b" "c" 3] (tenths 9) 1 =
  Some (["a"], [ex_edge "a" "b" 5; ex_edge "b" "c" 3]).
Proof. vm_compute. reflexivity. Qed.
(** The best hit is dropped, however much room there is, once two others are
    joined and it is not. *)
Example lone_hit_dropped :
  MaxWeightForest ["best"; "a"; "b"] [] [ex_edge "a" "b" 2] (tenths 9) 10 = Some (["a"; "b"], [ex_edge "a" "b" 2]).
Proof. vm_compute. reflexivity. Qed.
(** Two items that are too similar lose the edge between them, and both stay. *)
Example redundant_items_stay :
  MaxWeightForest ["a"; "a copy"; "b"] [] [WeightedEdge.mk "a" "a copy" f_one "semantic"; ex_edge "a" "b" 4; ex_edge "a copy" "b" 4] (tenths 9) 10 =
  Some (["a"; "a copy"; "b"], [ex_edge "a" "b" 4; ex_edge "a copy" "b" 4]).
Proof. vm_compute. reflexivity. Qed.
(** Two pairs of ids can make one key, and then one of the edges is lost. *)
Example keys_collide : edgeKey "a" "b->c" = edgeKey "a->b" "c".
Proof. vm_compute. reflexivity. Qed.
