(* ===== verification/Search.v ===== *)
(** * Ranking texts (pkg/search/search.go)

    Words of a text, BM25 scores, and the fusion of several rankings by
    reciprocal ranks.  Which runes outside ASCII are letters and digits, and the
    logarithm, are arguments. *)
From Stdlib Require Import Ascii SpecFloat.
From S2P Require Import Prelude SliceSort Forest.
Local Open Scope Z_scope.

(** ** Words, and BM25 *)

Module BM25Corpus.
Record t := mk {
  k1 : float64; b : float64; avgDL : float64;
  docLen : gmap string Z; docFreq : gmap string (gmap string Z); totalDocs : Z }.
End BM25Corpus.

Section tokenize.
(** [unicode.IsLetter || unicode.IsDigit] beyond ASCII. *)
Context (unicode_word : Z → bool).

Definition is_word (r : Z) : bool :=
  if r <? 128 then in_range 48 57 r || in_range 65 90 r || in_range 97 122 r else unicode_word r.

Definition tokenizeStopwords : gset string := list_to_set
  ["the"; "a"; "an"; "of"; "to"; "in"; "on"; "for"; "and"; "or"; "are"; "is"; "was"; "were"; "be"; "this"; "that";
   "with"; "as"; "at"; "by"; "it"; "if"; "please"; "me"; "my"; "your"; "you"].
(** [flush]: the word read, its bytes reversed. *)
Definition flush_token (cur : list ascii) : list string :=
  let w := of_bytes (reverse cur) in
  if (2 <=? Z.of_nat (length (runes w))) && bool_decide (w ∉ tokenizeStopwords) then [w] else [].
(** [skip] bytes belong to the rune just read, which is kept or not. *)
Fixpoint tokens_from (skip : nat) (keep : bool) (cur : list ascii) (l : list ascii) : list string :=
  match l with
  | [] => flush_token cur
  | a :: l' =>
      match skip with
      | S skip => tokens_from skip keep (if keep then a :: cur else cur) l'
      | O =>
          let '(r, w) := decode_rune (byteZ <$> l) in
          if is_word r then tokens_from (pred w) true (a :: cur) l'
          else flush_token cur ++ tokens_from (pred w) false [] l'
      end
  end.
Definition Tokenize (text : string) : gmap string Z :=
  fold_left (λ freq w, <[w := default 0 (freq !! w) + 1]> freq) (tokens_from 0 false [] (bytes (to_lower text))) ∅.


Definition sum_counts {K} `{Countable K} (m : gmap K Z) : Z := map_fold (λ _ c acc, c + acc) 0 m.
Definition NewBM25Corpus (k1 b : float64) (docs : gmap string string) : BM25Corpus.t :=
  let tokens := Tokenize <$> docs in
  let docLen := sum_counts <$> tokens in
  BM25Corpus.mk k1 b
    (if bool_decide (docs = ∅) then float_zero
     else fdiv (float_of_int (sum_counts docLen)) (float_of_int (Z.of_nat (size docs))))
    docLen
    (map_fold (λ id toks m, map_fold (λ term cnt m, <[term := <[id := cnt]> (default ∅ (m !! term))]> m) m toks) ∅ tokens)
    (Z.of_nat (size docs)).

Context (math_Log : float64 → float64).
Definition fsub : float64 → float64 → float64 := SFsub 53 1024.
Definition f1 : float64 := float_of_int 1.
Definition f_half : float64 := fdiv f1 (float_of_int 2).
(** What a query term adds to the score of a document; a term no document or
    not this one has adds nothing. *)
Definition term_score (c : BM25Corpus.t) (id : string) (dl : float64) (term : string) (qf : Z) (s : float64) : float64 :=
  let docs := default ∅ (BM25Corpus.docFreq c !! term) in
  let df := Z.of_nat (size docs) in
  if df =? 0 then s
  else
    let idf := math_Log (fadd f1 (fdiv (fadd (fsub (float_of_int (BM25Corpus.totalDocs c)) (float_of_int df)) f_half)
                                       (fadd (float_of_int df) f_half))) in
    let tf := float_of_int (default 0 (docs !! id)) in
    if feqb tf float_zero then s
    else
      let k1 := BM25Corpus.k1 c in let b := BM25Corpus.b c in
      let den := fadd tf (fmul k1 (fadd (fsub f1 b) (fdiv (fmul b dl) (BM25Corpus.avgDL c)))) in
      fadd s (fmul (fdiv (fmul idf (fmul tf (fadd k1 f1))) den) (float_of_int qf)).
(** [qord id] is the order of [range qTokens] for the document [id], which the
    sum depends on. *)
Definition Score (c : BM25Corpus.t) (query : string) (qord : string → list string) : gmap string float64 :=
  map_imap (λ id n,
    let s := fold_left (λ s '(term, qf), term_score c id (float_of_int n) term qf s) (range (Tokenize query) (qord id)) float_zero in
    if fltb float_zero s then Some s else None) (BM25Corpus.docLen c).
End tokenize.

(** ** Reciprocal rank fusion *)

Section rrf.
Context {SL : Sorter}.

Definition rank_less (x y : string * float64) : bool :=
  if negb (feqb x.2 y.2) then fltb y.2 x.2 else String.ltb x.1 y.1.

(** How many entries from the head on have the score [s]. *)
Fixpoint tied (s : float64) (items : list (string * float64)) : nat :=
  match items with
  | x :: items => if feqb x.2 s then S (tied s items) else O
  | [] => O
  end.
(** A cap inside a group of ties is moved to the end of the group. *)
Definition cap_items (maxPerSource : Z) (items : list (string * float64)) : list (string * float64) :=
  let cap := Z.to_nat maxPerSource in
  if (0 <? maxPerSource) && (maxPerSource <? Z.of_nat (length items)) then
    match items !! pred cap with
    | Some x => take (cap + tied x.2 (drop cap items)) items
    | None => items
    end
  else items.

Definition rrf_k : float64 := float_of_int 60.
Definition rrf_score (i j : nat) : float64 :=
  fdiv f1 (fadd rrf_k (fdiv (fadd (float_of_int (Z.of_nat i)) (float_of_int (Z.of_nat j))) (float_of_int 2))).
(** The loop over groups of ties, from position [i] on: each entry with its
    credit. *)
Fixpoint credits (fuel : nat) (i : nat) (items : list (string * float64)) : list (string * float64) :=
  match fuel, items with
  | S fuel, x :: rest =>
      let more := tied x.2 rest in
      ((λ y, (y.1, rrf_score i (i + more))) <$> x :: take more rest) ++ credits fuel (S (i + more)) (drop more rest)
  | _, _ => []
  end.
Definition add_credit (merged : gmap string float64) (c : string * float64) : gmap string float64 :=
  <[c.1 := fadd (default float_zero (merged !! c.1)) c.2]> merged.
Definition merge_ranking (maxPerSource : Z) (merged ranking : gmap string float64) : gmap string float64 :=
  let items := cap_items maxPerSource (sort_by rank_less (map_to_list ranking)) in
  fold_left add_credit (credits (length items) 0 items) merged.
Definition RRFMergeCapped (maxPerSource : Z) (rankings : list (gmap string float64)) : gmap string float64 :=
  fold_left (merge_ranking maxPerSource) rankings ∅.
Definition RRFMerge : list (gmap string float64) → gmap string float64 := RRFMergeCapped 0.
End rrf.

(** * The credit of an entry, by counting *)

Section reference.
(** How many entries of a ranking score more than [s], and how many the same. *)
Definition greater (l : list (string * float64)) (s : float64) : nat := length (List.filter (λ y, fltb s y.2) l).
Definition equal (l : list (string * float64)) (s : float64) : nat := length (List.filter (λ y, feqb y.2 s) l).
(** An entry within the cap gets the reciprocal of 60 and the mean of the
    positions its ties occupy. *)
Definition credit (maxPerSource : Z) (ranking : gmap string float64) (id : string) : option float64 :=
  s ← ranking !! id;
  let g := greater (map_to_list ranking) s in
  if (maxPerSource <=? 0) || (Z.of_nat g <? maxPerSource)
  then Some (rrf_score g (g + pred (equal (map_to_list ranking) s))) else None.
Definition fused (maxPerSource : Z) (rankings : list (gmap string float64)) (id : string) : option float64 :=
  match omap (λ r, credit maxPerSource r id) rankings with
  | [] => None
  | cs => Some (fold_left fadd cs float_zero)
  end.
End reference.

(** ** Scores that are numbers *)

Section scores.
Context (a b c : float64).
Lemma feqb_sym : fis_nan a = false → fis_nan b = false → feqb a b = feqb b a.
Proof. intros. rewrite !feqb_fltb by done. by rewrite orb_comm. Qed.
Lemma feqb_false_lt : fis_nan a = false → fis_nan b = false → feqb a b = false → fltb a b = true ∨ fltb b a = true.
Proof. intros Ha Hb. rewrite feqb_fltb by done. destruct (fltb a b), (fltb b a); auto. Qed.
Lemma feqb_lt : fis_nan a = false → fis_nan b = false → feqb a b = true → fltb a b = false ∧ fltb b a = false.
Proof. intros Ha Hb. rewrite feqb_fltb by done. destruct (fltb a b), (fltb b a); auto. Qed.
End scores.
Lemma feqb_same a b c : fis_nan a = false → fis_nan b = false → fis_nan c = false → feqb a b = true →
  fltb a c = fltb b c ∧ fltb c a = fltb c b ∧ feqb c a = feqb c b.
Proof.
  intros Ha Hb Hc [H1 H2]%feqb_lt; [|done..].
  assert (E1 : fltb a c = fltb b c).
  { destruct (fltb a c) eqn:E, (fltb b c) eqn:E'; try done; [destruct (fltb_cotrans a b c)|destruct (fltb_cotrans b a c)]; congruence. }
  assert (E2 : fltb c a = fltb c b).
  { destruct (fltb c a) eqn:E, (fltb c b) eqn:E'; try done; [destruct (fltb_cotrans c b a)|destruct (fltb_cotrans c a b)]; congruence. }
  split_and!; [done|done|]. rewrite !feqb_fltb by done. by rewrite E1, E2.
Qed.

Definition numbers (l : list (string * float64)) : Prop := ∀ y, y ∈ l → fis_nan y.2 = false.
Definition descending : list (string * float64) → Prop := StronglySorted (λ x y, fltb x.2 y.2 = false).

Lemma string_ltb_asym a b : String.ltb a b = true → String.ltb b a = false.
Proof. unfold String.ltb. rewrite (String.compare_antisym b a). by destruct (a ?= b)%string. Qed.
Lemma string_ltb_cotrans a b c : String.ltb a c = true → String.ltb a b = true ∨ String.ltb b c = true.
Proof.
  intros H. destruct (String.ltb a b) eqn:E1; [by left|]. destruct (String.ltb b c) eqn:E2; [by right|]. exfalso.
  assert (Hle : ∀ x y, String.ltb x y = false → str_le y x).
  { intros x y. unfold str_le, String.leb, String.ltb. rewrite (String.compare_antisym x y). by destruct (y ?= x)%string. }
  assert (Hca : str_le c a) by (etrans; [by apply Hle|by apply Hle]).
  revert H Hca. unfold str_le, String.leb, String.ltb. rewrite (String.compare_antisym a c). by destruct (c ?= a)%string.
Qed.
Lemma rank_less_order l : numbers l → weak_order rank_less l.
Proof.
  intros Hn. split.
  - intros x y Hx Hy. apply Hn in Hx, Hy. unfold rank_less. rewrite (feqb_sym y.2 x.2) by done.
    destruct (feqb x.2 y.2); cbn; [apply string_ltb_asym|apply fltb_asym].
  - intros x y z Hx Hy Hz. apply Hn in Hx, Hy, Hz. unfold rank_less. destruct (feqb x.2 z.2) eqn:Exz; cbn.
    + intros H. destruct (feqb x.2 y.2) eqn:Exy; cbn.
      * destruct (feqb_same x.2 z.2 y.2) as (_ & _ & E); [done..|]. rewrite <- E, (feqb_sym y.2 x.2), Exy by done. cbn.
        by apply string_ltb_cotrans.
      * destruct (feqb_same x.2 z.2 y.2) as (E1 & E2 & E3); [done..|].
        rewrite <- E3, (feqb_sym y.2 x.2), Exy by done. cbn. rewrite <- E1. destruct (feqb_false_lt x.2 y.2); auto.
    + intros H. destruct (fltb_cotrans _ _ _ Hy H) as [Hzy|Hyx].
      * right. destruct (feqb y.2 z.2) eqn:E; cbn; [|done]. apply feqb_lt in E as [_ E]; [congruence|done..].
      * left. destruct (feqb x.2 y.2) eqn:E; cbn; [|done]. apply feqb_lt in E as [_ E]; [congruence|done..].
Qed.
Lemma sorted_descending {SL : Sorter} l : numbers l → descending (sort_by rank_less l).
Proof.
  intros Hn. pose proof (sort_by_sorted rank_less l (rank_less_order l Hn)) as Hs.
  assert (Hn' : numbers (sort_by rank_less l)) by (intros y; rewrite sort_by_perm; apply Hn).
  revert Hn'. induction Hs as [|x l' Hs IH Hx]; intros Hn'; constructor; [apply IH; intros y Hy; apply Hn'; by right|].
  rewrite Forall_forall in Hx |- *. intros y Hy. specialize (Hx y Hy). revert Hx. unfold rank_less.
  destruct (feqb y.2 x.2) eqn:E; cbn; [|done]. intros _. apply feqb_lt in E; [tauto|apply Hn'; by right|apply Hn'; by left].
Qed.

(** ** Credits of a sorted list *)

#[export] Instance greater_perm : Proper ((≡ₚ) ==> eq ==> eq) greater.
Proof. intros l l' H s ? <-. unfold greater. induction H; cbn; repeat destruct (fltb _ _); cbn; congruence. Qed.
#[export] Instance equal_perm : Proper ((≡ₚ) ==> eq ==> eq) equal.
Proof. intros l l' H s ? <-. unfold equal. induction H; cbn; repeat destruct (feqb _ _); cbn; congruence. Qed.
Lemma greater_app l l' s : greater (l ++ l') s = (greater l s + greater l' s)%nat.
Proof. unfold greater. by rewrite List.filter_app, length_app. Qed.
Lemma equal_app l l' s : equal (l ++ l') s = (equal l s + equal l' s)%nat.
Proof. unfold equal. by rewrite List.filter_app, length_app. Qed.
Lemma filter_all {A} (f : A → bool) l : (∀ y, y ∈ l → f y = true) → List.filter f l = l.
Proof. induction l as [|x l IH]; intros H; cbn; [done|]. rewrite (H x) by left. by rewrite IH by (intros; apply H; by right). Qed.
Lemma filter_none {A} (f : A → bool) l : (∀ y, y ∈ l → f y = false) → List.filter f l = [].
Proof. induction l as [|x l IH]; intros H; cbn; [done|]. rewrite (H x) by left. by rewrite IH by (intros; apply H; by right). Qed.

(** The group of ties at the head of a sorted list. *)
Lemma tied_split s l : numbers l → fis_nan s = false → descending l → (∀ y, y ∈ l → fltb s y.2 = false) →
  (∀ y, y ∈ take (tied s l) l → feqb y.2 s = true) ∧ (∀ y, y ∈ drop (tied s l) l → fltb y.2 s = true) ∧
  (tied s l ≤ length l)%nat.
Proof.
  intros Hn Hs Hd. induction Hd as [|x l Hd IH Hx]; intros Hle; cbn [tied]; [set_solver|].
  destruct (feqb x.2 s) eqn:E.
  - cbn [take drop]. destruct IH as (H1 & H2 & H3); [intros y Hy; apply Hn; by right|intros y Hy; apply Hle; by right|].
    split_and!; [|done|cbn; lia]. intros y [->|Hy]%elem_of_cons; auto.
  - cbn [take drop]. split_and!; [by intros y Hy%elem_of_nil| |cbn; lia]. assert (Hxs : fltb x.2 s = true).
    { destruct (feqb_false_lt x.2 s) as [H|H]; [by apply Hn; left|done|done|done|]. by rewrite (Hle x) in H by left. }
    intros y [->|Hy]%elem_of_cons; [done|]. rewrite Forall_forall in Hx. specialize (Hx y Hy).
    destruct (fltb_cotrans _ y.2 _ (Hn y ltac:(by right)) Hxs) as [H|H]; [congruence|done].
Qed.
Definition credit_at (i : nat) (l : list (string * float64)) (y : string * float64) : string * float64 :=
  (y.1, rrf_score (i + greater l y.2) (i + greater l y.2 + pred (equal l y.2))).
Lemma credits_spec fuel : ∀ i l, numbers l → descending l → (length l ≤ fuel)%nat → credits fuel i l = credit_at i l <$> l.
Proof.
  induction fuel as [|fuel IH]; intros i [|x rest] Hn Hd Hf; cbn [credits]; [done|cbn in Hf; lia|done|].
  inversion Hd as [|? ? Hd' Hx]; subst. rewrite Forall_forall in Hx.
  assert (Hnx : fis_nan x.2 = false) by (apply Hn; by left). assert (Hnr : numbers rest) by (intros y Hy; apply Hn; by right).
  destruct (tied_split x.2 rest Hnr Hnx Hd' Hx) as (Heq & Hlt & Hle). set (more := tied x.2 rest) in *.
  set (grp := x :: take more rest). set (tl := drop more rest) in *.
  assert (El : x :: rest = grp ++ tl) by (unfold grp, tl; cbn [app]; by rewrite take_drop).
  assert (Hlen : length grp = S more) by (unfold grp; cbn; rewrite length_take; lia).
  assert (Hgrp : ∀ y, y ∈ grp → feqb y.2 x.2 = true ∧ fis_nan y.2 = false).
  { intros y [->|Hy]%elem_of_cons; [|split; [by apply Heq|apply Hnr; by eapply subseteq_take]].
    split; [|done]. rewrite feqb_fltb, fltb_irrefl by done. done. }
  assert (Hntl : numbers tl) by (intros y Hy; apply Hnr; by eapply subseteq_drop).
  assert (Hgt : ∀ s, fis_nan s = false → feqb s x.2 = true → greater grp s = 0%nat ∧ greater tl s = 0%nat ∧ equal grp s = S more ∧ equal tl s = 0%nat).
  { intros s Hs Es. unfold greater, equal.
    rewrite (filter_none _ grp), (filter_none _ tl), (filter_all _ grp), (filter_none _ tl); [by rewrite Hlen|..].
    - intros y Hy. destruct (feqb_same s x.2 y.2) as (_ & _ & ->); [auto..|]. rewrite feqb_fltb by auto. by rewrite Hlt.
    - intros y Hy. destruct (Hgrp y Hy) as [? ?]. by destruct (feqb_same s x.2 y.2) as (_ & _ & ->).
    - intros y Hy. destruct (feqb_same s x.2 y.2) as (-> & _); [auto..|]. apply fltb_asym. by apply Hlt.
    - intros y Hy. destruct (Hgrp y Hy) as [E ?]. destruct (feqb_same s x.2 y.2) as (-> & _); [done..|].
      by apply feqb_lt in E as []. }
  rewrite El, fmap_app. f_equal.
  - apply list_fmap_ext. intros _ y Hy%list_elem_of_lookup_2. destruct (Hgrp y Hy) as [E Hy'].
    unfold credit_at. destruct (Hgt y.2 Hy' E) as (G1 & G2 & E1 & E2). rewrite greater_app, equal_app, G1, G2, E1, E2. f_equal. f_equal; lia.
  - rewrite IH; [|done| |].
    + apply list_fmap_ext. intros _ y Hy%list_elem_of_lookup_2. unfold credit_at.
      assert (greater grp y.2 = S more ∧ equal grp y.2 = 0%nat) as [G E].
      { unfold greater, equal. rewrite (filter_all _ grp), (filter_none _ grp); [by rewrite Hlen|..]; intros z Hz; destruct (Hgrp z Hz) as [Ez ?];
          destruct (feqb_same z.2 x.2 y.2) as (E1 & E2 & E3); auto.
        - rewrite feqb_sym, E3, feqb_fltb by auto. by rewrite (Hlt y Hy).
        - rewrite E2. by apply Hlt. }
      rewrite greater_app, equal_app, G, E. f_equal. f_equal; lia.
    + unfold tl. clear -Hd'. revert Hd'. generalize more. induction rest as [|z rest IH]; intros [|m] H; try done. cbn. apply IH. by inversion H.
    + unfold tl. rewrite length_drop. cbn in Hf. lia.
Qed.

(** ** The cap *)

(** What the cap keeps, and what it drops: everything dropped scores less. *)
Definition cut (maxPerSource : Z) (l kept dropped : list (string * float64)) : Prop :=
  l = kept ++ dropped ∧
  (∀ y, y ∈ kept → maxPerSource ≤ 0 ∨ Z.of_nat (greater l y.2) < maxPerSource) ∧
  (∀ y z, y ∈ kept → z ∈ dropped → fltb z.2 y.2 = true) ∧
  (∀ z, z ∈ dropped → 0 < maxPerSource ∧ maxPerSource ≤ Z.of_nat (greater l z.2)).

Lemma descending_app l l' y z : descending (l ++ l') → y ∈ l → z ∈ l' → fltb y.2 z.2 = false.
Proof.
  induction l as [|x l IH]; cbn; [by intros _ ?%not_elem_of_nil|]. inversion 1 as [|? ? Hd Hx]; subst.
  intros [->|Hy]%elem_of_cons Hz; [|by apply IH]. rewrite Forall_forall in Hx. apply Hx. set_solver.
Qed.
Lemma descending_drop l n : descending l → descending (drop n l).
Proof. intros H. revert n. induction H as [|x l H IH Hx]; intros [|n]; cbn; try by constructor. apply IH. Qed.
(** In a sorted list, fewer entries score more than an entry than stand before it. *)
Lemma greater_before l l' y : descending (l ++ y :: l') → (greater (l ++ y :: l') y.2 ≤ length l)%nat.
Proof.
  intros Hd. rewrite greater_app. unfold greater at 2. rewrite filter_none.
  - cbn. rewrite Nat.add_0_r. unfold greater. etrans; [apply (filter_length_le _ (λ _, true)); auto|]. by rewrite List.filter_true.
  - assert (Hd' : descending (y :: l')) by (rewrite <- (drop_app_length l (y :: l')); by apply descending_drop).
    inversion Hd' as [|? ? _ Hy]; subst. rewrite Forall_forall in Hy. intros z [->|Hz]%elem_of_cons; [apply fltb_irrefl|by apply Hy].
Qed.
Lemma position_greater l i y : descending l → l !! i = Some y → (greater l y.2 ≤ i)%nat.
Proof.
  intros Hd Hi. pose proof (take_drop_middle _ _ _ Hi) as Hs. pose proof (greater_before (take i l) (drop (S i) l) y) as H.
  rewrite Hs in H. specialize (H Hd). rewrite length_take in H. lia.
Qed.
Lemma greater_same l x y : numbers l → fis_nan x = false → fis_nan y = false → feqb y x = true → greater l y = greater l x.
Proof.
  intros Hn Hx Hy E. unfold greater. rewrite (List.filter_ext_in _ (λ z, fltb x z.2)); [done|].
  intros z Hz%list_elem_of_In. by destruct (feqb_same y x z.2 Hy Hx (Hn z Hz) E) as (-> & _).
Qed.
Lemma greater_all l l' s : (∀ y, y ∈ l → fltb s y.2 = true) → (length l ≤ greater (l ++ l') s)%nat.
Proof. intros H. rewrite greater_app. unfold greater at 1. rewrite filter_all by done. lia. Qed.
Lemma descending_lookup l i j x y : descending l → l !! i = Some x → l !! j = Some y → (i < j)%nat → fltb x.2 y.2 = false.
Proof.
  intros Hd Hx Hy Hij. apply (descending_app (take j l) (drop j l)); [by rewrite take_drop|..].
  - apply (list_elem_of_lookup_2 _ i). by rewrite lookup_take_lt.
  - apply (list_elem_of_lookup_2 _ 0). by rewrite lookup_drop, Nat.add_0_r.
Qed.

(** A cut after a group of ties, at or behind position [cap]. *)
Lemma group_cut l cap x : numbers l → descending l → l !! pred cap = Some x → (0 < cap)%nat →
  let m := tied x.2 (drop cap l) in
  cut (Z.of_nat cap) l (take (cap + m) l) (drop m (drop cap l)).
Proof.
  intros Hn Hd Hx Hcap. cbv zeta. set (tl := drop cap l). set (m := tied x.2 tl).
  assert (Hnx : fis_nan x.2 = false) by (apply Hn; by eapply list_elem_of_lookup_2).
  assert (Hntl : numbers tl) by (intros y Hy; apply Hn; by eapply subseteq_drop).
  destruct (tied_split x.2 tl Hntl Hnx (descending_drop _ _ Hd)) as (Heq & Hlt & Hle).
  { intros y [j Hj]%list_elem_of_lookup. unfold tl in Hj. rewrite lookup_drop in Hj. eapply descending_lookup; [done..|lia]. }
  fold m in Heq, Hlt, Hle. rewrite <- (take_take_drop l cap m). fold tl.
  assert (Hl : l = (take cap l ++ take m tl) ++ drop m tl) by (rewrite <- app_assoc, take_drop; unfold tl; by rewrite take_drop).
  assert (Hkept : ∀ y, y ∈ take cap l ++ take m tl → fltb y.2 x.2 = false ∧ (greater l y.2 < cap)%nat).
  { intros y [[i Hi]%list_elem_of_lookup|Hy]%elem_of_app.
    - pose proof (lookup_lt_Some _ _ _ Hi) as Hil. rewrite length_take in Hil. rewrite lookup_take_lt in Hi by lia. split.
      + destruct (decide (i = pred cap)) as [->|]; [simplify_eq; apply fltb_irrefl|]. eapply descending_lookup; [done..|lia].
      + pose proof (position_greater l i y Hd Hi). lia.
    - pose proof (Heq y Hy) as E. assert (Hny : fis_nan y.2 = false) by (apply Hntl; by eapply subseteq_take).
      split; [by apply feqb_lt in E as []|]. rewrite (greater_same l x.2 y.2) by done. pose proof (position_greater l _ x Hd Hx). lia. }
  assert (Hsep : ∀ y z, y ∈ take cap l ++ take m tl → z ∈ drop m tl → fltb z.2 y.2 = true).
  { intros y z Hy Hz. destruct (fltb_cotrans z.2 y.2 x.2) as [?|?]; [apply Hn; rewrite Hl; set_solver|by apply Hlt|done|].
    apply Hkept in Hy as [? _]. congruence. }
  split_and!; [done|intros y Hy; right; apply Hkept in Hy; lia|done|].
  intros z Hz. split; [lia|]. rewrite Hl at 1. rewrite <- app_assoc.
  assert (cap ≤ length (take cap l))%nat by (apply lookup_lt_Some in Hx; rewrite length_take; lia).
  assert (∀ y, y ∈ take cap l → fltb z.2 y.2 = true) as Hall%(greater_all _ (take m tl ++ drop m tl)); [|lia].
  intros y Hy. apply Hsep; [set_solver|done].
Qed.
Lemma cap_cut maxPerSource l : numbers l → descending l →
  ∃ dropped, cut maxPerSource l (cap_items maxPerSource l) dropped.
Proof.
  intros Hn Hd. unfold cap_items. destruct (Z.ltb_spec 0 maxPerSource) as [Hp|Hp]; cbn [andb].
  2:{ exists []. split_and!; [by rewrite app_nil_r|auto|set_solver..]. }
  destruct (Z.ltb_spec maxPerSource (Z.of_nat (length l))) as [Hl|Hl].
  - destruct (lookup_lt_is_Some_2 l (pred (Z.to_nat maxPerSource))) as [x Hx]; [lia|]. rewrite Hx.
    pose proof (group_cut l (Z.to_nat maxPerSource) x Hn Hd Hx) as H. rewrite Z2Nat.id in H by lia. eexists. apply H. lia.
  - exists []. split_and!; [by rewrite app_nil_r| |set_solver..]. intros y [i Hi]%list_elem_of_lookup. right.
    pose proof (position_greater l i y Hd Hi). apply lookup_lt_Some in Hi. lia.
Qed.

(** ** Merging *)

Lemma add_credits cs : ∀ merged, NoDup cs.*1 → ∀ id,
  fold_left add_credit cs merged !! id =
  match List.find (λ c, String.eqb c.1 id) cs with
  | Some c => Some (fadd (default float_zero (merged !! id)) c.2)
  | None => merged !! id
  end.
Proof.
  induction cs as [|c cs IH]; intros merged Hnd id; cbn; [done|]. inversion Hnd as [|? ? Hni Hnd']; subst.
  rewrite IH by done. unfold add_credit at 1 2. destruct (String.eqb_spec c.1 id) as [<-|Hne].
  - destruct (find _ cs) as [c'|] eqn:E.
    + apply find_some in E as [E E'%String.eqb_eq]. destruct Hni. apply list_elem_of_fmap. exists c'. split; [done|by rewrite list_elem_of_In].
    + by rewrite lookup_insert_eq.
  - destruct (find _ cs) as [c'|] eqn:E; by rewrite lookup_insert_ne.
Qed.
Lemma find_credit i l id s k : NoDup l.*1 → (id, s) ∈ l →
  List.find (λ c, String.eqb c.1 id) (credit_at i k <$> l) = Some (credit_at i k (id, s)).
Proof.
  induction l as [|x l IH]; intros Hnd Hin; [by apply not_elem_of_nil in Hin|]. cbn. inversion Hnd as [|? ? Hni Hnd']; subst.
  destruct (String.eqb_spec x.1 id) as [E|Hne]; apply elem_of_cons in Hin as [<-|Hin]; [done| |done|by apply IH].
  destruct Hni. rewrite E. apply list_elem_of_fmap. by exists (id, s).
Qed.
Lemma find_credit_none i l id k : id ∉ l.*1 → List.find (λ c, String.eqb c.1 id) (credit_at i k <$> l) = None.
Proof.
  induction l as [|x l IH]; cbn; [done|]. rewrite not_elem_of_cons. intros [Hne Hni].
  destruct (String.eqb_spec x.1 id) as [E|_]; [congruence|by apply IH].
Qed.

(** Counting among what the cap keeps is counting among all. *)
Lemma cut_counts c l kept dropped y : numbers l → cut c l kept dropped → y ∈ kept →
  greater kept y.2 = greater l y.2 ∧ equal kept y.2 = equal l y.2.
Proof.
  intros Hn (-> & _ & Hlt & _) Hy. rewrite greater_app, equal_app. unfold greater at 3, equal at 3.
  assert (Hny : fis_nan y.2 = false) by (apply Hn; set_solver).
  rewrite !filter_none; [cbn; split; lia|..]; intros z Hz; pose proof (Hlt y z Hy Hz) as H.
  - rewrite feqb_fltb by (apply Hn || done; set_solver). by rewrite H.
  - by apply fltb_asym.
Qed.

Lemma merge_ranking_spec {SL : Sorter} c merged ranking id :
  (∀ k s, ranking !! k = Some s → fis_nan s = false) →
  merge_ranking c merged ranking !! id =
  match credit c ranking id with
  | Some x => Some (fadd (default float_zero (merged !! id)) x)
  | None => merged !! id
  end.
Proof.
  intros Hnum. unfold merge_ranking. set (l0 := map_to_list ranking). set (l := sort_by rank_less l0).
  assert (Hperm : l ≡ₚ l0) by apply sort_by_perm.
  assert (Hn : numbers l) by (intros [k s]; rewrite Hperm; unfold l0; rewrite elem_of_map_to_list; apply Hnum).
  assert (Hd : descending l) by (apply sorted_descending; intros y; rewrite <- Hperm; apply Hn).
  destruct (cap_cut c l Hn Hd) as [dropped Hcut]. set (kept := cap_items c l) in *.
  pose proof Hcut as (El & Hin & _ & Hout).
  assert (Hnk : numbers kept) by (intros y Hy; apply Hn; rewrite El; set_solver).
  assert (Hdk : descending kept) by (revert Hd; rewrite El; clear; apply StronglySorted_app_1_l).
  assert (Hnd : NoDup l.*1) by (rewrite Hperm; apply NoDup_fst_map_to_list).
  assert (Hndk : NoDup kept.*1) by (rewrite El, fmap_app in Hnd; by apply NoDup_app in Hnd as [? _]).
  rewrite credits_spec by done. rewrite add_credits by (by rewrite <- list_fmap_compose).
  assert (Hmem : ∀ s, ranking !! id = Some s ↔ (id, s) ∈ kept ++ dropped) by (intros s; by rewrite <- El, Hperm; unfold l0; rewrite elem_of_map_to_list).
  unfold credit. destruct (ranking !! id) as [s|] eqn:Er; cbn [mbind option_bind].
  - change (map_to_list ranking) with l0. assert (greater l0 s = greater l s ∧ equal l0 s = equal l s) as [-> ->] by (split; by rewrite Hperm).
    destruct (proj1 (elem_of_app _ _ _) (proj1 (Hmem s) eq_refl)) as [Hk|Hk].
    + rewrite (find_credit _ _ _ s) by done. destruct (cut_counts c l kept dropped (id, s) Hn Hcut Hk) as [G E]. cbn [snd] in G, E.
      unfold credit_at. cbn [fst snd]. rewrite G, E, Nat.add_0_l.
      destruct (Hin _ Hk) as [H|H]; cbn [snd] in H; [rewrite (proj2 (Z.leb_le _ _) H)|rewrite (proj2 (Z.ltb_lt _ _) H), orb_true_r]; done.
    + destruct (Hout _ Hk) as [H1 H2]. cbn [snd] in H2. rewrite (proj2 (Z.leb_gt _ _) H1), (proj2 (Z.ltb_ge _ _) H2). cbn.
      rewrite find_credit_none; [done|]. intros Hi. rewrite El, fmap_app in Hnd. apply NoDup_app in Hnd as (_ & Hx & _).
      apply (Hx _ Hi). apply list_elem_of_fmap. by exists (id, s).
  - rewrite find_credit_none; [done|]. intros ([id' s] & -> & Hi)%list_elem_of_fmap.
    assert (None = Some s) as [=]. apply Hmem. cbn. set_solver.
Qed.

(** Fusing rankings gives every item the sum, in the order of the rankings,
    of one credit per ranking that keeps it: the reciprocal of 60 plus the mean of
    the positions of the items tied with it, which only counts how many score
    more and how many the same.  A ranking keeps an item exactly if fewer than the cap
    score more.  So neither the order in which a map is visited nor the order of
    equal scores matters. *)
Theorem fusion_exact {SL : Sorter} maxPerSource rankings id :
  (∀ r k s, r ∈ rankings → r !! k = Some s → fis_nan s = false) →
  RRFMergeCapped maxPerSource rankings !! id = fused maxPerSource rankings id.
Proof.
  intros Hn. unfold RRFMergeCapped, fused.
  assert (H : ∀ merged, fold_left (merge_ranking maxPerSource) rankings merged !! id =
    match omap (λ r, credit maxPerSource r id) rankings with
    | [] => merged !! id
    | cs => Some (fold_left fadd cs (default float_zero (merged !! id)))
    end).
  { induction rankings as [|r rs IH]; intros merged; cbn; [done|].
    rewrite IH by (intros; eapply Hn; [by right|done]). rewrite merge_ranking_spec by (intros ??; apply Hn; by left).
    destruct (credit maxPerSource r id) as [x|]; [|done]. by destruct (omap _ rs). }
  rewrite H. by rewrite lookup_empty.
Qed.

(** ** Examples *)

Definition ex_flat : gmap string float64 := list_to_map [("a", f1); ("b", f1); ("c", f_half)].
Definition ex_sharp : gmap string float64 := list_to_map [("b", f1); ("a", f_half)].
Lemma numbers_check (r : gmap string float64) :
  forallb (λ kv, negb (fis_nan kv.2)) (map_to_list r) = true → ∀ k s, r !! k = Some s → fis_nan s = false.
Proof.
  intros H k s Hk. rewrite forallb_forall in H. specialize (H (k, s)). rewrite negb_true_iff in H. apply H.
  by rewrite <- list_elem_of_In, elem_of_map_to_list.
Qed.
(** With a cap of one, both items tied at the top are kept and get one credit;
    the sharper ranking decides between them. *)
Lemma fusion_exact_witness :
  RRFMergeCapped 1 [ex_flat; ex_sharp] !! "a" = Some (fadd float_zero (rrf_score 0 1)) ∧
  RRFMergeCapped 1 [ex_flat; ex_sharp] !! "c" = None.
Proof.
  assert (Hn : ∀ r k s, r ∈ [ex_flat; ex_sharp] → r !! k = Some s → fis_nan s = false).
  { intros r k s Hr. assert (r = ex_flat ∨ r = ex_sharp) as [-> | ->] by (apply elem_of_cons in Hr as [?|?%list_elem_of_singleton]; auto);
      apply numbers_check; vm_compute; reflexivity. }
  split; rewrite fusion_exact by exact Hn; vm_compute; reflexivity.
Defined.

Definition ascii_only (r : Z) : bool := false.
(** Short words and common ones do not count; other words are counted by their
    lower case. *)
Example tokens_counted :
  Tokenize ascii_only "The Cache of a cache-KEY, x" = list_to_map [("cache", 2); ("key", 1)].
Proof. vm_compute. reflexivity. Qed.
(** Without letters beyond ASCII a word is cut at them; a text of one character
    per word has no words. *)
Example tokens_cut : Tokenize ascii_only "a b c" = ∅.
Proof. vm_compute. reflexivity. Qed.
Definition ex_docs : gmap string string := list_to_map [("d1", "retry the failed step"); ("d2", "cache key cache")].
(** BM25 scores only the documents that have a word of the query. *)
Example bm25_scores :
  let c := NewBM25Corpus ascii_only (fdiv (float_of_int 6) (float_of_int 5)) (fdiv (float_of_int 3) (float_of_int 4)) ex_docs in
  elements (dom (Score ascii_only (λ _, f1) c "cache step?" (λ _, ["cache"; "step"]))) ≡ₚ ["d1"; "d2"] ∧
  elements (dom (Score ascii_only (λ _, f1) c "Cache" (λ _, ["cache"]))) = ["d2"].
Proof. split; [apply (bool_decide_unpack _); vm_compute; exact I|vm_compute; reflexivity]. Qed.
