(* ===== verification/Archive.v ===== *)
(** * The context archive (core/context_archive.go, core/redact)

    Memories of a task: appended to a file, one JSON text per line, and kept in
    memory.  A search filters them by scope, time and status, ranks them by words
    and vectors ([Search]), fuses the rankings, weighs by age, and redacts what
    other tasks own; a forest search takes a spanning forest of the hits
    ([Forest]).

    An instant is in nanoseconds since Go's zero time.  JSON is the class
    [ItemCodec]; what the operating system does to a call, the exponential, the
    embedding service and Go's map orders are arguments. *)
From Stdlib Require Import Ascii SpecFloat.
From S2P Require Import Prelude Cron FailureClass Regex Sanitizer SliceSort Forest Search.
Local Open Scope Z_scope.

(** ** Scrubbing *)

(** core/redact: three of the patterns of [Sanitizer]. *)
Definition redactRegexes : list re :=
  [ seqs [LitI "sk-"; AtLeastI 20 alnum];
    seqs [LitI "AIza"; Times 35 (ChrI word_dash)];
    seqs [alts (LitI "api_key") [LitI "apikey"; LitI "password"; LitI "secret"; LitI "token"; LitI "credential"];
          quote_opt; Many re_space; Chr (one_of ":="); Many re_space; quote_opt; AtLeastI 8 key_char; quote_opt] ].
Definition ScrubSecrets (text : string) : string :=
  of_bytes (fold_left (λ s r, (ReplaceAllStringFunc r (λ st _, (st, bytes "[REDACTED]")) tt s).2) redactRegexes (bytes text)).

(** ** Memories *)

Definition ScopeTask : string := "task".
Definition ScopeProject : string := "project".
Definition ScopeTeam : string := "team".
Definition ScopeGlobal : string := "global".

#[export] Instance float_eq_dec : EqDecision spec_float.
Proof. solve_decision. Defined.
Module MemoryItem.
Record t := mk {
  TaskID : string; ProjectID : string; NodeID : string; ParentID : string;
  Intent : string; Goal : string; Summary : string;
  StepIDs : list string; SourceKeys : list string;
  Embedding : list float64; EmbeddingModel : string;
  Timestamp : Z; TTL : option Z; Checksum : string;
  CausalLinks : list string; EntityLinks : list string;
  Status : string; SupersededBy : string; Scope : string }.
#[global] Instance eta : Eta t := λ i,
  mk (TaskID i) (ProjectID i) (NodeID i) (ParentID i) (Intent i) (Goal i) (Summary i) (StepIDs i) (SourceKeys i)
    (Embedding i) (EmbeddingModel i) (Timestamp i) (TTL i) (Checksum i) (CausalLinks i) (EntityLinks i)
    (Status i) (SupersededBy i) (Scope i).
#[global] Instance eq_dec : EqDecision t.
Proof. solve_decision. Defined.
End MemoryItem.

Definition IsZero (t : Z) : bool := t =? 0.
Definition maxInMemoryItems : Z := 10000.
Definition defaultRRFMaxPerSource : Z := 50.

Section decay.
Context (math_Exp : float64 → float64).
(** [Duration.Hours]; [time.Sub] saturates. *)
Definition ns_per_hour : Z := 60 * Minute.
Definition Hours (d : Z) : float64 :=
  fadd (float_of_int (Z.quot d ns_per_hour)) (fdiv (float_of_int (Z.rem d ns_per_hour)) (float_of_int ns_per_hour)).
Definition time_Sub (t u : Z) : Z := Z.min int64_max (Z.max int64_min (t - u)).
Definition decayHalfLife : Z := 90 * 24 * ns_per_hour.
Definition computeDecayWeight (timestamp now : Z) : float64 :=
  if IsZero timestamp || (now <? timestamp) then f1
  else math_Exp (fdiv (SFopp (Hours (time_Sub now timestamp))) (Hours decayHalfLife)).
End decay.

(** ** Filters *)

Module QueryOptions.
Record t := mk { CreatedAfter : Z; CreatedBefore : Z }.
End QueryOptions.
Definition in_window (opts : QueryOptions.t) (item : MemoryItem.t) : bool :=
  let ts := MemoryItem.Timestamp item in
  negb (negb (IsZero (QueryOptions.CreatedAfter opts)) && (ts <? QueryOptions.CreatedAfter opts)) &&
  negb (negb (IsZero (QueryOptions.CreatedBefore opts)) && (QueryOptions.CreatedBefore opts <? ts)).
Definition filterByTimeRange (items : list MemoryItem.t) (opts : QueryOptions.t) : list MemoryItem.t :=
  if IsZero (QueryOptions.CreatedAfter opts) && IsZero (QueryOptions.CreatedBefore opts) then items
  else List.filter (in_window opts) items.
Definition is_active (item : MemoryItem.t) : bool :=
  negb (String.eqb (MemoryItem.Status item) "superseded") && negb (String.eqb (MemoryItem.Status item) "stale").
Definition filterActiveItems (items : list MemoryItem.t) : list MemoryItem.t := List.filter is_active items.
Definition in_scope (taskScope projectScope : string) (it : MemoryItem.t) : bool :=
  if String.eqb (MemoryItem.Scope it) ScopeTeam || String.eqb (MemoryItem.Scope it) ScopeGlobal then true
  else if String.eqb (MemoryItem.Scope it) ScopeProject && negb (String.eqb projectScope "") && String.eqb (MemoryItem.ProjectID it) projectScope then true
  else String.eqb (MemoryItem.TaskID it) taskScope.
Definition filterItemsByScope (items : list MemoryItem.t) (taskScope projectScope : string) : list MemoryItem.t :=
  List.filter (in_scope taskScope projectScope) items.

Definition Sanitize (currentTaskID : string) (it : MemoryItem.t) : MemoryItem.t :=
  if negb (String.eqb (MemoryItem.TaskID it) currentTaskID) then
    it <| MemoryItem.SourceKeys := [] |> <| MemoryItem.StepIDs := [] |> <| MemoryItem.Checksum := "[HIDDEN]" |>
       <| MemoryItem.Summary ::= ScrubSecrets |> <| MemoryItem.Intent ::= ScrubSecrets |> <| MemoryItem.Goal ::= ScrubSecrets |>
  else it.

(** ** The archive and its file *)

Module ContextArchive.
Record t := mk {
  items : list MemoryItem.t; index : option BM25Corpus.t; lastOffset : Z; indexDirty : bool; ttlPruned : Z }.
#[global] Instance eta : Eta t := λ a, mk (items a) (index a) (lastOffset a) (indexDirty a) (ttlPruned a).
End ContextArchive.
Definition NewContextArchive : ContextArchive.t := ContextArchive.mk [] None 0 false 0.
(** The file's contents, [None] when there is no file. *)
Abbreviation archive_file := (option string).

(** [json.Marshal] of an item; the items a decoder reads up to the first that is
    malformed, and how far into the file it has read by then. *)
Class ItemCodec := {
  MarshalItem : MemoryItem.t → option string;
  DecodeItems : string → list MemoryItem.t * Z }.
(** What a call that writes does: it cannot open the file, writes only some
    bytes, or writes all. *)
Inductive write_io := WOpenFails | WShort (n : nat) | WAll.
Inductive archive_error := EMarshal | EOpen | EWrite | EStat | ENoScope.

Section archive.
Context {JC : ItemCodec}.
Implicit Types (a : ContextArchive.t) (file : archive_file).

Definition newline : string := String (ascii_of_nat 10) "".
Definition content (file : archive_file) : string := default "" file.
Definition file_size (file : archive_file) : Z := Z.of_nat (String.length (content file)).
Definition string_take (n : nat) (s : string) : string := of_bytes (take n (bytes s)).
Definition string_drop (n : nat) (s : string) : string := of_bytes (drop n (bytes s)).
Definition newest (items : list MemoryItem.t) : list MemoryItem.t :=
  drop (Z.to_nat (Z.of_nat (length items) - maxInMemoryItems)) items.

(** [stat_ok]: the size can be read after the write. *)
Definition archive_Append (now : Z) (io : write_io) (stat_ok : bool) (item : MemoryItem.t) a file :
    ContextArchive.t * archive_file * result archive_error unit :=
  let item := if IsZero (MemoryItem.Timestamp item) then item <| MemoryItem.Timestamp := now |> else item in
  match MarshalItem item with
  | None => (a, file, Err EMarshal)
  | Some data =>
      let a := a <| ContextArchive.items ::= λ items, newest (items ++ [item]) |> <| ContextArchive.indexDirty := true |> in
      let line := data +:+ newline in
      match io with
      | WOpenFails => (a, file, Err EOpen)
      | WShort n => (a, Some (content file +:+ string_take n line), Err EWrite)
      | WAll =>
          let file := Some (content file +:+ line) in
          ((if stat_ok then a <| ContextArchive.lastOffset := file_size file |> else a), file, Ok tt)
      end
  end.

Fixpoint marshal_all (items : list MemoryItem.t) : option string :=
  match items with
  | [] => Some ""
  | item :: items => data ← MarshalItem item; rest ← marshal_all items; Some (data +:+ newline +:+ rest)
  end.
(** [os.WriteFile] truncates the file first. *)
Definition writeFileLocked (io : write_io) a file : ContextArchive.t * archive_file * result archive_error unit :=
  match marshal_all (ContextArchive.items a) with
  | None => (a, file, Err EMarshal)
  | Some buf =>
      match io with
      | WOpenFails => (a, file, Err EOpen)
      | WShort n => (a, Some (string_take n buf), Err EWrite)
      | WAll => (a <| ContextArchive.lastOffset := Z.of_nat (String.length buf) |>, Some buf, Ok tt)
      end
  end.

(** [stat_err]: the file cannot be examined for another reason than that it does
    not exist; [open_err]: it cannot be opened, or sought in. *)
Definition Load (stat_err open_err : bool) a file : ContextArchive.t * result archive_error unit :=
  if stat_err then (a, Err EStat)
  else
    match file with
    | None => (a <| ContextArchive.lastOffset := 0 |> <| ContextArchive.items := [] |>, Ok tt)
    | Some text =>
        let a := if file_size file <? ContextArchive.lastOffset a
                 then a <| ContextArchive.lastOffset := 0 |> <| ContextArchive.items := [] |> else a in
        if file_size file =? ContextArchive.lastOffset a then (a, Ok tt)
        else if open_err then (a, Err EOpen)
        else
          let '(read, pos) := DecodeItems (string_drop (Z.to_nat (ContextArchive.lastOffset a)) text) in
          (a <| ContextArchive.items ::= λ items, newest (items ++ read) |>
             <| ContextArchive.indexDirty ::= λ d, d || negb (bool_decide (read = [])) |>
             <| ContextArchive.lastOffset ::= λ o, o + pos |>, Ok tt)
    end.

Definition GetByNodeIDs (nodeIDs : list string) a : list MemoryItem.t :=
  List.filter (λ it, bool_decide (MemoryItem.NodeID it ∈ nodeIDs)) (ContextArchive.items a).

Definition AddItemEdge (fromNodeID toNodeID edgeType : string) a : ContextArchive.t :=
  a <| ContextArchive.items ::=
    (fix go (items : list MemoryItem.t) :=
       match items with
       | [] => []
       | it :: items =>
           if String.eqb (MemoryItem.NodeID it) fromNodeID then
             (if String.eqb edgeType "causal" then it <| MemoryItem.CausalLinks ::= λ l, l ++ [toNodeID] |>
              else if String.eqb edgeType "entity" then it <| MemoryItem.EntityLinks ::= λ l, l ++ [toNodeID] |>
              else it) :: items
           else it :: go items
       end) |>.

Definition expandWithLinkedItems (items : list MemoryItem.t) a : list MemoryItem.t :=
  let linkedIDs := items ≫= λ it, MemoryItem.CausalLinks it ++ MemoryItem.EntityLinks it in
  items ++
  (fix go (seen : gset string) (ids : list string) :=
     match ids with
     | [] => []
     | id :: ids =>
         if decide (id ∈ seen) then go seen ids
         else match List.find (λ it, String.eqb (MemoryItem.NodeID it) id) (ContextArchive.items a) with
              | Some it => it :: go ({[id]} ∪ seen) ids
              | None => go seen ids
              end
     end) (list_to_set (MemoryItem.NodeID <$> items)) linkedIDs.

(** ** Removing and marking *)

Definition PruneExpired (now : Z) (io : write_io) a file :
    ContextArchive.t * archive_file * (Z * result archive_error unit) :=
  let keep := List.filter (λ it, match MemoryItem.TTL it with None => true | Some ttl => now <? ttl end) (ContextArchive.items a) in
  let pruned := Z.of_nat (length (ContextArchive.items a)) - Z.of_nat (length keep) in
  if pruned =? 0 then (a, file, (0, Ok tt))
  else
    match writeFileLocked io (a <| ContextArchive.items := keep |>) file with
    | (a, file, Err e) => (a, file, (pruned, Err e))
    | (a, file, Ok _) =>
        (a <| ContextArchive.ttlPruned ::= Z.add pruned |> <| ContextArchive.indexDirty := true |>, file, (pruned, Ok tt))
    end.

(** [ArchiveScope] has the one field [TaskID]. *)
Definition matchesScope (scope : string) (item : MemoryItem.t) : bool :=
  negb (String.eqb scope "") && String.eqb (MemoryItem.TaskID item) scope.
Definition DeleteByScope (scope : string) (io : write_io) a file :
    ContextArchive.t * archive_file * (Z * result archive_error unit) :=
  if String.eqb scope "" then (a, file, (0, Err ENoScope))
  else
    let deleted := Z.of_nat (length (List.filter (matchesScope scope) (ContextArchive.items a))) in
    if deleted =? 0 then (a, file, (0, Ok tt))
    else
      match writeFileLocked io (a <| ContextArchive.items ::= List.filter (λ it, negb (matchesScope scope it)) |>) file with
      | (a, file, Err e) => (a, file, (deleted, Err e))
      | (a, file, Ok _) => (a <| ContextArchive.indexDirty := true |>, file, (deleted, Ok tt))
      end.

Definition to_mark (taskID : string) (stepIDs : list string) (it : MemoryItem.t) : bool :=
  String.eqb (MemoryItem.TaskID it) taskID && existsb (λ sid, bool_decide (sid ∈ stepIDs)) (MemoryItem.StepIDs it) &&
  negb (String.eqb (MemoryItem.Status it) "stale").
(** An error of the write is only logged. *)
Definition MarkStaleByStep (taskID : string) (stepIDs : list string) (io : write_io) a file :
    ContextArchive.t * archive_file * Z :=
  if String.eqb taskID "" || bool_decide (stepIDs = []) then (a, file, 0)
  else
    let marked := Z.of_nat (length (List.filter (to_mark taskID stepIDs) (ContextArchive.items a))) in
    let a := a <| ContextArchive.items ::= fmap (λ it, if to_mark taskID stepIDs it then it <| MemoryItem.Status := "stale" |> else it) |> in
    if 0 <? marked then
      let '(a, file, _) := writeFileLocked io a file in (a <| ContextArchive.indexDirty := true |>, file, marked)
    else (a, file, marked).
End archive.

(** ** Search *)

(** What a search takes from outside: the Unicode tables, the mathematical
    functions, the embedding service (an error is [None]), and the order in which
    the words of the query are visited for each document. *)
Record SearchEnv := mkSearchEnv {
  unicode_word : Z → bool; math_Log : float64 → float64; math_Exp : float64 → float64;
  Embed : option (string → option (list float64)); query_order : string → list string;
  stat_err : bool; open_err : bool }.

Section search.
Context {SL : Sorter} {JC : ItemCodec} (env : SearchEnv).
Implicit Types (a : ContextArchive.t) (file : archive_file).

Definition memory_text (it : MemoryItem.t) : string :=
  join " " ([MemoryItem.Intent it; MemoryItem.Goal it; MemoryItem.Summary it] ++ MemoryItem.SourceKeys it).
Definition by_node {V} (f : MemoryItem.t → V) (items : list MemoryItem.t) : gmap string V :=
  fold_left (λ m it, <[MemoryItem.NodeID it := f it]> m) items ∅.
Definition BuildIndex a : ContextArchive.t :=
  if negb (ContextArchive.indexDirty a) && bool_decide (is_Some (ContextArchive.index a)) then a
  else a <| ContextArchive.index := Some (NewBM25Corpus (unicode_word env) (fdiv (float_of_int 12) (float_of_int 10))
                                            (fdiv (float_of_int 3) (float_of_int 4)) (by_node memory_text (ContextArchive.items a))) |>
         <| ContextArchive.indexDirty := false |>.

Definition visible_items (taskScope projectScope : string) (opts : QueryOptions.t) (items : list MemoryItem.t) : list MemoryItem.t :=
  filterActiveItems (filterByTimeRange (if String.eqb taskScope "" then items else filterItemsByScope items taskScope projectScope) opts).
(** [embeds]: every item sets its entry, unless it has no vector. *)
Definition embeds (items : list MemoryItem.t) : gmap string (list float64) :=
  fold_left (λ m it, match MemoryItem.Embedding it with [] => m | v => <[MemoryItem.NodeID it := v]> m end) items ∅.
Definition dense_rank (query : string) (items : list MemoryItem.t) : gmap string float64 :=
  match Embed env with
  | Some embed =>
      if bool_decide (embeds items = ∅) then ∅
      else match embed query with Some qVec => CosineRank qVec (embeds items) | None => ∅ end
  | None => ∅
  end.
Definition weigh (now : Z) (itemMap : gmap string MemoryItem.t) (id : string) (score : float64) : float64 :=
  fmul score (match itemMap !! id with
              | Some it => computeDecayWeight (math_Exp env) (MemoryItem.Timestamp it) now
              | None => f1
              end).
Definition ranked_ids (now : Z) (query : string) (index : option BM25Corpus.t) (items : list MemoryItem.t) : list (string * float64) :=
  let bm25Rank := match index with Some c => Score (unicode_word env) (math_Log env) c query (query_order env) | None => ∅ end in
  let merged := RRFMergeCapped defaultRRFMaxPerSource [bm25Rank; dense_rank query items] in
  sort_by (λ x y : string * float64, fltb y.2 x.2)
    ((λ kv, (kv.1, weigh now (by_node id items) kv.1 kv.2)) <$> map_to_list merged).

(** No result is the panic of [make] on a negative capacity. *)
Definition SearchWithOptions (now : Z) (query : string) (k : Z) (taskScope projectScope currentTaskID : string) (opts : QueryOptions.t) a file :
    ContextArchive.t * option (list MemoryItem.t) :=
  let a := BuildIndex (Load (stat_err env) (open_err env) a file).1 in
  let items := visible_items taskScope projectScope opts (ContextArchive.items a) in
  let sorted := ranked_ids now query (ContextArchive.index a) items in
  (a, if k <? 0 then None
      else Some (omap (λ kv, Sanitize currentTaskID <$> by_node id items !! kv.1) (take (Z.to_nat k) sorted))).
Definition no_options : QueryOptions.t := QueryOptions.mk 0 0.
Definition archive_Search (now : Z) (query : string) (k : Z) (taskScope projectScope currentTaskID : string) a file :=
  SearchWithOptions now query k taskScope projectScope currentTaskID no_options a file.

(** The orders of the maps of vectors and of neighbours. *)
Context (vec_order : gmap string (list float64) → list string) (neighbor_order : gmap string (list float64) → string → list string).
Definition schema_edges (items : list MemoryItem.t) : list WeightedEdge.t :=
  omap (λ it, if String.eqb (MemoryItem.ParentID it) "" then None
              else Some (WeightedEdge.mk (MemoryItem.ParentID it) (MemoryItem.NodeID it) f1 "schema")) items.
Definition SearchForestWithOptions (now : Z) (query : string) (k : Z) (redundancyThreshold : float64)
    (taskScope projectScope currentTaskID : string) (opts : QueryOptions.t) a file :
    ContextArchive.t * option (list MemoryItem.t * list WeightedEdge.t) :=
  if String.eqb query "" then (a, Some ([], []))
  else
    match SearchWithOptions now query (wrap64 (k * 3)) taskScope projectScope currentTaskID opts a file with
    | (a, None) => (a, None)
    | (a, Some []) => (a, Some ([], []))
    | (a, Some rrf) =>
        let rrf := expandWithLinkedItems rrf a in
        let embeddings := embeds rrf in
        (a, match MaxWeightForest (MemoryItem.NodeID <$> rrf) (schema_edges rrf)
                    (BuildSemanticEdges embeddings (vec_order embeddings) (neighbor_order embeddings) 8) redundancyThreshold k with
            | Some (selectedIDs, forestEdges) => Some (omap (λ i, by_node id rrf !! i) selectedIDs, forestEdges)
            | None => None
            end)
    end.

Definition newest_first (x y : MemoryItem.t) : bool := MemoryItem.Timestamp y <? MemoryItem.Timestamp x.
Definition SearchRecentStepSummaries (taskID projectScope : string) (n : Z) a file : ContextArchive.t * list MemoryItem.t :=
  if String.eqb taskID "" || (n <=? 0) then (a, [])
  else
    let a := (Load (stat_err env) (open_err env) a file).1 in
    let items := filterItemsByScope (ContextArchive.items a) taskID projectScope in
    (a, take (Z.to_nat n) (sort_by newest_first (List.filter (λ it, negb (String.eqb (MemoryItem.Summary it) "")) items))).
Definition SearchAllStepSummaries (now : Z) (taskID projectScope query : string) (n : Z) a file : ContextArchive.t * option (list MemoryItem.t) :=
  if String.eqb taskID "" || (n <=? 0) then (a, Some [])
  else archive_Search now query n taskID projectScope taskID a file.
Definition SearchSegments (taskScope projectScope : string) (n : Z) a file : ContextArchive.t * list MemoryItem.t :=
  if String.eqb taskScope "" || (n <=? 0) then (a, [])
  else
    let a := (Load (stat_err env) (open_err env) a file).1 in
    (a, take (Z.to_nat n) (sort_by newest_first (filterItemsByScope (ContextArchive.items a) taskScope projectScope))).
End search.

(** * What a search returns *)

Section search_results.
Context {SL : Sorter} {JC : ItemCodec} (env : SearchEnv).
Implicit Types (a : ContextArchive.t) (file : archive_file).

Lemma by_node_elem {V} (f : MemoryItem.t → V) items id v :
  by_node f items !! id = Some v → ∃ it, it ∈ items ∧ MemoryItem.NodeID it = id ∧ f it = v.
Proof.
  unfold by_node. assert (H : ∀ (m : gmap string V), (fold_left (λ m it, <[MemoryItem.NodeID it := f it]> m) items m) !! id = Some v →
    (∃ it, it ∈ items ∧ MemoryItem.NodeID it = id ∧ f it = v) ∨ m !! id = Some v).
  { induction items as [|it items IH]; intros m; cbn; [by right|]. intros [(x & ? & ? & ?)|H]%IH.
    - left. exists x. split; [by right|done].
    - apply (lookup_insert_Some (M := gmap string)) in H as [[? <-]|[_ H]]; [left; exists it; split; [by left|done]|by right]. }
  intros [?|E]%H; [done|]. by apply (lookup_empty_Some (M := gmap string)) in E.
Qed.
Lemma omap_length {A B} (f : A → option B) l : (length (omap f l) ≤ length l)%nat.
Proof. induction l as [|x l IH]; cbn; [lia|]. destruct (f x); cbn; lia. Qed.
Lemma window_elem items opts it : it ∈ filterByTimeRange items opts ↔ it ∈ items ∧ in_window opts it = true.
Proof.
  unfold filterByTimeRange. destruct (_ && _) eqn:E; [|rewrite elem_of_filter_list; tauto].
  apply andb_true_iff in E as [E1 E2]. unfold in_window. rewrite E1, E2. cbn. tauto.
Qed.
Lemma visible_elem taskScope projectScope opts items it :
  it ∈ visible_items taskScope projectScope opts items →
  it ∈ items ∧ (taskScope = "" ∨ in_scope taskScope projectScope it = true) ∧ in_window opts it = true ∧ is_active it = true.
Proof.
  unfold visible_items, filterActiveItems. rewrite elem_of_filter_list, window_elem. intros (Hact & Hin & Hw).
  destruct (String.eqb_spec taskScope "") as [->|Hne]; [auto|].
  unfold filterItemsByScope in Hin. apply elem_of_filter_list in Hin. tauto.
Qed.

(** What a task may see of an item of another task. *)
Definition redacted (it : MemoryItem.t) : Prop :=
  MemoryItem.SourceKeys it = [] ∧ MemoryItem.StepIDs it = [] ∧ MemoryItem.Checksum it = "[HIDDEN]" ∧
  (∃ t, MemoryItem.Summary it = ScrubSecrets t) ∧ (∃ t, MemoryItem.Intent it = ScrubSecrets t) ∧ (∃ t, MemoryItem.Goal it = ScrubSecrets t).

(** A scoped search with a count that is not negative returns at most that
    many results, and every one is an item of the archive that belongs to the task,
    to its project, or to everyone, lies within the time window and is not superseded or
    stale; an item of another task comes without its sources, steps and checksum
    and with its texts scrubbed.  This holds whatever the file, the embedding
    service and the rankings are. *)
Theorem search_scoped now query k taskScope projectScope currentTaskID opts a file :
  taskScope ≠ "" → 0 ≤ k →
  ∃ results, (SearchWithOptions env now query k taskScope projectScope currentTaskID opts a file).2 = Some results ∧
    Z.of_nat (length results) ≤ k ∧
    ∀ r, r ∈ results → ∃ it,
      it ∈ ContextArchive.items (SearchWithOptions env now query k taskScope projectScope currentTaskID opts a file).1 ∧
      r = Sanitize currentTaskID it ∧ in_scope taskScope projectScope it = true ∧ in_window opts it = true ∧ is_active it = true ∧
      (MemoryItem.TaskID it ≠ currentTaskID → redacted r).
Proof.
  intros Hts Hk. unfold SearchWithOptions. cbn [fst snd]. rewrite (proj2 (Z.ltb_ge _ _) Hk).
  set (a' := BuildIndex env _). set (items := visible_items _ _ _ _). eexists. split; [done|]. split.
  - etrans; [apply inj_le, omap_length|]. rewrite length_take. lia.
  - intros r (kv & _ & (it & (x & Hx & _ & <-)%by_node_elem & ->)%fmap_Some)%list_elem_of_omap. cbn [id].
    apply visible_elem in Hx as (Hin & [?|Hs] & Hw & Hact); [done|]. exists x. split_and!; [done..|].
    intros Hne. unfold Sanitize. apply String.eqb_neq in Hne. rewrite Hne. cbn [negb]. unfold redacted. cbn. eauto 10.
Qed.
End search_results.

(** * The archive and its file *)

(** What JSON lines do for the items an archive holds: what was written line by
    line is read back whole, and whether an item can be written does not depend on
    its status. *)
Class ItemCodecOk (JC : ItemCodec) : Prop := {
  decode_lines : ∀ items text, marshal_all items = Some text → DecodeItems text = (items, Z.of_nat (String.length text));
  marshal_status : ∀ it s, is_Some (MarshalItem it) → is_Some (MarshalItem (it <| MemoryItem.Status := s |>)) }.

Inductive archive_op :=
| AOAppend (now : Z) (item : MemoryItem.t)
| AOLoad
| AOPrune (now : Z)
| AODelete (scope : string)
| AOMark (taskID : string) (stepIDs : list string).

Section archive_file.
Context {JC : ItemCodec}.
Implicit Types (a : ContextArchive.t) (file : archive_file).

(** An operation of which every call of the system succeeds. *)
Definition do_archive (st : ContextArchive.t * archive_file) (o : archive_op) : ContextArchive.t * archive_file :=
  let '(a, file) := st in
  match o with
  | AOAppend now item => (archive_Append now WAll true item a file).1
  | AOLoad => ((Load false false a file).1, file)
  | AOPrune now => (PruneExpired now WAll a file).1
  | AODelete scope => (DeleteByScope scope WAll a file).1
  | AOMark taskID stepIDs => (MarkStaleByStep taskID stepIDs WAll a file).1
  end.

(** The file has the lines of the items in memory, and all of it was read. *)
Definition synced a file : Prop :=
  match file with
  | None => ContextArchive.items a = [] ∧ ContextArchive.lastOffset a = 0
  | Some text => marshal_all (ContextArchive.items a) = Some text ∧ ContextArchive.lastOffset a = Z.of_nat (String.length text)
  end.

Lemma marshal_all_app l l' : marshal_all (l ++ l') = s ← marshal_all l; s' ← marshal_all l'; Some (s +:+ s').
Proof.
  induction l as [|it l IH]; cbn [app marshal_all]; [by destruct (marshal_all l')|]. rewrite IH.
  destruct (MarshalItem it) as [d|]; cbn; [|done]. destruct (marshal_all l) as [s|]; cbn; [|done].
  destruct (marshal_all l') as [s'|]; cbn; [|done]. f_equal. apply bytes_inj. rewrite !bytes_app. by rewrite <- !app_assoc.
Qed.
Lemma marshal_all_some l : is_Some (marshal_all l) ↔ Forall (λ it, is_Some (MarshalItem it)) l.
Proof.
  induction l as [|it l IH]; cbn [marshal_all]; [split; [by constructor|by eexists]|]. rewrite Forall_cons, <- IH.
  destruct (MarshalItem it) as [d|]; cbn; [|split; [by intros [? ?]|by intros [[? ?] _]]].
  destruct (marshal_all l) as [s|]; cbn; [split; eauto|split; [by intros [? ?]|by intros [_ [? ?]]]].
Qed.
Lemma length_newline s t : String.length (s +:+ newline +:+ t) = S (String.length s + String.length t).
Proof. rewrite <- !length_bytes, !bytes_app, !length_app. cbn. lia. Qed.
Lemma marshal_all_empty l : marshal_all l = Some "" → l = [].
Proof.
  destruct l as [|it l]; cbn [marshal_all]; [done|]. destruct (MarshalItem it) as [d|]; cbn; [|done].
  destruct (marshal_all l) as [s|]; cbn; [|done]. intros [= E]. apply (f_equal String.length) in E. by rewrite length_newline in E.
Qed.
Lemma newest_all l : Z.of_nat (length l) ≤ maxInMemoryItems → newest l = l.
Proof. intros H. unfold newest. replace (Z.to_nat _) with 0%nat by lia. done. Qed.

Lemma synced_marshals a file : synced a file → Forall (λ it, is_Some (MarshalItem it)) (ContextArchive.items a).
Proof. destruct file as [text|]; intros [H _]; [apply marshal_all_some; by eexists|rewrite H; constructor]. Qed.
(** Rewriting the file brings it in step, whatever it was before. *)
Lemma write_synced a file : Forall (λ it, is_Some (MarshalItem it)) (ContextArchive.items a) →
  let '(a', file', r) := writeFileLocked WAll a file in synced a' file' ∧ ContextArchive.items a' = ContextArchive.items a ∧ r = Ok tt.
Proof. intros [text H]%marshal_all_some. unfold writeFileLocked. rewrite H. done. Qed.
Lemma synced_same a a' file : ContextArchive.items a' = ContextArchive.items a → ContextArchive.lastOffset a' = ContextArchive.lastOffset a →
  synced a file → synced a' file.
Proof. unfold synced. by intros -> ->. Qed.
Lemma filter_marshals (f : MemoryItem.t → bool) l :
  Forall (λ it, is_Some (MarshalItem it)) l → Forall (λ it, is_Some (MarshalItem it)) (List.filter f l).
Proof. rewrite !Forall_forall. intros H it [_ Hit]%elem_of_filter_list. auto. Qed.
Lemma filter_length {A} (f : A → bool) l : (length (List.filter f l) ≤ length l)%nat.
Proof. induction l as [|x l IH]; cbn; [lia|]. destruct (f x); cbn; lia. Qed.

Lemma append_synced now item a file : Z.of_nat (length (ContextArchive.items a)) < maxInMemoryItems → synced a file →
  synced (archive_Append now WAll true item a file).1.1 (archive_Append now WAll true item a file).1.2 ∧
  (length (ContextArchive.items (archive_Append now WAll true item a file).1.1) ≤ S (length (ContextArchive.items a)))%nat.
Proof.
  intros Hl Hs. unfold archive_Append. set (it := if IsZero _ then _ else item).
  destruct (MarshalItem it) as [data|] eqn:Ed; cbn [fst snd]; [|auto].
  assert (Hn : newest (ContextArchive.items a ++ [it]) = ContextArchive.items a ++ [it]) by (apply newest_all; rewrite length_app; cbn; lia).
  split; [|change (length (newest (ContextArchive.items a ++ [it])) ≤ S (length (ContextArchive.items a)))%nat; rewrite Hn, length_app; cbn; lia].
  change (marshal_all (newest (ContextArchive.items a ++ [it])) = Some (content file +:+ data +:+ newline) ∧
          file_size (Some (content file +:+ data +:+ newline)) = Z.of_nat (String.length (content file +:+ data +:+ newline))).
  split; [|done]. rewrite Hn, marshal_all_app. cbn [marshal_all]. rewrite Ed. cbn.
  assert (marshal_all (ContextArchive.items a) = Some (content file)) as -> by (destruct file as [text|]; destruct Hs as [-> _]; done).
  cbn. by f_equal.
Qed.
Lemma load_synced a file : synced a file → synced (Load false false a file).1 file ∧ ContextArchive.items (Load false false a file).1 = ContextArchive.items a.
Proof.
  unfold Load. destruct file as [text|]; intros [H1 H2]; cbn [fst].
  - unfold file_size. cbn [content default from_option id]. rewrite H2, Z.ltb_irrefl, H2, Z.eqb_refl. done.
  - cbn. done.
Qed.
Lemma prune_synced now a file : synced a file →
  synced (PruneExpired now WAll a file).1.1 (PruneExpired now WAll a file).1.2 ∧
  (length (ContextArchive.items (PruneExpired now WAll a file).1.1) ≤ length (ContextArchive.items a))%nat.
Proof.
  intros Hs. unfold PruneExpired. set (keep := List.filter _ _). destruct (_ =? 0); [by cbn|].
  pose proof (write_synced (a <| ContextArchive.items := keep |>) file) as Hw.
  destruct (writeFileLocked WAll _ file) as [[a' file'] r].
  destruct Hw as (Hs' & Hi & ->); [by apply filter_marshals, (synced_marshals a file)|]. cbn [fst snd].
  split; [by apply (synced_same a')|]. change (length (ContextArchive.items a') ≤ length (ContextArchive.items a))%nat. rewrite Hi. apply filter_length.
Qed.
Lemma delete_synced scope a file : synced a file →
  synced (DeleteByScope scope WAll a file).1.1 (DeleteByScope scope WAll a file).1.2 ∧
  (length (ContextArchive.items (DeleteByScope scope WAll a file).1.1) ≤ length (ContextArchive.items a))%nat.
Proof.
  intros Hs. unfold DeleteByScope. destruct (String.eqb scope ""); [by cbn|]. destruct (_ =? 0); [by cbn|].
  set (a1 := a <| ContextArchive.items ::= _ |>). pose proof (write_synced a1 file) as Hw.
  destruct (writeFileLocked WAll a1 file) as [[a' file'] r].
  destruct Hw as (Hs' & Hi & ->); [by apply filter_marshals, (synced_marshals a file)|]. cbn [fst snd].
  split; [by apply (synced_same a')|]. change (length (ContextArchive.items a') ≤ length (ContextArchive.items a))%nat. rewrite Hi. apply filter_length.
Qed.
Lemma mark_synced {HC : ItemCodecOk JC} taskID stepIDs a file : synced a file →
  synced (MarkStaleByStep taskID stepIDs WAll a file).1.1 (MarkStaleByStep taskID stepIDs WAll a file).1.2 ∧
  length (ContextArchive.items (MarkStaleByStep taskID stepIDs WAll a file).1.1) = length (ContextArchive.items a).
Proof.
  intros Hs. unfold MarkStaleByStep. destruct (_ || _); [by cbn|]. set (f := λ it : MemoryItem.t, if to_mark _ _ it then _ else it).
  set (a1 := a <| ContextArchive.items ::= _ |>). assert (Hlen : length (ContextArchive.items a1) = length (ContextArchive.items a)) by apply length_fmap.
  destruct (Z.ltb_spec 0 (Z.of_nat (length (List.filter (to_mark taskID stepIDs) (ContextArchive.items a))))) as [Hpos|Hz]; cbn [fst snd].
  - pose proof (write_synced a1 file) as Hw. destruct (writeFileLocked WAll a1 file) as [[a' file'] r].
    destruct Hw as (Hs' & Hi & ->); [|cbn [fst snd]; split; [by apply (synced_same a')|]; by rewrite <- Hlen, <- Hi].
    apply Forall_fmap. pose proof (synced_marshals a file Hs) as Hm. eapply Forall_impl; [exact Hm|]. intros it Hit. unfold f. cbn.
    destruct (to_mark _ _ it); [by apply marshal_status|done].
  - split; [|done]. apply (synced_same a); [|done|done]. change (f <$> ContextArchive.items a = ContextArchive.items a).
    rewrite <- (list_fmap_id (ContextArchive.items a)) at 2. apply list_fmap_ext. intros _ it Hit%list_elem_of_lookup_2. unfold f.
    destruct (to_mark taskID stepIDs it) eqn:E; [|done]. exfalso.
    assert (it ∈ List.filter (to_mark taskID stepIDs) (ContextArchive.items a)) as Hin by by apply elem_of_filter_list.
    destruct (List.filter _ _); [by apply not_elem_of_nil in Hin|cbn in Hz; lia].
Qed.

Lemma do_archive_synced {HC : ItemCodecOk JC} o a file : Z.of_nat (length (ContextArchive.items a)) < maxInMemoryItems → synced a file →
  synced (do_archive (a, file) o).1 (do_archive (a, file) o).2 ∧
  (length (ContextArchive.items (do_archive (a, file) o).1) ≤ S (length (ContextArchive.items a)))%nat.
Proof.
  intros Hl Hs. destruct o as [now item| |now|scope|taskID stepIDs]; cbn [do_archive].
  - by apply append_synced.
  - cbn [fst snd]. destruct (load_synced a file Hs) as [? ->]. auto.
  - destruct (prune_synced now a file Hs). auto.
  - destruct (delete_synced scope a file Hs). auto.
  - destruct (mark_synced taskID stepIDs a file Hs) as [? ->]. auto.
Qed.
Lemma run_archive_synced {HC : ItemCodecOk JC} ops : ∀ a file,
  Z.of_nat (length (ContextArchive.items a)) + Z.of_nat (length ops) ≤ maxInMemoryItems → synced a file →
  let st := fold_left do_archive ops (a, file) in
  synced st.1 st.2 ∧ Z.of_nat (length (ContextArchive.items st.1)) ≤ maxInMemoryItems.
Proof.
  induction ops as [|o ops IH]; intros a file Hb Hs; cbn [fold_left length] in *; [cbn; split; [done|lia]|].
  destruct (do_archive_synced o a file) as [Hs' Hl']; [lia|done|]. destruct (do_archive (a, file) o) as [a' file'].
  apply IH; [cbn in Hl'; lia|done].
Qed.
(** A fresh archive that reads a file of lines. *)
Lemma fresh_load {HC : ItemCodecOk JC} l text : marshal_all l = Some text → Z.of_nat (length l) ≤ maxInMemoryItems →
  let a := (Load false false NewContextArchive (Some text)).1 in ContextArchive.items a = l ∧ synced a (Some text).
Proof.
  intros Hm Hl. cbv zeta. unfold Load, file_size. cbn [content default from_option id].
  change (ContextArchive.lastOffset NewContextArchive) with 0. rewrite (proj2 (Z.ltb_ge _ _)) by lia.
  change (ContextArchive.lastOffset NewContextArchive) with 0. destruct (Z.eqb_spec (Z.of_nat (String.length text)) 0) as [E|E].
  - assert (text = "") as -> by (destruct text; [done|cbn in E; lia]). apply marshal_all_empty in Hm as ->. done.
  - assert (Hd : string_drop (Z.to_nat 0) text = text) by apply String.string_of_list_ascii_of_string.
    rewrite Hd, (decode_lines l text Hm). cbn [fst].
    assert (Hi : newest ([] ++ l) = l) by by apply newest_all.
    split; [exact Hi|]. split; [|done]. change (marshal_all (newest ([] ++ l)) = Some text). by rewrite Hi.
Qed.

(** An archive that reads its file before it is used, whose system calls
    succeed and that never holds more than its limit, loses nothing: after any
    appends, loads, prunings, deletions and markings, an archive of a new process
    reads back from the file exactly the items this one holds. *)
Theorem archive_restart {HC : ItemCodecOk JC} l text ops :
  marshal_all l = Some text → Z.of_nat (length l) + Z.of_nat (length ops) ≤ maxInMemoryItems →
  let '(a, file) := fold_left do_archive ops ((Load false false NewContextArchive (Some text)).1, Some text) in
  ContextArchive.items (Load false false NewContextArchive file).1 = ContextArchive.items a.
Proof.
  intros Hm Hb. destruct (fresh_load l text Hm) as [Hi Hs]; [lia|].
  destruct (run_archive_synced ops _ _ ltac:(rewrite Hi; exact Hb) Hs) as [Hs' Hl].
  destruct (fold_left do_archive ops _) as [a file]. cbn [fst snd] in *.
  destruct file as [text'|]; destruct Hs' as [H1 H2]; [by apply fresh_load|by rewrite H1].
Qed.
End archive_file.

(** ** A codec *)

#[export] Instance float_countable : Countable spec_float.
Proof.
  refine (inj_countable'
    (λ f, match f with S754_zero s => inl (inl s) | S754_infinity s => inl (inr s) | S754_nan => inr (inl tt) | S754_finite s m e => inr (inr (s, m, e)) end)
    (λ x : (bool + bool) + (unit + bool * positive * Z),
      match x with inl (inl s) => S754_zero s | inl (inr s) => S754_infinity s | inr (inl _) => S754_nan | inr (inr (s, m, e)) => S754_finite s m e end) _).
  by intros [].
Defined.
#[export] Instance item_countable : Countable MemoryItem.t.
Proof.
  refine (inj_countable'
    (λ i, let '(MemoryItem.mk a b c d e f g h i j k l m n o p q r s) := i in ((a, b, c, d, e, f, g, (h, i, j)), (k, l, m, n), (o, p, q, r, s)))
    (λ x, let '((a, b, c, d, e, f, g, (h, i, j)), (k, l, m, n), (o, p, q, r, s)) := x in MemoryItem.mk a b c d e f g h i j k l m n o p q r s) _).
  by intros [].
Defined.
Fixpoint bits (p : positive) : string :=
  match p with xH => "" | xO p => String "0" (bits p) | xI p => String "1" (bits p) end.
Fixpoint unbits (s : string) : positive :=
  match s with EmptyString => xH | String a s => if Ascii.eqb a "1" then xI (unbits s) else xO (unbits s) end.
Lemma unbits_bits p : unbits (bits p) = p.
Proof. induction p as [p IH|p IH|]; cbn; by rewrite ?IH. Qed.
Lemma bits_plain p : ascii_of_nat 10 ∉ bytes (bits p).
Proof. induction p as [p IH|p IH|]; cbn [bits]; [..|by apply not_elem_of_nil]; (change (bytes (String ?a ?s)) with (a :: bytes s)); by apply not_elem_of_cons. Qed.
(** Items as numbers in binary, one per line. *)
#[export] Instance binary_codec : ItemCodec := {
  MarshalItem it := Some (bits (encode it));
  DecodeItems text := (omap (λ s, decode (unbits s)) (removelast (split_on (ascii_of_nat 10) text)), Z.of_nat (String.length text)) }.
#[export] Instance binary_codec_ok : ItemCodecOk binary_codec.
Proof.
  split; [|by eexists]. intros items text H. cbn. f_equal. revert text H.
  induction items as [|it items IH]; cbn [marshal_all]; [by intros ? [= <-]|]. cbn [MarshalItem binary_codec mbind option_bind].
  destruct (marshal_all items) as [rest|] eqn:E; [|done]. intros text [= <-]. specialize (IH rest eq_refl).
  change (newline +:+ rest) with (String (ascii_of_nat 10) rest). rewrite split_on_app by apply bits_plain.
  pose proof (split_on_nonempty (ascii_of_nat 10) rest) as Hne. destruct (split_on _ rest) as [|w ws]; [done|].
  cbn [removelast omap list_omap]. rewrite unbits_bits, decode_encode. by f_equal.
Qed.

(** ** Examples *)

Definition ex_item (task id summary : string) : MemoryItem.t :=
  MemoryItem.mk task "" id "" "" "" summary [] [] [] "" 1 None "" [] [] "" "" "".
Definition ex_env : SearchEnv := mkSearchEnv (λ _, false) (λ _, f1) (λ _, f1) None (λ _, ["cache"]) false false.
Definition file_of (items : list MemoryItem.t) : archive_file := marshal_all items.
Definition node_ids (items : list MemoryItem.t) : list string := MemoryItem.NodeID <$> items.

Definition ex_kept : list MemoryItem.t := [ex_item "t1" "a" "x"; ex_item "t2" "b" "y"].
Definition ex_ops : list archive_op := [AOAppend 5 (ex_item "t1" "c" "z"); AOMark "t1" ["s"]; AODelete "t2"; AOLoad].
Lemma archive_restart_witness :
  let '(a, file) := fold_left do_archive ex_ops ((Load false false NewContextArchive (file_of ex_kept)).1, file_of ex_kept) in
  ContextArchive.items (Load false false NewContextArchive file).1 = ContextArchive.items a.
Proof.
  assert (E : file_of ex_kept = Some (default "" (file_of ex_kept))) by (vm_compute; reflexivity).
  rewrite E. apply (archive_restart ex_kept _ ex_ops E). vm_compute. discriminate.
Defined.
Definition ex_found : ContextArchive.t * option (list MemoryItem.t) :=
  SearchWithOptions ex_env 9 "cache" 3 "t1" "" "t1" no_options NewContextArchive
    (file_of [ex_item "t1" "a" "cache"; (ex_item "t2" "b" "the cache") <| MemoryItem.Scope := "team" |>]).
Lemma search_scoped_witness :
  node_ids <$> ex_found.2 = Some ["a"; "b"] ∧
  ∃ results, ex_found.2 = Some results ∧ ∀ r, r ∈ results → ∃ it, r = Sanitize "t1" it ∧ in_scope "t1" "" it = true.
Proof.
  split; [vm_compute; reflexivity|].
  destruct (search_scoped ex_env 9 "cache" 3 "t1" "" "t1" no_options NewContextArchive
    (file_of [ex_item "t1" "a" "cache"; (ex_item "t2" "b" "the cache") <| MemoryItem.Scope := "team" |>])) as (rs & H & _ & Hr); [done|done|].
  exists rs. split; [exact H|]. intros r Hin. destruct (Hr r Hin) as (it & _ & E1 & E2 & _). exists it. exact (conj E1 E2).
Defined.

(** What survives of an archive that appends before it has read its file: the
    offset jumps to the end, the older items are never read, and the next
    rewrite drops them from the file. *)
Definition expired (it : MemoryItem.t) : MemoryItem.t := it <| MemoryItem.TTL := Some 2 |>.
Example append_before_load :
  let old := file_of [ex_item "t1" "old" "x"] in
  let '(a, file) := fold_left do_archive [AOAppend 5 (expired (ex_item "t1" "new" "y")); AOLoad] (NewContextArchive, old) in
  node_ids (ContextArchive.items a) = ["new"] ∧
  node_ids (ContextArchive.items (Load false false NewContextArchive file).1) = ["old"; "new"] ∧
  node_ids (ContextArchive.items (Load false false NewContextArchive (do_archive (a, file) (AOPrune 9)).2).1) = [].
Proof. vm_compute. auto. Qed.
(** A deletion asked of an archive that has not read its file deletes nothing,
    and says so without an error. *)
Example delete_before_load :
  let file := file_of [ex_item "t1" "old" "x"] in
  DeleteByScope "t1" WAll NewContextArchive file = (NewContextArchive, file, (0, Ok tt)).
Proof. vm_compute. reflexivity. Qed.
(** An append whose write fails returns the error, and the item is found all the same. *)
Example failed_append_found :
  let '(a, file, r) := archive_Append 5 WOpenFails true (ex_item "t1" "new" "y") NewContextArchive None in
  r = Err EOpen ∧ file = None ∧ node_ids (ContextArchive.items a) = ["new"].
Proof. vm_compute. auto. Qed.
(** Hits of other tasks take places among the first [k], which are filtered
    afterwards: the task's own hit is not returned. *)
Definition ex_crowded : archive_file :=
  file_of [ex_item "t1" "mine" "cache"; ex_item "t2" "x1" "cache"; ex_item "t2" "x2" "cache"].
Definition reversed_sorter : Sorter.
Proof.
  refine {| sort_by A less l := sort_by less (reverse l) |}.
  - intros A less l. by rewrite sort_by_perm, reverse_Permutation.
  - intros A less l H. apply sort_by_sorted. apply (weak_order_sub less l); [|done]. intros x. by rewrite elem_of_reverse.
Defined.
Example crowded_out : ∃ SL : Sorter,
  node_ids <$> (SearchWithOptions (SL := SL) ex_env 9 "cache" 1 "t1" "" "t1" no_options NewContextArchive ex_crowded).2 = Some [].
Proof. first [exists insertion_sorter; vm_compute; reflexivity | exists reversed_sorter; vm_compute; reflexivity]. Qed.
(** A negative count panics. *)
Example negative_count : (SearchWithOptions ex_env 9 "cache" (-1) "t1" "" "t1" no_options NewContextArchive None).2 = None.
Proof. vm_compute. reflexivity. Qed.
(** Links lead out of the scope, the window and the status, past the redaction. *)
Example links_leak :
  let mine := (ex_item "t1" "mine" "cache") <| MemoryItem.EntityLinks := ["theirs"] |> in
  let theirs := (ex_item "t2" "theirs" "password = hunter2hunter2") <| MemoryItem.Status := "stale" |> in
  (SearchForestWithOptions ex_env (λ _, []) (λ _ _, []) 9 "cache" 5 f1 "t1" "" "t1" no_options NewContextArchive (file_of [mine; theirs])).2 =
  Some ([mine; theirs], []).
Proof. vm_compute. reflexivity. Qed.
Example scrubbed : ScrubSecrets "use password = hunter2hunter2, or sk-abcdefghijklmnopqrstuv" = "use [REDACTED], or [REDACTED]".
Proof. vm_compute. reflexivity. Qed.
