(* ===== verification/Governance.v ===== *)
(** * The budget of a system prompt (core/prompt_governance.go)

    The blocks of a system prompt carry a tier; when their estimated tokens exceed
    the budget, blocks are dropped by tier, compressed and truncated.  The other
    functions shorten what goes into a block: an instruction, precedents, a
    cookbook, skills and the path of the context tree.  Logging is left out. *)
From Stdlib Require Import Ascii.
From S2P Require Import Prelude Schema FailureClass Sanitizer.
Local Open Scope Z_scope.

Definition GovernanceMarker : string := "__gov_tier".
Definition CategoryMarker : string := "__category".
Definition GovTierProtected : string := "protected".
Definition GovTier1 : string := "tier1_role_instruction".
Definition GovTier2 : string := "tier2_cookbook_failure".
Definition GovTier3 : string := "tier3_tree_precedent_fewshot".
Definition charsPerToken : Z := 4.
Definition roleInstructionCompressThreshold : Z := 2000.
Definition precedentsTopN : Z := 2.
Definition treePathActiveWindow : nat := 3.
Definition instructionHeadParagraphs : nat := 3.
Definition instructionTailParagraphs : nat := 2.
Definition instructionCompressedPlaceholder : string := "[... instruction body compressed for brevity ...]".

Definition len (s : string) : Z := Z.of_nat (String.length s).
(** [s[:n]], for [n] within the text. *)
Definition slice_to (n : Z) (s : string) : string := of_bytes (take (Z.to_nat n) (bytes s)).
Definition line_break : string := String (ascii_of_nat 10) "".
Definition blank_line : string := line_break +:+ line_break.
(** The ellipsis U+2026 in UTF-8. *)
Definition ellipsis : string := of_bytes (ascii_of_nat <$> [226; 128; 166]%nat).

(** ** Estimates *)

Definition gov_EstimateTokens (text : string) : Z :=
  if String.eqb text "" then 0 else let n := len text / charsPerToken in if n =? 0 then 1 else n.
Definition block_tokens (b : ContentBlock.t) : Z := gov_EstimateTokens (ContentBlock.Text b).
Definition EstimateBlocksTokens (blocks : list ContentBlock.t) : Z := fold_left (λ total b, total + block_tokens b) blocks 0.
(** The size of each attachment that can be examined. *)
Definition EstimateImageTokens (sizes : list (option Z)) : Z :=
  fold_left (λ total size, match size with
                           | Some n => total + (if Z.quot n 750 =? 0 then 1 else Z.quot n 750)
                           | None => total
                           end) sizes 0.

(** ** Instruction *)

(** [strings.Split] for a separator that is not empty. *)
Fixpoint split_by (fuel : nat) (sep l : list ascii) : list string :=
  match fuel with
  | O => [of_bytes l]
  | S fuel =>
      match index_of sep l with
      | Some i => of_bytes (take i l) :: split_by fuel sep (drop (i + length sep) l)
      | None => [of_bytes l]
      end
  end.
Definition Split (s sep : string) : list string := split_by (String.length s) (bytes sep) (bytes s).

Definition CompressRoleInstruction (text : string) : string :=
  if len text <=? roleInstructionCompressThreshold then text
  else
    let paragraphs := Split text blank_line in
    if (length paragraphs <=? instructionHeadParagraphs + instructionTailParagraphs)%nat then text
    else
      join blank_line (take instructionHeadParagraphs paragraphs) +:+ blank_line +:+ instructionCompressedPlaceholder +:+ blank_line +:+
      join blank_line (drop (length paragraphs - instructionTailParagraphs) paragraphs).

(** ** Precedents *)

Definition TopNPrecedents {A} (precedents : list A) (n : Z) : list A :=
  if bool_decide (length precedents = 0%nat) || (n <=? 0) then [] else take (Z.to_nat (Z.min n precedentsTopN)) precedents.
Definition ends_sentence (c : ascii) (next : list ascii) : bool :=
  bool_decide (c ∈ bytes ".!?") &&
  match next with [] => true | d :: _ => bool_decide (Ascii.nat_of_ascii d ∈ [32; 10; 9]%nat) end.
(** The position after the first end of a sentence, counting from [i]. *)
Fixpoint sentence_end (i : Z) (l : list ascii) : option Z :=
  match l with
  | [] => None
  | c :: l => if ends_sentence c l then Some (i + 1) else sentence_end (i + 1) l
  end.
Definition firstSentence (s : string) (maxChars : Z) : string :=
  if String.eqb s "" then ""
  else
    let maxChars := if maxChars <=? 0 then 200 else maxChars in
    let rest := if len s <=? maxChars then s else slice_to maxChars s +:+ ellipsis in
    match sentence_end 0 (bytes s) with
    | Some e => if e <=? maxChars then slice_to e s else rest
    | None => rest
    end.
(** [percent] is [%.0f] of the confidence times a hundred. *)
Definition SummarizePrecedent (percent : float64 → string) (p : DecisionNode.t) (Confidence : float64) : string :=
  let zero := float_of_int 0 in
  "- **Intent**: " +:+ DecisionNode.Outcome p +:+ line_break +:+ "  **Reasoning**: " +:+ firstSentence (DecisionNode.Reasoning p) 200 +:+
  line_break +:+ "  **Action**: " +:+ DecisionNode.Action p +:+
  (if fltb zero Confidence then
     line_break +:+ "  **Confidence**: " +:+ percent Confidence +:+ "% (" +:+
     (if fleb (fdiv (float_of_int 7) (float_of_int 10)) Confidence then "conclusive" else "advisory") +:+ ")"
   else "").

(** ** Cookbook *)

Module heading.
Record t := mk { level : nat; text : string; line : nat }.
End heading.
Fixpoint hashes (s : string) : nat := match s with String "#" s => S (hashes s) | _ => O end.
Definition heading_of (i : nat) (l : string) : option heading.t :=
  let trimmed := TrimSpace l in
  let level := hashes trimmed in
  if (level =? 0)%nat then None
  else let text := TrimSpace (of_bytes (drop level (bytes trimmed))) in
       if String.eqb text "" then None else Some (heading.mk level text i).
Definition headings (lines : list string) : list heading.t := omap (λ p, heading_of p.1 p.2) (zip (seq 0 (length lines)) lines).
Fixpoint repeat_string (n : nat) (s : string) : string := match n with O => "" | S n => s +:+ repeat_string n s end.
(** The first heading that names the capability, and the line of the next heading. *)
Fixpoint find_anchor (cap : string) (total : nat) (hs : list heading.t) : option (heading.t * nat) :=
  match hs with
  | [] => None
  | h :: hs =>
      if contains cap (to_lower (heading.text h)) then
        Some (h, match hs with h' :: _ => heading.line h' | [] => total end)
      else find_anchor cap total hs
  end.
Definition IndexCookbook (content capability : string) : string :=
  if String.eqb content "" then ""
  else
    let lines := split_on (ascii_of_nat 10) content in
    match headings lines with
    | [] => if 2000 <? len content then slice_to 2000 content +:+ line_break +:+ "[... cookbook truncated ...]" else content
    | hs =>
        "# Model Execution Cookbook (TOC)" +:+ blank_line +:+
        join "" ((λ h, repeat_string (heading.level h - 1) "  " +:+ "- " +:+ heading.text h +:+ line_break) <$> hs) +:+
        (if String.eqb capability "" then ""
         else match find_anchor (to_lower capability) (length lines) hs with
              | None => ""
              | Some (h, endLine) =>
                  let sectionBody := join line_break (drop (heading.line h) (take endLine lines)) in
                  blank_line +:+ "## Anchor: " +:+ heading.text h +:+ blank_line +:+
                  (if 3000 <? len sectionBody then slice_to 3000 sectionBody +:+ line_break +:+ "[... section truncated ...]" else sectionBody)
              end)
    end.

(** ** Skills *)

Module SkillSummary.
Record t := mk { ID : string; Name : string; Description : string; Capability : string }.
End SkillSummary.
(** [strings.IndexAny]: the first line break or full stop. *)
Fixpoint index_any (cs : list ascii) (i : Z) (l : list ascii) : Z :=
  match l with [] => -1 | a :: l => if bool_decide (a ∈ cs) then i else index_any cs (i + 1) l end.
Definition skill_line (s : SkillSummary.t) : string :=
  let desc := if String.eqb (SkillSummary.Description s) "" then SkillSummary.Capability s else SkillSummary.Description s in
  let idx := index_any [ascii_of_nat 10; "."%char] 0 (bytes desc) in
  let desc := if 0 <? idx then slice_to idx desc else desc in
  let desc := if 120 <? len desc then slice_to 120 desc +:+ ellipsis else desc in
  "- **" +:+ SkillSummary.Name s +:+ "** (`" +:+ SkillSummary.ID s +:+ "`): " +:+ desc +:+ line_break.
Definition ProgressiveDisclosureSkills (skills : list SkillSummary.t) : string :=
  match skills with
  | [] => ""
  | _ => "# Active Skills (Progressive Disclosure)" +:+ blank_line +:+
         "The following skills are active. Each entry shows its trigger and a one-line summary." +:+ blank_line +:+
         join "" (skill_line <$> skills)
  end.

(** ** The path of the context tree *)

(** A node of the path; a status of another Go type than [NodeStatus] is [None]. *)
Module PathNode.
Record t := mk { status : option NodeStatus; intent : string; summary : string; collapsed : option string }.
End PathNode.
Definition still_open (n : PathNode.t) : bool :=
  match PathNode.status n with Some NodeResolved | Some NodeAbandoned => false | _ => true end.
Definition collapse_node (n : PathNode.t) : PathNode.t :=
  PathNode.mk (PathNode.status n) (PathNode.intent n) (PathNode.summary n)
    (Some ("ASSERT [" +:+ PathNode.intent n +:+ "]: " +:+ PathNode.summary n)).
(** From the last node back: the first [window] open nodes are kept as they are. *)
Fixpoint window_back (window : nat) (rev_path : list PathNode.t) : list PathNode.t :=
  match rev_path with
  | [] => []
  | n :: rest =>
      match window with
      | S w => if still_open n then n :: window_back w rest else collapse_node n :: window_back window rest
      | O => collapse_node n :: window_back O rest
      end
  end.
Definition SlidingWindowTreePath (path : list PathNode.t) : list PathNode.t := reverse (window_back treePathActiveWindow (reverse path)).

Definition render_node (diffusion : bool) (n : PathNode.t) : string :=
  match PathNode.collapsed n with
  | Some c => c +:+ line_break
  | None =>
      let resolved := match PathNode.status n with Some NodeResolved => true | _ => false end && negb (String.eqb (PathNode.summary n) "") in
      if diffusion then
        if resolved then "ASSERT [" +:+ PathNode.intent n +:+ "]: " +:+ PathNode.summary n +:+ line_break
        else "ACTIVE_CONSTRAINT: Focus on " +:+ PathNode.intent n +:+ line_break
      else if resolved then "## [RESOLVED] " +:+ PathNode.intent n +:+ line_break +:+ PathNode.summary n +:+ blank_line
      else "## [ACTIVE] " +:+ PathNode.intent n +:+ line_break +:+ "(Currently working on this branch)" +:+ blank_line
  end.
Definition RenderCollapsedTreePath (path : list PathNode.t) (diffusion : bool) : string :=
  match path with
  | [] => ""
  | _ => (if diffusion then "# Global State Assertions (Constraints)" else "# Context Tree Path") +:+ line_break +:+
         join "" (render_node diffusion <$> path) +:+
         (if diffusion then "RULE: Ignore all historical constraints contradicting the above." +:+ line_break else "")
  end.

(** ** Enforcing the budget *)

Definition tier_of (b : ContentBlock.t) : string := default "" (as_string (ContentBlock.Metadata b !! GovernanceMarker)).
Definition is_protected (b : ContentBlock.t) : bool := String.eqb (tier_of b) GovTierProtected.

(** The loop of [dropTier]: the rest is kept once the total fits. *)
Fixpoint dropTier (blocks : list ContentBlock.t) (tier : string) (total budget : Z) : list ContentBlock.t * Z :=
  match blocks with
  | [] => ([], total)
  | b :: blocks =>
      if String.eqb (tier_of b) tier && negb (is_protected b) then
        let total := total - block_tokens b in
        if total <=? budget then (blocks, total) else dropTier blocks tier total budget
      else let '(result, total) := dropTier blocks tier total budget in (b :: result, total)
  end.
Fixpoint compressTier1 (blocks : list ContentBlock.t) (total budget : Z) : list ContentBlock.t * Z :=
  match blocks with
  | [] => ([], total)
  | b :: blocks =>
      let compressed := CompressRoleInstruction (ContentBlock.Text b) in
      if negb (String.eqb (tier_of b) GovTier1) || String.eqb compressed (ContentBlock.Text b) then
        let '(result, total) := compressTier1 blocks total budget in (b :: result, total)
      else
        let total := total - (block_tokens b - gov_EstimateTokens compressed) in
        let b := b <| ContentBlock.Text := compressed |> in
        if total <=? budget then (b :: blocks, total)
        else let '(result, total) := compressTier1 blocks total budget in (b :: result, total)
  end.
Definition truncation_mark : string := line_break +:+ "[... truncated ...]".
(** The second pass of [hardTruncate]. *)
Fixpoint truncate_blocks (blocks : list ContentBlock.t) (remaining : Z) : list ContentBlock.t :=
  match blocks with
  | [] => []
  | b :: blocks =>
      if is_protected b then b :: truncate_blocks blocks remaining
      else
        let tok := block_tokens b in
        if tok <=? remaining then b :: truncate_blocks blocks (remaining - tok)
        else
          let maxChars := Z.max 0 (remaining * charsPerToken) in
          (if maxChars <? len (ContentBlock.Text b)
           then b <| ContentBlock.Text ::= λ t, slice_to maxChars t +:+ truncation_mark |> else b) :: truncate_blocks blocks 0
  end.
Definition hardTruncate (blocks : list ContentBlock.t) (budget : Z) : list ContentBlock.t :=
  let remaining := budget - EstimateBlocksTokens (List.filter is_protected blocks) in
  if remaining <? 0 then blocks else truncate_blocks blocks remaining.

Definition EnforceBudget (blocks : list ContentBlock.t) (budgetTokens : Z) : list ContentBlock.t :=
  if budgetTokens <=? 0 then blocks
  else
    let total := EstimateBlocksTokens blocks in
    if total <=? budgetTokens then blocks
    else
      let '(result, total) := dropTier blocks GovTier3 total budgetTokens in
      if total <=? budgetTokens then result
      else
        let '(result, total) := dropTier result GovTier2 total budgetTokens in
        if total <=? budgetTokens then result
        else
          let '(result, total) := compressTier1 result total budgetTokens in
          if total <=? budgetTokens then result else hardTruncate result budgetTokens.

(** The block that results; Go writes the marks into the map itself, which the
    block that was passed shares with it if it had one. *)
Definition TagBlock (block : ContentBlock.t) (tier : string) : ContentBlock.t :=
  block <| ContentBlock.Metadata ::= <[GovernanceMarker := AString tier]> |>.
Definition TagBlockWithCategory (block : ContentBlock.t) (tier category : string) : ContentBlock.t :=
  (TagBlock block tier) <| ContentBlock.Metadata ::= <[CategoryMarker := AString category]> |> <| ContentBlock.Category := category |>.
Definition MarkProtectedWithCategory (block : ContentBlock.t) (category : string) : ContentBlock.t :=
  TagBlockWithCategory block GovTierProtected category.

(** * Enforcing the budget *)

Lemma fold_tokens blocks : ∀ n, fold_left (λ total b, total + block_tokens b) blocks n = n + EstimateBlocksTokens blocks.
Proof.
  unfold EstimateBlocksTokens. induction blocks as [|b blocks IH]; intros n; cbn [fold_left]; [lia|]. rewrite IH, (IH (0 + _)). lia.
Qed.
Lemma tokens_cons b blocks : EstimateBlocksTokens (b :: blocks) = block_tokens b + EstimateBlocksTokens blocks.
Proof. unfold EstimateBlocksTokens at 1. cbn [fold_left]. rewrite fold_tokens. lia. Qed.
Lemma tokens_nonneg s : 0 ≤ gov_EstimateTokens s.
Proof.
  unfold gov_EstimateTokens, len, charsPerToken. destruct (String.eqb s ""); [lia|]. destruct (_ =? 0); [lia|].
  apply Z.div_pos; lia.
Qed.
Lemma blocks_nonneg blocks : 0 ≤ EstimateBlocksTokens blocks.
Proof.
  induction blocks as [|b blocks IH]; [done|]. rewrite tokens_cons. pose proof (tokens_nonneg (ContentBlock.Text b)). unfold block_tokens. lia.
Qed.

(** What dropping a tier keeps: everything of other tiers, in its order, and the
    total stays the total. *)
Lemma dropTier_spec tier budget blocks : ∀ total, tier ≠ GovTierProtected →
  let '(result, total') := dropTier blocks tier total budget in
  total' - EstimateBlocksTokens result = total - EstimateBlocksTokens blocks ∧ result `sublist_of` blocks ∧
  (∀ p : ContentBlock.t → bool, (∀ b, tier_of b = tier → p b = false) → List.filter p result = List.filter p blocks) ∧
  (total' > budget → ∀ b, b ∈ result → tier_of b ≠ tier).
Proof.
  intros total Ht. revert total. induction blocks as [|b blocks IH]; intros total; cbn [dropTier].
  { split_and!; [done|done|done|]. intros _ b Hb. by apply not_elem_of_nil in Hb. }
  assert (Hp : String.eqb (tier_of b) tier && negb (is_protected b) = true ↔ tier_of b = tier).
  { rewrite andb_true_iff, String.eqb_eq, negb_true_iff. unfold is_protected. rewrite String.eqb_neq. split; [tauto|intros ->; auto]. }
  destruct (String.eqb (tier_of b) tier && negb (is_protected b)) eqn:E.
  - apply proj1 in Hp. specialize (Hp eq_refl). destruct (Z.leb_spec (total - block_tokens b) budget) as [Hle|Hgt].
    + rewrite tokens_cons. split_and!; [lia|by constructor| |lia]. intros p Hf. cbn. by rewrite Hf.
    + specialize (IH (total - block_tokens b)). destruct (dropTier blocks tier (total - block_tokens b) budget) as [result total'].
      destruct IH as (H1 & H2 & H3 & H4). rewrite tokens_cons. split_and!; [lia|by constructor| |done]. intros p Hf. cbn. by rewrite Hf, H3.
  - specialize (IH total). destruct (dropTier blocks tier total budget) as [result total'].
    destruct IH as (H1 & H2 & H3 & H4). rewrite !tokens_cons. split_and!; [lia|by constructor|intros p Hf; cbn; by rewrite H3|].
    intros Hgt b' [->|Hb]%elem_of_cons; [|by apply H4]. intros E'. apply Hp in E'. congruence.
Qed.
(** A block with its text changed. *)
Definition retexted (b b' : ContentBlock.t) : Prop := b' = b <| ContentBlock.Text := ContentBlock.Text b' |>.
Lemma retexted_refl b : retexted b b.
Proof. by destruct b. Qed.
Lemma retexted_text b t : retexted b (b <| ContentBlock.Text := t |>).
Proof. by destruct b. Qed.
(** Two lists of blocks that differ only in texts of blocks that are not protected. *)
Definition same_but_text (blocks blocks' : list ContentBlock.t) : Prop :=
  Forall2 (λ b b', retexted b b' ∧ (is_protected b = true → b' = b)) blocks blocks'.
Lemma same_but_text_refl blocks : same_but_text blocks blocks.
Proof. unfold same_but_text. induction blocks; constructor; [|done]. split; [apply retexted_refl|done]. Qed.
Lemma same_but_text_trans l1 l2 l3 : same_but_text l1 l2 → same_but_text l2 l3 → same_but_text l1 l3.
Proof.
  unfold same_but_text. intros H. revert l3. induction H as [|b b' l l' [R1 P1] _ IH]; inversion 1 as [|? b'' ? ? [R2 P2] ?]; subst; constructor; [|auto].
  unfold retexted in *. split; [rewrite R2, R1; by destruct b|]. intros Hb. specialize (P1 Hb). subst b'. by apply P2.
Qed.
Lemma same_but_text_protected blocks blocks' : same_but_text blocks blocks' →
  List.filter is_protected blocks' = List.filter is_protected blocks.
Proof.
  induction 1 as [|b b' l l' [Hr Hp] _ IH]; cbn; [done|].
  assert (Hb : is_protected b' = is_protected b) by (rewrite Hr; by destruct b). rewrite Hb, IH.
  destruct (is_protected b); [by rewrite Hp|done].
Qed.
Lemma compressTier1_spec budget blocks : ∀ total,
  let '(result, total') := compressTier1 blocks total budget in
  total' - EstimateBlocksTokens result = total - EstimateBlocksTokens blocks ∧ same_but_text blocks result.
Proof.
  induction blocks as [|b blocks IH]; intros total; cbn [compressTier1]; [split; [done|constructor]|].
  destruct (negb (String.eqb (tier_of b) GovTier1) || _) eqn:E.
  - specialize (IH total). destruct (compressTier1 blocks total budget) as [result total']. destruct IH as [H1 H2].
    rewrite !tokens_cons. split; [lia|]. constructor; [split; [apply retexted_refl|done]|done].
  - set (c := CompressRoleInstruction (ContentBlock.Text b)) in *. set (t1 := total - _).
    assert (Hb : retexted b (b <| ContentBlock.Text := c |>) ∧ (is_protected b = true → b <| ContentBlock.Text := c |> = b)).
    { split; [apply retexted_text|]. apply orb_false_iff in E as [E%negb_false_iff%String.eqb_eq _]. unfold is_protected. by rewrite E. }
    assert (Ht : block_tokens (b <| ContentBlock.Text := c |>) = gov_EstimateTokens c) by done.
    destruct (t1 <=? budget).
    + rewrite !tokens_cons, Ht. unfold t1. split; [lia|]. constructor; [done|apply same_but_text_refl].
    + specialize (IH t1). destruct (compressTier1 blocks t1 budget) as [result total']. destruct IH as [H1 H2].
      rewrite !tokens_cons, Ht. unfold t1 in *. split; [lia|]. by constructor.
Qed.

(** ** Truncating *)

Lemma estimate_bounds s : len s ≤ 4 * gov_EstimateTokens s + 3 ∧ (4 * gov_EstimateTokens s ≤ len s ∨ len s < 4).
Proof.
  unfold gov_EstimateTokens, charsPerToken. destruct (String.eqb_spec s "") as [->|Hne]; [split; [done|by left]|].
  pose proof (Z.div_mod (len s) 4 ltac:(done)). pose proof (Z.mod_pos_bound (len s) 4 eq_refl).
  destruct (Z.eqb_spec (len s / 4) 0) as [E|E]; lia.
Qed.
Lemma slice_length n s t : 0 ≤ n → len t ≤ len (slice_to n s +:+ t) ≤ n + len t.
Proof.
  intros Hn. unfold len, slice_to. rewrite <- !length_bytes, bytes_app, bytes_of_bytes, length_app, length_take. lia.
Qed.
Lemma truncated_tokens s r : 0 ≤ r → gov_EstimateTokens (slice_to (r * 4) s +:+ truncation_mark) ≤ r + 5.
Proof.
  intros Hr. destruct (slice_length (r * 4) s truncation_mark ltac:(lia)) as [H1 H2]. change (len truncation_mark) with 20 in H1, H2.
  destruct (estimate_bounds (slice_to (r * 4) s +:+ truncation_mark)) as [_ [H|H]]; lia.
Qed.
Definition unprotected_count (blocks : list ContentBlock.t) : Z := Z.of_nat (length (List.filter (λ b, negb (is_protected b)) blocks)).
Lemma truncate_spec blocks : ∀ remaining, 0 ≤ remaining →
  same_but_text blocks (truncate_blocks blocks remaining) ∧
  EstimateBlocksTokens (truncate_blocks blocks remaining) ≤
    EstimateBlocksTokens (List.filter is_protected blocks) + remaining + 5 * unprotected_count blocks.
Proof.
  unfold unprotected_count. induction blocks as [|b blocks IH]; intros r Hr; cbn [truncate_blocks List.filter]; [split; [constructor|cbn; lia]|].
  destruct (is_protected b) eqn:Ep; cbn [negb].
  { destruct (IH r Hr) as [H1 H2]. rewrite !tokens_cons. split; [constructor; [split; [apply retexted_refl|done]|done]|lia]. }
  cbn [length]. rewrite Nat2Z.inj_succ. destruct (Z.leb_spec (block_tokens b) r) as [Hle|Hgt].
  { destruct (IH (r - block_tokens b)) as [H1 H2]; [lia|]. rewrite tokens_cons.
    split; [constructor; [split; [apply retexted_refl|done]|done]|lia]. }
  destruct (IH 0) as [H1 H2]; [lia|]. rewrite tokens_cons. rewrite Z.max_r by (unfold charsPerToken; lia).
  destruct (Z.ltb_spec (r * charsPerToken) (len (ContentBlock.Text b))) as [Hlt|Hge].
  - pose proof (truncated_tokens (ContentBlock.Text b) r Hr) as Ht.
    split; [constructor; [split; [by destruct b|congruence]|done]|].
    change (block_tokens _) with (gov_EstimateTokens (slice_to (r * 4) (ContentBlock.Text b) +:+ truncation_mark)). lia.
  - split; [constructor; [split; [apply retexted_refl|done]|done]|].
    unfold block_tokens in *. destruct (estimate_bounds (ContentBlock.Text b)) as [? [?|?]]; unfold charsPerToken in *; [lia|].
    unfold gov_EstimateTokens in Hgt |- *. destruct (String.eqb _ ""); [lia|]. destruct (_ =? 0) eqn:E; [lia|].
    apply Z.eqb_neq in E. unfold charsPerToken in E. rewrite Z.div_small in E; [done|]. unfold len in *. lia.
Qed.

Lemma hardTruncate_spec blocks budget :
  same_but_text blocks (hardTruncate blocks budget) ∧
  (EstimateBlocksTokens (List.filter is_protected blocks) ≤ budget →
   EstimateBlocksTokens (hardTruncate blocks budget) ≤ budget + 5 * unprotected_count blocks).
Proof.
  unfold hardTruncate. cbv zeta. set (P := EstimateBlocksTokens (List.filter is_protected blocks)).
  destruct (Z.ltb_spec (budget - P) 0) as [Hlt|Hge]; [split; [apply same_but_text_refl|lia]|].
  destruct (truncate_spec blocks (budget - P) Hge) as [H1 H2]. split; [done|]. fold P in H2. lia.
Qed.
Lemma same_but_text_count blocks blocks' : same_but_text blocks blocks' → unprotected_count blocks' = unprotected_count blocks.
Proof.
  unfold unprotected_count. induction 1 as [|b b' l l' [Hr _] _ IH]; cbn [List.filter]; [done|].
  assert (Hb : is_protected b' = is_protected b) by (rewrite Hr; by destruct b). rewrite Hb. destruct (is_protected b); cbn [negb length]; lia.
Qed.
Lemma same_but_text_tier tier blocks blocks' : same_but_text blocks blocks' →
  (∀ b, b ∈ blocks → tier_of b ≠ tier) → ∀ b, b ∈ blocks' → tier_of b ≠ tier.
Proof.
  intros H Ht b [i Hi]%list_elem_of_lookup. destruct (Forall2_lookup_r _ _ _ _ _ H Hi) as (b0 & H0 & Hr & _).
  rewrite Hr. intros E. apply (Ht b0); [by eapply list_elem_of_lookup_2|]. by destruct b0.
Qed.

(** The ways out of [EnforceBudget]. *)
Inductive enforced (budget : Z) (blocks : list ContentBlock.t) : list ContentBlock.t → list ContentBlock.t → Prop :=
| enforced_same : budget ≤ 0 ∨ EstimateBlocksTokens blocks ≤ budget → enforced budget blocks blocks blocks
| enforced_drop3 kept t : dropTier blocks GovTier3 (EstimateBlocksTokens blocks) budget = (kept, t) → EstimateBlocksTokens kept ≤ budget →
    enforced budget blocks kept kept
| enforced_drop2 k3 t3 kept t : dropTier blocks GovTier3 (EstimateBlocksTokens blocks) budget = (k3, t3) → budget < t3 →
    dropTier k3 GovTier2 t3 budget = (kept, t) → EstimateBlocksTokens kept ≤ budget → enforced budget blocks kept kept
| enforced_text k3 t3 kept t result : dropTier blocks GovTier3 (EstimateBlocksTokens blocks) budget = (k3, t3) → budget < t3 →
    dropTier k3 GovTier2 t3 budget = (kept, t) → budget < t → same_but_text kept result →
    (EstimateBlocksTokens (List.filter is_protected kept) ≤ budget → EstimateBlocksTokens result ≤ budget + 5 * unprotected_count kept) →
    enforced budget blocks kept result.
Lemma enforce_cases blocks budget : ∃ kept, enforced budget blocks kept (EnforceBudget blocks budget).
Proof.
  unfold EnforceBudget. destruct (Z.leb_spec budget 0) as [H|H]; [exists blocks; constructor; by left|].
  destruct (Z.leb_spec (EstimateBlocksTokens blocks) budget) as [H0|H0]; [exists blocks; constructor; by right|].
  pose proof (dropTier_spec GovTier3 budget blocks (EstimateBlocksTokens blocks) ltac:(done)) as D3.
  destruct (dropTier blocks GovTier3 _ budget) as [k3 t3] eqn:E3. destruct D3 as (T3 & _).
  destruct (Z.leb_spec t3 budget) as [H3|H3]; [exists k3; eapply enforced_drop3; [done|lia]|].
  pose proof (dropTier_spec GovTier2 budget k3 t3 ltac:(done)) as D2.
  destruct (dropTier k3 GovTier2 t3 budget) as [k2 t2] eqn:E2. destruct D2 as (T2 & _).
  destruct (Z.leb_spec t2 budget) as [H2|H2]; [exists k2; eapply enforced_drop2; [done..|lia]|]. exists k2.
  pose proof (compressTier1_spec budget k2 t2) as D1. destruct (compressTier1 k2 t2 budget) as [k1 t1]. destruct D1 as [T1 S1].
  eapply enforced_text; [done..| |].
  - destruct (t1 <=? budget); [done|]. destruct (hardTruncate_spec k1 budget) as [Sh _]. by eapply same_but_text_trans.
  - intros Hp. destruct (Z.leb_spec t1 budget) as [H1|H1].
    + unfold unprotected_count. lia.
    + destruct (hardTruncate_spec k1 budget) as [_ Hh]. rewrite (same_but_text_count _ _ S1) in Hh. apply Hh.
      by rewrite (same_but_text_protected _ _ S1).
Qed.

Definition in_tier (tier : string) (b : ContentBlock.t) : bool := String.eqb (tier_of b) tier.
(** What the enforcement of a budget returns are blocks of the prompt, in
    their order, of which some are gone and some have another text.  Protected
    blocks are all there, unchanged; blocks of other tiers than two and three are
    all there; one of tier two is gone only when none of tier three is left, and a
    text is changed only when none of both is left.  If the protected blocks fit
    the budget, the result exceeds it by at most five tokens for each of its
    blocks that is not protected. *)
Theorem budget_enforced blocks budget :
  let result := EnforceBudget blocks budget in
  ∃ kept, kept `sublist_of` blocks ∧ same_but_text kept result ∧
    List.filter is_protected result = List.filter is_protected blocks ∧
    (∀ p : ContentBlock.t → bool, (∀ b, in_tier GovTier2 b = true ∨ in_tier GovTier3 b = true → p b = false) →
       List.filter p kept = List.filter p blocks) ∧
    (List.filter (in_tier GovTier2) kept ≠ List.filter (in_tier GovTier2) blocks → ∀ b, b ∈ result → in_tier GovTier3 b = false) ∧
    (kept ≠ result → ∀ b, b ∈ result → in_tier GovTier2 b = false ∧ in_tier GovTier3 b = false) ∧
    (0 < budget → EstimateBlocksTokens (List.filter is_protected blocks) ≤ budget →
       EstimateBlocksTokens result ≤ budget + 5 * unprotected_count result).
Proof.
  cbv zeta. destruct (enforce_cases blocks budget) as [kept H]. exists kept.
  assert (D3 := dropTier_spec GovTier3 budget blocks (EstimateBlocksTokens blocks) ltac:(done)).
  assert (Hcount : ∀ l, 0 ≤ unprotected_count l) by (intros; unfold unprotected_count; lia).
  assert (Hpt : ∀ tier, tier ≠ GovTierProtected → ∀ b, tier_of b = tier → is_protected b = false).
  { intros tier Ht b <-. by apply String.eqb_neq. }
  assert (H32 : ∀ b, tier_of b = GovTier3 → in_tier GovTier2 b = false) by (unfold in_tier; by intros b ->).
  assert (Hin : ∀ tier b, tier_of b = tier → in_tier tier b = true) by (intros tier b <-; apply String.eqb_refl).
  assert (Hout : ∀ tier b, tier_of b ≠ tier → in_tier tier b = false) by (intros tier b; apply String.eqb_neq).
  destruct H as [Hle|? t E3 Hle|k3 t3 ? t E3 Hgt E2 Hle|k3 t3 ? t result E3 Hgt E2 Hgt2 Hs Hb].
  - split_and!; [done|apply same_but_text_refl|done|done|done|done|]. intros. specialize (Hcount blocks). lia.
  - rewrite E3 in D3. destruct D3 as (_ & Hsub & Hf & _). split_and!; [done|apply same_but_text_refl|by apply Hf, Hpt| | |done|].
    + intros p Hp. apply Hf. auto.
    + intros Hne. destruct Hne. apply Hf. done.
    + intros _ _. specialize (Hcount kept). lia.
  - rewrite E3 in D3. destruct D3 as (_ & Hsub & Hf & Hn3). assert (D2 := dropTier_spec GovTier2 budget k3 t3 ltac:(done)).
    rewrite E2 in D2. destruct D2 as (_ & Hsub2 & Hf2 & _).
    split_and!; [by etrans|apply same_but_text_refl| | | |done|intros _ _; specialize (Hcount kept); lia].
    + rewrite Hf2 by by apply Hpt. by apply Hf, Hpt.
    + intros p Hp. rewrite Hf2 by auto. apply Hf. auto.
    + intros _ b Hb. apply Hout. apply Hn3; [lia|]. by apply (sublist_subseteq _ _ Hsub2).
  - rewrite E3 in D3. destruct D3 as (_ & Hsub & Hf & Hn3). assert (D2 := dropTier_spec GovTier2 budget k3 t3 ltac:(done)).
    rewrite E2 in D2. destruct D2 as (_ & Hsub2 & Hf2 & Hn2).
    assert (Hprot : List.filter is_protected kept = List.filter is_protected blocks) by (rewrite Hf2 by (by apply Hpt); by apply Hf, Hpt).
    assert (H3 : ∀ b, b ∈ result → in_tier GovTier3 b = false).
    { intros b Hb'. apply Hout, (same_but_text_tier _ _ _ Hs); [|done]. intros b' Hb''. apply Hn3; [lia|]. by apply (sublist_subseteq _ _ Hsub2). }
    assert (H2 : ∀ b, b ∈ result → in_tier GovTier2 b = false).
    { intros b Hb'. apply Hout, (same_but_text_tier _ _ _ Hs); [|done]. apply Hn2. lia. }
    split_and!; [by etrans|done|by rewrite (same_but_text_protected _ _ Hs)| |done|auto|].
    + intros p Hp. rewrite Hf2 by auto. apply Hf. auto.
    + intros _ Hle. rewrite (same_but_text_count _ _ Hs). apply Hb. by rewrite Hprot.
Qed.

(** ** The path of the tree *)

(** At most [treePathActiveWindow] nodes stay as they are; the others are one
    line each, in their places. *)
Definition shown (keep : bool) (n : PathNode.t) : PathNode.t := if keep then n else collapse_node n.
Lemma window_back_spec l : ∀ w, ∃ keep, length keep = length l ∧ window_back w l = zip_with shown keep l ∧
  (length (List.filter id keep) ≤ w)%nat ∧ Forall2 (λ (k : bool) n, k = true → still_open n = true) keep l.
Proof.
  induction l as [|n l IH]; intros w; cbn [window_back].
  { exists []. cbn. split_and!; [done|done|lia|constructor]. }
  destruct w as [|w]; [|destruct (still_open n) eqn:E].
  - destruct (IH O) as (keep & H1 & H2 & H3 & H4). exists (false :: keep). cbn. rewrite H1, H2. split_and!; [done..|by constructor].
  - destruct (IH w) as (keep & H1 & H2 & H3 & H4). exists (true :: keep). cbn. rewrite H1, H2. split_and!; [done|done|lia|by constructor].
  - destruct (IH (S w)) as (keep & H1 & H2 & H3 & H4). exists (false :: keep). cbn. rewrite H1, H2. split_and!; [done..|by constructor].
Qed.
Lemma shown_reverse keep : ∀ l, length keep = length l → reverse (zip_with shown keep l) = zip_with shown (reverse keep) (reverse l).
Proof.
  induction keep as [|k keep IH]; intros [|n l] Hl; try done. cbn [zip_with]. rewrite !reverse_cons, IH by (cbn in Hl; lia).
  rewrite zip_with_app; [done|]. rewrite !length_reverse. by injection Hl.
Qed.
(** Of the path, the nodes stay in their places; at most [treePathActiveWindow]
    open ones are as they were, all others are collapsed. *)
Theorem sliding_window path : ∃ keep, length keep = length path ∧ SlidingWindowTreePath path = zip_with shown keep path ∧
  (length (List.filter id keep) ≤ treePathActiveWindow)%nat ∧ Forall2 (λ (k : bool) n, k = true → still_open n = true) keep path.
Proof.
  unfold SlidingWindowTreePath. destruct (window_back_spec (reverse path) treePathActiveWindow) as (keep & H1 & H2 & H3 & H4).
  exists (reverse keep). rewrite H2, length_reverse, H1, length_reverse. split_and!; [done| | |].
  - by rewrite shown_reverse, reverse_involutive.
  - unfold reverse. rewrite <- rev_alt, List.filter_rev, length_rev. exact H3.
  - rewrite <- (reverse_involutive path). by apply Forall2_reverse.
Qed.

(** ** Examples *)

Definition ex_block (tier text : string) : ContentBlock.t :=
  TagBlock (ContentBlock.mk "text" text "" "" ∅) tier.
Definition chars_of (n : nat) : string := of_bytes (replicate n "x"%char).
Lemma budget_enforced_witness :
  let blocks := [ex_block GovTierProtected (chars_of 40); ex_block GovTier3 (chars_of 80); ex_block GovTier1 (chars_of 80); ex_block GovTier2 "cookbook"] in
  let result := EnforceBudget blocks 20 in
  EstimateBlocksTokens result ≤ 25 ∧ List.filter is_protected result = [ex_block GovTierProtected (chars_of 40)].
Proof.
  cbv zeta. destruct (budget_enforced [ex_block GovTierProtected (chars_of 40); ex_block GovTier3 (chars_of 80); ex_block GovTier1 (chars_of 80); ex_block GovTier2 "cookbook"] 20)
    as (kept & _ & _ & Hp & _ & _ & _ & Hb).
  split; [etrans; [apply Hb; [done|vm_compute; discriminate]|vm_compute; discriminate]|].
  etrans; [exact Hp|vm_compute; reflexivity].
Defined.

(** "The hard ceiling" is exceeded: a truncated block gets a mark of five
    tokens, and every block after it becomes such a mark. *)
Example ceiling_exceeded :
  let blocks := [ex_block GovTier1 (chars_of 400); ex_block "" (chars_of 40); ex_block "" (chars_of 40); ex_block "" "ok"] in
  EstimateBlocksTokens (EnforceBudget blocks 100) = 115 ∧
  ContentBlock.Text <$> drop 3 (EnforceBudget blocks 100) = [truncation_mark].
Proof. vm_compute. auto. Qed.
(** When the protected blocks alone exceed the budget, the others are left as
    they are. *)
Example protected_too_large :
  let blocks := [ex_block GovTierProtected (chars_of 44); ex_block "" (chars_of 400)] in EnforceBudget blocks 10 = blocks.
Proof. vm_compute. reflexivity. Qed.
(** A compressed instruction can be longer than the instruction. *)
Example compression_grows :
  let text := join blank_line [chars_of 2000; "b"; "c"; "d"; "e"; "f"] in
  len text = 2015 ∧ len (CompressRoleInstruction text) = 2063.
Proof. vm_compute. auto. Qed.
(** The section of a heading ends at its first subsection, not at the next
    heading of its level. *)
Example anchor_without_subsections :
  IndexCookbook (join line_break ["# Deploy"; "intro"; "## Steps"; "run it"]) "deploy" =
  join line_break ["# Model Execution Cookbook (TOC)"; ""; "- Deploy"; "  - Steps"; ""; ""; "## Anchor: Deploy"; ""; "# Deploy"; "intro"].
Proof. vm_compute. reflexivity. Qed.
(** An abandoned branch is asserted like a resolved one, and so is an open one
    that is older than the window. *)
Example abandoned_asserted :
  let node st i := PathNode.mk (Some st) i "" None in
  RenderCollapsedTreePath (SlidingWindowTreePath (node NodeAbandoned "tried" :: (node NodeActive <$> ["a"; "b"; "c"; "d"]))) true =
  join line_break ["# Global State Assertions (Constraints)"; "ASSERT [tried]: "; "ASSERT [a]: "; "ACTIVE_CONSTRAINT: Focus on b";
    "ACTIVE_CONSTRAINT: Focus on c"; "ACTIVE_CONSTRAINT: Focus on d"; "RULE: Ignore all historical constraints contradicting the above."; ""].
Proof. vm_compute. reflexivity. Qed.
Example first_sentence : firstSentence "v1.2 works. Then it fails." 200 = "v1.2 works." ∧ firstSentence "abcdef." 3 = "abc" +:+ ellipsis.
Proof. vm_compute. auto. Qed.
