(* ===== verification/Compress.v ===== *)
(** * The context manager (core/context_manager.go)

    Before a call of a model the prompt is measured against the limits of its
    provider, and one of four levels of compression is chosen; compressing
    rewrites the volatile part of the request and carries the protected part
    through.  The compressors work on logs, JSON, code, repeated lines and
    paragraphs.

    Counting tokens by the provider, hashing, JSON and the rendering of tool
    schemas are arguments.  Patterns are those of [Regex]; [(?i)] folds ASCII
    letters. *)
From Stdlib Require Import Ascii SpecFloat.
From S2P Require Import Prelude Paths FailureClass Regex Sanitizer Registry Sieve Governance.
Local Open Scope Z_scope.

(** ** Levels *)

Inductive CompressionLevel := LevelNone | LevelLight | LevelAggressive | LevelCritical.
#[export] Instance CompressionLevel_eq_dec : EqDecision CompressionLevel.
Proof. solve_decision. Defined.
Definition level_rank (l : CompressionLevel) : Z :=
  match l with LevelNone => 0 | LevelLight => 1 | LevelAggressive => 2 | LevelCritical => 3 end.
Definition at_least (l m : CompressionLevel) : bool := level_rank m <=? level_rank l.

Module AuditResult.
Record t := mk {
  Decision : CompressionLevel; OriginalTokens : Z; CompressedTokens : Z; CompressionRatio : float64;
  ActionTaken : string; ReserveTokens : Z; EffectiveMaxCtx : Z; MCSchemaTokens : Z }.
End AuditResult.
(** The request as this component sees it: the blocks and texts, the limit of
    the output, the hint, and the JSON of the tools of each server; none for a
    tool that cannot be encoded. *)
Module WindowRequest.
Record t := mk { Request : CompleteRequest.t; MaxTokens : Z; CompressionHint : string; MCPServers : list (list (option string)) }.
End WindowRequest.
(** What the audit reads of a provider's configuration. *)
Module WindowConfig.
Record t := mk { Config : ProviderConfig.t; MaxContextWindow : Z; EffectiveContextWindow : Z; TokenLimit : Z }.
#[global] Instance t_eta : Eta t := λ c, mk (Config c) (MaxContextWindow c) (EffectiveContextWindow c) (TokenLimit c).
End WindowConfig.

Definition applyCompressionHint (effCtx maxCtx : Z) (hint : string) : Z :=
  if String.eqb hint "terse" || String.eqb hint "aggressive" then Z.quot effCtx 2
  else if String.eqb hint "verbose" then Z.min (Z.quot (wrap64 (effCtx * 3)) 2) maxCtx
  else effCtx.

Section audit.
(** [provider.CountTokens] (the count, and whether there was no error),
    [providers.EstimateTokens], the name of the provider and the order of
    [range registry.Providers]. *)
Context (CountTokens : string → Z * bool) (EstimateTokens : string → Z) (provider_name : string).
Context (providers : gmap string WindowConfig.t) (ord : list string).
Implicit Types (req : WindowRequest.t).

Definition block_texts (bs : list ContentBlock.t) : string := join "" (ContentBlock.Text <$> bs).
Definition protected_text (r : CompleteRequest.t) : string :=
  block_texts (CompleteRequest.ProtectedSystemBlocks r) +:+ block_texts (CompleteRequest.ProtectedUserBlocks r).
Definition volatile_text (r : CompleteRequest.t) : string :=
  (if bool_decide (CompleteRequest.SystemBlocks r = []) then CompleteRequest.System r else block_texts (CompleteRequest.SystemBlocks r)) +:+
  blank_line +:+
  (if bool_decide (CompleteRequest.UserBlocks r = []) then CompleteRequest.User r else block_texts (CompleteRequest.UserBlocks r)) +:+
  block_texts (CompleteRequest.VolatileSystemBlocks r) +:+ block_texts (CompleteRequest.VolatileUserBlocks r).
Definition countMCPServers req : Z :=
  let encoded := join "" (omap (λ def, b ← def; Some (b +:+ line_break)) (mjoin (WindowRequest.MCPServers req))) in
  if String.eqb encoded "" then 0 else EstimateTokens encoded.

Definition find_config : option WindowConfig.t :=
  snd <$> List.find (λ kv, String.eqb (ProviderConfig.Provider (WindowConfig.Config kv.2)) provider_name) (range providers ord).

(** The decision, once the tokens are counted and the configuration is found. *)
Definition decide_level (cfg : WindowConfig.t) (MaxTokens : Z) (hint : string) (protectedTokens volatileTokens mcpSchemaTokens : Z) : AuditResult.t :=
  let totalTokens := protectedTokens + volatileTokens + mcpSchemaTokens in
  let uncompressibleTokens := protectedTokens + mcpSchemaTokens in
  let maxCtx := WindowConfig.MaxContextWindow cfg in
  let answer l action reserve eff := AuditResult.mk l totalTokens 0 (S754_zero false) action reserve eff mcpSchemaTokens in
  if maxCtx <=? 0 then answer LevelNone "NO_LIMIT_CONFIGURED" 0 0
  else
    let reserveTokens := GetReserveTokens (Some (WindowConfig.Config cfg)) in
    let '(reserveTokens, effectiveMaxCtx) :=
      if maxCtx - reserveTokens <=? 0 then (0, maxCtx) else (reserveTokens, maxCtx - reserveTokens) in
    let tokenLimit := if WindowConfig.TokenLimit cfg =? 0 then effectiveMaxCtx else WindowConfig.TokenLimit cfg in
    let effCtx := if WindowConfig.EffectiveContextWindow cfg <=? 0 then effectiveMaxCtx else WindowConfig.EffectiveContextWindow cfg in
    if fltb (fdiv (float_of_int 3) (float_of_int 4)) (fdiv (float_of_int uncompressibleTokens) (float_of_int maxCtx))
    then answer LevelCritical "PROTECTED_ZONE_OVERRUN_FORK" reserveTokens effectiveMaxCtx
    else
      let effCtx := applyCompressionHint effCtx effectiveMaxCtx hint in
      let inputCap := effectiveMaxCtx - MaxTokens in
      if (0 <? MaxTokens) && (0 <? volatileTokens) && (totalTokens <=? maxCtx) && (0 <? inputCap) && (inputCap <? totalTokens)
      then answer LevelAggressive "OUTPUT_BUDGET_PRESSURE" reserveTokens effectiveMaxCtx
      else if tokenLimit <? totalTokens then answer LevelCritical "HARD_LIMIT_BREACH_FORK" reserveTokens effectiveMaxCtx
      else if effectiveMaxCtx <? totalTokens then answer LevelCritical "FORCE_FORK" reserveTokens effectiveMaxCtx
      else
        let compressibleBudget := Z.max 0 (effCtx - uncompressibleTokens - reserveTokens) in
        if compressibleBudget <? volatileTokens then answer LevelAggressive "SEMANTIC_PRUNING" reserveTokens effectiveMaxCtx
        else if Z.quot compressibleBudget 2 <? volatileTokens then answer LevelLight "STRUCTURAL_DEDUP" reserveTokens effectiveMaxCtx
        else answer LevelNone "PASS" reserveTokens effectiveMaxCtx.
(** No result: the provider could not count. *)
Definition Audit req : option AuditResult.t :=
  let '(protectedTokens, ok) := CountTokens (protected_text (WindowRequest.Request req)) in
  if negb ok then None
  else
    let '(volatileTokens, ok) := CountTokens (volatile_text (WindowRequest.Request req)) in
    if negb ok then None
    else
      let mcpSchemaTokens := countMCPServers req in
      Some match find_config with
           | None => AuditResult.mk LevelNone (protectedTokens + volatileTokens + mcpSchemaTokens) 0 (S754_zero false) "" 0 0 mcpSchemaTokens
           | Some cfg => decide_level cfg (WindowRequest.MaxTokens req) (WindowRequest.CompressionHint req) protectedTokens volatileTokens mcpSchemaTokens
           end.
End audit.

(** ** Searching for a pattern *)

(** Does the pattern match somewhere, its match followed by a text that meets
    [k]?  At the start of the text only, for a pattern with [^]. *)
Definition match_here (r : re) (k : list ascii → bool) (l : list ascii) : bool :=
  bool_decide (is_Some (run r l (λ rest, if k rest then Some rest else None))).
Fixpoint match_some (r : re) (k : list ascii → bool) (l : list ascii) : bool :=
  match_here r k l || match l with [] => false | _ :: l => match_some r k l end.
Definition anywhere (r : re) (s : string) : bool := match_some r (λ _, true) (bytes s).
Definition word_char (a : ascii) : bool := alnum a || Ascii.eqb a "_".
(** [\b] after a word. *)
Definition word_ends (l : list ascii) : bool := match l with a :: _ => negb (word_char a) | [] => true end.
(** [(?m)^]: at the start of the text and after each line break. *)
Fixpoint match_lines (r : re) (k : list ascii → bool) (start : bool) (l : list ascii) : bool :=
  (start && match_here r k l) || match l with [] => false | a :: l => match_lines r k (Ascii.eqb a (ascii_of_nat 10)) l end.

Definition spaces : re := Many re_space.
Definition not_newline (a : ascii) : bool := negb (Ascii.eqb a (ascii_of_nat 10)).
Definition rtkReTimestamp : re :=
  seqs [Lit "["; Times 4 (Chr digit09); Lit "-"; Times 2 (Chr digit09); Lit "-"; Times 2 (Chr digit09); Lit " ";
        Times 2 (Chr digit09); Lit ":"; Times 2 (Chr digit09); Lit ":"; Times 2 (Chr digit09); Lit "]"].
Definition rtkReProgress : re :=
  seqs [alts (Lit "Progress") [Lit "Processing"; Lit "Updating"]; Many not_newline; Alt (Seq (AtLeast 1 digit09) (Lit "%")) (Lit "...")].
Definition reLogNoise : re := alts (LitI "PASS") [LitI "SUCCESS"; LitI "INFO"; LitI "DEBUG"].
Definition reErrorKeyword : re :=
  alts (LitI "FATAL") [LitI "ERROR"; LitI "WARN"; LitI "Exception"; LitI "Traceback"; LitI "panic:"; LitI "failed:"; LitI "FAIL"].
Definition path_char : ascii → bool := either alnum (one_of "_-/\").
Definition reStackTrace : re :=
  alts (seqs [spaces; LitI "at"; AtLeast 1 re_space])
       [seqs [AtLeast 1 re_space; AtLeastI 1 path_char; LitI ".go:"; AtLeast 1 digit09];
        seqs [AtLeast 1 re_space; AtLeastI 1 path_char; Lit "."; AtLeastI 1 (either alnum (one_of "_")); Lit ":"; AtLeast 1 digit09]].
Definition signature_words : re := alts (Lit "func") [Lit "function"; Lit "def"; Lit "class"; Lit "type"; Lit "struct"; Lit "interface"].
Definition reCodeSignature : re := Seq spaces signature_words.
Definition reCodeFeature : re :=
  Seq spaces (alts (Lit "func") [Lit "function"; Lit "def"; Lit "class"; Lit "type"; Lit "struct"; Lit "interface"; Lit "package";
                                 Lit "import"; Lit "using"; Lit "include"; Lit "pub"; Lit "public"; Lit "private"]).

(** ** Repeated lines, and logs *)

Definition text_lines (text : string) : list string := split_on (ascii_of_nat 10) text.
Fixpoint dedup_lines (seen : gset string) (lines : list string) : list string :=
  match lines with
  | [] => []
  | line :: lines =>
      let trimmed := TrimSpace line in
      if String.eqb trimmed "" then line :: dedup_lines seen lines
      else if 100 <? len trimmed then
        if decide (trimmed ∈ seen) then dedup_lines seen lines else line :: dedup_lines ({[trimmed]} ∪ seen) lines
      else line :: dedup_lines seen lines
  end.
Definition applySessionDedup (text : string) : string := join line_break (dedup_lines ∅ (text_lines text)).

Definition is_progress (line : string) : bool := anywhere rtkReProgress line.
Definition is_error_line (line : string) : bool := anywhere reErrorKeyword line || match_here reStackTrace (λ _, true) (bytes line).
Definition clean_line (line : string) : string :=
  of_bytes (ReplaceAllStringFunc rtkReTimestamp (λ st _, (st, [])) tt (bytes line)).2.
Fixpoint log_lines (consecutiveNoise : Z) (lines : list string) : list string :=
  match lines with
  | [] => []
  | line :: lines =>
      if String.eqb (TrimSpace line) "" then line :: log_lines 0 lines
      else if is_progress line then log_lines consecutiveNoise lines
      else if is_error_line line then line :: log_lines 0 lines
      else
        let cleanLine := clean_line line in
        let consecutiveNoise := if anywhere reLogNoise cleanLine then consecutiveNoise + 1 else 0 in
        if anywhere reLogNoise cleanLine && (3 <? consecutiveNoise) then log_lines consecutiveNoise lines
        else if String.eqb (TrimSpace cleanLine) "" then log_lines consecutiveNoise lines
        else cleanLine :: log_lines consecutiveNoise lines
  end.
Definition applyLogCompress (text : string) : string :=
  if String.eqb text "" then "" else TrimSpace (join line_break (log_lines 0 (text_lines text))).
Definition applyRTK : string → string := applyLogCompress.

(** ** Paragraphs *)

Definition Sum256_key := string.
(** [unicode.IsSpace]. *)
Definition rune_space (r : Z) : bool :=
  in_range 9 13 r || in_range 8192 8202 r || bool_decide (r ∈ [32; 133; 160; 5760; 8232; 8233; 8239; 8287; 12288]).
Definition not_blank (p : string) : bool := negb (String.eqb (TrimSpace p) "").
Definition splitParagraphs (text : string) : list string * string :=
  if contains blank_line text then (List.filter not_blank (Split text blank_line), blank_line)
  else (List.filter not_blank (text_lines text), line_break).
Definition paragraphDensity (p : string) : float64 :=
  if len p =? 0 then S754_zero false
  else fdiv (float_of_int (Z.of_nat (length (List.filter (λ r, negb (rune_space r)) (runes p))))) (float_of_int (len p)).
Definition compressParagraph (p : string) (keepLines : nat) : string :=
  let lines := text_lines p in
  if (length lines <=? keepLines)%nat then p else join line_break (take keepLines lines) +:+ line_break +:+ "... [compressed]".
Definition densityThreshold : float64 := fdiv (float_of_int 1) (float_of_int 2).

Section pruning.
(** [sha256.Sum256]. *)
Context (Sum256 : string → Sum256_key).
Fixpoint unique_paragraphs (seen : gset Sum256_key) (ps : list string) : list string :=
  match ps with
  | [] => []
  | p :: ps =>
      let h := Sum256 (TrimSpace p) in
      if decide (h ∈ seen) then unique_paragraphs seen ps else p :: unique_paragraphs ({[h]} ∪ seen) ps
  end.
Definition prune_middle (ps : list string) : list string :=
  omap (λ p, if fltb densityThreshold (paragraphDensity p) then Some (compressParagraph p 3) else None) ps.
Definition pruned (unique : list string) : list string :=
  take 2 unique ++ prune_middle (take (length unique - 4) (drop 2 unique)) ++ drop (length unique - 2) unique.
Definition ApplySemanticPruning (text : string) : string :=
  let '(paragraphs, sep) := splitParagraphs text in
  if (length paragraphs <=? 5)%nat then text
  else
    let unique := unique_paragraphs ∅ paragraphs in
    if (length unique <=? 5)%nat then join sep unique else join sep (pruned unique).
End pruning.

(** ** JSON *)

Definition json_error_text (s : string) : bool :=
  let lower := to_lower s in existsb (λ w, contains w lower) ["error"; "fail"; "exception"; "fatal"; "panic"].
Definition error_key (k : string) : bool :=
  let kLower := to_lower k in existsb (λ w, contains w kLower) ["error"; "fail"; "exception"].
Fixpoint jsonNodeContainsError (node : any) : bool :=
  match node with
  | AString v => json_error_text v
  | AMap v => existsb (λ kv, error_key kv.1 || jsonNodeContainsError kv.2) v
  | AList v => existsb jsonNodeContainsError v
  | _ => false
  end.
Definition count_mark (n : Z) : any := AMap [("_compressed_count", AInt n)].
Definition flush_count (n : Z) : list any := if 0 <? n then [count_mark n] else [].
(** The loop over an array of [len] items, at item [i]. *)
Fixpoint thin (len i count : Z) (items : list any) : list any :=
  match items with
  | [] => flush_count count
  | item :: items =>
      if (i <? 2) || (len - 2 <=? i) || jsonNodeContainsError item
      then flush_count count ++ item :: thin len (i + 1) 0 items
      else thin len (i + 1) (count + 1) items
  end.
Fixpoint thinned (len i : Z) (items : list any) : bool :=
  match items with
  | [] => false
  | item :: items => negb ((i <? 2) || (len - 2 <=? i) || jsonNodeContainsError item) || thinned len (i + 1) items
  end.
Fixpoint compressJSONNode (node : any) : any * bool :=
  match node with
  | AList v =>
      let rs := map compressJSONNode v in
      let n := Z.of_nat (length v) in
      if n <=? 5 then (AList (map fst rs), existsb snd rs) else (AList (thin n 0 0 (map fst rs)), thinned n 0 (map fst rs))
  | AMap v =>
      let rs := map (λ kv, (kv.1, compressJSONNode kv.2)) v in
      (AMap (map (λ kr, (kr.1, kr.2.1)) rs), existsb (λ kr, kr.2.2) rs)
  | _ => (node, false)
  end.
Section json.
(** [json.Unmarshal] and [json.Marshal]. *)
Context (Unmarshal : string → option any) (Marshal : any → option string).
Definition applyJSONCompress (text : string) : string :=
  let trimmed := TrimSpace text in
  if negb (has_prefix "{" trimmed) && negb (has_prefix "[" trimmed) then text
  else match Unmarshal trimmed with
       | None => text
       | Some data =>
           let '(compressedData, changed) := compressJSONNode data in
           if changed then default text (Marshal compressedData) else text
       end.
End json.

(** ** Code *)

Module code_state.
Record t := mk { result : list string; inBody : bool; bodyLines : Z; bodyBuffer : list string; braceDepth : Z }.
End code_state.
Definition tab : string := String (ascii_of_nat 9) "".
Definition body_mark (n : Z) : string := tab +:+ "/* ... " +:+ pretty n +:+ " lines compressed ... */".
Definition is_signature (line : string) : bool := match_lines reCodeSignature word_ends true (bytes line).
(** What is written for the body read so far. *)
Definition close_body (st : code_state.t) : list string :=
  if code_state.inBody st
  then if 5 <? code_state.bodyLines st then [body_mark (code_state.bodyLines st)] else code_state.bodyBuffer st
  else [].
Definition code_line (st : code_state.t) (line : string) : code_state.t :=
  let openBraces := Z.of_nat (count line "{") in
  let closeBraces := Z.of_nat (count line "}") in
  if is_signature line
  then code_state.mk (code_state.result st ++ close_body st ++ [line]) true 0 [] (openBraces - closeBraces)
  else if code_state.inBody st then
    let depth := code_state.braceDepth st + (openBraces - closeBraces) in
    if (depth <=? 0) && (has_prefix "}" (TrimSpace line) || (0 <? closeBraces))
    then code_state.mk (code_state.result st ++ close_body st ++ [line]) false 0 [] depth
    else code_state.mk (code_state.result st) true (code_state.bodyLines st + 1) (code_state.bodyBuffer st ++ [line]) depth
  else code_state.mk (code_state.result st ++ [line]) false (code_state.bodyLines st) (code_state.bodyBuffer st) (code_state.braceDepth st).
Definition compress_code (lines : list string) : list string :=
  let st := foldl code_line (code_state.mk [] false 0 [] 0) lines in code_state.result st ++ close_body st.
Definition applyCodeCompress (text : string) : string :=
  if negb (match_lines reCodeFeature word_ends true (bytes text)) then text
  else if (length (text_lines text) <? 15)%nat then text
  else join line_break (compress_code (text_lines text)).

(** ** Squeezing a request *)

Section squeeze.
Context (CountTokens : string → Z * bool) (Sum256 : string → Sum256_key).
Context (Unmarshal : string → option any) (Marshal : any → option string).

(** The text of the flat field, replaced by the blocks if there are any, then
    the volatile blocks. *)
Definition zone_text (flat : string) (legacy volatile : list ContentBlock.t) : string :=
  let lines := λ bs : list ContentBlock.t, join "" ((λ b, ContentBlock.Text b +:+ line_break) <$> bs) in
  (if bool_decide (legacy = []) then flat else lines legacy) +:+ lines volatile.
Definition squeezeUserBlock (level : CompressionLevel) (s : string) : string :=
  let s := if at_least level LevelLight then applyCodeCompress (applyJSONCompress Unmarshal Marshal (applyRTK s)) else s in
  if at_least level LevelAggressive then ApplySemanticPruning Sum256 s else s.
Definition squeezeSysBlock (level : CompressionLevel) (s : string) : string :=
  if at_least level LevelLight then applySessionDedup s else s.
Definition rebuild (legacy volatileBlk : list ContentBlock.t) (fn : string → string) : list ContentBlock.t :=
  (λ b, ContentBlock.mk (if String.eqb (ContentBlock.Type_ b) "" then "text" else ContentBlock.Type_ b) (fn (ContentBlock.Text b))
          (ContentBlock.CacheControl b) (ContentBlock.Category b) (ContentBlock.Metadata b)) <$> legacy ++ volatileBlk.
Definition protected_concat (r : CompleteRequest.t) : string :=
  join blank_line (ContentBlock.Text <$> CompleteRequest.ProtectedSystemBlocks r ++ CompleteRequest.ProtectedUserBlocks r).
Definition with_protected (protected system : string) : string :=
  if String.eqb protected "" then system else protected +:+ blank_line +:+ system.
Definition squeezed_request (r : CompleteRequest.t) (level : CompressionLevel) : CompleteRequest.t :=
  let volatileSystem := zone_text (CompleteRequest.System r) (CompleteRequest.SystemBlocks r) (CompleteRequest.VolatileSystemBlocks r) in
  let volatileUser := zone_text (CompleteRequest.User r) (CompleteRequest.UserBlocks r) (CompleteRequest.VolatileUserBlocks r) in
  CompleteRequest.mk (with_protected (protected_concat r) (squeezeSysBlock level volatileSystem)) (squeezeUserBlock level volatileUser)
    (rebuild (CompleteRequest.SystemBlocks r) (CompleteRequest.VolatileSystemBlocks r) (squeezeSysBlock level))
    (rebuild (CompleteRequest.UserBlocks r) (CompleteRequest.VolatileUserBlocks r) (squeezeUserBlock level))
    (CompleteRequest.ProtectedSystemBlocks r) (CompleteRequest.ProtectedUserBlocks r)
    (CompleteRequest.VolatileSystemBlocks r) (CompleteRequest.VolatileUserBlocks r)
    (CompleteRequest.Model r) (CompleteRequest.Attachments r) (CompleteRequest.Constraints r).
Definition both (system user : string) : string := system +:+ blank_line +:+ user.
Definition Squeeze (r : CompleteRequest.t) (level : CompressionLevel) : CompleteRequest.t * AuditResult.t :=
  match level with
  | LevelNone => (r, AuditResult.mk LevelNone 0 0 (float_of_int 1) "" 0 0 0)
  | _ =>
      let originalVolatile :=
        both (zone_text (CompleteRequest.System r) (CompleteRequest.SystemBlocks r) (CompleteRequest.VolatileSystemBlocks r))
             (zone_text (CompleteRequest.User r) (CompleteRequest.UserBlocks r) (CompleteRequest.VolatileUserBlocks r)) in
      let origTokens := (CountTokens originalVolatile).1 in
      let newReq := squeezed_request r level in
      let compressedText := both (CompleteRequest.System newReq) (CompleteRequest.User newReq) in
      let '(faithful, lost) := if at_least level LevelAggressive
                               then VerifyFidelity (originalVolatile +:+ blank_line +:+ protected_concat r) compressedText
                               else (true, "") in
      if negb faithful
      then (newReq, AuditResult.mk LevelCritical origTokens 0 (S754_zero false) ("ANCHOR_LOSS_FORCE_FORK: " +:+ lost) 0 0 0)
      else
        let compTokens := (CountTokens compressedText).1 in
        let ratio := if 0 <? origTokens then fdiv (float_of_int compTokens) (float_of_int origTokens) else float_of_int 1 in
        (newReq, AuditResult.mk level origTokens compTokens ratio "" 0 0 0)
  end.
End squeeze.

(** ** The decision *)

(** What is decided, given whether the part that cannot be compressed is too
    large, the room for a request, for its volatile part and the hard limit. *)
Definition level_of (over : bool) (maxCtx eff budget limit maxTok v total : Z) : CompressionLevel :=
  if over then LevelCritical
  else if (0 <? maxTok) && (0 <? v) && (total <=? maxCtx) && (0 <? eff - maxTok) && (eff - maxTok <? total) then LevelAggressive
  else if (limit <? total) || (eff <? total) then LevelCritical
  else if budget <? v then LevelAggressive
  else if Z.quot budget 2 <? v then LevelLight else LevelNone.

Lemma reserve_positive c : 0 < GetReserveTokens (Some c).
Proof. unfold GetReserveTokens. destruct (0 <? ProviderConfig.ReserveTokens c) eqn:E; [lia|]. by destruct (GetModelTier (Some c)). Qed.

Lemma decide_level_spec cfg hint p m : 0 < WindowConfig.MaxContextWindow cfg →
  ∃ over eff budget limit, 0 < eff ≤ WindowConfig.MaxContextWindow cfg ∧ 0 <= budget ∧
    limit = (if WindowConfig.TokenLimit cfg =? 0 then eff else WindowConfig.TokenLimit cfg) ∧
    ∀ maxTok v, let a := decide_level cfg maxTok hint p v m in
      AuditResult.EffectiveMaxCtx a = eff ∧
      AuditResult.Decision a = level_of over (WindowConfig.MaxContextWindow cfg) eff budget limit maxTok v (p + v + m).
Proof.
  intros Hmax. pose proof (reserve_positive (WindowConfig.Config cfg)) as Hr.
  set (over := fltb (fdiv (float_of_int 3) (float_of_int 4)) (fdiv (float_of_int (p + m)) (float_of_int (WindowConfig.MaxContextWindow cfg)))).
  set (pair := if WindowConfig.MaxContextWindow cfg - GetReserveTokens (Some (WindowConfig.Config cfg)) <=? 0
               then (0, WindowConfig.MaxContextWindow cfg)
               else (GetReserveTokens (Some (WindowConfig.Config cfg)), WindowConfig.MaxContextWindow cfg - GetReserveTokens (Some (WindowConfig.Config cfg)))).
  assert (0 < pair.2 ≤ WindowConfig.MaxContextWindow cfg) as Heff by (unfold pair; destruct (_ <=? 0) eqn:E; cbn [snd]; lia).
  set (effCtx := applyCompressionHint (if WindowConfig.EffectiveContextWindow cfg <=? 0 then pair.2 else WindowConfig.EffectiveContextWindow cfg) pair.2 hint).
  exists over, pair.2, (Z.max 0 (effCtx - (p + m) - pair.1)), (if WindowConfig.TokenLimit cfg =? 0 then pair.2 else WindowConfig.TokenLimit cfg).
  split_and!; [lia|lia|lia|done|]. intros maxTok v. unfold decide_level, level_of.
  rewrite (proj2 (Z.leb_gt _ _) Hmax). fold over. fold pair. unfold effCtx. destruct pair as [rt eff]. cbn [fst snd].
  destruct over; [done|]. destruct (_ && _); [done|].
  destruct (_ <? p + v + m); [done|]. cbn [orb]. destruct (eff <? p + v + m); [done|].
  destruct (_ <? v); [done|]. by destruct (_ <? v).
Qed.

(** A request that the audit lets through without pruning (no compression
    or the light one) fits the context window after the reserve for the reply,
    and its output fits too when one was asked for that leaves any room; and
    unless an output is asked for, more volatile text never leads to a weaker
    compression. *)
Theorem audit_room cfg hint p m : 0 < WindowConfig.MaxContextWindow cfg → 0 <= p → 0 <= m →
  (∀ maxTok v, let a := decide_level cfg maxTok hint p v m in
     level_rank (AuditResult.Decision a) <= 1 →
     p + v + m <= AuditResult.EffectiveMaxCtx a <= WindowConfig.MaxContextWindow cfg ∧
     (0 < maxTok < AuditResult.EffectiveMaxCtx a → 0 < v → p + v + m + maxTok <= AuditResult.EffectiveMaxCtx a)) ∧
  (∀ maxTok v v', maxTok <= 0 → v <= v' →
     level_rank (AuditResult.Decision (decide_level cfg maxTok hint p v m)) <=
     level_rank (AuditResult.Decision (decide_level cfg maxTok hint p v' m))).
Proof.
  intros Hmax Hp Hm. destruct (decide_level_spec cfg hint p m Hmax) as (over & eff & budget & limit & Heff & Hb & Hl & Hd). split.
  - intros maxTok v a Hrank. destruct (Hd maxTok v) as [Ha Hdec]. fold a in Ha, Hdec. rewrite Hdec in Hrank. rewrite Ha. clear Hdec Ha.
    unfold level_of in Hrank. destruct over; [cbn in Hrank; lia|].
    destruct (_ && _) eqn:E; [cbn in Hrank; lia|].
    destruct (_ || _) eqn:E2; [cbn in Hrank; lia|]. apply orb_false_iff in E2 as [_ E2]. lia.
  - intros maxTok v v' HT Hv. rewrite (proj2 (Hd maxTok v)), (proj2 (Hd maxTok v')). unfold level_of.
    destruct over; [done|]. rewrite (proj2 (Z.ltb_ge 0 maxTok) HT). cbn [andb].
    destruct (limit <? p + v + m) eqn:E1, (limit <? p + v' + m) eqn:E2, (eff <? p + v + m) eqn:E3, (eff <? p + v' + m) eqn:E4;
      try lia; cbn [orb level_rank]; try lia;
      destruct (budget <? v) eqn:E5, (budget <? v') eqn:E6, (Z.quot budget 2 <? v) eqn:E7, (Z.quot budget 2 <? v') eqn:E8;
      cbn [level_rank]; lia.
Qed.

Definition ex_config : WindowConfig.t := WindowConfig.mk (ProviderConfig.mk "" "openai" "GPT-4o-mini" 1000) 9000 0 0.
Lemma audit_room_witness :
  AuditResult.Decision (decide_level ex_config 500 "" 1000 2000 500) = LevelNone ∧ 3500 + 500 <= 8000 ∧
  level_rank (AuditResult.Decision (decide_level ex_config 0 "" 1000 2000 500)) <=
  level_rank (AuditResult.Decision (decide_level ex_config 0 "" 1000 6000 500)).
Proof.
  assert (0 < WindowConfig.MaxContextWindow ex_config) as Hc by (cbn; lia).
  destruct (audit_room ex_config "" 1000 500 Hc ltac:(lia) ltac:(lia)) as [Hfit Hmono].
  split; [vm_compute; reflexivity|]. split; [|apply Hmono; lia].
  destruct (Hfit 500 2000) as [_ H]; [vm_compute; discriminate|]. apply H; [vm_compute; auto|lia].
Defined.
(** Asked for an output, more text can lead to a weaker compression: a prompt of
    4,500 tokens must be split, one of 5,500 is only pruned. *)
Definition decided (cfg : WindowConfig.t) (maxTok v : Z) : CompressionLevel * string :=
  let a := decide_level cfg maxTok "" 0 v 0 in (AuditResult.Decision a, AuditResult.ActionTaken a).
Example pressure_before_limit :
  decided (ex_config <| WindowConfig.TokenLimit := 4000 |>) 3000 <$> [4500; 5500] =
  [(LevelCritical, "HARD_LIMIT_BREACH_FORK"); (LevelAggressive, "OUTPUT_BUDGET_PRESSURE")].
Proof. vm_compute. reflexivity. Qed.
(** An output that leaves no room for the prompt is not noticed. *)
Example output_fills_window : decided ex_config 8000 3000 = (LevelNone, "PASS").
Proof. vm_compute. reflexivity. Qed.
(** Without an effective window the reserve is subtracted twice: 7,500 tokens
    of 8,000 are pruned although 7,000 is the room only after a second reserve. *)
Example reserve_twice : decided ex_config 0 7500 = (LevelAggressive, "SEMANTIC_PRUNING") ∧
  decided (ex_config <| WindowConfig.EffectiveContextWindow := 9000 |>) 0 7500 = (LevelLight, "STRUCTURAL_DEDUP").
Proof. split; vm_compute; reflexivity. Qed.

(** ** What survives in JSON *)

(** The texts and keys that speak of an error, in order. *)
Fixpoint errors_of (node : any) : list string :=
  match node with
  | AString v => if json_error_text v then [v] else []
  | AMap v => flat_map (λ kv, (if error_key kv.1 then [kv.1] else []) ++ errors_of kv.2) v
  | AList v => flat_map errors_of v
  | _ => []
  end.

Section tree_ind.
Variable P : any → Prop.
Hypothesis Hleaf : ∀ n, match n with AList _ | AMap _ => False | _ => True end → P n.
Hypothesis Hlist : ∀ l, Forall P l → P (AList l).
Hypothesis Hmap : ∀ m, Forall (λ kv, P kv.2) m → P (AMap m).
Fixpoint any_tree (n : any) : P n.
Proof using Type*.
  destruct n as [| | | | | | |l|m|]; try by apply Hleaf.
  - apply Hlist. induction l; constructor; auto.
  - apply Hmap. induction m; constructor; auto.
Defined.
End tree_ind.

Lemma flat_map_nothing {A B} (f : A → list B) l : flat_map f l = [] ↔ Forall (λ x, f x = []) l.
Proof. induction l as [|x l IH]; cbn; [by split|]. by rewrite app_nil, IH, Forall_cons. Qed.
Lemma existsb_none {A} (f : A → bool) l : existsb f l = false ↔ Forall (λ x, f x = false) l.
Proof. induction l as [|x l IH]; cbn; [by split|]. by rewrite orb_false_iff, IH, Forall_cons. Qed.
Lemma Forall_iff_in {A} (P Q : A → Prop) l : Forall (λ x, P x ↔ Q x) l → Forall P l ↔ Forall Q l.
Proof. induction 1 as [|x l Hx _ IH]; [by rewrite !Forall_nil|]. by rewrite !Forall_cons, Hx, IH. Qed.
Lemma errors_none n : jsonNodeContainsError n = false ↔ errors_of n = [].
Proof.
  induction n as [n Hn|l IH|m IH] using any_tree; cbn.
  - destruct n; try contradiction; try (by split); cbn [jsonNodeContainsError errors_of]. destruct (json_error_text s); by split.
  - rewrite flat_map_nothing, existsb_none. by apply Forall_iff_in.
  - rewrite flat_map_nothing, existsb_none. apply Forall_iff_in. eapply Forall_impl; [exact IH|]. intros [k x] Hx. cbn in *.
    rewrite orb_false_iff, app_nil, Hx. destruct (_ || _); split; by intros [? ?].
Qed.
Lemma flat_map_app' {A B} (f : A → list B) l l' : flat_map f (l ++ l') = flat_map f l ++ flat_map f l'.
Proof. induction l; cbn; [done|]. by rewrite IHl, app_assoc. Qed.
Lemma flush_errors n : flat_map errors_of (flush_count n) = [].
Proof. unfold flush_count. by destruct (0 <? n). Qed.
Lemma thin_errors len items : ∀ i count, flat_map errors_of (thin len i count items) = flat_map errors_of items.
Proof.
  induction items as [|x items IH]; intros i count; cbn [thin flat_map]; [apply flush_errors|].
  destruct (_ || _) eqn:E.
  - by rewrite flat_map_app', flush_errors; cbn [flat_map app]; rewrite IH.
  - rewrite IH. apply orb_false_iff in E as [_ E]. by rewrite (proj1 (errors_none x) E).
Qed.
Lemma flat_map_ext_in' {A B C} (f : B → list C) (g : A → B) (h : A → list C) l :
  Forall (λ x, f (g x) = h x) l → flat_map f (map g l) = flat_map h l.
Proof. induction 1; cbn; congruence. Qed.

Lemma compress_errors n : errors_of (compressJSONNode n).1 = errors_of n.
Proof.
  induction n as [n Hn|l IH|m IH] using any_tree; [destruct n; try contradiction; reflexivity| |].
  - cbn [compressJSONNode]. destruct (_ <=? 5); cbn [fst errors_of]; rewrite ?thin_errors, map_map; by apply flat_map_ext_in'.
  - cbn [compressJSONNode fst errors_of]. rewrite map_map. apply flat_map_ext_in'.
    eapply Forall_impl; [exact IH|]. intros [k x] Hx. cbn in *. by rewrite Hx.
Qed.

(** An array without some of its items: each run of missing items is counted,
    and none of them speaks of an error. *)
Inductive thins : list any → list any → Prop :=
| thins_nil : thins [] []
| thins_keep x l l' : thins l l' → thins (x :: l) (x :: l')
| thins_count ds l l' : ds ≠ [] → Forall (λ d, jsonNodeContainsError d = false) ds → thins l l' →
    thins (ds ++ l) (count_mark (Z.of_nat (length ds)) :: l').
Lemma thins_flush ds l l' : Forall (λ d, jsonNodeContainsError d = false) ds → thins l l' →
  thins (ds ++ l) (flush_count (Z.of_nat (length ds)) ++ l').
Proof. destruct ds; [done|]. by constructor. Qed.
Lemma thin_thins len items : ∀ i ds, Forall (λ d, jsonNodeContainsError d = false) ds →
  thins (ds ++ items) (thin len i (Z.of_nat (length ds)) items).
Proof.
  induction items as [|x items IH]; intros i ds Hds; cbn [thin].
  - rewrite <- (app_nil_r (flush_count _)). apply thins_flush; [done|constructor].
  - destruct (_ || _) eqn:E.
    + apply thins_flush; [done|]. constructor. by apply (IH (i + 1) []).
    + apply orb_false_iff in E as [_ E]. replace (ds ++ x :: items) with ((ds ++ [x]) ++ items) by by rewrite <- app_assoc.
      replace (Z.of_nat (length ds) + 1) with (Z.of_nat (length (ds ++ [x]))) by (rewrite length_app; cbn; lia).
      apply IH. apply Forall_app. by repeat constructor.
Qed.

(** C33: Compressing JSON loses no sign of an error: the texts and keys that
    speak of an error are the same, in the same order, wherever they are nested;
    and an array of more than five items keeps its order and its items but for
    runs without an error, each replaced by the number of items it had. *)
Theorem errors_survive n :
  errors_of (compressJSONNode n).1 = errors_of n ∧ jsonNodeContainsError (compressJSONNode n).1 = jsonNodeContainsError n ∧
  (∀ v, n = AList v → (5 < length v)%nat → ∃ out, (compressJSONNode n).1 = AList out ∧ thins (fst ∘ compressJSONNode <$> v) out).
Proof.
  split_and!; [apply compress_errors| |].
  - pose proof (errors_none (compressJSONNode n).1) as H. rewrite compress_errors, <- errors_none in H.
    destruct (jsonNodeContainsError _), (jsonNodeContainsError n); naive_solver.
  - intros v -> Hv. cbn [compressJSONNode]. rewrite (proj2 (Z.leb_gt _ 5)) by lia. eexists. split; [reflexivity|].
    rewrite map_map. apply (thin_thins _ _ 0 []). constructor.
Qed.
Definition ex_rows : list any := [AInt 1; AInt 2; AInt 3; AInt 4; AString "disk failure"; AInt 6; AInt 7; AInt 8].
Lemma errors_survive_witness :
  (compressJSONNode (AList ex_rows)).1 =
    AList [AInt 1; AInt 2; count_mark 2; AString "disk failure"; count_mark 1; AInt 7; AInt 8] ∧
  ∃ out, (compressJSONNode (AList ex_rows)).1 = AList out ∧ thins (fst ∘ compressJSONNode <$> ex_rows) out.
Proof. split; [vm_compute; reflexivity|]. apply (errors_survive (AList ex_rows)); [reflexivity|]. cbn. lia. Defined.
(** An array of more than five items whose items all stay is reported as
    unchanged even when one of them got smaller, and the text is then not
    replaced. *)
Example nested_change_unreported :
  let log := AList (repeat (AInt 0) 9) in let r := compressJSONNode (AList (log :: repeat (AString "error") 5)) in
  r.2 = false ∧ r.1 ≠ AList (log :: repeat (AString "error") 5).
Proof. split; [vm_compute; reflexivity|vm_compute; discriminate]. Qed.

(** ** What survives in lines *)

(** Lines of an error or of a stack, unless they also look like progress. *)
Definition must_keep (line : string) : bool := not_blank line && negb (is_progress line) && is_error_line line.
Lemma log_keeps_errors lines : ∀ n, List.filter must_keep lines `sublist_of` log_lines n lines.
Proof.
  induction lines as [|line lines IH]; intros n; cbn [log_lines List.filter]; [done|]. unfold must_keep, not_blank in *.
  destruct (String.eqb (TrimSpace line) ""); cbn [negb andb]; [by apply sublist_cons|].
  destruct (is_progress line); cbn [negb andb]; [done|].
  destruct (is_error_line line); [by apply sublist_skip|].
  destruct (_ && _); [done|]. destruct (String.eqb (TrimSpace (clean_line line)) ""); [done|by apply sublist_cons].
Qed.

Lemma dedup_sublist lines : ∀ seen, dedup_lines seen lines `sublist_of` lines.
Proof.
  induction lines as [|line lines IH]; intros seen; cbn [dedup_lines]; [done|].
  destruct (String.eqb _ _); [by apply sublist_skip|]. destruct (100 <? _); [|by apply sublist_skip].
  destruct (decide _); [by apply sublist_cons|by apply sublist_skip].
Qed.
Lemma dedup_keeps lines line : ∀ seen, line ∈ lines → TrimSpace line ∉ seen → TrimSpace line ∈ TrimSpace <$> dedup_lines seen lines.
Proof.
  induction lines as [|l lines IH]; intros seen Hin Hseen; cbn [dedup_lines]; [by apply not_elem_of_nil in Hin|].
  apply elem_of_cons in Hin as [->|Hin].
  - destruct (String.eqb _ _); [by left|]. destruct (100 <? _); [|by left]. destruct (decide _); [done|by left].
  - destruct (String.eqb _ _); [right; auto|]. destruct (100 <? _); [|right; auto].
    destruct (decide _); [auto|]. destruct (decide (TrimSpace line = TrimSpace l)) as [E|E]; [rewrite E; by left|].
    right. apply IH; [done|]. set_solver.
Qed.
Lemma dedup_once lines : ∀ seen, let long l := (100 <? len (TrimSpace l)) && not_blank l in
  NoDup (TrimSpace <$> List.filter long (dedup_lines seen lines)) ∧
  (∀ l, l ∈ List.filter long (dedup_lines seen lines) → TrimSpace l ∉ seen).
Proof.
  induction lines as [|l lines IH]; intros seen long; cbn [dedup_lines]; [split; [constructor|intros l H; by apply not_elem_of_nil in H]|].
  assert (∀ b, long l = b → List.filter long (l :: dedup_lines seen lines) = if b then l :: List.filter long (dedup_lines seen lines) else List.filter long (dedup_lines seen lines)) as Hf
    by (intros b <-; done).
  unfold long in *. clear long.
  destruct (String.eqb (TrimSpace l) "") eqn:Eb.
  - rewrite (Hf false) by (unfold not_blank; by rewrite Eb, andb_false_r). apply IH.
  - destruct (100 <? len (TrimSpace l)) eqn:E; [|rewrite (Hf false) by done; apply IH].
    destruct (decide _) as [Hs|Hs]; [apply IH|]. cbn [List.filter]. rewrite E. unfold not_blank at 1. rewrite Eb. cbn [negb andb].
    destruct (IH ({[TrimSpace l]} ∪ seen)) as [IH1 IH2]. split.
    + cbn [fmap list_fmap]. constructor; [|exact IH1]. intros (y & Ey & Hy)%list_elem_of_fmap. apply IH2 in Hy. set_solver.
    + unfold not_blank at 1. rewrite Eb. cbn [negb andb]. intros y [->|Hy]%elem_of_cons; [done|]. apply IH2 in Hy. set_solver.
Qed.

(** Code keeps its signatures, in order. *)
Lemma code_fold lines : ∀ st, List.filter is_signature (code_state.bodyBuffer st) = [] →
  let st' := foldl code_line st lines in
  (∃ more, code_state.result st' = code_state.result st ++ more ∧ List.filter is_signature lines `sublist_of` more) ∧
  List.filter is_signature (code_state.bodyBuffer st') = [].
Proof.
  induction lines as [|line lines IH]; intros st Hbuf; cbn [foldl].
  - split; [|done]. exists []. by rewrite app_nil_r.
  - assert (List.filter is_signature (code_state.bodyBuffer (code_line st line)) = [] ∧
            ∃ more, code_state.result (code_line st line) = code_state.result st ++ more ∧
                    (if is_signature line then [line] else []) `sublist_of` more) as [Hbuf' (m1 & E1 & S1)].
    { unfold code_line. destruct (is_signature line) eqn:Es; cbn [code_state.bodyBuffer code_state.result].
      - split; [done|]. exists (close_body st ++ [line]). split; [done|]. by apply sublist_inserts_l.
      - destruct (code_state.inBody st) eqn:Ei; [destruct (_ && _)|]; cbn [code_state.bodyBuffer code_state.result].
        + split; [done|]. eexists. split; [done|]. apply sublist_nil_l.
        + split; [|exists []; split; [by rewrite app_nil_r|done]]. rewrite List.filter_app, Hbuf. cbn. by rewrite Es.
        + split; [done|]. eexists. split; [done|]. apply sublist_nil_l. }
    destruct (IH (code_line st line) Hbuf') as [(m2 & E2 & S2) Hend]. split; [|done].
    exists (m1 ++ m2). rewrite E2, E1, <- app_assoc. split; [done|]. cbn [List.filter].
    destruct (is_signature line); [apply (sublist_app [line]); done|by apply sublist_inserts_l].
Qed.
Lemma code_keeps_signatures lines : List.filter is_signature lines `sublist_of` compress_code lines.
Proof.
  destruct (code_fold lines (code_state.mk [] false 0 [] 0)) as [(more & E & H) _]; [done|].
  unfold compress_code. rewrite E. cbn. by apply sublist_inserts_r.
Qed.

(** ** What survives in a request *)

Definition anchors : list string := ["S2T"; "DecisionID"; "Goal:"; "Final Result:"; "$artifact"; "$contract"].
Lemma lost_signal_ok sigs o c :
  (lost_signal sigs o c).1 = true → ∀ s, s ∈ sigs → contains s o = true → contains s c = true.
Proof.
  induction sigs as [|sig sigs IH]; cbn [lost_signal]; [by intros _ s H%not_elem_of_nil|].
  destruct (contains sig o && negb (contains sig c)) eqn:E; [done|]. intros H s [->|Hs]%elem_of_cons; [|by apply IH].
  intros Ho. rewrite Ho in E. by destruct (contains sig c).
Qed.
Lemma string_app_nil (s : string) : s +:+ "" = s.
Proof. induction s as [|a s IH]; [done|]. exact (f_equal (String a) IH). Qed.
Lemma join_contains sep l x : x ∈ l → ∃ u z, join sep l = u +:+ x +:+ z.
Proof.
  induction l as [|y l IH]; [by intros H%not_elem_of_nil|]. intros [->|H]%elem_of_cons.
  - exists "". destruct l as [|z l]; [exists ""|exists (sep +:+ join sep (z :: l))]; cbn [join]; [by rewrite string_app_nil|done].
  - destruct (IH H) as (u & z & E). destruct l as [|w l]; [by apply not_elem_of_nil in H|].
    exists (y +:+ sep +:+ u), z. change (join sep (y :: w :: l)) with (y +:+ sep +:+ join sep (w :: l)). rewrite E. by rewrite !string_app_assoc.
Qed.
Definition shape (b : ContentBlock.t) : string * string * gmap string any :=
  (ContentBlock.CacheControl b, ContentBlock.Category b, ContentBlock.Metadata b).
Lemma rebuild_shape legacy volatileBlk fn : shape <$> rebuild legacy volatileBlk fn = shape <$> legacy ++ volatileBlk.
Proof. unfold rebuild. rewrite <- list_fmap_compose. by apply list_fmap_ext. Qed.

(** Squeezing a request leaves the protected blocks as they are and puts
    the text of each, word for word, into the system text; it keeps every
    volatile block, in its place and with its marks; and pruning that is not
    turned into a split keeps every anchor of the volatile and protected text. *)
Theorem squeeze_protects CountTokens Sum256 Unmarshal Marshal r level :
  let '(r', a) := Squeeze CountTokens Sum256 Unmarshal Marshal r level in
  CompleteRequest.ProtectedSystemBlocks r' = CompleteRequest.ProtectedSystemBlocks r ∧
  CompleteRequest.ProtectedUserBlocks r' = CompleteRequest.ProtectedUserBlocks r ∧
  (level ≠ LevelNone →
   (∀ b, b ∈ CompleteRequest.ProtectedSystemBlocks r ++ CompleteRequest.ProtectedUserBlocks r →
      ∃ u z, CompleteRequest.System r' = u +:+ ContentBlock.Text b +:+ z) ∧
   shape <$> CompleteRequest.SystemBlocks r' = shape <$> CompleteRequest.SystemBlocks r ++ CompleteRequest.VolatileSystemBlocks r ∧
   shape <$> CompleteRequest.UserBlocks r' = shape <$> CompleteRequest.UserBlocks r ++ CompleteRequest.VolatileUserBlocks r) ∧
  (level = LevelAggressive → AuditResult.Decision a ≠ LevelCritical → ∀ s, s ∈ anchors →
   contains s (both (zone_text (CompleteRequest.System r) (CompleteRequest.SystemBlocks r) (CompleteRequest.VolatileSystemBlocks r))
                    (zone_text (CompleteRequest.User r) (CompleteRequest.UserBlocks r) (CompleteRequest.VolatileUserBlocks r)) +:+
               blank_line +:+ protected_concat r) = true →
   contains s (both (CompleteRequest.System r') (CompleteRequest.User r')) = true).
Proof.
  destruct (Squeeze _ _ _ _ r level) as [r' a] eqn:E. unfold Squeeze in E.
  destruct (decide (level = LevelNone)) as [->|Hl]; [by injection E as <- _|].
  assert (r' = squeezed_request Sum256 Unmarshal Marshal r level) as Er.
  { destruct level; [done|..]; cbv zeta in E;
      match type of E with (let '(_, _) := ?p in _) = _ => destruct p as [[] lost] end; cbn [negb] in E; by injection E as <- _. }
  split_and!; [by rewrite Er|by rewrite Er| |].
  - intros _. rewrite Er. cbn [squeezed_request CompleteRequest.System CompleteRequest.SystemBlocks CompleteRequest.UserBlocks].
    split_and!; [|apply rebuild_shape..]. intros b Hb.
    destruct (join_contains blank_line _ _ (list_elem_of_fmap_2 ContentBlock.Text _ _ Hb)) as (u & z & Eb). fold (protected_concat r) in Eb.
    unfold with_protected. destruct (String.eqb_spec (protected_concat r) "") as [En|_].
    + rewrite En in Eb. destruct u; [|done]. destruct (ContentBlock.Text b); [|done]. by exists "", (squeezeSysBlock level (zone_text (CompleteRequest.System r) (CompleteRequest.SystemBlocks r) (CompleteRequest.VolatileSystemBlocks r))).
    + rewrite Eb. eexists u, _. rewrite <- !string_app_assoc. done.
  - intros -> Hd. cbn [at_least level_rank Z.leb] in E. cbv zeta in E. rewrite Er. clear Er.
    destruct (VerifyFidelity _ _) as [ok lost] eqn:Ev in E. destruct ok; cbn [negb] in E; [|by injection E as _ <-].
    apply (lost_signal_ok anchors). change (lost_signal anchors) with VerifyFidelity. by rewrite Ev.
Qed.

Definition ex_block (text : string) : ContentBlock.t := ContentBlock.mk "text" text "" "" ∅.
Definition ex_req : CompleteRequest.t :=
  CompleteRequest.mk "" "" [ex_block "state"] [ex_block ("Goal: ship" +:+ line_break +:+ "Updating 40%" +:+ line_break +:+ "ERROR disk full")]
    [ex_block "rule one"] [] [] [ex_block "tail"] "" [] [].
Definition squeeze_ex : CompleteRequest.t → CompressionLevel → CompleteRequest.t * AuditResult.t :=
  Squeeze (λ s, (len s, true)) id (λ _, None) (λ _, None).
Lemma squeeze_protects_witness :
  contains "Goal:" (both (CompleteRequest.System (squeeze_ex ex_req LevelAggressive).1)
                         (CompleteRequest.User (squeeze_ex ex_req LevelAggressive).1)) = true ∧
  CompleteRequest.User (squeeze_ex ex_req LevelAggressive).1 = "Goal: ship" +:+ line_break +:+ "ERROR disk full" +:+ line_break +:+ "tail".
Proof.
  split; [|vm_compute; reflexivity].
  pose proof (squeeze_protects (λ s, (len s, true)) id (λ _, None) (λ _, None) ex_req LevelAggressive) as H.
  unfold squeeze_ex. destruct (Squeeze _ _ _ _ ex_req LevelAggressive) as [r' a] eqn:E. destruct H as (_ & _ & _ & H).
  apply (H eq_refl).
  - assert (a = (squeeze_ex ex_req LevelAggressive).2) as -> by (unfold squeeze_ex; by rewrite E). vm_compute. discriminate.
  - apply list_elem_of_lookup_2 with 2%nat. reflexivity.
  - vm_compute. reflexivity.
Defined.

(** The volatile blocks are both merged into the others and kept: squeezed
    twice, a request holds them twice. *)
Example squeezed_twice :
  let r' := (squeeze_ex (squeeze_ex ex_req LevelLight).1 LevelLight).1 in
  ContentBlock.Text <$> drop 1 (CompleteRequest.UserBlocks r') = ["tail"; "tail"].
Proof. vm_compute. reflexivity. Qed.
(** A line of an error that looks like progress is dropped. *)
Example progress_error_dropped : applyLogCompress "ERROR: Processing stopped at 50%" = "".
Proof. vm_compute. reflexivity. Qed.
(** Characters are counted against bytes: text of three-byte characters is
    never dense, and goes as a whole. *)
Example dense_text : fltb densityThreshold (paragraphDensity "全部所有完整全体") = false ∧ fltb densityThreshold (paragraphDensity "all of it") = true.
Proof. split; vm_compute; reflexivity. Qed.
Example dense_dropped :
  pruned ["one"; "two"; "全部所有"; "完整全体"; "five"; "six"] = ["one"; "two"; "five"; "six"].
Proof. vm_compute. reflexivity. Qed.
(** Without braces a body has no end: the statements after it go with it. *)
Definition ex_python : list string :=
  "import os" :: "def f():" :: "    return 1" :: ((λ n, "run(" +:+ pretty n +:+ ")") <$> [1; 2; 3; 4; 5; 6; 7; 8; 9; 10; 11; 12]).
Example python_tail : applyCodeCompress (join line_break ex_python) = join line_break ["import os"; "def f():"; body_mark 13].
Proof. vm_compute. reflexivity. Qed.
