(* ===== verification/Router.v ===== *)
(** * Which tools a subagent sees and where its calls go (core/tool_router.go,
    core/spawner_sticky_union.go, core/spawner_mcp.go, core/mcp_toggle.go,
    core/core_tool_policy.go)

    The tools of a step's bindings are ranked by four channels and cut to a budget
    of tokens; tools called before are added back; a call is resolved to the server
    of a binding.  The scores of words are [Search], of vectors [Forest]; the
    vector of the task, the answer of the decision model, what discovery of a
    server's tools changes and filters of servers are arguments.  Logging and the
    handshake counters of the servers are left out. *)
From Stdlib Require Import Ascii SpecFloat.
From S2P Require Import Prelude ToolNames SliceSort Forest Search.
Local Open Scope Z_scope.

Module ToolDefinition.
(** [InputSchema]: how it is printed, if there is one. *)
Record t := mk { Name : string; Description : string; InputSchema : option string }.
End ToolDefinition.
Module MCPDef.
Record t := mk {
  Disabled : bool; DisabledTools : list string; AvailableTools : list string; FullToolDefinitions : list ToolDefinition.t;
  ToolFilter : option (string → bool); Command : string; URL : string }.
#[global] Instance t_eta : Eta t := λ m,
  mk (Disabled m) (DisabledTools m) (AvailableTools m) (FullToolDefinitions m) (ToolFilter m) (Command m) (URL m).
End MCPDef.
Module MCPBinding.
Record t := mk { MCPID : string; AllowedTools : list string; AlwaysInclude : list string }.
#[global] Instance t_eta : Eta t := λ b, mk (MCPID b) (AllowedTools b) (AlwaysInclude b).
End MCPBinding.
Module Servers.
Record t := mk { MCPs : gmap string MCPDef.t; DynamicMCPs : gmap string MCPDef.t }.
End Servers.

Definition IsRestricted (b : MCPBinding.t) : bool := (0 <? length (MCPBinding.AllowedTools b))%nat.
(** The registry prefers the configured server, the hub the one registered at run
    time. *)
Definition GetMCP (r : Servers.t) (id : string) : option MCPDef.t :=
  match Servers.MCPs r !! id with Some m => Some m | None => Servers.DynamicMCPs r !! id end.
Definition hub_GetMCP (r : Servers.t) (id : string) : option MCPDef.t :=
  match Servers.DynamicMCPs r !! id with Some m => Some m | None => Servers.MCPs r !! id end.

(** ** Switches *)

Definition containsStr (l : list string) (want : string) : bool := existsb (λ v, String.eqb v want) l.
Definition mcpActive (m : option MCPDef.t) : bool := match m with Some m => negb (MCPDef.Disabled m) | None => false end.
Definition toolEnabled (m : option MCPDef.t) (toolName : string) : bool :=
  match m with Some d => mcpActive m && negb (containsStr (MCPDef.DisabledTools d) toolName) | None => false end.
Definition visibleTools (m : option MCPDef.t) (b : MCPBinding.t) : list ToolDefinition.t :=
  match m with
  | Some d =>
      if mcpActive m then
        List.filter (λ t, negb (IsRestricted b && negb (containsStr (MCPBinding.AllowedTools b) (ToolDefinition.Name t))) &&
                          toolEnabled m (ToolDefinition.Name t)) (MCPDef.FullToolDefinitions d)
      else []
  | None => []
  end.

(** The built-in tools a role may use; [None]: all of them.  [CoreTools] is nil
    when the role says nothing. *)
Definition coreToolPolicy : Type := option (list string).
Definition coreToolPolicyFromRole (CoreTools : option (list string)) : coreToolPolicy :=
  match CoreTools with
  | None => None
  | Some l => if containsStr l "*" then None else Some (List.filter is_core l)
  end.
Definition allows (p : coreToolPolicy) (name : string) : bool := match p with None => true | Some l => containsStr l name end.

(** ** Relevance by name *)

Definition isAlphaNum (a : ascii) : bool :=
  let n := byteZ a in in_range 97 122 n || in_range 65 90 n || in_range 48 57 n.
Definition not_in_word (a : option ascii) : bool := match a with Some a => negb (isAlphaNum a) | None => true end.
(** From a position of the text on, [before] being the byte before it. *)
Fixpoint whole_word (word : list ascii) (before : option ascii) (s : list ascii) : bool :=
  (bool_decide (word `prefix_of` s) && not_in_word before && not_in_word (head (drop (length word) s)))
  || match s with [] => false | a :: s => whole_word word (Some a) s end.
Definition containsWholeWord (s word : string) : bool := whole_word (bytes word) None (bytes s).
Definition discoveryKeywords : list string :=
  ["list"; "search"; "status"; "analyze"; "grep"; "read"; "find"; "inspect"; "get"; "ls"; "query"].
Definition isDiscoveryTool (name : string) : bool := existsb (λ kw, contains kw (to_lower name)) discoveryKeywords.
Definition affinity : list (string * list string) :=
  [("file", ["read"; "write"; "list"; "fs"; "path"; "mkdir"; "rm"; "cp"; "mv"]);
   ("browser", ["navigate"; "click"; "type"; "screenshot"; "scroll"; "back"; "forward"]);
   ("code", ["analyze"; "intel"; "lint"; "search"; "grep"; "ast"; "find"; "patch"; "refactor"]);
   ("git", ["clone"; "commit"; "push"; "pull"; "log"; "checkout"; "branch"]);
   ("network", ["get"; "post"; "request"; "fetch"; "curl"; "http"]);
   ("process", ["run"; "exec"; "kill"; "ps"; "top"]);
   ("shell", ["command"; "sh"; "bash"; "cmd"])].
Definition isRelevant (task tool : string) : bool :=
  let toolLower := to_lower tool in
  let toolTokens := split_on "_" toolLower in
  contains toolLower task
  || existsb (λ tok, (4 <=? String.length tok)%nat && containsWholeWord task tok) toolTokens
  || existsb (λ kp, containsWholeWord task kp.1 && existsb (λ p, containsStr toolTokens p) kp.2) affinity.

Definition estimateToolTokens (toolName : string) (m : MCPDef.t) : Z :=
  match List.find (λ dt, String.eqb (ToolDefinition.Name dt) toolName) (MCPDef.FullToolDefinitions m) with
  | Some dt =>
      Z.of_nat (String.length (ToolDefinition.Name dt) + String.length (ToolDefinition.Description dt) +
                match ToolDefinition.InputSchema dt with Some s => String.length s | None => 0 end) / 4 + 8
  | None => Z.of_nat (String.length toolName) / 4 + 8
  end.

(** ** Routing *)

Definition defaultToolSchemaBudgetTokens : Z := 8000.
Definition privilegedToolBlocklist : list string :=
  ["orchestrator_submit_decision"; "orchestrator_debug_dump"; "orchestrator_reload"; "orchestrator_admin_deploy";
   "orchestrator_cancel_task"; "orchestrator_fork_task"; "orchestrator_run_command"; "orchestrator_invoke";
   "orchestrator_core_replace_batch"].
Definition privileged (tool : string) : bool := containsStr privilegedToolBlocklist tool.
Module RouteRequest.
Record t := mk {
  Task : string; Bindings : list MCPBinding.t; Turn : Z; ProgressiveMode : bool; MaxTokenBudget : Z; PredecessorSkillID : string }.
End RouteRequest.

(** Tools in order, as long as they fit; the first of all is taken in any case. *)
Fixpoint within_budget (cost : string → Z) (started : bool) (remaining used : Z) (tools : list string) : list string * Z :=
  match tools with
  | [] => ([], used)
  | tool :: tools =>
      if started && (remaining <? used + cost tool) then within_budget cost started remaining used tools
      else let '(l, used) := within_budget cost true remaining (used + cost tool) tools in (tool :: l, used)
  end.
(** When nothing is relevant. *)
Definition fallback_candidates (wasRestricted : bool) (available : list string) : list string :=
  if negb wasRestricted || (length available <=? 5)%nat then available
  else
    let found := List.filter isDiscoveryTool available in
    if bool_decide (found = []) then take 3 available else found.
Definition disclose (isFallback : bool) (explicitlyRelevant : string → bool) (filtered : list string) : list string :=
  let discovery := List.filter isDiscoveryTool filtered in
  let specializedRelevant := List.filter (λ t, negb (isDiscoveryTool t) && explicitlyRelevant t) filtered in
  if (2 <=? length discovery)%nat then
    if isFallback || bool_decide (specializedRelevant = []) then discovery else discovery ++ specializedRelevant
  else filtered.
Definition always_included (wasRestricted : bool) (b : MCPBinding.t) (m : MCPDef.t) (filtered : list string) : list string :=
  let known := MCPDef.AvailableTools m in
  filtered ++ List.filter (λ t,
    negb (containsStr filtered t) && negb (privileged t) && negb (wasRestricted && negb (containsStr (MCPBinding.AllowedTools b) t)) &&
    negb ((0 <? length known)%nat && negb (containsStr known t))) (MCPBinding.AlwaysInclude b).

Section route.
Context {SL : Sorter}.
(** The corpus with what its scores need, the vectors of the tools and of a
    task. *)
Context (unicode_word : Z → bool) (math_Log : float64 → float64) (qord : string → list string) (BM25Corpus : option BM25Corpus.t).
Context (Embed : option (string → option (list float64))) (embeddings : gmap string (list float64)).
(** The calls the decision model answers with; nothing on an error. *)
Context (systemOne : option (string → list string → option (list (string * gmap string any)))).
(** [GetCausalBoost] of the skill graph; what discovery of a server makes of the
    registry. *)
Context (GetCausalBoost : option (string → string → float64)) (lazyDiscoveryHook : option (string → Servers.t → Servers.t)).

Definition read_probabilities (rank : gmap string float64) (args : gmap string any) : gmap string float64 :=
  let rank := match args !! "probabilities" with
              | Some (AMap probs) => foldr (λ tp rank, match tp.2 with AFloat score => <[tp.1 := score]> rank | _ => rank end) rank probs
              | _ => rank
              end in
  match args !! "choice" with
  | Some (AString choice) => if decide (is_Some (rank !! choice)) then rank else <[choice := f1]> rank
  | _ => rank
  end.
Definition scoreWithSystemOne (complete : string → list string → option (list (string * gmap string any))) (task : string) (tools : list string) :
    gmap string float64 :=
  match complete task tools with
  | Some calls => fold_left (λ rank tc, if String.eqb tc.1 "q1" then read_probabilities rank tc.2 else rank) calls ∅
  | None => ∅
  end.
Definition bm25_rank (task : string) (available : list string) : gmap string float64 :=
  match BM25Corpus with
  | Some c => filter (λ ks, containsStr available ks.1 = true) (Score unicode_word math_Log c task qord)
  | None => ∅
  end.
Definition dense_scores (task : string) (available : list string) : gmap string float64 :=
  match Embed with
  | Some embed =>
      match embed task with
      | Some qVec => CosineRank qVec (filter (λ kv, containsStr available kv.1 = true) embeddings)
      | None => ∅
      end
  | None => ∅
  end.
Definition system_one_rank (task : string) (available : list string) : gmap string float64 :=
  match systemOne with
  | Some complete => if (length available <=? 20)%nat then scoreWithSystemOne complete task available else ∅
  | None => ∅
  end.
Definition string_rank (taskLower : string) (available : list string) : gmap string float64 :=
  list_to_map ((λ t, (t, f1)) <$> List.filter (isRelevant taskLower) available).
Definition boosted (predecessor : string) (merged : gmap string float64) : gmap string float64 :=
  match GetCausalBoost with
  | Some boost => if String.eqb predecessor "" then merged else map_imap (λ id s, Some (fmul s (boost predecessor id))) merged
  | None => merged
  end.
(** The relevant tools, before the budget. *)
Definition ranked_tools (req : RouteRequest.t) (available : list string) : list string :=
  let task := RouteRequest.Task req in
  let strings := string_rank (to_lower task) available in
  let bm25 := bm25_rank task available in
  let dense := dense_scores task available in
  let one := system_one_rank task available in
  if (0 <? size bm25)%nat || (0 <? size dense)%nat || (0 <? size one)%nat
  then fst <$> sort_by rank_less (map_to_list (boosted (RouteRequest.PredecessorSkillID req) (RRFMerge [bm25; dense; strings; one])))
  else List.filter (λ t, bool_decide (is_Some (strings !! t))) available.

(** The tools of a binding and the tokens used after it. *)
Definition route_tools (req : RouteRequest.t) (totalBudget totalUsed : Z) (b : MCPBinding.t) (m : MCPDef.t) : list string * Z :=
  let wasRestricted := IsRestricted b in
  let available := if wasRestricted then MCPBinding.AllowedTools b else MCPDef.AvailableTools m in
  let cost t := estimateToolTokens t m in
  let pick used := within_budget cost (0 <? used) (totalBudget - used) 0 in
  let '(filtered, n) := pick totalUsed (ranked_tools req available) in
  let totalUsed := totalUsed + n in
  let isFallback := bool_decide (filtered = []) in
  let '(filtered, n) := if isFallback then pick totalUsed (fallback_candidates wasRestricted available) else (filtered, 0) in
  let filtered := if RouteRequest.ProgressiveMode req && (RouteRequest.Turn req =? 0) && (3 <? length filtered)%nat
                  then disclose isFallback (λ t, containsStr available t && isRelevant (to_lower (RouteRequest.Task req)) t) filtered
                  else filtered in
  let filtered := List.filter (λ t, negb (privileged t)) filtered in
  (always_included wasRestricted b m filtered, totalUsed + n).

(** The server of a binding, discovered if it must be; nothing for a binding that
    is left out. *)
Definition discovered (reg : Servers.t) (b : MCPBinding.t) : Servers.t * option MCPDef.t :=
  match GetMCP reg (MCPBinding.MCPID b) with
  | Some m =>
      if negb (mcpActive (Some m)) then (reg, None)
      else
        match lazyDiscoveryHook with
        | Some hook =>
            if (length (MCPDef.AvailableTools m) =? 0)%nat && negb (String.eqb (MCPDef.Command m) "")
            then let reg := hook (MCPBinding.MCPID b) reg in (reg, GetMCP reg (MCPBinding.MCPID b))
            else (reg, Some m)
        | None => (reg, Some m)
        end
  | None => (reg, None)
  end.
Fixpoint route_bindings (req : RouteRequest.t) (totalBudget totalUsed : Z) (reg : Servers.t) (bs : list MCPBinding.t) :
    Servers.t * list MCPBinding.t :=
  match bs with
  | [] => (reg, [])
  | b :: bs =>
      let '(reg, m) := discovered reg b in
      match m with
      | None => route_bindings req totalBudget totalUsed reg bs
      | Some m =>
          let '(tools, totalUsed) := route_tools req totalBudget totalUsed b m in
          let '(reg, routed) := route_bindings req totalBudget totalUsed reg bs in
          (reg, MCPBinding.mk (MCPBinding.MCPID b) tools [] :: routed)
      end
  end.
Definition Route (req : RouteRequest.t) (reg : Servers.t) : Servers.t * list MCPBinding.t :=
  let totalBudget := if RouteRequest.MaxTokenBudget req <=? 0 then defaultToolSchemaBudgetTokens else RouteRequest.MaxTokenBudget req in
  route_bindings req totalBudget 0 reg (RouteRequest.Bindings req).
End route.

(** ** Tools called before *)

(** The tools of the restricted bindings of a server. *)
Definition authorized (initialBindings : list MCPBinding.t) (id : string) : list string :=
  mjoin (MCPBinding.AllowedTools <$> List.filter (λ b, String.eqb (MCPBinding.MCPID b) id) initialBindings).
Fixpoint add_called (allow : list string) (seen : list string) (called : list string) : list string :=
  match called with
  | [] => []
  | tool :: called =>
      if containsStr allow tool && negb (containsStr seen tool) then tool :: add_called allow (tool :: seen) called
      else add_called allow seen called
  end.
Definition stickyUnionBindings (bindings initialBindings : list MCPBinding.t) (calledTools : gset string) : list MCPBinding.t :=
  if bool_decide (calledTools = ∅) then bindings
  else
    let sortedCalled := sort_strings (elements calledTools) in
    (λ b,
       let allow := authorized initialBindings (MCPBinding.MCPID b) in
       if bool_decide (allow = []) then b
       else b <| MCPBinding.AllowedTools ::= λ l, l ++ add_called allow l sortedCalled |>) <$> bindings.

(** ** Where a call goes *)

Section resolve.
(** [hasMCPSpawnFailed]. *)
Context (reg : Servers.t) (spawn_failed : string → bool).
Definition passes_filter (m : MCPDef.t) (toolName : string) : bool := match MCPDef.ToolFilter m with Some f => f toolName | None => true end.
Definition declares (toolName : string) (b : MCPBinding.t) : bool :=
  negb (IsRestricted b) &&
  match hub_GetMCP reg (MCPBinding.MCPID b) with
  | Some m => toolEnabled (Some m) toolName && passes_filter m toolName && containsStr (MCPDef.AvailableTools m) toolName
  | None => false
  end.
Definition lists (toolName : string) (b : MCPBinding.t) : bool :=
  IsRestricted b && containsStr (MCPBinding.AllowedTools b) toolName && toolEnabled (hub_GetMCP reg (MCPBinding.MCPID b)) toolName.
Definition health_score (id : string) (m : MCPDef.t) : Z :=
  (if (0 <? length (MCPDef.AvailableTools m))%nat then 1 else 0) + (if (0 <? length (MCPDef.FullToolDefinitions m))%nat then 1 else 0)
  - (if spawn_failed id then 10 else 0).
Fixpoint healthiest (toolName : string) (best : string) (bestScore : Z) (bs : list MCPBinding.t) : string * Z :=
  match bs with
  | [] => (best, bestScore)
  | b :: bs =>
      match hub_GetMCP reg (MCPBinding.MCPID b) with
      | Some m =>
          if negb (IsRestricted b) && toolEnabled (Some m) toolName && (bestScore <? health_score (MCPBinding.MCPID b) m)
          then healthiest toolName (MCPBinding.MCPID b) (health_score (MCPBinding.MCPID b) m) bs
          else healthiest toolName best bestScore bs
      | None => healthiest toolName best bestScore bs
      end
  end.
Definition ResolveToolMCP (toolName : string) (bindings : list MCPBinding.t) : string :=
  match List.find (declares toolName) bindings with
  | Some b => MCPBinding.MCPID b
  | None =>
      match List.find (lists toolName) bindings with
      | Some b => MCPBinding.MCPID b
      | None => let '(best, bestScore) := healthiest toolName "" (-1) bindings in if 1 <=? bestScore then best else ""
      end
  end.
End resolve.

(** Names close to one that a server does not have. *)
Definition splitToolName (name : string) : string * string :=
  match last_index_of (bytes "__") (bytes name) with
  | Some i => (of_bytes (take i (bytes name)), of_bytes (drop (i + 2) (bytes name)))
  | None => ("", name)
  end.
Definition near_score (want cand : string) : Z :=
  let '(wantNS, wantVerb) := splitToolName want in
  let '(ns, verb) := splitToolName cand in
  (if negb (String.eqb wantNS "") && String.eqb ns wantNS then 2 else 0) +
  (if negb (String.eqb wantVerb "") && negb (String.eqb verb "")
   then Z.of_nat (length (List.filter (λ tok, (3 <=? String.length tok)%nat && contains tok verb) (split_on "_" wantVerb))) else 0).
Definition nearer (x y : string * Z) : bool := if negb (x.2 =? y.2) then y.2 <? x.2 else String.ltb x.1 y.1.
Definition nearMissTools {SL : Sorter} (want : string) (catalog : list string) (limit : nat) : list string :=
  let hits := List.filter (λ h, 0 <? h.2) ((λ c, (c, near_score want c)) <$> List.filter (λ c, negb (String.eqb c want)) catalog) in
  fst <$> take limit (sort_by nearer hits).
Definition unknownToolFeedback {SL : Sorter} (toolName mcpID : string) (m : option MCPDef.t) : string :=
  match m with
  | Some d =>
      if String.eqb mcpID "" || (length (MCPDef.AvailableTools d) =? 0)%nat || containsStr (MCPDef.AvailableTools d) toolName ||
         match MCPDef.ToolFilter d with Some f => f toolName | None => false end
      then ""
      else
        let near := nearMissTools toolName (MCPDef.AvailableTools d) 3 in
        let hint := if bool_decide (near = []) then " Use only tools from the list you were given."
                    else " The closest tools this session does have are: " +:+ join ", " near +:+ ". Use one of them if it does what you need." in
        "[" +:+ toolName +:+ "] No such tool in this session: the " +:+ go_quote mcpID +:+ " server exposes " +:+
        pretty (length (MCPDef.AvailableTools d)) +:+ " tools and none is named " +:+ go_quote toolName +:+ "." +:+ hint +:+
        " Calling it again cannot succeed."
  | None => ""
  end.

(** ** The tools of an auditor and of the prompt *)

Definition AuditorAllowedTools (parentMCPs : list string) (parentAllowlists : gmap string (list string)) : list string * gmap string (list string) :=
  let filtered id := List.filter (λ t, negb (IsWriteMCPTool t)) <$> parentAllowlists !! id in
  let kept := List.filter (λ id, match filtered id with Some (_ :: _) => true | _ => false end) parentMCPs in
  (kept, fold_left (λ m id, match filtered id with Some l => <[id := l]> m | None => m end) kept ∅).
Definition collectToolConstraints (bindings : list MCPBinding.t) : list string :=
  mjoin (MCPBinding.AllowedTools <$> List.filter IsRestricted bindings).

(** * Properties *)

Lemma containsStr_spec l x : containsStr l x = true ↔ x ∈ l.
Proof.
  unfold containsStr. rewrite existsb_exists. setoid_rewrite <- list_elem_of_In. split; [|by exists x; rewrite String.eqb_refl].
  by intros (y & Hy & ->%String.eqb_eq).
Qed.
Lemma containsStr_false l x : containsStr l x = false ↔ x ∉ l.
Proof. rewrite <- containsStr_spec. by destruct (containsStr l x). Qed.

(** ** The fusion ranks what the channels rank *)

Lemma credits_ids fuel : ∀ i items y, y ∈ credits fuel i items → y.1 ∈ items.*1.
Proof.
  induction fuel as [|fuel IH]; intros i items y; cbn [credits]; [by intros H%not_elem_of_nil|].
  destruct items as [|x rest]; [by intros H%not_elem_of_nil|].
  rewrite elem_of_app. intros [(z & -> & Hz)%list_elem_of_fmap|H%IH]; cbn [fst].
  - apply list_elem_of_fmap_2. apply elem_of_cons in Hz as [->|Hz]; [by left|right]. by apply (subseteq_take _ _ _ Hz).
  - right. apply list_elem_of_fmap in H as (w & -> & Hw). apply list_elem_of_fmap_2. by apply (subseteq_drop _ _ _ Hw).
Qed.
Lemma add_credits_keys cs : ∀ (merged : gmap string float64) id,
  is_Some (fold_left add_credit cs merged !! id) → is_Some (merged !! id) ∨ id ∈ cs.*1.
Proof.
  induction cs as [|c cs IH]; intros merged id; cbn [fold_left]; [by left|]. intros [H|H]%IH; [|right; by right].
  unfold add_credit in H. destruct (decide (c.1 = id)) as [<-|Hne]; [right; by left|]. rewrite lookup_insert_ne in H by done. by left.
Qed.
Lemma cap_items_sub n items x : x ∈ cap_items n items → x ∈ items.
Proof. unfold cap_items. destruct (_ && _); [|done]. destruct (items !! _); [|done]. apply subseteq_take. Qed.
Lemma RRFMerge_keys {SL : Sorter} rankings id :
  is_Some (RRFMerge rankings !! id) → ∃ r, r ∈ rankings ∧ is_Some ((r : gmap string float64) !! id).
Proof.
  unfold RRFMerge, RRFMergeCapped. assert (∀ merged : gmap string float64, is_Some (fold_left (merge_ranking 0) rankings merged !! id) →
    is_Some (merged !! id) ∨ ∃ r, r ∈ rankings ∧ is_Some ((r : gmap string float64) !! id)) as H.
  { induction rankings as [|r rs IH]; intros merged; cbn [fold_left]; [by left|]. intros [H|(r' & Hr & H)]%IH.
    - apply add_credits_keys in H as [H|H]; [by left|]. right. exists r. split; [by left|].
      apply list_elem_of_fmap in H as (y & -> & Hy%credits_ids). apply list_elem_of_fmap in Hy as ([k s] & -> & Hk%cap_items_sub).
      rewrite sort_by_perm in Hk. apply elem_of_map_to_list in Hk. cbn. by eexists.
    - right. exists r'. split; [by right|done]. }
  intros [Hn|H']%H; [by rewrite lookup_empty in Hn; destruct Hn|done].
Qed.

(** ** What a routed binding allows *)

Lemma within_budget_sub cost tools : ∀ started remaining used t,
  t ∈ (within_budget cost started remaining used tools).1 → t ∈ tools.
Proof.
  induction tools as [|tool tools IH]; intros started remaining used t; cbn [within_budget]; [done|].
  destruct (_ && _); [right; by eapply IH|]. specialize (IH true remaining (used + cost tool) t).
  destruct (within_budget _ _ _ _ _) as [l n]. cbn [fst] in *. intros [->|H]%elem_of_cons; [by left|right; by apply IH].
Qed.
(** Not more than the budget is used, unless for the first tool of all. *)
Lemma within_budget_used cost tools : (∀ t, 0 <= cost t) → ∀ started remaining used,
  let '(l, n) := within_budget cost started remaining used tools in
  used <= n ∧ (n <= Z.max used remaining ∨ (started = false ∧ ∃ t, head l = Some t ∧ n <= Z.max (used + cost t) remaining)).
Proof.
  intros Hc. induction tools as [|tool tools IH]; intros started remaining used; cbn [within_budget]; [split; [lia|left; lia]|].
  destruct (started && (remaining <? used + cost tool)) eqn:E.
  - apply andb_true_iff in E as [-> _]. specialize (IH true remaining used). destruct (within_budget _ _ _ _ _) as [l n].
    destruct IH as [H1 [H2|[? _]]]; [|done]. split; [done|by left].
  - specialize (IH true remaining (used + cost tool)). destruct (within_budget _ _ _ _ _) as [l n].
    destruct IH as [H1 [H2|[? _]]]; [|done]. specialize (Hc tool). split; [lia|].
    destruct started; [left; cbn [andb] in E; lia|]. right. split; [done|]. by exists tool.
Qed.
Lemma fallback_sub r available t : t ∈ fallback_candidates r available → t ∈ available.
Proof.
  unfold fallback_candidates. destruct (_ || _); [done|]. case_bool_decide.
  - apply subseteq_take.
  - by intros [_ ?]%elem_of_filter_list.
Qed.
Lemma disclose_sub fb rel l t : t ∈ disclose fb rel l → t ∈ l.
Proof.
  unfold disclose. destruct (_ <=? _)%nat; [|done]. destruct (_ || _); [by intros [_ ?]%elem_of_filter_list|].
  rewrite elem_of_app. by intros [[_ ?]%elem_of_filter_list|[_ ?]%elem_of_filter_list].
Qed.

Section routing.
Context {SL : Sorter} (unicode_word : Z → bool) (math_Log : float64 → float64) (qord : string → list string) (BM25Corpus : option BM25Corpus.t).
Context (Embed : option (string → option (list float64))) (embeddings : gmap string (list float64)).
Context (systemOne : option (string → list string → option (list (string * gmap string any)))).
Context (GetCausalBoost : option (string → string → float64)) (lazyDiscoveryHook : option (string → Servers.t → Servers.t)).
(** The decision model, when there is one, names a tool for a task; nothing checks
    that it was offered the tool. *)
Definition named_by_model (task t : string) : Prop := ∃ available, is_Some (system_one_rank systemOne task available !! t).
Abbreviation rank_tools := (ranked_tools unicode_word math_Log qord BM25Corpus Embed embeddings systemOne GetCausalBoost).
Abbreviation tools_of := (route_tools unicode_word math_Log qord BM25Corpus Embed embeddings systemOne GetCausalBoost).
Abbreviation routed_from := (route_bindings unicode_word math_Log qord BM25Corpus Embed embeddings systemOne GetCausalBoost lazyDiscoveryHook).

Lemma string_rank_elem task available t : is_Some (string_rank task available !! t) → t ∈ available.
Proof.
  unfold string_rank. intros [x H]. apply elem_of_list_to_map_2 in H. apply list_elem_of_fmap in H as (t' & E & Ht). simplify_eq.
  by apply elem_of_filter_list in Ht as [_ ?].
Qed.
Lemma ranked_sub req available t : t ∈ rank_tools req available → t ∈ available ∨ named_by_model (RouteRequest.Task req) t.
Proof.
  unfold ranked_tools. destruct (_ || _); [|by intros [_ ?]%elem_of_filter_list; left].
  intros ([k s] & -> & Hk)%list_elem_of_fmap. rewrite sort_by_perm in Hk. apply elem_of_map_to_list in Hk. cbn [fst].
  assert (is_Some (RRFMerge [bm25_rank unicode_word math_Log qord BM25Corpus (RouteRequest.Task req) available;
    dense_scores Embed embeddings (RouteRequest.Task req) available; string_rank (to_lower (RouteRequest.Task req)) available;
    system_one_rank systemOne (RouteRequest.Task req) available] !! k)) as H.
  { unfold boosted in Hk. destruct GetCausalBoost; [|by eexists]. destruct (String.eqb _ _); [by eexists|].
    rewrite map_lookup_imap in Hk. by destruct (RRFMerge _ !! k). }
  apply RRFMerge_keys in H as (r & Hr & Hk'). repeat apply elem_of_cons in Hr as [->|Hr]; [..|by apply not_elem_of_nil in Hr].
  - unfold bm25_rank in Hk'. destruct BM25Corpus; [|by destruct Hk'; simplify_map_eq]. destruct Hk' as [x Hx].
    apply map_lookup_filter_Some in Hx as [_ Hx]. left. by apply containsStr_spec in Hx.
  - unfold dense_scores in Hk'. destruct Embed as [embed|]; [|by destruct Hk'; simplify_map_eq].
    destruct (embed _); [|by destruct Hk'; simplify_map_eq]. destruct Hk' as [x Hx]. unfold CosineRank in Hx.
    apply lookup_omap_Some in Hx as (v & _ & Hx). apply map_lookup_filter_Some in Hx as [_ Hx]. left. by apply containsStr_spec in Hx.
  - left. by eapply string_rank_elem.
  - right. by exists available.
Qed.

(** What the binding offers: its own list, or the server's tools and those that
    are always included. *)
Definition offered (b : MCPBinding.t) (m : MCPDef.t) (t : string) : Prop :=
  if IsRestricted b then t ∈ MCPBinding.AllowedTools b else t ∈ MCPDef.AvailableTools m ∨ t ∈ MCPBinding.AlwaysInclude b.
(** Where a routed tool comes from. *)
Definition routable (task : string) (b : MCPBinding.t) (m : MCPDef.t) (t : string) : Prop := offered b m t ∨ named_by_model task t.
Lemma always_included_routable task b m filtered t :
  (∀ x, x ∈ filtered → (x ∈ (if IsRestricted b then MCPBinding.AllowedTools b else MCPDef.AvailableTools m) ∨ named_by_model task x) ∧ privileged x = false) →
  t ∈ always_included (IsRestricted b) b m filtered → routable task b m t ∧ privileged t = false.
Proof.
  intros Hf. unfold always_included, routable, offered. rewrite elem_of_app. intros [H|[H Ht]%elem_of_filter_list].
  - destruct (Hf t H) as [[H1|H1] H2]; (split; [|done]); [left|by right]. destruct (IsRestricted b); [done|by left].
  - apply andb_true_iff in H as [[[_ Hp]%andb_true_iff Hr]%andb_true_iff _]. apply negb_true_iff in Hp. split; [left|done].
    destruct (IsRestricted b); [|by right]. cbn [andb] in Hr. apply negb_true_iff, negb_false_iff in Hr. by apply containsStr_spec in Hr.
Qed.
Lemma route_tools_routable req totalBudget totalUsed b m t :
  t ∈ (tools_of req totalBudget totalUsed b m).1 → routable (RouteRequest.Task req) b m t ∧ privileged t = false.
Proof.
  unfold route_tools. set (available := if IsRestricted b then _ else _).
  destruct (within_budget _ _ _ _ (rank_tools req available)) as [filtered n] eqn:E1.
  assert (∀ x, x ∈ filtered → x ∈ available ∨ named_by_model (RouteRequest.Task req) x) as H1.
  { intros x Hx. apply ranked_sub. eapply within_budget_sub. rewrite E1. exact Hx. }
  destruct (if bool_decide (filtered = []) then _ else _) as [filtered' n'] eqn:E2.
  assert (∀ x, x ∈ filtered' → x ∈ available ∨ named_by_model (RouteRequest.Task req) x) as H2.
  { intros x Hx. case_bool_decide; [|by injection E2 as <- _; apply H1].
    left. apply (fallback_sub (IsRestricted b)). eapply within_budget_sub. rewrite E2. exact Hx. }
  cbn [fst]. apply always_included_routable. intros x [Hp Hx]%elem_of_filter_list. apply negb_true_iff in Hp. split; [|done].
  apply H2. destruct (_ && _); [by apply disclose_sub in Hx|done].
Qed.
Lemma route_bindings_routable req totalBudget bs : ∀ totalUsed reg b,
  b ∈ (routed_from req totalBudget totalUsed reg bs).2 →
  ∃ b0 m, b0 ∈ bs ∧ MCPBinding.MCPID b0 = MCPBinding.MCPID b ∧
    (∀ t, t ∈ MCPBinding.AllowedTools b → routable (RouteRequest.Task req) b0 m t ∧ privileged t = false).
Proof.
  induction bs as [|b0 bs IH]; intros totalUsed reg b; cbn [route_bindings]; [by intros H%not_elem_of_nil|].
  destruct (discovered lazyDiscoveryHook reg b0) as [reg1 [m|]].
  - destruct (tools_of req totalBudget totalUsed b0 m) as [tools used'] eqn:E.
    destruct (routed_from req totalBudget used' reg1 bs) as [reg2 routed] eqn:E2. cbn [snd]. intros [->|Hb]%elem_of_cons.
    + exists b0, m. split_and!; [by left|done|]. intros t Ht. eapply route_tools_routable. rewrite E. exact Ht.
    + destruct (IH used' reg1 b) as (b1 & m1 & H1 & H2 & H3); [by rewrite E2|]. exists b1, m1. split_and!; [by right|done|done].
  - intros Hb. destruct (IH _ _ _ Hb) as (b1 & m1 & H1 & H2 & H3). exists b1, m1. split_and!; [by right|done|done].
Qed.
End routing.

Lemma add_called_sub allow called : ∀ seen t, t ∈ add_called allow seen called → t ∈ allow ∧ t ∈ called.
Proof.
  induction called as [|c called IH]; intros seen t; cbn [add_called]; [by intros H%not_elem_of_nil|].
  destruct (containsStr allow c && _) eqn:E.
  - apply andb_true_iff in E as [E%containsStr_spec _]. intros [->|H]%elem_of_cons; [by split; [|left]|].
    apply IH in H as [? ?]. by split; [|right].
  - intros H. apply IH in H as [? ?]. by split; [|right].
Qed.
Lemma authorized_spec initial id t :
  t ∈ authorized initial id → ∃ b, b ∈ initial ∧ MCPBinding.MCPID b = id ∧ t ∈ MCPBinding.AllowedTools b.
Proof.
  unfold authorized. intros (l & Ht & Hl)%list_elem_of_join. apply list_elem_of_fmap in Hl as (b & -> & Hb).
  apply elem_of_filter_list in Hb as [E%String.eqb_eq Hb]. by exists b.
Qed.
Lemma sticky_spec bindings initial called b : b ∈ stickyUnionBindings bindings initial called →
  ∃ b0, b0 ∈ bindings ∧ MCPBinding.MCPID b = MCPBinding.MCPID b0 ∧ (IsRestricted b0 = true → IsRestricted b = true) ∧
    ∀ t, t ∈ MCPBinding.AllowedTools b → t ∈ MCPBinding.AllowedTools b0 ∨ (t ∈ authorized initial (MCPBinding.MCPID b) ∧ t ∈ called).
Proof.
  unfold stickyUnionBindings. case_bool_decide; [intros Hb; exists b; split_and!; try done; auto|].
  intros (b0 & -> & Hb0)%list_elem_of_fmap. exists b0. case_bool_decide; [split_and!; try done; auto|].
  split_and!; [done|done| |].
  - unfold IsRestricted, update. cbn. by destruct (MCPBinding.AllowedTools b0).
  - unfold update. cbn. intros t [Ht|Ht]%elem_of_app; [by left|right]. apply add_called_sub in Ht as [? Ht]. split; [done|].
    apply elem_of_elements. by rewrite <- (sort_strings_perm (elements called)).
Qed.
Lemma healthiest_open reg spawn_failed toolName bs : ∀ best score,
  (∀ b, b ∈ bs → IsRestricted b = true) → healthiest reg spawn_failed toolName best score bs = (best, score).
Proof.
  induction bs as [|b bs IH]; intros best score Hr; cbn [healthiest]; [done|].
  rewrite (Hr b) by (by left). cbn [negb andb]. destruct (hub_GetMCP _ _); apply IH; intros; apply Hr; by right.
Qed.

Lemma no_model_names task t : ¬ named_by_model None task t.
Proof. intros (available & x & H). unfold system_one_rank in H. by rewrite lookup_empty in H. Qed.

(** C22: A call goes only where the step was authorized, or where the decision model
    sent it: when every binding routed from the step's own kept at least one tool (an
    empty list means every tool, [exhausted_budget_opens], [privileged_only_opens]), a
    call resolved to a server is to one of the step's servers and to a tool that is
    not switched off; if the step has an allow-list there, the tool is on it, or else
    the decision model named it for this task, which nothing compares with the
    allow-list ([model_widens]); and a tool not called before is none of the
    privileged ones.  Without a decision model the allow-list always holds. *)
Theorem calls_authorized {SL : Sorter} unicode_word math_Log qord corpus Embed embeddings systemOne boost hook spawn_failed req reg called tool :
  let '(reg', routed) := Route unicode_word math_Log qord corpus Embed embeddings systemOne boost hook req reg in
  (∀ b, b ∈ routed → IsRestricted b = true) →
  let id := ResolveToolMCP reg' spawn_failed tool (stickyUnionBindings routed (RouteRequest.Bindings req) called) in
  id ≠ "" →
  ∃ b, b ∈ RouteRequest.Bindings req ∧ MCPBinding.MCPID b = id ∧
    (IsRestricted b = true → tool ∈ MCPBinding.AllowedTools b ∨ named_by_model systemOne (RouteRequest.Task req) tool) ∧
    (systemOne = None → IsRestricted b = true → tool ∈ MCPBinding.AllowedTools b) ∧
    toolEnabled (hub_GetMCP reg' id) tool = true ∧ (tool ∉ called → privileged tool = false).
Proof.
  destruct (Route _ _ _ _ _ _ _ _ _ req reg) as [reg' routed] eqn:ER. intros Hr.
  set (bs := stickyUnionBindings routed (RouteRequest.Bindings req) called). intros id.
  assert (∀ b, b ∈ bs → IsRestricted b = true) as Hbs.
  { intros b (b0 & Hb0 & _ & H & _)%sticky_spec. auto. }
  assert (List.find (declares reg' tool) bs = None) as Hd.
  { destruct (List.find _ bs) as [b|] eqn:Ef; [|done]. apply List.find_some in Ef as [Hb%list_elem_of_In Hd]. unfold declares in Hd. by rewrite (Hbs b Hb) in Hd. }
  unfold id, ResolveToolMCP. rewrite Hd. destruct (List.find (lists reg' tool) bs) as [b|] eqn:Ef; [|by rewrite (healthiest_open _ _ _ _ _ _ Hbs)].
  intros _. apply List.find_some in Ef as [Hb%list_elem_of_In Hl]. unfold lists in Hl.
  apply andb_true_iff in Hl as [[_ Ht%containsStr_spec]%andb_true_iff He].
  apply sticky_spec in Hb as (b1 & Hb1 & Eid & _ & Hin).
  assert (∃ b0 m, b0 ∈ RouteRequest.Bindings req ∧ MCPBinding.MCPID b0 = MCPBinding.MCPID b1 ∧
    (∀ t, t ∈ MCPBinding.AllowedTools b1 → routable systemOne (RouteRequest.Task req) b0 m t ∧ privileged t = false)) as (b0 & m & H1 & H2 & H3).
  { eapply route_bindings_routable. unfold Route in ER. rewrite ER. exact Hb1. }
  destruct (Hin tool Ht) as [Ht1|[Ha Hc]].
  - destruct (H3 tool Ht1) as [Ho Hp].
    assert (IsRestricted b0 = true → tool ∈ MCPBinding.AllowedTools b0 ∨ named_by_model systemOne (RouteRequest.Task req) tool) as Hal.
    { intros Hb0. destruct Ho as [Ho|Ho]; [left|by right]. unfold offered in Ho. by rewrite Hb0 in Ho. }
    exists b0. split_and!; [done|congruence|done| |done|done].
    intros -> Hb0. destruct (Hal Hb0) as [?|Hn]; [done|]. by apply no_model_names in Hn.
  - apply authorized_spec in Ha as (b2 & Hb2 & E2 & Ht2). exists b2. split_and!; first [done|by intros _; left].
Qed.

(** ** Examples *)

Definition ex_server (tools : list string) : MCPDef.t := MCPDef.mk false [] tools [] None "run" "".
Definition ex_servers : Servers.t :=
  Servers.mk (list_to_map [("files", ex_server ["read_file"; "delete_file"; "orchestrator_run_command"]); ("mail", ex_server ["send_mail"; "list_mail"])]) ∅.
Definition ex_task (task : string) (bs : list MCPBinding.t) (budget : Z) : RouteRequest.t := RouteRequest.mk task bs 0 false budget "".
Definition route_ex (one : option (string → list string → option (list (string * gmap string any)))) (req : RouteRequest.t) : list MCPBinding.t :=
  (Route (SL := insertion_sorter) (λ _, false) id (λ _, []) None None ∅ one None None req ex_servers).2.
Definition resolve_ex (bs : list MCPBinding.t) (tool : string) : string := ResolveToolMCP ex_servers (λ _, false) tool bs.
Lemma calls_authorized_witness :
  resolve_ex (stickyUnionBindings (route_ex None (ex_task "read the file" [MCPBinding.mk "files" ["read_file"] []] 0))
                [MCPBinding.mk "files" ["read_file"] []] {["delete_file"]}) "read_file" = "files" ∧
  ∃ b, b ∈ [MCPBinding.mk "files" ["read_file"] []] ∧ MCPBinding.MCPID b = "files" ∧ (IsRestricted b = true → "read_file" ∈ MCPBinding.AllowedTools b) ∧
    toolEnabled (hub_GetMCP ex_servers "files") "read_file" = true ∧ ("read_file" ∉ ({["delete_file"]} : gset string) → privileged "read_file" = false).
Proof.
  split; [vm_compute; reflexivity|].
  pose proof (calls_authorized (SL := insertion_sorter) (λ _, false) id (λ _, []) None None ∅ None None None (λ _, false)
    (ex_task "read the file" [MCPBinding.mk "files" ["read_file"] []] 0) ex_servers {["delete_file"]} "read_file") as H.
  assert (Route (SL := insertion_sorter) (λ _, false) id (λ _, []) None None ∅ None None None
    (ex_task "read the file" [MCPBinding.mk "files" ["read_file"] []] 0) ex_servers = (ex_servers, [MCPBinding.mk "files" ["read_file"] []])) as E by (vm_compute; reflexivity).
  rewrite E in H. cbv iota zeta in H.
  assert (ResolveToolMCP ex_servers (λ _, false) "read_file" (stickyUnionBindings [MCPBinding.mk "files" ["read_file"] []]
    (RouteRequest.Bindings (ex_task "read the file" [MCPBinding.mk "files" ["read_file"] []] 0)) {["delete_file"]}) = "files") as E2 by (vm_compute; reflexivity).
  rewrite E2 in H. destruct H as (b & H1 & H2 & _ & H3 & H4); [|discriminate|].
  - intros b Hb. apply list_elem_of_singleton in Hb as ->. reflexivity.
  - exists b. split; [exact H1|]. split; [exact H2|]. split; [exact (H3 eq_refl)|exact H4].
Defined.

(** Once the budget is used up, a restricted binding is routed to no tool, which
    means every tool: the step may call what its allow-list left out. *)
Example exhausted_budget_opens :
  let bs := [MCPBinding.mk "mail" ["send_mail"] []; MCPBinding.mk "files" ["read_file"] []] in
  let routed := route_ex None (ex_task "hello" bs 5) in
  MCPBinding.AllowedTools <$> routed = [["send_mail"]; []] ∧ resolve_ex routed "delete_file" = "files" ∧ resolve_ex bs "delete_file" = "".
Proof. vm_compute. split_and!; reflexivity. Qed.
(** A list of privileged tools only is emptied, and with it the server opens. *)
Example privileged_only_opens :
  let bs := [MCPBinding.mk "files" ["orchestrator_run_command"] []] in
  MCPBinding.AllowedTools <$> route_ex None (ex_task "hello" bs 0) = [[]] ∧
  resolve_ex (route_ex None (ex_task "hello" bs 0)) "orchestrator_run_command" = "files".
Proof. vm_compute. split; reflexivity. Qed.
(** A tool the decision model names is routed, and called, though it was not
    offered and is not on the allow-list. *)
Example model_widens :
  let bs := [MCPBinding.mk "files" ["read_file"] []] in
  let routed := route_ex (Some (λ _ _, Some [("q1", {["choice" := AString "delete_file"]})])) (ex_task "hello" bs 0) in
  MCPBinding.AllowedTools <$> routed = [["delete_file"]] ∧ resolve_ex routed "delete_file" = "files".
Proof. vm_compute. split; reflexivity. Qed.
(** A privileged tool is added back once the model has tried to call it. *)
Example called_privileged_returns :
  let bs := [MCPBinding.mk "files" ["read_file"; "orchestrator_run_command"] []] in
  let routed := route_ex None (ex_task "hello" bs 0) in
  MCPBinding.AllowedTools <$> routed = [["read_file"]] ∧
  MCPBinding.AllowedTools <$> stickyUnionBindings routed bs {["orchestrator_run_command"]} = [["read_file"; "orchestrator_run_command"]].
Proof. vm_compute. split; reflexivity. Qed.
(** A server known under one id in both maps is routed as one and called as the
    other. *)
Example two_registries :
  let r := Servers.mk {["files" := ex_server ["read_file"]]} {["files" := ex_server ["delete_file"]]} in
  MCPDef.AvailableTools <$> GetMCP r "files" = Some ["read_file"] ∧ MCPDef.AvailableTools <$> hub_GetMCP r "files" = Some ["delete_file"].
Proof. vm_compute. split; reflexivity. Qed.
Example near_misses :
  nearMissTools (SL := insertion_sorter) "venmo__remind_payment" ["venmo__show_payment_requests"; "phone__login"; "venmo__login"] 3 =
  ["venmo__show_payment_requests"; "venmo__login"].
Proof. vm_compute. reflexivity. Qed.
