(* ===== verification/Schedules.v ===== *)
(** * Scheduled tasks (core/schedule_manager.go, core/schedule_nextrun.go,
    schemas/schedule.go, store/schedule.go)

    A schedule submits its inputs whenever its window comes due.  Several
    processes scan the same schedules; a lock file per schedule and minute
    decides which of them fires.  [ScheduleManager.t] is one process: its
    schedules by id ([ScheduleStore]); the lock files are shared.  A trigger is
    a goroutine: [scan] returns the ids it starts and [submitAndTrack] is what
    each of them does under the mutex once [Submit] has answered.  Reloading
    the store from disk is left out. *)
From S2P Require Import Prelude Paths TaskStatus Schema Cron.
From Stdlib Require Import Ascii SpecFloat.
Local Open Scope Z_scope.

(** ** Durations: [time.ParseDuration] *)

Definition unit_of (u : string) : option Z :=
  if String.eqb u "ns" then Some 1
  else if String.eqb u "us" then Some 1000
  else if String.eqb u (of_bytes [ascii_of_nat 194; ascii_of_nat 181; "s"%char]) then Some 1000
  else if String.eqb u (of_bytes [ascii_of_nat 206; ascii_of_nat 188; "s"%char]) then Some 1000
  else if String.eqb u "ms" then Some 1000000
  else if String.eqb u "s" then Some 1000000000
  else if String.eqb u "m" then Some 60000000000
  else if String.eqb u "h" then Some 3600000000000
  else None.

(** [leadingInt]: [None] when the number exceeds 2^63. *)
Fixpoint leadingInt (x : Z) (s : string) : option (Z * string) :=
  match s with
  | String a s' =>
      if is_digit a then
        if 2 ^ 63 / 10 <? x then None
        else let x' := x * 10 + (byteZ a - 48) in if 2 ^ 63 <? x' then None else leadingInt x' s'
      else Some (x, s)
  | EmptyString => Some (x, s)
  end.
(** [leadingFraction]: digits beyond the precision are skipped. *)
Fixpoint leadingFraction (x scale : Z) (overflow : bool) (s : string) : Z * Z * string :=
  match s with
  | String a s' =>
      if is_digit a then
        if overflow then leadingFraction x scale true s'
        else if (2 ^ 63 - 1) / 10 <? x then leadingFraction x scale true s'
        else let y := x * 10 + (byteZ a - 48) in
             if 2 ^ 63 <? y then leadingFraction x scale true s' else leadingFraction y (scale * 10) false s'
      else (x, scale, s)
  | EmptyString => (x, scale, s)
  end.
Fixpoint unit_text (s : string) : string * string :=
  match s with
  | String a s' =>
      if is_digit a || Ascii.eqb a "." then (EmptyString, s)
      else let '(u, r) := unit_text s' in (String a u, r)
  | EmptyString => (EmptyString, EmptyString)
  end.

Fixpoint duration_parts (fuel : nat) (d : Z) (s : string) : option Z :=
  match fuel with
  | O => None
  | S n =>
      match s with
      | EmptyString => Some d
      | String c _ =>
          if negb (is_digit c || Ascii.eqb c ".") then None
          else
            match leadingInt 0 s with
            | None => None
            | Some (v, s1) =>
                let pre := negb (String.length s1 =? String.length s)%nat in
                let '(f, scale, s2, post) :=
                  match s1 with
                  | String a s1' =>
                      if Ascii.eqb a "." then
                        let '(f, sc, r) := leadingFraction 0 1 false s1' in
                        (f, sc, r, negb (String.length r =? String.length s1')%nat)
                      else (0, 1, s1, false)
                  | EmptyString => (0, 1, s1, false)
                  end in
                if negb pre && negb post then None
                else
                  let '(u, s3) := unit_text s2 in
                  if String.eqb u "" then None
                  else
                    match unit_of u with
                    | None => None
                    | Some unit =>
                        if 2 ^ 63 / unit <? v then None
                        else
                          let v1 := v * unit in
                          let v2 := if 0 <? f
                                    then v1 + trunc_float (fmul (float_of_int f) (fdiv (float_of_int unit) (float_of_int scale)))
                                    else v1 in
                          if 2 ^ 63 <? v2 then None
                          else if 2 ^ 63 <? d + v2 then None else duration_parts n (d + v2) s3
                    end
            end
      end
  end.
Definition ParseDuration (s : string) : option Z :=
  let neg := has_prefix "-" s in
  let s1 := match s with String a s' => if Ascii.eqb a "-" || Ascii.eqb a "+" then s' else s | _ => s end in
  if String.eqb s1 "0" then Some 0
  else if String.eqb s1 "" then None
  else match duration_parts (S (String.length s1)) 0 s1 with
       | None => None
       | Some d => if neg then Some (- d) else if 2 ^ 63 - 1 <? d then None else Some d
       end.

(** ** Schedules *)

Module Schedule.
Record t := mk {
  ID : string; Name : string; Type_ : string; RunAt : option Z; Interval : string; CronExpr : string;
  TaskInputs : list StepInput.t; Status : string; MaxRuns : Z; RunCount : Z; LastRun : option Z; NextRun : Z;
  OnFailure : string; ConsecutiveFailures : Z; CreatedAt : Z }.
#[global] Instance eta : Eta t := λ r,
  mk (ID r) (Name r) (Type_ r) (RunAt r) (Interval r) (CronExpr r) (TaskInputs r) (Status r) (MaxRuns r) (RunCount r)
    (LastRun r) (NextRun r) (OnFailure r) (ConsecutiveFailures r) (CreatedAt r).
End Schedule.

Definition ScheduleOnce : string := "once".
Definition ScheduleInterval : string := "interval".
Definition ScheduleCron : string := "cron".
Definition ScheduleActive : string := "active".
Definition SchedulePaused : string := "paused".
Definition ScheduleCompleted : string := "completed".

Inductive ScheduleError := InvalidInterval (s : string) | InvalidCron (s : string) (e : CronError) | UnknownType (s : string).

(** [t.After(u)]: Go's zero time is 0. *)
Definition After (t u : Z) : bool := u <? t.

(** Lock files with their modification times, and the schedules by id. *)
Abbreviation Locks := (gmap string Z).
Abbreviation ScheduleStore := (gmap string Schedule.t).

Section manager.
Context (zone : Z → Z).

Definition ScheduleNextRunAfter (s : Schedule.t) (now : Z) : result ScheduleError Z :=
  if String.eqb (Schedule.Type_ s) ScheduleOnce then
    match Schedule.RunAt s with Some t => if After t now then Ok t else Ok 0 | None => Ok 0 end
  else if String.eqb (Schedule.Type_ s) ScheduleInterval then
    match ParseDuration (Schedule.Interval s) with Some d => Ok (now + d) | None => Err (InvalidInterval (Schedule.Interval s)) end
  else if String.eqb (Schedule.Type_ s) ScheduleCron then
    match NextRun zone (Schedule.CronExpr s) now with Ok t => Ok t | Err e => Err (InvalidCron (Schedule.CronExpr s) e) end
  else Err (UnknownType (Schedule.Type_ s)).

Definition Hour_ : Z := 60 * Minute.
Definition calculateNextRun (s : Schedule.t) (now : Z) : Z :=
  if String.eqb (Schedule.Type_ s) ScheduleOnce then 0
  else match ScheduleNextRunAfter s now with
       | Ok t => t
       | Err _ => if String.eqb (Schedule.Type_ s) ScheduleCron then now + 24 * Hour_ else 0
       end.

(** *** Locks *)

(** [%0nd] for a non-negative number. *)
Definition pad (n : nat) (z : Z) : string :=
  let s := pretty z in (of_bytes (replicate (n - String.length s) "0"%char) +:+ s)%string.
(** [timestamp.Format] with the layout of year, month, day, hour and minute. *)
Definition stamp (t : Z) : string :=
  let '(y, m, d) := Date zone t in
  (pad 4 y +:+ pad 2 m +:+ pad 2 d +:+ pad 2 (Hour zone t) +:+ pad 2 (Minute_ zone t))%string.
Definition lockName (id : string) (t : Z) : string :=
  ("schedule_" +:+ id +:+ "_" +:+ stamp t +:+ ".lock")%string.
Definition lockPath (dir id : string) (t : Z) : string := Clean (dir +:+ "/" +:+ lockName id t)%string.

(** [creatable] is whether the file system lets a missing file be created. *)
Definition acquireLock (creatable : string → bool) (dir id : string) (t now : Z) (L : Locks) : option Locks :=
  let p := lockPath dir id t in
  match L !! p with
  | Some _ => None
  | None => if creatable p then Some (<[p := now]> L) else None
  end.
Definition cleanupLocks (now : Z) (L : Locks) : Locks := filter (λ kv, negb (kv.2 <? now - 24 * Hour_) = true) L.

(** *** Scanning *)

Definition due (s : Schedule.t) (now : Z) : bool :=
  String.eqb (Schedule.Status s) ScheduleActive && negb (Schedule.NextRun s =? 0) && After now (Schedule.NextRun s).

(** One schedule of the loop: the lock files and the triggers started. *)
Definition scan_one (creatable : string → bool) (dir : string) (now : Z) (acc : Locks * list Schedule.t) (s : Schedule.t)
    : Locks * list Schedule.t :=
  if due s now then
    match acquireLock creatable dir (Schedule.ID s) (Schedule.NextRun s) now acc.1 with
    | Some L => (L, acc.2 ++ [s])
    | None => acc
    end
  else acc.
(** [scan] without the reload; [stale] is whether the locks are cleaned, [ord]
    the order of [List]. *)
Definition scan (creatable : string → bool) (dir : string) (stale : bool) (now : Z) (ord : list string) (st : ScheduleStore) (L : Locks)
    : Locks * list Schedule.t :=
  let L := if stale then cleanupLocks now L else L in
  foldl (scan_one creatable dir now) (L, []) (snd <$> range st ord).

(** *** Running *)

Definition as_admin (s : Schedule.t) : Schedule.t :=
  s <| Schedule.TaskInputs ::= map (λ i, i <| StepInput.SubmitterIsAdmin := true |>) |>.

(** [submitAndTrack] after the inputs are marked: [answer] is what [Submit]
    returned for them. *)
Definition track (s : Schedule.t) (ok : bool) (now : Z) : Schedule.t :=
  let s := s <| Schedule.LastRun := Some now |> <| Schedule.RunCount ::= λ n, wrap64 (n + 1) |> in
  let s := if ok then s else s <| Schedule.ConsecutiveFailures ::= λ n, wrap64 (n + 1) |> in
  let s := s <| Schedule.NextRun := calculateNextRun s now |> in
  if (0 <? Schedule.MaxRuns s) && (Schedule.MaxRuns s <=? Schedule.RunCount s)
  then s <| Schedule.Status := ScheduleCompleted |> else s.
Definition submitAndTrack {E} (answer : list StepInput.t → result E string) (st : ScheduleStore) (s : Schedule.t) (now : Z)
    : ScheduleStore * result E string :=
  let s := as_admin s in
  let r := answer (Schedule.TaskInputs s) in
  let s := track s (match r with Ok _ => true | Err _ => false end) now in
  (<[Schedule.ID s := s]> st, r).

Inductive RunError E := NotFound (id : string) | SubmitFailed (e : E).
Arguments NotFound {E} id.
Arguments SubmitFailed {E} e.
Definition RunNow {E} (answer : list StepInput.t → result E string) (st : ScheduleStore) (id : string) (now : Z)
    : ScheduleStore * result (RunError E) string :=
  match st !! id with
  | None => (st, Err (NotFound id))
  | Some s =>
      let '(st, r) := submitAndTrack answer st s now in
      (st, match r with Ok t => Ok t | Err e => Err (SubmitFailed e) end)
  end.

(** *** After a run *)

(** [monitorTask] on one answer of [WaitTask]: the outcome, if final. *)
Definition monitored (status : GraphStatus) : option bool :=
  match status with GraphCompleted => Some true | GraphFailed => Some false | _ => None end.

(** [advice] is the list of skill combinations the experience store
    recommends for a role. *)
Definition applyAdaptiveRecovery (advice : string → list (list string)) (s : Schedule.t) : Schedule.t :=
  match Schedule.TaskInputs s with
  | [] => s
  | i :: rest =>
      match advice (StepInput.RoleID i) with
      | [] => s
      | combo :: _ => s <| Schedule.TaskInputs := i <| StepInput.AdditionalSkills := combo |> :: rest |>
      end
  end.
Definition afterRun (advice : string → list (list string)) (st : ScheduleStore) (id : string) (success : bool) : ScheduleStore :=
  match st !! id with
  | None => st
  | Some s =>
      let s :=
        if success then s <| Schedule.ConsecutiveFailures := 0 |>
        else
          let s := s <| Schedule.ConsecutiveFailures ::= λ n, wrap64 (n + 1) |> in
          if 3 <=? Schedule.ConsecutiveFailures s then applyAdaptiveRecovery advice s else s in
      <[Schedule.ID s := s]> st
  end.
End manager.
Arguments calculateNextRun : simpl never.
Arguments NotFound {E} id.
Arguments SubmitFailed {E} e.

(** ** One trigger per window *)

Section windows.
Context (zone : Z → Z) (creatable : string → bool) (dir : string).

Definition window (s : Schedule.t) : string := lockPath zone dir (Schedule.ID s) (Schedule.NextRun s).
Definition fired (p : string) (l : list Schedule.t) : nat := length (filter (λ s, window s = p) l).

Lemma fired_app p l l' : fired p (l ++ l') = (fired p l + fired p l')%nat.
Proof. unfold fired. by rewrite filter_app, length_app. Qed.

(** What the triggers of a window [p] started since the locks were [L0] tell
    about the lock of [p]. *)
Definition tally (p : string) (L0 : Locks) (acc : Locks * list Schedule.t) : Prop :=
  match L0 !! p with
  | Some _ => is_Some (acc.1 !! p) ∧ fired p acc.2 = 0%nat
  | None => match acc.1 !! p with Some _ => fired p acc.2 = 1%nat | None => fired p acc.2 = 0%nat end
  end.

Lemma tally_step p L0 now acc s : tally p L0 acc → tally p L0 (scan_one zone creatable dir now acc s).
Proof.
  unfold scan_one. destruct (due s now); [|done]. unfold acquireLock. fold (window s).
  destruct (acc.1 !! window s) eqn:E; [done|]. destruct (creatable (window s)); [|done].
  unfold tally. cbn [fst snd]. rewrite fired_app.
  destruct (decide (window s = p)) as [Ep|Ep].
  - assert (fired p [s] = 1%nat) as -> by (unfold fired; by rewrite filter_cons_True, filter_nil).
    rewrite Ep in E |- *. rewrite lookup_insert_eq, E. destruct (L0 !! p); [by intros [[? ?] _]|]. intros ->. done.
  - assert (fired p [s] = 0%nat) as -> by (unfold fired; by rewrite filter_cons_False, filter_nil).
    rewrite lookup_insert_ne, Nat.add_0_r by done. done.
Qed.
Lemma tally_fold p L0 now l : ∀ acc, tally p L0 acc → tally p L0 (foldl (scan_one zone creatable dir now) acc l).
Proof. induction l as [|s l IH]; intros acc H; [done|]. cbn [foldl]. by apply IH, tally_step. Qed.

Lemma scan_keeps_lock p now l : ∀ acc, is_Some (acc.1 !! p) → is_Some ((foldl (scan_one zone creatable dir now) acc l).1 !! p).
Proof.
  induction l as [|s l IH]; intros acc H; [done|]. cbn [foldl]. apply IH. unfold scan_one, acquireLock. fold (window s).
  destruct (due s now), (acc.1 !! window s) eqn:E, (creatable (window s)); try done. cbn [fst].
  destruct (decide (window s = p)) as [->|?]; [by rewrite lookup_insert_eq|by rewrite lookup_insert_ne].
Qed.
Lemma due_takes_lock now l s : ∀ acc,
  s ∈ l → due s now = true → creatable (window s) = true → is_Some ((foldl (scan_one zone creatable dir now) acc l).1 !! window s).
Proof.
  induction l as [|s' l IH]; intros acc Hin Hd Hc; [by apply elem_of_nil in Hin|]. cbn [foldl].
  apply elem_of_cons in Hin as [->|Hin]; [|by apply IH].
  apply scan_keeps_lock. unfold scan_one, acquireLock. rewrite Hd. fold (window s').
  destruct (acc.1 !! window s') eqn:E; [by rewrite E|]. rewrite Hc. cbn [fst]. by rewrite lookup_insert_eq.
Qed.

(** The scans of several processes, one after the other, between two cleanups. *)
Definition Scan : Type := (Z * list string * ScheduleStore)%type.
Fixpoint run_scans (l : list Scan) (L : Locks) : Locks * list Schedule.t :=
  match l with
  | [] => (L, [])
  | (now, ord, st) :: l' =>
      let '(L1, t1) := scan zone creatable dir false now ord st L in
      let '(L2, t2) := run_scans l' L1 in (L2, t1 ++ t2)
  end.
Definition sees_due (p : string) (e : Scan) : Prop :=
  let '(now, ord, st) := e in ∃ id s, id ∈ ord ∧ st !! id = Some s ∧ due s now = true ∧ window s = p.

Lemma run_scans_spec p l : ∀ L,
  creatable p = true →
  let r := run_scans l L in
  tally p L r ∧ (is_Some (L !! p) ∨ Exists (sees_due p) l → is_Some (r.1 !! p)) ∧
  (¬ Exists (sees_due p) l → L !! p = None → r.1 !! p = None).
Proof.
  induction l as [|[[now ord] st] l IH]; intros L Hc; cbn [run_scans].
  { split_and!; [|intros [?|?%Exists_nil]; done|done]. unfold tally. cbn [fst snd]. by destruct (L !! p). }
  unfold scan. set (ss := snd <$> range st ord). set (acc := foldl (scan_one zone creatable dir now) (L, []) ss).
  assert (tally p L acc) as Ht.
  { apply tally_fold. unfold tally. cbn [fst snd]. by destruct (L !! p). }
  assert (is_Some (L !! p) → is_Some (acc.1 !! p)) as Hkeep by (intros; by apply scan_keeps_lock).
  assert (sees_due p (now, ord, st) → is_Some (acc.1 !! p)) as Hsee.
  { intros (id & s & Hid & Hs & Hd & <-). apply due_takes_lock; [|done..].
    apply list_elem_of_fmap. exists (id, s). split; [done|]. by apply elem_of_range. }
  assert (¬ sees_due p (now, ord, st) → L !! p = None → acc.1 !! p = None) as Hnot.
  { intros Hn HL. assert (Forall (λ s, ¬ (due s now = true ∧ window s = p)) ss) as Hss.
    { apply Forall_forall. intros s ([id s'] & -> & [Hid Hs]%elem_of_range)%list_elem_of_fmap [Hd Hw].
      apply Hn. by exists id, s'. }
    unfold acc. clear - HL Hss. assert (((L, []) : Locks * list Schedule.t).1 !! p = None) as H by done. revert H.
    generalize ((L, []) : Locks * list Schedule.t). induction Hss as [|s ss Hs Hss IH]; intros a Ha; [done|]. cbn [foldl].
    apply IH. unfold scan_one, acquireLock. fold (window s). destruct (due s now) eqn:Ed; [|done].
    destruct (a.1 !! window s), (creatable (window s)); try done. cbn [fst]. rewrite lookup_insert_ne; [done|naive_solver]. }
  destruct acc as [L1 t1]. cbn [fst] in *. specialize (IH L1 Hc). destruct (run_scans l L1) as [L2 t2]. cbn [fst] in *.
  destruct IH as (IHt & IHl & IHn). split_and!.
  - unfold tally in *. cbn [fst snd] in *. rewrite fired_app. destruct (L !! p).
    + destruct Ht as [[? E] ->]. rewrite E in IHt. by destruct IHt as [? ->].
    + destruct (L1 !! p); [destruct IHt as [[? ->] ->]; by rewrite Ht|]. rewrite Ht. by destruct (L2 !! p).
  - rewrite Exists_cons. intros [?|[?|?]]; apply IHl; auto.
  - rewrite Exists_cons. intros Hn HL. apply IHn; [tauto|]. apply Hnot; tauto.
Qed.

(** However many processes scan, a window whose lock is free and which one of
    them sees due is triggered exactly once, a window whose lock file exists
    never. *)
Theorem window_fires_once p l L :
  creatable p = true →
  (L !! p = None → Exists (sees_due p) l → fired p (run_scans l L).2 = 1%nat) ∧
  (is_Some (L !! p) ∨ ¬ Exists (sees_due p) l → fired p (run_scans l L).2 = 0%nat).
Proof.
  intros Hc. destruct (run_scans_spec p l L Hc) as (Ht & Hl & Hn). unfold tally in Ht. split.
  - intros HL Hex. rewrite HL in Ht. destruct (Hl (or_intror Hex)) as [? E]. by rewrite E in Ht.
  - intros [[? HL]|Hex].
    + rewrite HL in Ht. by destruct Ht.
    + destruct (L !! p) eqn:HL; [by destruct Ht|]. by rewrite Hn in Ht.
Qed.
End windows.

(** ** The run ledger *)

(** A [once] schedule is not due again after a run, nor is a schedule that has
    used up its runs. *)
Lemma once_not_due zone s ok now now' : Schedule.Type_ s = ScheduleOnce → due (track zone s ok now) now' = false.
Proof.
  intros E. unfold due, track. cbv zeta.
  assert (∀ s', Schedule.Type_ s' = ScheduleOnce → calculateNextRun zone s' now = 0) as Hc.
  { intros s' E'. unfold calculateNextRun. by rewrite E'. }
  destruct ok; match goal with |- context [if ?b then _ else _] => destruct b end;
    cbn; rewrite ?Hc, ?andb_false_r by done; done.
Qed.
Lemma spent_not_due zone s ok now now' :
  0 < Schedule.MaxRuns s → Schedule.MaxRuns s <= Schedule.RunCount s + 1 → 0 <= Schedule.RunCount s < int64_max →
  due (track zone s ok now) now' = false.
Proof.
  intros H1 H2 H3. unfold due, track. cbv zeta.
  assert (wrap64 (Schedule.RunCount s + 1) = Schedule.RunCount s + 1) as E.
  { apply wrap64_id. unfold in_int64, int64_min, int64_max in *. lia. }
  destruct ok; cbn; rewrite E; replace ((0 <? _) && _) with true by lia; done.
Qed.

(** Scheduled inputs always carry the admin tier. *)
Lemma as_admin_all s i : i ∈ Schedule.TaskInputs (as_admin s) → StepInput.SubmitterIsAdmin i = true.
Proof. cbn. by intros (j & -> & _)%list_elem_of_fmap. Qed.

(** ** Concrete schedules *)

Definition every_30s : Schedule.t :=
  Schedule.mk "s1" "tick" ScheduleInterval None "30s" "" [zeroInput] ScheduleActive 0 0 None
    (march_2024 * 86400 * ns_per_second + 5 * ns_per_second) "ignore" 0 0.
Definition two_processes : list Scan :=
  let st := {[ "s1" := every_30s ]} in let t := march_2024 * 86400 * ns_per_second in
  [(t + 10 * ns_per_second, ["s1"], st); (t + 12 * ns_per_second, ["s1"], st)].

Lemma window_fires_once_witness :
  fired utc "locks" (window utc "locks" every_30s) (run_scans utc (λ _, true) "locks" two_processes ∅).2 = 1%nat.
Proof.
  apply (window_fires_once utc (λ _, true) "locks"); [reflexivity|apply lookup_empty|].
  apply Exists_cons_hd. exists "s1", every_30s. split; [set_solver|]. split; [reflexivity|]. split; vm_compute; reflexivity.
Defined.

(** An interval below a minute: after the first run the next window has the
    same lock file, so the schedule waits until the locks are cleaned. *)
Definition fired_at : Z := march_2024 * 86400 * ns_per_second + 10 * ns_per_second.
Example half_minute_stalls :
  let L := (scan utc (λ _, true) "locks" false fired_at ["s1"] {[ "s1" := every_30s ]} ∅).1 in
  let s := track utc every_30s true fired_at in
  let later := fired_at + 3600 * ns_per_second in
  Schedule.NextRun s = fired_at + 30 * ns_per_second ∧ due s later = true ∧
  (scan utc (λ _, true) "locks" false later ["s1"] {[ "s1" := s ]} L).2 = [].
Proof. vm_compute. auto. Qed.
