(* ===== verification/Fence.v ===== *)
(** * The persist fence (core/scheduler_fence.go; [persistGraph] and
    [startGraphExecutor] of core/scheduler.go; the manifest write of
    core/scheduler_decision_finalize.go)

    Engines that share an output directory claim a task by writing a token into
    its fence file.  Everything here is about one task: the fence maps of an
    engine are keyed by task.  An operation is a program over the shared
    directory ([prog]): [exec] runs it in one go, [istep] interleaves the
    programs of several engines at each access to the directory. *)
From S2P Require Import Prelude.
Local Open Scope Z_scope.

(** ** State *)

Module graphFence.
Record t := mk { Owner : string; Seq : Z }.
End graphFence.
#[export] Instance graphFence_eq_dec : EqDecision graphFence.t.
Proof. solve_decision. Defined.

(** The file: [Garbled] is content that does not parse. *)
Inductive fence_file := NoFile | Garbled | Stored (f : graphFence.t).
Definition readGraphFence (f : fence_file) : option graphFence.t :=
  match f with
  | Stored t => if String.eqb (graphFence.Owner t) "" then None else Some t
  | _ => None
  end.

Module Disk.
Record t := mk { fence : fence_file; manifest : option string; artifacts : option string; ledger : option string }.
#[global] Instance eta : Eta t := λ r, mk (fence r) (manifest r) (artifacts r) (ledger r).
End Disk.

(** One engine's entries for the task.  Executors are numbered; [fenceCancels]
    is the one whose cancel function is stored, [cancelled] those cancelled
    through it. *)
Module Eng.
Record t := mk {
  fences : option graphFence.t; fenceBroken : bool; fenceCancels : option nat;
  started : nat; cancelled : gset nat; lastPersistAt : option Z }.
#[global] Instance eta : Eta t := λ r,
  mk (fences r) (fenceBroken r) (fenceCancels r) (started r) (cancelled r) (lastPersistAt r).
End Eng.
Definition new_engine : Eng.t := Eng.mk None false None 0 ∅ None.

(** Whether the file operations of a write succeed: the directory, the
    temporary file, each of the three renames. *)
Module Fs.
Record t := mk { mkdir : bool; tmp : bool; rename : nat → bool; manifest : bool }.
End Fs.
Definition writeGraphFence (fs : Fs.t) (f : graphFence.t) (d : Disk.t) : Disk.t * bool :=
  if Fs.mkdir fs && Fs.tmp fs && existsb (Fs.rename fs) [0; 1; 2]%nat
  then (d <| Disk.fence := Stored f |>, true) else (d, false).

(** ** Programs over the directory *)

Inductive prog :=
| Done (e : Eng.t)
| ReadFence (k : option graphFence.t → prog)
| WriteFence (f : graphFence.t) (k : bool → prog)
| WriteManifest (data : string) (k : bool → prog)
| WriteRest (artifacts ledger : option string) (k : prog).

Definition hasFenceToken (owner : string) : bool := negb (String.eqb owner "").

(** [recordFenceLoss]; what it logs is left out. *)
Definition recordFenceLoss (e : Eng.t) : Eng.t :=
  if Eng.fenceBroken e then e
  else
    let e := e <| Eng.fenceBroken := true |> in
    match Eng.fenceCancels e with
    | Some c => e <| Eng.cancelled ::= λ s, {[c]} ∪ s |>
    | None => e
    end.

Definition noFence : graphFence.t := graphFence.mk "" 0.
(** The loop of [claimFence]: at most [n] attempts, then the loss. *)
Fixpoint claim_attempts (n : nat) (owner : string) (e : Eng.t) (k : Eng.t → prog) : prog :=
  match n with
  | O => k (recordFenceLoss e)
  | S n' =>
      ReadFence (λ onDisk,
        let mine := graphFence.mk owner (match onDisk with Some t => wrap64 (graphFence.Seq t + 1) | None => 1 end) in
        WriteFence mine (λ ok,
          if ok then
            ReadFence (λ after,
              let after := default noFence after in
              let e := e <| Eng.fences := Some after |> in
              if decide (after = mine) then k e else claim_attempts n' owner e k)
          else k (e <| Eng.fences := None |>)))
  end.
Definition claimFence (owner : string) (e : Eng.t) (k : Eng.t → prog) : prog :=
  if hasFenceToken owner then claim_attempts 2 owner (e <| Eng.fenceBroken := false |>) k else k e.

Definition stampFence (owner : string) (e : Eng.t) (k : Eng.t → prog) : prog :=
  if hasFenceToken owner then
    match Eng.fences e with
    | Some mine => ReadFence (λ onDisk, if decide (onDisk = Some mine) then k e else claimFence owner e k)
    | None => claimFence owner e k
    end
  else k e.

Definition holdsFence (e : Eng.t) (k : bool → prog) : prog :=
  if Eng.fenceBroken e then k false
  else match Eng.fences e with
       | None => k true
       | Some mine => ReadFence (λ onDisk, k (match onDisk with None => true | Some t => bool_decide (t = mine) end))
       end.

(** [persistGraph] at the instant [now]: [manifest] is the marshalled graph, if
    it marshals, [artifacts] and [ledger] the other records if they are written. *)
Definition debounce : Z := 200000000.
Definition persistGraph (owner : string) (now : Z) (manifest artifacts ledger : option string) (e : Eng.t) : prog :=
  holdsFence e (λ holds,
    if holds then
      if match Eng.lastPersistAt e with Some last => now - last <? debounce | None => false end then Done e
      else
        let e := e <| Eng.lastPersistAt := Some now |> in
        match manifest with
        | Some data =>
            WriteManifest data (λ ok,
              if ok then stampFence owner e (λ e, WriteRest artifacts ledger (Done e)) else WriteRest artifacts ledger (Done e))
        | None => WriteRest artifacts ledger (Done e)
        end
    else Done (recordFenceLoss e)).

(** The end of [finalizeDecision]: the debounce entry is deleted, and the
    manifest is written when the fence is held. *)
Definition finalizeManifest (data : string) (e : Eng.t) : prog :=
  let e := e <| Eng.lastPersistAt := None |> in
  holdsFence e (λ holds, if holds then WriteManifest data (λ _, Done e) else Done (recordFenceLoss e)).

Definition startGraphExecutor (e : Eng.t) : Eng.t :=
  e <| Eng.fenceCancels := Some (Eng.started e) |> <| Eng.started ::= S |>.
Definition dropFence (e : Eng.t) : Eng.t :=
  e <| Eng.fences := None |> <| Eng.fenceBroken := false |> <| Eng.fenceCancels := None |>.
(** What [Clear] does to the entries of the task; [evictTerminalGraphs] only
    drops the fence. *)
Definition clear (e : Eng.t) : Eng.t := dropFence e <| Eng.lastPersistAt := None |>.

(** ** Running a program *)

(** One access, and the rest of the program. *)
Definition access (fs : Fs.t) (p : prog) (d : Disk.t) : prog * Disk.t :=
  match p with
  | Done e => (p, d)
  | ReadFence k => (k (readGraphFence (Disk.fence d)), d)
  | WriteFence f k => let '(d, ok) := writeGraphFence fs f d in (k ok, d)
  | WriteManifest data k => if Fs.manifest fs then (k true, d <| Disk.manifest := Some data |>) else (k false, d)
  | WriteRest a l k =>
      (k, d <| Disk.artifacts ::= λ old, match a with Some _ => a | None => old end |>
            <| Disk.ledger ::= λ old, match l with Some _ => l | None => old end |>)
  end.
(** All accesses in one go: the engine, the directory, and whether a manifest
    landed. *)
Fixpoint exec (fs : Fs.t) (p : prog) (d : Disk.t) : Eng.t * Disk.t * bool :=
  match p with
  | Done e => (e, d, false)
  | ReadFence k => exec fs (k (readGraphFence (Disk.fence d))) d
  | WriteFence f k => let '(d, ok) := writeGraphFence fs f d in exec fs (k ok) d
  | WriteManifest data k =>
      if Fs.manifest fs
      then let '(e, d, _) := exec fs (k true) (d <| Disk.manifest := Some data |>) in (e, d, true)
      else exec fs (k false) d
  | WriteRest a l k =>
      exec fs k (d <| Disk.artifacts ::= λ old, match a with Some _ => a | None => old end |>
                   <| Disk.ledger ::= λ old, match l with Some _ => l | None => old end |>)
  end.

(** ** Several engines *)

(** An engine is keyed by its owner token. *)
Inductive call :=
| Start
| Persist (now : Z) (manifest artifacts ledger : option string)
| Finalize (data : string)
| Clear
| Evict.
Definition run_call (owner : string) (c : call) (e : Eng.t) : prog :=
  match c with
  | Start => Done (startGraphExecutor e)
  | Persist now m a l => persistGraph owner now m a l e
  | Finalize data => finalizeManifest data e
  | Clear => Done (clear e)
  | Evict => Done (dropFence e)
  end.

Module Sys.
Record t := mk { disk : Disk.t; engines : gmap string Eng.t }.
#[global] Instance eta : Eta t := λ r, mk (disk r) (engines r).
End Sys.
Definition eng (s : Sys.t) (o : string) : Eng.t := default new_engine (Sys.engines s !! o).

(** A whole call without interference, or the loss of the fence file. *)
Inductive event := Call (o : string) (fs : Fs.t) (c : call) | FenceLost.
Definition sys_step (s : Sys.t) (ev : event) : Sys.t :=
  match ev with
  | Call o fs c =>
      let '(e, d, _) := exec fs (run_call o c (eng s o)) (Sys.disk s) in
      Sys.mk d (<[o := e]> (Sys.engines s))
  | FenceLost => s <| Sys.disk ::= λ d, d <| Disk.fence := NoFile |> |>
  end.

(** Whether an event landed a manifest. *)
Definition landed (s : Sys.t) (ev : event) : bool :=
  match ev with Call o fs c => (exec fs (run_call o c (eng s o)) (Sys.disk s)).2 | FenceLost => false end.

(** Interleaving: each engine has at most one program under way. *)
Module Cfg.
Record t := mk { disk : Disk.t; procs : gmap string prog }.
#[global] Instance eta : Eta t := λ r, mk (disk r) (procs r).
End Cfg.
Inductive istep : Cfg.t → Cfg.t → Prop :=
| istep_call c o e cl :
    Cfg.procs c !! o = Some (Done e) →
    istep c (c <| Cfg.procs ::= <[o := run_call o cl e]> |>)
| istep_access c o p fs p' d' :
    Cfg.procs c !! o = Some p → access fs p (Cfg.disk c) = (p', d') →
    istep c (Cfg.mk d' (<[o := p']> (Cfg.procs c)))
| istep_lost c : istep c (c <| Cfg.disk ::= λ d, d <| Disk.fence := NoFile |> |>).

(** ** Specification: a preemptive lease

    One engine holds the lease.  Persisting takes it, whoever held it; an engine
    that once took it and finds another holder is stopped and stays so until it
    forgets the task. *)

Inductive standing := Fresh | Claimed | Stopped.
#[export] Instance standing_eq_dec : EqDecision standing.
Proof. solve_decision. Defined.
Module Lease.
Record t := mk { holder : option string; standings : string → standing }.
End Lease.
Definition set_standing (o : string) (x : standing) (L : Lease.t) : Lease.t :=
  Lease.mk (Lease.holder L) (λ o', if decide (o' = o) then x else Lease.standings L o').
Definition take (o : string) (L : Lease.t) : Lease.t :=
  let L := set_standing o Claimed L in Lease.mk (Some o) (Lease.standings L).

Definition may_write (L : Lease.t) (o : string) : Prop :=
  match Lease.standings L o with
  | Fresh => True
  | Claimed => Lease.holder L = None ∨ Lease.holder L = Some o
  | Stopped => False
  end.
Definition preempted (L : Lease.t) (o : string) : Prop :=
  Lease.standings L o = Claimed ∧ ∃ h, Lease.holder L = Some h ∧ h ≠ o.

Definition is_write (c : call) : Prop := match c with Persist _ _ _ _ | Finalize _ => True | _ => False end.

(** What is observed of an event: the engine's manifest landed or not. *)
Inductive lstep : Lease.t → event * bool → Lease.t → Prop :=
| l_start L o fs : lstep L (Call o fs Start, false) L
| l_clear L o fs : lstep L (Call o fs Clear, false) (set_standing o Fresh L)
| l_evict L o fs : lstep L (Call o fs Evict, false) (set_standing o Fresh L)
| l_lost L : lstep L (FenceLost, false) (Lease.mk None (Lease.standings L))
(* an engine that may not write writes nothing, and one that was preempted stops *)
| l_refused L o fs c : is_write c → Lease.standings L o = Stopped → lstep L (Call o fs c, false) L
| l_stopped L o fs now m a l : preempted L o → lstep L (Call o fs (Persist now m a l), false) (set_standing o Stopped L)
| l_stopped_final L o fs data : preempted L o → lstep L (Call o fs (Finalize data), false) (set_standing o Stopped L)
(* nothing to write, or the write failed *)
| l_skip L o fs now m a l : may_write L o → lstep L (Call o fs (Persist now m a l), false) L
| l_persist L o fs now m a l : may_write L o → o ≠ "" → lstep L (Call o fs (Persist now m a l), true) (take o L)
(* the claim did not reach the disk: the engine goes on without one *)
| l_unfenced L o fs now m a l :
    may_write L o → ¬ (Lease.standings L o = Claimed ∧ Lease.holder L = Some o) →
    lstep L (Call o fs (Persist now m a l), true) (set_standing o Fresh L)
| l_final L o fs data landed : may_write L o → lstep L (Call o fs (Finalize data), landed) L.

(** The executors of an engine: how many it started, the one that can be stopped,
    and those that were.  An engine stops its executor when, and only when, it is
    stopped itself; a start always gives a new executor, also to a stopped engine. *)
Module Execs.
Record t := mk { current : option nat; count : nat; stopped : gset nat }.
End Execs.
Definition start_exec (x : Execs.t) : Execs.t := Execs.mk (Some (Execs.count x)) (S (Execs.count x)) (Execs.stopped x).
Definition forget_exec (x : Execs.t) : Execs.t := Execs.mk None (Execs.count x) (Execs.stopped x).
Definition stop_exec (x : Execs.t) : Execs.t :=
  Execs.mk (Execs.current x) (Execs.count x) (list_to_set (option_list (Execs.current x)) ∪ Execs.stopped x).
Definition exec_effect (ev : event) (L L' : Lease.t) (X : string → Execs.t) (o : string) : Execs.t :=
  match ev with
  | Call o' _ c =>
      if decide (o = o') then
        match c with
        | Start => start_exec (X o)
        | Clear | Evict => forget_exec (X o)
        | _ => if decide (Lease.standings L o ≠ Stopped ∧ Lease.standings L' o = Stopped) then stop_exec (X o) else X o
        end
      else X o
  | FenceLost => X o
  end.

Inductive lsteps : Lease.t → (string → Execs.t) → list (event * bool) → Lease.t → (string → Execs.t) → Prop :=
| l_nil L X : lsteps L X [] L X
| l_cons L X l L1 ls L2 X2 : lstep L l L1 → lsteps L1 (exec_effect l.1 L L1 X) ls L2 X2 → lsteps L X (l :: ls) L2 X2.

(** ** Operations without interference *)

Definition can_fence (fs : Fs.t) : bool := Fs.mkdir fs && Fs.tmp fs && existsb (Fs.rename fs) [0; 1; 2]%nat.
Definition token_of (d : Disk.t) : option graphFence.t := readGraphFence (Disk.fence d).
Definition next_token (o : string) (d : Disk.t) : graphFence.t :=
  graphFence.mk o (match token_of d with Some t => wrap64 (graphFence.Seq t + 1) | None => 1 end).

Lemma read_owner f t : readGraphFence f = Some t → graphFence.Owner t ≠ "".
Proof. destruct f as [| |f']; cbn; try done. destruct (String.eqb_spec (graphFence.Owner f') ""); [done|]. by intros [= <-]. Qed.
Lemma read_stored t : graphFence.Owner t ≠ "" → readGraphFence (Stored t) = Some t.
Proof. intros H. cbn. destruct (String.eqb_spec (graphFence.Owner t) ""); done. Qed.
Lemma has_token o : hasFenceToken o = true ↔ o ≠ "".
Proof. unfold hasFenceToken. destruct (String.eqb_spec o ""); split; done. Qed.

Lemma exec_claim fs o e k d :
  o ≠ "" →
  exec fs (claimFence o e k) d =
    if can_fence fs
    then exec fs (k (e <| Eng.fenceBroken := false |> <| Eng.fences := Some (next_token o d) |>))
           (d <| Disk.fence := Stored (next_token o d) |>)
    else exec fs (k (e <| Eng.fenceBroken := false |> <| Eng.fences := None |>)) d.
Proof.
  intros Ho. unfold claimFence. rewrite (proj2 (has_token o) Ho). cbn [claim_attempts exec]. fold (token_of d).
  fold (next_token o d). unfold writeGraphFence. fold (can_fence fs). destruct (can_fence fs); [|done].
  cbn [exec]. change (Disk.fence (d <| Disk.fence := Stored (next_token o d) |>)) with (Stored (next_token o d)).
  rewrite read_stored by done. cbn [default from_option id]. by rewrite decide_True.
Qed.

(** The stamp leaves the engine and the directory in one of four ways. *)
Inductive stamped (fs : Fs.t) (o : string) (e : Eng.t) (d : Disk.t) : Eng.t → Disk.t → Prop :=
| st_unfenced : o = "" → stamped fs o e d e d
| st_held t : o ≠ "" → Eng.fences e = Some t → token_of d = Some t → stamped fs o e d e d
| st_claimed :
    o ≠ "" →
    stamped fs o e d (e <| Eng.fenceBroken := false |> <| Eng.fences := Some (next_token o d) |>)
      (d <| Disk.fence := Stored (next_token o d) |>)
| st_failed :
    o ≠ "" → (∀ t, Eng.fences e = Some t → token_of d ≠ Some t) →
    stamped fs o e d (e <| Eng.fenceBroken := false |> <| Eng.fences := None |>) d.

Lemma exec_stamp fs o e k d :
  ∃ e' d', stamped fs o e d e' d' ∧ exec fs (stampFence o e k) d = exec fs (k e') d'.
Proof.
  unfold stampFence. destruct (hasFenceToken o) eqn:Ho.
  2: { exists e, d. split; [|done]. apply st_unfenced. unfold hasFenceToken in Ho. destruct (String.eqb_spec o ""); done. }
  apply has_token in Ho. destruct (Eng.fences e) as [t|] eqn:Ef.
  - cbn [exec]. fold (token_of d). destruct (decide (token_of d = Some t)) as [E|E].
    + exists e, d. split; [by eapply st_held|done].
    + rewrite exec_claim by done. destruct (can_fence fs); do 2 eexists; (split; [|reflexivity]).
      * by apply st_claimed.
      * apply st_failed; [done|]. rewrite Ef. by intros ? [= <-].
  - rewrite exec_claim by done. destruct (can_fence fs); do 2 eexists; (split; [|reflexivity]).
    + by apply st_claimed.
    + apply st_failed; [done|]. by rewrite Ef.
Qed.

Definition holds (e : Eng.t) (d : Disk.t) : bool :=
  negb (Eng.fenceBroken e) &&
  match Eng.fences e, token_of d with Some mine, Some t => bool_decide (t = mine) | _, _ => true end.
Lemma exec_holds fs e k d : exec fs (holdsFence e k) d = exec fs (k (holds e d)) d.
Proof.
  unfold holdsFence, holds. destruct (Eng.fenceBroken e); [done|]. destruct (Eng.fences e); [|done]. cbn [exec negb andb].
  fold (token_of d). by destruct (token_of d).
Qed.

Lemma exec_rest fs a l e d : ∃ d', exec fs (WriteRest a l (Done e)) d = (e, d', false) ∧ Disk.fence d' = Disk.fence d ∧ Disk.manifest d' = Disk.manifest d.
Proof. eexists. split; [reflexivity|done]. Qed.

(** What persisting does when the fence is held, and that nothing is written
    otherwise. *)
Lemma persist_refused fs o now m a l e d :
  holds e d = false → exec fs (persistGraph o now m a l e) d = (recordFenceLoss e, d, false).
Proof. intros H. unfold persistGraph. rewrite exec_holds. by rewrite H. Qed.
Lemma persist_held fs o now m a l e d :
  holds e d = true →
  ∃ e' d' w, exec fs (persistGraph o now m a l e) d = (e', d', w) ∧
    (w = false ∧ Eng.fences e' = Eng.fences e ∧ Eng.fenceBroken e' = Eng.fenceBroken e ∧ Disk.fence d' = Disk.fence d ∨
     w = true ∧ ∃ e1 d1 e2 d2, Eng.fences e1 = Eng.fences e ∧ Eng.fenceBroken e1 = Eng.fenceBroken e ∧ Disk.fence d1 = Disk.fence d ∧
       stamped fs o e1 d1 e2 d2 ∧ e' = e2 ∧ Disk.fence d' = Disk.fence d2).
Proof.
  intros H. unfold persistGraph. rewrite exec_holds, H.
  destruct (match Eng.lastPersistAt e with Some last => now - last <? debounce | None => false end).
  { do 3 eexists. split; [reflexivity|]. by left. }
  set (e1 := e <| Eng.lastPersistAt := Some now |>). destruct m as [data|].
  - cbn [exec]. destruct (Fs.manifest fs).
    + set (d1 := d <| Disk.manifest := Some data |>).
      destruct (exec_stamp fs o e1 (λ e, WriteRest a l (Done e)) d1) as (e2 & d2 & Hst & ->).
      destruct (exec_rest fs a l e2 d2) as (d3 & -> & Ef & _).
      do 3 eexists. split; [reflexivity|]. right. split; [done|]. exists e1, d1, e2, d2. by split_and!.
    + do 3 eexists. split; [reflexivity|]. by left.
  - do 3 eexists. split; [reflexivity|]. by left.
Qed.

(** ** Refinement *)

Definition einv (o : string) (e : Eng.t) (tok : option graphFence.t) : Prop :=
  match Eng.fences e with
  | None => True
  | Some t => o ≠ "" ∧ graphFence.Owner t = o ∧ ∀ t', tok = Some t' → graphFence.Owner t' = o → t' = t
  end.
Definition inv (s : Sys.t) : Prop := ∀ o, einv o (eng s o) (token_of (Sys.disk s)).

Definition standing_of (e : Eng.t) : standing :=
  if Eng.fenceBroken e then Stopped else match Eng.fences e with Some _ => Claimed | None => Fresh end.
Definition refines (s : Sys.t) (L : Lease.t) : Prop :=
  Lease.holder L = graphFence.Owner <$> token_of (Sys.disk s) ∧ ∀ o, Lease.standings L o = standing_of (eng s o).

Lemma holds_may_write o e d L :
  einv o e (token_of d) → Lease.holder L = graphFence.Owner <$> token_of d → Lease.standings L o = standing_of e →
  (holds e d = true → may_write L o) ∧ (holds e d = false → Lease.standings L o = Stopped ∨ preempted L o).
Proof.
  intros Hi Hh Hs. unfold holds, may_write, preempted. rewrite Hs, Hh. unfold standing_of, einv in *.
  destruct (Eng.fenceBroken e); cbn [negb andb]; [by split; [|left]|].
  destruct (Eng.fences e) as [t|]; [|by split]. destruct Hi as (Ho & Hot & Htok).
  destruct (token_of d) as [t'|]; cbn [fmap option_fmap option_map]; [|by split; [left|]].
  destruct (decide (t' = t)) as [->|Hne].
  - rewrite bool_decide_eq_true_2 by done. split; [|done]. right. by rewrite Hot.
  - rewrite bool_decide_eq_false_2 by done. split; [done|]. right. split; [done|]. eexists. split; [done|].
    intros E. apply Hne. by apply Htok.
Qed.

(** One engine changed: what is to be checked of the others. *)
Lemma refines_update s L o e d x h :
  refines s L → inv s →
  h = graphFence.Owner <$> token_of d → x = standing_of e →
  einv o e (token_of d) →
  (∀ o' t', o' ≠ o → token_of d = Some t' → graphFence.Owner t' = o' → token_of (Sys.disk s) = Some t') →
  inv (Sys.mk d (<[o := e]> (Sys.engines s))) ∧
  refines (Sys.mk d (<[o := e]> (Sys.engines s))) (Lease.mk h (λ o', if decide (o' = o) then x else Lease.standings L o')).
Proof.
  intros [Hh Hs] Hi -> -> He Hd.
  assert (∀ o', eng (Sys.mk d (<[o := e]> (Sys.engines s))) o' = if decide (o' = o) then e else eng s o') as Heng.
  { intros o'. unfold eng. cbn. destruct (decide (o' = o)) as [->|?]; [by rewrite lookup_insert_eq|by rewrite lookup_insert_ne]. }
  split.
  - intros o'. rewrite Heng. cbn [Sys.disk]. destruct (decide (o' = o)) as [->|Hne]; [done|].
    specialize (Hi o'). unfold einv in *. destruct (Eng.fences (eng s o')) as [t|]; [|done].
    destruct Hi as (H1 & H2 & H3). split_and!; [done..|]. intros t' Ht' Ho'. apply H3; [|done]. by eapply Hd.
  - split; [done|]. intros o'. cbn [Lease.standings]. rewrite Heng. destruct (decide (o' = o)); [done|apply Hs].
Qed.

Lemma lease_ext s L L' : Lease.holder L = Lease.holder L' → (∀ o, Lease.standings L o = Lease.standings L' o) → refines s L → refines s L'.
Proof. intros H1 H2 [H3 H4]. split; [by rewrite <- H1|]. intros o. by rewrite <- H2. Qed.

Lemma refines_same s L o e d :
  refines s L → inv s → Eng.fences e = Eng.fences (eng s o) → Eng.fenceBroken e = Eng.fenceBroken (eng s o) →
  Disk.fence d = Disk.fence (Sys.disk s) →
  inv (Sys.mk d (<[o := e]> (Sys.engines s))) ∧ refines (Sys.mk d (<[o := e]> (Sys.engines s))) L.
Proof.
  intros Hr Hi Hf Hb Hd. pose proof Hr as [Hh Hs]. assert (token_of d = token_of (Sys.disk s)) as Ht by (unfold token_of; by rewrite Hd).
  assert (standing_of e = standing_of (eng s o)) as Hst by (unfold standing_of; by rewrite Hf, Hb).
  destruct (refines_update s L o e d (standing_of e) (Lease.holder L) Hr Hi) as [H1 H2]; [by rewrite Ht|done| | |].
  - rewrite Ht. unfold einv. rewrite Hf. apply Hi.
  - intros o' t' _ H _. by rewrite <- Ht.
  - split; [done|]. eapply lease_ext; [| |exact H2]; [done|]. intros o'. cbn. destruct (decide (o' = o)) as [->|]; [|done].
    by rewrite Hst, Hs.
Qed.
Lemma refines_set s L o e d x :
  refines s L → inv s → standing_of e = x → (Eng.fences e = Eng.fences (eng s o) ∨ Eng.fences e = None) →
  Disk.fence d = Disk.fence (Sys.disk s) →
  inv (Sys.mk d (<[o := e]> (Sys.engines s))) ∧ refines (Sys.mk d (<[o := e]> (Sys.engines s))) (set_standing o x L).
Proof.
  intros Hr Hi Hx Hf Hd. pose proof Hr as [Hh Hs]. assert (token_of d = token_of (Sys.disk s)) as Ht by (unfold token_of; by rewrite Hd).
  apply refines_update; try done.
  - by rewrite Ht.
  - rewrite Ht. unfold einv. destruct Hf as [->| ->]; [apply Hi|done].
  - intros o' t' _ H _. by rewrite <- Ht.
Qed.

Lemma loss_standing e : standing_of (recordFenceLoss e) = Stopped ∧ Eng.fences (recordFenceLoss e) = Eng.fences e.
Proof.
  unfold recordFenceLoss, standing_of. destruct (Eng.fenceBroken e) eqn:E; [by rewrite E|].
  by destruct (Eng.fenceCancels _).
Qed.

(** A refused write, of either kind. *)
Lemma refused_sim s L o fs c d :
  inv s → refines s L → is_write c → holds (eng s o) (Sys.disk s) = false → Disk.fence d = Disk.fence (Sys.disk s) →
  (preempted L o → lstep L (Call o fs c, false) (set_standing o Stopped L)) →
  ∀ e, e = recordFenceLoss (eng s o) ∨
       (∃ e0, e = recordFenceLoss e0 ∧ Eng.fences e0 = Eng.fences (eng s o) ∧ Eng.fenceBroken e0 = Eng.fenceBroken (eng s o)) →
  ∃ L', lstep L (Call o fs c, false) L' ∧ inv (Sys.mk d (<[o := e]> (Sys.engines s))) ∧ refines (Sys.mk d (<[o := e]> (Sys.engines s))) L'.
Proof.
  intros Hi Hr Hc Hh Hd Hstop e He. pose proof Hr as [Hho Hst].
  assert (standing_of e = Stopped ∧ Eng.fences e = Eng.fences (eng s o)) as [Hse Hfe].
  { destruct He as [->|(e0 & -> & E1 & _)]; [apply loss_standing|]. destruct (loss_standing e0) as [? ->]. by rewrite E1. }
  destruct (holds_may_write o (eng s o) (Sys.disk s) L (Hi o) Hho (Hst o)) as [_ Hn]. destruct (Hn Hh) as [Hstopped|Hpre].
  - exists L. split; [by apply l_refused|]. apply refines_same; try done.
    rewrite Hst in Hstopped. unfold standing_of in Hse, Hstopped. rewrite Hfe in Hse.
    destruct (Eng.fenceBroken e), (Eng.fenceBroken (eng s o)), (Eng.fences (eng s o)); congruence.
  - exists (set_standing o Stopped L). split; [by apply Hstop|]. apply refines_set; auto.
Qed.

Lemma stamp_sim s L o fs now m a l e e1 d1 d2 d' :
  inv s → refines s L → may_write L o →
  Eng.fences e1 = Eng.fences (eng s o) → Eng.fenceBroken e1 = Eng.fenceBroken (eng s o) → Disk.fence d1 = Disk.fence (Sys.disk s) →
  stamped fs o e1 d1 e d2 → Disk.fence d' = Disk.fence d2 →
  ∃ L', lstep L (Call o fs (Persist now m a l), true) L' ∧
    inv (Sys.mk d' (<[o := e]> (Sys.engines s))) ∧ refines (Sys.mk d' (<[o := e]> (Sys.engines s))) L'.
Proof.
  intros Hi Hr Hmw Hf Hb Hd Hst Hd'. pose proof Hr as [Hho Hs]. pose proof (Hi o) as Hio.
  assert (token_of d1 = token_of (Sys.disk s)) as Ht by (unfold token_of; by rewrite Hd).
  assert (∀ t, einv o (eng s o) (token_of (Sys.disk s)) → Eng.fences (eng s o) = Some t → Eng.fenceBroken (eng s o) = false →
    Lease.standings L o = Claimed ∧ graphFence.Owner t = o) as Hcl.
  { intros t He E Eb. rewrite Hs. unfold standing_of, einv in *. rewrite E in *. rewrite Eb. naive_solver. }
  assert (Eng.fenceBroken (eng s o) = false) as Eb.
  { unfold may_write in Hmw. rewrite Hs in Hmw. unfold standing_of in Hmw. by destruct (Eng.fenceBroken (eng s o)). }
  destruct Hst as [Ho|t Ho Ht1 Ht2|Ho|Ho Hne].
  - (* no token of its own *)
    assert (Eng.fences (eng s o) = None) as En.
    { unfold einv in Hio. destruct (Eng.fences (eng s o)); [|done]. by destruct Hio. }
    assert (standing_of (eng s o) = Fresh) as Efr by (unfold standing_of; by rewrite Eb, En).
    exists (set_standing o Fresh L). split.
    + apply l_unfenced; [done|]. rewrite Hs, Efr. by intros [? _].
    + apply refines_set; try done; [unfold standing_of; by rewrite Hf, Hb, Eb, En|by left|by rewrite Hd', Hd].
  - (* already published *)
    rewrite Hf in Ht1. destruct (Hcl t Hio Ht1 Eb) as [Ecl Eo].
    assert (token_of d' = Some t) as Ed' by (unfold token_of in *; by rewrite Hd').
    exists (take o L). split; [by apply l_persist|]. apply (refines_update s L o e1 d' Claimed (Some o)); try done.
    + rewrite Ed'. cbn. by rewrite Eo.
    + unfold standing_of. by rewrite Hb, Eb, Hf, Ht1.
    + rewrite Ed'. unfold einv. rewrite Hf, Ht1. split_and!; [done..|]. by intros ? [= <-].
    + intros o' t' _ H _. rewrite Ed' in H. injection H as <-. by rewrite <- Ht.
  - (* claimed *)
    assert (token_of d' = Some (next_token o d1)) as Ed'.
    { unfold token_of. rewrite Hd'. apply read_stored. done. }
    exists (take o L). split; [by apply l_persist|]. eapply (refines_update s L o _ d' Claimed (Some o)); try done.
    + by rewrite Ed'.
    + rewrite Ed'. unfold einv. cbn. split_and!; [done..|]. by intros ? [= <-].
    + intros o' t' Hne H <-. rewrite Ed' in H. injection H as <-. done.
  - (* the claim failed *)
    exists (set_standing o Fresh L). split.
    + apply l_unfenced; [done|]. intros [E1 E2]. rewrite Hs in E1. unfold standing_of in E1. rewrite Eb in E1.
      destruct (Eng.fences (eng s o)) as [t|] eqn:Ef; [|done]. apply (Hne t); [by rewrite Hf|]. rewrite Ht.
      rewrite Hho in E2. destruct (token_of (Sys.disk s)) as [t'|]; [|done]. cbn in E2. injection E2 as E2.
      unfold einv in Hio. rewrite Ef in Hio. destruct Hio as (_ & _ & H). f_equal. by apply H.
    + apply refines_set; try done; [by right|by rewrite Hd', Hd].
Qed.

Lemma sim_step s L ev :
  inv s → refines s L → ∃ L', lstep L (ev, landed s ev) L' ∧ inv (sys_step s ev) ∧ refines (sys_step s ev) L'.
Proof.
  intros Hi Hr. pose proof Hr as [Hho Hs]. destruct ev as [o fs c|].
  2: { exists (Lease.mk None (Lease.standings L)). split; [constructor|]. split.
    - intros o. cbn. specialize (Hi o). unfold einv in *. unfold eng in *. cbn in *.
      destruct (Eng.fences _); [|done]. naive_solver.
    - split; [done|]. intros o. apply Hs. }
  unfold sys_step, landed. destruct (holds_may_write o (eng s o) (Sys.disk s) L (Hi o) Hho (Hs o)) as [Hmw _].
  destruct c as [|now m a l|data| |]; cbn [run_call].
  - exists L. split; [constructor|]. by apply refines_same.
  - destruct (holds (eng s o) (Sys.disk s)) eqn:Hh.
    + destruct (persist_held fs o now m a l (eng s o) (Sys.disk s) Hh)
        as (e' & d' & w & -> & [(-> & Hf & Hb & Hd)|(-> & e1 & d1 & e2 & d2 & Hf & Hb & Hd & Hst & -> & Hd')]).
      * exists L. split; [apply l_skip; by apply Hmw|]. by apply refines_same.
      * cbn [fst snd]. eapply stamp_sim; try eassumption. by apply Hmw.
    + rewrite persist_refused by done. eapply refused_sim; try done; [by constructor|by left].
  - unfold finalizeManifest. set (e1 := (eng s o) <| Eng.lastPersistAt := None |>). rewrite exec_holds.
    assert (holds e1 (Sys.disk s) = holds (eng s o) (Sys.disk s)) as -> by done.
    destruct (holds (eng s o) (Sys.disk s)) eqn:Hh.
    + cbn [exec]. destruct (Fs.manifest fs).
      * exists L. split; [apply l_final; by apply Hmw|]. by apply refines_same.
      * exists L. split; [apply l_final; by apply Hmw|]. by apply refines_same.
    + cbn [exec fst snd]. eapply refused_sim; try done; [by constructor|]. right. by exists e1.
  - exists (set_standing o Fresh L). split; [constructor|]. apply refines_set; try done. by right.
  - exists (set_standing o Fresh L). split; [constructor|]. apply refines_set; try done. by right.
Qed.

(** The executors follow. *)
Definition execs_of (e : Eng.t) : Execs.t := Execs.mk (Eng.fenceCancels e) (Eng.started e) (Eng.cancelled e).
Lemma standing_stopped e : standing_of e = Stopped ↔ Eng.fenceBroken e = true.
Proof. unfold standing_of. destruct (Eng.fenceBroken e); [done|]. by destruct (Eng.fences e). Qed.
Lemma loss_execs e : execs_of (recordFenceLoss e) = if Eng.fenceBroken e then execs_of e else stop_exec (execs_of e).
Proof.
  unfold recordFenceLoss. destruct (Eng.fenceBroken e); [done|]. cbv zeta.
  change (Eng.fenceCancels (e <| Eng.fenceBroken := true |>)) with (Eng.fenceCancels e). unfold execs_of, stop_exec. cbn [Execs.current Execs.count Execs.stopped].
  destruct (Eng.fenceCancels e) as [c|] eqn:E.
  - change (Execs.mk (Eng.fenceCancels e) (Eng.started e) ({[c]} ∪ Eng.cancelled e) =
      Execs.mk (Some c) (Eng.started e) (({[c]} ∪ ∅) ∪ Eng.cancelled e)). rewrite E. f_equal. set_solver.
  - change (Execs.mk (Eng.fenceCancels e) (Eng.started e) (Eng.cancelled e) = Execs.mk None (Eng.started e) (∅ ∪ Eng.cancelled e)).
    rewrite E. f_equal. set_solver.
Qed.
Lemma stamped_execs fs o e d e' d' : stamped fs o e d e' d' → Eng.fenceBroken e = false → execs_of e' = execs_of e ∧ Eng.fenceBroken e' = false.
Proof. by destruct 1. Qed.
Lemma held_execs fs o now m a l e d : holds e d = true →
  let e' := (exec fs (persistGraph o now m a l e) d).1.1 in execs_of e' = execs_of e ∧ Eng.fenceBroken e' = false.
Proof.
  intros H. assert (Eng.fenceBroken e = false) as Hb by (unfold holds in H; by destruct (Eng.fenceBroken e)).
  unfold persistGraph. rewrite exec_holds, H. cbv zeta.
  destruct (match Eng.lastPersistAt e with Some last => now - last <? debounce | None => false end); [done|].
  set (e1 := e <| Eng.lastPersistAt := Some now |>). destruct m as [data|]; [|done]. cbn [exec]. destruct (Fs.manifest fs); [|done].
  destruct (exec_stamp fs o e1 (λ e, WriteRest a l (Done e)) (d <| Disk.manifest := Some data |>)) as (e2 & d2 & Hst & ->).
  destruct (exec_rest fs a l e2 d2) as (d3 & -> & _). cbn [fst]. exact (stamped_execs _ _ _ _ _ _ Hst Hb).
Qed.
(** A write stops the executor exactly when it stops the engine. *)
Lemma stops_bool {A} e e' (a b : A) :
  (if decide (standing_of e ≠ Stopped ∧ standing_of e' = Stopped) then a else b) = if negb (Eng.fenceBroken e) && Eng.fenceBroken e' then a else b.
Proof.
  pose proof (standing_stopped e). pose proof (standing_stopped e'). case_decide as H1; destruct (Eng.fenceBroken e), (Eng.fenceBroken e'); naive_solver.
Qed.
Lemma write_execs fs o c e d : is_write c →
  let e' := (exec fs (run_call o c e) d).1.1 in
  execs_of e' = if negb (Eng.fenceBroken e) && Eng.fenceBroken e' then stop_exec (execs_of e) else execs_of e.
Proof.
  intros Hc. cbv zeta. destruct c as [|now m a l|data| |]; try done; cbn [run_call].
  - destruct (holds e d) eqn:Hh.
    + destruct (held_execs fs o now m a l e d Hh) as [-> ->]. by rewrite andb_false_r.
    + rewrite persist_refused by done. cbn [fst]. rewrite loss_execs, (proj1 (standing_stopped _) (proj1 (loss_standing e))).
      by destruct (Eng.fenceBroken e).
  - unfold finalizeManifest. set (e1 := e <| Eng.lastPersistAt := None |>). rewrite exec_holds.
    assert (execs_of e1 = execs_of e ∧ Eng.fenceBroken e1 = Eng.fenceBroken e) as [E1 E2] by done.
    destruct (holds e1 d) eqn:Hh.
    + assert (Eng.fenceBroken e1 = false) as Hb by (unfold holds in Hh; by destruct (Eng.fenceBroken e1)).
      cbn [exec]. destruct (Fs.manifest fs); cbn [exec fst]; by rewrite Hb, andb_false_r.
    + cbn [exec fst]. rewrite loss_execs, (proj1 (standing_stopped _) (proj1 (loss_standing e1))), E1, E2.
      by destruct (Eng.fenceBroken e).
Qed.
Lemma sys_step_execs s L ev L' X : refines s L → refines (sys_step s ev) L' → (∀ o, X o = execs_of (eng s o)) →
  ∀ o, exec_effect ev L L' X o = execs_of (eng (sys_step s ev) o).
Proof.
  intros [_ Hs] [_ Hs'] HX o. destruct ev as [o' fs c|]; [|apply HX]. cbn [exec_effect]. unfold sys_step in *.
  pose proof (write_execs fs o' c (eng s o') (Sys.disk s)) as Hw. cbv zeta in Hw.
  destruct (exec fs (run_call o' c (eng s o')) (Sys.disk s)) as [[e' d'] w] eqn:Ex. cbn [fst] in Hw.
  assert (eng (Sys.mk d' (<[o' := e']> (Sys.engines s))) o = if decide (o = o') then e' else eng s o) as He.
  { unfold eng. cbn. destruct (decide (o = o')) as [->|?]; [by rewrite lookup_insert_eq|by rewrite lookup_insert_ne]. }
  rewrite He. destruct (decide (o = o')) as [->|Hne]; [|apply HX]. rewrite Hs, Hs', He, HX.
  destruct c as [|now m a l|data| |]; [by injection Ex as <- _ _|by rewrite stops_bool, Hw|by rewrite stops_bool, Hw|by injection Ex as <- _ _..].
Qed.

Fixpoint trace (s : Sys.t) (evs : list event) : list (event * bool) :=
  match evs with [] => [] | ev :: evs' => (ev, landed s ev) :: trace (sys_step s ev) evs' end.
Definition fresh_system (d : Disk.t) : Sys.t := Sys.mk d ∅.
Definition idle_lease (d : Disk.t) : Lease.t := Lease.mk (graphFence.Owner <$> token_of d) (λ _, Fresh).
Definition no_execs (o : string) : Execs.t := Execs.mk None 0 ∅.

(** C14: Whatever sequence of engine calls and losses of the fence file the
    directory sees, with whatever failures of its file operations, the engines
    behave as a preemptive lease: a manifest lands only for an engine that may
    write; an engine that finds itself preempted when it is to write is stopped, and
    with it the executor whose cancel function it holds, and no executor is stopped
    otherwise; and a stopped engine writes nothing until it forgets the task.  Calls
    do not overlap here ([claims_exclude] is about accesses that do), and an
    executor started on a stopped engine runs, without writing
    ([restart_after_loss_runs_muted]). *)
Theorem fence_refines_lease d evs :
  ∃ L X, lsteps (idle_lease d) no_execs (trace (fresh_system d) evs) L X ∧
    refines (foldl sys_step (fresh_system d) evs) L ∧
    ∀ o, X o = execs_of (eng (foldl sys_step (fresh_system d) evs) o).
Proof.
  assert (inv (fresh_system d) ∧ refines (fresh_system d) (idle_lease d) ∧ ∀ o, no_execs o = execs_of (eng (fresh_system d) o)) as (Hi & Hr & HX).
  { split; [|split; [split; [done|]|]]; intros o; unfold eng; cbn; by rewrite lookup_empty. }
  revert Hi Hr HX. generalize (fresh_system d) (idle_lease d) no_execs. induction evs as [|ev evs IH]; intros s L X Hi Hr HX.
  - exists L, X. split; [constructor|done].
  - destruct (sim_step s L ev Hi Hr) as (L1 & Hl & Hi1 & Hr1).
    destruct (IH _ _ _ Hi1 Hr1 (sys_step_execs s L ev L1 X Hr Hr1 HX)) as (L2 & X2 & Hls & Hr2 & HX2).
    exists L2, X2. split; [|by split]. cbn [trace]. by econstructor.
Qed.

(** ** Losing the fence *)

(** The next write of an engine whose token was replaced writes nothing, and
    the executor whose cancel function is stored is cancelled. *)
Lemma stale_holder_stops fs o now m a l e d t t' :
  Eng.fenceBroken e = false → Eng.fences e = Some t → token_of d = Some t' → t' ≠ t →
  ∃ e', exec fs (persistGraph o now m a l e) d = (e', d, false) ∧ Eng.fenceBroken e' = true ∧
    (∀ c, Eng.fenceCancels e = Some c → c ∈ Eng.cancelled e').
Proof.
  intros Hb Hf Ht Hne. exists (recordFenceLoss e). split.
  - apply persist_refused. unfold holds. rewrite Hb, Hf, Ht. cbn. by apply bool_decide_eq_false_2.
  - unfold recordFenceLoss. rewrite Hb. change (Eng.fenceCancels (e <| Eng.fenceBroken := true |>)) with (Eng.fenceCancels e).
    destruct (Eng.fenceCancels e) as [c|]; cbn; (split; [done|]); [|done]. intros c' [= <-]. set_solver.
Qed.

(** ** After a loss

    [startGraphExecutor] claims nothing, so a loss recorded before it stays. *)
Definition is_drive (c : call) : Prop := match c with Persist _ _ _ _ | Finalize _ => True | _ => False end.
Definition numbered (e : Eng.t) : Prop := ∀ c, c ∈ Eng.cancelled e → (c < Eng.started e)%nat.

Lemma broken_drive fs o c e d :
  Eng.fenceBroken e = true → is_drive c →
  ∃ e', exec fs (run_call o c e) d = (e', d, false) ∧ Eng.fenceBroken e' = true ∧
    Eng.cancelled e' = Eng.cancelled e ∧ Eng.started e' = Eng.started e.
Proof.
  intros Hb Hc. destruct c as [|now m a l|data| |]; try done; cbn [run_call].
  - exists e. rewrite persist_refused by (unfold holds; by rewrite Hb). unfold recordFenceLoss. by rewrite Hb.
  - exists (e <| Eng.lastPersistAt := None |>). unfold finalizeManifest. rewrite exec_holds.
    assert (holds (e <| Eng.lastPersistAt := None |>) d = false) as -> by (unfold holds; cbn; by rewrite Hb).
    cbn [exec]. unfold recordFenceLoss. cbn. by rewrite Hb.
Qed.

(** Calls of one engine, one after the other. *)
Fixpoint drive (o : string) (cs : list (Fs.t * call)) (e : Eng.t) (d : Disk.t) : Eng.t * Disk.t :=
  match cs with
  | [] => (e, d)
  | (fs, c) :: cs' => let '(e, d, _) := exec fs (run_call o c e) d in drive o cs' e d
  end.
Lemma drive_broken o cs : ∀ e d,
  Eng.fenceBroken e = true → Forall (λ c, is_drive c.2) cs →
  ∃ e', drive o cs e d = (e', d) ∧ Eng.cancelled e' = Eng.cancelled e.
Proof.
  induction cs as [|[fs c] cs IH]; intros e d Hb Hcs; [by exists e|]. apply Forall_cons in Hcs as [Hc Hcs]. cbn [drive].
  destruct (broken_drive fs o c e d Hb Hc) as (e1 & -> & Hb1 & Hcan & _). rewrite <- Hcan. by apply IH.
Qed.

(** An executor started again on a task whose fence this engine has lost gets a
    live context of its own, none of its persists reach the directory, and none
    of them cancels it. *)
Theorem restart_after_loss_runs_muted o e d cs :
  Eng.fenceBroken e = true → numbered e → Forall (λ c, is_drive c.2) cs →
  let e0 := startGraphExecutor e in
  ∃ e', drive o cs e0 d = (e', d) ∧ Eng.fenceCancels e0 = Some (Eng.started e) ∧ Eng.started e ∉ Eng.cancelled e'.
Proof.
  intros Hb Hn Hcs. cbv zeta. destruct (drive_broken o cs (startGraphExecutor e) d Hb Hcs) as (e' & -> & Hcan).
  exists e'. split_and!; [done..|]. rewrite Hcan. intros Hin. specialize (Hn _ Hin). lia.
Qed.

(** ** Interleavings *)

Fixpoint all_ends (P : Eng.t → Prop) (p : prog) : Prop :=
  match p with
  | Done e => P e
  | ReadFence k => ∀ x, all_ends P (k x)
  | WriteFence _ k | WriteManifest _ k => ∀ b, all_ends P (k b)
  | WriteRest _ _ k => all_ends P k
  end.
(** At rest an engine's claim, unless it is recorded lost, is its own token. *)
Definition own_claim (o : string) (e : Eng.t) : Prop :=
  Eng.fenceBroken e = true ∨ ∀ t, Eng.fences e = Some t → graphFence.Owner t = o.

Lemma loss_own o e : own_claim o (recordFenceLoss e).
Proof. left. unfold recordFenceLoss. destruct (Eng.fenceBroken e) eqn:E; [done|]. by destruct (Eng.fenceCancels _). Qed.
Lemma claim_attempts_own n o k : ∀ e,
  (∀ e, own_claim o e → all_ends (own_claim o) (k e)) → all_ends (own_claim o) (claim_attempts n o e k).
Proof.
  induction n as [|n IH]; intros e Hk; cbn [claim_attempts all_ends].
  - apply Hk, loss_own.
  - intros x [|]; cbn [all_ends].
    + intros y. destruct (decide _) as [E|_]; [|by apply IH]. apply Hk. right. cbn. intros t [= <-]. by rewrite E.
    + apply Hk. right. by cbn.
Qed.
Lemma stamp_own o e k :
  own_claim o e → (∀ e, own_claim o e → all_ends (own_claim o) (k e)) → all_ends (own_claim o) (stampFence o e k).
Proof.
  intros He Hk. unfold stampFence, claimFence. destruct (hasFenceToken o); [|by apply Hk].
  destruct (Eng.fences e); [|by apply claim_attempts_own]. cbn [all_ends]. intros x. destruct (decide _); [by apply Hk|].
  by apply claim_attempts_own.
Qed.
Lemma holds_own o e k : (∀ b, all_ends (own_claim o) (k b)) → all_ends (own_claim o) (holdsFence e k).
Proof. intros Hk. unfold holdsFence. destruct (Eng.fenceBroken e); [done|]. destruct (Eng.fences e); [|done]. by intros x. Qed.

Lemma run_call_own o c e : own_claim o e → all_ends (own_claim o) (run_call o c e).
Proof.
  intros He. destruct c as [|now m a l|data| |]; cbn [run_call].
  - exact He.
  - unfold persistGraph. apply holds_own. intros [|]; [|apply loss_own].
    destruct (match Eng.lastPersistAt e with Some last => now - last <? debounce | None => false end); [done|].
    destruct m as [data|]; cbn [all_ends]; [|exact He]. intros [|]; [|exact He]. by apply stamp_own.
  - unfold finalizeManifest. apply holds_own. intros [|]; [|apply loss_own]. by intros [|].
  - right. by cbn.
  - right. by cbn.
Qed.
Lemma access_own o fs p d p' d' : all_ends (own_claim o) p → access fs p d = (p', d') → all_ends (own_claim o) p'.
Proof.
  destruct p as [e|k|f k|data k|a l k]; cbn [access all_ends].
  - by intros H [= <- <-].
  - intros H [= <- <-]. apply H.
  - destruct (writeGraphFence fs f d) as [d1 ok]. intros H [= <- <-]. apply H.
  - destruct (Fs.manifest fs); intros H [= <- <-]; apply H.
  - by intros H [= <- <-].
Qed.

Definition cfg_inv (c : Cfg.t) : Prop := ∀ o p, Cfg.procs c !! o = Some p → all_ends (own_claim o) p.
Lemma istep_inv c c' : cfg_inv c → istep c c' → cfg_inv c'.
Proof.
  intros Hi Hst o p. destruct Hst as [c o' e cl He|c o' q fs q' d' Hq Ha|c].
  - cbn. destruct (decide (o' = o)) as [->|?]; [|rewrite lookup_insert_ne by done; apply Hi].
    rewrite lookup_insert_eq. intros [= <-]. apply run_call_own. apply (Hi o _ He).
  - cbn. destruct (decide (o' = o)) as [->|?]; [|rewrite lookup_insert_ne by done; apply Hi].
    rewrite lookup_insert_eq. intros [= <-]. eapply access_own; [|exact Ha]. by apply Hi.
  - apply Hi.
Qed.

(** However the accesses of the engines interleave: of those at rest that made
    a claim, at most one finds itself holding the fence while there is one. *)
Theorem claims_exclude c0 c o1 o2 e1 e2 :
  (∀ o p, Cfg.procs c0 !! o = Some p → p = Done new_engine) → rtc istep c0 c →
  Cfg.procs c !! o1 = Some (Done e1) → Cfg.procs c !! o2 = Some (Done e2) →
  is_Some (Eng.fences e1) → is_Some (Eng.fences e2) → is_Some (token_of (Cfg.disk c)) →
  o1 ≠ o2 → holds e1 (Cfg.disk c) = true → holds e2 (Cfg.disk c) = false.
Proof.
  intros H0 Hsteps Hp1 Hp2 [t1 Hf1] [t2 Hf2] [t Ht] Hne Hh1. apply not_true_is_false. intros Hh2. apply Hne.
  assert (cfg_inv c) as Hi.
  { assert (cfg_inv c0) as Hi0 by (intros o p Hp; rewrite (H0 o p Hp); right; by cbn).
    clear - Hi0 Hsteps. induction Hsteps as [|c1 c2 c3 Hst _ IH]; [done|]. by eapply IH, istep_inv. }
  assert (∀ o e t', Cfg.procs c !! o = Some (Done e) → Eng.fences e = Some t' → holds e (Cfg.disk c) = true → graphFence.Owner t = o) as Hown.
  { intros o e t' Hp Hf Hh. specialize (Hi o _ Hp). cbn in Hi. unfold holds in Hh. rewrite Hf, Ht in Hh.
    apply andb_prop in Hh as [Hb Hh]. apply bool_decide_eq_true in Hh as ->. destruct Hi as [E|E]; [by rewrite E in Hb|]. by apply E. }
  by rewrite <- (Hown o1 e1 t1), <- (Hown o2 e2 t2).
Qed.

(** ** Concrete runs *)

Definition good_fs : Fs.t := Fs.mk true true (λ _, true) true.
Definition empty_disk : Disk.t := Disk.mk NoFile None None None.

(** Two engines persist the same task: the second takes over, and the first is
    refused from then on. *)
Definition takeover : list event :=
  [Call "a" good_fs Start; Call "a" good_fs (Persist 0 (Some "a1") None None);
   Call "b" good_fs (Persist 0 (Some "b1") None None);
   Call "a" good_fs (Persist debounce (Some "a2") None None)].
Example takeover_run :
  let s := foldl sys_step (fresh_system empty_disk) takeover in
  Disk.manifest (Sys.disk s) = Some "b1" ∧ Disk.fence (Sys.disk s) = Stored (graphFence.mk "b" 2) ∧
  Eng.fenceBroken (eng s "a") = true ∧ Eng.cancelled (eng s "a") = {[0%nat]}.
Proof. vm_compute. auto. Qed.

Definition lost_engine : Eng.t := eng (foldl sys_step (fresh_system empty_disk) takeover) "a".
Lemma restart_after_loss_runs_muted_witness :
  ∃ e', drive "a" [(good_fs, Persist 1000000000 (Some "a3") None None); (good_fs, Finalize "a4")]
          (startGraphExecutor lost_engine) empty_disk = (e', empty_disk) ∧
    Eng.fenceCancels (startGraphExecutor lost_engine) = Some 1%nat ∧ 1%nat ∉ Eng.cancelled e'.
Proof.
  apply (restart_after_loss_runs_muted "a" lost_engine empty_disk); [reflexivity| |by repeat constructor].
  intros c Hc. assert (Eng.cancelled lost_engine = {[0%nat]}) as E by (vm_compute; reflexivity). rewrite E in Hc.
  apply elem_of_singleton in Hc as ->. vm_compute. lia.
Defined.

(** The program run for at most [n] accesses while nothing else happens. *)
Fixpoint run_alone (n : nat) (fs : Fs.t) (p : prog) (d : Disk.t) : prog * Disk.t :=
  match n with O => (p, d) | S n' => let '(p, d) := access fs p d in run_alone n' fs p d end.
Lemma run_alone_steps n : ∀ fs o p d m,
  m !! o = Some p → rtc istep (Cfg.mk d m) (Cfg.mk (run_alone n fs p d).2 (<[o := (run_alone n fs p d).1]> m)).
Proof.
  induction n as [|n IH]; intros fs o p d m Hp; cbn [run_alone].
  - cbn [fst snd]. rewrite insert_id by done. apply rtc_refl.
  - destruct (access fs p d) as [p1 d1] eqn:Ha. eapply rtc_l; [by eapply (istep_access (Cfg.mk d m))|]. cbn.
    specialize (IH fs o p1 d1 (<[o := p1]> m) ltac:(by rewrite lookup_insert_eq)).
    by rewrite insert_insert_eq in IH.
Qed.

(** The race between the check and the write: engine a checks, b takes over, and
    then a's manifest lands over b's and a's stamp takes the fence back. *)
Definition after_b : Disk.t := (exec good_fs (persistGraph "b" 0 (Some "b1") None None new_engine)
  (exec good_fs (persistGraph "a" 0 (Some "a1") None None new_engine) empty_disk).1.2).1.2.
Definition engine_a : Eng.t := (exec good_fs (persistGraph "a" 0 (Some "a1") None None new_engine) empty_disk).1.1.
Definition disk_a : Disk.t := (exec good_fs (persistGraph "a" 0 (Some "a1") None None new_engine) empty_disk).1.2.
Example check_then_write_race :
  let p := (access good_fs (persistGraph "a" debounce (Some "a2") None None engine_a) disk_a).1 in
  let '(e, d, landed) := exec good_fs p after_b in
  landed = true ∧ Disk.fence after_b = Stored (graphFence.mk "b" 2) ∧
  Disk.manifest d = Some "a2" ∧ Disk.fence d = Stored (graphFence.mk "a" 3).
Proof. vm_compute. auto. Qed.

Definition call_b : prog := persistGraph "b" 0 (Some "b1") None None new_engine.
Definition call_a : prog := persistGraph "a" 0 (Some "a1") None None new_engine.
Definition cfg0 : Cfg.t := Cfg.mk empty_disk (<["b" := Done new_engine]> {[ "a" := Done new_engine ]}).
Definition ran_a : prog * Disk.t := run_alone 5 good_fs call_a empty_disk.
Definition ran_b : prog * Disk.t := run_alone 5 good_fs call_b ran_a.2.
Definition engine_b : Eng.t := (exec good_fs call_b ran_a.2).1.1.
Definition cfg2 : Cfg.t := Cfg.mk ran_b.2 (<["b" := ran_b.1]> (<["a" := ran_a.1]> (Cfg.procs cfg0))).
Lemma claims_exclude_witness :
  Cfg.procs cfg2 !! "a" = Some (Done engine_a) ∧ Cfg.procs cfg2 !! "b" = Some (Done engine_b) ∧
  holds engine_b (Cfg.disk cfg2) = true ∧ holds engine_a (Cfg.disk cfg2) = false.
Proof.
  assert (rtc istep cfg0 cfg2) as Hr.
  { eapply rtc_l; [by apply (istep_call cfg0 "a" new_engine (Persist 0 (Some "a1") None None))|].
    etrans; [by apply (run_alone_steps 5 good_fs "a" call_a)|].
    eapply rtc_l; [by apply (istep_call _ "b" new_engine (Persist 0 (Some "b1") None None))|].
    apply (run_alone_steps 5 good_fs "b" call_b). reflexivity. }
  split; [reflexivity|]. split; [reflexivity|]. split; [reflexivity|].
  apply (claims_exclude cfg0 cfg2 "b" "a" engine_b engine_a); try done.
  intros o p. cbn. destruct (decide (o = "b")) as [->|Hb].
  - rewrite lookup_insert_eq. by intros [= <-].
  - rewrite lookup_insert_ne by done. destruct (decide (o = "a")) as [->|Ha].
    + rewrite lookup_singleton_eq. by intros [= <-].
    + by rewrite lookup_singleton_ne.
Defined.
