(* ===== verification/PathLock.v ===== *)
(** * Locks per path (core/path_lock.go)

    Steps that declare a target file write it one at a time: each takes the
    write lock of its cleaned path (core/scheduler_dag_exec.go).  The manager
    hands out a [sync.RWMutex] per path; goroutines are numbered, and each is
    between two of the manager's or the mutex's critical sections. *)
From S2P Require Import Prelude Paths.

(** A [sync.RWMutex]: the goroutine that writes, those that read.  Go also makes
    readers wait for a writer that is queued; here they may overtake it. *)
Module RWMutex.
Record t := mk { writer : option nat; readers : gset nat }.
#[global] Instance eta : Eta t := λ r, mk (writer r) (readers r).
End RWMutex.
Definition unlocked : RWMutex.t := RWMutex.mk None ∅.
Definition can_lock (m : RWMutex.t) (write : bool) : bool :=
  bool_decide (RWMutex.writer m = None) && (negb write || bool_decide (RWMutex.readers m = ∅)).
Definition lock (g : nat) (write : bool) (m : RWMutex.t) : RWMutex.t :=
  if write then m <| RWMutex.writer := Some g |> else m <| RWMutex.readers ::= λ s, {[g]} ∪ s |>.
Definition unlock (g : nat) (write : bool) (m : RWMutex.t) : RWMutex.t :=
  if write then m <| RWMutex.writer := None |> else m <| RWMutex.readers ::= λ s, s ∖ {[g]} |>.

(** Where a goroutine is: it has looked its mutex up, or holds it. *)
Inductive phase := Waiting | Holding.
#[export] Instance phase_eq_dec : EqDecision phase.
Proof. solve_decision. Defined.
Module Acq.
Record t := mk { path : string; write : bool; mutex : nat; at_ : phase }.
#[global] Instance eta : Eta t := λ r, mk (path r) (write r) (mutex r) (at_ r).
End Acq.

(** [PathLockManager]: the mutexes are objects on the heap, [locks] points to
    them by cleaned path. *)
Module Mgr.
Record t := mk { locks : gmap string nat; heap : gmap nat RWMutex.t; goroutines : gmap nat Acq.t }.
#[global] Instance eta : Eta t := λ r, mk (locks r) (heap r) (goroutines r).
End Mgr.
Definition NewPathLockManager : Mgr.t := Mgr.mk ∅ ∅ ∅.

(** The first section of [Acquire]: the mutex of the path, made if there is none. *)
Definition lookup_lock (m : Mgr.t) (path : string) : Mgr.t * nat :=
  let cleanPath := Clean path in
  match Mgr.locks m !! cleanPath with
  | Some id => (m, id)
  | None =>
      let id := fresh (dom (Mgr.heap m)) in
      (m <| Mgr.locks ::= <[cleanPath := id]> |> <| Mgr.heap ::= <[id := unlocked]> |>, id)
  end.
Definition begin_acquire (g : nat) (path : string) (write : bool) (m : Mgr.t) : Mgr.t :=
  let '(m, id) := lookup_lock m path in
  m <| Mgr.goroutines ::= <[g := Acq.mk path write id Waiting]> |>.
(** [rw.Lock] or [rw.RLock] returning. *)
Definition grant (g : nat) (a : Acq.t) (m : Mgr.t) : Mgr.t :=
  m <| Mgr.heap ::= alter (lock g (Acq.write a)) (Acq.mutex a) |>
    <| Mgr.goroutines ::= <[g := a <| Acq.at_ := Holding |> ]> |>.
(** The function [Acquire] returned. *)
Definition release_lock (g : nat) (a : Acq.t) (m : Mgr.t) : Mgr.t :=
  m <| Mgr.heap ::= alter (unlock g (Acq.write a)) (Acq.mutex a) |>
    <| Mgr.goroutines ::= delete g |>.
(** [Release]. *)
Definition Release (path : string) (m : Mgr.t) : Mgr.t := m <| Mgr.locks ::= delete (Clean path) |>.

Definition idle_path (m : Mgr.t) (path : string) : Prop :=
  ∀ g a, Mgr.goroutines m !! g = Some a → Clean (Acq.path a) ≠ Clean path.

Inductive step : Mgr.t → Mgr.t → Prop :=
| step_begin m g path write : Mgr.goroutines m !! g = None → step m (begin_acquire g path write m)
| step_grant m g a rw :
    Mgr.goroutines m !! g = Some a → Acq.at_ a = Waiting → Mgr.heap m !! Acq.mutex a = Some rw →
    can_lock rw (Acq.write a) = true → step m (grant g a m)
| step_unlock m g a : Mgr.goroutines m !! g = Some a → Acq.at_ a = Holding → step m (release_lock g a m)
(* as its comment asks: only when no goroutine holds or awaits the lock *)
| step_release m path : idle_path m path → step m (Release path m).

(** ** Exclusion *)

Definition holds (m : Mgr.t) (g : nat) (p : string) (write : bool) : Prop :=
  ∃ a, Mgr.goroutines m !! g = Some a ∧ Acq.at_ a = Holding ∧ Clean (Acq.path a) = p ∧ Acq.write a = write.

(** A mutex records exactly the goroutines that hold it. *)
Definition records (m : Mgr.t) (id : nat) (rw : RWMutex.t) : Prop :=
  (∀ g a, Mgr.goroutines m !! g = Some a → Acq.at_ a = Holding → Acq.mutex a = id →
     if Acq.write a then RWMutex.writer rw = Some g else g ∈ RWMutex.readers rw) ∧
  (is_Some (RWMutex.writer rw) → RWMutex.readers rw = ∅) ∧
  (∀ h, RWMutex.writer rw = Some h ∨ h ∈ RWMutex.readers rw →
     ∃ a, Mgr.goroutines m !! h = Some a ∧ Acq.at_ a = Holding ∧ Acq.mutex a = id).
Definition inv (m : Mgr.t) : Prop :=
  (∀ g a, Mgr.goroutines m !! g = Some a → Mgr.locks m !! Clean (Acq.path a) = Some (Acq.mutex a)) ∧
  (∀ p id, Mgr.locks m !! p = Some id → is_Some (Mgr.heap m !! id)) ∧
  (∀ p q id, Mgr.locks m !! p = Some id → Mgr.locks m !! q = Some id → p = q) ∧
  (∀ id rw, Mgr.heap m !! id = Some rw → records m id rw).

Lemma inv_init : inv NewPathLockManager.
Proof. split_and!; intros *; cbn; rewrite lookup_empty; done. Qed.

Lemma others_hold (G : gmap nat Acq.t) g a0 id (P : nat → Prop) :
  G !! g = None → (∀ h, P h → ∃ a, G !! h = Some a ∧ Acq.at_ a = Holding ∧ Acq.mutex a = id) →
  ∀ h, P h → ∃ a, <[g := a0]> G !! h = Some a ∧ Acq.at_ a = Holding ∧ Acq.mutex a = id.
Proof.
  intros Hg H h Hh. destruct (H h Hh) as (a & Ha & ?). exists a. rewrite lookup_insert_ne; [done|]. by intros ->; rewrite Hg in Ha.
Qed.

Lemma inv_begin m g path write : inv m → Mgr.goroutines m !! g = None → inv (begin_acquire g path write m).
Proof.
  intros (H1 & H2 & H3 & H4) Hg. unfold begin_acquire, lookup_lock.
  destruct (Mgr.locks m !! Clean path) as [id|] eqn:E.
  - split_and!; cbn; [|done|done|].
    + intros g' a. destruct (decide (g = g')) as [<-|?]; [rewrite lookup_insert_eq; by intros [= <-]|].
      rewrite lookup_insert_ne by done. apply H1.
    + intros id' rw Hrw. destruct (H4 id' rw Hrw) as (Hr1 & Hr2 & Hr3). split_and!; [|done|by apply others_hold]. intros g' a. cbn.
      destruct (decide (g = g')) as [<-|?]; [rewrite lookup_insert_eq; by intros [= <-]|].
      rewrite lookup_insert_ne by done. apply Hr1.
  - set (id := fresh (dom (Mgr.heap m))).
    assert (Mgr.heap m !! id = None) as Hid by (apply not_elem_of_dom, is_fresh).
    assert (∀ p id', Mgr.locks m !! p = Some id' → id' ≠ id) as Hne.
    { intros p id' Hp ->. destruct (H2 p id Hp) as [? Hh]. by rewrite Hid in Hh. }
    split_and!; cbn.
    + intros g' a. destruct (decide (g = g')) as [<-|?]; [rewrite lookup_insert_eq; intros [= <-]; cbn; by rewrite lookup_insert_eq|].
      rewrite lookup_insert_ne by done. intros Ha. rewrite lookup_insert_ne; [by apply (H1 g')|].
      intros Ep. specialize (H1 g' a Ha). by rewrite <- Ep, E in H1.
    + intros p id'. destruct (decide (id' = id)) as [->|?]; [by rewrite lookup_insert_eq|]. rewrite (lookup_insert_ne (Mgr.heap m)) by done.
      destruct (decide (p = Clean path)) as [->|?]; [rewrite lookup_insert_eq; congruence|]. rewrite lookup_insert_ne by done. apply H2.
    + intros p q id'. destruct (decide (p = Clean path)) as [->|Hp], (decide (q = Clean path)) as [->|Hq]; [done| | |];
        rewrite ?lookup_insert_eq, ?lookup_insert_ne by done; [| |apply H3].
      * intros [= <-] H. by apply Hne in H.
      * intros H [= <-]. by apply Hne in H.
    + intros id' rw. destruct (decide (id' = id)) as [->|?].
      * rewrite lookup_insert_eq. intros [= <-]. split_and!; [|done|set_solver]. intros g' a. cbn.
        destruct (decide (g = g')) as [<-|?]; [rewrite lookup_insert_eq; by intros [= <-]|].
        rewrite lookup_insert_ne by done. intros Ha _ Em. specialize (H1 g' a Ha). rewrite Em in H1. by apply Hne in H1.
      * rewrite lookup_insert_ne by done. intros Hrw. destruct (H4 id' rw Hrw) as (Hr1 & Hr2 & Hr3). split_and!; [|done|by apply others_hold]. intros g' a. cbn.
        destruct (decide (g = g')) as [<-|?]; [rewrite lookup_insert_eq; by intros [= <-]|].
        rewrite lookup_insert_ne by done. apply Hr1.
Qed.

Lemma inv_grant m g a rw :
  inv m → Mgr.goroutines m !! g = Some a → Mgr.heap m !! Acq.mutex a = Some rw → can_lock rw (Acq.write a) = true → inv (grant g a m).
Proof.
  intros (H1 & H2 & H3 & H4) Hg Hh [Hw%bool_decide_eq_true Hr]%andb_prop. split_and!; cbn; [| |done|].
  - intros g' a'. destruct (decide (g = g')) as [<-|?]; [rewrite lookup_insert_eq; intros [= <-]; exact (H1 g a Hg)|].
    rewrite lookup_insert_ne by done. apply H1.
  - intros p id Hp. rewrite lookup_alter_is_Some. by eapply H2.
  - intros id rw'. destruct (decide (Acq.mutex a = id)) as [<-|Hne].
    + rewrite lookup_alter_eq, Hh. intros [= <-]. destruct (H4 _ _ Hh) as (Hr1 & Hr2 & Hr3). split_and!.
      * intros g' a'. cbn. destruct (decide (g = g')) as [<-|?].
        { rewrite lookup_insert_eq. intros [= <-] _ _. cbn. unfold lock. destruct (Acq.write a); cbn; [done|set_solver]. }
        rewrite lookup_insert_ne by done. intros Ha Hat Hm. specialize (Hr1 g' a' Ha Hat Hm). destruct (Acq.write a'); [congruence|].
        unfold lock. destruct (Acq.write a); cbn in *; [|set_solver]. apply bool_decide_eq_true in Hr. set_solver.
      * unfold lock. destruct (Acq.write a); cbn in *; [by apply bool_decide_eq_true in Hr|]. rewrite Hw. by intros [? ?].
      * intros h Hl. cbn. destruct (decide (g = h)) as [<-|?]; [rewrite lookup_insert_eq; by eexists|].
        rewrite lookup_insert_ne by done. apply Hr3. revert Hl. unfold lock. destruct (Acq.write a); cbn; set_solver.
    + rewrite lookup_alter_ne by done. intros Hrw. destruct (H4 _ _ Hrw) as (Hr1 & Hr2 & Hr3). split_and!; [|done|].
      2: { intros h Hl. destruct (Hr3 h Hl) as (a' & Ha' & Hat' & Hm'). exists a'. cbn. rewrite lookup_insert_ne; [done|].
           intros ->. congruence. }
      intros g' a'. cbn.
      destruct (decide (g = g')) as [<-|?]; [rewrite lookup_insert_eq; by intros [= <-]|]. rewrite lookup_insert_ne by done. apply Hr1.
Qed.

Lemma inv_unlock m g a : inv m → Mgr.goroutines m !! g = Some a → Acq.at_ a = Holding → inv (release_lock g a m).
Proof.
  intros (H1 & H2 & H3 & H4) Hg Hat. split_and!; cbn; [| |done|].
  - intros g' a'. rewrite lookup_delete_Some. intros [_ ?]. by eapply H1.
  - intros p id Hp. rewrite lookup_alter_is_Some. by eapply H2.
  - intros id rw'. destruct (decide (Acq.mutex a = id)) as [<-|Hne].
    + rewrite lookup_alter_eq. destruct (Mgr.heap m !! Acq.mutex a) as [rw|] eqn:Hh; [|done]. intros [= <-].
      destruct (H4 _ _ Hh) as (Hr1 & Hr2 & Hr3). pose proof (Hr1 g a Hg Hat eq_refl) as Hown. split_and!.
      * intros g' a'. cbn. rewrite lookup_delete_Some. intros [Hgg Ha] Hat' Hm. specialize (Hr1 g' a' Ha Hat' Hm).
        unfold unlock. destruct (Acq.write a), (Acq.write a'); cbn; [congruence| |done|set_solver].
        rewrite Hr2 in Hr1; [set_solver|by rewrite Hown].
      * unfold unlock. destruct (Acq.write a); cbn; [by intros [? ?]|]. intros Hs. by rewrite Hr2 in Hown by done.
      * intros h Hl. cbn. assert (h ≠ g ∧ (RWMutex.writer rw = Some h ∨ h ∈ RWMutex.readers rw)) as [Hne Hl'].
        { revert Hl. unfold unlock. destruct (Acq.write a); cbn.
          - intros [?|Hl]; [done|]. rewrite Hr2 in Hl; [set_solver|by rewrite Hown].
          - intros [Hl|Hl]; [|set_solver]. rewrite Hr2 in Hown; [set_solver|by rewrite Hl]. }
        destruct (Hr3 h Hl') as (a' & ? & ?). exists a'. by rewrite lookup_delete_ne.
    + rewrite lookup_alter_ne by done. intros Hrw. destruct (H4 _ _ Hrw) as (Hr1 & Hr2 & Hr3). split_and!; [|done|].
      2: { intros h Hl. destruct (Hr3 h Hl) as (a' & Ha' & Hat' & Hm'). exists a'. cbn. rewrite lookup_delete_ne; [done|].
           intros ->. congruence. }
      intros g' a'. cbn.
      rewrite lookup_delete_Some. intros [_ ?]. by apply Hr1.
Qed.

Lemma inv_release m path : inv m → idle_path m path → inv (Release path m).
Proof.
  intros (H1 & H2 & H3 & H4) Hidle. split_and!; cbn; [| | |done].
  - intros g a Ha. rewrite lookup_delete_ne; [by apply (H1 g)|]. apply not_eq_sym. by apply (Hidle g).
  - intros p id. rewrite lookup_delete_Some. intros [_ ?]. by eapply H2.
  - intros p q id. rewrite !lookup_delete_Some. intros [_ ?] [_ ?]. by eapply H3.
Qed.

Lemma step_inv m m' : inv m → step m m' → inv m'.
Proof.
  intros Hi Hs. destruct Hs; [by apply inv_begin|by eapply inv_grant|by apply inv_unlock|by apply inv_release].
Qed.

(** C34: In every state reachable without releasing an entry in use, two goroutines
    never hold the same path while one of them holds it for writing. *)
Theorem path_locks_exclude m g1 g2 p w :
  rtc step NewPathLockManager m → g1 ≠ g2 → holds m g1 p true → ¬ holds m g2 p w.
Proof.
  intros Hs Hne (a1 & Hg1 & Hat1 & Hp1 & Hw1) (a2 & Hg2 & Hat2 & Hp2 & Hw2).
  assert (inv m) as (H1 & H2 & H3 & H4).
  { pose proof inv_init as Hi. induction Hs as [|x y z Hst _ IH]; [done|]. by eapply IH, step_inv. }
  pose proof (H1 _ _ Hg1) as L1. pose proof (H1 _ _ Hg2) as L2. rewrite Hp1 in L1. rewrite Hp2 in L2.
  assert (Acq.mutex a2 = Acq.mutex a1) as Em by congruence. destruct (H2 _ _ L1) as [rw Hrw].
  destruct (H4 _ _ Hrw) as (Hr1 & Hr2 & _). pose proof (Hr1 _ _ Hg1 Hat1 eq_refl) as E1. pose proof (Hr1 _ _ Hg2 Hat2 Em) as E2.
  rewrite Hw1 in E1. destruct (Acq.write a2); [congruence|]. rewrite Hr2 in E2; [set_solver|by rewrite E1].
Qed.

(** Steps on a path nobody else uses do not wait: the mutex found is free. *)
Lemma idle_path_granted m g path write :
  inv m → idle_path m path → Mgr.goroutines m !! g = None →
  let m' := begin_acquire g path write m in
  ∃ a rw, Mgr.goroutines m' !! g = Some a ∧ Mgr.heap m' !! Acq.mutex a = Some rw ∧ can_lock rw write = true.
Proof.
  intros (H1 & H2 & H3 & H4) Hidle Hg. cbv zeta. unfold begin_acquire, lookup_lock.
  destruct (Mgr.locks m !! Clean path) as [id|] eqn:E.
  - destruct (H2 _ _ E) as [rw Hrw]. destruct (H4 _ _ Hrw) as (_ & _ & Hr3).
    exists (Acq.mk path write id Waiting), rw. cbn. rewrite lookup_insert_eq.
    split_and!; [done..|]. assert (∀ h, ¬ (RWMutex.writer rw = Some h ∨ h ∈ RWMutex.readers rw)) as Hno.
    { intros h Hh. destruct (Hr3 h Hh) as (a & Ha & _ & Hm). apply (Hidle h a Ha). apply (H3 _ _ id); [|done].
      rewrite <- Hm. by eapply H1. }
    unfold can_lock. apply andb_true_intro. split.
    + apply bool_decide_eq_true. destruct (RWMutex.writer rw) as [h|] eqn:Ew; [|done]. exfalso. apply (Hno h). by left.
    + destruct write; [|done]. cbn. apply bool_decide_eq_true. apply set_eq. intros h. split; [|set_solver].
      intros Hh. exfalso. apply (Hno h). by right.
  - eexists _, unlocked. cbn. rewrite lookup_insert_eq. split; [done|]. cbn. rewrite lookup_insert_eq. split; [done|].
    by destruct write.
Qed.

(** Releasing the entry of a lock that is held lets a second writer in. *)
Example release_while_held_breaks :
  let a := Acq.mk "/w/f" true 0 Holding in
  let m := Release "/w/f" (grant 1 (Acq.mk "/w/f" true 0 Waiting) (begin_acquire 1 "/w/f" true NewPathLockManager)) in
  let m2 := begin_acquire 2 "/w/f" true m in
  let m3 := grant 2 (Acq.mk "/w/f" true 1 Waiting) m2 in
  holds m3 1 "/w/f" true ∧ holds m3 2 "/w/f" true ∧ can_lock (default unlocked (Mgr.heap m2 !! 1)) true = true.
Proof.
  split_and!; [exists (Acq.mk "/w/f" true 0 Holding)|exists (Acq.mk "/w/f" true 1 Holding)|]; vm_compute; auto.
Qed.

(** Two spellings of one path are one lock. *)
Definition held_by_1 : Mgr.t := grant 1 (Acq.mk "/w/./f" true 0 Waiting) (begin_acquire 1 "/w/./f" true NewPathLockManager).
Lemma path_locks_exclude_witness : holds (begin_acquire 2 "/w/x/../f" true held_by_1) 1 "/w/f" true ∧
  ¬ holds (begin_acquire 2 "/w/x/../f" true held_by_1) 2 "/w/f" true.
Proof.
  assert (holds (begin_acquire 2 "/w/x/../f" true held_by_1) 1 "/w/f" true) as H.
  { exists (Acq.mk "/w/./f" true 0 Holding). vm_compute. auto. }
  split; [exact H|]. apply (path_locks_exclude _ 1 2 "/w/f" true); [|done|exact H].
  eapply rtc_l; [by apply (step_begin NewPathLockManager 1 "/w/./f" true)|].
  eapply rtc_l; [by eapply (step_grant _ 1 (Acq.mk "/w/./f" true 0 Waiting) unlocked)|].
  eapply rtc_l; [by apply (step_begin _ 2 "/w/x/../f" true)|]. apply rtc_refl.
Defined.
