(* ===== verification/Effects.v ===== *)
(** * External effects (core/effect_tracker.go, core/idempotency.go)

    The tracker records what each tool call did outside the engine; when a step
    fails, its effects are probed and undone, the last one first
    (core/scheduler_decision_failure.go).  Within a turn a repeated call is
    skipped.  The world the tools act on is a type [W]; probers and compensators
    are functions over it. *)
From S2P Require Import Prelude ToolNames.

(** ** Records *)

Module EffectRecord.
Record t := mk {
  OpID : string; StepID : string; TaskID : string; ToolName : string; Arguments : gmap string any; Result : string;
  Status : string; SideEffect : SideEffectClass; Compensatable : bool; Compensator : string; Timestamp : Z;
  NeedsReview : bool; ReviewReason : string }.
#[global] Instance eta : Eta t := λ r,
  mk (OpID r) (StepID r) (TaskID r) (ToolName r) (Arguments r) (Result r) (Status r) (SideEffect r) (Compensatable r)
    (Compensator r) (Timestamp r) (NeedsReview r) (ReviewReason r).
End EffectRecord.
Module EffectContract.
Record t := mk { SideEffectClass_ : SideEffectClass; Compensatable : bool; CompensatorAction : string }.
End EffectContract.

Inductive ProbeState := ProbeNotApplied | ProbeApplied | ProbeUnknown.
Module CompensationResult.
Record t := mk { OpID : string; ToolName : string; Action : string; Detail : string }.
End CompensationResult.
#[export] Instance CompensationResult_eq_dec : EqDecision CompensationResult.t.
Proof. solve_decision. Defined.

Definition truncateEffectResult (result : string) : string :=
  if 4096 <? String.length result then (String.substring 0 4096 result +:+ "...[truncated]")%string else result.

Section tracker.
Context {W : Type}.

(** A prober and a compensator: Go functions over the outside world. *)
Definition ProberFunc : Type := EffectRecord.t → W → ProbeState * W.
Definition CompensatorFunc : Type := EffectRecord.t → W → result string string * W.

(** [EffectTracker]; a record is a pointer, known by its place in [records]. *)
Record EffectTracker := mkTracker {
  records : list EffectRecord.t;
  contracts : gmap string EffectContract.t;
  probers : gmap string ProberFunc;
  compensators : gmap string CompensatorFunc }.
#[global] Instance EffectTracker_eta : Eta EffectTracker := λ r,
  mkTracker (records r) (contracts r) (probers r) (compensators r).
Definition NewEffectTracker : EffectTracker := mkTracker [] ∅ ∅ ∅.

Definition RegisterContract (name : string) (c : EffectContract.t) (t : EffectTracker) : EffectTracker :=
  t <| contracts ::= <[name := c]> |>.
Definition RegisterProber (name : string) (p : ProberFunc) (t : EffectTracker) : EffectTracker :=
  t <| probers ::= <[name := p]> |>.
Definition RegisterCompensator (name : string) (c : CompensatorFunc) (t : EffectTracker) : EffectTracker :=
  t <| compensators ::= <[name := c]> |>.

(** [RecordEffect] at the instant [now]. *)
Definition new_record (marshal : gmap string any → option (list Ascii.ascii)) (t : EffectTracker) (taskID stepID toolName : string)
    (args : gmap string any) (result status : string) (now : Z) : EffectRecord.t :=
  let '(sideEffect, compensatable, compensator) :=
    match contracts t !! toolName with
    | Some c => (EffectContract.SideEffectClass_ c, EffectContract.Compensatable c, EffectContract.CompensatorAction c)
    | None => (classifySideEffect toolName (is_core toolName), false, EmptyString)
    end in
  EffectRecord.mk (toolCallKey marshal toolName args) stepID taskID toolName args (truncateEffectResult result) status
    sideEffect compensatable compensator now false "".
Definition RecordEffect marshal (taskID stepID toolName : string) (args : gmap string any) (result status : string) (now : Z)
    (t : EffectTracker) : EffectTracker :=
  t <| records ::= λ l, l ++ [new_record marshal t taskID stepID toolName args result status now] |>.

(** [GetByStep]: the records of a step, in order, with their places. *)
Definition places_of (stepID : string) (l : list EffectRecord.t) : list nat :=
  filter (λ i, EffectRecord.StepID <$> l !! i = Some stepID) (seq 0 (length l)).
Definition GetByStep (t : EffectTracker) (stepID : string) : list EffectRecord.t :=
  filter (λ r, EffectRecord.StepID r = stepID) (records t).
Definition NeedsReviewCount (t : EffectTracker) : nat := length (filter (λ r, EffectRecord.NeedsReview r = true) (records t)).

Definition markNeedsReview (i : nat) (reason : string) (t : EffectTracker) : EffectTracker :=
  t <| records ::= alter (λ r, r <| EffectRecord.NeedsReview := true |> <| EffectRecord.ReviewReason := reason |>) i |>.

Definition ProbeExternalState (t : EffectTracker) (r : EffectRecord.t) (w : W) : ProbeState * W :=
  match probers t !! EffectRecord.ToolName r with
  | None => (ProbeUnknown, w)
  | Some prober => prober r w
  end.

Definition outcome (r : EffectRecord.t) (action detail : string) : CompensationResult.t :=
  CompensationResult.mk (EffectRecord.OpID r) (EffectRecord.ToolName r) action detail.

(** [compensateExternal] of the record [r] at place [i]. *)
Definition compensateExternal (i : nat) (r : EffectRecord.t) (t : EffectTracker) (w : W) : CompensationResult.t * EffectTracker * W :=
  let '(state, w) := ProbeExternalState t r w in
  match state with
  | ProbeNotApplied => (outcome r "skipped" "effect not applied (probe confirmed)", t, w)
  | ProbeApplied =>
      let '(compensatable, action) :=
        match contracts t !! EffectRecord.ToolName r with
        | Some c => (EffectContract.Compensatable c, EffectContract.CompensatorAction c)
        | None => (EffectRecord.Compensatable r, EffectRecord.Compensator r)
        end in
      if negb compensatable || String.eqb action "" then
        (outcome r "needs_review" "effect applied, not compensatable", markNeedsReview i "effect applied but not compensatable" t, w)
      else
        match compensators t !! EffectRecord.ToolName r with
        | None => (outcome r "needs_review" "compensator not registered", markNeedsReview i "compensator declared but not registered" t, w)
        | Some compensator =>
            let '(res, w) := compensator r w in
            match res with
            | Ok detail => (outcome r "compensated" detail, t, w)
            | Err err =>
                (outcome r "needs_review" ("compensator error: " +:+ err)%string,
                 markNeedsReview i ("compensator failed: " +:+ err)%string t, w)
            end
        end
  | ProbeUnknown =>
      (outcome r "needs_review" (of_bytes (bytes "probe unknown " ++ map Ascii.ascii_of_nat [226; 128; 148] ++ bytes " cannot determine if effect was applied")),
       markNeedsReview i "probe returned unknown" t, w)
  end.
Definition compensateOne (i : nat) (r : EffectRecord.t) (t : EffectTracker) (w : W) : CompensationResult.t * EffectTracker * W :=
  match EffectRecord.SideEffect r with
  | SideEffectNone => (outcome r "skipped" "no side effect", t, w)
  | SideEffectFile => (outcome r "file_rollback" "delegated to StagedWorkspace", t, w)
  | _ => compensateExternal i r t w
  end.

(** The loop of [CompensateStep] over the places, the last one first. *)
Fixpoint compensate_all (places : list nat) (t : EffectTracker) (w : W) : list CompensationResult.t * EffectTracker * W :=
  match places with
  | [] => ([], t, w)
  | i :: places' =>
      match records t !! i with
      | None => compensate_all places' t w
      | Some r =>
          let '(c, t, w) := compensateOne i r t w in
          let '(cs, t, w) := compensate_all places' t w in (c :: cs, t, w)
      end
  end.
Definition CompensateStep (stepID : string) (t : EffectTracker) (w : W) : list CompensationResult.t * EffectTracker * W :=
  compensate_all (reverse (places_of stepID (records t))) t w.
End tracker.
Arguments EffectTracker : clear implicits.
Arguments ProberFunc : clear implicits.
Arguments CompensatorFunc : clear implicits.

(** ** One turn: [TurnIdempotencyContext] *)

Definition CheckAndMark (executed : gset string) (key : string) : bool * gset string :=
  if decide (key ∈ executed) then (true, executed) else (false, {[key]} ∪ executed).
(** The calls of a turn that are executed. *)
Fixpoint run_turn (executed : gset string) (keys : list string) : list string :=
  match keys with
  | [] => []
  | k :: ks => let '(skip, executed) := CheckAndMark executed k in
               if skip then run_turn executed ks else k :: run_turn executed ks
  end.

(** A dry run: [InputSchema] of the tool, when it has one. *)
Definition supportsDryRun (inputSchema : option (list (string * any))) : bool :=
  match inputSchema with
  | None => false
  | Some schema => match amap_get schema "properties" with
                   | Some (AMap props) => match amap_get props "dry_run" with Some _ => true | None => false end
                   | _ => false
                   end
  end.
Definition isHighRiskTool (riskLevel : option string) : bool :=
  match riskLevel with Some l => String.eqb l "high" | None => false end.
Definition addDryRunArg (args : gmap string any) : gmap string any := <["dry_run" := ABool true]> args.

(** ** Repeated calls *)

(** The first of each kind, in order. *)
Lemma run_turn_spec ex keys k : k ∈ run_turn ex keys ↔ k ∈ keys ∧ k ∉ ex.
Proof.
  revert ex. induction keys as [|k' keys IH]; intros ex; cbn [run_turn]; [set_solver|].
  unfold CheckAndMark. destruct (decide (k' ∈ ex)) as [Hin|Hin]; [rewrite IH; set_solver|].
  rewrite elem_of_cons, IH. destruct (decide (k = k')) as [->|?]; set_solver.
Qed.
Lemma run_turn_NoDup ex keys : NoDup (run_turn ex keys).
Proof.
  revert ex. induction keys as [|k keys IH]; intros ex; cbn [run_turn]; [constructor|].
  unfold CheckAndMark. destruct (decide (k ∈ ex)); [apply IH|]. constructor; [|apply IH]. rewrite run_turn_spec. set_solver.
Qed.

(** ** Compensation *)

Lemma filter_ext_elem {A} (P Q : A → Prop) `{!∀ x, Decision (P x), !∀ x, Decision (Q x)} (l : list A) :
  (∀ x, x ∈ (l : list A) → P x ↔ Q x) → filter P l = filter Q l.
Proof.
  induction l as [|x l IH]; intros Hpq; [done|]. rewrite !filter_cons, IH by (intros; apply Hpq; by right).
  destruct (decide (P x)) as [Hx|Hx], (decide (Q x)) as [Hy|Hy]; try done; exfalso; [apply Hy|apply Hx]; apply (Hpq x); (done || left).
Qed.

Section compensation.
Context {W : Type}.
Implicit Types (t : EffectTracker W) (w : W).

Lemma places_of_spec sid l i : i ∈ places_of sid l ↔ ∃ r, l !! i = Some r ∧ EffectRecord.StepID r = sid.
Proof.
  unfold places_of. rewrite list_elem_of_filter, elem_of_seq, fmap_Some. split.
  - intros ((r & -> & ->) & _). by exists r.
  - intros (r & Hr & <-). split; [by exists r|]. apply lookup_lt_Some in Hr. lia.
Qed.
Lemma places_of_snoc sid l r :
  places_of sid (l ++ [r]) = places_of sid l ++ (if decide (EffectRecord.StepID r = sid) then [length l] else []).
Proof.
  unfold places_of. rewrite length_app, Nat.add_1_r, seq_S, filter_app. f_equal.
  - apply filter_ext_elem. intros i (_ & Hi)%elem_of_seq. by rewrite lookup_app_l by lia.
  - cbn [Nat.add]. destruct (decide (EffectRecord.StepID r = sid)) as [<-|Hne].
    + rewrite filter_cons_True; [done|]. by rewrite lookup_app_r, Nat.sub_diag by lia.
    + rewrite filter_cons_False; [done|]. rewrite lookup_app_r, Nat.sub_diag by lia. cbn. congruence.
Qed.

(** *** Undoing *)

Context (effect : string → gmap string any → W → W).

(** A call the tracker can undo: its tool has a contract, a prober that sees
    the effect and a compensator that takes it back. *)
Definition undoable (t : EffectTracker W) (name : string) (args : gmap string any) : Prop :=
  ∃ c p k, contracts t !! name = Some c ∧ probers t !! name = Some p ∧ compensators t !! name = Some k ∧
    EffectContract.SideEffectClass_ c ≠ SideEffectNone ∧ EffectContract.SideEffectClass_ c ≠ SideEffectFile ∧
    EffectContract.Compensatable c = true ∧ EffectContract.CompensatorAction c ≠ "" ∧
    ∀ r w, EffectRecord.ToolName r = name → EffectRecord.Arguments r = args →
      p r (effect name args w) = (ProbeApplied, effect name args w) ∧ ∃ d, k r (effect name args w) = (Ok d, w).
(** The class a call of the tool is recorded with. *)
Definition class_of (t : EffectTracker W) (name : string) : SideEffectClass :=
  match contracts t !! name with
  | Some c => EffectContract.SideEffectClass_ c
  | None => classifySideEffect name (is_core name)
  end.
(** A call without effect on this world: it is classified as reading, or as a
    file operation, which the staged workspace takes back. *)
Definition harmless (t : EffectTracker W) (name : string) (args : gmap string any) : Prop :=
  (class_of t name = SideEffectNone ∨ class_of t name = SideEffectFile) ∧ ∀ w, effect name args w = w.

(** A step's calls: each acts on the world and is recorded. *)
Record Call := mkCall { c_tool : string; c_args : gmap string any; c_result : string; c_status : string; c_time : Z }.
Definition act (c : Call) (w : W) : W := effect (c_tool c) (c_args c) w.
Definition perform marshal (tid sid : string) (tw : EffectTracker W * W) (c : Call) : EffectTracker W * W :=
  (RecordEffect marshal tid sid (c_tool c) (c_args c) (c_result c) (c_status c) (c_time c) tw.1, act c tw.2).
Definition can_undo (t : EffectTracker W) (c : Call) : Prop :=
  undoable t (c_tool c) (c_args c) ∨ harmless t (c_tool c) (c_args c).

Definition settled (c : CompensationResult.t) : Prop := CompensationResult.Action c ≠ "needs_review".
Definition recorded (t : EffectTracker W) (i : nat) (c : Call) : Prop :=
  ∃ r, records t !! i = Some r ∧ EffectRecord.ToolName r = c_tool c ∧ EffectRecord.Arguments r = c_args c ∧
    EffectRecord.SideEffect r = class_of t (c_tool c).

Lemma compensateOne_undo t i c w r :
  can_undo t c → EffectRecord.ToolName r = c_tool c → EffectRecord.Arguments r = c_args c →
  EffectRecord.SideEffect r = class_of t (c_tool c) → ∃ o, compensateOne i r t (act c w) = (o, t, w) ∧ settled o.
Proof.
  intros Hc Hn Ha Hs. unfold compensateOne, act. destruct Hc as [Hu|[Hclass Heff]].
  - destruct Hu as (ct & p & k & Hct & Hp & Hk & Hne1 & Hne2 & Hcomp & Hact & Hpk).
    destruct (Hpk r w Hn Ha) as [Epr (d & Ek)].
    assert (compensateExternal i r t (effect (c_tool c) (c_args c) w) = (outcome r "compensated" d, t, w)) as E.
    { unfold compensateExternal, ProbeExternalState. rewrite Hn, Hp, Epr, Hct, Hcomp.
      destruct (String.eqb_spec (EffectContract.CompensatorAction ct) ""); [done|]. cbn [negb orb].
      by rewrite Hk, Ek. }
    rewrite E, Hs. unfold class_of. rewrite Hct. exists (outcome r "compensated" d).
    destruct (EffectContract.SideEffectClass_ ct); done.
  - rewrite Heff, Hs. destruct Hclass as [-> | ->]; by eexists.
Qed.

(** The effects undone in reverse give the world before them. *)
Lemma compensate_undo t w : ∀ steps,
  Forall (λ ic, recorded t ic.1 ic.2 ∧ can_undo t ic.2) steps →
  ∃ cs, compensate_all steps.*1 t (foldr (λ ic w, act ic.2 w) w steps) = (cs, t, w) ∧ Forall settled cs ∧ length cs = length steps.
Proof.
  induction steps as [|[i c] steps IH]; intros Hall; cbn [fmap list_fmap foldr compensate_all fst snd].
  - exists []. by repeat constructor.
  - apply Forall_cons in Hall as [[(r & Hr & Hn & Ha & Hs) Hc] Hall]. cbn [fst snd] in *. rewrite Hr.
    set (w1 := foldr (λ ic w, act ic.2 w) w steps) in *.
    destruct (compensateOne_undo t i c w1 r Hc Hn Ha Hs) as (o & -> & Ho).
    destruct (IH Hall) as (cs & -> & Hcs & Hlen). exists (o :: cs). split; [done|]. split; [by constructor|]. cbn. by rewrite Hlen.
Qed.

(** Performing the calls of a step, with their places numbered from [n]. *)
Lemma perform_spec marshal tid sid t w calls :
  places_of sid (records t) = [] →
  let tw := foldl (perform marshal tid sid) (t, w) calls in
  let steps := zip (seq (length (records t)) (length calls)) calls in
  contracts tw.1 = contracts t ∧ probers tw.1 = probers t ∧ compensators tw.1 = compensators t ∧
  length (records tw.1) = length (records t) + length calls ∧ places_of sid (records tw.1) = steps.*1 ∧
  tw.2 = foldr (λ ic w, act ic.2 w) w (reverse steps) ∧ Forall (λ ic, recorded tw.1 ic.1 ic.2) steps.
Proof.
  intros Hp. cbv zeta. induction calls as [|c calls IH] using rev_ind.
  { cbn. rewrite Nat.add_0_r. split_and!; done || constructor. }
  rewrite foldl_app. cbn [foldl]. destruct (foldl (perform marshal tid sid) (t, w) calls) as [t1 w1] eqn:E.
  cbn [fst snd] in *. destruct IH as (H1 & H2 & H3 & H4 & H5 & H6 & H7).
  set (r := new_record marshal t1 tid sid (c_tool c) (c_args c) (c_result c) (c_status c) (c_time c)).
  assert (EffectRecord.ToolName r = c_tool c ∧ EffectRecord.Arguments r = c_args c ∧ EffectRecord.StepID r = sid ∧
    EffectRecord.SideEffect r = class_of t1 (c_tool c)) as (R1 & R2 & R3 & R4).
  { unfold r, new_record, class_of. destruct (contracts t1 !! c_tool c); done. }
  assert (zip (seq (length (records t)) (length (calls ++ [c]))) (calls ++ [c])
    = zip (seq (length (records t)) (length calls)) calls ++ [(length (records t) + length calls, c)]) as Ez.
  { rewrite length_app, Nat.add_1_r, seq_S, zip_with_app by (by rewrite length_seq). done. }
  rewrite Ez. assert (records (perform marshal tid sid (t1, w1) c).1 = records t1 ++ [r]) as Er by done.
  split; [done|]. split; [done|]. split; [done|]. split; [rewrite Er, !length_app, H4; cbn; lia|]. split.
  - rewrite Er, places_of_snoc, R3, decide_True, fmap_app, <- H5 by done. f_equal. cbn. by rewrite H4.
  - split; [rewrite reverse_app; cbn [foldr]; unfold perform; cbn [snd]; by rewrite H6|].
    apply Forall_app. split.
    + eapply Forall_impl; [exact H7|]. intros [i c'] (r' & Hr' & ?). exists r'. rewrite Er. split; [|done].
      rewrite lookup_app_l; [done|]. by eapply lookup_lt_Some.
    + apply Forall_singleton. exists r. cbn [fst snd]. rewrite Er, lookup_app_r, H4, Nat.sub_diag by lia. by split_and!.
Qed.

(** Compensating a step all of whose calls are harmless or can be undone puts
    the world back to what it was before the step, and reports one settled
    result per call. *)
Theorem compensation_undoes marshal tid sid t w calls :
  places_of sid (records t) = [] → Forall (can_undo t) calls →
  let tw := foldl (perform marshal tid sid) (t, w) calls in
  ∃ cs, CompensateStep sid tw.1 tw.2 = (cs, tw.1, w) ∧ Forall settled cs ∧ length cs = length calls.
Proof.
  intros Hp Hc. destruct (perform_spec marshal tid sid t w calls Hp) as (H1 & H2 & H3 & _ & H5 & H6 & H7). cbv zeta.
  destruct (foldl (perform marshal tid sid) (t, w) calls) as [t1 w1]. cbn [fst snd] in *.
  set (steps := zip (seq (length (records t)) (length calls)) calls) in *.
  unfold CompensateStep. rewrite H5, H6, <- fmap_reverse.
  assert (Forall (can_undo t1) calls) as Hc1.
  { eapply Forall_impl; [exact Hc|]. unfold can_undo, undoable, harmless, class_of. by rewrite H1, H2, H3. }
  destruct (compensate_undo t1 w (reverse steps)) as (cs & E & Hs & Hl).
  - apply Forall_reverse, Forall_forall. intros [i c] Hin. split; [by apply (proj1 (Forall_forall _ _) H7 _ Hin)|].
    apply (proj1 (Forall_forall _ _) Hc1). by apply elem_of_zip_r in Hin.
  - exists cs. split; [exact E|]. split; [done|]. rewrite Hl, length_reverse. unfold steps.
    rewrite length_zip_with, length_seq. lia.
Qed.
End compensation.

(** *** What is reported, and what happens without probers *)

Section reports.
Context {W : Type}.
Implicit Types (t : EffectTracker W) (w : W).

(** Compensating a record changes at most its own review fields. *)
Definition reviewed (r : EffectRecord.t) (reason : string) : EffectRecord.t :=
  r <| EffectRecord.NeedsReview := true |> <| EffectRecord.ReviewReason := reason |>.
Definition same_but (i : nat) (t t' : EffectTracker W) : Prop :=
  contracts t' = contracts t ∧ probers t' = probers t ∧ compensators t' = compensators t ∧
  (records t' = records t ∨ ∃ reason, records t' = alter (λ r, reviewed r reason) i (records t)).

Lemma compensateOne_spec i r t w c t' w' :
  compensateOne i r t w = (c, t', w') →
  same_but i t t' ∧ CompensationResult.OpID c = EffectRecord.OpID r ∧ CompensationResult.ToolName c = EffectRecord.ToolName r ∧
  (CompensationResult.Action c ≠ "needs_review" → t' = t).
Proof.
  assert (∀ reason, same_but i t (markNeedsReview i reason t)) as Hm.
  { intros reason. split_and!; [done..|]. right. by exists reason. }
  assert (same_but i t t) as Hs by (split_and!; [done..|by left]).
  intros H. unfold compensateOne, compensateExternal in H. destruct (EffectRecord.SideEffect r); [by simplify_eq|by simplify_eq|..].
  all: destruct (ProbeExternalState t r w) as [[] w1]; [by simplify_eq| |simplify_eq; by split_and!].
  all: destruct (match contracts t !! _ with Some _ => _ | None => _ end) as [cm ac]; destruct (negb cm || String.eqb ac "");
    [simplify_eq; by split_and!|].
  all: destruct (compensators t !! _) as [k|]; [|simplify_eq; by split_and!].
  all: destruct (k r w1) as [[d|e] w2]; simplify_eq; by split_and!.
Qed.

Lemma records_same i t t' j : same_but i t t' → i ≠ j → records t' !! j = records t !! j.
Proof. intros (_ & _ & _ & [->|[reason ->]]) Hne; [done|]. by apply list_lookup_alter_ne. Qed.
Lemma compensate_all_spec places : ∀ t w cs t' w',
  NoDup places → Forall (λ i, is_Some (records t !! i)) places → compensate_all places t w = (cs, t', w') →
  (λ c, Some (CompensationResult.OpID c)) <$> cs = (λ i, EffectRecord.OpID <$> records t !! i) <$> places ∧
  (∀ j, j ∉ places → records t' !! j = records t !! j).
Proof.
  induction places as [|i places IH]; intros t w cs t' w' Hnd Hin H; cbn [compensate_all] in H; [by simplify_eq|].
  apply NoDup_cons in Hnd as [Hni Hnd]. apply Forall_cons in Hin as [[r Hr] Hin]. rewrite Hr in H.
  destruct (compensateOne i r t w) as [[c t1] w1] eqn:E1. destruct (compensate_all places t1 w1) as [[cs' t2] w2] eqn:E2.
  simplify_eq. destruct (compensateOne_spec _ _ _ _ _ _ _ E1) as (Hs & Ho & _ & _).
  assert (∀ j, j ∈ places → records t1 !! j = records t !! j) as Heq.
  { intros j Hj. apply (records_same i); [done|]. by intros ->. }
  destruct (IH t1 w1 cs' t' w' Hnd) as [IH1 IH2]; [|done|].
  { rewrite Forall_forall in Hin |- *. intros j Hj. rewrite Heq by done. by apply Hin. }
  split.
  - cbn. rewrite Ho, Hr, IH1. cbn. f_equal. apply list_fmap_ext. intros k j Hj%list_elem_of_lookup_2. by rewrite Heq.
  - intros j Hj. apply not_elem_of_cons in Hj as [Hj1 Hj2]. rewrite IH2 by done. apply (records_same i); [done|congruence].
Qed.

Lemma places_nodup sid (l : list EffectRecord.t) : NoDup (places_of sid l).
Proof. apply NoDup_filter, NoDup_seq. Qed.
Lemma GetByStep_places t sid : Some <$> GetByStep t sid = (λ i, records t !! i) <$> places_of sid (records t).
Proof.
  unfold GetByStep. generalize (records t). intros l. induction l as [|r l IH] using rev_ind; [done|].
  rewrite places_of_snoc, filter_app, !fmap_app, IH. f_equal.
  - apply list_fmap_ext. intros k j Hj%list_elem_of_lookup_2. apply places_of_spec in Hj as (r' & Hr' & _).
    rewrite lookup_app_l; [done|]. by eapply lookup_lt_Some.
  - destruct (decide (EffectRecord.StepID r = sid)) as [Hs|Hs].
    + rewrite filter_cons_True by done. cbn. by rewrite lookup_app_r, Nat.sub_diag by lia.
    + by rewrite filter_cons_False.
Qed.

(** One result per record of the step, the last record first; the records of
    other steps are as they were. *)
Theorem compensation_reported sid t w cs t' w' :
  CompensateStep sid t w = (cs, t', w') →
  CompensationResult.OpID <$> cs = EffectRecord.OpID <$> reverse (GetByStep t sid) ∧
  (∀ j r, records t !! j = Some r → EffectRecord.StepID r ≠ sid → records t' !! j = Some r).
Proof.
  intros H. unfold CompensateStep in H. apply compensate_all_spec in H as [H1 H2].
  - split.
    + apply (inj (fmap Some)). rewrite <- !list_fmap_compose. etrans; [exact H1|].
      rewrite !fmap_reverse. f_equal.
      rewrite (list_fmap_compose EffectRecord.OpID Some). 
      assert ((λ i, EffectRecord.OpID <$> records t !! i) <$> places_of sid (records t)
        = (fmap EffectRecord.OpID) <$> ((λ i, records t !! i) <$> places_of sid (records t))) as -> by by rewrite <- list_fmap_compose.
      rewrite <- GetByStep_places, <- !list_fmap_compose. done.
    + intros j r Hj Hne. rewrite H2; [done|]. rewrite elem_of_reverse, places_of_spec. intros (r' & Hr' & Hs). congruence.
  - rewrite reverse_Permutation. apply places_nodup.
  - apply Forall_reverse, Forall_forall. intros i (r & Hr & _)%places_of_spec. by rewrite Hr.
Qed.

Definition external (r : EffectRecord.t) : Prop := EffectRecord.SideEffect r ≠ SideEffectNone ∧ EffectRecord.SideEffect r ≠ SideEffectFile.
Lemma compensateOne_unprobed i r t w :
  probers t = ∅ → ∃ c t', compensateOne i r t w = (c, t', w) ∧ probers t' = ∅ ∧
    (external r → CompensationResult.Action c = "needs_review" ∧ t' = markNeedsReview i "probe returned unknown" t).
Proof.
  intros Hp. unfold compensateOne, compensateExternal, ProbeExternalState, external. rewrite Hp, lookup_empty.
  destruct (EffectRecord.SideEffect r); do 2 eexists; (split; [done|]); (split; [done|]); intros [? ?]; done.
Qed.
Lemma compensate_all_unprobed places : ∀ t w,
  probers t = ∅ → NoDup places → Forall (λ i, ∃ r, records t !! i = Some r ∧ external r) places →
  ∃ cs t', compensate_all places t w = (cs, t', w) ∧ Forall (λ c, CompensationResult.Action c = "needs_review") cs ∧
    ∀ i, i ∈ places → ∃ r, records t' !! i = Some r ∧ EffectRecord.NeedsReview r = true.
Proof.
  induction places as [|i places IH]; intros t w Hp Hnd Hin; cbn [compensate_all].
  - exists [], t. split; [done|]. split; [done|]. by intros i ?%elem_of_nil.
  - apply NoDup_cons in Hnd as [Hni Hnd]. apply Forall_cons in Hin as [(r & Hr & Hext) Hin]. rewrite Hr.
    destruct (compensateOne_unprobed i r t w Hp) as (c & t1 & E1 & Hp1 & Hc). destruct (Hc Hext) as [Ha ->]. rewrite E1.
    set (t1 := markNeedsReview i "probe returned unknown" t) in *.
    assert (∀ j, j ≠ i → records t1 !! j = records t !! j) as Hj by (intros; by apply list_lookup_alter_ne).
    destruct (IH t1 w Hp1 Hnd) as (cs & t' & E2 & Hcs & Hrev).
    { rewrite Forall_forall in Hin |- *. intros j Hjp. rewrite Hj; [by apply Hin|]. by intros ->. }
    rewrite E2. exists (c :: cs), t'. split; [done|]. split; [by constructor|].
    intros j [->|Hjp]%elem_of_cons; [|by apply Hrev].
    assert (records t' !! i = records t1 !! i) as ->.
    { assert (Forall (λ i, is_Some (records t1 !! i)) places) as Hs.
      { rewrite Forall_forall in Hin |- *. intros j Hjp. rewrite Hj; [|by intros ->]. destruct (Hin j Hjp) as (? & -> & _). done. }
      by apply (proj2 (compensate_all_spec places t1 w cs t' w Hnd Hs E2)). }
    exists (reviewed r "probe returned unknown"). split; [|done]. unfold t1, markNeedsReview. cbn.
    rewrite list_lookup_alter_eq, Hr. done.
Qed.
End reports.

(** ** A concrete world: rows of a table *)

Definition rows_effect (name : string) (args : gmap string any) (w : list string) : list string :=
  if String.eqb name "create_row" then "row" :: w else w.
Definition row_prober : ProberFunc (list string) := λ _ w, match w with [] => (ProbeNotApplied, w) | _ => (ProbeApplied, w) end.
Definition row_compensator : CompensatorFunc (list string) :=
  λ _ w, match w with [] => (Err "no row", w) | _ :: w' => (Ok "row deleted", w') end.
Definition rows_tracker : EffectTracker (list string) :=
  RegisterCompensator "create_row" row_compensator
    (RegisterProber "create_row" row_prober
       (RegisterContract "create_row" (EffectContract.mk SideEffectDatabase true "delete the row") NewEffectTracker)).
Definition row_calls : list Call :=
  [mkCall "create_row" ∅ "ok" "success" 1; mkCall "read_file" ∅ "text" "success" 2; mkCall "create_row" ∅ "ok" "success" 3].
Definition performed : EffectTracker (list string) * list string :=
  foldl (perform rows_effect (λ _, None) "t" "s") (rows_tracker, ["old"]) row_calls.

Lemma compensation_undoes_witness :
  ∃ cs, CompensateStep "s" performed.1 performed.2 = (cs, performed.1, ["old"]) ∧ Forall settled cs ∧ length cs = 3%nat.
Proof.
  apply (compensation_undoes rows_effect (λ _, None) "t" "s" rows_tracker ["old"] row_calls); [reflexivity|].
  assert (∀ c, c_tool c = "create_row" → can_undo rows_effect rows_tracker c) as Hrow.
  { intros c Hc. left. rewrite Hc. exists (EffectContract.mk SideEffectDatabase true "delete the row"), row_prober, row_compensator.
    split_and!; [reflexivity..|done|done|done|done|]. intros r w _ _. split; [done|]. by eexists. }
  constructor; [by apply Hrow|]. constructor; [|constructor; [by apply Hrow|constructor]].
  right. split; [left; reflexivity|done].
Defined.
Lemma compensation_reported_witness :
  CompensationResult.OpID <$> (CompensateStep "s" performed.1 performed.2).1.1
  = EffectRecord.OpID <$> reverse (GetByStep performed.1 "s").
Proof.
  destruct (CompensateStep "s" performed.1 performed.2) as [[cs t'] w'] eqn:E.
  apply (compensation_reported "s" performed.1 performed.2 cs t' w' E).
Defined.
