(* ===== verification/ToolCalls.v ===== *)
(** * Executing the calls of a turn (core/spawner_tool_exec.go, with
    core/spawner_utils.go, core/mcp_error_parse.go, core/state_potential.go)

    Each call a model asks for passes the checks of repetition and authorization,
    runs, and leaves a text for the model.  What has been dispatched is kept as a
    list, and whatever answers a call is a function of that list: the tools, the
    servers, the clock.  The rendering of a result, redaction, hashes and JSON are
    arguments; the guards are those of [Router], [Sieve], [ReadCache] and
    [Effects].  Metrics, logs and timeouts are left out. *)
From Stdlib Require Import Ascii SpecFloat.
From S2P Require Import Prelude ToolNames FailureClass Output Sieve ReadCache SliceSort Router Effects.
Local Open Scope Z_scope.

(** ** Failures *)

Definition line_end : string := String newline "".
Definition tool_failed_repeatedly (toolName : string) (failCount : Z) : string :=
  "[TOOL " +:+ toolName +:+ " HAS FAILED " +:+ pretty failCount +:+ " TIMES] Stop using this tool. Use an alternative approach or answer directly without tools.".
Definition tool_failed (toolName errMsg : string) : string :=
  "[TOOL FAILED: " +:+ toolName +:+ "] " +:+ errMsg +:+ line_end +:+ "Do not abort. Either fix the arguments and retry, use a different tool, or answer directly.".
Definition toolFailFeedback (toolName errMsg : string) (failCount : Z) : string :=
  if toolFailCircuitBreakerThreshold <=? failCount then tool_failed_repeatedly toolName failCount else tool_failed toolName errMsg.

Module SERFAction.
(** [field]: the parameter of that name, if it is a text. *)
Record t := mk { Type_ : string; field : string; Message : string }.
End SERFAction.
Module SERFError.
Record t := mk { Category : string; Retryable : bool; RetryAfterMs : option Z; SuggestedActions : list SERFAction.t; RawMessage : string }.
End SERFError.
Definition serf_advice (serf : SERFError.t) : string :=
  let cat := SERFError.Category serf in
  if String.eqb cat "INVALID_INPUT" then "The arguments were invalid. Check the tool's input schema and retry with corrected parameters."
  else if String.eqb cat "RESOURCE_NOT_FOUND" then "The requested resource was not found. Verify the resource identifier (e.g. project_id, service_name) and retry, or ask the user to confirm the target."
  else if String.eqb cat "RESOURCE_EXHAUSTED" then
    match SERFError.RetryAfterMs serf with
    | Some ms => "Rate limit reached. Wait " +:+ pretty ms +:+ "ms before retrying. If persistent, switch to an alternative resource."
    | None => "Rate limit reached. Wait before retrying, or switch to an alternative resource."
    end
  else if String.eqb cat "PERMISSION_DENIED" then "Permission denied. Do not retry with the same credentials. Escalate to the user to provide alternative access."
  else if String.eqb cat "UPSTREAM_FAILURE" then
    if SERFError.Retryable serf then "Upstream service is temporarily unavailable. Retry with backoff."
    else "Upstream service failure. Switch to an alternative resource or escalate."
  else if String.eqb cat "INTERNAL_ERROR" then "Internal server error. Do not retry — escalate to the user."
  else "Tool error: " +:+ SERFError.RawMessage serf +:+ ". Consider fixing arguments, switching tools, or answering directly.".
Definition serf_option (i : nat) (a : SERFAction.t) : string :=
  let head := line_end +:+ "[OPTION " +:+ pretty (S i) +:+ "]: " in
  if String.eqb (SERFAction.Type_ a) "SWITCH_RESOURCE" then
    if String.eqb (SERFAction.field a) "" then "" else head +:+ "Try switching " +:+ SERFAction.field a +:+ " to a different value."
  else if String.eqb (SERFAction.Type_ a) "ESCALATE_TO_USER" then head +:+ SERFAction.Message a
  else if String.eqb (SERFAction.Type_ a) "RETRY" then head +:+ "Retry the call with adjusted parameters."
  else "".
Definition buildSERFRecovery (toolName : string) (serf : option SERFError.t) (errMsg : string) (failCount : Z) : string :=
  if toolFailCircuitBreakerThreshold <=? failCount then tool_failed_repeatedly toolName failCount
  else match serf with
       | None => tool_failed toolName errMsg
       | Some e => "[TOOL FAILED: " +:+ toolName +:+ "] Category: " +:+ SERFError.Category e +:+ ". " +:+
                   serf_advice e +:+ join "" (imap serf_option (SERFError.SuggestedActions e))
       end.

Definition upper_byte (a : ascii) : ascii :=
  let n := nat_of_ascii a in if ((97 <=? n) && (n <=? 122))%nat then ascii_of_nat (n - 32) else a.
Definition to_upper (s : string) : string := of_bytes (upper_byte <$> bytes s).
Definition http_categories : list (list string * string) :=
  [(["HTTP 400"; "BAD REQUEST"], "INVALID_INPUT");
   (["HTTP 401"; "UNAUTHORIZED"; "PERMISSION_DENIED"], "PERMISSION_DENIED");
   (["HTTP 403"; "FORBIDDEN"], "PERMISSION_DENIED");
   (["HTTP 404"; "NOT FOUND"; "RESOURCE_NOT_FOUND"], "RESOURCE_NOT_FOUND");
   (["HTTP 429"; "TOO MANY REQUESTS"; "RESOURCE_EXHAUSTED"; "RATE_LIMITED"], "RESOURCE_EXHAUSTED");
   (["HTTP 500"; "INTERNAL SERVER ERROR"; "INTERNAL_ERROR"], "INTERNAL_ERROR");
   (["HTTP 502"; "HTTP 503"; "HTTP 504"; "UPSTREAM_FAILURE"; "TIMEOUT"; "DEADLINE EXCEEDED"], "UPSTREAM_FAILURE")].
Definition parseHTTPStatusSERF (msg : string) : option SERFError.t :=
  let upper := to_upper msg in
  (λ wc, SERFError.mk wc.2 (String.eqb wc.2 "UPSTREAM_FAILURE") None [] msg) <$>
    List.find (λ wc, existsb (λ w, contains w upper) wc.1) http_categories.
Definition SERFCategoryToFailureClass (cat : string) : FailureClass :=
  if String.eqb cat "INVALID_INPUT" then FailureClassBadRequest
  else if String.eqb cat "RESOURCE_NOT_FOUND" then FailureClassResourceNotFound
  else if String.eqb cat "RESOURCE_EXHAUSTED" then FailureClassRateLimit
  else if String.eqb cat "PERMISSION_DENIED" then FailureClassAuthPermission
  else FailureClassTransient.

Definition extractTextFromContent (content : option any) : string :=
  match content with
  | Some (AList arr) =>
      join line_end (omap (λ item, match item with AMap m => as_string (amap_get m "text") | _ => None end) arr)
  | _ => ""
  end.
(** [decode]: the JSON of the message: the error under [serf], the code and
    whether to retry. *)
Definition tryParseSERF (decode : string → option (option SERFError.t * string * bool)) (errMsg : string) : option SERFError.t :=
  if String.eqb errMsg "" then None
  else
    let trimmed := TrimSpace errMsg in
    match (if has_prefix "{" trimmed then decode trimmed else None) with
    | Some (Some e, _, _) => Some (SERFError.mk (SERFError.Category e) (SERFError.Retryable e) (SERFError.RetryAfterMs e) (SERFError.SuggestedActions e) errMsg)
    | Some (None, code, retryable) =>
        if String.eqb code "" then parseHTTPStatusSERF errMsg else Some (SERFError.mk code retryable None [] errMsg)
    | None => parseHTTPStatusSERF errMsg
    end.
Definition parseMCPError (decode : string → option (option SERFError.t * string * bool)) (finalRes : any) : option (option SERFError.t * string) :=
  match finalRes with
  | AMap m =>
      match amap_get m "isError" with
      | Some (ABool true) => let errMsg := extractTextFromContent (amap_get m "content") in Some (tryParseSERF decode errMsg, errMsg)
      | _ => None
      end
  | _ => None
  end.

(** Failures per task and tool, over its steps. *)
Definition maxTaskToolFailEntries : nat := 1000.
Abbreviation TaskFails := (gmap string (gmap string Z)).
Fixpoint evict_tasks (taskID : string) (ord : list string) (m : TaskFails) : TaskFails :=
  match ord with
  | [] => m
  | k :: ord =>
      if (size m <=? maxTaskToolFailEntries * 3 / 4)%nat then m
      else evict_tasks taskID ord (if decide (k = taskID) then m else delete k m)
  end.
Definition incrTaskToolFail (ord : TaskFails → list string) (taskID toolName : string) (stepCount : Z) (m : TaskFails) : TaskFails * Z :=
  let m := if (maxTaskToolFailEntries <? size m)%nat then evict_tasks taskID (ord m) m else m in
  let counts := default ∅ (m !! taskID) in
  let n := default 0 (counts !! toolName) + 1 in
  (<[taskID := <[toolName := n]> counts]> m, Z.max n stepCount).

(** ** Results *)

Definition stickyToolPatterns : list string :=
  ["login"; "auth"; "get_token"; "get_session"; "get_user"; "authenticate"; "signin"; "connect"; "get_api_key"; "get_credentials"].
Definition isStickyResult (toolName : string) : bool := existsb (λ pat, contains pat (to_lower toolName)) stickyToolPatterns.
Definition accumulateSticky (current : string) (newResults : list string) : string :=
  fold_left (λ b sr, if negb (String.eqb sr "") && negb (contains sr b) then b +:+ sr +:+ line_end +:+ line_end else b) newResults current.
Definition dedupAttachments (existing incoming : list Attachment.t) : list Attachment.t :=
  fold_left (λ l a, if existsb (λ e, String.eqb (Attachment.Path e) (Attachment.Path a)) l then l else l ++ [a]) incoming existing.
Definition stateChangingTools : list string := ["click"; "type"; "navigate"; "press_key"; "scroll"; "set_cookie"; "execute_script"].
Definition isStateChangingTool (name : string) : bool := containsStr stateChangingTools name.
Definition copyToolCallArguments (src : gmap string any) (decisionID : string) : gmap string any :=
  if String.eqb decisionID "" then src else <["_decision_id" := AString decisionID]> src.
Definition ExtractMeta (result : any) : option ToolMetadata.t :=
  match result with
  | AMap m =>
      match amap_get m "meta" with
      | Some (AMap meta) =>
          let num k := match amap_get meta k with Some (AFloat f) => trunc_float f | _ => 0 end in
          Some (ToolMetadata.mk (match amap_get meta "truncated" with Some (ABool b) => b | _ => false end) (num "returned") (num "total")
                  (default "" (as_string (amap_get meta "hint"))))
      | _ => None
      end
  | _ => None
  end.
(** [digest]: the first eight bytes of SHA-256, in hexadecimal. *)
Definition GenerateStateSignature (digest : string → string) (toolName : string) (result : any) : string :=
  let observation :=
    match result with
    | AMap m =>
        let status := match amap_get m "status" with
                      | Some (AString s) => s
                      | _ => match amap_get m "exit_code" with Some (AFloat f) => "exit_" +:+ pretty (trunc_float f) | _ => "default" end
                      end in
        if contains "browser" toolName && bool_decide (is_Some (amap_get m "error")) then "browser_error" else status
    | _ => "default"
    end in
  toolName +:+ ":" +:+ digest (toolName +:+ ":" +:+ observation).
Definition f_minus_0_4 : float64 := S754_finite true 7205759403792794 (-54).
(** [GetStatePotential] of the experience store, if there is one. *)
Definition EvaluatePotentialDrop (potential : option (string → float64)) (previousState currentState : string) : bool :=
  match potential with
  | Some v => if String.eqb previousState "" then false else fltb (SFsub 53 1024 (v currentState) (v previousState)) f_minus_0_4
  | None => false
  end.

(** ** The state of a step *)

Module ToolCall.
Record t := mk { Name : string; Arguments : gmap string any }.
End ToolCall.
Module ToolInteraction.
Record t := mk { ToolName : string; Arguments : gmap string any; Result : any; Meta : option ToolMetadata.t }.
End ToolInteraction.
(** A dispatched call: a built-in tool, a tool of the shared context, or a tool of
    a server; a second try counts on its own. *)
Inductive target := TCore | TShared | TServer (id : string) (retry : bool).
Module Dispatch.
Record t := mk { to : target; Name : string; Arguments : gmap string any }.
End Dispatch.
(** [toolExecState], and what outlives the turn: the sieve, the cache of reads,
    the failures of tasks, the recorded effects and the dispatched calls. *)
Module Exec.
Record t := mk {
  toolResults : list string; stickyResults : list string; trace : list ToolInteraction.t;
  toolCallCount : gmap string Z; toolFailCount : gmap string Z; resultStreak : gmap string Z; resultLastHash : gmap string Z;
  needsVerification : bool; turnAttachments : list Attachment.t; statesVisited : list string; previousState : string;
  sieve : Sieve.t; cache : DomainToolReadCache.t; taskFails : TaskFails; effects : list (string * gmap string any * string * string);
  history : list Dispatch.t }.
#[global] Instance t_eta : Eta t := λ s,
  mk (toolResults s) (stickyResults s) (trace s) (toolCallCount s) (toolFailCount s) (resultStreak s) (resultLastHash s)
    (needsVerification s) (turnAttachments s) (statesVisited s) (previousState s) (sieve s) (cache s) (taskFails s) (effects s) (history s).
End Exec.

(** ** The environment of a step *)

Inductive mcp_reply := MFailed (e : string) (connection : bool) | MAnswered (v : any).
Module ToolEnv.
Record t := mk {
  taskID : string; stepID : string; roleID : string; Task : string; InputMapping : gmap string any; policy : coreToolPolicy;
  RequireWriteReason : bool; DedupHardCap : Z; Bookmarks : list string; MaxBodyChars : Z;
  servers : Servers.t; spawn_failed : string → bool;
  (** Replies, as functions of what was dispatched before. *)
  core_reply : list Dispatch.t → string → gmap string any → string * string;
  shared_reply : option (list Dispatch.t → string → gmap string any → string * string);
  mcp_answer : list Dispatch.t → bool → string → string → gmap string any → mcp_reply;
  clock : list Dispatch.t → Z;
  (** [Wrap] and [ToMarkdown]: tool, content, status, source, reason. *)
  markdown : string → any → string → string → string → string;
  redactAndMarkUntrusted : string → string; AdaptiveOutputResult : string → string → string → string;
  marshal : gmap string any → option (list ascii); sum : string → string; digest : string → string; show : any → string;
  decode_serf : string → option (option SERFError.t * string * bool); attachments_of : any → list Attachment.t;
  potential : option (string → float64); intervention : string → string; task_order : TaskFails → list string }.
End ToolEnv.

Section process.
Context {SL : Sorter} (E : ToolEnv.t).
Abbreviation taskID := (ToolEnv.taskID E).
Abbreviation stepID := (ToolEnv.stepID E).

Definition defaultDedupHardCap : Z := 5.
Definition dedupHardCap : Z := if 0 <? ToolEnv.DedupHardCap E then ToolEnv.DedupHardCap E else defaultDedupHardCap.
Definition call_key (name : string) (args : gmap string any) : string := toolCallKey (ToolEnv.marshal E) name args.
Definition say (line : string) (st : Exec.t) : Exec.t := st <| Exec.toolResults ::= λ l, l ++ [line] |>.
Definition record_trace (i : ToolInteraction.t) (st : Exec.t) : Exec.t := st <| Exec.trace ::= λ l, l ++ [i] |>.
Definition dispatch (d : Dispatch.t) (st : Exec.t) : Exec.t := st <| Exec.history ::= λ l, l ++ [d] |>.
(** [recordEffect]: name, arguments, result, status. *)
Definition recordEffect (name : string) (args : gmap string any) (result status : string) (st : Exec.t) : Exec.t :=
  st <| Exec.effects ::= λ l, l ++ [(name, args, result, status)] |>.

Definition noteToolResult (callKey md : string) (st : Exec.t) : Exec.t :=
  if String.eqb md "" || String.eqb callKey "" then st
  else
    let sum := fnv (bytes md) in
    if default 0 (Exec.resultLastHash st !! callKey) =? sum
    then st <| Exec.resultStreak ::= λ m, <[callKey := default 0 (m !! callKey) + 1]> m |>
    else st <| Exec.resultLastHash ::= <[callKey := sum]> |> <| Exec.resultStreak ::= <[callKey := 1]> |>.
Definition steer (name md : string) (st : Exec.t) : Exec.t * string :=
  let '(sv, md) := steerRepeatedResult (ToolEnv.sum E) taskID stepID name md (Exec.sieve st) in (st <| Exec.sieve := sv |>, md).
(** One more failure of a tool, and how many that makes. *)
Definition tool_failure (name : string) (st : Exec.t) : Exec.t * Z :=
  let n := default 0 (Exec.toolFailCount st !! name) + 1 in
  let '(fails, eff) := incrTaskToolFail (ToolEnv.task_order E) taskID name n (Exec.taskFails st) in
  (st <| Exec.toolFailCount ::= <[name := n]> |> <| Exec.taskFails := fails |>, eff).
Definition tool_success (name : string) (st : Exec.t) : Exec.t := st <| Exec.toolFailCount ::= <[name := 0]> |>.

(** *** Before a call runs *)

Inductive verdict := Run | Duplicate | Capped | Unreasoned | Refused.
(** The checks up to the role's built-in tools; a call that passes the first
    three is counted. *)
Definition gate (executed : gset string) (call : ToolCall.t) (st : Exec.t) : gset string * Exec.t * verdict :=
  let name := ToolCall.Name call in
  let args := ToolCall.Arguments call in
  let callKey := call_key name args in
  let '(seen, executed) := CheckAndMark executed callKey in
  if seen then (executed, st, Duplicate)
  else if dedupHardCap <=? default 0 (Exec.resultStreak st !! callKey) then (executed, st, Capped)
  else
    let callCount := default 0 (Exec.toolCallCount st !! callKey) in
    if (2 <=? callCount) && String.eqb (default "" (as_string (args !! "_reason"))) "" then (executed, st, Unreasoned)
    else
      let st := st <| Exec.toolCallCount ::= <[callKey := callCount + 1]> |> in
      if is_core name && negb (allows (ToolEnv.policy E) name) then (executed, st, Refused) else (executed, st, Run).
Definition refusal (v : verdict) (name : string) (callCount : Z) : string :=
  let nth := pretty (callCount + 1) in
  match v with
  | Run => ""
  | Duplicate => "[" +:+ name +:+ "] Skipped: identical call already executed in this turn (A1 idempotency defense)."
  | Capped => "[" +:+ name +:+ "] Blocked: this exact call — same tool, same arguments — has now run " +:+ nth +:+
      " times in this step and returned the same data every time. A `_reason` does not lift this limit; re-asking cannot produce new information." +:+ line_end +:+
      "Do one of these instead:" +:+ line_end +:+
      "  1. Change the query. A different filter, id, or page index that will actually return different rows — not a rephrasing of the same request." +:+ line_end +:+
      "  2. Act on what you already have. The data is in the results above; take the next step the task requires." +:+ line_end +:+
      "  3. If the call keeps failing, stop calling it and report the failure."
  | Unreasoned => "[" +:+ name +:+ "] This is the " +:+ nth +:+
      "rd identical call with the same arguments. Previous results were identical. If this is a legitimate retry (e.g., waiting for data refresh), provide a `_reason` argument explaining why. Otherwise, use the previous result."
  | Refused => "[" +:+ name +:+ "] Refused: role " +:+ go_quote (ToolEnv.roleID E) +:+
      " is not permitted to use built-in tools in this step. Use the role's own MCP tools, or state that the step cannot be completed with the capabilities you have."
  end.

(** *** Built-in tools, and those of the shared context *)

Definition run_shared (reply : list Dispatch.t → string → gmap string any → string * string) (callKey : string) (call : ToolCall.t) (st : Exec.t) : Exec.t :=
  let name := ToolCall.Name call in
  let args := ToolCall.Arguments call in
  let '(res, status) := reply (Exec.history st) name args in
  let st := dispatch (Dispatch.mk TShared name args) st in
  let st := record_trace (ToolInteraction.mk name args (AString res) None) st in
  let md := ToolEnv.markdown E name (AString res) status "orchestrator" "" in
  let st := if String.eqb status "error" then st else noteToolResult callKey md st in
  say md st.
Definition run_core (callKey : string) (call : ToolCall.t) (st : Exec.t) : Exec.t :=
  let name := ToolCall.Name call in
  let args := ToolCall.Arguments call in
  let '(res, status) := ToolEnv.core_reply E (Exec.history st) name args in
  let st := dispatch (Dispatch.mk TCore name args) st in
  let st := recordEffect name args res status st in
  let '(st, shown) := if String.eqb status "error"
                      then let '(st, eff) := tool_failure name st in (st, toolFailFeedback name res eff)
                      else (tool_success name st, res) in
  let st := record_trace (ToolInteraction.mk name args (AString res) (ExtractMeta (AString res))) st in
  let md := ToolEnv.markdown E name (AString shown) status "orchestrator" "" in
  if String.eqb status "error" then say md st
  else let '(st, md) := steer name md (noteToolResult callKey md st) in say md st.

(** *** Tools of a server *)

Definition failed_text (name reason source : string) (mk : Z → string) (st : Exec.t) : Exec.t * string :=
  let '(st, eff) := tool_failure name st in
  let res := mk eff in (say (ToolEnv.markdown E name (AString res) "error" source reason) st, res).
(** What the model is told of an answer. *)
Definition take_answer (remote : bool) (mcpID callKey name reason : string) (args : gmap string any) (v : any) (st : Exec.t) : Exec.t * any * option ToolMetadata.t :=
  match parseMCPError (ToolEnv.decode_serf E) v with
  | Some (serf, errMsg) =>
      let '(st, res) := failed_text name reason ("mcp:" +:+ mcpID) (buildSERFRecovery name serf errMsg) st in (st, AString res, None)
  | None =>
      let st := tool_success name st in
      let st := if remote then st else st <| Exec.turnAttachments ::= λ l, dedupAttachments l (ToolEnv.attachments_of E v) |> in
      let status := match v with AMap m => default "ok" (as_string (amap_get m "status")) | _ => "ok" end in
      let md := ToolEnv.markdown E name v status ("mcp:" +:+ mcpID) reason in
      let md := if ToolEnv.MaxBodyChars E <? Z.of_nat (String.length md) then PruneOutput (Exec.sieve st) md (ToolEnv.Task E) else md in
      let st := if cacheable name
                then st <| Exec.cache ::= cache_Put (ToolEnv.clock E (Exec.history st)) mcpID (readCacheKey call_key mcpID name args) md |> else st in
      let md := ToolEnv.redactAndMarkUntrusted E md in
      let md := if ToolEnv.MaxBodyChars E <? Z.of_nat (String.length md) then ToolEnv.AdaptiveOutputResult E md name ("mcp:" +:+ mcpID) else md in
      let '(st, md) := steer name md (noteToolResult callKey md st) in
      let st := say md st in
      (if isStickyResult name then st <| Exec.stickyResults ::= λ l, l ++ [md] |> else st, v, if remote then None else ExtractMeta v)
  end.
(** A second try after a broken connection to a local server. *)
Definition send (mcpID : string) (m : MCPDef.t) (name : string) (args : gmap string any) (st : Exec.t) : Exec.t * mcp_reply :=
  let ask retry st := (dispatch (Dispatch.mk (TServer mcpID retry) name args) st, ToolEnv.mcp_answer E (Exec.history st) retry mcpID name args) in
  let '(st, r) := ask false st in
  match r with
  | MFailed _ true => if String.eqb (MCPDef.Command m) "" then (st, r) else ask true st
  | _ => (st, r)
  end.
Definition run_on_server (mcpID : string) (m : MCPDef.t) (callKey name reason : string) (args : gmap string any) (st : Exec.t) :
    Exec.t * any * option ToolMetadata.t :=
  let remote := String.eqb (MCPDef.Command m) "" in
  if remote && String.eqb (MCPDef.URL m) "" then
    let '(st, res) := failed_text name reason "orchestrator:cloud"
      (toolFailFeedback name ("MCP " +:+ mcpID +:+ " has neither a local command nor a remote URL configured for tool " +:+ name)) st in
    (st, AString res, None)
  else
    let '(st, r) := send mcpID m name args st in
    match r with
    | MFailed e _ =>
        let '(st, res) := failed_text name reason ("mcp:" +:+ mcpID)
          (toolFailFeedback name ((if remote then "Error executing remote tool " else "Error executing tool ") +:+ name +:+ ": " +:+ e)) st in
        (st, AString res, None)
    | MAnswered v => take_answer remote mcpID callKey name reason args v st
    end.
(** The end of a call: its effect, its trace, and the state it leads to. *)
Definition observe (name : string) (args traced : gmap string any) (result : any) (meta : option ToolMetadata.t) (st : Exec.t) : Exec.t :=
  let st := recordEffect name args (ToolEnv.show E result) "unknown" st in
  let st := record_trace (ToolInteraction.mk name traced result meta) st in
  let currentState := GenerateStateSignature (ToolEnv.digest E) name result in
  let st := st <| Exec.statesVisited ::= λ l, l ++ [currentState] |> in
  let st := if EvaluatePotentialDrop (ToolEnv.potential E) (Exec.previousState st) currentState then say (ToolEnv.intervention E currentState) st else st in
  st <| Exec.previousState := currentState |>.

Definition ToolCallReasonLLMInitiated : string := "tool call (LLM initiated)".
Definition write_nudge (name : string) : string :=
  "[" +:+ name +:+ "] This call changes external state. Before you rely on the result below, note: what is the current state, and is this write necessary? The call is being executed without a `_reason`; once the result below arrives, do NOT repeat this call — only reflect on whether further writes are needed.".
Definition write_blocked (name : string) : string :=
  "[" +:+ name +:+ "] AUTHORIZATION REQUIRED — this call changes external state." +:+ line_end +:+
  "Add a top-level key named " +:+ go_quote "_reason" +:+ " whose value is one short sentence." +:+ line_end +:+ "Call it again with this exact shape:" +:+ line_end +:+
  "  {" +:+ go_quote "reservation_id" +:+ ": " +:+ go_quote "<the id>" +:+ ", " +:+ go_quote "_reason" +:+ ": " +:+ go_quote "<why this write is correct>" +:+ "}".

Definition run_mcp (bindings : list MCPBinding.t) (turnDecisionID callKey : string) (call : ToolCall.t) (st : Exec.t) : Exec.t :=
  let name := ToolCall.Name call in
  let mcpID := ResolveToolMCP (ToolEnv.servers E) (ToolEnv.spawn_failed E) name bindings in
  let mcpDef := hub_GetMCP (ToolEnv.servers E) mcpID in
  let traced := copyToolCallArguments (ToolCall.Arguments call) turnDecisionID in
  let given := default "" (as_string (ToolCall.Arguments call !! "_reason")) in
  let '(reason, args) := if String.eqb given "" then (ToolCallReasonLLMInitiated, ToolCall.Arguments call)
                         else (given, delete "_reason" (ToolCall.Arguments call)) in
  let unreasoned := IsWriteMCPTool name && String.eqb reason ToolCallReasonLLMInitiated in
  if unreasoned && ToolEnv.RequireWriteReason E then
    let st := record_trace (ToolInteraction.mk name traced (AString (write_blocked name)) None) st in
    say (ToolEnv.markdown E name (AString (write_blocked name)) "error" "orchestrator" reason) st
  else
    let st := if unreasoned then say (ToolEnv.markdown E name (AString (write_nudge name)) "ok" "orchestrator" reason) st else st in
    match mcpDef with
    | None =>
        let '(st, res) := failed_text name reason "orchestrator" (toolFailFeedback name ("MCP server " +:+ mcpID +:+ " not found for tool " +:+ name)) st in
        record_trace (ToolInteraction.mk name traced (AString res) None) st
    | Some m =>
        let st := if isStateChangingTool name then st <| Exec.needsVerification := true |> else st in
        let msg := unknownToolFeedback name mcpID mcpDef in
        if negb (String.eqb msg "") then
          let '(st, res) := failed_text name reason "orchestrator" (toolFailFeedback name msg) st in
          record_trace (ToolInteraction.mk name traced (AString res) None) st
        else
          let st := if IsWriteMCPTool name || isStateChangingTool name then st <| Exec.cache ::= Invalidate mcpID |> else st in
          let args := if contains "search" (to_lower name) && negb (bool_decide (ToolEnv.Bookmarks E = []))
                      then <["_bookmarks" := AStrings (ToolEnv.Bookmarks E)]> args else args in
          let '(c, cached) := if cacheable name
                              then cache_Get (ToolEnv.clock E (Exec.history st)) mcpID (readCacheKey call_key mcpID name args) (Exec.cache st)
                              else (Exec.cache st, None) in
          let st := st <| Exec.cache := c |> in
          match cached with
          | Some md =>
              let '(st, md) := steer name md (noteToolResult callKey md st) in
              say md (record_trace (ToolInteraction.mk name traced (AString md) None) st)
          | None =>
              let '(st, result, meta) := run_on_server mcpID m callKey name reason args st in
              observe name args traced result meta st
          end
    end.

Definition SharedContextToolNames : list string := ["shared_context_write"; "shared_context_read"].
(** The arguments with what the step maps into them. *)
Definition with_inputs (call : ToolCall.t) : ToolCall.t :=
  ToolCall.mk (ToolCall.Name call) (ToolCall.Arguments call ∪ ToolEnv.InputMapping E).
Definition process_call (bindings : list MCPBinding.t) (turnDecisionID : string) (executed : gset string) (call : ToolCall.t) (st : Exec.t) : gset string * Exec.t :=
  let call := with_inputs call in
  let name := ToolCall.Name call in
  let callKey := call_key name (ToolCall.Arguments call) in
  let callCount := default 0 (Exec.toolCallCount st !! callKey) in
  let '(executed, st, v) := gate executed call st in
  match v with
  | Run =>
      (executed,
       match (if containsStr SharedContextToolNames name then ToolEnv.shared_reply E else None) with
       | Some reply => run_shared reply callKey call st
       | None => if is_core name then run_core callKey call st else run_mcp bindings turnDecisionID callKey call st
       end)
  | _ => (executed, say (refusal v name callCount) st)
  end.
Fixpoint process_calls (bindings : list MCPBinding.t) (turnDecisionID : string) (executed : gset string) (calls : list ToolCall.t) (st : Exec.t) : gset string * Exec.t :=
  match calls with
  | [] => (executed, st)
  | call :: calls =>
      let '(executed, st) := process_call bindings turnDecisionID executed call st in process_calls bindings turnDecisionID executed calls st
  end.
Definition processToolCalls (bindings : list MCPBinding.t) (turnDecisionID : string) (calls : list ToolCall.t) (st : Exec.t) : Exec.t :=
  (process_calls bindings turnDecisionID ∅ calls st).2.
(** The turns of a step: the routed bindings, the decision, the calls. *)
Definition run_turns (turns : list (list MCPBinding.t * string * list ToolCall.t)) (st : Exec.t) : Exec.t :=
  fold_left (λ st t, processToolCalls t.1.1 t.1.2 t.2 st) turns st.
End process.

(** * Properties *)

Section properties.
Context {SL : Sorter} (E : ToolEnv.t).
Abbreviation key := (call_key E).

Definition first_try (d : Dispatch.t) : bool := match Dispatch.to d with TServer _ true => false | _ => true end.
Definition key_of (d : Dispatch.t) : string := key (Dispatch.Name d) (Dispatch.Arguments d).
Definition streak (st : Exec.t) (k : string) : Z := default 0 (Exec.resultStreak st !! k).
Definition last_note (st : Exec.t) (k : string) : Z := default 0 (Exec.resultLastHash st !! k).
(** A part of a call with the key [k]: it notes an answer at most [n] times,
    dispatches at most [f] first tries, all calls with this key, and adds at least
    [l] results. *)
Record within (k : string) (n f l : nat) (st st' : Exec.t) : Prop := within_intro {
  within_count : Exec.toolCallCount st' = Exec.toolCallCount st;
  within_others : ∀ k', k' ≠ k ∨ n = 0%nat → streak st' k' = streak st k' ∧ last_note st' k' = last_note st k';
  within_streak : 0 <= streak st k → 0 <= streak st' k <= streak st k + Z.of_nat n;
  within_history : ∃ ds, Exec.history st' = Exec.history st ++ ds ∧ Forall (λ d, key_of d = k) ds ∧ (length (List.filter first_try ds) <= f)%nat;
  within_results : ∃ ls, Exec.toolResults st' = Exec.toolResults st ++ ls ∧ (l <= length ls)%nat }.

Lemma within_then k n1 f1 l1 n2 f2 l2 a b c : within k n1 f1 l1 a b → within k n2 f2 l2 b c → within k (n1 + n2) (f1 + f2) (l1 + l2) a c.
Proof.
  intros [C1 O1 S1 (d1 & H1 & K1 & L1) (r1 & R1 & M1)] [C2 O2 S2 (d2 & H2 & K2 & L2) (r2 & R2 & M2)]. split.
  - congruence.
  - intros k' Hk. destruct (O1 k') as [<- <-]; [destruct Hk; [by left|right; lia]|]. apply O2. destruct Hk; [by left|right; lia].
  - intros H. specialize (S1 H). specialize (S2 (proj1 S1)). lia.
  - exists (d1 ++ d2). split_and!; [by rewrite H2, H1, app_assoc|by apply Forall_app|rewrite List.filter_app, length_app; lia].
  - exists (r1 ++ r2). split; [by rewrite R2, R1, app_assoc|rewrite length_app; lia].
Qed.
Lemma within_weaken k n f l n' f' l' a b : within k n f l a b → (n <= n')%nat → (f <= f')%nat → (l' <= l)%nat → within k n' f' l' a b.
Proof.
  intros [C O S (d & H & K & L) (r & R & M)] Hn Hf Hl. split; [done| | | |].
  - intros k' Hk. apply O. destruct Hk; [by left|right; lia].
  - intros Hs. specialize (S Hs). lia.
  - exists d. split_and!; [done|done|lia].
  - exists r. split; [done|lia].
Qed.
(** A step that keeps the counts, the streaks and the history. *)
Lemma within_same k st st' ls :
  Exec.toolCallCount st' = Exec.toolCallCount st → Exec.resultStreak st' = Exec.resultStreak st → Exec.resultLastHash st' = Exec.resultLastHash st → Exec.history st' = Exec.history st →
  Exec.toolResults st' = Exec.toolResults st ++ ls → within k 0 0 (length ls) st st'.
Proof.
  intros C S N H R. split; [done|..|exists []; by rewrite app_nil_r|by exists ls].
  - intros k' _. unfold streak, last_note. by rewrite S, N.
  - unfold streak. rewrite S. lia.
Qed.
Lemma within_nothing k st : within k 0 0 0 st st.
Proof. apply (within_same k st st []); rewrite ?app_nil_r; done. Qed.
Lemma within_say k line st : within k 0 0 1 st (say line st).
Proof. by apply (within_same k st _ [line]). Qed.
Lemma within_keep k n f l a b st' : within k n f l a b →
  Exec.toolCallCount st' = Exec.toolCallCount b → Exec.resultStreak st' = Exec.resultStreak b → Exec.resultLastHash st' = Exec.resultLastHash b → Exec.history st' = Exec.history b →
  Exec.toolResults st' = Exec.toolResults b → within k n f l a st'.
Proof.
  intros H C S N Hh R. eapply within_weaken; [eapply (within_then k n f l 0 0 0); [exact H|]|lia..].
  apply (within_same k b st' []); rewrite ?app_nil_r; done.
Qed.
Lemma within_then_say k n f l a b line : within k n f l a b → within k n f (S l) a (say line b).
Proof. intros H. eapply within_weaken; [eapply (within_then k n f l 0 0 1); [exact H|apply within_say]|lia..]. Qed.
Lemma within_note k md st : within k 1 0 0 st (noteToolResult k md st).
Proof.
  unfold noteToolResult. destruct (_ || _); [eapply within_weaken; [apply within_nothing|lia..]|].
  destruct (_ =? _); split; try done; try (exists []; by rewrite app_nil_r).
  - intros k' [Hne|?]; [|done]. unfold streak, last_note, update. cbn. by rewrite ?lookup_insert_ne by done.
  - intros Hs. unfold streak in *. unfold update. cbn. rewrite lookup_insert_eq. cbn. lia.
  - intros k' [Hne|?]; [|done]. unfold streak, last_note, update. cbn. by rewrite ?lookup_insert_ne by done.
  - intros Hs. unfold streak in *. unfold update. cbn. rewrite lookup_insert_eq. cbn. lia.
Qed.
Lemma within_then_note k n f l a b md : within k n f l a b → within k (S n) f l a (noteToolResult k md b).
Proof. intros H. eapply within_weaken; [eapply (within_then k n f l 1 0 0); [exact H|apply within_note]|lia..]. Qed.
Lemma within_dispatch k d st : key_of d = k → within k 0 (if first_try d then 1 else 0) 0 st (dispatch d st).
Proof.
  intros Hk. split; [done|done| | |exists []; by rewrite app_nil_r].
  - change (streak (dispatch d st) k) with (streak st k). lia.
  - exists [d]. split_and!; [done|by repeat constructor|]. cbn. destruct (first_try d); cbn; lia.
Qed.

Lemma canonical_delete args : CanonicalToolArgs (delete "_reason" args) = CanonicalToolArgs args.
Proof.
  apply map_eq. intros i. unfold CanonicalToolArgs. destruct (decide (i = "_reason")) as [->|Hne].
  - apply option_eq. intros x. rewrite !map_lookup_filter_Some. cbn. naive_solver.
  - apply option_eq. intros x. rewrite !map_lookup_filter_Some. by rewrite lookup_delete_ne.
Qed.
Lemma canonical_insert k v args : has_prefix "_" k = true → CanonicalToolArgs (<[k := v]> args) = CanonicalToolArgs args.
Proof.
  intros Hk. apply map_eq. intros i. unfold CanonicalToolArgs. apply option_eq. intros x. rewrite !map_lookup_filter_Some. cbn [fst].
  destruct (decide (i = k)) as [->|Hne]; [rewrite Hk; naive_solver|]. by rewrite lookup_insert_ne.
Qed.
Lemma key_canonical name args args' : CanonicalToolArgs args = CanonicalToolArgs args' → key name args = key name args'.
Proof. unfold call_key, toolCallKey. by intros ->. Qed.

Lemma steer_within k n f l a b name md : within k n f l a b → let '(c, line) := steer E name md b in within k n f l a c.
Proof.
  intros H. unfold steer. destruct (steerRepeatedResult _ _ _ _ _ _) as [sv md']. by eapply within_keep; [exact H|..].
Qed.
Lemma failure_within k n f l a b name reason source mk : within k n f l a b → within k n f (S l) a (failed_text E name reason source mk b).1.
Proof.
  intros H. unfold failed_text, tool_failure. destruct (incrTaskToolFail _ _ _ _ _) as [fails eff].
  apply within_then_say. by eapply within_keep; [exact H|..].
Qed.
Lemma run_shared_within reply callKey call st : key (ToolCall.Name call) (ToolCall.Arguments call) = callKey →
  within callKey 1 1 1 st (run_shared E reply callKey call st).
Proof.
  intros Hk. unfold run_shared. destruct (reply _ _ _) as [res status]. set (d := Dispatch.mk TShared _ _).
  assert (within callKey 0 1 0 st (dispatch d st)) as H1 by exact (within_dispatch callKey d st Hk).
  set (st1 := record_trace _ _). assert (within callKey 0 1 0 st st1) as H2 by (by eapply within_keep; [exact H1|..]).
  apply within_then_say. destruct (String.eqb status "error"); [eapply within_weaken; [exact H2|lia..]|by apply within_then_note].
Qed.
Lemma run_core_within callKey call st : key (ToolCall.Name call) (ToolCall.Arguments call) = callKey →
  within callKey 1 1 1 st (run_core E callKey call st).
Proof.
  intros Hk. unfold run_core. destruct (ToolEnv.core_reply E _ _ _) as [res status]. set (d := Dispatch.mk TCore _ _).
  assert (within callKey 0 1 0 st (dispatch d st)) as H1 by exact (within_dispatch callKey d st Hk).
  set (st1 := recordEffect _ _ _ _ _). assert (within callKey 0 1 0 st st1) as H2 by (by eapply within_keep; [exact H1|..]).
  destruct (String.eqb status "error").
  - unfold tool_failure. destruct (incrTaskToolFail _ _ _ _ _) as [fails eff]. apply within_then_say.
    eapply within_weaken; [eapply within_keep; [exact H2|done..]|lia..].
  - cbv iota zeta. set (md := ToolEnv.markdown E _ _ _ _ _). set (st2 := record_trace _ _).
    assert (within callKey 1 1 0 st (noteToolResult callKey md st2)) as H3.
    { apply within_then_note. by eapply within_keep; [exact H2|..]. }
    pose proof (steer_within _ _ _ _ _ _ (ToolCall.Name call) md H3) as H4. destruct (steer _ _ _ _) as [c line]. by apply within_then_say.
Qed.
Lemma send_within mcpID m name args callKey st : key name args = callKey → within callKey 0 1 0 st (send E mcpID m name args st).1.
Proof.
  intros Hk. unfold send.
  assert (within callKey 0 1 0 st (dispatch (Dispatch.mk (TServer mcpID false) name args) st)) as H1
    by exact (within_dispatch callKey (Dispatch.mk (TServer mcpID false) name args) st Hk).
  destruct (ToolEnv.mcp_answer E _ _ _ _ _) as [e [|]|v]; cbn [fst]; [|done..].
  destruct (String.eqb _ _); cbn [fst]; [done|]. eapply (within_then _ 0 1 0 0 0 0); [exact H1|].
  exact (within_dispatch callKey (Dispatch.mk (TServer mcpID true) name args) _ Hk).
Qed.
Lemma take_answer_within remote mcpID callKey name reason args v a b l : within callKey 0 1 l a b →
  within callKey 1 1 (S l) a (take_answer E remote mcpID callKey name reason args v b).1.1.
Proof.
  intros H. unfold take_answer. destruct (parseMCPError _ v) as [[serf errMsg]|].
  - pose proof (failure_within _ _ _ _ _ _ name reason ("mcp:" +:+ mcpID) (buildSERFRecovery name serf errMsg) H) as H1.
    destruct (failed_text _ _ _ _ _ b) as [c res]. cbn [fst]. eapply within_weaken; [apply H1|lia..].
  - cbv zeta. set (md0 := if ToolEnv.MaxBodyChars E <? _ then PruneOutput _ _ _ else _).
    set (st1 := if cacheable name then _ else _).
    assert (within callKey 0 1 l a st1) as H1 by (unfold st1; destruct (cacheable name), remote; (by eapply within_keep; [exact H|..])).
    set (md := if ToolEnv.MaxBodyChars E <? _ then ToolEnv.AdaptiveOutputResult E _ _ _ else _).
    pose proof (steer_within _ _ _ _ _ _ name md (within_then_note _ _ _ _ _ _ md H1)) as H3. destruct (steer _ _ _ _) as [c line]. cbn [fst].
    apply (within_then_say _ _ _ _ _ _ line) in H3. destruct (isStickyResult name); [|exact H3]. by eapply within_keep; [exact H3|..].
Qed.
Lemma run_on_server_within mcpID m callKey name reason args st : key name args = callKey →
  within callKey 1 1 1 st (run_on_server E mcpID m callKey name reason args st).1.1.
Proof.
  intros Hk. unfold run_on_server. destruct (_ && _).
  - match goal with |- context [failed_text E name reason ?src ?mk st] => pose proof (failure_within callKey 0 0 0 st st name reason src mk (within_nothing _ _)) as H end.
    destruct (failed_text _ _ _ _ _ st) as [c res]. cbn [fst]. eapply within_weaken; [apply H|lia..].
  - pose proof (send_within mcpID m name args callKey st Hk) as H. destruct (send _ _ _ _ _ st) as [st1 r]. cbn [fst] in H.
    destruct r as [e conn|v]; [|by apply take_answer_within].
    match goal with |- context [failed_text E name reason ?src ?mk st1] => pose proof (failure_within _ _ _ _ _ _ name reason src mk H) as H1 end.
    destruct (failed_text _ _ _ _ _ st1) as [c res]. cbn [fst]. eapply within_weaken; [apply H1|lia..].
Qed.
Lemma observe_within k n f l a b name args traced result meta : within k n f l a b → within k n f l a (observe E name args traced result meta b).
Proof.
  intros H. unfold observe. cbv zeta. set (st1 := _ <| Exec.statesVisited ::= _ |>).
  assert (within k n f l a st1) as H1 by (by eapply within_keep; [exact H|..]).
  destruct (EvaluatePotentialDrop _ _ _); [|by eapply within_keep; [exact H1|..]].
  eapply within_weaken; [eapply within_keep; [eapply (within_then_say _ _ _ _ _ _ (ToolEnv.intervention E _)); exact H1|done..]|lia..].
Qed.
Lemma run_mcp_within bindings turnDecisionID callKey call st : key (ToolCall.Name call) (ToolCall.Arguments call) = callKey →
  within callKey 1 1 1 st (run_mcp E bindings turnDecisionID callKey call st).
Proof.
  intros Hk. unfold run_mcp. set (name := ToolCall.Name call) in *. set (mcpID := ResolveToolMCP _ _ _ _).
  set (traced := copyToolCallArguments _ _). set (given := default "" _).
  destruct (if String.eqb given "" then _ else _) as [reason args] eqn:Ea.
  assert (key name args = callKey) as Hk'.
  { rewrite <- Hk. destruct (String.eqb given ""); injection Ea as <- <-; [done|]. apply key_canonical, canonical_delete. }
  set (unreasoned := _ && String.eqb reason _). destruct (unreasoned && _).
  { eapply within_weaken; [apply within_then_say; eapply within_keep; [apply within_nothing|done..]|lia..]. }
  set (st1 := if unreasoned then _ else st).
  assert (within callKey 0 0 0 st st1) as H1.
  { unfold st1. destruct unreasoned; [eapply within_weaken; [apply within_say|lia..]|apply within_nothing]. }
  destruct (hub_GetMCP _ mcpID) as [m|].
  2:{ match goal with |- context [failed_text E name reason ?src ?mk st1] => pose proof (failure_within _ _ _ _ _ _ name reason src mk H1) as H2 end.
      destruct (failed_text _ _ _ _ _ st1) as [c res]. eapply within_weaken; [eapply within_keep; [exact H2|done..]|lia..]. }
  cbv zeta. set (st2 := if isStateChangingTool name then _ else st1).
  assert (within callKey 0 0 0 st st2) as H2 by (unfold st2; destruct (isStateChangingTool name); [by eapply within_keep; [exact H1|..]|done]).
  destruct (negb (String.eqb (unknownToolFeedback name mcpID _) "")).
  { match goal with |- context [failed_text E name reason ?src ?mk st2] => pose proof (failure_within _ _ _ _ _ _ name reason src mk H2) as H3 end.
    destruct (failed_text _ _ _ _ _ st2) as [c res]. eapply within_weaken; [eapply within_keep; [exact H3|done..]|lia..]. }
  set (st3 := if _ || _ then _ else st2).
  assert (within callKey 0 0 0 st st3) as H3 by (unfold st3; destruct (_ || _); [by eapply within_keep; [exact H2|..]|done]).
  set (args' := if _ && _ then <["_bookmarks" := _]> args else args).
  assert (key name args' = callKey) as Hk2.
  { rewrite <- Hk'. apply key_canonical. unfold args'. destruct (contains _ _ && _); [by apply canonical_insert|done]. }
  destruct (if cacheable name then _ else _) as [c cached].
  set (st4 := st3 <| Exec.cache := c |>). assert (within callKey 0 0 0 st st4) as H4 by (by eapply within_keep; [exact H3|..]).
  destruct cached as [md|].
  - pose proof (steer_within _ _ _ _ _ _ name md (within_then_note _ _ _ _ _ _ md H4)) as H5. destruct (steer _ _ _ _) as [c' line].
    eapply within_weaken; [apply within_then_say; eapply within_keep; [exact H5|done..]|lia..].
  - pose proof (run_on_server_within mcpID m name reason args' callKey st4 Hk2) as H5 || pose proof (run_on_server_within mcpID m callKey name reason args' st4 Hk2) as H5.
    destruct (run_on_server _ _ _ _ _ _ _ st4) as [[c' result] meta]. cbn [fst] in H5. apply observe_within.
    exact (within_then _ 0 0 0 1 1 1 _ _ _ H4 H5).
Qed.

(** ** A call *)

Definition reasoned_call (call : ToolCall.t) : bool :=
  negb (String.eqb (default "" (as_string (ToolCall.Arguments (with_inputs E call) !! "_reason"))) "").
Definition key_of_call (call : ToolCall.t) : string :=
  key (ToolCall.Name (with_inputs E call)) (ToolCall.Arguments (with_inputs E call)).
Definition counted (k : string) (st : Exec.t) : Exec.t := st <| Exec.toolCallCount ::= <[k := default 0 (Exec.toolCallCount st !! k) + 1]> |>.
Definition calls_so_far (st : Exec.t) (k : string) : Z := default 0 (Exec.toolCallCount st !! k).
(** A call is skipped with a text, or counted and run. *)
Lemma process_call_cases bindings turnDecisionID executed call st :
  let k := key_of_call call in
  let '(executed', st') := process_call E bindings turnDecisionID executed call st in
  (executed' = {[k]} ∪ executed ∧ ∃ line, st' = say line st) ∨
  (k ∉ executed ∧ executed' = {[k]} ∪ executed ∧ streak st k < dedupHardCap E ∧ (calls_so_far st k < 2 ∨ reasoned_call call = true) ∧
   within k 1 1 1 (counted k st) st').
Proof.
  intros k. unfold process_call, gate. set (c := with_inputs E call). set (name := ToolCall.Name c). set (args := ToolCall.Arguments c).
  change (call_key E name args) with k. unfold CheckAndMark. destruct (decide (k ∈ executed)) as [Hin|Hout].
  { cbv iota beta. left. split; [set_solver|by eexists]. }
  destruct (dedupHardCap E <=? _) eqn:Ecap; cbv iota beta zeta; [left; split; [done|by eexists]|].
  destruct ((2 <=? _) && _) eqn:Er; cbv iota beta zeta; [left; split; [done|by eexists]|].
  change (st <| Exec.toolCallCount ::= _ |>) with (counted k st).
  assert (calls_so_far st k < 2 ∨ reasoned_call call = true) as Hr.
  { unfold calls_so_far, reasoned_call. fold c args. apply andb_false_iff in Er as [Er|Er]; [left; lia|right; by rewrite Er]. }
  assert (streak st k < dedupHardCap E) as Hs by (unfold streak; lia).
  destruct (is_core name && _); cbv iota beta zeta; right.
  { split_and!; try done. eapply within_weaken; [apply within_say|lia..]. }
  split_and!; try done. destruct (if containsStr _ name then _ else _) as [reply|]; [by apply run_shared_within|].
  destruct (is_core name); [by apply run_core_within|by apply run_mcp_within].
Qed.
(** ** The calls of a turn, and of a step *)

Definition tries (k : string) (ds : list Dispatch.t) : nat := length (List.filter (λ d, first_try d && String.eqb (key_of d) k) ds).
Definition reasoned (k : string) (calls : list ToolCall.t) : nat :=
  length (List.filter (λ c, reasoned_call c && String.eqb (key_of_call c) k) calls).
Definition stuck (st : Exec.t) (k : string) : Prop := dedupHardCap E <= streak st k.
(** What a run of calls does to a state. *)
Record progress (calls : list ToolCall.t) (st st' : Exec.t) : Prop := progress_intro {
  progress_streak : (∀ k, 0 <= streak st k <= dedupHardCap E) → ∀ k, 0 <= streak st' k <= dedupHardCap E;
  progress_calls : ∀ k, calls_so_far st' k <= Z.max 2 (calls_so_far st k) + Z.of_nat (reasoned k calls);
  progress_history : ∃ ds, Exec.history st' = Exec.history st ++ ds ∧
    (∀ k, Z.of_nat (tries k ds) <= calls_so_far st' k - calls_so_far st k) ∧ ∀ k, stuck st k → stuck st' k ∧ Forall (λ d, key_of d ≠ k) ds;
  progress_results : ∃ ls, Exec.toolResults st' = Exec.toolResults st ++ ls ∧ (length calls <= length ls)%nat }.

Lemma tries_app k ds ds' : tries k (ds ++ ds') = (tries k ds + tries k ds')%nat.
Proof. unfold tries. by rewrite List.filter_app, length_app. Qed.
Lemma reasoned_app k cs cs' : reasoned k (cs ++ cs') = (reasoned k cs + reasoned k cs')%nat.
Proof. unfold reasoned. by rewrite List.filter_app, length_app. Qed.
Lemma tries_key k k' ds : Forall (λ d, key_of d = k) ds → tries k' ds = if decide (k' = k) then length (List.filter first_try ds) else 0%nat.
Proof.
  intros H. unfold tries. induction H as [|d ds Hd H IH]; [by destruct (decide _)|]. cbn [List.filter]. rewrite Hd.
  destruct (decide (k' = k)) as [->|Hne]; [rewrite String.eqb_refl|rewrite (proj2 (String.eqb_neq k k')) by congruence];
    destruct (first_try d); cbn [andb length]; congruence.
Qed.
Lemma progress_refl st : progress [] st st.
Proof.
  split; [done| |exists []|exists []; by rewrite app_nil_r].
  - intros k. cbn. lia.
  - split_and!; [by rewrite app_nil_r|intros; cbn; lia|by repeat constructor].
Qed.
Lemma progress_trans cs1 cs2 a b c : progress cs1 a b → progress cs2 b c → progress (cs1 ++ cs2) a c.
Proof.
  intros [S1 C1 (d1 & H1 & T1 & K1) (r1 & R1 & M1)] [S2 C2 (d2 & H2 & T2 & K2) (r2 & R2 & M2)]. split; [auto|..].
  - intros k. specialize (C1 k). specialize (C2 k). rewrite reasoned_app. lia.
  - exists (d1 ++ d2). split_and!; [by rewrite H2, H1, app_assoc| |].
    + intros k. specialize (T1 k). specialize (T2 k). rewrite tries_app. lia.
    + intros k Hk. destruct (K1 k Hk) as [Hb F1]. destruct (K2 k Hb) as [Hc F2]. split; [done|by apply Forall_app].
  - exists (r1 ++ r2). split; [by rewrite R2, R1, app_assoc|rewrite !length_app; lia].
Qed.
Lemma dedupHardCap_positive : 0 < dedupHardCap E.
Proof. unfold dedupHardCap, defaultDedupHardCap. destruct (0 <? _) eqn:H; lia. Qed.
Lemma calls_counted k k' st : calls_so_far (counted k st) k' = calls_so_far st k' + if decide (k' = k) then 1 else 0.
Proof.
  unfold calls_so_far, counted, update. cbn. destruct (decide (k' = k)) as [->|Hne]; [by rewrite lookup_insert_eq|]. rewrite lookup_insert_ne by done. lia.
Qed.
Lemma reasoned_one call k : reasoned k [call] = if reasoned_call call && String.eqb (key_of_call call) k then 1%nat else 0%nat.
Proof. unfold reasoned. cbn [List.filter]. by destruct (_ && _). Qed.
Lemma skipped_progress call line st : progress [call] st (say line st).
Proof.
  split; [done|intros k; unfold calls_so_far; cbn; lia|exists []|by exists [line]].
  split_and!; [by rewrite app_nil_r|intros k; unfold calls_so_far; cbn; lia|by repeat constructor].
Qed.
Lemma counted_progress call st st' : let k := key_of_call call in
  streak st k < dedupHardCap E → calls_so_far st k < 2 ∨ reasoned_call call = true →
  within k 1 1 1 (counted k st) st' → progress [call] st st'.
Proof.
  intros k Hcap Hr [C O S (ds & H & K & L) (ls & R & M)].
  change (Exec.history (counted k st)) with (Exec.history st) in H. change (Exec.toolResults (counted k st)) with (Exec.toolResults st) in R.
  assert (∀ k', calls_so_far st' k' = calls_so_far st k' + if decide (k' = k) then 1 else 0) as Hc.
  { intros k'. rewrite <- (calls_counted k k' st). unfold calls_so_far. by rewrite C. }
  assert (∀ k', k' ≠ k → streak st' k' = streak st k') as Ho by (intros k' Hne; apply (O k'); by left).
  split; [|intros k'|exists ds|by exists ls].
  - intros Hs k'. destruct (decide (k' = k)) as [->|Hne]; [|by rewrite Ho]. change (streak (counted k st) k) with (streak st k) in S.
    specialize (S (proj1 (Hs k))). lia.
  - rewrite Hc, reasoned_one. fold k. destruct (decide (k' = k)) as [->|Hne]; [|lia]. rewrite String.eqb_refl, andb_true_r.
    destruct Hr as [Hr|Hr]; [destruct (reasoned_call call); lia|rewrite Hr; lia].
  - split_and!; [done|intros k'; rewrite (tries_key _ _ _ K), Hc; destruct (decide _); lia|]. intros k' Hk'.
    destruct (decide (k' = k)) as [->|Hne]; [unfold stuck in Hk'; lia|]. split; [unfold stuck; by rewrite Ho|].
    eapply Forall_impl; [exact K|]. cbn. congruence.
Qed.
Lemma process_calls_progress bindings turnDecisionID calls : ∀ executed st,
  progress calls st (process_calls E bindings turnDecisionID executed calls st).2.
Proof.
  induction calls as [|call calls IH]; intros executed st; cbn [process_calls]; [apply progress_refl|].
  pose proof (process_call_cases bindings turnDecisionID executed call st) as H. destruct (process_call _ _ _ _ _ _) as [executed1 st1].
  apply (progress_trans [call] calls _ st1); [|apply IH].
  destruct H as [[_ [line ->]]|(_ & _ & Hcap & Hr & H)]; [apply skipped_progress|by apply counted_progress].
Qed.
Lemma run_turns_progress turns : ∀ st, progress (mjoin (snd <$> turns)) st (run_turns E turns st).
Proof.
  induction turns as [|[[bs d] calls] turns IH]; intros st; [apply progress_refl|].
  apply (progress_trans calls _ _ (processToolCalls E bs d calls st)); [apply process_calls_progress|apply IH].
Qed.
Lemma process_calls_distinct bindings turnDecisionID calls : ∀ executed st,
  ∃ ds, Exec.history (process_calls E bindings turnDecisionID executed calls st).2 = Exec.history st ++ ds ∧
    NoDup (key_of <$> List.filter first_try ds) ∧ ∀ d, d ∈ ds → key_of d ∉ executed.
Proof.
  induction calls as [|call calls IH]; intros executed st; cbn [process_calls].
  { exists []. split_and!; [by rewrite app_nil_r|constructor|by intros d Hd%not_elem_of_nil]. }
  pose proof (process_call_cases bindings turnDecisionID executed call st) as H. destruct (process_call _ _ _ _ _ _) as [executed1 st1].
  destruct (IH executed1 st1) as (ds & -> & Hn & Hd). destruct H as [[-> [line ->]]|(Hout & -> & _ & _ & [_ _ _ (ds1 & -> & K & L) _])].
  - exists ds. split_and!; [done|done|]. intros d H. specialize (Hd d H). set_solver.
  - exists (ds1 ++ ds). split_and!; [by rewrite app_assoc| |].
    + rewrite List.filter_app, fmap_app. apply NoDup_app. split_and!; [| |done].
      * destruct (List.filter first_try ds1) as [|x [|y l]]; cbn in *; [constructor|apply NoDup_singleton|lia].
      * intros k (d & -> & H1)%list_elem_of_fmap (d' & E' & H2)%list_elem_of_fmap. apply elem_of_filter_list in H1 as [_ H1], H2 as [_ H2].
        rewrite Forall_forall in K. specialize (Hd d' H2). rewrite <- E', (K d H1) in Hd. set_solver.
    + intros d [H|H]%elem_of_app; [|specialize (Hd d H); set_solver]. rewrite Forall_forall in K. by rewrite (K d H).
Qed.

(** ** A call that always answers the same *)

(** Who answers a tool that is not a server's. *)
Definition own_reply (name : string) : option (list Dispatch.t → string → gmap string any → string * string) :=
  match (if containsStr SharedContextToolNames name then ToolEnv.shared_reply E else None) with
  | Some reply => Some reply
  | None => if is_core name then Some (ToolEnv.core_reply E) else None
  end.
(** Every call with the key [k] is of a built-in tool or one of the shared context,
    and it never fails and always reads the same, whatever was dispatched before. *)
Definition steady (k md : string) : Prop := k ≠ "" ∧ md ≠ "" ∧ ∀ name args h, key name args = k →
  ∃ reply res status, own_reply name = Some reply ∧ reply h name args = (res, status) ∧ status ≠ "error" ∧
    ToolEnv.markdown E name (AString res) status "orchestrator" "" = md.
(** The answer to [k] was noted [n] times in a row. *)
Definition repeated (k md : string) (n : nat) (st : Exec.t) : Prop := streak st k = Z.of_nat n ∧ (n = 0%nat ∨ last_note st k = fnv (bytes md)).
Lemma repeated_same k md n st st' : repeated k md n st → Exec.resultStreak st' = Exec.resultStreak st → Exec.resultLastHash st' = Exec.resultLastHash st → repeated k md n st'.
Proof. unfold repeated, streak, last_note. by intros H -> ->. Qed.
Lemma note_repeated k md n st : k ≠ "" → md ≠ "" → repeated k md n st → repeated k md (S n) (noteToolResult k md st).
Proof.
  intros Hk Hmd [Hs Hl]. unfold noteToolResult. rewrite (proj2 (String.eqb_neq md "") Hmd), (proj2 (String.eqb_neq k "") Hk). cbn [orb]. cbv zeta.
  unfold streak, last_note in *. destruct (default 0 (Exec.resultLastHash st !! k) =? fnv (bytes md)) eqn:E1; unfold repeated, streak, last_note, update; cbn; rewrite ?lookup_insert_eq; cbn.
  - apply Z.eqb_eq in E1. split; [lia|by right].
  - destruct Hl as [->|Hl]; [by split; [|right]|]. rewrite Hl, Z.eqb_refl in E1. discriminate.
Qed.
Lemma note_history k md st : Exec.history (noteToolResult k md st) = Exec.history st.
Proof. unfold noteToolResult. destruct (_ || _); [done|]. cbv zeta. by destruct (default _ _ =? _). Qed.
Lemma run_shared_repeated reply k md n call st res status : k ≠ "" → md ≠ "" → reply (Exec.history st) (ToolCall.Name call) (ToolCall.Arguments call) = (res, status) →
  status ≠ "error" → ToolEnv.markdown E (ToolCall.Name call) (AString res) status "orchestrator" "" = md → repeated k md n st →
  repeated k md (S n) (run_shared E reply k call st) ∧ Exec.history (run_shared E reply k call st) = Exec.history st ++ [Dispatch.mk TShared (ToolCall.Name call) (ToolCall.Arguments call)].
Proof.
  intros Hk Hmd Hr He Hm H. unfold run_shared. rewrite Hr, (proj2 (String.eqb_neq status "error") He), Hm. cbv zeta. set (st1 := record_trace _ _).
  assert (repeated k md n st1) as H1 by (by eapply repeated_same). pose proof (note_repeated k md n st1 Hk Hmd H1) as H2. split; [by eapply repeated_same|].
  change (Exec.history (noteToolResult k md st1) = Exec.history st ++ [Dispatch.mk TShared (ToolCall.Name call) (ToolCall.Arguments call)]).
  by rewrite note_history.
Qed.
Lemma run_core_repeated k md n call st res status : k ≠ "" → md ≠ "" → ToolEnv.core_reply E (Exec.history st) (ToolCall.Name call) (ToolCall.Arguments call) = (res, status) →
  status ≠ "error" → ToolEnv.markdown E (ToolCall.Name call) (AString res) status "orchestrator" "" = md → repeated k md n st →
  repeated k md (S n) (run_core E k call st) ∧ Exec.history (run_core E k call st) = Exec.history st ++ [Dispatch.mk TCore (ToolCall.Name call) (ToolCall.Arguments call)].
Proof.
  intros Hk Hmd Hr He Hm H. unfold run_core. rewrite Hr. cbv zeta. rewrite (proj2 (String.eqb_neq status "error") He). cbv iota. rewrite Hm. set (st1 := record_trace _ _).
  assert (repeated k md n st1) as H1 by (by eapply repeated_same). pose proof (note_repeated k md n st1 Hk Hmd H1) as H2.
  assert (Exec.history (noteToolResult k md st1) = Exec.history st ++ [Dispatch.mk TCore (ToolCall.Name call) (ToolCall.Arguments call)]) as H3
    by (by rewrite note_history).
  unfold steer. destruct (steerRepeatedResult _ _ _ _ _ _) as [sv md']. split; [by eapply repeated_same|exact H3].
Qed.
Lemma tries_one k d : key_of d = k → first_try d = true → tries k [d] = 1%nat.
Proof. intros Hk Hf. rewrite (tries_key k k [d]) by (by constructor). rewrite decide_True by done. cbn. by rewrite Hf. Qed.
(** The dispatches of such a call are what is noted of it, and stop at the cap. *)
Definition bounded_by (k md : string) (n : nat) (st st' : Exec.t) : Prop := ∃ ds, Exec.history st' = Exec.history st ++ ds ∧
  repeated k md (n + tries k ds) st' ∧ Z.of_nat (n + tries k ds) <= dedupHardCap E.
Lemma bounded_refl k md n st st' : repeated k md n st → Z.of_nat n <= dedupHardCap E → Exec.history st' = Exec.history st →
  streak st' k = streak st k → last_note st' k = last_note st k → bounded_by k md n st st'.
Proof.
  intros H Hn Hh Hs Hl. exists []. rewrite Hh, app_nil_r, Nat.add_0_r. split_and!; [done| |exact Hn]. unfold repeated. by rewrite Hs, Hl.
Qed.
Lemma process_call_steady bindings turnDecisionID executed call k md n st : steady k md → repeated k md n st → Z.of_nat n <= dedupHardCap E →
  bounded_by k md n st (process_call E bindings turnDecisionID executed call st).2.
Proof.
  intros (Hk & Hmd & Hst) H Hn. pose proof (process_call_cases bindings turnDecisionID executed call st) as Hc.
  destruct (decide (key_of_call call = k)) as [Ek|Hne].
  2:{ destruct (process_call _ _ _ _ _ _) as [executed' st']. cbn [snd]. destruct Hc as [[_ [line ->]]|(_ & _ & _ & _ & [_ O _ (ds & Hh & K & _) _])]; [by apply bounded_refl|].
      destruct (O k ltac:(by left)) as [O1 O2]. exists ds. rewrite (tries_key _ _ _ K), decide_False by (by intros ->). rewrite Nat.add_0_r. split_and!; [exact Hh| |exact Hn].
      unfold repeated. rewrite O1, O2. exact H. }
  clear Hc. unfold process_call, gate. cbv zeta. set (c := with_inputs E call). unfold key_of_call in Ek. fold c in Ek.
  change (call_key E (ToolCall.Name c) (ToolCall.Arguments c)) with (key (ToolCall.Name c) (ToolCall.Arguments c)). rewrite !Ek.
  unfold CheckAndMark. destruct (decide (k ∈ executed)); [by apply bounded_refl|]. cbv iota. destruct (dedupHardCap E <=? _) eqn:Ecap; [by apply bounded_refl|].
  cbv iota. destruct (_ && _); [by apply bounded_refl|]. cbv iota. set (st1 := st <| Exec.toolCallCount ::= _ |>).
  assert (repeated k md n st1) as H1 by (by eapply repeated_same).
  assert (Z.of_nat n < dedupHardCap E) as Hlt by (destruct H as [H _]; unfold streak in H; lia).
  destruct (is_core (ToolCall.Name c) && _); [by apply bounded_refl|]. cbv iota. cbn [snd].
  destruct (Hst _ _ (Exec.history st1) Ek) as (reply & res & status & Ho & Hr & He & Hm). unfold own_reply in Ho.
  destruct (if containsStr _ _ then _ else _) as [sh|].
  - injection Ho as <-. destruct (run_shared_repeated sh k md n c st1 res status Hk Hmd Hr He Hm H1) as [R1 R2].
    eexists. split; [exact R2|]. rewrite tries_one, Nat.add_1_r by done. split; [exact R1|lia].
  - destruct (is_core (ToolCall.Name c)); [|discriminate Ho]. injection Ho as <-. destruct (run_core_repeated k md n c st1 res status Hk Hmd Hr He Hm H1) as [R1 R2].
    eexists. split; [exact R2|]. rewrite tries_one, Nat.add_1_r by done. split; [exact R1|lia].
Qed.
Lemma bounded_then k md n a b c (Hab : bounded_by k md n a b) :
  (∀ m, repeated k md m b → Z.of_nat m <= dedupHardCap E → bounded_by k md m b c) → bounded_by k md n a c.
Proof.
  intros Hbc. destruct Hab as (d1 & H1 & R1 & L1), (Hbc _ R1 L1) as (d2 & H2 & R2 & L2). exists (d1 ++ d2).
  rewrite tries_app, Nat.add_assoc, H2, H1, <- app_assoc. done.
Qed.
Lemma process_calls_steady bindings turnDecisionID k md calls : steady k md → ∀ executed n st, repeated k md n st → Z.of_nat n <= dedupHardCap E →
  bounded_by k md n st (process_calls E bindings turnDecisionID executed calls st).2.
Proof.
  intros Hst. induction calls as [|call calls IH]; intros executed n st H Hn; cbn [process_calls]; [by apply bounded_refl|].
  pose proof (process_call_steady bindings turnDecisionID executed call k md n st Hst H Hn) as H1. destruct (process_call _ _ _ _ _ _) as [executed1 st1].
  eapply bounded_then; [exact H1|]. intros m Hm Hl. by apply IH.
Qed.
Lemma run_turns_steady k md turns : steady k md → ∀ n st, repeated k md n st → Z.of_nat n <= dedupHardCap E → bounded_by k md n st (run_turns E turns st).
Proof.
  intros Hst. induction turns as [|[[bs d] calls] turns IH]; intros n st H Hn; [by apply bounded_refl|]. cbn [run_turns fold_left].
  eapply bounded_then; [by apply (process_calls_steady bs d k md calls Hst ∅ n st)|]. intros m Hm Hl. by apply IH.
Qed.
End properties.

(** The calls of a turn: each adds at least one text for the model and takes
    none away, and no call is dispatched twice as the same call, but for a second
    try over a broken connection. *)
Theorem every_call_answered {SL : Sorter} (E : ToolEnv.t) bindings turnDecisionID calls st :
  let st' := processToolCalls E bindings turnDecisionID calls st in
  (∃ ls, Exec.toolResults st' = Exec.toolResults st ++ ls ∧ (length calls <= length ls)%nat) ∧
  ∃ ds, Exec.history st' = Exec.history st ++ ds ∧ NoDup (key_of E <$> List.filter first_try ds).
Proof.
  split; [apply process_calls_progress|].
  destruct (process_calls_distinct E bindings turnDecisionID calls ∅ st) as (ds & H & Hn & _). by exists ds.
Qed.

(** C28: A step cannot repeat itself for ever.  Over its turns, from counts that start
    empty, a call with the same tool and arguments is dispatched at most twice, and
    once more for each time it gives a reason -- a second try over a broken connection
    apart.  Reasons do not help where the answer stays the same: a call of a built-in
    tool or one of the shared context that never fails and always reads the same is
    dispatched at most [dedupHardCap] times over the whole step, whatever reasons it
    gives.  And once any call was answered the same that often in a row, no later turn
    dispatches it.  Failed calls are not counted as answers ([failures_uncapped]). *)
Theorem repeats_capped {SL : Sorter} (E : ToolEnv.t) turns later st :
  Exec.toolCallCount st = ∅ → Exec.resultStreak st = ∅ →
  let st' := run_turns E turns st in
  (∃ ds, Exec.history st' = Exec.history st ++ ds ∧
    (∀ k, (tries E k ds <= 2 + reasoned E k (mjoin (snd <$> turns)))%nat) ∧
    ∀ k md, steady E k md → Z.of_nat (tries E k ds) <= dedupHardCap E) ∧
  (∀ k, streak st' k <= dedupHardCap E) ∧
  ∀ k, streak st' k = dedupHardCap E →
    ∃ ds, Exec.history (run_turns E later st') = Exec.history st' ++ ds ∧ Forall (λ d, key_of E d ≠ k) ds.
Proof.
  intros Hc Hs. cbv zeta. pose proof (dedupHardCap_positive E) as Hp.
  assert (∀ k md, steady E k md → bounded_by E k md 0 st (run_turns E turns st)) as Hb.
  { intros k md Hk. apply run_turns_steady; [exact Hk| |lia]. split; [|by left]. unfold streak. by rewrite Hs, lookup_empty. }
  set (st' := run_turns E turns st) in *. destruct (run_turns_progress E turns st) as [S C (ds & H & T & _) _].
  fold st' in S, C, H, T. split_and!.
  - exists ds. split_and!; [done| |].
    + intros k. specialize (C k). specialize (T k). unfold calls_so_far in *. rewrite Hc, lookup_empty in *. cbn in *. lia.
    + intros k md Hk. destruct (Hb k md Hk) as (ds' & H' & _ & L). rewrite H in H'. apply app_inv_head in H' as ->. exact L.
  - intros k. apply S. intros k'. unfold streak. rewrite Hs, lookup_empty. cbn. lia.
  - intros k Hk. destruct (run_turns_progress E later st') as [_ _ (ds' & H' & _ & K) _]. exists ds'. split; [done|].
    apply K. unfold stuck. lia.
Qed.

(** ** Examples *)

(** One local server; it answers with the number of calls dispatched, or breaks
    the connection the first time. *)
Definition ex_env (breaks : bool) (changing : bool) : ToolEnv.t :=
  ToolEnv.mk "t" "s" "worker" "look" ∅ None false 0 [] 10000
    (Servers.mk {["files" := MCPDef.mk false [] ["read_file"; "delete_file"] [] None "run" ""]} ∅) (λ _, false)
    (λ h _ _, ("ran", "ok")) None
    (λ h retry _ _ _, if breaks && negb retry then MFailed "broken pipe" true else MAnswered (AString (if changing then pretty (length h) else "same")))
    (λ h, 1000 * Z.of_nat (length h)) (λ _ v _ _ _, match v with AString s => s | _ => "" end) id (λ s _ _, s)
    (λ m, bytes <$> as_string (m !! "path")) id id (λ _, "") (λ _, None) (λ _, []) None (λ _, "") (λ _, []).
Definition ex_start : Exec.t := Exec.mk [] [] [] ∅ ∅ ∅ ∅ false [] [] "" (NewSieve 0) NewDomainToolReadCache ∅ [] [].
Definition ex_call (tool path reason : string) : ToolCall.t :=
  ToolCall.mk tool (if String.eqb reason "" then {["path" := AString path]} else {["path" := AString path; "_reason" := AString reason]}).
Definition ex_turn (call : ToolCall.t) : list MCPBinding.t * string * list ToolCall.t := ([MCPBinding.mk "files" [] []], "", [call]).
Definition run_ex (breaks changing : bool) (turns : list (list MCPBinding.t * string * list ToolCall.t)) : Exec.t :=
  run_turns (SL := insertion_sorter) (ex_env breaks changing) turns ex_start.

Definition ex_loop : list (list MCPBinding.t * string * list ToolCall.t) := replicate 7 (ex_turn (ex_call "execute_code" "a" "again")).
(** The key of a call without arguments names its tool. *)
Lemma bare_key E name args tool : key_of E (Dispatch.mk TCore name args) = tool +:+ ":" → name = tool.
Proof.
  assert (∀ x, ":"%char ∉ bytes x → name +:+ ":" +:+ x = tool +:+ ":" → name = tool) as Hx.
  { intros x Hn E1%(f_equal bytes). rewrite !bytes_app in E1. apply bytes_inj. destruct (bytes x) as [|c l _] using rev_ind.
    - rewrite app_nil_r in E1. by apply app_inj_tail in E1 as [E1 _].
    - rewrite !app_assoc in E1. apply app_inj_tail in E1 as [_ E1]. exfalso. apply Hn, elem_of_app. right. rewrite E1. by constructor. }
  unfold key_of, call_key, toolCallKey. cbn [Dispatch.Name Dispatch.Arguments]. cbv zeta. destruct (decide _); [apply (Hx ""), not_elem_of_nil|].
  destruct (ToolEnv.marshal E _) as [l|]; [|apply (Hx "unmarshalable"); by apply (bool_decide_unpack _)].
  apply Hx, digit_text_not; [done|]. apply pretty_digits. unfold fnv. destruct l as [|c l _] using rev_ind; [done|].
  rewrite foldl_app. cbn [foldl]. unfold fnv_step at 1. by apply Z.mod_pos_bound.
Qed.
Definition ex_again : list (list MCPBinding.t * string * list ToolCall.t) := replicate 7 (ex_turn (ToolCall.mk "execute_code" {["_reason" := AString "again"]})).
(** Seven calls, each with a reason, of a tool that always says the same: five are
    dispatched. *)
Lemma repeats_capped_witness :
  Exec.toolCallCount ex_start = ∅ ∧ Exec.resultStreak ex_start = ∅ ∧ steady (ex_env false false) "execute_code:" "ran" ∧
  length (Exec.history (run_ex false false ex_again)) = 5%nat ∧
  (∃ ds, Exec.history (run_ex false false ex_again) = Exec.history ex_start ++ ds ∧ Z.of_nat (tries (ex_env false false) "execute_code:" ds) <= 5).
Proof.
  assert (steady (ex_env false false) "execute_code:" "ran") as Hk.
  { split_and!; [done..|]. intros name args h ->%(bare_key (ex_env false false) name args "execute_code"). by exists (ToolEnv.core_reply (ex_env false false)), "ran", "ok". }
  split_and!; [reflexivity..|exact Hk|vm_compute; reflexivity|].
  destruct (repeats_capped (SL := insertion_sorter) (ex_env false false) ex_again [] ex_start eq_refl eq_refl) as [(ds & H & _ & Hs) _].
  exists ds. split; [exact H|]. exact (Hs "execute_code:" "ran" Hk).
Defined.
(** A tool whose calls fail may be called for ever, given reasons: nothing is noted. *)
Definition failing_env : ToolEnv.t :=
  ToolEnv.mk "t" "s" "worker" "look" ∅ None false 0 [] 10000 (Servers.mk ∅ ∅) (λ _, false) (λ h _ _, ("no such file", "error")) None (λ _ _ _ _ _, MAnswered ANil)
    (λ h, 0) (λ _ v _ _ _, match v with AString s => s | _ => "" end) id (λ s _ _, s) (λ m, None) id id (λ _, "") (λ _, None) (λ _, []) None (λ _, "") (λ _, []).
Example failures_uncapped :
  length (Exec.history (run_turns (SL := insertion_sorter) failing_env (replicate 20 (ex_turn (ex_call "execute_code" "a" "again"))) ex_start)) = 20%nat ∧
  dedupHardCap failing_env = 5.
Proof. vm_compute. done. Qed.

(** A connection that breaks after the server acted: the write is sent again. *)
Example broken_connection_repeats_write :
  let st := run_ex true false [ex_turn (ex_call "delete_file" "a" "it is stale")] in
  Dispatch.to <$> Exec.history st = [TServer "files" false; TServer "files" true] ∧ (Dispatch.Name <$> Exec.history st) = ["delete_file"; "delete_file"] ∧
  Exec.toolResults st = ["same"].
Proof. vm_compute. split_and!; reflexivity. Qed.
(** Two answers that differ are called identical; the fourth call is the 4rd. *)
Example unlike_answers_called_identical :
  let st := run_ex false true (ex_turn <$> [ex_call "delete_file" "a" "x"; ex_call "delete_file" "a" "x"; ex_call "delete_file" "a" "x"; ex_call "delete_file" "a" ""]) in
  has_prefix "[delete_file] This is the 4rd identical call with the same arguments. Previous results were identical." (default "" (last (Exec.toolResults st))) = true ∧
  take 3 (Exec.toolResults st) = ["0"; "1"; "2"].
Proof. vm_compute. split; reflexivity. Qed.
(** The text of the cap counts the blocked call among those that have run. *)
Example cap_counts_blocked_call :
  has_prefix "[execute_code] Blocked: this exact call — same tool, same arguments — has now run 6 times" (default "" (Exec.toolResults (run_ex false false ex_loop) !! 5%nat)) = true.
Proof. vm_compute. reflexivity. Qed.
(** An argument whose name starts with an underscore is no argument: calls that
    differ there count as one. *)
Example hidden_argument_merges :
  let call p := ToolCall.mk "execute_code" {["_path" := AString p]} in
  Exec.toolResults (run_ex false false [([], "", [call "a"; call "b"])]) =
  ["ran"; "[execute_code] Skipped: identical call already executed in this turn (A1 idempotency defense)."].
Proof. vm_compute. reflexivity. Qed.
