(* ===== verification/RateLimit.v ===== *)
(** * The request limiter (pkg/ratelimit/leaky_bucket.go)

    A provider with a limit of requests per minute reserves a slot for each
    request; the request sleeps until its slot.  The reservation is one critical
    section, so concurrent callers are a sequence of calls.  Instants are
    nanoseconds since the zero time. *)
From S2P Require Import Prelude Cron.
Local Open Scope Z_scope.

Module LeakyBucket.
Record t := mk { interval : Z; lastLeak : Z }.
#[global] Instance eta : Eta t := λ r, mk (interval r) (lastLeak r).
End LeakyBucket.

Definition NewLeakyBucket (rpm : Z) : option LeakyBucket.t :=
  if rpm <=? 0 then None else Some (LeakyBucket.mk (Minute ÷ rpm) 0).

(** The critical section of [Wait] at the instant [now]: the slot reserved. *)
Definition reserve (b : LeakyBucket.t) (now : Z) : LeakyBucket.t * Z :=
  let last := if LeakyBucket.lastLeak b =? 0 then now - LeakyBucket.interval b else LeakyBucket.lastLeak b in
  let nextLeak := last + LeakyBucket.interval b in
  let nextLeak :=
    if nextLeak + LeakyBucket.interval b <? now then now
    else if nextLeak <? now then now else nextLeak in
  (b <| LeakyBucket.lastLeak := nextLeak |>, nextLeak).

Inductive wait_result := Passed (at_ : Z) | ContextDone (at_ : Z).
(** [Wait]: [until] is the clock when the delay is computed, [cancel] the
    instant the context ends, if it does. *)
Definition Wait (b : LeakyBucket.t) (now until : Z) (cancel : option Z) : LeakyBucket.t * wait_result :=
  let '(b, slot) := reserve b now in
  (b,
   if slot - until <=? 0 then Passed until
   else match cancel with
        | Some c => if c <? slot then ContextDone (Z.max until c) else Passed slot
        | None => Passed slot
        end).

(** Calls at the given instants, and their slots. *)
Fixpoint slots (b : LeakyBucket.t) (nows : list Z) : list Z :=
  match nows with
  | [] => []
  | now :: nows' => let '(b, s) := reserve b now in s :: slots b nows'
  end.

(** ** The rate *)

Lemma reserve_spec b now :
  0 <= LeakyBucket.interval b →
  (reserve b now).2 = (if LeakyBucket.lastLeak b =? 0 then now else Z.max now (LeakyBucket.lastLeak b + LeakyBucket.interval b)) ∧
  LeakyBucket.lastLeak (reserve b now).1 = (reserve b now).2 ∧ LeakyBucket.interval (reserve b now).1 = LeakyBucket.interval b.
Proof.
  intros Hi. unfold reserve. cbv zeta. cbn. split; [|done].
  destruct (Z.eqb_spec (LeakyBucket.lastLeak b) 0);
    repeat match goal with |- context [?x <? ?y] => destruct (Z.ltb_spec x y) end; lia.
Qed.

(** Consecutive slots are an interval apart, and no slot lies before its call. *)
Definition spaced (d : Z) (l : list Z) : Prop := ∀ i x y, l !! i = Some x → l !! S i = Some y → x + d <= y.
Lemma slots_spec nows : ∀ b,
  0 <= LeakyBucket.interval b → Forall (λ n, 0 < n) nows →
  spaced (LeakyBucket.interval b) (slots b nows) ∧ Forall2 Z.le nows (slots b nows) ∧
  (∀ s, head (slots b nows) = Some s → LeakyBucket.lastLeak b ≠ 0 → LeakyBucket.lastLeak b + LeakyBucket.interval b <= s).
Proof.
  induction nows as [|now nows IH]; intros b Hi Hpos; cbn [slots].
  { split_and!; [by intros i x y ?|constructor|done]. }
  apply Forall_cons in Hpos as [Hnow Hpos]. destruct (reserve_spec b now Hi) as (E1 & E2 & E3).
  destruct (reserve b now) as [b1 s]. cbn [fst snd] in *.
  assert (now <= s) as Hs by (destruct (LeakyBucket.lastLeak b =? 0); lia).
  destruct (IH b1 ltac:(lia) Hpos) as (H1 & H2 & H3). split_and!.
  - intros [|i] x y; [|rewrite <- E3; apply H1]. intros [= <-] Hy. change (slots b1 nows !! 0%nat = Some y) in Hy.
    rewrite <- head_lookup in Hy. specialize (H3 y Hy). rewrite E2, E3 in H3. apply H3. lia.
  - by constructor.
  - cbn. intros s' [= <-] Hl. destruct (Z.eqb_spec (LeakyBucket.lastLeak b) 0); [done|]. lia.
Qed.

Lemma spaced_span d l : 0 <= d → spaced d l → ∀ x, head l = Some x → ∀ i y, l !! i = Some y → x + Z.of_nat i * d <= y.
Proof.
  intros Hd Hsp x Hx i. rewrite head_lookup in Hx. induction i as [|i IH]; intros y Hy.
  - rewrite Hx in Hy. injection Hy as ->. lia.
  - destruct (l !! i) as [z|] eqn:Hz; [|apply lookup_lt_Some in Hy; apply lookup_ge_None in Hz; lia].
    specialize (IH z eq_refl). specialize (Hsp i z y Hz Hy). lia.
Qed.
Lemma spaced_tail d x l : spaced d (x :: l) → spaced d l.
Proof. intros H i y z Hy Hz. by apply (H (S i)). Qed.
Lemma spaced_above d l : 0 <= d → spaced d l → ∀ x, head l = Some x → Forall (λ y, x <= y) l.
Proof.
  intros Hd Hsp x Hx. apply Forall_forall. intros y (i & Hi)%list_elem_of_lookup.
  pose proof (spaced_span d l Hd Hsp x Hx i y Hi). nia.
Qed.
(** Dropping what lies outside an interval keeps the distance. *)
Lemma spaced_filter d a z l : 0 <= d → spaced d l → spaced d (filter (λ y, a <= y < z) l).
Proof.
  intros Hd. induction l as [|x l IH]; intros Hsp; [done|]. pose proof (spaced_tail _ _ _ Hsp) as Ht.
  rewrite filter_cons. destruct (decide (a <= x < z)); [|by apply IH].
  intros [|i] u v; cbn; [|by apply IH]. intros [= <-] Hv%list_elem_of_lookup_2. apply list_elem_of_filter in Hv as [_ Hv].
  apply list_elem_of_lookup in Hv as [j Hj].
  pose proof (spaced_span d (x :: l) Hd Hsp x eq_refl (S j) v Hj). nia.
Qed.

(** In any window no more slots are handed out than its length divided by the
    interval allows. *)
Theorem rate_bounded rpm b nows a len :
  0 < len → 0 < rpm <= Minute → NewLeakyBucket rpm = Some b → Forall (λ n, 0 < n) nows →
  Z.of_nat (length (filter (λ s, a <= s < a + len) (slots b nows))) <= (len - 1) / LeakyBucket.interval b + 1 ∧
  Forall2 Z.le nows (slots b nows).
Proof.
  intros Hlen Hrpm Hb Hpos. unfold NewLeakyBucket in Hb. destruct (Z.leb_spec rpm 0); [done|]. injection Hb as <-.
  set (b := LeakyBucket.mk (Minute ÷ rpm) 0).
  assert (0 < LeakyBucket.interval b) as Hi.
  { unfold b. cbn. rewrite Z.quot_div_nonneg by (unfold Minute, ns_per_second; lia). apply Z.div_str_pos. lia. }
  destruct (slots_spec nows b ltac:(lia) Hpos) as (Hsp & Hle & _). split; [|done].
  apply (spaced_filter _ a (a + len)) in Hsp; [|lia].
  set (l := filter (λ s, a <= s < a + len) (slots b nows)) in *.
  assert (∀ y, y ∈ l → a <= y < a + len) as Hin by (intros y Hy; apply list_elem_of_filter in Hy; tauto).
  destruct l as [|x l'] eqn:El; [change (0 <= (len - 1) / LeakyBucket.interval b + 1); pose proof (Z.div_pos (len - 1) (LeakyBucket.interval b)); lia|].
  destruct (last_is_Some (x :: l')) as [_ [y Hy]]; [done|]. rewrite last_lookup in Hy.
  pose proof (spaced_span (LeakyBucket.interval b) (x :: l') ltac:(lia) Hsp x eq_refl _ y Hy) as Hspan.
  pose proof (Hin x ltac:(left)) as Hx. pose proof (Hin y ltac:(by eapply list_elem_of_lookup_2)) as Hy'.
  cbn [length pred] in *. assert (Z.of_nat (length l') <= (len - 1) / LeakyBucket.interval b); [|lia].
  apply Z.div_le_lower_bound; lia.
Qed.

Lemma rate_bounded_witness :
  Z.of_nat (length (filter (λ s, 1 <= s < 1 + Minute) (slots (LeakyBucket.mk (Minute ÷ 6) 0) [1; 2; 3; 4; 5; 6; 7; 8]))) <= 6 ∧
  Forall2 Z.le [1; 2; 3; 4; 5; 6; 7; 8] (slots (LeakyBucket.mk (Minute ÷ 6) 0) [1; 2; 3; 4; 5; 6; 7; 8]).
Proof.
  apply (rate_bounded 6 (LeakyBucket.mk (Minute ÷ 6) 0) [1; 2; 3; 4; 5; 6; 7; 8] 1 Minute);
    [reflexivity|split; [reflexivity|discriminate]|reflexivity|repeat constructor].
Defined.

(** A limit that does not divide the minute lets one more through. *)
Example seven_per_minute :
  length (filter (λ s, 1 <= s < 1 + Minute) (slots (LeakyBucket.mk (Minute ÷ 7) 0) (replicate 9 1))) = 8%nat.
Proof. vm_compute. reflexivity. Qed.
