(* ===== verification/Providers.v ===== *)
(** * Model providers (providers/retry.go, fallback.go, types.go, router.go,
    pareto_routing.go, factory.go, instances.go, token_estimate.go, host.go,
    pkg/pareto/frontier.go, the cooldowns of config/registry_impl.go and the choice
    of a provider in core/cap_profile_adapter.go, core/spawner_dospawn.go)

    A provider is a backend wrapped in a retry loop, a rate limiter and a
    fallback chain; [Get] builds the wrappers and registers them with a router
    that tracks the health of each.  The backends talk to services: what a
    backend replies, when and how long it takes, is an argument ([reply]), and so
    are the scripts it loads, random numbers and the order in which Go visits a
    map.  Instants are nanoseconds; a context that ends does so at [cancel]. *)
From S2P Require Import Prelude Cron RateLimit.
From Stdlib Require Import Ascii SpecFloat.
Local Open Scope Z_scope.

(** ** Errors *)

Inductive Error :=
| RateLimitError (Msg : string) (RetryAfter : Z)
| BadRequestError (Msg : string)
| ProviderError (Msg : string)
| DeadlineExceeded
| Canceled
| OtherError (text : string)
| WrapError (prefix : string) (e : Error).

Fixpoint error_text (e : Error) : string :=
  match e with
  | RateLimitError m r => if 0 <? r then "rate limited (retry after " +:+ pretty r +:+ "s): " +:+ m else "rate limited: " +:+ m
  | BadRequestError m => "bad request: " +:+ m
  | ProviderError m => "provider error: " +:+ m
  | DeadlineExceeded => "context deadline exceeded"
  | Canceled => "context canceled"
  | OtherError t => t
  | WrapError p e => p +:+ error_text e
  end.
(** [errors.As] for the two error types, and [errors.Is] for the deadline. *)
Fixpoint as_rate_limit (e : Error) : option Z :=
  match e with RateLimitError _ r => Some r | WrapError _ e => as_rate_limit e | _ => None end.
Fixpoint as_provider_error (e : Error) : option string :=
  match e with ProviderError m => Some m | WrapError _ e => as_provider_error e | _ => None end.
Fixpoint is_deadline (e : Error) : bool :=
  match e with DeadlineExceeded => true | WrapError _ e => is_deadline e | _ => false end.

Definition isRetryable (err : Error) : bool :=
  match as_rate_limit err with
  | Some _ => true
  | None =>
      match as_provider_error err with
      | Some msg => contains "HTTP 5" msg || contains "HTTP 429" msg
      | None => false
      end || (is_deadline err || contains "timeout" (to_lower (error_text err)))
  end.

(** ** Tokens *)

Definition isCJK (r : Z) : bool :=
  in_range 0x4E00 0x9FFF r || in_range 0x3400 0x4DBF r || in_range 0x3040 0x309F r || in_range 0x30A0 0x30FF r
  || in_range 0xAC00 0xD7A3 r.
Definition one_point_seven : float64 := S754_finite false 7656119366529843 (-52).
Definition estimateTokens (text : string) : Z :=
  if String.eqb text "" then 0
  else
    let rs := runes text in
    let cjkRunes := Z.of_nat (length (List.filter isCJK rs)) in
    let otherRunes := Z.of_nat (length (List.filter (negb ∘ isCJK) rs)) in
    let total := trunc_float (fadd (fdiv (float_of_int cjkRunes) one_point_seven) (fdiv (float_of_int otherRunes) (float_of_int 4))) in
    if total =? 0 then 1 else total.

(** ** Configurations and wrappers *)

Module ProviderInstance.
Record t := mk { ID : string; APIKey : string; APIKeyEnv : string; BaseURL : string }.
End ProviderInstance.

(** The fields of [config.ProviderConfig] that are read here; of [Extra] the
    script's path and hash, [RateLimit] is its requests per minute. *)
Module ProviderConfig.
Inductive t := mk {
  Provider : string; Protocol : string; Model : string; APIKey : string; APIKeyEnv : string; APIKeys : list string;
  BaseURL : string; RateLimit : option Z; script_path : string; sha256 : string;
  Instances : list ProviderInstance.t; PoolID : string; FallbackChain : list t
}.
#[global] Instance t_eta : Eta t := λ c, mk (Provider c) (Protocol c) (Model c) (APIKey c) (APIKeyEnv c) (APIKeys c)
  (BaseURL c) (RateLimit c) (script_path c) (sha256 c) (Instances c) (PoolID c) (FallbackChain c).
End ProviderConfig.

Definition providerCacheKey (cfg : ProviderConfig.t) : string :=
  ProviderConfig.Provider cfg +:+ "::" +:+ ProviderConfig.BaseURL cfg +:+ "::" +:+ ProviderConfig.APIKeyEnv cfg +:+ "::" +:+
  ProviderConfig.APIKey cfg.
Definition PoolIDFor (cfg : ProviderConfig.t) : string :=
  if String.eqb (ProviderConfig.PoolID cfg) "" then providerCacheKey cfg else ProviderConfig.PoolID cfg.

Inductive BackendKind := KAnthropic | KOpenAI | KGemini | KOllama | KScript | KExternal | KSystemOne | KHost.

(** [RateLimited] names its limiter by the cache key it was built for. *)
Inductive Provider :=
| Backend (kind : BackendKind) (cfg : ProviderConfig.t)
| Retrying (Base : Provider) (MaxRetries : nat) (SlotID : string)
| RateLimited (Base : Provider) (Limiter : string)
| Fallback (Providers : list Provider).

(** ** Router slots *)

Inductive ProviderStatus := StatusHealthy | StatusRateLimited | StatusError.
#[global] Instance ProviderStatus_eq_dec : EqDecision ProviderStatus.
Proof. solve_decision. Defined.

Module ProviderSlot.
Record t := mk {
  ID : string; Config : ProviderConfig.t; PoolID : string; Provider : Provider; Status : ProviderStatus;
  LatencyEMA : float64; LastErrorTime : Z; FailCount : Z; RateLimitUntil : Z
}.
#[global] Instance t_eta : Eta t := λ s, mk (ID s) (Config s) (PoolID s) (Provider s) (Status s) (LatencyEMA s)
  (LastErrorTime s) (FailCount s) (RateLimitUntil s).
End ProviderSlot.

Definition IsHealthy (now : Z) (s : ProviderSlot.t) : bool :=
  if bool_decide (ProviderSlot.Status s = StatusRateLimited) && (ProviderSlot.RateLimitUntil s <? now) then true
  else if bool_decide (ProviderSlot.Status s = StatusError) && (30 * Second <? now - ProviderSlot.LastErrorTime s) then true
  else bool_decide (ProviderSlot.Status s = StatusHealthy).

Definition zero_point_two : float64 := S754_finite false 7205759403792794 (-55).
Definition zero_point_eight : float64 := S754_finite false 7205759403792794 (-53).
Definition float_is_zero (x : float64) : bool := match x with S754_zero _ => true | _ => false end.
Definition slot_ReportSuccess (latencyMs : float64) (s : ProviderSlot.t) : ProviderSlot.t :=
  let ema := ProviderSlot.LatencyEMA s in
  s <| ProviderSlot.Status := StatusHealthy |> <| ProviderSlot.FailCount := 0 |>
    <| ProviderSlot.LatencyEMA :=
         if float_is_zero ema then latencyMs else fadd (fmul zero_point_two latencyMs) (fmul zero_point_eight ema) |>.
Definition slot_ReportRateLimit (now retryAfterSeconds : Z) (s : ProviderSlot.t) : ProviderSlot.t :=
  let n := ProviderSlot.FailCount s + 1 in
  let retryAfterSeconds := if retryAfterSeconds <=? 0 then 10 * n else retryAfterSeconds in
  s <| ProviderSlot.Status := StatusRateLimited |> <| ProviderSlot.FailCount := n |> <| ProviderSlot.LastErrorTime := now |>
    <| ProviderSlot.RateLimitUntil := now + wrap64 (retryAfterSeconds * Second) |>.
Definition slot_ReportError (now : Z) (s : ProviderSlot.t) : ProviderSlot.t :=
  let n := ProviderSlot.FailCount s + 1 in
  s <| ProviderSlot.FailCount := n |> <| ProviderSlot.LastErrorTime := now |>
    <| ProviderSlot.Status := if 3 <=? n then StatusError else ProviderSlot.Status s |>.
(** What [Next] and [NextPareto] do to the slot they choose. *)
Definition revive (s : ProviderSlot.t) : ProviderSlot.t :=
  if bool_decide (ProviderSlot.Status s = StatusHealthy) then s
  else s <| ProviderSlot.Status := StatusHealthy |> <| ProviderSlot.FailCount := 0 |>.

Abbreviation Slots := (gmap string ProviderSlot.t).

Definition Register (id : string) (cfg : ProviderConfig.t) (p : Provider) (slots : Slots) : Slots :=
  let poolID := if String.eqb (ProviderConfig.PoolID cfg) "" then providerCacheKey cfg else ProviderConfig.PoolID cfg in
  <[id := ProviderSlot.mk id cfg poolID p StatusHealthy (S754_zero false) 0 0 0]> slots.
Definition Deregister (id : string) (slots : Slots) : Slots := delete id slots.
Definition ReportSuccess (id : string) (latencyMs : float64) (slots : Slots) : Slots := alter (slot_ReportSuccess latencyMs) id slots.
Definition ReportRateLimit (now : Z) (id : string) (retryAfter : Z) (slots : Slots) : Slots :=
  alter (slot_ReportRateLimit now retryAfter) id slots.
Definition ReportError (now : Z) (id : string) (slots : Slots) : Slots := alter (slot_ReportError now) id slots.

Definition max_float : float64 := S754_finite false 9007199254740991 971.
Definition eligible (now : Z) (poolID : string) (s : ProviderSlot.t) : bool :=
  String.eqb (ProviderSlot.PoolID s) poolID && IsHealthy now s.
(** The loop of [Next]: the best slot so far and its latency. *)
Fixpoint least_latency (now : Z) (poolID : string) (l : list (string * ProviderSlot.t)) (best : option string) (minLatency : float64) :
    option string :=
  match l with
  | [] => best
  | (id, s) :: l' =>
      if eligible now poolID s && fltb (ProviderSlot.LatencyEMA s) minLatency
      then least_latency now poolID l' (Some id) (ProviderSlot.LatencyEMA s)
      else least_latency now poolID l' best minLatency
  end.
Definition Next (ord : list string) (now : Z) (poolID : string) (slots : Slots) : Slots * option string :=
  match least_latency now poolID (range slots ord) None max_float with
  | Some id => (alter revive id slots, Some id)
  | None => (slots, None)
  end.

Definition LookupByConfig (ord : list string) (now : Z) (cacheKey : string) (slots : Slots) : option Provider :=
  ProviderSlot.Provider ∘ snd <$>
    List.find (λ '(_, s), String.eqb (providerCacheKey (ProviderSlot.Config s)) cacheKey && IsHealthy now s) (range slots ord).

(** ** The Pareto choice *)

(** [FilterFrontier] keeps what no other candidate dominates; [minimize] holds
    the direction of each objective. *)
Fixpoint dominates_from (atLeastOneBetter : bool) (a b : list float64) (minimize : list bool) : bool :=
  match a, b, minimize with
  | av :: a, bv :: b, m :: minimize =>
      if m then
        if fltb bv av then false else dominates_from (fltb av bv || atLeastOneBetter) a b minimize
      else if fltb av bv then false else dominates_from (fltb bv av || atLeastOneBetter) a b minimize
  | _, _, _ => atLeastOneBetter
  end.

Module paretoCandidate.
Record t := mk { slot : string; successRate : float64; tokenCost : float64; latencyMs : float64 }.
End paretoCandidate.
Definition Objectives (c : paretoCandidate.t) : list float64 * list bool :=
  ([paretoCandidate.successRate c; paretoCandidate.tokenCost c; paretoCandidate.latencyMs c], [false; true; true]).
Definition dominates (a b : paretoCandidate.t) : bool :=
  let '(aVals, aMin) := Objectives a in
  let '(bVals, bMin) := Objectives b in
  if negb (length aVals =? length bVals)%nat || negb (length aMin =? length bMin)%nat then false
  else dominates_from false aVals bVals aMin.
Definition FilterFrontier (candidates : list paretoCandidate.t) : list paretoCandidate.t :=
  if (length candidates <=? 1)%nat then candidates
  else
    let indexed := imap pair candidates in
    (List.filter (λ '(i, cand), negb (existsb (λ '(j, other), negb (i =? j)%nat && dominates other cand) indexed)) indexed).*2.

(** [sort.Slice] up to twelve elements, where it is an insertion sort: the
    sorted part is kept in reverse. *)
Section sort.
Context {A} (less : A → A → bool).
Fixpoint insert_back (x : A) (l : list A) : list A :=
  match l with
  | [] => [x]
  | y :: l' => if less x y then y :: insert_back x l' else x :: l
  end.
Definition sort_slice (l : list A) : list A := reverse (fold_left (λ acc x, insert_back x acc) l []).
End sort.
Definition frontier_less (a b : paretoCandidate.t) : bool :=
  if negb (feqb (paretoCandidate.successRate a) (paretoCandidate.successRate b))
  then fltb (paretoCandidate.successRate b) (paretoCandidate.successRate a)
  else fltb (paretoCandidate.latencyMs a) (paretoCandidate.latencyMs b).

(** A profile lookup: success rate, token cost and latency of a model. *)
Abbreviation ProfileLookup := (string → string → option (float64 * float64 * float64)).
Definition one_half : float64 := S754_finite false 4503599627370496 (-53).
Definition candidate_of (lookup : ProfileLookup) (capability : string) (id : string) (s : ProviderSlot.t) : paretoCandidate.t * bool :=
  let '(successRate, tokenCost, latencyMs, found) :=
    match lookup (ProviderConfig.Model (ProviderSlot.Config s)) capability with
    | Some (sr, tc, lm) => (sr, tc, lm, true)
    | None => (one_half, S754_zero false, ProviderSlot.LatencyEMA s, false)
    end in
  (paretoCandidate.mk id successRate tokenCost (if float_is_zero latencyMs then float_of_int 1000 else latencyMs), found).
Definition NextPareto (ord : list string) (now : Z) (poolID capability : string) (profileLookup : option ProfileLookup) (slots : Slots) :
    Slots * option string :=
  match profileLookup with
  | None => Next ord now poolID slots
  | Some lookup =>
      let healthySlots := List.filter (λ '(_, s), eligible now poolID s) (range slots ord) in
      if (length healthySlots =? 0)%nat then (slots, None)
      else
        let cands := map (λ '(id, s), candidate_of lookup capability id s) healthySlots in
        if negb (existsb snd cands) then Next ord now poolID slots
        else
          match sort_slice frontier_less (FilterFrontier cands.*1) with
          | [] => Next ord now poolID slots
          | best :: _ => (alter revive (paretoCandidate.slot best) slots, Some (paretoCandidate.slot best))
          end
  end.
(** [Spawner.routeProvider] *)
Definition routeProvider (ord : list string) (now : Z) (capLookup : option ProfileLookup) (poolID capability : string) (slots : Slots) :
    Slots * option string :=
  match capLookup with
  | Some l => if negb (String.eqb capability "") then NextPareto ord now poolID capability (Some l) slots else Next ord now poolID slots
  | None => Next ord now poolID slots
  end.

(** ** Calls *)

(** Go's outcome of a call: a response or an error, or a panic. *)
Inductive Outcome (Resp : Type) := Returned (r : result Error Resp) | Panicked.
Arguments Returned {Resp} _.
Arguments Panicked {Resp}.
(** The methods of a provider that reach a service. *)
Inductive Call (Req : Type) := CComplete (req : Req) | CStreamComplete (req : Req) | CEmbed (text : string).
Arguments CComplete {Req} _.
Arguments CStreamComplete {Req} _.
Arguments CEmbed {Req} _.
(** What a backend does with a call: the time it takes, the chunks it hands to
    the caller of a stream, its result. *)
Module Reply.
Record t {Resp : Type} := mk { took : Z; sent : list string; outcome : result Error Resp }.
Arguments t : clear implicits.
Arguments mk {Resp} _ _ _.
End Reply.

(** The package's state (the cache, the global fallback chain, the router), the
    limiters, and what a run does: the clock, the calls that reached backends,
    the chunks delivered, the random numbers left. *)
Module World.
Record t {Req : Type} := mk {
  now : Z; cache : gmap string Provider; globalFallback : list ProviderConfig.t; slots : gmap string ProviderSlot.t;
  limiters : gmap string LeakyBucket.t; calls : list (BackendKind * ProviderConfig.t * Call Req); chunks : list string;
  entropy : list Z
}.
Arguments t : clear implicits.
Arguments mk {Req} _ _ _ _ _ _ _ _.
#[global] Instance t_eta {Req} : Eta (t Req) := λ w, mk (now w) (cache w) (globalFallback w) (slots w) (limiters w) (calls w)
  (chunks w) (entropy w).
End World.

Section run.
Context {Req Resp : Type}.
Context (reply : BackendKind → ProviderConfig.t → nat → Z → Call Req → Reply.t Resp).
Context (cancel : option (Z * Error)).
Abbreviation W := (World.t Req).
Abbreviation Out := (Outcome Resp).

(** [HostProvider] replies by itself; the others ask a service. *)
Definition backend_reply (kind : BackendKind) (cfg : ProviderConfig.t) (n : nat) (t : Z) (c : Call Req) : Reply.t Resp :=
  match kind with
  | KHost =>
      Reply.mk 0 []
        (Err match c with
             | CEmbed _ => OtherError "embeddings not supported by HostProvider"
             | _ => ProviderError "DELEGATION_REQUIRED"
             end)
  | _ => reply kind cfg n t c
  end.
Definition call_backend (kind : BackendKind) (cfg : ProviderConfig.t) (c : Call Req) (w : W) : W * Out :=
  let r := backend_reply kind cfg (length (World.calls w)) (World.now w) c in
  (w <| World.calls ::= λ l, l ++ [(kind, cfg, c)] |>
     <| World.chunks ::= λ l, l ++ match c with CStreamComplete _ => Reply.sent r | _ => [] end |>
     <| World.now ::= Z.add (Reply.took r) |>,
   Returned (Reply.outcome r)).

(** A timer of [d] against the end of the context; where both are ready the
    timer counts. *)
Definition sleep (d : Z) (w : W) : W * option Error :=
  if d <=? 0 then (w, None)
  else
    match cancel with
    | Some (c, e) =>
        if c <? World.now w + d then (w <| World.now := Z.max (World.now w) c |>, Some e)
        else (w <| World.now := World.now w + d |>, None)
    | None => (w <| World.now := World.now w + d |>, None)
    end.

(** The pause before an attempt; [None] is the panic of [rand.Intn]. *)
Definition backoff (attempt : nat) : Z := wrap64 (wrap64 (2 ^ (Z.of_nat attempt - 1)) * Second).
Definition wait_time (attempt : nat) (err : Error) (random : Z) : option Z :=
  match as_rate_limit err with
  | Some ra =>
      if 0 <? ra then Some (wrap64 (ra * Second))
      else let wait := backoff attempt in
           if wait ÷ 5 + 1 <=? 0 then None else Some (wrap64 (wait + (random mod (wait ÷ 5 + 1) - wait ÷ 10)))
  | None =>
      let wait := backoff attempt in
      if wait ÷ 5 + 1 <=? 0 then None else Some (wrap64 (wait + (random mod (wait ÷ 5 + 1) - wait ÷ 10)))
  end.
Definition wait (attempt : nat) (err : Error) (w : W) : W * option (option Error) :=
  let random := default 0 (head (World.entropy w)) in
  match wait_time attempt err random with
  | None => (w, None)
  | Some d =>
      let w := if match as_rate_limit err with Some ra => 0 <? ra | None => false end then w else w <| World.entropy ::= tail |> in
      let '(w, e) := sleep d w in (w, Some e)
  end.

Definition milliseconds (d : Z) : Z := d ÷ 1000000.
Definition reportSuccess (slotID : string) (startTime : Z) (w : W) : W :=
  if String.eqb slotID "" then w
  else w <| World.slots ::= ReportSuccess slotID (float_of_int (milliseconds (World.now w - startTime))) |>.
Definition reportError (slotID : string) (err : Error) (w : W) : W :=
  if String.eqb slotID "" then w
  else
    match as_rate_limit err with
    | Some ra => w <| World.slots ::= ReportRateLimit (World.now w) slotID ra |>
    | None => w <| World.slots ::= ReportError (World.now w) slotID |>
    end.

(** One turn of the loop from the call on; [next] is the rest of the loop. *)
Definition attempt (base : W → W * Out) (slotID : string) (startTime : Z) (next : Error → W → W * Out) (w : W) : W * Out :=
  let '(w, o) := base w in
  match o with
  | Panicked => (w, Panicked)
  | Returned (Ok resp) => (reportSuccess slotID startTime w, Returned (Ok resp))
  | Returned (Err err) => if isRetryable err then next err w else (reportError slotID err w, Returned (Err err))
  end.
Fixpoint retry (base : W → W * Out) (slotID : string) (startTime : Z) (more n : nat) (lastErr : Error) (w : W) : W * Out :=
  match more with
  | O => (reportError slotID lastErr w, Returned (Err lastErr))
  | S more =>
      match wait n lastErr w with
      | (w, None) => (w, Panicked)
      | (w, Some (Some err)) => (w, Returned (Err err))
      | (w, Some None) => attempt base slotID startTime (retry base slotID startTime more (S n)) w
      end
  end.
(** [Complete], [StreamComplete] and [Embed] of a retrying provider: attempt 0
    does not wait. *)
Definition call_retrying (base : W → W * Out) (MaxRetries : nat) (slotID : string) (w : W) : W * Out :=
  attempt base slotID (World.now w) (retry base slotID (World.now w) MaxRetries 1) w.

Definition call_limited (base : W → W * Out) (limiter : string) (w : W) : W * Out :=
  match World.limiters w !! limiter with
  | None => base w
  | Some b =>
      let '(b, r) := Wait b (World.now w) (World.now w) (fst <$> cancel) in
      let w := w <| World.limiters ::= <[limiter := b]> |> in
      match r with
      | Passed t => base (w <| World.now := t |>)
      | ContextDone t => (w <| World.now := t |>, Returned (Err (default Canceled (snd <$> cancel))))
      end
  end.

Definition all_failed (lastErr : option Error) : Error :=
  match lastErr with
  | Some e => WrapError "all providers failed, last error: " e
  | None => OtherError "all providers failed, last error: %!w(<nil>)"
  end.
Fixpoint try_each (ps : list (W → W * Out)) (lastErr : option Error) (w : W) : W * Out :=
  match ps with
  | [] => (w, Returned (Err (all_failed lastErr)))
  | p :: ps =>
      let '(w, o) := p w in
      match o with
      | Panicked => (w, Panicked)
      | Returned (Ok resp) => (w, Returned (Ok resp))
      | Returned (Err e) => try_each ps (Some e) w
      end
  end.

Fixpoint invoke (p : Provider) (c : Call Req) : W → W * Out :=
  match p with
  | Backend kind cfg => call_backend kind cfg c
  | Retrying base n slotID => call_retrying (invoke base c) n slotID
  | RateLimited base limiter => call_limited (invoke base c) limiter
  | Fallback ps => try_each (map (λ p, invoke p c) ps) None
  end.
End run.

(** ** The factory *)

Module instanceJob.
Record t := mk { parentID : string; inst : ProviderInstance.t; base : ProviderConfig.t }.
End instanceJob.

Section factory.
Context {Req : Type}.
(** Whether a script provider can be built from the script at a path, and the
    hash of the file there in hexadecimal. *)
Context (load_script : BackendKind → ProviderConfig.t → string → result string unit).
Context (file_sha256 : string → result string string).
(** The order in which a scan of the slots visits them. *)
Context (order : gmap string ProviderSlot.t → list string).
Abbreviation W := (World.t Req).

Definition VerifyScriptIntegrity (scriptPath expectedHash : string) : result string unit :=
  if String.eqb expectedHash "" then Ok tt
  else
    match file_sha256 scriptPath with
    | Err e => Err ("plugin: cannot read script " +:+ scriptPath +:+ ": " +:+ e)
    | Ok actualHex =>
        if negb (String.eqb actualHex expectedHash)
        then Err ("plugin: integrity check FAILED for " +:+ scriptPath +:+ String "010" "  expected: " +:+ expectedHash +:+
                  String "010" "  actual:   " +:+ actualHex +:+ String "010" "The script file has been modified or tampered with.")
        else Ok tt
    end.
Definition script_backend (label : string) (kind : BackendKind) (cfg : ProviderConfig.t) : result string Provider :=
  let scriptPath := ProviderConfig.script_path cfg in
  if String.eqb scriptPath "" then Err (label +:+ " provider requires extra.script_path")
  else
    match (if negb (String.eqb (ProviderConfig.sha256 cfg) "") then VerifyScriptIntegrity scriptPath (ProviderConfig.sha256 cfg) else Ok tt) with
    | Err e => Err (label +:+ " provider: " +:+ e)
    | Ok _ => let? _ := load_script kind cfg scriptPath in Ok (Backend kind cfg)
    end.
Definition newProvider (cfg : ProviderConfig.t) : result string Provider :=
  let proto := if String.eqb (ProviderConfig.Protocol cfg) "" then ProviderConfig.Provider cfg else ProviderConfig.Protocol cfg in
  let eq := String.eqb proto in
  if eq "anthropic" then Ok (Backend KAnthropic cfg)
  else if eq "openai" || eq "deepseek" || eq "sensenova" || eq "sentimes" || eq "together" || eq "groq" then Ok (Backend KOpenAI cfg)
  else if eq "gemini" || eq "gemma" then Ok (Backend KGemini cfg)
  else if eq "ollama" then Ok (Backend KOllama cfg)
  else if eq "script" then script_backend "script" KScript cfg
  else if eq "external" then script_backend "external" KExternal cfg
  else if eq "swarm" then Err "swarm provider not available in open core"
  else if eq "systemone" then Ok (Backend KSystemOne cfg)
  else if eq "host" then Ok (Backend KHost cfg)
  else Err ("unsupported provider " +:+ go_quote (ProviderConfig.Provider cfg) +:+
            " (supported: anthropic, openai, gemini, ollama, script, external, swarm, systemone, host)").

(** A fresh provider behind the retry loop, and behind a limiter where the
    configuration asks for one. *)
Definition wrap (cfg : ProviderConfig.t) (pNew : Provider) (w : W) : W * Provider :=
  let key := providerCacheKey cfg in
  let rp := Retrying pNew 3 key in
  match ProviderConfig.RateLimit cfg with
  | Some rpm =>
      if 0 <? rpm
      then match NewLeakyBucket rpm with
           | Some b => (w <| World.limiters ::= <[key := b]> |>, RateLimited rp key)
           | None => (w, RateLimited rp key)
           end
      else (w, rp)
  | None => (w, rp)
  end.

(** The loop over the fallback configurations: a failing one is skipped. *)
Fixpoint build_chain (get : ProviderConfig.t → W → option (W * result string Provider)) (cfgs : list ProviderConfig.t) (w : W) :
    option (W * list Provider) :=
  match cfgs with
  | [] => Some (w, [])
  | c :: cfgs =>
      '(w, r) ← get c w;
      '(w, ps) ← build_chain get cfgs w;
      Some (w, match r with Ok p => p :: ps | Err _ => ps end)
  end.
(** [Get]; [fuel] bounds the depth of the recursion into fallback chains. *)
Fixpoint Get (fuel : nat) (cfg : ProviderConfig.t) (w : W) : option (W * result string Provider) :=
  match fuel with
  | O => None
  | S fuel =>
      let key := providerCacheKey cfg in
      match World.cache w !! key with
      | Some p => Some (w, Ok p)
      | None =>
          match LookupByConfig (order (World.slots w)) (World.now w) key (World.slots w) with
          | Some p => Some (w <| World.cache ::= <[key := p]> |>, Ok p)
          | None =>
              match newProvider cfg with
              | Err e => Some (w, Err e)
              | Ok pNew =>
                  let '(w, finalProvider) := wrap cfg pNew w in
                  let w := w <| World.cache ::= <[key := finalProvider]> |>
                             <| World.slots ::= Register key cfg finalProvider |> in
                  let effectiveFallback :=
                    match ProviderConfig.FallbackChain cfg with [] => World.globalFallback w | l => l end in
                  match effectiveFallback with
                  | [] => Some (w, Ok finalProvider)
                  | _ =>
                      '(w, ps) ← build_chain (Get fuel) effectiveFallback w;
                      Some (w, Ok match ps with [] => finalProvider | _ => Fallback (finalProvider :: ps) end)
                  end
              end
          end
      end
  end.

Definition SetGlobalFallback (chain : list ProviderConfig.t) (w : W) : W := w <| World.globalFallback := chain |>.
Definition ClearCache (w : W) : W := w <| World.cache := ∅ |> <| World.globalFallback := [] |> <| World.slots := ∅ |>.

Fixpoint unwrapScriptProvider (p : Provider) : option ProviderConfig.t :=
  match p with
  | Backend KScript cfg => Some cfg
  | RateLimited b _ | Retrying b _ _ => unwrapScriptProvider b
  | _ => None
  end.
(** The checks of [ReloadScriptProvider]: the script to reload. *)
Definition ReloadScriptProvider (name : string) (cfg : ProviderConfig.t) (w : W) : result string ProviderConfig.t :=
  match World.cache w !! providerCacheKey cfg with
  | None => Err ("provider " +:+ go_quote name +:+ " not loaded")
  | Some p =>
      match unwrapScriptProvider p with
      | None => Err ("provider " +:+ go_quote name +:+ " is not a script provider")
      | Some sp => Ok sp
      end
  end.

(** ** Instances *)

Definition instance_jobs (providers : list (string * option ProviderConfig.t)) : list instanceJob.t :=
  flat_map (λ '(id, pc),
    match pc with
    | None => []
    | Some pc =>
        match ProviderConfig.Instances pc with
        | [] => imap (λ i key, instanceJob.mk id (ProviderInstance.mk (id +:+ "-key-" +:+ pretty (Z.of_nat i)) key "" "") pc)
                  (ProviderConfig.APIKeys pc)
        | insts => map (λ inst, instanceJob.mk id inst pc) insts
        end
    end) providers.
Definition derive (job : instanceJob.t) : ProviderConfig.t :=
  let inst := instanceJob.inst job in
  let or_else (x d : string) := if negb (String.eqb x "") then x else d in
  (instanceJob.base job) <| ProviderConfig.Instances := [] |> <| ProviderConfig.PoolID := instanceJob.parentID job |>
    <| ProviderConfig.APIKey ::= or_else (ProviderInstance.APIKey inst) |>
    <| ProviderConfig.APIKeyEnv ::= or_else (ProviderInstance.APIKeyEnv inst) |>
    <| ProviderConfig.BaseURL ::= or_else (ProviderInstance.BaseURL inst) |>.
Definition instance_message (instID : string) (job : instanceJob.t) (r : result string Provider) : string :=
  let who := go_quote instID +:+ " (parent " +:+ go_quote (instanceJob.parentID job) +:+ ", type " +:+
             go_quote (ProviderConfig.Provider (instanceJob.base job)) +:+ ")" in
  match r with
  | Err e => "provider instance " +:+ who +:+ " failed to register: " +:+ e
  | Ok _ => "registered provider instance " +:+ who +:+ " for failover"
  end.
Fixpoint register_jobs (fuel : nat) (total : Z) (jobs : list instanceJob.t) (w : W) : option (W * list string) :=
  match jobs with
  | [] => Some (w, [])
  | job :: jobs =>
      let instID := ProviderInstance.ID (instanceJob.inst job) in
      let instID := if String.eqb instID "" then instanceJob.parentID job +:+ "-instance-" +:+ pretty total else instID in
      '(w, r) ← Get fuel (derive job) w;
      '(w, log) ← register_jobs fuel total jobs w;
      Some (w, instance_message instID job r :: log)
  end.
(** [RegisterConfiguredInstances]: the messages it logs. *)
Definition RegisterConfiguredInstances (fuel : nat) (providers : gmap string (option ProviderConfig.t)) (ord : list string) (w : W) :
    option (W * list string) :=
  let jobs := instance_jobs (range providers ord) in
  register_jobs fuel (Z.of_nat (length jobs)) jobs w.
End factory.

(** ** Cooldowns of the registry, and choosing a provider for a candidate *)

Module ProviderHealth.
Record t := mk { LastFailure : Z; FailureCount : Z; CircuitOpened : bool; CooldownUntil : Z; WasCoolingDown : bool }.
#[global] Instance t_eta : Eta t := λ h, mk (LastFailure h) (FailureCount h) (CircuitOpened h) (CooldownUntil h) (WasCoolingDown h).
Definition zero : t := mk 0 0 false 0 false.
End ProviderHealth.
Abbreviation Health := (gmap string ProviderHealth.t).

Definition upd_health (pID : string) (f : ProviderHealth.t → ProviderHealth.t) (h : Health) : Health :=
  <[pID := f (default ProviderHealth.zero (h !! pID))]> h.
Definition RecordFailure (now : Z) (pID : string) : Health → Health :=
  upd_health pID (λ h,
    let n := ProviderHealth.FailureCount h + 1 in
    h <| ProviderHealth.LastFailure := now |> <| ProviderHealth.FailureCount := n |>
      <| ProviderHealth.CircuitOpened ::= λ b, if 5 <=? n then true else b |>).
Definition RecordSuccess (pID : string) (h : Health) : Health :=
  alter (λ h, h <| ProviderHealth.FailureCount := 0 |> <| ProviderHealth.CircuitOpened := false |>
                <| ProviderHealth.CooldownUntil := 0 |>) pID h.
Definition SetCooldown (now : Z) (pID : string) (duration : Z) : Health → Health :=
  upd_health pID (λ h, h <| ProviderHealth.CooldownUntil := now + duration |>).
(** The time left, where the provider is cooling down. *)
Definition IsCoolingDown (now : Z) (pID : string) (h : Health) : option Z :=
  match h !! pID with
  | Some h => let remaining := ProviderHealth.CooldownUntil h - now in if 0 <? remaining then Some remaining else None
  | None => None
  end.
Definition CheckRecovery (now : Z) (pID : string) (hs : Health) : Health * bool :=
  match hs !! pID with
  | None => (hs, false)
  | Some h =>
      if 0 <? ProviderHealth.CooldownUntil h - now then (<[pID := h <| ProviderHealth.WasCoolingDown := true |>]> hs, false)
      else if ProviderHealth.WasCoolingDown h then (<[pID := h <| ProviderHealth.WasCoolingDown := false |>]> hs, true)
      else (hs, false)
  end.
Definition registry_IsHealthy (now : Z) (pID : string) (hs : Health) : bool :=
  match hs !! pID with
  | None => true
  | Some h => if negb (ProviderHealth.CircuitOpened h) then true else 300 * Second <? now - ProviderHealth.LastFailure h
  end.

(** The head of the loop over candidates in [doSpawn]: candidate [candIdx] of
    [n] with configuration [pCfg] is skipped, aborts the loop, or gets a
    provider. *)
Inductive chosen := Skipped | UseProvider (p : Provider) | ChooseFailed (e : string).
Definition choose_provider {Req : Type} (get : ProviderConfig.t → World.t Req → option (World.t Req * result string Provider))
    (order : gmap string ProviderSlot.t → list string) (capLookup : option ProfileLookup) (capability : string)
    (candIdx n : nat) (pCfg : ProviderConfig.t) (hs : Health) (w : World.t Req) : option (Health * World.t Req * chosen) :=
  let pid := PoolIDFor pCfg in
  let more := (candIdx <? n - 1)%nat in
  if bool_decide (is_Some (IsCoolingDown (World.now w) pid hs)) && more then Some (hs, w, Skipped)
  else
    let '(hs, _) := CheckRecovery (World.now w) pid hs in
    let '(slots, r) := routeProvider (order (World.slots w)) (World.now w) capLookup pid capability (World.slots w) in
    let w := w <| World.slots := slots |> in
    match r ≫= (λ id, slots !! id) with
    | Some slot => Some (hs, w, UseProvider (ProviderSlot.Provider slot))
    | None =>
        '(w, r) ← get pCfg w;
        Some (hs, w, match r with Ok p => UseProvider p | Err e => if more then Skipped else ChooseFailed e end)
    end.

(** ** Counting tokens *)

Section passthrough.
Context (count : BackendKind → ProviderConfig.t → string → result Error Z).
Fixpoint CountTokens (p : Provider) (text : string) : result Error Z :=
  match p with
  | Backend KHost _ => Ok (estimateTokens text)
  | Backend kind cfg => count kind cfg text
  | Retrying b _ _ | RateLimited b _ => CountTokens b text
  | Fallback ps =>
      (fix go ps lastErr :=
         match ps with
         | [] => Err (all_failed lastErr)
         | p :: ps => match CountTokens p text with Ok n => Ok n | Err e => go ps (Some e) end
         end) ps None
  end.
End passthrough.

(** * Properties *)

(** ** The router's choice *)

(** The loop ends with an eligible slot that no eligible slot undercuts. *)
Lemma least_latency_spec now pool l : ∀ best m,
  match least_latency now pool l best m with
  | Some id =>
      (best = Some id ∧ ∀ j t, (j, t) ∈ l → eligible now pool t = true → fltb (ProviderSlot.LatencyEMA t) m = false) ∨
      ∃ s, (id, s) ∈ l ∧ eligible now pool s = true ∧ fltb (ProviderSlot.LatencyEMA s) m = true ∧
           ∀ j t, (j, t) ∈ l → eligible now pool t = true → fltb (ProviderSlot.LatencyEMA t) (ProviderSlot.LatencyEMA s) = false
  | None => best = None ∧ ∀ j t, (j, t) ∈ l → eligible now pool t = true → fltb (ProviderSlot.LatencyEMA t) m = false
  end.
Proof.
  induction l as [|[i s] l IH]; intros best m; cbn [least_latency].
  - destruct best; [left|]; (split; [done|]); intros j t []%elem_of_nil.
  - destruct (eligible now pool s) eqn:He; cbn [andb]; [destruct (fltb (ProviderSlot.LatencyEMA s) m) eqn:Hm|].
    + specialize (IH (Some i) (ProviderSlot.LatencyEMA s)).
      destruct (least_latency now pool l (Some i) _) as [id|]; [right|by destruct IH].
      destruct IH as [[[= <-] IH]|(s' & Hin & He' & Hlt & IH)].
      * exists s. split_and!; [by left|done|done|]. intros j t [[= -> ->]|Hj]%elem_of_cons Ht; [apply fltb_irrefl|by eapply IH].
      * exists s'. split_and!; [by right|done|by eapply fltb_trans|]. intros j t [[= -> ->]|Hj]%elem_of_cons Ht; [|by eapply IH].
        destruct (fltb (ProviderSlot.LatencyEMA s) (ProviderSlot.LatencyEMA s')) eqn:Hc; [|done].
        pose proof (fltb_trans _ _ _ Hlt Hc) as Hbad. by rewrite fltb_irrefl in Hbad.
    + specialize (IH best m). destruct (least_latency now pool l best m) as [id|].
      * destruct IH as [[-> IH]|(s' & Hin & He' & Hlt & IH)].
        -- left. split; [done|]. intros j t [[= -> ->]|Hj]%elem_of_cons Ht; [done|by eapply IH].
        -- right. exists s'. split_and!; [by right|done|done|]. intros j t [[= -> ->]|Hj]%elem_of_cons Ht; [|by eapply IH].
           destruct (fltb (ProviderSlot.LatencyEMA s) (ProviderSlot.LatencyEMA s')) eqn:Hc; [|done].
           by rewrite (fltb_trans _ _ _ Hc Hlt) in Hm.
      * destruct IH as [-> IH]. split; [done|]. intros j t [[= -> ->]|Hj]%elem_of_cons Ht; [done|by eapply IH].
    + specialize (IH best m). destruct (least_latency now pool l best m) as [id|].
      * destruct IH as [[-> IH]|(s' & Hin & He' & Hlt & IH)].
        -- left. split; [done|]. intros j t [[= -> ->]|Hj]%elem_of_cons Ht; [congruence|by eapply IH].
        -- right. exists s'. split_and!; [by right|done|done|]. intros j t [[= -> ->]|Hj]%elem_of_cons Ht; [congruence|by eapply IH].
      * destruct IH as [-> IH]. split; [done|]. intros j t [[= -> ->]|Hj]%elem_of_cons Ht; [congruence|by eapply IH].
Qed.
Lemma eligible_spec now pool s : eligible now pool s = true ↔ ProviderSlot.PoolID s = pool ∧ IsHealthy now s = true.
Proof. unfold eligible. by rewrite andb_true_iff, String.eqb_eq. Qed.
Lemma Next_spec ord now pool slots (Hord : range_order slots ord) :
  match Next ord now pool slots with
  | (slots', Some id) =>
      ∃ s, slots !! id = Some s ∧ ProviderSlot.PoolID s = pool ∧ IsHealthy now s = true ∧
        (∀ j t, slots !! j = Some t → ProviderSlot.PoolID t = pool → IsHealthy now t = true →
           fltb (ProviderSlot.LatencyEMA t) (ProviderSlot.LatencyEMA s) = false) ∧
        slots' = <[id := revive s]> slots ∧ ProviderSlot.Status (revive s) = StatusHealthy
  | (slots', None) =>
      slots' = slots ∧
      ∀ j t, slots !! j = Some t → ProviderSlot.PoolID t = pool → IsHealthy now t = true →
        fltb (ProviderSlot.LatencyEMA t) max_float = false
  end.
Proof.
  unfold Next. pose proof (least_latency_spec now pool (range slots ord) None max_float) as Hs.
  destruct (least_latency _ _ _ _ _) as [id|].
  - destruct Hs as [[? _]|(s & Hin & [Hp Hh]%eligible_spec & _ & Hmin)]; [done|].
    apply (range_order_lookup _ _ _ _ Hord) in Hin. exists s. do 3 (split; [done|]). split; [|split; [by apply alter_Some|unfold revive; by case_bool_decide]].
    intros j t Hj Ht1 Ht2. eapply Hmin; [by apply (range_order_lookup _ _ _ _ Hord)|by apply eligible_spec].
  - destruct Hs as [_ Hmin]. split; [done|]. intros j t Hj Ht1 Ht2.
    eapply Hmin; [by apply (range_order_lookup _ _ _ _ Hord)|by apply eligible_spec].
Qed.

(** ** The frontier *)

Module valid.
Definition candidate (c : paretoCandidate.t) : Prop :=
  fis_nan (paretoCandidate.successRate c) = false ∧ fis_nan (paretoCandidate.tokenCost c) = false ∧ fis_nan (paretoCandidate.latencyMs c) = false.
End valid.

Lemma dominates_spec a b :
  dominates a b = true ↔
  fltb (paretoCandidate.successRate a) (paretoCandidate.successRate b) = false ∧
  fltb (paretoCandidate.tokenCost b) (paretoCandidate.tokenCost a) = false ∧
  fltb (paretoCandidate.latencyMs b) (paretoCandidate.latencyMs a) = false ∧
  (fltb (paretoCandidate.successRate b) (paretoCandidate.successRate a) = true ∨
   fltb (paretoCandidate.tokenCost a) (paretoCandidate.tokenCost b) = true ∨
   fltb (paretoCandidate.latencyMs a) (paretoCandidate.latencyMs b) = true).
Proof.
  unfold dominates. cbn.
  destruct (fltb (paretoCandidate.successRate a) _), (fltb (paretoCandidate.tokenCost b) _), (fltb (paretoCandidate.latencyMs b) _);
    try (split; [done|intros; by destruct_and!]).
  destruct (fltb (paretoCandidate.successRate b) _), (fltb (paretoCandidate.tokenCost a) _), (fltb (paretoCandidate.latencyMs a) _);
    cbn; naive_solver.
Qed.
Lemma dominates_irrefl a : dominates a a = false.
Proof. apply not_true_is_false. rewrite dominates_spec, !fltb_irrefl. intros (_ & _ & _ & [|[|]]); done. Qed.
Lemma dominates_trans a b c : valid.candidate a → valid.candidate b → valid.candidate c →
  dominates a b = true → dominates b c = true → dominates a c = true.
Proof.
  destruct a as [? sa ca la], b as [? sb cb lb], c as [? sc cc lc].
  intros (?&?&?) (?&?&?) (?&?&?). rewrite !dominates_spec. cbn in *. intros (A1&A2&A3&A) (B1&B2&B3&B).
  split_and!; [by eapply fleb_trans, A1|by eapply fleb_trans, B2|by eapply fleb_trans, B3|].
  destruct A as [A|[A|A]];
    [destruct (fltb_cotrans sb sc sa) | destruct (fltb_cotrans ca cc cb) | destruct (fltb_cotrans la lc lb)]; auto; congruence.
Qed.

Lemma FilterFrontier_spec l c :
  c ∈ FilterFrontier l ↔ c ∈ l ∧ ∀ d, d ∈ l → dominates d c = false.
Proof.
  unfold FilterFrontier. destruct (Nat.leb_spec (length l) 1) as [Hl|Hl].
  - destruct l as [|a [|b l]]; [set_solver| |cbn in Hl; lia]. rewrite list_elem_of_singleton. split; [|tauto].
    intros ->. split; [done|]. intros d ->%list_elem_of_singleton. apply dominates_irrefl.
  - rewrite list_elem_of_fmap. split.
    + intros ([i c'] & -> & [Hf Hin]%elem_of_filter_list). cbn.
      apply elem_of_lookup_imap in Hin as (i' & c'' & [= <- <-] & Hi). split; [by eapply list_elem_of_lookup_2|].
      intros d [j Hj]%list_elem_of_lookup. destruct (decide (i = j)) as [<-|]; [simplify_eq; apply dominates_irrefl|].
      apply not_true_is_false. intros Hd. apply negb_true_iff, not_true_iff_false in Hf.
      apply Hf, existsb_exists. exists (j, d). split; [apply list_elem_of_In, elem_of_lookup_imap; eauto|].
      cbn. rewrite Hd, andb_true_r. by apply negb_true_iff, Nat.eqb_neq.
    + intros [[i Hi]%list_elem_of_lookup Hd]. exists (i, c). split; [done|]. apply elem_of_filter_list. split.
      * apply negb_true_iff, not_true_iff_false. intros ([j d] & Hin & [_ Hdom]%andb_true_iff)%existsb_exists.
        apply list_elem_of_In, elem_of_lookup_imap in Hin as (j' & d' & [= <- <-] & Hj).
        rewrite Hd in Hdom; [done|by eapply list_elem_of_lookup_2].
      * apply elem_of_lookup_imap. eauto.
Qed.
(** Every candidate is on the frontier or dominated from it. *)
Lemma frontier_covers l d : Forall valid.candidate l → d ∈ l →
  ∃ f, f ∈ FilterFrontier l ∧ (f = d ∨ dominates f d = true).
Proof.
  intros Hv. remember (length (List.filter (λ x, dominates x d) l)) as n eqn:Hn.
  revert d Hn. induction n as [n IH] using lt_wf_ind. intros d -> Hd.
  destruct (existsb (λ x, dominates x d) l) eqn:He.
  - apply existsb_exists in He as (e & Hin & Hed). apply list_elem_of_In in Hin.
    rewrite Forall_forall in Hv.
    destruct (IH (length (List.filter (λ x, dominates x e) l))) with (d := e) as (f & Hf & Hfe); [|done|done|].
    + assert (Hsub : ∀ x, x ∈ l → dominates x e = true → dominates x d = true).
      { intros x Hx Hxe. apply (dominates_trans x e d); auto. }
      by apply (filter_length_lt _ _ l e); auto using dominates_irrefl.
    + exists f. split; [done|]. right. destruct Hfe as [->|Hfe]; [done|].
      apply FilterFrontier_spec in Hf as [Hf _]. apply (dominates_trans f e d); auto.
  - exists d. split; [|by left]. apply FilterFrontier_spec. split; [done|]. intros x Hx.
    apply not_true_is_false. intros Hxd. apply not_true_iff_false in He. apply He, existsb_exists.
    exists x. by rewrite <-list_elem_of_In.
Qed.

Section sort.
Context {A} (P : A → Prop) (less : A → A → bool).
Context (less_asym : ∀ x y, P x → P y → less x y = true → less y x = false).
Context (less_cotrans : ∀ x y z, P x → P y → P z → less x z = true → less x y = true ∨ less y z = true).
Lemma insert_back_perm x l : insert_back less x l ≡ₚ x :: l.
Proof using Type. induction l as [|y l IH]; cbn; [done|]. destruct (less x y); [|done]. rewrite IH. apply Permutation_swap. Qed.
Lemma insert_back_last x l :
  (Forall (λ y, less x y = true) l ∧ last (insert_back less x l) = Some x) ∨
  ∃ y, y ∈ l ∧ less x y = false ∧ last (insert_back less x l) = last l.
Proof using Type.
  induction l as [|y l IH]; cbn [insert_back]; [by left|]. destruct (less x y) eqn:Hy.
  - destruct IH as [[Hf Hl]|(z & Hz & Hxz & Hl)].
    + left. split; [by constructor|]. by rewrite last_cons, Hl.
    + right. exists z. split_and!; [by right|done|]. rewrite !last_cons, Hl.
      destruct (last l) eqn:E; [done|]. apply last_None in E as ->. by apply not_elem_of_nil in Hz.
  - right. exists y. by split_and!; [left|..].
Qed.
Lemma sort_slice_head l : Forall P l →
  sort_slice less l ≡ₚ l ∧ ∀ m, head (sort_slice less l) = Some m → ∀ x, x ∈ l → less x m = false.
Proof using Type*.
  intros Hl. unfold sort_slice. rewrite reverse_Permutation. setoid_rewrite head_reverse.
  assert (∀ acc, Forall P acc → (∀ m, last acc = Some m → ∀ x, x ∈ acc → less x m = false) →
    fold_left (λ acc x, insert_back less x acc) l acc ≡ₚ acc ++ l ∧
    ∀ m, last (fold_left (λ acc x, insert_back less x acc) l acc) = Some m → ∀ x, x ∈ acc ++ l → less x m = false) as H.
  { induction Hl as [|x l Hx Hl IH]; intros acc Hacc Hmin; cbn [fold_left].
    - rewrite app_nil_r. done.
    - rewrite Forall_forall in Hacc. destruct (IH (insert_back less x acc)) as [Hp Hm].
      + rewrite insert_back_perm. constructor; [done|by apply Forall_forall].
      + intros m Hlast y Hy. rewrite insert_back_perm in Hy. apply elem_of_cons in Hy.
        destruct (insert_back_last x acc) as [[Hf Hlx]|(z & Hz & Hxz & Hlx)]; rewrite Hlx in Hlast.
        * injection Hlast as <-. rewrite Forall_forall in Hf.
          destruct Hy as [->|Hy]; [|apply less_asym; auto].
          destruct (less x x) eqn:E; [|done]. pose proof (less_asym x x Hx Hx E). congruence.
        * assert (Hma : m ∈ acc) by (by apply last_Some_elem_of).
          destruct Hy as [->|Hy]; [|by eapply Hmin].
          destruct (less x m) eqn:E; [|done].
          destruct (less_cotrans x z m Hx (Hacc z Hz) (Hacc m Hma) E) as [|E']; [congruence|].
          by rewrite (Hmin m Hlast z Hz) in E'.
      + split; [rewrite Hp, insert_back_perm; solve_Permutation|]. intros m Hlast y Hy. apply Hm; [done|].
        rewrite insert_back_perm. set_solver. }
  apply (H []); [done|]. intros m [=].
Qed.
End sort.

Lemma frontier_less_spec a b : valid.candidate a → valid.candidate b →
  frontier_less a b =
  fltb (paretoCandidate.successRate b) (paretoCandidate.successRate a)
  || negb (fltb (paretoCandidate.successRate a) (paretoCandidate.successRate b)) && fltb (paretoCandidate.latencyMs a) (paretoCandidate.latencyMs b).
Proof.
  intros (Ha & _) (Hb & _). unfold frontier_less. rewrite feqb_fltb by done.
  destruct (fltb (paretoCandidate.successRate a) (paretoCandidate.successRate b)) eqn:E1; cbn.
  - by rewrite (fltb_asym _ _ E1).
  - by destruct (fltb (paretoCandidate.successRate b) _).
Qed.
Lemma frontier_less_asym a b : valid.candidate a → valid.candidate b → frontier_less a b = true → frontier_less b a = false.
Proof.
  intros Ha Hb. rewrite !frontier_less_spec by done. destruct a as [? sa ca la], b as [? sb cb lb]. cbn.
  destruct (fltb sb sa) eqn:E1; cbn; [by rewrite (fltb_asym _ _ E1)|].
  destruct (fltb sa sb) eqn:E2; cbn; [done|]. apply fltb_asym.
Qed.
Lemma frontier_less_cotrans a b c : valid.candidate a → valid.candidate b → valid.candidate c →
  frontier_less a c = true → frontier_less a b = true ∨ frontier_less b c = true.
Proof.
  intros Ha Hb Hc. rewrite !frontier_less_spec by done.
  destruct a as [? sa ca la], b as [? sb cb lb], c as [? sc cc lc], Ha as (?&?&?), Hb as (?&?&?), Hc as (?&?&?). cbn in *.
  destruct (fltb sc sa) eqn:E1; cbn.
  - intros _. destruct (fltb_cotrans sc sb sa) as [->| ->]; auto.
  - intros [E2%negb_true_iff E3]%andb_true_iff.
    destruct (fltb sb sa) eqn:F1; [by left|]. destruct (fltb sc sb) eqn:F2; [by right|]. cbn.
    destruct (fltb sa sb) eqn:F3; [destruct (fltb_cotrans sa sc sb); congruence|].
    destruct (fltb sb sc) eqn:F4; [destruct (fltb_cotrans sb sa sc); congruence|]. cbn.
    by apply fltb_cotrans.
Qed.

Definition numeric (lookup : ProfileLookup) (slots : Slots) : Prop :=
  (∀ m c sr tc lm, lookup m c = Some (sr, tc, lm) → fis_nan sr = false ∧ fis_nan tc = false ∧ fis_nan lm = false) ∧
  ∀ id s, slots !! id = Some s → fis_nan (ProviderSlot.LatencyEMA s) = false.
Lemma candidate_valid lookup cap slots id s : numeric lookup slots → slots !! id = Some s →
  valid.candidate (candidate_of lookup cap id s).1.
Proof.
  intros [Hl Hs] Hid. specialize (Hs _ _ Hid). unfold candidate_of, valid.candidate.
  destruct (lookup _ cap) as [[[sr tc] lm]|] eqn:E; [apply Hl in E as (?&?&?)|]; cbn; split_and!; try done;
    match goal with |- context [float_is_zero ?x] => destruct (float_is_zero x) end; done.
Qed.
Lemma candidate_slot lookup cap id s : paretoCandidate.slot (candidate_of lookup cap id s).1 = id.
Proof. unfold candidate_of. by destruct (lookup _ cap) as [[[] ]|]. Qed.

(** The head of the sorted frontier. *)
Lemma frontier_head l : Forall valid.candidate l → l ≠ [] →
  ∃ best rest, sort_slice frontier_less (FilterFrontier l) = best :: rest ∧ best ∈ l ∧
    ∀ d, d ∈ l → dominates d best = false ∧ fltb (paretoCandidate.successRate best) (paretoCandidate.successRate d) = false.
Proof.
  intros Hvalid Hne.
  destruct (sort_slice_head valid.candidate frontier_less frontier_less_asym frontier_less_cotrans (FilterFrontier l)) as [Hp Hm].
  { rewrite !Forall_forall in *. intros c [Hc _]%FilterFrontier_spec. by apply Hvalid. }
  destruct (sort_slice _ _) as [|best rest].
  { exfalso. destruct l as [|d l']; [done|]. destruct (frontier_covers (d :: l') d Hvalid) as (f & Hf & _); [by left|].
    rewrite <-Hp in Hf. by apply not_elem_of_nil in Hf. }
  exists best, rest. assert (Hb : best ∈ FilterFrontier l) by (rewrite <-Hp; by left).
  split; [done|]. apply FilterFrontier_spec in Hb as Hb'. split; [apply Hb'|]. intros d Hd. split; [by apply Hb'|].
  destruct (frontier_covers _ _ Hvalid Hd) as (f & Hf & Hfd). specialize (Hm best eq_refl f Hf).
  rewrite Forall_forall in Hvalid. rewrite frontier_less_spec in Hm by (apply Hvalid; by apply FilterFrontier_spec).
  apply orb_false_iff in Hm as [Hm _]. destruct Hfd as [->|(Hdom & _)%dominates_spec]; [done|].
  eapply fleb_trans; [|exact Hdom|exact Hm]. apply Hvalid. by apply FilterFrontier_spec in Hf as [].
Qed.

Definition in_pool (now : Z) (pool : string) (slots : Slots) (j : string) (t : ProviderSlot.t) : Prop :=
  slots !! j = Some t ∧ ProviderSlot.PoolID t = pool ∧ IsHealthy now t = true.
(** Some healthy slot of the pool has a profile. *)
Definition measured (now : Z) (pool cap : string) (lookup : ProfileLookup) (slots : Slots) : Prop :=
  ∃ j t, in_pool now pool slots j t ∧ is_Some (lookup (ProviderConfig.Model (ProviderSlot.Config t)) cap).
Lemma NextPareto_spec ord now pool cap lookup slots (Hord : range_order slots ord) (Hnum : numeric lookup slots) :
  let pick id s := (candidate_of lookup cap id s).1 in
  (measured now pool cap lookup slots ∧
   match NextPareto ord now pool cap (Some lookup) slots with
   | (slots', Some id) =>
       ∃ s, in_pool now pool slots id s ∧ slots' = <[id := revive s]> slots ∧
         ∀ j t, in_pool now pool slots j t →
           dominates (pick j t) (pick id s) = false ∧
           fltb (paretoCandidate.successRate (pick id s)) (paretoCandidate.successRate (pick j t)) = false
   | (_, None) => False
   end) ∨
  (¬ measured now pool cap lookup slots ∧ NextPareto ord now pool cap (Some lookup) slots = Next ord now pool slots).
Proof.
  intros pick. unfold NextPareto.
  set (hs := List.filter _ _). set (cands := map _ hs).
  assert (Hhs : ∀ j t, (j, t) ∈ hs ↔ in_pool now pool slots j t).
  { intros j t. unfold hs, in_pool. rewrite elem_of_filter_list, eligible_spec, (range_order_lookup _ _ _ _ Hord). tauto. }
  assert (Hcands : ∀ c, c ∈ cands ↔ ∃ j t, in_pool now pool slots j t ∧ c = candidate_of lookup cap j t).
  { intros c. unfold cands. setoid_rewrite list_elem_of_fmap. split.
    - intros ([j t] & -> & H%Hhs). eauto.
    - intros (j & t & H%Hhs & ->). by exists (j, t). }
  assert (Hpick : ∀ c, c ∈ cands.*1 ↔ ∃ j t, in_pool now pool slots j t ∧ c = pick j t).
  { intros c. rewrite list_elem_of_fmap. setoid_rewrite Hcands. unfold pick. naive_solver. }
  assert (Hany : existsb snd cands = true ↔ measured now pool cap lookup slots).
  { rewrite existsb_exists. setoid_rewrite <-list_elem_of_In. setoid_rewrite Hcands. unfold measured.
    assert (∀ j t, (candidate_of lookup cap j t).2 = true ↔ is_Some (lookup (ProviderConfig.Model (ProviderSlot.Config t)) cap)) as Hf.
    { intros j t. unfold candidate_of. destruct (lookup _ cap) as [[[] ]|]; [by split; eauto|]. split; [done|by intros []]. }
    setoid_rewrite <-Hf. naive_solver. }
  assert (Hvalid : Forall valid.candidate cands.*1).
  { apply Forall_forall. intros c (j & t & (Hj & _) & ->)%Hpick. by eapply candidate_valid. }
  assert (Hnil : hs = [] → ¬ measured now pool cap lookup slots).
  { intros H0 (j & t & H%Hhs & _). rewrite H0 in H. by apply not_elem_of_nil in H. }
  destruct (existsb snd cands); [left; pose proof (proj1 Hany eq_refl) as Hm; split; [done|]; clear Hany|right; assert (¬ measured now pool cap lookup slots) as Hm by (by rewrite <-Hany); split; [done|]; clear Hany]; cbn [negb].
  -
    destruct (Nat.eqb_spec (length hs) 0) as [H0%nil_length_inv|H0]; [by destruct Hnil|].
    destruct (frontier_head cands.*1 Hvalid) as (best & rest & -> & Hb & Hbest).
    { intros E. destruct Hm as (j & t & Hj & _). apply (not_elem_of_nil (pick j t)). rewrite <-E. apply Hpick. eauto. }
    apply Hpick in Hb as (id & s & Hs & Eb). assert (paretoCandidate.slot best = id) as -> by (rewrite Eb; apply candidate_slot).
    exists s. split; [done|]. split; [by apply alter_Some, Hs|]. intros j t Hj. rewrite <-Eb. apply Hbest, Hpick. eauto.
  - destruct (Nat.eqb_spec (length hs) 0) as [H0%nil_length_inv|H0]; [|done].
    unfold Next. pose proof (least_latency_spec now pool (range slots ord) None max_float) as Hs.
    destruct (least_latency _ _ _ _ _) as [id|]; [|done]. destruct Hs as [[? _]|(s & Hin & He & _)]; [done|].
    assert ((id, s) ∈ hs) as Hbad by (unfold hs; by apply elem_of_filter_list). rewrite H0 in Hbad. by apply not_elem_of_nil in Hbad.
Qed.

(** With profiles for a slot of the pool, routing picks a healthy slot of
    the pool that no other dominates in success rate, cost and latency, and none
    has a higher success rate; otherwise it picks one that none undercuts in
    latency.  It fails only when the pool has no healthy slot (of measurable
    latency), and marks the slot it picks healthy. *)
Theorem route_choice ord now capLookup pool cap slots (Hord : range_order slots ord)
    (Hnum : ∀ lookup, capLookup = Some lookup → numeric lookup slots) :
  match routeProvider ord now capLookup pool cap slots with
  | (slots', Some id) =>
      ∃ s, in_pool now pool slots id s ∧ slots' = <[id := revive s]> slots ∧ ProviderSlot.Status (revive s) = StatusHealthy ∧
        ((∃ lookup, capLookup = Some lookup ∧ cap ≠ "" ∧ measured now pool cap lookup slots ∧
            ∀ j t, in_pool now pool slots j t →
              let pick id s := (candidate_of lookup cap id s).1 in
              dominates (pick j t) (pick id s) = false ∧
              fltb (paretoCandidate.successRate (pick id s)) (paretoCandidate.successRate (pick j t)) = false) ∨
         (∀ lookup, capLookup = Some lookup → cap ≠ "" → ¬ measured now pool cap lookup slots) ∧
          ∀ j t, in_pool now pool slots j t → fltb (ProviderSlot.LatencyEMA t) (ProviderSlot.LatencyEMA s) = false)
  | (slots', None) => slots' = slots ∧ ∀ j t, in_pool now pool slots j t → fltb (ProviderSlot.LatencyEMA t) max_float = false
  end.
Proof.
  assert (Hrev : ∀ s, ProviderSlot.Status (revive s) = StatusHealthy) by (intros s; unfold revive; by case_bool_decide).
  assert (Hcase : (∃ lookup, capLookup = Some lookup ∧ cap ≠ "" ∧ routeProvider ord now capLookup pool cap slots = NextPareto ord now pool cap (Some lookup) slots) ∨
    ((∀ lookup, capLookup = Some lookup → cap ≠ "" → False) ∧ routeProvider ord now capLookup pool cap slots = Next ord now pool slots)).
  { unfold routeProvider. destruct capLookup as [l|]; [|right; naive_solver].
    destruct (String.eqb_spec cap ""); [right; naive_solver|left; eauto]. }
  assert (Hsplit : (∃ lookup, capLookup = Some lookup ∧ cap ≠ "" ∧ measured now pool cap lookup slots ∧
      routeProvider ord now capLookup pool cap slots = NextPareto ord now pool cap (Some lookup) slots) ∨
    ((∀ lookup, capLookup = Some lookup → cap ≠ "" → ¬ measured now pool cap lookup slots) ∧
      routeProvider ord now capLookup pool cap slots = Next ord now pool slots)).
  { destruct Hcase as [(lookup & -> & Hcap & E)|[Hno E]]; [|right; naive_solver].
    destruct (NextPareto_spec ord now pool cap lookup slots Hord (Hnum _ eq_refl)) as [[Hm _]|[Hm Hp]]; [left; eauto|].
    right. rewrite E, Hp. split; [by intros ? [= <-]|done]. }
  destruct Hsplit as [(lookup & Hl & Hcap & Hm & ->)|[Hno ->]].
  - destruct (NextPareto_spec ord now pool cap lookup slots Hord (Hnum _ Hl)) as [[_ Hp]|[? _]]; [|done].
    destruct (NextPareto _ _ _ _ _ _) as [slots' [id|]]; [|done]. destruct Hp as (s & Hs & -> & Hp).
    exists s. do 3 (split; [done|]). left. exists lookup. done.
  - pose proof (Next_spec ord now pool slots Hord) as Hn. destruct (Next _ _ _ _) as [slots' [id|]].
    + destruct Hn as (s & ? & ? & ? & Hmin & -> & _). exists s. do 3 (split; [done|]). right. split; [done|].
      intros j t (?&?&?). by eapply Hmin.
    + destruct Hn as [-> Hn]. split; [done|]. intros j t (?&?&?). by eapply Hn.
Qed.

(** ** The retry loop *)

(** The pause before attempt [n] after the error [e]: what the service asks
    for, or [2^(n-1)] seconds give or take a tenth. *)
Definition pause (n : nat) (e : Error) (d : Z) : Prop :=
  match as_rate_limit e with
  | Some ra => if 0 <? ra then d = wrap64 (ra * Second) else Z.abs (10 * d - 10 * (2 ^ (Z.of_nat n - 1) * Second)) <= 2 ^ (Z.of_nat n - 1) * Second
  | None => Z.abs (10 * d - 10 * (2 ^ (Z.of_nat n - 1) * Second)) <= 2 ^ (Z.of_nat n - 1) * Second
  end.
Lemma backoff_exact n : (1 <= n <= 33)%nat → backoff n = 2 ^ (Z.of_nat n - 1) * Second ∧ Second <= backoff n < 2 ^ 62.
Proof.
  intros Hn. assert (1 <= 2 ^ (Z.of_nat n - 1) <= 2 ^ 32) as [H1 H2].
  { split; [apply (Z.pow_le_mono_r 2 0); lia|apply Z.pow_le_mono_r; lia]. }
  change (2 ^ 32) with 4294967296 in H2. unfold backoff. revert H1 H2. generalize (2 ^ (Z.of_nat n - 1)). intros x H1 H2.
  change (2 ^ 62) with 4611686018427387904. unfold Second.
  rewrite (wrap64_id x), wrap64_id; unfold in_int64; change int64_min with (-9223372036854775808); change int64_max with 9223372036854775807; lia.
Qed.
Lemma jittered n r : (1 <= n <= 33)%nat →
  let b := backoff n in
  (b ÷ 5 + 1 <=? 0) = false ∧
  Z.abs (10 * wrap64 (b + (r mod (b ÷ 5 + 1) - b ÷ 10)) - 10 * (2 ^ (Z.of_nat n - 1) * Second)) <= 2 ^ (Z.of_nat n - 1) * Second.
Proof.
  intros Hn b. destruct (backoff_exact n Hn) as [E Hb]. fold b in E, Hb. rewrite <-E. unfold Second in E, Hb.
  revert E. generalize (2 ^ (Z.of_nat n - 1)). intros x E.
  change (2 ^ 62) with 4611686018427387904 in Hb.
  rewrite !Z.quot_div_nonneg by lia.
  pose proof (Z.div_mod b 5 ltac:(lia)). pose proof (Z.mod_pos_bound b 5 ltac:(lia)).
  pose proof (Z.div_mod b 10 ltac:(lia)). pose proof (Z.mod_pos_bound b 10 ltac:(lia)).
  pose proof (Z.mod_pos_bound r (b / 5 + 1) ltac:(lia)).
  split; [apply Z.leb_gt; lia|]. rewrite wrap64_id;
    unfold in_int64; change int64_min with (-9223372036854775808); change int64_max with 9223372036854775807; lia.
Qed.
Lemma wait_time_pause n e r : (1 <= n <= 33)%nat → ∃ d, wait_time n e r = Some d ∧ pause n e d.
Proof.
  intros Hn. destruct (jittered n r Hn) as [H1 H2]. unfold wait_time, pause. cbv zeta. rewrite H1.
  destruct (as_rate_limit e) as [ra|]; [destruct (0 <? ra)|]; eauto.
Qed.

Section retries.
Context {Req Resp : Type}.
Context (reply : BackendKind → ProviderConfig.t → nat → Z → Call Req → Reply.t Resp).
Context (cancel : option (Z * Error)).

Definition reported (slotID : string) (startTime endTime : Z) (r : result Error Resp) (slots : Slots) : Slots :=
  if String.eqb slotID "" then slots
  else
    match r with
    | Ok _ => ReportSuccess slotID (float_of_int (milliseconds (endTime - startTime))) slots
    | Err e => match as_rate_limit e with Some ra => ReportRateLimit endTime slotID ra slots | None => ReportError endTime slotID slots end
    end.
Lemma wait_spec n e (w : World.t Req) : (1 <= n <= 33)%nat →
  ∃ d, pause n e d ∧
    World.calls (wait cancel n e w).1 = World.calls w ∧ World.slots (wait cancel n e w).1 = World.slots w ∧
    ((wait cancel n e w).2 = Some None ∧ World.now (wait cancel n e w).1 = World.now w + Z.max 0 d ∨
     ∃ c ec, cancel = Some (c, ec) ∧ c < World.now w + d ∧ (wait cancel n e w).2 = Some (Some ec)).
Proof using Type.
  intros Hn. unfold wait. destruct (wait_time_pause n e (default 0 (head (World.entropy w))) Hn) as (d & -> & Hp).
  exists d. split; [done|].
  set (w1 := if match as_rate_limit e with Some ra => 0 <? ra | None => false end then w else _).
  assert (World.calls w1 = World.calls w ∧ World.slots w1 = World.slots w ∧ World.now w1 = World.now w) as (E1 & E2 & E3) by (unfold w1; by case_match).
  unfold sleep. rewrite <-E1, <-E2, <-E3. destruct (Z.leb_spec d 0); cbn; [split_and!; try done; left; split; [done|lia]|].
  destruct cancel as [[c ec]|]; [destruct (Z.ltb_spec c (World.now w1 + d))|]; cbn; (do 2 (split; [done|])).
  - right. eauto 10.
  - left. split; [done|lia].
  - left. split; [done|lia].
Qed.

(** What a run of the loop from attempt [n] on did: the instants of its calls,
    the pauses between them, and how it ended.  [R j t] is the reply to the
    [j]-th call of the run of the program, [k] the number of earlier ones. *)
Definition ran (R : nat → Z → Reply.t Resp) (k : nat) (slot : string) (start : Z) (more n : nat) (ts : list Z) (sl sl' : Slots) (o : Outcome Resp) : Prop :=
  (length ts <= S more)%nat ∧
  (∀ i t t', ts !! i = Some t → ts !! S i = Some t' →
     ∃ e d, Reply.outcome (R (k + i)%nat t) = Err e ∧ isRetryable e = true ∧ pause (n + i) e d ∧ t' = t + Reply.took (R (k + i)%nat t) + Z.max 0 d) ∧
  ∃ t, last ts = Some t ∧
    let r := R (k + pred (length ts))%nat t in
    let tend := t + Reply.took r in
    ((match Reply.outcome r with Ok _ => True | Err e => isRetryable e = false ∨ length ts = S more end) ∧
     o = Returned (Reply.outcome r) ∧ sl' = reported slot start tend (Reply.outcome r) sl) ∨
    ∃ e d c ec, Reply.outcome r = Err e ∧ isRetryable e = true ∧ (length ts <= more)%nat ∧ pause (n + pred (length ts)) e d ∧
      cancel = Some (c, ec) ∧ c < tend + d ∧ o = Returned (Err ec) ∧ sl' = sl.
Lemma reportError_slots slot e (w : World.t Req) start :
  World.slots (reportError slot e w) = reported slot start (World.now w) (Err e) (World.slots w) ∧ World.calls (reportError slot e w) = World.calls w.
Proof using Type. unfold reportError, reported. by destruct (String.eqb slot ""), (as_rate_limit e). Qed.
Lemma reportSuccess_slots slot r (w : World.t Req) start :
  World.slots (reportSuccess slot start w) = reported slot start (World.now w) (Ok r) (World.slots w) ∧ World.calls (reportSuccess slot start w) = World.calls w.
Proof using Type. unfold reportSuccess, reported. by destruct (String.eqb slot ""). Qed.

Lemma ran_one R k slot start more n t sl :
  let r := R k t in
  (match Reply.outcome r with Ok _ => True | Err e => isRetryable e = false ∨ more = 0%nat end) →
  ran R k slot start more n [t] sl (reported slot start (t + Reply.took r) (Reply.outcome r) sl) (Returned (Reply.outcome r)).
Proof using Type.
  intros r H. split; [cbn; lia|]. split; [by intros [|[]] ?? ? [=]|]. exists t. split; [done|]. cbn. rewrite Nat.add_0_r. left. split; [|done].
  fold r. destruct (Reply.outcome r); naive_solver.
Qed.
Lemma ran_cancelled R k slot start more n t sl e d c ec :
  Reply.outcome (R k t) = Err e → isRetryable e = true → pause n e d → cancel = Some (c, ec) → c < t + Reply.took (R k t) + d →
  ran R k slot start (S more) n [t] sl sl (Returned (Err ec)).
Proof using Type.
  intros. split; [cbn; lia|]. split; [by intros [|[]] ?? ? [=]|]. exists t. split; [done|]. right. exists e, d, c, ec.
  cbn. rewrite !Nat.add_0_r. split_and!; try done. lia.
Qed.
Lemma ran_cons R k slot start more n t t' ts sl sl' o e d :
  Reply.outcome (R k t) = Err e → isRetryable e = true → pause n e d → head ts = Some t' →
  t' = t + Reply.took (R k t) + Z.max 0 d →
  ran R (S k) slot start more (S n) ts sl sl' o → ran R k slot start (S more) n (t :: ts) sl sl' o.
Proof using Type.
  intros He Hr Hp Hhd Ht' (Hlen & Hsteps & tl & Hlast & Hend). destruct ts as [|t0 ts]; [done|]. injection Hhd as ->.
  split; [cbn in *; lia|]. split.
  - intros [|i] a b; cbn.
    + intros [= <-] [= <-]. exists e, d. by rewrite !Nat.add_0_r.
    + intros Ha Hb. rewrite <-!Nat.add_succ_comm. by apply Hsteps.
  - exists tl. split; [done|]. cbn [length pred] in *. rewrite <-!Nat.add_succ_comm. destruct Hend as [(Ho & ? & ?)|(e' & d' & c & ec & ? & ? & ? & Hp' & ?)].
    + left. split; [|done]. revert Ho. destruct (Reply.outcome (R (S k + length ts)%nat tl)); [done|]. intros [Ho|Ho]; [by left|right; lia].
    + right. exists e', d', c, ec. do 2 (split; [done|]). split; [lia|]. split; [done|done].
Qed.

Lemma attempt_cases kind cfg c slot start next w :
  let r := backend_reply reply kind cfg (length (World.calls w)) (World.now w) c in
  let res := attempt (call_backend reply kind cfg c) slot start next w in
  ((match Reply.outcome r with Ok _ => True | Err e => isRetryable e = false end) ∧
    World.calls res.1 = World.calls w ++ [(kind, cfg, c)] ∧
    World.slots res.1 = reported slot start (World.now w + Reply.took r) (Reply.outcome r) (World.slots w) ∧
    res.2 = Returned (Reply.outcome r)) ∨
  ∃ e w1, Reply.outcome r = Err e ∧ isRetryable e = true ∧ World.calls w1 = World.calls w ++ [(kind, cfg, c)] ∧
    World.slots w1 = World.slots w ∧ World.now w1 = World.now w + Reply.took r ∧ res = next e w1.
Proof using Type.
  intros r res. unfold res, attempt. destruct (call_backend reply kind cfg c w) as [w1 o] eqn:Eb.
  unfold call_backend in Eb. cbv zeta in Eb. fold r in Eb. injection Eb as Ew <-.
  assert (World.calls w1 = World.calls w ++ [(kind, cfg, c)] ∧ World.slots w1 = World.slots w ∧
    World.now w1 = World.now w + Reply.took r) as (Ec & Es & En) by (subst w1; split_and!; [done..|apply Z.add_comm]).
  clear Ew. destruct (Reply.outcome r) as [x|e]; [left|destruct (isRetryable e) eqn:Hr; [right; eauto 10|left]].
  - destruct (reportSuccess_slots slot x w1 start) as [Rs Rc]. cbn [fst snd negb]. by rewrite Rs, Rc, Es, En.
  - destruct (reportError_slots slot e w1 start) as [Rs Rc]. cbn [fst snd negb]. by rewrite Rs, Rc, Es, En.
Qed.
Lemma attempts_ran kind cfg c slot start more : ∀ n w, (1 <= n)%nat → (n + more <= 34)%nat →
  let R j t := backend_reply reply kind cfg j t c in
  let res := attempt (call_backend reply kind cfg c) slot start (retry cancel (call_backend reply kind cfg c) slot start more n) w in
  ∃ ts, head ts = Some (World.now w) ∧ World.calls res.1 = World.calls w ++ replicate (length ts) (kind, cfg, c) ∧
    ran R (length (World.calls w)) slot start more n ts (World.slots w) (World.slots res.1) res.2.
Proof using Type.
  induction more as [|more IH]; intros n w Hn Hle R; cbv zeta.
  all: match goal with |- context [attempt _ _ _ ?next _] =>
    destruct (attempt_cases kind cfg c slot start next w) as [(Ho & Hc & Hs & He)|(e & w1 & Eo & Hr & Ec & Es & En & ->)] end.
  1, 3: exists [World.now w]; split; [done|]; split; [exact Hc|]; rewrite Hs, He; apply ran_one; revert Ho; destruct (Reply.outcome _); auto.
  - cbn [retry]. exists [World.now w]. destruct (reportError_slots slot e w1 start) as [E1 E2].
    split; [done|]. cbn [fst snd length replicate].
    split; [congruence|]. rewrite E1, Es, En, <-Eo. apply ran_one. unfold R. rewrite Eo. by right.
  - cbn [retry]. destruct (wait_spec n e w1) as (d & Hp & Wc & Ws & Hwait); [lia|].
    destruct (wait cancel n e w1) as [w2 o2]. cbn [fst snd] in *. rewrite Ec in Wc. rewrite Es in Ws. rewrite En in Hwait.
    destruct Hwait as [[-> En2]|(tc & ec & Ecancel & Hlt & ->)]; cbn [fst snd].
    + destruct (IH (S n) w2) as (ts & Hhd & Hcalls & Hran); [lia..|]. exists (World.now w :: ts). split; [done|]. split.
      { rewrite Hcalls, Wc. by rewrite <-app_assoc. }
      rewrite <-Ws. eapply ran_cons; try done. rewrite Wc, length_app, Nat.add_1_r in Hran. exact Hran.
    + exists [World.now w]. split; [done|]. split; [done|]. rewrite Ws. by eapply ran_cancelled.
Qed.
End retries.

(** C17: a retrying provider calls its backend at least once and at most
    [MaxRetries + 1] times, each time with the same request; it calls again only
    after a retryable error and after a pause of what the service asked for, or
    of [2^i] seconds give or take a tenth.  It ends with the last reply, reported
    once to the router's slot, or with the context's error, which is not
    reported. *)
Theorem retry_exact {Req Resp} (reply : BackendKind → ProviderConfig.t → nat → Z → Call Req → Reply.t Resp) cancel kind cfg n slot c w
    (Hn : (n <= 33)%nat) :
  let res := invoke reply cancel (Retrying (Backend kind cfg) n slot) c w in
  ∃ ts, head ts = Some (World.now w) ∧ World.calls res.1 = World.calls w ++ replicate (length ts) (kind, cfg, c) ∧
    ran cancel (λ j t, backend_reply reply kind cfg j t c) (length (World.calls w)) slot (World.now w) n 1 ts
      (World.slots w) (World.slots res.1) res.2.
Proof. apply attempts_ran; lia. Qed.

(** ** The state of the package *)

(** What the cache and the slots hold: a backend behind a retry loop that
    reports to the slot of its key, perhaps behind a limiter. *)
Definition bare (limiters : gmap string LeakyBucket.t) (key : string) (p : Provider) : Prop :=
  ∃ kind cfg, providerCacheKey cfg = key ∧
    (p = Retrying (Backend kind cfg) 3 key ∨ p = RateLimited (Retrying (Backend kind cfg) 3 key) key ∧ is_Some (limiters !! key)).
Definition health_ok (s : ProviderSlot.t) : Prop :=
  match ProviderSlot.Status s with
  | StatusHealthy => 0 <= ProviderSlot.FailCount s < 3
  | StatusRateLimited => 1 <= ProviderSlot.FailCount s
  | StatusError => 3 <= ProviderSlot.FailCount s
  end.
Definition slot_ok (limiters : gmap string LeakyBucket.t) (id : string) (s : ProviderSlot.t) : Prop :=
  ProviderSlot.ID s = id ∧ providerCacheKey (ProviderSlot.Config s) = id ∧ ProviderSlot.PoolID s = PoolIDFor (ProviderSlot.Config s) ∧
  bare limiters id (ProviderSlot.Provider s) ∧ health_ok s.
Definition wired {Req} (w : World.t Req) : Prop :=
  (∀ key p, World.cache w !! key = Some p → bare (World.limiters w) key p) ∧
  (∀ id s, World.slots w !! id = Some s → slot_ok (World.limiters w) id s).

Lemma slots_alter lims (slots : Slots) f id :
  (∀ s, slot_ok lims id s → slot_ok lims id (f s)) →
  (∀ i s, slots !! i = Some s → slot_ok lims i s) → ∀ i s, alter f id slots !! i = Some s → slot_ok lims i s.
Proof.
  intros Hf Hs i s. destruct (decide (id = i)) as [<-|].
  - rewrite (lookup_alter_eq (M := gmap string)). destruct (slots !! id) as [s0|] eqn:E; [|done]. intros [= <-]. by apply Hf, Hs.
  - rewrite (lookup_alter_ne (M := gmap string)) by done. apply Hs.
Qed.
Lemma revive_ok lims id s : slot_ok lims id s → slot_ok lims id (revive s).
Proof. unfold revive. case_bool_decide; [done|]. intros (?&?&?&?&?). split_and!; try done. Qed.
Lemma report_ok lims id s now ms : slot_ok lims id s →
  slot_ok lims id (slot_ReportSuccess ms s) ∧ slot_ok lims id (slot_ReportError now s) ∧ ∀ ra, slot_ok lims id (slot_ReportRateLimit now ra s).
Proof.
  intros (?&?&?&?&Hh). split_and!; [done..|split_and!; [done..|]|intros ra; split_and!; [done..|]].
  - unfold health_ok, slot_ReportError in *. cbn. destruct (Z.leb_spec 3 (ProviderSlot.FailCount s + 1)); cbn; [done|].
    destruct (ProviderSlot.Status s); lia.
  - unfold health_ok, slot_ReportRateLimit in *. cbn. destruct (ProviderSlot.Status s); lia.
Qed.

Section wired.
Context {Req Resp : Type}.
Context (reply : BackendKind → ProviderConfig.t → nat → Z → Call Req → Reply.t Resp).
Context (cancel : option (Z * Error)).
Abbreviation W := (World.t Req).

(** Two worlds that agree on the cache, the slots and the limiters present. *)
Lemma wired_ext (w w' : W) :
  wired w → World.cache w' = World.cache w → World.slots w' = World.slots w → dom (World.limiters w') = dom (World.limiters w) → wired w'.
Proof using Type.
  intros [H1 H2] Ec Es El.
  assert (Hb : ∀ k p, bare (World.limiters w) k p → bare (World.limiters w') k p).
  { intros k p (kind & cfg & ? & [?|[? Hl]]); exists kind, cfg; (split; [done|]); [by left|right]. split; [done|].
    apply elem_of_dom. rewrite El. by apply elem_of_dom. }
  split; [intros k p; rewrite Ec; eauto|intros i s; rewrite Es; intros (?&?&?&?&?)%H2; split_and!; eauto].
Qed.
Definition keeps (f : W → W * Outcome Resp) : Prop := ∀ w, wired w → wired (f w).1.
Lemma backend_keeps kind cfg c : keeps (call_backend reply kind cfg c).
Proof using Type. intros w Hw. by apply (wired_ext w). Qed.
Lemma reportSuccess_wired slot start (w : W) : wired w → wired (reportSuccess slot start w).
Proof using Type.
  intros [H1 H2]. unfold reportSuccess. destruct (String.eqb slot ""); [done|]. split; [done|].
  apply slots_alter; [|done]. intros s Hs. by apply (report_ok _ _ _ 0).
Qed.
Lemma reportError_wired slot e (w : W) : wired w → wired (reportError slot e w).
Proof using Type.
  intros [H1 H2]. unfold reportError. destruct (String.eqb slot ""); [done|].
  destruct (as_rate_limit e); (split; [done|]); (apply slots_alter; [|done]); intros s Hs; by apply (report_ok _ _ _ _ (S754_zero false)).
Qed.
Lemma wait_wired n e (w : W) : wired w → wired (wait cancel n e w).1.
Proof using Type.
  intros Hw. apply (wired_ext w); [done|..]; unfold wait, sleep; repeat case_match; simplify_eq/=; done.
Qed.
Lemma attempt_keeps base slot start next : keeps base → (∀ e, keeps (next e)) → keeps (attempt base slot start next).
Proof using Type.
  intros Hb Hn w Hw. unfold attempt. specialize (Hb w Hw). destruct (base w) as [w1 [[r|e]|]]; cbn in *; [by apply reportSuccess_wired| |done].
  destruct (isRetryable e); [by apply Hn|by apply reportError_wired].
Qed.
Lemma retry_keeps base slot start more : keeps base → ∀ n e, keeps (retry cancel base slot start more n e).
Proof using Type.
  intros Hb. induction more as [|more IH]; intros n e w Hw; cbn [retry]; [by apply reportError_wired|].
  pose proof (wait_wired n e w Hw) as Hw'. destruct (wait cancel n e w) as [w' [[|]|]]; [done| |done]. by apply attempt_keeps.
Qed.
Lemma limited_keeps base lim : keeps base → keeps (call_limited cancel base lim).
Proof using Type.
  intros Hb w Hw. unfold call_limited. destruct (World.limiters w !! lim) as [b|] eqn:El; [|by apply Hb].
  destruct (Wait b _ _ _) as [b' [t|t]]; cbn [fst]; [apply Hb|]; apply (wired_ext w); try done;
    cbn; by rewrite dom_insert_L, subseteq_union_1_L by (apply singleton_subseteq_l, elem_of_dom; eauto).
Qed.
Lemma each_keeps ps : Forall keeps ps → ∀ e, keeps (try_each ps e).
Proof using Type.
  induction 1 as [|p ps Hp _ IH]; intros e w Hw; cbn [try_each]; [done|].
  specialize (Hp w Hw). destruct (p w) as [w1 [[|]|]]; [done|by apply IH|done].
Qed.
Lemma invoke_keeps c : ∀ p, keeps (invoke reply cancel p c).
Proof using Type.
  fix IH 1. intros [kind cfg|b n slot|b lim|ps]; cbn [invoke].
  - apply backend_keeps.
  - intros w. apply attempt_keeps; [apply IH|]. intros e. apply retry_keeps, IH.
  - apply limited_keeps, IH.
  - apply each_keeps. induction ps as [|p ps IHps]; constructor; [apply IH|exact IHps].
Qed.
End wired.

Lemma newProvider_backend load sha cfg p : newProvider load sha cfg = Ok p → ∃ kind, p = Backend kind cfg.
Proof.
  unfold newProvider, script_backend. cbv zeta. intros H.
  repeat match type of H with context [if ?b then _ else _] => destruct b end; simplify_eq; eauto;
    repeat (case_match; simplify_eq; eauto);
    match goal with H : rbind _ _ = _ |- _ => apply rbind_ok in H as (? & _ & [= <-]); eauto end.
Qed.

Lemma bare_mono lims lims' key p : dom lims ⊆ dom lims' → bare lims key p → bare lims' key p.
Proof.
  intros Hd (kind & cfg & ? & [?|[? Hl]]); exists kind, cfg; (split; [done|]); [by left|right]. split; [done|].
  apply elem_of_dom, Hd. by apply elem_of_dom.
Qed.
(** What [Get] adds for a new provider. *)
Definition enter {Req} (cfg : ProviderConfig.t) (pNew : Provider) (w : World.t Req) : World.t Req * Provider :=
  let key := providerCacheKey cfg in
  let '(w, p) := wrap cfg pNew w in
  (w <| World.cache ::= <[key := p]> |> <| World.slots ::= Register key cfg p |>, p).
Lemma enter_spec {Req} cfg kind (w : World.t Req) :
  let '(w', p) := enter cfg (Backend kind cfg) w in
  World.cache w' = <[providerCacheKey cfg := p]> (World.cache w) ∧ World.globalFallback w' = World.globalFallback w ∧
  (wired w → wired w').
Proof.
  unfold enter, wrap. set (key := providerCacheKey cfg).
  assert (Hgo : ∀ lims p, dom (World.limiters w) ⊆ dom lims → bare lims key p → wired w →
    (∀ k q, <[key := p]> (World.cache w) !! k = Some q → bare lims k q) ∧
    (∀ i s, Register key cfg p (World.slots w) !! i = Some s → slot_ok lims i s)).
  { intros lims p Hd Hp [H1 H2]. split.
    - intros k q. rewrite lookup_insert_Some. intros [[<- <-]|[_ Hk]]; [done|]. eapply bare_mono; eauto.
    - intros i s. unfold Register. rewrite lookup_insert_Some. intros [[<- <-]|[_ Hi]]; [done|].
      destruct (H2 i s Hi) as (?&?&?&?&?). split_and!; try done. eapply bare_mono; eauto. }
  destruct (ProviderConfig.RateLimit cfg) as [rpm|]; [unfold NewLeakyBucket; destruct (Z.ltb_spec 0 rpm); [destruct (Z.leb_spec rpm 0); [lia|]|]|];
    (split; [done|]); (split; [done|]); intros Hw; (apply Hgo; [|exists kind, cfg; split; [done|]|done]).
  1: cbn; rewrite dom_insert_L; set_solver.
  2, 4: done.
  1: right; split; [done|]; cbn; rewrite (lookup_insert_eq (M := gmap string)); eauto.
  all: by left.
Qed.

(** A configuration and all those in its fallback chains. *)
Fixpoint all_configs (cfg : ProviderConfig.t) : list ProviderConfig.t :=
  match cfg with ProviderConfig.mk _ _ _ _ _ _ _ _ _ _ _ _ chain => cfg :: flat_map all_configs chain end.

Section Get.
Context {Req Resp : Type}.
Context (load_script : BackendKind → ProviderConfig.t → string → result string unit).
Context (file_sha256 : string → result string string).
Context (order : gmap string ProviderSlot.t → list string).
Abbreviation W := (World.t Req).
Abbreviation Get := (Get load_script file_sha256 order).

Lemma Get_unfold fuel cfg (w : W) :
  Get (S fuel) cfg w =
  match World.cache w !! providerCacheKey cfg with
  | Some p => Some (w, Ok p)
  | None =>
      match LookupByConfig (order (World.slots w)) (World.now w) (providerCacheKey cfg) (World.slots w) with
      | Some p => Some (w <| World.cache ::= <[providerCacheKey cfg := p]> |>, Ok p)
      | None =>
          match newProvider load_script file_sha256 cfg with
          | Err e => Some (w, Err e)
          | Ok pNew =>
              let '(w, p) := enter cfg pNew w in
              match match ProviderConfig.FallbackChain cfg with [] => World.globalFallback w | l => l end with
              | [] => Some (w, Ok p)
              | l => '(w, ps) ← build_chain (Get fuel) l w; Some (w, Ok match ps with [] => p | _ => Fallback (p :: ps) end)
              end
          end
      end
  end.
Proof using Type.
  cbn [Providers.Get]. unfold enter. destruct (World.cache w !! _); [done|]. destruct (LookupByConfig _ _ _ _); [done|].
  destruct (newProvider _ _ cfg) as [pN|e]; [|done]. destruct (wrap cfg pN w) as [w0 p]. destruct (ProviderConfig.FallbackChain cfg); [|done].
  cbn [World.globalFallback]. change (World.globalFallback (w0 <| World.cache ::= <[providerCacheKey cfg := p]> |> <| World.slots ::= Register (providerCacheKey cfg) cfg p |>)) with (World.globalFallback w0). by destruct (World.globalFallback w0).
Qed.
Lemma LookupByConfig_spec (order_ok : ∀ m, range_order m (order m)) now key (slots : Slots) p :
  LookupByConfig (order slots) now key slots = Some p →
  ∃ id s, slots !! id = Some s ∧ providerCacheKey (ProviderSlot.Config s) = key ∧ p = ProviderSlot.Provider s.
Proof using Type.
  unfold LookupByConfig. intros ([id s] & H & ->)%fmap_Some. apply find_some in H as [Hin [Hk _]%andb_true_iff].
  apply list_elem_of_In, (range_order_lookup _ _ _ _ (order_ok slots)) in Hin. apply String.eqb_eq in Hk. eauto.
Qed.
Lemma Get_wired (order_ok : ∀ m, range_order m (order m)) fuel : ∀ cfg (w w' : W) r, Get fuel cfg w = Some (w', r) → wired w → wired w'.
Proof using Type.
  induction fuel as [|fuel IH]; intros cfg w w' r; [done|]. rewrite Get_unfold.
  assert (Hchain : ∀ l (w w' : W) ps, build_chain (Get fuel) l w = Some (w', ps) → wired w → wired w').
  { intros l. induction l as [|c l IHl]; intros w0 w1 ps; cbn [build_chain]; [by intros [= <- <-]|].
    intros ([w2 r2] & H1 & ([w3 ps3] & H2 & [= <- <-])%bind_Some)%bind_Some Hw. eauto. }
  destruct (World.cache w !! _) as [p|] eqn:Ec; [by intros [= <- <-]|].
  destruct (LookupByConfig _ _ _ _) as [p|] eqn:El.
  { intros [= <- <-] Hw. apply (LookupByConfig_spec order_ok) in El as (id & s & Hs & Hk & ->). destruct Hw as [H1 H2].
    split; [|done]. cbn. intros k q. rewrite lookup_insert_Some. intros [[<- <-]|[_ Hq]]; [|eauto].
    destruct (H2 _ _ Hs) as (_ & <- & _ & Hb & _). by rewrite Hk in Hb. }
  destruct (newProvider _ _ cfg) as [pNew|e] eqn:En; [|by intros [= <- <-]].
  apply newProvider_backend in En as [kind ->]. pose proof (enter_spec cfg kind w) as Hent.
  destruct (enter cfg _ w) as [w1 p]. destruct Hent as (_ & _ & Hent).
  destruct (match ProviderConfig.FallbackChain cfg with [] => _ | _ => _ end) as [|c l]; [by intros [= <- <-]; auto|].
  intros ([w2 ps] & H & [= <- <-])%bind_Some Hw. eauto.
Qed.

(** *** Termination: every level of the recursion enters a new key *)

Definition inside (U : gset string) (cfg : ProviderConfig.t) : Prop := ∀ c, c ∈ all_configs cfg → providerCacheKey c ∈ U.
Lemma inside_here U cfg : inside U cfg → providerCacheKey cfg ∈ U.
Proof using Type. intros H. apply H. destruct cfg. by left. Qed.
Lemma inside_chain U cfg c : inside U cfg → c ∈ ProviderConfig.FallbackChain cfg → inside U c.
Proof using Type.
  intros H Hc d Hd. apply H. destruct cfg as [? ? ? ? ? ? ? ? ? ? ? ? chain]. cbn in *. right.
  apply list_elem_of_In, in_flat_map. exists c. by rewrite <-!list_elem_of_In.
Qed.
Lemma Get_total U fuel : ∀ cfg (w : W),
  inside U cfg → (∀ c, c ∈ World.globalFallback w → inside U c) → (size (U ∖ dom (World.cache w)) < fuel)%nat →
  ∃ w' r, Get fuel cfg w = Some (w', r) ∧ dom (World.cache w) ⊆ dom (World.cache w') ∧ World.globalFallback w' = World.globalFallback w.
Proof using Type.
  induction fuel as [|fuel IH]; intros cfg w Hcfg Hglob Hsize; [lia|]. rewrite Get_unfold.
  assert (Hchain : ∀ l (w : W), (∀ c, c ∈ l → inside U c) → (∀ c, c ∈ World.globalFallback w → inside U c) →
    (size (U ∖ dom (World.cache w)) < fuel)%nat →
    ∃ w' ps, build_chain (Get fuel) l w = Some (w', ps) ∧ dom (World.cache w) ⊆ dom (World.cache w') ∧ World.globalFallback w' = World.globalFallback w).
  { intros l. induction l as [|c l IHl]; intros w0 Hl Hg Hs; cbn [build_chain]; [eauto|].
    destruct (IH c w0) as (w1 & r & -> & Hd & Eg); [apply Hl; by left|done|done|]. cbn.
    destruct (IHl w1) as (w2 & ps & -> & Hd2 & Eg2).
    - intros d Hd'. apply Hl. by right.
    - by rewrite Eg.
    - eapply Nat.le_lt_trans; [|exact Hs]. apply subseteq_size. set_solver.
    - cbn. eexists _, _. split; [done|]. split; [set_solver|congruence]. }
  destruct (World.cache w !! _) as [p|] eqn:Ec; [eauto|].
  destruct (LookupByConfig _ _ _ _) as [p|] eqn:El.
  { eexists _, _. split; [done|]. cbn. rewrite dom_insert_L. split; [set_solver|done]. }
  destruct (newProvider _ _ cfg) as [pNew|e] eqn:En; [|eauto].
  apply newProvider_backend in En as [kind ->]. pose proof (enter_spec cfg kind w) as Hent.
  destruct (enter cfg _ w) as [w1 p]. destruct Hent as (Ecache & Eg & _).
  assert (Hdom : dom (World.cache w1) = {[providerCacheKey cfg]} ∪ dom (World.cache w)) by (by rewrite Ecache, dom_insert_L).
  destruct (match ProviderConfig.FallbackChain cfg with [] => _ | _ => _ end) as [|c l] eqn:Echain.
  { eexists _, _. split; [done|]. rewrite Hdom. split; [set_solver|done]. }
  destruct (Hchain (c :: l) w1) as (w2 & ps & -> & Hd & Eg2).
  - intros d Hd. destruct (ProviderConfig.FallbackChain cfg) as [|c' l'] eqn:Ef; simplify_eq.
    + apply Hglob. rewrite <-Eg. by rewrite Echain.
    + eapply inside_chain; [done|]. by rewrite Ef.
  - by rewrite Eg.
  - apply not_elem_of_dom in Ec. pose proof (inside_here U cfg Hcfg) as Hin.
    assert (size (U ∖ dom (World.cache w1)) < size (U ∖ dom (World.cache w)))%nat; [|lia].
    apply subset_size. rewrite Hdom. split; [set_solver|]. intros Hsub. specialize (Hsub (providerCacheKey cfg)). set_solver.
  - cbn. eexists _, _. split; [done|]. split; [set_solver|congruence].
Qed.
End Get.

(** Building a provider ends, however the fallback chains and the global
    chain name each other: every level of the recursion enters a key that was
    not in the cache. *)
Theorem Get_returns {Req} load_script file_sha256 order cfg (w : World.t Req) fuel :
  let keys : gset string := list_to_set (map providerCacheKey (all_configs cfg ++ flat_map all_configs (World.globalFallback w))) in
  (size (keys ∖ dom (World.cache w)) < fuel)%nat →
  ∃ w' r, Get load_script file_sha256 order fuel cfg w = Some (w', r).
Proof.
  intros keys Hfuel.
  destruct (Get_total load_script file_sha256 order keys fuel cfg w) as (w' & r & H & _); [| |done|eauto].
  - intros c Hc. apply elem_of_list_to_set, list_elem_of_fmap. exists c. split; [done|]. apply elem_of_app. by left.
  - intros g Hg c Hc. apply elem_of_list_to_set, list_elem_of_fmap. exists c. split; [done|]. apply elem_of_app. right.
    apply list_elem_of_In, in_flat_map. exists g. by rewrite <-!list_elem_of_In.
Qed.

(** ** Runs of the program *)

Section runs.
Context {Req Resp : Type}.
Context (reply : BackendKind → ProviderConfig.t → nat → Z → Call Req → Reply.t Resp).
Context (load_script : BackendKind → ProviderConfig.t → string → result string unit).
Context (file_sha256 : string → result string string).
Context (order : gmap string ProviderSlot.t → list string).
Abbreviation W := (World.t Req).

Inductive step (w : W) : W → Prop :=
| step_call cancel p c : step w (invoke reply cancel p c w).1
| step_get fuel cfg w' r : Get load_script file_sha256 order fuel cfg w = Some (w', r) → step w w'
| step_route capLookup pool cap :
    step w (w <| World.slots := (routeProvider (order (World.slots w)) (World.now w) capLookup pool cap (World.slots w)).1 |>)
| step_global chain : step w (SetGlobalFallback chain w)
| step_clear : step w (ClearCache w)
| step_time t : World.now w <= t → step w (w <| World.now := t |>).

Lemma route_wired (w : W) capLookup pool cap :
  wired w → wired (w <| World.slots := (routeProvider (order (World.slots w)) (World.now w) capLookup pool cap (World.slots w)).1 |>).
Proof using Type.
  intros [H1 H2]. split; [done|]. cbn. intros i s.
  assert (Hnext : ∀ ord pl, (Next ord (World.now w) pl (World.slots w)).1 !! i = Some s → slot_ok (World.limiters w) i s).
  { intros ord pl. unfold Next. destruct (least_latency _ _ _ _ _) as [id|]; [|apply H2]. apply slots_alter; [apply revive_ok|done]. }
  unfold routeProvider, NextPareto. repeat case_match; cbn [fst]; eauto; apply slots_alter; auto using revive_ok.
Qed.
(** C18: from an empty cache, whatever is called, built and routed in whatever
    order: the cache and the router's slots hold bare providers under their own
    keys, every slot is in the pool of its configuration, a slot is marked
    failing only after three failures and healthy only before, and a limited
    provider has its limiter. *)
Theorem router_wired (order_ok : ∀ m, range_order m (order m)) (w w' : W) :
  World.cache w = ∅ → World.slots w = ∅ → rtc step w w' → wired w'.
Proof using Type.
  intros Hc Hs Hsteps. assert (Hw : wired w) by (split; [rewrite Hc|rewrite Hs]; intros ? ? ?%lookup_empty_Some; done).
  clear Hc Hs. induction Hsteps as [|x y z Hxy _ IH]; [done|]. apply IH. clear IH.
  destruct Hxy as [cancel p c|fuel cfg w' r Hg|capLookup pool cap|chain| |t _].
  - by apply invoke_keeps.
  - by eapply Get_wired.
  - by apply route_wired.
  - by apply (wired_ext x).
  - by split; intros k v H; cbn in H; apply (lookup_empty_Some (M := gmap string)) in H.
  - by apply (wired_ext x).
Qed.
End runs.

(** ** Instances *)

Section instances.
Context {Req : Type}.
Context (load_script : BackendKind → ProviderConfig.t → string → result string unit).
Context (file_sha256 : string → result string string).
Context (order : gmap string ProviderSlot.t → list string).
Context (order_ok : ∀ m, range_order m (order m)).
Abbreviation W := (World.t Req).
Abbreviation Get := (Get load_script file_sha256 order).
Abbreviation builds cfg := (∃ p, newProvider load_script file_sha256 cfg = Ok p).

Lemma Get_fresh fuel cfg (w : W) :
  wired w → World.slots w !! providerCacheKey cfg = None → World.cache w !! providerCacheKey cfg = None →
  ProviderConfig.FallbackChain cfg = [] → World.globalFallback w = [] → builds cfg →
  ∃ w' p, Get (S fuel) cfg w = Some (w', Ok p) ∧ wired w' ∧ World.globalFallback w' = [] ∧ World.now w' = World.now w ∧
    World.slots w' = Register (providerCacheKey cfg) cfg p (World.slots w) ∧
    World.cache w' = <[providerCacheKey cfg := p]> (World.cache w).
Proof using order_ok.
  intros Hw Hs Hc Hf Hg [pN Hp]. rewrite Get_unfold, Hc, Hp, Hf.
  assert (LookupByConfig (order (World.slots w)) (World.now w) (providerCacheKey cfg) (World.slots w) = None) as ->.
  { destruct (LookupByConfig _ _ _ _) as [p|] eqn:El; [|done]. exfalso.
    apply (LookupByConfig_spec order order_ok) in El as (id & s & Hid & Hk & _).
    destruct (proj2 Hw id s Hid) as (_ & E & _). rewrite Hk in E. subst id. congruence. }
  apply newProvider_backend in Hp as [kind ->]. pose proof (enter_spec cfg kind w) as He.
  assert (Hmore : ∀ w' p, enter cfg (Backend kind cfg) w = (w', p) → World.now w' = World.now w ∧ World.slots w' = Register (providerCacheKey cfg) cfg p (World.slots w)).
  { intros w' p. unfold enter, wrap. destruct (ProviderConfig.RateLimit cfg) as [rpm|]; [destruct (0 <? rpm); [destruct (NewLeakyBucket rpm)|]|]; by intros [= <- <-]. }
  destruct (enter cfg _ w) as [w1 p]. destruct He as (E1 & E2 & E3), (Hmore w1 p eq_refl) as [E4 E5]. rewrite E2, Hg.
  exists w1, p. split; [done|]. split; [by apply E3|]. by rewrite E2.
Qed.

(** The slot an instance gets. *)
Definition instance_slot (w : W) (job : instanceJob.t) : Prop :=
  ∃ s, World.slots w !! providerCacheKey (derive job) = Some s ∧ ProviderSlot.Config s = derive job ∧
    ProviderSlot.PoolID s = PoolIDFor (derive job) ∧ ProviderSlot.Status s = StatusHealthy ∧ ProviderSlot.LatencyEMA s = S754_zero false.
Lemma register_jobs_spec fuel total jobs : ∀ w : W,
  wired w → World.globalFallback w = [] → NoDup (map (providerCacheKey ∘ derive) jobs) →
  (∀ job, job ∈ jobs → World.slots w !! providerCacheKey (derive job) = None ∧ World.cache w !! providerCacheKey (derive job) = None ∧
     ProviderConfig.FallbackChain (derive job) = [] ∧ builds (derive job)) →
  ∃ w' log, register_jobs load_script file_sha256 order (S fuel) total jobs w = Some (w', log) ∧ length log = length jobs ∧
    World.now w' = World.now w ∧ (∀ job, job ∈ jobs → instance_slot w' job) ∧
    ∀ i s, World.slots w !! i = Some s → World.slots w' !! i = Some s.
Proof using order_ok.
  induction jobs as [|job jobs IH]; intros w Hw Hg Hnd Hjobs; cbn [register_jobs].
  { exists w, []. split_and!; try done. by intros ? ?%not_elem_of_nil. }
  cbn in Hnd. apply NoDup_cons in Hnd as [Hnin Hnd].
  destruct (Hjobs job) as (Hs & Hc & Hf & Hb); [by left|].
  destruct (Get_fresh fuel (derive job) w Hw Hs Hc Hf Hg Hb) as (w1 & p & -> & Hw1 & Hg1 & En & Es & Ec). cbn [mbind option_bind].
  destruct (IH w1 Hw1 Hg1 Hnd) as (w2 & log & -> & Hlen & En2 & Hslots & Hkeep).
  { intros j Hj. assert (providerCacheKey (derive job) ≠ providerCacheKey (derive j)).
    { intros E. apply Hnin, list_elem_of_fmap. exists j. by split. }
    destruct (Hjobs j) as (?&?&?&?); [by right|]. rewrite Es, Ec. unfold Register. by rewrite !lookup_insert_ne by done. }
  cbn. eexists _, _. split; [done|]. split; [cbn; congruence|]. split; [congruence|]. split.
  - intros j [->|Hj]%elem_of_cons; [|by apply Hslots]. eexists. split; [apply Hkeep; rewrite Es; apply lookup_insert_eq|done].
  - intros i s Hi. apply Hkeep. rewrite Es. unfold Register. rewrite lookup_insert_ne; [done|]. intros <-. congruence.
Qed.
End instances.

(** Registering the instances of the configured providers in a fresh router
    succeeds: every instance gets a healthy slot in the pool named after its
    parent, so a request to that pool is routed to one of them. *)
Theorem instances_failover {Req} load_script file_sha256 order providers ord (w : World.t Req) fuel
    (order_ok : ∀ m, range_order m (order m)) (Hempty : World.cache w = ∅ ∧ World.slots w = ∅ ∧ World.globalFallback w = []) :
  let jobs := instance_jobs (range providers ord) in
  NoDup (map (providerCacheKey ∘ derive) jobs) →
  (∀ job, job ∈ jobs → ProviderConfig.FallbackChain (derive job) = [] ∧ instanceJob.parentID job ≠ "" ∧
     ∃ p, newProvider load_script file_sha256 (derive job) = Ok p) →
  ∃ w' log, RegisterConfiguredInstances load_script file_sha256 order (S fuel) providers ord w = Some (w', log) ∧
    length log = length jobs ∧
    ∀ job, job ∈ jobs →
      (∃ s, World.slots w' !! providerCacheKey (derive job) = Some s ∧ ProviderSlot.PoolID s = instanceJob.parentID job) ∧
      ∃ id s, (Next (order (World.slots w')) (World.now w') (instanceJob.parentID job) (World.slots w')).2 = Some id ∧
        World.slots w' !! id = Some s ∧ ProviderSlot.PoolID s = instanceJob.parentID job.
Proof.
  intros jobs Hnd Hjobs. destruct Hempty as (Hc & Hs & Hg).
  assert (Hw : wired w) by (split; [rewrite Hc|rewrite Hs]; intros ? ? ?%lookup_empty_Some; done).
  destruct (register_jobs_spec load_script file_sha256 order order_ok fuel (Z.of_nat (length jobs)) jobs w Hw Hg Hnd) as (w' & log & Hr & Hlen & En & Hslots & _).
  { intros job Hj. destruct (Hjobs job Hj) as (? & _ & ?). rewrite Hc, Hs. split; [apply lookup_empty|]. split; [apply lookup_empty|done]. }
  exists w', log. split; [exact Hr|]. split; [done|]. intros job Hj. destruct (Hslots job Hj) as (s & Hid & _ & Hpool & Hst & Hlat).
  assert (E : PoolIDFor (derive job) = instanceJob.parentID job).
  { unfold PoolIDFor. change (ProviderConfig.PoolID (derive job)) with (instanceJob.parentID job).
    destruct (Hjobs job Hj) as (_ & Hne & _). by apply String.eqb_neq in Hne as ->. }
  rewrite E in Hpool. split; [eauto|].
  pose proof (Next_spec (order (World.slots w')) (World.now w') (instanceJob.parentID job) (World.slots w') (order_ok _)) as Hn.
  destruct (Next _ _ _ _) as [sl [id|]]; [destruct Hn as (s' & ? & ? & _); eauto|].
  exfalso. destruct Hn as [_ Hn]. specialize (Hn _ _ Hid Hpool). rewrite Hlat in Hn. unfold IsHealthy in Hn. rewrite Hst in Hn. by specialize (Hn eq_refl).
Qed.

(** ** Concrete runs *)

Definition ex_cfg (provider key : string) (chain : list ProviderConfig.t) : ProviderConfig.t :=
  ProviderConfig.mk provider "" "m" key "" [] "" None "" "" [] "" chain.
Definition ex_order : gmap string ProviderSlot.t → list string := λ m, elements (dom m).
Lemma ex_slot_order_ok m : range_order m (ex_order m).
Proof. apply range_order_exists. Qed.
Definition ex_world (global : list ProviderConfig.t) : World.t string := World.mk 1000 ∅ global ∅ ∅ [] [] [].
Definition ex_load (_ : BackendKind) (_ : ProviderConfig.t) (_ : string) : result string unit := Ok tt.
Definition ex_sha (_ : string) : result string string := Ok "".
Abbreviation ex_Get := (Get (Req := string) ex_load ex_sha ex_order).

(** The OpenAI backend fails twice with a 500 after a first chunk, then
    succeeds; the others fail. *)
Definition ex_reply (kind : BackendKind) (cfg : ProviderConfig.t) (n : nat) (t : Z) (c : Call string) : Reply.t string :=
  match kind with
  | KOpenAI =>
      if (n <? 2)%nat then Reply.mk 1000000 ["Hel"] (Err (ProviderError "HTTP 500: busy"))
      else Reply.mk 1000000 ["Hel"; "lo"] (Ok "Hello")
  | _ => Reply.mk 1000000 [] (Err (OtherError "boom"))
  end.
Definition ex_openai : Provider := Retrying (Backend KOpenAI (ex_cfg "openai" "k" [])) 3 "".

(** A stream that is retried hands the caller the chunks of every attempt. *)
Example retried_stream_repeats_chunks :
  let '(w, o) := invoke ex_reply None ex_openai (CStreamComplete "hi") (ex_world []) in
  o = Returned (Ok "Hello") ∧ World.chunks w = ["Hel"; "Hel"; "Hel"; "lo"] ∧ length (World.calls w) = 3%nat.
Proof. vm_compute. split_and!; reflexivity. Qed.
Lemma retry_exact_witness :
  (3 <= 33)%nat ∧
  let res := invoke ex_reply None ex_openai (CComplete "hi") (ex_world []) in
  ∃ ts, head ts = Some 1000 ∧
    World.calls res.1 = World.calls (ex_world []) ++ replicate (length ts) (KOpenAI, ex_cfg "openai" "k" [], CComplete "hi") ∧
    ran None (λ j t, backend_reply ex_reply KOpenAI (ex_cfg "openai" "k" []) j t (CComplete "hi")) 0 "" 1000 3 1 ts
      (World.slots (ex_world [])) (World.slots res.1) res.2.
Proof. split; [lia|]. apply (retry_exact ex_reply None KOpenAI (ex_cfg "openai" "k" []) 3 "" (CComplete "hi") (ex_world [])). lia. Defined.

(** The chain of a configuration is tried by the provider the first [Get]
    returns; the cache keeps the bare provider, which every later [Get], and the
    router, return. *)
Definition ex_chained : ProviderConfig.t := ex_cfg "gemini" "k" [ex_cfg "openai" "k" []].
Example second_get_drops_chain :
  match ex_Get 5 ex_chained (ex_world []) with
  | Some (w1, Ok p1) =>
      match ex_Get 5 ex_chained w1 with
      | Some (w2, Ok p2) =>
          (invoke ex_reply None p1 (CComplete "hi") (w1 <| World.calls := replicate 2 (KHost, ex_chained, CComplete "x") |>)).2 = Returned (Ok "Hello") ∧
          (invoke ex_reply None p2 (CComplete "hi") (w2 <| World.calls := replicate 2 (KHost, ex_chained, CComplete "x") |>)).2 = Returned (Err (OtherError "boom"))
      | _ => False
      end
  | _ => False
  end.
Proof. vm_compute. split; reflexivity. Qed.
Lemma cached_without_chain {Req} load sha order fuel cfg (w : World.t Req) p :
  wired w → World.cache w !! providerCacheKey cfg = Some p →
  Get load sha order (S fuel) cfg w = Some (w, Ok p) ∧ ∀ ps, p ≠ Fallback ps.
Proof.
  intros [Hc _] Hp. rewrite Get_unfold, Hp. split; [done|]. intros ps ->.
  apply Hc in Hp as (kind & c & _ & [[=]|[[=] _]]).
Qed.

(** The members of a global chain get the chain as their own: on failure they
    are tried again and again. *)
Example global_chain_nested :
  let a := ex_cfg "gemini" "a" [] in
  let b := ex_cfg "anthropic" "b" [] in
  match ex_Get 5 (ex_cfg "ollama" "p" []) (ex_world [a; b]) with
  | Some (w, Ok p) => length (World.calls (invoke ex_reply None p (CComplete "hi") w).1) = 7%nat
  | _ => False
  end.
Proof. vm_compute. reflexivity. Qed.

(** The key of the cache does not hold the protocol: the second of two
    configurations of one brand gets the first one's backend. *)
Example protocol_not_in_key :
  let openai := (ex_cfg "acme" "k" []) <| ProviderConfig.Protocol := "openai" |> in
  let anthropic := (ex_cfg "acme" "k" []) <| ProviderConfig.Protocol := "anthropic" |> in
  match ex_Get 5 openai (ex_world []) with
  | Some (w, Ok _) => ∃ w', ex_Get 5 anthropic w = Some (w', Ok (Retrying (Backend KOpenAI openai) 3 "acme::::::k"))
  | _ => False
  end.
Proof. vm_compute. eexists. reflexivity. Qed.

(** An instance whose key another configuration already uses gets no slot in
    its own pool. *)
Example shared_key_no_pool :
  let inst := ProviderInstance.mk "backup" "" "" "" in
  let pc := (ex_cfg "openai" "k" []) <| ProviderConfig.Instances := [inst] |> in
  match RegisterConfiguredInstances (Req := string) ex_load ex_sha ex_order 5 {["fast" := Some pc; "slow" := Some pc]} ["fast"; "slow"] (ex_world []) with
  | Some (w, log) =>
      (Next (ex_order (World.slots w)) 1000 "slow" (World.slots w)).2 = None ∧
      log = [instance_message "backup" (instanceJob.mk "fast" inst pc) (Ok ex_openai);
             instance_message "backup" (instanceJob.mk "slow" inst pc) (Ok ex_openai)]
  | None => False
  end.
Proof. vm_compute. split; reflexivity. Qed.

(** A provider that is skipped while it cools down is never reported as
    recovered: only an attempt during the cooldown sets the flag. *)
Example skipped_never_recovers :
  let hs := SetCooldown 0 "p" 100 ∅ in
  (CheckRecovery 200 "p" hs).2 = false ∧
  let hs1 := (CheckRecovery 50 "p" hs).1 in (CheckRecovery 200 "p" hs1).2 = true.
Proof. vm_compute. split; reflexivity. Qed.

Example estimates : estimateTokens "hello world this is a test" = 6 ∧ estimateTokens "" = 0 ∧ estimateTokens "a" = 1.
Proof. vm_compute. split_and!; reflexivity. Qed.

Lemma Get_returns_witness :
  let cfg := ex_cfg "ollama" "p" [] in
  let w := ex_world [ex_cfg "gemini" "a" []; ex_cfg "anthropic" "b" []] in
  let keys : gset string := list_to_set (map providerCacheKey (all_configs cfg ++ flat_map all_configs (World.globalFallback w))) in
  (size (keys ∖ dom (World.cache w)) < 4)%nat ∧ ∃ w' r, ex_Get 4 cfg w = Some (w', r).
Proof.
  split; [vm_compute; lia|].
  apply (Get_returns ex_load ex_sha ex_order (ex_cfg "ollama" "p" []) (ex_world [ex_cfg "gemini" "a" []; ex_cfg "anthropic" "b" []]) 4). vm_compute. lia.
Defined.
Lemma router_wired_witness :
  let w := (invoke ex_reply None ex_openai (CComplete "hi") (ex_world [])).1 in
  rtc (step ex_reply ex_load ex_sha ex_order) (ex_world []) w ∧ wired w.
Proof.
  assert (H : rtc (step ex_reply ex_load ex_sha ex_order) (ex_world []) (invoke ex_reply None ex_openai (CComplete "hi") (ex_world [])).1).
  { eapply rtc_l; [apply (step_call ex_reply ex_load ex_sha ex_order)|apply rtc_refl]. }
  split; [exact H|]. exact (router_wired ex_reply ex_load ex_sha ex_order ex_slot_order_ok (ex_world []) _ eq_refl eq_refl H).
Defined.

Definition ex_slot (id model : string) (lat : float64) : ProviderSlot.t :=
  ProviderSlot.mk id ((ex_cfg "openai" id []) <| ProviderConfig.Model := model |>) "pool" ex_openai StatusHealthy lat 0 0 0.
Definition ex_slots : Slots :=
  {["a" := ex_slot "a" "small" (float_of_int 10); "b" := ex_slot "b" "big" (float_of_int 900)]}.
Definition ex_lookup : ProfileLookup := λ model _,
  if String.eqb model "big" then Some (one_half, float_of_int 5, float_of_int 900) else None.
Lemma ex_numeric : numeric ex_lookup ex_slots.
Proof.
  split.
  - unfold ex_lookup. intros m c sr tc lm. destruct (String.eqb m "big"); [|done]. by intros [= <- <- <-].
  - intros id s. unfold ex_slots. rewrite lookup_insert_Some, lookup_singleton_Some. by intros [[_ <-]|[_ [_ <-]]].
Qed.
Lemma route_choice_witness :
  range_order ex_slots ["a"; "b"] ∧
  match routeProvider ["a"; "b"] 1000 (Some ex_lookup) "pool" "code" ex_slots with
  | (slots', Some id) => id = "a" ∧ ∃ s, in_pool 1000 "pool" ex_slots id s ∧ slots' = <[id := revive s]> ex_slots
  | _ => False
  end.
Proof.
  assert (Hord : range_order ex_slots ["a"; "b"]) by (unfold range_order; apply (bool_decide_unpack _); vm_compute; exact I).
  split; [exact Hord|].
  pose proof (route_choice ["a"; "b"] 1000 (Some ex_lookup) "pool" "code" ex_slots Hord (λ l H, match H in _ = o return match o with Some l' => numeric l' ex_slots | None => True end with eq_refl => ex_numeric end)) as H.
  assert (E : (routeProvider ["a"; "b"] 1000 (Some ex_lookup) "pool" "code" ex_slots).2 = Some "a") by reflexivity.
  destruct (routeProvider _ _ _ _ _ _) as [slots' [id|]]; [|discriminate E]. injection E as ->. split; [reflexivity|].
  destruct H as (s & Hs & Hs' & _). exists s. split; [exact Hs|exact Hs'].
Defined.
Definition ex_providers : gmap string (option ProviderConfig.t) :=
  {["main" := Some ((ex_cfg "openai" "" []) <| ProviderConfig.APIKeys := ["k1"; "k2"] |>)]}.
Lemma instances_failover_witness :
  ∃ w' log, RegisterConfiguredInstances ex_load ex_sha ex_order 2 ex_providers ["main"] (ex_world []) = Some (w', log) ∧ length log = 2%nat ∧
    ∃ id s, (Next (ex_order (World.slots w')) (World.now w') "main" (World.slots w')).2 = Some id ∧
      World.slots w' !! id = Some s ∧ ProviderSlot.PoolID s = "main".
Proof.
  destruct (instances_failover ex_load ex_sha ex_order ex_providers ["main"] (ex_world []) 1 ex_slot_order_ok) as (w' & log & H & Hl & Hj).
  - split; [reflexivity|split; reflexivity].
  - apply (bool_decide_unpack _). vm_compute. exact I.
  - intros job Hin. apply (proj1 (list_elem_of_In _ _)) in Hin. vm_compute in Hin. destruct Hin as [<-|[<-|[]]]; (split; [reflexivity|split; [discriminate|eexists; reflexivity]]).
  - exists w', log. split; [exact H|]. split; [exact Hl|].
    destruct (Hj (instanceJob.mk "main" (ProviderInstance.mk "main-key-0" "k1" "" "") ((ex_cfg "openai" "" []) <| ProviderConfig.APIKeys := ["k1"; "k2"] |>))) as [_ (id & s & H1 & H2 & H3)].
    + apply (proj2 (list_elem_of_In _ _)). vm_compute. left. reflexivity.
    + exists id, s. split; [exact H1|]. split; [exact H2|exact H3].
Defined.
