(* ===== verification/Turns.v ===== *)
(** * One turn of an agent (core/heartbeat.go, core/spawner_turn_completion.go,
    core/spawner_completion_gates.go, core/spawner_turn_context.go,
    core/context_bucket.go, core/healer.go, core/spawner_stagnation.go and the
    helpers of core/spawner_utils.go)

    What a turn does with a response: the directives in its text, an answer
    without tool calls and the reminders it may bring, the detection of turns that
    repeat, the history of the conversation and how it is shortened.  The messages
    are those of core/prompt_constants.go; decoding and encoding JSON are
    arguments.  Logs and metrics are left out. *)
From Stdlib Require Import Ascii SpecFloat.
From S2P Require Import Prelude FailureClass ToolNames Regex Sanitizer Registry Output Sieve Governance Compress Providers ToolCalls.
Local Open Scope Z_scope.

Definition with_text (t : string) : ContentBlock.t := ContentBlock.mk "" t "" "" ∅.
Definition with_cached (t : string) : ContentBlock.t := ContentBlock.mk "" t "ephemeral" "" ∅.
Definition uncached (blocks : list ContentBlock.t) : list ContentBlock.t := (λ b, b <| ContentBlock.CacheControl := "" |>) <$> blocks.

(** ** Heartbeat directives *)

Definition any_text : re := Star false (Chr (λ _, true)).
Definition heartbeatSleepRe : re := seqs [Lit "[[Heartbeat::Sleep::"; AtLeast 1 digit09; Lit "]]"].
Definition heartbeatWakePromptRe : re := seqs [Lit "[[Heartbeat::WakePrompt]]"; any_text; Lit "[[/Heartbeat::WakePrompt]]"].
Definition heartbeatCompleteRe : re := Lit "[[Heartbeat::Complete]]".
Definition heartbeatFailRe : re := Lit "[[Heartbeat::Fail]]".
Definition thoughtRe : re := seqs [Lit "<thought>"; any_text; Lit "</thought>"].
(** The first match, and the part of it between so many bytes. *)
Definition first_match (r : re) (text : string) : option (list ascii) := head (FindAllString r (bytes text)).
Definition group (before after : nat) (m : list ascii) : string := of_bytes (drop before (take (length m - after) m)).
Definition remove_matches (r : re) (text : string) : string := of_bytes (ReplaceAllStringFunc r (λ (_ : unit) _, (tt, [])) tt (bytes text)).2.

Inductive HeartbeatDirective := HeartbeatNone | HeartbeatSleep (SleepSeconds : Z) (WakePrompt : string) | HeartbeatComplete (Report : string) | HeartbeatFail (Report : string).
Definition stripHeartbeatDirectives (text : string) : string :=
  TrimSpace (remove_matches heartbeatWakePromptRe (remove_matches heartbeatSleepRe (remove_matches heartbeatFailRe (remove_matches heartbeatCompleteRe text)))).
(** [strconv.Atoi] of digits; what does not fit becomes the largest [int]. *)
Definition digits_value (ds : list ascii) : Z := Z.min (2 ^ 63 - 1) (fold_left (λ n d, n * 10 + (byteZ d - 48)) ds 0).
Definition parseHeartbeat (text : string) : HeartbeatDirective :=
  if negb (contains "[[Heartbeat::" text) then HeartbeatNone
  else match first_match heartbeatCompleteRe text with
       | Some _ => HeartbeatComplete (stripHeartbeatDirectives text)
       | None =>
           match first_match heartbeatFailRe text with
           | Some _ => HeartbeatFail (stripHeartbeatDirectives text)
           | None =>
               match first_match heartbeatSleepRe text with
               | Some m =>
                   let secs := digits_value (drop 20 (take (length m - 2) m)) in
                   if secs <=? 0 then HeartbeatNone
                   else HeartbeatSleep secs (match first_match heartbeatWakePromptRe text with Some m => TrimSpace (group 25 26 m) | None => "" end)
               | None => HeartbeatNone
               end
           end
       end.

(** ** Turns that repeat *)

Definition MinResultBytesForDedup : Z := 100.
Definition cross_mark : string := "❌".
(** [marshal]: JSON of the arguments, [show]: their default format. *)
Definition computeTurnHash (marshal : gmap string any → option (list ascii)) (show : gmap string any → string) (calls : list ToolCall.t) (toolResults : list string) : option Z :=
  let joined := join line_end toolResults in
  if Z.of_nat (String.length joined) <? MinResultBytesForDedup then None
  else if forallb (contains cross_mark) toolResults then None
  else
    let call_bytes (c : ToolCall.t) :=
      bytes (ToolCall.Name c) ++ default (bytes (show (ToolCall.Arguments c))) (marshal (CanonicalToolArgs (ToolCall.Arguments c))) ++ [zero] in
    Some (fnv (mjoin (call_bytes <$> calls) ++ bytes joined)).

Inductive stagnationAction := stagNone | stagHint | stagGrace | stagKill.
Definition stagnationStep (repeats hintAt grace threshold : Z) (hinted : bool) : stagnationAction :=
  if repeats <=? threshold then stagNone
  else if negb hinted then stagHint
  else if hintAt + grace <? repeats then stagKill else stagGrace.
Definition trace_names (trace : list ToolInteraction.t) : list string := ToolInteraction.ToolName <$> trace.
Definition partialStagnationOutput (capability reason : string) (trace : list ToolInteraction.t) : SubagentOutput.t :=
  SubagentOutput.mk StatusPartial float_0_3
    (Some (list_to_map [("error", AString reason); ("tools_used", AStrings (trace_names trace)); ("tool_call_count", AInt (Z.of_nat (length trace)))]))
    [] [] [] [] capability None ["stagnation_detected: " +:+ reason] [] [reason] [] 0.
Definition stagnation_hint : string :=
  "System: You have produced identical tool results multiple times. You appear to be stuck re-fetching the same data. Summarize what you have found so far and proceed to complete the task. Do not repeat the same tool calls.".
(** A hint, or the output that ends the step. *)
Definition handleStagnationTurn (repeats grace hintAt threshold : Z) (hinted : bool) (trace : list ToolInteraction.t) (capability : string) : string * option SubagentOutput.t :=
  match stagnationStep repeats hintAt grace threshold hinted with
  | stagHint => (stagnation_hint, None)
  | stagKill =>
      ("", Some (partialStagnationOutput capability
                   ("output_stagnation: identical tool results repeated " +:+ pretty repeats +:+ " consecutive times after intervention hint") trace))
  | _ => ("", None)
  end.

(** ** Turns without tools of a server *)

Definition fsOnlyStallGuard (calls : list ToolCall.t) (streak streakLimit : Z) : Z * option string :=
  match calls with
  | [] => (streak, None)
  | _ =>
      let streak := if forallb (λ c, is_core (ToolCall.Name c)) calls then streak + 1 else 0 in
      (streak,
       if (0 <? streakLimit) && (streakLimit <=? streak)
       then Some ("fs_only_stall: " +:+ pretty streak +:+ " consecutive turns used only filesystem tools (write_file/read_file/execute_code) without domain MCP calls; breaking to conserve budget (limit=" +:+ pretty streakLimit +:+ ")")
       else None)
  end.

(** ** An answer without tool calls *)

Definition malformedToolCallTags : list string := ["<anim:call"; "<tool_call"; "<tool_code"].
Definition hasMalformedToolCallTag (text : string) : bool := existsb (λ tag, contains tag text) malformedToolCallTags.
Definition traceHasEffect (trace : list ToolInteraction.t) : bool := existsb (λ t, negb (IsReadOnlyToolName (ToolInteraction.ToolName t))) trace.
(** The output was made up by the parser, or says that something could not be
    parsed. *)
Definition parse_failed (o : SubagentOutput.t) : bool :=
  existsb (λ a, contains "not parseable" a || contains "semantically hollow" a) (SubagentOutput.Assumptions o).

Definition MarkerSystem : string := "[SYSTEM]".
Definition SpawnerNoToolsMsg : string :=
  "[SYSTEM]: You have not executed any tools yet. Please proceed to actually call the necessary tool(s) now.".
Definition SpawnerNoToolsBadJSONMsg : string :=
  "[SYSTEM]: You have not executed any tools yet, AND your previous output was not valid JSON. You MUST: (1) call the necessary tool(s) using the native JSON tool call structure, (2) ensure your final output is valid JSON with " +:+
  go_quote "status" +:+ ", " +:+ go_quote "confidence" +:+ ", and " +:+ go_quote "result" +:+ " fields. Do not repeat the same formatting mistake.".
Definition SpawnerInvalidToolFormatMsg : string :=
  "[SYSTEM ERROR]: You attempted to invoke a tool using invalid XML/pseudo-tags (e.g. <anim:call>). You MUST use the native JSON tool call structure provided by the platform. Please immediately issue the correct tool call in JSON format.".
Definition SpawnerZeroEffectMsg : string :=
  "[SYSTEM]: You declared status=ok, but none of the tool calls in this step could have changed any external state — every call so far was read-only. If the task requires changing data (adding, updating, deleting, sending, following, downloading, paying), you must actually execute those calls now; describing the result is not the same as producing it. If this really is a read-only question (e.g. 'how many...', 'which one...'), put the concrete answer in `result` as a bare value and state explicitly that it came from a read-only query.".
Definition SpawnerZeroEffectParseFailMsg : string :=
  "[SYSTEM]: Your last output could not be parsed as the required JSON structure, so the step is not complete. In addition, every tool call so far has been read-only — nothing has changed external state yet. If the task requires changing data (adding, updating, deleting, sending, following, downloading, paying), issue the actual tool call now using the native JSON tool-call structure — do not describe it in prose or pseudo-tags. If this really is a read-only question, re-send your final answer as valid JSON with the concrete value in `result`.".
Definition SpawnerMidAbandonMsg : string :=
  "[SYSTEM]: You reported this step as incomplete while turns remain, and nothing you have called so far could have changed external state — every call was read-only. If the task requires changing data (adding, updating, deleting, sending, following, downloading, paying), continue now and issue those calls. If you genuinely cannot proceed, finalize now and state exactly what is missing in `missing_context` — do not simply stop.".
Definition spin_broken (n : Z) : string := "orchestrator: broke spin loop after " +:+ pretty n +:+ " consecutive parse failures".
Definition downgraded_warning : string := "orchestrator: model reported status=ok but no tool calls were recorded; downgraded to partial".

Module ProviderReply.
Record t := mk { Text : string; ToolCalls : list ToolCall.t; PromptTokens : Z; CompletionTokens : Z }.
End ProviderReply.
(** [spawnTurnState]; the trace is read only. *)
Module spawnTurnState.
Record t := mk { consecutiveParseFailures : Z; zeroEffectNudged : bool; midAbandonNudged : bool; userBlocks : list ContentBlock.t }.
#[global] Instance t_eta : Eta t := λ s, mk (consecutiveParseFailures s) (zeroEffectNudged s) (midAbandonNudged s) (userBlocks s).
End spawnTurnState.
(** The flags of the system, what the role has, and the limit of turns. *)
Module TurnFlags.
Record t := mk { ZeroEffectNudge : bool; MidAbandonNudge : bool; hasTools : bool; maxTurns : Z; capability : string }.
End TurnFlags.
Definition maxConsecutiveParseFailures : Z := 3.

(** The model's text, and a message to it. *)
Definition remind (cleanText msg : string) (blocks : list ContentBlock.t) : list ContentBlock.t :=
  uncached blocks ++ [with_text cleanText; with_cached msg].
(** [fmt] of a list of texts. *)
Definition go_list (l : list string) : string := "[" +:+ join " " l +:+ "]".
Definition f_0_4 : float64 := S754_finite false 7205759403792794 (-54).
Definition low_confidence (o : SubagentOutput.t) : bool :=
  bool_decide (SubagentOutput.Status o = StatusPartial) && fltb (SubagentOutput.Confidence o) f_0_4.
Definition noToolNudge (F : TurnFlags.t) (turn : Z) (o : SubagentOutput.t) (noToolCallsYet : bool) : option string :=
  if (turn <? TurnFlags.maxTurns F - 1) && noToolCallsYet &&
     (low_confidence o || ((turn =? 0) && negb (bool_decide (SubagentOutput.Status o = StatusOK))))
  then Some (if parse_failed o then SpawnerNoToolsBadJSONMsg
             else if bool_decide (SubagentOutput.Status o = StatusCapabilityRequired) && negb (bool_decide (SubagentOutput.RequiredCapabilities o = []))
             then MarkerSystem +:+ " Before finalizing capability_required, double-check your bound tools. If none fulfill " +:+
                  go_list (SubagentOutput.RequiredCapabilities o) +:+ ", explain and finalize."
             else SpawnerNoToolsMsg)
  else None.
Definition zeroEffectGate (F : TurnFlags.t) (turn : Z) (o : SubagentOutput.t) (trace : list ToolInteraction.t) (st : spawnTurnState.t) : option string :=
  if negb (TurnFlags.ZeroEffectNudge F) || spawnTurnState.zeroEffectNudged st || bool_decide (trace = []) ||
     (negb (bool_decide (SubagentOutput.Status o = StatusOK)) && negb (parse_failed o)) || (TurnFlags.maxTurns F - 1 <=? turn) || traceHasEffect trace
  then None
  else Some (if parse_failed o then SpawnerZeroEffectParseFailMsg else SpawnerZeroEffectMsg).
Definition midAbandonGate (F : TurnFlags.t) (turn : Z) (o : SubagentOutput.t) (trace : list ToolInteraction.t) (st : spawnTurnState.t) : option string :=
  if negb (TurnFlags.MidAbandonNudge F) || spawnTurnState.midAbandonNudged st || bool_decide (trace = []) ||
     negb (bool_decide (SubagentOutput.Status o = StatusPartial)) || parse_failed o || (TurnFlags.maxTurns F - 1 <=? turn) || traceHasEffect trace
  then None
  else Some SpawnerMidAbandonMsg.
Definition downgrade (F : TurnFlags.t) (noToolCallsYet : bool) (o : SubagentOutput.t) : SubagentOutput.t :=
  if TurnFlags.hasTools F && noToolCallsYet && bool_decide (SubagentOutput.Status o = StatusOK)
  then o <| SubagentOutput.Status := StatusPartial |>
         <| SubagentOutput.Confidence ::= λ c, if fltb f_0_4 c then f_0_4 else c |>
         <| SubagentOutput.Warnings ::= λ l, l ++ [downgraded_warning] |>
  else o.

(** How such a turn ends: the model is reminded of something, or the step ends;
    [stored]: its trace is stored. *)
Inductive completion := Reminded (st : spawnTurnState.t) | Completed (o : SubagentOutput.t) (stored : bool).
Definition completeTurn (env : DecodeEnv) (F : TurnFlags.t) (turn : Z) (resp : ProviderReply.t) (trace : list ToolInteraction.t) (st : spawnTurnState.t) : completion :=
  let cleanText := remove_matches thoughtRe (ProviderReply.Text resp) in
  let p := ProviderReply.PromptTokens resp in
  let c := ProviderReply.CompletionTokens resp in
  let o := (ParseOutput env cleanText (TurnFlags.capability F)) <| SubagentOutput.Usage_ := Some (mkUsage p c (p + c)) |> in
  let noToolCallsYet := bool_decide (trace = []) in
  let st := st <| spawnTurnState.consecutiveParseFailures ::= λ n, if parse_failed o then n + 1 else 0 |> in
  let tell msg st := Reminded (st <| spawnTurnState.userBlocks ::= remind cleanText msg |>) in
  if maxConsecutiveParseFailures <=? spawnTurnState.consecutiveParseFailures st
  then Completed (o <| SubagentOutput.Warnings ::= λ l, l ++ [spin_broken (spawnTurnState.consecutiveParseFailures st)] |>) false
  else if hasMalformedToolCallTag cleanText then tell SpawnerInvalidToolFormatMsg st
  else
    match noToolNudge F turn o noToolCallsYet with
    | Some msg => tell msg st
    | None =>
        match zeroEffectGate F turn o trace st with
        | Some msg => tell msg (st <| spawnTurnState.zeroEffectNudged := true |>)
        | None =>
            let o := downgrade F noToolCallsYet o in
            match midAbandonGate F turn o trace st with
            | Some msg => tell msg (st <| spawnTurnState.midAbandonNudged := true |>)
            | None => Completed o true
            end
        end
    end.

(** ** The history of the conversation *)

Definition MarkerEnvObservation : string := "[ENVIRONMENT OBSERVATION]".
Definition MaxFullObservations : nat := 5.
Definition trim_left_lines (s : string) : string :=
  of_bytes ((fix go l := match l with a :: l' => if Ascii.eqb a newline || Ascii.eqb a " " then go l' else l | [] => [] end) (bytes s)).
Definition extractFirstLine (text : string) : string :=
  let rest := trim_left_lines (TrimPrefix text MarkerEnvObservation) in
  match index_of [newline] (bytes rest) with
  | Some (S i) => of_bytes (take (S i) (bytes rest))
  | _ => if (120 <? String.length rest)%nat then of_bytes (take 117 (bytes rest)) +:+ "..." else rest
  end.
Definition is_observation (b : ContentBlock.t) : bool := has_prefix MarkerEnvObservation (ContentBlock.Text b).
Definition summarized (b : ContentBlock.t) : ContentBlock.t :=
  let kb := Z.of_nat (String.length (ContentBlock.Text b)) / 1024 in
  with_text (MarkerEnvObservation +:+ " (summarized, " +:+ pretty (if kb =? 0 then 1 else kb) +:+ "KB) " +:+ extractFirstLine (ContentBlock.Text b)).
(** The first [n] observations are summarized. *)
Fixpoint compact_first (n : nat) (blocks : list ContentBlock.t) : list ContentBlock.t :=
  match blocks, n with
  | b :: blocks, S n' => if is_observation b then summarized b :: compact_first n' blocks else b :: compact_first n blocks
  | _, _ => blocks
  end.
Definition CompactOldObservations (blocks : list ContentBlock.t) (maxFull : nat) : list ContentBlock.t :=
  let maxFull := if (maxFull =? 0)%nat then MaxFullObservations else maxFull in
  compact_first (length (List.filter is_observation blocks) - maxFull) blocks.

Definition healer_advice : list (list string * string) :=
  [(["element not interactable"; "not visible"], "The UI element you tried to interact with is hidden or not ready. Try calling 'wait_for_selector' or taking a 'screenshot' to re-verify the page state before retrying.");
   (["timeout"; "deadline exceeded"], "The operation timed out. This could be due to slow network or heavy page load. Consider increasing the timeout parameter or breaking the task into smaller sub-steps.");
   (["selector not found"; "no such element"], "The CSS selector you provided was not found on the page. Use 'get_page_source' or 'screenshot' to check if the page structure has changed or if you are on the wrong URL.");
   (["permission denied"; "unauthorized"], "You hit a permission barrier. Check if you are correctly logged in or if you need to request elevated access for this specific tool.");
   (["rate limit"; "429"], "Rate limit reached. Please pause for a few seconds before retrying, or reduce the frequency of your requests.");
   (["context window"; "too many tokens"], "Context overflow risk. Try summarizing the previous steps or removing redundant logs from your next action.")].
Definition Diagnose (err : string) : string :=
  match List.find (λ wa, existsb (λ w, contains w (to_lower err)) wa.1) healer_advice with
  | Some wa => line_end +:+ line_end +:+ "[SYSTEM SELF-HEALING ADVICE]" +:+ line_end +:+ wa.2
  | None => ""
  end.
Definition SpawnerVDAPrompt : string :=
  line_end +:+ line_end +:+ "### VDA Verification Required" +:+ line_end +:+
  "State-changing tools were executed. A verification screenshot has been attached. Please analyze the image to verify if the UI state matches your expectation before proceeding.".
Definition appendTurnObservation (blocks : list ContentBlock.t) (text : string) (toolResults : list string) (needsVerification : bool) : list ContentBlock.t :=
  let observation := join line_end toolResults in
  let seen := MarkerEnvObservation +:+ line_end +:+ observation +:+ Diagnose observation +:+ (if needsVerification then SpawnerVDAPrompt else "") in
  CompactOldObservations (uncached blocks ++ [with_text text; with_cached seen]) MaxFullObservations.
Definition prependSticky (blocks : list ContentBlock.t) (stickyContext : string) : list ContentBlock.t :=
  if String.eqb stickyContext "" then blocks
  else ContentBlock.mk "text" ("## Persistent Context" +:+ line_end +:+ stickyContext) "" "" ∅ :: blocks.
Definition flattenContentBlocks (blocks : list ContentBlock.t) : string :=
  join (line_end +:+ line_end) (List.filter (λ t, negb (String.eqb t "")) (ContentBlock.Text <$> blocks)).

(** *** Shortening it after a refusal of the provider *)

Definition utf8 (r : Z) : list ascii :=
  let byte z := ascii_of_nat (Z.to_nat z) in
  if r <? 128 then [byte r]
  else if r <? 2048 then [byte (192 + r / 64); byte (128 + r mod 64)]
  else if r <? 65536 then [byte (224 + r / 4096); byte (128 + r / 64 mod 64); byte (128 + r mod 64)]
  else [byte (240 + r / 262144); byte (128 + r / 4096 mod 64); byte (128 + r / 64 mod 64); byte (128 + r mod 64)].
Definition of_runes (rs : list Z) : string := of_bytes (mjoin (utf8 <$> rs)).
Definition MarkerHistoryCompressed : string := "[... earlier conversation history compressed to fit within context budget ...]".
Definition contextCompressKeepFirst : nat := 2.
Definition contextCompressKeepLast : nat := 6.
Definition truncatePasses : nat := 6.
Definition estimateBlocksTokens (blocks : list ContentBlock.t) : Z := foldr (λ b n, estimateTokens (ContentBlock.Text b) + n) 0 blocks.
Definition truncateBlockText (text : string) (keepChars : nat) : string :=
  let r := runes text in
  if (length r <=? keepChars)%nat then text
  else
    let head := (keepChars * 6 / 10)%nat in
    of_runes (take head r) +:+ line_end +:+ MarkerHistoryCompressed +:+ line_end +:+ of_runes (drop (length r - (keepChars - head)) r).
(** The largest length in a range that [fits], by bisection. *)
Fixpoint bisect (fuel : nat) (fits : nat → bool) (lo hi : nat) : nat :=
  match fuel with
  | O => lo
  | S fuel => if (lo <? hi)%nat then let mid := ((lo + hi + 1) / 2)%nat in if fits mid then bisect fuel fits mid hi else bisect fuel fits lo (mid - 1) else lo
  end.
(** The first block with the most tokens, markers left aside. *)
Fixpoint biggest_block (i : nat) (best : option (nat * Z)) (blocks : list ContentBlock.t) : option (nat * Z) :=
  match blocks with
  | [] => best
  | b :: blocks =>
      let n := estimateTokens (ContentBlock.Text b) in
      let better := negb (String.eqb (ContentBlock.Text b) MarkerHistoryCompressed) && (match best with Some (_, m) => m | None => 0 end <? n) in
      biggest_block (S i) (if better then Some (i, n) else best) blocks
  end.
Definition shrink_block (allowed : Z) (text : string) : string :=
  let fits mid := estimateTokens (truncateBlockText text mid) <=? allowed in
  truncateBlockText text (bisect (S (length (runes text))) fits 0 (length (runes text))).
(** Passes over the blocks; whether something changed. *)
Fixpoint shrink_blocks (passes : nat) (budget : Z) (blocks : list ContentBlock.t) : list ContentBlock.t * bool :=
  match passes with
  | O => (blocks, false)
  | S passes =>
      let total := estimateBlocksTokens blocks in
      if total <=? budget then (blocks, false)
      else
        match biggest_block 0 None blocks with
        | None => (blocks, false)
        | Some (idx, biggest) =>
            let newText := shrink_block (Z.max 0 (budget - (total - biggest))) (match blocks !! idx with Some b => ContentBlock.Text b | None => "" end) in
            if biggest <=? estimateTokens newText then (blocks, false)
            else ((shrink_blocks passes budget (alter (λ b, b <| ContentBlock.Text := newText |>) idx blocks)).1, true)
        end
  end.
Definition keep_ends (blocks : list ContentBlock.t) : list ContentBlock.t :=
  take contextCompressKeepFirst blocks ++ [with_text MarkerHistoryCompressed] ++ drop (length blocks - contextCompressKeepLast) blocks.
(** The blocks, and whether they changed. *)
Definition compressUserBlocksToBudget (blocks : list ContentBlock.t) (budgetTokens : Z) : list ContentBlock.t * bool :=
  let long := (contextCompressKeepFirst + contextCompressKeepLast <? length blocks)%nat in
  if bool_decide (blocks = []) then (blocks, false)
  else if budgetTokens <=? 0 then if long then (keep_ends blocks, true) else (blocks, false)
  else if estimateBlocksTokens blocks <=? budgetTokens then (blocks, false)
  else
    let '(shrunk, changed) := shrink_blocks truncatePasses budgetTokens (if long then keep_ends blocks else blocks) in
    (shrunk, long || changed).

Definition defaultSpawnOutputTokens : Z := 8192.
Definition spawnOutputBudget (requested configured : Z) : Z :=
  if 0 <? requested then requested else if 0 <? configured then configured else defaultSpawnOutputTokens.
(** [out]: the budget of the output. *)
Definition contextInputBudget (cfg : WindowConfig.t) (out : Z) : Z :=
  let win := WindowConfig.MaxContextWindow cfg in
  if win <=? 0 then 0
  else
    let budget := win - Z.max (GetReserveTokens (Some (WindowConfig.Config cfg))) out in
    if budget <=? 0 then 0 else budget * 85 / 100.

(** ** Errors of a provider *)

Definition retryable_words : list string :=
  ["timeout"; "deadline exceeded"; "connection refused"; "not support images"; "images are not supported"; "multimodal";
   "401"; "403"; "api key"; "not found"].
Definition isRetryableError (err : Error) : bool :=
  match as_rate_limit err with
  | Some _ => true
  | None =>
      match as_provider_error err with Some msg => contains "HTTP 5" msg | None => false end ||
      existsb (λ w, contains w (to_lower (error_text err))) retryable_words
  end.
Definition context_limit_words : list string :=
  ["context_length_exceeded"; "context length"; "context size"; "n_ctx"; "n_prompt_tokens"; "maximum context"; "prompt is too long";
   "context too long"; "too many tokens"; "exceeds the maximum number of tokens"; "max_tokens"].
Definition IsContextLimitError (err : Error) : bool := existsb (λ w, contains w (to_lower (error_text err))) context_limit_words.
(** The brake on a streamed text: the last 30 of 150 bytes occur four times. *)
Definition pattern_window (window chunk : string) : string :=
  let w := bytes (window +:+ chunk) in of_bytes (drop (length w - 150) w).
Definition loops_in_text (window : string) : bool :=
  (150 <=? String.length window)%nat && (4 <=? count window (of_bytes (drop (String.length window - 30) (bytes window))))%nat.
Fixpoint pattern_brake (window : string) (chunks : list string) : bool :=
  match chunks with
  | [] => false
  | c :: chunks => let window := pattern_window window c in loops_in_text window || pattern_brake window chunks
  end.

(** ** The candidates of a step *)

Module spawnCandidate.
Record t := mk { providerID : string; model : string }.
End spawnCandidate.
(** What the choice reads: the override and role of the request, the images, the
    models and the session. *)
Module CandidateEnv.
Record t := mk {
  ProviderOverride : string; RoleID : string; role_provider : option string; DisableFallback : bool; Fallbacks : list (string * string);
  images : bool; primary_sees : bool; default_provider : string; default_sees : bool; MainProviderID : string }.
End CandidateEnv.
Definition buildCandidateConfigs (C : CandidateEnv.t) : list spawnCandidate.t :=
  let first := spawnCandidate.mk (CandidateEnv.ProviderOverride C) "" in
  let vision := if CandidateEnv.images C && negb (CandidateEnv.primary_sees C) && CandidateEnv.default_sees C &&
                   negb (String.eqb (CandidateEnv.ProviderOverride C) (CandidateEnv.default_provider C))
                then [spawnCandidate.mk (CandidateEnv.default_provider C) ""] else [] in
  let fallbacks := if CandidateEnv.DisableFallback C then [] else (λ fb, spawnCandidate.mk fb.1 fb.2) <$> CandidateEnv.Fallbacks C in
  let l := first :: vision ++ fallbacks in
  let main := if String.eqb (CandidateEnv.MainProviderID C) "" then CandidateEnv.default_provider C else CandidateEnv.MainProviderID C in
  let present c := String.eqb (spawnCandidate.providerID c) main ||
    (String.eqb (spawnCandidate.providerID c) "" && negb (String.eqb (CandidateEnv.RoleID C) "") && bool_decide (CandidateEnv.role_provider C = Some main)) in
  if existsb present l then l else l ++ [spawnCandidate.mk main ""].

(** *** The configuration of a candidate *)

Definition with_model (model : string) (c : WindowConfig.t) : WindowConfig.t :=
  let p := WindowConfig.Config c in
  c <| WindowConfig.Config := Registry.ProviderConfig.mk (Registry.ProviderConfig.PoolID p) (Registry.ProviderConfig.Provider p) model (Registry.ProviderConfig.ReserveTokens p) |>.
Definition model_of (c : WindowConfig.t) : string := Registry.ProviderConfig.Model (WindowConfig.Config c).
Definition virtual_config (provider model : string) : WindowConfig.t := WindowConfig.mk (Registry.ProviderConfig.mk "" provider model 0) 0 0 0.
(** [session]: the providers of the session. *)
Module ProviderTable.
Record t := mk { session : gmap string WindowConfig.t; Providers : gmap string WindowConfig.t; DefaultProvider : string; MainProviderID : string }.
End ProviderTable.
Section candidate_config.
Context (R : ProviderTable.t).
Definition GetProviderConfig (id : string) : option WindowConfig.t :=
  if String.eqb id "" then None
  else match ProviderTable.session R !! id with Some c => Some c | None => ProviderTable.Providers R !! id end.
(** The one with the least id. *)
Definition FindProviderByModel (model : string) : option WindowConfig.t :=
  if String.eqb model "" then None
  else List.find (λ c, String.eqb (model_of c) model) (omap (λ id, ProviderTable.Providers R !! id) (sort_strings (elements (dom (ProviderTable.Providers R))))).
(** The role's provider and model. *)
Definition ResolveProviderConfig (role : string * string) : WindowConfig.t :=
  let name := if String.eqb role.1 "" then ProviderTable.DefaultProvider R else role.1 in
  match (match ProviderTable.Providers R !! name with Some c => Some c | None => ProviderTable.Providers R !! "default" end) with
  | None => virtual_config "anthropic" "claude-sonnet-4-20250514"
  | Some c => if negb (String.eqb role.2 "") && negb (String.eqb role.2 (model_of c)) then with_model role.2 c else c
  end.
Definition resolveCandidateConfig (role : string * string) (c : spawnCandidate.t) : WindowConfig.t :=
  let id := if String.eqb (spawnCandidate.providerID c) "" then
              if String.eqb role.1 "" then
                if String.eqb (ProviderTable.MainProviderID R) "" then ProviderTable.DefaultProvider R else ProviderTable.MainProviderID R
              else role.1
            else spawnCandidate.providerID c in
  match (match GetProviderConfig id with Some pc => Some pc | None => FindProviderByModel id end) with
  | Some pc => if negb (String.eqb (spawnCandidate.model c) "") && negb (String.eqb (spawnCandidate.model c) (model_of pc))
               then with_model (spawnCandidate.model c) pc else pc
  | None => if (size (ProviderTable.Providers R) =? 0)%nat then virtual_config "host" "delegated-host-model" else ResolveProviderConfig role
  end.
End candidate_config.

(** ** Examples *)

(** A summary counts as an observation: each turn summarizes the summaries again. *)
Definition ex_seen (n : nat) : ContentBlock.t := with_text (MarkerEnvObservation +:+ line_end +:+ pretty n).
Fixpoint ex_turns (n : nat) (blocks : list ContentBlock.t) : list ContentBlock.t :=
  match n with O => blocks | S n => ex_turns n (CompactOldObservations (blocks ++ [ex_seen n]) 0) end.
Example summary_of_summary :
  ContentBlock.Text <$> head (ex_turns 6 []) = Some (MarkerEnvObservation +:+ " (summarized, 1KB) 5") ∧
  ContentBlock.Text <$> head (ex_turns 8 []) = Some (MarkerEnvObservation +:+ " (summarized, 1KB) (summarized, 1KB) (summarized, 1KB) 7").
Proof. vm_compute. split; reflexivity. Qed.
(** Advice by a number in a result. *)
Example advice_for_number : has_prefix (line_end +:+ line_end +:+ "[SYSTEM SELF-HEALING ADVICE]") (Diagnose "inserted 1429 rows") = true.
Proof. vm_compute. reflexivity. Qed.
(** A role's model counts only when its provider is not configured. *)
Definition ex_table (provider : string) : ProviderTable.t :=
  ProviderTable.mk ∅ {[ provider := WindowConfig.mk (Registry.ProviderConfig.mk "" provider "base" 0) 0 0 0 ]} provider "".
Example role_model_ignored :
  model_of (ResolveProviderConfig (ex_table "openai") ("openai", "large")) = "large" ∧
  model_of (resolveCandidateConfig (ex_table "openai") ("openai", "large") (spawnCandidate.mk "" "")) = "base".
Proof. vm_compute. split; reflexivity. Qed.
(** A command to complete, or to sleep; a length of zero is no command. *)
Example directives :
  parseHeartbeat "done [[Heartbeat::Complete]]" = HeartbeatComplete "done" ∧
  parseHeartbeat "[[Heartbeat::Sleep::30]][[Heartbeat::WakePrompt]] look [[/Heartbeat::WakePrompt]]" = HeartbeatSleep 30 "look" ∧
  parseHeartbeat "[[Heartbeat::Sleep::0]]" = HeartbeatNone.
Proof. vm_compute. split_and!; reflexivity. Qed.
