(* ===== verification/Scheduler.v ===== *)
(** * The scheduler loop

    core/scheduler_dag.go (the [run] loop, claims, [HandleSwarmOutput]),
    core/dag_walker.go ([GetAllReadySteps]), core/scheduler_taskctl.go,
    core/scheduler_decision_finalize.go and [detectUpstreamInsufficient] of
    core/scheduler_decision_preflight.go.

    One pass through the loop is [run_iteration], which says what the loop does
    next; [run_loop] composes the passes with the handlers of the started
    steps.  A wait on the notify channel ends the modelled run: what happens
    next is another event's step. *)

From S2P Require Import Prelude TaskStatus Schema FailureClass DecisionGate CycleBreaker Surgery DecisionAnswer OutputHandlers.

(** ** Looking for a stuck step *)

Record upstreamInsufficientInfo := mkInsufficient {
  ui_Step : Step.t;
  ui_UpstreamIDs : list string;
  ui_UpstreamStatuses : gmap string StepStatus
}.

(** The scan of one step's dependencies; [None] stands for the early [break]
    on an unknown dependency. *)
Definition upstream_statuses (m : gmap string Step.t) (deps : list string) : option (list (string * StepStatus)) :=
  mapM (λ d, (λ dep, (d, Step.Status dep)) <$> m !! d) deps.
Definition terminal_status (st : StepStatus) : bool :=
  match st with
  | StepOK | StepPartial | StepFailed | StepSkipped | StepBlocked | StepDeprecated => true
  | _ => false
  end.
Definition step_insufficient (m : gmap string Step.t) (step : Step.t) : option upstreamInsufficientInfo :=
  if decide (Step.Status step = StepPending) then
    match upstream_statuses m (Step.DependsOn step) with
    | None => None
    | Some ups =>
        if forallb (λ p : string * StepStatus, terminal_status p.2) ups
           && existsb (λ p : string * StepStatus, negb (bool_decide (p.2 = StepOK ∨ p.2 = StepPartial))) ups
        then Some (mkInsufficient step (fst <$> ups) (list_to_map ups))
        else None
    end
  else None.
Definition detectUpstreamInsufficient (g : TaskGraph.t) (ord : list string) : option upstreamInsufficientInfo :=
  head (omap (λ kv : string * Step.t, step_insufficient (TaskGraph.Steps g) kv.2) (range (TaskGraph.Steps g) ord)).

(** ** One pass through the loop *)

Inductive RunAction :=
| RunBlockedWait
| RunFinalize
| RunDecisionWait
| RunRaise (info : upstreamInsufficientInfo)
| RunWait
| RunNotRunning
| RunExecute (ready : list Step.t).

Definition run_iteration (g : TaskGraph.t) (ord : list string) : RunAction :=
  if decide (TaskGraph.Status g = GraphBlocked) then RunBlockedWait
  else
    match ReadySteps g ord with
    | [] =>
        if IsTerminal g && bool_decide (TaskGraph.PendingDecisions g = []) then RunFinalize
        else if decide (TaskGraph.PendingDecisions g ≠ []) then RunDecisionWait
        else match detectUpstreamInsufficient g ord with
             | Some info => RunRaise info
             | None => RunWait
             end
    | ready =>
        if decide (TaskGraph.Status g = GraphRunning) then RunExecute ready else RunNotRunning
    end.

(** The decision the loop raises on a stuck step. *)
Definition step_status_string (st : StepStatus) : string :=
  match st with
  | StepPending => "pending"
  | StepRunning => "running"
  | StepOK => "ok"
  | StepPartial => "partial"
  | StepFailed => "failed"
  | StepBlocked => "blocked"
  | StepSkipped => "skipped"
  | StepDeprecated => "deprecated"
  | StepSuspended => "suspended"
  end.
Definition status_dict (m : gmap string StepStatus) : any :=
  AMap (prod_map id (AString ∘ step_status_string) <$> map_to_list m).
Definition raise_insufficient (cfg : SystemConfig) (decID : string) (now : Z) (info : upstreamInsufficientInfo)
    (s : GateState) : GateState :=
  let step := ui_Step info in
  let s := addDecision (Some cfg) decID now (Step.ID step) DecisionUpstreamInsufficient
    (<["step_id" := AString (Step.ID step)]>
      (<["upstream" := AStrings (ui_UpstreamIDs info)]>
        (<["upstream_st" := status_dict (ui_UpstreamStatuses info)]> ∅)))
    ["skip"; "abort"] s in
  emit OBroadcast (emit (OPersist (gs_graph s)) s).

(** ** Finalisation *)

Definition final_status (g : TaskGraph.t) : GraphStatus :=
  let sts := step_states g in
  let allOK := forallb (λ st, negb (bool_decide (st = StepFailed ∨ st = StepBlocked))) sts in
  if decide (TaskGraph.PendingDecisions g ≠ []) then GraphBlocked
  else if negb allOK then GraphFailed
  else if forallb (λ st, bool_decide (st = StepSkipped)) sts && bool_decide (sts ≠ [])
  then GraphCompletedWithSkips else GraphCompleted.

Definition finalized (st : GraphStatus) : bool :=
  match st with GraphCompleted | GraphCompletedWithSkips | GraphFailed => true | _ => false end.

(** [finalize]; [holds] says whether this process holds the task's fence. *)
Definition finalize (Pow : float64 → float64 → float64) (ord : list string) (now : Z) (holds : bool)
    (s : GateState) : GateState :=
  let g := gs_graph s in
  if finalized (TaskGraph.Status g) then s
  else
    let conf := ComputeConfidence Pow g ord in
    let st := final_status g in
    let g := g <| TaskGraph.OverallConfidence := Some conf |> <| TaskGraph.CompletedAt := Some now |>
               <| TaskGraph.Status := st |> in
    let taskID := TaskGraph.TaskID g in
    let ok := bool_decide (st = GraphCompleted ∨ st = GraphCompletedWithSkips) in
    let s := s <| gs_graph := g |> in
    let s := emit (OPersist g) s in
    let s := emit (OEvent (if ok then "task_completed" else "task_failed") taskID "") s in
    let s := emit (OBroadcastDone taskID) s in
    let s := if holds then emit (OManifest g) s else s in
    emit (ONotify (if ok then "task_completed" else "task_failed") taskID)
      (emit (ODeliver taskID) (emit (OReflect taskID) s)).

(** [deliverArtifacts]: artifacts with a known delivery channel are published. *)
Definition delivery_hint (files : list OutputFile.t) (path : string) : string :=
  default "" (OutputFile.Deliver <$> List.find (λ f, String.eqb (OutputFile.Path f) path) files).
Definition known_channel (hint : string) : bool :=
  has_prefix "webhook:" hint || has_prefix "s3:" hint || String.eqb hint "local".
Definition deliver_one (files : list OutputFile.t) (a : Artifact.t) : Artifact.t :=
  if decide (Artifact.Status a = "published") then a
  else
    let hint := delivery_hint files (Artifact.Path a) in
    if decide (hint = "") then a
    else if known_channel hint
    then a <| Artifact.Status := "published" |> <| Artifact.DeliveryStatus := "delivered" |>
    else a.
Definition deliverArtifacts (s : GateState) : GateState :=
  let g := gs_graph s in
  let g := g <| TaskGraph.Artifacts ::= fmap (deliver_one (TaskGraph.OutputFiles g)) |> in
  emit (OPersist g) (s <| gs_graph := g |>).

(** ** Claims and releases *)

Definition set_status (st : StepStatus) (g : TaskGraph.t) (stepID : string) : TaskGraph.t :=
  upd_step stepID (λ x, x <| Step.Status := st |>) g.

(** [claim] is the task store's distributed lock. *)
Definition ClaimStep (claim : string → string → bool) (taskID stepID : string) (e : Engine) : Engine * bool :=
  match graphs e !! taskID with
  | Some g =>
      match get_step g stepID with
      | Some step =>
          if bool_decide (TaskGraph.Status g = GraphRunning) && bool_decide (Step.Status step = StepPending)
             && claim taskID stepID
          then (store_graph taskID (set_status StepRunning g stepID) e, true)
          else (e, false)
      | None => (e, false)
      end
  | None => (e, false)
  end.

(** The first running graph, in range order, that has the step. *)
Definition graph_of_step (e : Engine) (ord : list string) (stepID : string) : option (string * TaskGraph.t) :=
  List.find (λ kv : string * TaskGraph.t,
      bool_decide (TaskGraph.Status kv.2 = GraphRunning) && bool_decide (is_Some (get_step kv.2 stepID)))
    (range (graphs e) ord).
Definition ClaimTask (claim : string → string → bool) (ord : list string) (stepID : string) (e : Engine)
    : Engine * bool :=
  match graph_of_step e ord stepID with
  | Some (key, g) =>
      match get_step g stepID with
      | Some step =>
          if bool_decide (Step.Status step = StepPending) && claim (TaskGraph.TaskID g) stepID
          then (store_graph key (set_status StepRunning g stepID) e, true)
          else (e, false)
      | None => (e, false)
      end
  | None => (e, false)
  end.

Definition ReleaseTask (ord : list string) (stepID : string) (e : Engine) : Engine :=
  match List.find (λ kv : string * TaskGraph.t,
      bool_decide (TaskGraph.Status kv.2 = GraphRunning)
      && bool_decide (Step.Status <$> get_step kv.2 stepID = Some StepRunning)) (range (graphs e) ord) with
  | Some (key, g) => store_graph key (set_status StepPending g stepID) e
  | None => e
  end.

Definition GetAllReadySteps (e : Engine) (ord : list string) (sord : string → list string)
    : list (string * Step.t) :=
  mjoin ((λ kv : string * TaskGraph.t, (kv.1,.) <$> ReadySteps kv.2 (sord kv.1)) <$>
    filter (λ kv : string * TaskGraph.t, TaskGraph.Status kv.2 = GraphRunning) (range (graphs e) ord)).

Definition HandleSwarmOutput (env : OutEnv) (ord tools : list string) (decID taskID stepID ref : string)
    (output : SubagentOutput.t) (rd : gmap string Z) (e : Engine) : Engine :=
  match graphs e !! taskID with
  | Some g =>
      match get_step g stepID with
      | Some _ =>
          let s := handleOutput env ord tools decID stepID
                     (Some (SpawnResult.mk output (taskID +:+ ":" +:+ stepID)%string "" [])) (mkGate g rd []) in
          emits (gs_out s) (store_graph taskID (gs_graph s) e)
      | None => e
      end
  | None => e
  end.

(** ** Task control *)

Definition ErrNotFoundOrTerminal : string := "not found or already terminal".
Definition CancelTask (taskID : string) (e : Engine) : Engine * option string :=
  match graphs e !! taskID with
  | Some g =>
      if decide (taskID ∈ cancelFuncs e) then
        let g := g <| TaskGraph.Status := GraphCancelled |> in
        (emits [OCancel taskID; OPersist g] (store_graph taskID g e), None)
      else (e, Some ErrNotFoundOrTerminal)
  | None => (e, Some ErrNotFoundOrTerminal)
  end.

Definition SuspendTask (taskID : string) (e : Engine) : Engine * option string :=
  match graphs e !! taskID with
  | Some g =>
      if decide (taskID ∈ cancelFuncs e) then
        if decide (TaskGraph.Status g = GraphRunning) then
          let g := g <| TaskGraph.Status := GraphSuspended |> in
          (emits [OCancel taskID; OPersist g] (store_graph taskID g e), None)
        else (e, Some "not running")
      else (e, Some ErrNotFoundOrTerminal)
  | None => (e, Some ErrNotFoundOrTerminal)
  end.

(** Steps caught mid-flight are queued again. *)
Definition reset_zombie (st : Step.t) : Step.t :=
  if decide (Step.Status st = StepRunning) then st <| Step.Status := StepPending |> else st.
Definition ResumeSuspendedTask (taskID : string) (e : Engine) : Engine * option string :=
  match graphs e !! taskID with
  | None => (e, Some "not found")
  | Some g =>
      if decide (TaskGraph.Status g = GraphSuspended) then
        let g := g <| TaskGraph.Steps ::= fmap reset_zombie |> <| TaskGraph.Status := GraphRunning |> in
        let e := store_graph taskID g e in
        let e := e <| cancelFuncs ::= λ c, {[TaskGraph.TaskID g]} ∪ c |> in
        let e := e <| doneChans ::= λ m, match m !! TaskGraph.TaskID g with
                                         | Some _ => m
                                         | None => <[TaskGraph.TaskID g := false]> m
                                         end |> in
        (emits [OStartExecutor (TaskGraph.TaskID g); OPersist g] e, None)
      else (e, Some "not suspended")
  end.

Definition PatchWorkspace (taskID : string) (data : gmap string any) (e : Engine) : Engine * option string :=
  match graphs e !! taskID with
  | None => (e, Some "not found")
  | Some g => (store_graph taskID (g <| TaskGraph.GlobalWorkspace ::= λ ws, data ∪ ws |>) e, None)
  end.

(** ** The loop *)

Section RunLoop.
(** [order] is Go's iteration order over a graph's steps, [sched] the order in
    which the handlers of the concurrently started steps take effect, and
    [exec] the whole execution of one step. *)
Context (order : TaskGraph.t → list string) (sched : list Step.t → list Step.t)
        (exec : GateState → string → GateState).

Fixpoint run_loop (fuel : nat) (s : GateState) : option (GateState * RunAction) :=
  match fuel with
  | 0 => None
  | S fuel' =>
      match run_iteration (gs_graph s) (order (gs_graph s)) with
      | RunExecute ready =>
          run_loop fuel' (foldl exec (emit (OPersist (gs_graph s)) s) (Step.ID <$> sched ready))
      | a => Some (s, a)
      end
  end.
End RunLoop.

(** ** Stuck steps *)

Lemma upstream_statuses_Some m deps ups :
  upstream_statuses m deps = Some ups ↔
  Forall2 (λ d p, ∃ dep, m !! d = Some dep ∧ p = (d, Step.Status dep)) deps ups.
Proof.
  unfold upstream_statuses. rewrite mapM_Some. split; (intros H; eapply Forall2_impl; [exact H|]);
    intros d p; rewrite fmap_Some; naive_solver.
Qed.

Lemma step_insufficient_Some m step info :
  step_insufficient m step = Some info →
  ui_Step info = step ∧ Step.Status step = StepPending ∧
  (∀ d, d ∈ Step.DependsOn step → ∃ dep, m !! d = Some dep ∧ step_IsTerminal dep = true) ∧
  (∃ d dep, d ∈ Step.DependsOn step ∧ m !! d = Some dep ∧ Step.Status dep ≠ StepOK ∧ Step.Status dep ≠ StepPartial).
Proof.
  unfold step_insufficient. case_decide as Hp; [|done].
  destruct (upstream_statuses m (Step.DependsOn step)) as [ups|] eqn:E; [|done].
  apply upstream_statuses_Some in E. destruct (_ && _) eqn:Eb; [|done]. intros [= <-].
  apply andb_true_iff in Eb as [Ht Hf]. rewrite forallb_forall in Ht. apply existsb_exists in Hf as (p & Hin & Hp2).
  split; [done|]. split; [done|]. split.
  - intros d Hd. apply list_elem_of_lookup in Hd as [i Hi].
    destruct (Forall2_lookup_l _ _ _ _ _ E Hi) as (q & Hq & dep & Hdep & ->).
    exists dep. split; [done|]. apply list_elem_of_lookup_2, list_elem_of_In, Ht in Hq. exact Hq.
  - apply list_elem_of_In, list_elem_of_lookup in Hin as [i Hi].
    destruct (Forall2_lookup_r _ _ _ _ _ E Hi) as (d & Hd & dep & Hdep & ->).
    exists d, dep. split; [by eapply list_elem_of_lookup_2|]. split; [done|].
    rewrite negb_true_iff, bool_decide_eq_false in Hp2. cbn in Hp2. tauto.
Qed.

Lemma step_insufficient_None m step :
  step_insufficient m step = None → Step.Status step = StepPending →
  (∀ d, d ∈ Step.DependsOn step → ∃ dep, m !! d = Some dep ∧ step_IsTerminal dep = true) →
  deps_done m step = true.
Proof.
  intros Hn Hp Hall. apply deps_done_true. intros d dep Hd Hdep.
  unfold step_insufficient in Hn. rewrite decide_True in Hn by done.
  destruct (upstream_statuses m (Step.DependsOn step)) as [ups|] eqn:E.
  - apply upstream_statuses_Some in E. destruct (_ && _) eqn:Eb; [done|].
    apply andb_false_iff in Eb as [Eb|Eb].
    + exfalso. apply not_true_iff_false in Eb. apply Eb, forallb_forall. intros p Hin.
      apply list_elem_of_In, list_elem_of_lookup in Hin as [i Hi].
      destruct (Forall2_lookup_r _ _ _ _ _ E Hi) as (d' & Hd' & dep' & Hdep' & ->).
      destruct (Hall d') as (dep2 & H2 & Ht); [by eapply list_elem_of_lookup_2|].
      rewrite Hdep' in H2. injection H2 as <-. exact Ht.
    + apply list_elem_of_lookup in Hd as [i Hi].
      destruct (Forall2_lookup_l _ _ _ _ _ E Hi) as (q & Hq & dep' & Hdep' & ->).
      rewrite Hdep in Hdep'. injection Hdep' as <-.
      destruct (decide (Step.Status dep = StepOK ∨ Step.Status dep = StepPartial)) as [[-> | ->]|Hno]; [done|done|].
      exfalso. apply not_true_iff_false in Eb. apply Eb, existsb_exists. exists (d, Step.Status dep).
      split; [by apply list_elem_of_In; eapply list_elem_of_lookup_2|].
      cbn. by rewrite bool_decide_false.
  - exfalso. unfold upstream_statuses in E. apply mapM_None, Exists_exists in E as (d' & Hd' & Hn').
    destruct (Hall d' Hd') as (dep' & H' & _). by rewrite H' in Hn'.
Qed.

Lemma detect_Some g ord info :
  detectUpstreamInsufficient g ord = Some info →
  ∃ id step, TaskGraph.Steps g !! id = Some step ∧ step_insufficient (TaskGraph.Steps g) step = Some info.
Proof.
  unfold detectUpstreamInsufficient. intros H%head_Some_elem_of.
  apply list_elem_of_omap in H as ([id step] & Hin & H). exists id, step. split; [|done].
  by apply elem_of_range in Hin as [_ ?].
Qed.

Lemma detect_None g ord id step :
  range_order (TaskGraph.Steps g) ord → detectUpstreamInsufficient g ord = None →
  TaskGraph.Steps g !! id = Some step → step_insufficient (TaskGraph.Steps g) step = None.
Proof.
  intros Ho Hd Hs. destruct (step_insufficient (TaskGraph.Steps g) step) as [info|] eqn:E; [exfalso|done].
  unfold detectUpstreamInsufficient in Hd. apply head_None in Hd.
  assert (info ∈ omap (λ kv : string * Step.t, step_insufficient (TaskGraph.Steps g) kv.2) (range (TaskGraph.Steps g) ord)) as Hin.
  { apply list_elem_of_omap. exists (id, step). split; [|done]. by apply range_order_lookup. }
  rewrite Hd in Hin. by apply elem_of_nil in Hin.
Qed.

Lemma ReadySteps_nil g ord :
  range_order (TaskGraph.Steps g) ord → ReadySteps g ord = [] ↔
  ∀ id s, TaskGraph.Steps g !! id = Some s → step_ready (TaskGraph.Steps g) s = false.
Proof.
  intros Ho. split.
  - intros E id s Hs. destruct (step_ready (TaskGraph.Steps g) s) eqn:Er; [|done].
    assert (s ∈ ReadySteps g ord) as H by (apply elem_of_ReadySteps; eauto).
    rewrite E in H. by apply elem_of_nil in H.
  - intros H. destruct (ReadySteps g ord) as [|s l] eqn:E; [done|].
    assert (s ∈ ReadySteps g ord) as Hin by (rewrite E; left).
    apply elem_of_ReadySteps in Hin as [[id Hs] Hr]; [|done]. by rewrite (H id s Hs) in Hr.
Qed.

(** The loop never idles on a graph it could move.  On a running, acyclic
    graph whose dependencies all exist and in which no step is in flight
    (running or suspended), one pass either starts steps, finalises, waits for
    a parked decision, or raises a decision about a step stuck behind failed
    upstream work; the bare wait is impossible. *)
Theorem run_never_idles g ord rank :
  range_order (TaskGraph.Steps g) ord → TaskGraph.Status g = GraphRunning →
  ranked (TaskGraph.Steps g) rank →
  (∀ id s d, TaskGraph.Steps g !! id = Some s → d ∈ Step.DependsOn s → is_Some (TaskGraph.Steps g !! d)) →
  (∀ id s, TaskGraph.Steps g !! id = Some s → Step.Status s ≠ StepRunning ∧ Step.Status s ≠ StepSuspended) →
  (∃ ready, run_iteration g ord = RunExecute ready ∧ ready ≠ [] ∧
     ∀ s, s ∈ ready → step_ready (TaskGraph.Steps g) s = true) ∨
  run_iteration g ord = RunFinalize ∨ run_iteration g ord = RunDecisionWait ∨
  (∃ info, run_iteration g ord = RunRaise info).
Proof.
  intros Ho Hr Hrank Hdeps Hidle. unfold run_iteration. rewrite decide_False by congruence.
  destruct (ReadySteps g ord) as [|s l] eqn:Er.
  2: { left. exists (s :: l). rewrite decide_True by done. split_and!; try done.
       intros s' Hs'. rewrite <- Er in Hs'. by apply elem_of_ReadySteps in Hs' as [_ ?]. }
  right. destruct (IsTerminal g && bool_decide (TaskGraph.PendingDecisions g = [])) eqn:Et; [by left|right].
  case_decide as Hp; [by left|right].
  destruct (detectUpstreamInsufficient g ord) as [info|] eqn:Ed; [by eexists|exfalso].
  rewrite bool_decide_true, andb_true_r in Et by done.
  assert (∃ id0 s0, TaskGraph.Steps g !! id0 = Some s0 ∧ Step.Status s0 = StepPending) as (id0 & s0 & H0 & Hp0).
  { apply not_true_iff_false in Et. destruct (decide (map_Exists (λ _ s, Step.Status s = StepPending) (TaskGraph.Steps g)))
      as [(id & s & ? & ?)|Hno]; [by eauto|]. exfalso. apply Et, IsTerminal_true. intros id s Hs.
    destruct (Hidle id s Hs) as [? ?]. unfold step_IsTerminal.
    destruct (Step.Status s) eqn:E; try done. exfalso. apply Hno. by exists id, s. }
  destruct (min_rank_pending _ rank _ _ H0 Hp0) as (id & s & Hs & Hps & Hmin).
  rewrite ReadySteps_nil in Er by done. specialize (Er id s Hs).
  assert (deps_done (TaskGraph.Steps g) s = true) as Hdone.
  { eapply step_insufficient_None; [by eapply detect_None|done|]. intros d Hd.
    destruct (Hdeps id s d Hs Hd) as [dep Hdep]. exists dep. split; [done|].
    specialize (Hrank id s d Hs Hd ltac:(by eexists)). destruct (Hidle d dep Hdep) as [? ?].
    unfold step_IsTerminal. destruct (Step.Status dep) eqn:E; try done.
    specialize (Hmin d dep Hdep E). lia. }
  unfold step_ready in Er. rewrite Hdone, bool_decide_true in Er by done. done.
Qed.

(** A decision raised for insufficient upstream work is justified: its step
    is pending, all its dependencies exist and have ended, and one of them
    ended without a (partial) success. *)
Theorem detect_sound g ord info :
  detectUpstreamInsufficient g ord = Some info →
  Step.Status (ui_Step info) = StepPending ∧
  (∀ d, d ∈ Step.DependsOn (ui_Step info) →
     ∃ dep, TaskGraph.Steps g !! d = Some dep ∧ step_IsTerminal dep = true) ∧
  (∃ d dep, d ∈ Step.DependsOn (ui_Step info) ∧ TaskGraph.Steps g !! d = Some dep ∧
     Step.Status dep ≠ StepOK ∧ Step.Status dep ≠ StepPartial).
Proof.
  intros (id & step & Hs & H)%detect_Some. apply step_insufficient_Some in H as (-> & ? & ? & ?). done.
Qed.

(** A dependency the graph does not have is satisfied for [ReadySteps] and
    still pending for [detectUpstreamInsufficient].  A pending step behind a
    failed dependency and an unknown one is therefore never started and never
    reported: on a graph with nothing else to do the loop waits for ever. *)
Theorem unknown_dependency_stalls g ord id step d dep u :
  range_order (TaskGraph.Steps g) ord →
  TaskGraph.Steps g = <[id := step]> {[d := dep]} → id ≠ d →
  TaskGraph.Status g = GraphRunning → TaskGraph.PendingDecisions g = [] →
  Step.Status step = StepPending → d ∈ Step.DependsOn step → u ∈ Step.DependsOn step →
  u ≠ id → u ≠ d → Step.Status dep = StepFailed →
  run_iteration g ord = RunWait.
Proof.
  intros Ho Hst Hne Hr Hpd Hp Hd Hu Hui Hud Hdep. unfold run_iteration.
  rewrite (decide_False (P := TaskGraph.Status g = GraphBlocked)) by congruence.
  assert (ReadySteps g ord = []) as ->.
  { apply ReadySteps_nil; [done|]. intros i s. rewrite Hst.
    intros [[<- <-]|[_ [<- <-]%lookup_singleton_Some]]%lookup_insert_Some; unfold step_ready.
    - apply andb_false_iff. right. apply not_true_iff_false. rewrite deps_done_true. intros Hall.
      assert (dep_done (Step.Status dep) = true) as Hx.
      { apply (Hall d); [done|]. rewrite lookup_insert_ne by done. apply lookup_singleton_eq. }
      by rewrite Hdep in Hx.
    - by rewrite Hdep. }
  assert (IsTerminal g = false) as ->.
  { apply not_true_iff_false. rewrite IsTerminal_true. intros Hall.
    assert (step_IsTerminal step = true) as Hx by (apply (Hall id); rewrite Hst; apply lookup_insert_eq).
    unfold step_IsTerminal in Hx. by rewrite Hp in Hx. }
  cbn [andb]. rewrite decide_False by (rewrite Hpd; intros Hx; by apply Hx).
  destruct (detectUpstreamInsufficient g ord) as [info|] eqn:E; [exfalso|done].
  apply detect_Some in E as (i & s & Hs & E).
  apply step_insufficient_Some in E as (_ & Hps & Hall & _). rewrite Hst in Hs.
  apply lookup_insert_Some in Hs as [[<- <-]|[_ [<- <-]%lookup_singleton_Some]].
  - destruct (Hall u Hu) as (du & Hdu & _). rewrite Hst in Hdu.
    rewrite lookup_insert_ne, lookup_singleton_ne in Hdu by done. done.
  - congruence.
Qed.

(** ** The loop runs a healthy task to its end *)

Definition pending_steps (g : TaskGraph.t) : gmap string Step.t :=
  filter (λ kv, Step.Status kv.2 = StepPending) (TaskGraph.Steps g).
Definition all_pending_or_done (g : TaskGraph.t) : Prop :=
  ∀ id s, TaskGraph.Steps g !! id = Some s → Step.Status s = StepPending ∨ dep_done (Step.Status s) = true.

(** A deprecated step that no step waits for. *)
Definition abandoned (g : TaskGraph.t) (id : string) (s : Step.t) : Prop :=
  Step.Status s = StepDeprecated ∧ ∀ j t, TaskGraph.Steps g !! j = Some t → id ∉ Step.DependsOn t.

(** What the loop needs to know about a graph, and keeps. *)
Record runnable (rank : string → nat) (g : TaskGraph.t) : Prop := mk_runnable {
  r_wf : wf_graph g;
  r_rank : ranked (TaskGraph.Steps g) rank;
  r_status : TaskGraph.Status g = GraphRunning;
  r_pending : TaskGraph.PendingDecisions g = [];
  r_steps : ∀ id s, TaskGraph.Steps g !! id = Some s →
    Step.Status s = StepPending ∨ dep_done (Step.Status s) = true ∨ abandoned g id s
}.
(** Such a graph before any surgery. *)
Record healthy (rank : string → nat) (g : TaskGraph.t) : Prop := mk_healthy {
  h_wf : wf_graph g;
  h_rank : ranked (TaskGraph.Steps g) rank;
  h_status : TaskGraph.Status g = GraphRunning;
  h_pending : TaskGraph.PendingDecisions g = [];
  h_steps : all_pending_or_done g
}.

Lemma completes_dom id g g' : completes id g g' → ∀ j, is_Some (get_step g' j) ↔ is_Some (get_step g j).
Proof.
  intros ((st & st' & H1 & H2 & _) & Ho & _) j. destruct (decide (j = id)) as [->|Hne].
  - rewrite H1, H2. split; by eexists.
  - by rewrite Ho.
Qed.

Lemma healthy_runnable rank g : healthy rank g → runnable rank g.
Proof. intros [H1 H2 H3 H4 H5]. split; try done. intros id s Hs. destruct (H5 id s Hs); auto. Qed.

(** The same steps, none of them deprecated that was not before. *)
Definition no_new_dead (g g' : TaskGraph.t) : Prop :=
  (∀ id, is_Some (get_step g' id) ↔ is_Some (get_step g id)) ∧
  ∀ id s, get_step g' id = Some s → Step.Status s = StepDeprecated →
    ∃ s0, get_step g id = Some s0 ∧ Step.Status s0 = StepDeprecated.
#[export] Instance no_new_dead_preorder : PreOrder no_new_dead.
Proof.
  split; [intros g; split; [done|eauto]|]. intros a b c [Da Hab] [Db Hbc]. split; [intros id; by rewrite Db, Da|].
  intros id s Hs Hd. destruct (Hbc id s Hs Hd) as (s1 & H1 & D1). by apply (Hab id s1).
Qed.

Lemma completes_runnable rank id g g' : runnable rank g → completes id g g' → runnable rank g' ∧ no_new_dead g g'.
Proof.
  intros [Hwf Hr Hst Hp Hs] Hc. pose proof (completes_dom _ _ _ Hc) as Hdom.
  destruct Hc as ((st & st' & H1 & H2 & H3 & _ & H4 & H5) & Ho & Hp' & Hs').
  assert (∀ j t, get_step g' j = Some t → ∃ t0, get_step g j = Some t0 ∧ Step.DependsOn t = Step.DependsOn t0 ∧
    Step.ID t = Step.ID t0 ∧ (Step.Status t = StepOK ∨ t = t0)) as Hold.
  { intros j t Hj. destruct (decide (j = id)) as [->|Hne].
    - rewrite H2 in Hj. injection Hj as <-. eauto 10.
    - rewrite Ho in Hj by done. eauto 10. }
  split; [constructor|].
  - intros j s Hj. destruct (Hold j s Hj) as (t0 & Ht0 & _ & -> & _). by apply Hwf.
  - intros j s d Hj Hd Hdd. change (is_Some (get_step g' d)) in Hdd. rewrite Hdom in Hdd.
    destruct (Hold j s Hj) as (t0 & Ht0 & E & _). rewrite E in Hd. by eapply Hr.
  - congruence.
  - congruence.
  - intros j s Hj. destruct (Hold j s Hj) as (t0 & Ht0 & _ & _ & [Hok| ->]); [right; left; by rewrite Hok|].
    destruct (Hs j t0 Ht0) as [H|[H|[H Hab]]]; [by left|by right; left|]. right. right. split; [done|].
    intros k t Hk. destruct (Hold k t Hk) as (t1 & Ht1 & -> & _). by apply (Hab k).
  - split; [exact Hdom|]. intros j s Hj Hd. destruct (Hold j s Hj) as (t0 & Ht0 & _ & _ & [Hok| ->]); [congruence|eauto].
Qed.

Lemma completes_pending_sub id g g' :
  completes id g g' → pending_steps g' ⊆ pending_steps g ∧ pending_steps g' !! id = None.
Proof.
  intros ((st & st' & H1 & H2 & H3 & _) & Ho & _). split.
  - apply map_subseteq_spec. intros j s [Hj Hp]%map_lookup_filter_Some. apply map_lookup_filter_Some.
    destruct (decide (j = id)) as [->|Hne].
    + change (get_step g' id = Some s) in Hj. rewrite H2 in Hj. injection Hj as <-. cbn in Hp. congruence.
    + change (get_step g' j = Some s) in Hj. rewrite Ho in Hj by done. done.
  - apply map_lookup_filter_None. right. intros s Hs. change (get_step g' id = Some s) in Hs.
    rewrite H2 in Hs. injection Hs as <-. cbn. congruence.
Qed.

(** What the loop asks of the component that executes a step: on the states it
    is good for, executing a step completes it and leaves such a state. *)
Class StepExecutor (good : TaskGraph.t → Prop) (exec : GateState → string → GateState) : Prop := {
  executor_completes s id st :
    good (gs_graph s) → wf_graph (gs_graph s) → get_step (gs_graph s) id = Some st →
    completes id (gs_graph s) (gs_graph (exec s id));
  executor_good s id st :
    good (gs_graph s) → wf_graph (gs_graph s) → get_step (gs_graph s) id = Some st →
    good (gs_graph (exec s id))
}.

Section Completion.
Context (order : TaskGraph.t → list string) (sched : list Step.t → list Step.t)
        (exec : GateState → string → GateState) (rank : string → nat).
Context (Horder : ∀ g, range_order (TaskGraph.Steps g) (order g))
        (Hsched : ∀ l, sched l ≡ₚ l).
Context (good : TaskGraph.t → Prop) `{!StepExecutor good exec}.

Lemma exec_all ids s :
  runnable rank (gs_graph s) → good (gs_graph s) → (∀ id, id ∈ ids → is_Some (get_step (gs_graph s) id)) →
  let s' := foldl exec s ids in
  runnable rank (gs_graph s') ∧ good (gs_graph s') ∧ pending_steps (gs_graph s') ⊆ pending_steps (gs_graph s) ∧
  (∀ id, id ∈ ids → pending_steps (gs_graph s') !! id = None) ∧ no_new_dead (gs_graph s) (gs_graph s').
Proof.
  revert s. induction ids as [|id ids IH]; intros s Hh Hg Hex; cbn [foldl].
  - split_and!; try done. by intros id Hid%elem_of_nil.
  - destruct (Hex id ltac:(left)) as [st Hst]. pose proof (executor_completes s id st Hg (r_wf _ _ Hh) Hst) as Hc.
    pose proof (completes_pending_sub _ _ _ Hc) as [Hsub Hnone]. destruct (completes_runnable _ _ _ _ Hh Hc) as [Hh' Hd].
    destruct (IH (exec s id)) as (Ha & Hg' & Hb & Hn & Hd').
    + done.
    + by eapply executor_good; [|apply (r_wf _ _ Hh)|].
    + intros j Hj. rewrite (completes_dom _ _ _ Hc). apply Hex. by right.
    + split; [done|]. split; [done|]. split; [by etrans|]. split; [|by etrans]. intros j [->|Hj]%elem_of_cons; [|by apply Hn].
      destruct (pending_steps (gs_graph (foldl exec (exec s id) ids)) !! id) as [x|] eqn:E; [|done].
      eapply lookup_weaken in E; [|exact Hb]. congruence.
Qed.

Lemma run_loop_runnable n s :
  runnable rank (gs_graph s) → good (gs_graph s) → size (pending_steps (gs_graph s)) < n →
  ∃ s', run_loop order sched exec n s = Some (s', RunFinalize) ∧
    runnable rank (gs_graph s') ∧ pending_steps (gs_graph s') = ∅ ∧ no_new_dead (gs_graph s) (gs_graph s').
Proof.
  revert s. induction n as [|n IH]; intros s Hh Hg Hn; [lia|].
  set (g := gs_graph s) in *. cbn [run_loop]. fold g. unfold run_iteration.
  rewrite decide_False by (rewrite (r_status _ _ Hh); done).
  destruct (ReadySteps g (order g)) as [|x l] eqn:Er.
  - assert (pending_steps g = ∅) as Hemp.
    { apply map_eq. intros id. rewrite lookup_empty. apply map_lookup_filter_None. right. intros st Hst Hp.
      destruct (ranked_progress _ rank (r_rank _ _ Hh)) as (j & sj & Hj & Hrj); [|by eauto|].
      { intros i t Ht. destruct (r_steps _ _ Hh i t Ht) as [?|[?|[_ ?]]]; auto. }
      rewrite ReadySteps_nil in Er by apply Horder. by rewrite (Er j sj Hj) in Hrj. }
    assert (IsTerminal g = true) as ->.
    { apply IsTerminal_true. intros id st Hst.
      destruct (r_steps _ _ Hh id st Hst) as [Hp|[Hd|[Hd _]]]; [exfalso|by apply dep_done_terminal|unfold step_IsTerminal; by rewrite Hd].
      assert (pending_steps g !! id = Some st) as Hx by by apply map_lookup_filter_Some.
      rewrite Hemp in Hx. done. }
    rewrite bool_decide_true by apply (r_pending _ _ Hh). cbn [andb]. exists s. by split_and!.
  - rewrite decide_True by apply (r_status _ _ Hh).
    set (ids := Step.ID <$> sched (x :: l)).
    assert (Hids : ∀ id, id ∈ ids → ∃ st, get_step g id = Some st ∧ Step.Status st = StepPending).
    { intros id (st & -> & Hin)%list_elem_of_fmap. rewrite Hsched, <- Er in Hin.
      apply elem_of_ReadySteps in Hin as [[j Hj] Hr]; [|apply Horder].
      rewrite (r_wf _ _ Hh j st Hj). apply step_ready_true in Hr as [? _]. by exists st. }
    destruct (exec_all ids (emit (OPersist g) s)) as (Ha & Hg2 & Hb & Hn2 & Hd2); [done|done| |].
    { intros id Hid. destruct (Hids id Hid) as (st & Hst & _). by exists st. }
    destruct (IH (foldl exec (emit (OPersist g) s) ids)) as (s' & H1 & H2 & H3 & H4); [exact Ha|exact Hg2| |].
    2: { exists s'. split; [exact H1|]. split; [exact H2|]. split; [exact H3|]. etrans; [exact Hd2|exact H4]. }
    assert (Step.ID x ∈ ids) as Hx.
    { apply list_elem_of_fmap. exists x. split; [done|]. rewrite Hsched. left. }
    destruct (Hids _ Hx) as (st & Hst & Hp).
    assert (size (pending_steps (gs_graph (foldl exec (emit (OPersist g) s) ids))) < size (pending_steps g)); [|lia].
    apply map_subset_size. apply map_subset_alt. split; [exact Hb|].
    exists (Step.ID x). split; [by apply Hn2|]. exists st. by apply map_lookup_filter_Some.
Qed.
End Completion.

(** The loop of a runnable task reaches finalisation with every step done, but
    for the steps that were deprecated before. *)
Lemma run_loop_finishes order sched exec good rank Pow now holds s `{!StepExecutor good exec} :
  (∀ g, range_order (TaskGraph.Steps g) (order g)) → (∀ l, sched l ≡ₚ l) →
  runnable rank (gs_graph s) → good (gs_graph s) →
  ∃ s', run_loop order sched exec (S (size (pending_steps (gs_graph s)))) s = Some (s', RunFinalize) ∧
    (∀ id, is_Some (get_step (gs_graph s') id) ↔ is_Some (get_step (gs_graph s) id)) ∧
    (∀ id st, get_step (gs_graph s') id = Some st → dep_done (Step.Status st) = true ∨
       Step.Status st = StepDeprecated ∧ ∃ st0, get_step (gs_graph s) id = Some st0 ∧ Step.Status st0 = StepDeprecated) ∧
    TaskGraph.Status (gs_graph (finalize Pow (order (gs_graph s')) now holds s')) ∈
      [GraphCompleted; GraphCompletedWithSkips].
Proof.
  intros Ho Hsc Hh Hg. destruct (run_loop_runnable order sched exec rank Ho Hsc good _ s Hh Hg (Nat.lt_succ_diag_r _))
    as (s' & Hrun & Hh' & Hemp & Hdead).
  exists s'. split; [done|].
  assert (Hdone : ∀ id st, get_step (gs_graph s') id = Some st → dep_done (Step.Status st) = true ∨ Step.Status st = StepDeprecated).
  { intros id st Hst. destruct (r_steps _ _ Hh' id st Hst) as [Hp|[Hd|[Hd _]]]; [exfalso|by left|by right].
    assert (pending_steps (gs_graph s') !! id = Some st) as Hx by by apply map_lookup_filter_Some.
    by rewrite Hemp in Hx. }
  destruct Hdead as [Hdom Hdead]. split; [exact Hdom|].
  split. { intros id st Hst. destruct (Hdone id st Hst) as [?|Hd]; [by left|right]. split; [done|]. by eapply Hdead. }
  unfold finalize. rewrite (r_status _ _ Hh'). cbn [finalized].
  assert (final_status (gs_graph s') ∈ [GraphCompleted; GraphCompletedWithSkips]) as Hf.
  { unfold final_status. cbv zeta. rewrite (r_pending _ _ Hh'), decide_False by (intros Hx; by apply Hx).
    assert (forallb (λ st, negb (bool_decide (st = StepFailed ∨ st = StepBlocked))) (step_states (gs_graph s')) = true) as ->.
    { apply forallb_forall. intros st Hin. apply list_elem_of_In in Hin. unfold step_states in Hin.
      apply list_elem_of_fmap in Hin as ([id s0] & -> & Hin). apply elem_of_map_to_list in Hin.
      specialize (Hdone id s0 Hin). cbn. rewrite negb_true_iff, bool_decide_eq_false.
      intros [E|E]; rewrite E in Hdone; by destruct Hdone. }
    cbn [negb]. destruct (_ && _); [right; left|left]. }
  cbv zeta. destruct holds; exact Hf.
Qed.

(** The loop of a healthy task reaches finalisation. *)
Lemma run_loop_done order sched exec good rank Pow now holds s `{!StepExecutor good exec} :
  (∀ g, range_order (TaskGraph.Steps g) (order g)) → (∀ l, sched l ≡ₚ l) →
  healthy rank (gs_graph s) → good (gs_graph s) →
  ∃ s', run_loop order sched exec (S (size (pending_steps (gs_graph s)))) s = Some (s', RunFinalize) ∧
    (∀ id st, get_step (gs_graph s') id = Some st → dep_done (Step.Status st) = true) ∧
    TaskGraph.Status (gs_graph (finalize Pow (order (gs_graph s')) now holds s')) ∈
      [GraphCompleted; GraphCompletedWithSkips].
Proof.
  intros Ho Hsc Hh Hg.
  destruct (run_loop_finishes order sched exec good rank Pow now holds s Ho Hsc (healthy_runnable _ _ Hh) Hg) as (s' & H1 & _ & H2 & H3).
  exists s'. split; [done|]. split; [|done]. intros id st Hst. destruct (H2 id st Hst) as [?|(_ & st0 & Hs0 & Hd)]; [done|].
  destruct (h_steps _ _ Hh id st0 Hs0) as [E|E]; rewrite Hd in E; done.
Qed.

(** A healthy task runs to its end.  On a running, acyclic graph whose
    steps are pending or done, if the executor completes the steps of a good
    task, the loop reaches finalisation within as many passes as there are
    pending steps plus one, whatever the iteration and interleaving orders;
    then every step is done and finalising marks the task completed. *)
Theorem run_loop_completes order sched exec good rank Pow now holds s `{!StepExecutor good exec} :
  (∀ g, range_order (TaskGraph.Steps g) (order g)) → (∀ l, sched l ≡ₚ l) →
  healthy rank (gs_graph s) → good (gs_graph s) →
  ∃ s', run_loop order sched exec (S (size (pending_steps (gs_graph s)))) s = Some (s', RunFinalize) ∧
    (∀ id st, get_step (gs_graph s') id = Some st → dep_done (Step.Status st) = true) ∧
    TaskGraph.Status (gs_graph (finalize Pow (order (gs_graph s')) now holds s')) ∈
      [GraphCompleted; GraphCompletedWithSkips].
Proof. by apply (run_loop_done order sched exec good). Qed.

(** ** Finalisation, delivery, task control *)

(** Finalising.  A task already completed or failed is left alone, so
    finalising twice is finalising once; otherwise, when no decision is parked,
    the status is failed exactly when a step failed or is blocked, completed
    with skips exactly when all (and at least one) were skipped, and the steps
    are untouched.  A cancelled or suspended task is not protected: its status
    is overwritten. *)
Theorem finalize_spec Pow ord ord' now now' holds holds' s :
  TaskGraph.PendingDecisions (gs_graph s) = [] →
  let s' := finalize Pow ord now holds s in
  let sts := step_states (gs_graph s) in
  TaskGraph.Steps (gs_graph s') = TaskGraph.Steps (gs_graph s) ∧
  finalize Pow ord' now' holds' s' = s' ∧
  (finalized (TaskGraph.Status (gs_graph s)) = true → s' = s) ∧
  (finalized (TaskGraph.Status (gs_graph s)) = false →
   (TaskGraph.Status (gs_graph s') = GraphFailed ↔ StepFailed ∈ sts ∨ StepBlocked ∈ sts) ∧
   (TaskGraph.Status (gs_graph s') = GraphCompletedWithSkips ↔ sts ≠ [] ∧ Forall (λ st, st = StepSkipped) sts) ∧
   finalized (TaskGraph.Status (gs_graph s')) = true).
Proof.
  intros Hp s' sts. unfold s', finalize.
  destruct (finalized (TaskGraph.Status (gs_graph s))) eqn:Ef.
  { split_and!; try done. by rewrite Ef. }
  cbv zeta.
  set (g' := (gs_graph s) <| TaskGraph.OverallConfidence := _ |> <| TaskGraph.CompletedAt := _ |> <| TaskGraph.Status := _ |>).
  match goal with |- TaskGraph.Steps (gs_graph ?f) = _ ∧ _ => set (s1 := f) end.
  assert (gs_graph s1 = g') as Hg by (unfold s1; by destruct holds).
  assert (TaskGraph.Status (gs_graph s1) = final_status (gs_graph s)) as Hstat by (rewrite Hg; reflexivity).
  assert (finalized (final_status (gs_graph s)) = true) as Hfin.
  { unfold final_status. cbv zeta. rewrite Hp, decide_False by (intros Hx; by apply Hx).
    destruct (negb _); [done|]. by destruct (_ && _). }
  split; [rewrite Hg; reflexivity|]. rewrite Hstat, Hfin. split; [done|]. split; [done|].
  intros _. unfold final_status. cbv zeta. rewrite Hp, decide_False by (intros Hx; by apply Hx). fold sts.
  destruct (forallb (λ st, negb (bool_decide (st = StepFailed ∨ st = StepBlocked))) sts) eqn:Eo; cbn [negb].
  - rewrite forallb_forall in Eo.
    assert (∀ st, st ∈ sts → st ≠ StepFailed ∧ st ≠ StepBlocked) as Hno.
    { intros st Hin%list_elem_of_In%Eo. rewrite negb_true_iff, bool_decide_eq_false in Hin. tauto. }
    destruct (forallb (λ st, bool_decide (st = StepSkipped)) sts && bool_decide (sts ≠ [])) eqn:Es.
    + apply andb_true_iff in Es as [Es1 Es2]. rewrite bool_decide_eq_true in Es2. rewrite forallb_forall in Es1.
      split; [split; [done|]|]; [intros [Hx|Hx]; by destruct (Hno _ Hx)|]. split; [|done]. split; [|done]. intros _. split; [done|].
      apply Forall_forall. intros st Hin. apply list_elem_of_In, Es1 in Hin. by apply bool_decide_eq_true in Hin.
    + split; [split; [done|]|]; [intros [Hx|Hx]; by destruct (Hno _ Hx)|]. split; [|done]. split; [done|].
      intros [Hne Hall]. exfalso. apply not_true_iff_false in Es. apply Es, andb_true_iff.
      split; [|by apply bool_decide_eq_true]. apply forallb_forall. intros st Hin%list_elem_of_In.
      rewrite Forall_forall in Hall. by apply bool_decide_eq_true, Hall.
  - split; [|split; [split; [done|]|done]].
    + split; [|done]. intros _. apply not_true_iff_false in Eo.
      destruct (decide (StepFailed ∈ sts ∨ StepBlocked ∈ sts)) as [|Hn]; [done|exfalso]. apply Eo, forallb_forall.
      intros st Hin%list_elem_of_In. rewrite negb_true_iff, bool_decide_eq_false.
      intros [-> | ->]; apply Hn; [by left|by right].
    + intros [Hne Hall]. exfalso. apply not_true_iff_false in Eo. apply Eo, forallb_forall.
      intros st Hin%list_elem_of_In. rewrite Forall_forall in Hall. rewrite (Hall st Hin). done.
Qed.

(** Suspending and resuming.  A running task that is suspended and resumed
    is running again with its executor restarted; the steps that were in
    flight are queued again and every other step is as it was; in between, the
    task cannot be suspended again and no step can be claimed. *)
Theorem suspend_resume_roundtrip taskID e g :
  graphs e !! taskID = Some g → TaskGraph.TaskID g = taskID → taskID ∈ cancelFuncs e →
  TaskGraph.Status g = GraphRunning →
  let e1 := (SuspendTask taskID e).1 in
  let e2 := (ResumeSuspendedTask taskID e1).1 in
  (SuspendTask taskID e).2 = None ∧ (ResumeSuspendedTask taskID e1).2 = None ∧
  (SuspendTask taskID e1).2 ≠ None ∧ (∀ claim stepID, ClaimStep claim taskID stepID e1 = (e1, false)) ∧
  graphs e2 !! taskID = Some (g <| TaskGraph.Steps ::= fmap reset_zombie |>) ∧
  (∀ t, t ≠ taskID → graphs e2 !! t = graphs e !! t) ∧
  OStartExecutor taskID ∈ eng_out e2.
Proof.
  intros Hg Hid Hc Hr. unfold SuspendTask. rewrite Hg, (decide_True (P := taskID ∈ cancelFuncs e)) by done.
  rewrite (decide_True (P := TaskGraph.Status g = GraphRunning)) by done. cbn [fst snd].
  set (g1 := g <| TaskGraph.Status := GraphSuspended |>).
  set (e1 := emits [OCancel taskID; OPersist g1] (store_graph taskID g1 e)).
  assert (graphs e1 !! taskID = Some g1) as H1 by apply lookup_insert_eq.
  assert (taskID ∈ cancelFuncs e1) as Hc1 by exact Hc.
  unfold ResumeSuspendedTask. rewrite H1, (decide_True (P := TaskGraph.Status g1 = GraphSuspended)) by done.
  cbn [fst snd]. split; [done|]. split; [done|]. split; [|split; [|split; [|split]]].
  - rewrite (decide_True (P := taskID ∈ cancelFuncs e1)) by done.
    rewrite (decide_False (P := TaskGraph.Status g1 = GraphRunning)) by done. done.
  - intros claim stepID. unfold ClaimStep. rewrite H1. destruct (get_step g1 stepID); done.
  - transitivity (Some (g1 <| TaskGraph.Steps ::= fmap reset_zombie |> <| TaskGraph.Status := GraphRunning |>)).
    + apply lookup_insert_eq.
    + f_equal. clear -Hr. unfold g1. destruct g. cbn in Hr. subst. reflexivity.
  - intros t Ht. transitivity (graphs e1 !! t); [by apply lookup_insert_ne|by apply lookup_insert_ne].
  - rewrite <- Hid at 1. apply elem_of_app. right. left.
Qed.

Lemma set_status_twice g stepID step :
  get_step g stepID = Some step → Step.Status step = StepPending →
  g = set_status StepPending (set_status StepRunning g stepID) stepID.
Proof.
  intros Hs Hp. rewrite <- (graph_eta g) at 1.
  change (set_status StepPending (set_status StepRunning g stepID) stepID) with
    (g <| TaskGraph.Steps := alter (λ x, x <| Step.Status := StepPending |>) stepID
          (alter (λ x, x <| Step.Status := StepRunning |>) stepID (TaskGraph.Steps g)) |>).
  apply graph_steps_eq, map_eq. intros j. unfold get_step in Hs.
  destruct (decide (stepID = j)) as [<-|Hne]; [|by rewrite !lookup_alter_ne].
  rewrite !lookup_alter_eq, Hs. cbn [fmap option_fmap option_map]. f_equal.
  destruct step. cbn in Hp. subst. reflexivity.
Qed.

(** A claimed step is claimed once.  After a successful claim the step is
    running, no other step or task changes, and no second claim succeeds
    whatever the distributed lock says; releasing the step restores the engine. *)
Theorem claim_exclusive claim taskID stepID e e' :
  ClaimStep claim taskID stepID e = (e', true) →
  (∃ g, graphs e !! taskID = Some g ∧ Step.Status <$> get_step g stepID = Some StepPending ∧
        graphs e' = <[taskID := set_status StepRunning g stepID]> (graphs e)) ∧
  (∀ claim', ClaimStep claim' taskID stepID e' = (e', false)) ∧
  (∀ ord, range_order (graphs e') ord →
     (∀ t g, t ≠ taskID → graphs e !! t = Some g → get_step g stepID = None) →
     ReleaseTask ord stepID e' = e).
Proof.
  unfold ClaimStep. destruct (graphs e !! taskID) as [g|] eqn:Hg; [|done].
  destruct (get_step g stepID) as [step|] eqn:Hs; [|done].
  destruct (bool_decide _ && bool_decide _ && _) eqn:Eb; [|done]. intros [= <-].
  rewrite !andb_true_iff, !bool_decide_eq_true in Eb. destruct Eb as [[Hr Hp] _].
  set (g' := set_status StepRunning g stepID).
  assert (get_step g' stepID = Some (step <| Step.Status := StepRunning |>)) as Hs'.
  { unfold g', set_status, get_step. rewrite upd_step_lookup, decide_True by done. unfold get_step in Hs. by rewrite Hs. }
  assert (graphs (store_graph taskID g' e) !! taskID = Some g') as Hg' by apply lookup_insert_eq.
  split; [|split].
  - exists g. split; [done|]. split; [|done]. rewrite Hs. cbn. by rewrite Hp.
  - intros claim'. rewrite Hg', Hs'. rewrite (bool_decide_false (_ = StepPending)) by done.
    by rewrite andb_false_r.
  - intros ord Ho Hoth. unfold ReleaseTask.
    destruct (List.find _ _) as [[key h]|] eqn:Ef.
    + apply find_some in Ef as [Hin Hb]. apply list_elem_of_In in Hin. apply range_order_lookup in Hin; [|done].
      rewrite andb_true_iff, !bool_decide_eq_true in Hb. destruct Hb as [_ Hb]. cbn in Hb.
      destruct (decide (key = taskID)) as [->|Hne].
      * rewrite Hg' in Hin. injection Hin as <-. unfold store_graph.
        destruct e as [gs dc cf out]. cbn in Hg.
        change (mkEngine (<[taskID := set_status StepPending g' stepID]> (<[taskID := g']> gs)) dc cf out = mkEngine gs dc cf out).
        f_equal. rewrite insert_insert_eq. apply insert_id. rewrite Hg. f_equal.
        by apply set_status_twice with step.
      * exfalso. change (<[taskID := g']> (graphs e) !! key = Some h) in Hin.
        rewrite lookup_insert_ne in Hin by done. by rewrite (Hoth key h Hne Hin) in Hb.
    + exfalso. pose proof (find_none _ _ Ef (taskID, g')) as Hn.
      assert (In (taskID, g') (range (graphs (store_graph taskID g' e)) ord)) as Hin
        by by apply list_elem_of_In, range_order_lookup.
      apply Hn in Hin. cbn in Hin. rewrite Hs' in Hin.
      rewrite !bool_decide_true in Hin by (done || exact Hr). done.
Qed.

(** After the cycle breaker's fuse, the answer "refine_and_retry" it offers
    cannot restart the loop.  The step is queued, but its dependencies stay
    suspended (no operation of the engine wakes a suspended step), so the step
    is not ready, and it is not reported as stuck either. *)
Theorem fuse_then_refine_stuck cfg env ord now hc taskID payload dec cid step d dep g :
  get_step g (Step.ID step) = Some step → d ∈ Step.DependsOn step → d ≠ Step.ID step →
  get_step g d = Some dep →
  let g1 := fuse_graph cid step g in
  let g2 := (applyDecisionChoiceLocked cfg env ord now hc taskID (Step.ID step) "refine_and_retry" payload dec g1).1.1 in
  Step.Status <$> get_step g2 d = Some StepSuspended ∧
  ∃ st, get_step g2 (Step.ID step) = Some st ∧ Step.Status st = StepPending ∧
    step_ready (TaskGraph.Steps g2) st = false ∧ step_insufficient (TaskGraph.Steps g2) st = None.
Proof.
  intros Hs Hd Hne Hdep g1 g2.
  assert (g2 = upd_step (Step.ID step) (refine_choice dec) g1) as -> by reflexivity.
  assert (get_step g1 d = Some (suspend_step dep)) as H1.
  { unfold g1. rewrite fuse_graph_lookup, decide_False, decide_True by done. by rewrite Hdep. }
  assert (get_step (upd_step (Step.ID step) (refine_choice dec) g1) d = Some (suspend_step dep)) as H2.
  { unfold get_step. rewrite upd_step_lookup, decide_False by congruence. exact H1. }
  split; [by rewrite H2|].
  eexists. split; [|split; [|split]].
  - unfold get_step. rewrite upd_step_lookup, decide_True by done. fold (get_step g1 (Step.ID step)).
    unfold g1. rewrite fuse_graph_lookup, decide_True, Hs by done. reflexivity.
  - unfold refine_choice. by destruct (as_string _).
  - unfold step_ready. apply andb_false_iff. right. apply not_true_iff_false. rewrite deps_done_true.
    intros Hall. assert (dep_done (Step.Status (suspend_step dep)) = true) as Hx; [|done].
    apply (Hall d); [|exact H2]. unfold refine_choice. destruct (as_string _); exact Hd.
  - match goal with |- ?x = None => destruct x as [info|] eqn:E end; [exfalso|done].
    apply step_insufficient_Some in E as (_ & _ & Hall & _).
    destruct (Hall d) as (dep' & Hdep' & Ht).
    + unfold refine_choice. destruct (as_string _); exact Hd.
    + unfold get_step in H2. rewrite H2 in Hdep'. injection Hdep' as <-. done.
Qed.

Lemma deliver_one_idem files a : deliver_one files (deliver_one files a) = deliver_one files a.
Proof.
  unfold deliver_one at 2 3. case_decide as H1; [unfold deliver_one; by rewrite decide_True|]. cbv zeta.
  case_decide as H2; [unfold deliver_one; rewrite decide_False by done; cbv zeta; by rewrite decide_True|].
  destruct (known_channel _) eqn:E; [unfold deliver_one; by rewrite decide_True|].
  unfold deliver_one. rewrite decide_False by done. cbv zeta. by rewrite decide_False, E by done.
Qed.

Lemma deliver_one_spec files a :
  (Artifact.Status (deliver_one files a) = "published" ↔
     Artifact.Status a = "published" ∨ known_channel (delivery_hint files (Artifact.Path a)) = true) ∧
  (Artifact.Status a = "published" → deliver_one files a = a) ∧
  Artifact.Path (deliver_one files a) = Artifact.Path a.
Proof.
  unfold deliver_one. destruct (decide (Artifact.Status a = "published")) as [H1|H1]; [tauto|]. cbv zeta.
  destruct (decide (delivery_hint files (Artifact.Path a) = "")) as [H2|H2].
  - rewrite H2. split; [|done]. split; [tauto|]. intros [?|Hx]; [done|]. by vm_compute in Hx.
  - destruct (known_channel _) eqn:E; (split; [|done]); cbn; split; try tauto; intros [?|?]; done.
Qed.

(** Delivery.  An artifact is published exactly when it already was or its
    output file names a known channel; an artifact already published is not
    touched, and delivering again changes nothing. *)
Theorem deliverArtifacts_spec s :
  let g := gs_graph s in
  let g' := gs_graph (deliverArtifacts s) in
  TaskGraph.Artifacts (gs_graph (deliverArtifacts (deliverArtifacts s))) = TaskGraph.Artifacts g' ∧
  TaskGraph.Steps g' = TaskGraph.Steps g ∧
  Forall2 (λ a a', (Artifact.Status a' = "published" ↔
       Artifact.Status a = "published" ∨ known_channel (delivery_hint (TaskGraph.OutputFiles g) (Artifact.Path a)) = true) ∧
     (Artifact.Status a = "published" → a' = a) ∧ Artifact.Path a' = Artifact.Path a)
    (TaskGraph.Artifacts g) (TaskGraph.Artifacts g').
Proof.
  intros g g'. split; [|split; [done|]].
  - unfold g', deliverArtifacts. cbv zeta. 
    change (deliver_one (TaskGraph.OutputFiles g) <$> (deliver_one (TaskGraph.OutputFiles g) <$> TaskGraph.Artifacts g)
      = deliver_one (TaskGraph.OutputFiles g) <$> TaskGraph.Artifacts g).
    rewrite <- list_fmap_compose. apply list_fmap_ext. intros i a _. apply deliver_one_idem.
  - change (TaskGraph.Artifacts g') with (deliver_one (TaskGraph.OutputFiles g) <$> TaskGraph.Artifacts g).
    apply Forall2_fmap_r, Forall_Forall2_diag, Forall_true. intros a. apply deliver_one_spec.
Qed.

(** ** Witnesses *)

Definition sch_graph : TaskGraph.t :=
  blankGraph "t" [blankStep "a" StepPending []; blankStep "b" StepPending ["a"]; blankStep "c" StepSkipped []].
Definition sch_rank (id : string) : nat := if decide (id = "b") then 1 else 0.
Definition step_keys (g : TaskGraph.t) : list string := keys (TaskGraph.Steps g).

Lemma run_never_idles_witness :
  ∃ ready, run_iteration sch_graph (step_keys sch_graph) = RunExecute ready ∧ ready ≠ [].
Proof.
  destruct (run_never_idles sch_graph (step_keys sch_graph) sch_rank) as [(ready & H1 & H2 & _)|[H|[H|[info H]]]].
  - apply keys_range_order.
  - reflexivity.
  - apply rankedb_true. vm_compute. reflexivity.
  - intros id s d Hs Hd.
    eapply (all_steps_true (λ _ s, forallb (λ d, bool_decide (is_Some (TaskGraph.Steps sch_graph !! d))) (Step.DependsOn s))) in Hs;
      [|vm_compute; reflexivity].
    rewrite forallb_forall in Hs. apply list_elem_of_In, Hs in Hd. by apply bool_decide_eq_true in Hd.
  - intros id s Hs.
    eapply (all_steps_true (λ _ s, bool_decide (Step.Status s ≠ StepRunning ∧ Step.Status s ≠ StepSuspended))) in Hs;
      [|vm_compute; reflexivity]. by apply bool_decide_eq_true in Hs.
  - exists ready. split; [exact H1|exact H2].
  - exfalso. revert H. vm_compute. discriminate.
  - exfalso. revert H. vm_compute. discriminate.
  - exfalso. revert H. vm_compute. discriminate.
Defined.

Definition stuck_graph : TaskGraph.t := blankGraph "t" [blankStep "b" StepPending ["a"]; blankStep "a" StepFailed []].
Lemma detect_sound_witness :
  ∃ info, detectUpstreamInsufficient stuck_graph ["a"; "b"] = Some info ∧ Step.Status (ui_Step info) = StepPending.
Proof.
  eexists. split; [vm_compute; reflexivity|].
  apply (detect_sound stuck_graph ["a"; "b"]). vm_compute. reflexivity.
Defined.

Definition stall_graph : TaskGraph.t :=
  (blankGraph "t" []) <| TaskGraph.Steps :=
    <["b" := blankStep "b" StepPending ["a"; "ghost"]]> {["a" := blankStep "a" StepFailed []]} |>.
Lemma unknown_dependency_stalls_witness : run_iteration stall_graph (step_keys stall_graph) = RunWait.
Proof.
  apply (unknown_dependency_stalls stall_graph (step_keys stall_graph) "b" (blankStep "b" StepPending ["a"; "ghost"])
    "a" (blankStep "a" StepFailed []) "ghost"); try reflexivity; try discriminate.
  - apply keys_range_order.
  - left.
  - right; left.
Defined.

Definition ok_exec (s : GateState) (id : string) : GateState :=
  handleOutput ex_out_env (step_keys (gs_graph s)) [] "d" id (Some (ex_output StatusOK [])) s.
#[export] Instance ok_executor : StepExecutor (λ _, True) ok_exec.
Proof.
  split; [|done]. intros s i st _ _ Hst.
  apply (handleOutput_ok ex_out_env _ _ _ _ _ _ st); [exact Hst|reflexivity|vm_compute; reflexivity].
Qed.
Lemma run_loop_completes_witness :
  ∃ s', run_loop step_keys id ok_exec 3 (mkGate sch_graph ∅ []) = Some (s', RunFinalize) ∧
    TaskGraph.Status (gs_graph (finalize (λ x _, x) (step_keys (gs_graph s')) 9 true s')) ∈
      [GraphCompleted; GraphCompletedWithSkips].
Proof.
  destruct (run_loop_completes step_keys id ok_exec (λ _, True) sch_rank (λ x _, x) 9 true (mkGate sch_graph ∅ []))
    as (s' & H1 & _ & H2).
  - intros g. apply keys_range_order.
  - intros l. reflexivity.
  - constructor.
    + apply wf_graphb_true. vm_compute. reflexivity.
    + apply rankedb_true. vm_compute. reflexivity.
    + reflexivity.
    + reflexivity.
    + intros i s Hs.
      eapply (all_steps_true (λ _ s, bool_decide (Step.Status s = StepPending) || dep_done (Step.Status s))) in Hs;
        [|vm_compute; reflexivity].
      apply orb_true_iff in Hs. by rewrite bool_decide_eq_true in Hs.
  - exact I.
  - exists s'. split; [exact H1|exact H2].
Defined.

Lemma finalize_spec_witness :
  let s := mkGate stuck_graph ∅ [] in
  finalize (λ x _, x) [] 9 true (finalize (λ x _, x) ["a"; "b"] 5 true s) = finalize (λ x _, x) ["a"; "b"] 5 true s.
Proof.
  cbv zeta. apply (finalize_spec (λ x _, x) ["a"; "b"] [] 5 9 true true (mkGate stuck_graph ∅ [])). reflexivity.
Defined.

Definition ctl_engine : Engine :=
  mkEngine {["t" := blankGraph "t" [blankStep "a" StepRunning []; blankStep "b" StepPending ["a"]]]} ∅ {["t"]} [].
Lemma suspend_resume_roundtrip_witness :
  (SuspendTask "t" ctl_engine).2 = None ∧
  (ResumeSuspendedTask "t" (SuspendTask "t" ctl_engine).1).2 = None.
Proof.
  destruct (suspend_resume_roundtrip "t" ctl_engine
    (blankGraph "t" [blankStep "a" StepRunning []; blankStep "b" StepPending ["a"]])) as (H1 & H2 & _).
  - reflexivity.
  - reflexivity.
  - vm_compute. reflexivity.
  - reflexivity.
  - split; [exact H1|exact H2].
Defined.

Lemma claim_exclusive_witness :
  (ClaimStep (λ _ _, true) "t" "b" ctl_engine).2 = true ∧
  (ClaimStep (λ _ _, true) "t" "b" (ClaimStep (λ _ _, true) "t" "b" ctl_engine).1).2 = false.
Proof.
  split; [vm_compute; reflexivity|].
  destruct (claim_exclusive (λ _ _, true) "t" "b" ctl_engine (ClaimStep (λ _ _, true) "t" "b" ctl_engine).1)
    as (_ & H & _).
  - vm_compute. reflexivity.
  - rewrite H. reflexivity.
Defined.

Definition loop_step : Step.t := (blankStep "b" StepRunning ["a"]) <| Step.MaxLoopRounds := 1%Z |>.
Definition loop_answer : TaskGraph.t :=
  (applyDecisionChoiceLocked None ex_env [] 5 false "t" (Step.ID loop_step) "refine_and_retry" ""
    (blankDecision "d" "b" DecisionStepFailed ["abort"; "refine_and_retry"])
    (fuse_graph "a:b" loop_step loop_graph)).1.1.
Lemma fuse_then_refine_stuck_witness : Step.Status <$> get_step loop_answer "a" = Some StepSuspended.
Proof.
  refine (proj1 (fuse_then_refine_stuck None ex_env [] 5 false "t" ""
    (blankDecision "d" "b" DecisionStepFailed ["abort"; "refine_and_retry"])
    "a:b" loop_step "a" ((blankStep "a" StepOK []) <| Step.TargetFile := "a.md" |>) loop_graph _ _ _ _)).
  - vm_compute. reflexivity.
  - left.
  - discriminate.
  - vm_compute. reflexivity.
Defined.
