(* ===== verification/StepExec.v ===== *)
(** * Executing one step (core/scheduler_dag_exec.go, [executeStep])

    The budget check and the budget alert, the attempt loop with its error
    dispatch, the output guard, the exit criteria with their refinement rounds
    and the exhaustion path.  What the spawner answers to attempt [n], and
    whether the run was cancelled during it, is in [ExecEnv]; assembling the
    prompt, waiting, staging snapshots, read-dependency detection, the context
    tree, tool sessions and provider cooldowns touch no field used here and are
    left out. *)

From S2P Require Import Prelude TaskStatus Schema FailureClass DecisionGate CycleBreaker Surgery DecisionAnswer OutputHandlers Verify CostSentinel Scheduler.

(** The error of a spawn: its text, and the typed errors in its chain with
    their message. *)
Record SpawnError := mkSpawnError {
  se_text : string;
  se_rate_limit : bool;
  se_bad_request : option string
}.

(** When an attempt sees its context cancelled: not at all, before it waits
    for the next attempt, or while it waits. *)
Inductive Cancelled := NotCancelled | CancelledBeforeWait | CancelledInWait.

Record Attempt := mkAttempt {
  at_reply : SpawnError + SpawnResult.t;
  at_cancelled : Cancelled
}.

Record ExecEnv := mkExecEnv {
  ex_out : OutEnv;
  ex_verify : VerifyEnv;
  ex_attempt : nat → Attempt;
  ex_inspect : string → string → bool * string;
  ex_sanitize : string → string;
  ex_decID : nat → string;
  ex_replan : string;
  ex_order : TaskGraph.t → list string;
  ex_tools : list string;
  ex_now : Z
}.

Definition ErrMaxTurnsExhausted : string := "MAX_TURNS_EXHAUSTED".
Definition MarkerRefinementRequired : string := "[REFINEMENT REQUIRED]".
Definition DelegationKindDAGSurgery : string := "dag_surgery".

(** How an attempt leaves the loop. *)
Inductive Flow := FlowContinue | FlowBreak | FlowReturn.

(** ** Before the first attempt *)

Section Exec.
Context (env : ExecEnv) (stepID : string).

Definition cfg : option SystemConfig := Some (env_cfg (ex_out env)).
Definition ask (n : nat) (dtype : DecisionType) (ctx : gmap string any) (options : list string)
    : GateState → GateState :=
  addDecision cfg (ex_decID env n) (ex_now env) stepID dtype ctx options.
Definition persist (s : GateState) : GateState := emit (OPersist (gs_graph s)) s.
Definition set_graph_status (st : GraphStatus) (s : GateState) : GateState :=
  on_graph (λ g, g <| TaskGraph.Status := st |>) s.

(** The token budget check: the step is blocked and a decision is raised. *)
Definition budget_block (s : GateState) : option GateState :=
  match budget_margin (ex_out env) with
  | None => None
  | Some margin =>
      match CheckBudget margin (gs_graph s) with
      | None => None
      | Some err =>
          let s := on_graph (λ g, g <| TaskGraph.BudgetPaused := true |>) s in
          let s := set_step_status stepID StepBlocked s in
          Some (ask 0 DecisionBudgetExhausted
                  (<["error" := AString err]>
                    (<["tokens_used" := AInt64 (TaskGraph.TokensUsed (gs_graph s))]>
                      (<["token_budget" := AInt64 (TaskGraph.TokenBudget (gs_graph s))]> ∅)))
                  ["resume"; "abort"] s)
      end
  end.

(** [RequestAutonomousAbort] after the planner was asked. *)
Definition RequestAutonomousAbort (cause : FailureClass) (reason : string) (s : GateState) : GateState :=
  match get_step (gs_graph s) stepID with
  | None => s
  | Some _ =>
      let ctx := <["failure_class" := AString (failure_string cause)]>
                  (<["reason" := AString reason]> (<["requested_by" := AString "main_agent"]> ∅)) in
      if decide (ex_replan env = "")
      then ask 1 DecisionAutonomousAbortRequested ctx ["confirm_abort"; "continue"] s
      else ask 1 DecisionAutonomousAbortRequested (<["planner_replan" := AString (ex_replan env)]> ctx)
             ["replan"; "confirm_abort"; "continue"] s
  end.

(** The budget alert: an alert of the last tier asks for an abort. *)
Definition step_done (st : Step.t) : bool := bool_decide (Step.Status st ∈ [StepOK; StepFailed]).
Definition budget_pct (g : TaskGraph.t) : Z := Z.quot (wrap64 (100 * TaskGraph.TokensUsed g)) (TaskGraph.TokenBudget g).
Definition predicted_pct (g : TaskGraph.t) : Z :=
  let steps := (map_to_list (TaskGraph.Steps g)).*2 in
  let total := Z.of_nat (length steps) in
  let done := Z.of_nat (length (filter (λ st, step_done st = true) steps)) in
  if bool_decide (0 < done)%Z && bool_decide (0 < total)%Z
  then Z.quot (wrap64 (budget_pct g * total)) done else 0%Z.
Definition budget_alert (fired : option (gmap string (gset Z))) (s : GateState)
    : GateState * option (gmap string (gset Z)) :=
  let g := gs_graph s in
  match fired with
  | None => (s, None)
  | Some b =>
      if bool_decide (0 < TaskGraph.TokenBudget g)%Z && bool_decide (0 < TaskGraph.TokensUsed g)%Z then
        let '(b, tier) := BudgetSentinel.Observe (TaskGraph.TaskID g) (budget_pct g) (predicted_pct g) b in
        (if decide (90 ≤ tier)%Z then
           RequestAutonomousAbort FailureClassCostOverrun
             ("budget predicted to exceed: " +:+ pretty (budget_pct g) +:+ "% used, " +:+ pretty (predicted_pct g)
               +:+ "% predicted (" +:+ pretty (TaskGraph.TokensUsed g) +:+ "/" +:+ pretty (TaskGraph.TokenBudget g)
               +:+ " tokens)")%string s
         else s, Some b)
      else (s, Some b)
  end.

Definition mark_running (s : GateState) : GateState :=
  persist (on_step stepID (λ st, st <| Step.Status := StepRunning |> <| Step.LastWorkedOn := ex_now env |>) s).

(** ** A failed spawn *)

Definition retry_once (st : Step.t) : Step.t := st <| Step.RetryCount ::= λ n, wrap64 (n + 1) |>.
Definition exhausted_now (s : GateState) : bool :=
  match get_step (gs_graph s) stepID with
  | Some st => bool_decide (Step.MaxRetries st < Step.RetryCount st)%Z
  | None => true
  end.

(** The error texts that end the attempts with a decision. *)
Definition role_missing (text : string) : bool :=
  contains ("role " +:+ quote_str)%string text
  && (contains (quote_str +:+ " not found")%string text || contains "generation failed" text
      || contains "generation is disabled" text).
Definition skill_missing (text : string) : bool :=
  contains ("skill " +:+ quote_str)%string text && contains (quote_str +:+ " not found")%string text.
Definition auth_failure (text : string) : bool :=
  contains "HTTP 403" text || contains "PERMISSION_DENIED" text || contains "HTTP 401" text.

Definition escalation_required (n : nat) (s : GateState) : GateState :=
  ask n DecisionDelegationRequired
    (<["kind" := AString DelegationKindDAGSurgery]>
      (<["error" := AString "Context overflow: task too complex for single model."]>
        (<["action_required" := AString "Please split this step into smaller sub-tasks."]> ∅)))
    ["skip"; "abort"] (set_step_status stepID StepBlocked s).
Definition max_turns (n : nat) (text : string) (retries : Z) (s : GateState) : GateState :=
  let s := on_step stepID (λ st, st <| Step.Status := StepBlocked |> <| Step.LastError := text |>) s in
  ask n DecisionMaxTurnsExhausted
    (<["error" := AString text]>
      (<["retry_count" := AInt retries]>
        (<["action_required" := AString "Step exhausted its tool-turn budget before producing a final answer. Choose an option to proceed."]>
          (<["partial_context" := AString "Prior tool interactions are recorded in this step's trace. Use refine_and_retry with feedback to carry that context forward."]> ∅))))
    ["resume_more_turns"; "refine_and_retry"; "escalate_model"; "retry"; "skip"; "abort"] s.

Definition rate_limited (c : Cancelled) (s : GateState) : GateState * Flow :=
  let s := on_step stepID retry_once s in
  if exhausted_now s then (s, FlowBreak)
  else match c with NotCancelled => (s, FlowContinue) | _ => (s, FlowReturn) end.
Definition degraded (msg : string) (s : GateState) : GateState :=
  on_step stepID (λ st, st <| Step.Status := StepSkipped |>
                           <| Step.LastError := ex_sanitize env ("degraded: " +:+ msg)%string |>) s.
Definition record_error (text : string) (s : GateState) : GateState :=
  on_step stepID (λ st,
    let st := st <| Step.LastError := ex_sanitize env text |> in
    if decide (Step.TriggerError st = "") then st <| Step.TriggerError := Step.LastError st |> else st) s.

Definition missing_dependency (n : nat) (text : string) (s : GateState) : GateState :=
  let s := set_step_status stepID StepBlocked s in
  match applyStepFailurePolicy stepID (gs_graph s) with
  | (g, true) => s <| gs_graph := g |>
  | (_, false) => ask n DecisionEnvironmentMissing (<["missing_dependency" := AString text]> ∅)
                    ["skip"; "abort"; "retry_with_skill:shell"] s
  end.
Definition role_blocked (n : nat) (text : string) (s : GateState) : GateState :=
  let s := set_graph_status GraphRunning (set_step_status stepID StepBlocked s) in
  match applyStepFailurePolicy stepID (gs_graph s) with
  | (g, true) => persist (s <| gs_graph := g |>)
  | (_, false) =>
      let roleID := match get_step (gs_graph s) stepID with Some st => Step.RoleID st | None => "" end in
      persist (ask n DecisionStepFailed
        (<["error" := AString ("Role missing: " +:+ text)%string]>
          (<["role_id" := AString roleID]>
            (<["action_required" := AString ("Choose create_role to synthesise a task-scoped role from the cookbook, or register one globally via orchestrator_invoke(subsystem=" +:+ q "config" +:+ ", action=" +:+ q "register_role" +:+ ").")%string]> ∅)))
        ["create_role"; "retry"; "skip"; "abort"] s)
  end.
Definition skill_blocked (n : nat) (text : string) (s : GateState) : GateState :=
  let s := set_graph_status GraphRunning (set_step_status stepID StepBlocked s) in
  persist (ask n DecisionStepFailed
    (<["error" := AString ("Infrastructure failure: " +:+ text)%string]>
      (<["action_required" := AString "Please register the missing skill or remove it from the role's bound_skills"]> ∅))
    ["create_skill"; "retry"; "skip"; "abort"] s).
Definition retry_later (c : Cancelled) (s : GateState) : GateState * Flow :=
  let s := on_step stepID retry_once s in
  match c with
  | CancelledBeforeWait => (s, FlowReturn)
  | _ => if exhausted_now s then (s, FlowBreak)
         else match c with NotCancelled => (s, FlowContinue) | _ => (s, FlowReturn) end
  end.

(** The dispatch on the error of a spawn, in the order of the code. *)
Definition attempt_error (n : nat) (e : SpawnError) (c : Cancelled) (s : GateState) : GateState * Flow :=
  let text := se_text e in
  let retries := match get_step (gs_graph s) stepID with Some st => Step.RetryCount st | None => 0%Z end in
  if contains "DYNAMIC_ESCALATION_REQUIRED" text then (escalation_required n s, FlowReturn)
  else if contains ErrMaxTurnsExhausted text then (max_turns n text retries s, FlowReturn)
  else if se_rate_limit e then rate_limited c s
  else match se_bad_request e with
       | Some msg => (degraded msg s, FlowReturn)
       | None =>
           let s := record_error text s in
           if auth_failure text then (s, FlowBreak)
           else if contains "missing dependency:" text then (missing_dependency n text s, FlowReturn)
           else if role_missing text then (role_blocked n text s, FlowReturn)
           else if skill_missing text then (skill_blocked n text s, FlowReturn)
           else retry_later c s
       end.

(** ** A result *)

(** The output guard: a delegation hand-over is not inspected. *)
Definition guardStepOutput (result : SpawnResult.t) (text schema : string) : bool * string :=
  if decide (SubagentOutput.Status (SpawnResult.Output result) = StatusDelegationRequired) then (true, "")
  else ex_inspect env text schema.
Definition guard_rejected (text reason : string) (s : GateState) : GateState * Flow :=
  let s := on_step stepID (λ st, retry_once (st <| Step.LastError := ex_sanitize env ("sieve_intercepted: " +:+ reason)%string |>
                                   <| Step.PartialOutput := text |>)) s in
  if exhausted_now s then (s, FlowBreak) else (s, FlowContinue).

Definition recovery_advice (f : FailType) : string :=
  match f with
  | FailurePermission => "It seems like a permission issue. Please check if you need to use a different tool or request elevated access."
  | FailureTimeout => "The operation timed out. Consider breaking the task into smaller sub-tasks, increasing efficiency, or using a more performant tool if available."
  | FailureConflict => "A state conflict (e.g. file modified by another process) was detected. Please RE-READ the current state (file or UI) before attempting to write again to ensure your changes are based on the latest version."
  | FailureSchemaViolation => "Your output violates the required schema. Please strictly follow the formatting instructions provided in the tool definition or task description."
  | _ => "Your output failed logical or semantic verification. Please carefully review the 'Reason' above and adjust your approach accordingly."
  end.
Definition refined_task (task reason : string) (f : FailType) : string :=
  (task +:+ newline +:+ newline +:+ MarkerRefinementRequired +:+ newline +:+ "Your previous output failed verification."
     +:+ newline +:+ "Failure Category: " +:+ fail_string f +:+ newline +:+ "Reason: " +:+ reason +:+ newline
     +:+ "Advice: " +:+ recovery_advice f)%string.

(** The exit criteria failed: refine while rounds are left, else block and ask. *)
Definition refine_step (reason : string) (f : FailType) (st : Step.t) : Step.t :=
  st <| Step.AutoRefineCount ::= λ n, wrap64 (n + 1) |> <| Step.Status := StepPending |>
     <| Step.LastError := ex_sanitize env ("[" +:+ fail_string f +:+ "] Exit criteria not met: " +:+ reason
                            +:+ ". Retrying...")%string |>.
Definition exit_failed (n : nat) (reason : string) (f : FailType) (c : Cancelled) (step : Step.t) (s : GateState)
    : GateState * Flow :=
  if decide (Step.AutoRefineCount step < Step.MaxAutoRefine step)%Z then
    let s := on_step stepID (refine_step reason f) s in
    match c with
    | CancelledBeforeWait => (s, FlowReturn)
    | _ => (on_step stepID (λ st, st <| Step.Task ::= λ t, refined_task t reason f |>) s, FlowContinue)
    end
  else
    let s := ask n DecisionStepFailed
      (<["error" := AString "Failed exit criteria after max refinements"]> (<["reason" := AString reason]> ∅))
      ["skip"; "abort"; "retry"] (set_step_status stepID StepBlocked s) in
    (persist s, FlowReturn).

Definition handled (n : nat) (result : SpawnResult.t) (s : GateState) : GateState :=
  handleOutput (ex_out env) (ex_order env (gs_graph s)) (ex_tools env) (ex_decID env n) stepID (Some result) s.
(** After the output was handled: the exit criteria of a step that is OK. *)
Definition after_output (n : nat) (result : SpawnResult.t) (c : Cancelled) (s : GateState) : GateState * Flow :=
  match get_step (gs_graph s) stepID with
  | Some step =>
      if bool_decide (Step.Status step = StepOK) && negb (String.eqb (Step.ExitCriteria step) "") then
        let '(v, step') := verifyExitCriteria (ex_verify env) (gs_graph s) step
                             (SubagentOutput.Result (SpawnResult.Output result)) in
        let s := on_step stepID (λ st, st <| Step.DynamicRubrics := Step.DynamicRubrics step' |>) s in
        if passes v then (persist s, FlowReturn) else exit_failed n v.1.2 v.2 c step s
      else (persist s, FlowReturn)
  | None => (persist s, FlowReturn)
  end.
Definition attempt_result (n : nat) (result : SpawnResult.t) (c : Cancelled) (step : Step.t) (s : GateState)
    : GateState * Flow :=
  let text := fmt_result (show_any (ex_out env)) (SubagentOutput.Result (SpawnResult.Output result)) in
  let schema := if decide (Step.ExitCriteria step = "json") then "json" else "" in
  match guardStepOutput result text schema with
  | (false, reason) => guard_rejected text reason s
  | (true, _) => after_output n result c (handled n result s)
  end.

(** ** The loop *)

Definition attempt (n : nat) (step : Step.t) (s : GateState) : GateState * Flow :=
  match at_reply (ex_attempt env n) with
  | inl e => attempt_error n e (at_cancelled (ex_attempt env n)) s
  | inr result => attempt_result n result (at_cancelled (ex_attempt env n)) step s
  end.
(** No retry left: the step fails and its dependents are blocked. *)
Definition exhausted (n : nat) (s : GateState) : GateState :=
  maybeBlock cfg (ex_order env (gs_graph s)) (ex_decID env n) (ex_now env) stepID
    (set_step_status stepID StepFailed s).
Fixpoint attempt_loop (fuel n : nat) (s : GateState) : option GateState :=
  match fuel with
  | 0 => None
  | S fuel' =>
      match get_step (gs_graph s) stepID with
      | None => Some s
      | Some step =>
          if decide (Step.RetryCount step ≤ Step.MaxRetries step)%Z then
            match attempt n step s with
            | (s, FlowReturn) => Some s
            | (s, FlowBreak) => Some (exhausted n s)
            | (s, FlowContinue) => attempt_loop fuel' (S n) s
            end
          else Some (exhausted n s)
      end
  end.

(** Enough iterations for the counters a step starts with. *)
Definition attempt_measure (st : Step.t) : nat :=
  Z.to_nat (Step.MaxRetries st + 1 - Step.RetryCount st) + Z.to_nat (Step.MaxAutoRefine st - Step.AutoRefineCount st).
Definition attempt_fuel (g : TaskGraph.t) : nat :=
  match get_step g stepID with Some st => S (attempt_measure st) | None => 1 end.

Definition executeStep (fired : option (gmap string (gset Z))) (s : GateState)
    : option (GateState * option (gmap string (gset Z))) :=
  match budget_block s with
  | Some s => Some (s, fired)
  | None =>
      let '(s, fired) := budget_alert fired s in
      let s := mark_running s in
      match attempt_loop (attempt_fuel (gs_graph s)) 2 s with
      | Some s => Some (s, fired)
      | None => None
      end
  end.
End Exec.

(** ** What the attempts keep of a step *)

(** The fields no attempt changes. *)
Definition exec_profile (st : Step.t) : string * Z * Z * string * string * bool :=
  (Step.ID st, Step.MaxRetries st, Step.MaxAutoRefine st, Step.ExitCriteria st, Step.VerifierModel st,
   Step.EnableDebate st).
Definition counters (st : Step.t) : Z * Z := (Step.RetryCount st, Step.AutoRefineCount st).

Lemma profile_fields a b :
  exec_profile a = exec_profile b →
  Step.ID a = Step.ID b ∧ Step.MaxRetries a = Step.MaxRetries b ∧ Step.MaxAutoRefine a = Step.MaxAutoRefine b ∧
  Step.ExitCriteria a = Step.ExitCriteria b ∧ Step.VerifierModel a = Step.VerifierModel b ∧
  Step.EnableDebate a = Step.EnableDebate b.
Proof. by intros [= -> -> -> -> -> ->]. Qed.

Lemma get_ask env n stepID dtype ctx options s id :
  get_step (gs_graph (ask env stepID n dtype ctx options s)) id = get_step (gs_graph s) id.
Proof. unfold ask, get_step. by rewrite addDecision_Steps. Qed.
Lemma gs_persist s : gs_graph (persist s) = gs_graph s.
Proof. done. Qed.
Lemma get_set_status stepID st s id :
  get_step (gs_graph (set_step_status stepID st s)) id =
  if decide (stepID = id) then (λ x, x <| Step.Status := st |>) <$> get_step (gs_graph s) id
  else get_step (gs_graph s) id.
Proof. apply upd_step_lookup. Qed.

(** The state of a step updated in place. *)
Lemma on_step_here stepID f s st :
  get_step (gs_graph s) stepID = Some st → get_step (gs_graph (on_step stepID f s)) stepID = Some (f st).
Proof. intros H. by rewrite get_step_on_step, decide_True, H. Qed.
Lemma set_status_here stepID x s st :
  get_step (gs_graph s) stepID = Some st →
  get_step (gs_graph (set_step_status stepID x s)) stepID = Some (st <| Step.Status := x |>).
Proof. intros H. by rewrite get_set_status, decide_True, H. Qed.

Lemma Steps_on_step_wf stepID f s :
  (∀ st, Step.ID (f st) = Step.ID st) → wf_graph (gs_graph s) → wf_graph (gs_graph (on_step stepID f s)).
Proof. intros Hf Hw. by apply wf_upd_step. Qed.

(** A step after [handleOutput] of a result that was accepted. *)
Lemma side_load_ref env stepID r g st :
  get_step g stepID = Some st →
  ∃ ref, get_step (side_load env stepID r g) stepID = Some (st <| Step.ResultRef := ref |>).
Proof.
  intros Hs. unfold side_load. destruct (asset_handle env _ _ _) as [f|].
  - exists (OutputFile.Path f). cbv zeta. unfold get_step in *. rewrite upd_step_lookup, decide_True by done.
    change (TaskGraph.Steps (g <| TaskGraph.OutputFiles ::= _ |>)) with (TaskGraph.Steps g). by rewrite Hs.
  - exists (Step.ResultRef st). rewrite Hs. by destruct st.
Qed.

Lemma wf_side_load env stepID r g : wf_graph g → wf_graph (side_load env stepID r g).
Proof. intros Hw. unfold side_load. destruct (asset_handle env _ _ _); [by apply wf_upd_step|done]. Qed.
Lemma wf_keeps g g' : keeps_steps g g' → wf_graph g → wf_graph g'.
Proof. intros [H _ _]. unfold wf_graph. by rewrite H. Qed.

Lemma success_keeps env stepID result s st :
  get_step (gs_graph s) stepID = Some st → wf_graph (gs_graph s) →
  ∃ st', get_step (gs_graph (handleStepSuccess env stepID result s)) stepID = Some st' ∧
    Step.Status st' = StepOK ∧ exec_profile st' = exec_profile st ∧ counters st' = counters st ∧
    wf_graph (gs_graph (handleStepSuccess env stepID result s)).
Proof.
  intros Hs Hw. rewrite (handleStepSuccess_graph env stepID result s st Hs). cbv zeta.
  set (g1 := upd_step stepID (mark_ok (SpawnResult.Ref result)) (gs_graph s)).
  assert (get_step g1 stepID = Some (mark_ok (SpawnResult.Ref result) st)) as H1.
  { unfold g1, get_step. rewrite upd_step_lookup, decide_True by done. unfold get_step in Hs. by rewrite Hs. }
  assert (wf_graph g1) as Hw1 by by apply wf_upd_step.
  match goal with |- context [side_load env stepID ?r ?g] => set (g4 := g) end.
  assert (keeps_steps g1 g4) as Hk.
  { unfold g4. etrans; [|apply keeps_output_file]. etrans; [|apply keeps_deposit]. apply keeps_merge. }
  rewrite <- (keeps_get_step _ _ _ Hk) in H1.
  destruct (side_load_ref env stepID (result_map (SpawnResult.Output result)) g4 _ H1) as [ref ->]. eexists. split; [done|].
  split; [done|]. split; [done|]. split; [done|]. apply wf_side_load. by eapply wf_keeps.
Qed.

(** A failed step after [maybeBlock]. *)
Lemma maybeBlock_own cfg ord decID now stepID s st :
  wf_graph (gs_graph s) → get_step (gs_graph s) stepID = Some st → Step.Status st = StepFailed →
  ∃ st', get_step (gs_graph (maybeBlock cfg ord decID now stepID s)) stepID = Some st' ∧
    Step.Status st' ∈ [StepFailed; StepPending].
Proof.
  intros Hw Hs Hf. unfold maybeBlock. rewrite Hs. destruct (FallbackFor _ _ _) as [fb|].
  - rewrite get_set_status. case_decide.
    + rewrite Hs. eexists. split; [done|]. right; left.
    + exists st. split; [done|]. rewrite Hf. left.
  - exists st. split; [|rewrite Hf; left]. unfold get_step. rewrite addDecision_Steps.
    change (TaskGraph.Steps (gs_graph (s <| gs_graph ::= λ g, g <| TaskGraph.Steps ::= fmap (block_dependent stepID) |> |>)))
      with (block_dependent stepID <$> TaskGraph.Steps (gs_graph s)).
    rewrite lookup_fmap. unfold get_step in Hs. rewrite Hs. cbn [fmap option_fmap option_map].
    f_equal. unfold block_dependent. rewrite Hf. by rewrite andb_false_r.
Qed.

(** What handling a result leaves of the step: it is OK with its counters
    kept, or not OK, and then running only when an approval was asked. *)
Definition after_result (result : SpawnResult.t) (st st' : Step.t) (g' : TaskGraph.t) : Prop :=
  (Step.Status st' = StepOK ∧ exec_profile st' = exec_profile st ∧ counters st' = counters st ∧ wf_graph g') ∨
  (Step.Status st' ≠ StepOK ∧
   (SubagentOutput.Status (SpawnResult.Output result) ≠ StatusApprovalRequired → Step.Status st' ≠ StepRunning)).

Lemma failure_after env ord tools decID stepID result s st :
  range_order (TaskGraph.Steps (gs_graph s)) ord → wf_graph (gs_graph s) →
  get_step (gs_graph s) stepID = Some st → Step.Status st ∈ [StepRunning; StepPending] →
  ∃ st', get_step (gs_graph (handleStepFailure env ord tools decID stepID result s).1) stepID = Some st' ∧
    Step.Status st' ≠ StepOK ∧
    (SubagentOutput.Status (SpawnResult.Output result) ≠ StatusApprovalRequired → Step.Status st' ≠ StepRunning).
Proof.
  intros Ho Hw Hs Hst.
  destruct (decide (SubagentOutput.Status (SpawnResult.Output result) = StatusApprovalRequired)) as [Ha|Ha].
  - exists st. split; [|split; [intros E; rewrite E in Hst; set_solver|done]].
    unfold handleStepFailure. cbv zeta.
    match goal with |- context [archiveStep env stepID ?r ?x] => set (s1 := archiveStep env stepID r x) end.
    assert (get_step (gs_graph s1) stepID = Some st) as Hs1.
    { unfold s1. rewrite archiveStep_graph. rewrite <- Hs. apply keeps_get_step, keeps_deposit. }
    rewrite Hs1. unfold diagnoseFault. rewrite (decide_True (P := _ = StatusApprovalRequired)) by done.
    unfold reclassifyToolRefusal. destruct (tool_failures env); cbn; rewrite ?decide_True by done;
      unfold emitMountApprovalDecision, get_step; cbn [fst]; by rewrite addDecision_Steps.
  - pose proof (handleStepFailure_settles env ord tools decID stepID result s st Ho Hw Hs Ha) as Hd.
    cbv zeta in Hd. destruct Hd as [(_ & st' & Hs' & Hin)|(_ & Hb & _)].
    + exists st'. split; [done|]. split; [|intros _]; intros E; rewrite E in Hin; set_solver.
    + apply fmap_Some in Hb as (st' & Hs' & Hb). exists st'. split; [done|]. by rewrite <- Hb.
Qed.

Lemma handleOutput_after env ord tools decID stepID result s st :
  range_order (TaskGraph.Steps (gs_graph s)) ord → wf_graph (gs_graph s) →
  get_step (gs_graph s) stepID = Some st → Step.Status st ∈ [StepRunning; StepPending] →
  let s' := handleOutput env ord tools decID stepID (Some result) s in
  ∃ st', get_step (gs_graph s') stepID = Some st' ∧ after_result result st st' (gs_graph s').
Proof.
  intros Ho Hw Hs Hst s'. unfold s', handleOutput. cbv zeta.
  match goal with |- context [handleStepSuccess env stepID result ?x] => set (s1 := x) end.
  assert (∃ st1, get_step (gs_graph s1) stepID = Some st1 ∧ Step.Status st1 = Step.Status st ∧
    exec_profile st1 = exec_profile st ∧ counters st1 = counters st) as (st1 & H1 & Hst1 & Hp1 & Hc1).
  { pose proof (keeps_deduct env (SpawnResult.Output result) (gs_graph s)) as Hk.
    eexists. split; [apply on_step_here; rewrite <- Hs; apply (keeps_get_step _ _ stepID Hk)|]. done. }
  pose proof (keeps_deduct env (SpawnResult.Output result) (gs_graph s)) as Hk.
  assert (wf_graph (gs_graph s1)) as Hw1.
  { apply wf_upd_step; [done|]. eapply wf_keeps; [exact Hk|done]. }
  assert (range_order (TaskGraph.Steps (gs_graph s1)) ord) as Ho1.
  { eapply range_order_dom; [|exact Ho]. unfold s1. cbn. rewrite dom_alter_L, (keeps_Steps _ _ Hk). done. }
  rewrite <- Hst1 in Hst. clearbody s1. destruct (_ && _).
  { destruct (success_keeps env stepID result s1 st1 H1 Hw1) as (st' & Hs' & Hok & Hp & Hc & Hw').
    exists st'. split; [done|]. left. split_and!; [done|congruence|congruence|done]. }
  destruct (decide (_ = StatusDelegationRequired)).
  { exists (st1 <| Step.Status := StepBlocked |>).
    split; [|by right]. unfold handleDelegationRequired. cbv zeta. unfold get_step. rewrite addDecision_Steps.
    by apply set_status_here. }
  destruct (_ || _).
  { destruct (failure_after env ord tools decID stepID result s1 st1 Ho1 Hw1 H1 Hst) as (st' & Hs' & Hr).
    exists st'. split; [done|by right]. }
  destruct (maybeBlock_own (Some (env_cfg env)) ord decID (env_now env) stepID (set_step_status stepID StepFailed s1)
    (st1 <| Step.Status := StepFailed |>)) as (st' & Hs' & Hin).
  - by apply wf_upd_step.
  - by apply set_status_here.
  - done.
  - exists st'. split; [done|]. right. split; [|intros _]; intros E; rewrite E in Hin; set_solver.
Qed.

(** ** The attempts *)

Section Attempts.
Context (env : ExecEnv) (stepID : string).
Context (Horder : ∀ g, range_order (TaskGraph.Steps g) (ex_order env g)).

(** A step in the loop: running, or pending again for a refinement. *)
Record in_loop (st : Step.t) : Prop := mk_in_loop {
  il_status : Step.Status st ∈ [StepRunning; StepPending];
  il_retry : (0 ≤ Step.RetryCount st)%Z;
  il_refine : (0 ≤ Step.AutoRefineCount st)%Z;
  il_max : (Step.MaxRetries st < int64_max)%Z;
  il_maxr : (Step.MaxAutoRefine st ≤ int64_max)%Z
}.
Definition loop_state (st : Step.t) (s : GateState) : Prop :=
  wf_graph (gs_graph s) ∧ get_step (gs_graph s) stepID = Some st ∧ in_loop st.

(** The reply of attempt [n], made in state [s], was accepted and left [s']: the
    output guard let it pass, the handler left the step OK, and then its exit
    criteria, those the step [st] was given, passed on this very output in the state
    the handler left; or it has none. *)
Definition attempt_accepted (st : Step.t) (n : nat) (s s' : GateState) : Prop :=
  ∃ step result sth,
    get_step (gs_graph s) stepID = Some step ∧ at_reply (ex_attempt env n) = inr result ∧
    (guardStepOutput env result (fmt_result (show_any (ex_out env)) (SubagentOutput.Result (SpawnResult.Output result)))
       (if decide (Step.ExitCriteria step = "json") then "json" else "")).1 = true ∧
    let sh := handled env stepID n result s in
    get_step (gs_graph sh) stepID = Some sth ∧ Step.Status sth = StepOK ∧ exec_profile sth = exec_profile st ∧
    if String.eqb (Step.ExitCriteria sth) "" then s' = persist sh
    else
      let '(v, checked) := verifyExitCriteria (ex_verify env) (gs_graph sh) sth (SubagentOutput.Result (SpawnResult.Output result)) in
      passes v = true ∧ s' = persist (on_step stepID (λ st, st <| Step.DynamicRubrics := Step.DynamicRubrics checked |>) sh).
(** [loop_at n s]: the loop that starts in [s0] makes its attempt [n] in [s]. *)
Inductive loop_at (s0 : GateState) : nat → GateState → Prop :=
| loop_first : loop_at s0 2 s0
| loop_next n s step s' :
    loop_at s0 n s → get_step (gs_graph s) stepID = Some step → (Step.RetryCount step ≤ Step.MaxRetries step)%Z →
    attempt env stepID n step s = (s', FlowContinue) → loop_at s0 (S n) s'.
(** Attempt [n] is not cancelled and asks for no approval. *)
Definition quiet (n : nat) : Prop :=
  at_cancelled (ex_attempt env n) = NotCancelled ∧
  ∀ r, at_reply (ex_attempt env n) = inr r → SubagentOutput.Status (SpawnResult.Output r) ≠ StatusApprovalRequired.

(** A state returned: OK only if [A], and not left running if [Q]. *)
Definition returned (A Q : Prop) (s' : GateState) : Prop :=
  ∃ st', get_step (gs_graph s') stepID = Some st' ∧ (Step.Status st' = StepOK → A) ∧
    (Q → Step.Status st' ≠ StepRunning).
Definition attempt_post (A Q : Prop) (st : Step.t) (r : GateState * Flow) : Prop :=
  match r.2 with
  | FlowContinue => ∃ st', loop_state st' r.1 ∧ exec_profile st' = exec_profile st ∧
      attempt_measure st' < attempt_measure st
  | FlowBreak => wf_graph (gs_graph r.1) ∧ ∃ st', get_step (gs_graph r.1) stepID = Some st'
  | FlowReturn => returned A Q r.1
  end.

Lemma returned_status (A Q : Prop) s' st' :
  get_step (gs_graph s') stepID = Some st' → Step.Status st' ≠ StepOK → (Q → Step.Status st' ≠ StepRunning) →
  returned A Q s'.
Proof. intros H1 H2 H3. exists st'. split; [done|]. split; [by intros ?%H2|done]. Qed.

Lemma post_return (A Q : Prop) st s' : returned A Q s' → attempt_post A Q st (s', FlowReturn).
Proof. done. Qed.

Lemma retry_once_wrap st :
  in_loop st → (Step.RetryCount st ≤ Step.MaxRetries st)%Z →
  Step.RetryCount (retry_once st) = (Step.RetryCount st + 1)%Z.
Proof.
  intros [_ ? _ ? _] Hr. unfold retry_once. cbn. apply wrap64_id.
  unfold in_int64, int64_min, int64_max in *. lia.
Qed.

(** One more retry is spent: the step goes on, or none is left. *)
Lemma retry_progress (A Q : Prop) st0 st s f :
  loop_state st s → (Step.RetryCount st ≤ Step.MaxRetries st)%Z → exec_profile st = exec_profile st0 →
  attempt_measure st ≤ attempt_measure st0 →
  (∀ x, exec_profile (f x) = exec_profile x ∧ Step.RetryCount (f x) = Step.RetryCount (retry_once x) ∧
     Step.AutoRefineCount (f x) = Step.AutoRefineCount x ∧ Step.Status (f x) = Step.Status x) →
  let s' := on_step stepID f s in
  (exhausted_now stepID s' = true → attempt_post A Q st0 (s', FlowBreak)) ∧
  (exhausted_now stepID s' = false → attempt_post A Q st0 (s', FlowContinue)) ∧
  ((Q → False) → attempt_post A Q st0 (s', FlowReturn)).
Proof.
  intros (Hw & Hs & Hl) Hr Hp Hm Hf s'. destruct (Hf st) as (Hf1 & Hf2 & Hf3 & Hf4).
  pose proof (on_step_here stepID f s st Hs) as Hs'. fold s' in Hs'.
  assert (wf_graph (gs_graph s')) as Hw'.
  { apply wf_upd_step; [|done]. intros x. by destruct (profile_fields _ _ (proj1 (Hf x))). }
  rewrite retry_once_wrap in Hf2 by done.
  destruct (profile_fields _ _ Hf1) as (_ & Hmr & Hma & _).
  split; [by split; [|eexists]|]. split.
  - intros _. exists (f st). cbn [fst]. split; [|split; [congruence|]].
    + split; [done|]. split; [done|]. destruct Hl. split; rewrite ?Hf2, ?Hf3, ?Hf4, ?Hmr, ?Hma; try done; lia.
    + unfold attempt_measure in *. rewrite Hf2, Hf3, Hmr, Hma. lia.
  - intros HQ. apply (returned_status _ _ _ (f st)); [done| |done].
    rewrite Hf4. destruct Hl as [Hst]. intros E. rewrite E in Hst. set_solver.
Qed.

Lemma record_error_here text s st :
  get_step (gs_graph s) stepID = Some st →
  ∃ st', get_step (gs_graph (record_error env stepID text s)) stepID = Some st' ∧
    exec_profile st' = exec_profile st ∧ counters st' = counters st ∧ Step.Status st' = Step.Status st.
Proof.
  intros Hs. unfold record_error. rewrite (on_step_here _ _ _ _ Hs). eexists. split; [done|].
  cbv zeta. case_decide; done.
Qed.
Lemma record_error_state text s st :
  loop_state st s →
  ∃ st', loop_state st' (record_error env stepID text s) ∧ exec_profile st' = exec_profile st ∧
    counters st' = counters st ∧ Step.Status st' = Step.Status st.
Proof.
  intros (Hw & Hs & Hl). destruct (record_error_here text s st Hs) as (st' & Hs' & Hp & Hc & Hst).
  exists st'. split; [|done]. split; [|split; [done|]].
  - apply wf_upd_step; [|done]. intros x. cbv zeta. by case_decide.
  - unfold counters in Hc. injection Hc as Hc1 Hc2.
    destruct (profile_fields _ _ Hp) as (_ & Hmr & Hma & _).
    destruct Hl. split; rewrite ?Hst, ?Hc1, ?Hc2, ?Hmr, ?Hma; done.
Qed.

(** A step that was blocked, and what a failure policy makes of it. *)
Lemma policy_status s st :
  get_step (gs_graph s) stepID = Some st → Step.Status st = StepBlocked →
  ∃ st', get_step (applyStepFailurePolicy stepID (gs_graph s)).1 stepID = Some st' ∧
    Step.Status st' ∈ [StepBlocked; StepSkipped].
Proof.
  intros Hs Hb. unfold applyStepFailurePolicy. rewrite Hs. destruct (Step.FailurePolicy st) as [p|].
  2: { exists st. split; [done|]. rewrite Hb. left. }
  case_decide; [|case_decide].
  - cbn [fst]. unfold get_step in *. rewrite upd_step_lookup, decide_True, Hs by done.
    eexists. split; [done|]. right; left.
  - exists st. split; [done|]. rewrite Hb. left.
  - exists st. split; [done|]. rewrite Hb. left.
Qed.
Lemma missing_dependency_returned A Q n text s st :
  get_step (gs_graph s) stepID = Some st → returned A Q (missing_dependency env stepID n text s).
Proof.
  intros Hs. unfold missing_dependency.
  pose proof (set_status_here stepID StepBlocked s st Hs) as Hb.
  destruct (policy_status _ _ Hb eq_refl) as (st' & Hs' & Hin).
  destruct (applyStepFailurePolicy stepID _) as [g []]; cbn [fst] in Hs'.
  - apply (returned_status _ _ _ st'); [done| |intros _]; intros E; rewrite E in Hin; set_solver.
  - eapply returned_status; [rewrite get_ask; exact Hb|done|done].
Qed.
Lemma role_blocked_returned A Q n text s st :
  get_step (gs_graph s) stepID = Some st → returned A Q (role_blocked env stepID n text s).
Proof.
  intros Hs. unfold role_blocked. cbv zeta.
  pose proof (set_status_here stepID StepBlocked s st Hs) as Hb.
  destruct (policy_status (set_graph_status GraphRunning (set_step_status stepID StepBlocked s)) _ Hb eq_refl)
    as (st' & Hs' & Hin).
  destruct (applyStepFailurePolicy stepID _) as [g []]; cbn [fst] in Hs'.
  - apply (returned_status _ _ _ st'); [done| |intros _]; intros E; rewrite E in Hin; set_solver.
  - apply (returned_status _ _ _ (st <| Step.Status := StepBlocked |>)); [|done|done].
    rewrite gs_persist.
    rewrite get_ask. exact Hb.
Qed.

Lemma retry_later_post A Q st0 st c s :
  loop_state st s → (Step.RetryCount st ≤ Step.MaxRetries st)%Z → exec_profile st = exec_profile st0 →
  attempt_measure st ≤ attempt_measure st0 → (Q → c = NotCancelled) →
  attempt_post A Q st0 (retry_later stepID c s) ∧ attempt_post A Q st0 (rate_limited stepID c s).
Proof.
  intros Hs Hr Hp Hm HQ.
  destruct (retry_progress A Q st0 st s retry_once Hs Hr Hp Hm) as (H1 & H2 & H3); [done|].
  unfold retry_later, rate_limited. destruct (exhausted_now _ _) eqn:E, c; auto;
    split; try (by apply H1); try (by apply H2); apply H3; by intros ?%HQ.
Qed.

Lemma attempt_error_post A Q n e c s st :
  loop_state st s → (Step.RetryCount st ≤ Step.MaxRetries st)%Z → (Q → c = NotCancelled) →
  attempt_post A Q st (attempt_error env stepID n e c s).
Proof.
  intros Hls Hr HQ. pose proof Hls as (Hw & Hs & Hl). unfold attempt_error. cbv zeta.
  destruct (contains _ _).
  { apply post_return. eapply returned_status; [unfold escalation_required; rewrite get_ask; by apply set_status_here|done|done]. }
  destruct (contains ErrMaxTurnsExhausted _).
  { apply post_return. eapply returned_status; [unfold max_turns; rewrite get_ask; by apply on_step_here|done|done]. }
  destruct (se_rate_limit e).
  { by apply (retry_later_post A Q st st c s). }
  destruct (se_bad_request e) as [msg|].
  { apply post_return. eapply returned_status; [unfold degraded; by apply on_step_here|done|done]. }
  destruct (record_error_state (se_text e) s st Hls) as (st1 & Hls1 & Hp & Hc & Hst1).
  pose proof Hls1 as (Hw1 & Hs1 & _). destruct (auth_failure _).
  { split; [done|by eexists]. }
  destruct (contains _ _).
  { apply post_return. by eapply missing_dependency_returned. }
  destruct (role_missing _).
  { apply post_return. by eapply role_blocked_returned. }
  destruct (skill_missing _).
  { apply post_return, (returned_status _ _ _ (st1 <| Step.Status := StepBlocked |>)); [|done|done]. unfold skill_blocked. cbv zeta.
    rewrite gs_persist.
    rewrite get_ask. by apply (set_status_here stepID StepBlocked _ st1). }
  injection Hc as Hc1 Hc2.
  destruct (profile_fields _ _ Hp) as (_ & Hmr & Hma & _).
  apply (retry_later_post A Q st st1 c _); try done; [lia|].
  unfold attempt_measure. by rewrite Hc1, Hc2, Hmr, Hma.
Qed.

Lemma exit_failed_post A Q n reason f c st step s :
  wf_graph (gs_graph s) → get_step (gs_graph s) stepID = Some step → in_loop st →
  exec_profile step = exec_profile st → counters step = counters st → (Q → c = NotCancelled) →
  attempt_post A Q st (exit_failed env stepID n reason f c step s).
Proof.
  intros Hw Hs Hl Hp Hc HQ. unfold exit_failed. destruct (profile_fields _ _ Hp) as (_ & Hmr & Hma & _).
  injection Hc as Hc1 Hc2. case_decide as Hlt; cbv zeta.
  - pose proof (on_step_here stepID (refine_step env reason f) s step Hs) as Hs'.
    assert (attempt_post A Q st (on_step stepID (refine_step env reason f) s, FlowReturn)) as Hret
      by (eapply post_return, returned_status; [exact Hs'|done|done]).
    assert (attempt_post A Q st (on_step stepID (λ st, st <| Step.Task ::= λ t, refined_task t reason f |>)
      (on_step stepID (refine_step env reason f) s), FlowContinue)) as Hcont; [|by destruct c].
    eexists. split; [split; [|split; [by apply on_step_here|]]|split].
    + apply wf_upd_step; [done|]. by apply wf_upd_step.
    + assert (Step.AutoRefineCount (refine_step env reason f step) = (Step.AutoRefineCount step + 1)%Z) as Ha.
      { cbn. apply wrap64_id. destruct Hl. unfold in_int64, int64_min, int64_max in *. lia. }
      destruct Hl. split; [right; left|..].
      * cbn. lia.
      * change (0 ≤ Step.AutoRefineCount (refine_step env reason f step))%Z. lia.
      * cbn. lia.
      * cbn. lia.
    + exact Hp.
    + assert (Step.AutoRefineCount (refine_step env reason f step) = (Step.AutoRefineCount step + 1)%Z) as Ha.
      { cbn. apply wrap64_id. destruct Hl. unfold in_int64, int64_min, int64_max in *. lia. }
      unfold attempt_measure. change (Z.to_nat (Step.MaxRetries step + 1 - Step.RetryCount step) +
        Z.to_nat (Step.MaxAutoRefine step - Step.AutoRefineCount (refine_step env reason f step)) <
        Z.to_nat (Step.MaxRetries st + 1 - Step.RetryCount st) + Z.to_nat (Step.MaxAutoRefine st - Step.AutoRefineCount st)).
      rewrite Ha, Hmr, Hc1. lia.
  - apply post_return, (returned_status _ _ _ (step <| Step.Status := StepBlocked |>)); [|done|done].
    rewrite gs_persist.
    rewrite get_ask. by apply set_status_here.
Qed.

Lemma after_output_post n result c st s :
  loop_state st s → at_reply (ex_attempt env n) = inr result →
  (guardStepOutput env result (fmt_result (show_any (ex_out env)) (SubagentOutput.Result (SpawnResult.Output result)))
     (if decide (Step.ExitCriteria st = "json") then "json" else "")).1 = true →
  attempt_post (attempt_accepted st n s (after_output env stepID n result c (handled env stepID n result s)).1)
    (c = NotCancelled ∧ SubagentOutput.Status (SpawnResult.Output result) ≠ StatusApprovalRequired) st
    (after_output env stepID n result c (handled env stepID n result s)).
Proof.
  intros (Hw & Hs & Hl) Hrep Hgd.
  destruct (handleOutput_after (ex_out env) (ex_order env (gs_graph s)) (ex_tools env) (ex_decID env n) stepID result s st
    (Horder _) Hw Hs (il_status _ Hl)) as (st' & Hs' & Hr).
  fold (handled env stepID n result s) in Hs', Hr. set (s1 := handled env stepID n result s) in *.
  unfold after_output. rewrite Hs'. destruct Hr as [(Hok & Hp & Hc & Hw')|(Hnok & Hna)].
  2: { rewrite bool_decide_false by done. cbn [andb]. apply post_return, (returned_status _ _ _ st'); [done|done|].
       by intros [_ ?%Hna]. }
  destruct (profile_fields _ _ Hp) as (_ & _ & _ & He & _).
  rewrite bool_decide_true by done. cbn [andb]. destruct (String.eqb (Step.ExitCriteria st') "") eqn:Ee; cbn [negb].
  { apply String.eqb_eq in Ee. apply post_return. exists st'. split; [done|].
    split; [intros _|intros _; by rewrite Hok]. exists st, result, st'. fold s1. split_and!; try done. by rewrite Ee. }
  destruct (verifyExitCriteria _ _ _ _) as [v step'] eqn:Ev.
  match goal with |- context [on_step stepID ?f s1] => set (s2 := on_step stepID f s1);
    pose proof (on_step_here stepID f s1 st' Hs') as Hs2 end. fold s2 in Hs2.
  destruct (passes v) eqn:Epass.
  - apply post_return. eexists. split; [exact Hs2|]. split; [|by intros _; cbn; rewrite Hok].
    intros _. exists st, result, st'. cbv zeta. fold s1. split_and!; try done. rewrite Ee.
    match goal with |- let '(_, _) := ?x in _ => change x with (verifyExitCriteria (ex_verify env) (gs_graph s1) st' (SubagentOutput.Result (SpawnResult.Output result))) end.
    by rewrite Ev.
  - match type of Hs2 with _ = Some ?x =>
      change (exit_failed env stepID n v.1.2 v.2 c st' s2) with (exit_failed env stepID n v.1.2 v.2 c x s2);
      apply (exit_failed_post _ _ n v.1.2 v.2 c st x s2) end;
      [by apply wf_upd_step|exact Hs2|done|exact Hp|exact Hc|by intros []].
Qed.

Lemma attempt_step_post n st s :
  loop_state st s → (Step.RetryCount st ≤ Step.MaxRetries st)%Z →
  attempt_post (attempt_accepted st n s (attempt env stepID n st s).1) (quiet n) st (attempt env stepID n st s).
Proof.
  intros Hls Hr. unfold attempt, quiet.
  destruct (at_reply (ex_attempt env n)) as [e|result] eqn:Ea.
  { apply attempt_error_post; [done|done|by intros []]. }
  set (c := at_cancelled (ex_attempt env n)). unfold attempt_result. cbv zeta.
  destruct (guardStepOutput env result _ _) as [[] reason] eqn:Eg.
  - pose proof (after_output_post n result c st s Hls Ea) as Hpost. rewrite Eg in Hpost. specialize (Hpost eq_refl). unfold attempt_post in *.
    destruct (after_output _ _ _ _ _ _) as [s' []]; cbn [fst snd] in *; try done.
    destruct Hpost as (st' & H1 & H2 & H3). exists st'. split; [done|]. split; [done|].
    intros [Hc Hq]. apply H3. split; [done|]. by apply Hq.
  - unfold guard_rejected. cbv zeta.
    match goal with |- attempt_post ?A ?Q st (if exhausted_now stepID (on_step stepID ?f s) then _ else _) =>
      destruct (retry_progress A Q st st s f Hls Hr) as (H1 & H2 & _); [done|done|by intros x|] end.
    destruct (exhausted_now _ _); [by apply H1|by apply H2].
Qed.

Lemma exhausted_returned A Q n s st :
  wf_graph (gs_graph s) → get_step (gs_graph s) stepID = Some st → returned A Q (exhausted env stepID n s).
Proof.
  intros Hw Hs. unfold exhausted.
  destruct (maybeBlock_own (cfg env) (ex_order env (gs_graph s)) (ex_decID env n) (ex_now env) stepID
    (set_step_status stepID StepFailed s) (st <| Step.Status := StepFailed |>)) as (st' & Hs' & Hin).
  - by apply wf_upd_step.
  - by apply set_status_here.
  - done.
  - apply (returned_status _ _ _ st'); [done| |intros _]; intros E; rewrite E in Hin; set_solver.
Qed.

Lemma accepted_profile st st' n s s' : exec_profile st' = exec_profile st → attempt_accepted st' n s s' → attempt_accepted st n s s'.
Proof. intros E (step & result & sth & H). exists step, result, sth. cbv zeta in *. by rewrite <- E. Qed.
(** The loop ends; OK only by an attempt that was accepted. *)
Definition loop_accepted (st : Step.t) (s0 s' : GateState) : Prop := ∃ m sm, loop_at s0 m sm ∧ attempt_accepted st m sm s'.
Lemma attempt_loop_post st0 s0 fuel n s st :
  loop_state st s → loop_at s0 n s → exec_profile st = exec_profile st0 → attempt_measure st < fuel →
  ∃ s', attempt_loop env stepID fuel n s = Some s' ∧ returned (loop_accepted st0 s0 s') (∀ m, quiet m) s'.
Proof.
  revert n s st. induction fuel as [|fuel IH]; intros n s st Hls Hat Hprof Hf; [lia|].
  pose proof Hls as (Hw & Hs & Hl). cbn [attempt_loop]. rewrite Hs. case_decide as Hr.
  2: { eexists. split; [done|]. by eapply exhausted_returned. }
  pose proof (attempt_step_post n st s Hls Hr) as Hp.
  destruct (attempt env stepID n st s) as [s' []] eqn:Ea; unfold attempt_post in Hp; cbn [fst snd] in Hp.
  - destruct Hp as (st1 & Hls1 & Hp1 & Hm). apply (IH (S n) s' st1 Hls1); [by eapply loop_next|congruence|lia].
  - destruct Hp as [Hw' [st1 Hs1]]. eexists. split; [done|]. by eapply exhausted_returned.
  - eexists. split; [done|]. destruct Hp as (st' & H1 & H2 & H3). exists st'. split; [done|].
    split; [intros E; exists n, s; split; [done|eapply accepted_profile; [exact Hprof|by apply H2]]|].
    intros Hq. by apply H3.
Qed.
End Attempts.

(** The counters of a step as submission creates them, below the limits of [int]. *)
Definition exec_bounds (st : Step.t) : Prop :=
  (0 ≤ Step.RetryCount st ∧ 0 ≤ Step.AutoRefineCount st ∧ Step.MaxRetries st < int64_max ∧
   Step.MaxAutoRefine st ≤ int64_max)%Z.

Lemma budget_alert_Steps env stepID fired s :
  TaskGraph.Steps (gs_graph (budget_alert env stepID fired s).1) = TaskGraph.Steps (gs_graph s).
Proof.
  unfold budget_alert. destruct fired as [b|]; [|done]. destruct (_ && _); [|done].
  destruct (BudgetSentinel.Observe _ _ _ _) as [b' tier]. cbn [fst]. case_decide; [|done].
  unfold RequestAutonomousAbort. destruct (get_step _ _); [|done]. cbv zeta.
  case_decide; unfold ask; by rewrite addDecision_Steps.
Qed.

(** The state the loop starts from. *)
Lemma started env stepID fired s st :
  wf_graph (gs_graph s) → get_step (gs_graph s) stepID = Some st →
  let s1 := mark_running env stepID (budget_alert env stepID fired s).1 in
  ∃ st1, get_step (gs_graph s1) stepID = Some st1 ∧ wf_graph (gs_graph s1) ∧ exec_profile st1 = exec_profile st ∧
    counters st1 = counters st ∧ Step.Status st1 = StepRunning.
Proof.
  intros Hw Hs s1. pose proof (budget_alert_Steps env stepID fired s) as HS.
  set (s0 := (budget_alert env stepID fired s).1) in *.
  assert (get_step (gs_graph s0) stepID = Some st) as Hs0 by by unfold get_step; rewrite HS.
  assert (wf_graph (gs_graph s0)) as Hw0 by by unfold wf_graph; rewrite HS.
  eexists. split; [by apply on_step_here|]. split; [by apply wf_upd_step|]. done.
Qed.

Lemma budget_block_here env stepID s s' st :
  get_step (gs_graph s) stepID = Some st → budget_block env stepID s = Some s' →
  get_step (gs_graph s') stepID = Some (st <| Step.Status := StepBlocked |>).
Proof.
  intros Hs. unfold budget_block. destruct (budget_margin _); [|done]. destruct (CheckBudget _ _); [|done].
  cbv zeta. intros [= <-]. rewrite get_ask. by apply set_status_here.
Qed.

Lemma executeStep_post env stepID fired s st :
  (∀ g, range_order (TaskGraph.Steps g) (ex_order env g)) →
  wf_graph (gs_graph s) → get_step (gs_graph s) stepID = Some st → exec_bounds st →
  ∃ s' fired', executeStep env stepID fired s = Some (s', fired') ∧
    returned stepID (loop_accepted env stepID st (mark_running env stepID (budget_alert env stepID fired s).1) s') (∀ m, quiet env m) s'.
Proof.
  intros Ho Hw Hs (Hb1 & Hb2 & Hb3 & Hb4). unfold executeStep.
  destruct (budget_block env stepID s) as [s'|] eqn:Eb.
  { exists s', fired. split; [done|]. eapply returned_status; [by eapply budget_block_here|done|done]. }
  destruct (started env stepID fired s st Hw Hs) as (st1 & Hs1 & Hw1 & Hp & Hc & Hst).
  destruct (budget_alert env stepID fired s) as [s0 fired']. cbn [fst] in *.
  assert (in_loop st1) as Hl.
  { destruct (profile_fields _ _ Hp) as (_ & Hmr & Hma & _). injection Hc as Hc1 Hc2.
    split; [rewrite Hst; left|lia..]. }
  destruct (attempt_loop_post env stepID Ho st (mark_running env stepID s0) (attempt_fuel stepID (gs_graph (mark_running env stepID s0))) 2 _ st1
    (conj Hw1 (conj Hs1 Hl))) as (s' & Hs' & Hret).
  { constructor. }
  { done. }
  { unfold attempt_fuel. rewrite Hs1. lia. }
  cbv zeta. rewrite Hs'. by exists s', fired'.
Qed.

(** C1: Executing a step always ends and settles it.  The attempt loop stops
    within the retries and refinements the step has left; when no attempt is
    cancelled and none asks for an approval, the step is not left running. *)
Theorem executeStep_settles env stepID fired s st :
  (∀ g, range_order (TaskGraph.Steps g) (ex_order env g)) →
  wf_graph (gs_graph s) → get_step (gs_graph s) stepID = Some st → exec_bounds st →
  ∃ s' fired' st', executeStep env stepID fired s = Some (s', fired') ∧
    get_step (gs_graph s') stepID = Some st' ∧ ((∀ n, quiet env n) → Step.Status st' ≠ StepRunning).
Proof.
  intros Ho Hw Hs Hb. destruct (executeStep_post env stepID fired s st Ho Hw Hs Hb) as (s' & f' & He & st' & H1 & _ & H3).
  by exists s', f', st'.
Qed.

(** C2: A step ends OK only by the reply of its last attempt: the loop made the
    attempt in a state it reached, the guard let the reply pass, handling it left
    the step OK, and the step's own exit criteria, if it has any, passed on the
    output of that reply in the state the handler left; nothing happened after. *)
Theorem ok_means_verified env stepID fired s st s' fired' st' :
  (∀ g, range_order (TaskGraph.Steps g) (ex_order env g)) →
  wf_graph (gs_graph s) → get_step (gs_graph s) stepID = Some st → exec_bounds st →
  executeStep env stepID fired s = Some (s', fired') → get_step (gs_graph s') stepID = Some st' →
  Step.Status st' = StepOK →
  ∃ n sn, loop_at env stepID (mark_running env stepID (budget_alert env stepID fired s).1) n sn ∧ attempt_accepted env stepID st n sn s'.
Proof.
  intros Ho Hw Hs Hb He Hs' Hok.
  destruct (executeStep_post env stepID fired s st Ho Hw Hs Hb) as (s2 & f2 & He2 & st2 & H1 & H2 & _).
  rewrite He in He2. injection He2 as <- <-. rewrite Hs' in H1. injection H1 as <-. by apply H2.
Qed.

(** A step with exit criteria and a verifier model never completes: whatever
    its attempts return, and whatever the auditor answers, it does not end OK. *)
Theorem audited_step_never_ok env stepID fired s st s' fired' st' :
  (∀ g, range_order (TaskGraph.Steps g) (ex_order env g)) →
  wf_graph (gs_graph s) → get_step (gs_graph s) stepID = Some st → exec_bounds st →
  Step.ExitCriteria st ≠ "" → Step.VerifierModel st ≠ "" → auditor_answers (ex_verify env) st →
  executeStep env stepID fired s = Some (s', fired') → get_step (gs_graph s') stepID = Some st' →
  Step.Status st' ≠ StepOK.
Proof.
  intros Ho Hw Hs Hb He Hv Ha Hx Hs' Hok.
  destruct (executeStep_post env stepID fired s st Ho Hw Hs Hb) as (s2 & f2 & Hx2 & st2 & H1 & H2 & _).
  rewrite Hx in Hx2. injection Hx2 as <- <-. rewrite Hs' in H1. injection H1 as <-.
  destruct (H2 Hok) as (n & sn & _ & step & result & sth & _ & _ & _ & _ & _ & Hp & Hacc).
  destruct (profile_fields _ _ Hp) as (Hid & _ & _ & Hec & Hvm & Hed).
  destruct (String.eqb_spec (Step.ExitCriteria sth) "") as [E|_]; [congruence|].
  pose proof (verified_step_fails (ex_verify env) (gs_graph (handled env stepID n result sn)) sth
    (SubagentOutput.Result (SpawnResult.Output result))) as Hv'.
  destruct (verifyExitCriteria _ _ _ _) as [v checked]. destruct Hacc as [Hpass _]. cbn [fst] in Hv'.
  rewrite Hv' in Hpass; [done|congruence|]. unfold auditor_answers in *. by rewrite Hid, Hed.
Qed.

(** ** The loop over executed steps *)

(** An engine whose steps succeed: no budget guard, no veto, and the first
    attempt is accepted. *)
Record accepting (env : ExecEnv) (r : SpawnResult.t) : Prop := mk_accepting {
  ac_budget : budget_margin (ex_out env) = None;
  ac_order : ∀ g, range_order (TaskGraph.Steps g) (ex_order env g);
  ac_attempt : at_reply (ex_attempt env 2) = inr r;
  ac_status : SubagentOutput.Status (SpawnResult.Output r) = StatusOK;
  ac_conf : fleb (ConfidenceThreshold (env_cfg (ex_out env))) (SubagentOutput.Confidence (SpawnResult.Output r)) = true;
  ac_guard : ∀ text schema, (ex_inspect env text schema).1 = true
}.
(** The tasks it is good for: a retry is left for every step, and no step has
    exit criteria. *)
Definition executable (st : Step.t) : Prop :=
  exec_bounds st ∧ (Step.RetryCount st ≤ Step.MaxRetries st)%Z ∧ Step.ExitCriteria st = "".
Definition executable_task (g : TaskGraph.t) : Prop := map_Forall (λ _, executable) (TaskGraph.Steps g).

Definition exec_step (env : ExecEnv) (s : GateState) (id : string) : GateState :=
  match executeStep env id None s with Some (s', _) => s' | None => s end.

(** One accepted attempt. *)
Lemma exec_step_accepted env r s id st :
  accepting env r → wf_graph (gs_graph s) → get_step (gs_graph s) id = Some st → executable st →
  completes id (gs_graph s) (gs_graph (exec_step env s id)) ∧
  ∃ st', get_step (gs_graph (exec_step env s id)) id = Some st' ∧ exec_profile st' = exec_profile st ∧
    counters st' = counters st.
Proof.
  intros [Hb Ho Ha Hst Hc Hg] Hw Hs (Hbd & Hr & He).
  destruct (started env id None s st Hw Hs) as (st1 & Hs1 & Hw1 & Hp1 & Hc1 & Hst1). cbn [budget_alert fst] in *.
  destruct (profile_fields _ _ Hp1) as (Hid1 & Hmr1 & _ & He1 & _). pose proof Hc1 as [= Hrc1 Hac1].
  set (s1 := mark_running env id s) in *.
  assert (gs_graph s1 = gs_graph (on_step id (λ st, st <| Step.Status := StepRunning |> <| Step.LastWorkedOn := ex_now env |>) s)) as Hgs1
    by done.
  destruct (handleOutput_after (ex_out env) (ex_order env (gs_graph s1)) (ex_tools env) (ex_decID env 2) id r s1 st1
    (Ho _) Hw1 Hs1) as (st2 & Hs2 & Hr2); [rewrite Hst1; left|].
  pose proof (handleOutput_ok (ex_out env) (ex_order env (gs_graph s1)) (ex_tools env) (ex_decID env 2) id r s1 st1
    Hs1 Hst Hc) as Hok.
  fold (handled env id 2 r s1) in Hs2, Hr2, Hok. set (s2 := handled env id 2 r s1) in *.
  assert (gs_graph (exec_step env s id) = gs_graph s2) as Hres.
  { unfold exec_step, executeStep, budget_block. rewrite Hb. cbn [budget_alert]. cbv zeta. fold s1.
    unfold attempt_fuel. rewrite Hs1. cbn [attempt_loop]. rewrite Hs1, decide_True by lia.
    unfold attempt, attempt_result. rewrite Ha. cbv zeta. unfold guardStepOutput. rewrite decide_False by (by rewrite Hst).
    match goal with |- context [ex_inspect env ?t ?sch] =>
      pose proof (Hg t sch) as Hgt; destruct (ex_inspect env t sch) as [? reason] end.
    cbn [fst] in Hgt. subst b. fold s2. unfold after_output. rewrite Hs2.
    destruct Hok as ((x & st' & Hx & Hst' & Hok' & _) & _). rewrite Hs2 in Hst'. injection Hst' as <-.
    destruct Hr2 as [(_ & Hp2 & _)|(Hn & _)]; [|done].
    destruct (profile_fields _ _ Hp2) as (_ & _ & _ & He2 & _).
    by rewrite bool_decide_true, He2, He1, He by done. }
  rewrite Hres. split.
  - destruct Hok as ((x & st' & Hx & Hst' & H1 & H2 & H3 & H4) & Hoth & Hpe & Hgst).
    rewrite Hs1 in Hx. injection Hx as <-.
    split; [exists st, st'; split_and!; try done|split; [|split]].
    + congruence.
    + rewrite H4. rewrite Hgs1, (on_step_here _ _ _ _ Hs) in Hs1. by injection Hs1 as <-.
    + intros j Hne. rewrite Hoth by done. rewrite Hgs1, get_step_on_step, decide_False by done. done.
    + by rewrite Hpe.
    + by rewrite Hgst.
  - exists st2. destruct Hok as ((x & st' & Hx & Hst' & Hok' & _) & _). rewrite Hs2 in Hst'. injection Hst' as <-.
    destruct Hr2 as [(_ & Hp2 & Hc2 & _)|(Hn & _)]; [|done]. split; [done|]. split; congruence.
Qed.

(** The step execution discharges what the loop asks of its executor. *)
#[export] Instance exec_step_executor env r : accepting env r → StepExecutor executable_task (exec_step env).
Proof.
  intros Ha. split; intros s id st Hg Hw Hs; pose proof (Hg id st Hs) as He;
    destruct (exec_step_accepted env r s id st Ha Hw Hs He) as (Hcomp & st' & Hs' & Hp & Hc); [exact Hcomp|].
  intros j x Hx. destruct (decide (j = id)) as [->|Hne].
  - unfold get_step in Hs'. rewrite Hx in Hs'. injection Hs' as ->.
    destruct (profile_fields _ _ Hp) as (_ & Hmr & Hma & Hec & _). injection Hc as Hc1 Hc2.
    destruct He as ((? & ? & ? & ?) & ? & ?). unfold executable, exec_bounds. rewrite Hmr, Hma, Hec, Hc1, Hc2. done.
  - destruct Hcomp as (_ & Hoth & _). specialize (Hoth j Hne). unfold get_step in Hoth. rewrite Hx in Hoth.
    symmetry in Hoth. by apply (Hg j).
Qed.

(** C3: End to end: the scheduler loop over the step execution.  On a healthy task
    (running, acyclic, steps pending or done) whose steps have a retry left and
    no exit criteria, with an engine whose spawner returns an accepted output,
    the loop executes every pending step and finalises the task as completed,
    whatever the iteration and interleaving orders. *)
Theorem accepted_task_completes env r order sched rank Pow now holds s :
  accepting env r →
  (∀ g, range_order (TaskGraph.Steps g) (order g)) → (∀ l, sched l ≡ₚ l) →
  healthy rank (gs_graph s) → executable_task (gs_graph s) →
  ∃ s', run_loop order sched (exec_step env) (S (size (pending_steps (gs_graph s)))) s = Some (s', RunFinalize) ∧
    (∀ id st, get_step (gs_graph s') id = Some st → dep_done (Step.Status st) = true) ∧
    TaskGraph.Status (gs_graph (finalize Pow (order (gs_graph s')) now holds s')) ∈
      [GraphCompleted; GraphCompletedWithSkips].
Proof.
  intros Ha Ho Hs Hh Hg. pose proof (exec_step_executor env r Ha).
  by apply (run_loop_done order sched (exec_step env) executable_task rank).
Qed.

(** ** Spent retries *)

(** The same engine with other attempts. *)
Definition with_attempts (env : ExecEnv) (a : nat → Attempt) : ExecEnv :=
  mkExecEnv (ex_out env) (ex_verify env) a (ex_inspect env) (ex_sanitize env) (ex_decID env) (ex_replan env)
    (ex_order env) (ex_tools env) (ex_now env).

Lemma spent_no_attempt env a stepID fuel n s st :
  get_step (gs_graph s) stepID = Some st → (Step.MaxRetries st < Step.RetryCount st)%Z →
  attempt_loop (with_attempts env a) stepID (S fuel) n s = Some (exhausted env stepID n s).
Proof. intros Hs Hr. cbn [attempt_loop]. rewrite Hs, decide_False by lia. reflexivity. Qed.

Lemma spent_execute env a stepID fired s st :
  wf_graph (gs_graph s) → get_step (gs_graph s) stepID = Some st → (Step.MaxRetries st < Step.RetryCount st)%Z →
  executeStep (with_attempts env a) stepID fired s =
  match budget_block env stepID s with
  | Some s' => Some (s', fired)
  | None => let '(s, fired) := budget_alert env stepID fired s in
            Some (exhausted env stepID 2 (mark_running env stepID s), fired)
  end.
Proof.
  intros Hw Hs Hr. destruct (started env stepID fired s st Hw Hs) as (st1 & Hs1 & _ & Hp & Hc & _).
  destruct (profile_fields _ _ Hp) as (_ & Hmr & _). injection Hc as Hc1 _.
  unfold executeStep.
  change (budget_block (with_attempts env a) stepID s) with (budget_block env stepID s).
  destruct (budget_block env stepID s); [done|].
  change (budget_alert (with_attempts env a) stepID fired s) with (budget_alert env stepID fired s).
  destruct (budget_alert env stepID fired s) as [s0 f0]. cbn [fst] in Hs1. cbv zeta.
  change (mark_running (with_attempts env a) stepID s0) with (mark_running env stepID s0).
  unfold attempt_fuel. rewrite Hs1.
  rewrite (spent_no_attempt env a stepID _ 2 _ st1); [done|done|lia].
Qed.

(** Answers that requeue a step without giving it a retry.  After "continue"
    or "modify_and_resume" on a step whose retries are spent the step is
    pending again, but executing it never spawns: the outcome does not depend
    on what an attempt would return, and no attempt settles it. *)
Theorem requeue_without_retry acfg aenv ord now hc taskID stepID choice payload dec g st env a b fired rec out :
  wf_graph g → get_step g stepID = Some st → (Step.MaxRetries st < Step.RetryCount st)%Z →
  choice ∈ ["continue"; "modify_and_resume"] →
  let g' := (applyDecisionChoiceLocked acfg aenv ord now hc taskID stepID choice payload dec g).1.1 in
  let s := mkGate g' rec out in
  Step.Status <$> get_step g' stepID = Some StepPending ∧
  executeStep (with_attempts env a) stepID fired s = executeStep (with_attempts env b) stepID fired s ∧
  ∃ s' fired', executeStep (with_attempts env a) stepID fired s = Some (s', fired').
Proof.
  intros Hw Hs Hr Hch g' s.
  assert (∃ st', get_step g' stepID = Some st' ∧ Step.Status st' = StepPending ∧
    Step.MaxRetries st' = Step.MaxRetries st ∧ Step.RetryCount st' = Step.RetryCount st) as (st' & Hs' & Hp & Hm & Hc).
  { unfold g', get_step in *.
    rewrite !elem_of_cons, elem_of_nil in Hch. destruct Hch as [->|[->|[]]]; unfold applyDecisionChoiceLocked; cbv zeta;
      rewrite ?(decide_False (P := _ = _)) by done; rewrite (decide_True (P := _ = _)) by done;
      cbn [fst]; rewrite upd_step_lookup, decide_True, Hs by done; eexists; (split; [done|]); [done|].
    unfold modify_choice. repeat case_match; done. }
  assert (wf_graph g') as Hw'.
  { unfold g'. rewrite !elem_of_cons, elem_of_nil in Hch. destruct Hch as [->|[->|[]]];
      unfold applyDecisionChoiceLocked; cbv zeta;
      rewrite ?(decide_False (P := _ = _)) by done; rewrite (decide_True (P := _ = _)) by done;
      cbn [fst]; apply wf_upd_step; try done. intros x. unfold modify_choice. repeat case_match; done. }
  split; [by rewrite Hs'; cbn; rewrite Hp|].
  rewrite !(spent_execute env _ stepID fired s st') by (done || lia). split; [done|].
  destruct (budget_block env stepID s); [by eexists _, _|].
  destruct (budget_alert env stepID fired s). by eexists _, _.
Qed.

(** ** Missing roles *)

(** The errors [attempt_error] looks at before it looks for a missing role. *)
Definition only_role_missing (e : SpawnError) : bool :=
  negb (contains "DYNAMIC_ESCALATION_REQUIRED" (se_text e)) && negb (contains ErrMaxTurnsExhausted (se_text e))
  && negb (se_rate_limit e) && bool_decide (se_bad_request e = None) && negb (auth_failure (se_text e))
  && negb (contains "missing dependency:" (se_text e)) && role_missing (se_text e).

Lemma attempt_error_role env stepID n e c s :
  only_role_missing e = true →
  attempt_error env stepID n e c s =
  (role_blocked env stepID n (se_text e) (record_error env stepID (se_text e) s), FlowReturn).
Proof.
  unfold only_role_missing. rewrite !andb_true_iff, !negb_true_iff, bool_decide_eq_true.
  intros ((((((H1 & H2) & H3) & H4) & H5) & H6) & H7). unfold attempt_error. cbv zeta.
  by rewrite H1, H2, H3, H4, H5, H6, H7.
Qed.

(** An attempt that finds its role missing puts the task back to running.
    Whatever status the task had meanwhile (a cancelled, failed or suspended
    task included), after the step has no failure policy to apply the task is
    running again, the step is blocked and a decision about it is parked. *)
Theorem role_missing_reopens env stepID n e c s st :
  wf_graph (gs_graph s) → get_step (gs_graph s) stepID = Some st → Step.FailurePolicy st = None →
  only_role_missing e = true →
  let s' := (attempt_error env stepID n e c s).1 in
  TaskGraph.Status (gs_graph s') = GraphRunning ∧
  Step.Status <$> get_step (gs_graph s') stepID = Some StepBlocked ∧
  ∃ dec, TaskGraph.PendingDecisions (gs_graph s') = TaskGraph.PendingDecisions (gs_graph s) ++ [dec] ∧
    Decision.StepID dec = stepID ∧ Decision.Type_ dec = DecisionStepFailed.
Proof.
  intros Hw Hs Hpol He s'. unfold s'. rewrite attempt_error_role by done. cbn [fst]. unfold role_blocked. cbv zeta.
  set (s1 := record_error env stepID (se_text e) s).
  assert (∃ st1, get_step (gs_graph s1) stepID = Some st1 ∧ Step.FailurePolicy st1 = None ∧ Step.ID st1 = Step.ID st)
    as (st1 & Hs1 & Hpol1 & Hid1).
  { unfold s1, record_error. rewrite (on_step_here _ _ _ _ Hs). eexists. split; [done|]. cbv zeta. by case_decide. }
  set (s2 := set_graph_status GraphRunning (set_step_status stepID StepBlocked s1)).
  assert (get_step (gs_graph s2) stepID = Some (st1 <| Step.Status := StepBlocked |>)) as Hs2
    by exact (set_status_here stepID StepBlocked s1 st1 Hs1).
  unfold applyStepFailurePolicy. rewrite Hs2. change (Step.FailurePolicy (st1 <| Step.Status := StepBlocked |>))
    with (Step.FailurePolicy st1). rewrite Hpol1. unfold ask.
  match goal with |- context [addDecision ?a ?b ?c ?d ?t ?f ?o s2] =>
    destruct (addDecision_cases a b c d _ t f o s2 Hs2) as [(Hf & _)|(_ & dec & _ & H2 & H3 & _ & H5 & _)] end.
  - change (isTerminalStatus GraphRunning = true) in Hf. done.
  - rewrite gs_persist, H5. split; [done|]. split.
    + change (Step.Status <$> get_step (gs_graph s2) stepID = Some StepBlocked). by rewrite Hs2.
    + exists dec. split; [done|]. split; [|done]. rewrite H2. cbn. rewrite Hid1. by apply Hw.
Qed.

(** ** The budget decision *)

Lemma filter_keeps_resume c m ctx admin :
  admin = true → filterOptionsForTier c m ctx ["resume"; "abort"] admin = ["resume"; "abort"].
Proof.
  intros ->. rewrite filterOptionsForTier_admin. destruct (decide (skip_withdrawn c m ctx)) as [Hw|Hw].
  - by rewrite filterSkipOptions_withdrawn.
  - by rewrite filterSkipOptions_kept.
Qed.

(** A task over its budget asks a question with an answer the engine does not
    know.  On a live task the step is blocked before any attempt, the task is
    paused and one decision is parked; a trusted submitter is offered "resume"
    and "abort", and the engine answers "resume" with an unknown-choice error
    on every graph. *)
Theorem budget_resume_unanswerable env stepID fired s st margin err :
  get_step (gs_graph s) stepID = Some st → budget_margin (ex_out env) = Some margin →
  CheckBudget margin (gs_graph s) = Some err → isTerminalStatus (TaskGraph.Status (gs_graph s)) = false →
  TaskGraph.SubmitterIsAdmin (gs_graph s) = true →
  ∃ s' dec, executeStep env stepID fired s = Some (s', fired) ∧
    Step.Status <$> get_step (gs_graph s') stepID = Some StepBlocked ∧ TaskGraph.BudgetPaused (gs_graph s') = true ∧
    TaskGraph.PendingDecisions (gs_graph s') = TaskGraph.PendingDecisions (gs_graph s) ++ [dec] ∧
    Decision.Type_ dec = DecisionBudgetExhausted ∧ Decision.Options dec = ["resume"; "abort"] ∧
    ∀ acfg aenv ord now hc taskID payload g,
      (applyDecisionChoiceLocked acfg aenv ord now hc taskID stepID "resume" payload dec g).2
      = Some (ErrUnknownChoice "resume").
Proof.
  intros Hs Hm He Hlive Hadm. unfold executeStep, budget_block. rewrite Hm, He. cbv zeta. unfold ask.
  match goal with |- context [addDecision ?a ?b ?c ?d ?t ?f ?o ?x] =>
    set (s1 := x); set (opts := o); set (ctx := f);
    assert (get_step (gs_graph s1) stepID = Some (st <| Step.Status := StepBlocked |>)) as Hs1
      by (apply set_status_here; exact Hs);
    destruct (addDecision_cases a b c d _ t ctx opts s1 Hs1) as [(Hf & _)|(_ & dec & _ & _ & H3 & H4 & H5 & _)] end.
  - change (isTerminalStatus (TaskGraph.Status (gs_graph s)) = true) in Hf. congruence.
  - match type of H5 with gs_graph ?x = _ => exists x, dec end. split; [reflexivity|]. rewrite H5. split; [|split; [done|split; [done|split; [done|split]]]].
    + change (Step.Status <$> get_step (gs_graph s1) stepID = Some StepBlocked). by rewrite Hs1.
    + rewrite H4. unfold offered_options. cbn [inject_rewrite]. by apply filter_keeps_resume.
    + intros. unfold applyDecisionChoiceLocked. cbv zeta.
      rewrite !(decide_False (P := "resume" = _)) by done. reflexivity.
Qed.

(** ** Witnesses *)

Definition ex_exec_env (reply : result string (option (gmap string any))) (a : nat → Attempt) : ExecEnv :=
  mkExecEnv ex_out_env (ex_verify_env reply) a (λ _ _, (true, "")) (λ s, s) (λ _, "d") ""
    (λ g, keys (TaskGraph.Steps g)) [] 5.
Definition fails_with (text : string) : Attempt := mkAttempt (inl (mkSpawnError text false None)) NotCancelled.
Definition answers (r : SpawnResult.t) : Attempt := mkAttempt (inr r) NotCancelled.

(** Two failures, then a result: three attempts are within the retries. *)
Definition ex_retry_env : ExecEnv :=
  ex_exec_env (Err "down") (λ n, if n <? 4 then fails_with "connection reset" else answers (ex_output StatusOK [])).
Definition ex_step : Step.t := (blankStep "a" StepPending []) <| Step.MaxRetries := 2%Z |>.
Definition ex_exec_state (st : Step.t) : GateState := mkGate (blankGraph "t" [st; blankStep "b" StepPending ["a"]]) ∅ [].

Definition status_of (r : option (GateState * option (gmap string (gset Z)))) (id : string) : option StepStatus :=
  match r with Some (s, _) => Step.Status <$> get_step (gs_graph s) id | None => None end.
Example retries_then_ok : status_of (executeStep ex_retry_env "a" None (ex_exec_state ex_step)) "a" = Some StepOK.
Proof. vm_compute. reflexivity. Qed.
Example retries_spent :
  status_of (executeStep (with_attempts ex_retry_env (λ _, fails_with "boom")) "a" None (ex_exec_state ex_step)) "a"
  = Some StepFailed.
Proof. vm_compute. reflexivity. Qed.

Lemma ex_bounds st :
  bool_decide (0 ≤ Step.RetryCount st ∧ 0 ≤ Step.AutoRefineCount st ∧ Step.MaxRetries st < int64_max ∧
    Step.MaxAutoRefine st ≤ int64_max)%Z = true → exec_bounds st.
Proof. by intros ?%bool_decide_eq_true. Qed.

Lemma executeStep_settles_witness :
  ∃ s' fired' st', executeStep ex_retry_env "a" None (ex_exec_state ex_step) = Some (s', fired') ∧
    get_step (gs_graph s') "a" = Some st' ∧ ((∀ n, quiet ex_retry_env n) → Step.Status st' ≠ StepRunning).
Proof.
  apply (executeStep_settles ex_retry_env "a" None (ex_exec_state ex_step) ex_step).
  - intros g. apply keys_range_order.
  - apply wf_graphb_true. vm_compute. reflexivity.
  - vm_compute. reflexivity.
  - apply ex_bounds. vm_compute. reflexivity.
Defined.

(** A step whose output must match "done": the first output does not and the step
    is refined, the second does. *)
Definition ex_checked : Step.t := ex_step <| Step.ExitCriteria := "regex:done" |> <| Step.MaxAutoRefine := 1%Z |>.
Definition ex_unsure : SpawnResult.t :=
  SpawnResult.mk (SubagentOutput.mk StatusOK float_one (Some {["summary" := AString "later"]}) [] [] [] [] "" None [] [] [] [] 0)
    "t:a" "model" [].
Definition ex_checked_env : ExecEnv :=
  ex_exec_env (Err "down") (λ n, answers (if n <? 3 then ex_unsure else ex_output StatusOK [])).
Definition ex_ok_state : GateState :=
  match executeStep ex_checked_env "a" None (ex_exec_state ex_checked) with Some (s, _) => s | None => ex_exec_state ex_step end.
Lemma ok_means_verified_witness :
  ∃ n sn, loop_at ex_checked_env "a" (mark_running ex_checked_env "a" (ex_exec_state ex_checked)) n sn ∧
    attempt_accepted ex_checked_env "a" ex_checked n sn ex_ok_state.
Proof.
  assert (Step.Status <$> get_step (gs_graph ex_ok_state) "a" = Some StepOK) as H by (vm_compute; reflexivity).
  apply fmap_Some in H as (st' & Hs' & Hok). symmetry in Hok.
  apply (ok_means_verified ex_checked_env "a" None (ex_exec_state ex_checked) ex_checked ex_ok_state None st').
  - intros g. apply keys_range_order.
  - apply wf_graphb_true. vm_compute. reflexivity.
  - vm_compute. reflexivity.
  - apply ex_bounds. vm_compute. reflexivity.
  - vm_compute. reflexivity.
  - exact Hs'.
  - exact Hok.
Defined.
(** Without a second round the same first output leaves the step blocked. *)
Example unmet_criteria_block :
  status_of (executeStep ex_checked_env "a" None (ex_exec_state (ex_checked <| Step.MaxAutoRefine := 0%Z |>))) "a"
  = Some StepBlocked.
Proof. vm_compute. reflexivity. Qed.

(** The auditor answers PASS; the step is refined twice and then blocked. *)
Definition ex_audited : Step.t :=
  ex_step <| Step.ExitCriteria := "done" |> <| Step.VerifierModel := "m" |> <| Step.MaxAutoRefine := 2%Z |>.
Definition ex_audit_env : ExecEnv :=
  ex_exec_env (Ok (Some {["raw" := AString "PASS"]})) (λ _, answers (ex_output StatusOK [])).
Definition ex_audit_state : GateState :=
  match executeStep ex_audit_env "a" None (ex_exec_state ex_audited) with Some (s, _) => s | None => ex_exec_state ex_step end.
Lemma audited_step_never_ok_witness :
  ∃ st', get_step (gs_graph ex_audit_state) "a" = Some st' ∧ Step.Status st' ≠ StepOK.
Proof.
  assert (is_Some (get_step (gs_graph ex_audit_state) "a")) as [st' Hs'] by (vm_compute; by eexists).
  exists st'. split; [exact Hs'|].
  apply (audited_step_never_ok ex_audit_env "a" None (ex_exec_state ex_audited) ex_audited ex_audit_state None st').
  - intros g. apply keys_range_order.
  - apply wf_graphb_true. vm_compute. reflexivity.
  - vm_compute. reflexivity.
  - apply ex_bounds. vm_compute. reflexivity.
  - discriminate.
  - discriminate.
  - right. intros prompt. eexists. reflexivity.
  - vm_compute. reflexivity.
  - exact Hs'.
Defined.
Example audited_step_blocks :
  (λ st, (Step.Status st, Step.AutoRefineCount st)) <$> get_step (gs_graph ex_audit_state) "a" = Some (StepBlocked, 2%Z).
Proof. vm_compute. reflexivity. Qed.

Definition ex_plain_env : ExecEnv :=
  let o := ex_out_env in
  mkExecEnv (mkOutEnv (env_cfg o) None (Some ∅) None (λ _ _ _, None) (λ _, "0.90") (λ _, "v") (λ _, 0%Z) None "ab12" 11)
    (ex_verify_env (Err "down")) (λ _, answers (ex_output StatusOK [])) (λ _ _, (true, "")) (λ s, s) (λ _, "d") ""
    (λ g, keys (TaskGraph.Steps g)) [] 5.
Lemma accepted_task_completes_witness :
  ∃ s', run_loop step_keys id (exec_step ex_plain_env) 3 (mkGate sch_graph ∅ []) = Some (s', RunFinalize) ∧
    TaskGraph.Status (gs_graph (finalize (λ x _, x) (step_keys (gs_graph s')) 9 true s')) ∈
      [GraphCompleted; GraphCompletedWithSkips].
Proof.
  destruct (accepted_task_completes ex_plain_env (ex_output StatusOK []) step_keys id sch_rank (λ x _, x) 9 true
    (mkGate sch_graph ∅ [])) as (s' & H1 & _ & H2).
  - split; try reflexivity. intros g. apply keys_range_order.
  - intros g. apply keys_range_order.
  - intros l. reflexivity.
  - constructor.
    + apply wf_graphb_true. vm_compute. reflexivity.
    + apply rankedb_true. vm_compute. reflexivity.
    + reflexivity.
    + reflexivity.
    + intros i s Hs.
      eapply (all_steps_true (λ _ s, bool_decide (Step.Status s = StepPending) || dep_done (Step.Status s))) in Hs;
        [|vm_compute; reflexivity].
      apply orb_true_iff in Hs. by rewrite bool_decide_eq_true in Hs.
  - intros i s Hs. unfold executable, exec_bounds.
    eapply (all_steps_true (λ _ s, bool_decide (0 ≤ Step.RetryCount s ∧ 0 ≤ Step.AutoRefineCount s ∧
      Step.MaxRetries s < int64_max ∧ Step.MaxAutoRefine s ≤ int64_max)%Z &&
      bool_decide (Step.RetryCount s ≤ Step.MaxRetries s)%Z && bool_decide (Step.ExitCriteria s = ""))) in Hs;
      [|vm_compute; reflexivity].
    rewrite !andb_true_iff, !bool_decide_eq_true in Hs. tauto.
  - exists s'. split; [exact H1|exact H2].
Defined.

Definition ex_spent : Step.t :=
  (blankStep "a" StepFailed []) <| Step.MaxRetries := 2%Z |> <| Step.RetryCount := 3%Z |>.
Lemma requeue_without_retry_witness :
  let g := (applyDecisionChoiceLocked None ex_env [] 5 false "t" "a" "modify_and_resume" "" ans_dec
              (gs_graph (ex_exec_state ex_spent))).1.1 in
  Step.Status <$> get_step g "a" = Some StepPending.
Proof.
  cbv zeta.
  refine (proj1 (requeue_without_retry None ex_env [] 5 false "t" "a" "modify_and_resume" "" ans_dec
    (gs_graph (ex_exec_state ex_spent)) ex_spent ex_retry_env (λ _, fails_with "x") (λ _, fails_with "y") None ∅ []
    _ _ _ _)).
  - apply wf_graphb_true. vm_compute. reflexivity.
  - vm_compute. reflexivity.
  - vm_compute. reflexivity.
  - right. left.
Defined.

Definition ex_role_error : SpawnError :=
  mkSpawnError ("role " +:+ go_quote "writer" +:+ " not found")%string false None.
Definition ex_cancelled : GateState :=
  mkGate ((blankGraph "t" [blankStep "a" StepRunning []]) <| TaskGraph.Status := GraphCancelled |>) ∅ [].
Lemma role_missing_reopens_witness :
  TaskGraph.Status (gs_graph (attempt_error ex_retry_env "a" 2 ex_role_error NotCancelled ex_cancelled).1) = GraphRunning.
Proof.
  refine (proj1 (role_missing_reopens ex_retry_env "a" 2 ex_role_error NotCancelled ex_cancelled
    (blankStep "a" StepRunning []) _ _ _ _)).
  - apply wf_graphb_true. vm_compute. reflexivity.
  - vm_compute. reflexivity.
  - reflexivity.
  - vm_compute. reflexivity.
Defined.

Definition ex_over_budget : GateState :=
  mkGate ((blankGraph "t" [ex_step]) <| TaskGraph.TokenBudget := 5000%Z |> <| TaskGraph.TokensUsed := 4000%Z |>
            <| TaskGraph.SubmitterIsAdmin := true |>) ∅ [].
Lemma budget_resume_unanswerable_witness :
  ∃ s' dec, executeStep ex_retry_env "a" None ex_over_budget = Some (s', None) ∧ Decision.Options dec = ["resume"; "abort"].
Proof.
  destruct (budget_resume_unanswerable ex_retry_env "a" None ex_over_budget ex_step 2000
    "token budget exceeded: used 4000/5000") as (s' & dec & H1 & _ & _ & _ & _ & H2 & _).
  - vm_compute. reflexivity.
  - reflexivity.
  - vm_compute. reflexivity.
  - reflexivity.
  - reflexivity.
  - exists s', dec. split; assumption.
Defined.
