(* ===== verification/AgentLoop.v ===== *)
(** * The loop of an agent ([doSpawn], core/spawner_dospawn.go, with
    core/spawner_vda.go, core/spawner_reroute.go, core/spawner_disclosure.go,
    core/spawner_output_constraints.go)

    A step is a sequence of turns: ask the candidates one after the other for a
    response, obey the directives in it, finish, remind the model, or run the tools
    it calls.  The requests sent so far are kept as a list, and what answers a
    request, the choice of a provider and the cancellation of the task are functions
    of it.  The prompt of the role, the audit of the context ([Compress]), the
    routing of the second turn ([Router]) and storage are arguments; generation
    parameters, images, learning from decisions, logs and metrics are left out. *)
From Stdlib Require Import Ascii SpecFloat.
From S2P Require Import Prelude FailureClass ToolNames Sanitizer Registry Output Sieve SliceSort Governance Compress Providers Router Effects ReadCache ToolCalls Turns StepExec.
Local Open Scope Z_scope.

(** ** Requests and endings *)

Module Sent.
Record t := mk { Config : WindowConfig.t; SystemBlocks : list ContentBlock.t; UserBlocks : list ContentBlock.t; System : string; User : string;
  MaxTokens : Z; bindings : list Router.MCPBinding.t; ForceToolCall : bool }.
End Sent.
Inductive reply := PFailed (e : Error) | PReplied (r : ProviderReply.t).
(** What becomes of a candidate before it is asked ([choose_provider]). *)
Inductive choice := CSkip | CUse | CFail (e : string).
Module SpawnResult.
Record t := mk { Output : SubagentOutput.t; ProviderID : string; ModelID : string; Ref : string; StatesVisited : list string; TurnsUsed : Z }.
End SpawnResult.
(** How a step ends, and whether its trace is stored; [Crashed]: the response is
    read though there is none. *)
Inductive ending := Finished (r : SpawnResult.t) (stored : bool) | Errored (e : Error) (stored : bool) | Crashed.

Module LoopEnv.
Record t := mk {
  tools : ToolEnv.t; flags : TurnFlags.t; decode : DecodeEnv; table : ProviderTable.t; role : string * string; candidate_env : CandidateEnv.t;
  choose : list Sent.t → nat → bool → choice;
  complete : list Sent.t → list string * reply;
  cancelled : list Sent.t → Z → bool; sleep_cancelled : list Sent.t → bool;
  build_prompt : list ToolInteraction.t → WindowConfig.t → result string (list ContentBlock.t);
  delegation_tools : list Router.MCPBinding.t → any;
  audit : WindowRequest.t → option AuditResult.t; squeeze : CompleteRequest.t → CompressionLevel → CompleteRequest.t * AuditResult.t;
  requested_output : Z; configured_output : Z; CompressionHint : string; DisableForceTool : bool; StagnationGraceTurns : Z; FSOnlyStreakLimit : Z;
  progressive : bool; initialBindings : list Router.MCPBinding.t; has_graph : bool;
  repairs : Error → list string; (** skills that repaired such an error *)
  reroute : string → list Router.MCPBinding.t; (** [Route] over the step's own bindings *)
  marshal_call : gmap string any → string; number : nat → option float64; history_order : gmap string (list string) → list string;
  ask : list Sent.t → list string → asked; (** the question of the guardian *)
  show_args : gmap string any → string; watchdog : list ToolCall.t → option string; screenshot : list Sent.t → string → option (list Attachment.t) }.
End LoopEnv.

(** What a step carries from turn to turn. *)
Module Loop.
Record t := mk {
  exec : Exec.t; userBlocks : list ContentBlock.t; sent : list Sent.t; sieveGuardianHits : Z; zeroEffectNudged : bool; midAbandonNudged : bool;
  lastResultHash : Z; consecutiveRepeatCount : Z; outputStagnationHinted : bool; stagnationHintAt : Z; consecutiveParseFailures : Z;
  fsOnlyTurnStreak : Z; emptyRespRetries : Z; stickyContext : string; calledTools : gset string; bindings : list Router.MCPBinding.t;
  effective : string * string }.
#[global] Instance t_eta : Eta t := λ s,
  mk (exec s) (userBlocks s) (sent s) (sieveGuardianHits s) (zeroEffectNudged s) (midAbandonNudged s) (lastResultHash s)
    (consecutiveRepeatCount s) (outputStagnationHinted s) (stagnationHintAt s) (consecutiveParseFailures s) (fsOnlyTurnStreak s)
    (emptyRespRetries s) (stickyContext s) (calledTools s) (bindings s) (effective s).
End Loop.

Definition maxConsecutiveDuplicates : Z := 3.
Definition maxEmptyRespRetries : Z := 2.

Section loop.
Context {SL : Sorter} (E : LoopEnv.t).
Abbreviation T := (LoopEnv.tools E).
Abbreviation F := (LoopEnv.flags E).
Abbreviation maxTurns := (TurnFlags.maxTurns (LoopEnv.flags E)).
Abbreviation capability := (TurnFlags.capability (LoopEnv.flags E)).

Definition trace_of (st : Loop.t) : list ToolInteraction.t := Exec.trace (Loop.exec st).
Definition add_block (b : ContentBlock.t) (st : Loop.t) : Loop.t := st <| Loop.userBlocks ::= λ l, l ++ [b] |>.
Definition step_candidates : list WindowConfig.t :=
  resolveCandidateConfig (LoopEnv.table E) (LoopEnv.role E) <$> buildCandidateConfigs (LoopEnv.candidate_env E).
Definition pool_and_model (cfg : WindowConfig.t) : string * string := (Registry.ProviderConfig.PoolID (WindowConfig.Config cfg), model_of cfg).
(** [failedOutput]: no provider, no turns. *)
Definition failed_result (reason : string) : SpawnResult.t := SpawnResult.mk (failedOutput capability reason) "" "" "" [] 0.
Definition ref_of : string := ToolEnv.taskID T +:+ ":" +:+ ToolEnv.stepID T.

(** ** Asking a candidate *)

Definition maybeAppendDisclosureHint (turn : Z) (st : Loop.t) : Loop.t :=
  if negb ((turn =? 0) && LoopEnv.progressive E) then st
  else
    let count_of b := match hub_GetMCP (ToolEnv.servers T) (Router.MCPBinding.MCPID b) with Some m => length (Router.MCPDef.AvailableTools m) | None => 0%nat end in
    let totalTools := sum_list (count_of <$> LoopEnv.initialBindings E) in
    let visible := sum_list ((λ b, length (Router.MCPBinding.AllowedTools b)) <$> Loop.bindings st) in
    if (visible + 5 <? totalTools)%nat
    then add_block (with_cached (line_end +:+ "[SYSTEM HINT]: I have over " +:+ pretty totalTools +:+ " specialized tools available but am currently exposing only the " +:+ pretty visible +:+
           " most relevant discovery/status tools to keep your context focused. Use discovery tools (list, search, status) to explore the environment; as your intent becomes more specific, I will automatically unlock the necessary specialized tools.")) st
    else st.
Definition force_tool (turn : Z) (st : Loop.t) : bool :=
  (turn <? maxTurns - 1) && bool_decide (trace_of st = []) && negb (LoopEnv.DisableForceTool E).
Definition output_budget : Z := spawnOutputBudget (LoopEnv.requested_output E) (LoopEnv.configured_output E).
(** The request is kept, then answered. *)
Definition send_request (turn : Z) (cfg : WindowConfig.t) (system : list ContentBlock.t) (st : Loop.t) : Loop.t * (list string * reply) :=
  let req := Sent.mk cfg system (prependSticky (Loop.userBlocks st) (Loop.stickyContext st)) (flattenContentBlocks system)
               (flattenContentBlocks (Loop.userBlocks st)) output_budget (Loop.bindings st) (force_tool turn st) in
  let st := st <| Loop.sent ::= λ l, l ++ [req] |> in
  (st, LoopEnv.complete E (Loop.sent st)).
(** What auditing makes of the system prompt and the history; the text of an
    escalation. *)
Definition text_block (t : string) : ContentBlock.t := ContentBlock.mk "text" t "" "" ∅.
Definition audited_request (cfg : WindowConfig.t) (system : list ContentBlock.t) (st : Loop.t) : list ContentBlock.t * Loop.t * option string :=
  let req := CompleteRequest.mk "" "" system (Loop.userBlocks st) [] [] [] [] (model_of cfg) [] [] in
  match LoopEnv.audit E (WindowRequest.mk req output_budget (LoopEnv.CompressionHint E) []) with
  | Some a =>
      if bool_decide (AuditResult.Decision a = LevelNone) then (system, st, None)
      else
        let '(r, res) := LoopEnv.squeeze E req (AuditResult.Decision a) in
        let '(system, st) :=
          if bool_decide (CompleteRequest.SystemBlocks r = []) && bool_decide (CompleteRequest.UserBlocks r = [])
          then (if String.eqb (CompleteRequest.System r) "" then system else [text_block (CompleteRequest.System r)],
                if String.eqb (CompleteRequest.User r) "" then st else st <| Loop.userBlocks := [text_block (CompleteRequest.User r)] |>)
          else (CompleteRequest.SystemBlocks r, st <| Loop.userBlocks := CompleteRequest.UserBlocks r |>) in
        (system, st, if bool_decide (AuditResult.Decision res = LevelCritical) then Some ("DYNAMIC_ESCALATION_REQUIRED: " +:+ AuditResult.ActionTaken res) else None)
  | None => (system, st, None)
  end.
Definition is_empty_reply (r : ProviderReply.t) : bool :=
  (ProviderReply.CompletionTokens r =? 0) && bool_decide (ProviderReply.ToolCalls r = []) && String.eqb (TrimSpace (ProviderReply.Text r)) "".
Definition delegated_result (system : list ContentBlock.t) (st : Loop.t) : SpawnResult.t :=
  SpawnResult.mk (SubagentOutput.mk StatusDelegationRequired (float_of_int 1)
    (Some (list_to_map [("system_prompt", AString (flattenContentBlocks system)); ("user_prompt", AString (flattenContentBlocks (Loop.userBlocks st)));
                        ("tool_definitions", LoopEnv.delegation_tools E (Loop.bindings st))]))
    [] [] [] [] capability None [] [] [] [] 0) "" "" "" [] 0.
Definition repair_advice (e : Error) (st : Loop.t) : Loop.t :=
  match LoopEnv.repairs E e with
  | [] => st
  | l => add_block (with_cached ("[ADVICE]: Encountered " +:+ go_quote (error_text e) +:+ ". Consider using these previously successful repair skills: " +:+ go_list l)) st
  end.

(** A candidate is given up for the next, answers, makes the turn start over, or
    ends the step. *)
Inductive tried := TryNext | Got (r : ProviderReply.t) | StartOver | EndStep (e : ending).
Definition settle_response (cfg : WindowConfig.t) (more : bool) (r : reply) (st : Loop.t) : Loop.t * tried :=
  match r with
  | PReplied resp =>
      if is_empty_reply resp then
        if more then (st, TryNext)
        else
          let n := Loop.emptyRespRetries st + 1 in
          let st := st <| Loop.emptyRespRetries := n |> in
          if n <=? maxEmptyRespRetries then (st, StartOver)
          else (st, EndStep (Errored (OtherError ("empty_response_zero_tokens: exhausted " +:+ pretty maxEmptyRespRetries +:+ " retries")) true))
      else (st <| Loop.effective := pool_and_model cfg |>, Got resp)
  | PFailed e => if isRetryableError e && more then (repair_advice e st, TryNext) else (st, EndStep (Errored e true))
  end.
(** The reply to the request, and after a context limit to the shortened one; its
    text is not watched for patterns. *)
Definition with_retry (turn : Z) (cfg : WindowConfig.t) (more : bool) (system : list ContentBlock.t) (r : reply) (st : Loop.t) : Loop.t * tried :=
  match r with
  | PFailed e =>
      if contains "DELEGATION_REQUIRED" (error_text e) then (st, EndStep (Finished (delegated_result system st) false))
      else if IsContextLimitError e then
        let '(blocks, changed) := compressUserBlocksToBudget (Loop.userBlocks st) (contextInputBudget cfg output_budget) in
        if changed then
          let '(st, (_, r)) := send_request turn cfg system (st <| Loop.userBlocks := blocks |>) in
          match r with
          | PReplied resp => (st <| Loop.effective := pool_and_model cfg |>, Got resp)
          | PFailed _ => settle_response cfg more r st
          end
        else settle_response cfg more r st
      else settle_response cfg more r st
  | PReplied _ => settle_response cfg more r st
  end.
(** A provider gives back the error of the function that takes its chunks. *)
Definition ask_candidate (turn : Z) (cfg : WindowConfig.t) (more : bool) (st : Loop.t) : Loop.t * tried :=
  match LoopEnv.build_prompt E (trace_of st) cfg with
  | Err msg => (st, EndStep (Finished (failed_result ("failed to render prompt: " +:+ msg)) false))
  | Ok system =>
      let '(system, st, escalation) := audited_request cfg system (maybeAppendDisclosureHint turn st) in
      match escalation with
      | Some msg => (st, EndStep (Errored (OtherError msg) false))
      | None =>
          let '(st, (chunks, r)) := send_request turn cfg system st in
          with_retry turn cfg more system (if pattern_brake "" chunks then PFailed (OtherError "ErrPatternLoopBrake") else r) st
      end
  end.
(** The candidates in order; [None]: all were given up. *)
Fixpoint try_candidates (turn : Z) (idx : nat) (cfgs : list WindowConfig.t) (st : Loop.t) : Loop.t * option tried :=
  match cfgs with
  | [] => (st, None)
  | cfg :: cfgs =>
      let more := negb (bool_decide (cfgs = [])) in
      match LoopEnv.choose E (Loop.sent st) idx more with
      | CSkip => try_candidates turn (S idx) cfgs st
      | CFail e => (st, Some (EndStep (Errored (OtherError e) false)))
      | CUse =>
          let '(st, r) := ask_candidate turn cfg more st in
          match r with TryNext => try_candidates turn (S idx) cfgs st | _ => (st, Some r) end
      end
  end.

(** ** A turn *)

(** The step's end for a heartbeat. *)
Definition heartbeat_result (status : SubagentStatus) (confidence : float64) (key report : string) (turn : Z) (st : Loop.t) : SpawnResult.t :=
  SpawnResult.mk (SubagentOutput.mk status confidence (Some {[key := AString report]}) [] [] [] [] capability None [] [] [] [] 0)
    (Loop.effective st).1 (Loop.effective st).2 "" [] (turn + 1).
Definition result_of (o : SubagentOutput.t) (turnsUsed : Z) (st : Loop.t) : SpawnResult.t :=
  SpawnResult.mk o (Loop.effective st).1 (Loop.effective st).2 ref_of (Exec.statesVisited (Loop.exec st)) turnsUsed.
Definition decision_id (turn : Z) (text : string) : string :=
  if LoopEnv.has_graph E && bool_decide (is_Some (first_match thoughtRe text)) then "dec_" +:+ ToolEnv.stepID T +:+ "_" +:+ pretty turn else "".
Definition turn_state (st : Loop.t) : spawnTurnState.t :=
  spawnTurnState.mk (Loop.consecutiveParseFailures st) (Loop.zeroEffectNudged st) (Loop.midAbandonNudged st) (Loop.userBlocks st).
Definition from_turn_state (s : spawnTurnState.t) (st : Loop.t) : Loop.t :=
  st <| Loop.consecutiveParseFailures := spawnTurnState.consecutiveParseFailures s |> <| Loop.zeroEffectNudged := spawnTurnState.zeroEffectNudged s |>
     <| Loop.midAbandonNudged := spawnTurnState.midAbandonNudged s |> <| Loop.userBlocks := spawnTurnState.userBlocks s |>.

(** The turn is over, or the step is. *)
Inductive turn_end := NextTurn | Stop (e : ending).
(** Answering with text only. *)
Definition answer_turn (turn : Z) (resp : ProviderReply.t) (st : Loop.t) : Loop.t * turn_end :=
  match completeTurn (LoopEnv.decode E) F turn resp (trace_of st) (turn_state st) with
  | Reminded s => (from_turn_state s st, NextTurn)
  | Completed o stored => (st, Stop (Finished (result_of o (turn + 1) st) stored))
  end.
(** The request of the guardian for a best answer, to the provider that was asked
    last, without tools; none when that provider is not there. *)
Definition SysPromptBestAnswer : string := "Provide your best answer based on the information available in the conversation.".
Definition best_answer_request (out : turnOutcome) (st : Loop.t) : list Sent.t :=
  match out, last (Loop.sent st) with
  | TurnDone _ _, Some s =>
      match LoopEnv.ask E (Loop.sent st) ((ContentBlock.Text <$> Loop.userBlocks st) ++ [SpawnerLoopPersistMsg]) with
      | NoProvider => []
      | _ => [Sent.mk (Sent.Config s) [] (Loop.userBlocks st ++ [with_text SpawnerLoopPersistMsg]) SysPromptBestAnswer "" output_budget [] false]
      end
  | _, _ => []
  end.
(** The guardian over the calls of the turn: the state of the sieve, what it says
    to the model, the request it makes, how it ends. *)
Definition guard_calls (turn : Z) (calls : list ToolCall.t) (st : Loop.t) : Loop.t * option turn_end :=
  let '(sv, gst, out) := sieveGuardianTurn (LoopEnv.marshal_call E) (LoopEnv.number E) (LoopEnv.history_order E) (LoopEnv.ask E (Loop.sent st)) (LoopEnv.decode E)
    (ToolEnv.taskID T) (ToolEnv.stepID T) capability turn ((λ c, (ToolCall.Name c, ToolCall.Arguments c)) <$> calls)
    (sieveTurnState.mk (Loop.sieveGuardianHits st) (ContentBlock.Text <$> Loop.userBlocks st)) (Exec.sieve (Loop.exec st)) in
  let said := drop (length (Loop.userBlocks st)) (sieveTurnState.userBlocks gst) in
  let st := st <| Loop.exec ::= λ x, x <| Exec.sieve := sv |> |> <| Loop.sieveGuardianHits := sieveTurnState.sieveGuardianHits gst |>
               <| Loop.userBlocks ::= λ l, l ++ (with_text <$> said) |> <| Loop.sent ::= λ l, l ++ best_answer_request out st |> in
  (st, match out with
       | TurnGoesOn => None
       | TurnSkipped => Some NextTurn
       | TurnDone o 0 => Some (Stop (Finished (SpawnResult.mk o "" "" "" [] 0) false))
       | TurnDone o turnsUsed => Some (Stop (Finished (result_of o turnsUsed st) false))
       end).
(** Turns with the same calls and results, one after the other. *)
Definition stagnation (calls : list ToolCall.t) (toolResults : list string) (st : Loop.t) : Loop.t * option SubagentOutput.t :=
  if bool_decide (toolResults = []) then (st, None)
  else
    match computeTurnHash (ToolEnv.marshal T) (LoopEnv.show_args E) (with_inputs T <$> calls) toolResults with
    | None => (st <| Loop.lastResultHash := 0 |> <| Loop.consecutiveRepeatCount := 0 |>, None)
    | Some h =>
        let n := if h =? Loop.lastResultHash st then Loop.consecutiveRepeatCount st + 1 else 1 in
        let st := st <| Loop.lastResultHash := h |> <| Loop.consecutiveRepeatCount := n |> in
        let '(hint, kill) := handleStagnationTurn n (LoopEnv.StagnationGraceTurns E) (Loop.stagnationHintAt st) maxConsecutiveDuplicates
                               (Loop.outputStagnationHinted st) (trace_of st) capability in
        (if String.eqb hint "" then st
         else add_block (with_text hint) (st <| Loop.outputStagnationHinted := true |> <| Loop.stagnationHintAt := n |>), kill)
    end.
(** A screenshot by the first server that can take one; what is said of it. *)
Definition runForcedVisualAudit (st : Loop.t) : list string :=
  if Exec.needsVerification (Loop.exec st) then
    let takes b := match hub_GetMCP (ToolEnv.servers T) (Router.MCPBinding.MCPID b) with
                   | Some m => containsStr (Router.MCPDef.AvailableTools m) "capture_screenshot" | None => false end in
    match List.find takes (Loop.bindings st) with
    | Some b => match LoopEnv.screenshot E (Loop.sent st) (Router.MCPBinding.MCPID b) with
                | Some _ => ["System: Automatic verification screenshot captured."] | None => [] end
    | None => []
    end
  else [].
Definition fresh_turn (x : Exec.t) : Exec.t :=
  x <| Exec.toolResults := [] |> <| Exec.stickyResults := [] |> <| Exec.needsVerification := false |> <| Exec.turnAttachments := [] |>.
(** After the tools ran. *)
Definition observe_turn (turn : Z) (resp : ProviderReply.t) (st : Loop.t) : Loop.t * turn_end :=
  let calls := ProviderReply.ToolCalls resp in
  let st := st <| Loop.calledTools ::= λ s, list_to_set (ToolCall.Name <$> calls) ∪ s |> in
  let '(st, kill) := stagnation calls (Exec.toolResults (Loop.exec st)) st in
  match kill with
  | Some o => (st, Stop (Finished (SpawnResult.mk o "" "" "" [] 0) false))
  | None =>
      let st := st <| Loop.stickyContext ::= λ c, accumulateSticky c (Exec.stickyResults (Loop.exec st)) |> in
      let alert := match LoopEnv.watchdog E calls with Some m => [line_end +:+ m] | None => [] end in
      let toolResults := Exec.toolResults (Loop.exec st) ++ alert ++ runForcedVisualAudit st in
      let routed := if turn =? 0 then LoopEnv.reroute E (ToolEnv.Task T +:+ " " +:+ ProviderReply.Text resp) else Loop.bindings st in
      let st := st <| Loop.bindings := stickyUnionBindings routed (LoopEnv.initialBindings E) (Loop.calledTools st) |>
                   <| Loop.userBlocks ::= λ l, appendTurnObservation l (ProviderReply.Text resp) toolResults (Exec.needsVerification (Loop.exec st)) |> in
      let '(streak, stalled) := fsOnlyStallGuard calls (Loop.fsOnlyTurnStreak st) (LoopEnv.FSOnlyStreakLimit E) in
      (st <| Loop.fsOnlyTurnStreak := streak |>,
       match stalled with Some msg => Stop (Errored (OtherError msg) true) | None => NextTurn end)
  end.
Definition run_tools (turn : Z) (resp : ProviderReply.t) (st : Loop.t) : Loop.t * turn_end :=
  let calls := ProviderReply.ToolCalls resp in
  let '(st, guarded) := guard_calls turn calls st in
  match guarded with
  | Some e => (st, e)
  | None =>
      observe_turn turn resp
        (st <| Loop.exec ::= λ x, processToolCalls T (Loop.bindings st) (decision_id turn (ProviderReply.Text resp)) calls (fresh_turn x) |>)
  end.
Definition use_response (turn : Z) (resp : ProviderReply.t) (st : Loop.t) : Loop.t * turn_end :=
  match parseHeartbeat (ProviderReply.Text resp) with
  | HeartbeatComplete report => (st, Stop (Finished (heartbeat_result StatusOK (float_of_int 1) "report" report turn st) false))
  | HeartbeatFail report => (st, Stop (Finished (heartbeat_result StatusFailed f_0_1 "error" report turn st) false))
  | HeartbeatSleep _ wake =>
      if LoopEnv.sleep_cancelled E (Loop.sent st) then (st, Stop (Finished (failed_result "heartbeat sleep interrupted: task cancelled") false))
      else (if String.eqb wake "" then st else add_block (text_block ("[Heartbeat WakePrompt]" +:+ line_end +:+ wake)) st, NextTurn)
  | HeartbeatNone =>
      if bool_decide (ProviderReply.ToolCalls resp = []) then answer_turn turn resp st else run_tools turn resp st
  end.
Definition take_turn (turn : Z) (st : Loop.t) : Loop.t * turn_end :=
  if LoopEnv.cancelled E (Loop.sent st) turn then (st, Stop (Finished (failed_result "context cancelled: context canceled") false))
  else
    let '(st, r) := try_candidates turn 0 step_candidates st in
    match r with
    | Some (Got resp) => use_response turn resp st
    | Some StartOver => (st, NextTurn)
    | Some (EndStep e) => (st, Stop e)
    | Some TryNext | None => (st, Stop Crashed)
    end.

(** ** The turns of a step *)

Definition max_turns_error (st : Loop.t) : Error :=
  OtherError (ErrMaxTurnsExhausted +:+ ": tool execution loop reached max turns (" +:+ pretty maxTurns +:+ ") without a final answer; " +:+
              pretty (length (trace_of st)) +:+ " tool interaction(s) executed").
Fixpoint turns_from (n : nat) (turn : Z) (st : Loop.t) : Loop.t * ending :=
  match n with
  | O => (st, Errored (max_turns_error st) true)
  | S n => let '(st, e) := take_turn turn st in match e with NextTurn => turns_from n (turn + 1) st | Stop e => (st, e) end
  end.
(** [prepareSpawn] gives the history and the routed bindings; [exec]: what the
    spawner keeps from one step to the next. *)
Definition fresh_step (x : Exec.t) : Exec.t :=
  Exec.mk [] [] [] ∅ ∅ ∅ ∅ false [] [] "" (Exec.sieve x) (Exec.cache x) (Exec.taskFails x) (Exec.effects x) (Exec.history x).
Definition start_loop (exec : Exec.t) (userBlocks : list ContentBlock.t) (bindings : list Router.MCPBinding.t) : Loop.t :=
  Loop.mk (fresh_step exec) userBlocks [] 0 false false 0 0 false 0 0 0 0 "" ∅ bindings ("", "").
Definition doSpawn (exec : Exec.t) (userBlocks : list ContentBlock.t) (bindings : list Router.MCPBinding.t) : Loop.t * ending :=
  turns_from (Z.to_nat maxTurns) 0 (start_loop exec userBlocks bindings).
End loop.

(** * Properties *)

Section properties.
Context {SL : Sorter} (E : LoopEnv.t).
Abbreviation grace := (LoopEnv.StagnationGraceTurns E).
Abbreviation streak_limit := (LoopEnv.FSOnlyStreakLimit E).
Abbreviation cands := (step_candidates E).

(** The guards of a state at the start of a turn. *)
Record guarded (st : Loop.t) : Prop := guarded_intro {
  guarded_sieve : 0 <= Loop.sieveGuardianHits st <= 1;
  guarded_parse : 0 <= Loop.consecutiveParseFailures st < maxConsecutiveParseFailures;
  guarded_empty : 0 <= Loop.emptyRespRetries st <= maxEmptyRespRetries;
  guarded_repeat : 0 <= Loop.consecutiveRepeatCount st <= maxConsecutiveDuplicates + (if Loop.outputStagnationHinted st then 1 + Z.max 0 grace else 0);
  guarded_hint : Loop.outputStagnationHinted st = true → Loop.stagnationHintAt st = maxConsecutiveDuplicates + 1;
  guarded_fs : 0 <= Loop.fsOnlyTurnStreak st ∧ (0 < streak_limit → Loop.fsOnlyTurnStreak st < streak_limit) }.

(** Asking candidates sends at most [k] requests and leaves all but the history,
    the provider and the count of empty replies as it is. *)
Record asked_only (k : nat) (st st' : Loop.t) : Prop := asked_intro {
  asked_exec : Loop.exec st' = Loop.exec st;
  asked_sieve : Loop.sieveGuardianHits st' = Loop.sieveGuardianHits st;
  asked_parse : Loop.consecutiveParseFailures st' = Loop.consecutiveParseFailures st;
  asked_count : Loop.consecutiveRepeatCount st' = Loop.consecutiveRepeatCount st;
  asked_hinted : Loop.outputStagnationHinted st' = Loop.outputStagnationHinted st;
  asked_hint : Loop.stagnationHintAt st' = Loop.stagnationHintAt st;
  asked_fs : Loop.fsOnlyTurnStreak st' = Loop.fsOnlyTurnStreak st;
  asked_sent : (length (Loop.sent st') <= length (Loop.sent st) + k)%nat;
  asked_log : Loop.sent st `prefix_of` Loop.sent st' }.
Lemma asked_refl st : asked_only 0 st st.
Proof. split; (done || lia). Qed.
Lemma asked_trans k1 k2 a b c : asked_only k1 a b → asked_only k2 b c → asked_only (k1 + k2) a c.
Proof. intros [] []. split; first [congruence|lia|by etrans]. Qed.
Lemma asked_weaken k k' a b : asked_only k a b → (k <= k')%nat → asked_only k' a b.
Proof. intros [] ?. split; (done || lia). Qed.
Lemma asked_guarded k st st' : asked_only k st st' → guarded st → 0 <= Loop.emptyRespRetries st' <= maxEmptyRespRetries → guarded st'.
Proof. intros [E1 E2 E3 E4 E5 E6 E7 E8 E9] [] He. split; rewrite ?E2, ?E3, ?E4, ?E5, ?E6, ?E7; done. Qed.
Lemma asked_trace k st st' : asked_only k st st' → trace_of st' = trace_of st.
Proof. intros []. unfold trace_of. congruence. Qed.

Lemma hint_asked turn st : asked_only 0 st (maybeAppendDisclosureHint E turn st) ∧ Loop.emptyRespRetries (maybeAppendDisclosureHint E turn st) = Loop.emptyRespRetries st.
Proof. unfold maybeAppendDisclosureHint. destruct (negb _); [by split; [apply asked_refl|]|]. destruct (_ <? _)%nat; (split; [by split; try done; cbn; lia|done]). Qed.
Lemma audited_asked cfg system st : let '(_, st', _) := audited_request E cfg system st in asked_only 0 st st' ∧ Loop.emptyRespRetries st' = Loop.emptyRespRetries st.
Proof.
  unfold audited_request. destruct (LoopEnv.audit E _) as [a|]; [|by split; [apply asked_refl|]]. case_bool_decide; [by split; [apply asked_refl|]|].
  destruct (LoopEnv.squeeze E _ _) as [r res]. destruct (_ && _); [|by split; [split; try done; cbn; lia|]].
  destruct (String.eqb (CompleteRequest.User r) ""); (split; [by split; try done; cbn; lia|done]).
Qed.
Lemma send_asked turn cfg system st :
  let '(st', _) := send_request E turn cfg system st in asked_only 1 st st' ∧ Loop.emptyRespRetries st' = Loop.emptyRespRetries st.
Proof. unfold send_request. cbv zeta. split; [|done]. split; try done; cbn; [rewrite length_app; cbn; lia|]. by apply prefix_app_r. Qed.
(** The count of empty replies after an answer: one more if the turn starts over. *)
Definition retries_ok (st st' : Loop.t) (r : tried) : Prop :=
  match r with
  | EndStep _ => True
  | StartOver => Loop.emptyRespRetries st' = Loop.emptyRespRetries st + 1 ∧ Loop.emptyRespRetries st' <= maxEmptyRespRetries
  | _ => Loop.emptyRespRetries st' = Loop.emptyRespRetries st
  end.
Lemma settle_asked cfg more r st : let '(st', t) := settle_response E cfg more r st in asked_only 0 st st' ∧ retries_ok st st' t.
Proof.
  unfold settle_response. destruct r as [e|resp].
  - destruct (_ && _); [|by split; [apply asked_refl|]]. unfold repair_advice. destruct (LoopEnv.repairs E e); [by split; [apply asked_refl|]|].
    split; [by split; try done; cbn; lia|done].
  - destruct (is_empty_reply resp); [|by split; [split; try done; cbn; lia|]]. destruct more; [by split; [apply asked_refl|]|].
    cbv zeta. destruct (_ <=? _) eqn:Hn; (split; [by split; try done; cbn; lia|]); [|done]. unfold retries_ok. unfold update. cbn. lia.
Qed.
Lemma retries_same a b c t : Loop.emptyRespRetries b = Loop.emptyRespRetries a → retries_ok b c t → retries_ok a c t.
Proof. unfold retries_ok. destruct t; congruence || (intros ->; done). Qed.
Lemma then_settle k cfg more r a b : asked_only k a b → Loop.emptyRespRetries b = Loop.emptyRespRetries a →
  let '(c, t) := settle_response E cfg more r b in asked_only k a c ∧ retries_ok a c t.
Proof.
  intros Hk Hr. pose proof (settle_asked cfg more r b) as H. destruct (settle_response E cfg more r b) as [c t]. destruct H as [H1 H2]. split.
  - eapply asked_weaken; [exact (asked_trans _ _ _ _ _ Hk H1)|lia].
  - by eapply retries_same.
Qed.
Lemma retry_asked turn cfg more system r a b : asked_only 1 a b → Loop.emptyRespRetries b = Loop.emptyRespRetries a →
  let '(c, t) := with_retry E turn cfg more system r b in asked_only 2 a c ∧ retries_ok a c t.
Proof.
  intros Hk Hr. pose proof (asked_weaken 1 2 _ _ Hk ltac:(lia)) as Hk2. unfold with_retry. destruct r as [e|resp]; [|by apply then_settle].
  destruct (contains _ _); [by split|]. destruct (IsContextLimitError e); [|by apply then_settle].
  destruct (compressUserBlocksToBudget _ _) as [blocks changed]. destruct changed; [|by apply then_settle].
  set (b1 := b <| Loop.userBlocks := blocks |>). assert (asked_only 0 b b1) as H1 by (split; try done; cbn; lia).
  pose proof (send_asked turn cfg system b1) as H2. destruct (send_request E turn cfg system b1) as [b2 [chunks r2]]. destruct H2 as [H2 H3].
  pose proof (asked_trans _ _ _ _ _ Hk (asked_trans _ _ _ _ _ H1 H2)) as H4. assert (Loop.emptyRespRetries b2 = Loop.emptyRespRetries a) as H5 by (by rewrite H3).
  destruct r2 as [e2|resp2]; [by apply then_settle|]. split; [|done]. eapply asked_weaken; [eapply (asked_trans _ 0); [exact H4|split; try done; cbn; lia]|lia].
Qed.
Lemma candidate_asked turn cfg more st : let '(st', t) := ask_candidate E turn cfg more st in asked_only 2 st st' ∧ retries_ok st st' t.
Proof.
  unfold ask_candidate. destruct (LoopEnv.build_prompt E _ cfg) as [system|msg]; [|split; [eapply asked_weaken; [apply asked_refl|lia]|done]].
  destruct (hint_asked turn st) as [H1 R1]. set (st1 := maybeAppendDisclosureHint E turn st) in *.
  pose proof (audited_asked cfg system st1) as H2. destruct (audited_request E cfg system st1) as [[system' st2] escalation]. destruct H2 as [H2 R2].
  pose proof (asked_trans _ _ _ _ _ H1 H2) as H3. destruct escalation; [split; [eapply asked_weaken; [exact H3|lia]|done]|].
  pose proof (send_asked turn cfg system' st2) as H4. destruct (send_request E turn cfg system' st2) as [st3 [chunks r]]. destruct H4 as [H4 R4].
  apply retry_asked; [exact (asked_trans _ _ _ _ _ H3 H4)|congruence].
Qed.
(** The last candidate is never given up. *)
Lemma settle_last cfg r st : (settle_response E cfg false r st).2 ≠ TryNext.
Proof.
  unfold settle_response. destruct r as [e|resp]; [by rewrite andb_false_r|]. destruct (is_empty_reply resp); [|done]. cbv zeta. by destruct (_ <=? _).
Qed.
Lemma retry_last turn cfg system r st : (with_retry E turn cfg false system r st).2 ≠ TryNext.
Proof.
  unfold with_retry. destruct r as [e|resp]; [|apply settle_last]. destruct (contains _ _); [done|]. destruct (IsContextLimitError e); [|apply settle_last].
  destruct (compressUserBlocksToBudget _ _) as [blocks changed]. destruct changed; [|apply settle_last].
  destruct (send_request E _ _ _ _) as [st' [chunks [e'|resp]]]; [apply settle_last|done].
Qed.
Lemma candidate_last turn cfg st : (ask_candidate E turn cfg false st).2 ≠ TryNext.
Proof.
  unfold ask_candidate. destruct (LoopEnv.build_prompt E _ cfg); [|done]. destruct (audited_request E _ _ _) as [[system st'] [msg|]]; [done|].
  destruct (send_request E _ _ _ _) as [st'' [chunks r]]. apply retry_last.
Qed.
Definition retries_some (st st' : Loop.t) (r : option tried) : Prop := match r with Some t => retries_ok st st' t | None => True end.
Lemma candidates_asked turn cfgs : ∀ idx st,
  let '(st', r) := try_candidates E turn idx cfgs st in asked_only (2 * length cfgs) st st' ∧ retries_some st st' r.
Proof.
  induction cfgs as [|cfg cfgs IH]; intros idx st; cbn [try_candidates]; [by split; [apply asked_refl|]|].
  destruct (LoopEnv.choose E _ _ _) as [| |e].
  - specialize (IH (S idx) st). destruct (try_candidates E turn (S idx) cfgs st) as [st' r]. destruct IH as [H1 H2]. split; [|done].
    eapply asked_weaken; [exact H1|cbn [length]; lia].
  - pose proof (candidate_asked turn cfg (negb (bool_decide (cfgs = []))) st) as H. destruct (ask_candidate E _ _ _ st) as [st1 t]. destruct H as [H1 H2].
    destruct t; try (split; [eapply asked_weaken; [exact H1|cbn [length]; lia]|exact H2]).
    specialize (IH (S idx) st1). destruct (try_candidates E turn (S idx) cfgs st1) as [st' r]. destruct IH as [H3 H4]. split.
    + eapply asked_weaken; [exact (asked_trans _ _ _ _ _ H1 H3)|cbn [length]; lia].
    + destruct r as [t|]; [|done]. eapply retries_same; [exact H2|exact H4].
  - split; [eapply asked_weaken; [apply asked_refl|lia]|done].
Qed.
(** The law of the choice: the last candidate is not passed over. *)
Definition keeps_last : Prop := ∀ sent idx, LoopEnv.choose E sent idx false ≠ CSkip.
Lemma candidates_settle turn cfgs : keeps_last → cfgs ≠ [] → ∀ idx st,
  let '(_, r) := try_candidates E turn idx cfgs st in r ≠ None ∧ r ≠ Some TryNext.
Proof.
  intros Hlast. induction cfgs as [|cfg cfgs IH]; [done|]. intros _ idx st. cbn [try_candidates].
  destruct (decide (cfgs = [])) as [->|Hne].
  - rewrite bool_decide_eq_true_2 by done. cbn [negb]. destruct (LoopEnv.choose E _ _ _) as [| |e] eqn:Hc; [by apply Hlast in Hc| |done].
    pose proof (candidate_last turn cfg st) as H. destruct (ask_candidate E turn cfg false st) as [st1 t]. cbn [snd] in H. destruct t; try done.
  - specialize (IH Hne). destruct (LoopEnv.choose E _ _ _) as [| |e]; [apply IH| |done].
    destruct (ask_candidate E _ _ _ st) as [st1 t]. destruct t; try done. apply IH.
Qed.
Lemma candidates_nonempty : cands ≠ [].
Proof. unfold step_candidates, buildCandidateConfigs. by destruct (existsb _ _). Qed.

(** ** What a turn makes of a response *)

Lemma parse_failed_ext o o' : SubagentOutput.Assumptions o' = SubagentOutput.Assumptions o → parse_failed o' = parse_failed o.
Proof. unfold parse_failed. by intros ->. Qed.
Lemma complete_reminded env F turn resp trace st s : 0 <= spawnTurnState.consecutiveParseFailures st →
  completeTurn env F turn resp trace st = Reminded s → 0 <= spawnTurnState.consecutiveParseFailures s < maxConsecutiveParseFailures.
Proof.
  intros H0. unfold completeTurn. cbv zeta. set (o := _ <| SubagentOutput.Usage_ := _ |>). set (st1 := st <| spawnTurnState.consecutiveParseFailures ::= _ |>).
  assert (0 <= spawnTurnState.consecutiveParseFailures st1) as H1.
  { change (0 <= (if parse_failed o then spawnTurnState.consecutiveParseFailures st + 1 else 0)). destruct (parse_failed o); lia. }
  destruct (maxConsecutiveParseFailures <=? _) eqn:E1; [done|].
  assert (0 <= spawnTurnState.consecutiveParseFailures st1 < maxConsecutiveParseFailures) as H by lia. clearbody st1.
  destruct (hasMalformedToolCallTag _); [by intros [= <-]|]. destruct (noToolNudge _ _ _ _); [by intros [= <-]|].
  destruct (zeroEffectGate _ _ _ _ _); [by intros [= <-]|]. destruct (midAbandonGate _ _ _ _ _); by intros [= <-].
Qed.
Lemma complete_ok env F turn resp trace st o stored : completeTurn env F turn resp trace st = Completed o stored →
  SubagentOutput.Status o = StatusOK → TurnFlags.hasTools F = true → (trace ≠ [] ∧ stored = true) ∨ parse_failed o = true.
Proof.
  unfold completeTurn. cbv zeta. set (o1 := _ <| SubagentOutput.Usage_ := _ |>). set (st1 := st <| spawnTurnState.consecutiveParseFailures ::= _ |>).
  destruct (maxConsecutiveParseFailures <=? _) eqn:E1.
  { intros [= <- <-] _ _. right. rewrite (parse_failed_ext o1) by done. destruct (parse_failed o1) eqn:E2; [done|].
    by change ((maxConsecutiveParseFailures <=? 0) = true) in E1. }
  destruct (hasMalformedToolCallTag _); [done|]. destruct (noToolNudge _ _ _ _); [done|].
  destruct (zeroEffectGate _ _ _ _ _); [done|]. destruct (midAbandonGate _ _ _ _ _); [done|].
  intros [= <- <-]. unfold downgrade. intros Hs Ht. rewrite Ht in Hs. cbn [andb] in Hs. left. split; [|done]. intros ->.
  rewrite (bool_decide_eq_true_2 (([] : list ToolInteraction.t) = [])) in Hs by done. cbn [andb] in Hs. case_bool_decide; [|done]. by unfold update in Hs.
Qed.
Lemma guardian_ends marshal number ord ask env taskID stepID cap turn calls gst sv :
  let '(_, gst', out) := sieveGuardianTurn marshal number ord ask env taskID stepID cap turn calls gst sv in
  match out with
  | TurnGoesOn => sieveTurnState.sieveGuardianHits gst' = sieveTurnState.sieveGuardianHits gst
  | TurnSkipped => sieveTurnState.sieveGuardianHits gst' = 1
  | TurnDone o n => SubagentOutput.Status o ≠ StatusOK ∧ (n = 0 ∨ n = turn + 2)
  end.
Proof.
  unfold sieveGuardianTurn. destruct (InspectToolCalls _ _ _ _ _ _ _) as [sv' [valid reason]]. destruct valid; [done|]. cbv zeta.
  destruct (Z.eqb_spec (sieveTurnState.sieveGuardianHits gst + 1) 1) as [Hh|Hh]; [exact Hh|].
  destruct (ask _) as [| |text]; [split; [done|by left]..|]. destruct (negb (String.eqb text "")); (split; [done|]); [by right|by left].
Qed.
Lemma hint_said : String.eqb stagnation_hint "" = false.
Proof. reflexivity. Qed.
Lemma stagnation_bounded calls toolResults st :
  (0 <= Loop.consecutiveRepeatCount st <= maxConsecutiveDuplicates + (if Loop.outputStagnationHinted st then 1 + Z.max 0 grace else 0)) →
  (Loop.outputStagnationHinted st = true → Loop.stagnationHintAt st = maxConsecutiveDuplicates + 1) →
  let '(st', kill) := stagnation E calls toolResults st in
  kill = None →
  (0 <= Loop.consecutiveRepeatCount st' <= maxConsecutiveDuplicates + (if Loop.outputStagnationHinted st' then 1 + Z.max 0 grace else 0)) ∧
  (Loop.outputStagnationHinted st' = true → Loop.stagnationHintAt st' = maxConsecutiveDuplicates + 1).
Proof.
  intros Hc Hh. unfold stagnation. case_bool_decide; [done|]. destruct (computeTurnHash _ _ _ _) as [h|].
  2:{ intros _. unfold update. cbn. split; [|exact Hh]. unfold maxConsecutiveDuplicates. destruct (Loop.outputStagnationHinted st); lia. }
  cbv zeta. set (n := if h =? _ then _ else 1). unfold handleStagnationTurn, stagnationStep.
  change (Loop.stagnationHintAt (st <| Loop.lastResultHash := h |> <| Loop.consecutiveRepeatCount := n |>)) with (Loop.stagnationHintAt st).
  change (Loop.outputStagnationHinted (st <| Loop.lastResultHash := h |> <| Loop.consecutiveRepeatCount := n |>)) with (Loop.outputStagnationHinted st).
  assert (1 <= n <= Loop.consecutiveRepeatCount st + 1 ∨ n = 1) as Hn by (unfold n; destruct (h =? _); [left|right]; lia).
  destruct (n <=? maxConsecutiveDuplicates) eqn:E1.
  { intros _. unfold update. cbn. split; [|exact Hh]. destruct (Loop.outputStagnationHinted st); unfold maxConsecutiveDuplicates in *; lia. }
  destruct (Loop.outputStagnationHinted st) eqn:E2; cbn [negb].
  - specialize (Hh eq_refl). rewrite Hh. destruct (_ <? n) eqn:E3; [done|]. intros _. unfold update. cbn. rewrite E2. split; [|done]. lia.
  - intros _. rewrite hint_said. set (st1 := _ <| Loop.stagnationHintAt := n |>). change (Loop.consecutiveRepeatCount (add_block (with_text stagnation_hint) st1)) with n.
    change (Loop.outputStagnationHinted (add_block (with_text stagnation_hint) st1)) with true. change (Loop.stagnationHintAt (add_block (with_text stagnation_hint) st1)) with n.
    unfold maxConsecutiveDuplicates in *. split; lia.
Qed.
Lemma stall_bounded calls streak : 0 <= streak → (0 < streak_limit → streak < streak_limit) →
  let '(streak', stalled) := fsOnlyStallGuard calls streak streak_limit in stalled = None → 0 <= streak' ∧ (0 < streak_limit → streak' < streak_limit).
Proof.
  intros H0 Hl. unfold fsOnlyStallGuard. destruct calls as [|c calls]; [done|]. set (n := if forallb _ _ then _ else 0).
  destruct (_ && _) eqn:E1; [done|]. intros _. assert (0 <= n) by (unfold n; destruct (forallb _ _); lia). split; [done|]. intros. lia.
Qed.
Lemma stagnation_sent calls toolResults st : Loop.sent (stagnation E calls toolResults st).1 = Loop.sent st.
Proof.
  unfold stagnation. case_bool_decide; [done|]. destruct (computeTurnHash _ _ _ _); [|done]. cbv zeta.
  destruct (handleStagnationTurn _ _ _ _ _ _ _) as [hint kill]. cbn [fst]. by destruct (String.eqb hint "").
Qed.
Lemma stagnation_rest calls toolResults st : let st' := (stagnation E calls toolResults st).1 in
  Loop.exec st' = Loop.exec st ∧ Loop.sieveGuardianHits st' = Loop.sieveGuardianHits st ∧ Loop.consecutiveParseFailures st' = Loop.consecutiveParseFailures st ∧
  Loop.emptyRespRetries st' = Loop.emptyRespRetries st ∧ Loop.fsOnlyTurnStreak st' = Loop.fsOnlyTurnStreak st.
Proof.
  unfold stagnation. case_bool_decide; [done|]. destruct (computeTurnHash _ _ _ _); [|done]. cbv zeta.
  destruct (handleStagnationTurn _ _ _ _ _ _ _) as [hint kill]. cbn [fst]. by destruct (String.eqb hint "").
Qed.
Lemma observe_guarded turn resp st : guarded st →
  let '(st', e) := observe_turn E turn resp st in Loop.sent st' = Loop.sent st ∧ (e = NextTurn → guarded st') ∧ e ≠ Stop Crashed ∧
    ∀ r stored, e = Stop (Finished r stored) → SubagentOutput.Status (SpawnResult.Output r) ≠ StatusOK ∧ SpawnResult.TurnsUsed r = 0.
Proof.
  intros [G1 G2 G3 G4 G5 G6]. unfold observe_turn. cbv zeta. set (st1 := st <| Loop.calledTools ::= _ |>). set (results := Exec.toolResults (Loop.exec st1)).
  pose proof (stagnation_bounded (ProviderReply.ToolCalls resp) results st1 G4 G5) as Hs.
  pose proof (stagnation_sent (ProviderReply.ToolCalls resp) results st1) as Hsent.
  pose proof (stagnation_rest (ProviderReply.ToolCalls resp) results st1) as (R1 & R2 & R3 & R4 & R5).
  assert (∀ o, (stagnation E (ProviderReply.ToolCalls resp) results st1).2 = Some o → SubagentOutput.Status o ≠ StatusOK) as Hk.
  { unfold stagnation. case_bool_decide; [done|]. destruct (computeTurnHash _ _ _ _); [|done]. cbv zeta. unfold handleStagnationTurn.
    destruct (stagnationStep _ _ _ _ _); cbn [snd]; try done. by intros o [= <-]. }
  destruct (stagnation E _ _ st1) as [st2 [o|]]; cbn [fst snd] in *.
  { split; [done|]. split; [done|]. split; [done|]. intros r stored [= <- _]. split; [by apply Hk|done]. }
  specialize (Hs eq_refl). destruct Hs as [Hs1 Hs2].
  set (st3 := st2 <| Loop.stickyContext ::= _ |>). set (st4 := _ <| Loop.userBlocks ::= _ |>).
  assert (Loop.fsOnlyTurnStreak st4 = Loop.fsOnlyTurnStreak st) as E4 by exact R5. rewrite E4.
  pose proof (stall_bounded (ProviderReply.ToolCalls resp) (Loop.fsOnlyTurnStreak st) (proj1 G6) (proj2 G6)) as Hf.
  destruct (fsOnlyStallGuard _ _ streak_limit) as [streak stalled]. split; [exact Hsent|]. split; [|by destruct stalled].
  destruct stalled as [msg|]; [done|]. intros _. specialize (Hf eq_refl).
  split; [change (0 <= Loop.sieveGuardianHits st2 <= 1); by rewrite R2|change (0 <= Loop.consecutiveParseFailures st2 < maxConsecutiveParseFailures); by rewrite R3
    |change (0 <= Loop.emptyRespRetries st2 <= maxEmptyRespRetries); by rewrite R4|exact Hs1|exact Hs2|exact Hf].
Qed.
(** What the end of a turn says: a step that goes on is guarded; an OK needs
    work, a directive, or words about parsing; few turns are counted. *)
Definition accounted (turn : Z) (st : Loop.t) (e : ending) : Prop :=
  match e with
  | Finished r stored =>
      (SubagentOutput.Status (SpawnResult.Output r) = StatusOK → TurnFlags.hasTools (LoopEnv.flags E) = true →
        (trace_of st ≠ [] ∧ stored = true) ∨ parse_failed (SpawnResult.Output r) = true ∨
        ∃ resp report, (LoopEnv.complete E (Loop.sent st)).2 = PReplied resp ∧ parseHeartbeat (ProviderReply.Text resp) = HeartbeatComplete report) ∧
      SpawnResult.TurnsUsed r <= Z.max 0 turn + 2
  | Errored _ _ => True
  | Crashed => ¬ keeps_last
  end.
Definition turn_ok (k : nat) (turn : Z) (st : Loop.t) (r : Loop.t * turn_end) : Prop :=
  (length (Loop.sent r.1) <= length (Loop.sent st) + k + match r.2 with Stop _ => 1 | NextTurn => 0 end)%nat ∧ match r.2 with NextTurn => guarded r.1 | Stop e => accounted turn r.1 e end.
Lemma answer_ok turn resp st : guarded st → turn_ok 0 turn st (answer_turn E turn resp st).
Proof.
  intros [G1 G2 G3 G4 G5 G6]. unfold answer_turn. destruct (completeTurn _ _ _ _ _ _) as [s|o stored] eqn:Hc.
  - split; [unfold from_turn_state, update; cbn; lia|]. apply complete_reminded in Hc; [|exact (proj1 G2)].
    split; [exact G1|exact Hc|exact G3|exact G4|exact G5|exact G6].
  - split; [cbn; lia|]. cbn [fst snd accounted]. split; [|cbn; lia]. intros Hs Ht. apply (complete_ok _ _ _ _ _ _ _ _ Hc Hs) in Ht as [Ht|Ht]; [by left|by right; left].
Qed.
(** Endings that are not OK are accounted for. *)
Lemma not_ok_accounted turn st r stored : SubagentOutput.Status (SpawnResult.Output r) ≠ StatusOK → SpawnResult.TurnsUsed r <= Z.max 0 turn + 2 →
  accounted turn st (Finished r stored).
Proof. intros Hs Hn. split; [|exact Hn]. intros H. by apply Hs in H. Qed.
Lemma best_answer_once out st : (length (best_answer_request E out st) <= match out with TurnDone _ _ => 1 | _ => 0 end)%nat.
Proof. unfold best_answer_request. destruct out; cbn; try lia. destruct (last _); cbn; [|lia]. destruct (LoopEnv.ask E _ _); cbn; lia. Qed.
Lemma guard_calls_ok turn calls st : guarded st →
  let '(st', e) := guard_calls E turn calls st in
  (length (Loop.sent st') <= length (Loop.sent st) + match e with Some (Stop _) => 1 | _ => 0 end)%nat ∧ match e with Some (Stop x) => accounted turn st' x | _ => guarded st' end.
Proof.
  intros [G1 G2 G3 G4 G5 G6]. unfold guard_calls.
  match goal with |- context [sieveGuardianTurn ?a ?b ?c ?d ?e ?f ?g ?h ?i ?j ?k ?l] => pose proof (guardian_ends a b c d e f g h i j k l) as H; destruct (sieveGuardianTurn a b c d e f g h i j k l) as [[sv gst] out] end.
  cbv zeta. set (st1 := st <| Loop.exec ::= _ |>). set (st2 := _ <| Loop.userBlocks ::= _ |>). set (st3 := _ <| Loop.sent ::= _ |>).
  assert (length (Loop.sent st3) = length (Loop.sent st) + length (best_answer_request E out st))%nat as Hlen.
  { change (Loop.sent st3) with (Loop.sent st ++ best_answer_request E out st). by rewrite length_app. }
  pose proof (best_answer_once out st) as Hone.
  destruct out as [| |o n]; (split; [rewrite Hlen; (destruct n || idtac); cbn in Hone |- *; lia|]).
  - split; [change (0 <= sieveTurnState.sieveGuardianHits gst <= 1); by rewrite H|exact G2|exact G3|exact G4|exact G5|exact G6].
  - split; [change (0 <= sieveTurnState.sieveGuardianHits gst <= 1); by rewrite H|exact G2|exact G3|exact G4|exact G5|exact G6].
  - destruct H as [Hs Hn]. destruct n; (apply not_ok_accounted; [exact Hs|cbn; lia]).
Qed.
Lemma run_tools_ok turn resp st : guarded st → turn_ok 0 turn st (run_tools E turn resp st).
Proof.
  intros G. unfold run_tools. pose proof (guard_calls_ok turn (ProviderReply.ToolCalls resp) st G) as H.
  destruct (guard_calls E turn _ st) as [st1 [[|x]|]]; destruct H as [Hs H]; [split; [cbn [fst snd]; lia|exact H]..|].
  set (st2 := st1 <| Loop.exec ::= _ |>).
  assert (guarded st2) as G2 by (destruct H; split; assumption).
  pose proof (observe_guarded turn resp st2 G2) as Ho. destruct (observe_turn E turn resp st2) as [st3 e]. destruct Ho as (Ho1 & Ho2 & Hc & Ho3).
  split; [cbn [fst snd]; rewrite Ho1; change (Loop.sent st2) with (Loop.sent st1); lia|]. cbn [fst snd].
  destruct e as [|[r stored|err stored|]]; [by apply Ho2| |done|done].
  destruct (Ho3 r stored eq_refl) as [H1 H2]. apply not_ok_accounted; [exact H1|rewrite H2; lia].
Qed.
Lemma use_response_ok turn resp st : guarded st → (LoopEnv.complete E (Loop.sent st)).2 = PReplied resp → turn_ok 0 turn st (use_response E turn resp st).
Proof.
  intros G Hc. unfold use_response. destruct (parseHeartbeat _) as [|secs wake|report|report] eqn:Hp.
  - case_bool_decide; [by apply answer_ok|by apply run_tools_ok].
  - destruct (LoopEnv.sleep_cancelled E _); [split; [cbn; lia|]; by apply not_ok_accounted; [|cbn; lia]|].
    destruct (String.eqb wake ""); (split; [cbn; lia|]); [exact G|]. destruct G; split; assumption.
  - split; [cbn; lia|]. split; [|cbn; lia]. intros _ _. right; right. exists resp, report. by split.
  - split; [cbn; lia|]. by apply not_ok_accounted; [|cbn; lia].
Qed.
Lemma asked_state k st st' r : asked_only k st st' → guarded st → retries_ok st st' r → (∀ e, r ≠ EndStep e) → guarded st'.
Proof.
  intros Ha G Hr He. apply (asked_guarded k st); [done..|]. destruct G as [_ _ G _ _ _]. destruct r as [|resp| |e]; cbn in Hr; [lia|lia|lia|by destruct (He e)].
Qed.
(** Asking never ends a step with an OK. *)
Definition refused (r : tried) : Prop :=
  match r with
  | EndStep (Finished r _) => SubagentOutput.Status (SpawnResult.Output r) ≠ StatusOK ∧ SpawnResult.TurnsUsed r = 0
  | EndStep Crashed => False
  | _ => True
  end.
Lemma settle_refused cfg more r st : refused (settle_response E cfg more r st).2.
Proof.
  unfold settle_response. destruct r as [e|resp]; [by destruct (_ && _)|]. destruct (is_empty_reply resp); [|done]. destruct more; [done|]. cbv zeta. by destruct (_ <=? _).
Qed.
Lemma retry_refused turn cfg more system r st : refused (with_retry E turn cfg more system r st).2.
Proof.
  unfold with_retry. destruct r as [e|resp]; [|apply settle_refused]. destruct (contains _ _); [done|]. destruct (IsContextLimitError e); [|apply settle_refused].
  destruct (compressUserBlocksToBudget _ _) as [blocks changed]. destruct changed; [|apply settle_refused].
  destruct (send_request E _ _ _ _) as [st' [chunks [e'|resp]]]; [apply settle_refused|done].
Qed.
Lemma candidates_refused turn cfgs : ∀ idx st, match (try_candidates E turn idx cfgs st).2 with Some r => refused r | None => True end.
Proof.
  induction cfgs as [|cfg cfgs IH]; intros idx st; cbn [try_candidates]; [done|]. destruct (LoopEnv.choose E _ _ _) as [| |e]; [apply IH| |done].
  assert (refused (ask_candidate E turn cfg (negb (bool_decide (cfgs = []))) st).2) as H.
  { unfold ask_candidate. destruct (LoopEnv.build_prompt E _ cfg); [|done]. destruct (audited_request E _ _ _) as [[system st'] [msg|]]; [done|].
    destruct (send_request E _ _ _ _) as [st'' [chunks r]]. apply retry_refused. }
  destruct (ask_candidate E turn cfg _ st) as [st1 t]. destruct t; [apply IH|exact H..].
Qed.
(** What is used is the reply to the last request. *)
Definition replied (st : Loop.t) (r : tried) : Prop := match r with Got resp => (LoopEnv.complete E (Loop.sent st)).2 = PReplied resp | _ => True end.
Lemma settle_replied cfg more st : let r := settle_response E cfg more (LoopEnv.complete E (Loop.sent st)).2 st in replied r.1 r.2.
Proof.
  unfold settle_response. destruct (LoopEnv.complete E (Loop.sent st)).2 as [e|resp] eqn:Hc; cbv zeta; [by destruct (_ && _)|].
  destruct (is_empty_reply resp); [|exact Hc]. destruct more; [done|]. by destruct (_ <=? _).
Qed.
Lemma settle_failed cfg more e st : let r := settle_response E cfg more (PFailed e) st in replied r.1 r.2.
Proof. cbv zeta. unfold settle_response. by destruct (_ && _). Qed.
Lemma sent_reply turn cfg system st : let '(st', (_, r)) := send_request E turn cfg system st in r = (LoopEnv.complete E (Loop.sent st')).2.
Proof. unfold send_request. cbv iota beta zeta. by destruct (LoopEnv.complete E _). Qed.
Lemma retry_replied turn cfg more system r st : r = (LoopEnv.complete E (Loop.sent st)).2 ∨ (∃ e, r = PFailed e) →
  let x := with_retry E turn cfg more system r st in replied x.1 x.2.
Proof.
  intros Hr. assert (let x := settle_response E cfg more r st in replied x.1 x.2) as Hs.
  { destruct Hr as [->|[e ->]]; [apply settle_replied|apply settle_failed]. }
  unfold with_retry. destruct r as [e|resp]; [|exact Hs]. destruct (contains _ _); [done|]. destruct (IsContextLimitError e); [|exact Hs].
  destruct (compressUserBlocksToBudget _ _) as [blocks changed]. destruct changed; [|exact Hs].
  match goal with |- context [send_request E turn cfg system ?b] => pose proof (sent_reply turn cfg system b) as H; destruct (send_request E turn cfg system b) as [st' [chunks [e'|resp]]] end.
  - rewrite H. apply settle_replied.
  - by symmetry in H.
Qed.
Lemma candidates_replied turn cfgs : ∀ idx st, let x := try_candidates E turn idx cfgs st in match x.2 with Some r => replied x.1 r | None => True end.
Proof.
  induction cfgs as [|cfg cfgs IH]; intros idx st; cbn [try_candidates]; [done|]. destruct (LoopEnv.choose E _ _ _) as [| |e]; [apply IH| |done].
  assert (let x := ask_candidate E turn cfg (negb (bool_decide (cfgs = []))) st in replied x.1 x.2) as H.
  { unfold ask_candidate. destruct (LoopEnv.build_prompt E _ cfg); [|done]. destruct (audited_request E _ _ _) as [[system st'] [msg|]]; [done|].
    pose proof (sent_reply turn cfg system st') as H. destruct (send_request E _ _ _ _) as [st'' [chunks r]].
    apply retry_replied. destruct (pattern_brake _ _); [right; by eexists|by left]. }
  destruct (ask_candidate E turn cfg _ st) as [st1 t]. destruct t; [apply IH|exact H..].
Qed.
Lemma take_turn_ok turn st : guarded st → turn_ok (2 * length cands) turn st (take_turn E turn st).
Proof.
  intros G. unfold take_turn. destruct (LoopEnv.cancelled E _ turn); [split; [cbn; lia|]; by apply not_ok_accounted; [|cbn; lia]|].
  pose proof (candidates_asked turn cands 0 st) as Ha. pose proof (λ Hl, candidates_settle turn cands Hl candidates_nonempty 0 st) as Hs.
  pose proof (candidates_refused turn cands 0 st) as He. pose proof (candidates_replied turn cands 0 st) as Hg. cbv zeta in Hg.
  destruct (try_candidates E turn 0 cands st) as [st1 r]. destruct Ha as [Ha Hr]. cbn [fst snd] in He, Hg.
  pose proof (asked_sent _ _ _ Ha) as Hlen. destruct r as [[|resp| |e]|].
  - split; [cbn [fst snd]; lia|]. intros Hl. by destruct (Hs Hl).
  - pose proof (asked_state _ _ _ (Got resp) Ha G Hr ltac:(done)) as G1. destruct (use_response_ok turn resp st1 G1 Hg) as [H1 H2].
    revert H1 H2. destruct (use_response E turn resp st1) as [st2 [|x]]; cbn [fst snd]; intros H1 H2; (split; [cbn [fst snd]; lia|exact H2]).
  - split; [cbn [fst snd]; lia|]. exact (asked_state _ _ _ StartOver Ha G Hr ltac:(done)).
  - split; [cbn [fst snd]; lia|]. destruct e as [r stored|err stored|]; [|done|done]. destruct He as [He1 He2]. apply not_ok_accounted; [exact He1|rewrite He2; lia].
  - split; [cbn [fst snd]; lia|]. intros Hl. by destruct (Hs Hl).
Qed.

(** ** What stands in the trace *)

(** A reply of the step called a tool. *)
Definition called (st : Loop.t) : Prop :=
  ∃ k resp, (LoopEnv.complete E (take k (Loop.sent st))).2 = PReplied resp ∧ ProviderReply.ToolCalls resp ≠ [].
Lemma called_log st st' : Loop.sent st `prefix_of` Loop.sent st' → called st → called st'.
Proof.
  intros [l Hl] (k & resp & H & Hne). exists (k `min` length (Loop.sent st))%nat, resp. split; [|done]. rewrite Hl, take_app_le by lia.
  destruct (decide (k <= length (Loop.sent st))%nat); [by rewrite Nat.min_l by lia|]. rewrite Nat.min_r by lia.
  rewrite firstn_all. by rewrite firstn_all2 in H by lia.
Qed.
(** A trace that is not empty comes from a call. *)
Definition trace_called (st : Loop.t) : Prop := trace_of st = [] ∨ called st.
Lemma trace_called_same st st' : Loop.sent st `prefix_of` Loop.sent st' → trace_of st' = trace_of st → trace_called st → trace_called st'.
Proof. intros Hp Ht [H|H]; [left; congruence|right]. by eapply called_log. Qed.
Lemma guard_log turn calls st : let '(st', _) := guard_calls E turn calls st in
  Loop.sent st `prefix_of` Loop.sent st' ∧ trace_of st' = trace_of st.
Proof.
  unfold guard_calls. destruct (sieveGuardianTurn _ _ _ _ _ _ _ _ _ _ _ _) as [[sv gst] out]. cbv zeta. split; [|reflexivity].
  match goal with |- _ `prefix_of` Loop.sent ?x => change (Loop.sent x) with (Loop.sent st ++ best_answer_request E out st) end.
  by apply prefix_app_r.
Qed.
Lemma run_tools_called turn resp st : guarded st → (LoopEnv.complete E (Loop.sent st)).2 = PReplied resp → ProviderReply.ToolCalls resp ≠ [] →
  called (run_tools E turn resp st).1.
Proof.
  intros G Hc Hne. assert (called st) as H by (exists (length (Loop.sent st)), resp; by rewrite firstn_all). unfold run_tools.
  pose proof (guard_log turn (ProviderReply.ToolCalls resp) st) as Hg. pose proof (guard_calls_ok turn (ProviderReply.ToolCalls resp) st G) as Ho.
  destruct (guard_calls E turn _ st) as [st1 [e|]]; destruct Hg as [Hg _]; [by eapply called_log|]. destruct Ho as [_ G1].
  set (st2 := st1 <| Loop.exec ::= _ |>). assert (guarded st2) as G2 by (destruct G1; split; assumption).
  pose proof (observe_guarded turn resp st2 G2) as Hs. destruct (observe_turn E turn resp st2) as [st3 e]. destruct Hs as (Hs & _).
  eapply called_log; [|exact H]. cbn [fst]. rewrite Hs. exact Hg.
Qed.
Lemma use_response_called turn resp st : guarded st → (LoopEnv.complete E (Loop.sent st)).2 = PReplied resp → trace_called st →
  trace_called (use_response E turn resp st).1.
Proof.
  intros G Hc Ht. unfold use_response. destruct (parseHeartbeat _) as [|secs wake|report|report]; [|destruct (LoopEnv.sleep_cancelled E _)|done|done].
  - case_bool_decide as Hn; [|right; by apply run_tools_called]. unfold answer_turn. by destruct (completeTurn _ _ _ _ _ _).
  - done.
  - by destruct (String.eqb wake "").
Qed.
Lemma take_turn_called turn st : guarded st → trace_called st → trace_called (take_turn E turn st).1.
Proof.
  intros G Ht. unfold take_turn. destruct (LoopEnv.cancelled E _ turn); [done|].
  pose proof (candidates_asked turn cands 0 st) as Ha. pose proof (candidates_replied turn cands 0 st) as Hg. cbv zeta in Hg.
  destruct (try_candidates E turn 0 cands st) as [st1 r]. destruct Ha as [Ha Hr]. cbn [fst snd] in Hg.
  assert (trace_called st1) as H1 by (eapply trace_called_same; [exact (asked_log _ _ _ Ha)|by eapply asked_trace|done]).
  destruct r as [[|resp| |e]|]; try done. apply use_response_called; [|done..].
  exact (asked_state _ _ _ (Got resp) Ha G Hr ltac:(done)).
Qed.

(** ** The turns *)

(** The states at the start of a turn. *)
Inductive reached (st0 : Loop.t) : Z → Loop.t → Prop :=
  | reached_start : reached st0 0 st0
  | reached_next turn st st' : reached st0 turn st → turn < TurnFlags.maxTurns (LoopEnv.flags E) → take_turn E turn st = (st', NextTurn) → reached st0 (turn + 1) st'.
Lemma start_guarded exec blocks bs : guarded (start_loop exec blocks bs).
Proof. split; cbn; unfold maxConsecutiveParseFailures, maxEmptyRespRetries, maxConsecutiveDuplicates; (done || lia). Qed.
Lemma reached_guarded st0 turn st : guarded st0 → reached st0 turn st →
  0 <= turn ∧ guarded st ∧ Z.of_nat (length (Loop.sent st)) <= Z.of_nat (length (Loop.sent st0)) + Z.of_nat (2 * length cands) * turn.
Proof.
  intros G. induction 1 as [|turn st st' Hr (H0 & G1 & Hl) _ Ht]; [split_and!; [done|done|lia]|].
  pose proof (take_turn_ok turn st G1) as [H1 H2]. rewrite Ht in H1, H2. cbn [fst snd] in H1, H2. split_and!; [lia|done|lia].
Qed.
(** The turns end in the state some reached state's turn stops in, or run out. *)
Lemma turns_from_ends st0 n : ∀ turn st, reached st0 turn st → turn + Z.of_nat n <= TurnFlags.maxTurns (LoopEnv.flags E) →
  let '(st', e) := turns_from E n turn st in
  (∃ turn' st1, reached st0 turn' st1 ∧ turn' < turn + Z.of_nat n ∧ take_turn E turn' st1 = (st', Stop e)) ∨
  (reached st0 (turn + Z.of_nat n) st' ∧ e = Errored (max_turns_error E st') true).
Proof.
  induction n as [|n IH]; intros turn st Hr Hm; cbn [turns_from].
  - right. split; [by rewrite Z.add_0_r|done].
  - destruct (take_turn E turn st) as [st1 [|e]] eqn:Ht.
    + assert (reached st0 (turn + 1) st1) as Hr1 by (eapply reached_next; [exact Hr|lia|exact Ht]).
      specialize (IH (turn + 1) st1 Hr1 ltac:(lia)). destruct (turns_from E n (turn + 1) st1) as [st' e].
      destruct IH as [(t & s & H1 & H2 & H3)|[H1 H2]]; [left; exists t, s; split_and!; [done|lia|done]|right].
      split; [|done]. by replace (turn + Z.of_nat (S n)) with (turn + 1 + Z.of_nat n) by lia.
    + left. exists turn, st. split_and!; [done|lia|done].
Qed.
Lemma spawn_reaches exec blocks bs : let '(st', e) := doSpawn E exec blocks bs in
  (∃ turn st1, reached (start_loop exec blocks bs) turn st1 ∧ turn < TurnFlags.maxTurns (LoopEnv.flags E) ∧ take_turn E turn st1 = (st', Stop e)) ∨
  (∃ turn, reached (start_loop exec blocks bs) turn st' ∧ turn <= Z.max 0 (TurnFlags.maxTurns (LoopEnv.flags E)) ∧ e = Errored (max_turns_error E st') true).
Proof.
  unfold doSpawn. set (m := TurnFlags.maxTurns (LoopEnv.flags E)). destruct (decide (m <= 0)) as [Hm|Hm].
  { replace (Z.to_nat m) with 0%nat by lia. right. exists 0. split_and!; [apply reached_start|lia|done]. }
  pose proof (turns_from_ends (start_loop exec blocks bs) (Z.to_nat m) 0 _ (reached_start _) ltac:(lia)) as H.
  destruct (turns_from E (Z.to_nat m) 0 _) as [st' e]. destruct H as [(turn & st1 & H1 & H2 & H3)|[H1 H2]].
  - left. exists turn, st1. split_and!; [done|lia|done].
  - right. exists (0 + Z.of_nat (Z.to_nat m)). split_and!; [done|lia|done].
Qed.
Lemma spawn_accounted exec blocks bs : let '(st', e) := doSpawn E exec blocks bs in
  Z.of_nat (length (Loop.sent st')) <= Z.of_nat (2 * length cands) * Z.max 0 (TurnFlags.maxTurns (LoopEnv.flags E)) + 1 ∧
  ((∃ turn, turn < TurnFlags.maxTurns (LoopEnv.flags E) ∧ 0 <= turn ∧ accounted turn st' e) ∨ e = Errored (max_turns_error E st') true).
Proof.
  pose proof (spawn_reaches exec blocks bs) as H. destruct (doSpawn E exec blocks bs) as [st' e].
  pose proof (start_guarded exec blocks bs) as G. destruct H as [(turn & st1 & H1 & H2 & H3)|(turn & H1 & H2 & H3)].
  - destruct (reached_guarded _ _ _ G H1) as (H0 & G1 & Hl). pose proof (take_turn_ok turn st1 G1) as [Hs Ha]. rewrite H3 in Hs, Ha. cbn [fst snd] in Hs, Ha.
    change (Loop.sent (start_loop exec blocks bs)) with ([] : list Sent.t) in Hl. split; [cbn [length] in Hl; nia|]. left. by exists turn.
  - destruct (reached_guarded _ _ _ G H1) as (H0 & G1 & Hl). change (Loop.sent (start_loop exec blocks bs)) with ([] : list Sent.t) in Hl.
    split; [cbn [length] in Hl; nia|]. by right.
Qed.

Lemma reached_called st0 turn st : guarded st0 → trace_called st0 → reached st0 turn st → trace_called st.
Proof.
  intros G H. induction 1 as [|turn st st' Hr IH Hm Ht]; [done|]. destruct (reached_guarded _ _ _ G Hr) as (_ & G1 & _).
  pose proof (take_turn_called turn st G1 IH) as Hc. by rewrite Ht in Hc.
Qed.
Lemma spawn_called exec blocks bs : trace_called (doSpawn E exec blocks bs).1.
Proof.
  pose proof (spawn_reaches exec blocks bs) as H. destruct (doSpawn E exec blocks bs) as [st' e].
  pose proof (start_guarded exec blocks bs) as G. assert (trace_called (start_loop exec blocks bs)) as G0 by by left.
  destruct H as [(turn & st1 & H1 & H2 & H3)|(turn & H1 & _)].
  - pose proof (take_turn_called turn st1 (proj1 (proj2 (reached_guarded _ _ _ G H1))) (reached_called _ _ _ G G0 H1)) as H. by rewrite H3 in H.
  - exact (reached_called _ _ _ G G0 H1).
Qed.

(** C10: What stops a step that does not progress: at the start of each turn it
    reaches, the guardian has met at most one loop, fewer than three answers in a
    row could not be parsed, at most two replies were empty, results have not
    repeated beyond the hint and its grace, and the streak of turns without a
    server's tool is below its limit; each turn sent at most two requests for each
    candidate. *)
Theorem loop_guards exec blocks bs turn st : reached (start_loop exec blocks bs) turn st →
  guarded st ∧ Z.of_nat (length (Loop.sent st)) <= Z.of_nat (2 * length cands) * turn.
Proof. intros H. destruct (reached_guarded _ _ _ (start_guarded exec blocks bs) H) as (_ & H1 & H2). split; [exact H1|exact H2]. Qed.

(** C8: A step ends: when the last candidate is never passed over, it never reads a
    response that is not there, whatever the providers answer; it sends the
    candidates at most two requests for each of them and each turn, and one more over
    the whole step, the guardian's request for a best answer; and it counts at most
    one turn more than its limit.  What the compressor, the router and the tools ask
    of a model is not counted. *)
Theorem spawn_ends exec blocks bs : keeps_last →
  let '(st, e) := doSpawn E exec blocks bs in
  e ≠ Crashed ∧ Z.of_nat (length (Loop.sent st)) <= Z.of_nat (2 * length cands) * Z.max 0 (TurnFlags.maxTurns (LoopEnv.flags E)) + 1 ∧
  ∀ r stored, e = Finished r stored → SpawnResult.TurnsUsed r <= TurnFlags.maxTurns (LoopEnv.flags E) + 1.
Proof.
  intros Hk. pose proof (spawn_accounted exec blocks bs) as H. destruct (doSpawn E exec blocks bs) as [st e]. destruct H as [Hl H].
  split; [|split; [exact Hl|]].
  - intros ->. by destruct H as [(turn & _ & _ & H)|H].
  - intros r stored ->. destruct H as [(turn & H1 & H2 & _ & H)|H]; [lia|done].
Qed.

(** C9: An OK needs a call: when a role has tools and its step ends OK, a reply of
    the step called a tool, the trace of the calls is not empty and it is stored; or
    the output tells that it could not be parsed (the break of a spin loop); or the
    last reply declared the step complete by a directive.  A call counts whether the
    tool ran, was refused or does not exist ([unknown_call_counts]). *)
Theorem ok_needs_work exec blocks bs :
  let '(st, e) := doSpawn E exec blocks bs in
  ∀ r stored, e = Finished r stored → SubagentOutput.Status (SpawnResult.Output r) = StatusOK → TurnFlags.hasTools (LoopEnv.flags E) = true →
  (called st ∧ trace_of st ≠ [] ∧ stored = true) ∨ parse_failed (SpawnResult.Output r) = true ∨
  ∃ resp report, (LoopEnv.complete E (Loop.sent st)).2 = PReplied resp ∧ parseHeartbeat (ProviderReply.Text resp) = HeartbeatComplete report.
Proof.
  pose proof (spawn_accounted exec blocks bs) as H. pose proof (spawn_called exec blocks bs) as Hc.
  destruct (doSpawn E exec blocks bs) as [st e]. destruct H as [_ H]. intros r stored -> Hs Ht.
  destruct H as [(turn & _ & _ & H & _)|H]; [|done]. destruct (H Hs Ht) as [[Hn Hst]|Hr]; [left|by right].
  split; [|done]. by destruct Hc.
Qed.
End properties.

(** The choice of [Providers.choose_provider] never passes over the last candidate. *)
Definition choice_of (c : chosen) : choice := match c with Skipped => CSkip | UseProvider _ => CUse | ChooseFailed e => CFail e end.
Lemma choose_keeps_last {Req : Type} get order cap capability n pCfg hs (w : World.t Req) hs' w' c :
  choose_provider get order cap capability n (S n) pCfg hs w = Some (hs', w', c) → choice_of c ≠ CSkip.
Proof.
  unfold choose_provider. assert ((n <? S n - 1)%nat = false) as -> by (apply Nat.ltb_ge; lia). rewrite andb_false_r.
  destruct (CheckRecovery _ _ _) as [hs1 b]. destruct (routeProvider _ _ _ _ _ _) as [slots r]. cbv zeta. destruct (r ≫= _); [by intros [= <- <- <-]|].
  destruct (get pCfg _) as [[w1 [p|e]]|]; [by intros [= <- <- <-]..|done].
Qed.

(** ** Examples *)

(** One provider, a script of replies, the tools of [ToolCalls.ex_env]. *)
Definition says (text : string) (calls : list ToolCall.t) : reply := PReplied (ProviderReply.mk text calls 10 5).
Definition silence : reply := PReplied (ProviderReply.mk "" [] 10 0).
Definition ex_admits : SubagentOutput.t := zeroOutput <| SubagentOutput.Status := StatusOK |> <| SubagentOutput.Result := Some {[ "n" := AInt 1 ]} |>
  <| SubagentOutput.Assumptions := ["two rows were not parseable"] |>.
Definition ex_read : DecodeEnv :=
  mkDecode (λ t d, if String.eqb t "{1}" then (Output.ex_answer, true) else if String.eqb t "{2}" then (ex_admits, true) else (d, false)) (λ _, None) (λ _, None) (λ _, None).
Definition ex_loop_env (turns : Z) (script : list reply) : LoopEnv.t :=
  LoopEnv.mk (ToolCalls.ex_env false false) (TurnFlags.mk false false true turns "look") ex_read (ProviderTable.mk ∅ ∅ "main" "")
    ("", "") (CandidateEnv.mk "main" "" None true [] false true "main" true "") (λ _ _ _, CUse)
    (λ sent, ([], default (PFailed (OtherError "no more replies")) (script !! (length sent - 1)%nat)))
    (λ _ _, false) (λ _, false) (λ _ _, Ok [text_block "You are an agent."]) (λ _, AString "") (λ _, None)
    (λ r _, (r, AuditResult.mk LevelNone 0 0 (float_of_int 1) "" 0 0 0)) 0 0 "" false 0 0 false [Router.MCPBinding.mk "files" [] []] false (λ _, []) (λ _, [])
    (λ m, default "" (as_string (m !! "path"))) (λ _, None) (λ m, elements (dom m)) (λ _ _, Answered "best so far") (λ _, "") (λ _, None) (λ _ _, None).
Definition ex_spawn (turns : Z) (script : list reply) (blocks : list ContentBlock.t) : Loop.t * ending :=
  doSpawn (SL := insertion_sorter) (ex_loop_env turns script) ToolCalls.ex_start blocks [Router.MCPBinding.mk "files" [] []].
Definition ex_user : list ContentBlock.t := [text_block "Look."].
Definition ex_run : reply := says "" [ToolCalls.ex_call "execute_code" "a" ""].
(** How a step ended: status, turns, whether its trace is stored; tools that ran. *)
Definition ended (r : Loop.t * ending) : option (SubagentStatus * Z * bool) * nat :=
  (match r.2 with Finished r stored => Some (SubagentOutput.Status (SpawnResult.Output r), SpawnResult.TurnsUsed r, stored) | _ => None end, length (trace_of r.1)).

(** A tool runs, then the answer; the three theorems at this run. *)
Definition ex_script : list reply := [ex_run; says "{1}" []].
Lemma loop_guards_witness : ∃ st, let E := ex_loop_env 3 ex_script in
  reached (SL := insertion_sorter) E (start_loop ToolCalls.ex_start ex_user [Router.MCPBinding.mk "files" [] []]) 1 st ∧ guarded E st ∧
  Z.of_nat (length (Loop.sent st)) <= Z.of_nat (2 * length (step_candidates E)) * 1.
Proof.
  set (st0 := start_loop ToolCalls.ex_start ex_user [Router.MCPBinding.mk "files" [] []]). exists (take_turn (SL := insertion_sorter) (ex_loop_env 3 ex_script) 0 st0).1.
  assert (reached (SL := insertion_sorter) (ex_loop_env 3 ex_script) st0 1 (take_turn (SL := insertion_sorter) (ex_loop_env 3 ex_script) 0 st0).1) as H.
  { apply (reached_next (SL := insertion_sorter) (ex_loop_env 3 ex_script) st0 0 st0); [apply reached_start|reflexivity|].
    assert ((take_turn (SL := insertion_sorter) (ex_loop_env 3 ex_script) 0 st0).2 = NextTurn) as <- by (vm_compute; reflexivity). apply surjective_pairing. }
  split; [exact H|]. exact (loop_guards (SL := insertion_sorter) (ex_loop_env 3 ex_script) _ _ _ _ _ H).
Defined.
Lemma spawn_ends_witness : keeps_last (ex_loop_env 3 ex_script) ∧ (ex_spawn 3 ex_script ex_user).2 ≠ Crashed.
Proof.
  assert (keeps_last (ex_loop_env 3 ex_script)) as Hk by (intros sent idx; discriminate). split; [exact Hk|].
  pose proof (spawn_ends (SL := insertion_sorter) (ex_loop_env 3 ex_script) ToolCalls.ex_start ex_user [Router.MCPBinding.mk "files" [] []] Hk) as H.
  change (doSpawn _ _ _ _) with (ex_spawn 3 ex_script ex_user) in H. destruct (ex_spawn 3 ex_script ex_user) as [st e]. exact (proj1 H).
Defined.
Example earned : ended (ex_spawn 3 ex_script ex_user) = (Some (StatusOK, 2, true), 1%nat).
Proof. vm_compute. reflexivity. Qed.

Lemma ok_needs_work_witness : ∃ r stored, let E := ex_loop_env 3 ex_script in let st := (ex_spawn 3 ex_script ex_user).1 in
  (ex_spawn 3 ex_script ex_user).2 = Finished r stored ∧ SubagentOutput.Status (SpawnResult.Output r) = StatusOK ∧
  ((called E st ∧ trace_of st ≠ [] ∧ stored = true) ∨ parse_failed (SpawnResult.Output r) = true ∨
   ∃ resp report, (LoopEnv.complete E (Loop.sent st)).2 = PReplied resp ∧ parseHeartbeat (ProviderReply.Text resp) = HeartbeatComplete report).
Proof.
  pose proof (ok_needs_work (SL := insertion_sorter) (ex_loop_env 3 ex_script) ToolCalls.ex_start ex_user [Router.MCPBinding.mk "files" [] []]) as H.
  change (doSpawn _ _ _ _) with (ex_spawn 3 ex_script ex_user) in H. pose proof earned as Hr. unfold ended in Hr.
  destruct (ex_spawn 3 ex_script ex_user) as [st e]. cbn [fst snd] in *. destruct e as [r stored|err stored|]; [|discriminate Hr..].
  assert (SubagentOutput.Status (SpawnResult.Output r) = StatusOK) as Hs by (injection Hr; intros; assumption).
  exists r, stored. split; [reflexivity|]. split; [exact Hs|]. exact (H r stored eq_refl Hs eq_refl).
Defined.

(** An OK without work is lowered, but not when a directive or the break of a spin
    loop ends the step; a directive also drops the calls beside it. *)
Example unearned : ended (ex_spawn 3 [says "{1}" []] ex_user) = (Some (StatusPartial, 1, true), 0%nat).
Proof. vm_compute. reflexivity. Qed.
Example directive_unearned :
  ended (ex_spawn 3 [says "[[Heartbeat::Complete]] done" [ToolCalls.ex_call "delete_file" "a" ""]] ex_user) = (Some (StatusOK, 1, false), 0%nat).
Proof. vm_compute. reflexivity. Qed.
Example spin_unearned : ended (ex_spawn 4 [says "nope" []; says "nope" []; says "{2}" []] ex_user) = (Some (StatusOK, 3, false), 0%nat).
Proof. vm_compute. reflexivity. Qed.
Example sleep_drops_calls :
  ended (ex_spawn 3 [says "[[Heartbeat::Sleep::5]]" [ToolCalls.ex_call "delete_file" "a" ""]; says "{1}" []] ex_user) = (Some (StatusPartial, 2, true), 0%nat).
Proof. vm_compute. reflexivity. Qed.
(** A call of a tool that nobody has is work enough for an OK. *)
Example unknown_call_counts : ended (ex_spawn 3 [says "" [ToolCalls.ex_call "no_such_tool" "a" ""]; says "{1}" []] ex_user) = (Some (StatusOK, 2, true), 1%nat).
Proof. vm_compute. reflexivity. Qed.
(** The last request of a step the guardian ends is its own. *)
Example guardian_asks :
  (Sent.System <$> last (Loop.sent (ex_spawn 5 (replicate 12 ex_run) ex_user).1)) = Some SysPromptBestAnswer.
Proof. vm_compute. reflexivity. Qed.
(** The guardian counts a turn beyond the limit. *)
Example turns_beyond_limit : ended (ex_spawn 5 (replicate 12 ex_run) ex_user) = (Some (StatusPartial, 6, false), 2%nat).
Proof. vm_compute. reflexivity. Qed.
(** Empty replies count over the whole step, with work between them; after a context
    limit an empty reply is taken for an answer. *)
Example empty_replies_add_up :
  (ex_spawn 9 [silence; ex_run; silence; ex_run; silence] ex_user).2 = Errored (OtherError "empty_response_zero_tokens: exhausted 2 retries") true.
Proof. vm_compute. reflexivity. Qed.
Example empty_after_limit :
  ended (ex_spawn 1 [PFailed (OtherError "prompt is too long"); silence] (replicate 9 (text_block "a"))) = (Some (StatusPartial, 1, true), 0%nat).
Proof. vm_compute. reflexivity. Qed.
