(* ===== verification/BudgetGate.v ===== *)
(** * The budget gate (core/budget_gate.go)

    The gate listens to step-completed events, adds up the tokens of each task
    and each role and suspends a task that goes over ([SuspendTask] of
    [Scheduler]). *)
From S2P Require Import Prelude TaskStatus Schema DecisionAnswer Scheduler.
From Stdlib Require Import SpecFloat.
Local Open Scope Z_scope.

Module BudgetGateConfig.
Record t := mk { Enabled : bool; PerTaskTokens : Z; PerRoleTokens : Z; AutoResume : bool; WindowMinutes : Z }.
End BudgetGateConfig.

Module BudgetGate.
Record t := mk { cfg : BudgetGateConfig.t; usage : gmap string Z; roleUsage : gmap string Z; suspended : gset string }.
#[global] Instance eta : Eta t := λ r, mk (cfg r) (usage r) (roleUsage r) (suspended r).
End BudgetGate.

Definition NewBudgetGate (cfg : BudgetGateConfig.t) : option BudgetGate.t :=
  if BudgetGateConfig.Enabled cfg then Some (BudgetGate.mk cfg ∅ ∅ ∅) else None.

Definition GetTaskUsage (g : BudgetGate.t) (taskID : string) : Z := default 0 (BudgetGate.usage g !! taskID).
Definition GetRoleUsage (g : BudgetGate.t) (roleID : string) : Z := default 0 (BudgetGate.roleUsage g !! roleID).

Section gate.
(** [int64(f)]: truncation, and whatever the platform gives for a value
    outside the range. *)
Context (int64_of_float : float64 → Z).

Definition extractInt (m : list (string * any)) (key : string) : Z :=
  match amap_get m key with
  | Some (AInt z) | Some (AInt64 z) => z
  | Some (AFloat f) => int64_of_float f
  | _ => 0
  end.
(** [extractTokens]; a payload is never nil on the events modelled. *)
Definition extractTokens (payload : list (string * any)) : Z :=
  match amap_get payload "usage" with
  | Some (AMap usage) =>
      let rest :=
        let prompt := extractInt usage "prompt_tokens" in
        let completion := extractInt usage "completion_tokens" in
        if 0 <? wrap64 (prompt + completion) then wrap64 (prompt + completion) else 0 in
      match amap_get usage "total_tokens" with
      | Some (AInt v) => if 0 <? v then v else rest
      | Some (AFloat f) => if fltb (S754_zero false) f then int64_of_float f else rest
      | _ => rest
      end
  | _ => 0
  end.
Definition extractRoleID (payload : list (string * any)) : string :=
  default "" (as_string (amap_get payload "role_id")).

Definition checkThreshold (cfg : BudgetGateConfig.t) (taskUsage roleUsage : Z) (roleID : string) : string :=
  if (0 <? BudgetGateConfig.PerTaskTokens cfg) && (BudgetGateConfig.PerTaskTokens cfg <? taskUsage) then "budget_exhausted:per_task"
  else if (0 <? BudgetGateConfig.PerRoleTokens cfg) && negb (String.eqb roleID "") && (BudgetGateConfig.PerRoleTokens cfg <? roleUsage)
  then "budget_exhausted:per_role"
  else "".

Definition bump (k : string) (n : Z) (m : gmap string Z) : gmap string Z := <[k := wrap64 (default 0 (m !! k) + n)]> m.

(** [OnStepCompleted] for the event of [taskID]. *)
Definition OnStepCompleted (taskID : string) (payload : list (string * any)) (g : BudgetGate.t) (e : Engine) : BudgetGate.t * Engine :=
  if negb (BudgetGateConfig.Enabled (BudgetGate.cfg g)) || String.eqb taskID "" then (g, e)
  else
    let tokens := extractTokens payload in
    if tokens =? 0 then (g, e)
    else
      let roleID := extractRoleID payload in
      let g := g <| BudgetGate.usage ::= bump taskID tokens |> in
      let g := if String.eqb roleID "" then g else g <| BudgetGate.roleUsage ::= bump roleID tokens |> in
      let roleUsage := if String.eqb roleID "" then 0 else GetRoleUsage g roleID in
      if decide (taskID ∈ BudgetGate.suspended g) then (g, e)
      else if String.eqb (checkThreshold (BudgetGate.cfg g) (GetTaskUsage g taskID) roleUsage roleID) "" then (g, e)
      else
        let '(e, err) := SuspendTask taskID e in
        match err with
        | Some _ => (g, e)
        | None => (g <| BudgetGate.suspended ::= λ s, {[taskID]} ∪ s |>, e)
        end.

(** [Reset], the callback of terminal events. *)
Definition Reset (taskID : string) (g : BudgetGate.t) : BudgetGate.t :=
  if String.eqb taskID "" then g
  else g <| BudgetGate.usage ::= delete taskID |> <| BudgetGate.suspended ::= λ s, s ∖ {[taskID]} |>.

Definition on_events (taskID : string) (payloads : list (list (string * any))) (ge : BudgetGate.t * Engine) : BudgetGate.t * Engine :=
  foldl (λ ge p, OnStepCompleted taskID p ge.1 ge.2) ge payloads.

(** ** When the gate suspends *)

Fixpoint total (payloads : list (list (string * any))) : Z :=
  match payloads with [] => 0 | p :: ps => extractTokens p + total ps end.
Lemma total_nonneg ps : Forall (λ p, 0 <= extractTokens p) ps → 0 <= total ps.
Proof. induction 1; cbn; lia. Qed.

Definition over (cfg : BudgetGateConfig.t) (u : Z) : bool :=
  (0 <? BudgetGateConfig.PerTaskTokens cfg) && (BudgetGateConfig.PerTaskTokens cfg <? u).

(** The gate of a task against its usage: over the limit the task has been
    suspended once, below it nothing has happened. *)
Definition gate_state (taskID : string) (cfg : BudgetGateConfig.t) (e0 : Engine) (u : Z) (ge : BudgetGate.t * Engine) : Prop :=
  BudgetGate.cfg ge.1 = cfg ∧ GetTaskUsage ge.1 taskID = u ∧
  if over cfg u then taskID ∈ BudgetGate.suspended ge.1 ∧ ge.2 = (SuspendTask taskID e0).1
  else taskID ∉ BudgetGate.suspended ge.1 ∧ ge.2 = e0.

Lemma gate_step taskID cfg e0 u ge p :
  BudgetGateConfig.Enabled cfg = true → BudgetGateConfig.PerRoleTokens cfg = 0 → taskID ≠ "" →
  (SuspendTask taskID e0).2 = None → 0 <= u → 0 <= extractTokens p → u + extractTokens p <= int64_max →
  gate_state taskID cfg e0 u ge → gate_state taskID cfg e0 (u + extractTokens p) (OnStepCompleted taskID p ge.1 ge.2).
Proof.
  intros Hen Hrole Hid Hsus Hu Hp Hmax (Hc & Huse & Hst). unfold OnStepCompleted. rewrite Hc, Hen.
  destruct (String.eqb_spec taskID ""); [done|]. cbn [negb orb].
  destruct (Z.eqb_spec (extractTokens p) 0) as [E0|E0].
  { rewrite E0, Z.add_0_r. by split_and!. }
  set (g1 := ge.1 <| BudgetGate.usage ::= bump taskID (extractTokens p) |>).
  set (g2 := if String.eqb (extractRoleID p) "" then g1 else g1 <| BudgetGate.roleUsage ::= bump (extractRoleID p) (extractTokens p) |>).
  assert (BudgetGate.cfg g2 = cfg ∧ BudgetGate.suspended g2 = BudgetGate.suspended ge.1 ∧ GetTaskUsage g2 taskID = u + extractTokens p)
    as (C1 & C2 & C3).
  { assert (GetTaskUsage g1 taskID = u + extractTokens p) as C.
    { unfold GetTaskUsage, g1, bump. cbn. rewrite lookup_insert_eq. cbn. unfold GetTaskUsage in Huse. rewrite Huse.
      apply wrap64_id. unfold in_int64, int64_min, int64_max in *. lia. }
    unfold g2. by destruct (String.eqb (extractRoleID p) ""). }
  assert (∀ ru rid, String.eqb (checkThreshold cfg (u + extractTokens p) ru rid) "" = negb (over cfg (u + extractTokens p))) as Hth.
  { intros ru rid. unfold checkThreshold, over. rewrite Hrole. by destruct (_ && (_ <? u + _)). }
  cbv zeta. rewrite C1, C2, C3, Hth.
  assert (over cfg u = true → over cfg (u + extractTokens p) = true) as Hmono.
  { unfold over. rewrite !andb_true_iff, !Z.ltb_lt. lia. }
  unfold gate_state in *. destruct (over cfg u) eqn:Eo.
  - destruct Hst as [Hs He]. rewrite decide_True by done. rewrite Hmono by done. cbn [fst snd]. rewrite C1, C2, C3. by split_and!.
  - destruct Hst as [Hs He]. rewrite decide_False by done. destruct (over cfg (u + extractTokens p)); cbn [negb].
    + rewrite He. destruct (SuspendTask taskID e0) as [e1 [err|]]; [done|]. cbn [fst snd]. split_and!; [done|exact C3|set_solver|done].
    + cbn [fst snd]. rewrite C2. by split_and!.
Qed.

(** A task is suspended when its tokens go over the limit and not before;
    below the limit the engine is untouched. *)
Theorem gate_exact taskID cfg e payloads :
  BudgetGateConfig.Enabled cfg = true → BudgetGateConfig.PerRoleTokens cfg = 0 → taskID ≠ "" →
  (SuspendTask taskID e).2 = None → Forall (λ p, 0 <= extractTokens p) payloads → total payloads <= int64_max →
  let ge := on_events taskID payloads (BudgetGate.mk cfg ∅ ∅ ∅, e) in
  GetTaskUsage ge.1 taskID = total payloads ∧
  ge.2 = if over cfg (total payloads) then (SuspendTask taskID e).1 else e.
Proof.
  intros Hen Hrole Hid Hsus Hpos Hmax. cbv zeta.
  assert (∀ ps u ge, Forall (λ p, 0 <= extractTokens p) ps → 0 <= u → u + total ps <= int64_max → gate_state taskID cfg e u ge →
    gate_state taskID cfg e (u + total ps) (on_events taskID ps ge)) as Hrun.
  { induction ps as [|p ps IH]; intros u ge Hps Hu Hm Hg; cbn [on_events foldl total]; [by rewrite Z.add_0_r|].
    apply Forall_cons in Hps as [Hp Hps]. cbn [total] in Hm. pose proof (total_nonneg ps Hps).
    rewrite Z.add_assoc. apply IH; [done|lia|lia|]. apply gate_step; try done. lia. }
  specialize (Hrun payloads 0 (BudgetGate.mk cfg ∅ ∅ ∅, e) Hpos ltac:(lia) ltac:(lia)).
  rewrite Z.add_0_l in Hrun. destruct Hrun as (_ & Hu & Hst).
  - split; [done|]. split; [by unfold GetTaskUsage; cbn; rewrite lookup_empty|]. unfold over.
    replace (BudgetGateConfig.PerTaskTokens cfg <? 0) with (negb (0 <=? BudgetGateConfig.PerTaskTokens cfg)) by lia.
    destruct (Z.ltb_spec 0 (BudgetGateConfig.PerTaskTokens cfg)); cbn; [|by split; [set_solver|]].
    replace (0 <=? BudgetGateConfig.PerTaskTokens cfg) with true by lia. cbn. by split; [set_solver|].
  - split; [done|]. by destruct (over cfg (total payloads)), Hst.
Qed.

(** Once it has suspended a task the gate never acts on it again, not even
    after the task was resumed. *)
Theorem gate_blind_after_resume taskID payloads g e :
  taskID ∈ BudgetGate.suspended g →
  (on_events taskID payloads (g, (ResumeSuspendedTask taskID e).1)).2 = (ResumeSuspendedTask taskID e).1.
Proof.
  generalize ((ResumeSuspendedTask taskID e).1). intros e1. revert g.
  induction payloads as [|p ps IH]; intros g Hs; [done|]. cbn [on_events foldl fst snd].
  assert (∃ g', OnStepCompleted taskID p g e1 = (g', e1) ∧ taskID ∈ BudgetGate.suspended g') as (g' & -> & Hs'); [|by apply IH].
  unfold OnStepCompleted. destruct (_ || _); [by exists g|]. destruct (extractTokens p =? 0); [by exists g|].
  cbv zeta. destruct (String.eqb (extractRoleID p) ""); cbn [BudgetGate.suspended]; rewrite decide_True by done; by eexists.
Qed.
End gate.

(** ** Witnesses *)

Definition gate_cfg : BudgetGateConfig.t := BudgetGateConfig.mk true 100 0 false 0.
Definition tokens_payload (n : Z) : list (string * any) := [("role_id", AString "coder"); ("usage", AMap [("total_tokens", AInt n)])].
Lemma gate_exact_witness :
  (on_events (λ _, 0) "t" [tokens_payload 60; tokens_payload 60; tokens_payload 60] (BudgetGate.mk gate_cfg ∅ ∅ ∅, ctl_engine)).2
  = (SuspendTask "t" ctl_engine).1.
Proof.
  apply (gate_exact (λ _, 0) "t" gate_cfg ctl_engine [tokens_payload 60; tokens_payload 60; tokens_payload 60]);
    [reflexivity|reflexivity|discriminate|vm_compute; reflexivity|repeat constructor; discriminate|vm_compute; discriminate].
Defined.
Lemma gate_blind_after_resume_witness :
  let g := BudgetGate.mk gate_cfg {["t" := 120]} ∅ {["t"]} in
  (on_events (λ _, 0) "t" [tokens_payload 1000] (g, (ResumeSuspendedTask "t" (SuspendTask "t" ctl_engine).1).1)).2
  = (ResumeSuspendedTask "t" (SuspendTask "t" ctl_engine).1).1.
Proof. apply gate_blind_after_resume. cbn. set_solver. Defined.
