(* ===== verification/Experience.v ===== *)
(** * The store of experience (store/experience_record.go, experience_types.go,
    experience_lifecycle.go, experience_skills.go, experience_skill_exposure.go,
    experience_pruner.go, jit_candidate_ops.go, part of experience_brief.go)

    What finished tasks teach: patterns of steps with the index by their sequence,
    profiles of roles, affinities of skills with the index by skill, generated
    skills and those archived, weights of routes, potentials of states, outcomes of
    decisions.  A time is in nanoseconds, zero for none; the current time, fresh
    ids, the order of a map, exponential and power are arguments.  The tables of a
    database are left out; what is handed to one at once is kept as a list. *)
From Stdlib Require Import Ascii SpecFloat.
From S2P Require Import Prelude SliceSort Forest Search Archive ToolCalls.
Local Open Scope Z_scope.

(** ** Data *)

Module StepRecord.
Record t := mk {
  StepID : string; RoleID : string; ModelID : string; Skills : list string; Capability : string; Confidence : float64; Status : string;
  RetryCount : Z; MissingContext : list string; TaskType : string; Task : string; Trace : list ToolInteraction.t; LastError : string;
  StatesVisited : list string; Embedding : list float64; EmbeddingModel : string; TokenUsed : Z; LatencyMs : float64 }.
End StepRecord.
Module TaskPattern.
Record t := mk {
  ID : string; TaskID : string; TaskType : string; StepSequence : list (list (string * any)); SequenceKey : string; SampleCount : Z;
  AvgConfidence : float64; AvgTurnsUsed : float64; LastSeen : Z; IsSeed : bool; SourceText : string; Embedding : list float64;
  EmbeddingModel : string; MatchScore : float64 }.
#[global] Instance eta : Eta t := λ p,
  mk (ID p) (TaskID p) (TaskType p) (StepSequence p) (SequenceKey p) (SampleCount p) (AvgConfidence p) (AvgTurnsUsed p) (LastSeen p)
    (IsSeed p) (SourceText p) (Embedding p) (EmbeddingModel p) (MatchScore p).
Definition zero : t := mk "" "" "" [] "" 0 float_zero float_zero 0 false "" [] "" float_zero.
End TaskPattern.
Module RoleProfile.
Record t := mk {
  RoleID : string; TotalRuns : Z; SuccessCount : Z; PartialCount : Z; FailureCount : Z; AvgConfidence : float64;
  CommonMissingContext : list string; LastUpdated : Z }.
#[global] Instance eta : Eta t := λ p,
  mk (RoleID p) (TotalRuns p) (SuccessCount p) (PartialCount p) (FailureCount p) (AvgConfidence p) (CommonMissingContext p) (LastUpdated p).
End RoleProfile.
Module DecisionOutcome.
Record t := mk {
  DecisionType : string; RoleID : string; Capability : string; Choice : string; Resolved : bool; FinalConfidence : option float64; Timestamp : Z }.
End DecisionOutcome.
Module SkillAffinity.
Record t := mk { BaseCapability : string; AddedSkill : string; ConfidenceDelta : float64; SampleCount : Z; LastUpdated : Z; IsSeed : bool }.
#[global] Instance eta : Eta t := λ a, mk (BaseCapability a) (AddedSkill a) (ConfidenceDelta a) (SampleCount a) (LastUpdated a) (IsSeed a).
End SkillAffinity.
Module GeneratedSkill.
Record t := mk {
  ID : string; Description : string; Capability : string; UsageCount : Z; SuccessRate : float64; LastUsed : Z; IsVerified : bool;
  ParentID : string; OS : string; FailureSignal : string; SourceText : string; Embedding : list float64; EmbeddingModel : string;
  TokenCostTotal : Z; AvgLatencyMs : float64; MetabolicROI : float64; SkillStatus : string }.
#[global] Instance eta : Eta t := λ g,
  mk (ID g) (Description g) (Capability g) (UsageCount g) (SuccessRate g) (LastUsed g) (IsVerified g) (ParentID g) (OS g)
    (FailureSignal g) (SourceText g) (Embedding g) (EmbeddingModel g) (TokenCostTotal g) (AvgLatencyMs g) (MetabolicROI g) (SkillStatus g).
End GeneratedSkill.
Module RouteWeight.
Record t := mk {
  RoleID : string; ModelID : string; Capability : string; SkillID : string; TotalRuns : Z; SuccessCount : Z; AvgScore : float64;
  Weight : float64; LastUpdated : Z }.
#[global] Instance eta : Eta t := λ w,
  mk (RoleID w) (ModelID w) (Capability w) (SkillID w) (TotalRuns w) (SuccessCount w) (AvgScore w) (Weight w) (LastUpdated w).
End RouteWeight.
Module StatePotential.
Record t := mk { StateHash : string; ToolID : string; TotalRuns : Z; SuccessCount : Z; Potential : float64; LastUpdated : Z }.
#[global] Instance eta : Eta t := λ p, mk (StateHash p) (ToolID p) (TotalRuns p) (SuccessCount p) (Potential p) (LastUpdated p).
End StatePotential.
Module CooccurrenceEntry.
Record t := mk { ToolA : string; ToolB : string; CoCount : Z; SuccessCount : Z; LastUpdated : Z }.
End CooccurrenceEntry.
Module EnvironmentIssue.
Record t := mk { Command : string; Message : string; Count : Z; LastSeen : Z; IsResolved : bool }.
#[global] Instance eta : Eta t := λ i, mk (Command i) (Message i) (Count i) (LastSeen i) (IsResolved i).
End EnvironmentIssue.
Module JITCandidate.
Record t := mk { ID : string; SequenceKey : string; SampleCount : Z; AvgConfidence : float64; Status : string; CreatedAt : Z; LastSeen : Z }.
#[global] Instance eta : Eta t := λ c, mk (ID c) (SequenceKey c) (SampleCount c) (AvgConfidence c) (Status c) (CreatedAt c) (LastSeen c).
End JITCandidate.
Module PromotionAuditLog.
Record t := mk { CandidateID : string; Action : string; Auditor : string; Reason : string; Timestamp : Z }.
End PromotionAuditLog.
(** Role, model, capability, skill. *)
Abbreviation routes := (gmap string (gmap string (gmap string (gmap string RouteWeight.t)))).
Module ExperienceStore.
Record t := mk {
  TaskPatterns : gmap string TaskPattern.t; sequenceKeyIndex : gmap string string; RoleProfiles : gmap string RoleProfile.t;
  DecisionOutcomes : list DecisionOutcome.t; SkillAffinities : gmap string SkillAffinity.t; skillAffinityBySkill : gmap string (list string);
  GeneratedSkills : gmap string GeneratedSkill.t; ArchivedSkills : gmap string GeneratedSkill.t; RoutingMatrix : routes;
  EnvironmentIssues : gmap string EnvironmentIssue.t; RoleAffinities : gmap string (gmap string float64);
  StatePotentials : gmap string StatePotential.t; JITCandidates : gmap string JITCandidate.t; PromotionAuditLogs : list PromotionAuditLog.t;
  patternTokensCache : option (gmap string (gmap string Z)); skillExposures : gmap string (list string);
  cooccurrences : list CooccurrenceEntry.t }.
#[global] Instance eta : Eta t := λ s,
  mk (TaskPatterns s) (sequenceKeyIndex s) (RoleProfiles s) (DecisionOutcomes s) (SkillAffinities s) (skillAffinityBySkill s)
    (GeneratedSkills s) (ArchivedSkills s) (RoutingMatrix s) (EnvironmentIssues s) (RoleAffinities s) (StatePotentials s)
    (JITCandidates s) (PromotionAuditLogs s) (patternTokensCache s) (skillExposures s) (cooccurrences s).
End ExperienceStore.
Definition empty_store : ExperienceStore.t := ExperienceStore.mk ∅ ∅ ∅ [] ∅ ∅ ∅ ∅ ∅ ∅ ∅ ∅ ∅ [] None ∅ [].
(** The settings of the system that the store reads. *)
Module ExpSettings.
Record t := mk { ConfidenceThreshold : float64; MaxDecisionOutcomes : Z; MaxPromotionAuditLogs : Z }.
End ExpSettings.

(** ** Numbers *)

Definition fpct (n : Z) : float64 := fdiv (float_of_int n) (float_of_int 100).
Definition confidenceThresholdFallback : float64 := fpct 75.
Definition maxDecisionOutcomesFallback : Z := 2000.
Definition maxPromotionAuditLogsFallback : Z := 1000.
(** [math.Round]: half away from zero. *)
Definition fround (x : float64) : float64 :=
  match x with
  | S754_finite s m e =>
      if 0 <=? e then x
      else
        let q := (2 * Zpos m + 2 ^ (- e)) / (2 * 2 ^ (- e)) in
        if q =? 0 then S754_zero s else float_of_int (if s then - q else q)
  | _ => x
  end.
Definition round2 (f : float64) : float64 := fdiv (fround (fmul f (float_of_int 1000))) (float_of_int 1000).
(** The mean [avg] of [n - 1] samples and one more. *)
Definition running (avg : float64) (n : Z) (x : float64) : float64 :=
  fdiv (fadd (fmul avg (float_of_int (n - 1))) x) (float_of_int n).
(** The last [n] elements. *)
Definition keep_last {A} (n : Z) (l : list A) : list A := if n <? Z.of_nat (length l) then drop (length l - Z.to_nat n) l else l.

Section store.
Context (S : ExpSettings.t).
Definition getConfidenceThreshold : float64 :=
  if fltb float_zero (ExpSettings.ConfidenceThreshold S) then ExpSettings.ConfidenceThreshold S else confidenceThresholdFallback.
Definition getMaxDecisionOutcomes : Z :=
  if 0 <? ExpSettings.MaxDecisionOutcomes S then ExpSettings.MaxDecisionOutcomes S else maxDecisionOutcomesFallback.
Definition getMaxPromotionAuditLogs : Z :=
  if 0 <? ExpSettings.MaxPromotionAuditLogs S then ExpSettings.MaxPromotionAuditLogs S else maxPromotionAuditLogsFallback.

(** ** Patterns of steps *)

Definition dedupToolNamesInOrder (trace : list ToolInteraction.t) : string :=
  join ">" (fold_left (λ names t, let n := ToolInteraction.ToolName t in
    if String.eqb n "" || bool_decide (n ∈ names) then names else names ++ [n]) trace []).
Definition sequence_part (r : StepRecord.t) : string :=
  StepRecord.RoleID r +:+ "|" +:+ StepRecord.Capability r +:+ "|" +:+ join "," (sort_strings (StepRecord.Skills r)) +:+ "|" +:+
  dedupToolNamesInOrder (StepRecord.Trace r).
Definition stepSequenceKey (records : list StepRecord.t) : string :=
  if forallb (λ r, String.eqb (dedupToolNamesInOrder (StepRecord.Trace r)) "") records then ""
  else join ">>" (sequence_part <$> records).
Definition pattern_step (r : StepRecord.t) : list (string * any) :=
  [("role_id", AString (StepRecord.RoleID r)); ("capability", AString (StepRecord.Capability r)); ("skills", AStrings (StepRecord.Skills r))].
Definition avg_turns (records : list StepRecord.t) : float64 :=
  fdiv (float_of_int (foldr (λ r n, Z.of_nat (length (StepRecord.Trace r)) + n) 0 records)) (float_of_int (Z.of_nat (length records))).
Definition full_source (records : list StepRecord.t) : string :=
  default "" (head (List.filter (λ t, negb (String.eqb t "")) (StepRecord.Task <$> records))).
Definition maxTaskPatterns : nat := 5000.
Definition drop_pattern (es : ExperienceStore.t) (kp : string * TaskPattern.t) : ExperienceStore.t :=
  es <| ExperienceStore.sequenceKeyIndex ::= λ m, if String.eqb (TaskPattern.SequenceKey kp.2) "" then m else delete (TaskPattern.SequenceKey kp.2) m |>
     <| ExperienceStore.TaskPatterns ::= delete kp.1 |>.
(** The oldest quarter goes; so do its entries in the index. *)
Definition evict_patterns {SL : Sorter} (ord : list string) (es : ExperienceStore.t) : ExperienceStore.t :=
  if (maxTaskPatterns <=? size (ExperienceStore.TaskPatterns es))%nat then
    let all := sort_by (λ a b : string * TaskPattern.t, TaskPattern.LastSeen a.2 <? TaskPattern.LastSeen b.2) (range (ExperienceStore.TaskPatterns es) ord) in
    (fold_left drop_pattern (take (length all / 4) all) es) <| ExperienceStore.patternTokensCache := None |>
  else es.
Definition index_pattern (key id : string) (es : ExperienceStore.t) : ExperienceStore.t :=
  if String.eqb key "" then es else es <| ExperienceStore.sequenceKeyIndex ::= <[key := id]> |>.
(** [newID]: the id of a new pattern. *)
Definition upsertTaskPattern {SL : Sorter} (now : Z) (newID : string) (ord : list string) (taskID taskType : string)
    (records : list StepRecord.t) (overallConf : float64) (es : ExperienceStore.t) : ExperienceStore.t :=
  match records with
  | [] => es
  | r0 :: _ =>
      let avgTurns := avg_turns records in
      let fullSource := full_source records in
      let key := stepSequenceKey records in
      match (if String.eqb key "" then None else ExperienceStore.sequenceKeyIndex es !! key) with
      | Some existingID =>
          let p := default TaskPattern.zero (ExperienceStore.TaskPatterns es !! existingID) in
          let n := TaskPattern.SampleCount p + 1 in
          let mean avg x := fdiv (fadd (fmul (fsub (float_of_int n) f1) avg) x) (float_of_int n) in
          let fill := negb (String.eqb fullSource "") && String.eqb (TaskPattern.SourceText p) "" in
          let p := p <| TaskPattern.SampleCount := n |> <| TaskPattern.LastSeen := now |>
                     <| TaskPattern.AvgConfidence ::= λ a, mean a overallConf |> <| TaskPattern.AvgTurnsUsed ::= λ a, mean a avgTurns |>
                     <| TaskPattern.SourceText ::= λ t, if fill then fullSource else t |> in
          es <| ExperienceStore.TaskPatterns ::= <[existingID := p]> |>
             <| ExperienceStore.patternTokensCache ::= λ c, if fill then None else c |>
      | None =>
          (index_pattern key newID
            ((evict_patterns ord es) <| ExperienceStore.TaskPatterns ::=
               <[newID := TaskPattern.mk newID taskID taskType (pattern_step <$> records) key 1 overallConf avgTurns now false fullSource
                            (StepRecord.Embedding r0) (StepRecord.EmbeddingModel r0) float_zero]> |>))
          <| ExperienceStore.patternTokensCache := None |>
      end
  end.
Definition replay_pattern (now : Z) (candidateID sequenceKey sourceText : string) (newConf : float64) : TaskPattern.t :=
  TaskPattern.zero <| TaskPattern.ID := candidateID |> <| TaskPattern.SequenceKey := sequenceKey |> <| TaskPattern.SourceText := sourceText |>
    <| TaskPattern.SampleCount := 1 |> <| TaskPattern.AvgConfidence := newConf |> <| TaskPattern.LastSeen := now |>.
Definition UpsertTaskPatternFromReplay (now : Z) (candidateID sequenceKey sourceText : string) (verified : bool) (es : ExperienceStore.t) : ExperienceStore.t :=
  let newConf := if verified then fpct 80 else fpct 50 in
  match (if String.eqb sequenceKey "" then None else ExperienceStore.sequenceKeyIndex es !! sequenceKey) with
  | Some id =>
      let p := default TaskPattern.zero (ExperienceStore.TaskPatterns es !! id) in
      let n := TaskPattern.SampleCount p + 1 in
      es <| ExperienceStore.TaskPatterns ::= <[id :=
        p <| TaskPattern.SampleCount := n |> <| TaskPattern.AvgConfidence ::= λ a, running a n newConf |> <| TaskPattern.LastSeen := now |>
          <| TaskPattern.SourceText ::= λ t, if negb (String.eqb sourceText "") && (String.length t <? String.length sourceText)%nat then sourceText else t |>]> |>
  | None =>
      index_pattern sequenceKey candidateID
        (es <| ExperienceStore.TaskPatterns ::= <[candidateID := replay_pattern now candidateID sequenceKey sourceText newConf]> |>)
  end.
(** A tool whose name begins so and that the registry does not have. *)
Fixpoint findStaleJIT (registered : string → bool) (v : any) : bool :=
  match v with
  | AString s => has_prefix "jit_" s && negb (registered s)
  | AList l => existsb (findStaleJIT registered) l
  | AMap m => (fix any_of (m : list (string * any)) := match m with [] => false | (_, v) :: m => findStaleJIT registered v || any_of m end) m
  | _ => false
  end.
Definition hasStaleJITRef (registered : string → bool) (steps : list (list (string * any))) : bool :=
  existsb (λ step, existsb (λ kv, findStaleJIT registered kv.2) step) steps.
Definition PruneStaleJITRefs (registered : string → bool) (es : ExperienceStore.t) : ExperienceStore.t * nat :=
  let stale (kp : string * TaskPattern.t) := hasStaleJITRef registered (TaskPattern.StepSequence kp.2) = true in
  (es <| ExperienceStore.TaskPatterns ::= filter (λ kp, ¬ stale kp) |>, size (filter stale (ExperienceStore.TaskPatterns es))).

(** ** Profiles, affinities, potentials *)

Definition count_run (status : string) (rp : RoleProfile.t) : RoleProfile.t :=
  let rp := rp <| RoleProfile.TotalRuns ::= Z.add 1 |> in
  if String.eqb status "ok" then rp <| RoleProfile.SuccessCount ::= Z.add 1 |>
  else if String.eqb status "partial" then rp <| RoleProfile.PartialCount ::= Z.add 1 |>
  else rp <| RoleProfile.FailureCount ::= Z.add 1 |>.
Definition updateRoleProfile (now : Z) (rec : StepRecord.t) (es : ExperienceStore.t) : ExperienceStore.t :=
  let id := StepRecord.RoleID rec in
  let rp := count_run (StepRecord.Status rec) (default (RoleProfile.mk id 0 0 0 0 float_zero [] 0) (ExperienceStore.RoleProfiles es !! id)) in
  let rp := rp <| RoleProfile.AvgConfidence ::= λ a, running a (RoleProfile.TotalRuns rp) (StepRecord.Confidence rec) |> <| RoleProfile.LastUpdated := now |>
               <| RoleProfile.CommonMissingContext ::= λ l, if bool_decide (StepRecord.MissingContext rec = []) then l else keep_last 100 (l ++ StepRecord.MissingContext rec) |> in
  es <| ExperienceStore.RoleProfiles ::= <[id := rp]> |>.
Definition affinity_key (capability skill : string) : string := capability +:+ ":" +:+ skill.
Definition add_sample (now : Z) (delta : float64) (sa : SkillAffinity.t) : SkillAffinity.t :=
  let n := SkillAffinity.SampleCount sa + 1 in
  sa <| SkillAffinity.SampleCount := n |> <| SkillAffinity.ConfidenceDelta ::= λ d, running d n delta |> <| SkillAffinity.LastUpdated := now |>.
(** One more sample; a new affinity enters the index. *)
Definition sample_affinity (now : Z) (capability skill : string) (delta : float64) (es : ExperienceStore.t) : ExperienceStore.t :=
  let key := affinity_key capability skill in
  match ExperienceStore.SkillAffinities es !! key with
  | Some sa => es <| ExperienceStore.SkillAffinities ::= <[key := add_sample now delta sa]> |>
  | None =>
      es <| ExperienceStore.SkillAffinities ::= <[key := add_sample now delta (SkillAffinity.mk capability skill float_zero 0 0 false)]> |>
         <| ExperienceStore.skillAffinityBySkill ::= λ m, <[skill := default [] (m !! skill) ++ [key]]> m |>
  end.
Definition updateSkillAffinities (now : Z) (rec : StepRecord.t) (es : ExperienceStore.t) : ExperienceStore.t :=
  fold_left (λ es skill, sample_affinity now (StepRecord.Capability rec) skill (fsub (StepRecord.Confidence rec) getConfidenceThreshold) es) (StepRecord.Skills rec) es.
Definition lightFailurePenaltyDelta : float64 := fdiv (float_of_int (-5)) (float_of_int 100).
(** Each affinity of the records once. *)
Definition applyTaskLevelPenalty (now : Z) (records : list StepRecord.t) (es : ExperienceStore.t) : ExperienceStore.t :=
  (fold_left (λ acc (cs : string * string),
     let key := affinity_key cs.1 cs.2 in
     if bool_decide (key ∈ acc.1) then acc else (key :: acc.1, sample_affinity now cs.1 cs.2 lightFailurePenaltyDelta acc.2))
   (mjoin ((λ r, (λ s, (StepRecord.Capability r, s)) <$> StepRecord.Skills r) <$> records)) ([], es)).2.
Definition visit_state (now : Z) (success : bool) (es : ExperienceStore.t) (stateHash : string) : ExperienceStore.t :=
  let sp := default (StatePotential.mk stateHash (default "" (head (split_on ":" stateHash))) 0 0 float_zero 0) (ExperienceStore.StatePotentials es !! stateHash) in
  let n := StatePotential.TotalRuns sp + 1 in
  let k := StatePotential.SuccessCount sp + (if success then 1 else 0) in
  es <| ExperienceStore.StatePotentials ::= <[stateHash :=
    sp <| StatePotential.TotalRuns := n |> <| StatePotential.SuccessCount := k |> <| StatePotential.Potential := fdiv (float_of_int k) (float_of_int n) |>
       <| StatePotential.LastUpdated := now |>]> |>.
Definition updateStatePotentials (now : Z) (rec : StepRecord.t) (success : bool) (es : ExperienceStore.t) : ExperienceStore.t :=
  fold_left (visit_state now success) (StepRecord.StatesVisited rec) es.
(** What use of a skill costs and yields. *)
Definition use_skill (now : Z) (rec : StepRecord.t) (gs : GeneratedSkill.t) : GeneratedSkill.t :=
  let n := GeneratedSkill.UsageCount gs + 1 in
  let tokens := GeneratedSkill.TokenCostTotal gs + StepRecord.TokenUsed rec in
  let latency := if fltb float_zero (StepRecord.LatencyMs rec) then
                   if GeneratedSkill.UsageCount gs =? 0 then StepRecord.LatencyMs rec else running (GeneratedSkill.AvgLatencyMs gs) n (StepRecord.LatencyMs rec)
                 else GeneratedSkill.AvgLatencyMs gs in
  let rate := if 0 <? n then
                if String.eqb (StepRecord.Status rec) "ok" then running (GeneratedSkill.SuccessRate gs) n f1
                else fdiv (fmul (GeneratedSkill.SuccessRate gs) (float_of_int (n - 1))) (float_of_int n)
              else GeneratedSkill.SuccessRate gs in
  let thousand := float_of_int 1000 in
  let cost := fadd (fadd (fdiv (fmul (fpct 30) (float_of_int tokens)) thousand) (fdiv (fmul (fpct 30) latency) thousand)) (fmul (fpct 40) (float_of_int (StepRecord.RetryCount rec))) in
  let cost := if fltb cost (fpct 10) then fpct 10 else cost in
  gs <| GeneratedSkill.TokenCostTotal := tokens |> <| GeneratedSkill.AvgLatencyMs := latency |> <| GeneratedSkill.UsageCount := n |>
     <| GeneratedSkill.LastUsed := now |> <| GeneratedSkill.SuccessRate := rate |> <| GeneratedSkill.MetabolicROI := fdiv (fmul rate (float_of_int 100)) cost |>
     <| GeneratedSkill.SkillStatus ::= λ s, if String.eqb s "" then "active" else s |>.
Definition updateSkillMetabolicCost (now : Z) (rec : StepRecord.t) (es : ExperienceStore.t) : ExperienceStore.t :=
  fold_left (λ es skillID, es <| ExperienceStore.GeneratedSkills ::= alter (use_skill now rec) skillID |>) (StepRecord.Skills rec) es.
(** The pairs handed to the database. *)
Fixpoint trackCooccurrences (now : Z) (records : list StepRecord.t) : list CooccurrenceEntry.t :=
  match records with
  | [] => []
  | r :: rest =>
      match rest with
      | [] => []
      | r' :: _ =>
          let a := StepRecord.Capability r in
          let b := StepRecord.Capability r' in
          (if String.eqb a "" || String.eqb b "" || String.eqb a b then []
           else [CooccurrenceEntry.mk a b 1 (if String.eqb (StepRecord.Status r') "ok" then 1 else 0) now]) ++ trackCooccurrences now rest
      end
  end.
Definition updateRoleAffinity (roleID taskType : string) (success : bool) (es : ExperienceStore.t) : ExperienceStore.t :=
  let tasks := default ∅ (ExperienceStore.RoleAffinities es !! roleID) in
  let current := default f_half (tasks !! taskType) in
  let current := if success then let c := fadd current (fpct 5) in if fltb f1 c then f1 else c
                 else let c := fsub current (fpct 2) in if fltb c float_zero then float_zero else c in
  es <| ExperienceStore.RoleAffinities ::= <[roleID := <[taskType := round2 current]> tasks]> |>.
Definition QueryRoleAffinity (roleID taskType : string) (es : ExperienceStore.t) : float64 :=
  default f_half (ExperienceStore.RoleAffinities es !! roleID ≫= λ tasks, tasks !! taskType).

(** ** A finished task *)

Definition deriveTaskType (records : list StepRecord.t) : string :=
  join "+" (StepRecord.Capability <$> List.filter (λ r, negb (String.eqb (StepRecord.Status r) "skipped")) records).
Definition text_of (d : gmap string any) (k : string) : string := default "" (as_string (d !! k)).
Definition decision_outcome (now : Z) (overallConf : float64) (success : bool) (d : gmap string any) : option DecisionOutcome.t :=
  let dt := text_of d "decision_type" in
  let choice := text_of d "choice" in
  if String.eqb dt "" || String.eqb choice "" then None
  else Some (DecisionOutcome.mk dt (text_of d "role_id") (text_of d "capability") choice success (if success then Some overallConf else None) now).
(** One step: its role, its skills, its states. *)
Definition learn_step (now : Z) (success : bool) (es : ExperienceStore.t) (rec : StepRecord.t) : ExperienceStore.t :=
  updateSkillMetabolicCost now rec (updateStatePotentials now rec success (updateSkillAffinities now rec (updateRoleProfile now rec es))).
Definition roles_once (records : list StepRecord.t) : list string :=
  reverse (fold_left (λ seen r, if bool_decide (StepRecord.RoleID r ∈ seen) then seen else StepRecord.RoleID r :: seen) records []).
Definition RecordTaskCompletion {SL : Sorter} (now : Z) (newID : string) (ord : list string) (taskID : string) (records : list StepRecord.t)
    (overallConf : float64) (decisions : list (gmap string any)) (success attributableFailure : bool) (es : ExperienceStore.t) : ExperienceStore.t :=
  let taskType := deriveTaskType records in
  let es := upsertTaskPattern now newID ord taskID taskType records overallConf es in
  let es := fold_left (learn_step now success) records es in
  let es := es <| ExperienceStore.cooccurrences ::= λ l, l ++ trackCooccurrences now records |> in
  let es := if negb success && attributableFailure then applyTaskLevelPenalty now records es else es in
  let es := fold_left (λ es r, updateRoleAffinity r taskType success es) (roles_once records) es in
  es <| ExperienceStore.DecisionOutcomes ::= λ l, keep_last getMaxDecisionOutcomes (l ++ omap (decision_outcome now overallConf success) decisions) |>.

(** [math_Exp]: the exponential. *)
Definition UpdateRouteWeight (math_Exp : float64 → float64) (now : Z) (roleID modelID skill capability : string) (score : float64) (success : bool)
    (es : ExperienceStore.t) : ExperienceStore.t :=
  let byModel := default ∅ (ExperienceStore.RoutingMatrix es !! roleID) in
  let byCap := default ∅ (byModel !! modelID) in
  let bySkill := default ∅ (byCap !! capability) in
  let rw := default (RouteWeight.mk "" "" "" "" 0 0 float_zero f_half 0) (bySkill !! skill) in
  let n := RouteWeight.TotalRuns rw + 1 in
  let k := RouteWeight.SuccessCount rw + (if success then 1 else 0) in
  let avg := running (RouteWeight.AvgScore rw) n score in
  let rate := fdiv (float_of_int k) (float_of_int n) in
  let elapsed := time_Sub now (RouteWeight.LastUpdated rw) in
  let rate :=
    if negb success && negb (RouteWeight.LastUpdated rw =? 0) && (ns_per_hour <? elapsed) then
      let decay := math_Exp (fdiv (SFopp (Hours elapsed)) (float_of_int 24)) in
      if fltb decay f_half then fadd (fmul rate (fsub f1 decay)) (fmul f_half decay) else rate
    else rate in
  let rw := rw <| RouteWeight.TotalRuns := n |> <| RouteWeight.SuccessCount := k |> <| RouteWeight.AvgScore := avg |>
               <| RouteWeight.Weight := round2 (fadd (fmul (fpct 70) rate) (fmul (fpct 30) avg)) |> <| RouteWeight.LastUpdated := now |> in
  es <| ExperienceStore.RoutingMatrix ::= <[roleID := <[modelID := <[capability := <[skill := rw]> bySkill]> byCap]> byModel]> |>.

(** ** Candidates, logs, issues, exposures *)

Definition AddJITCandidate (now : Z) (c : JITCandidate.t) (es : ExperienceStore.t) : ExperienceStore.t :=
  let or_now t := if t =? 0 then now else t in
  es <| ExperienceStore.JITCandidates ::= <[JITCandidate.ID c :=
    c <| JITCandidate.CreatedAt ::= or_now |> <| JITCandidate.LastSeen ::= or_now |> <| JITCandidate.Status ::= λ s, if String.eqb s "" then "pending" else s |>]> |>.
Definition AddPromotionAuditLog (log : PromotionAuditLog.t) (es : ExperienceStore.t) : ExperienceStore.t :=
  es <| ExperienceStore.PromotionAuditLogs ::= λ l, keep_last getMaxPromotionAuditLogs (l ++ [log]) |>.
Definition RecordEnvironmentIssue (now : Z) (cmd message : string) (es : ExperienceStore.t) : ExperienceStore.t :=
  let issue := default (EnvironmentIssue.mk cmd "" 0 0 false) (ExperienceStore.EnvironmentIssues es !! cmd) in
  es <| ExperienceStore.EnvironmentIssues ::= <[cmd :=
    issue <| EnvironmentIssue.Message := message |> <| EnvironmentIssue.Count ::= Z.add 1 |> <| EnvironmentIssue.LastSeen := now |> <| EnvironmentIssue.IsResolved := false |>]> |>.
Definition GetEnvironmentAlerts (now : Z) (es : ExperienceStore.t) : gmap string EnvironmentIssue.t :=
  filter (λ ki, negb (EnvironmentIssue.IsResolved ki.2) && (time_Sub now (EnvironmentIssue.LastSeen ki.2) <? 24 * ns_per_hour) = true) (ExperienceStore.EnvironmentIssues es).
Definition maxSkillExposureKeys : nat := 4096.
Definition exposure_key (taskID stepID : string) : string := taskID +:+ "/" +:+ stepID.
(** Keys in the order in which the map gives them away, until few are left. *)
Fixpoint evict_exposures (ord : list string) (m : gmap string (list string)) : gmap string (list string) :=
  if (maxSkillExposureKeys <? size m)%nat then match ord with k :: ord => evict_exposures ord (delete k m) | [] => m end else m.
Definition RecordSkillExposure (ord : list string) (taskID stepID : string) (ids : list string) (es : ExperienceStore.t) : ExperienceStore.t :=
  if String.eqb stepID "" || bool_decide (ids = []) then es
  else
    let key := exposure_key taskID stepID in
    es <| ExperienceStore.skillExposures ::= λ m, evict_exposures ord (<[key := default [] (m !! key) ++ ids]> m) |>.
Definition TakeSkillExposures (taskID stepID : string) (es : ExperienceStore.t) : ExperienceStore.t * list string :=
  if String.eqb stepID "" then (es, [])
  else
    let key := exposure_key taskID stepID in
    let ids := default [] (ExperienceStore.skillExposures es !! key) in
    (if bool_decide (ids = []) then es else es <| ExperienceStore.skillExposures ::= delete key |>, ids).

(** ** Generated skills *)

Definition AddGeneratedSkill (skill : GeneratedSkill.t) (es : ExperienceStore.t) : ExperienceStore.t :=
  es <| ExperienceStore.GeneratedSkills ::= <[GeneratedSkill.ID skill := skill]> |>.
Definition UpdateGeneratedSkillVerified (id : string) (verified : bool) (es : ExperienceStore.t) : ExperienceStore.t :=
  es <| ExperienceStore.GeneratedSkills ::= alter (λ g, g <| GeneratedSkill.IsVerified := verified |>) id |>.
Definition IncrementGeneratedSkillUsage (now : Z) (id : string) (es : ExperienceStore.t) : ExperienceStore.t :=
  es <| ExperienceStore.GeneratedSkills ::= alter (λ g, g <| GeneratedSkill.UsageCount ::= Z.add 1 |> <| GeneratedSkill.LastUsed := now |>) id |>.
Definition is_root (g : GeneratedSkill.t) : bool := String.eqb (GeneratedSkill.ParentID g) "".
Definition RootSkillForCapability (ord : list string) (capability : string) (es : ExperienceStore.t) : string :=
  match List.find (λ kg : string * GeneratedSkill.t, String.eqb (GeneratedSkill.Capability kg.2) capability && is_root kg.2) (range (ExperienceStore.GeneratedSkills es) ord) with
  | Some kg => kg.1
  | None => ""
  end.

(** *** Pruning the variants that do worse *)

Definition minSamplesToPrune : Z := 20.
Definition pruneWeightMargin : float64 := fpct 15.
(** The affinity of a skill with enough samples. *)
Definition sampled (minSamples : Z) (es : ExperienceStore.t) (capability id : string) : option float64 :=
  match ExperienceStore.SkillAffinities es !! affinity_key capability id with
  | Some sa => if SkillAffinity.SampleCount sa <? minSamples then None else Some (SkillAffinity.ConfidenceDelta sa)
  | None => None
  end.
(** The best and second best of each capability. *)
Definition best_two : Type := gmap string (string * float64) * gmap string (string * float64).
Definition note_score (es : ExperienceStore.t) (b : best_two) (kg : string * GeneratedSkill.t) : best_two :=
  let cap := GeneratedSkill.Capability kg.2 in
  match sampled minSamplesToPrune es cap kg.1 with
  | None => b
  | Some delta =>
      match b.1 !! cap with
      | None => (<[cap := (kg.1, delta)]> b.1, b.2)
      | Some best =>
          if fltb best.2 delta then (<[cap := (kg.1, delta)]> b.1, <[cap := best]> b.2)
          else if match b.2 !! cap with None => true | Some second => fltb second.2 delta end then (b.1, <[cap := (kg.1, delta)]> b.2)
          else b
      end
  end.
Definition sibling_score (b : best_two) (cap id : string) : option float64 :=
  match b.1 !! cap with
  | None => None
  | Some best => if negb (String.eqb best.1 id) then Some best.2 else snd <$> b.2 !! cap
  end.
(** Whether a skill is judged, and does worse than its sibling. *)
Definition worse (es : ExperienceStore.t) (sibling : option float64) (kg : string * GeneratedSkill.t) : bool :=
  negb (is_root kg.2) &&
  match sampled minSamplesToPrune es (GeneratedSkill.Capability kg.2) kg.1, sibling with
  | Some delta, Some bestSibling => fltb delta (fsub bestSibling pruneWeightMargin)
  | _, _ => false
  end.
Definition archive_skill (es : ExperienceStore.t) (kg : string * GeneratedSkill.t) : ExperienceStore.t :=
  es <| ExperienceStore.ArchivedSkills ::= <[kg.1 := kg.2]> |> <| ExperienceStore.GeneratedSkills ::= delete kg.1 |>.
(** [ord1], [ord2]: the orders of the two loops. *)
Definition PruneSkills (ord1 ord2 : list string) (es : ExperienceStore.t) : ExperienceStore.t * list string :=
  let b := fold_left (note_score es) (range (ExperienceStore.GeneratedSkills es) ord1) (∅, ∅) in
  let pruned := List.filter (λ kg, worse es (sibling_score b (GeneratedSkill.Capability kg.2) kg.1) kg) (range (ExperienceStore.GeneratedSkills es) ord2) in
  (fold_left archive_skill pruned es, pruned.*1).
(** The reference the code keeps: the best of the siblings of one skill. *)
Definition bestSiblingScore (ord : list string) (capability excludeID : string) (minSamples : Z) (es : ExperienceStore.t) : option float64 :=
  fold_left (λ best (kg : string * GeneratedSkill.t),
    if String.eqb kg.1 excludeID || negb (String.eqb (GeneratedSkill.Capability kg.2) capability) then best
    else match sampled minSamples es capability kg.1 with
         | None => best
         | Some delta => if fltb (default (S754_infinity true) best) delta then Some delta else best
         end) (range (ExperienceStore.GeneratedSkills es) ord) None.

Definition pruneAge : Z := 60 * 24 * ns_per_hour.
(** What becomes of a skill: it stays, or goes to the archive as it is. *)
Definition metabolize (now : Z) (g : GeneratedSkill.t) : GeneratedSkill.t * bool :=
  if is_root g then (g, false)
  else
    let g := g <| GeneratedSkill.SkillStatus ::= λ s, if String.eqb s "" then "active" else s |> in
    if String.eqb (GeneratedSkill.SkillStatus g) "active" && fltb float_zero (GeneratedSkill.MetabolicROI g) && fltb (GeneratedSkill.MetabolicROI g) (fpct 20)
    then (g <| GeneratedSkill.SkillStatus := "dormant" |>, false)
    else (g, String.eqb (GeneratedSkill.SkillStatus g) "dormant" && (pruneAge <? time_Sub now (GeneratedSkill.LastUsed g))).
Definition PruneByMetabolicROI (now : Z) (ord : list string) (es : ExperienceStore.t) : ExperienceStore.t * list string :=
  fold_left (λ acc (kg : string * GeneratedSkill.t),
    let '(g, out) := metabolize now kg.2 in
    if out then (archive_skill acc.1 (kg.1, g), acc.2 ++ [kg.1])
    else (acc.1 <| ExperienceStore.GeneratedSkills ::= <[kg.1 := g]> |>, acc.2)) (range (ExperienceStore.GeneratedSkills es) ord) (es, []).

(** ** Loading *)

Definition rebuildSequenceKeyIndex (ord : list string) (es : ExperienceStore.t) : ExperienceStore.t :=
  es <| ExperienceStore.sequenceKeyIndex := fold_left (λ m (kp : string * TaskPattern.t),
    let key := TaskPattern.SequenceKey kp.2 in
    if String.eqb key "" then m else match m !! key with Some _ => m | None => <[key := kp.1]> m end) (range (ExperienceStore.TaskPatterns es) ord) ∅ |>.
Definition rebuildSkillAffinityBySkill (ord : list string) (es : ExperienceStore.t) : ExperienceStore.t :=
  es <| ExperienceStore.skillAffinityBySkill := fold_left (λ (m : gmap string (list string)) (ka : string * SkillAffinity.t),
    let skill := SkillAffinity.AddedSkill ka.2 in
    if String.eqb skill "" then m else <[skill := default [] (m !! skill) ++ [ka.1]]> m) (range (ExperienceStore.SkillAffinities es) ord) ∅ |>.
Section load.
Context (math_Pow : float64 → float64 → float64).
Definition monthlyDecayRate : float64 := fpct 90.
(** How much is left after a time without use; [None]: not more than 30 days. *)
Definition temporal_decay (now last : Z) : option float64 :=
  let days := fdiv (Hours (time_Sub now last)) (float_of_int 24) in
  if fltb (float_of_int 30) days then Some (math_Pow monthlyDecayRate (fdiv days (float_of_int 30))) else None.
Definition scale_count (n : Z) (decay : float64) : Z := trunc_float (fmul (float_of_int n) decay).
Definition applyTemporalDecay (now : Z) (es : ExperienceStore.t) : ExperienceStore.t :=
  es <| ExperienceStore.GeneratedSkills ::= fmap (λ g,
          match temporal_decay now (GeneratedSkill.LastUsed g) with
          | Some d => g <| GeneratedSkill.SuccessRate ::= λ r, fmul r d |> <| GeneratedSkill.UsageCount ::= λ n, scale_count n d |>
          | None => g
          end) |>
     <| ExperienceStore.SkillAffinities ::= fmap (λ a,
          match (if SkillAffinity.IsSeed a then None else temporal_decay now (SkillAffinity.LastUpdated a)) with
          | Some d => a <| SkillAffinity.ConfidenceDelta ::= λ r, fmul r d |> <| SkillAffinity.SampleCount ::= λ n, scale_count n d |>
          | None => a
          end) |>.
(** [files]: what the files hold, the indexes and the cache empty. *)
Definition load_store (now : Z) (ord1 ord2 : list string) (files : ExperienceStore.t) : ExperienceStore.t :=
  rebuildSkillAffinityBySkill ord2 (rebuildSequenceKeyIndex ord1 (applyTemporalDecay now files)).
End load.
Definition seed_pattern (es : ExperienceStore.t) (p : TaskPattern.t) : ExperienceStore.t :=
  let id := TaskPattern.ID p in
  match ExperienceStore.TaskPatterns es !! id with
  | Some _ => es
  | None =>
      let key := TaskPattern.SequenceKey p in
      es <| ExperienceStore.TaskPatterns ::= <[id := p <| TaskPattern.IsSeed := true |>]> |>
         <| ExperienceStore.sequenceKeyIndex ::= λ m, if String.eqb key "" then m else match m !! key with Some _ => m | None => <[key := id]> m end |>
  end.
Definition seed_affinity (es : ExperienceStore.t) (a : SkillAffinity.t) : ExperienceStore.t :=
  let skill := SkillAffinity.AddedSkill a in
  let key := affinity_key (SkillAffinity.BaseCapability a) skill in
  match ExperienceStore.SkillAffinities es !! key with
  | Some _ => es
  | None =>
      es <| ExperienceStore.SkillAffinities ::= <[key := a <| SkillAffinity.IsSeed := true |>]> |>
         <| ExperienceStore.skillAffinityBySkill ::= λ m, if String.eqb skill "" then m else <[skill := default [] (m !! skill) ++ [key]]> m |>
  end.
Definition loadSeeds (patterns : list TaskPattern.t) (affinities : list SkillAffinity.t) (es : ExperienceStore.t) : ExperienceStore.t :=
  fold_left seed_affinity affinities (fold_left seed_pattern patterns es).
End store.

(** * Properties *)

(** ** Pruning by the index of the two best is pruning by the reference *)

(** A maximum of some scores. *)
Definition is_max (l : list float64) (o : option float64) : Prop :=
  match o with None => l = [] | Some m => m ∈ l ∧ ∀ x, x ∈ l → fltb m x = false end.
(** Scores that are equal, zeros of either sign included, lose the margin alike. *)
Lemma margin_same x y : fis_nan x = false → fis_nan y = false → fltb x y = false → fltb y x = false → fsub x pruneWeightMargin = fsub y pruneWeightMargin.
Proof.
  intros Hx Hy H1 H2. pose proof (feqb_fltb x y Hx Hy) as H. rewrite H1, H2 in H. unfold feqb, SFeqb in H.
  destruct x as [[]|[]| |[] m e], y as [[]|[]| |[] m' e']; cbn in Hx, Hy, H; try discriminate; try reflexivity.
  - destruct (Z.compare_spec e e'); [subst|done..]. change (Pos.compare_cont Eq m m') with (Pos.compare m m') in H.
    destruct (Pos.compare_spec m m'); [by subst|done..].
  - destruct (Z.compare_spec e e'); [subst|done..]. change (Pos.compare_cont Eq m m') with (Pos.compare m m') in H.
    destruct (Pos.compare_spec m m'); [by subst|done..].
Qed.
Lemma max_margin l l' o o' : (∀ x, x ∈ l → fis_nan x = false) → (∀ x, x ∈ l ↔ x ∈ l') → is_max l o → is_max l' o' →
  (λ m, fsub m pruneWeightMargin) <$> o = (λ m, fsub m pruneWeightMargin) <$> o'.
Proof.
  intros Hn Hl H H'. destruct o as [m|], o' as [m'|]; cbn in H, H'; [| | |reflexivity].
  - destruct H as [H1 H2], H' as [H3 H4]. change (Some (fsub m pruneWeightMargin) = Some (fsub m' pruneWeightMargin)). f_equal.
    apply margin_same; [by apply Hn|apply Hn; by apply Hl|apply H2; by apply Hl|apply H4; by apply Hl].
  - destruct H as [Hm _]. apply Hl in Hm. rewrite H' in Hm. by apply elem_of_nil in Hm.
  - destruct H' as [Hm _]. apply Hl in Hm. rewrite H in Hm. by apply elem_of_nil in Hm.
Qed.

Lemma range_keys_NoDup {V} (m : gmap string V) ord : NoDup ord → NoDup (range m ord).*1.
Proof.
  induction ord as [|k ord IH]; [constructor|]. intros [Hk Hd]%NoDup_cons. unfold range. cbn [omap list_omap]. destruct (m !! k) as [v|]; [|by apply IH].
  change (NoDup (k :: (range m ord).*1)). apply NoDup_cons. split; [|by apply IH].
  intros ([k' v'] & -> & [Hin _]%elem_of_range)%list_elem_of_fmap. by apply Hk.
Qed.

Section prune.
Context (es : ExperienceStore.t).
Abbreviation gen := (ExperienceStore.GeneratedSkills es).
(** Comparing scores makes sense: each is more than minus infinity, and none is NaN. *)
Definition scores_are_numbers : Prop :=
  ∀ k sa, ExperienceStore.SkillAffinities es !! k = Some sa → fltb (S754_infinity true) (SkillAffinity.ConfidenceDelta sa) = true.
(** The scores of the skills of a capability, but for one. *)
Definition rival (minSamples : Z) (cap id : string) (kg : string * GeneratedSkill.t) : option float64 :=
  if String.eqb kg.1 id || negb (String.eqb (GeneratedSkill.Capability kg.2) cap) then None else sampled minSamples es cap kg.1.
Definition entry (kg : string * GeneratedSkill.t) : option (string * float64) := (kg.1,.) <$> sampled minSamplesToPrune es (GeneratedSkill.Capability kg.2) kg.1.
(** The scores of a capability, with their skills. *)
Definition entries (cap : string) (l : list (string * GeneratedSkill.t)) : list (string * float64) :=
  omap entry (List.filter (λ kg, String.eqb (GeneratedSkill.Capability kg.2) cap) l).

Lemma sampled_number minSamples cap id x : scores_are_numbers → sampled minSamples es cap id = Some x → fltb (S754_infinity true) x = true.
Proof.
  intros Hn. unfold sampled. destruct (_ !! _) as [sa|] eqn:E; [|discriminate]. destruct (_ <? _); [discriminate|].
  intros H. assert (SkillAffinity.ConfidenceDelta sa = x) as <- by (by inversion H). by apply (Hn _ _ E).
Qed.
Lemma more_not_nan x : fltb (S754_infinity true) x = true → fis_nan x = false.
Proof. by destruct x. Qed.
Lemma elem_of_entries cap l y :
  y ∈ entries cap l ↔ ∃ kg, kg ∈ l ∧ GeneratedSkill.Capability kg.2 = cap ∧ y.1 = kg.1 ∧ sampled minSamplesToPrune es cap kg.1 = Some y.2.
Proof.
  unfold entries. rewrite list_elem_of_omap. setoid_rewrite elem_of_filter_list. unfold entry. split.
  - intros (kg & [Hc%String.eqb_eq Hk] & H). exists kg. rewrite Hc in H. split; [exact Hk|]. split; [exact Hc|].
    destruct (sampled _ _ _ _) as [x|]; [|discriminate H]. change (Some (kg.1, x) = Some y) in H.
    assert ((kg.1, x) = y) as <- by (by inversion H). by split.
  - intros (kg & Hk & Hc & H1 & H2). exists kg. rewrite Hc, H2. split; [by rewrite String.eqb_refl|]. destruct y as [k x]. cbn in H1. by rewrite H1.
Qed.
Lemma entries_number cap l y : scores_are_numbers → y ∈ entries cap l → fis_nan y.2 = false.
Proof. intros Hn (kg & _ & _ & _ & H)%elem_of_entries. by apply more_not_nan, (sampled_number _ _ _ _ Hn H). Qed.
(** What is known of a capability's scores: the best, and the best of the others. *)
Definition two_best (D : list (string * float64)) (best second : option (string * float64)) : Prop :=
  match best with
  | None => D = [] ∧ second = None
  | Some b => b ∈ D ∧ (∀ x, x ∈ D → fltb b.2 x.2 = false) ∧
      match second with
      | None => ∀ x, x ∈ D → x = b
      | Some s => s ∈ D ∧ s.1 ≠ b.1 ∧ ∀ x, x ∈ D → x.1 ≠ b.1 → fltb s.2 x.2 = false
      end
  end.
Definition best_add (e : string * float64) (best second : option (string * float64)) : option (string * float64) * option (string * float64) :=
  match best with
  | None => (Some e, second)
  | Some b => if fltb b.2 e.2 then (Some e, best) else (best, if match second with None => true | Some s => fltb s.2 e.2 end then Some e else second)
  end.
Lemma two_best_add D best second e : two_best D best second → (∀ x, x ∈ D → x.1 ≠ e.1) →
  two_best (D ++ [e]) (best_add e best second).1 (best_add e best second).2.
Proof.
  intros H Hid. destruct best as [b|]; cbn in H; unfold best_add.
  2:{ destruct H as [-> ->]. split; [by apply list_elem_of_singleton|]. split; intros x ->%list_elem_of_singleton; [apply fltb_irrefl|reflexivity]. }
  destruct H as (Hb & Hmax & Hs). destruct (fltb b.2 e.2) eqn:E.
  - split; [apply elem_of_app; right; by apply list_elem_of_singleton|]. split; [|split; [apply elem_of_app; by left|split; [by apply Hid|]]].
    + intros x [Hx| ->%list_elem_of_singleton]%elem_of_app; [|apply fltb_irrefl]. destruct (fltb e.2 x.2) eqn:E'; [|reflexivity].
      specialize (Hmax x Hx). by rewrite (fltb_trans _ _ _ E E') in Hmax.
    + intros x [Hx| ->%list_elem_of_singleton]%elem_of_app Hne; [by apply Hmax|by destruct Hne].
  - assert (∀ x, x ∈ D ++ [e] → fltb b.2 x.2 = false) as Hm.
    { intros x [Hx| ->%list_elem_of_singleton]%elem_of_app; [by apply Hmax|exact E]. }
    assert (b ∈ D ++ [e]) as Hb' by (apply elem_of_app; by left).
    assert (e ∈ D ++ [e]) as He by (apply elem_of_app; right; by apply list_elem_of_singleton).
    assert (e.1 ≠ b.1) as Hne by (intros Heq; by apply (Hid b Hb)).
    destruct second as [s|].
    + destruct Hs as (Hs1 & Hs2 & Hs3). destruct (fltb s.2 e.2) eqn:E2.
      * split; [exact Hb'|]. split; [exact Hm|]. split; [exact He|]. split; [exact Hne|].
        intros x [Hx| ->%list_elem_of_singleton]%elem_of_app Hx'; [|apply fltb_irrefl]. destruct (fltb e.2 x.2) eqn:E'; [|reflexivity].
        specialize (Hs3 x Hx Hx'). by rewrite (fltb_trans _ _ _ E2 E') in Hs3.
      * split; [exact Hb'|]. split; [exact Hm|]. split; [apply elem_of_app; by left|]. split; [exact Hs2|].
        intros x [Hx| ->%list_elem_of_singleton]%elem_of_app Hx'; [by apply Hs3|exact E2].
    + split; [exact Hb'|]. split; [exact Hm|]. split; [exact He|]. split; [exact Hne|].
      intros x [Hx| ->%list_elem_of_singleton]%elem_of_app Hx'; [|apply fltb_irrefl]. destruct Hx'. by rewrite (Hs x Hx).
Qed.
Lemma note_score_at b kg cap : let b' := note_score es b kg in
  (b'.1 !! cap, b'.2 !! cap) =
    match (if String.eqb (GeneratedSkill.Capability kg.2) cap then entry kg else None) with
    | Some e => best_add e (b.1 !! cap) (b.2 !! cap)
    | None => (b.1 !! cap, b.2 !! cap)
    end.
Proof.
  cbv zeta. unfold note_score, entry, best_add. destruct (String.eqb_spec (GeneratedSkill.Capability kg.2) cap) as [<-|Hne].
  - destruct (sampled _ _ _ _) as [x|]; [|reflexivity]. destruct (b.1 !! _) as [v|] eqn:E1.
    + change ((_ <$> Some x)) with (Some (kg.1, x)). cbv beta iota. destruct (fltb _ _).
      * cbn [fst snd]. by rewrite !lookup_insert_eq.
      * destruct (match b.2 !! _ with Some _ => _ | None => _ end); cbn [fst snd]; by rewrite ?lookup_insert_eq, E1.
    + cbn [fst snd]. by rewrite lookup_insert_eq.
  - destruct (sampled _ _ _ _) as [x|]; [|reflexivity]. destruct (b.1 !! GeneratedSkill.Capability kg.2) as [v|] eqn:E1.
    + destruct (fltb _ _); [|destruct (match b.2 !! GeneratedSkill.Capability kg.2 with Some _ => _ | None => _ end)]; cbn [fst snd]; by rewrite ?lookup_insert_ne.
    + cbn [fst snd]. by rewrite lookup_insert_ne.
Qed.
Lemma index_two_best cap l : NoDup l.*1 → let b := fold_left (note_score es) l (∅, ∅) in two_best (entries cap l) (b.1 !! cap) (b.2 !! cap).
Proof.
  cbv zeta. induction l as [|kg l IH] using rev_ind; [done|]. rewrite fmap_app. intros Hd. apply NoDup_app in Hd as (Hd & Hn & _). specialize (IH Hd).
  rewrite fold_left_app. cbn [fold_left]. pose proof (note_score_at (fold_left (note_score es) l (∅, ∅)) kg cap) as E. cbv zeta in E.
  unfold entries. rewrite List.filter_app, omap_app. fold (entries cap l). cbn [List.filter].
  destruct (String.eqb (GeneratedSkill.Capability kg.2) cap).
  - cbn [omap list_omap]. destruct (entry kg) as [e|] eqn:Ee.
    + assert (e.1 = kg.1) as H1 by (unfold entry in Ee; destruct (sampled _ _ _ _); [|discriminate Ee]; by inversion Ee).
      pose proof (two_best_add _ _ _ e IH) as H. rewrite <- E in H. apply H. intros x (kg' & Hk & _ & -> & _)%elem_of_entries. rewrite H1.
      intros Heq. apply (Hn kg.1); [apply list_elem_of_fmap; by exists kg'|]. by apply list_elem_of_singleton.
    + rewrite app_nil_r. inversion E as [[E1 E2]]. by rewrite E1, E2.
  - cbn [omap list_omap]. rewrite app_nil_r. inversion E as [[E1 E2]]. by rewrite E1, E2.
Qed.
Lemma sibling_max D cap id b : two_best D (b.1 !! cap) (b.2 !! cap) → is_max (snd <$> List.filter (λ x : string * float64, negb (String.eqb x.1 id)) D) (sibling_score b cap id).
Proof.
  unfold sibling_score. destruct (b.1 !! cap) as [m|]; [|intros [-> _]; reflexivity]. intros (Hm & Hmax & Hs).
  assert (∀ x, x ∈ (snd <$> List.filter (λ x : string * float64, negb (String.eqb x.1 id)) D) → ∃ y, y ∈ D ∧ y.1 ≠ id ∧ x = y.2) as Hx.
  { intros x (y & -> & [H%negb_true_iff%String.eqb_neq Hy]%elem_of_filter_list)%list_elem_of_fmap. by exists y. }
  assert (∀ y, y ∈ D → y.1 ≠ id → y.2 ∈ (snd <$> List.filter (λ x : string * float64, negb (String.eqb x.1 id)) D)) as Hin.
  { intros y Hy H. apply list_elem_of_fmap_2, elem_of_filter_list. split; [|exact Hy]. by apply negb_true_iff, String.eqb_neq. }
  destruct (String.eqb_spec m.1 id) as [Hid|Hid].
  - cbn [negb]. destruct (b.2 !! cap) as [s|].
    + destruct Hs as (Hs1 & Hs2 & Hs3). rewrite Hid in Hs2, Hs3. split; [by apply Hin|]. intros x (y & Hy & Hne & ->)%Hx. by apply Hs3.
    + change (snd <$> List.filter (λ x : string * float64, negb (String.eqb x.1 id)) D = []). destruct (snd <$> _) as [|x xs] eqn:E; [reflexivity|].
      destruct (Hx x) as (y & Hy & Hne & _); [by apply elem_of_cons; left|]. rewrite (Hs y Hy) in Hne. by destruct Hne.
  - cbn [negb]. split; [by apply Hin|]. intros x (y & Hy & _ & ->)%Hx. by apply Hmax.
Qed.
Lemma reference_max minSamples cap id l : scores_are_numbers →
  is_max (omap (rival minSamples cap id) l) (fold_left (λ best (kg : string * GeneratedSkill.t),
    if String.eqb kg.1 id || negb (String.eqb (GeneratedSkill.Capability kg.2) cap) then best
    else match sampled minSamples es cap kg.1 with
         | None => best
         | Some delta => if fltb (default (S754_infinity true) best) delta then Some delta else best
         end) l None).
Proof.
  intros Hn. induction l as [|kg l IH] using rev_ind; [reflexivity|]. rewrite fold_left_app, omap_app. cbn [fold_left omap list_omap].
  set (best := fold_left _ l None) in *. unfold rival at 2. destruct (_ || _); [by rewrite app_nil_r|].
  destruct (sampled _ _ _ _) as [x|] eqn:E; [|by rewrite app_nil_r]. pose proof (sampled_number _ _ _ _ Hn E) as Hx. destruct best as [m|].
  - destruct IH as [Hm Hmax]. change (default _ (Some m)) with m. destruct (fltb m x) eqn:Ex.
    + split; [apply elem_of_app; right; by apply list_elem_of_singleton|].
      intros y [Hy| ->%list_elem_of_singleton]%elem_of_app; [|apply fltb_irrefl]. destruct (fltb x y) eqn:E'; [|reflexivity].
      specialize (Hmax y Hy). by rewrite (fltb_trans _ _ _ Ex E') in Hmax.
    + split; [apply elem_of_app; by left|]. intros y [Hy| ->%list_elem_of_singleton]%elem_of_app; [by apply Hmax|exact Ex].
  - cbn in IH. rewrite IH. change (default _ None) with (S754_infinity true). rewrite Hx.
    split; [by apply list_elem_of_singleton|]. intros y ->%list_elem_of_singleton. apply fltb_irrefl.
Qed.
(** The index and the reference agree, up to what the margin cannot tell apart. *)
Lemma index_is_reference ord1 ord3 cap id : scores_are_numbers → range_order gen ord1 → range_order gen ord3 →
  (λ m, fsub m pruneWeightMargin) <$> sibling_score (fold_left (note_score es) (range gen ord1) (∅, ∅)) cap id =
  (λ m, fsub m pruneWeightMargin) <$> bestSiblingScore ord3 cap id minSamplesToPrune es.
Proof.
  intros Hn H1 H3. eapply max_margin; [| |apply sibling_max, index_two_best, range_keys_NoDup; exact (range_order_NoDup _ _ H1)|apply reference_max, Hn].
  - intros x (y & -> & [_ Hy]%elem_of_filter_list)%list_elem_of_fmap. by apply (entries_number _ _ _ Hn Hy).
  - intros x. rewrite list_elem_of_fmap, list_elem_of_omap. setoid_rewrite elem_of_filter_list. setoid_rewrite elem_of_entries.
    setoid_rewrite negb_true_iff. setoid_rewrite String.eqb_neq. unfold rival. split.
    + intros (y & -> & Hne & ([k g] & Hk & Hc & Hy & Hs)). exists (k, g). rewrite range_order_lookup in Hk by exact H1. rewrite range_order_lookup by exact H3.
      split; [exact Hk|]. cbn in Hc, Hy, Hs |- *. rewrite Hy in Hne. apply String.eqb_neq in Hne. by rewrite Hne, Hc, String.eqb_refl.
    + intros ([k g] & Hk & Hr). rewrite range_order_lookup in Hk by exact H3. cbn [fst snd] in Hr. destruct (String.eqb_spec k id) as [->|Hne]; [discriminate Hr|].
      destruct (String.eqb_spec (GeneratedSkill.Capability g) cap) as [Hc|]; [|discriminate Hr]. exists (k, x). split; [reflexivity|]. split; [exact Hne|].
      exists (k, g). rewrite range_order_lookup by exact H1. done.
Qed.
Lemma worse_margin a b kg : (λ m, fsub m pruneWeightMargin) <$> a = (λ m, fsub m pruneWeightMargin) <$> b → worse es a kg = worse es b kg.
Proof.
  unfold worse. intros H. destruct (sampled _ _ _ _) as [d|]; [|reflexivity].
  destruct a as [x|], b as [y|]; [|discriminate H..|reflexivity]. f_equal. change (Some (fsub x pruneWeightMargin) = Some (fsub y pruneWeightMargin)) in H.
  assert (fsub x pruneWeightMargin = fsub y pruneWeightMargin) as E by (by inversion H). by rewrite E.
Qed.
End prune.

Definition put_away (doomed : gmap string GeneratedSkill.t) (es : ExperienceStore.t) : ExperienceStore.t :=
  es <| ExperienceStore.ArchivedSkills ::= λ a, doomed ∪ a |> <| ExperienceStore.GeneratedSkills ::= λ m, m ∖ doomed |>.
Lemma archive_all l es : NoDup l.*1 → fold_left archive_skill l es = put_away (list_to_map l) es.
Proof.
  revert es. induction l as [|[k g] l IH]; intros es Hd.
  - destruct es. unfold put_away, update. cbn. f_equal; by rewrite ?(map_difference_empty (M := gmap string)), ?(left_id_L ∅ (∪)).
  - change (NoDup (k :: l.*1)) in Hd. apply NoDup_cons in Hd as [Hk Hd]. cbn [fold_left]. rewrite IH by exact Hd.
    assert (list_to_map (M := gmap string GeneratedSkill.t) l !! k = None) as Hn by (by apply not_elem_of_list_to_map_1).
    destruct es. unfold put_away, archive_skill, update. cbn. f_equal; apply map_eq; intros k'.
    + rewrite !lookup_difference. destruct (decide (k = k')) as [<-|Hne].
      * by rewrite lookup_insert_eq, lookup_delete_eq, Hn.
      * by rewrite lookup_insert_ne, lookup_delete_ne.
    + destruct (decide (k = k')) as [<-|Hne].
      * rewrite !lookup_union, Hn, !lookup_insert_eq. by destruct (ArchivedSkills !! k).
      * by rewrite !lookup_union, !lookup_insert_ne.
Qed.
Lemma NoDup_filter_keys {A B} (P : A * B → bool) (l : list (A * B)) : NoDup l.*1 → NoDup (List.filter P l).*1.
Proof.
  induction l as [|x l IH]; [done|]. intros [Hx Hd]%NoDup_cons. cbn [List.filter]. destruct (P x); [|by apply IH]. apply NoDup_cons. split; [|by apply IH].
  intros (y & E & [_ Hy]%elem_of_filter_list)%list_elem_of_fmap. apply Hx. rewrite E. by apply list_elem_of_fmap_2.
Qed.
Lemma filtered_map {V} (m : gmap string V) ord (P : string * V → bool) : range_order m ord →
  list_to_map (List.filter P (range m ord)) = filter (λ kv, P kv = true) m.
Proof.
  intros Ho. apply map_eq. intros k. apply option_eq. intros v. rewrite map_lookup_filter_Some.
  rewrite <- elem_of_list_to_map.
  - rewrite elem_of_filter_list, range_order_lookup by exact Ho. tauto.
  - apply NoDup_filter_keys, range_keys_NoDup. exact (range_order_NoDup _ _ Ho).
Qed.
(** C27: PruneSkills, with its index of the two best of each capability, does what the
    per-skill reference bestSiblingScore says: it archives exactly the variants whose
    affinity, over at least 20 samples, is below the best sibling's (itself not
    counted, at least 20 samples) by more than the margin, never a root; every other
    skill and every other part of the store stays as it is, and the answer lists the
    archived ids, each once -- whatever the orders of the loops. *)
Theorem prune_exact ord1 ord2 ord3 es : scores_are_numbers es →
  range_order (ExperienceStore.GeneratedSkills es) ord1 → range_order (ExperienceStore.GeneratedSkills es) ord2 → range_order (ExperienceStore.GeneratedSkills es) ord3 →
  let bad kg := worse es (bestSiblingScore ord3 (GeneratedSkill.Capability kg.2) kg.1 minSamplesToPrune es) kg in
  let doomed := filter (λ kg, bad kg = true) (ExperienceStore.GeneratedSkills es) in
  (PruneSkills ord1 ord2 es).1 = put_away doomed es ∧ (PruneSkills ord1 ord2 es).2 ≡ₚ elements (dom doomed).
Proof.
  intros Hn H1 H2 H3 bad doomed. set (l := List.filter bad (range (ExperienceStore.GeneratedSkills es) ord2)).
  assert (PruneSkills ord1 ord2 es = (fold_left archive_skill l es, l.*1)) as ->.
  { unfold PruneSkills. cbv zeta. rewrite (filter_ext _ bad); [reflexivity|]. intros kg. apply worse_margin. by apply index_is_reference. }
  assert (list_to_map l = doomed) as <- by (by apply filtered_map).
  assert (NoDup l.*1) as Hd.
  { unfold l. apply NoDup_filter_keys, range_keys_NoDup. exact (range_order_NoDup _ _ H2). }
  split; [by apply archive_all|]. cbn [snd]. symmetry. apply NoDup_Permutation; [apply NoDup_elements|exact Hd|]. intros k.
  by rewrite elem_of_elements, dom_list_to_map, elem_of_list_to_set.
Qed.

(** ** What the store keeps true *)

(** The index of the sequences: each key leads to its only pattern. *)
Definition patterns_indexed (pats : gmap string TaskPattern.t) (idx : gmap string string) : Prop :=
  ∀ key id, idx !! key = Some id ↔ key ≠ "" ∧ ∃ p, pats !! id = Some p ∧ TaskPattern.SequenceKey p = key.
(** The index of the skills: the keys of a skill's affinities, each once. *)
Definition affinities_indexed (affs : gmap string SkillAffinity.t) (by_skill : gmap string (list string)) : Prop :=
  ∀ skill, skill ≠ "" → NoDup (default [] (by_skill !! skill)) ∧
    ∀ key, key ∈ default [] (by_skill !! skill) ↔ ∃ sa, affs !! key = Some sa ∧ SkillAffinity.AddedSkill sa = skill.
Definition profile_adds_up (_ : string) (p : RoleProfile.t) : Prop :=
  0 ≤ RoleProfile.SuccessCount p ∧ 0 ≤ RoleProfile.PartialCount p ∧ 0 ≤ RoleProfile.FailureCount p ∧
  RoleProfile.SuccessCount p + RoleProfile.PartialCount p + RoleProfile.FailureCount p = RoleProfile.TotalRuns p ∧
  (length (RoleProfile.CommonMissingContext p) <= 100)%nat.
Definition potential_in_bounds (_ : string) (p : StatePotential.t) : Prop := 0 ≤ StatePotential.SuccessCount p ≤ StatePotential.TotalRuns p.
Record store_ok (S : ExpSettings.t) (tidy : bool) (es : ExperienceStore.t) : Prop := {
  ok_patterns : tidy = true → patterns_indexed (ExperienceStore.TaskPatterns es) (ExperienceStore.sequenceKeyIndex es);
  ok_affinities : affinities_indexed (ExperienceStore.SkillAffinities es) (ExperienceStore.skillAffinityBySkill es);
  ok_profiles : map_Forall profile_adds_up (ExperienceStore.RoleProfiles es);
  ok_potentials : map_Forall potential_in_bounds (ExperienceStore.StatePotentials es);
  ok_decisions : Z.of_nat (length (ExperienceStore.DecisionOutcomes es)) ≤ getMaxDecisionOutcomes S;
  ok_logs : Z.of_nat (length (ExperienceStore.PromotionAuditLogs es)) ≤ getMaxPromotionAuditLogs S;
  ok_exposures : (size (ExperienceStore.skillExposures es) <= maxSkillExposureKeys)%nat }.
(** What an operation leaves alone stays true. *)
Ltac rest_ok H :=
  constructor; try first [exact (ok_patterns _ _ _ H) | exact (ok_affinities _ _ _ H) | exact (ok_profiles _ _ _ H) | exact (ok_potentials _ _ _ H)
    | exact (ok_decisions _ _ _ H) | exact (ok_logs _ _ _ H) | exact (ok_exposures _ _ _ H)].

Lemma keep_last_length {A} (n : Z) (l : list A) : 0 ≤ n → Z.of_nat (length (keep_last n l)) ≤ n.
Proof. intros Hn. unfold keep_last. destruct (Z.ltb_spec n (Z.of_nat (length l))); [rewrite length_drop|]; lia. Qed.
Lemma limit_outcomes S : 0 ≤ getMaxDecisionOutcomes S.
Proof. unfold getMaxDecisionOutcomes. destruct (Z.ltb_spec 0 (ExpSettings.MaxDecisionOutcomes S)); [lia|done]. Qed.
Lemma limit_logs S : 0 ≤ getMaxPromotionAuditLogs S.
Proof. unfold getMaxPromotionAuditLogs. destruct (Z.ltb_spec 0 (ExpSettings.MaxPromotionAuditLogs S)); [lia|done]. Qed.
Lemma fold_keeps {A B} (P : B → Prop) (f : B → A → B) (l : list A) : (∀ b a, P b → P (f b a)) → ∀ b, P b → P (fold_left f l b).
Proof. intros Hf. induction l as [|a l IH]; intros b Hb; [exact Hb|]. by apply IH, Hf. Qed.

(** *** The index of the sequences *)

Lemma index_add pats idx id p : patterns_indexed pats idx → pats !! id = None → idx !! TaskPattern.SequenceKey p = None →
  patterns_indexed (<[id := p]> pats) (if String.eqb (TaskPattern.SequenceKey p) "" then idx else <[TaskPattern.SequenceKey p := id]> idx).
Proof.
  intros H Hid Hkey key id'. set (k := TaskPattern.SequenceKey p) in *. assert (idx !! key = Some id' → id' ≠ id) as Hne by (intros [_ (q & Hq & _)]%H ->; congruence).
  destruct (decide (id' = id)) as [->|Hi].
  - rewrite lookup_insert_eq. destruct (String.eqb_spec k "") as [Hk|Hk].
    + split; [intros E; by destruct (Hne E)|]. intros [H1 (q & [= <-] & H3)]. by destruct H1; rewrite <- H3.
    + destruct (decide (key = k)) as [->|Hkk].
      * rewrite lookup_insert_eq. split; [intros _; split; [exact Hk|by exists p]|done].
      * rewrite lookup_insert_ne by congruence. split; [intros E; by destruct (Hne E)|]. intros [_ (q & [= <-] & H3)]. by destruct Hkk.
  - rewrite lookup_insert_ne by congruence. rewrite <- (H key id'). destruct (String.eqb_spec k ""); [done|]. destruct (decide (key = k)) as [->|Hkk].
    + rewrite lookup_insert_eq, Hkey. split; [intros [= ->]; by destruct Hi|done].
    + by rewrite lookup_insert_ne by congruence.
Qed.
Lemma index_same pats idx id p p' : patterns_indexed pats idx → pats !! id = Some p → TaskPattern.SequenceKey p' = TaskPattern.SequenceKey p →
  patterns_indexed (<[id := p']> pats) idx.
Proof.
  intros H Hp Hk key id'. rewrite (H key id'). destruct (decide (id' = id)) as [->|Hi].
  - rewrite lookup_insert_eq, Hp. split; intros [H1 (q & [= <-] & H3)]; (split; [exact H1|]); eexists; (split; [reflexivity|]); congruence.
  - by rewrite lookup_insert_ne by congruence.
Qed.
Lemma index_drop pats idx id p : patterns_indexed pats idx → pats !! id = Some p →
  patterns_indexed (delete id pats) (if String.eqb (TaskPattern.SequenceKey p) "" then idx else delete (TaskPattern.SequenceKey p) idx).
Proof.
  intros H Hp key id'. set (k := TaskPattern.SequenceKey p) in *. destruct (decide (id' = id)) as [->|Hi].
  - rewrite lookup_delete_eq. split; [|by intros [_ (q & ? & _)]]. intros E. assert (idx !! key = Some id) as E'.
    { destruct (String.eqb k ""); [exact E|]. by apply lookup_delete_Some in E as [_ E]. }
    apply H in E' as [Hk (q & Hq & Hqk)]. rewrite Hp in Hq. injection Hq as <-. fold k in Hqk.
    destruct (String.eqb_spec k ""); [congruence|]. subst k. rewrite Hqk, lookup_delete_eq in E. discriminate E.
  - rewrite lookup_delete_ne by congruence. rewrite <- (H key id'). destruct (String.eqb_spec k "") as [|Hk]; [done|]. destruct (decide (key = k)) as [->|Hkk].
    + rewrite lookup_delete_eq. split; [done|]. intros E. assert (idx !! k = Some id) as E' by (apply H; split; [exact Hk|by exists p]). congruence.
    + by rewrite lookup_delete_ne by congruence.
Qed.

Section patterns_ok.
Context {SL : Sorter} (S : ExpSettings.t).
Section tidy_patterns.
Abbreviation tidy := true.
Lemma drops_tidy l : ∀ es, NoDup l.*1 → (∀ kp, kp ∈ l → ExperienceStore.TaskPatterns es !! kp.1 = Some kp.2) → store_ok S tidy es →
  store_ok S tidy (fold_left drop_pattern l es) ∧
  (∀ id, ExperienceStore.TaskPatterns es !! id = None → ExperienceStore.TaskPatterns (fold_left drop_pattern l es) !! id = None) ∧
  (∀ key, ExperienceStore.sequenceKeyIndex es !! key = None → ExperienceStore.sequenceKeyIndex (fold_left drop_pattern l es) !! key = None).
Proof.
  induction l as [|kp l IH]; intros es Hd Hl H; [done|]. change (NoDup (kp.1 :: l.*1)) in Hd. apply NoDup_cons in Hd as [Hk Hd].
  assert (store_ok S tidy (drop_pattern es kp)) as H1.
  { rest_ok H. intros _. apply index_drop; [by apply H|]. apply Hl, elem_of_cons. by left. }
  destruct (IH (drop_pattern es kp)) as (H2 & H3 & H4); [exact Hd| |exact H1|].
  - intros kp' Hin. change (delete kp.1 (ExperienceStore.TaskPatterns es) !! kp'.1 = Some kp'.2). rewrite lookup_delete_ne.
    + apply Hl, elem_of_cons. by right.
    + intros E. apply Hk. rewrite E. by apply list_elem_of_fmap_2.
  - split; [exact H2|]. split.
    + intros id Hid. apply H3. change (delete kp.1 (ExperienceStore.TaskPatterns es) !! id = None). apply lookup_delete_None. by right.
    + intros key Hkey. apply H4. unfold drop_pattern. change ((if String.eqb (TaskPattern.SequenceKey kp.2) "" then ExperienceStore.sequenceKeyIndex es
        else delete (TaskPattern.SequenceKey kp.2) (ExperienceStore.sequenceKeyIndex es)) !! key = None).
      destruct (String.eqb _ _); [exact Hkey|]. apply lookup_delete_None. by right.
Qed.
Lemma evict_patterns_tidy ord es : range_order (ExperienceStore.TaskPatterns es) ord → store_ok S tidy es →
  store_ok S tidy (evict_patterns ord es) ∧
  (∀ id, ExperienceStore.TaskPatterns es !! id = None → ExperienceStore.TaskPatterns (evict_patterns ord es) !! id = None) ∧
  (∀ key, ExperienceStore.sequenceKeyIndex es !! key = None → ExperienceStore.sequenceKeyIndex (evict_patterns ord es) !! key = None).
Proof.
  intros Ho H. unfold evict_patterns. destruct (_ <=? _)%nat; [|done]. cbv zeta. set (all := sort_by _ _).
  assert (all ≡ₚ range (ExperienceStore.TaskPatterns es) ord) as Hp by apply sort_by_perm.
  destruct (drops_tidy (take (length all / 4) all) es) as (H1 & H2 & H3); [| |exact H|].
  - apply (sublist_NoDup _ all.*1); [|apply fmap_sublist, sublist_take]. rewrite Hp. apply range_keys_NoDup. exact (range_order_NoDup _ _ Ho).
  - intros [id p] Hin. assert ((id, p) ∈ all) as Hall by (rewrite <- (take_drop (length all / 4) all); apply elem_of_app; by left).
    rewrite Hp in Hall. by apply elem_of_range in Hall as [_ Hall].
  - split; [rest_ok H1|]. split; [exact H2|exact H3].
Qed.
Lemma upsert_tidy now newID ord taskID taskType records conf es : store_ok S tidy es → range_order (ExperienceStore.TaskPatterns es) ord →
  ExperienceStore.TaskPatterns es !! newID = None → store_ok S tidy (upsertTaskPattern now newID ord taskID taskType records conf es).
Proof.
  intros H Ho Hid. destruct records as [|r0 rest]; [exact H|]. unfold upsertTaskPattern. set (key := stepSequenceKey (r0 :: rest)).
  destruct (if String.eqb key "" then None else _ !! key) as [id|] eqn:E.
  - destruct (String.eqb key ""); [discriminate E|]. apply (ok_patterns _ _ _ H eq_refl) in E as [Hk (p & Hp & Hpk)].
    rewrite Hp. rest_ok H. intros _. by apply (index_same _ _ _ p); [by apply H|exact Hp|].
  - destruct (evict_patterns_tidy ord es Ho H) as (H1 & H2 & H3). set (p := TaskPattern.mk _ _ _ _ _ _ _ _ _ _ _ _ _ _).
    assert (ExperienceStore.sequenceKeyIndex (evict_patterns ord es) !! key = None) as Hk.
    { apply H3. destruct (String.eqb_spec key "") as [Ek|]; [rewrite Ek|exact E]. destruct (_ !! "") as [id|] eqn:E'; [|reflexivity].
      apply (ok_patterns _ _ _ H eq_refl) in E' as [E' _]. by destruct E'. }
    pose proof (index_add _ _ newID p (ok_patterns _ _ _ H1 eq_refl) (H2 _ Hid) Hk) as Hi. clear Hk H2 H3. revert H1 Hi.
    generalize (evict_patterns ord es). intros es' H1 Hi. unfold index_pattern.
    change (TaskPattern.SequenceKey p) with key in Hi. destruct (String.eqb key ""); rest_ok H1; intros _; exact Hi.
Qed.
(** A key that is known, or an id that is not. *)
Lemma replay_tidy now id key text verified es : store_ok S tidy es →
  is_Some (ExperienceStore.sequenceKeyIndex es !! key) ∨ ExperienceStore.TaskPatterns es !! id = None →
  store_ok S tidy (UpsertTaskPatternFromReplay now id key text verified es).
Proof.
  intros H Hid. unfold UpsertTaskPatternFromReplay. generalize (if verified then fpct 80 else fpct 50). intros conf. assert (key = "" → ExperienceStore.sequenceKeyIndex es !! key = None) as Hempty.
  { intros ->. destruct (_ !! "") as [i|] eqn:E'; [|reflexivity]. apply (ok_patterns _ _ _ H eq_refl) in E' as [E' _]. by destruct E'. }
  destruct (if String.eqb key "" then None else _ !! key) as [i|] eqn:E.
  - destruct (String.eqb key ""); [discriminate E|]. apply (ok_patterns _ _ _ H eq_refl) in E as [Hk (p & Hp & Hpk)].
    rewrite Hp. rest_ok H. intros _. by apply (index_same _ _ _ p); [by apply H|exact Hp|].
  - assert (ExperienceStore.sequenceKeyIndex es !! key = None) as Hk by (destruct (String.eqb_spec key "") as [Hk|]; [by apply Hempty|exact E]).
    destruct Hid as [[j Hj]|Hid]; [by rewrite Hk in Hj|]. cbv zeta. set (p := replay_pattern _ _ _ _ _).
    pose proof (index_add _ _ id p (ok_patterns _ _ _ H eq_refl) Hid Hk) as Hi. unfold index_pattern. change (TaskPattern.SequenceKey p) with key in Hi.
    destruct (String.eqb key ""); rest_ok H; intros _; exact Hi.
Qed.
(** A sequence that is known keeps its pattern. *)
Lemma seed_pattern_tidy p es : store_ok S tidy es → ExperienceStore.sequenceKeyIndex es !! TaskPattern.SequenceKey p = None → store_ok S tidy (seed_pattern es p).
Proof.
  intros H Hk. unfold seed_pattern. destruct (_ !! TaskPattern.ID p) eqn:Hid; [exact H|]. cbv zeta.
  set (q := p <| TaskPattern.IsSeed := true |>). pose proof (index_add _ _ (TaskPattern.ID p) q (ok_patterns _ _ _ H eq_refl) Hid Hk) as Hi.
  rest_ok H. intros _. unfold update. cbn. rewrite Hk. exact Hi.
Qed.
End tidy_patterns.
(** The operations on patterns, whatever the index has become. *)
Ltac loose_ok H := rest_ok H; try discriminate.
Lemma untidy es : store_ok S true es → store_ok S false es.
Proof. intros H. loose_ok H. Qed.
Lemma evict_patterns_loose ord es : store_ok S false es → store_ok S false (evict_patterns ord es).
Proof.
  intros H. unfold evict_patterns. destruct (_ <=? _)%nat; [|done]. cbv zeta.
  match goal with |- context [fold_left drop_pattern ?l es] => assert (store_ok S false (fold_left drop_pattern l es)) as H1 end.
  { apply fold_keeps; [|exact H]. intros es' kp H'. loose_ok H'. }
  loose_ok H1.
Qed.
Lemma index_pattern_loose key id es : store_ok S false es → store_ok S false (index_pattern key id es).
Proof. intros H. unfold index_pattern. destruct (String.eqb key ""); [exact H|]. loose_ok H. Qed.
Lemma upsert_loose now newID ord taskID taskType records conf es : store_ok S false es →
  store_ok S false (upsertTaskPattern now newID ord taskID taskType records conf es).
Proof.
  intros H. destruct records as [|r0 rest]; [exact H|]. unfold upsertTaskPattern. set (key := stepSequenceKey (r0 :: rest)).
  destruct (if String.eqb key "" then None else _ !! key) as [id|].
  - loose_ok H.
  - pose proof (evict_patterns_loose ord es H) as H1. revert H1. generalize (evict_patterns ord es). intros es' H1.
    match goal with |- context [index_pattern key newID ?x] => assert (store_ok S false (index_pattern key newID x)) as H2 end.
    { apply index_pattern_loose. loose_ok H1. }
    loose_ok H2.
Qed.
Lemma replay_loose now id key text verified es : store_ok S false es → store_ok S false (UpsertTaskPatternFromReplay now id key text verified es).
Proof.
  intros H. unfold UpsertTaskPatternFromReplay. generalize (if verified then fpct 80 else fpct 50). intros conf.
  destruct (if String.eqb key "" then None else _ !! key) as [i|]; [loose_ok H|]. apply index_pattern_loose. loose_ok H.
Qed.
Lemma seed_pattern_loose p es : store_ok S false es → store_ok S false (seed_pattern es p).
Proof. intros H. unfold seed_pattern. destruct (_ !! TaskPattern.ID p); [exact H|]. loose_ok H. Qed.
Lemma prune_stale_loose registered es : store_ok S false es → store_ok S false (PruneStaleJITRefs registered es).1.
Proof. intros H. loose_ok H. Qed.
Lemma upsert_ok tidy now newID ord taskID taskType records conf es : store_ok S tidy es → range_order (ExperienceStore.TaskPatterns es) ord →
  ExperienceStore.TaskPatterns es !! newID = None → store_ok S tidy (upsertTaskPattern now newID ord taskID taskType records conf es).
Proof. destruct tidy; [apply upsert_tidy|]. intros H _ _. by apply upsert_loose. Qed.
(** Building the index again gives it back. *)
Lemma rebuilt_patterns pats idx ord : patterns_indexed pats idx → range_order pats ord →
  fold_left (λ (m : gmap string string) (kp : string * TaskPattern.t),
    let key := TaskPattern.SequenceKey kp.2 in
    if String.eqb key "" then m else match m !! key with Some _ => m | None => <[key := kp.1]> m end) (range pats ord) ∅ = idx.
Proof.
  intros H Ho. assert (∀ l, (∀ kp, kp ∈ l → pats !! kp.1 = Some kp.2) → ∀ key id,
    fold_left (λ (m : gmap string string) (kp : string * TaskPattern.t),
      let key := TaskPattern.SequenceKey kp.2 in
      if String.eqb key "" then m else match m !! key with Some _ => m | None => <[key := kp.1]> m end) l ∅ !! key = Some id ↔
    idx !! key = Some id ∧ ∃ p, (id, p) ∈ l ∧ TaskPattern.SequenceKey p = key) as Hl.
  { induction l as [|[i q] l IH] using rev_ind; intros Hl key id.
    - change (fold_left _ [] ∅) with (∅ : gmap string string). rewrite lookup_empty. split; [done|]. by intros (_ & p & ?%elem_of_nil & _).
    - rewrite fold_left_app. cbn [fold_left]. cbv zeta. assert (∀ kp, kp ∈ l → pats !! kp.1 = Some kp.2) as Hl' by (intros kp ?; apply Hl, elem_of_app; by left).
      specialize (IH Hl'). set (m := fold_left _ l ∅) in *. assert (pats !! i = Some q) as Hq by (apply (Hl (i, q)), elem_of_app; right; by apply list_elem_of_singleton).
      set (kq := TaskPattern.SequenceKey q). assert ((∃ p, (id, p) ∈ l ++ [(i, q)] ∧ TaskPattern.SequenceKey p = key) ↔
        (∃ p, (id, p) ∈ l ∧ TaskPattern.SequenceKey p = key) ∨ id = i ∧ kq = key) as ->.
      { setoid_rewrite elem_of_app. setoid_rewrite list_elem_of_singleton. split.
        - intros (p & [Hp|[= -> ->]] & Hk); [left; by exists p|by right].
        - intros [(p & Hp & Hk)|[-> Hk]]; [exists p; by split; [left|]|exists q; by split; [right|]]. }
      assert (kq ≠ "" → idx !! kq = Some i) as Hi by (intros Hk; apply H; split; [exact Hk|by exists q]).
      cbn [fst snd]. fold kq. destruct (String.eqb_spec kq "") as [Hk|Hk].
      + rewrite IH. split; [tauto|]. intros [H1 [H2|[_ H2]]]; [done|]. apply H in H1 as [H1 _]. by destruct H1; rewrite <- H2.
      + specialize (Hi Hk). destruct (m !! kq) as [i'|] eqn:Em.
        * apply IH in Em as [E1 E2]. assert (i' = i) as -> by congruence. rewrite IH. split; [tauto|]. intros [H1 [H2|[-> H2]]]; [done|]. by rewrite <- H2.
        * destruct (decide (key = kq)) as [->|Hne].
          -- rewrite lookup_insert_eq. split; [intros [= <-]; split; [exact Hi|by right]|]. intros [H1 _]. congruence.
          -- rewrite lookup_insert_ne by congruence. rewrite IH. split; [tauto|]. intros [H1 [H2|[_ H2]]]; [done|]. by destruct Hne. }
  apply map_eq. intros key. apply option_eq. intros id. rewrite Hl.
  - split; [tauto|]. intros E. split; [exact E|]. apply H in E as [Hk (p & Hp & Hpk)]. exists p. by rewrite range_order_lookup.
  - intros [k p] Hin. by apply range_order_lookup in Hin.
Qed.
End patterns_ok.

(** *** The index of the skills *)

Lemma affinity_known affs by_skill key sa sa' : affinities_indexed affs by_skill → affs !! key = Some sa → SkillAffinity.AddedSkill sa' = SkillAffinity.AddedSkill sa →
  affinities_indexed (<[key := sa']> affs) by_skill.
Proof.
  intros H Hs E skill Hk. destruct (H skill Hk) as [H1 H2]. split; [exact H1|]. intros k. rewrite (H2 k). destruct (decide (k = key)) as [->|Hne].
  - rewrite lookup_insert_eq, Hs. split; intros (q & [= <-] & Hq); eexists; (split; [reflexivity|]); congruence.
  - by rewrite lookup_insert_ne by congruence.
Qed.
Lemma affinity_new affs by_skill by_skill' key sa : affinities_indexed affs by_skill → affs !! key = None →
  (∀ skill, skill ≠ "" → default [] (by_skill' !! skill) =
    if String.eqb (SkillAffinity.AddedSkill sa) skill then default [] (by_skill !! skill) ++ [key] else default [] (by_skill !! skill)) →
  affinities_indexed (<[key := sa]> affs) by_skill'.
Proof.
  intros H Hn Hb skill Hk. destruct (H skill Hk) as [H1 H2]. rewrite (Hb skill Hk).
  assert (∀ k, (∃ q, <[key := sa]> affs !! k = Some q ∧ SkillAffinity.AddedSkill q = skill) ↔
    k ∈ default [] (by_skill !! skill) ∨ k = key ∧ SkillAffinity.AddedSkill sa = skill) as He.
  { intros k. rewrite (H2 k). destruct (decide (k = key)) as [->|Hne].
    - rewrite lookup_insert_eq, Hn. split; [intros (q & [= <-] & Hq); by right|]. intros [(q & ? & _)|[_ Hq]]; [discriminate|by exists sa].
    - rewrite lookup_insert_ne by congruence. split; [by left|by intros [?|[? _]]]. }
  setoid_rewrite He. destruct (String.eqb_spec (SkillAffinity.AddedSkill sa) skill) as [Es|Es].
  - split; [|intros k; rewrite elem_of_app, list_elem_of_singleton; tauto]. apply NoDup_app. split; [exact H1|]. split; [|apply NoDup_singleton].
    intros k Hin Hk'%list_elem_of_singleton. subst k. apply H2 in Hin as (q & Hq & _). congruence.
  - split; [exact H1|]. intros k. tauto.
Qed.
Lemma affinities_changed affs by_skill (f : SkillAffinity.t → SkillAffinity.t) : (∀ a, SkillAffinity.AddedSkill (f a) = SkillAffinity.AddedSkill a) →
  affinities_indexed affs by_skill → affinities_indexed (f <$> affs) by_skill.
Proof.
  intros Hf H skill Hk. destruct (H skill Hk) as [H1 H2]. split; [exact H1|]. intros k. rewrite (H2 k), lookup_fmap. split.
  - intros (sa & -> & E). exists (f sa). by rewrite Hf.
  - intros (sa & E & Ea). destruct (affs !! k) as [sa'|]; [|discriminate E]. injection E as <-. exists sa'. by rewrite Hf in Ea.
Qed.
Lemma rebuilt_affinities affs ord : range_order affs ord →
  affinities_indexed affs (fold_left (λ (m : gmap string (list string)) (ka : string * SkillAffinity.t),
    let skill := SkillAffinity.AddedSkill ka.2 in
    if String.eqb skill "" then m else <[skill := default [] (m !! skill) ++ [ka.1]]> m) (range affs ord) ∅).
Proof.
  intros Ho. set (step := λ (m : gmap string (list string)) (ka : string * SkillAffinity.t), _).
  assert (∀ l, NoDup l.*1 → affinities_indexed (list_to_map l) (fold_left step l ∅)) as Hl.
  { induction l as [|[k sa] l IH] using rev_ind.
    - intros _ skill _. change (fold_left step [] ∅) with (∅ : gmap string (list string)). rewrite lookup_empty. split; [constructor|]. intros k. split; [by intros ?%elem_of_nil|].
      intros (sa & E & _). change (list_to_map []) with (∅ : gmap string SkillAffinity.t) in E. by rewrite lookup_empty in E.
    - rewrite fmap_app. intros Hd. pose proof Hd as (Hd1 & Hn & _)%NoDup_app.
      assert (k ∉ l.*1) as Hk by (intros Hin; apply (Hn _ Hin); by apply list_elem_of_singleton).
      assert (list_to_map (M := gmap string SkillAffinity.t) (l ++ [(k, sa)]) = <[k := sa]> (list_to_map l)) as ->.
      { rewrite (list_to_map_proper (l ++ [(k, sa)]) ((k, sa) :: l)); [reflexivity| |by rewrite Permutation_app_comm]. by rewrite fmap_app. }
      rewrite fold_left_app. cbn [fold_left]. apply (affinity_new _ (fold_left step l ∅)); [by apply IH|by apply not_elem_of_list_to_map_1|].
      intros skill Hs. unfold step at 1. cbn [fst snd]. cbv zeta. destruct (String.eqb_spec (SkillAffinity.AddedSkill sa) "") as [E|E].
      + destruct (String.eqb_spec (SkillAffinity.AddedSkill sa) skill) as [E'|]; [congruence|reflexivity].
      + destruct (String.eqb_spec (SkillAffinity.AddedSkill sa) skill) as [<-|Hne]; [by rewrite lookup_insert_eq|by rewrite lookup_insert_ne]. }
  specialize (Hl (range affs ord) (range_keys_NoDup _ _ (range_order_NoDup _ _ Ho))).
  assert (list_to_map (range affs ord) = affs) as E; [|by rewrite E in Hl].
  apply map_eq. intros k. apply option_eq. intros v. rewrite <- elem_of_list_to_map; [by apply range_order_lookup|].
  apply range_keys_NoDup. exact (range_order_NoDup _ _ Ho).
Qed.

Section learning_ok.
Context (S : ExpSettings.t) (tidy : bool).
Lemma sample_ok now capability skill delta es : store_ok S tidy es → store_ok S tidy (sample_affinity now capability skill delta es).
Proof.
  intros H. unfold sample_affinity. cbv zeta. destruct (_ !! _) as [sa|] eqn:E.
  - rest_ok H. by apply (affinity_known _ _ _ sa); [apply H|exact E|].
  - rest_ok H. apply (affinity_new _ (ExperienceStore.skillAffinityBySkill es)); [apply H|exact E|]. intros s Hs.
    change (SkillAffinity.AddedSkill _) with skill. unfold update. cbn [ExperienceStore.skillAffinityBySkill].
    destruct (String.eqb_spec skill s) as [<-|Hne]; [by rewrite lookup_insert_eq|by rewrite lookup_insert_ne].
Qed.
Lemma seed_affinity_ok a es : store_ok S tidy es → store_ok S tidy (seed_affinity es a).
Proof.
  intros H. unfold seed_affinity. cbv zeta. destruct (_ !! _) as [sa|] eqn:E; [exact H|]. rest_ok H.
  apply (affinity_new _ (ExperienceStore.skillAffinityBySkill es)); [apply H|exact E|]. intros s Hs.
  change (SkillAffinity.AddedSkill (a <| SkillAffinity.IsSeed := true |>)) with (SkillAffinity.AddedSkill a). unfold update. cbn.
  destruct (String.eqb_spec (SkillAffinity.AddedSkill a) "") as [E0|E0].
  - destruct (String.eqb_spec (SkillAffinity.AddedSkill a) s); [congruence|reflexivity].
  - destruct (String.eqb_spec (SkillAffinity.AddedSkill a) s) as [<-|Hne]; [by rewrite lookup_insert_eq|by rewrite lookup_insert_ne].
Qed.
Lemma count_run_ok status id rp : profile_adds_up id rp → profile_adds_up id (count_run status rp).
Proof.
  intros (H1 & H2 & H3 & H4 & H5). unfold count_run, profile_adds_up, update. destruct rp. cbn in *.
  destruct (String.eqb _ _); [|destruct (String.eqb _ _)]; cbn; (do 4 (split; [lia|])); exact H5.
Qed.
Lemma profile_ok now rec es : store_ok S tidy es → store_ok S tidy (updateRoleProfile now rec es).
Proof.
  intros H. unfold updateRoleProfile. cbv zeta. set (rp := count_run _ _).
  assert (profile_adds_up (StepRecord.RoleID rec) rp) as (H1 & H2 & H3 & H4 & H5).
  { apply count_run_ok. destruct (_ !! _) as [p|] eqn:E; [exact (ok_profiles _ _ _ H _ _ E)|]. change (default _ None) with
      (RoleProfile.mk (StepRecord.RoleID rec) 0 0 0 0 float_zero [] 0). by repeat split; cbn; lia. }
  clearbody rp. generalize (running (RoleProfile.AvgConfidence rp) (RoleProfile.TotalRuns rp) (StepRecord.Confidence rec)). intros c.
  rest_ok H. apply map_Forall_insert_2; [|apply H].
  split; [exact H1|]. split; [exact H2|]. split; [exact H3|]. split; [exact H4|].
  change (length (if bool_decide (StepRecord.MissingContext rec = []) then RoleProfile.CommonMissingContext rp
    else keep_last 100 (RoleProfile.CommonMissingContext rp ++ StepRecord.MissingContext rec)) <= 100)%nat.
  destruct (bool_decide _); [exact H5|]. pose proof (keep_last_length 100 (RoleProfile.CommonMissingContext rp ++ StepRecord.MissingContext rec)). lia.
Qed.
Lemma visit_ok now success es state : store_ok S tidy es → store_ok S tidy (visit_state now success es state).
Proof.
  intros H. unfold visit_state. cbv zeta. set (sp := default _ _).
  assert (potential_in_bounds state sp) as Hsp.
  { unfold sp. destruct (_ !! state) as [p|] eqn:E; [exact (ok_potentials _ _ _ H _ _ E)|]. change (0 ≤ 0 ≤ 0). lia. }
  rest_ok H. apply map_Forall_insert_2; [|apply H]. clearbody sp. unfold potential_in_bounds, update in *. destruct sp. cbn in *. destruct success; lia.
Qed.
Lemma learn_ok now success es rec : store_ok S tidy es → store_ok S tidy (learn_step S now success es rec).
Proof.
  intros H. unfold learn_step, updateSkillMetabolicCost, updateStatePotentials, updateSkillAffinities. cbv zeta.
  apply fold_keeps; [intros es' id H'; rest_ok H'|]. apply fold_keeps; [intros; by apply visit_ok|]. apply fold_keeps; [intros; by apply sample_ok|by apply profile_ok].
Qed.
Lemma penalty_ok now records es : store_ok S tidy es → store_ok S tidy (applyTaskLevelPenalty now records es).
Proof.
  intros H. unfold applyTaskLevelPenalty. apply (fold_keeps (λ acc : list string * ExperienceStore.t, store_ok S tidy acc.2)); [|exact H].
  intros acc [c s] Ha. cbv zeta. destruct (bool_decide _); [exact Ha|by apply sample_ok].
Qed.
Lemma task_ok {SL : Sorter} now newID ord taskID records conf decisions success attributable es : store_ok S tidy es →
  range_order (ExperienceStore.TaskPatterns es) ord → ExperienceStore.TaskPatterns es !! newID = None →
  store_ok S tidy (RecordTaskCompletion S now newID ord taskID records conf decisions success attributable es).
Proof.
  intros H Ho Hid. unfold RecordTaskCompletion. cbv zeta. pose proof (upsert_ok S tidy now newID ord taskID (deriveTaskType records) records conf es H Ho Hid) as H0.
  revert H0. generalize (upsertTaskPattern now newID ord taskID (deriveTaskType records) records conf es). clear H Ho Hid es. intros es H.
  assert (store_ok S tidy (fold_left (learn_step S now success) records es)) as H1 by (apply fold_keeps; [intros; by apply learn_ok|exact H]).
  revert H1. generalize (fold_left (learn_step S now success) records es). clear H es. intros es H.
  set (es1 := es <| ExperienceStore.cooccurrences ::= _ |>). assert (store_ok S tidy es1) as H1 by rest_ok H. clearbody es1. clear H es.
  assert (store_ok S tidy (if negb success && attributable then applyTaskLevelPenalty now records es1 else es1)) as H by (destruct (_ && _); [by apply penalty_ok|exact H1]).
  revert H. generalize (if negb success && attributable then applyTaskLevelPenalty now records es1 else es1). clear H1 es1. intros es H.
  assert (store_ok S tidy (fold_left (λ es r, updateRoleAffinity r (deriveTaskType records) success es) (roles_once records) es)) as H1.
  { apply fold_keeps; [|exact H]. intros es' r H'. rest_ok H'. }
  revert H1. generalize (fold_left (λ es r, updateRoleAffinity r (deriveTaskType records) success es) (roles_once records) es). clear H es. intros es H.
  rest_ok H. apply keep_last_length, limit_outcomes.
Qed.
Lemma exposures_evicted ord : ∀ m, range_order m ord → (size (evict_exposures ord m) <= maxSkillExposureKeys)%nat.
Proof.
  induction ord as [|k ord IH]; intros m Ho; cbn [evict_exposures]; destruct (Nat.ltb_spec maxSkillExposureKeys (size m)) as [Hs|Hs]; [|exact Hs| |exact Hs].
  - assert (size m = 0%nat) as E; [|lia]. unfold range_order in Ho. apply Permutation_length in Ho. rewrite <- size_dom. unfold size, set_size. exact (eq_sym Ho).
  - apply IH. unfold range_order in *. rewrite dom_delete_L. assert (k ∈ dom m) as Hk by (apply elem_of_elements; rewrite <- Ho; apply elem_of_cons; by left).
    apply (Permutation_cons_inv (a := k)). rewrite Ho. rewrite (union_difference_L {[k]} (dom m)) at 1 by set_solver.
    rewrite elements_disj_union by set_solver. by rewrite elements_singleton.
Qed.
End learning_ok.

(** *** Runs *)

Section runs.
Context {SL : Sorter} (S : ExpSettings.t) (math_Exp : float64 → float64) (math_Pow : float64 → float64 → float64).
(** What outlives the process. *)
Definition saved (es : ExperienceStore.t) : ExperienceStore.t :=
  es <| ExperienceStore.sequenceKeyIndex := ∅ |> <| ExperienceStore.skillAffinityBySkill := ∅ |> <| ExperienceStore.patternTokensCache := None |>
     <| ExperienceStore.skillExposures := ∅ |> <| ExperienceStore.DecisionOutcomes := [] |> <| ExperienceStore.cooccurrences := [] |>.
(** One operation: ids that are made up are new, a map is ranged over once; and
    whether it keeps the index of the sequences.  A replay that reuses the id of a
    pattern under a new sequence, a seed whose sequence is known already and the
    pruning of patterns do not. *)
Inductive op_step (es : ExperienceStore.t) : bool → ExperienceStore.t → Prop :=
  | op_completes now newID ord taskID records conf decisions success attributable :
      ExperienceStore.TaskPatterns es !! newID = None → range_order (ExperienceStore.TaskPatterns es) ord →
      op_step es true (RecordTaskCompletion S now newID ord taskID records conf decisions success attributable es)
  | op_replays now id key text verified :
      op_step es (bool_decide (is_Some (ExperienceStore.sequenceKeyIndex es !! key) ∨ ExperienceStore.TaskPatterns es !! id = None))
        (UpsertTaskPatternFromReplay now id key text verified es)
  | op_routes now roleID modelID skill capability score success : op_step es true (UpdateRouteWeight math_Exp now roleID modelID skill capability score success es)
  | op_candidate now c : op_step es true (AddJITCandidate now c es)
  | op_log log : op_step es true (AddPromotionAuditLog S log es)
  | op_issue now cmd message : op_step es true (RecordEnvironmentIssue now cmd message es)
  | op_expose ord taskID stepID ids :
      range_order (<[exposure_key taskID stepID := ids]> (ExperienceStore.skillExposures es)) ord → op_step es true (RecordSkillExposure ord taskID stepID ids es)
  | op_take taskID stepID : op_step es true (TakeSkillExposures taskID stepID es).1
  | op_skill skill : op_step es true (AddGeneratedSkill skill es)
  | op_verify id verified : op_step es true (UpdateGeneratedSkillVerified id verified es)
  | op_use now id : op_step es true (IncrementGeneratedSkillUsage now id es)
  | op_embed id vec model :
      op_step es true (es <| ExperienceStore.GeneratedSkills ::= alter (λ g, g <| GeneratedSkill.Embedding := vec |> <| GeneratedSkill.EmbeddingModel := model |>) id |>)
  | op_prune ord1 ord2 : op_step es true (PruneSkills ord1 ord2 es).1
  | op_metabolize now ord : op_step es true (PruneByMetabolicROI now ord es).1
  | op_prune_stale registered : op_step es false (PruneStaleJITRefs registered es).1
  | op_seed_pattern p : op_step es (bool_decide (ExperienceStore.sequenceKeyIndex es !! TaskPattern.SequenceKey p = None)) (seed_pattern es p)
  | op_seed_affinity a : op_step es true (seed_affinity es a)
  | op_restart now ord1 ord2 :
      range_order (ExperienceStore.TaskPatterns es) ord1 → range_order (ExperienceStore.SkillAffinities es) ord2 →
      op_step es true (load_store math_Pow now ord1 ord2 (saved es)).
(** The stores runs reach; tidy: every operation of the run kept the index. *)
Inductive reached : bool → ExperienceStore.t → Prop :=
  | reached_empty : reached true empty_store
  | reached_step tidy keeps es es' : reached tidy es → op_step es keeps es' → reached (tidy && keeps) es'.

Lemma archive_one_ok tidy es kg : store_ok S tidy es → store_ok S tidy (archive_skill es kg).
Proof. intros H. rest_ok H. Qed.
Lemma restart_ok tidy now ord1 ord2 es : store_ok S tidy es → range_order (ExperienceStore.TaskPatterns es) ord1 → range_order (ExperienceStore.SkillAffinities es) ord2 →
  store_ok S tidy (load_store math_Pow now ord1 ord2 (saved es)).
Proof.
  intros H H1 H2. set (f := λ a : SkillAffinity.t, match (if SkillAffinity.IsSeed a then None else temporal_decay math_Pow now (SkillAffinity.LastUpdated a)) with
          | Some d => a <| SkillAffinity.ConfidenceDelta ::= λ r, fmul r d |> <| SkillAffinity.SampleCount ::= λ n, scale_count n d |>
          | None => a
          end). rest_ok H.
  - intros Ht. pose proof (ok_patterns _ _ _ H Ht) as Hi. rewrite <- (rebuilt_patterns _ _ ord1 Hi H1) in Hi. exact Hi.
  - assert (range_order (f <$> ExperienceStore.SkillAffinities es) ord2) as Ho.
    { apply (range_order_dom (ExperienceStore.SkillAffinities es)); [|exact H2]. symmetry. exact (dom_fmap_L f (ExperienceStore.SkillAffinities es)). }
    exact (rebuilt_affinities (f <$> ExperienceStore.SkillAffinities es) ord2 Ho).
  - change (0 ≤ getMaxDecisionOutcomes S). apply limit_outcomes.
  - change (size (∅ : gmap string (list string)) <= maxSkillExposureKeys)%nat. rewrite map_size_empty. lia.
Qed.
Lemma keep_any tidy es es' : store_ok S tidy es → (store_ok S true es → store_ok S true es') → (store_ok S false es → store_ok S false es') →
  store_ok S tidy es'.
Proof. destruct tidy; auto. Qed.
Lemma loosen tidy es : store_ok S tidy es → store_ok S false es.
Proof. destruct tidy; [apply untidy|done]. Qed.
Lemma op_step_ok tidy keeps es es' : store_ok S tidy es → op_step es keeps es' → store_ok S (tidy && keeps) es'.
Proof.
  intros H []; rewrite ?andb_true_r.
  1: by apply task_ok.
  all: try (rest_ok H; fail).
  - case_bool_decide as Hc; rewrite ?andb_true_r, ?andb_false_r; [|by apply replay_loose, (loosen tidy)].
    apply (keep_any tidy es); [exact H| |apply replay_loose]. intros H'. by apply replay_tidy.
  - rest_ok H. apply keep_last_length, limit_logs.
  - unfold RecordSkillExposure. destruct (_ || _); [exact H|]. rest_ok H. apply exposures_evicted.
    by apply (range_order_dom (<[exposure_key taskID stepID := ids]> (ExperienceStore.skillExposures es))); [rewrite !dom_insert_L|].
  - unfold TakeSkillExposures. destruct (String.eqb _ _); [exact H|]. cbn [fst]. destruct (bool_decide _); [exact H|]. rest_ok H.
    pose proof (ok_exposures _ _ _ H) as Hx. etransitivity; [|exact Hx]. apply map_subseteq_size, delete_subseteq.
  - unfold PruneSkills. apply fold_keeps; [intros; by apply archive_one_ok|exact H].
  - unfold PruneByMetabolicROI. apply (fold_keeps (λ acc : ExperienceStore.t * list string, store_ok S tidy acc.1)); [|exact H].
    intros acc kg Ha. destruct (metabolize now kg.2) as [g []]; [by apply archive_one_ok|rest_ok Ha].
  - rewrite andb_false_r. by apply prune_stale_loose, (loosen tidy).
  - case_bool_decide as Hc; rewrite ?andb_true_r, ?andb_false_r; [|by apply seed_pattern_loose, (loosen tidy)].
    apply (keep_any tidy es); [exact H| |apply seed_pattern_loose]. intros H'. by apply seed_pattern_tidy.
  - by apply seed_affinity_ok.
  - by apply restart_ok.
Qed.
End runs.

(** ** Examples *)

Definition sk (id parent : string) : GeneratedSkill.t :=
  GeneratedSkill.mk id "" "build" 0 float_zero 0 false parent "" "" "" [] "" 0 float_zero float_zero "".
Definition aff (id : string) (delta n : Z) : string * SkillAffinity.t := (affinity_key "build" id, SkillAffinity.mk "build" id (fpct delta) n 0 false).
Definition pruned_store : ExperienceStore.t :=
  empty_store <| ExperienceStore.GeneratedSkills := list_to_map [("root", sk "root" ""); ("weak", sk "weak" "root"); ("good", sk "good" "root"); ("new", sk "new" "root")] |>
    <| ExperienceStore.SkillAffinities := list_to_map [aff "root" (-60) 40; aff "weak" (-30) 25; aff "good" 20 30; aff "new" (-90) 5] |>.
Definition skill_order : list string := elements (dom (ExperienceStore.GeneratedSkills pruned_store)).
(** The root and the skill with few samples stay. *)
Lemma prune_exact_witness :
  (PruneSkills skill_order skill_order pruned_store).2 = ["weak"] ∧
  ∃ doomed, (PruneSkills skill_order skill_order pruned_store).1 = put_away doomed pruned_store.
Proof.
  split; [vm_compute; reflexivity|]. eexists.
  assert (scores_are_numbers pruned_store) as Hn.
  { intros k sa H. apply elem_of_list_to_map_2 in H. apply list_elem_of_In in H as [H|[H|[H|[H|[]]]]]; injection H as <- <-; vm_compute; reflexivity. }
  apply (prune_exact skill_order skill_order skill_order pruned_store Hn); apply range_order_exists.
Defined.

Definition exp_settings : ExpSettings.t := ExpSettings.mk float_zero 0 0.
Definition a_step : StepRecord.t :=
  StepRecord.mk "s1" "coder" "" ["go"] "build" (fpct 90) "ok" 0 [] "" "build it" [ToolInteraction.mk "read" ∅ ANil None] "" ["read:1"] [] "" 0 float_zero.
Definition after_task : ExperienceStore.t :=
  RecordTaskCompletion (SL := insertion_sorter) exp_settings 10 "p1" [] "t1" [a_step] (fpct 90) [] true false empty_store.

(** A pattern that was pruned for a tool that is gone leaves its key in the index:
    what is learned next goes to a pattern without an id. *)
Definition stale_pattern : TaskPattern.t :=
  TaskPattern.zero <| TaskPattern.ID := "p" |> <| TaskPattern.SequenceKey := "k" |> <| TaskPattern.StepSequence := [[("skill", AString "jit_old")]] |>.
Definition stale_store : ExperienceStore.t :=
  empty_store <| ExperienceStore.TaskPatterns := {["p" := stale_pattern]} |> <| ExperienceStore.sequenceKeyIndex := {["k" := "p"]} |>.
Example pruned_key_stays :
  let es := UpsertTaskPatternFromReplay 5 "c" "k" "text" true (PruneStaleJITRefs (λ _, false) stale_store).1 in
  (λ p, (TaskPattern.ID p, TaskPattern.SequenceKey p)) <$> ExperienceStore.TaskPatterns es !! "p" = Some ("", "").
Proof. vm_compute. reflexivity. Qed.
(** The names of the tools of fresh patterns are not looked at: they are not a list
    of values but a list of strings. *)
Example fresh_pattern_kept : findStaleJIT (λ _, false) (AStrings ["jit_old"]) = false.
Proof. reflexivity. Qed.
