(* ===== verification/SkillChoice.v ===== *)
(** * Choosing from experience (store/experience_bandit.go, the queries of
    store/experience_skills.go and experience_brief.go)

    Which skill to use (UCB1 over what was learned), which to recommend, which fit
    a task by words or vectors, which repair an error; patterns like a task; what
    was decided before.  Logarithm and hyperbolic tangent, the letters beyond
    ASCII, the embedding service, the operating system's name and the order of a
    map are arguments; sorting is [sort.Slice] ([Sorter]). *)
From Stdlib Require Import Ascii SpecFloat.
From S2P Require Import Prelude SliceSort Forest Search Archive ToolCalls Experience.
Local Open Scope Z_scope.

Section choice.
Context {SL : Sorter} (S : ExpSettings.t) (unicode_word : Z → bool) (goos : string).

(** ** What is known of a skill *)

(** The store's copy of the function of pkg/search. *)
Definition tokenize (s : string) : gmap string Z := Tokenize unicode_word s.
(** The words two descriptions share. *)
Definition shared_words (ta tb : gmap string Z) : Z := Z.of_nat (size (dom ta ∩ dom tb)).
Definition capabilitySimilarity (a b : string) : float64 :=
  let ta := tokenize a in
  let tb := tokenize b in
  if bool_decide (ta = ∅) || bool_decide (tb = ∅) then float_zero
  else fdiv (float_of_int (shared_words ta tb)) (float_of_int (Z.of_nat (Nat.min (size ta) (size tb)))).
Definition similarityMinRatio : float64 := f_half.
Definition similaritySmoothingDamp : float64 := f_half.
(** The most similar so far: its similarity and score. *)
Definition more_similar (capability : string) (best : option (float64 * float64)) (x : string * float64) : option (float64 * float64) :=
  let sim := capabilitySimilarity capability x.1 in
  if negb (fltb sim similarityMinRatio) && fltb (default float_zero (fst <$> best)) sim then Some (sim, x.2) else best.
Definition foreign (gs : GeneratedSkill.t) : bool := negb (String.eqb (GeneratedSkill.OS gs) "") && negb (String.eqb (GeneratedSkill.OS gs) goos).
Definition routes_of (es : ExperienceStore.t) (roleID modelID : string) : gmap string (gmap string RouteWeight.t) :=
  default ∅ (default ∅ (ExperienceStore.RoutingMatrix es !! roleID) !! modelID).
Definition sampled_affinity (sa : SkillAffinity.t) : option (string * float64) :=
  if SkillAffinity.SampleCount sa =? 0 then None else Some (SkillAffinity.BaseCapability sa, SkillAffinity.ConfidenceDelta sa).
(** The affinities of a skill: by the index, or by looking at all of them. *)
Definition affinities_of (ord : list string) (skillID : string) (es : ExperienceStore.t) : list (string * float64) :=
  if (0 <? size (ExperienceStore.skillAffinityBySkill es))%nat
  then omap (λ k, ExperienceStore.SkillAffinities es !! k ≫= sampled_affinity) (default [] (ExperienceStore.skillAffinityBySkill es !! skillID))
  else omap (λ ka : string * SkillAffinity.t, if String.eqb (SkillAffinity.AddedSkill ka.2) skillID then sampled_affinity ka.2 else None)
         (range (ExperienceStore.SkillAffinities es) ord).
Definition routed (ord : list string) (roleID modelID skillID : string) (es : ExperienceStore.t) : list (string * float64) :=
  omap (λ cm : string * gmap string RouteWeight.t,
    match cm.2 !! skillID with
    | Some rw => if RouteWeight.TotalRuns rw =? 0 then None else Some (cm.1, RouteWeight.Weight rw)
    | None => None
    end) (range (routes_of es roleID modelID) ord).
(** Score and samples of its own, by the affinity. *)
Definition affinity_score (ord1 ord2 : list string) (roleID modelID capability skillID : string) (es : ExperienceStore.t) : float64 * Z :=
  let similar :=
    match fold_left (more_similar capability) (affinities_of ord1 skillID es ++ routed ord2 roleID modelID skillID es) None with
    | Some (_, score) => (fmul score similaritySmoothingDamp, 0)
    | None => (float_zero, 0)
    end in
  match ExperienceStore.SkillAffinities es !! affinity_key capability skillID with
  | Some sa => if 0 <? SkillAffinity.SampleCount sa then (SkillAffinity.ConfidenceDelta sa, SkillAffinity.SampleCount sa) else similar
  | None => similar
  end.
Definition experienceScore (ord1 ord2 : list string) (roleID modelID capability skillID : string) (es : ExperienceStore.t) : float64 * Z :=
  if match ExperienceStore.GeneratedSkills es !! skillID with Some gs => foreign gs | None => false end then (float_of_int (-1), 0)
  else
    match (default ∅ (routes_of es roleID modelID !! capability) : gmap string RouteWeight.t) !! skillID with
    | Some rw =>
        if 0 <? RouteWeight.TotalRuns rw then (RouteWeight.Weight rw, RouteWeight.TotalRuns rw)
        else affinity_score ord1 ord2 roleID modelID capability skillID es
    | None => affinity_score ord1 ord2 roleID modelID capability skillID es
    end.

(** ** UCB1 *)

(** The best so far, its score, and whether it was never tried. *)
Definition better_arm (math_Log : float64 → float64) (explorationC : float64) (totalSamples : Z) (best : string * float64 * bool) (c : string * float64 * Z) :
    string * float64 * bool :=
  let '(_, bestScore, bestUnvisited) := best in
  let '(id, score, samples) := c in
  if samples =? 0 then if negb bestUnvisited || fltb bestScore score then (id, score, true) else best
  else if bestUnvisited then best
  else
    let ucb := fadd score (fmul explorationC (fsqrt (fdiv (math_Log (float_of_int (totalSamples + 1))) (float_of_int samples)))) in
    if fltb bestScore ucb then (id, ucb, false) else best.
Definition arms (ord1 ord2 : list string) (availableSkills : list string) (capability roleID modelID : string) (es : ExperienceStore.t) : list (string * float64 * Z) :=
  (λ sid, let '(score, samples) := experienceScore ord1 ord2 roleID modelID capability sid es in (sid, score, samples)) <$> availableSkills.
Definition SelectSkill (math_Log : float64 → float64) (ord1 ord2 : list string) (availableSkills : list string) (capability roleID modelID : string)
    (epsilon : float64) (es : ExperienceStore.t) : string :=
  match availableSkills with
  | [] => ""
  | first :: _ =>
      let explorationC := if fleb epsilon float_zero then fpct 10 else epsilon in
      let cands := arms ord1 ord2 availableSkills capability roleID modelID es in
      (fold_left (better_arm math_Log explorationC (foldr (λ c n, c.2 + n) 0 cands)) cands (first, S754_infinity true, false)).1.1
  end.

(** ** Recommendations *)

Definition maxRecommendations : nat := 10.
Definition trusted (sa : SkillAffinity.t) : bool := SkillAffinity.IsSeed sa || (2 <=? SkillAffinity.SampleCount sa).
Definition recommended (minConfidence : float64) (sa : SkillAffinity.t) : bool :=
  trusted sa && fleb minConfidence (fadd (getConfidenceThreshold S) (SkillAffinity.ConfidenceDelta sa)).
Definition scored_skill (sa : SkillAffinity.t) : string * float64 := (SkillAffinity.AddedSkill sa, SkillAffinity.ConfidenceDelta sa).
Definition top_skills (candidates : list (string * float64)) : list string :=
  (take maxRecommendations (sort_by (λ a b : string * float64, fltb b.2 a.2) candidates)).*1.
Definition QuerySkillRecommendations (ord : list string) (capability : string) (minConfidence : float64) (es : ExperienceStore.t) : list string :=
  top_skills (scored_skill <$> List.filter (λ sa, String.eqb (SkillAffinity.BaseCapability sa) capability && recommended minConfidence sa)
    (range (ExperienceStore.SkillAffinities es) ord).*2).
(** One pass fills the candidates of every capability asked for. *)
Definition QuerySkillRecommendationsBatch (ord : list string) (capabilities : list string) (minConfidence : float64) (es : ExperienceStore.t) : gmap string (list string) :=
  top_skills <$> fold_left (λ (buckets : gmap string (list (string * float64))) sa,
    if bool_decide (SkillAffinity.BaseCapability sa ∈ capabilities) && recommended minConfidence sa
    then <[SkillAffinity.BaseCapability sa := default [] (buckets !! SkillAffinity.BaseCapability sa) ++ [scored_skill sa]]> buckets
    else buckets) (range (ExperienceStore.SkillAffinities es) ord).*2 ∅.

(** ** Decisions *)

Definition resolved_for (decisionType roleID : string) (d : DecisionOutcome.t) : bool :=
  String.eqb (DecisionOutcome.DecisionType d) decisionType && String.eqb (DecisionOutcome.RoleID d) roleID && DecisionOutcome.Resolved d.
(** [ord]: the order of the choices; the first with the most votes wins. *)
Definition QueryDecisionAdvice (ord : list string) (decisionType roleID : string) (es : ExperienceStore.t) : option DecisionOutcome.t :=
  match List.filter (resolved_for decisionType roleID) (ExperienceStore.DecisionOutcomes es) with
  | [] => None
  | ds =>
      let counts := fold_left (λ m d, <[DecisionOutcome.Choice d := default 0 (m !! DecisionOutcome.Choice d) + 1]> m) ds (∅ : gmap string Z) in
      let best := fold_left (λ best (c : string * Z), if best.2 <? c.2 then c else best) (range counts ord) ("", -1) in
      let confs := omap DecisionOutcome.FinalConfidence ds in
      let latest := fold_left (λ t d, Z.max t (DecisionOutcome.Timestamp d)) ds 0 in
      Some (DecisionOutcome.mk decisionType roleID "" best.1 true
        (if bool_decide (confs = []) then None else Some (fdiv (fold_left fadd confs float_zero) (float_of_int (Z.of_nat (length confs))))) latest)
  end.

(** ** Patterns like a task *)

Section patterns.
Context (math_Log math_Tanh : float64 → float64).
Definition pattern_tokens (p : TaskPattern.t) : gmap string Z := tokenize (TaskPattern.SourceText p +:+ " " +:+ TaskPattern.TaskType p).
Definition doc_len (tokens : gmap string Z) : Z := sum_counts tokens.
Definition k1 : float64 := fdiv (float_of_int 12) (float_of_int 10).
Definition b : float64 := fpct 75.
(** [ord]: the order of the query's words; [cache]: the words of the patterns. *)
Definition bm25 (ord : list string) (n : Z) (cache : gmap string (gmap string Z)) (query : gmap string Z) (tokens : gmap string Z) : float64 :=
  let avgdl := fdiv (float_of_int (map_fold (λ _ t acc, doc_len t + acc) 0 cache)) (float_of_int n) in
  fold_left (λ s (tq : string * Z),
    let df := Z.of_nat (size (filter (λ kt : string * gmap string Z, is_Some (kt.2 !! tq.1)) cache)) in
    let f := float_of_int (default 0 (tokens !! tq.1)) in
    if (df =? 0) || negb (fltb float_zero f) then s
    else
      let fdf := float_of_int df in
      let idf := math_Log (fadd f1 (fdiv (fadd (fsub (float_of_int n) fdf) f_half) (fadd fdf f_half))) in
      let norm := fadd (fsub f1 b) (fdiv (fmul b (float_of_int (doc_len tokens))) avgdl) in
      fadd s (fmul (fdiv (fmul idf (fmul f (fadd k1 f1))) (fadd f (fmul k1 norm))) (float_of_int tq.2))) (range query ord) float_zero.
(** [qord], [ord]: the orders of the query's words and of the patterns. *)
Definition QuerySimilarPatterns (qord ord : list string) (capabilities : list string) (limit : nat) (es : ExperienceStore.t) : ExperienceStore.t * list TaskPattern.t :=
  let patterns := ExperienceStore.TaskPatterns es in
  if (size patterns =? 0)%nat then (es, [])
  else
    let cache := default (pattern_tokens <$> patterns) (ExperienceStore.patternTokensCache es) in
    let query := tokenize (join "+" capabilities) in
    let scored := omap (λ kp : string * TaskPattern.t,
      let s := math_Tanh (fdiv (bm25 qord (Z.of_nat (size patterns)) cache query (default ∅ (cache !! kp.1))) (float_of_int 5)) in
      if fltb (fpct 10) s then Some (kp.2 <| TaskPattern.MatchScore := s |>) else None) (range patterns ord) in
    (es <| ExperienceStore.patternTokensCache := Some cache |>,
     take limit (sort_by (λ a b, fltb (TaskPattern.MatchScore b) (TaskPattern.MatchScore a)) scored)).
Definition QueryJITCandidates (qord ord : list string) (taskText : string) (minSamples : Z) (minConfidence : float64) (limit : nat) (es : ExperienceStore.t) :
    ExperienceStore.t * list TaskPattern.t :=
  if String.eqb taskText "" || (limit =? 0)%nat then (es, [])
  else
    let '(es, pool) := QuerySimilarPatterns qord ord [taskText] (limit * 5) es in
    (es, take limit (List.filter (λ p, (minSamples <=? TaskPattern.SampleCount p) && fleb minConfidence (TaskPattern.AvgConfidence p)) pool)).
End patterns.

(** ** Skills that fit a task *)

Definition skillSemanticFloor : float64 := f_half.
Definition skillLazyEmbedBudget : nat := 3.
(** [live]: the probe of the registry, [None] without one. *)
Definition alive (live : option (string → bool)) (id : string) : bool :=
  match live with Some probe => negb (has_prefix "jit_" id && negb (probe id)) | None => true end.
Definition filterDeadSkillIDs (live : option (string → bool)) (ids : list string) : list string := List.filter (alive live) ids.
Definition QuerySkillsBySignal (ord : list string) (live : option (string → bool)) (signal : string) (es : ExperienceStore.t) : list string :=
  if String.eqb signal "" then []
  else filterDeadSkillIDs live (List.filter (λ kg : string * GeneratedSkill.t,
         negb (foreign kg.2) && negb (String.eqb (GeneratedSkill.FailureSignal kg.2) "") &&
         Prelude.contains (to_lower (GeneratedSkill.FailureSignal kg.2)) (to_lower signal)) (range (ExperienceStore.GeneratedSkills es) ord)).*1.

End choice.

(** [skillSnapshot]. *)
Module skillSnapshot.
Record t := mk {
  id : string; text : string; haystackLen : Z; overlapRatio : float64; embedding : list float64; embeddingModel : string;
  usageCount : Z; successRate : float64 }.
#[global] Instance eta : Eta t := λ s,
  mk (id s) (text s) (haystackLen s) (overlapRatio s) (embedding s) (embeddingModel s) (usageCount s) (successRate s).
End skillSnapshot.
(** An embedding service: a text's vector and model, or an error. *)
Abbreviation embedder := (string → option (list float64 * string)).
(** Products of [float32], summed up as [float64]. *)
Definition f32mul (x y : float64) : float64 :=
  match SFmul 24 128 x y with S754_finite s m e => binary_normalize 53 1024 (if s then Zneg m else Zpos m) e s | z => z end.
Definition cosineSimilarity (u v : list float64) : float64 :=
  if negb (length u =? length v)%nat || (length u =? 0)%nat then float_zero
  else
    let dot x y := fold_left (λ s p, fadd s (f32mul p.1 p.2)) (zip x y) float_zero in
    let normA := dot u u in
    let normB := dot v v in
    if feqb normA float_zero || feqb normB float_zero then float_zero else fdiv (dot u v) (fmul (fsqrt normA) (fsqrt normB)).
Definition same_model (model queryModel : string) : bool := String.eqb model "" || String.eqb queryModel "" || String.eqb model queryModel.

Section relevant.
Context {SL : Sorter} (unicode_word : Z → bool) (goos : string) (live : option (string → bool)) (cli : option embedder).
Definition snapshot (queryTokens : gmap string Z) (kg : string * GeneratedSkill.t) : option skillSnapshot.t :=
  let g := kg.2 in
  if foreign goos g then None
  else
    let text := if String.eqb (GeneratedSkill.Description g) "" then GeneratedSkill.Capability g
                else TrimSpace (GeneratedSkill.Description g +:+ " " +:+ GeneratedSkill.Capability g) in
    let haystack := tokenize unicode_word text in
    if bool_decide (haystack = ∅) then None
    else
      let denom := Nat.min (size queryTokens) (size haystack) in
      Some (skillSnapshot.mk kg.1 text (Z.of_nat (size haystack))
        (if (0 <? denom)%nat then fdiv (float_of_int (shared_words queryTokens haystack)) (float_of_int (Z.of_nat denom)) else float_zero)
        (GeneratedSkill.Embedding g) (GeneratedSkill.EmbeddingModel g) (GeneratedSkill.UsageCount g) (GeneratedSkill.SuccessRate g)).
Definition snapshotSkillCandidates (ord : list string) (queryTokens : gmap string Z) (es : ExperienceStore.t) : list skillSnapshot.t :=
  List.filter (λ s, alive live (skillSnapshot.id s)) (omap (snapshot queryTokens) (range (ExperienceStore.GeneratedSkills es) ord)).
Definition embedSkillQuery (text : string) : list float64 * string :=
  match cli ≫= λ f, f text with Some ([], _) | None => ([], "") | Some v => v end.
(** The candidates, most overlap first, those without any last; as many vectors as
    the budget allows. *)
Fixpoint lazy_embed (budget : nat) (queryVec : list float64) (queryModel : string) (ranked : list nat) (snaps : list skillSnapshot.t) : list skillSnapshot.t * list nat :=
  match budget, ranked with
  | O, _ | _, [] => (snaps, [])
  | Datatypes.S budget', i :: ranked =>
      match snaps !! i with
      | None => lazy_embed budget queryVec queryModel ranked snaps
      | Some s =>
          if negb (length (skillSnapshot.embedding s) =? 0)%nat && same_model (skillSnapshot.embeddingModel s) queryModel
          then lazy_embed budget queryVec queryModel ranked snaps
          else
            match cli ≫= λ f, f (skillSnapshot.text s) with
            | Some (vec, model) =>
                if (length vec =? length queryVec)%nat then
                  let s' := s <| skillSnapshot.embedding := vec |> <| skillSnapshot.embeddingModel := model |> in
                  let '(snaps, computed) := lazy_embed budget' queryVec queryModel ranked (<[i := s']> snaps) in (snaps, i :: computed)
                else lazy_embed budget queryVec queryModel ranked snaps
            | None => lazy_embed budget queryVec queryModel ranked snaps
            end
      end
  end.
Definition overlap_at (snaps : list skillSnapshot.t) (i : nat) : float64 := default float_zero (skillSnapshot.overlapRatio <$> snaps !! i).
Definition lazyEmbedSkillCandidates (queryVec : list float64) (queryModel : string) (snaps : list skillSnapshot.t) : list skillSnapshot.t * list nat :=
  if bool_decide (queryVec = []) then (snaps, [])
  else
    let all := seq 0 (length snaps) in
    let overlapping := List.filter (λ i, fltb float_zero (overlap_at snaps i)) all in
    lazy_embed skillLazyEmbedBudget queryVec queryModel
      (insertion_sort (λ i j, fltb (overlap_at snaps j) (overlap_at snaps i)) overlapping ++ List.filter (λ i, feqb (overlap_at snaps i) float_zero) all) snaps.
Definition persistSkillEmbeddings (snaps : list skillSnapshot.t) (computed : list nat) (es : ExperienceStore.t) : ExperienceStore.t :=
  fold_left (λ es s, es <| ExperienceStore.GeneratedSkills ::=
    alter (λ g, g <| GeneratedSkill.Embedding := skillSnapshot.embedding s |> <| GeneratedSkill.EmbeddingModel := skillSnapshot.embeddingModel s |>) (skillSnapshot.id s) |>)
    (omap (λ i, snaps !! i) computed) es.
Definition clamp01 (x : float64) : float64 := if fis_nan x then x else if fltb f1 x then f1 else if fltb float_zero x then x else float_zero.
Definition scoreSkillCandidate (s : skillSnapshot.t) (queryVec : list float64) (queryModel : string) : option float64 :=
  let usable := negb (length queryVec =? 0)%nat && (length (skillSnapshot.embedding s) =? length queryVec)%nat && same_model (skillSnapshot.embeddingModel s) queryModel in
  let relevance :=
    if usable then Some (clamp01 (fdiv (fsub (cosineSimilarity queryVec (skillSnapshot.embedding s)) skillSemanticFloor) (fsub f1 skillSemanticFloor)))
    else if fltb float_zero (skillSnapshot.overlapRatio s) then Some (skillSnapshot.overlapRatio s) else None in
  let ratio := fdiv (float_of_int (skillSnapshot.haystackLen s)) (float_of_int 20) in
  let threshold := fadd (fpct 25) (fmul (if fltb f1 ratio then f1 else ratio) (fpct 20)) in
  match relevance with Some r => if fltb r threshold then None else Some r | None => None end.
Definition rankSkillCandidates (snaps : list skillSnapshot.t) (queryVec : list float64) (queryModel : string) (limit : nat) : list string :=
  let scored := omap (λ s,
    let uses := float_of_int (skillSnapshot.usageCount s) in
    let confidence := fdiv (if fltb (float_of_int 10) uses then float_of_int 10 else uses) (float_of_int 10) in
    (λ r, (skillSnapshot.id s, fadd r (fmul (fmul (skillSnapshot.successRate s) confidence) (fpct 10)))) <$> scoreSkillCandidate s queryVec queryModel) snaps in
  (take limit (sort_by (λ a b : string * float64, fltb b.2 a.2) scored)).*1.
Definition QueryRelevantSkills (ord : list string) (taskType : string) (limit : nat) (es : ExperienceStore.t) : ExperienceStore.t * list string :=
  let queryTokens := tokenize unicode_word taskType in
  if bool_decide (queryTokens = ∅) || (limit =? 0)%nat then (es, [])
  else
    let snaps := snapshotSkillCandidates ord queryTokens es in
    if bool_decide (length snaps = 0%nat) then (es, [])
    else
      let '(queryVec, queryModel) := embedSkillQuery taskType in
      let '(snaps, computed) := lazyEmbedSkillCandidates queryVec queryModel snaps in
      (persistSkillEmbeddings snaps computed es, rankSkillCandidates snaps queryVec queryModel limit).
End relevant.

(** * Properties *)

(** ** UCB1 chooses as it says *)

Section ucb.
Context (math_Log : float64 → float64) (explorationC : float64) (total : Z) (first : string).
(** The upper confidence bound of a tried arm. *)
Definition ucb (c : string * float64 * Z) : float64 :=
  fadd c.1.2 (fmul explorationC (fsqrt (fdiv (math_Log (float_of_int (total + 1))) (float_of_int c.2)))).
Definition untried (c : string * float64 * Z) : bool := c.2 =? 0.
(** No arm of the list has a better value. *)
Definition best_of (value : string * float64 * Z → float64) (l : list (string * float64 * Z)) (v : float64) : Prop := ∀ c, c ∈ l → fltb v (value c) = false.
(** What the loop knows after the arms of [l]. *)
Definition arm_ok (l : list (string * float64 * Z)) (best : string * float64 * bool) : Prop :=
  if best.2
  then ∃ c, c ∈ l ∧ untried c = true ∧ best.1 = c.1 ∧ best_of (λ c, c.1.2) (List.filter untried l) c.1.2
  else List.filter untried l = [] ∧ best_of ucb l best.1.2 ∧ (best.1 = (first, S754_infinity true) ∨ ∃ c, c ∈ l ∧ best.1 = (c.1.1, ucb c)).
Lemma best_of_snoc value l v c : best_of value l v → best_of value (l ++ [c]) (if fltb v (value c) then value c else v).
Proof.
  intros H x [Hx| ->%list_elem_of_singleton]%elem_of_app; destruct (fltb v (value _)) eqn:E; [|by apply H|apply fltb_irrefl|exact E].
  destruct (fltb (value c) (value x)) eqn:E'; [|reflexivity]. specialize (H x Hx). by rewrite (fltb_trans _ _ _ E E') in H.
Qed.
Lemma arm_step l best c : arm_ok l best → arm_ok (l ++ [c]) (better_arm math_Log explorationC total best c).
Proof.
  destruct best as [[bid bs] bu], c as [[id s] n]. intros H. unfold better_arm. destruct (Z.eqb_spec n 0) as [Hn|Hn].
  - assert (untried (id, s, n) = true) as Hu by (by apply Z.eqb_eq). assert ((id, s, n) ∈ l ++ [(id, s, n)]) as Hin by (apply elem_of_app; right; by apply list_elem_of_singleton).
    assert (List.filter untried (l ++ [(id, s, n)]) = List.filter untried l ++ [(id, s, n)]) as Hf by (rewrite List.filter_app; cbn [List.filter]; by rewrite Hu).
    destruct bu; unfold arm_ok in H; cbn [fst snd] in H.
    + destruct H as (c & Hc & Hcu & Eb & Hbest). assert (bs = c.1.2) as -> by (by rewrite <- Eb). pose proof (best_of_snoc (λ c, c.1.2) _ _ (id, s, n) Hbest) as Hb.
      cbn [fst snd negb orb] in Hb |- *. rewrite <- Hf in Hb. destruct (fltb c.1.2 s); unfold arm_ok; cbn [fst snd].
      * by exists (id, s, n).
      * exists c. split; [apply elem_of_app; by left|]. done.
    + destruct H as (Hnone & _ & _). cbn [negb orb]. unfold arm_ok. cbn [fst snd]. exists (id, s, n). split_and!; [exact Hin|exact Hu|reflexivity|].
      rewrite Hf, Hnone. intros c ->%list_elem_of_singleton. apply fltb_irrefl.
  - assert (untried (id, s, n) = false) as Hu by (by apply Z.eqb_neq).
    assert (List.filter untried (l ++ [(id, s, n)]) = List.filter untried l) as Hf by (rewrite List.filter_app; cbn [List.filter]; rewrite Hu; apply app_nil_r).
    destruct bu; unfold arm_ok in H |- *; cbn [fst snd] in H |- *.
    + destruct H as (c & Hc & Hcu & Eb & Hbest). exists c. rewrite Hf. split; [apply elem_of_app; by left|]. done.
    + destruct H as (Hnone & Hbest & Hid). pose proof (best_of_snoc ucb _ _ (id, s, n) Hbest) as Hb.
      change (fadd s _) with (ucb (id, s, n)). destruct (fltb bs (ucb (id, s, n))); cbn [fst snd]; rewrite Hf; (split; [exact Hnone|]); (split; [exact Hb|]).
      * right. exists (id, s, n). split; [apply elem_of_app; right; by apply list_elem_of_singleton|reflexivity].
      * destruct Hid as [?|(c & Hc & E)]; [by left|]. right. exists c. split; [apply elem_of_app; by left|exact E].
Qed.
Lemma arms_ok l : arm_ok l (fold_left (better_arm math_Log explorationC total) l (first, S754_infinity true, false)).
Proof.
  induction l as [|c l IH] using rev_ind.
  - split; [reflexivity|]. split; [by intros c ?%elem_of_nil|by left].
  - rewrite fold_left_app. by apply arm_step.
Qed.
End ucb.

(** SelectSkill is UCB1 with the untried skills first: with nothing available it
    answers the empty name; otherwise it answers one of the available skills, and
    when some of them has no samples, it is one without samples that no other such
    one exceeds in (smoothed) score, while with samples for all of them none exceeds
    its score plus the exploration bonus -- unless every bound is minus infinity or
    not a number, and the first is answered. *)
Theorem select_exact unicode_word goos math_Log ord1 ord2 available capability roleID modelID epsilon es :
  let explorationC := if fleb epsilon float_zero then fpct 10 else epsilon in
  let cands := arms unicode_word goos ord1 ord2 available capability roleID modelID es in
  let bound := ucb math_Log explorationC (foldr (λ c n, c.2 + n) 0 cands) in
  let r := SelectSkill unicode_word goos math_Log ord1 ord2 available capability roleID modelID epsilon es in
  (available = [] ∧ r = "") ∨
  r ∈ available ∧
    if existsb untried cands
    then ∃ c, c ∈ cands ∧ c.1.1 = r ∧ untried c = true ∧ best_of (λ c, c.1.2) (List.filter untried cands) c.1.2
    else (∃ c, c ∈ cands ∧ c.1.1 = r ∧ best_of bound cands (bound c)) ∨ head available = Some r ∧ best_of bound cands (S754_infinity true).
Proof.
  intros explorationC cands bound r. destruct available as [|first rest]; [by left|]. right.
  assert (∀ c, c ∈ cands → c.1.1 ∈ first :: rest) as Hin.
  { intros c (sid & E & Hs)%list_elem_of_fmap. destruct (experienceScore _ _ _ _ _ _ _ _ _) in E. rewrite E. exact Hs. }
  pose proof (arms_ok math_Log explorationC (foldr (λ c n, c.2 + n) 0 cands) first cands) as H.
  set (best := fold_left _ cands _) in H. assert (r = best.1.1) as Hr by reflexivity. clearbody best r.
  assert (first ∈ first :: rest) as Hf by (apply elem_of_cons; by left).
  unfold arm_ok in H. destruct best.2.
  - destruct H as (c & Hc & Hu & E & Hb). split; [rewrite Hr, E; by apply Hin|].
    assert (existsb untried cands = true) as -> by (apply existsb_exists; exists c; split; [by apply list_elem_of_In|exact Hu]).
    exists c. by rewrite Hr, E.
  - destruct H as (Hnone & Hb & Hid). assert (existsb untried cands = false) as ->.
    { destruct (existsb untried cands) eqn:Ex; [|reflexivity]. apply existsb_exists in Ex as (c & Hc & Hu). exfalso.
      assert (c ∈ List.filter untried cands) as Hc' by (apply elem_of_filter_list; split; [exact Hu|by apply list_elem_of_In]). rewrite Hnone in Hc'. by apply elem_of_nil in Hc'. }
    destruct Hid as [E|(c & Hc & E)]; rewrite E in Hr, Hb; cbn [fst snd] in Hr, Hb.
    + split; [by rewrite Hr|]. right. split; [by rewrite Hr|exact Hb].
    + split; [rewrite Hr; by apply Hin|]. left. by exists c.
Qed.

(** ** Asking for many capabilities at once *)

(** The candidates of one capability. *)
Definition candidates_of (S : ExpSettings.t) (minConfidence : float64) (capability : string) (l : list SkillAffinity.t) : list (string * float64) :=
  scored_skill <$> List.filter (λ sa, String.eqb (SkillAffinity.BaseCapability sa) capability && recommended S minConfidence sa) l.
Lemma buckets_hold S minConfidence (capabilities : list string) capability l :
  let buckets := fold_left (λ (buckets : gmap string (list (string * float64))) sa,
    if bool_decide (SkillAffinity.BaseCapability sa ∈ capabilities) && recommended S minConfidence sa
    then <[SkillAffinity.BaseCapability sa := default [] (buckets !! SkillAffinity.BaseCapability sa) ++ [scored_skill sa]]> buckets
    else buckets) l ∅ in
  buckets !! capability =
    match candidates_of S minConfidence capability l with
    | [] => None
    | _ :: _ => if bool_decide (capability ∈ capabilities) then Some (candidates_of S minConfidence capability l) else None
    end.
Proof.
  cbv zeta. unfold candidates_of. induction l as [|sa l IH] using rev_ind; [apply lookup_empty|]. rewrite fold_left_app, List.filter_app, fmap_app. cbn [fold_left List.filter].
  set (m := fold_left _ l ∅) in *. set (cs := scored_skill <$> List.filter _ l) in *. set (cap := SkillAffinity.BaseCapability sa).
  destruct (recommended S minConfidence sa) eqn:Er; [|by rewrite !andb_false_r, app_nil_r]. rewrite !andb_true_r.
  destruct (decide (capability = cap)) as [->|Hne].
  - rewrite String.eqb_refl. destruct (bool_decide_reflect (cap ∈ capabilities)) as [Hc|Hc].
    + rewrite lookup_insert_eq, IH. destruct cs; reflexivity.
    + rewrite IH. destruct cs; reflexivity.
  - assert (String.eqb cap capability = false) as -> by (apply String.eqb_neq; congruence). rewrite app_nil_r.
    destruct (bool_decide (cap ∈ capabilities)); [by rewrite lookup_insert_ne by congruence|exact IH].
Qed.
(** Asking for many capabilities in one pass answers, for each of them, exactly
    what asking for it alone does -- an absent entry standing for no
    recommendation -- and nothing for capabilities that were not asked for. *)
Theorem batch_agrees {SL : Sorter} S ord (capabilities : list string) minConfidence capability es :
  let batch := QuerySkillRecommendationsBatch S ord capabilities minConfidence es !! capability in
  if bool_decide (capability ∈ capabilities)
  then default [] batch = QuerySkillRecommendations S ord capability minConfidence es
  else batch = None.
Proof.
  cbv zeta. unfold QuerySkillRecommendationsBatch, QuerySkillRecommendations. rewrite lookup_fmap.
  pose proof (buckets_hold S minConfidence capabilities capability (range (ExperienceStore.SkillAffinities es) ord).*2) as E. cbv zeta in E. rewrite E.
  fold (candidates_of S minConfidence capability (range (ExperienceStore.SkillAffinities es) ord).*2).
  destruct (candidates_of _ _ _ _) as [|c cs]; (destruct (bool_decide _); [|reflexivity]).
  - unfold top_skills. assert (sort_by (λ a b : string * float64, fltb b.2 a.2) [] = []) as -> by (apply Permutation_nil; symmetry; apply sort_by_perm). reflexivity.
  - reflexivity.
Qed.

(** ** Examples *)

(** A skill of another system, never tried and scored below all others, is explored
    before one that does well. *)
Definition mixed_store : ExperienceStore.t :=
  empty_store <| ExperienceStore.GeneratedSkills := {["win" := (sk "win" "") <| GeneratedSkill.OS := "windows" |>]} |>
    <| ExperienceStore.SkillAffinities := list_to_map [aff "good" 20 30] |>.
Example foreign_explored : SelectSkill (λ _, false) "linux" (λ x, x) [] [] ["good"; "win"] "build" "r" "m" float_zero mixed_store = "win".
Proof. vm_compute. reflexivity. Qed.
