(* ===== verification/Reflection.v ===== *)
(** * Reflection (core/reflection.go, core/reflection_jit_source.go)

    What the engine does with a task that came to an end: the records of its steps
    -- the skills bound, added, exposed and found in a trace --, the decisions and
    the missing commands, whether the failure says something of the skills; the
    store learns, poor variants go, routes get their weights, skills that proved
    themselves are promoted, and traces that are new are made skills.  Beside the
    loop over the records a goroutine merges verified skills, pairs tools and puts
    away skills that cost too much, and each trace has a goroutine of its own: a pass
    is a state ([Pass]) and a schedule says who moves next ([Move], [move]), so that
    the theorems hold of every interleaving.  A record, a merge or a trace is one
    move; the moves of other tasks in between are left out.  The registry, the trace store, the tools made on
    the fly, the models that write code, the clock and the order of maps are
    arguments ([REnv]); the texts of prompts, of briefs and of logs are left out. *)
From Stdlib Require Import Ascii SpecFloat.
From S2P Require Import Prelude TaskStatus Schema FailureClass Patch Registry SliceSort Forest Search Archive Governance Admission ToolCalls Scheduler Experience SkillChoice.
Local Open Scope Z_scope.

Module UserProfile.
Record t := mk { Preferences : list string; Expertise : list string; PastDelegations : list string; CommunicationStyle : string }.
#[global] Instance eta : Eta t := λ p, mk (Preferences p) (Expertise p) (PastDelegations p) (CommunicationStyle p).
End UserProfile.

(** What the engine around has to offer. [traces]: the trace kept of a step;
    [promotes]: whether [PromotePermanent] succeeds; [order n]: the order of the
    [n]-th range over a map.  [merge_reply], [trace_reply]: what the model writes;
    [register]: the id of the tool made of a script, if one is.  [partners],
    [writes], [skillsDir], [candidates]: what the pairing of tools reads;
    [memory_bank]: whether there is one and it is in use; [profile]: what it holds. *)
Module REnv.
Record t := mk {
  roles : gmap string Role.t; settings : ExpSettings.t; live : option (string → bool); cli : option embedder; goos : string; unicode_word : Z → bool;
  traces : string → list ToolInteraction.t; model_of : string → string; embedding_of : string → list float64 * string; live_source : string → string;
  promotes : string → bool; math_Exp : float64 → float64; order : nat → ∀ V : Type, gmap string V → list string; newID : string; now : Z;
  skill_json : string → string → string → string; merge_reply : string → list (string * string) → option string;
  trace_reply : string → option string → StepRecord.t → option string; register : string → option string;
  partners : string → option (list CooccurrenceEntry.t); writes : string → bool; skillsDir : string; candidates : option (list CooccurrenceEntry.t);
  memory_bank : bool; profile : UserProfile.t }.
End REnv.

Section reflection.
Context {SL : Sorter} (env : REnv.t).
Abbreviation now := (REnv.now env).

(** ** Records of the steps *)

Definition step_ended (st : Step.t) : bool := negb (bool_decide (Step.Status st = StepPending)) && negb (bool_decide (Step.Status st = StepRunning)).
Definition is_ok (st : Step.t) : bool := bool_decide (Step.Status st = StepOK).
Definition role_of (st : Step.t) : option Role.t := REnv.roles env !! Step.RoleID st.
Definition creditExposedSkills (skills exposures : list string) : list string :=
  fold_left (λ skills id, if bool_decide (id ∈ skills) then skills else skills ++ [id]) exposures skills.
Definition captured_skill (id capability task : string) : GeneratedSkill.t :=
  GeneratedSkill.mk id task capability 0 f1 now false "" (REnv.goos env) "" (REnv.live_source env id) [] "" 0 float_zero float_zero "".
Definition capture_one (capability task : string) (acc : ExperienceStore.t * list string) (t : ToolInteraction.t) : ExperienceStore.t * list string :=
  let name := ToolInteraction.ToolName t in
  if negb (has_prefix "jit_" name) || bool_decide (name ∈ acc.2) then acc
  else
    (match ExperienceStore.GeneratedSkills acc.1 !! name with
     | None => AddGeneratedSkill (captured_skill name capability task) acc.1
     | Some _ => IncrementGeneratedSkillUsage now name acc.1
     end, acc.2 ++ [name]).
Definition captureTraceJITSkills (capability task : string) (trace : list ToolInteraction.t) (skills : list string) (es : ExperienceStore.t) : ExperienceStore.t * list string :=
  fold_left (capture_one capability task) trace (es, skills).
Definition step_record (taskID taskType : string) (es : ExperienceStore.t) (st : Step.t) : ExperienceStore.t * StepRecord.t :=
  let id := Step.ID st in
  let capability := match role_of st with Some r => Role.BaseCapability r | None => "unknown" end in
  let bound := match role_of st with Some r => Role.BoundSkills r | None => [] end in
  let '(es, exposed) := TakeSkillExposures taskID id es in
  let skills := creditExposedSkills (bound ++ Step.AdditionalSkills st) exposed in
  let trace := if is_ok st then REnv.traces env id else [] in
  let '(es, skills) := captureTraceJITSkills capability (Step.Task st) trace skills es in
  (es, StepRecord.mk id (Step.RoleID st) (REnv.model_of env id) skills capability (default float_zero (Step.Confidence st)) (step_status_string (Step.Status st))
         (Step.RetryCount st) (Step.MissingCtx st) taskType (Step.Task st) trace (Step.TriggerError st) (Step.StatesVisited st)
         (REnv.embedding_of env id).1 (REnv.embedding_of env id).2 0 float_zero).
Definition step_records (taskID taskType : string) (steps : list Step.t) (es : ExperienceStore.t) : ExperienceStore.t * list StepRecord.t :=
  fold_left (λ acc st, if step_ended st then let '(es, r) := step_record taskID taskType acc.1 st in (es, acc.2 ++ [r]) else acc) steps (es, []).
Definition task_type (steps : list Step.t) : string :=
  let t := join "+" (Role.BaseCapability <$> omap role_of (List.filter step_ended steps)) in if String.eqb t "" then "unknown" else t.

(** ** Decisions, missing commands, whose fault it was *)

(** The value of [decision_type] is a [schemas.DecisionType], not a [string]. *)
Definition the_type (d : DecisionType) : any := AOther 0.
Definition skip_decision (st : Step.t) : gmap string any :=
  list_to_map [("decision_type", the_type DecisionStepFailed); ("role_id", AString (Step.RoleID st)); ("choice", AString "skip")].
Definition decisions_of (steps : list Step.t) : list (gmap string any) :=
  skip_decision <$> List.filter (λ st, bool_decide (Step.Status st = StepSkipped)) steps.
Definition note_missing (es : ExperienceStore.t) (st : Step.t) : ExperienceStore.t :=
  if bool_decide (Step.Status st = StepBlocked) && contains "missing dependency:" (Step.LastError st) then
    match Split (Step.LastError st) "missing dependency: " with
    | _ :: cmd :: _ => RecordEnvironmentIssue now (TrimSpace cmd) (Step.LastError st) es
    | _ => es
    end
  else es.
Definition infra_class (c : FailureClass) : bool :=
  match c with FailureClassRateLimit | FailureClassAuthPermission | FailureClassTransient | FailureClassMissingDependency => true | _ => false end.
(** [errors.New] *)
Definition plain_error (msg : string) : GoError := mkGoError [] msg.
Definition blames (st : Step.t) : bool := negb (String.eqb (Step.LastError st) "") && negb (infra_class (classifyError (Some (plain_error (Step.LastError st))))).
Definition attributable (status : GraphStatus) (steps : list Step.t) : bool := negb (bool_decide (status = GraphCompleted)) && existsb blames steps.

(** ** Weights and promotion *)

Definition maybePromoteSkill (es : ExperienceStore.t) (id : string) : ExperienceStore.t :=
  match ExperienceStore.GeneratedSkills es !! id with
  | Some gs =>
      if negb (GeneratedSkill.IsVerified gs) && (3 <=? GeneratedSkill.UsageCount gs) && fltb (fpct 80) (GeneratedSkill.SuccessRate gs) && REnv.promotes env id
      then UpdateGeneratedSkillVerified id true es else es
  | None => es
  end.
Definition record_ok (r : StepRecord.t) : bool := String.eqb (StepRecord.Status r) "ok".
Definition weigh_skill (r : StepRecord.t) (es : ExperienceStore.t) (skill : string) : ExperienceStore.t :=
  maybePromoteSkill (UpdateRouteWeight (REnv.math_Exp env) now (StepRecord.RoleID r) (StepRecord.ModelID r) skill (StepRecord.Capability r)
    (StepRecord.Confidence r) (record_ok r) es) skill.
Definition isNovelTask (n : nat) (task : string) (es : ExperienceStore.t) : ExperienceStore.t * bool :=
  let '(es, ids) := QueryRelevantSkills (REnv.unicode_word env) (REnv.goos env) (REnv.live env) (REnv.cli env)
    (REnv.order env n _ (ExperienceStore.GeneratedSkills es)) task 1 es in
  (es, bool_decide (ids = [])).
(** What becomes of a record, and whether its trace is to become a skill. [room]:
    there is a free place for one. *)
Definition settle_record (n : nat) (room : bool) (es : ExperienceStore.t) (r : StepRecord.t) : ExperienceStore.t * bool :=
  let es := fold_left (weigh_skill r) (StepRecord.Skills r) es in
  if record_ok r && (1 <? length (StepRecord.Trace r))%nat && fltb (fpct 85) (StepRecord.Confidence r) then
    let '(es, novel) := isNovelTask n (StepRecord.Task r) es in (es, novel && room)
  else (es, false).

(** ** What a pass learns *)

Definition removal (id : string) : PatchOp.t := PatchOp.mk OpRemove ("/skills/" +:+ id) "" "".
Definition counts (r : StepRecord.t) : bool := record_ok r || String.eqb (StepRecord.Status r) "skipped".
(** The steps in the order of one range over the graph. *)
Definition steps_in (n : nat) (g : TaskGraph.t) : list Step.t := (range (TaskGraph.Steps g) (REnv.order env n _ (TaskGraph.Steps g))).*2.
(** What the store learns, before the routes: the store and the records. *)
Definition learn (g : TaskGraph.t) (es : ExperienceStore.t) : ExperienceStore.t * list StepRecord.t :=
  let '(es, records) := step_records (TaskGraph.TaskID g) (task_type (steps_in 0 g)) (steps_in 1 g) es in
  let es := fold_left note_missing (steps_in 2 g) es in
  (RecordTaskCompletion (REnv.settings env) now (REnv.newID env) (REnv.order env 3 _ (ExperienceStore.TaskPatterns es)) (TaskGraph.TaskID g) (List.filter counts records)
     (default float_zero (TaskGraph.OverallConfidence g)) (decisions_of (steps_in 2 g)) (bool_decide (TaskGraph.Status g = GraphCompleted))
     (attributable (TaskGraph.Status g) (steps_in 4 g)) es, records).
(** ** New skills *)

Definition clean_code (text : string) : string :=
  TrimSpace (TrimSuffix (TrimPrefix (TrimPrefix text "```lua") "```") "```").
Definition unchanged (es : ExperienceStore.t) : ExperienceStore.t * list PatchOp.t := (es, []).
Definition add_skill (n : nat) (id capability originalTask failureSignal sourceCode : string) (es : ExperienceStore.t) : ExperienceStore.t * list PatchOp.t :=
  let parentID := RootSkillForCapability (REnv.order env n _ (ExperienceStore.GeneratedSkills es)) capability es in
  (AddGeneratedSkill (GeneratedSkill.mk id originalTask capability 0 f1 now false parentID (REnv.goos env) failureSignal sourceCode [] "" 0 float_zero float_zero "") es,
   [PatchOp.mk OpAdd ("/skills/" +:+ id) "" (REnv.skill_json env id capability originalTask)]).
(** [n]: which range over the skills it is. *)
Definition registerAsSkill (n : nat) (id capability originalTask failureSignal sourceCode : string) (es : ExperienceStore.t) : ExperienceStore.t * list PatchOp.t :=
  if bool_decide (is_Some (ExperienceStore.GeneratedSkills es !! id)) && has_prefix "jit_" id then unchanged (IncrementGeneratedSkillUsage now id es)
  else
    let '(es, similar) := QueryRelevantSkills (REnv.unicode_word env) (REnv.goos env) (REnv.live env) (REnv.cli env)
      (REnv.order env n _ (ExperienceStore.GeneratedSkills es)) originalTask 1 es in
    match head similar with
    | Some cand =>
        match ExperienceStore.GeneratedSkills es !! cand with
        | Some gs =>
            if negb (GeneratedSkill.IsVerified gs) && String.eqb (GeneratedSkill.Capability gs) capability
            then unchanged (IncrementGeneratedSkillUsage now cand es) else add_skill (S n) id capability originalTask failureSignal sourceCode es
        | None => add_skill (S n) id capability originalTask failureSignal sourceCode es
        end
    | None => add_skill (S n) id capability originalTask failureSignal sourceCode es
    end.
Definition skillSource (es : ExperienceStore.t) (id : string) : option string :=
  if negb (String.eqb (REnv.live_source env id) "") then Some (REnv.live_source env id)
  else match ExperienceStore.GeneratedSkills es !! id with
       | Some gs => if String.eqb (GeneratedSkill.SourceText gs) "" then None else Some (GeneratedSkill.SourceText gs)
       | None => None
       end.
(** [ask]: the reply of the model to a trace, given the capability's root skill and
    its code; [register]: the id of the tool made of a script. *)
Definition CrystallizeStepToSkill (n : nat) (ask : string → option string → StepRecord.t → option string) (register : string → option string) (r : StepRecord.t)
    (es : ExperienceStore.t) : ExperienceStore.t * list PatchOp.t :=
  let parentID := RootSkillForCapability (REnv.order env n _ (ExperienceStore.GeneratedSkills es)) (StepRecord.Capability r) es in
  match ask parentID (if String.eqb parentID "" then None else skillSource es parentID) r with
  | None | Some "" => unchanged es
  | Some text =>
      match register (clean_code text) with
      | Some id => registerAsSkill (S n) id (StepRecord.Capability r) (StepRecord.Task r) (StepRecord.LastError r) (clean_code text) es
      | None => unchanged es
      end
  end.
Definition mergeVariants (n : nat) (ask : string → list (string * string) → option string) (register : string → option string) (capability : string)
    (sources : list (string * string)) (es : ExperienceStore.t) : ExperienceStore.t * list PatchOp.t :=
  match ask capability sources with
  | None | Some "" => unchanged es
  | Some text =>
      match register (clean_code text) with
      | Some id =>
          let '(es, ops) := registerAsSkill n id capability "Unified Expert Skill via Hybrid Merge" "" (clean_code text) es in
          (UpdateGeneratedSkillVerified id true es, ops)
      | None => unchanged es
      end
  end.
Definition proven (g : GeneratedSkill.t) : bool := GeneratedSkill.IsVerified g && fltb (fpct 80) (GeneratedSkill.SuccessRate g).
(** Skills that proved themselves, by capability. *)
Definition byCap (n : nat) (es : ExperienceStore.t) : gmap string (list string) :=
  fold_left (λ m (kg : string * GeneratedSkill.t),
    if proven kg.2 then <[GeneratedSkill.Capability kg.2 := default [] (m !! GeneratedSkill.Capability kg.2) ++ [kg.1]]> m else m)
    (range (ExperienceStore.GeneratedSkills es) (REnv.order env n _ (ExperienceStore.GeneratedSkills es))) ∅.
(** The merge of one group. *)
Definition merge_group (n : nat) (ask : string → list (string * string) → option string) (register : string → option string) (es : ExperienceStore.t) (ci : string * list string) :
    ExperienceStore.t * list PatchOp.t :=
  if (length ci.2 <? 2)%nat then unchanged es
  else
    let sources := omap (λ id, (id,.) <$> skillSource es id) ci.2 in
    if (length sources <? 2)%nat then unchanged es else mergeVariants n ask register ci.1 sources es.
(** The groups a scan finds, in the order it goes through them. *)
Definition scan_groups (n : nat) (es : ExperienceStore.t) : list (string * list string) := range (byCap n es) (REnv.order env (S n) _ (byCap n es)).
Definition ScanForHybridMerge (n : nat) (ask : string → list (string * string) → option string) (register : string → option string) (es : ExperienceStore.t) :
    ExperienceStore.t * list PatchOp.t :=
  fold_left (λ acc ci, let '(es, ops) := merge_group n ask register acc.1 ci in (es, acc.2 ++ ops)) (scan_groups n es) (es, []).

(** *** Pairs of tools *)

Definition isOutcomeDependent (partners : string → option (list CooccurrenceEntry.t)) (toolA : string) : bool :=
  match partners toolA with Some l => (1 <? length l)%nat | None => false end.
Definition compound_id (c : CooccurrenceEntry.t) : string := "compound_" +:+ CooccurrenceEntry.ToolA c +:+ "_" +:+ CooccurrenceEntry.ToolB c.
(** [skills]: the ids the registry has; [writes]: whether a file gets written.
    The ids after the pass, and those that are new. *)
Definition promote_pair (partners : string → option (list CooccurrenceEntry.t)) (writes : string → bool) (acc : list string * list string) (c : CooccurrenceEntry.t) :
    list string * list string :=
  let id := compound_id c in
  if isOutcomeDependent partners (CooccurrenceEntry.ToolA c) || bool_decide (id ∈ acc.1) || negb (writes id) then acc
  else (id :: acc.1, acc.2 ++ [id]).
Definition ScanAndPromoteCompoundSkills (partners : string → option (list CooccurrenceEntry.t)) (writes : string → bool) (skillsDir : string)
    (candidates : option (list CooccurrenceEntry.t)) (skills : list string) : list string * list string :=
  match candidates with
  | None | Some [] => (skills, [])
  | Some cs => if String.eqb skillsDir "" then (skills, []) else fold_left (promote_pair partners writes) cs (skills, [])
  end.

(** ** The profile of the user *)

Definition appendUnique (list : list string) (item : string) (maxItems : nat) : Datatypes.list string :=
  if bool_decide (item ∈ list) then list else if (maxItems <=? length list)%nat then list else list ++ [item].
End reflection.
Definition prefers (task : string) : list string :=
  let t := to_lower task in
  (if contains "python" t then ["prefers Python"] else []) ++ (if contains "javascript" t || contains "node" t then ["uses JavaScript"] else []) ++
  (if contains "react" t then ["uses React"] else []).
Definition delegation_summary (task : string) : string := if (80 <? String.length task)%nat then String.substring 0 77 task +:+ "..." else task.
Definition profile_step (env : REnv.t) (up : UserProfile.t) (st : Step.t) : UserProfile.t :=
  if is_ok st || bool_decide (Step.Status st = StepPartial) then
    let cap := match role_of env st with Some r => Role.BaseCapability r | None => "" end in
    up <| UserProfile.Expertise ::= λ l, if String.eqb (Step.RoleID st) "" || String.eqb cap "" then l else appendUnique l cap 10 |>
       <| UserProfile.Preferences ::= λ l, fold_left (λ l p, appendUnique l p 10) (prefers (Step.Task st)) l |>
       <| UserProfile.PastDelegations ::= λ l, if String.eqb (Step.Task st) "" then l else appendUnique l (delegation_summary (Step.Task st)) 10 |>
  else up.
(** The profile, and whether it is saved. *)
Definition extractUserProfile (env : REnv.t) (g : TaskGraph.t) (before : UserProfile.t) : UserProfile.t * bool :=
  let up := fold_left (profile_step env) (steps_in env 7 g) before in
  (up, negb (length (UserProfile.Expertise up) =? length (UserProfile.Expertise before))%nat ||
       negb (length (UserProfile.Preferences up) =? length (UserProfile.Preferences before))%nat ||
       negb (length (UserProfile.PastDelegations up) =? length (UserProfile.PastDelegations before))%nat).

(** ** The pass *)

(** How far the goroutine beside the loop is: it scans for skills to merge, merges
    group by group, pairs tools, and puts away what costs too much. *)
Inductive Background := BackScan | BackMerge (groups : list (string * list string)) | BackCompound | BackMetabolic | BackDone.
(** [Todo]: the records the loop has before it; [Ended]: the loop is over; [Traces]:
    the traces being made skills; [Ops]: the operations on the registry so far;
    [Skills]: the ids written to the directory of skills; [Clock]: the moves so far. *)
Module Pass.
Record t := mk { Store : ExperienceStore.t; Ops : list PatchOp.t; Todo : list StepRecord.t; Ended : bool; Traces : list StepRecord.t; Back : Background;
  Skills : list string; Profile : option (UserProfile.t * bool); Clock : nat }.
#[global] Instance eta : Eta t := λ p, mk (Store p) (Ops p) (Todo p) (Ended p) (Traces p) (Back p) (Skills p) (Profile p) (Clock p).
End Pass.
Inductive Move := MLoop | MBack | MTrace (i : nat).
Definition maxConcurrentCrystallize : nat := 3.

Section moves.
Context {SL : Sorter} (env : REnv.t) (g : TaskGraph.t).
(** The next record, or, after the last, the profile. *)
Definition loop_move (n : nat) (p : Pass.t) : Pass.t :=
  match Pass.Todo p with
  | r :: rest =>
      let '(es, made) := settle_record env n (length (Pass.Traces p) <? maxConcurrentCrystallize)%nat (Pass.Store p) r in
      p <| Pass.Store := es |> <| Pass.Todo := rest |> <| Pass.Traces ::= λ l, if made then l ++ [r] else l |>
  | [] =>
      if Pass.Ended p then p
      else p <| Pass.Ended := true |> <| Pass.Profile := if REnv.memory_bank env then Some (extractUserProfile env g (REnv.profile env)) else None |>
  end.
Definition back_move (n : nat) (p : Pass.t) : Pass.t :=
  match Pass.Back p with
  | BackScan => p <| Pass.Back := BackMerge (scan_groups env n (Pass.Store p)) |>
  | BackMerge (ci :: rest) =>
      let '(es, ops) := merge_group env n (REnv.merge_reply env) (REnv.register env) (Pass.Store p) ci in
      p <| Pass.Store := es |> <| Pass.Ops ::= λ l, l ++ ops |> <| Pass.Back := BackMerge rest |>
  | BackMerge [] => p <| Pass.Back := BackCompound |>
  | BackCompound =>
      p <| Pass.Skills ::= λ l, (ScanAndPromoteCompoundSkills (REnv.partners env) (REnv.writes env) (REnv.skillsDir env) (REnv.candidates env) l).1 |>
        <| Pass.Back := BackMetabolic |>
  | BackMetabolic =>
      p <| Pass.Store ::= λ es, (PruneByMetabolicROI (REnv.now env) (REnv.order env n _ (ExperienceStore.GeneratedSkills es)) es).1 |> <| Pass.Back := BackDone |>
  | BackDone => p
  end.
(** The trace at [i], if there is one. *)
Definition trace_move (n i : nat) (p : Pass.t) : Pass.t :=
  match Pass.Traces p !! i with
  | Some r =>
      let '(es, ops) := CrystallizeStepToSkill env n (REnv.trace_reply env) (REnv.register env) r (Pass.Store p) in
      p <| Pass.Store := es |> <| Pass.Ops ::= λ l, l ++ ops |> <| Pass.Traces ::= delete i |>
  | None => p
  end.
Definition move (p : Pass.t) (m : Move) : Pass.t :=
  let n := (8 + 4 * Pass.Clock p)%nat in
  let p := p <| Pass.Clock ::= S |> in
  match m with MLoop => loop_move n p | MBack => back_move n p | MTrace i => trace_move n i p end.
(** The store learns, poor variants go, then the loop and the goroutines begin. *)
Definition begin_pass (es : ExperienceStore.t) (skills : list string) : Pass.t :=
  if bool_decide (TaskGraph.Steps g = ∅) then Pass.mk es [] [] true [] BackDone skills None 0
  else
    let '(es, records) := learn env g es in
    let '(es, pruned) := PruneSkills (REnv.order env 5 _ (ExperienceStore.GeneratedSkills es)) (REnv.order env 6 _ (ExperienceStore.GeneratedSkills es)) es in
    Pass.mk es (removal <$> pruned) records false [] BackScan skills None 0.
(** The pass after the moves of a schedule; a move that nobody can make does nothing. *)
Definition ReflectOnTask (es : ExperienceStore.t) (skills : list string) (schedule : list Move) : Pass.t := fold_left move schedule (begin_pass es skills).
Definition finished (p : Pass.t) : bool :=
  Pass.Ended p && match Pass.Back p with BackDone => true | _ => false end && bool_decide (length (Pass.Traces p) = 0%nat).
End moves.

(** * Properties *)

(** ** Which parts of the store a pass leaves alone *)

Lemma fold_rel {A B} (R : B → B → Prop) (f : B → A → B) : Reflexive R → Transitive R → (∀ b a, R b (f b a)) → ∀ l b, R b (fold_left f l b).
Proof. intros HR HT Hf l. induction l as [|a l IH]; intros b; [reflexivity|]. cbn [fold_left]. etransitivity; [apply Hf|apply IH]. Qed.

Section quiet.
Context {SL : Sorter} (S : ExpSettings.t) (math_Exp : float64 → float64) (math_Pow : float64 → float64 → float64).
(** An operation of the store, whatever it keeps. *)
Definition op_any (es es' : ExperienceStore.t) : Prop := ∃ keeps, op_step S math_Exp math_Pow es keeps es'.
(** A run of operations that changes no pattern, no affinity and no outcome. *)
Record quiet (es es' : ExperienceStore.t) : Prop := {
  q_runs : rtc op_any es es';
  q_patterns : ExperienceStore.TaskPatterns es' = ExperienceStore.TaskPatterns es;
  q_affinities : ExperienceStore.SkillAffinities es' = ExperienceStore.SkillAffinities es;
  q_decisions : ExperienceStore.DecisionOutcomes es' = ExperienceStore.DecisionOutcomes es }.
#[local] Instance quiet_refl : Reflexive quiet.
Proof. intros es. by constructor. Qed.
#[local] Instance quiet_trans : Transitive quiet.
Proof. intros a b c [H1 H2 H3 H4] [K1 K2 K3 K4]. constructor; [by etransitivity|congruence..]. Qed.
(** A skill verified after is one that was before. *)
Definition verified_before (es es' : ExperienceStore.t) : Prop := ∀ id g, ExperienceStore.GeneratedSkills es' !! id = Some g → GeneratedSkill.IsVerified g = true →
  ∃ g0, ExperienceStore.GeneratedSkills es !! id = Some g0 ∧ GeneratedSkill.IsVerified g0 = true.
#[local] Instance verified_before_refl : Reflexive verified_before.
Proof. intros es id g Hg Hv. by exists g. Qed.
#[local] Instance verified_before_trans : Transitive verified_before.
Proof. intros a b c H1 H2 id g Hg Hv. destruct (H2 id g Hg Hv) as (g' & Hg' & Hv'). by apply (H1 id g'). Qed.
Lemma verified_same es es' : ExperienceStore.GeneratedSkills es' = ExperienceStore.GeneratedSkills es → verified_before es es'.
Proof. intros E id g Hg Hv. rewrite E in Hg. by exists g. Qed.
Lemma verified_alter es es' (f : GeneratedSkill.t → GeneratedSkill.t) id : (∀ g, GeneratedSkill.IsVerified (f g) = GeneratedSkill.IsVerified g) →
  ExperienceStore.GeneratedSkills es' = alter f id (ExperienceStore.GeneratedSkills es) → verified_before es es'.
Proof.
  intros Hf E k g Hg Hv. rewrite E in Hg. destruct (decide (k = id)) as [->|Hne].
  - rewrite lookup_alter_eq in Hg. destruct (_ !! id) as [g0|]; [|discriminate Hg]. injection Hg as <-. exists g0. by rewrite Hf in Hv.
  - rewrite lookup_alter_ne in Hg by congruence. by exists g.
Qed.
Lemma verified_delete es es' id : ExperienceStore.GeneratedSkills es' = delete id (ExperienceStore.GeneratedSkills es) → verified_before es es'.
Proof. intros E k g Hg Hv. rewrite E in Hg. apply lookup_delete_Some in Hg as [_ Hg]. by exists g. Qed.
Definition calm (es es' : ExperienceStore.t) : Prop := quiet es es' ∧ verified_before es es'.
#[local] Instance calm_refl : Reflexive calm.
Proof. by split. Qed.
#[local] Instance calm_trans : Transitive calm.
Proof. intros a b c [H1 H2] [H3 H4]. split; by etransitivity. Qed.
Lemma quiet_op keeps es es' : op_step S math_Exp math_Pow es keeps es' → ExperienceStore.TaskPatterns es' = ExperienceStore.TaskPatterns es →
  ExperienceStore.SkillAffinities es' = ExperienceStore.SkillAffinities es → ExperienceStore.DecisionOutcomes es' = ExperienceStore.DecisionOutcomes es → quiet es es'.
Proof. intros H1 H2 H3 H4. constructor; [apply rtc_once; by exists keeps|done..]. Qed.

Lemma fold_calm {A X} (f : ExperienceStore.t * X → A → ExperienceStore.t * X) : (∀ acc a, calm acc.1 (f acc a).1) → ∀ l acc, calm acc.1 (fold_left f l acc).1.
Proof. intros Hf l. induction l as [|a l IH]; intros acc; [reflexivity|]. cbn [fold_left]. etransitivity; [apply Hf|apply IH]. Qed.
Lemma take_calm taskID stepID es : calm es (TakeSkillExposures taskID stepID es).1.
Proof.
  pose proof (op_take S math_Exp math_Pow es taskID stepID) as Ho. revert Ho. unfold TakeSkillExposures.
  destruct (String.eqb _ _); [done|]. cbn [fst]. destruct (bool_decide _); [done|]. intros Ho. split; [by apply (quiet_op true)|by apply verified_same].
Qed.
Lemma capture_calm env capability task acc t : calm acc.1 (capture_one env capability task acc t).1.
Proof.
  unfold capture_one. destruct (_ || _); [reflexivity|]. cbn [fst]. destruct (_ !! _) as [g0|] eqn:E.
  - split; [apply (quiet_op true); [apply op_use|done..]|]. by apply (verified_alter _ _ (λ g, g <| GeneratedSkill.UsageCount ::= Z.add 1 |> <| GeneratedSkill.LastUsed := REnv.now env |>) (ToolInteraction.ToolName t)).
  - split; [apply (quiet_op true); [apply op_skill|done..]|]. intros id g Hg Hv.
    change (<[ToolInteraction.ToolName t := captured_skill env (ToolInteraction.ToolName t) capability task]> (ExperienceStore.GeneratedSkills acc.1) !! id = Some g) in Hg.
    destruct (decide (id = ToolInteraction.ToolName t)) as [->|Hne]; [rewrite lookup_insert_eq in Hg; injection Hg as <-; discriminate Hv|].
    rewrite lookup_insert_ne in Hg by congruence. by exists g.
Qed.
Lemma record_calm env taskID taskType es st : calm es (step_record env taskID taskType es st).1.
Proof.
  unfold step_record. pose proof (take_calm taskID (Step.ID st) es) as H1. destruct (TakeSkillExposures taskID (Step.ID st) es) as [es1 exposed]. cbv zeta.
  unfold captureTraceJITSkills. set (acc0 := (es1, _)). set (f := capture_one env _ _). set (trace := if is_ok st then _ else _).
  pose proof (fold_calm f ltac:(intros; apply capture_calm) trace acc0) as Hf.
  destruct (fold_left _ _ acc0) as [es2 skills]. cbn [fst] in *. by etransitivity.
Qed.
Lemma records_calm env taskID taskType steps es : calm es (step_records env taskID taskType steps es).1.
Proof.
  unfold step_records. match goal with |- calm _ (fold_left ?f _ _).1 => assert (∀ acc st, calm acc.1 (f acc st).1) as Hf; [|exact (fold_calm f Hf steps (es, []))] end.
  intros acc st. destruct (step_ended st); [|reflexivity]. pose proof (record_calm env taskID taskType acc.1 st) as H. by destruct (step_record env taskID taskType acc.1 st).
Qed.
Lemma missing_calm env es st : calm es (note_missing env es st).
Proof.
  unfold note_missing. destruct (_ && _); [|reflexivity]. destruct (Split _ _) as [|? [|cmd ?]]; [reflexivity..|].
  split; [apply (quiet_op true); [apply op_issue|done..]|by apply verified_same].
Qed.
(** A search may store vectors. *)
Lemma query_quiet unicode_word goos live cli ord task limit es : calm es (QueryRelevantSkills unicode_word goos live cli ord task limit es).1.
Proof.
  unfold QueryRelevantSkills. cbv zeta. destruct (_ || _); [reflexivity|]. destruct (bool_decide _); [reflexivity|].
  destruct (embedSkillQuery cli task) as [vec model]. destruct (lazyEmbedSkillCandidates cli vec model _) as [snaps computed]. cbn [fst].
  unfold persistSkillEmbeddings. generalize (omap (λ i, snaps !! i) computed). intros l. revert es. induction l as [|s l IH]; intros es; [reflexivity|].
  cbn [fold_left]. etransitivity; [|apply IH]. split.
  - apply (quiet_op true); [apply op_embed|done..].
  - by apply (verified_alter _ _ (λ g, g <| GeneratedSkill.Embedding := skillSnapshot.embedding s |> <| GeneratedSkill.EmbeddingModel := skillSnapshot.embeddingModel s |>) (skillSnapshot.id s)).
Qed.
Lemma prune_calm ord1 ord2 es : calm es (PruneSkills ord1 ord2 es).1.
Proof.
  assert (∀ l es, ExperienceStore.TaskPatterns (fold_left archive_skill l es) = ExperienceStore.TaskPatterns es ∧
    ExperienceStore.SkillAffinities (fold_left archive_skill l es) = ExperienceStore.SkillAffinities es ∧
    ExperienceStore.DecisionOutcomes (fold_left archive_skill l es) = ExperienceStore.DecisionOutcomes es ∧ verified_before es (fold_left archive_skill l es)) as Hl.
  { induction l as [|kg l IH]; intros es'; [done|]. cbn [fold_left]. destruct (IH (archive_skill es' kg)) as (H1 & H2 & H3 & H4).
    split; [exact H1|]. split; [exact H2|]. split; [exact H3|]. etransitivity; [|exact H4]. by apply (verified_delete _ _ kg.1). }
  pose proof (op_prune S math_Exp math_Pow es ord1 ord2) as Ho. unfold PruneSkills in *. cbv zeta in *. cbn [fst] in *.
  destruct (Hl (List.filter (λ kg, worse es (sibling_score (fold_left (note_score es) (range (ExperienceStore.GeneratedSkills es) ord1) (∅, ∅)) (GeneratedSkill.Capability kg.2) kg.1) kg)
    (range (ExperienceStore.GeneratedSkills es) ord2)) es) as (H1 & H2 & H3 & H4). split; [by apply (quiet_op true)|exact H4].
Qed.

(** *** A finished task *)

(** The affinity of [o] stays, if there is one; so do the outcomes; nothing gets verified. *)
Definition spares (o : option string) (es es' : ExperienceStore.t) : Prop :=
  (∀ key, o = Some key → ExperienceStore.SkillAffinities es' !! key = ExperienceStore.SkillAffinities es !! key) ∧
  ExperienceStore.DecisionOutcomes es' = ExperienceStore.DecisionOutcomes es ∧ verified_before es es'.
#[local] Instance spares_refl o : Reflexive (spares o).
Proof. by split. Qed.
#[local] Instance spares_trans o : Transitive (spares o).
Proof. intros a b c (H1 & H2 & H3) (K1 & K2 & K3). split; [intros key E; by rewrite K1, H1|]. split; [congruence|by etransitivity]. Qed.
Lemma spares_same o es es' : ExperienceStore.SkillAffinities es' = ExperienceStore.SkillAffinities es →
  ExperienceStore.DecisionOutcomes es' = ExperienceStore.DecisionOutcomes es → ExperienceStore.GeneratedSkills es' = ExperienceStore.GeneratedSkills es → spares o es es'.
Proof. intros H1 H2 H3. split; [intros key _; by rewrite H1|]. split; [exact H2|by apply verified_same]. Qed.
(** What a record has to say of the affinity. *)
Definition silent (o : option string) (r : StepRecord.t) : Prop := ∀ s key, s ∈ StepRecord.Skills r → o = Some key → affinity_key (StepRecord.Capability r) s ≠ key.
Lemma sample_spares o now capability skill delta es : (∀ key, o = Some key → affinity_key capability skill ≠ key) → spares o es (sample_affinity now capability skill delta es).
Proof.
  intros Ho. unfold sample_affinity. cbv zeta. destruct (_ !! _); (split; [|split; [reflexivity|by apply verified_same]]);
    intros key E; specialize (Ho key E); unfold update; cbn; by rewrite lookup_insert_ne.
Qed.
Lemma fold_spares {A} o (P : A → Prop) (f : ExperienceStore.t → A → ExperienceStore.t) : (∀ es a, P a → spares o es (f es a)) → ∀ l, (∀ a, a ∈ l → P a) → ∀ es, spares o es (fold_left f l es).
Proof.
  intros Hf l. induction l as [|a l IH]; intros Hl es; [reflexivity|]. cbn [fold_left]. etransitivity; [apply Hf, Hl, elem_of_cons; by left|].
  apply IH. intros x Hx. apply Hl, elem_of_cons. by right.
Qed.
Lemma upsert_spares o now newID ord taskID taskType records conf es : spares o es (upsertTaskPattern now newID ord taskID taskType records conf es).
Proof.
  destruct records as [|r0 rest]; [reflexivity|]. unfold upsertTaskPattern. destruct (if String.eqb _ _ then None else _ !! _); [by apply spares_same|].
  assert (spares o es (evict_patterns ord es)) as H.
  { unfold evict_patterns. destruct (_ <=? _)%nat; [|reflexivity]. cbv zeta.
    etransitivity; [apply (fold_spares o (λ _, True) drop_pattern); [intros; by apply spares_same|done]|by apply spares_same]. }
  etransitivity; [exact H|]. generalize (evict_patterns ord es). intros es'. unfold index_pattern. destruct (String.eqb _ _); by apply spares_same.
Qed.
Lemma step_spares o now success es rec : silent o rec → spares o es (learn_step S now success es rec).
Proof.
  intros Hr. unfold learn_step. set (es1 := updateRoleProfile now rec es). assert (spares o es es1) as H1 by (by apply spares_same). clearbody es1.
  set (es2 := updateSkillAffinities S now rec es1). assert (spares o es1 es2) as H2.
  { apply (fold_spares o (λ s, s ∈ StepRecord.Skills rec)); [|done]. intros es' s Hs. apply sample_spares. intros key. by apply Hr. }
  clearbody es2. set (es3 := updateStatePotentials now rec success es2). assert (spares o es2 es3) as H3.
  { apply (fold_spares o (λ _, True)); [|done]. intros es' s _. by apply spares_same. }
  clearbody es3. etransitivity; [exact H1|]. etransitivity; [exact H2|]. etransitivity; [exact H3|].
  apply (fold_spares (A := string) o (λ _, True)); [|done]. intros es' id _. split; [done|]. split; [done|]. by apply (verified_alter _ _ (use_skill now rec) id).
Qed.
Lemma penalty_spares o now records es : (∀ r, r ∈ records → silent o r) → spares o es (applyTaskLevelPenalty now records es).
Proof.
  intros Hr. unfold applyTaskLevelPenalty. set (pairs := mjoin _).
  assert (∀ c s, (c, s) ∈ pairs → ∀ key, o = Some key → affinity_key c s ≠ key) as Hp.
  { intros c s (l & Hin & (r & -> & Hr')%list_elem_of_fmap)%list_elem_of_join key E. apply list_elem_of_fmap in Hin as (s' & [= -> ->] & Hs'). by apply (Hr r Hr'). }
  clearbody pairs. change (spares o es (fold_left (λ (acc : list string * ExperienceStore.t) (cs : string * string),
     let key := affinity_key cs.1 cs.2 in
     if bool_decide (key ∈ acc.1) then acc else (key :: acc.1, sample_affinity now cs.1 cs.2 lightFailurePenaltyDelta acc.2)) pairs ([], es)).2).
  generalize (@nil string). intros seen. revert seen es. induction pairs as [|[c s] pairs IH]; intros seen es; [reflexivity|]. cbn [fold_left]. cbv zeta.
  assert (∀ c s, (c, s) ∈ pairs → ∀ key, o = Some key → affinity_key c s ≠ key) as Hp' by (intros c' s' Hin; apply Hp, elem_of_cons; by right).
  specialize (IH Hp'). cbn [fst snd]. destruct (bool_decide _); [apply IH|]. etransitivity; [|apply IH]. apply sample_spares, Hp, elem_of_cons. by left.
Qed.
(** The whole of it: the outcomes of the decisions apart. *)
Lemma task_spares o now newID ord taskID records conf decisions success attributable es : (∀ r, r ∈ records → silent o r) →
  let es' := RecordTaskCompletion S now newID ord taskID records conf decisions success attributable es in
  (∀ key, o = Some key → ExperienceStore.SkillAffinities es' !! key = ExperienceStore.SkillAffinities es !! key) ∧ verified_before es es' ∧
  ExperienceStore.DecisionOutcomes es' = keep_last (getMaxDecisionOutcomes S) (ExperienceStore.DecisionOutcomes es ++ omap (decision_outcome now conf success) decisions).
Proof.
  intros Hr. cbv zeta. unfold RecordTaskCompletion. cbv zeta. set (es1 := upsertTaskPattern _ _ _ _ _ _ _ _).
  assert (spares o es es1) as H1 by apply upsert_spares. clearbody es1. set (es2 := fold_left _ records es1).
  assert (spares o es1 es2) as H2 by (apply (fold_spares o (silent o)); [intros; by apply step_spares|exact Hr]). clearbody es2.
  set (es3 := update _ es2). assert (spares o es2 es3) as H3 by (by apply spares_same). clearbody es3.
  set (es4 := if _ && _ then _ else es3). assert (spares o es3 es4) as H4 by (unfold es4; destruct (_ && _); [by apply penalty_spares|reflexivity]). clearbody es4.
  set (es5 := fold_left _ _ es4). assert (spares o es4 es5) as H5 by (apply (fold_spares (A := string) o (λ _, True)); [intros; by apply spares_same|done]). clearbody es5.
  assert (spares o es es5) as (K1 & K2 & K3) by (etransitivity; [exact H1|]; etransitivity; [exact H2|]; etransitivity; [exact H3|]; by etransitivity).
  split; [exact K1|]. split; [etransitivity; [exact K3|by apply verified_same]|]. rewrite <- K2. reflexivity.
Qed.

(** *** Putting away what costs too much *)

Lemma metabolize_same now g : GeneratedSkill.IsVerified (metabolize now g).1 = GeneratedSkill.IsVerified g ∧
  GeneratedSkill.UsageCount (metabolize now g).1 = GeneratedSkill.UsageCount g ∧ GeneratedSkill.SuccessRate (metabolize now g).1 = GeneratedSkill.SuccessRate g.
Proof. unfold metabolize. destruct (is_root g); [done|]. cbv zeta. by destruct (_ && _). Qed.
Lemma metabolic_parts now ord es : let es' := (PruneByMetabolicROI now ord es).1 in
  ExperienceStore.TaskPatterns es' = ExperienceStore.TaskPatterns es ∧ ExperienceStore.SkillAffinities es' = ExperienceStore.SkillAffinities es ∧
  ExperienceStore.DecisionOutcomes es' = ExperienceStore.DecisionOutcomes es.
Proof.
  unfold PruneByMetabolicROI. apply (fold_keeps (λ acc : ExperienceStore.t * list string, ExperienceStore.TaskPatterns acc.1 = ExperienceStore.TaskPatterns es ∧
    ExperienceStore.SkillAffinities acc.1 = ExperienceStore.SkillAffinities es ∧ ExperienceStore.DecisionOutcomes acc.1 = ExperienceStore.DecisionOutcomes es)); [|done].
  intros acc kg Ha. by destruct (metabolize now kg.2) as [g []].
Qed.
(** Every skill after is one of before, with the same uses. *)
Lemma metabolic_skills now ord es id g : ExperienceStore.GeneratedSkills (PruneByMetabolicROI now ord es).1 !! id = Some g →
  ∃ g0, ExperienceStore.GeneratedSkills es !! id = Some g0 ∧ GeneratedSkill.IsVerified g = GeneratedSkill.IsVerified g0 ∧
    GeneratedSkill.UsageCount g = GeneratedSkill.UsageCount g0 ∧ GeneratedSkill.SuccessRate g = GeneratedSkill.SuccessRate g0.
Proof.
  revert id g. unfold PruneByMetabolicROI. set (old := ExperienceStore.GeneratedSkills es).
  assert (∀ kg, kg ∈ range old ord → old !! kg.1 = Some kg.2) as Hr.
  { intros kg (k & Hk & Hkg)%list_elem_of_omap. destruct (old !! k) as [v|] eqn:E; [|discriminate Hkg]. by injection Hkg as <-. }
  assert (∀ id g, ExperienceStore.GeneratedSkills (es, @nil string).1 !! id = Some g → ∃ g0, old !! id = Some g0 ∧ GeneratedSkill.IsVerified g = GeneratedSkill.IsVerified g0 ∧
    GeneratedSkill.UsageCount g = GeneratedSkill.UsageCount g0 ∧ GeneratedSkill.SuccessRate g = GeneratedSkill.SuccessRate g0) as H0 by (intros id g Hg; by exists g).
  clearbody old. revert Hr H0. generalize (es, @nil string). induction (range old ord) as [|kg l IH]; intros acc Hr H0; [exact H0|]. cbn [fold_left].
  apply IH; [intros; apply Hr, elem_of_cons; by right|]. pose proof (metabolize_same now kg.2) as (M1 & M2 & M3). specialize (Hr kg ltac:(apply elem_of_cons; by left)).
  destruct (metabolize now kg.2) as [g' []]; cbn [fst] in *; intros id g Hg.
  - apply H0. change (delete kg.1 (ExperienceStore.GeneratedSkills acc.1) !! id = Some g) in Hg. by apply lookup_delete_Some in Hg as [_ Hg].
  - change (<[kg.1 := g']> (ExperienceStore.GeneratedSkills acc.1) !! id = Some g) in Hg. destruct (decide (id = kg.1)) as [->|Hne].
    + rewrite lookup_insert_eq in Hg. injection Hg as <-. by exists kg.2.
    + rewrite lookup_insert_ne in Hg by congruence. by apply H0.
Qed.
Lemma metabolic_quiet now ord es : quiet es (PruneByMetabolicROI now ord es).1.
Proof. pose proof (metabolic_parts now ord es) as (H1 & H2 & H3). by apply (quiet_op true); [apply op_metabolize|..]. Qed.

(** *** Promotion *)

(** A skill verified after was verified before, with no more uses; or it earned it;
    or it is one of [made]. *)
Definition earned (env : REnv.t) (made : string → Prop) (es es' : ExperienceStore.t) : Prop := ∀ id g,
  ExperienceStore.GeneratedSkills es' !! id = Some g → GeneratedSkill.IsVerified g = true →
  (∃ g0, ExperienceStore.GeneratedSkills es !! id = Some g0 ∧ GeneratedSkill.IsVerified g0 = true ∧
     GeneratedSkill.UsageCount g0 <= GeneratedSkill.UsageCount g ∧ GeneratedSkill.SuccessRate g0 = GeneratedSkill.SuccessRate g) ∨
  (3 <= GeneratedSkill.UsageCount g ∧ fltb (fpct 80) (GeneratedSkill.SuccessRate g) = true ∧ REnv.promotes env id = true) ∨ made id.
#[local] Instance earned_refl env made : Reflexive (earned env made).
Proof. intros es id g Hg Hv. left. exists g. split_and!; [done..|lia|done]. Qed.
#[local] Instance earned_trans env made : Transitive (earned env made).
Proof.
  intros a b c H1 H2 id g Hg Hv. destruct (H2 id g Hg Hv) as [(g' & Hg' & Hv' & Hu & Hs)|He]; [|by right].
  destruct (H1 id g' Hg' Hv') as [(g0 & Hg0 & Hv0 & Hu0 & Hs0)|[(K1 & K2 & K3)|He]].
  - left. exists g0. split_and!; [exact Hg0|exact Hv0|lia|congruence].
  - right. left. split_and!; [lia|by rewrite <- Hs|exact K3].
  - by right; right.
Qed.
Lemma earned_same env made es es' : ExperienceStore.GeneratedSkills es' = ExperienceStore.GeneratedSkills es → earned env made es es'.
Proof. intros E. pose proof (earned_refl env made es) as H. intros id g Hg Hv. rewrite E in Hg. by apply H. Qed.
Lemma earned_alter env made es es' (f : GeneratedSkill.t → GeneratedSkill.t) id :
  (∀ g, GeneratedSkill.IsVerified (f g) = GeneratedSkill.IsVerified g ∧ GeneratedSkill.UsageCount g <= GeneratedSkill.UsageCount (f g) ∧
    GeneratedSkill.SuccessRate g = GeneratedSkill.SuccessRate (f g)) →
  ExperienceStore.GeneratedSkills es' = alter f id (ExperienceStore.GeneratedSkills es) → earned env made es es'.
Proof.
  intros Hf E k g Hg Hv. left. rewrite E in Hg. destruct (decide (k = id)) as [->|Hne].
  - rewrite lookup_alter_eq in Hg. destruct (_ !! id) as [g0|]; [|discriminate Hg]. assert (f g0 = g) as Ef by (by inversion Hg). subst g.
    destruct (Hf g0) as (F1 & F2 & F3). exists g0. split_and!; [done|congruence|exact F2|exact F3].
  - rewrite lookup_alter_ne in Hg by congruence. exists g. split_and!; [done..|lia|done].
Qed.
Lemma earned_query env made unicode_word goos live cli ord task limit es : earned env made es (QueryRelevantSkills unicode_word goos live cli ord task limit es).1.
Proof.
  unfold QueryRelevantSkills. cbv zeta. destruct (_ || _); [reflexivity|]. destruct (bool_decide _); [reflexivity|].
  destruct (embedSkillQuery cli task) as [vec model]. destruct (lazyEmbedSkillCandidates cli vec model _) as [snaps computed]. cbn [fst].
  unfold persistSkillEmbeddings. apply (fold_rel (earned env made)); [apply _..|]. intros es' s.
  by apply (earned_alter _ _ _ _ (λ g, g <| GeneratedSkill.Embedding := skillSnapshot.embedding s |> <| GeneratedSkill.EmbeddingModel := skillSnapshot.embeddingModel s |>) (skillSnapshot.id s)).
Qed.
Lemma earned_use env made now id es : earned env made es (IncrementGeneratedSkillUsage now id es).
Proof.
  apply (earned_alter _ _ _ _ (λ g, g <| GeneratedSkill.UsageCount ::= Z.add 1 |> <| GeneratedSkill.LastUsed := now |>) id); [|done].
  intros g. split_and!; [done| |done]. change (GeneratedSkill.UsageCount g <= 1 + GeneratedSkill.UsageCount g). lia.
Qed.
Lemma earned_metabolic env made now ord es : earned env made es (PruneByMetabolicROI now ord es).1.
Proof. intros id g Hg Hv. apply metabolic_skills in Hg as (g0 & H0 & Hv0 & Hu & Hs). left. exists g0. split_and!; [done|congruence|lia|done]. Qed.
Lemma promote_earned env made es id : earned env made es (maybePromoteSkill env es id).
Proof.
  unfold maybePromoteSkill. destruct (_ !! id) as [gs|] eqn:E; [|reflexivity]. destruct (_ && _) eqn:Ec; [|reflexivity].
  apply andb_prop in Ec as [[[_ H1]%andb_prop H2]%andb_prop H3]. apply Z.leb_le in H1. intros k g Hg Hv.
  change (alter (λ g, g <| GeneratedSkill.IsVerified := true |>) id (ExperienceStore.GeneratedSkills es) !! k = Some g) in Hg.
  destruct (decide (k = id)) as [->|Hne].
  - rewrite lookup_alter_eq, E in Hg. right. left. assert (gs <| GeneratedSkill.IsVerified := true |> = g) as <- by (by inversion Hg). exact (conj H1 (conj H2 H3)).
  - rewrite lookup_alter_ne in Hg by congruence. left. exists g. split_and!; [exact Hg|exact Hv|lia|done].
Qed.
Lemma promote_quiet env es id : quiet es (maybePromoteSkill env es id).
Proof. unfold maybePromoteSkill. destruct (_ !! id); [|reflexivity]. destruct (_ && _); [|reflexivity]. apply (quiet_op true); [apply op_verify|done..]. Qed.

(** What a move may do. *)
Definition modest (env : REnv.t) (made : string → Prop) (es es' : ExperienceStore.t) : Prop := quiet es es' ∧ earned env made es es'.
#[local] Instance modest_refl env made : Reflexive (modest env made).
Proof. by split. Qed.
#[local] Instance modest_trans env made : Transitive (modest env made).
Proof. intros a b c [H1 H2] [H3 H4]. split; by etransitivity. Qed.
Lemma query_modest env made unicode_word goos live cli ord task limit es : modest env made es (QueryRelevantSkills unicode_word goos live cli ord task limit es).1.
Proof. split; [apply query_quiet|apply earned_query]. Qed.
Lemma use_modest env made now id es : modest env made es (IncrementGeneratedSkillUsage now id es).
Proof. split; [by apply (quiet_op true); [apply op_use|..]|apply earned_use]. Qed.
(** A new skill is not verified. *)
Lemma add_modest env made n id capability task signal code es : modest env made es (add_skill env n id capability task signal code es).1.
Proof.
  unfold add_skill. cbv zeta. cbn [fst]. set (sk := GeneratedSkill.mk _ _ _ _ _ _ _ _ _ _ _ _ _ _ _ _ _).
  split; [by apply (quiet_op true); [apply op_skill|..]|]. intros k g Hg Hv. left.
  change (<[id := sk]> (ExperienceStore.GeneratedSkills es) !! k = Some g) in Hg. destruct (decide (k = id)) as [->|Hne].
  - rewrite lookup_insert_eq in Hg. assert (sk = g) as <- by (by inversion Hg). discriminate Hv.
  - rewrite lookup_insert_ne in Hg by congruence. exists g. split_and!; [done..|lia|done].
Qed.
Lemma register_modest env made n id capability task signal code es : modest env made es (registerAsSkill env n id capability task signal code es).1.
Proof.
  unfold registerAsSkill. destruct (_ && _); [apply use_modest|].
  pose proof (query_modest env made (REnv.unicode_word env) (REnv.goos env) (REnv.live env) (REnv.cli env) (REnv.order env n _ (ExperienceStore.GeneratedSkills es)) task 1 es) as Hq.
  destruct (QueryRelevantSkills _ _ _ _ _ _ _ _) as [es1 similar]. cbn [fst] in Hq. etransitivity; [exact Hq|].
  destruct (head similar) as [cand|]; [|apply add_modest]. destruct (_ !! cand) as [gs|]; [|apply add_modest].
  destruct (_ && _); [apply use_modest|apply add_modest].
Qed.
Lemma trace_modest env made n ask register r es : modest env made es (CrystallizeStepToSkill env n ask register r es).1.
Proof.
  unfold CrystallizeStepToSkill. cbv zeta. destruct (ask _ _ r) as [[|c t]|]; [reflexivity| |reflexivity].
  destruct (register _) as [id|]; [apply register_modest|reflexivity].
Qed.
Lemma verify_modest env (made : string → Prop) id es : made id → modest env made es (UpdateGeneratedSkillVerified id true es).
Proof.
  intros Hm. split; [by apply (quiet_op true); [apply op_verify|..]|]. intros k g Hg Hv.
  destruct (decide (k = id)) as [->|Hne]; [by right; right|]. left.
  change (alter (λ g, g <| GeneratedSkill.IsVerified := true |>) id (ExperienceStore.GeneratedSkills es) !! k = Some g) in Hg.
  rewrite lookup_alter_ne in Hg by congruence. exists g. split_and!; [done..|lia|done].
Qed.
End quiet.
#[local] Existing Instances quiet_refl quiet_trans calm_refl calm_trans verified_before_refl verified_before_trans earned_refl earned_trans spares_refl spares_trans
  modest_refl modest_trans.
(** ** Passes *)

Section pass.
Context {SL : Sorter} (env : REnv.t) (math_Pow : float64 → float64 → float64).
Abbreviation modestly made := (modest (REnv.settings env) (REnv.math_Exp env) math_Pow env made).
Lemma weigh_ok made r es skill : modestly made es (weigh_skill env r es skill).
Proof.
  unfold weigh_skill. set (es1 := UpdateRouteWeight _ _ _ _ _ _ _ _ _).
  assert (modestly made es es1) as H1 by (split; [by apply (quiet_op _ _ _ true); [apply op_routes|..]|by apply earned_same]).
  clearbody es1. etransitivity; [exact H1|]. split; [apply promote_quiet|apply promote_earned].
Qed.
Lemma settle_ok made n room r es : modestly made es (settle_record env n room es r).1.
Proof.
  unfold settle_record. set (es1 := fold_left _ (StepRecord.Skills r) es).
  assert (modestly made es es1) as H1 by (apply (fold_rel (modestly made)); [apply _..|]; intros; apply weigh_ok).
  clearbody es1. destruct (_ && _); [|exact H1]. unfold isNovelTask.
  pose proof (query_modest (REnv.settings env) (REnv.math_Exp env) math_Pow env made (REnv.unicode_word env) (REnv.goos env) (REnv.live env) (REnv.cli env)
    (REnv.order env n _ (ExperienceStore.GeneratedSkills es1)) (StepRecord.Task r) 1 es1) as Hq.
  destruct (QueryRelevantSkills _ _ _ _ _ _ _ _) as [es2 ids]. cbn [fst] in *. by etransitivity.
Qed.
Lemma learn_parts g es : ∃ es1 records,
  calm (REnv.settings env) (REnv.math_Exp env) math_Pow es es1 ∧
  learn env g es = (RecordTaskCompletion (REnv.settings env) (REnv.now env) (REnv.newID env) (REnv.order env 3 _ (ExperienceStore.TaskPatterns es1)) (TaskGraph.TaskID g)
    (List.filter counts records) (default float_zero (TaskGraph.OverallConfidence g)) (decisions_of (steps_in env 2 g)) (bool_decide (TaskGraph.Status g = GraphCompleted))
    (attributable (TaskGraph.Status g) (steps_in env 4 g)) es1, records).
Proof.
  unfold learn. pose proof (records_calm (REnv.settings env) (REnv.math_Exp env) math_Pow env (TaskGraph.TaskID g) (task_type env (steps_in env 0 g)) (steps_in env 1 g) es) as H1.
  destruct (step_records env _ _ _ es) as [es1 records]. cbn [fst] in H1. exists (fold_left (note_missing env) (steps_in env 2 g) es1), records.
  split; [|reflexivity]. etransitivity; [exact H1|]. apply (fold_rel (calm (REnv.settings env) (REnv.math_Exp env) math_Pow)); [apply _..|]. intros es' st. apply missing_calm.
Qed.
(** Before the loop: nothing, or what is learned and pruned. *)
Lemma begin_parts g es skills : TaskGraph.Steps g ≠ ∅ →
  calm (REnv.settings env) (REnv.math_Exp env) math_Pow (learn env g es).1 (Pass.Store (begin_pass env g es skills)).
Proof.
  intros Hne. unfold begin_pass. rewrite bool_decide_eq_false_2 by exact Hne. destruct (learn env g es) as [es1 records]. cbn [fst].
  pose proof (prune_calm (REnv.settings env) (REnv.math_Exp env) math_Pow (REnv.order env 5 _ (ExperienceStore.GeneratedSkills es1))
    (REnv.order env 6 _ (ExperienceStore.GeneratedSkills es1)) es1) as H.
  by destruct (PruneSkills _ _ es1) as [es2 pruned].
Qed.

(** *** Where a merged skill comes from *)

(** [id] stands in [es] for [capability], verified and above 80 percent. *)
Definition proven_in (es : ExperienceStore.t) (capability id : string) : Prop :=
  ∃ gs, ExperienceStore.GeneratedSkills es !! id = Some gs ∧ GeneratedSkill.IsVerified gs = true ∧ fltb (fpct 80) (GeneratedSkill.SuccessRate gs) = true ∧
    GeneratedSkill.Capability gs = capability.
Lemma scan_proven n es ci id : ci ∈ scan_groups env n es → id ∈ ci.2 → proven_in es ci.1 id.
Proof.
  intros (k & _ & Hk)%list_elem_of_omap Hid. destruct (byCap env n es !! k) as [ids|] eqn:E; [|discriminate Hk]. injection Hk as <-. cbn [fst snd] in *.
  revert E Hid. unfold byCap. set (l := range _ _).
  assert (∀ kg, kg ∈ l → ExperienceStore.GeneratedSkills es !! kg.1 = Some kg.2) as Hl.
  { intros kg (k' & _ & Hkg)%list_elem_of_omap. destruct (_ !! k') as [v|] eqn:E; [|discriminate Hkg]. by injection Hkg as <-. }
  clearbody l. assert (∀ ids0 : list string, (∅ : gmap string (list string)) !! k = Some ids0 → id ∈ ids0 → proven_in es k id) as H0 by (intros ids0 H; by rewrite lookup_empty in H).
  revert H0. generalize (∅ : gmap string (list string)). revert ids. induction l as [|kg l IH]; intros ids m H0; [apply H0|]. cbn [fold_left].
  apply IH; [intros; apply Hl, elem_of_cons; by right|]. specialize (Hl kg ltac:(apply elem_of_cons; by left)).
  destruct (proven kg.2) eqn:Ep; [|exact H0]. intros ids0 H Hid. destruct (decide (GeneratedSkill.Capability kg.2 = k)) as [Ek|Hne].
  - rewrite Ek, lookup_insert_eq in H. assert (default [] (m !! k) ++ [kg.1] = ids0) as <- by (by inversion H).
    apply elem_of_app in Hid as [Hid| ->%list_elem_of_singleton]; [|apply andb_prop in Ep as [Ep1 Ep2]; by exists kg.2].
    destruct (m !! k) as [ids1|] eqn:Em; [by apply (H0 ids1)|by apply elem_of_nil in Hid].
  - rewrite lookup_insert_ne in H by exact Hne. by apply (H0 ids0).
Qed.
(** [id] is the tool made of the model's merge of at least two skills, all of one
    capability and proven at some moment of the pass. *)
Definition merged (g : TaskGraph.t) (es : ExperienceStore.t) (skills : list string) (schedule : list Move) (id : string) : Prop :=
  ∃ before after capability sources text, schedule = before ++ after ∧ (2 <= length sources)%nat ∧
    (∀ s, s ∈ sources → proven_in (Pass.Store (ReflectOnTask env g es skills before)) capability s.1) ∧
    REnv.merge_reply env capability sources = Some text ∧ REnv.register env (clean_code text) = Some id.
Lemma merge_ok (made : string → Prop) n es ci :
  (∀ sources text id, (2 <= length sources)%nat → (∀ s, s ∈ sources → s.1 ∈ ci.2) → REnv.merge_reply env ci.1 sources = Some text →
     REnv.register env (clean_code text) = Some id → made id) →
  modestly made es (merge_group env n (REnv.merge_reply env) (REnv.register env) es ci).1.
Proof.
  intros Hm. unfold merge_group. destruct (_ <? 2)%nat; [reflexivity|]. cbv zeta. set (sources := omap _ _). destruct (length sources <? 2)%nat eqn:El; [reflexivity|].
  apply Nat.ltb_ge in El. assert (∀ s, s ∈ sources → s.1 ∈ ci.2) as Hs.
  { intros s (id & Hid & E)%list_elem_of_omap. destruct (skillSource env es id); [|discriminate E]. by injection E as <-. }
  clearbody sources. unfold mergeVariants. destruct (REnv.merge_reply env ci.1 sources) as [[|c t]|] eqn:Er; [reflexivity| |reflexivity].
  destruct (REnv.register env _) as [id|] eqn:Ei; [|reflexivity].
  pose proof (register_modest (REnv.settings env) (REnv.math_Exp env) math_Pow env made n id ci.1 "Unified Expert Skill via Hybrid Merge" "" (clean_code (String c t)) es) as H1.
  destruct (registerAsSkill _ _ _ _ _ _ _ _) as [es1 ops]. cbn [fst] in *. etransitivity; [exact H1|]. apply verify_modest. by apply (Hm sources (String c t) id).
Qed.

(** *** Every interleaving *)

(** What waits to be merged was proven at the moment of the scan. *)
Definition waiting_ok (g : TaskGraph.t) (es : ExperienceStore.t) (skills : list string) (schedule : list Move) (p : Pass.t) : Prop :=
  match Pass.Back p with
  | BackMerge groups => ∃ before after, schedule = before ++ after ∧
      ∀ ci id, ci ∈ groups → id ∈ ci.2 → proven_in (Pass.Store (ReflectOnTask env g es skills before)) ci.1 id
  | _ => True
  end.
Section schedule.
Context (g : TaskGraph.t) (es : ExperienceStore.t) (skills : list string) (schedule : list Move).
Abbreviation kept p p' := (modestly (merged g es skills schedule) (Pass.Store p) (Pass.Store p')).
Lemma loop_ok n p : kept p (loop_move env g n p) ∧ Pass.Back (loop_move env g n p) = Pass.Back p.
Proof.
  unfold loop_move. destruct (Pass.Todo p) as [|r rest]; [by destruct (Pass.Ended p)|].
  pose proof (settle_ok (merged g es skills schedule) n (length (Pass.Traces p) <? maxConcurrentCrystallize)%nat r (Pass.Store p)) as H.
  by destruct (settle_record _ _ _ _ _) as [es1 made].
Qed.
Lemma trace_ok n i p : kept p (trace_move env n i p) ∧ Pass.Back (trace_move env n i p) = Pass.Back p.
Proof.
  unfold trace_move. destruct (Pass.Traces p !! i) as [r|]; [|done].
  pose proof (trace_modest (REnv.settings env) (REnv.math_Exp env) math_Pow env (merged g es skills schedule) n (REnv.trace_reply env) (REnv.register env) r (Pass.Store p)) as H.
  by destruct (CrystallizeStepToSkill _ _ _ _ _ _) as [es1 ops].
Qed.
Lemma back_ok n p : waiting_ok g es skills schedule p → (∃ before after, schedule = before ++ after ∧ Pass.Store p = Pass.Store (ReflectOnTask env g es skills before)) →
  kept p (back_move env n p) ∧ waiting_ok g es skills schedule (back_move env n p).
Proof.
  unfold waiting_ok, back_move. intros Hw (before & after & Es & Ep). destruct (Pass.Back p) as [|[|ci rest]| | |] eqn:Eb.
  - split; [reflexivity|]. exists before, after. split; [exact Es|]. intros ci id Hci. rewrite Ep in Hci. by apply (scan_proven n).
  - by split.
  - destruct Hw as (b & a & E & Hg). pose proof (merge_ok (merged g es skills schedule) n (Pass.Store p) ci) as H. destruct (merge_group _ _ _ _ _ _) as [es1 ops]. cbn [fst] in H. split.
    + apply H. intros sources text id Hl Hs Hr Hi. exists b, a, ci.1, sources, text. split_and!; [exact E|exact Hl| |exact Hr|exact Hi].
      intros s Hin. apply Hg; [apply elem_of_cons; by left|by apply Hs].
    + exists b, a. split; [exact E|]. intros ci' id Hci. apply Hg, elem_of_cons. by right.
  - by split.
  - split; [|done]. split; [apply metabolic_quiet|apply earned_metabolic].
  - by rewrite Eb.
Qed.
Lemma pass_ok before : ∀ after, schedule = before ++ after →
  kept (begin_pass env g es skills) (ReflectOnTask env g es skills before) ∧ waiting_ok g es skills schedule (ReflectOnTask env g es skills before).
Proof.
  induction before as [|m before IH] using rev_ind; intros after Es.
  { split; [reflexivity|]. unfold waiting_ok, ReflectOnTask, begin_pass. cbn [fold_left]. destruct (bool_decide _); [done|].
    destruct (learn env g es) as [es1 records]. by destruct (PruneSkills _ _ es1). }
  rewrite <- app_assoc in Es. destruct (IH _ Es) as [H1 H2].
  assert (ReflectOnTask env g es skills (before ++ [m]) = move env g (ReflectOnTask env g es skills before) m) as -> by (unfold ReflectOnTask; by rewrite fold_left_app).
  assert (∃ b a, schedule = b ++ a ∧ Pass.Store (ReflectOnTask env g es skills before) = Pass.Store (ReflectOnTask env g es skills b)) as Hp by (by exists before, ([m] ++ after)).
  revert H1 H2 Hp. generalize (ReflectOnTask env g es skills before). intros p H1 H2 Hp. unfold move. cbv zeta. generalize (8 + 4 * Pass.Clock p)%nat. intros n.
  set (q := p <| Pass.Clock ::= S |>). change (Pass.Store p) with (Pass.Store q) in *. change (waiting_ok g es skills schedule p) with (waiting_ok g es skills schedule q) in H2.
  clearbody q. destruct m as [| |i].
  - destruct (loop_ok n q) as [K1 K2]. split; [by etransitivity|]. unfold waiting_ok. by rewrite K2.
  - destruct (back_ok n q H2 Hp) as [K1 K2]. split; [by etransitivity|exact K2].
  - destruct (trace_ok n i q) as [K1 K2]. split; [by etransitivity|]. unfold waiting_ok. by rewrite K2.
Qed.
End schedule.

(** A pass is a run of the store's operations, so that what every operation keeps
    true ([Experience.op_step_ok]) a pass keeps true, whoever moves when. *)
Lemma reflection_runs g es skills schedule : (∀ n V (m : gmap string V), range_order m (REnv.order env n V m)) → ExperienceStore.TaskPatterns es !! REnv.newID env = None →
  rtc (op_any (REnv.settings env) (REnv.math_Exp env) math_Pow) es (Pass.Store (ReflectOnTask env g es skills schedule)).
Proof.
  intros Ho Hid. destruct (pass_ok g es skills schedule schedule [] ltac:(by rewrite app_nil_r)) as [[H3 _] _].
  etransitivity; [|exact (q_runs _ _ _ _ _ H3)]. destruct (decide (TaskGraph.Steps g = ∅)) as [He|Hne].
  { unfold begin_pass. rewrite bool_decide_eq_true_2 by exact He. apply rtc_refl. }
  destruct (begin_parts g es skills Hne) as [H2 _]. destruct (learn_parts g es) as (es1 & records & [H1 _] & E).
  etransitivity; [exact (q_runs _ _ _ _ _ H1)|]. etransitivity; [|exact (q_runs _ _ _ _ _ H2)].
  rewrite E. apply rtc_once. exists true. apply op_completes; [|apply Ho]. by rewrite (q_patterns _ _ _ _ _ H1).
Qed.
(** C26: reflection leaves alone what is known of the skills of steps that did not go
    well, at every moment of the pass and whoever moves when -- the loop, the merges
    and the puttings away, the traces made skills --: an affinity changes only if a
    step that ended ok or was skipped -- whatever became of the task -- has its
    skill, at its capability, among its own. *)
Theorem reflection_spares g es skills schedule key :
  (∀ r s, r ∈ (learn env g es).2 → counts r = true → s ∈ StepRecord.Skills r → affinity_key (StepRecord.Capability r) s ≠ key) →
  ExperienceStore.SkillAffinities (Pass.Store (ReflectOnTask env g es skills schedule)) !! key = ExperienceStore.SkillAffinities es !! key.
Proof.
  intros Hk. destruct (pass_ok g es skills schedule schedule [] ltac:(by rewrite app_nil_r)) as [[H3 _] _]. rewrite (q_affinities _ _ _ _ _ H3).
  destruct (decide (TaskGraph.Steps g = ∅)) as [He|Hne]; [unfold begin_pass; by rewrite bool_decide_eq_true_2|].
  destruct (begin_parts g es skills Hne) as [H2 _]. rewrite (q_affinities _ _ _ _ _ H2).
  destruct (learn_parts g es) as (es1 & records & [H1 _] & E). rewrite E in Hk |- *. cbn [fst snd] in *. rewrite <- (q_affinities _ _ _ _ _ H1).
  eapply (task_spares (REnv.settings env) (Some key)); [|reflexivity]. intros r [Hc Hr]%elem_of_filter_list s key' Hs [= ->]. by apply (Hk r s).
Qed.
(** Nothing is verified before the loop. *)
Lemma begin_verified g es skills : verified_before es (Pass.Store (begin_pass env g es skills)).
Proof.
  destruct (decide (TaskGraph.Steps g = ∅)) as [He|Hne]; [unfold begin_pass; by rewrite bool_decide_eq_true_2|].
  destruct (begin_parts g es skills Hne) as [_ H2]. etransitivity; [|exact H2]. destruct (learn_parts g es) as (es1 & records & [_ H1] & E). rewrite E. cbn [fst].
  etransitivity; [exact H1|]. eapply (task_spares (REnv.settings env) None). by intros r _ s key.
Qed.
(** C25: a skill that is verified at some moment of a pass, whoever moved when, and
    was not before it has earned it: it stands in the store with at least three uses
    and a success rate above 80 percent, and its tool was made permanent -- or it is
    the tool made of the model's merge of at least two skills that were themselves
    verified and above 80 percent, for one capability, when the pass looked for
    skills to merge.  A merged skill itself needs no use ([merged_unused]). *)
Theorem promoted_earned g es skills schedule id gs :
  ExperienceStore.GeneratedSkills (Pass.Store (ReflectOnTask env g es skills schedule)) !! id = Some gs → GeneratedSkill.IsVerified gs = true →
  (∀ g0, ExperienceStore.GeneratedSkills es !! id = Some g0 → GeneratedSkill.IsVerified g0 = false) →
  (3 ≤ GeneratedSkill.UsageCount gs ∧ fltb (fpct 80) (GeneratedSkill.SuccessRate gs) = true ∧ REnv.promotes env id = true) ∨ merged g es skills schedule id.
Proof.
  intros Hg Hv Hn. destruct (pass_ok g es skills schedule schedule [] ltac:(by rewrite app_nil_r)) as [[_ H] _].
  destruct (H id gs Hg Hv) as [(g2 & Hg2 & Hv2 & _ & _)|[He|He]]; [exfalso|by left|by right].
  destruct (begin_verified g es skills id g2 Hg2 Hv2) as (g0 & Hg0 & Hv0). rewrite (Hn g0 Hg0) in Hv0. discriminate.
Qed.
End pass.

(** ** Whose fault it was *)

Lemma plain_class msg : infra_class (classifyError (Some (plain_error msg))) = false → classifyError (Some (plain_error msg)) = FailureClassRoleMissing.
Proof.
  unfold classifyError, plain_error, errors_As. cbn [err_chain err_msg]. rewrite !bool_decide_eq_false_2 by (by intros ?%elem_of_nil).
  repeat match goal with |- context [if ?b then _ else _] => destruct b end; done.
Qed.
(** A failure is blamed on the skills of a task exactly when the task did not
    complete and the last error of some step says that a role is missing: an error
    that is only a text is classified as transient when nothing else fits, and
    transient errors are excused. *)
Theorem blame_exact status steps : attributable status steps = true ↔
  status ≠ GraphCompleted ∧ ∃ st, st ∈ steps ∧ Step.LastError st ≠ "" ∧ classifyError (Some (plain_error (Step.LastError st))) = FailureClassRoleMissing.
Proof.
  unfold attributable. rewrite andb_true_iff, negb_true_iff, bool_decide_eq_false, existsb_exists. apply and_iff_compat_l. unfold blames. split.
  - intros (st & Hin & [He%negb_true_iff%String.eqb_neq Hc%negb_true_iff]%andb_prop). exists st. split; [by apply list_elem_of_In|]. split; [exact He|by apply plain_class].
  - intros (st & Hin & He & Hc). exists st. split; [by apply list_elem_of_In|]. rewrite Hc. apply String.eqb_neq in He. by rewrite He.
Qed.
(** The decisions that reflection makes up are dropped: the type of each is not a string. *)
Lemma skips_forgotten now conf success steps : omap (decision_outcome now conf success) (decisions_of steps) = [].
Proof. unfold decisions_of. generalize (List.filter (λ st, bool_decide (Step.Status st = StepSkipped)) steps). intros l. induction l as [|st l IH]; [done|]. exact IH. Qed.

(** ** Examples *)

Definition ex_role : Role.t := Role.mk "role" "" "" "build" "" "" ["go"] [] [] "".
Definition ex_env : REnv.t :=
  REnv.mk {["role" := ex_role]} exp_settings None None "linux" (λ _, false) (λ _, []) (λ _, "m") (λ _, ([], "")) (λ _, "-- live") (λ _, true) (λ x, x)
    (λ _ _ m, elements (dom m)) "p1" 50 (λ _ _ _, "") (λ _ _, Some ("```lua return 1 ```")) (λ _ _ _, None) (λ _, Some "jit_m") (λ _, None) (λ _, true) "" None
    true (UserProfile.mk [] [] [] "").
(** One step went well, with a skill it was shown; one failed. *)
Definition ex_graph : TaskGraph.t :=
  (blankGraph "t" [blankStep "a" StepOK []; (blankStep "b" StepFailed []) <| Step.AdditionalSkills := ["cc"] |> <| Step.LastError := "exit status 1" |>]) <| TaskGraph.Status := GraphFailed |>.
Definition ex_skill (id : string) (uses : Z) (verified : bool) : string * GeneratedSkill.t :=
  (id, GeneratedSkill.mk id "" "build" uses (fpct 90) 0 verified "" "" "" "" [] "" 0 float_zero float_zero "").
Definition ex_store : ExperienceStore.t :=
  empty_store <| ExperienceStore.GeneratedSkills := list_to_map [ex_skill "jit_x" 3 false; ex_skill "root" 9 true] |>
    <| ExperienceStore.skillExposures := {["t/a" := ["jit_x"]]} |>.
(** The loop promotes jit_x; the scan after it finds two skills to merge. *)
Definition ex_schedule : list Move := [MLoop; MLoop; MBack; MBack; MBack; MBack; MBack; MLoop].
Definition ex_pass (schedule : list Move) : Pass.t := ReflectOnTask (SL := insertion_sorter) ex_env ex_graph ex_store [] schedule.
Example ex_finished : finished (ex_pass ex_schedule) = true.
Proof. vm_compute. reflexivity. Qed.
Definition verified_of (p : Pass.t) (id : string) : option (bool * Z) :=
  (λ g, (GeneratedSkill.IsVerified g, GeneratedSkill.UsageCount g)) <$> ExperienceStore.GeneratedSkills (Pass.Store p) !! id.
(** The merged skill is verified and was never used. *)
Example merged_unused : verified_of (ex_pass ex_schedule) "jit_m" = Some (true, 0) ∧ ExperienceStore.GeneratedSkills ex_store !! "jit_m" = None.
Proof. vm_compute. done. Qed.
(** A scan that comes before the loop finds one proven skill only: nothing is merged. *)
Example early_scan : verified_of (ex_pass [MBack; MBack; MLoop; MLoop]) "jit_m" = None ∧ verified_of (ex_pass [MBack; MBack; MLoop; MLoop]) "jit_x" = Some (true, 4).
Proof. vm_compute. done. Qed.
(** A list of records that has nothing to say of an affinity. *)
Definition silent_on (key : string) (records : list StepRecord.t) : bool :=
  forallb (λ r, negb (counts r) || forallb (λ s, negb (String.eqb (affinity_key (StepRecord.Capability r) s) key)) (StepRecord.Skills r)) records.
Lemma silent_on_true key records : silent_on key records = true →
  ∀ r s, r ∈ records → counts r = true → s ∈ StepRecord.Skills r → affinity_key (StepRecord.Capability r) s ≠ key.
Proof.
  unfold silent_on. intros H r s Hr Hc Hs. rewrite forallb_forall in H. specialize (H r ltac:(by apply list_elem_of_In)). rewrite Hc in H. cbn in H.
  rewrite forallb_forall in H. specialize (H s ltac:(by apply list_elem_of_In)). by apply negb_true_iff, String.eqb_neq in H.
Qed.
Lemma reflection_spares_witness :
  ExperienceStore.SkillAffinities (Pass.Store (ex_pass ex_schedule)) !! "build:cc" = None ∧
  is_Some (ExperienceStore.SkillAffinities (Pass.Store (ex_pass ex_schedule)) !! "build:jit_x").
Proof.
  split; [|vm_compute; by eexists].
  apply (reflection_spares (SL := insertion_sorter) ex_env (λ x _, x) ex_graph ex_store [] ex_schedule "build:cc"), silent_on_true. vm_compute. reflexivity.
Defined.
Definition earned_or_merged (id : string) : Prop :=
  match ExperienceStore.GeneratedSkills (Pass.Store (ex_pass ex_schedule)) !! id with
  | Some gs => (3 ≤ GeneratedSkill.UsageCount gs ∧ fltb (fpct 80) (GeneratedSkill.SuccessRate gs) = true ∧ REnv.promotes ex_env id = true) ∨
      merged (SL := insertion_sorter) ex_env ex_graph ex_store [] ex_schedule id
  | None => False
  end.
(** jit_x earned it; jit_m, never used, is merged. *)
Lemma promoted_earned_witness : earned_or_merged "jit_x" ∧ earned_or_merged "jit_m".
Proof.
  assert (∀ id, GeneratedSkill.IsVerified <$> ExperienceStore.GeneratedSkills (Pass.Store (ex_pass ex_schedule)) !! id = Some true →
    (∀ g0, ExperienceStore.GeneratedSkills ex_store !! id = Some g0 → GeneratedSkill.IsVerified g0 = false) → earned_or_merged id) as Hid.
  { intros id Hv Hn. unfold earned_or_merged.
    pose proof (promoted_earned (SL := insertion_sorter) ex_env (λ x _, x) ex_graph ex_store [] ex_schedule id) as H.
    revert Hv H Hn. unfold ex_pass.
    generalize (ExperienceStore.GeneratedSkills (Pass.Store (ReflectOnTask (SL := insertion_sorter) ex_env ex_graph ex_store [] ex_schedule)) !! id).
    intros [gs|] Hv H Hn; [|discriminate Hv]. exact (H gs eq_refl (f_equal (default false) Hv) Hn). }
  split; apply Hid; try (vm_compute; reflexivity); intros g0 H0; vm_compute in H0; [injection H0 as <-; reflexivity|discriminate H0].
Defined.
