(* ===== verification/Submit.v ===== *)
(** * Submitting a task (core/scheduler_submit.go, core/draft_store.go,
    core/fastpath_engine.go, [composeRecoveryPrompt], [SnapshotJITTools])

    From the caller's step inputs to a task graph the engine runs: the checks in
    their order, skill expansion, planning, then either the smart route of a
    lone step, whose background job spawns the agent without the scheduler
    loop, or the graph of all steps with its executor. *)
From S2P Require Import Prelude Paths TaskStatus Schema FailureClass ToolNames PlanDAG DecisionGate CycleBreaker Surgery DecisionAnswer OutputHandlers Verify CostSentinel Registry Planning Admission Scheduler StepExec.
Local Open Scope Z_scope.

(** ** Drafts *)

Module TaskDraft.
Record t := mk {
  DraftID : string; Steps : list (StepInput.t + gmap string any); CreatedAt : Z; LastError : string; FailedStep : Z }.
#[global] Instance eta : Eta t := λ r, mk (DraftID r) (Steps r) (CreatedAt r) (LastError r) (FailedStep r).
End TaskDraft.
Module DraftStore.
Record t := mk { drafts : gmap string TaskDraft.t; maxCapacity : Z; ttl : Z }.
#[global] Instance eta : Eta t := λ r, mk (drafts r) (maxCapacity r) (ttl r).
End DraftStore.
Definition NewDraftStore : DraftStore.t := DraftStore.mk ∅ 100 (30 * 60 * 1000000000).
(** The key of the oldest draft, the first of several in the order of the map;
    the empty key stands for none. *)
Definition older (best : string * Z) (kv : string * TaskDraft.t) : string * Z :=
  if String.eqb best.1 "" || (TaskDraft.CreatedAt kv.2 <? best.2) then (kv.1, TaskDraft.CreatedAt kv.2) else best.
Definition oldest_key (ds : gmap string TaskDraft.t) (ord : list string) : string :=
  (foldl older (""%string, 0) (range ds ord)).1.
Definition evict_expired (now : Z) (s : DraftStore.t) : DraftStore.t :=
  s <| DraftStore.drafts ::= filter (λ kv, now - TaskDraft.CreatedAt kv.2 <= DraftStore.ttl s) |>.
(** [Save]; [order] is the order of the map that remains. *)
Definition Save (order : gmap string TaskDraft.t → list string) (now : Z) (d : TaskDraft.t) (s : DraftStore.t) : DraftStore.t :=
  let s := evict_expired now s in
  let s := if DraftStore.maxCapacity s <=? Z.of_nat (size (DraftStore.drafts s)) then
             let k := oldest_key (DraftStore.drafts s) (order (DraftStore.drafts s)) in
             if String.eqb k "" then s else s <| DraftStore.drafts ::= delete k |>
           else s in
  s <| DraftStore.drafts ::= <[TaskDraft.DraftID d := d]> |>.
Definition GetDraft (draftID : string) (s : DraftStore.t) : option TaskDraft.t := DraftStore.drafts s !! draftID.
Definition ListDrafts (ord : list string) (s : DraftStore.t) : list TaskDraft.t := snd <$> range (DraftStore.drafts s) ord.
Definition RemoveDraft (draftID : string) (s : DraftStore.t) : DraftStore.t := s <| DraftStore.drafts ::= delete draftID |>.
Inductive PatchError := DraftNotFound | BadStepIndex | BadStepFormat.
Definition PatchStep (draftID : string) (i : Z) (field : string) (val : any) (s : DraftStore.t)
    : DraftStore.t * result PatchError TaskDraft.t :=
  match DraftStore.drafts s !! draftID with
  | None => (s, Err DraftNotFound)
  | Some d =>
      if (i <? 0) || (Z.of_nat (length (TaskDraft.Steps d)) <=? i) then (s, Err BadStepIndex)
      else match TaskDraft.Steps d !! Z.to_nat i with
           | Some (inr m) =>
               let d := d <| TaskDraft.Steps ::= <[Z.to_nat i := inr (<[field := val]> m)]> |>
                          <| TaskDraft.LastError := "" |> <| TaskDraft.FailedStep := -1 |> in
               (s <| DraftStore.drafts ::= <[draftID := d]> |>, Ok d)
           | _ => (s, Err BadStepFormat)
           end
  end.

(** ** The graph of a submission *)

Definition zeroStep : Step.t :=
  Step.mk "" "" "" [] [] [] ∅ ∅ "" "" "" "" 0 [] false 0 "" "" StepPending 0 0 0 "" "" "" None []
    None 0 None "" "" 0 0 0 [] "" "" 0 "" [] zeroContract "" false "" "" "" ∅ false.
Definition zeroGraph : TaskGraph.t :=
  TaskGraph.mk "" "" ∅ GraphRunning false ∅ ∅ [] [] [] None 0 None ∅ "" ∅ ∅ ∅ ∅ [] 0 0 false 0 ∅ "" false ∅ [] None "" "" 0 "" "" ∅.

Definition default_retries (n : Z) : Z := if n =? 0 then 3 else n.
(** The step of an input in a graph. *)
Definition task_step (now : Z) (id : string) (i : StepInput.t) : Step.t :=
  zeroStep <| Step.ID := id |> <| Step.RoleID := StepInput.RoleID i |> <| Step.Task := StepInput.Task i |>
    <| Step.DependsOn := StepInput.DependsOn i |> <| Step.AdditionalSkills := StepInput.AdditionalSkills i |>
    <| Step.AdditionalMCPs := StepInput.AdditionalMCPs i |>
    <| Step.AdditionalToolAllowlists := StepInput.AdditionalToolAllowlists i |>
    <| Step.ContextRefs := StepInput.ContextRefs i |> <| Step.FallbackFor := StepInput.FallbackFor i |>
    <| Step.Status := StepPending |> <| Step.MaxRetries := default_retries (StepInput.MaxRetries i) |>
    <| Step.ExitCriteria := StepInput.ExitCriteria i |> <| Step.DeterministicChecks := StepInput.DeterministicChecks i |>
    <| Step.VerifierModel := StepInput.VerifierModel i |> <| Step.MaxAutoRefine := StepInput.MaxAutoRefine i |>
    <| Step.EnableDebate := StepInput.EnableDebate i |> <| Step.MaxDebateRounds := StepInput.MaxDebateRounds i |>
    <| Step.EnableStepPlan := StepInput.EnableStepPlan i |> <| Step.OutputContract := StepInput.OutputContract i |>
    <| Step.Deliver := StepInput.Deliver i |> <| Step.ProviderOverride := StepInput.ProviderOverride i |>
    <| Step.LastWorkedOn := now |> <| Step.GroupID := StepInput.GroupID i |>
    <| Step.FailurePolicy := StepInput.FailurePolicy i |> <| Step.CompressionHint := StepInput.CompressionHint i |>
    <| Step.SpawnDepth := StepInput.SpawnDepth i |> <| Step.MaxSpawnDepth := StepInput.MaxSpawnDepth i |>
    <| Step.MaxLoopRounds := StepInput.MaxLoopRounds i |> <| Step.DynamicRubrics := StepInput.DynamicRubrics i |>
    <| Step.InputDir := StepInput.InputDir i |> <| Step.MergeStrategy := StepInput.MergeStrategy i |>
    <| Step.TargetKey := StepInput.TargetKey i |> <| Step.InputMapping := StepInput.InputMapping i |>
    <| Step.Isolation := StepInput.Isolation i |>.
(** The step of the smart route copies fewer fields. *)
Definition smart_step (now : Z) (id : string) (i : StepInput.t) : Step.t :=
  zeroStep <| Step.ID := id |> <| Step.RoleID := StepInput.RoleID i |> <| Step.Task := StepInput.Task i |>
    <| Step.Status := StepPending |> <| Step.AdditionalSkills := StepInput.AdditionalSkills i |>
    <| Step.AdditionalMCPs := StepInput.AdditionalMCPs i |> <| Step.ContextRefs := StepInput.ContextRefs i |>
    <| Step.Deliver := StepInput.Deliver i |> <| Step.ExitCriteria := StepInput.ExitCriteria i |>
    <| Step.DeterministicChecks := StepInput.DeterministicChecks i |> <| Step.VerifierModel := StepInput.VerifierModel i |>
    <| Step.MaxAutoRefine := StepInput.MaxAutoRefine i |> <| Step.EnableDebate := StepInput.EnableDebate i |>
    <| Step.MaxDebateRounds := StepInput.MaxDebateRounds i |> <| Step.EnableStepPlan := StepInput.EnableStepPlan i |>
    <| Step.SpawnDepth := StepInput.SpawnDepth i |> <| Step.MaxSpawnDepth := StepInput.MaxSpawnDepth i |>
    <| Step.LastWorkedOn := now |> <| Step.InputDir := StepInput.InputDir i |>
    <| Step.MergeStrategy := StepInput.MergeStrategy i |> <| Step.TargetKey := StepInput.TargetKey i |>.

Definition anySubmitterIsAdmin (inputs : list StepInput.t) : bool := existsb StepInput.SubmitterIsAdmin inputs.
Definition defaultProjectID (pid : string) : string := if String.eqb pid "" then "default" else pid.
Definition resolveProjectID (inputs : list StepInput.t) : string :=
  from_option StepInput.ProjectID "default" (List.find (λ i, negb (String.eqb (StepInput.ProjectID i) "")) inputs).

(** Pairs of overlay steps on one key neither of which names the other. *)
Definition overlay_on (key : string) (st : Step.t) : bool :=
  String.eqb (Step.MergeStrategy st) "overlay" && negb (String.eqb (Step.TargetKey st) "") && String.eqb (Step.TargetKey st) key.
Fixpoint pairs {A} (l : list A) : list (A * A) :=
  match l with [] => [] | a :: l' => (pair a <$> l') ++ pairs l' end.
Definition validateWorkspaceKeyCollisions (ord : list string) (steps : gmap string Step.t) (key : string) : list (string * string) :=
  let ids : list string := Step.ID <$> filter (λ st, overlay_on key st = true) (snd <$> range steps ord) in
  let deps id := from_option Step.DependsOn [] (steps !! id) in
  filter (λ ab, ab.2 ∉ deps ab.1 ∧ ab.1 ∉ deps ab.2) (pairs ids).
Definition stepDependencySnapshot (g : TaskGraph.t) : gmap string (list string) :=
  omap (λ st, match Step.DependsOn st with [] => None | l => Some l end) (TaskGraph.Steps g).

(** [SnapshotJITTools]. *)
Definition SnapshotJITTools (marshal : MCPDef.t → option string) (reg : Registry.t) (mcpIDs : list string) : gmap string string :=
  list_to_map (omap (λ id, d ← Registry.DynamicMCPs reg !! id; text ← marshal d; Some (id, text)) mcpIDs).

Record SubmitEnv := mkSubmitEnv {
  su_now : Z; su_cwd : string; su_taskID : string; su_traceID : string; su_stepID : nat → string;
  su_decID : string; su_draftID : string;
  su_ordR : list string; su_ordM : list string; su_drafts : gmap string TaskDraft.t → list string;
  su_files : SkillFiles; su_skill : string → option Skill.t;
  su_planner : PlannerEnv; su_prompt : string → string → string → string; su_contract : string;
  su_jit : option (MCPDef.t → option string);
  su_role : Role.t → any; su_askill : Skill.t → any; su_provider : ProviderConfig.t → any;
  su_error : AdmissionError → string
}.

Module Submission.
Record t := mk {
  roles : list Role.t; skills : list Skill.t; providers : list ProviderConfig.t; mainProviderID : string;
  sessionID : string; workspaceRoot : string; timeoutSecs : Z; tokenBudget : Z; ownerID : string }.
End Submission.

Section submit.
Context (env : SubmitEnv) (reg : Registry.t) (sub : Submission.t).

Definition input_id (n : nat) (i : StepInput.t) : string :=
  if String.eqb (StepInput.ID i) "" then su_stepID env n else StepInput.ID i.
(** The map of the steps: a later input with the id of an earlier one replaces it. *)
Definition task_steps (inputs : list StepInput.t) : gmap string Step.t :=
  foldl (λ m ni, <[input_id ni.1 ni.2 := task_step (su_now env) (input_id ni.1 ni.2) ni.2]> m) ∅ (zip (seq 0 (length inputs)) inputs).

Definition applySessionAssets (g : TaskGraph.t) : TaskGraph.t :=
  g <| TaskGraph.SessionRoles ::= λ m, foldl (λ m r, <[Role.ID r := su_role env r]> m) m (Submission.roles sub) |>
    <| TaskGraph.SessionSkills ::= λ m, foldl (λ m sk, <[Skill.ID sk := su_askill env sk]> m) m (Submission.skills sub) |>
    <| TaskGraph.SessionProviders ::= λ m,
         foldl (λ m p, <[(if String.eqb (ProviderConfig.PoolID p) "" then ProviderConfig.Provider p else ProviderConfig.PoolID p)
                         := su_provider env p]> m) m (Submission.providers sub) |>.
Definition local_mcps (ids : list string) : gmap string string :=
  match su_jit env with Some marshal => SnapshotJITTools marshal reg ids | None => ∅ end.
Definition root_intent (inputs : list StepInput.t) : string :=
  match inputs with
  | [] => "Initialization"
  | i :: _ => let t := StepInput.Task i in
              if (50 <? String.length t)%nat then (byte_prefix 47 t +:+ "...")%string else t
  end.
Definition root_node (intent : string) : gmap string ContextNode.t :=
  {[ "root" := ContextNode.mk "root" "" intent "" NodeActive "" "" [] ]}.

(** The fields both routes set alike. *)
Definition base_graph : TaskGraph.t :=
  zeroGraph <| TaskGraph.TaskID := su_taskID env |> <| TaskGraph.TraceID := su_traceID env |>
    <| TaskGraph.Status := GraphRunning |> <| TaskGraph.CreatedAt := su_now env |>
    <| TaskGraph.SessionID := Submission.sessionID sub |> <| TaskGraph.OwnerID := Submission.ownerID sub |>
    <| TaskGraph.WorkspaceRoot := Submission.workspaceRoot sub |> <| TaskGraph.TimeoutSecs := Submission.timeoutSecs sub |>
    <| TaskGraph.TokenBudget := Submission.tokenBudget sub |> <| TaskGraph.CurrentNodeID := "root" |>.
Definition smart_graph (id : string) (i : StepInput.t) : TaskGraph.t :=
  base_graph <| TaskGraph.ProjectID := defaultProjectID (StepInput.ProjectID i) |>
    <| TaskGraph.Steps := {[ id := smart_step (su_now env) id i ]} |>
    <| TaskGraph.SubmitterIsAdmin := StepInput.SubmitterIsAdmin i |>
    <| TaskGraph.ContextTree := root_node (StepInput.Task i) |>
    <| TaskGraph.IsSmartRouted := true |> <| TaskGraph.LocalMCPs := local_mcps (StepInput.AdditionalMCPs i) |>.
Definition task_graph (inputs : list StepInput.t) : TaskGraph.t :=
  let g := base_graph <| TaskGraph.ProjectID := resolveProjectID inputs |> <| TaskGraph.Steps := task_steps inputs |>
             <| TaskGraph.SubmitterIsAdmin := anySubmitterIsAdmin inputs |>
             <| TaskGraph.MainProviderID := Submission.mainProviderID sub |>
             <| TaskGraph.TokenBudget := System.DefaultTaskTokenBudget (Registry.System_ reg) |>
             <| TaskGraph.LocalMCPs := local_mcps (inputs ≫= StepInput.AdditionalMCPs) |> in
  let g := applySessionAssets g in
  let g := if Registry.RequirePlanReview reg then g <| TaskGraph.Status := GraphPendingReview |> else g in
  g <| TaskGraph.ContextTree := root_node (root_intent inputs) |>.

(** ** State *)

Record SubmitState := mkSubmitState {
  ss_engine : Engine;
  ss_sessions : option SessionManager.t;
  ss_drafts : option DraftStore.t;
  ss_baselines : list (string * (string * string * string * string))
}.
#[global] Instance SubmitState_eta : Eta SubmitState := λ s,
  mkSubmitState (ss_engine s) (ss_sessions s) (ss_drafts s) (ss_baselines s).

(** [pinBaseline]: the versions pinned; the store is taken to accept them. *)
Definition baseline_of (inputs : list StepInput.t) : option (string * string * string * string) :=
  match inputs with
  | [] => None
  | i :: _ =>
      let sop := if String.eqb (StepInput.SOPRef i) "" then None else Registry.SOPs reg !! StepInput.SOPRef i in
      let role := if String.eqb (StepInput.RoleID i) "" then None else Registry.Roles reg !! StepInput.RoleID i in
      let '(sopID, sopVer) := default (""%string, ""%string) sop in
      let '(roleID, roleVer) := from_option (λ r, (Role.ID r, Role.Version r)) (""%string, ""%string) role in
      if String.eqb sopID "" && String.eqb roleID "" then None else Some (sopID, sopVer, roleID, roleVer)
  end.
Definition pinBaseline (inputs : list StepInput.t) (s : SubmitState) : SubmitState :=
  match baseline_of inputs with
  | Some b => s <| ss_baselines ::= λ l, l ++ [(su_taskID env, b)] |>
  | None => s
  end.
(** The graph is registered with its channels, persisted and announced. *)
Definition register (g : TaskGraph.t) (inputs : list StepInput.t) (s : SubmitState) : SubmitState :=
  let id := su_taskID env in
  let s := s <| ss_engine ::= λ e,
             emits [OPersist g] (store_graph id g e <| cancelFuncs ::= λ c, {[id]} ∪ c |> <| doneChans ::= <[id := false]> |>) |> in
  let s := pinBaseline inputs s in
  s <| ss_engine ::= emits [OBroadcast] |>.

(** ** The routes *)

(** What runs in the background once the task is registered: the job of the
    smart route, nothing while the host is asked for a plan, the executor of the
    graph, or nothing before a review. *)
Inductive Route := RouteSmart (stepID : string) (i : StepInput.t) | RoutePlanDelegated | RouteGraph | RouteReview.

Definition DelegationKindPlan : string := "plan".
Definition newl : string := String (Ascii.ascii_of_nat 10) EmptyString.
Definition buildPlanDelegationPrompt (task roleID : string) : any :=
  AMap [("system_prompt", AString "You are a Task Planner. Produce a JSON plan following the output contract exactly.");
        ("user_prompt", AString ("You are a Task Planner for a supervised execution engine." +:+ newl +:+
           "Break the user request below into an executable dependency graph." +:+ newl +:+ newl +:+
           "## User request" +:+ newl +:+ task +:+ newl +:+ newl +:+ "## Caller role" +:+ newl +:+ roleID +:+ newl +:+ su_contract env)%string)].
Definition plan_decision (stepID : string) (i : StepInput.t) : Decision.t :=
  Decision.mk (su_decID env) stepID DecisionDelegationRequired
    (<["kind" := AString DelegationKindPlan]>
      (<["prompt" := buildPlanDelegationPrompt (StepInput.Task i) (StepInput.RoleID i)]>
        (<["role_id" := AString (StepInput.RoleID i)]> ∅)))
    ["fulfill"; "skip"; "abort"] 0.
Definition host_plans : bool :=
  System.DelegationMode (Registry.System_ reg) && System.EnablePlannerFirst (Registry.System_ reg).
Definition route_smart (i : StepInput.t) (s : SubmitState) : SubmitState * Route :=
  let id := input_id 0 i in
  let g := smart_graph id i in
  if host_plans then
    let g := upd_step id (λ st, st <| Step.Status := StepBlocked |>) g in
    let g := g <| TaskGraph.PendingDecisions ::= λ l, l ++ [plan_decision id i] |> in
    (register g [i] s, RoutePlanDelegated)
  else (register g [i] s, RouteSmart id i).
Definition route_graph (inputs : list StepInput.t) (s : SubmitState) : SubmitState * Route :=
  let s := register (task_graph inputs) inputs s in
  if Registry.RequirePlanReview reg then (s, RouteReview)
  else (s <| ss_engine ::= emits [OStartExecutor (su_taskID env)] |>, RouteGraph).
Definition is_lone (inputs : list StepInput.t) : option StepInput.t :=
  match inputs with [i] => if decide (StepInput.DependsOn i = []) then Some i else None | _ => None end.
Definition route (inputs : list StepInput.t) (s : SubmitState) : SubmitState * Route :=
  match is_lone inputs with
  | Some i => if Registry.RequirePlanReview reg then route_graph inputs s else route_smart i s
  | None => route_graph inputs s
  end.

(** ** [SubmitWithSessionIR] *)

Definition bind_session (s : SubmitState) : SubmitState * result AdmissionError unit :=
  match ss_sessions s with
  | Some m =>
      if String.eqb (Submission.sessionID sub) "" || String.eqb (Submission.workspaceRoot sub) "" then (s, Ok tt)
      else match CreateOrBind (su_cwd env) (Submission.sessionID sub) (Submission.workspaceRoot sub) (su_now env) m with
           | (m, Ok _) => (s <| ss_sessions := Some m |>, Ok tt)
           | (m, Err e) => (s <| ss_sessions := Some m |>, Err e)
           end
  | None => (s, Ok tt)
  end.
(** The plan that replaces a lone step, with the caller's settings; a plan of
    one step keeps the caller's task. *)
Definition plan_first (inputs : list StepInput.t) : list StepInput.t :=
  match is_lone inputs with
  | Some i =>
      if plannerFirstEnabled reg then
        match (RequestPlanning (su_planner env) (su_prompt env) (su_ordR env) reg (StepInput.RoleID i) (StepInput.Task i)
                 (StepInput.SubmitterIsAdmin i)).2.1 with
        | [] => inputs
        | planned =>
            match inheritCallerSettings planned i with
            | [p] => if String.eqb (TrimSpace (StepInput.Task i)) "" then [p] else [p <| StepInput.Task := StepInput.Task i |>]
            | planned => planned
            end
        end
      else inputs
  | None => inputs
  end.
(** The body: the state, whether validation was passed, and the result. *)
Definition submit_body (inputs : list StepInput.t) (s : SubmitState)
    : SubmitState * bool * result AdmissionError (string * Route) :=
  match validateWorkspaceScope reg (Submission.workspaceRoot sub) (Submission.ownerID sub) with
  | Err e => (s, false, Err e)
  | Ok _ =>
      match bind_session s with
      | (s, Err e) => (s, false, Err e)
      | (s, Ok _) =>
          match EvaluateAndGuardInputs (su_ordR env) (su_ordM env) inputs reg with
          | Some g => (s, false, Err (Guarded g))
          | None =>
              match validateSubmission reg inputs with
              | Err e => (s, false, Err e)
              | Ok _ =>
                  let inputs := expandSkillsIfNecessary (su_files env) reg (su_skill env) inputs (Submission.roles sub) (Submission.skills sub) in
                  let inputs := plan_first inputs in
                  let '(s, r) := route inputs s in (s, true, Ok (su_taskID env, r))
              end
          end
      end
  end.
Definition SubmitWithSessionIR (inputs : list StepInput.t) (s : SubmitState) : SubmitState * result AdmissionError (string * Route) :=
  match submit_body inputs s with
  | (s, passed, Err e) =>
      (match ss_drafts s with
       | Some ds => if passed && negb (bool_decide (inputs = []))
                    then s <| ss_drafts := Some (Save (su_drafts env) (su_now env)
                                (TaskDraft.mk (su_draftID env) (inl <$> inputs) (su_now env) (su_error env e) (-1)) ds) |>
                    else s
       | None => s
       end, Err e)
  | (s, _, r) => (s, r)
  end.
End submit.

(** ** The artifact that is already there (core/fastpath_engine.go) *)

Definition isDeterministicContract (i : StepInput.t) : bool :=
  let c := StepInput.OutputContract i in
  negb (String.eqb (Artifact.Path c) "")
  && (negb (bool_decide (Artifact.RequiredFields c = [])) || negb (bool_decide (Artifact.TypeSchema c = ∅))).
(** [filepath.Rel] succeeds and does not start with dots. *)
Definition below (base p : string) : bool :=
  Bool.eqb (rooted base) (rooted p)
  && bool_decide (take (length (comps base)) (comps p) = comps base)
  && match drop (length (comps base)) (comps p) with [] => true | c :: _ => negb (has_prefix ".." c) end.
Definition ExecuteFastPath (ve : VerifyEnv) (outputBase : string) (contract : Artifact.t) : option (gmap string any) :=
  let path := Artifact.Path contract in
  let absPath := if rooted path then path else Join outputBase path in
  if below outputBase absPath then
    match ValidateArtifact ve contract with
    | Some _ => None
    | None =>
        size ← stat_size ve absPath;
        Some (<["status" := AString "success"]> (<["path" := AString path]> (<["size_bytes" := AInt64 size]>
               (<["validated" := ABool true]> (<["fastpath" := ABool true]> ∅)))))
    end
  else None.
Definition tryFastPath (ve : VerifyEnv) (outputBase : string) (i : StepInput.t) : option SpawnResult.t :=
  m ← ExecuteFastPath ve outputBase (StepInput.OutputContract i);
  Some (SpawnResult.mk (SubagentOutput.mk StatusOK float_one (Some m) [] [] [] [] "" None [] [] [] [] 0)
          ("fastpath:" +:+ Artifact.Path (StepInput.OutputContract i))%string "" []).

(** ** The job of the smart route *)

Definition composeRecoveryPrompt (existing reason guidance : string) : string :=
  let composed := ("Your previous attempt was rejected by the exit-criteria audit." +:+ newl +:+
    "REJECTION REASON: " +:+ reason +:+ newl +:+
    "Please address this specific failure and complete all required steps. " +:+
    "Do NOT invent data or report success for steps you did not actually execute.")%string in
  let composed := if String.eqb guidance "" then composed else (composed +:+ newl +:+ newl +:+ guidance)%string in
  if String.eqb existing "" then composed else (existing +:+ newl +:+ newl +:+ composed)%string.
Definition isParseFallback (o : SubagentOutput.t) : bool :=
  existsb (λ a, contains "not parseable" a || contains "semantically hollow" a) (SubagentOutput.Assumptions o).

(** The answer of the spawner to attempt [n] with the context given: an error,
    a result, or neither. *)
Record JobEnv := mkJobEnv {
  jb_verify : VerifyEnv; jb_outputBase : string; jb_cfg : option SystemConfig; jb_now : Z; jb_decID : string;
  jb_spawn : nat → string → option (string + SpawnResult.t);
  jb_guidance : string → string → string; jb_sanitize : string → string
}.

Section job.
Context (env : JobEnv) (stepID : string) (i : StepInput.t).

Definition audited (step : Step.t) (r : SpawnResult.t) : bool :=
  negb (String.eqb (Step.ExitCriteria step) "")
  && bool_decide (SubagentOutput.Status (SpawnResult.Output r) ∈ [StatusOK; StatusPartial]).
Definition refining (reason : string) (f : FailType) (st : Step.t) : Step.t :=
  st <| Step.AutoRefineCount ::= λ n, wrap64 (n + 1) |>
     <| Step.LastError := jb_sanitize env ("[" +:+ fail_string f +:+ "] Exit criteria not met: " +:+ reason +:+ ". Refining...")%string |>.
Definition audit_failed (reason : string) (s : GateState) : GateState :=
  set_graph_status GraphFailed
    (on_step stepID (λ st, st <| Step.Status := StepFailed |>
       <| Step.LastError := jb_sanitize env ("exit_criteria failed after " +:+ pretty (Step.AutoRefineCount st) +:+ " refine attempts: " +:+ reason)%string |>) s).
Fixpoint smart_loop (fuel n : nat) (ctx : string) (s : GateState) : option (GateState * option (string + SpawnResult.t)) :=
  match fuel with
  | O => None
  | S fuel' =>
      let reply := jb_spawn env n ctx in
      match reply, get_step (gs_graph s) stepID with
      | Some (inr r), Some step =>
          if audited step r then
            let '(v, step') := verifyExitCriteria (jb_verify env) (gs_graph s) step (SubagentOutput.Result (SpawnResult.Output r)) in
            let s := on_step stepID (λ st, st <| Step.DynamicRubrics := Step.DynamicRubrics step' |>) s in
            if passes v then Some (s, reply)
            else if Step.AutoRefineCount step <? Step.MaxAutoRefine step then
              smart_loop fuel' (S n) (composeRecoveryPrompt ctx v.1.2 (jb_guidance env (Step.Task step) v.1.2))
                (on_step stepID (refining v.1.2 v.2) s)
            else Some (audit_failed v.1.2 s, reply)
          else Some (s, reply)
      | _, _ => Some (s, reply)
      end
  end.
Definition job_fuel (s : GateState) : nat :=
  match get_step (gs_graph s) stepID with
  | Some st => S (Z.to_nat (Step.MaxAutoRefine st - Step.AutoRefineCount st))
  | None => 1
  end.

Definition keep_result (r : SpawnResult.t) (st : Step.t) : Step.t :=
  st <| Step.ResultRef := SpawnResult.Ref r |> <| Step.StatesVisited := SpawnResult.StatesVisited r |>.
Definition fail_task (f : Step.t → Step.t) (s : GateState) : GateState :=
  set_graph_status GraphFailed (on_step stepID (λ st, f st <| Step.Status := StepFailed |>) s).
(** The status the result is routed by: a reply that did not parse counts as OK. *)
Definition routed_status (o : SubagentOutput.t) : SubagentStatus :=
  if bool_decide (SubagentOutput.Status o = StatusPartial) && isParseFallback o then StatusOK else SubagentOutput.Status o.
(** The graph after the reply, and whether it is a hand-over. *)
Definition settle_reply (reply : option (string + SpawnResult.t)) (s : GateState) : GateState * bool :=
  match reply with
  | Some (inl err) => (fail_task (λ st, st <| Step.LastError := err |>) s, false)
  | None => (fail_task (λ st, st <| Step.LastError := "spawn returned nil result" |>) s, false)
  | Some (inr r) =>
      let o := SpawnResult.Output r in
      let s := on_step stepID (λ st, st <| Step.Confidence := Some (SubagentOutput.Confidence o) |>) s in
      match routed_status o with
      | StatusDelegationRequired => (set_step_status stepID StepBlocked s, true)
      | StatusOK =>
          let s := on_step stepID (keep_result r) s in
          let failed := match get_step (gs_graph s) stepID with Some st => bool_decide (Step.Status st = StepFailed) | None => true end in
          if failed then (s, false)
          else (on_graph (AutoDepositResult stepID (SubagentOutput.Result o))
                  (set_graph_status GraphCompleted (set_step_status stepID StepOK s)), false)
      | StatusPartial => (set_graph_status GraphFailed (on_step stepID (λ st, keep_result r st <| Step.Status := StepPartial |>) s), false)
      | _ => (fail_task (λ st, keep_result r st <| Step.LastError := jb_sanitize env ("step returned status " +:+ status_string (SubagentOutput.Status o))%string |>) s, false)
      end
  end.
Definition hand_over (r : SpawnResult.t) (s : GateState) : GateState :=
  let roleID := match get_step (gs_graph s) stepID with Some st => Step.RoleID st | None => ""%string end in
  let s := addDecision (jb_cfg env) (jb_decID env) (jb_now env) stepID DecisionDelegationRequired
    (<["kind" := AString "external_subagent"]>
      (<["prompt" := any_of_map (default ∅ (SubagentOutput.Result (SpawnResult.Output r)))]>
        (<["role_id" := AString roleID]> ∅))) ["fulfill"; "skip"; "abort"] s in
  emit (OStartExecutor (TaskGraph.TaskID (gs_graph s))) (emit OBroadcast s).
Definition announce (s : GateState) : GateState :=
  let id := TaskGraph.TaskID (gs_graph s) in
  let s := emit (OBroadcastDone id) (emit (OPersist (gs_graph s)) s) in
  let s := emit (OEvent (if bool_decide (TaskGraph.Status (gs_graph s) = GraphFailed) then "task_failed" else "task_completed") id "") s in
  emit OBroadcast s.
Definition smart_job (s : GateState) : option GateState :=
  match (if isDeterministicContract i
         then match tryFastPath (jb_verify env) (jb_outputBase env) i with
              | Some r => Some (s, Some (inr r))
              | None => smart_loop (job_fuel s) 0 "" s
              end
         else smart_loop (job_fuel s) 0 "" s) with
  | None => None
  | Some (s, reply) =>
      match settle_reply reply s, reply with
      | (s, true), Some (inr r) => Some (hand_over r s)
      | (s, _), _ => Some (announce s)
      end
  end.
End job.

(** ** Drafts: properties *)

Lemma evict_size now s : (size (DraftStore.drafts (evict_expired now s)) <= size (DraftStore.drafts s))%nat.
Proof. apply map_subseteq_size, map_filter_subseteq. Qed.
Lemma oldest_key_elem ds ord : range_order ds ord → ds ≠ ∅ → is_Some (ds !! oldest_key ds ord).
Proof.
  intros Ho Hne. unfold oldest_key.
  assert (∀ l acc, (∀ kv, kv ∈ l → ds !! kv.1 = Some kv.2) → is_Some (ds !! acc.1) ∨ acc.1 = "" ∧ l ≠ [] →
    is_Some (ds !! (foldl older acc l).1)) as H.
  { induction l as [|kv l IH]; intros acc Hl Ha; [by destruct Ha as [?|[_ ?]]|]. cbn [foldl].
    assert (is_Some (ds !! kv.1)) as Hkv by (rewrite Hl by left; by eexists).
    apply IH; [intros ? ?; apply Hl; by right|]. left. unfold older.
    destruct (String.eqb_spec acc.1 "") as [_|Hn]; [exact Hkv|]. cbn [orb].
    destruct (_ <? _); [exact Hkv|]. by destruct Ha as [?|[? _]]. }
  apply H; [by intros [k d] [_ Hd]%elem_of_range|]. right. split; [done|]. intros E.
  destruct (map_choose _ Hne) as (k & d & Hk). assert ((k, d) ∈ range ds ord) as Hin.
  { apply elem_of_range. split; [|done]. apply (range_order_elem _ _ _ Ho). by eexists. }
  rewrite E in Hin. by apply elem_of_nil in Hin.
Qed.
(** The store never outgrows its capacity. *)
Lemma drafts_bounded order now d s :
  (∀ m, range_order m (order m)) → DraftStore.drafts s !! "" = None →
  0 < DraftStore.maxCapacity s → Z.of_nat (size (DraftStore.drafts s)) <= DraftStore.maxCapacity s →
  Z.of_nat (size (DraftStore.drafts (Save order now d s))) <= DraftStore.maxCapacity s.
Proof.
  intros Ho H0 Hc Hs. unfold Save. cbv zeta. set (s1 := evict_expired now s).
  assert (DraftStore.maxCapacity s1 = DraftStore.maxCapacity s) as Hm by done.
  pose proof (evict_size now s) as He. fold s1 in He. rewrite Hm.
  assert (∀ m : gmap string TaskDraft.t, (size (<[TaskDraft.DraftID d := d]> m) <= S (size m))%nat) as Hi.
  { intros m. rewrite map_size_insert. destruct (m !! _); unfold id; lia. }
  destruct (Z.leb_spec (DraftStore.maxCapacity s) (Z.of_nat (size (DraftStore.drafts s1)))) as [Hle|Hlt].
  2: { specialize (Hi (DraftStore.drafts s1)).
       change (Z.of_nat (size (<[TaskDraft.DraftID d:=d]> (DraftStore.drafts s1))) <= DraftStore.maxCapacity s). lia. }
  destruct (oldest_key_elem (DraftStore.drafts s1) _ (Ho _)) as [x Hk]; [intros E; rewrite E, map_size_empty in Hle; lia|].
  set (k := oldest_key _ _) in *. destruct (String.eqb_spec k "") as [E|_].
  { rewrite E in Hk. apply map_lookup_filter_Some in Hk as [Hk _]. congruence. }
  specialize (Hi (delete k (DraftStore.drafts s1))).
  change (Z.of_nat (size (<[TaskDraft.DraftID d:=d]> (delete k (DraftStore.drafts s1)))) <= DraftStore.maxCapacity s).
  rewrite map_size_delete_Some in Hi by by eexists. lia.
Qed.
(** What a submission would store cannot be patched: its steps are inputs, and
    only steps decoded to maps are accepted. *)
Lemma saved_draft_unpatchable order now id inputs err s i field val :
  0 <= i < Z.of_nat (length inputs) →
  (PatchStep id i field val (Save order now (TaskDraft.mk id (inl <$> inputs) now err (-1)) s)).2 = Err BadStepFormat.
Proof.
  intros Hi. unfold PatchStep. set (s' := Save _ _ _ _).
  assert (DraftStore.drafts s' !! id = Some (TaskDraft.mk id (inl <$> inputs) now err (-1))) as ->.
  { unfold s', Save. cbv zeta. apply lookup_insert_eq. }
  cbn [TaskDraft.Steps]. rewrite length_fmap. replace ((i <? 0) || (Z.of_nat (length inputs) <=? i)) with false by lia.
  rewrite list_lookup_fmap. destruct (inputs !! Z.to_nat i); done.
Qed.

(** ** The graph of a submission: properties *)

Section graph.
Context (env : SubmitEnv) (reg : Registry.t) (sub : Submission.t).

(** The steps built from the inputs of numbers [n], [n+1], ... *)
Definition steps_from (n : nat) (m : gmap string Step.t) (inputs : list StepInput.t) : gmap string Step.t :=
  foldl (λ m ni, <[input_id env ni.1 ni.2 := task_step (su_now env) (input_id env ni.1 ni.2) ni.2]> m) m (zip (seq n (length inputs)) inputs).
Lemma steps_from_cons n m i inputs :
  steps_from n m (i :: inputs) = steps_from (S n) (<[input_id env n i := task_step (su_now env) (input_id env n i) i]> m) inputs.
Proof. reflexivity. Qed.
Lemma steps_from_lookup n m inputs id st :
  steps_from n m inputs !! id = Some st →
  m !! id = Some st ∨ ∃ i, i ∈ inputs ∧ st = task_step (su_now env) id i.
Proof.
  revert n m. induction inputs as [|i inputs IH]; intros n m; [by left|]. rewrite steps_from_cons. intros [H|(j & Hj & ->)]%IH.
  - apply lookup_insert_Some in H as [[<- <-]|[_ H]]; [|by left]. right. exists i. split; [left|done].
  - right. exists j. split; [by right|done].
Qed.
Lemma task_steps_lookup inputs id st :
  task_steps env inputs !! id = Some st → ∃ i, i ∈ inputs ∧ st = task_step (su_now env) id i.
Proof. intros [H|H]%(steps_from_lookup 0); [by rewrite lookup_empty in H|done]. Qed.
(** With an id of its own every input becomes a step. *)
Lemma steps_from_ids n m inputs i :
  (∀ j, j ∈ inputs → StepInput.ID j ≠ "") → NoDup (StepInput.ID <$> inputs) →
  (i ∈ inputs → steps_from n m inputs !! StepInput.ID i = Some (task_step (su_now env) (StepInput.ID i) i)) ∧
  (∀ id, id ∉ StepInput.ID <$> inputs → steps_from n m inputs !! id = m !! id).
Proof.
  revert n m. induction inputs as [|j inputs IH]; intros n m Hne Hnd; [split; [by intros ?%elem_of_nil|done]|].
  rewrite steps_from_cons. apply NoDup_cons in Hnd as [Hj Hnd].
  assert (input_id env n j = StepInput.ID j) as Ej.
  { unfold input_id. by rewrite (proj2 (String.eqb_neq _ _) (Hne j ltac:(left))). }
  rewrite Ej. destruct (IH (S n) (<[StepInput.ID j := task_step (su_now env) (StepInput.ID j) j]> m)) as [H1 H2];
    [intros k Hk; apply Hne; by right|done|]. split.
  - intros [->|Hi]%elem_of_cons; [|by apply H1]. rewrite H2 by done. apply lookup_insert_eq.
  - intros id [Hid1 Hid2]%not_elem_of_cons. rewrite H2 by done. by apply lookup_insert_ne.
Qed.

Lemma Steps_task_graph inputs : TaskGraph.Steps (task_graph env reg sub inputs) = task_steps env inputs.
Proof. unfold task_graph. cbv zeta. by destruct (Registry.RequirePlanReview reg). Qed.
Lemma Status_task_graph inputs :
  TaskGraph.Status (task_graph env reg sub inputs) = if Registry.RequirePlanReview reg then GraphPendingReview else GraphRunning.
Proof. unfold task_graph. cbv zeta. by destruct (Registry.RequirePlanReview reg). Qed.
Lemma Pending_task_graph inputs : TaskGraph.PendingDecisions (task_graph env reg sub inputs) = [].
Proof. unfold task_graph. cbv zeta. by destruct (Registry.RequirePlanReview reg). Qed.
Lemma Admin_task_graph inputs : TaskGraph.SubmitterIsAdmin (task_graph env reg sub inputs) = anySubmitterIsAdmin inputs.
Proof. unfold task_graph. cbv zeta. by destruct (Registry.RequirePlanReview reg). Qed.
Lemma Project_task_graph inputs : TaskGraph.ProjectID (task_graph env reg sub inputs) = resolveProjectID inputs.
Proof. unfold task_graph. cbv zeta. by destruct (Registry.RequirePlanReview reg). Qed.
Lemma Budget_task_graph inputs :
  TaskGraph.TokenBudget (task_graph env reg sub inputs) = System.DefaultTaskTokenBudget (Registry.System_ reg).
Proof. unfold task_graph. cbv zeta. by destruct (Registry.RequirePlanReview reg). Qed.
End graph.

(** ** What a submission leaves *)

Section effect.
Context (env : SubmitEnv) (reg : Registry.t) (sub : Submission.t).

Definition same_but_sessions (s s' : SubmitState) : Prop :=
  ss_engine s' = ss_engine s ∧ ss_drafts s' = ss_drafts s ∧ ss_baselines s' = ss_baselines s.
Lemma bind_session_same s s' r : bind_session env sub s = (s', r) → same_but_sessions s s'.
Proof.
  unfold bind_session, same_but_sessions. destruct (ss_sessions s) as [m|]; [|by intros [= <- _]].
  destruct (_ || _); [by intros [= <- _]|]. destruct (CreateOrBind _ _ _ _ _) as [m' [?|?]]; by intros [= <- _].
Qed.

(** The inputs that reach the routing. *)
Definition final_inputs (inputs : list StepInput.t) : list StepInput.t :=
  plan_first env reg
    (expandSkillsIfNecessary (su_files env) reg (su_skill env) inputs (Submission.roles sub) (Submission.skills sub)).

Lemma submit_body_cases inputs s s' passed r :
  submit_body env reg sub inputs s = (s', passed, r) →
  (∃ e, r = Err e ∧ passed = false ∧ same_but_sessions s s') ∨
  (∃ s1 rt, same_but_sessions s s1 ∧ route env reg sub (final_inputs inputs) s1 = (s', rt) ∧ r = Ok (su_taskID env, rt) ∧
     validateWorkspaceScope reg (Submission.workspaceRoot sub) (Submission.ownerID sub) = Ok tt ∧
     validateSubmission reg inputs = Ok tt).
Proof.
  unfold submit_body. destruct (validateWorkspaceScope _ _ _) as [[]|e]; [|intros [= <- <- <-]; left; by exists e].
  destruct (bind_session env sub s) as [s1 [[]|e]] eqn:Eb; pose proof (bind_session_same _ _ _ Eb) as Hs.
  2: { intros [= <- <- <-]. left. by exists e. }
  destruct (EvaluateAndGuardInputs _ _ _ _) as [v|]; [intros [= <- <- <-]; left; by exists (Guarded v)|].
  destruct (validateSubmission reg inputs) as [[]|e]; [|intros [= <- <- <-]; left; by exists e].
  cbv zeta. fold (final_inputs inputs). destruct (route env reg sub (final_inputs inputs) s1) as [s2 rt] eqn:Er.
  intros [= <- <- <-]. right. exists s1, rt. by split_and!.
Qed.
Lemma submit_cases inputs s s' r :
  SubmitWithSessionIR env reg sub inputs s = (s', r) →
  (∃ e, r = Err e ∧ same_but_sessions s s') ∨
  (∃ s1 rt, same_but_sessions s s1 ∧ route env reg sub (final_inputs inputs) s1 = (s', rt) ∧ r = Ok (su_taskID env, rt) ∧
     validateWorkspaceScope reg (Submission.workspaceRoot sub) (Submission.ownerID sub) = Ok tt ∧
     validateSubmission reg inputs = Ok tt).
Proof.
  unfold SubmitWithSessionIR. destruct (submit_body env reg sub inputs s) as [[s1 passed] r1] eqn:Eb.
  destruct (submit_body_cases _ _ _ _ _ Eb) as [(e & -> & -> & Hs)|H].
  - cbn [andb]. destruct (ss_drafts s1); intros [= <- <-]; left; by exists e.
  - destruct H as (s2 & rt & H1 & H2 & -> & H3). intros [= <- <-]. right. eauto 10.
Qed.

Lemma register_fields g inputs s :
  graphs (ss_engine (register env reg g inputs s)) = <[su_taskID env := g]> (graphs (ss_engine s)) ∧
  doneChans (ss_engine (register env reg g inputs s)) = <[su_taskID env := false]> (doneChans (ss_engine s)) ∧
  cancelFuncs (ss_engine (register env reg g inputs s)) = {[su_taskID env]} ∪ cancelFuncs (ss_engine s) ∧
  ss_drafts (register env reg g inputs s) = ss_drafts s.
Proof. unfold register, pinBaseline. by destruct (baseline_of reg inputs). Qed.

(** The graph a route registers. *)
Definition routed_graph (rt : Route) (inputs : list StepInput.t) : TaskGraph.t :=
  match rt with
  | RouteSmart id i => smart_graph env reg sub id i
  | RoutePlanDelegated =>
      match inputs with
      | i :: _ =>
          let id := input_id env 0 i in
          upd_step id (λ st, st <| Step.Status := StepBlocked |>) (smart_graph env reg sub id i)
            <| TaskGraph.PendingDecisions ::= λ l, l ++ [plan_decision env id i] |>
      | [] => zeroGraph
      end
  | RouteGraph | RouteReview => task_graph env reg sub inputs
  end.
Lemma route_spec inputs s s' rt :
  route env reg sub inputs s = (s', rt) →
  graphs (ss_engine s') = <[su_taskID env := routed_graph rt inputs]> (graphs (ss_engine s)) ∧
  doneChans (ss_engine s') = <[su_taskID env := false]> (doneChans (ss_engine s)) ∧
  cancelFuncs (ss_engine s') = {[su_taskID env]} ∪ cancelFuncs (ss_engine s) ∧ ss_drafts s' = ss_drafts s ∧
  match rt with
  | RouteSmart id i => inputs = [i] ∧ id = input_id env 0 i ∧ Registry.RequirePlanReview reg = false
  | RoutePlanDelegated => host_plans reg = true ∧ ∃ i, inputs = [i]
  | RouteGraph => Registry.RequirePlanReview reg = false
  | RouteReview => Registry.RequirePlanReview reg = true
  end.
Proof.
  assert (∀ s' rt, route_graph env reg sub inputs s = (s', rt) →
    graphs (ss_engine s') = <[su_taskID env := routed_graph rt inputs]> (graphs (ss_engine s)) ∧
    doneChans (ss_engine s') = <[su_taskID env := false]> (doneChans (ss_engine s)) ∧
    cancelFuncs (ss_engine s') = {[su_taskID env]} ∪ cancelFuncs (ss_engine s) ∧ ss_drafts s' = ss_drafts s ∧
    (rt = RouteGraph ∧ Registry.RequirePlanReview reg = false ∨ rt = RouteReview ∧ Registry.RequirePlanReview reg = true)) as Hg.
  { intros s0 rt0. unfold route_graph. cbv zeta. destruct (register_fields (task_graph env reg sub inputs) inputs s) as (H1 & H2 & H3 & H4).
    destruct (Registry.RequirePlanReview reg); intros [= <- <-]; split_and!; auto. }
  unfold route. destruct (is_lone inputs) as [i|] eqn:El.
  2: { intros H. destruct (Hg _ _ H) as (H1 & H2 & H3 & H4 & [[-> ?]|[-> ?]]); by split_and!. }
  assert (inputs = [i]) as ->.
  { unfold is_lone in El. destruct inputs as [|j [|? ?]]; try done. case_decide; [|done]. by injection El as ->. }
  destruct (Registry.RequirePlanReview reg) eqn:Er.
  { intros H. destruct (Hg _ _ H) as (H1 & H2 & H3 & H4 & [[-> ?]|[-> ?]]); by split_and!. }
  unfold route_smart. cbv zeta. destruct (host_plans reg) eqn:Eh; intros [= <- <-].
  - match goal with |- context [register env reg ?g ?l ?s] => destruct (register_fields g l s) as (-> & -> & -> & ->) end.
    do 4 (split; [done|]). split; [done|]. by exists i.
  - match goal with |- context [register env reg ?g ?l ?s] => destruct (register_fields g l s) as (-> & -> & -> & ->) end.
    by split_and!.
Qed.
End effect.

(** Whatever is submitted, no draft is stored; a refused submission leaves the
    engine, its tasks and the pinned baselines as they were, and one that is
    accepted adds exactly the task it names. *)
Theorem submission_effect env reg sub inputs s s' r :
  SubmitWithSessionIR env reg sub inputs s = (s', r) →
  ss_drafts s' = ss_drafts s ∧
  match r with
  | Err _ => ss_engine s' = ss_engine s ∧ ss_baselines s' = ss_baselines s
  | Ok (id, rt) =>
      id = su_taskID env ∧
      graphs (ss_engine s') = <[id := routed_graph env reg sub rt (final_inputs env reg sub inputs)]> (graphs (ss_engine s)) ∧
      id ∈ cancelFuncs (ss_engine s') ∧ doneChans (ss_engine s') !! id = Some false
  end.
Proof.
  intros [(e & -> & H1 & H2 & H3)|(s1 & rt & (H1 & H2 & H3) & Hr & -> & _)]%submit_cases; [done|].
  apply route_spec in Hr as (Hg & Hd & Hc & Hdr & _). rewrite Hdr, H2. split; [done|]. split; [done|].
  rewrite Hg, Hc, Hd, H1. split; [done|]. split; [set_solver|apply lookup_insert_eq].
Qed.

(** ** From a plan to a completed task *)

(** What a parsed plan leaves at the zero value. *)
Lemma planned_defaults env opt raw inputs i :
  ParsePlanDAG env opt raw = Ok inputs → i ∈ inputs →
  StepInput.MaxRetries i = 0 ∧ StepInput.SubmitterIsAdmin i = false ∧ StepInput.ProjectID i = "" ∧ StepInput.ID i ≠ "" ∧
  StepInput.MaxAutoRefine i = 0.
Proof.
  intros (body & ps & Hv)%parsed_validated Hi. destruct (validated _ _ _ _ _ Hv) as (_ & _ & Hok & _).
  rewrite Forall_forall in Hok. destruct (Hok i Hi) as [Hid _ _ _ _ _ _].
  assert (StepInput.ID i ≠ "") as Hne by (intros E; rewrite E in Hid; discriminate).
  unfold validate_plan in Hv. case_decide; [done|]. case_decide; [done|]. rewrite rbind_ok in Hv. destruct Hv as (out & _ & Hv).
  rewrite rbind_ok in Hv. destruct Hv as (u & _ & Hv). cbv zeta in Hv. destruct (negb _); [done|].
  destruct (rmap_ok_r _ _ _ _ Hv Hi) as (p & _ & Hp). unfold to_input in Hp. cbv zeta in Hp. destruct (_ && _); [done|].
  rewrite rbind_ok in Hp. destruct Hp as (tools & _ & [= <-]). done.
Qed.

(** Inputs that make a healthy graph of executable steps. *)
Record well_planned (inputs : list StepInput.t) : Prop := mk_well_planned {
  wp_ids : ∀ i, i ∈ inputs → StepInput.ID i ≠ "";
  wp_nodup : NoDup (StepInput.ID <$> inputs);
  wp_acyclic : ∀ x, ¬ tc (input_edge inputs) x x;
  wp_retries : ∀ i, i ∈ inputs → 0 <= StepInput.MaxRetries i < int64_max;
  wp_refine : ∀ i, i ∈ inputs → StepInput.MaxAutoRefine i <= int64_max;
  wp_criteria : ∀ i, i ∈ inputs → StepInput.ExitCriteria i = ""
}.

Lemma input_edge_ranked inputs :
  (∀ x, ¬ tc (input_edge inputs) x x) → ∃ rank : string → nat, ∀ x y, input_edge inputs x y → (rank y < rank x)%nat.
Proof.
  intros Hac. set (deps := λ x, filter (λ j, StepInput.ID j = x) inputs ≫= StepInput.DependsOn).
  assert (∀ x y, edge_to deps x y ↔ input_edge inputs x y) as He.
  { intros x y. unfold edge_to, deps, input_edge. rewrite list_elem_of_bind. setoid_rewrite list_elem_of_filter. naive_solver. }
  destruct (acyclic_ranked deps (inputs ≫= StepInput.DependsOn)) as [rank Hr].
  - intros x Hx. apply (Hac x). eapply (tc_congruence id); [|exact Hx]. intros a b. by apply He.
  - intros x y (j & Hj & _ & Hy)%He. apply list_elem_of_bind. by exists j.
  - exists rank. intros x y Hxy. by apply Hr, He.
Qed.

Lemma task_graph_healthy env reg sub inputs :
  Registry.RequirePlanReview reg = false → well_planned inputs →
  ∃ rank, healthy rank (task_graph env reg sub inputs) ∧ executable_task (task_graph env reg sub inputs).
Proof.
  intros Hrev [Hids Hnd Hac Hr Hm Hc]. destruct (input_edge_ranked inputs Hac) as [rank Hrank]. exists rank.
  assert (∀ i, i ∈ inputs → task_steps env inputs !! StepInput.ID i = Some (task_step (su_now env) (StepInput.ID i) i)) as Hs.
  { intros i Hi. by apply (steps_from_ids env 0 ∅ inputs i). }
  split; [constructor|].
  - intros id st Hst. rewrite Steps_task_graph in Hst. by apply task_steps_lookup in Hst as (i & _ & ->).
  - intros id st d Hst Hd _. rewrite Steps_task_graph in Hst.
    assert (∃ i, i ∈ inputs ∧ id = StepInput.ID i ∧ st = task_step (su_now env) id i) as (i & Hi & -> & ->).
    { assert (id ∈ StepInput.ID <$> inputs) as (i & -> & Hi)%list_elem_of_fmap.
      { destruct (decide (id ∈ StepInput.ID <$> inputs)) as [?|Hno]; [done|]. exfalso.
        change (steps_from env 0 ∅ inputs !! id = Some st) in Hst.
        rewrite (proj2 (steps_from_ids env 0 ∅ inputs zeroInput Hids Hnd) id Hno) in Hst. by rewrite lookup_empty in Hst. }
      exists i. rewrite Hs in Hst by done. split_and!; [done|done|by injection Hst as <-]. }
    apply Hrank. by exists i.
  - by rewrite Status_task_graph, Hrev.
  - apply Pending_task_graph.
  - intros id st Hst. rewrite Steps_task_graph in Hst. apply task_steps_lookup in Hst as (i & _ & ->). by left.
  - intros id st Hst. rewrite Steps_task_graph in Hst. apply task_steps_lookup in Hst as (i & Hi & ->).
    specialize (Hr i Hi). specialize (Hm i Hi). specialize (Hc i Hi).
    change (((0 <= 0 ∧ 0 <= 0 ∧ default_retries (StepInput.MaxRetries i) < int64_max ∧ StepInput.MaxAutoRefine i <= int64_max) ∧
             0 <= default_retries (StepInput.MaxRetries i) ∧ StepInput.ExitCriteria i = "")).
    unfold default_retries. destruct (Z.eqb_spec (StepInput.MaxRetries i) 0); unfold int64_max in *; split_and!; try lia; done.
Qed.

(** The planner's steps with the caller's settings. *)
Lemma inherited_fields steps i s' :
  s' ∈ inheritCallerSettings steps i →
  ∃ s, s ∈ steps ∧ StepInput.ID s' = StepInput.ID s ∧ StepInput.DependsOn s' = StepInput.DependsOn s ∧
    StepInput.MaxRetries s' = StepInput.MaxRetries s ∧ StepInput.ExitCriteria s' = StepInput.ExitCriteria s ∧
    StepInput.SubmitterIsAdmin s' = StepInput.SubmitterIsAdmin s ∧ StepInput.ProjectID s' = StepInput.ProjectID s ∧
    (StepInput.MaxAutoRefine s' = StepInput.MaxAutoRefine s ∨ StepInput.MaxAutoRefine s' = StepInput.MaxAutoRefine i).
Proof.
  unfold inheritCallerSettings. cbv zeta. intros (s & -> & Hs)%list_elem_of_fmap. exists s. split; [done|].
  destruct (bool_decide _); split_and!; auto.
Qed.
Lemma inherited_ids steps i : StepInput.ID <$> inheritCallerSettings steps i = StepInput.ID <$> steps.
Proof.
  unfold inheritCallerSettings. cbv zeta. set (terminal := planTerminalStepIDs steps). clearbody terminal.
  induction steps as [|s l IH]; [done|]. cbn [map fmap list_fmap]. f_equal; [by destruct (bool_decide _)|exact IH].
Qed.

Lemma is_lone_one i : StepInput.DependsOn i = [] → is_lone [i] = Some i.
Proof. intros H. cbn. by rewrite decide_True. Qed.

Section planned.
Context (env : SubmitEnv) (reg : Registry.t) (sub : Submission.t) (i : StepInput.t).
(** A lone step that is not expanded into a skill, with planning switched on,
    and what the planner answers. *)
Definition planner_steps : list StepInput.t :=
  (RequestPlanning (su_planner env) (su_prompt env) (su_ordR env) reg (StepInput.RoleID i) (StepInput.Task i) (StepInput.SubmitterIsAdmin i)).2.1.
Context (Hexpand : expandSkillsIfNecessary (su_files env) reg (su_skill env) [i] (Submission.roles sub) (Submission.skills sub) = [i])
  (Hlone : StepInput.DependsOn i = []) (Hplan : plannerFirstEnabled reg = true) (Hsteps : planner_steps ≠ []).

Lemma planner_parsed : ∃ opt raw, ParsePlanDAG (pl_plan (su_planner env)) opt raw = Ok planner_steps.
Proof.
  unfold planner_steps in *.
  pose proof (request_usable (su_planner env) (su_prompt env) (su_ordR env) reg (StepInput.RoleID i) (StepInput.Task i) (StepInput.SubmitterIsAdmin i)) as H.
  destruct (RequestPlanning _ _ _ _ _ _ _) as [prompts [steps why]]. cbn [fst snd] in *.
  destruct H as [_ [[-> _]|(_ & _ & _ & raw & H)]]; [done|]. eauto.
Qed.
(** Each final input is a planned step with settings of the caller. *)
Lemma final_planned :
  StepInput.ID <$> final_inputs env reg sub [i] = StepInput.ID <$> planner_steps ∧
  ∀ s', s' ∈ final_inputs env reg sub [i] →
    ∃ s, s ∈ planner_steps ∧ StepInput.ID s' = StepInput.ID s ∧ StepInput.DependsOn s' = StepInput.DependsOn s ∧
      StepInput.MaxRetries s' = StepInput.MaxRetries s ∧ StepInput.ExitCriteria s' = StepInput.ExitCriteria s ∧
      StepInput.SubmitterIsAdmin s' = StepInput.SubmitterIsAdmin s ∧ StepInput.ProjectID s' = StepInput.ProjectID s ∧
      (StepInput.MaxAutoRefine s' = StepInput.MaxAutoRefine s ∨ StepInput.MaxAutoRefine s' = StepInput.MaxAutoRefine i).
Proof.
  unfold final_inputs. rewrite Hexpand. unfold plan_first. rewrite is_lone_one by done. rewrite Hplan. fold planner_steps.
  pose proof (inherited_ids planner_steps i) as Hids. pose proof (inherited_fields planner_steps i) as Hf.
  destruct planner_steps as [|p ps]; [done|]. destruct (inheritCallerSettings (p :: ps) i) as [|q [|q' qs]]; [done| |done].
  destruct (String.eqb (TrimSpace (StepInput.Task i)) ""); [done|]. split; [exact Hids|].
  intros s' ->%list_elem_of_singleton. destruct (Hf q ltac:(left)) as (s & Hs & H). exists s. by split.
Qed.

Lemma planned_well :
  (∀ s, s ∈ planner_steps → StepInput.ExitCriteria s = "") →
  StepInput.MaxAutoRefine i <= int64_max → well_planned (final_inputs env reg sub [i]).
Proof.
  intros Hc Hi. destruct planner_parsed as (opt & raw & Hp). destruct final_planned as [Hids Hf].
  destruct (parsed_validated _ _ _ _ Hp) as (body & ps & Hv). destruct (validated _ _ _ _ _ Hv) as (_ & Hnd & _ & Hac).
  split.
  - intros s' (s & Hs & -> & _)%Hf. by destruct (planned_defaults _ _ _ _ _ Hp Hs) as (_ & _ & _ & ? & _).
  - by rewrite Hids.
  - intros x Hx. apply (Hac x). eapply (tc_congruence id); [|exact Hx]. intros a b (s' & Hs' & <- & Hb).
    destruct (Hf s' Hs') as (s & Hs & Eid & Edep & _). exists s. unfold id. by rewrite Eid, <- Edep.
  - intros s' (s & Hs & _ & _ & -> & _)%Hf. destruct (planned_defaults _ _ _ _ _ Hp Hs) as (-> & _). done.
  - intros s' (s & Hs & _ & _ & _ & _ & _ & _ & [->| ->])%Hf; [|done]. by destruct (planned_defaults _ _ _ _ _ Hp Hs) as (_ & _ & _ & _ & ->).
  - intros s' (s & Hs & _ & _ & _ & -> & _)%Hf. auto.
Qed.

(** A plan of several steps takes the route of the graph. *)
Lemma planned_route s s' id rt :
  Registry.RequirePlanReview reg = false → (2 <= length planner_steps)%nat →
  SubmitWithSessionIR env reg sub [i] s = (s', Ok (id, rt)) →
  rt = RouteGraph ∧ graphs (ss_engine s') !! id = Some (task_graph env reg sub (final_inputs env reg sub [i])).
Proof.
  intros Hrev Hlen [(e & ? & _)|(s1 & rt' & _ & Hr & [= -> ->] & _)]%submit_cases; [done|].
  destruct final_planned as [Hids _]. apply (f_equal length) in Hids. rewrite !length_fmap in Hids.
  assert (is_lone (final_inputs env reg sub [i]) = None) as Hl.
  { unfold is_lone. destruct (final_inputs _ _ _ _) as [|? [|? ?]]; cbn [length] in Hids; [lia..|done]. }
  unfold route in Hr. rewrite Hl in Hr. unfold route_graph in Hr. cbv zeta in Hr. rewrite Hrev in Hr. injection Hr as <- <-.
  split; [done|]. rewrite <- (lookup_insert_eq (graphs (ss_engine s1)) (su_taskID env)). f_equal.
  exact (proj1 (register_fields _ _ _ _ _)).
Qed.
End planned.

(** C4: From one request to a completed task.  A request of one step, planned by
    the engine into several steps without exit criteria, is registered as a
    running graph of those steps; the loop with the step execution, whose
    agents answer acceptably, executes them all and finalises the task as
    completed, whatever the orders of iteration. *)
Theorem planned_task_completes env reg sub i s s' id rt eenv r order sched Pow now holds :
  expandSkillsIfNecessary (su_files env) reg (su_skill env) [i] (Submission.roles sub) (Submission.skills sub) = [i] →
  StepInput.DependsOn i = [] → plannerFirstEnabled reg = true → Registry.RequirePlanReview reg = false →
  (2 <= length (planner_steps env reg i))%nat → (∀ p, p ∈ planner_steps env reg i → StepInput.ExitCriteria p = "") →
  StepInput.MaxAutoRefine i <= int64_max →
  SubmitWithSessionIR env reg sub [i] s = (s', Ok (id, rt)) →
  accepting eenv r → (∀ g, range_order (TaskGraph.Steps g) (order g)) → (∀ l, sched l ≡ₚ l) →
  ∃ g gs, graphs (ss_engine s') !! id = Some g ∧
    (∀ p, p ∈ planner_steps env reg i → is_Some (TaskGraph.Steps g !! StepInput.ID p)) ∧
    run_loop order sched (exec_step eenv) (S (size (pending_steps g))) (mkGate g ∅ []) = Some (gs, RunFinalize) ∧
    (∀ k st, get_step (gs_graph gs) k = Some st → dep_done (Step.Status st) = true) ∧
    TaskGraph.Status (gs_graph (finalize Pow (order (gs_graph gs)) now holds gs)) ∈ [GraphCompleted; GraphCompletedWithSkips].
Proof.
  intros Hex Hlone Hplan Hrev Hlen Hcrit Hmax Hsub Ha Ho Hsc.
  assert (planner_steps env reg i ≠ []) as Hne by (intros E; rewrite E in Hlen; cbn in Hlen; lia).
  destruct (planned_route env reg sub i Hex Hlone Hplan Hne s s' id rt Hrev Hlen Hsub) as [-> Hg].
  pose proof (planned_well env reg sub i Hex Hlone Hplan Hne Hcrit Hmax) as Hw.
  destruct (task_graph_healthy env reg sub _ Hrev Hw) as (rank & Hh & Hx).
  pose proof (exec_step_executor eenv r Ha).
  destruct (run_loop_done order sched (exec_step eenv) executable_task rank Pow now holds
    (mkGate (task_graph env reg sub (final_inputs env reg sub [i])) ∅ []) Ho Hsc Hh Hx) as (gs & H1 & H2 & H3).
  exists (task_graph env reg sub (final_inputs env reg sub [i])), gs. split; [exact Hg|]. split; [|by split_and!].
  intros p Hp. rewrite Steps_task_graph. destruct (final_planned env reg sub i Hex Hlone Hplan Hne) as [Hids _].
  assert (StepInput.ID p ∈ StepInput.ID <$> final_inputs env reg sub [i]) as (q & -> & Hq)%list_elem_of_fmap
    by (rewrite Hids; by apply list_elem_of_fmap_2).
  eexists. by apply (steps_from_ids env 0 ∅ _ q); [apply wp_ids|apply wp_nodup|].
Qed.

(** Planning loses who submitted: the graph of a planned request is recorded as
    submitted by somebody without admin rights, in the default project, whatever
    the caller said. *)
Theorem planned_task_forgets_caller env reg sub i s s' id rt :
  expandSkillsIfNecessary (su_files env) reg (su_skill env) [i] (Submission.roles sub) (Submission.skills sub) = [i] →
  StepInput.DependsOn i = [] → plannerFirstEnabled reg = true → Registry.RequirePlanReview reg = false →
  (2 <= length (planner_steps env reg i))%nat →
  SubmitWithSessionIR env reg sub [i] s = (s', Ok (id, rt)) →
  ∃ g, graphs (ss_engine s') !! id = Some g ∧ TaskGraph.SubmitterIsAdmin g = false ∧ TaskGraph.ProjectID g = "default".
Proof.
  intros Hex Hlone Hplan Hrev Hlen Hsub.
  assert (planner_steps env reg i ≠ []) as Hne by (intros E; rewrite E in Hlen; cbn in Hlen; lia).
  destruct (planned_route env reg sub i Hex Hlone Hplan Hne s s' id rt Hrev Hlen Hsub) as [-> Hg].
  eexists. split; [exact Hg|]. destruct (final_planned env reg sub i Hex Hlone Hplan Hne) as [_ Hf].
  destruct (planner_parsed env reg i Hne) as (opt & raw & Hp).
  assert (∀ q, q ∈ final_inputs env reg sub [i] → StepInput.SubmitterIsAdmin q = false ∧ StepInput.ProjectID q = "") as Hq.
  { intros q (p & Hpin & _ & _ & _ & _ & -> & -> & _)%Hf. by destruct (planned_defaults _ _ _ _ _ Hp Hpin) as (_ & ? & ? & _). }
  rewrite Admin_task_graph, Project_task_graph. unfold anySubmitterIsAdmin, resolveProjectID.
  set (l := final_inputs env reg sub [i]) in *. clear Hf Hg Hsub. clearbody l. induction l as [|q l IH]; [done|].
  cbn [existsb List.find]. destruct (Hq q ltac:(left)) as [-> ->]. apply IH. intros ? ?. apply Hq. by right.
Qed.

(** ** The job of the smart route: properties *)

Section job_properties.
Context (env : JobEnv) (stepID : string) (i : StepInput.t).

(** [job_at s0 n ctx s]: the job that starts in [s0] asks the agent for attempt [n]
    with the context [ctx] in state [s]; every attempt before it was audited on its
    own output, failed, and left a refinement. *)
Inductive job_at (s0 : GateState) : nat → string → GateState → Prop :=
| job_first : job_at s0 0 "" s0
| job_again n ctx s r step v checked :
    job_at s0 n ctx s → jb_spawn env n ctx = Some (inr r) → get_step (gs_graph s) stepID = Some step →
    audited step r = true → Step.AutoRefineCount step < Step.MaxAutoRefine step →
    verifyExitCriteria (jb_verify env) (gs_graph s) step (SubagentOutput.Result (SpawnResult.Output r)) = (v, checked) →
    passes v = false →
    job_at s0 (S n) (composeRecoveryPrompt ctx v.1.2 (jb_guidance env (Step.Task step) v.1.2))
      (on_step stepID (refining env v.1.2 v.2)
         (on_step stepID (λ st, st <| Step.DynamicRubrics := Step.DynamicRubrics checked |>) s)).
(** The reply [r] of an attempt the job made for the step [st]; if it is subject to
    the audit, its own output passed the exit criteria of [st] then and there. *)
Definition accepts (s0 : GateState) (st : Step.t) (r : SpawnResult.t) : Prop :=
  ∃ n ctx s step, job_at s0 n ctx s ∧ jb_spawn env n ctx = Some (inr r) ∧
    get_step (gs_graph s) stepID = Some step ∧ exec_profile step = exec_profile st ∧
    (audited step r = true →
     passes (verifyExitCriteria (jb_verify env) (gs_graph s) step (SubagentOutput.Result (SpawnResult.Output r))).1 = true).
(** The job keeps the step's profile and stops with a reply it accepts, or with
    the step failed by the audit. *)
Definition loop_end (s0 : GateState) (st : Step.t) (s' : GateState) (reply : option (string + SpawnResult.t)) : Prop :=
  ∃ st', get_step (gs_graph s') stepID = Some st' ∧
    ((Step.Status st' = Step.Status st ∧ ∀ r, reply = Some (inr r) → accepts s0 st r) ∨
     (Step.Status st' = StepFailed ∧ TaskGraph.Status (gs_graph s') = GraphFailed)).
Lemma loop_end_profile s0 st st' s' reply :
  exec_profile st' = exec_profile st → Step.Status st' = Step.Status st → loop_end s0 st' s' reply → loop_end s0 st s' reply.
Proof.
  intros Hp Hs (x & Hx & H). exists x. split; [done|]. destruct H as [[H1 H2]|H]; [left|by right]. split; [congruence|].
  intros r (n & ctx & s & step & Hr)%H2. exists n, ctx, s, step. by rewrite <- Hp.
Qed.

Lemma smart_loop_ends s0 fuel n ctx s st :
  job_at s0 n ctx s →
  get_step (gs_graph s) stepID = Some st → 0 <= Step.AutoRefineCount st → Step.MaxAutoRefine st <= int64_max →
  (Z.to_nat (Step.MaxAutoRefine st - Step.AutoRefineCount st) < fuel)%nat →
  ∃ s' reply, smart_loop env stepID fuel n ctx s = Some (s', reply) ∧ loop_end s0 st s' reply.
Proof.
  revert n ctx s st. induction fuel as [|fuel IH]; intros n ctx s st Hat Hs Ha Hm Hf; [lia|]. cbn [smart_loop]. cbv zeta. rewrite Hs.
  destruct (jb_spawn env n ctx) as [[err|r]|] eqn:Esp.
  1, 3: (eexists _, _; split; [done|]; exists st; split; [exact Hs|]; left; split; done).
  destruct (audited st r) eqn:Eaud.
  2: { eexists _, _. split; [done|]. exists st. split; [exact Hs|]. left. split; [done|]. intros r' [= <-].
       exists n, ctx, s, st. split_and!; try done. congruence. }
  destruct (verifyExitCriteria _ _ _ _) as [v step'] eqn:Ev.
  set (st1 := st <| Step.DynamicRubrics := Step.DynamicRubrics step' |>). set (s1 := on_step stepID _ s).
  assert (get_step (gs_graph s1) stepID = Some st1) as Hs1 by exact (on_step_here stepID _ s st Hs).
  destruct (passes v) eqn:Epass.
  { eexists _, _. split; [done|]. exists st1. split; [exact Hs1|]. left. split; [done|]. intros r' [= <-].
    exists n, ctx, s, st. split_and!; try done. intros _. by rewrite Ev. }
  destruct (Z.ltb_spec (Step.AutoRefineCount st) (Step.MaxAutoRefine st)) as [Hlt|Hge].
  - set (s2 := on_step stepID (refining env v.1.2 v.2) s1).
    assert (get_step (gs_graph s2) stepID = Some (refining env v.1.2 v.2 st1)) as Hs2 by exact (on_step_here stepID _ s1 st1 Hs1).
    assert (Step.AutoRefineCount (refining env v.1.2 v.2 st1) = Step.AutoRefineCount st + 1) as Hc.
    { change (wrap64 (Step.AutoRefineCount st + 1) = Step.AutoRefineCount st + 1). apply wrap64_id.
      unfold in_int64, int64_max, int64_min in *. lia. }
    destruct (IH (S n) (composeRecoveryPrompt ctx v.1.2 (jb_guidance env (Step.Task st) v.1.2)) s2 _
      ltac:(by eapply job_again) Hs2)
      as (s' & reply & H1 & H2); [rewrite Hc; lia|done|rewrite Hc; change (Step.MaxAutoRefine (refining env v.1.2 v.2 st1)) with (Step.MaxAutoRefine st); lia|].
    exists s', reply. split; [exact H1|]. by apply (loop_end_profile s0 st (refining env v.1.2 v.2 st1)).
  - eexists _, _. split; [done|]. eexists. split; [exact (on_step_here stepID _ s1 st1 Hs1)|]. by right.
Qed.

(** How a job ends: handed to the host, done, or not done. *)
Definition handed_over (s' : GateState) (st' : Step.t) : Prop := Step.Status st' = StepBlocked.
Definition job_done (s' : GateState) (st' : Step.t) : Prop :=
  Step.Status st' = StepOK ∧ TaskGraph.Status (gs_graph s') = GraphCompleted.
Definition job_undone (s' : GateState) (st' : Step.t) : Prop :=
  Step.Status st' ∈ [StepFailed; StepPartial] ∧ TaskGraph.Status (gs_graph s') = GraphFailed.

Lemma settle_reply_cases reply s st :
  get_step (gs_graph s) stepID = Some st →
  Step.Status st ≠ StepFailed ∨ Step.Status st = StepFailed ∧ TaskGraph.Status (gs_graph s) = GraphFailed →
  ∃ st', get_step (gs_graph (settle_reply env stepID reply s).1) stepID = Some st' ∧
    (((settle_reply env stepID reply s).2 = true ∧ handed_over (settle_reply env stepID reply s).1 st' ∧ ∃ r, reply = Some (inr r)) ∨
     ((settle_reply env stepID reply s).2 = false ∧
      (job_undone (settle_reply env stepID reply s).1 st' ∨
       job_done (settle_reply env stepID reply s).1 st' ∧ Step.Status st ≠ StepFailed ∧
         ∃ r, reply = Some (inr r) ∧ routed_status (SpawnResult.Output r) = StatusOK ∧ Step.ResultRef st' = SpawnResult.Ref r))).
Proof.
  intros Hs Hst.
  assert (∀ s0 st0 f, get_step (gs_graph s0) stepID = Some st0 →
    get_step (gs_graph (fail_task stepID f s0)) stepID = Some (f st0 <| Step.Status := StepFailed |>)) as Hfail.
  { intros s0 st0 f H0. exact (on_step_here stepID (λ st, f st <| Step.Status := StepFailed |>) s0 st0 H0). }
  assert (StepFailed ∈ [StepFailed; StepPartial] ∧ StepPartial ∈ [StepFailed; StepPartial]) as [HF HP].
  { split; [left|right; left]. }
  destruct reply as [[err|r]|]; unfold settle_reply; cbv zeta.
  - eexists. split; [by apply Hfail|]. right. split; [done|]. by left.
  - set (s1 := on_step stepID _ s).
    pose proof (on_step_here stepID (λ st, st <| Step.Confidence := Some (SubagentOutput.Confidence (SpawnResult.Output r)) |>) s st Hs) as Hs1.
    change (get_step (gs_graph s1) stepID = Some (st <| Step.Confidence := Some (SubagentOutput.Confidence (SpawnResult.Output r)) |>)) in Hs1.
    set (st1 := st <| Step.Confidence := _ |>) in *.
    destruct (routed_status _) eqn:Er.
    3, 4, 6, 7: (cbn [fst snd]; eexists; split; [apply (Hfail s1 st1 _ Hs1)|]; right; split; [reflexivity|]; left; split; [exact HF|reflexivity]).
    + set (s2 := on_step stepID (keep_result r) s1).
      pose proof (on_step_here stepID (keep_result r) s1 st1 Hs1) as Hs2. fold s2 in Hs2. rewrite Hs2.
      case_bool_decide as Hf.
      * exists (keep_result r st1). split; [exact Hs2|]. right. split; [done|]. left. destruct Hst as [Hst|[_ Hst]]; [done|].
        split; [change (Step.Status st ∈ [StepFailed; StepPartial]); change (Step.Status st = StepFailed) in Hf; by rewrite Hf|exact Hst].
      * cbn [fst snd]. set (s3 := set_graph_status GraphCompleted (set_step_status stepID StepOK s2)).
        pose proof (keeps_deposit stepID (SubagentOutput.Result (SpawnResult.Output r)) (gs_graph s3)) as Hk.
        pose proof (keeps_get_step _ _ stepID Hk) as Hk1. pose proof (keeps_Status _ _ Hk) as Hk2.
        assert (get_step (gs_graph s3) stepID = Some (keep_result r st1 <| Step.Status := StepOK |>)) as Hs3
          by exact (set_status_here stepID StepOK s2 (keep_result r st1) Hs2).
        eexists. split; [exact (eq_trans Hk1 Hs3)|].
        right. split; [done|]. right. split; [|split; [exact Hf|by exists r]]. split; [done|exact Hk2].
    + eexists. split; [exact (on_step_here stepID (λ st, keep_result r st <| Step.Status := StepPartial |>) s1 st1 Hs1)|].
      right. split; [done|]. left. by split.
    + eexists. split; [exact (set_status_here stepID StepBlocked s1 st1 Hs1)|]. left. split; [done|]. split; [done|]. by exists r.
  - eexists. split; [by apply Hfail|]. right. split; [done|]. by left.
Qed.

Lemma hand_over_step r s st :
  get_step (gs_graph s) stepID = Some st →
  get_step (gs_graph (hand_over env stepID r s)) stepID = Some st ∧
  OStartExecutor (TaskGraph.TaskID (gs_graph s)) ∈ gs_out (hand_over env stepID r s).
Proof.
  intros Hs. unfold hand_over. cbv zeta. rewrite Hs.
  match goal with |- context [addDecision ?a ?b ?c stepID ?d ?e ?f s] => pose proof (addDecision_cases a b c stepID st d e f s Hs) as H;
    set (s1 := addDecision a b c stepID d e f s) in * end.
  assert (TaskGraph.Steps (gs_graph s1) = TaskGraph.Steps (gs_graph s) ∧ TaskGraph.TaskID (gs_graph s1) = TaskGraph.TaskID (gs_graph s)) as [H1 H2].
  { destruct H as [(_ & -> & _)|(_ & dec & _ & _ & _ & _ & -> & _)]; done. }
  split; [unfold get_step in *; change (TaskGraph.Steps (gs_graph s1) !! stepID = Some st); by rewrite H1|].
  cbn [emit gs_out]. rewrite <- H2. apply elem_of_app. right. left.
Qed.
End job_properties.

(** The result a completed job keeps for the step [st]: the reply of the attempt the
    job ended with, whose own output passed the exit criteria of [st] if it has any,
    or the document of the fast path. *)
Definition settled_with (env : JobEnv) (stepID : string) (i : StepInput.t) (s : GateState) (st : Step.t) (r : SpawnResult.t) : Prop :=
  isDeterministicContract i = true ∧ tryFastPath (jb_verify env) (jb_outputBase env) i = Some r ∨
  ∃ n ctx sn step, job_at env stepID s n ctx sn ∧ jb_spawn env n ctx = Some (inr r) ∧
    get_step (gs_graph sn) stepID = Some step ∧ exec_profile step = exec_profile st ∧
    (Step.ExitCriteria st = "" ∨
     passes (verifyExitCriteria (jb_verify env) (gs_graph sn) step (SubagentOutput.Result (SpawnResult.Output r))).1 = true).
Lemma accepts_settled env stepID i s st r :
  routed_status (SpawnResult.Output r) = StatusOK → accepts env stepID s st r → settled_with env stepID i s st r.
Proof.
  intros Hr (n & ctx & sn & step & H1 & H2 & H3 & Hp & Hv). right. exists n, ctx, sn, step. split_and!; try done.
  destruct (profile_fields _ _ Hp) as (_ & _ & _ & Hec & _). rewrite <- Hec.
  destruct (String.eqb_spec (Step.ExitCriteria step) "") as [E|E]; [by left|]. right. apply Hv.
  unfold audited. rewrite (proj2 (String.eqb_neq _ _) E). cbn [negb andb]. apply bool_decide_true.
  unfold routed_status in Hr. case_bool_decide as Hq; [rewrite Hq; right; left|]. cbn [andb] in Hr. rewrite Hr. left.
Qed.

(** C11: The job of a lone step always ends, and says what happened.  Either the task
    is completed with the step OK, and the result the step keeps is the reply of the
    very attempt the job stopped at, whose own output passed the step's exit criteria
    (if it has any) in the state the attempts before it led to, or is the document of
    the fast path; or the task is failed with the step failed or partial; or the step
    is handed to the host and the executor is started to wait for the answer. *)
Theorem smart_task_settles env stepID i s st :
  get_step (gs_graph s) stepID = Some st → Step.Status st = StepPending →
  0 <= Step.AutoRefineCount st → Step.MaxAutoRefine st <= int64_max →
  ∃ s' st', smart_job env stepID i s = Some s' ∧ get_step (gs_graph s') stepID = Some st' ∧
    (job_done s' st' ∧ (∃ r, routed_status (SpawnResult.Output r) = StatusOK ∧ Step.ResultRef st' = SpawnResult.Ref r ∧
       settled_with env stepID i s st r) ∨
     job_undone s' st' ∨
     handed_over s' st' ∧ ∃ t, OStartExecutor t ∈ gs_out s').
Proof.
  intros Hs Hp Ha Hm. unfold smart_job.
  set (P := λ r, accepts env stepID s st r ∨ isDeterministicContract i = true ∧ tryFastPath (jb_verify env) (jb_outputBase env) i = Some r).
  assert (∃ s1 reply st1, (if isDeterministicContract i
         then match tryFastPath (jb_verify env) (jb_outputBase env) i with
              | Some r => Some (s, Some (inr r))
              | None => smart_loop env stepID (job_fuel stepID s) 0 "" s
              end
         else smart_loop env stepID (job_fuel stepID s) 0 "" s) = Some (s1, reply) ∧ get_step (gs_graph s1) stepID = Some st1 ∧
    (Step.Status st1 ≠ StepFailed ∨ Step.Status st1 = StepFailed ∧ TaskGraph.Status (gs_graph s1) = GraphFailed) ∧
    (Step.Status st1 ≠ StepFailed → ∀ r, reply = Some (inr r) → P r)) as (s1 & reply & st1 & -> & Hs1 & Hst & HP).
  { assert (∃ s1 reply st1, smart_loop env stepID (job_fuel stepID s) 0 "" s = Some (s1, reply) ∧ get_step (gs_graph s1) stepID = Some st1 ∧
      (Step.Status st1 ≠ StepFailed ∨ Step.Status st1 = StepFailed ∧ TaskGraph.Status (gs_graph s1) = GraphFailed) ∧
      (Step.Status st1 ≠ StepFailed → ∀ r, reply = Some (inr r) → P r)) as Hloop.
    { destruct (smart_loop_ends env stepID s (job_fuel stepID s) 0 "" s st ltac:(constructor) Hs Ha Hm) as (s1 & reply & H1 & st1 & H2 & H3).
      { unfold job_fuel. rewrite Hs. lia. }
      exists s1, reply, st1. split; [done|]. split; [done|]. destruct H3 as [[H3 H4]|H3].
      - rewrite H3, Hp. split; [by left|]. intros _ r Hr. left. by apply H4.
      - split; [by right|]. by destruct H3 as [-> _]. }
    destruct (isDeterministicContract i) eqn:Ed; [|done]. destruct (tryFastPath _ _ _) as [r|] eqn:Ef; [|done].
    exists s, (Some (inr r)), st. split; [done|]. split; [done|]. rewrite Hp. split; [by left|]. intros _ r' [= <-]. right. by split. }
  pose proof (settle_reply_cases env stepID reply s1 st1 Hs1 Hst) as (st' & Hs' & H).
  destruct (settle_reply env stepID reply s1) as [s2 h] eqn:E2. cbn [fst snd] in *.
  destruct H as [(-> & Hb & r & ->)|(-> & H)].
  - destruct (hand_over_step env stepID r s2 st' Hs') as [Hs3 Ho]. eexists _, st'. split; [done|]. split; [exact Hs3|].
    right. right. split; [exact Hb|]. eexists. exact Ho.
  - exists (announce s2), st'. split; [by destruct reply as [[?|?]|]|]. split; [exact Hs'|].
    destruct H as [H|(H & Hf & r & Hr & Hro & Href)]; [right; by left|]. left. split; [exact H|]. exists r. split_and!; [done|done|].
    destruct (HP Hf r Hr) as [Hacc|Hfast]; [by apply accepts_settled|by left].
Qed.

(** ** Concrete runs *)

Definition ex_sub_env : SubmitEnv :=
  mkSubmitEnv 7 "/srv" "t1" "tr" (λ n, ("step_" +:+ pretty n)%string) "d1" "draft_1" (keys (Registry.Roles agent_registry)) []
    (λ m, keys m) (mkFiles (λ _, true) (λ _, None) (λ _, None)) (λ _, None) second_try (λ t r c, (t +:+ r +:+ c)%string) ""
    None (λ _, ANil) (λ _, ANil) (λ _, ANil) (λ _, "").
Definition ex_submission : Submission.t := Submission.mk [] [] [] "" "" "" 0 900 "".
Definition ex_submit_state : SubmitState :=
  mkSubmitState (mkEngine ∅ ∅ ∅ []) None (Some NewDraftStore) [].
(** An admin of a project asks for something the planner can split. *)
Definition ex_request : StepInput.t :=
  zeroInput <| StepInput.RoleID := "agent" |> <| StepInput.Task := "tell me the time" |>
    <| StepInput.SubmitterIsAdmin := true |> <| StepInput.ProjectID := "acme" |>.
Definition ex_submitted : SubmitState * result AdmissionError (string * Route) :=
  SubmitWithSessionIR ex_sub_env agent_registry ex_submission [ex_request] ex_submit_state.
Definition ex_task : option TaskGraph.t := graphs (ex_submitted.1).(ss_engine) !! "t1".

Lemma ex_submits : SubmitWithSessionIR ex_sub_env agent_registry ex_submission [ex_request] ex_submit_state
  = (ex_submitted.1, Ok ("t1", RouteGraph)).
Proof. vm_compute. reflexivity. Qed.
Lemma submission_effect_witness :
  ss_drafts ex_submitted.1 = Some NewDraftStore ∧
  graphs (ss_engine ex_submitted.1) = <["t1" := routed_graph ex_sub_env agent_registry ex_submission RouteGraph
    (final_inputs ex_sub_env agent_registry ex_submission [ex_request])]> ∅.
Proof.
  destruct (submission_effect ex_sub_env agent_registry ex_submission [ex_request] ex_submit_state ex_submitted.1
    (Ok ("t1", RouteGraph)) ex_submits) as (H1 & _ & H2 & _). split; [exact H1|exact H2].
Defined.
Lemma planned_task_completes_witness :
  ∃ g gs, graphs (ss_engine ex_submitted.1) !! "t1" = Some g ∧
    run_loop step_keys id (exec_step ex_plain_env) (S (size (pending_steps g))) (mkGate g ∅ []) = Some (gs, RunFinalize) ∧
    TaskGraph.Status (gs_graph (finalize (λ x _, x) (step_keys (gs_graph gs)) 9 true gs)) ∈
      [GraphCompleted; GraphCompletedWithSkips].
Proof.
  destruct (planned_task_completes ex_sub_env agent_registry ex_submission ex_request ex_submit_state ex_submitted.1 "t1" RouteGraph
    ex_plain_env (ex_output StatusOK []) step_keys id (λ x _, x) 9 true) as (g & gs & H1 & _ & H2 & _ & H3).
  - reflexivity.
  - reflexivity.
  - reflexivity.
  - reflexivity.
  - apply Nat.leb_le. vm_compute. reflexivity.
  - apply Forall_forall, (bool_decide_unpack (Forall _ _)). vm_compute. exact I.
  - vm_compute. discriminate.
  - exact ex_submits.
  - split; try reflexivity. intros g. apply keys_range_order.
  - intros g. apply keys_range_order.
  - reflexivity.
  - exists g, gs. split_and!; assumption.
Defined.
Lemma planned_task_forgets_caller_witness :
  ∃ g, graphs (ss_engine ex_submitted.1) !! "t1" = Some g ∧ TaskGraph.SubmitterIsAdmin g = false ∧ TaskGraph.ProjectID g = "default".
Proof.
  apply (planned_task_forgets_caller ex_sub_env agent_registry ex_submission ex_request ex_submit_state ex_submitted.1 "t1" RouteGraph).
  - reflexivity.
  - reflexivity.
  - reflexivity.
  - reflexivity.
  - apply Nat.leb_le. vm_compute. reflexivity.
  - exact ex_submits.
Defined.

(** The budget the caller gave is replaced by the default one. *)
Example caller_budget_dropped : TaskGraph.TokenBudget <$> ex_task = Some 0.
Proof. vm_compute. reflexivity. Qed.
(** Two inputs with one id make one step, the later. *)
Example same_id_replaces :
  let a := zeroInput <| StepInput.ID := "a" |> in
  Step.Task <$> (map_to_list (task_steps ex_sub_env [a <| StepInput.Task := "one" |>; a <| StepInput.Task := "two" |>])).*2 = ["two"].
Proof. vm_compute. reflexivity. Qed.
(** The draft a failed submission would keep. *)
Example drafts_evict :
  let s := Save (λ m, keys m) 5 (TaskDraft.mk "b" [] 5 "" (-1))
             (DraftStore.mk {[ "a" := TaskDraft.mk "a" [] 1 "" (-1) ]} 1 100) in
  keys (DraftStore.drafts s) = ["b"].
Proof. vm_compute. reflexivity. Qed.

Definition ex_job_env (spawn : nat → string → option (string + SpawnResult.t)) : JobEnv :=
  mkJobEnv (ex_verify_env (Err "down")) "/out" None 9 "d" spawn (λ _ _, "") (λ s, s).
Definition ex_lone (st : Step.t) : GateState := mkGate (blankGraph "t" [st]) ∅ [].
Definition job_outcome (r : option GateState) : option (option StepStatus * GraphStatus) :=
  (λ s, (Step.Status <$> get_step (gs_graph s) "a", TaskGraph.Status (gs_graph s))) <$> r.
(** A step whose output must match "done" and may be refined once: the first reply
    does not, the second, asked for with what was wrong, does. *)
Definition ex_matched : Step.t :=
  (blankStep "a" StepPending []) <| Step.ExitCriteria := "regex:done" |> <| Step.MaxAutoRefine := 1 |>.
Definition ex_matched_env : JobEnv :=
  ex_job_env (λ n _, Some (inr (if (n =? 0)%nat then ex_unsure else ex_output StatusOK []))).
Lemma smart_task_settles_witness :
  ∃ s' st', smart_job ex_matched_env "a" zeroInput (ex_lone ex_matched) = Some s' ∧
    get_step (gs_graph s') "a" = Some st' ∧ job_done s' st' ∧
    ∃ r, Step.ResultRef st' = SpawnResult.Ref r ∧ settled_with ex_matched_env "a" zeroInput (ex_lone ex_matched) ex_matched r.
Proof.
  assert (∃ s0, smart_job ex_matched_env "a" zeroInput (ex_lone ex_matched) = Some s0 ∧
    TaskGraph.Status (gs_graph s0) = GraphCompleted ∧ Step.Status <$> get_step (gs_graph s0) "a" = Some StepOK) as (s0 & H0 & HG & HS).
  { eexists. split; [vm_compute; reflexivity|]. split; vm_compute; reflexivity. }
  destruct (smart_task_settles ex_matched_env "a" zeroInput (ex_lone ex_matched) ex_matched) as (s' & st' & H1 & H2 & H).
  - vm_compute. reflexivity.
  - reflexivity.
  - vm_compute. discriminate.
  - vm_compute. discriminate.
  - exists s', st'. rewrite H0 in H1. injection H1 as <-. rewrite H2 in HS. injection HS as HS.
    destruct H as [(Hd & r & _ & Href & Hset)|[[_ Hu]|[Hh _]]].
    + split; [exact H0|]. split; [exact H2|]. split; [exact Hd|]. exists r. by split.
    + rewrite HG in Hu. discriminate.
    + unfold handed_over in Hh. rewrite HS in Hh. discriminate.
Defined.
(** A partial result that fails the audit for good leaves the step partial, not
    failed: the later routing overwrites what the audit wrote. *)
Definition ex_criteria : Step.t := (blankStep "a" StepPending []) <| Step.ExitCriteria := "done" |> <| Step.VerifierModel := "m" |>.
Example partial_overwrites_audit :
  job_outcome (smart_job (ex_job_env (λ _ _, Some (inr (ex_output StatusPartial [])))) "a" zeroInput (ex_lone ex_criteria))
  = Some (Some StepPartial, GraphFailed).
Proof. vm_compute. reflexivity. Qed.
(** A task cancelled while its job runs ends completed. *)
Example job_overwrites_cancel :
  job_outcome (smart_job (ex_job_env (λ _ _, Some (inr (ex_output StatusOK [])))) "a" zeroInput
    (set_graph_status GraphCancelled (ex_lone (blankStep "a" StepPending [])))) = Some (Some StepOK, GraphCompleted).
Proof. vm_compute. reflexivity. Qed.
(** The artifact is read at the contract's path, from the process's directory,
    and only its size is taken in the output directory: a file that is not there
    and another that is make a hit. *)
Definition ex_split_files : VerifyEnv :=
  mkVerifyEnv (λ p, if String.eqb p "report.json" then Ok "{}" else Err "not read")
    (λ p, if String.eqb p "/out/report.json" then Some 0 else None) (λ _ p, p) (λ _, Ok {["total" := AInt 1]}) (λ _, true)
    (λ p, None) (λ _, None) (λ _, []) "" "" (λ _, "") (λ _, "") (λ _ _ _ _, Err "").
Definition ex_hit (path : string) : bool :=
  match ExecuteFastPath ex_split_files "/out" (zeroContract <| Artifact.Path := path |> <| Artifact.RequiredFields := ["total"] |>) with
  | Some _ => true | None => false
  end.
Example fast_path_reads_elsewhere : ex_hit "report.json" = true.
Proof. vm_compute. reflexivity. Qed.
Example fast_path_contained : ex_hit "../report.json" = false.
Proof. vm_compute. reflexivity. Qed.
Example recovery_keeps_reason : contains "REJECTION REASON: no total" (composeRecoveryPrompt "before" "no total" "") = true.
Proof. vm_compute. reflexivity. Qed.
