(* ===== verification/Network.v ===== *)
(** * Addresses that must not be reached (config/mount_policy.go)

    [isInternalHost] decides whether the host of a server's URL is the machine
    itself or its network.  [net.ParseIP] is written out: the dotted form, the
    groups of hexadecimal digits with at most one ellipsis, an embedded dotted
    tail, no zone.  An address is sixteen bytes; a dotted one is mapped behind ten
    zeros and two bytes 255. *)
From Stdlib Require Import Ascii.
From S2P Require Import Prelude.
Local Open Scope Z_scope.

(** ** Reading an address *)

(** A field of a dotted address: decimal, at most 255, no leading zero. *)
Definition octet (s : string) : option Z :=
  match s with
  | EmptyString => None
  | String a rest =>
      if (byteZ a =? 48) && negb (String.eqb rest "") then None
      else v ← digits 0 s; if v <=? 255 then Some v else None
  end.
Definition parseIPv4Fields (s : string) : option (list Z) :=
  match split_on "." s with
  | [a; b; c; d] => a ← octet a; b ← octet b; c ← octet c; d ← octet d; Some [a; b; c; d]
  | _ => None
  end.
Definition mapped (v4 : list Z) : list Z := repeat 0 10 ++ [255; 255] ++ v4.

Definition hex_value (a : ascii) : option Z :=
  let n := byteZ a in
  if in_range 48 57 n then Some (n - 48)
  else if in_range 97 102 n then Some (n - 87)
  else if in_range 65 70 n then Some (n - 55)
  else None.
(** The digits at the head: how many, their value, the rest. *)
Fixpoint hex_digits (s : string) : nat * Z * string :=
  match s with
  | EmptyString => (0%nat, 0, "")
  | String a s' =>
      match hex_value a with
      | Some v => let '(n, w, rest) := hex_digits s' in (S n, v * 16 ^ Z.of_nat n + w, rest)
      | None => (0%nat, 0, s)
      end
  end.
(** The loop of [parseIPv6]: the bytes so far, where the ellipsis is, the text
    left.  Its result: all bytes and the ellipsis. *)
Fixpoint groups (fuel : nat) (ip : list Z) (ellipsis : option nat) (s : string) : option (list Z * option nat) :=
  match fuel with
  | O => if String.eqb s "" then Some (ip, ellipsis) else None
  | S fuel =>
      let '(n, v, rest) := hex_digits s in
      if (n =? 0)%nat || (4 <? n)%nat then None
      else match rest with
      | String "." _ =>
          if bool_decide (ellipsis = None) && negb (length ip =? 12)%nat then None
          else if (16 <? length ip + 4)%nat then None
          else v4 ← parseIPv4Fields s; Some (ip ++ v4, ellipsis)
      | EmptyString => Some (ip ++ [v / 256; v mod 256], ellipsis)
      | String ":" EmptyString => None
      | String ":" (String ":" rest) =>
          if bool_decide (ellipsis = None) then
            let ip := ip ++ [v / 256; v mod 256] in
            if String.eqb rest "" then Some (ip, Some (length ip)) else groups fuel ip (Some (length ip)) rest
          else None
      | String ":" rest => groups fuel (ip ++ [v / 256; v mod 256]) ellipsis rest
      | _ => None
      end
  end.
Definition expand (p : list Z * option nat) : option (list Z) :=
  let '(ip, ellipsis) := p in
  match ellipsis with
  | Some e => if (length ip <? 16)%nat then Some (take e ip ++ repeat 0 (16 - length ip) ++ drop e ip) else None
  | None => if (length ip =? 16)%nat then Some ip else None
  end.
Definition parseIPv6 (s : string) : option (list Z) :=
  if has_prefix "::" s then
    let rest := trim_prefix "::" s in
    if String.eqb rest "" then Some (repeat 0 16)
    else groups 8 [] (Some 0%nat) rest ≫= expand
  else groups 8 [] None s ≫= expand.
(** The first of the three marks decides the form; a zone is no address. *)
Fixpoint address_form (s : string) : option ascii :=
  match s with
  | EmptyString => None
  | String a s' => if bool_decide (a ∈ ["."; ":"; "%"]%char) then Some a else address_form s'
  end.
Definition ParseIP (s : string) : option (list Z) :=
  match address_form s with
  | Some "."%char => mapped <$> parseIPv4Fields s
  | Some ":"%char => if contains "%" s then None else parseIPv6 s
  | _ => None
  end.

(** ** What an address is *)

Definition To4 (ip : list Z) : option (list Z) :=
  if bool_decide (take 12 ip = mapped []) then Some (drop 12 ip) else None.
Definition byte_at (ip : list Z) (i : nat) : Z := nth i ip 0.
Definition IsLoopback (ip : list Z) : bool :=
  match To4 ip with Some v4 => byte_at v4 0 =? 127 | None => bool_decide (ip = repeat 0 15 ++ [1]) end.
Definition IsPrivate (ip : list Z) : bool :=
  match To4 ip with
  | Some v4 =>
      (byte_at v4 0 =? 10)
      || ((byte_at v4 0 =? 172) && (Z.land (byte_at v4 1) 240 =? 16))
      || ((byte_at v4 0 =? 192) && (byte_at v4 1 =? 168))
  | None => Z.land (byte_at ip 0) 254 =? 252
  end.
Definition IsLinkLocalUnicast (ip : list Z) : bool :=
  match To4 ip with
  | Some v4 => (byte_at v4 0 =? 169) && (byte_at v4 1 =? 254)
  | None => (byte_at ip 0 =? 254) && (Z.land (byte_at ip 1) 192 =? 128)
  end.
Definition IsLinkLocalMulticast (ip : list Z) : bool :=
  match To4 ip with
  | Some v4 => (byte_at v4 0 =? 224) && (byte_at v4 1 =? 0) && (byte_at v4 2 =? 0)
  | None => (byte_at ip 0 =? 255) && (Z.land (byte_at ip 1) 15 =? 2)
  end.
Definition IsUnspecified (ip : list Z) : bool :=
  bool_decide (ip = mapped [0; 0; 0; 0]) || bool_decide (ip = repeat 0 16).

Definition internal_ip (ip : list Z) : bool :=
  IsLoopback ip || IsPrivate ip || IsLinkLocalUnicast ip || IsLinkLocalMulticast ip || IsUnspecified ip.

(** [strings.TrimSuffix] for one byte. *)
Definition trim_suffix (s p : string) : string := srev (TrimPrefix (srev s) (srev p)).
Definition isInternalHost (host : string) : bool :=
  let h := to_lower (trim_suffix host ".") in
  let h := TrimPrefix (trim_suffix h "]") "[" in
  bool_decide (h ∈ ["localhost"; "localhost.localdomain"; "ip6-localhost"; "ip6-loopback"])
  || match ParseIP h with Some ip => internal_ip ip | None => false end.
Example host_tests :
  isInternalHost "LOCALHOST." = true ∧ isInternalHost "[::1]" = true ∧ isInternalHost "::ffff:10.0.0.5" = true ∧
  isInternalHost "fe80::1" = true ∧ isInternalHost "169.254.169.254" = true ∧ isInternalHost "172.32.0.1" = false ∧
  isInternalHost "2001:db8::1" = false ∧ isInternalHost "fd00::" = true ∧ isInternalHost "0.0.0.0" = true ∧
  ParseIP "1::2::3" = None ∧ ParseIP "1.2.3" = None ∧ ParseIP "01.2.3.4" = None ∧ ParseIP "fe80::1%eth0" = None ∧
  ParseIP "1:2:3:4:5:6:7:8" = Some [0;1;0;2;0;3;0;4;0;5;0;6;0;7;0;8] ∧ ParseIP "1:2:3:4:5:6:7:8:9" = None ∧
  ParseIP "1:2:3:4:5:6:7::" = Some [0;1;0;2;0;3;0;4;0;5;0;6;0;7;0;0] ∧ ParseIP "1:2:3:4:5:6:7:8::" = None ∧
  isInternalHost "127.1" = false ∧ isInternalHost "::127.0.0.1" = false ∧ isInternalHost "64:ff9b::a00:5" = false.
Proof. by vm_compute. Qed.

(** ** Dotted addresses *)

Definition dotted (a b c d : Z) : string := join "." (pretty <$> [a; b; c; d]).
Definition is_octet (z : Z) : Prop := 0 <= z < 256.

Lemma octet_pretty z : is_octet z → octet (pretty z) = Some z.
Proof.
  intros Hz. assert (forallb (λ z, bool_decide (octet (pretty z) = Some z)) (seqZ 0 256) = true) as H by (by vm_compute).
  rewrite forallb_forall in H. specialize (H z). rewrite bool_decide_eq_true in H. apply H.
  apply list_elem_of_In, elem_of_seqZ. unfold is_octet in Hz. lia.
Qed.
Lemma dot_free z : is_octet z → "."%char ∉ bytes (pretty z).
Proof. intros Hz. apply digit_text_not; [done|apply pretty_digits; unfold is_octet in Hz; lia]. Qed.
Lemma fields_dotted a b c d :
  Forall is_octet [a; b; c; d] → parseIPv4Fields (dotted a b c d) = Some [a; b; c; d].
Proof.
  intros H. unfold parseIPv4Fields, dotted. rewrite (split_on_join "."); [|done|].
  - rewrite !Forall_cons in H. destruct H as (Ha & Hb & Hc & Hd & _). cbn [fmap list_fmap].
    by rewrite !octet_pretty.
  - apply Forall_fmap. eapply Forall_impl; [exact H|]. apply dot_free.
Qed.

(** A text of digits and dots that starts and ends with a digit. *)
Definition plain (a : ascii) : Prop := is_digit a = true ∨ a = "."%char.
Lemma digit_bytes z : is_octet z → Forall (λ a, is_digit a = true) (bytes (pretty z)) ∧ bytes (pretty z) ≠ [].
Proof.
  intros Hz. split; [apply pretty_digits; unfold is_octet in Hz; lia|].
  intros E. pose proof (octet_pretty z Hz) as H. destruct (pretty z); [discriminate H|discriminate E].
Qed.
Lemma dotted_bytes a b c d :
  bytes (dotted a b c d) = bytes (pretty a) ++ "."%char :: bytes (pretty b) ++ "."%char :: bytes (pretty c) ++ "."%char :: bytes (pretty d).
Proof. unfold dotted. cbn [fmap list_fmap join]. by rewrite !bytes_app. Qed.
Lemma dotted_plain a b c d : Forall is_octet [a; b; c; d] → Forall plain (bytes (dotted a b c d)).
Proof.
  rewrite !Forall_cons. intros (Ha & Hb & Hc & Hd & _). rewrite dotted_bytes.
  assert (∀ z, is_octet z → Forall plain (bytes (pretty z))) as P.
  { intros z Hz. eapply Forall_impl; [apply (digit_bytes z Hz)|]. intros x Hx. by left. }
  repeat (apply Forall_app; split; [by apply P|constructor; [by right|]]). by apply P.
Qed.
Lemma head_digit l rest a : Forall (λ a, is_digit a = true) l → l ≠ [] → head (l ++ rest) = Some a → is_digit a = true.
Proof. destruct l as [|x l]; [done|]. intros H _ [= <-]. by inversion H. Qed.
Lemma dotted_ends a b c d :
  Forall is_octet [a; b; c; d] →
  (∀ x, head (bytes (dotted a b c d)) = Some x → is_digit x = true) ∧ (∀ x, last (bytes (dotted a b c d)) = Some x → is_digit x = true).
Proof.
  rewrite !Forall_cons. intros (Ha & Hb & Hc & Hd & _). rewrite dotted_bytes. split.
  - intros x. apply head_digit; apply digit_bytes; done.
  - intros x. destruct (digit_bytes d Hd) as [P N]. rewrite !app_comm_cons, !app_assoc.
    rewrite last_app, last_cons. destruct (last (bytes (pretty d))) eqn:E.
    + intros [= <-]. apply last_Some in E as [l E]. rewrite E, Forall_app in P. destruct P as [_ P]. by inversion P.
    + apply last_None in E. contradiction.
Qed.
Lemma to_lower_plain s : Forall plain (bytes s) → to_lower s = s.
Proof.
  induction s as [|a s IH]; [done|]. change (bytes (String a s)) with (a :: bytes s). intros [Ha Hs]%Forall_cons.
  cbn [to_lower]. rewrite IH by done. f_equal. unfold lower_byte, is_digit in *. destruct Ha as [Ha| ->]; [|done].
  apply andb_true_iff in Ha as [H1 H2]. unfold byteZ in *. case_match eqn:E; [|done].
  apply andb_true_iff in E as [E1%Nat.leb_le E2%Nat.leb_le]. lia.
Qed.
Lemma trim_byte s x : head (bytes s) ≠ Some x → TrimPrefix s (String x "") = s.
Proof.
  intros H. unfold TrimPrefix, has_prefix. destruct s as [|a s]; [done|]. cbn [String.prefix].
  destruct (ascii_dec x a) as [->|_]; [by destruct H|done].
Qed.
Lemma trim_last_byte s x : last (bytes s) ≠ Some x → trim_suffix s (String x "") = s.
Proof.
  intros H. unfold trim_suffix. change (srev (String x "")) with (String x ""). rewrite trim_byte.
  - apply bytes_inj. by rewrite !bytes_srev, reverse_involutive.
  - by rewrite bytes_srev, head_reverse.
Qed.
Lemma form_dotted s t : Forall (λ a, is_digit a = true) (bytes s) → address_form (s +:+ String "." t) = Some "."%char.
Proof.
  induction s as [|a s IH]; [done|]. change (bytes (String a s)) with (a :: bytes s). intros [Ha Hs]%Forall_cons.
  change (String a s +:+ String "." t)%string with (String a (s +:+ String "." t)). cbn [address_form].
  rewrite bool_decide_eq_false_2; [by apply IH|].
  intros H. rewrite !elem_of_cons in H. destruct H as [->|[->|[->|H]]]; [done..|]. by apply not_elem_of_nil in H.
Qed.

(** What counts as internal among the dotted addresses. *)
Definition internal_v4 (a b c d : Z) : Prop :=
  a = 127 ∨ a = 10 ∨ (a = 172 ∧ 16 <= b <= 31) ∨ (a = 192 ∧ b = 168) ∨ (a = 169 ∧ b = 254) ∨
  (a = 224 ∧ b = 0 ∧ c = 0) ∨ (a = 0 ∧ b = 0 ∧ c = 0 ∧ d = 0).
Lemma private_block b : is_octet b → Z.land b 240 = 16 ↔ 16 <= b <= 31.
Proof.
  intros Hb. assert (forallb (λ b, bool_decide (Z.land b 240 = 16 ↔ 16 <= b <= 31)) (seqZ 0 256) = true) as H by (by vm_compute).
  rewrite forallb_forall in H. specialize (H b). rewrite bool_decide_eq_true in H. apply H.
  apply list_elem_of_In, elem_of_seqZ. unfold is_octet in Hb. lia.
Qed.
Lemma internal_mapped a b c d : is_octet b → internal_ip (mapped [a; b; c; d]) = true ↔ internal_v4 a b c d.
Proof.
  intros Hb. unfold internal_ip, IsLoopback, IsPrivate, IsLinkLocalUnicast, IsLinkLocalMulticast, IsUnspecified, internal_v4.
  change (To4 (mapped [a; b; c; d])) with (Some [a; b; c; d]). unfold byte_at. cbn [nth].
  rewrite <- (private_block b Hb), !orb_true_iff, !andb_true_iff, !Z.eqb_eq, !bool_decide_eq_true.
  assert (mapped [a; b; c; d] = mapped [0; 0; 0; 0] ↔ a = 0 ∧ b = 0 ∧ c = 0 ∧ d = 0) as ->.
  { unfold mapped. split; [by intros [= -> -> -> ->]|by intros (-> & -> & -> & ->)]. }
  assert (mapped [a; b; c; d] = repeat 0 16 ↔ False) as -> by (by split). tauto.
Qed.

(** A dotted address as the host of a server is internal exactly when it is
    loopback, private, link-local or unspecified. *)
Theorem internal_exact a b c d :
  Forall is_octet [a; b; c; d] → isInternalHost (dotted a b c d) = true ↔ internal_v4 a b c d.
Proof.
  intros H. destruct (dotted_ends a b c d H) as [Hh Hl]. pose proof (dotted_plain a b c d H) as Hp.
  pose proof (fields_dotted a b c d H) as Hf. apply Forall_cons in H as [Ha H]. apply Forall_cons in H as [Hb _].
  unfold isInternalHost. cbv zeta.
  assert (∀ x, is_digit x = false → trim_suffix (dotted a b c d) (String x "") = dotted a b c d) as T.
  { intros x Hx. apply trim_last_byte. intros E. rewrite (Hl x E) in Hx. done. }
  rewrite T, to_lower_plain, T by done. rewrite trim_byte by (intros E; by apply Hh in E).
  rewrite orb_true_iff, bool_decide_eq_true.
  assert (ParseIP (dotted a b c d) = Some (mapped [a; b; c; d])) as ->.
  { unfold ParseIP. assert (address_form (dotted a b c d) = Some "."%char) as ->; [|by rewrite Hf].
    apply form_dotted, digit_bytes, Ha. }
  rewrite internal_mapped by done. split; [|by right]. intros [E|E]; [|done]. exfalso.
  assert (head (bytes (dotted a b c d)) = Some "l"%char ∨ head (bytes (dotted a b c d)) = Some "i"%char) as [X|X].
  { rewrite !elem_of_cons in E. destruct E as [->|[->|[->|[->|E]]]]; [by left| by left|by right|by right|].
    by apply not_elem_of_nil in E. }
  all: by apply Hh in X.
Qed.
