(* ===== verification/Mounts.v ===== *)
(** * What a step may use (core/validator.go, core/mount_gate.go, core/hub.go,
    core/spawner_prepare.go, config/mount_policy.go, config/registry_impl.go)

    A spawn names a role, further skills and further servers.  The hub looks up
    roles and skills -- of the session, of the registry, learnt ones -- and servers;
    the gates hold what a submitter who is no admin asks for against the mount
    policies, collect what needs a human's approval, and merge the rest.  Types
    stored as dynamic values, JSON, the host of a URL, the operating system and
    the orders of maps are the environment [HubEnv]; the hub always has a registry;
    a nil entry of a map is an absent one; logging is left out. *)
From Stdlib Require Import Ascii.
From S2P Require Import Prelude Network FailureClass Schema Output Sieve Registry Search Router Experience Submit.
Local Open Scope Z_scope.

(** ** Data *)

(** [MCPDef], the fields that other parts read being [declared];
    [PlatformOverrides] gives the command per operating system. *)
Module Server.
Record t := mk {
  ID : string; URL : string; Command : string; PlatformOverrides : gmap string string; Sandboxed : bool;
  declared : Registry.MCPDef.t }.
End Server.
Module HubSkill.
Record t := mk { declared : Registry.Skill.t; Capability : string; Requires : list string; Incompatible : list string }.
Definition ID (s : t) : string := Registry.Skill.ID (declared s).
End HubSkill.
Module SpawnRole.
Record t := mk {
  BaseCapability : string; BoundSkills : list string; BoundMCPBindings : list MCPBinding.t;
  AllowDynamicSkills : bool; MaxAdditionalSkills : Z; AllowDynamicMCPs : bool }.
End SpawnRole.
Module ContextHub.
Record t := mk {
  Graph : option TaskGraph.t; Roles : gmap string SpawnRole.t; Skills : gmap string HubSkill.t;
  MCPs : gmap string Server.t; DynamicMCPs : gmap string Server.t; Exp : option (gmap string GeneratedSkill.t);
  OnUnknownMCP : option (string → option Server.t) }.
#[global] Instance eta : Eta t := λ h, mk (Graph h) (Roles h) (Skills h) (MCPs h) (DynamicMCPs h) (Exp h) (OnUnknownMCP h).
End ContextHub.
(** A request: its hub, role, additions, and the tier set by the engine's own spawns. *)
Module SpawnRequest.
Record t := mk {
  Hub : ContextHub.t; RoleID : string; AdditionalMCPs : list string; AdditionalToolAllowlists : gmap string (list string);
  SubmitterIsAdmin : bool }.
End SpawnRequest.
(** What is not under [src/], and the types behind [any]: [as_role] is the type
    assertion, [json_role] reads a map as a role by way of JSON, [role_any] stores one. *)
Module HubEnv.
Record t := mk {
  goos : string; url_Hostname : string → option string; unicode_word : Z → bool;
  as_role : any → option SpawnRole.t; json_role : list (string * any) → option SpawnRole.t; role_any : SpawnRole.t → any;
  as_skill : any → option HubSkill.t; json_skill : list (string * any) → option HubSkill.t; skill_any : HubSkill.t → any;
  session_order : string → gmap string any → list string; skill_order : string → gmap string HubSkill.t → list string;
  learnt_order : string → gmap string GeneratedSkill.t → list string; binding_order : gmap string MCPBinding.t → list string }.
End HubEnv.

(** Storing a value and asserting its type gives the value back. *)
Class HubLaws (env : HubEnv.t) : Prop := {
  role_back r : HubEnv.as_role env (HubEnv.role_any env r) = Some r;
  skill_back s : HubEnv.as_skill env (HubEnv.skill_any env s) = Some s }.

(** ** Risk of a server (config/mount_policy.go, config/types.go) *)

Section hub.
Context (env : HubEnv.t).

Definition platform_command (m : Server.t) : string :=
  match Server.PlatformOverrides m !! HubEnv.goos env with
  | Some c => if String.eqb c "" then Server.Command m else c
  | None => Server.Command m
  end.
Definition urlHost (raw : string) : string :=
  default "" (HubEnv.url_Hostname env (if contains "://" raw then raw else "http://" +:+ raw)).
Definition ServerRiskyMCP (m : option Server.t) : bool :=
  match m with
  | None => true
  | Some d =>
      let u := TrimSpace (Server.URL d) in
      (negb (String.eqb (TrimSpace (platform_command d)) "") && negb (Server.Sandboxed d))
      || (negb (String.eqb u "") && negb (String.eqb (urlHost u) "") && isInternalHost (urlHost u))
      || CarriesOperatorCredential (Some (Server.declared d))
  end.
Definition server_policy (m : option Server.t) : string := EffectiveMountPolicy (Server.declared <$> m).

(** ** Lookups (core/hub.go) *)

Definition GetMCP (h : ContextHub.t) (id : string) : option Server.t :=
  match ContextHub.DynamicMCPs h !! id with Some m => Some m | None => ContextHub.MCPs h !! id end.
Definition RegisterDynamicMCP (m : Server.t) (h : ContextHub.t) : ContextHub.t :=
  h <| ContextHub.DynamicMCPs ::= insert (Server.ID m) m |>.
(** The registry's own lookup prefers the configured server. *)
Definition registry_GetMCP (h : ContextHub.t) (id : string) : option Server.t :=
  match ContextHub.MCPs h !! id with Some m => Some m | None => ContextHub.DynamicMCPs h !! id end.
Definition skillToolAlive (h : ContextHub.t) (id : string) : bool :=
  negb (has_prefix "jit_" id) || bool_decide (is_Some (registry_GetMCP h id)).

(** A role of the session, stored as it is or as the map it was read as, which is
    replaced by what it decodes to; else the registry's. *)
Definition GetRole (h : ContextHub.t) (roleID : string) : ContextHub.t * option SpawnRole.t :=
  if String.eqb roleID "" then (h, None)
  else
    let global := ContextHub.Roles h !! roleID in
    match ContextHub.Graph h with
    | None => (h, global)
    | Some g =>
        match GetSessionRole roleID g with
        | None => (h, global)
        | Some v =>
            match HubEnv.as_role env v, v with
            | Some r, _ => (h, Some r)
            | None, AMap m =>
                match HubEnv.json_role env m with
                | Some r => (h <| ContextHub.Graph := Some (SetSessionRole roleID (HubEnv.role_any env r) g) |>, Some r)
                | None => (h, global)
                end
            | None, _ => (h, global)
            end
        end
    end.
Definition generatedToConfigSkill (gs : GeneratedSkill.t) : HubSkill.t :=
  HubSkill.mk (Registry.Skill.mk (GeneratedSkill.ID gs) "" "" "" "") (GeneratedSkill.Capability gs) [] [].
Definition global_skill (h : ContextHub.t) (id : string) : option HubSkill.t :=
  match ContextHub.Skills h !! id with
  | Some s => Some s
  | None => match ContextHub.Exp h with Some m => generatedToConfigSkill <$> m !! id | None => None end
  end.
Definition GetSkill (h : ContextHub.t) (id : string) : ContextHub.t * option HubSkill.t :=
  if String.eqb id "" || negb (skillToolAlive h id) then (h, None)
  else
    match ContextHub.Graph h with
    | None => (h, global_skill h id)
    | Some g =>
        match GetSessionSkill id g with
        | None => (h, global_skill h id)
        | Some v =>
            match HubEnv.as_skill env v, v with
            | Some s, _ => (h, Some s)
            | None, AMap m =>
                match HubEnv.json_skill env m with
                | Some s => (h <| ContextHub.Graph := Some (SetSessionSkill id (HubEnv.skill_any env s) g) |>, Some s)
                | None => (h, global_skill h id)
                end
            | None, _ => (h, global_skill h id)
            end
        end
    end.

(** ** A skill for a description *)

Definition tokenizeCapabilityText (s : string) : gset string :=
  list_to_set (List.filter (λ w, negb (String.eqb w "skill")) (tokens_from (HubEnv.unicode_word env) 0 false [] (bytes (to_lower s)))).
Definition skillCapabilityScore (desc : gset string) (s : HubSkill.t) : Z :=
  Z.of_nat (size (desc ∩ (tokenizeCapabilityText (HubSkill.ID s) ∪ tokenizeCapabilityText (HubSkill.Capability s)))).
Definition exactMatch (desc : string) (s : HubSkill.t) : bool :=
  let d := to_lower (TrimSpace desc) in
  String.eqb (to_lower (HubSkill.ID s)) d || String.eqb (to_lower (HubSkill.Capability s)) d.
Definition minRequired (desc : gset string) : Z := Z.max 1 ((Z.of_nat (size desc) + 1) / 2).
Definition better (score : HubSkill.t → Z) (winner : option HubSkill.t) (s : HubSkill.t) : bool :=
  match winner with
  | None => true
  | Some w => (score w <? score s) || ((score s =? score w) && String.ltb (HubSkill.ID s) (HubSkill.ID w))
  end.
Definition contend (desc : gset string) (winner : option HubSkill.t) (s : HubSkill.t) : option HubSkill.t :=
  let score := skillCapabilityScore desc in
  if score s <? minRequired desc then winner
  else if better score winner s then Some s else winner.
Definition best_match (desc : string) (candidates : list HubSkill.t) : option HubSkill.t :=
  match List.find (exactMatch desc) candidates with
  | Some s => Some s
  | None => fold_left (contend (tokenizeCapabilityText desc)) candidates None
  end.
Definition session_skill (v : any) : option HubSkill.t :=
  match HubEnv.as_skill env v, v with
  | Some s, _ => Some s
  | None, AMap m => HubEnv.json_skill env m
  | None, _ => None
  end.
Definition alive_only (h : ContextHub.t) (l : list HubSkill.t) : list HubSkill.t :=
  List.filter (λ s, skillToolAlive h (HubSkill.ID s)) l.
Definition FindSkillByCapability (h : ContextHub.t) (desc : string) : option HubSkill.t :=
  if String.eqb desc "" then None
  else
    let of_session :=
      match ContextHub.Graph h with
      | Some g =>
          let m := TaskGraph.SessionSkills g in
          best_match desc (alive_only h (omap (λ kv, session_skill kv.2) (range m (HubEnv.session_order env desc m))))
      | None => None
      end in
    match of_session with
    | Some s => Some s
    | None =>
        let m := ContextHub.Skills h in
        match best_match desc (alive_only h (range m (HubEnv.skill_order env desc m)).*2) with
        | Some s => Some s
        | None =>
            match ContextHub.Exp h with
            | Some m =>
                best_match desc (generatedToConfigSkill <$>
                  List.filter (λ gs, skillToolAlive h (GeneratedSkill.ID gs)) (range m (HubEnv.learnt_order env desc m)).*2)
            | None => None
            end
        end
    end.

(** ** Errors *)

Inductive CombinationError := SkillMissing (sid : string) | SkillsClash (sid other : string) | SkillRequires (sid req : string).
Definition combination_text (e : CombinationError) : string :=
  match e with
  | SkillMissing sid => "skill " +:+ go_quote sid +:+ " not found in registry or session"
  | SkillsClash sid other => "skill " +:+ go_quote sid +:+ " is incompatible with " +:+ go_quote other
  | SkillRequires sid req => "skill " +:+ go_quote sid +:+ " requires " +:+ go_quote req +:+ " to also be included"
  end.
(** [MountApprovalRequired] is [*MountApprovalRequiredError], [MountPolicyRejected]
    [*MountPolicyRejectedError], whose text hides the server; the others are texts. *)
Inductive MountError :=
| NoSuchRole (roleID : string)
| DynamicSkillsForbidden (roleID : string)
| TooManySkills (requested : Z) (roleID : string) (max : Z)
| SkillAdminOnly (sid roleID : string)
| InvalidCombination (e : CombinationError)
| MountApprovalRequired (roleID : string) (mcps skills : list string)
| MountPolicyRejected (roleID mcpID policy : string)
| MountNeedsAdmin (roleID mcpID : string)
| UnknownMCP (mcpID : string)
| NoRequestedTool (roleID mcpID : string) (tools : list string).
Definition go_list (l : list string) : string := "[" +:+ join " " l +:+ "]".
Definition mount_error_text (e : MountError) : string :=
  match e with
  | NoSuchRole r => "role " +:+ go_quote r +:+ " not found"
  | DynamicSkillsForbidden r => "role " +:+ go_quote r +:+ " does not allow dynamic skills"
  | TooManySkills n r max => "requested " +:+ pretty n +:+ " additional skills but role " +:+ go_quote r +:+ " allows max " +:+ pretty max
  | SkillAdminOnly s r =>
      "skill " +:+ go_quote s +:+ " is admin_only; non-admin submitters may not be granted it (role " +:+ go_quote r +:+ ")"
  | InvalidCombination e => "invalid skill combination: " +:+ combination_text e
  | MountApprovalRequired r mcps skills =>
      "dynamic MCP mount requires human approval: role " +:+ go_quote r +:+ ", mcps " +:+ go_list mcps +:+ ", skills " +:+ go_list skills
  | MountPolicyRejected r _ _ => "role " +:+ go_quote r +:+ " is not available to non-admin submitters"
  | MountNeedsAdmin r m => "dynamic MCP mounting requires admin tier (role " +:+ go_quote r +:+ ", mcp " +:+ go_quote m +:+ ")"
  | UnknownMCP m => "unknown MCP id " +:+ go_quote m +:+ " (not in whitelist)"
  | NoRequestedTool r m tools =>
      "role " +:+ go_quote r +:+ " mcp " +:+ go_quote m +:+ ": none of the requested tools " +:+ go_list tools +:+
      " exist on this server; refusing full access for a non-admin submitter"
  end.

(** ** Skills *)

Definition mem (l : list string) (x : string) : bool := bool_decide (x ∈ l).
Definition check_skill (all : list string) (sid : string) (s : HubSkill.t) : option CombinationError :=
  match List.find (mem all) (HubSkill.Incompatible s) with
  | Some other => Some (SkillsClash sid other)
  | None => SkillRequires sid <$> List.find (λ r, negb (mem all r)) (HubSkill.Requires s)
  end.
Fixpoint validate_from (h : ContextHub.t) (all ids : list string) : ContextHub.t * option CombinationError :=
  match ids with
  | [] => (h, None)
  | sid :: ids =>
      let '(h, skill) := GetSkill h sid in
      match skill with
      | None => (h, Some (SkillMissing sid))
      | Some s => match check_skill all sid s with Some e => (h, Some e) | None => validate_from h all ids end
      end
  end.
Definition ValidateCombination (h : ContextHub.t) (ids : list string) : ContextHub.t * option CombinationError := validate_from h ids ids.

Definition skill_approved (h : ContextHub.t) (sid : string) : bool :=
  match ContextHub.Graph h with Some g => IsSkillMountApproved g sid | None => false end.
Definition skill_policy (s : HubSkill.t) : string := Skill_EffectiveMountPolicy (Some (HubSkill.declared s)).
(** The skills to be approved, in order; an id that is no skill is settled later. *)
Fixpoint gate_skills (h : ContextHub.t) (roleID : string) (ids : list string) : ContextHub.t * result MountError (list string) :=
  match ids with
  | [] => (h, Ok [])
  | sid :: ids =>
      let '(h, skill) := GetSkill h sid in
      match skill with
      | None => gate_skills h roleID ids
      | Some s =>
          if String.eqb (skill_policy s) "open" then gate_skills h roleID ids
          else if String.eqb (skill_policy s) "approval" then
            let '(h', r) := gate_skills h roleID ids in
            (h', let? needed := r in Ok (if skill_approved h sid then needed else sid :: needed))
          else (h, Err (SkillAdminOnly sid roleID))
      end
  end.
Definition merge_skills (bound additional : list string) : list string :=
  fold_left (λ final s, if mem final s then final else final ++ [s]) additional bound.
(** The skills that exist, by id or as the best match of a description. *)
Fixpoint keep_known (h : ContextHub.t) (ids : list string) : ContextHub.t * list string :=
  match ids with
  | [] => (h, [])
  | sid :: ids =>
      let '(h, skill) := GetSkill h sid in
      let here := match skill with
                  | Some _ => [sid]
                  | None => match FindSkillByCapability h sid with Some s => [HubSkill.ID s] | None => [] end
                  end in
      let '(h, l) := keep_known h ids in (h, here ++ l)
  end.
Definition settle_skills (h : ContextHub.t) (role : SpawnRole.t) (additionalSkills : list string) :
    ContextHub.t * result MountError (list string) :=
  let final := merge_skills (SpawnRole.BoundSkills role) additionalSkills in
  let '(h, final) := if SpawnRole.AllowDynamicSkills role then keep_known h final else (h, final) in
  match ValidateCombination h final with
  | (h, Some e) => (h, Err (InvalidCombination e))
  | (h, None) => (h, Ok final)
  end.
Definition ResolveFinalSkills (h : ContextHub.t) (roleID : string) (additionalSkills : list string) (submitterIsAdmin : bool) :
    ContextHub.t * result MountError (list string) :=
  let '(h, role) := GetRole h roleID in
  match role with
  | None => (h, Err (NoSuchRole roleID))
  | Some role =>
      let n := Z.of_nat (length additionalSkills) in
      if (0 <? n) && negb (SpawnRole.AllowDynamicSkills role) then (h, Err (DynamicSkillsForbidden roleID))
      else if SpawnRole.MaxAdditionalSkills role <? n then (h, Err (TooManySkills n roleID (SpawnRole.MaxAdditionalSkills role)))
      else if submitterIsAdmin then settle_skills h role additionalSkills
      else match gate_skills h roleID (SpawnRole.BoundSkills role ++ additionalSkills) with
           | (h, Err e) => (h, Err e)
           | (h, Ok []) => settle_skills h role additionalSkills
           | (h, Ok needed) => (h, Err (MountApprovalRequired roleID [] needed))
           end
  end.

(** ** Servers *)

Definition callerSuppliedMCPs (h : ContextHub.t) (ids : list string) : list string :=
  List.filter (λ id, negb (String.eqb id "") && bool_decide (is_Some (ContextHub.DynamicMCPs h !! id))) ids.
Definition tenantSelfServiceOK (h : ContextHub.t) (id : string) (callerSupplied : list string) : bool :=
  mem callerSupplied id && negb (ServerRiskyMCP (GetMCP h id)).
(** A server nobody knows may be supplied by the callback. *)
Definition supply (h : ContextHub.t) (id : string) : ContextHub.t :=
  match GetMCP h id, ContextHub.OnUnknownMCP h with
  | None, Some f => match f id with Some m => RegisterDynamicMCP m h | None => h end
  | _, _ => h
  end.
Definition prepareCallerSuppliedMCPs (h : ContextHub.t) (boundIDs additionalMCPs : list string) : ContextHub.t * list string :=
  let h := fold_left (λ h id, if String.eqb id "" then h else supply h id) additionalMCPs h in
  (h, callerSuppliedMCPs h (boundIDs ++ additionalMCPs)).

Definition mcp_approved (h : ContextHub.t) (id : string) : bool :=
  match ContextHub.Graph h with Some g => IsMCPMountApproved g id | None => false end.
(** A server of the gate: nothing to do, to be approved, or refused. *)
Inductive gate_verdict := Pass | NeedsApproval | Refused.
Definition verdict_of (h : ContextHub.t) (callerSupplied : list string) (id : string) : gate_verdict :=
  let policy := server_policy (GetMCP h id) in
  if String.eqb policy "open" then Pass
  else if String.eqb policy "approval" then if mcp_approved h id then Pass else NeedsApproval
  else if tenantSelfServiceOK h id callerSupplied then Pass else Refused.
Fixpoint gate_ids (refuse : string → MountError) (j : string → gate_verdict) (ids : list string) : result MountError (list string) :=
  match ids with
  | [] => Ok []
  | id :: ids =>
      match j id with
      | Pass => gate_ids refuse j ids
      | NeedsApproval => let? needed := gate_ids refuse j ids in Ok (id :: needed)
      | Refused => Err (refuse id)
      end
  end.
(** An admin passes both loops. *)
Definition resolveMountPolicyGate (h : ContextHub.t) (role : SpawnRole.t) (roleID : string) (additionalMCPs boundMCP : list string)
    (submitterIsAdmin : bool) (callerSupplied : list string) : result MountError (list string) :=
  if submitterIsAdmin then Ok []
  else
    let j := verdict_of h callerSupplied in
    let? a := gate_ids (λ id, MountPolicyRejected roleID id (server_policy (GetMCP h id))) j
                (List.filter (λ id, negb (String.eqb id "")) (MCPBinding.MCPID <$> SpawnRole.BoundMCPBindings role)) in
    let? b := gate_ids (MountNeedsAdmin roleID) j (List.filter (λ id, negb (mem boundMCP id)) additionalMCPs) in
    Ok (a ++ b).

(** The tools asked of a server, cut to those it is known to have. *)
Definition asked_tools (h : ContextHub.t) (allowlists : gmap string (list string)) (id : string) : list string :=
  let allowed := default [] (allowlists !! id) in
  let available := match GetMCP h id with Some m => Registry.MCPDef.AvailableTools (Server.declared m) | None => [] end in
  if bool_decide (available = []) || bool_decide (allowed = []) then allowed
  else List.filter (mem available) allowed.
Definition bind_extra (h : ContextHub.t) (roleID : string) (submitterIsAdmin : bool) (allowlists : gmap string (list string))
    (id : string) : ContextHub.t * result MountError MCPBinding.t :=
  let h := supply h id in
  if bool_decide (GetMCP h id = None) then (h, Err (UnknownMCP id))
  else
    let allowed := default [] (allowlists !! id) in
    let asked := asked_tools h allowlists id in
    if bool_decide (asked = []) && negb (bool_decide (allowed = [])) && negb submitterIsAdmin
    then (h, Err (NoRequestedTool roleID id allowed))
    else (h, Ok (MCPBinding.mk id asked [])).
Fixpoint bind_extras (h : ContextHub.t) (roleID : string) (submitterIsAdmin : bool) (allowlists : gmap string (list string))
    (ids : list string) : ContextHub.t * result MountError (list MCPBinding.t) :=
  match ids with
  | [] => (h, Ok [])
  | id :: ids =>
      match bind_extra h roleID submitterIsAdmin allowlists id with
      | (h, Err e) => (h, Err e)
      | (h, Ok b) => let '(h, r) := bind_extras h roleID submitterIsAdmin allowlists ids in (h, let? bs := r in Ok (b :: bs))
      end
  end.

(** [ResolveToolBindings]: the role's bindings, every server registered at run
    time when the role says so, then the extra ones: new, or with other tools.  The
    extra bindings of a spawn have no [AlwaysInclude] of their own. *)
Definition bind_all (bs : list MCPBinding.t) : gmap string MCPBinding.t :=
  fold_left (λ m b, <[MCPBinding.MCPID b := b]> m) bs ∅.
Definition auto_attach (dynamic : gmap string Server.t) (m : gmap string MCPBinding.t) : gmap string MCPBinding.t :=
  m ∪ map_imap (λ id _, Some (MCPBinding.mk id [] [])) dynamic.
Definition merge_extra (m : gmap string MCPBinding.t) (b : MCPBinding.t) : gmap string MCPBinding.t :=
  let id := MCPBinding.MCPID b in
  match m !! id with
  | None => <[id := b]> m
  | Some cur =>
      if bool_decide (MCPBinding.AllowedTools b = []) then m
      else
        let cur := cur <| MCPBinding.AllowedTools := MCPBinding.AllowedTools b |> in
        <[id := if bool_decide (MCPBinding.AlwaysInclude cur = []) then cur <| MCPBinding.AlwaysInclude := MCPBinding.AlwaysInclude b |> else cur]> m
  end.
Definition effective (h : ContextHub.t) (role : SpawnRole.t) (extra : list MCPBinding.t) : gmap string MCPBinding.t :=
  let m := bind_all (SpawnRole.BoundMCPBindings role) in
  let m := if SpawnRole.AllowDynamicMCPs role then auto_attach (ContextHub.DynamicMCPs h) m else m in
  fold_left merge_extra extra m.
Definition ResolveToolBindings (h : ContextHub.t) (role : SpawnRole.t) (extra : list MCPBinding.t) : list MCPBinding.t :=
  let m := effective h role extra in (range m (HubEnv.binding_order env m)).*2.
(** Attached, neither bound nor named, a danger to the host, and not declared open. *)
Definition inherited (h : ContextHub.t) (boundMCP additionalMCPs : list string) (b : MCPBinding.t) : bool :=
  let id := MCPBinding.MCPID b in
  negb (mem boundMCP id) && negb (mem additionalMCPs id) && ServerRiskyMCP (GetMCP h id)
  && negb (String.eqb (server_policy (GetMCP h id)) "open").
Definition dropServerRiskyAutoAttached (h : ContextHub.t) (bindings : list MCPBinding.t) (boundMCP additionalMCPs : list string) :
    list MCPBinding.t :=
  List.filter (λ b, negb (inherited h boundMCP additionalMCPs b)) bindings.

Definition ResolveFinalMCPs (h : ContextHub.t) (roleID : string) (additionalMCPs : list string)
    (additionalToolAllowlists : gmap string (list string)) (submitterIsAdmin : bool) :
    ContextHub.t * result MountError (list MCPBinding.t) :=
  let '(h, role) := GetRole h roleID in
  match role with
  | None => (h, Err (NoSuchRole roleID))
  | Some role =>
      let boundIDs := MCPBinding.MCPID <$> SpawnRole.BoundMCPBindings role in
      let boundMCP := List.filter (λ id, negb (String.eqb id "")) boundIDs in
      let '(h, callerSupplied) := prepareCallerSuppliedMCPs h boundIDs additionalMCPs in
      match resolveMountPolicyGate h role roleID additionalMCPs boundMCP submitterIsAdmin callerSupplied with
      | Err e => (h, Err e)
      | Ok ((_ :: _) as needed) => (h, Err (MountApprovalRequired roleID needed []))
      | Ok [] =>
          match bind_extras h roleID submitterIsAdmin additionalToolAllowlists additionalMCPs with
          | (h, Err e) => (h, Err e)
          | (h, Ok extra) =>
              let final := ResolveToolBindings h role extra in
              (h, Ok (if submitterIsAdmin then final else dropServerRiskyAutoAttached h final boundMCP additionalMCPs))
          end
      end
  end.

(** ** In the spawner (core/mount_gate.go, core/spawner_prepare.go) *)

Definition effectiveSubmitterIsAdmin (h : option ContextHub.t) : bool :=
  match h with
  | Some h => match ContextHub.Graph h with Some g => TaskGraph.SubmitterIsAdmin g | None => false end
  | None => false
  end.
Definition submitterIsAdminFor (req : option SpawnRequest.t) : bool :=
  match req with
  | None => false
  | Some req => SpawnRequest.SubmitterIsAdmin req || effectiveSubmitterIsAdmin (Some (SpawnRequest.Hub req))
  end.
Definition approvalResult (role : SpawnRole.t) (err : MountError) : option SubagentOutput.t :=
  match err with
  | MountApprovalRequired _ mcps skills =>
      Some (zeroOutput <| SubagentOutput.Status := StatusApprovalRequired |>
                       <| SubagentOutput.Confidence := float_of_int 1 |>
                       <| SubagentOutput.Capability := SpawnRole.BaseCapability role |>
                       <| SubagentOutput.ApprovalRequiredMounts := mcps |>
                       <| SubagentOutput.ApprovalRequiredSkills := skills |>)
  | _ => None
  end.
(** What a resolution comes to: its value, an output that ends the spawn, or an error. *)
Inductive resolved (A : Type) := Granted (a : A) | Ended (o : SubagentOutput.t) | Broken (e : MountError).
#[global] Arguments Granted {A} a.
#[global] Arguments Ended {A} o.
#[global] Arguments Broken {A} e.
Definition resolveSkills (req : SpawnRequest.t) (role : SpawnRole.t) (additionalSkills : list string) : ContextHub.t * resolved (list string) :=
  let '(h, r) := ResolveFinalSkills (SpawnRequest.Hub req) (SpawnRequest.RoleID req) additionalSkills (submitterIsAdminFor (Some req)) in
  (h, match r with
      | Ok final => Granted final
      | Err e => match approvalResult role e with Some o => Ended o | None => Broken e end
      end).
Definition resolveMCPBindings (req : SpawnRequest.t) (role : SpawnRole.t) : ContextHub.t * resolved (list MCPBinding.t) :=
  let '(h, r) := ResolveFinalMCPs (SpawnRequest.Hub req) (SpawnRequest.RoleID req) (SpawnRequest.AdditionalMCPs req)
                   (SpawnRequest.AdditionalToolAllowlists req) (submitterIsAdminFor (Some req)) in
  (h, match r with
      | Ok bindings => Granted bindings
      | Err e => Ended (match approvalResult role e with Some o => o | None => failedOutput (SpawnRole.BaseCapability role) (mount_error_text e) end)
      end).
End hub.

(** ** Hubs that answer alike

    A lookup may replace what the session stores by what it decodes to: the hub
    changes and its answers do not. *)

Section answers.
Context (env : HubEnv.t) {laws : HubLaws env}.
Definition skill_at (h : ContextHub.t) (id : string) : option HubSkill.t := (GetSkill env h id).2.
Definition role_at (h : ContextHub.t) (id : string) : option SpawnRole.t := (GetRole env h id).2.
Record hub_eq (h h' : ContextHub.t) : Prop := {
  eq_skill_at id : skill_at h' id = skill_at h id;
  eq_role_at id : role_at h' id = role_at h id;
  eq_skill_approved id : skill_approved h' id = skill_approved h id;
  eq_mcp_approved id : mcp_approved h' id = mcp_approved h id;
  eq_MCPs : ContextHub.MCPs h' = ContextHub.MCPs h;
  eq_DynamicMCPs : ContextHub.DynamicMCPs h' = ContextHub.DynamicMCPs h;
  eq_OnUnknownMCP : ContextHub.OnUnknownMCP h' = ContextHub.OnUnknownMCP h }.
#[export] Instance hub_eq_equiv : Equivalence hub_eq.
Proof.
  split.
  - by intros h.
  - intros h h' []. by split.
  - intros h1 h2 h3 [] []. split; intros; etransitivity; eauto.
Qed.
#[export] Instance skill_at_proper : Proper (hub_eq ==> eq ==> eq) skill_at.
Proof. by intros h h' [] id _ <-. Qed.
#[export] Instance role_at_proper : Proper (hub_eq ==> eq ==> eq) role_at.
Proof. by intros h h' [] id _ <-. Qed.
#[export] Instance skill_approved_proper : Proper (hub_eq ==> eq ==> eq) skill_approved.
Proof. by intros h h' [] id _ <-. Qed.
#[export] Instance mcp_approved_proper : Proper (hub_eq ==> eq ==> eq) mcp_approved.
Proof. by intros h h' [] id _ <-. Qed.
#[export] Instance GetMCP_proper : Proper (hub_eq ==> eq ==> eq) GetMCP.
Proof. intros h h' [_ _ _ _ E1 E2 _] id _ <-. unfold GetMCP. by rewrite E1, E2. Qed.

(** What a lookup stores. *)
Lemma skill_cached h id g s m :
  ContextHub.Graph h = Some g → GetSessionSkill id g = Some (AMap m) → HubEnv.as_skill env (AMap m) = None → HubEnv.json_skill env m = Some s →
  hub_eq h (h <| ContextHub.Graph := Some (SetSessionSkill id (HubEnv.skill_any env s) g) |>).
Proof.
  intros Hg Hv Ha Hj. split; try done; intros id'.
  - unfold skill_at, GetSkill, skillToolAlive. cbn. rewrite Hg. destruct (_ || _); [done|]. unfold GetSessionSkill, SetSessionSkill in *. cbn.
    destruct (decide (id' = id)) as [->|Hne].
    + rewrite lookup_insert_eq, Hv, skill_back, Ha, Hj. done.
    + rewrite lookup_insert_ne by done. unfold global_skill. cbn. by repeat case_match.
  - unfold role_at, GetRole. cbn. rewrite Hg. destruct (String.eqb _ _); [done|]. unfold GetSessionRole, SetSessionSkill. cbn. by repeat case_match.
  - unfold skill_approved. cbn. by rewrite Hg.
  - unfold mcp_approved. cbn. by rewrite Hg.
Qed.
Lemma role_cached h id g r m :
  ContextHub.Graph h = Some g → GetSessionRole id g = Some (AMap m) → HubEnv.as_role env (AMap m) = None → HubEnv.json_role env m = Some r →
  hub_eq h (h <| ContextHub.Graph := Some (SetSessionRole id (HubEnv.role_any env r) g) |>).
Proof.
  intros Hg Hv Ha Hj. split; try done; intros id'.
  - unfold skill_at, GetSkill, skillToolAlive. cbn. rewrite Hg. destruct (_ || _); [done|]. unfold GetSessionSkill, SetSessionRole. cbn.
    unfold global_skill. cbn. by repeat case_match.
  - unfold role_at, GetRole. cbn. rewrite Hg. destruct (String.eqb _ _); [done|]. unfold GetSessionRole, SetSessionRole in *. cbn.
    destruct (decide (id' = id)) as [->|Hne].
    + rewrite lookup_insert_eq, Hv, role_back, Ha, Hj. done.
    + rewrite lookup_insert_ne by done. by repeat case_match.
  - unfold skill_approved. cbn. by rewrite Hg.
  - unfold mcp_approved. cbn. by rewrite Hg.
Qed.
Lemma GetSkill_eq h id : hub_eq h (GetSkill env h id).1.
Proof.
  unfold GetSkill. destruct (_ || _); [done|]. destruct (ContextHub.Graph h) as [g|] eqn:Hg; [|done].
  destruct (GetSessionSkill id g) as [v|] eqn:Hv; [|done]. destruct (HubEnv.as_skill env v) eqn:Ha; [done|].
  destruct v; try done. destruct (HubEnv.json_skill env m) eqn:Hj; [|done]. by apply (skill_cached _ _ _ _ m).
Qed.
Lemma GetRole_eq h id : hub_eq h (GetRole env h id).1.
Proof.
  unfold GetRole. destruct (String.eqb _ _); [done|]. destruct (ContextHub.Graph h) as [g|] eqn:Hg; [|done].
  destruct (GetSessionRole id g) as [v|] eqn:Hv; [|done]. destruct (HubEnv.as_role env v) eqn:Ha; [done|].
  destruct v; try done. destruct (HubEnv.json_role env m) eqn:Hj; [|done]. by apply (role_cached _ _ _ _ m).
Qed.
Lemma GetSkill_step h id h' o : GetSkill env h id = (h', o) → hub_eq h h' ∧ skill_at h id = o.
Proof. intros E. pose proof (GetSkill_eq h id) as H. unfold skill_at. by rewrite E in *. Qed.
Lemma GetRole_step h id h' o : GetRole env h id = (h', o) → hub_eq h h' ∧ role_at h id = o.
Proof. intros E. pose proof (GetRole_eq h id) as H. unfold role_at. by rewrite E in *. Qed.

(** ** Skills *)

Lemma check_skill_none all sid s :
  check_skill all sid s = None ↔ (∀ x, x ∈ HubSkill.Incompatible s → x ∉ all) ∧ (∀ r, r ∈ HubSkill.Requires s → r ∈ all).
Proof.
  unfold check_skill, mem. destruct (List.find _ (HubSkill.Incompatible s)) as [x|] eqn:E1.
  - split; [done|]. intros [H _]. apply find_some in E1 as [Hx E]. apply list_elem_of_In in Hx. apply bool_decide_eq_true in E. by apply H in Hx.
  - pose proof (find_none _ _ E1) as F1. destruct (List.find _ (HubSkill.Requires s)) as [r|] eqn:E2; cbn.
    + split; [done|]. intros [_ H]. apply find_some in E2 as [Hr E]. apply list_elem_of_In in Hr. apply negb_true_iff, bool_decide_eq_false in E. by apply H in Hr.
    + pose proof (find_none _ _ E2) as F2. split; [|done]. intros _. split.
      * intros x Hx. specialize (F1 x). rewrite <- list_elem_of_In, bool_decide_eq_false in F1. by apply F1.
      * intros r Hr. specialize (F2 r). rewrite <- list_elem_of_In, negb_false_iff, bool_decide_eq_true in F2. by apply F2.
Qed.
(** A combination the hub accepts: the skills exist, none excludes another, all
    that is required is there. *)
Definition combinable (h : ContextHub.t) (l : list string) : Prop :=
  ∀ sid, sid ∈ l → ∃ s, skill_at h sid = Some s ∧
    (∀ x, x ∈ HubSkill.Incompatible s → x ∉ l) ∧ (∀ r, r ∈ HubSkill.Requires s → r ∈ l).
Lemma validate_from_ok all ids : ∀ h,
  hub_eq h (validate_from env h all ids).1 ∧
  ((validate_from env h all ids).2 = None ↔ ∀ sid, sid ∈ ids → ∃ s, skill_at h sid = Some s ∧ check_skill all sid s = None).
Proof.
  induction ids as [|sid ids IH]; intros h; cbn [validate_from].
  - split; [done|]. split; [|done]. intros _ sid Hs. by apply not_elem_of_nil in Hs.
  - destruct (GetSkill env h sid) as [h1 o] eqn:E. apply GetSkill_step in E as [He Ho]. destruct o as [s|].
    + destruct (check_skill all sid s) eqn:C.
      * split; [done|]. split; [done|]. intros H. destruct (H sid) as (s' & E1 & E2); [by left|]. naive_solver.
      * destruct (IH h1) as [IH1 IH2]. split; [by etransitivity|]. rewrite IH2. setoid_rewrite <- He. setoid_rewrite elem_of_cons.
        split; [|naive_solver]. intros H sid' [->|Hs]; [by exists s|by apply H].
    + split; [done|]. split; [done|]. intros H. destruct (H sid) as (s' & E1 & E2); [by left|]. naive_solver.
Qed.
(** [ValidateCombination] accepts exactly the combinations that fit. *)
Lemma combination_exact h l :
  hub_eq h (ValidateCombination env h l).1 ∧ ((ValidateCombination env h l).2 = None ↔ combinable h l).
Proof.
  destruct (validate_from_ok l l h) as [H1 H2]. split; [done|]. rewrite H2. unfold combinable. setoid_rewrite check_skill_none. done.
Qed.

Definition skill_refused (h : ContextHub.t) (sid : string) : bool :=
  match skill_at h sid with
  | Some s => negb (String.eqb (skill_policy s) "open") && negb (String.eqb (skill_policy s) "approval")
  | None => false
  end.
Definition skill_needs (h : ContextHub.t) (sid : string) : bool :=
  match skill_at h sid with
  | Some s => negb (String.eqb (skill_policy s) "open") && String.eqb (skill_policy s) "approval" && negb (skill_approved h sid)
  | None => false
  end.
#[export] Instance skill_refused_proper : Proper (hub_eq ==> eq ==> eq) skill_refused.
Proof. intros h h' E id _ <-. unfold skill_refused. by rewrite E. Qed.
#[export] Instance skill_needs_proper : Proper (hub_eq ==> eq ==> eq) skill_needs.
Proof. intros h h' E id _ <-. unfold skill_needs. rewrite (eq_skill_at _ _ E), (eq_skill_approved _ _ E). done. Qed.
(** The gate refuses the first skill for admins only, or asks for all that need it. *)
Lemma gate_skills_exact roleID ids : ∀ h,
  hub_eq h (gate_skills env h roleID ids).1 ∧
  (gate_skills env h roleID ids).2 =
    match List.find (skill_refused h) ids with
    | Some sid => Err (SkillAdminOnly sid roleID)
    | None => Ok (List.filter (skill_needs h) ids)
    end.
Proof.
  induction ids as [|sid ids IH]; intros h; cbn [gate_skills List.find List.filter]; [done|].
  destruct (GetSkill env h sid) as [h1 o] eqn:E. apply GetSkill_step in E as [He Ho]. unfold skill_refused at 1, skill_needs at 1. rewrite Ho.
  destruct (IH h1) as [I1 I2].
  assert (List.find (skill_refused h1) ids = List.find (skill_refused h) ids) as F.
  { clear IH I1 I2. induction ids as [|x l IH]; [done|]. cbn. by rewrite IH, <- He. }
  assert (List.filter (skill_needs h1) ids = List.filter (skill_needs h) ids) as G by (apply List.filter_ext; intros x; by rewrite <- He).
  rewrite F, G in I2. destruct o as [s|]; cbn [negb andb]; [|split; [by etransitivity|done]].
  destruct (String.eqb (skill_policy s) "open") eqn:E1; cbn [negb andb]; [split; [by etransitivity|done]|].
  destruct (String.eqb (skill_policy s) "approval") eqn:E2; cbn [negb andb]; [|done].
  destruct (gate_skills env h1 roleID ids) as [h2 r]. cbn [fst snd] in *. subst r. split; [by etransitivity|].
  rewrite (eq_skill_approved _ _ He sid). clear F. destruct (List.find (skill_refused h) ids); cbn; [done|]. by destruct (skill_approved h sid).
Qed.

(** How an id gets into the final list: it was there, or a text that is no skill
    was matched to it. *)
Definition matched (h : ContextHub.t) (texts : list string) (sid : string) : Prop :=
  ∃ text h1 s, text ∈ texts ∧ skill_at h text = None ∧ hub_eq h h1 ∧ FindSkillByCapability env h1 text = Some s ∧ HubSkill.ID s = sid.
Lemma keep_known_from ids : ∀ h,
  hub_eq h (keep_known env h ids).1 ∧ ∀ sid, sid ∈ (keep_known env h ids).2 → sid ∈ ids ∨ matched h ids sid.
Proof.
  induction ids as [|i ids IH]; intros h; cbn [keep_known].
  - split; [done|]. intros sid H. by apply not_elem_of_nil in H.
  - destruct (GetSkill env h i) as [h1 o] eqn:E. apply GetSkill_step in E as [He Ho].
    destruct (keep_known env h1 ids) as [h2 l] eqn:K. destruct (IH h1) as [I1 I2]. rewrite K in I1, I2. cbn [fst snd] in *.
    split; [by etransitivity|]. intros sid. rewrite elem_of_app. intros [H|H].
    + destruct o as [s|]; [left; apply list_elem_of_singleton in H as ->; by left|].
      destruct (FindSkillByCapability env h1 i) as [s|] eqn:F; [|by apply not_elem_of_nil in H].
      apply list_elem_of_singleton in H as ->. right. exists i, h1, s. split; [by left|]. done.
    + apply I2 in H as [H|(t & h3 & s & Ht & Hn & H3 & Hf & Hi)]; [left; by right|]. right. exists t, h3, s.
      split; [by right|]. split; [by rewrite He|]. split; [by etransitivity|]. done.
Qed.
Lemma merge_skills_elem bound additional sid : sid ∈ merge_skills bound additional ↔ sid ∈ bound ∨ sid ∈ additional.
Proof.
  unfold merge_skills. revert bound. induction additional as [|a l IH]; intros bound; cbn [fold_left].
  - split; [by left|]. intros [H|H]; [done|by apply not_elem_of_nil in H].
  - rewrite IH, elem_of_cons. unfold mem. case_bool_decide; [|rewrite elem_of_app, list_elem_of_singleton]; naive_solver.
Qed.
Lemma settle_skills_ok h role add h' l :
  settle_skills env h role add = (h', Ok l) →
  combinable h l ∧ ∀ sid, sid ∈ l →
    (sid ∈ SpawnRole.BoundSkills role ++ add) ∨ (SpawnRole.AllowDynamicSkills role = true ∧ matched h (SpawnRole.BoundSkills role ++ add) sid).
Proof.
  unfold settle_skills. set (ids := merge_skills _ _).
  assert (∀ x, x ∈ ids ↔ x ∈ SpawnRole.BoundSkills role ++ add) as Hids by (intros x; unfold ids; by rewrite merge_skills_elem, elem_of_app).
  destruct (SpawnRole.AllowDynamicSkills role).
  - destruct (keep_known env h ids) as [h1 l1] eqn:K. destruct (keep_known_from ids h) as [K1 K2]. rewrite K in K1, K2. cbn [fst snd] in *.
    destruct (combination_exact h1 l1) as [_ V]. destruct (ValidateCombination env h1 l1) as [h2 [e|]]; [done|]. cbn [snd] in V.
    intros [= _ <-]. split.
    + destruct V as [V _]. intros sid Hs. destruct (V eq_refl sid Hs) as (s & E & H). exists s. by rewrite <- K1 in E.
    + intros sid Hs. destruct (K2 sid Hs) as [H|(t & h3 & s & Ht & H)]; [left; by apply Hids|]. right. split; [done|]. exists t, h3, s.
      split; [by apply Hids|done].
  - destruct (combination_exact h ids) as [_ V]. destruct (ValidateCombination env h ids) as [h2 [e|]]; [done|]. cbn [snd] in V.
    intros [= _ <-]. split; [by apply V|]. intros sid Hs. left. by apply Hids.
Qed.

(** C20: what a submitter who is no admin gets as skills: not more are added than
    the role allows; they exist, none excludes another and what one requires is
    there; each was bound or named and is open, or approved for the task -- or it is
    what a text that names no skill was matched to, which the gate never saw. *)
Theorem skills_granted h roleID add h' l :
  ResolveFinalSkills env h roleID add false = (h', Ok l) →
  ∃ role, role_at h roleID = Some role ∧
    (add ≠ [] → SpawnRole.AllowDynamicSkills role = true) ∧ Z.of_nat (length add) <= SpawnRole.MaxAdditionalSkills role ∧
    combinable h l ∧
    ∀ sid, sid ∈ l →
      (sid ∈ SpawnRole.BoundSkills role ++ add ∧
       ∃ s, skill_at h sid = Some s ∧ (skill_policy s = "open" ∨ (skill_policy s = "approval" ∧ skill_approved h sid = true)))
      ∨ (SpawnRole.AllowDynamicSkills role = true ∧ matched h (SpawnRole.BoundSkills role ++ add) sid).
Proof.
  unfold ResolveFinalSkills. destruct (GetRole env h roleID) as [h1 o] eqn:E. apply GetRole_step in E as [He Ho].
  destruct o as [role|]; [|done]. set (ids := SpawnRole.BoundSkills role ++ add).
  destruct (_ && _) eqn:D; [done|]. destruct (SpawnRole.MaxAdditionalSkills role <? _) eqn:M; [done|].
  destruct (gate_skills_exact roleID ids h1) as [G1 G2]. destruct (gate_skills env h1 roleID ids) as [h2 r]. cbn [fst snd] in *. subst r.
  destruct (List.find (skill_refused h1) ids) eqn:R; [done|]. destruct (List.filter (skill_needs h1) ids) eqn:N; [|done].
  intros S. apply settle_skills_ok in S as [S1 S2]. assert (hub_eq h h2) as H2 by (by etransitivity).
  exists role. split; [done|]. split; [intros Ha; destruct add; [done|]; by apply andb_false_iff in D as [D|D%negb_false_iff]|].
  split; [lia|]. split; [intros sid Hs; destruct (S1 sid Hs) as (s & X & Y); exists s; by rewrite <- H2 in X|].
  intros sid Hs. destruct (S2 sid Hs) as [Hin|[Ha (t & h3 & s & Ht & Hn & Hq & Hf)]].
  - left. split; [done|]. destruct (S1 sid Hs) as (s & X & _). rewrite <- H2 in X. exists s. split; [done|].
    pose proof (find_none _ _ R sid) as R'. rewrite <- list_elem_of_In in R'. specialize (R' Hin).
    assert (skill_needs h1 sid = false) as N'.
    { apply not_true_is_false. intros T. assert (sid ∈ List.filter (skill_needs h1) ids) as F by (apply list_elem_of_In, filter_In; by rewrite <- list_elem_of_In).
      rewrite N in F. by apply not_elem_of_nil in F. }
    rewrite <- He in R', N'. unfold skill_refused, skill_needs in *. rewrite X in *.
    destruct (String.eqb_spec (skill_policy s) "open"); [by left|]. destruct (String.eqb_spec (skill_policy s) "approval"); [|done]. right.
    split; [done|]. by apply negb_false_iff.
  - right. split; [done|]. exists t, h3, s. rewrite <- H2 in Hn. split; [done|]. split; [done|]. split; [by etransitivity|done].
Qed.

(** ** Servers *)

Definition refused (v : gate_verdict) : bool := match v with Refused => true | _ => false end.
Definition wanting (v : gate_verdict) : bool := match v with NeedsApproval => true | _ => false end.
Lemma gate_ids_exact refuse j ids :
  gate_ids refuse j ids =
    match List.find (λ id, refused (j id)) ids with Some id => Err (refuse id) | None => Ok (List.filter (λ id, wanting (j id)) ids) end.
Proof.
  induction ids as [|id ids IH]; [done|]. cbn. destruct (j id); cbn [refused wanting]; [done| |done]. rewrite IH. by destruct (List.find _ ids).
Qed.
(** What a verdict rests on. *)
Definition sanctioned (h : ContextHub.t) (id : string) (d : Server.t) : Prop :=
  server_policy (Some d) = "open" ∨ (server_policy (Some d) = "approval" ∧ mcp_approved h id = true) ∨
  (ServerRiskyMCP env (Some d) = false ∧ (id = "" ∨ is_Some (ContextHub.DynamicMCPs h !! id))).
Lemma judge_known h supplied id : verdict_of env h supplied id ≠ Refused → is_Some (GetMCP h id).
Proof.
  unfold verdict_of, tenantSelfServiceOK. destruct (GetMCP h id); [done|]. cbn. by rewrite andb_false_r.
Qed.
Lemma judge_pass h ids id :
  verdict_of env h (callerSuppliedMCPs h ids) id = Pass → ∃ d, GetMCP h id = Some d ∧ sanctioned h id d.
Proof.
  intros H. destruct (judge_known h (callerSuppliedMCPs h ids) id) as [d Hd]; [by rewrite H|]. exists d. split; [done|].
  unfold verdict_of in H. rewrite Hd in H. unfold sanctioned. destruct (String.eqb_spec (server_policy (Some d)) "open"); [by left|].
  destruct (String.eqb_spec (server_policy (Some d)) "approval"); [right; left; by destruct (mcp_approved h id)|]. right. right.
  unfold tenantSelfServiceOK, mem in H. rewrite Hd in H. destruct (bool_decide _) eqn:M; [|done]. rewrite andb_true_l in H.
  split; [by destruct (ServerRiskyMCP env (Some d))|]. right. apply bool_decide_eq_true in M.
  unfold callerSuppliedMCPs in M. apply list_elem_of_In, filter_In in M as [_ M]. apply andb_true_iff in M as [_ M]. by apply bool_decide_eq_true in M.
Qed.

Lemma supply_known h id : is_Some (GetMCP h id) → supply h id = h.
Proof. intros [m E]. unfold supply. by rewrite E. Qed.
Lemma bind_extras_known h roleID adm allow ids :
  (∀ id, id ∈ ids → is_Some (GetMCP h id)) →
  (bind_extras h roleID adm allow ids).1 = h ∧
  match (bind_extras h roleID adm allow ids).2 with
  | Ok bs => bs = (λ id, MCPBinding.mk id (asked_tools h allow id) []) <$> ids ∧
             (adm = false → ∀ id, id ∈ ids → default [] (allow !! id) ≠ [] → asked_tools h allow id ≠ [])
  | Err e => ∃ id, e = NoRequestedTool roleID id (default [] (allow !! id))
  end.
Proof.
  intros Hk. induction ids as [|id ids IH]; cbn [bind_extras]; [split; [done|]; split; [done|]; intros _ id H; by apply not_elem_of_nil in H|].
  assert (is_Some (GetMCP h id)) as Hi by (apply Hk; by left). unfold bind_extra. rewrite (supply_known h id Hi).
  rewrite bool_decide_eq_false_2 by (intros E; rewrite E in Hi; by destruct Hi). destruct (_ && _) eqn:G; [split; [done|]; by exists id|].
  destruct IH as [I1 I2]; [intros x Hx; apply Hk; by right|]. destruct (bind_extras h roleID adm allow ids) as [h1 r]. cbn [fst snd] in *. subst h1.
  split; [done|]. destruct r as [bs|e]; [|exact I2]. cbn [rbind]. destruct I2 as [-> I2]. split; [done|]. intros -> x [->|Hx]%elem_of_cons; [|by apply I2].
  intros Hn Ha. rewrite bool_decide_eq_true_2, bool_decide_eq_false_2 in G by done. exact (diff_true_false G).
Qed.

(** The map of bindings: keyed by their servers, which come from the role, from
    what is registered at run time, or from the extra ones. *)
Definition keyed (m : gmap string MCPBinding.t) : Prop := ∀ id b, m !! id = Some b → MCPBinding.MCPID b = id.
Lemma bind_all_keyed bs : keyed (bind_all bs) ∧ ∀ id, is_Some (bind_all bs !! id) → id ∈ MCPBinding.MCPID <$> bs.
Proof.
  unfold bind_all. rewrite <- fold_left_rev_right.
  assert (∀ id, id ∈ MCPBinding.MCPID <$> List.rev bs → id ∈ MCPBinding.MCPID <$> bs) as R.
  { intros id. rewrite !list_elem_of_fmap. intros (b & E & H). exists b. split; [done|]. apply list_elem_of_In, in_rev, list_elem_of_In, H. }
  split; [|intros id H; apply R; revert id H]; clear R.
  - induction (List.rev bs) as [|b l IH]; cbn [fold_right]; intros id b'; [by rewrite lookup_empty|].
    rewrite lookup_insert_Some. intros [[<- <-]|[_ H]]; [done|]. by apply IH.
  - induction (List.rev bs) as [|b l IH]; cbn [fold_right]; intros id; [rewrite lookup_empty; by intros []|]. cbn [fmap list_fmap].
    destruct (decide (id = MCPBinding.MCPID b)) as [->|Hne]; [by left|]. rewrite lookup_insert_ne by done. right. by apply IH.
Qed.
Lemma merge_extra_keyed m b : keyed m → keyed (merge_extra m b) ∧ ∀ id, is_Some (merge_extra m b !! id) → is_Some (m !! id) ∨ id = MCPBinding.MCPID b.
Proof.
  intros Hm. unfold merge_extra. destruct (m !! MCPBinding.MCPID b) as [cur|] eqn:E; [case_bool_decide; [split; [done|by left]|]|]; cbv zeta.
  all: split; [intros id b'; rewrite lookup_insert_Some; intros [[<- <-]|[_ X]]; [|by apply Hm] |
              intros id; destruct (decide (id = MCPBinding.MCPID b)) as [->|Hne]; [by right|rewrite lookup_insert_ne by done; by left]].
  - case_bool_decide; cbn; by apply Hm.
  - done.
Qed.
Lemma merge_extras_keyed extra : ∀ m, keyed m →
  keyed (fold_left merge_extra extra m) ∧
  ∀ id, is_Some (fold_left merge_extra extra m !! id) → is_Some (m !! id) ∨ id ∈ MCPBinding.MCPID <$> extra.
Proof.
  induction extra as [|b l IH]; intros m Hm; cbn [fold_left]; [split; [done|by left]|].
  destruct (merge_extra_keyed m b Hm) as [K1 K2]. destruct (IH _ K1) as [I1 I2]. split; [done|]. intros id H.
  destruct (I2 id H) as [H'|H']; [destruct (K2 id H') as [H2| ->]; [by left|right; by left]|right; by right].
Qed.
Lemma effective_keyed h role extra :
  keyed (effective h role extra) ∧
  ∀ id, is_Some (effective h role extra !! id) →
    id ∈ MCPBinding.MCPID <$> SpawnRole.BoundMCPBindings role ∨
    (SpawnRole.AllowDynamicMCPs role = true ∧ is_Some (ContextHub.DynamicMCPs h !! id)) ∨ id ∈ MCPBinding.MCPID <$> extra.
Proof.
  unfold effective. destruct (bind_all_keyed (SpawnRole.BoundMCPBindings role)) as [B1 B2]. destruct (SpawnRole.AllowDynamicMCPs role).
  - assert (keyed (auto_attach (ContextHub.DynamicMCPs h) (bind_all (SpawnRole.BoundMCPBindings role)))) as K.
    { intros id b. unfold auto_attach. rewrite lookup_union_Some_raw, map_lookup_imap. intros [H|[_ H]]; [by apply B1|].
      destruct (ContextHub.DynamicMCPs h !! id); by inversion H. }
    destruct (merge_extras_keyed extra _ K) as [M1 M2]. split; [done|]. intros id H. destruct (M2 id H) as [H'|]; [|by right; right].
    destruct H' as [b H']. unfold auto_attach in H'. rewrite lookup_union_Some_raw, map_lookup_imap in H'. destruct H' as [H'|[_ H']]; [left; by apply B2|].
    right. left. split; [done|]. by destruct (ContextHub.DynamicMCPs h !! id).
  - destruct (merge_extras_keyed extra _ B1) as [M1 M2]. split; [done|]. intros id H. destruct (M2 id H); [left; by apply B2|by right; right].
Qed.
Lemma resolved_binding h role extra b :
  b ∈ ResolveToolBindings env h role extra → effective h role extra !! MCPBinding.MCPID b = Some b.
Proof.
  unfold ResolveToolBindings. rewrite list_elem_of_fmap. intros ([id b'] & -> & H). cbn. apply elem_of_range in H as [_ H].
  destruct (effective_keyed h role extra) as [K _]. by rewrite (K _ _ H).
Qed.

Definition bound_ids (role : SpawnRole.t) : list string := MCPBinding.MCPID <$> SpawnRole.BoundMCPBindings role.
Definition named_ids (role : SpawnRole.t) : list string := List.filter (λ id, negb (String.eqb id "")) (bound_ids role).
Lemma elem_of_named role id : id ∈ named_ids role ↔ id ≠ "" ∧ id ∈ bound_ids role.
Proof. unfold named_ids. rewrite list_elem_of_In, filter_In, <- list_elem_of_In, negb_true_iff, String.eqb_neq. tauto. Qed.
(** The ids the gate looks at. *)
Definition gated (role : SpawnRole.t) (add : list string) : list string :=
  named_ids role ++ List.filter (λ id, negb (mem (named_ids role) id)) add.
Lemma elem_of_gated role add id : id ∈ gated role add ↔ id ∈ named_ids role ∨ id ∈ add.
Proof.
  unfold gated, mem. rewrite elem_of_app, (list_elem_of_In (List.filter _ add)), filter_In, <- list_elem_of_In, negb_true_iff, bool_decide_eq_false.
  destruct (decide (id ∈ named_ids role)); tauto.
Qed.
Lemma find_app_list {A} (f : A → bool) l1 l2 :
  List.find f (l1 ++ l2) = match List.find f l1 with Some x => Some x | None => List.find f l2 end.
Proof. induction l1 as [|x l IH]; [done|]. cbn. by destruct (f x). Qed.
(** The gate refuses, or lists what is to be approved. *)
Lemma mount_gate_exact h role roleID add supplied :
  resolveMountPolicyGate env h role roleID add (named_ids role) false supplied =
    match List.find (λ id, refused (verdict_of env h supplied id)) (gated role add) with
    | Some id => Err (if mem (named_ids role) id then MountPolicyRejected roleID id (server_policy (GetMCP h id)) else MountNeedsAdmin roleID id)
    | None => Ok (List.filter (λ id, wanting (verdict_of env h supplied id)) (gated role add))
    end.
Proof.
  unfold resolveMountPolicyGate, gated. fold (bound_ids role). fold (named_ids role). rewrite !gate_ids_exact, find_app_list.
  destruct (List.find _ (named_ids role)) as [id|] eqn:F1; cbn [rbind].
  - apply find_some in F1 as [F1 _]. unfold mem. by rewrite bool_decide_eq_true_2 by (by apply list_elem_of_In).
  - destruct (List.find _ (List.filter _ add)) as [id|] eqn:F2; cbn [rbind].
    + apply find_some in F2 as [F2 _]. apply filter_In in F2 as [_ F2]. apply negb_true_iff in F2. by rewrite F2.
    + by rewrite List.filter_app.
Qed.
Lemma filter_nil_elem {A} (f : A → bool) l : (∀ x, x ∈ l → f x = false) → List.filter f l = [].
Proof. induction l as [|x l IH]; intros H; [done|]. cbn. rewrite (H x) by (by left). apply IH. intros y Hy. apply H. by right. Qed.
Lemma gate_pass h role roleID add supplied :
  resolveMountPolicyGate env h role roleID add (named_ids role) false supplied = Ok [] ↔
  ∀ id, id ∈ gated role add → verdict_of env h supplied id = Pass.
Proof.
  rewrite mount_gate_exact. destruct (List.find _ (gated role add)) as [id|] eqn:F.
  - apply find_some in F as [F1 F2]. split; [done|]. intros H. rewrite H in F2 by (by apply list_elem_of_In). done.
  - pose proof (find_none _ _ F) as F'. split.
    + intros [= E] id Hid. specialize (F' id). rewrite <- list_elem_of_In in F'. specialize (F' Hid). destruct (verdict_of env h supplied id) eqn:J; [done| |done].
      assert (id ∈ List.filter (λ id, wanting (verdict_of env h supplied id)) (gated role add)) as X by (apply list_elem_of_In, filter_In; rewrite J, <- list_elem_of_In; done).
      rewrite E in X. by apply not_elem_of_nil in X.
    + intros H. f_equal. apply filter_nil_elem. intros id Hid. by rewrite H.
Qed.

(** What a resolution that succeeds went through. *)
Lemma resolution_ok h roleID add allow h' bs :
  ResolveFinalMCPs env h roleID add allow false = (h', Ok bs) →
  ∃ role, role_at h roleID = Some role ∧
    (∀ id, id ∈ gated role add → verdict_of env h' (callerSuppliedMCPs h' (bound_ids role ++ add)) id = Pass) ∧
    (∀ id, id ∈ add → default [] (allow !! id) ≠ [] → asked_tools h' allow id ≠ []) ∧
    bs = dropServerRiskyAutoAttached env h' (ResolveToolBindings env h' role ((λ id, MCPBinding.mk id (asked_tools h' allow id) []) <$> add))
           (named_ids role) add.
Proof.
  unfold ResolveFinalMCPs. destruct (GetRole env h roleID) as [h1 o] eqn:E. apply GetRole_step in E as [He Ho]. destruct o as [role|]; [|done].
  fold (bound_ids role). fold (named_ids role). unfold prepareCallerSuppliedMCPs. cbv zeta.
  set (h2 := fold_left _ add h1). set (sup := callerSuppliedMCPs h2 _).
  destruct (resolveMountPolicyGate env h2 role roleID add (named_ids role) false sup) as [[|x l]|e] eqn:G; [|done..].
  rewrite gate_pass in G. assert (∀ id, id ∈ add → is_Some (GetMCP h2 id)) as Hk.
  { intros id Hid. apply (judge_known h2 sup). rewrite G; [done|]. apply elem_of_gated. by right. }
  destruct (bind_extras_known h2 roleID false allow add Hk) as [B1 B2]. destruct (bind_extras h2 roleID false allow add) as [h3 r]. cbn [fst snd] in *.
  subst h3. destruct r as [extra|e]; [|done]. destruct B2 as [-> B2]. intros [= <- <-]. exists role. split; [done|]. split; [done|]. split; [by apply B2|done].
Qed.

(** C19: the servers a submitter who is no admin gets.  Each is bound by the role,
    named, or attached because the role takes what is registered at run time; and
    each has a definition that is declared open, or wants approval and was approved
    for the task, or puts neither the host nor the operator's identity at risk and
    was registered at run time. *)
Theorem mounts_gated h roleID add allow h' bs :
  ResolveFinalMCPs env h roleID add allow false = (h', Ok bs) →
  ∃ role, role_at h roleID = Some role ∧
    ∀ b, b ∈ bs →
      (MCPBinding.MCPID b ∈ bound_ids role ∨ MCPBinding.MCPID b ∈ add ∨
       (SpawnRole.AllowDynamicMCPs role = true ∧ is_Some (ContextHub.DynamicMCPs h' !! MCPBinding.MCPID b))) ∧
      ∃ d, GetMCP h' (MCPBinding.MCPID b) = Some d ∧ sanctioned h' (MCPBinding.MCPID b) d.
Proof.
  intros H. apply resolution_ok in H as (role & Hr & J & _ & ->). exists role. split; [done|]. intros b Hb.
  unfold dropServerRiskyAutoAttached in Hb. apply list_elem_of_In, filter_In in Hb as [Hb Hi]. apply list_elem_of_In in Hb.
  apply resolved_binding in Hb. destruct (effective_keyed h' role ((λ id, MCPBinding.mk id (asked_tools h' allow id) []) <$> add)) as [_ D].
  specialize (D _ (mk_is_Some _ _ Hb)). clear Hb. unfold inherited, mem in Hi. revert D Hi. generalize (MCPBinding.MCPID b) as id. intros id D Hi.
  rewrite <- list_fmap_compose in D. unfold compose in D. cbn in D. rewrite list_fmap_id in D. fold (bound_ids role) in D.
  split; [tauto|]. destruct (decide (id ∈ gated role add)) as [Hg|Hg]; [by eapply judge_pass, J|].
  rewrite elem_of_gated in Hg. apply negb_true_iff in Hi.
  rewrite !bool_decide_eq_false_2 in Hi by tauto. rewrite !andb_true_l in Hi. unfold sanctioned.
  destruct (GetMCP h' id) as [d|]; [|done]. exists d. split; [done|].
  apply andb_false_iff in Hi as [Hi|Hi]; [|left; by apply negb_false_iff, String.eqb_eq in Hi].
  right. right. split; [done|]. rewrite elem_of_named in Hg. destruct (decide (id = "")); [by left|]. right. tauto.
Qed.

Lemma merge_extra_tools m b id tools :
  MCPBinding.AllowedTools b = tools → tools ≠ [] →
  MCPBinding.MCPID b = id →
  ∀ c, merge_extra m b !! id = Some c → MCPBinding.AllowedTools c = tools.
Proof.
  intros Ht Hn <- c. unfold merge_extra. destruct (m !! MCPBinding.MCPID b) as [cur|].
  - rewrite bool_decide_eq_false_2 by (by rewrite Ht). cbv zeta. rewrite lookup_insert_eq. intros [= <-]. by case_bool_decide.
  - rewrite lookup_insert_eq. by intros [= <-].
Qed.
Lemma merge_extra_other m b id : MCPBinding.MCPID b ≠ id → merge_extra m b !! id = m !! id.
Proof.
  intros Hne. unfold merge_extra. destruct (m !! MCPBinding.MCPID b); [case_bool_decide; [done|]|]; cbv zeta; by rewrite lookup_insert_ne.
Qed.
Lemma merge_extras_tools (asked : string → list string) id ids : asked id ≠ [] →
  ∀ m, (id ∈ ids ∨ ∀ c, m !! id = Some c → MCPBinding.AllowedTools c = asked id) →
  ∀ c, fold_left merge_extra ((λ i, MCPBinding.mk i (asked i) []) <$> ids) m !! id = Some c → MCPBinding.AllowedTools c = asked id.
Proof.
  intros Hn. induction ids as [|i ids IH]; intros m Hm; cbn [fmap list_fmap fold_left].
  - destruct Hm as [Hm|Hm]; [by apply not_elem_of_nil in Hm|done].
  - apply IH. destruct (decide (i = id)) as [->|Hne].
    + right. by apply (merge_extra_tools m (MCPBinding.mk id (asked id) []) id).
    + rewrite (merge_extra_other m (MCPBinding.mk i (asked i) []) id Hne). destruct Hm as [[->|Hm]%elem_of_cons|Hm]; [done|by left|by right].
Qed.
(** A server that is named with tools gets those of them it is known to have: at
    least one, and no others. *)
Theorem tools_as_asked h roleID add allow h' bs b :
  ResolveFinalMCPs env h roleID add allow false = (h', Ok bs) → b ∈ bs → MCPBinding.MCPID b ∈ add →
  default [] (allow !! MCPBinding.MCPID b) ≠ [] →
  MCPBinding.AllowedTools b = asked_tools h' allow (MCPBinding.MCPID b) ∧ MCPBinding.AllowedTools b ≠ [] ∧
  MCPBinding.AllowedTools b ⊆ default [] (allow !! MCPBinding.MCPID b).
Proof.
  intros H Hb Ha Hn. apply resolution_ok in H as (role & _ & _ & A & ->). specialize (A _ Ha Hn).
  unfold dropServerRiskyAutoAttached in Hb. apply list_elem_of_In, filter_In in Hb as [Hb _]. apply list_elem_of_In, resolved_binding in Hb.
  unfold effective in Hb. apply (merge_extras_tools (asked_tools h' allow)) in Hb; [|done|by left]. rewrite Hb.
  split; [done|]. split; [done|]. unfold asked_tools. destruct (_ || _); [done|]. intros t Ht. by apply elem_of_filter_list in Ht as [_ Ht].
Qed.

(** ** Asking once

    The callback is documented to return the definition of the id it is asked for. *)

Definition well_named (h : ContextHub.t) : Prop :=
  ∀ f id m, ContextHub.OnUnknownMCP h = Some f → f id = Some m → Server.ID m = id.
Definition prepared (h : ContextHub.t) (add : list string) : ContextHub.t :=
  fold_left (λ h id, if String.eqb id "" then h else supply h id) add h.
(** Asking for the id again changes nothing. *)
Definition settled (h : ContextHub.t) (id : string) : Prop :=
  is_Some (GetMCP h id) ∨ ∀ f, ContextHub.OnUnknownMCP h = Some f → f id = None.
Lemma supply_same h id : ContextHub.OnUnknownMCP (supply h id) = ContextHub.OnUnknownMCP h ∧ ∀ r, role_at (supply h id) r = role_at h r.
Proof.
  unfold supply. destruct (GetMCP h id), (ContextHub.OnUnknownMCP h) as [f|] eqn:F; try done. destruct (f id); [|done].
  split; [done|]. intros r. unfold role_at, GetRole, RegisterDynamicMCP. cbn. by repeat case_match.
Qed.
Lemma supply_keeps h id i : settled h i → settled (supply h id) i.
Proof.
  unfold settled. intros [H|H]; [left|right; by destruct (supply_same h id) as [-> _]].
  unfold supply. destruct (GetMCP h id), (ContextHub.OnUnknownMCP h) as [f|]; try done. destruct (f id) as [m|]; [|done].
  unfold GetMCP, RegisterDynamicMCP in *. cbn. destruct (decide (Server.ID m = i)) as [->|Hne]; [by rewrite lookup_insert_eq|by rewrite lookup_insert_ne].
Qed.
Lemma supply_settles h id : well_named h → settled (supply h id) id.
Proof.
  intros W. unfold settled, supply. destruct (GetMCP h id) as [m|] eqn:G; [left; by rewrite G|].
  destruct (ContextHub.OnUnknownMCP h) as [f|] eqn:F; [|right; by rewrite F]. destruct (f id) as [m|] eqn:M.
  - left. unfold GetMCP, RegisterDynamicMCP. cbn. rewrite (W f id m F M), lookup_insert_eq. done.
  - right. rewrite F. by intros f' [= <-].
Qed.
Lemma settled_supply h id : settled h id → supply h id = h.
Proof.
  intros [H|H]; [by apply supply_known|]. unfold supply. destruct (GetMCP h id); [done|].
  destruct (ContextHub.OnUnknownMCP h) as [f|]; [|done]. by rewrite (H f).
Qed.
Lemma prepared_settles add : ∀ h, well_named h →
  (∀ r, role_at (prepared h add) r = role_at h r) ∧
  ∀ id, (id ∈ add ∧ id ≠ "") ∨ settled h id → settled (prepared h add) id.
Proof.
  unfold prepared. induction add as [|i l IH]; intros h W; cbn [fold_left].
  - split; [done|]. intros id [[H _]|H]; [by apply not_elem_of_nil in H|done].
  - destruct (String.eqb_spec i "") as [->|Hi].
    + destruct (IH h W) as [I1 I2]. split; [done|]. intros id H. apply I2. rewrite elem_of_cons in H. tauto.
    + destruct (supply_same h i) as [S1 S2]. destruct (IH (supply h i)) as [I1 I2]; [unfold well_named; by rewrite S1|].
      split; [intros r; by rewrite I1|]. intros id [[[->|H]%elem_of_cons Hn]|H]; apply I2; [right; by apply supply_settles|by left|].
      right. by apply supply_keeps.
Qed.
Lemma prepared_same add : ∀ h, (∀ id, id ∈ add → id ≠ "" → settled h id) → prepared h add = h.
Proof.
  unfold prepared. induction add as [|i l IH]; intros h H; cbn [fold_left]; [done|]. destruct (String.eqb_spec i "").
  - apply IH. intros id Hi. apply H. by right.
  - rewrite settled_supply by (apply H; [by left|done]). apply IH. intros id Hi. apply H. by right.
Qed.

Definition approve (needed : list string) (approver channel : string) (now : Z) (g : TaskGraph.t) (h : ContextHub.t) : ContextHub.t :=
  h <| ContextHub.Graph := Some (ApproveMCPMounts needed approver channel now g) |>.
Lemma approve_role h g needed a c now r : ContextHub.Graph h = Some g → role_at (approve needed a c now g h) r = role_at h r.
Proof. intros Hg. unfold role_at, GetRole, approve, GetSessionRole, ApproveMCPMounts. cbn. rewrite Hg. by repeat case_match. Qed.
Lemma approve_approves h g needed a c now id : ContextHub.Graph h = Some g → id ≠ "" →
  mcp_approved (approve needed a c now g h) id = bool_decide (id ∈ needed) || mcp_approved h id.
Proof.
  intros Hg Hn. unfold mcp_approved, approve, IsMCPMountApproved, ApproveMCPMounts. cbn. rewrite Hg, !decide_False by done. cbn.
  rewrite approve_mounts_lookup. case_decide as D; [by rewrite bool_decide_eq_true_2 by tauto|]. by rewrite bool_decide_eq_false_2 by tauto.
Qed.

(** A resolution that wants approval: where it stands. *)
Lemma resolution_asks h roleID add allow h1 needed :
  ResolveFinalMCPs env h roleID add allow false = (h1, Err (MountApprovalRequired roleID needed [])) →
  ∃ h0 role, hub_eq h h0 ∧ role_at h roleID = Some role ∧ h1 = prepared h0 add ∧ needed ≠ [] ∧
    (∀ id, id ∈ gated role add → verdict_of env h1 (callerSuppliedMCPs h1 (bound_ids role ++ add)) id ≠ Refused) ∧
    (∀ id, id ∈ gated role add → verdict_of env h1 (callerSuppliedMCPs h1 (bound_ids role ++ add)) id = NeedsApproval → id ∈ needed).
Proof.
  unfold ResolveFinalMCPs. destruct (GetRole env h roleID) as [h0 o] eqn:E. apply GetRole_step in E as [He Ho]. destruct o as [role|]; [|done].
  fold (bound_ids role). fold (named_ids role). unfold prepareCallerSuppliedMCPs. cbv zeta. fold (prepared h0 add). set (h2 := prepared h0 add).
  set (sup := callerSuppliedMCPs h2 _). destruct (resolveMountPolicyGate env h2 role roleID add (named_ids role) false sup) as [[|x l]|e] eqn:G.
  - rewrite gate_pass in G. assert (∀ id, id ∈ add → is_Some (GetMCP h2 id)) as Hk.
    { intros id Hid. apply (judge_known h2 sup). rewrite G; [done|]. apply elem_of_gated. by right. }
    destruct (bind_extras_known h2 roleID false allow add Hk) as [_ B]. destruct (bind_extras h2 roleID false allow add) as [h3 [bs|e]]; [done|].
    cbn [snd] in B. destruct B as [id ->]. done.
  - intros [= <- <-]. exists h0, role. split; [done|]. split; [done|]. split; [reflexivity|]. split; [discriminate|]. rewrite mount_gate_exact in G.
    destruct (List.find _ _) eqn:F in G; [done|]. injection G as G. rewrite <- G. split; intros id Hid.
    + intros J. pose proof (find_none _ _ F id) as F'. rewrite <- list_elem_of_In in F'. specialize (F' Hid). cbv beta in F'. fold sup in J. by rewrite J in F'.
    + intros J. apply elem_of_filter_list. fold sup in J. by rewrite J.
  - rewrite mount_gate_exact in G. destruct (List.find _ _) eqn:F in G; [|done]. injection G as <-. by destruct (mem _ _).
Qed.

(** C21: asking once is enough: when a resolution stops because servers want
    approval, then once the ids it names are approved on the task's graph the same
    resolution never stops for approval again. *)
Theorem approval_clears h roleID add allow h1 needed g approver channel now :
  well_named h → GetMCP h1 "" = None → ContextHub.Graph h1 = Some g →
  ResolveFinalMCPs env h roleID add allow false = (h1, Err (MountApprovalRequired roleID needed [])) →
  needed ≠ [] ∧ ∀ r m s, (ResolveFinalMCPs env (approve needed approver channel now g h1) roleID add allow false).2 ≠ Err (MountApprovalRequired r m s).
Proof.
  intros W Hemp Hg H. apply resolution_asks in H as (h0 & role & He & Hr & Hp & Hn & J1 & J2). split; [done|]. intros r m s.
  assert (well_named h0) as W0 by (unfold well_named; by rewrite (eq_OnUnknownMCP _ _ He)).
  destruct (prepared_settles add h0 W0) as [P1 P2]. rewrite <- Hp in P1, P2. set (h2 := approve needed approver channel now g h1).
  unfold ResolveFinalMCPs. destruct (GetRole env h2 roleID) as [hb o] eqn:E. apply GetRole_step in E as [Hb Ho].
  assert (o = Some role) as -> by (rewrite <- Ho; unfold h2; rewrite approve_role, P1, <- He by done; done). clear Ho.
  fold (bound_ids role). fold (named_ids role). unfold prepareCallerSuppliedMCPs. cbv zeta. fold (prepared hb add).
  assert (∀ id, GetMCP hb id = GetMCP h1 id) as M by (intros id; by rewrite <- Hb).
  rewrite (prepared_same add hb).
  2:{ intros id Hid Hne. destruct (P2 id) as [S|S]; [by left|left; by rewrite M|right; by rewrite (eq_OnUnknownMCP _ _ Hb)]. }
  assert (callerSuppliedMCPs hb (bound_ids role ++ add) = callerSuppliedMCPs h1 (bound_ids role ++ add)) as -> by (unfold callerSuppliedMCPs; by rewrite (eq_DynamicMCPs _ _ Hb)).
  set (sup := callerSuppliedMCPs h1 _). fold sup in J1, J2.
  assert (∀ id, id ∈ gated role add → verdict_of env hb sup id = Pass) as P.
  { intros id Hid. specialize (J1 id Hid). specialize (J2 id Hid). assert (id ≠ "") as Hne.
    { intros ->. destruct (judge_known h1 sup "" J1) as [d D]. by rewrite Hemp in D. }
    unfold verdict_of, tenantSelfServiceOK in *. rewrite M, <- Hb. unfold h2. rewrite approve_approves by done.
    destruct (String.eqb _ "open"); [done|]. destruct (String.eqb _ "approval"); [|by destruct (_ && _)].
    destruct (mcp_approved h1 id); [by rewrite orb_true_r|]. by rewrite bool_decide_eq_true_2 by (by apply J2). }
  apply (gate_pass hb role roleID) in P. rewrite P. rewrite gate_pass in P.
  assert (∀ id, id ∈ add → is_Some (GetMCP hb id)) as Hk.
  { intros id Hid. apply (judge_known hb sup). rewrite P; [done|]. apply elem_of_gated. by right. }
  destruct (bind_extras_known hb roleID false allow add Hk) as [_ B]. destruct (bind_extras hb roleID false allow add) as [h3 [bs|e]]; [done|].
  cbn [snd] in B. by destruct B as [id ->].
Qed.
End answers.

(** ** The best match does not depend on the order of a map

    -- unless two skills match the text exactly. *)

Section best.
Context (env : HubEnv.t) (desc : gset string).
Definition contends (s : HubSkill.t) : Prop := minRequired desc <= skillCapabilityScore env desc s.
Definition beats (a b : HubSkill.t) : Prop :=
  skillCapabilityScore env desc b < skillCapabilityScore env desc a ∨
  (skillCapabilityScore env desc a = skillCapabilityScore env desc b ∧ str_le (HubSkill.ID a) (HubSkill.ID b) ∧ HubSkill.ID a ≠ HubSkill.ID b).
Lemma ltb_str_le a b : String.ltb a b = true ↔ str_le a b ∧ a ≠ b.
Proof.
  unfold str_le, String.ltb, String.leb. destruct (String.compare a b) eqn:E.
  - split; [done|]. intros [_ H]. by destruct H; apply String.compare_eq_iff.
  - split; [|done]. intros _. split; [done|]. intros ->. pose proof (String.compare_antisym b b) as H. by rewrite E in H.
  - split; [done|]. by intros [].
Qed.
Lemma beats_trans a b c : beats a b → beats b c → beats a c.
Proof.
  unfold beats. intros [H1|(H1 & L1 & N1)] [H2|(H2 & L2 & N2)]; [left; lia..|]. right. split; [lia|]. split; [by etransitivity|].
  intros E. apply N2. rewrite E in L1. by apply (anti_symm str_le).
Qed.
Lemma beats_asym a b : beats a b → ¬ beats b a.
Proof. intros H1 H2. pose proof (beats_trans _ _ _ H1 H2) as [H|(_ & _ & H)]; [lia|done]. Qed.
Lemma beats_total a b : HubSkill.ID a ≠ HubSkill.ID b → beats a b ∨ beats b a.
Proof.
  intros Hne. unfold beats. destruct (Z.lt_trichotomy (skillCapabilityScore env desc a) (skillCapabilityScore env desc b)) as [H|[H|H]];
    [by right; left| |by left; left]. destruct (total str_le (HubSkill.ID a) (HubSkill.ID b)); [left|right]; right; done.
Qed.
Definition winner_of (l : list HubSkill.t) (o : option HubSkill.t) : Prop :=
  match o with
  | None => ∀ s, s ∈ l → ¬ contends s
  | Some w => w ∈ l ∧ contends w ∧ ∀ s, s ∈ l → contends s → s = w ∨ beats w s
  end.
Lemma contend_winner l o s :
  winner_of l o → HubSkill.ID s ∉ HubSkill.ID <$> l → winner_of (l ++ [s]) (contend env desc o s).
Proof.
  intros W Hs. unfold contend. cbv zeta. destruct (Z.ltb_spec (skillCapabilityScore env desc s) (minRequired desc)) as [Hl|Hl].
  - unfold winner_of in *. destruct o as [w|].
    + destruct W as (W1 & W2 & W3). split; [rewrite elem_of_app; by left|]. split; [done|].
      intros t [Ht| ->%list_elem_of_singleton]%elem_of_app He; [by apply W3|]. unfold contends in He. lia.
    + intros t [Ht| ->%list_elem_of_singleton]%elem_of_app; [by apply W|]. unfold contends. lia.
  - destruct o as [w|]; cbn [winner_of] in *.
    + destruct W as (W1 & W2 & W3).
      assert (HubSkill.ID s ≠ HubSkill.ID w) as Hne by (intros E; apply Hs; rewrite E; by apply list_elem_of_fmap_2).
      assert (better (skillCapabilityScore env desc) (Some w) s = true ↔ beats s w) as B.
      { unfold better, beats. rewrite orb_true_iff, andb_true_iff, Z.ltb_lt, Z.eqb_eq, ltb_str_le. done. }
      destruct (better _ _ _).
      * assert (beats s w) as Hb by (by apply B). cbn. split; [rewrite elem_of_app; right; by left|]. split; [done|].
        intros t [Ht| ->%list_elem_of_singleton]%elem_of_app He; [right|by left]. destruct (W3 t Ht He) as [->|H]; [done|by eapply beats_trans].
      * cbn. split; [rewrite elem_of_app; by left|]. split; [done|].
        intros t [Ht| ->%list_elem_of_singleton]%elem_of_app He; [by apply W3|]. right. destruct (beats_total s w Hne) as [X|X]; [|done]. by apply B in X.
    + cbn. split; [rewrite elem_of_app; right; by left|]. split; [done|]. intros t [Ht| ->%list_elem_of_singleton]%elem_of_app He; [by apply W in Ht|by left].
Qed.
Lemma fold_winner l : ∀ l0 o, winner_of l0 o → NoDup (HubSkill.ID <$> l0 ++ l) → winner_of (l0 ++ l) (fold_left (contend env desc) l o).
Proof.
  induction l as [|s l IH]; intros l0 o W N; cbn [fold_left]; [by rewrite app_nil_r|].
  replace (l0 ++ s :: l) with ((l0 ++ [s]) ++ l) in * by (by rewrite <- app_assoc). apply IH; [|done]. apply contend_winner; [done|].
  rewrite !fmap_app in N. apply NoDup_app in N as (N & _ & _). apply NoDup_app in N as (_ & N & _). intros H. apply (N _ H). by left.
Qed.
Lemma winner_unique l1 l2 o1 o2 : l1 ≡ₚ l2 → winner_of l1 o1 → winner_of l2 o2 → o1 = o2.
Proof.
  intros P. unfold winner_of. destruct o1 as [a|], o2 as [b|]; [| | |done].
  - intros (A1 & A2 & A3) (B1 & B2 & B3). f_equal. rewrite P in A1. rewrite <- P in B1.
    destruct (A3 b B1 B2) as [->|X]; [done|]. destruct (B3 a A1 A2) as [->|Y]; [done|]. by apply beats_asym in X.
  - intros (A1 & A2 & _) H. rewrite P in A1. by apply H in A1.
  - intros H (B1 & B2 & _). rewrite <- P in B1. by apply H in B1.
Qed.
End best.
(** Over candidates with different ids, at most one of which matches exactly, the
    best match is the same in whatever order they are looked at. *)
Theorem best_match_order env desc l1 l2 :
  l1 ≡ₚ l2 → NoDup (HubSkill.ID <$> l1) →
  (∀ a b, a ∈ l1 → b ∈ l1 → exactMatch desc a = true → exactMatch desc b = true → a = b) →
  best_match env desc l1 = best_match env desc l2.
Proof.
  intros P N U. unfold best_match. destruct (List.find (exactMatch desc) l1) as [a|] eqn:F1, (List.find (exactMatch desc) l2) as [b|] eqn:F2.
  - apply find_some in F1 as [A1 A2], F2 as [B1 B2]. rewrite <- list_elem_of_In in A1, B1. rewrite <- P in B1. f_equal. by apply U.
  - apply find_some in F1 as [A1 A2]. rewrite <- list_elem_of_In, P, list_elem_of_In in A1. by rewrite (find_none _ _ F2 a A1) in A2.
  - apply find_some in F2 as [A1 A2]. rewrite <- list_elem_of_In, <- P, list_elem_of_In in A1. by rewrite (find_none _ _ F1 b A1) in A2.
  - assert (∀ l, NoDup (HubSkill.ID <$> l) → winner_of env (tokenizeCapabilityText env desc) l (fold_left (contend env (tokenizeCapabilityText env desc)) l None)) as W.
    { intros l Hl. apply (fold_winner env _ l []); [|done]. intros s Hs. by apply not_elem_of_nil in Hs. }
    eapply winner_unique; [exact P|by apply W|]. apply W. by rewrite <- P.
Qed.

(** ** Examples *)

(** Roles and skills as dynamic values, one way to read them back. *)
Definition binding_any (b : MCPBinding.t) : any :=
  AList [AString (MCPBinding.MCPID b); AStrings (MCPBinding.AllowedTools b); AStrings (MCPBinding.AlwaysInclude b)].
Definition any_binding (v : any) : option MCPBinding.t :=
  match v with AList [AString id; AStrings tools; AStrings always] => Some (MCPBinding.mk id tools always) | _ => None end.
Definition ex_role_any (r : SpawnRole.t) : any :=
  AList [AString (SpawnRole.BaseCapability r); AStrings (SpawnRole.BoundSkills r); AList (binding_any <$> SpawnRole.BoundMCPBindings r);
         ABool (SpawnRole.AllowDynamicSkills r); AInt (SpawnRole.MaxAdditionalSkills r); ABool (SpawnRole.AllowDynamicMCPs r)].
Definition ex_as_role (v : any) : option SpawnRole.t :=
  match v with
  | AList [AString c; AStrings skills; AList bs; ABool d; AInt n; ABool m] =>
      bs ← mapM any_binding bs; Some (SpawnRole.mk c skills bs d n m)
  | _ => None
  end.
Definition ex_skill_any (s : HubSkill.t) : any :=
  let d := HubSkill.declared s in
  AList [AStrings [Registry.Skill.ID d; Registry.Skill.ExecutionMode d; Registry.Skill.PromptsDir d; Registry.Skill.SkillDir d; Registry.Skill.MountPolicy d];
         AString (HubSkill.Capability s); AStrings (HubSkill.Requires s); AStrings (HubSkill.Incompatible s)].
Definition ex_as_skill (v : any) : option HubSkill.t :=
  match v with
  | AList [AStrings [id; mode; prompts; dir; policy]; AString c; AStrings req; AStrings inc] =>
      Some (HubSkill.mk (Registry.Skill.mk id mode prompts dir policy) c req inc)
  | _ => None
  end.
(** Linux; [names] is the order of the registry's skills; the host of a URL is what
    stands between the slashes. *)
Definition ex_env (names : list string) : HubEnv.t :=
  HubEnv.mk "linux" (λ u, nth_error (split_on "/" u) 2) (λ _, false) ex_as_role (λ _, None) ex_role_any ex_as_skill (λ _, None) ex_skill_any
    (λ _ m, (map_to_list m).*1) (λ _ _, names) (λ _ m, (map_to_list m).*1) (λ m, (map_to_list m).*1).
#[export] Instance ex_laws names : HubLaws (ex_env names).
Proof.
  split.
  - intros [c sk bs d n m]. cbn. assert (mapM any_binding (binding_any <$> bs) = Some bs) as ->; [|done].
    apply mapM_Some_2. induction bs as [|[] bs IH]; cbn; by constructor.
  - by intros [[] c req inc].
Qed.
Definition ex_def (policy : string) (tools : list string) : Registry.MCPDef.t := Registry.MCPDef.mk policy tools [] "" "" "".
Definition ex_server (id policy url command : string) (tools : list string) : Server.t :=
  Server.mk id url command ∅ false (ex_def policy tools).
Definition ex_skill (id capability policy : string) : HubSkill.t :=
  HubSkill.mk (Registry.Skill.mk id "" "" "" policy) capability [] [].
Definition ex_hub : ContextHub.t :=
  ContextHub.mk (Some zeroGraph)
    {["agent" := SpawnRole.mk "work" [] [MCPBinding.mk "app" ["read"] []] true 2 false;
      "free" := SpawnRole.mk "work" [] [] false 0 true;
      "mailer" := SpawnRole.mk "work" ["skill_mail"] [MCPBinding.mk "mail" [] []] false 0 false]}
    {["skill_vault" := ex_skill "skill_vault" "read vault secrets" "admin_only"; "skill_mail" := ex_skill "skill_mail" "send mail" "";
      "skill_a" := ex_skill "skill_a" "sum numbers" ""; "skill_b" := ex_skill "skill_b" "sum numbers" ""]}
    {["app" := ex_server "app" "open" "" "" ["read"; "write"]; "mail" := ex_server "mail" "approval" "" "" [];
      "shell" := ex_server "shell" "" "" "bash" []]}
    {["own" := ex_server "own" "admin_only" "https://api.example.com/x" "" []; "lan" := ex_server "lan" "" "http://192.168.1.7/x" "" [];
      "asked" := ex_server "asked" "approval" "" "" []; "tool" := ex_server "tool" "open" "" "node" []]}
    None None.

(** A skill for admins only is refused by its name, and granted by its description. *)
Example text_grants_admin_skill :
  (ResolveFinalSkills (ex_env ["skill_vault"; "skill_mail"]) ex_hub "agent" ["skill_vault"] false).2 = Err (SkillAdminOnly "skill_vault" "agent") ∧
  (ResolveFinalSkills (ex_env ["skill_vault"; "skill_mail"]) ex_hub "agent" ["read the vault secrets"] false).2 = Ok ["skill_vault"].
Proof. split; vm_compute; reflexivity. Qed.
(** Two skills of the same capability: which is taken depends on the order. *)
Example exact_match_by_order :
  HubSkill.ID <$> FindSkillByCapability (ex_env ["skill_a"; "skill_b"]) ex_hub "sum numbers" = Some "skill_a" ∧
  HubSkill.ID <$> FindSkillByCapability (ex_env ["skill_b"; "skill_a"]) ex_hub "sum numbers" = Some "skill_b".
Proof. split; vm_compute; reflexivity. Qed.
(** A bound server is named with a tool the role's binding does not allow. *)
Example binding_widened :
  (ResolveFinalMCPs (ex_env []) ex_hub "agent" ["app"] {["app" := ["write"]]} false).2 = Ok [MCPBinding.mk "app" ["write"] []].
Proof. vm_compute. reflexivity. Qed.
(** Registered at run time: declared for admins only, or wanting approval, and used
    all the same; a launcher that calls itself open; an address of the network is refused. *)
Example registered_anyway :
  (ResolveFinalMCPs (ex_env []) ex_hub "mailer2" [] ∅ false).2 = Err (NoSuchRole "mailer2") ∧
  (ResolveFinalMCPs (ex_env []) ex_hub "free" [] ∅ false).2 = Ok [MCPBinding.mk "own" [] []; MCPBinding.mk "asked" [] []; MCPBinding.mk "tool" [] []] ∧
  (ResolveFinalMCPs (ex_env []) ex_hub "free" ["lan"] ∅ false).2 = Err (MountNeedsAdmin "free" "lan") ∧
  (ResolveFinalMCPs (ex_env []) ex_hub "free" ["asked"] ∅ false).2 = Err (MountApprovalRequired "free" ["asked"] []) ∧
  (ResolveFinalMCPs (ex_env []) ex_hub "free" ["shell"] ∅ false).2 = Err (MountNeedsAdmin "free" "shell").
Proof.
  split_and!; vm_compute; reflexivity.
Qed.

Lemma skills_granted_witness :
  ∃ role, role_at (ex_env ["skill_vault"; "skill_mail"]) ex_hub "agent" = Some role ∧
    (["send mail"; "skill_a"] ≠ [] → SpawnRole.AllowDynamicSkills role = true) ∧
    Z.of_nat (length ["send mail"; "skill_a"]) <= SpawnRole.MaxAdditionalSkills role ∧
    combinable (ex_env ["skill_vault"; "skill_mail"]) ex_hub ["skill_mail"; "skill_a"] ∧
    ∀ sid, sid ∈ ["skill_mail"; "skill_a"] →
      (sid ∈ SpawnRole.BoundSkills role ++ ["send mail"; "skill_a"] ∧
       ∃ s, skill_at (ex_env ["skill_vault"; "skill_mail"]) ex_hub sid = Some s ∧
         (skill_policy s = "open" ∨ (skill_policy s = "approval" ∧ skill_approved ex_hub sid = true)))
      ∨ (SpawnRole.AllowDynamicSkills role = true ∧
         matched (ex_env ["skill_vault"; "skill_mail"]) ex_hub (SpawnRole.BoundSkills role ++ ["send mail"; "skill_a"]) sid).
Proof.
  apply (skills_granted (ex_env ["skill_vault"; "skill_mail"]) ex_hub "agent" ["send mail"; "skill_a"] ex_hub).
  vm_compute. reflexivity.
Defined.
Lemma mounts_gated_witness :
  ∃ role, role_at (ex_env []) ex_hub "agent" = Some role ∧
    ∀ b, b ∈ [MCPBinding.mk "own" [] []; MCPBinding.mk "app" ["read"] []] →
      (MCPBinding.MCPID b ∈ bound_ids role ∨ MCPBinding.MCPID b ∈ ["own"] ∨
       (SpawnRole.AllowDynamicMCPs role = true ∧ is_Some (ContextHub.DynamicMCPs ex_hub !! MCPBinding.MCPID b))) ∧
      ∃ d, GetMCP ex_hub (MCPBinding.MCPID b) = Some d ∧ sanctioned (ex_env []) ex_hub (MCPBinding.MCPID b) d.
Proof. apply (mounts_gated (ex_env []) ex_hub "agent" ["own"] ∅ ex_hub). vm_compute. reflexivity. Defined.
Lemma approval_clears_witness :
  ["mail"] ≠ [] ∧ ∀ r m s,
    (ResolveFinalMCPs (ex_env []) (approve ["mail"] "ann" "web" 5 zeroGraph ex_hub) "mailer" [] ∅ false).2 ≠ Err (MountApprovalRequired r m s).
Proof.
  apply (approval_clears (ex_env []) ex_hub "mailer" [] ∅ ex_hub ["mail"] zeroGraph "ann" "web" 5).
  - by intros f id m.
  - vm_compute. reflexivity.
  - reflexivity.
  - vm_compute. reflexivity.
Defined.
