(* ===== verification/Fulfil.v ===== *)
(** * Answering a delegated step (core/scheduler_status.go,
    core/scheduler_delegation_wait.go, core/delegation_answer_timeout.go,
    core/stale_decision_report.go)

    In delegation mode the host executes a step, or plans the task, and hands
    the answer back: [FulfillStep].  It works in two critical sections with a
    write to the task store between them ([fulfil_begin], [fulfil_end]), so
    other calls may come in between; the success pipeline that follows the
    second section is part of it here.  [ApprovePlan] releases a reviewed plan.
    [FirstDelegations] and the staleness reports only read. *)
From S2P Require Import Prelude Cron TaskStatus Schema FailureClass PlanDAG Output DecisionGate Surgery DecisionAnswer OutputHandlers Verify Registry Planning Admission Scheduler StepExec Submit.
From Stdlib Require Import SpecFloat.
Local Open Scope Z_scope.

Inductive FulfilError :=
| FTaskNotFound (taskID : string) | FDecisionNotFound (decisionID : string)
| FMisrouted (decisionID : string) (t : DecisionType) | FStepNotFound (stepID : string)
| FPlanUnparsed (e : PlanParseError) | FPlanEmpty | FPlanSurgery (cause : string)
| FNotJSON | FStoreFailed (cause : string) | FTaskGone | FDecisionRemoved (decisionID : string) | FStepGone (stepID : string)
| FNotPendingReview (taskID : string) (status : GraphStatus).

Record FulfilEnv := mkFulfilEnv {
  fu_answer : AnswerEnv; fu_plan : PlanEnv; fu_decode : DecodeEnv; fu_out : OutEnv; fu_ord : list string; fu_now : Z
}.

(** What the task store keeps of a step: the fields a delivery sets. *)
Module StepResult.
Record t := mk {
  Data : option (gmap string any); Confidence : float64; MissingContext : list string; Capability : string;
  Attachments : list Attachment.t; CreatedAt : Z
}.
End StepResult.
Definition TaskStore : Type := gmap (string * string) StepResult.t.

Section fulfil.
Context (env : FulfilEnv).

Definition remove_at {A} (i : nat) (l : list A) : list A := take i l ++ drop (S i) l.
Definition clear_decision (i : nat) (g : TaskGraph.t) : TaskGraph.t := g <| TaskGraph.PendingDecisions ::= remove_at i |>.
Definition no_options : PlanParseOptions := mkOptions ∅ ∅ "" 0 0.

(** A plan of the host replaces the step that asked for it. *)
Definition fulfil_plan (taskID outputJSON : string) (dec : Decision.t) (i : nat) (g : TaskGraph.t) (e : Engine)
    : Engine * option FulfilError :=
  match ParsePlanDAG (fu_plan env) no_options outputJSON with
  | Err err => (e, Some (FPlanUnparsed err))
  | Ok [] => (e, Some FPlanEmpty)
  | Ok planned =>
      match mutateGraphTopologyLocked g (fu_ord env) (fu_now env) (mkSurgery (Decision.StepID dec) planned) with
      | (g, Some err) => (store_graph taskID g e, Some (FPlanSurgery err))
      | (g, None) =>
          let g := clear_decision i g <| TaskGraph.IsSmartRouted := false |> <| TaskGraph.Status := GraphRunning |> in
          (emits [OPersist g; OStartExecutor (TaskGraph.TaskID g)] (store_graph taskID g e), None)
      end
  end.

(** The first critical section: done already, or an output to be stored. *)
Definition fulfil_begin (taskID decisionID outputJSON : string) (e : Engine)
    : Engine * (option FulfilError + string * SubagentOutput.t) :=
  match getOrReloadGraphLocked (fu_answer env) taskID e with
  | (e, None) => (e, inl (Some (FTaskNotFound taskID)))
  | (e, Some g) =>
      match findPendingDecisionLocked g decisionID with
      | None => (e, inl (Some (FDecisionNotFound decisionID)))
      | Some (dec, i) =>
          if bool_decide (Decision.Type_ dec = DecisionDelegationRequired) then
            match get_step g (Decision.StepID dec) with
            | None => (e, inl (Some (FStepNotFound (Decision.StepID dec))))
            | Some step =>
                if String.eqb (context_string dec "kind") DelegationKindPlan then
                  let '(e, r) := fulfil_plan taskID outputJSON dec i g e in (e, inl r)
                else
                  let output := ParseOutput (fu_decode env) outputJSON (Step.RoleID step) in
                  if bool_decide (SubagentOutput.Status output = StatusFailed) then (e, inl (Some FNotJSON))
                  else (e, inr (Step.ID step, output))
            end
          else (e, inl (Some (FMisrouted decisionID (Decision.Type_ dec))))
      end
  end.

(** What the success pipeline receives. *)
Definition fulfilled_result (taskID stepID : string) (output : SubagentOutput.t) : SpawnResult.t :=
  SpawnResult.mk
    (SubagentOutput.mk StatusOK (SubagentOutput.Confidence output) (SubagentOutput.Result output)
       (SubagentOutput.MissingContext output) [] [] [] (SubagentOutput.Capability output) None []
       (SubagentOutput.Attachments output) [] [] 0)
    (taskID +:+ ":" +:+ stepID)%string "" [].
(** The channels of the waiters: closed when a smart-routed task is done,
    otherwise a fresh one. *)
Definition reopen_channel (taskID : string) (smart : bool) (e : Engine) : Engine :=
  if smart then e <| doneChans ::= λ m, match m !! taskID with Some _ => <[taskID := true]> m | None => m end |>
  else e <| doneChans ::= <[taskID := false]> |>.
(** The second critical section and the success pipeline. *)
Definition fulfil_end (taskID decisionID stepID : string) (output : SubagentOutput.t) (e : Engine) : Engine * option FulfilError :=
  match getOrReloadGraphLocked (fu_answer env) taskID e with
  | (e, None) => (e, Some FTaskGone)
  | (e, Some g) =>
      match findPendingDecisionLocked g decisionID with
      | None => (e, Some (FDecisionRemoved decisionID))
      | Some (dec, i) =>
          let sid := Decision.StepID dec in
          match get_step g sid with
          | None => (e, Some (FStepGone sid))
          | Some _ =>
              let g := upd_step sid (λ st, st <| Step.Confidence := Some (SubagentOutput.Confidence output) |>
                         <| Step.LastWorkedOn := fu_now env |> <| Step.Status := StepOK |> <| Step.LastError := "" |>) g in
              let g := clear_decision i g in
              let last := bool_decide (TaskGraph.PendingDecisions g = []) in
              let smart := TaskGraph.IsSmartRouted g in
              let g := if last && smart then g <| TaskGraph.Status := GraphCompleted |> else g in
              let e := if last then reopen_channel taskID smart e else e in
              let s := handleStepSuccess (fu_out env) sid (fulfilled_result taskID stepID output) (mkGate g ∅ []) in
              (emits (gs_out s ++ [OPersist (gs_graph s); OBroadcast]) (store_graph taskID (gs_graph s) e), None)
          end
      end
  end.
(** The write between the critical sections; [saved] is the task store's error. *)
Definition step_result (output : SubagentOutput.t) : StepResult.t :=
  StepResult.mk (SubagentOutput.Result output) (SubagentOutput.Confidence output) (SubagentOutput.MissingContext output)
    (SubagentOutput.Capability output) (SubagentOutput.Attachments output) (fu_now env).
Definition fulfil_save (saved : option string) (taskID stepID : string) (output : SubagentOutput.t) (store : TaskStore)
    : TaskStore * option FulfilError :=
  match saved with
  | Some err => (store, Some (FStoreFailed err))
  | None => (<[(taskID, stepID) := step_result output]> store, None)
  end.
(** [FulfillStep] without calls in between. *)
Definition FulfillStep (saved : option string) (taskID decisionID outputJSON : string) (e : Engine) (store : TaskStore)
    : Engine * TaskStore * option FulfilError :=
  match fulfil_begin taskID decisionID outputJSON e with
  | (e, inl r) => (e, store, r)
  | (e, inr (stepID, output)) =>
      match fulfil_save saved taskID stepID output store with
      | (store, Some err) => (e, store, Some err)
      | (store, None) => let '(e, r) := fulfil_end taskID decisionID stepID output e in (e, store, r)
      end
  end.
End fulfil.

(** [ApprovePlan]. *)
Definition ApprovePlan (taskID : string) (e : Engine) : Engine * option FulfilError :=
  match graphs e !! taskID with
  | None => (e, Some (FTaskNotFound taskID))
  | Some g =>
      if bool_decide (TaskGraph.Status g = GraphPendingReview) then
        let g := g <| TaskGraph.Status := GraphRunning |> in
        (emits [OPersist g; OBroadcast; OStartExecutor taskID]
           (store_graph taskID g e <| cancelFuncs ::= λ c, {[taskID]} ∪ c |>), None)
      else (e, Some (FNotPendingReview taskID (TaskGraph.Status g)))
  end.
Definition GetTaskOwner (taskID : string) (e : Engine) : string := from_option TaskGraph.OwnerID "" (graphs e !! taskID).

(** ** Waiting for a task *)

(** What the host is told of a delegation; the hints are left out. *)
Module DelegationView.
Record t := mk { StepID : string; DecisionID : string; Kind : string; Options : list string; Prompt : option any; RoleID : string }.
End DelegationView.
Definition as_map (o : option any) : option any := match o with Some (AMap m) => Some (AMap m) | _ => None end.
Definition delegation_view (dec : Decision.t) : option DelegationView.t :=
  if bool_decide (Decision.Type_ dec = DecisionDelegationRequired) then
    Some (DelegationView.mk (Decision.StepID dec) (Decision.ID dec) (context_string dec "kind") (Decision.Options dec)
            (as_map (Decision.Context dec !! "prompt")) (context_string dec "role_id"))
  else None.
Definition snapshotDelegationViews (taskID : string) (e : Engine) : list DelegationView.t :=
  match graphs e !! taskID with Some g => omap delegation_view (TaskGraph.PendingDecisions g) | None => [] end.
Definition isGraphTerminal (taskID : string) (e : Engine) : bool :=
  match graphs e !! taskID with Some g => IsTerminal g | None => false end.

(** One round of the polling loop: what it sees, and whether the context was
    cancelled before it or the deadline passed after it. *)
Record Poll := mkPoll { poll_engine : Engine; poll_cancelled : bool; poll_late : bool }.
Fixpoint FirstDelegations (taskID : string) (polls : list Poll) : option (list DelegationView.t) :=
  match polls with
  | [] => None
  | p :: polls' =>
      if poll_cancelled p then None
      else match snapshotDelegationViews taskID (poll_engine p) with
           | [] => if isGraphTerminal taskID (poll_engine p) || poll_late p then None else FirstDelegations taskID polls'
           | views => Some views
           end
  end.

(** [WaitTask]: the graph whose status is returned and whether it is marked as
    still running; [later] is how the wait ends, with the graph at that time. *)
Inductive Wake := WakeDone | WakeCancelled | WakeTimeout.
Definition settled_for_waiters (g : TaskGraph.t) : bool :=
  bool_decide (TaskGraph.Status g ∈ [GraphCompleted; GraphFailed; GraphBlocked])
  || negb (bool_decide (TaskGraph.PendingDecisions g = [])).
Definition WaitTask (taskID : string) (e : Engine) (later : Wake * TaskGraph.t) : option (TaskGraph.t * bool) :=
  match doneChans e !! taskID, graphs e !! taskID with
  | Some _, Some g =>
      if settled_for_waiters g then Some (g, false)
      else match later with
           | (WakeTimeout, g') =>
               Some (g', bool_decide (TaskGraph.Status g' = GraphRunning) && bool_decide (TaskGraph.PendingDecisions g' = []))
           | (_, g') => Some (g', false)
           end
  | _, _ => None
  end.
(** The wait blocks until something happens. *)
Definition blocks (taskID : string) (e : Engine) : bool :=
  match doneChans e !! taskID, graphs e !! taskID with
  | Some closed, Some g => negb (settled_for_waiters g) && negb closed
  | _, _ => false
  end.

(** ** Answers that do not come *)

(** A timeout in seconds, given or not; 0 switches the report off. *)
Definition answer_timeout (default : Z) (t : option Z) : Z :=
  match t with None => default | Some t => if t <=? 0 then 0 else wrap64 (t * Second) end.
Definition delegationAnswerTimeout : option Z → Z := answer_timeout (30 * 60 * Second).
Definition decisionStaleTimeout : option Z → Z := answer_timeout (24 * 3600 * Second).

(** [int(d.Seconds())]. *)
Definition whole_seconds (d : Z) : Z :=
  trunc_float (fadd (float_of_int (Z.quot d Second)) (fdiv (float_of_int (Z.rem d Second)) (float_of_int Second))).
(** [now.Sub(t)] stays within the range of a duration. *)
Definition time_sub (a b : Z) : Z := Z.max int64_min (Z.min int64_max (a - b)).

Module StaleDecision.
Record t := mk { DecisionID : string; StepID : string; WaitingSeconds : Z }.
End StaleDecision.
Definition stale_decision (type : DecisionType) (now timeout : Z) (dec : Decision.t) : option StaleDecision.t :=
  if negb (bool_decide (Decision.Type_ dec = type)) || (Decision.Created dec =? 0) then None
  else let waited := time_sub now (Decision.Created dec) in
       if waited <? timeout then None
       else Some (StaleDecision.mk (Decision.ID dec) (Decision.StepID dec) (whole_seconds waited)).
Definition stale_decisions (type : DecisionType) (now timeout : Z) (g : TaskGraph.t) : list StaleDecision.t :=
  if timeout <=? 0 then [] else omap (stale_decision type now timeout) (TaskGraph.PendingDecisions g).
Definition staleDelegationsLocked : Z → Z → TaskGraph.t → list StaleDecision.t := stale_decisions DecisionDelegationRequired.
Definition staleFailedDecisionsLocked : Z → Z → TaskGraph.t → list StaleDecision.t := stale_decisions DecisionStepFailed.
Definition oldestWaitSeconds (stale : list StaleDecision.t) : Z :=
  foldl (λ oldest d, if oldest <? StaleDecision.WaitingSeconds d then StaleDecision.WaitingSeconds d else oldest) 0 stale.
(** The oldest of a non-empty report. *)
Definition oldest_of (d : StaleDecision.t) (stale : list StaleDecision.t) : StaleDecision.t :=
  foldl (λ oldest d, if StaleDecision.WaitingSeconds oldest <? StaleDecision.WaitingSeconds d then d else oldest) d stale.

Definition delegationAnswerError (d : StaleDecision.t) (rest : list StaleDecision.t) (timeout : Z) : string :=
  let o := oldest_of d rest in
  let limit := pretty (whole_seconds timeout) in
  let lead :=
    match rest with
    | [] => "no answer for delegation " +:+ go_quote (StaleDecision.DecisionID o) +:+ " (step " +:+ go_quote (StaleDecision.StepID o)
              +:+ ") after " +:+ pretty (StaleDecision.WaitingSeconds o) +:+ "s, past the " +:+ limit +:+ "s limit"
    | _ => "no answer for " +:+ pretty (S (length rest)) +:+ " parked delegations, oldest " +:+ go_quote (StaleDecision.DecisionID o)
             +:+ " (step " +:+ go_quote (StaleDecision.StepID o) +:+ ") at " +:+ pretty (StaleDecision.WaitingSeconds o)
             +:+ "s, past the " +:+ limit +:+ "s limit"
    end%string in
  (lead +:+ ": the step is still parked and nothing has been forfeited -- this is a report, not an abort. "
    +:+ "Answer it with orchestrator_submit_decision (choice=fulfill plus the result payload, or skip|abort) "
    +:+ "or leave it parked; cancel_task destroys the envelope the host was given. "
    +:+ "Raise system.delegation_answer_timeout_seconds (now " +:+ limit +:+ "s) if that window is too tight.")%string.
Definition staleDecisionError (d : StaleDecision.t) (rest : list StaleDecision.t) (timeout : Z) : string :=
  let o := oldest_of d rest in
  let limit := pretty (whole_seconds timeout) in
  let lead :=
    match rest with
    | [] => "step " +:+ go_quote (StaleDecision.StepID o) +:+ " has waited " +:+ pretty (StaleDecision.WaitingSeconds o)
              +:+ "s for a decision on its failure (decision " +:+ go_quote (StaleDecision.DecisionID o) +:+ "), past the " +:+ limit +:+ "s limit"
    | _ => pretty (S (length rest)) +:+ " failed steps have waited for a decision, oldest " +:+ go_quote (StaleDecision.StepID o)
             +:+ " (decision " +:+ go_quote (StaleDecision.DecisionID o) +:+ ") at " +:+ pretty (StaleDecision.WaitingSeconds o)
             +:+ "s, past the " +:+ limit +:+ "s limit"
    end%string in
  (lead +:+ ": the step stays failed and its downstream stays blocked -- this is a report, not an abort, "
    +:+ "nothing has been forfeited. Answer it with orchestrator_submit_decision (retry|skip|abort) or leave it parked. "
    +:+ "Raise system.decision_stale_timeout_seconds (now " +:+ limit +:+ "s) if that window is too tight.")%string.

Definition stale_entry (d : StaleDecision.t) : any :=
  AMap [("decision_id", AString (StaleDecision.DecisionID d)); ("step_id", AString (StaleDecision.StepID d));
        ("waiting_seconds", AInt (StaleDecision.WaitingSeconds d))].
Definition stale_report (stale : list StaleDecision.t) (timeout : Z) (error : string) : any :=
  AMap [("stale", ABool true); ("timeout_seconds", AInt (whole_seconds timeout));
        ("oldest_wait_seconds", AInt (oldestWaitSeconds stale)); ("decisions", AList (stale_entry <$> stale));
        ("error", AString error)].
Definition attachDelegationWaitLocked (setting : option Z) (g : TaskGraph.t) (now : Z) (status : gmap string any) : gmap string any :=
  let timeout := delegationAnswerTimeout setting in
  match staleDelegationsLocked now timeout g with
  | [] => status
  | d :: rest =>
      <["next_action" := AString "submit_decision"]>
        (<["delegation_wait" := stale_report (d :: rest) timeout (delegationAnswerError d rest timeout)]> status)
  end.
Definition attachStaleDecisionReportLocked (setting : option Z) (g : TaskGraph.t) (now : Z) (status : gmap string any) : gmap string any :=
  let timeout := decisionStaleTimeout setting in
  match staleFailedDecisionsLocked now timeout g with
  | [] => status
  | d :: rest =>
      let status := <["stale_decisions" := stale_report (d :: rest) timeout (staleDecisionError d rest timeout)]> status in
      match status !! "next_action" with
      | Some _ => status
      | None => <["next_action" := AString "submit_decision"]> status
      end
  end.

(** ** What an answer leaves *)

Lemma find_decision_Some i l id dec j :
  find_decision i l id = Some (dec, j) → (i <= j)%nat ∧ l !! (j - i)%nat = Some dec ∧ Decision.ID dec = id ∧
    ∀ k d, (k < j - i)%nat → l !! k = Some d → Decision.ID d ≠ id.
Proof.
  revert i. induction l as [|d l IH]; intros i; cbn [find_decision]; [done|]. case_decide as E.
  - intros [= <- <-]. rewrite Nat.sub_diag. split_and!; [lia|done|done|lia].
  - intros (Hle & Hl & Hid & Hf)%IH. split_and!; [lia| |done|].
    + by replace (j - i)%nat with (S (j - S i)) by lia.
    + intros [|k] d' Hk Hd'; cbn in Hd'; [by injection Hd' as <-|]. apply (Hf k d'); [lia|done].
Qed.

Section answers.
Context (env : FulfilEnv).

(** A pending delegation of a task in memory. *)
Record delegated (e : Engine) (taskID decisionID : string) (g : TaskGraph.t) (dec : Decision.t) (i : nat) (st : Step.t) : Prop := mk_delegated {
  dl_graph : graphs e !! taskID = Some g;
  dl_decision : findPendingDecisionLocked g decisionID = Some (dec, i);
  dl_type : Decision.Type_ dec = DecisionDelegationRequired;
  dl_step : get_step g (Decision.StepID dec) = Some st
}.

(** The graph a delivered result leaves. *)
Record fulfilled (sid : string) (i : nat) (g g' : TaskGraph.t) : Prop := mk_fulfilled {
  ff_step : ∃ st', get_step g' sid = Some st' ∧ Step.Status st' = StepOK ∧ Step.LastError st' = "";
  ff_others : ∀ id, id ≠ sid → get_step g' id = get_step g id;
  ff_pending : TaskGraph.PendingDecisions g' = remove_at i (TaskGraph.PendingDecisions g);
  ff_status : TaskGraph.Status g' =
    if bool_decide (remove_at i (TaskGraph.PendingDecisions g) = []) && TaskGraph.IsSmartRouted g then GraphCompleted
    else TaskGraph.Status g
}.

Lemma fulfil_end_spec e taskID decisionID g dec i st stepID output :
  delegated e taskID decisionID g dec i st →
  ∃ e' g', fulfil_end env taskID decisionID stepID output e = (e', None) ∧ graphs e' = <[taskID := g']> (graphs e) ∧
    fulfilled (Decision.StepID dec) i g g' ∧
    doneChans e' !! taskID =
      (if bool_decide (remove_at i (TaskGraph.PendingDecisions g) = []) then
         if TaskGraph.IsSmartRouted g then (λ _, true) <$> doneChans e !! taskID else Some false
       else doneChans e !! taskID).
Proof.
  intros [Hg Hd Ht Hs]. unfold fulfil_end, getOrReloadGraphLocked. rewrite Hg, Hd, Hs. cbv zeta.
  set (f := λ st : Step.t, _). set (g1 := clear_decision i (upd_step (Decision.StepID dec) f g)).
  change (TaskGraph.PendingDecisions g1) with (remove_at i (TaskGraph.PendingDecisions g)).
  change (TaskGraph.IsSmartRouted g1) with (TaskGraph.IsSmartRouted g).
  set (last := bool_decide (remove_at i (TaskGraph.PendingDecisions g) = [])).
  set (g2 := if last && TaskGraph.IsSmartRouted g then g1 <| TaskGraph.Status := GraphCompleted |> else g1).
  set (e1 := if last then reopen_channel taskID (TaskGraph.IsSmartRouted g) e else e).
  assert (∀ id, get_step g2 id = if decide (Decision.StepID dec = id) then f <$> get_step g id else get_step g id) as Hstep.
  { intros id. transitivity (get_step g1 id); [by unfold g2; destruct (last && _)|]. apply upd_step_lookup. }
  assert (get_step g2 (Decision.StepID dec) = Some (f st)) as Hs2 by (rewrite Hstep, decide_True by done; by rewrite Hs).
  pose proof (handleStepSuccess_completes (fu_out env) (Decision.StepID dec) (fulfilled_result taskID stepID output) (mkGate g2 ∅ []) (f st) Hs2)
    as ((x & st' & _ & H1 & H2 & H3 & _) & Ho & Hp & Hst).
  set (s := handleStepSuccess (fu_out env) _ _ _) in *. cbn [gs_graph] in *.
  eexists _, (gs_graph s). split; [reflexivity|]. split; [|split; [split|]].
  - change (<[taskID := gs_graph s]> (graphs e1) = <[taskID := gs_graph s]> (graphs e)). f_equal.
    unfold e1, reopen_channel. destruct last, (TaskGraph.IsSmartRouted g); reflexivity.
  - by exists st'.
  - intros id Hne. by rewrite Ho, Hstep, decide_False by done.
  - rewrite Hp. unfold g2. by destruct (last && _).
  - fold last. rewrite Hst. unfold g2. by destruct (last && _).
  - change (doneChans e1 !! taskID = if last then if TaskGraph.IsSmartRouted g then (λ _, true) <$> doneChans e !! taskID else Some false
                                    else doneChans e !! taskID).
    unfold e1, reopen_channel. destruct last; [|done]. destruct (TaskGraph.IsSmartRouted g); [|apply lookup_insert_eq].
    match goal with |- doneChans (e <| doneChans ::= ?f |>) !! _ = _ => change (f (doneChans e) !! taskID = (λ _, true) <$> doneChans e !! taskID) end.
    cbv beta. destruct (doneChans e !! taskID) eqn:E; [by rewrite lookup_insert_eq|by rewrite E].
Qed.

Lemma fulfil_begin_spec e taskID decisionID json g dec i st :
  delegated e taskID decisionID g dec i st →
  fulfil_begin env taskID decisionID json e =
    if String.eqb (context_string dec "kind") DelegationKindPlan then
      ((fulfil_plan env taskID json dec i g e).1, inl (fulfil_plan env taskID json dec i g e).2)
    else if bool_decide (SubagentOutput.Status (ParseOutput (fu_decode env) json (Step.RoleID st)) = StatusFailed)
    then (e, inl (Some FNotJSON)) else (e, inr (Step.ID st, ParseOutput (fu_decode env) json (Step.RoleID st))).
Proof.
  intros [Hg Hd Ht Hs]. unfold fulfil_begin, getOrReloadGraphLocked. rewrite Hg, Hd, Ht, bool_decide_eq_true_2, Hs by done.
  destruct (String.eqb _ _); [by destruct (fulfil_plan _ _ _ _ _ _ _)|done].
Qed.

(** The decision is removed: with distinct ids it is gone. *)
Lemma remove_at_gone (l : list Decision.t) id dec i :
  NoDup (Decision.ID <$> l) → find_decision 0 l id = Some (dec, i) → find_decision 0 (remove_at i l) id = None.
Proof.
  intros Hnd (_ & Hl & Hid & Hf)%find_decision_Some. rewrite Nat.sub_0_r in *. apply find_decision_None. intros d Hd E.
  apply elem_of_app in Hd as [Hd|Hd].
  - apply list_elem_of_lookup in Hd as [k Hk]. apply lookup_take_Some in Hk as [Hk Hlt]. by apply (Hf k d).
  - apply list_elem_of_lookup in Hd as [k Hk]. rewrite lookup_drop in Hk.
    assert (i = S i + k)%nat as Habs; [|lia].
    apply (NoDup_lookup (Decision.ID <$> l) i (S i + k) id Hnd).
    + rewrite list_lookup_fmap, Hl. cbn. by rewrite Hid.
    + rewrite list_lookup_fmap, Hk. cbn. by rewrite E.
Qed.
Lemma fulfil_gone e taskID decisionID stepID output e' :
  (∀ g, graphs e !! taskID = Some g → NoDup (Decision.ID <$> TaskGraph.PendingDecisions g)) → is_Some (graphs e !! taskID) →
  (∀ g dec i, graphs e !! taskID = Some g → findPendingDecisionLocked g decisionID = Some (dec, i) → Decision.Type_ dec = DecisionDelegationRequired) →
  fulfil_end env taskID decisionID stepID output e = (e', None) → gone taskID decisionID e'.
Proof.
  intros Hnd [g Hg] Hty H. destruct (findPendingDecisionLocked g decisionID) as [[dec i]|] eqn:Hd.
  2: { unfold fulfil_end, getOrReloadGraphLocked in H. by rewrite Hg, Hd in H. }
  destruct (get_step g (Decision.StepID dec)) as [st|] eqn:Hs.
  2: { unfold fulfil_end, getOrReloadGraphLocked in H. by rewrite Hg, Hd, Hs in H. }
  destruct (fulfil_end_spec e taskID decisionID g dec i st stepID output) as (e0 & g' & H0 & Hgs & Hf & _).
  { split; [done|done| |done]. by eapply Hty. }
  rewrite H0 in H. injection H as <-. exists g'. split; [by rewrite Hgs, lookup_insert_eq|].
  unfold findPendingDecisionLocked in *. rewrite (ff_pending _ _ _ _ Hf). by eapply remove_at_gone; [apply Hnd|].
Qed.
Lemma gone_fulfil taskID decisionID stepID output e :
  gone taskID decisionID e → fulfil_end env taskID decisionID stepID output e = (e, Some (FDecisionRemoved decisionID)).
Proof. intros (g & Hg & Hf). unfold fulfil_end, getOrReloadGraphLocked. by rewrite Hg, Hf. Qed.
End answers.

(** A result the host delivers completes exactly the delegated step: the step
    is OK without an error, the other steps are as before, the decision is
    removed, and the task store holds the result; when it was the last one, a
    smart-routed task is completed and its waiters are woken, any other task gets a fresh channel and goes on. *)
Theorem fulfilled_step_completes env e store taskID decisionID json g dec i st :
  delegated e taskID decisionID g dec i st →
  String.eqb (context_string dec "kind") DelegationKindPlan = false →
  SubagentOutput.Status (ParseOutput (fu_decode env) json (Step.RoleID st)) ≠ StatusFailed →
  ∃ e' g', FulfillStep env None taskID decisionID json e store =
      (e', <[(taskID, Step.ID st) := step_result env (ParseOutput (fu_decode env) json (Step.RoleID st))]> store, None) ∧
    graphs e' = <[taskID := g']> (graphs e) ∧
    fulfilled (Decision.StepID dec) i g g' ∧
    doneChans e' !! taskID =
      (if bool_decide (remove_at i (TaskGraph.PendingDecisions g) = []) then
         if TaskGraph.IsSmartRouted g then (λ _, true) <$> doneChans e !! taskID else Some false
       else doneChans e !! taskID).
Proof.
  intros Hdl Hk Hf. unfold FulfillStep. rewrite (fulfil_begin_spec _ _ _ _ _ _ _ _ _ Hdl), Hk.
  rewrite bool_decide_eq_false_2 by done. unfold fulfil_save.
  destruct (fulfil_end_spec env e taskID decisionID g dec i st (Step.ID st) (ParseOutput (fu_decode env) json (Step.RoleID st)) Hdl)
    as (e' & g' & -> & H). by exists e', g'.
Qed.

(** What a host may not deliver and what it may: text that cannot be read as an
    output at all fulfils the step, with the text as its result; an output that
    says the step failed is refused as unparsable, and nothing changes. *)
Theorem prose_fulfils_failure_refused env e store taskID decisionID json g dec i st :
  delegated e taskID decisionID g dec i st →
  String.eqb (context_string dec "kind") DelegationKindPlan = false →
  (unreadable (fu_decode env) json →
     ∃ e' store' g' st', FulfillStep env None taskID decisionID json e store = (e', store', None) ∧ graphs e' !! taskID = Some g' ∧
       get_step g' (Decision.StepID dec) = Some st' ∧ Step.Status st' = StepOK) ∧
  (SubagentOutput.Status (ParseOutput (fu_decode env) json (Step.RoleID st)) = StatusFailed →
     FulfillStep env None taskID decisionID json e store = (e, store, Some FNotJSON)).
Proof.
  intros Hdl Hk. unfold FulfillStep. rewrite (fulfil_begin_spec _ _ _ _ _ _ _ _ _ Hdl), Hk. split.
  - intros Hu. rewrite unreadable_fallback by done. rewrite bool_decide_eq_false_2 by done.
    destruct (fulfil_end_spec env e taskID decisionID g dec i st (Step.ID st)
      (fallback_output (TrimSpace json) (Step.RoleID st)) Hdl) as (e' & g' & H & Hg & [(st' & H1 & H2 & _) _ _ _] & _).
    eexists e', _, g', st'. split; [unfold fulfil_save; rewrite H; reflexivity|]. split; [by rewrite Hg, lookup_insert_eq|]. by split.
  - intros Hs. by rewrite bool_decide_eq_true_2.
Qed.

(** ** One decision, several answers *)

(** A delivery between its critical sections, before or after its write. *)
Record Flight := mkFlight { fl_env : FulfilEnv; fl_step : string; fl_output : SubagentOutput.t; fl_saved : bool }.
Record World := mkWorld { w_engine : Engine; w_store : TaskStore; w_flights : gmap nat Flight }.
(** What answers of one decision do: a call of [FulfillStep] begins, writes to
    the store and ends; a choice is submitted in one piece. *)
Inductive Event :=
| EvBegin (n : nat) (env : FulfilEnv) (outputJSON : string)
| EvSave (n : nat) (saved : option string)
| EvEnd (n : nat)
| EvChoose (cfg : option SystemConfig) (env : AnswerEnv) (ord : list string) (now : Z) (choice payload : string).
Definition taken {E} (r : option E) : bool := match r with None => true | Some _ => false end.

Lemma NoDup_sub_map {A} (f : A → string) (l k : list A) : l `sublist_of` k → NoDup (f <$> k) → NoDup (f <$> l).
Proof. intros H Hk. eapply sublist_NoDup; [exact Hk|]. by apply fmap_sublist. Qed.
Lemma NoDup_remove_at {A} (f : A → string) i (l : list A) : NoDup (f <$> l) → NoDup (f <$> remove_at i l).
Proof. apply NoDup_sub_map. unfold remove_at. rewrite <- delete_take_drop. apply sublist_delete. Qed.
Lemma NoDup_filter_map {A} (f : A → string) (P : A → Prop) `{∀ x, Decision (P x)} (l : list A) : NoDup (f <$> l) → NoDup (f <$> filter P l).
Proof. apply NoDup_sub_map, sublist_filter. Qed.

Section interleaving.
Context (taskID decisionID : string).

(** The world after an event, and whether an answer was taken by it. *)
Definition happen (ev : Event) (w : World) : World * bool :=
  let '(mkWorld e store flights) := w in
  match ev with
  | EvBegin n env outputJSON =>
      match flights !! n with
      | Some _ => (w, false)
      | None =>
          match fulfil_begin env taskID decisionID outputJSON e with
          | (e, inl r) => (mkWorld e store flights, taken r)
          | (e, inr (stepID, output)) => (mkWorld e store (<[n := mkFlight env stepID output false]> flights), false)
          end
      end
  | EvSave n saved =>
      match flights !! n with
      | Some (mkFlight env stepID output false) =>
          match fulfil_save env saved taskID stepID output store with
          | (store, None) => (mkWorld e store (<[n := mkFlight env stepID output true]> flights), false)
          | (store, Some _) => (mkWorld e store (delete n flights), false)
          end
      | _ => (w, false)
      end
  | EvEnd n =>
      match flights !! n with
      | Some (mkFlight env stepID output true) =>
          let '(e, r) := fulfil_end env taskID decisionID stepID output e in (mkWorld e store (delete n flights), taken r)
      | _ => (w, false)
      end
  | EvChoose cfg env ord now choice payload =>
      let '(e, r) := SubmitDecisionWithPayload cfg env ord now taskID decisionID choice payload e in
      (mkWorld e store flights, taken r)
  end.
(** A run of events, and how many answers it took. *)
Fixpoint play (evs : list Event) (w : World) : World * nat :=
  match evs with
  | [] => (w, 0%nat)
  | ev :: evs' => let '(w, b) := happen ev w in let '(w, n) := play evs' w in (w, ((if b : bool then 1 else 0) + n)%nat)
  end.
(** Not a choice that is applied before its decision is looked up. *)
Definition looked_up_first (ev : Event) : Prop :=
  match ev with EvChoose _ _ _ _ choice _ => ¬ applied_early choice | _ => True end.

(** The task is in memory, its decisions have distinct ids, and the one that is
    answered, while it is parked, is a delegation. *)
Definition open_decision (e : Engine) : Prop :=
  ∃ g, graphs e !! taskID = Some g ∧ NoDup (Decision.ID <$> TaskGraph.PendingDecisions g) ∧
    ∀ dec i, findPendingDecisionLocked g decisionID = Some (dec, i) → Decision.Type_ dec = DecisionDelegationRequired.
(** A call that failed may have changed the graph, but not what is parked. *)
Definition same_pending (e e' : Engine) : Prop :=
  ∀ g, graphs e !! taskID = Some g →
    ∃ g', graphs e' !! taskID = Some g' ∧ TaskGraph.PendingDecisions g' = TaskGraph.PendingDecisions g.
Lemma same_pending_refl e : same_pending e e.
Proof. intros g Hg. by exists g. Qed.
Lemma same_open e e' : same_pending e e' → open_decision e → open_decision e'.
Proof.
  intros H (g & Hg & Hnd & Ht). destruct (H g Hg) as (g' & Hg' & Hp). exists g'. unfold findPendingDecisionLocked in *.
  by rewrite Hp.
Qed.
Lemma same_gone e e' : same_pending e e' → gone taskID decisionID e → gone taskID decisionID e'.
Proof.
  intros H (g & Hg & Hf). destruct (H g Hg) as (g' & Hg' & Hp). exists g'. unfold findPendingDecisionLocked in *. by rewrite Hp.
Qed.
Lemma gone_open e : gone taskID decisionID e → (∀ g, graphs e !! taskID = Some g → NoDup (Decision.ID <$> TaskGraph.PendingDecisions g)) →
  open_decision e.
Proof. intros (g & Hg & Hf) Hnd. exists g. split; [done|]. split; [by apply Hnd|]. intros dec i E. congruence. Qed.

(** A delivery that is refused changes nothing, one that is taken removes the decision. *)
Lemma end_outcome env stepID output e e' r :
  open_decision e → fulfil_end env taskID decisionID stepID output e = (e', r) →
  match r with Some _ => e' = e | None => (gone taskID decisionID e' ∧ open_decision e') ∧ ¬ gone taskID decisionID e end.
Proof.
  intros (g & Hg & Hnd & Ht) H.
  destruct (findPendingDecisionLocked g decisionID) as [[dec i]|] eqn:Hd.
  2: { unfold fulfil_end, getOrReloadGraphLocked in H. rewrite Hg, Hd in H. by injection H as <- <-. }
  destruct (get_step g (Decision.StepID dec)) as [st|] eqn:Hs.
  2: { unfold fulfil_end, getOrReloadGraphLocked in H. rewrite Hg, Hd, Hs in H. by injection H as <- <-. }
  destruct (fulfil_end_spec env e taskID decisionID g dec i st stepID output) as (e0 & g' & H0 & Hgs & Hf & _).
  { split; [done|done| |done]. by eapply Ht. }
  rewrite H0 in H. injection H as <- <-.
  assert (gone taskID decisionID e0) as Hgone.
  { exists g'. split; [by rewrite Hgs, lookup_insert_eq|].
    unfold findPendingDecisionLocked in *. rewrite (ff_pending _ _ _ _ Hf). by eapply remove_at_gone. }
  split; [|by intros (g0 & Hg0 & Hn); congruence].
  split; [exact Hgone|]. apply gone_open; [exact Hgone|]. intros g0. rewrite Hgs, lookup_insert_eq. intros [= <-].
  rewrite (ff_pending _ _ _ _ Hf). by apply NoDup_remove_at.
Qed.
(** The same of a call that begins, a plan included. *)
Lemma begin_outcome env json e e' r :
  open_decision e → fulfil_begin env taskID decisionID json e = (e', r) →
  match r with
  | inl None => (gone taskID decisionID e' ∧ open_decision e') ∧ ¬ gone taskID decisionID e
  | inl (Some _) => same_pending e e'
  | inr _ => e' = e ∧ ¬ gone taskID decisionID e
  end.
Proof.
  intros (g & Hg & Hnd & Ht) H. unfold fulfil_begin, getOrReloadGraphLocked in H. rewrite Hg in H.
  destruct (findPendingDecisionLocked g decisionID) as [[dec i]|] eqn:Hd; [|injection H as <- <-; apply same_pending_refl].
  case_bool_decide as Hty; [|injection H as <- <-; apply same_pending_refl].
  destruct (get_step g (Decision.StepID dec)) as [st|]; [|injection H as <- <-; apply same_pending_refl].
  destruct (String.eqb _ _).
  2: { case_bool_decide; injection H as <- <-; [apply same_pending_refl|]. split; [done|]. intros (g0 & Hg0 & Hn). congruence. }
  unfold fulfil_plan in H. destruct (ParsePlanDAG _ _ _) as [[|p plan]|err]; [injection H as <- <-; apply same_pending_refl| |injection H as <- <-; apply same_pending_refl].
  pose proof (mutate_untouched g (fu_ord env) (fu_now env) (mkSurgery (Decision.StepID dec) (p :: plan))) as Hu.
  destruct (mutateGraphTopologyLocked _ _ _ _) as [g1 [err|]]; injection H as <- <-; cbn [fst] in Hu.
  - intros g0 Hg0. rewrite Hg in Hg0. injection Hg0 as <-. exists g1. split; [apply lookup_insert_eq|exact (un_pending _ _ Hu)].
  - set (g2 := clear_decision i g1 <| TaskGraph.IsSmartRouted := false |> <| TaskGraph.Status := GraphRunning |>).
    assert (TaskGraph.PendingDecisions g2 = remove_at i (TaskGraph.PendingDecisions g)) as Hp2.
    { change (remove_at i (TaskGraph.PendingDecisions g1) = remove_at i (TaskGraph.PendingDecisions g)). by rewrite (un_pending _ _ Hu). }
    assert (∀ e0, gone taskID decisionID (emits e0 (store_graph taskID g2 e))) as Hgone.
    { intros e0. exists g2. split; [apply lookup_insert_eq|]. unfold findPendingDecisionLocked in *. rewrite Hp2. by eapply remove_at_gone. }
    split; [|by intros (g0 & Hg0 & Hn); congruence].
    split; [apply Hgone|]. apply gone_open; [apply Hgone|]. intros g0 Hg0.
    change (<[taskID := g2]> (graphs e) !! taskID = Some g0) in Hg0. rewrite lookup_insert_eq in Hg0. injection Hg0 as <-.
    rewrite Hp2. by apply NoDup_remove_at.
Qed.
(** And of a choice. *)
Lemma submit_error_frame cfg env ord now choice payload e e' err :
  SubmitDecisionWithPayload cfg env ord now taskID decisionID choice payload e = (e', Some err) → same_pending e e'.
Proof.
  intros H g Hg. unfold SubmitDecisionWithPayload, getOrReloadGraphLocked in H. rewrite Hg in H.
  pose proof (frame_pre_lookup env ord now choice payload g) as F1.
  assert (∀ e0 g0, frame g g0 → e' = store_graph taskID g0 e0 → ∃ g', graphs e' !! taskID = Some g' ∧
    TaskGraph.PendingDecisions g' = TaskGraph.PendingDecisions g) as Hst.
  { intros e0 g0 F ->. exists g0. split; [apply lookup_insert_eq|exact (frame_pending _ _ F)]. }
  destruct (pre_lookup env ord now choice payload g) as [g1 [er|]]; cbn [fst] in F1.
  { injection H as <- _. by eapply Hst. }
  cbv zeta in H. destruct (findPendingDecisionLocked g1 decisionID) as [[dec i]|]; [|injection H as <- _; by eapply Hst].
  destruct (get_step g1 (Decision.StepID dec)) as [step|]; [|injection H as <- _; by eapply Hst].
  pose proof (frame_create_role_first env taskID decisionID choice payload step dec g1) as F2.
  destruct (create_role_first env taskID decisionID choice payload step dec g1) as [[g2 o2] [er|]]; cbn [fst] in F2.
  { injection H as <- _. eapply Hst; [|reflexivity]. by transitivity g1. }
  match type of H with context [applyDecisionChoiceLocked ?a ?b ?c ?d ?h ?f ?k ?l ?m ?n ?o] =>
    pose proof (frame_apply a b c d h f k l m n o) as F3;
    destruct (applyDecisionChoiceLocked a b c d h f k l m n o) as [[g3 o3] [er|]] end; [|done]. cbn [fst] in F3.
  injection H as <- _. eapply Hst; [|reflexivity]. transitivity g1; [done|]. by transitivity g2.
Qed.
Lemma submit_ok_frame cfg env ord now choice payload e e' g :
  SubmitDecisionWithPayload cfg env ord now taskID decisionID choice payload e = (e', None) → graphs e !! taskID = Some g →
  (∃ g', graphs e' !! taskID = Some g' ∧
     TaskGraph.PendingDecisions g' = filter (λ d, Decision.ID d ≠ decisionID) (TaskGraph.PendingDecisions g)) ∧
  ∃ dec, dec ∈ TaskGraph.PendingDecisions g ∧ Decision.ID dec = decisionID.
Proof.
  intros (e0 & g0 & g1 & dec & i & step & g2 & o2 & g3 & o3 & e3 & H0 & H1 & H2 & H3 & H4 & H5 & H6 & ->)%submit_ok_inv Hg.
  unfold getOrReloadGraphLocked in H0. rewrite Hg in H0. injection H0 as <- <-.
  pose proof (frame_pre_lookup env ord now choice payload g) as F1. rewrite H1 in F1.
  pose proof (frame_create_role_first env taskID decisionID choice payload step dec g1) as F2. rewrite H4 in F2.
  pose proof (frame_apply cfg env ord now (bool_decide (taskID ∈ cancelFuncs e)) taskID (Decision.StepID dec)
    choice payload dec g2) as F3. rewrite H5 in F3. cbn [fst] in *.
  assert (frame g g3) as F by (etrans; [exact F1|]; etrans; [exact F2|exact F3]).
  destruct (settled_fields decisionID choice g3) as (S1 & _). split.
  - exists (settled decisionID choice g3). split; [by rewrite settle_graphs, H6, lookup_insert_eq|].
    by rewrite S1, (frame_pending _ _ F).
  - apply find_decision_spec in H2. rewrite (frame_pending _ _ F1) in H2. by exists dec.
Qed.
Lemma choose_outcome cfg env ord now choice payload e e' r :
  open_decision e → SubmitDecisionWithPayload cfg env ord now taskID decisionID choice payload e = (e', r) →
  match r with Some _ => same_pending e e' | None => (gone taskID decisionID e' ∧ open_decision e') ∧ ¬ gone taskID decisionID e end.
Proof.
  intros Ho H. pose proof Ho as (g & Hg & Hnd & _). destruct r as [err|].
  - by eapply submit_error_frame.
  - destruct (submit_ok_frame _ _ _ _ _ _ _ _ _ H Hg) as [(g' & Hg' & Hp) Hin].
    assert (gone taskID decisionID e') as Hgone by by eapply submit_gone.
    split; [split; [exact Hgone|apply gone_open; [exact Hgone|]]|].
    + intros g0. rewrite Hg'. intros [= <-]. rewrite Hp. by apply NoDup_filter_map.
    + intros (g0 & Hg0 & Hn). rewrite Hg in Hg0. injection Hg0 as <-. destruct Hin as (dec & Hin & Hid).
      by apply (proj1 (find_decision_None 0 _ decisionID) Hn dec).
Qed.

(** An event takes the decision only while it is parked; nothing parks it again. *)
Lemma happen_cases ev w w' b :
  open_decision (w_engine w) → happen ev w = (w', b) →
  open_decision (w_engine w') ∧
  (if b then ¬ gone taskID decisionID (w_engine w) ∧ gone taskID decisionID (w_engine w')
   else gone taskID decisionID (w_engine w) → gone taskID decisionID (w_engine w')).
Proof.
  intros Ho H. destruct w as [e store flights]; cbn [w_engine] in *.
  destruct ev as [n env json|n saved|n|cfg env ord now choice payload]; cbn [happen] in H.
  - destruct (flights !! n); [by injection H as <- <-|].
    destruct (fulfil_begin env taskID decisionID json e) as [e1 r] eqn:E. pose proof (begin_outcome _ _ _ _ _ Ho E) as Hb.
    destruct r as [[err|]|[sid out]]; injection H as <- <-; cbn [w_engine taken].
    + split; [by apply (same_open e)|by apply (same_gone e)].
    + destruct Hb as [[Hg Ho1] Hn]. by split_and!.
    + destruct Hb as [-> _]. by split.
  - destruct (flights !! n) as [[env sid out [|]]|]; [by injection H as <- <-| |by injection H as <- <-].
    destruct (fulfil_save _ _ _ _ _ _) as [store' [err|]]; by injection H as <- <-.
  - destruct (flights !! n) as [[env sid out [|]]|]; [|by injection H as <- <-|by injection H as <- <-].
    destruct (fulfil_end env taskID decisionID sid out e) as [e1 r] eqn:E. pose proof (end_outcome _ _ _ _ _ _ Ho E) as Hb.
    destruct r as [err|]; injection H as <- <-; cbn [w_engine taken]; [by subst e1|]. destruct Hb as [[Hg Ho1] Hn]. by split_and!.
  - destruct (SubmitDecisionWithPayload cfg env ord now taskID decisionID choice payload e) as [e1 r] eqn:E.
    pose proof (choose_outcome _ _ _ _ _ _ _ _ _ Ho E) as Hb.
    destruct r as [err|]; injection H as <- <-; cbn [w_engine taken].
    + split; [by apply (same_open e)|by apply (same_gone e)].
    + destruct Hb as [[Hg Ho1] Hn]. by split_and!.
Qed.
(** Once it is gone, only a choice applied before the lookup touches the engine,
    and only a delivery that had begun before writes to the store. *)
Definition all_saved (w : World) : Prop := ∀ n f, w_flights w !! n = Some f → fl_saved f = true.
Lemma happen_gone ev w w' b :
  gone taskID decisionID (w_engine w) → looked_up_first ev → happen ev w = (w', b) →
  w_engine w' = w_engine w ∧ (all_saved w → w_store w' = w_store w ∧ all_saved w').
Proof.
  intros Hgone Hl H. destruct w as [e store flights]; cbn [w_engine] in *. unfold all_saved; cbn [w_flights w_store].
  destruct ev as [n env json|n saved|n|cfg env ord now choice payload]; cbn [happen] in H.
  - destruct (flights !! n) eqn:Ef; [by injection H as <- <-|].
    destruct Hgone as (g & Hg & Hd). unfold fulfil_begin, getOrReloadGraphLocked in H. rewrite Hg, Hd in H.
    by injection H as <- <-.
  - destruct (flights !! n) as [[env sid out [|]]|] eqn:Ef; [by injection H as <- <-| |by injection H as <- <-].
    destruct (fulfil_save _ _ _ _ _ _) as [store' [err|]]; injection H as <- <-; (split; [done|]; intros Ha; by apply Ha in Ef).
  - destruct (flights !! n) as [[env sid out [|]]|] eqn:Ef; [|by injection H as <- <-|by injection H as <- <-].
    rewrite gone_fulfil in H by done. injection H as <- <-. split; [done|]. intros Ha. split; [done|].
    intros m f. cbn [w_flights]. rewrite lookup_delete_Some. intros [_ Hf]. by eapply Ha.
  - rewrite gone_submit in H by done. by injection H as <- <-.
Qed.

Lemma play_gone evs w w' n :
  open_decision (w_engine w) → gone taskID decisionID (w_engine w) → play evs w = (w', n) → n = 0%nat.
Proof.
  revert w w' n. induction evs as [|ev evs IH]; intros w w' n Ho Hg H; cbn [play] in H; [by injection H as _ <-|].
  destruct (happen ev w) as [w1 b] eqn:E. destruct (happen_cases ev w w1 b Ho E) as [Ho1 Hb].
  destruct (play evs w1) as [w2 m] eqn:E2. injection H as _ <-.
  destruct b; [by destruct Hb as [Hb _]|]. cbn. eapply IH; [exact Ho1|by apply Hb|exact E2].
Qed.
Lemma play_once evs w w' n :
  open_decision (w_engine w) → play evs w = (w', n) →
  (n <= 1)%nat ∧ open_decision (w_engine w') ∧ (n = 1%nat → gone taskID decisionID (w_engine w')).
Proof.
  revert w w' n. induction evs as [|ev evs IH]; intros w w' n Ho H; cbn [play] in H; [injection H as <- <-; split_and!; [lia|done|lia]|].
  destruct (happen ev w) as [w1 b] eqn:E. destruct (happen_cases ev w w1 b Ho E) as [Ho1 Hb].
  destruct (play evs w1) as [w2 m] eqn:E2. injection H as <- <-. destruct (IH w1 w2 m Ho1 E2) as (H1 & H2 & H3).
  destruct b; [|by split_and!]. destruct Hb as [_ Hb]. rewrite (play_gone _ _ _ _ Ho1 Hb E2). split_and!; [lia|done|]. intros _.
  clear -Hb E2 Ho1. revert w1 w2 m Hb E2 Ho1. induction evs as [|ev evs IH]; intros w1 w2 m Hb E2 Ho1; cbn [play] in E2; [by injection E2 as <- _|].
  destruct (happen ev w1) as [w3 b] eqn:E. destruct (happen_cases ev w1 w3 b Ho1 E) as [Ho3 Hc].
  destruct (play evs w3) as [w4 k] eqn:E4. injection E2 as <- _. eapply IH; [|exact E4|exact Ho3].
  destruct b; [by destruct Hc|by apply Hc].
Qed.
Lemma play_after evs w w' n :
  open_decision (w_engine w) → gone taskID decisionID (w_engine w) → Forall looked_up_first evs → play evs w = (w', n) →
  w_engine w' = w_engine w ∧ (all_saved w → w_store w' = w_store w).
Proof.
  intros Ho Hg Hl. revert w w' n Ho Hg. induction Hl as [|ev evs Hev _ IH]; intros w w' n Ho Hg H; cbn [play] in H; [by injection H as <- _|].
  destruct (happen ev w) as [w1 b] eqn:E. destruct (play evs w1) as [w2 m] eqn:E2. injection H as <- _.
  destruct (happen_gone ev w w1 b Hg Hev E) as [H1 H2]. destruct (IH w1 w2 m) as [H3 H4]; [by rewrite H1|by rewrite H1|done|].
  split; [congruence|]. intros Ha. destruct (H2 Ha) as [H5 H6]. by rewrite H4.
Qed.
End interleaving.

(** C5: Of several answers to one parked delegation at most one is taken, however
    their calls interleave: deliveries of results, whose write to the task store
    falls between two critical sections and may fail, plans of the host, and
    choices.  After the one that is taken, every later answer is refused (no
    other is taken) and the engine stays as it is, except for the choices that
    are applied before their decision is looked up ("rewrite_dag",
    "goal_change_requested"); the task store stays as it is once no delivery that
    had begun before is still to be written. *)
Theorem one_answer_wins taskID decisionID w evs w' n :
  open_decision taskID decisionID (w_engine w) → play taskID decisionID evs w = (w', n) →
  (n <= 1)%nat ∧
  (n = 1%nat → ∀ later w2 m, play taskID decisionID later w' = (w2, m) →
     m = 0%nat ∧
     (Forall looked_up_first later → w_engine w2 = w_engine w' ∧ (all_saved w' → w_store w2 = w_store w'))).
Proof.
  intros Ho H. destruct (play_once _ _ _ _ _ _ Ho H) as (H1 & Ho' & Hg). split; [done|]. intros Hn later w2 m H2.
  specialize (Hg Hn). split; [by eapply play_gone|]. intros Hl. by eapply play_after.
Qed.

(** ** The host plans *)

Section host_plan.
Context (env : SubmitEnv) (reg : Registry.t) (sub : Submission.t) (i : StepInput.t).

(** The graph that waits for the plan of the host. *)
Definition waiting_graph : TaskGraph.t := routed_graph env reg sub RoutePlanDelegated [i].
Definition plan_step_id : string := input_id env 0 i.
Definition waiting_step : Step.t := (smart_step (su_now env) plan_step_id i) <| Step.Status := StepBlocked |>.
Lemma waiting_steps : TaskGraph.Steps waiting_graph = {[ plan_step_id := waiting_step ]}.
Proof.
  apply map_eq. intros id. change (TaskGraph.Steps waiting_graph) with
    (alter (λ st, st <| Step.Status := StepBlocked |>) plan_step_id ({[ plan_step_id := smart_step (su_now env) plan_step_id i ]} : gmap string Step.t)).
  rewrite lookup_alter. case_decide as E; [subst id; by rewrite !lookup_singleton_eq|by rewrite !lookup_singleton_ne].
Qed.
Lemma waiting_pending : TaskGraph.PendingDecisions waiting_graph = [plan_decision env plan_step_id i].
Proof. reflexivity. Qed.

(** The host's plan in place of the waiting step. *)
Lemma host_plan_runnable ord now plan g' penv opt raw :
  range_order (TaskGraph.Steps waiting_graph) ord → ParsePlanDAG penv opt raw = Ok plan →
  mutateGraphTopologyLocked waiting_graph ord now (mkSurgery plan_step_id plan) = (g', None) →
  (∃ rank, ranked (TaskGraph.Steps g') rank) ∧ wf_graph g' ∧
  (∀ id s, TaskGraph.Steps g' !! id = Some s →
     (id = plan_step_id ∧ s = waiting_step <| Step.Status := StepDeprecated |>) ∨
     ∃ p inh, p ∈ plan ∧ id = StepInput.ID p ∧ s = replacement_step plan_step_id inh now p) ∧
  (∀ p, p ∈ plan → ∃ s, TaskGraph.Steps g' !! StepInput.ID p = Some s ∧ Step.Status s = StepPending) ∧
  (∀ j t, TaskGraph.Steps g' !! j = Some t → plan_step_id ∉ Step.DependsOn t).
Proof.
  intros Ho Hp Hm. assert (wf_graph waiting_graph) as Hwf.
  { intros id s. rewrite waiting_steps. by intros [<- <-]%lookup_singleton_Some. }
  assert (get_step waiting_graph plan_step_id = Some waiting_step) as Hw.
  { unfold get_step. rewrite waiting_steps. apply lookup_singleton_eq. }
  destruct (mutate_releases _ _ _ _ _ Ho Hwf Hm) as (_ & Hdep & Hnew & Hnd). cbn [DeprecatedStepID ReplacementSteps] in *.
  destruct (parsed_validated _ _ _ _ Hp) as (body & ps & Hv). destruct (validated _ _ _ _ _ Hv) as (_ & _ & _ & Hac).
  destruct (input_edge_ranked plan Hac) as [rk Hrk].
  pose proof (mutate_deprecates waiting_graph ord now (mkSurgery plan_step_id plan) g' None waiting_step Ho Hwf Hw Hm) as Hd.
  cbn [DeprecatedStepID] in Hd.
  assert (∀ id s, TaskGraph.Steps g' !! id = Some s →
     (id = plan_step_id ∧ s = waiting_step <| Step.Status := StepDeprecated |>) ∨
     ∃ p inh, p ∈ plan ∧ id = StepInput.ID p ∧ s = replacement_step plan_step_id inh now p) as Hall.
  { intros id s Hs. destruct (surgery_lookup waiting_graph ord now (mkSurgery plan_step_id plan) g' None waiting_step id s Ho Hwf Hw Hm Hs) as [Hb|(p & inh & Hin & <- & ->)]; [left|right; by exists p, inh].
    cbn [DeprecatedStepID] in Hb. assert (id = plan_step_id) as ->.
    { destruct (get_step waiting_graph id) as [s0|] eqn:E0; [|by apply (surgery_base_None _ plan_step_id) in E0; congruence].
      unfold get_step in E0. rewrite waiting_steps in E0. by apply lookup_singleton_Some in E0 as [? _]. }
    split; [done|]. change (get_step g' plan_step_id = Some s) in Hs. rewrite Hd in Hs. by injection Hs. }
  split; [|split; [|split; [exact Hall|split]]].
  - apply (mutate_ranked _ _ _ _ _ (λ _, 0%nat) rk Ho Hwf Hm).
    + intros id s d. rewrite waiting_steps. by intros [<- <-]%lookup_singleton_Some ?%elem_of_nil.
    + intros id s d. unfold get_step. rewrite waiting_steps. by intros [<- <-]%lookup_singleton_Some ?%elem_of_nil.
    + cbn [ReplacementSteps]. intros p d Hin Hd' _. apply Hrk. by exists p.
  - by eapply mutate_wf.
  - intros p Hin. destruct (Hnew p Hin) as (_ & s & Hs & Hst & _). by exists s.
  - intros j t Ht. destruct (Hall j t Ht) as [[-> ->]|(p & inh & _ & -> & ->)]; [by intros ?%elem_of_nil|]. apply replacement_no_dep.
Qed.

(** The graph once the plan is in place. *)
Definition planned_graph (g' : TaskGraph.t) : TaskGraph.t :=
  clear_decision 0 g' <| TaskGraph.IsSmartRouted := false |> <| TaskGraph.Status := GraphRunning |>.
Lemma host_plan_ready ord now plan g' penv opt raw :
  range_order (TaskGraph.Steps waiting_graph) ord → ParsePlanDAG penv opt raw = Ok plan →
  mutateGraphTopologyLocked waiting_graph ord now (mkSurgery plan_step_id plan) = (g', None) →
  StepInput.ExitCriteria i = "" → StepInput.MaxAutoRefine i <= int64_max → (∀ p, p ∈ plan → StepInput.ExitCriteria p = "") →
  ∃ rank, runnable rank (planned_graph g') ∧ executable_task (planned_graph g') ∧ TaskGraph.TaskID g' = su_taskID env.
Proof.
  intros Ho Hp Hm Hc Hmax Hpc. destruct (host_plan_runnable _ _ _ _ _ _ _ Ho Hp Hm) as ([rank Hrank] & Hwf & Hall & _ & Hab).
  pose proof (mutate_untouched waiting_graph ord now (mkSurgery plan_step_id plan)) as Hu. rewrite Hm in Hu. cbn [fst] in Hu.
  exists rank. split; [|split; [|exact (un_task _ _ Hu)]].
  - split; try done.
    + change (TaskGraph.PendingDecisions (planned_graph g')) with (remove_at 0 (TaskGraph.PendingDecisions g')). by rewrite (un_pending _ _ Hu).
    + intros k st Hk. destruct (Hall k st Hk) as [[-> ->]|(p & inh & _ & _ & ->)]; [|by left].
      right. right. split; [done|]. exact Hab.
  - intros k st Hk. destruct (Hall k st Hk) as [[-> ->]|(p & inh & Hin & -> & ->)].
    + change ((0 <= 0 ∧ 0 <= 0 ∧ 0 < int64_max ∧ StepInput.MaxAutoRefine i <= int64_max) ∧ 0 <= 0 ∧ StepInput.ExitCriteria i = "").
      by split_and!.
    + destruct (planned_defaults _ _ _ _ _ Hp Hin) as (_ & _ & _ & _ & Hz).
      change ((0 <= 0 ∧ 0 <= 0 ∧ 0 < int64_max ∧ StepInput.MaxAutoRefine p <= int64_max) ∧ 0 <= 0 ∧ StepInput.ExitCriteria p = "").
      by rewrite Hz, Hpc.
Qed.

(** The submission leaves the waiting graph, and the delivery of a plan puts it
    in place. *)
Lemma host_plan_submitted s s' id :
  expandSkillsIfNecessary (su_files env) reg (su_skill env) [i] (Submission.roles sub) (Submission.skills sub) = [i] →
  SubmitWithSessionIR env reg sub [i] s = (s', Ok (id, RoutePlanDelegated)) →
  id = su_taskID env ∧ graphs (ss_engine s') !! id = Some waiting_graph.
Proof.
  intros Hex [(e & ? & _)|(s1 & rt & _ & Hr & [= -> <-] & _)]%submit_cases; [done|]. split; [done|].
  apply route_spec in Hr as (-> & _ & _ & _ & Hh & i' & Hi'). rewrite lookup_insert_eq. f_equal. unfold waiting_graph. f_equal.
  unfold final_inputs. rewrite Hex. unfold plan_first. destruct (is_lone [i]); [|done].
  unfold plannerFirstEnabled. unfold host_plans in Hh. apply andb_true_iff in Hh as [-> _]. done.
Qed.
Lemma host_plan_delivered fenv e store json plan g' :
  graphs e !! su_taskID env = Some waiting_graph → ParsePlanDAG (fu_plan fenv) no_options json = Ok plan →
  mutateGraphTopologyLocked waiting_graph (fu_ord fenv) (fu_now fenv) (mkSurgery plan_step_id plan) = (g', None) →
  FulfillStep fenv None (su_taskID env) (su_decID env) json e store =
    (emits [OPersist (planned_graph g'); OStartExecutor (TaskGraph.TaskID g')] (store_graph (su_taskID env) (planned_graph g') e), store, None).
Proof.
  intros Hg Hp Hm. unfold FulfillStep.
  rewrite (fulfil_begin_spec fenv e (su_taskID env) (su_decID env) json waiting_graph (plan_decision env plan_step_id i) 0 waiting_step).
  2: { split; [done| |done|unfold get_step; rewrite waiting_steps; apply lookup_singleton_eq].
       unfold findPendingDecisionLocked. rewrite waiting_pending. cbn [find_decision]. by rewrite decide_True. }
  change (String.eqb (context_string (plan_decision env plan_step_id i) "kind") DelegationKindPlan) with true. cbn iota.
  unfold fulfil_plan. rewrite Hp. change (Decision.StepID (plan_decision env plan_step_id i)) with plan_step_id. rewrite Hm.
  destruct plan as [|p plan]; [|reflexivity]. exfalso. destruct (parsed_validated _ _ _ _ Hp) as (body & ps & Hv).
  destruct (validated _ _ _ _ _ Hv) as (Hl & _). cbn in Hl. lia.
Qed.
End host_plan.

(** A request the host plans, from the submission to the end.  In delegation
    mode a lone request waits for the host; when the host delivers a plan whose
    ids differ from the waiting step's, the plan replaces it, the executor is
    started, and the loop with agents that answer acceptably does every step of
    the plan and finalises the task as completed. *)
Theorem host_planned_task_completes env reg sub i s s' id fenv eenv r plan json store order sched Pow now holds :
  expandSkillsIfNecessary (su_files env) reg (su_skill env) [i] (Submission.roles sub) (Submission.skills sub) = [i] →
  StepInput.ExitCriteria i = "" → StepInput.MaxAutoRefine i <= int64_max →
  SubmitWithSessionIR env reg sub [i] s = (s', Ok (id, RoutePlanDelegated)) →
  ParsePlanDAG (fu_plan fenv) no_options json = Ok plan → (∀ p, p ∈ plan → StepInput.ExitCriteria p = "") →
  plan_step_id env i ∉ StepInput.ID <$> plan → fu_ord fenv = [plan_step_id env i] →
  accepting eenv r → (∀ g, range_order (TaskGraph.Steps g) (order g)) → (∀ l, sched l ≡ₚ l) →
  ∃ e' g gs, FulfillStep fenv None id (su_decID env) json (ss_engine s') store = (e', store, None) ∧ graphs e' !! id = Some g ∧
    OStartExecutor id ∈ eng_out e' ∧
    run_loop order sched (exec_step eenv) (S (size (pending_steps g))) (mkGate g ∅ []) = Some (gs, RunFinalize) ∧
    (∀ p, p ∈ plan → ∃ st, get_step (gs_graph gs) (StepInput.ID p) = Some st ∧ dep_done (Step.Status st) = true) ∧
    TaskGraph.Status (gs_graph (finalize Pow (order (gs_graph gs)) now holds gs)) ∈ [GraphCompleted; GraphCompletedWithSkips].
Proof.
  intros Hex Hcrit Hmax Hsub Hp Hpc Hfresh Hord Ha Ho Hsc.
  destruct (host_plan_submitted env reg sub i s s' id Hex Hsub) as [-> Hg].
  assert (range_order (TaskGraph.Steps (waiting_graph env reg sub i)) (fu_ord fenv)) as Hro.
  { unfold range_order. rewrite waiting_steps, Hord, dom_singleton_L, elements_singleton. done. }
  destruct (mutate_ok (waiting_graph env reg sub i) (fu_ord fenv) (fu_now fenv) (mkSurgery (plan_step_id env i) plan) (waiting_step env i) Hro)
    as [g1 Hm].
  { unfold get_step. rewrite waiting_steps. apply lookup_singleton_eq. }
  { destruct (parsed_validated _ _ _ _ Hp) as (body & ps & Hv). by destruct (validated _ _ _ _ _ Hv) as (_ & ? & _). }
  { intros p Hin. unfold get_step. rewrite waiting_steps. apply lookup_singleton_ne. intros E. apply Hfresh.
    rewrite E. by apply list_elem_of_fmap_2. }
  destruct (host_plan_runnable env reg sub i _ _ plan g1 _ _ _ Hro Hp Hm) as (_ & _ & _ & Hnew & _).
  destruct (host_plan_ready env reg sub i _ _ plan g1 _ _ _ Hro Hp Hm Hcrit Hmax Hpc) as (rank & Hrun & Hexec & Hid).
  pose proof (exec_step_executor eenv r Ha).
  destruct (run_loop_finishes order sched (exec_step eenv) executable_task rank Pow now holds (mkGate (planned_graph g1) ∅ []) Ho Hsc Hrun Hexec)
    as (gs & H1 & Hdom & H2 & H3).
  eexists _, (planned_graph g1), gs. split; [exact (host_plan_delivered env reg sub i fenv _ store json plan g1 Hg Hp Hm)|].
  split; [apply lookup_insert_eq|]. split; [|split; [exact H1|split; [|exact H3]]].
  - rewrite Hid. change (eng_out (emits ?l ?e)) with (eng_out e ++ l). apply elem_of_app. right. right. left.
  - intros p Hin. destruct (Hnew p Hin) as (st0 & Hs0 & Hst0).
    destruct (proj2 (Hdom (StepInput.ID p))) as [st Hst]; [by exists st0|]. exists st. split; [done|].
    destruct (H2 _ _ Hst) as [?|(_ & st1 & Hs1 & Hd1)]; [done|]. change (get_step (planned_graph g1) (StepInput.ID p) = Some st0) in Hs0.
    change (get_step (planned_graph g1) (StepInput.ID p) = Some st1) in Hs1. congruence.
Qed.

(** ** Reports and waiting: properties *)

(** A delegation is reported as unanswered exactly when it is parked with a
    creation time and has waited the configured time; the report adds to the
    status and leaves every other key of it alone. *)
Theorem unanswered_reported_exactly setting g now status :
  let timeout := delegationAnswerTimeout setting in
  (∀ d, d ∈ staleDelegationsLocked now timeout g ↔
     0 < timeout ∧ ∃ dec, dec ∈ TaskGraph.PendingDecisions g ∧ Decision.Type_ dec = DecisionDelegationRequired ∧
       Decision.Created dec ≠ 0 ∧ timeout <= time_sub now (Decision.Created dec) ∧
       d = StaleDecision.mk (Decision.ID dec) (Decision.StepID dec) (whole_seconds (time_sub now (Decision.Created dec)))) ∧
  (∀ k, k ≠ "delegation_wait" → k ≠ "next_action" → attachDelegationWaitLocked setting g now status !! k = status !! k) ∧
  (staleDelegationsLocked now timeout g = [] → attachDelegationWaitLocked setting g now status = status) ∧
  (staleDelegationsLocked now timeout g ≠ [] →
     is_Some (attachDelegationWaitLocked setting g now status !! "delegation_wait") ∧
     attachDelegationWaitLocked setting g now status !! "next_action" = Some (AString "submit_decision")).
Proof.
  intros timeout. split; [|split; [|split]].
  - intros d. unfold staleDelegationsLocked, stale_decisions. destruct (Z.leb_spec timeout 0) as [Hle|Hlt].
    { split; [by intros ?%elem_of_nil|lia]. }
    rewrite list_elem_of_omap. unfold stale_decision. cbv zeta. split.
    + intros (dec & Hin & H). split; [done|]. exists dec. case_bool_decide as Ht; cbn [negb orb] in H; [|done].
      destruct (Z.eqb_spec (Decision.Created dec) 0); [done|]. destruct (Z.ltb_spec (time_sub now (Decision.Created dec)) timeout); [done|].
      injection H as <-. by split_and!.
    + intros (_ & dec & Hin & Ht & Hc & Hw & ->). exists dec. split; [done|]. rewrite bool_decide_eq_true_2 by done. cbn [negb orb].
      rewrite (proj2 (Z.eqb_neq _ _)) by done. by rewrite (proj2 (Z.ltb_ge _ _)) by done.
  - intros k H1 H2. unfold attachDelegationWaitLocked. cbv zeta. fold timeout.
    destruct (staleDelegationsLocked now timeout g); [done|]. by rewrite !lookup_insert_ne by done.
  - intros H. unfold attachDelegationWaitLocked. cbv zeta. fold timeout. by rewrite H.
  - intros H. unfold attachDelegationWaitLocked. cbv zeta. fold timeout.
    destruct (staleDelegationsLocked now timeout g); [done|]. rewrite lookup_insert_eq, lookup_insert_ne, lookup_insert_eq by done. by eauto.
Qed.

(** Approving runs exactly the plans that wait for a review. *)
Lemma ApprovePlan_spec taskID e e' r :
  ApprovePlan taskID e = (e', r) →
  match r with
  | None => ∃ g, graphs e !! taskID = Some g ∧ TaskGraph.Status g = GraphPendingReview ∧
      graphs e' = <[taskID := g <| TaskGraph.Status := GraphRunning |>]> (graphs e) ∧ taskID ∈ cancelFuncs e' ∧
      OStartExecutor taskID ∈ eng_out e'
  | Some _ => e' = e
  end.
Proof.
  unfold ApprovePlan. destruct (graphs e !! taskID) as [g|] eqn:Eg; [|by intros [= <- <-]]. cbv zeta.
  case_bool_decide as Hs; [|by intros [= <- <-]]. intros [= <- <-]. exists g. split_and!; try done; [set_solver|].
  change (eng_out (emits ?l ?e)) with (eng_out e ++ l). apply elem_of_app. right. right. right. left.
Qed.

(** ** Concrete answers *)

Definition host_plan : list PlanStep.t :=
  [PlanStep.mk "a" "agent" "log in" [] [] "" [] ""; PlanStep.mk "b" "agent" "report" ["a"] [] "" [] ""].
Definition ex_fulfil_env : FulfilEnv :=
  mkFulfilEnv ex_env (env_of host_plan) ex_decode ex_out_env ["step_0"] 9.
Definition host_registry : Registry.t :=
  Registry.mk (Registry.Roles agent_registry) ∅ (Registry.MCPs agent_registry) ∅ ∅ ∅ "" false
    (System.mk 0 (WorkspacePolicy.mk false "" [] ∅) true true 0 0 0 0 false).
Definition host_request : StepInput.t := zeroInput <| StepInput.RoleID := "agent" |> <| StepInput.Task := "tell me the time" |>.
Definition host_submitted : SubmitState * result AdmissionError (string * Route) :=
  SubmitWithSessionIR ex_sub_env host_registry ex_submission [host_request] ex_submit_state.
Lemma host_submits : SubmitWithSessionIR ex_sub_env host_registry ex_submission [host_request] ex_submit_state
  = (host_submitted.1, Ok ("t1", RoutePlanDelegated)).
Proof. vm_compute. reflexivity. Qed.
Definition host_inputs : list StepInput.t := accepted (ParsePlanDAG (env_of host_plan) no_options "{}").
Lemma host_planned_task_completes_witness :
  ∃ e' g gs, FulfillStep ex_fulfil_env None "t1" "d1" "{}" (ss_engine host_submitted.1) ∅ = (e', ∅, None) ∧
    graphs e' !! "t1" = Some g ∧
    run_loop step_keys id (exec_step ex_plain_env) (S (size (pending_steps g))) (mkGate g ∅ []) = Some (gs, RunFinalize).
Proof.
  destruct (host_planned_task_completes ex_sub_env host_registry ex_submission host_request ex_submit_state host_submitted.1 "t1"
    ex_fulfil_env ex_plain_env (ex_output StatusOK []) host_inputs "{}" ∅ step_keys id (λ x _, x) 9 true)
    as (e' & g & gs & H1 & H2 & _ & H3 & _).
  - reflexivity.
  - reflexivity.
  - vm_compute. discriminate.
  - exact host_submits.
  - vm_compute. reflexivity.
  - apply Forall_forall, (bool_decide_unpack (Forall _ _)). vm_compute. exact I.
  - apply (bool_decide_unpack (_ ∉ _)). vm_compute. exact I.
  - vm_compute. reflexivity.
  - split; try reflexivity. intros g. apply keys_range_order.
  - intros g. apply keys_range_order.
  - reflexivity.
  - exists e', g, gs. split_and!; assumption.
Defined.

(** A step delegated to the host. *)
Definition ex_delegation : Decision.t :=
  Decision.mk "d" "a" DecisionDelegationRequired (<["kind" := AString "external_subagent"]> ∅) ["fulfill"; "skip"; "abort"] 3.
Definition ex_delegating : TaskGraph.t :=
  (blankGraph "t" [blankStep "a" StepBlocked []; blankStep "b" StepPending ["a"]]) <| TaskGraph.PendingDecisions := [ex_delegation] |>.
Definition ex_engine (g : TaskGraph.t) : Engine := mkEngine {[ "t" := g ]} {[ "t" := true ]} ∅ [].
Lemma ex_delegated : delegated (ex_engine ex_delegating) "t" "d" ex_delegating ex_delegation 0 (blankStep "a" StepBlocked []).
Proof. split; vm_compute; reflexivity. Qed.
Lemma fulfilled_step_completes_witness :
  ∃ e' store g', FulfillStep ex_fulfil_env None "t" "d" "{1}" (ex_engine ex_delegating) ∅ = (e', store, None) ∧ graphs e' !! "t" = Some g' ∧
    Step.Status <$> get_step g' "a" = Some StepOK ∧ TaskGraph.PendingDecisions g' = [].
Proof.
  destruct (fulfilled_step_completes ex_fulfil_env (ex_engine ex_delegating) ∅ "t" "d" "{1}" ex_delegating ex_delegation 0
    (blankStep "a" StepBlocked []) ex_delegated) as (e' & g' & H1 & H2 & [(st' & H3 & H4 & _) _ H5 _] & _).
  - vm_compute. reflexivity.
  - vm_compute. discriminate.
  - eexists e', _, g'. split; [exact H1|]. split; [by rewrite H2, lookup_insert_eq|]. split; [|exact H5].
    change (Decision.StepID ex_delegation) with "a" in H3. by rewrite H3, <- H4.
Defined.
Lemma prose_fulfils_failure_refused_witness :
  ∃ e' store, FulfillStep ex_fulfil_env None "t" "d" "I am done" (ex_engine ex_delegating) ∅ = (e', store, None).
Proof.
  destruct (prose_fulfils_failure_refused ex_fulfil_env (ex_engine ex_delegating) ∅ "t" "d" "I am done" ex_delegating ex_delegation 0
    (blankStep "a" StepBlocked []) ex_delegated) as [H _].
  - vm_compute. reflexivity.
  - destruct H as (e' & store' & _ & _ & H & _); [|by exists e', store']. split; [|done]. intros u d Hu.
    assert (u = "I am done") as -> by by apply list_elem_of_singleton in Hu. reflexivity.
Defined.
Definition ex_world : World := mkWorld (ex_engine ex_delegating) ∅ ∅.
(** Two hosts deliver at the same time and a third call aborts. *)
Definition ex_race : list Event :=
  [EvBegin 1 ex_fulfil_env "{1}"; EvBegin 2 ex_fulfil_env "I am done"; EvSave 1 None; EvEnd 1].
Definition ex_late : list Event := [EvSave 2 None; EvEnd 2; EvChoose None ex_env [] 5 "abort" ""].
Lemma ex_open : open_decision "t" "d" (ex_engine ex_delegating).
Proof.
  exists ex_delegating. split; [vm_compute; reflexivity|]. split; [apply (bool_decide_unpack (NoDup _)); vm_compute; exact I|].
  intros dec i H. vm_compute in H. injection H as <- _. reflexivity.
Qed.
Lemma one_answer_wins_witness :
  (play "t" "d" ex_race ex_world).2 = 1%nat ∧
  (play "t" "d" ex_late (play "t" "d" ex_race ex_world).1).2 = 0%nat ∧
  w_engine (play "t" "d" ex_late (play "t" "d" ex_race ex_world).1).1 = w_engine (play "t" "d" ex_race ex_world).1.
Proof.
  assert ((play "t" "d" ex_race ex_world).2 = 1%nat) as Hn by (vm_compute; reflexivity). split; [exact Hn|].
  destruct (one_answer_wins "t" "d" ex_world ex_race _ _ ex_open (surjective_pairing _)) as [_ H].
  destruct (H Hn ex_late _ _ (surjective_pairing _)) as [H1 H2]. split; [exact H1|]. apply H2.
  repeat constructor. intros [E|E]; discriminate.
Defined.
(** The delivery that lost has overwritten the result in the task store. *)
Example loser_overwrites_store :
  StepResult.Data <$> w_store (play "t" "d" ex_race ex_world).1 !! ("t", "a") ≠
  StepResult.Data <$> w_store (play "t" "d" ex_late (play "t" "d" ex_race ex_world).1).1 !! ("t", "a").
Proof. vm_compute. discriminate. Qed.

(** A delegation delivered on a cancelled task: the step is OK, the task stays
    cancelled, and its waiters get a channel that nobody closes. *)
Definition ex_cancelled_delivery : Engine :=
  (FulfillStep ex_fulfil_env None "t" "d" "{1}" (ex_engine (ex_delegating <| TaskGraph.Status := GraphCancelled |>)) ∅).1.1.
Example cancelled_task_blocks_waiters : blocks "t" ex_cancelled_delivery = true.
Proof. vm_compute. reflexivity. Qed.
(** A plan whose steps reuse the id of the waiting step is refused, and the step
    is deprecated all the same. *)
Definition clashing_env : FulfilEnv :=
  mkFulfilEnv ex_env (env_of [PlanStep.mk "step_0" "agent" "log in" [] [] "" [] ""]) ex_decode ex_out_env ["step_0"] 9.
Definition ex_clash : Engine * TaskStore * option FulfilError := FulfillStep clashing_env None "t1" "d1" "{}" (ss_engine host_submitted.1) ∅.
Example refused_plan_deprecates :
  match ex_clash.2 with Some (FPlanSurgery _) => true | _ => false end = true ∧
  (graphs ex_clash.1.1 !! "t1" ≫= λ g, Step.Status <$> get_step g "step_0") = Some StepDeprecated.
Proof. vm_compute. split; reflexivity. Qed.
(** The request for a plan carries no creation time, so it is never reported. *)
Example plan_request_never_reported :
  staleDelegationsLocked (10 ^ 18) (delegationAnswerTimeout None) (waiting_graph ex_sub_env host_registry ex_submission host_request) = [].
Proof. vm_compute. reflexivity. Qed.
Example delegation_reported_late :
  StaleDecision.WaitingSeconds <$> staleDelegationsLocked (3 + 1800 * Second) (delegationAnswerTimeout None) ex_delegating = [1800].
Proof. vm_compute. reflexivity. Qed.
(** The steps of a plan that replaces nothing but a request for it are told that
    it failed. *)
Example planned_step_told_of_failure :
  match (FulfillStep ex_fulfil_env None "t1" "d1" "{}" (ss_engine host_submitted.1) ∅).1.1 with
  | e => (graphs e !! "t1" ≫= λ g, contains "failed at this dead-end" ∘ Step.Task <$> get_step g "a")
  end = Some true.
Proof. vm_compute. reflexivity. Qed.
